(* ===== verification/_CoqProject ===== *)
-Q . S2P
Prelude.v
Serial.v
Replay.v
TcpFraming.v
SctpError.v
SctpParam.v
SctpChunk.v
Crc32c.v
SctpPacket.v
PayloadQueue.v
PendingQueue.v
ReassemblyQueue.v
SctpTimer.v
SctpStream.v
Association.v
AssociationSend.v
AssociationEvents.v
Transmission.v
AssociationSafety.v
Handshake.v
Acknowledgement.v
Negotiation.v
Marshal.v
DataChannel.v
DataChannelHandler.v
DataChannelTrace.v
Rtp.v
Rtcp.v
Bitmap.v
ReceiveLog.v
SendBuffer.v
RtcpNack.v
RtcpReports.v
RtcpSdes.v
RtcpFeedback.v
RtcpRemb.v
RtcpTcc.v
RtcpCcfb.v
RtcpXr.v
RtcpDatagram.v
Transport.v
NetText.v
Interceptor.v
Nack.v
Crypto.v
SrtpCipher.v
Srtp.v
Stun.v
StunAttributes.v
StunClient.v
IceCandidate.v
