(* ===== verification/Prelude.v ===== *)
(** * A verified model of the rtc stack

    The repository is a sans-I/O WebRTC stack in Rust: every protocol is a state
    machine that is handed datagrams, time and application calls and hands back
    datagrams and events.  This development models its data transport, from the
    datagram to the data channel the application sees, the protection of media (RTP
    packets and SRTP) and its feedback (RTCP, NACK), the STUN client by which
    addresses are found, ICE candidates, and the offer/answer negotiation.

    ** The parts and how they interact

    A datagram travels up through [rtc-sctp]: [packet.rs] decodes it into chunks
    ([chunk/]) whose parameters are decoded by [param/]; the association
    ([association/mod.rs]) handles each chunk, keeps received TSNs in a payload
    queue and hands DATA to the stream's reassembly queue ([queue/]), from which the
    application reads.  A message written by the application is cut into chunks by
    the stream ([association/stream.rs]), waits in the pending queue, moves to the
    in-flight queue when both windows admit it, and is bundled into datagrams.
    Timers and the retransmission timeout are in [association/timer.rs].  The messages
    of a stream belong to a data channel: [rtc-datachannel] opens it by an exchange of
    DCEP messages, and the handler of the peer connection
    ([src/src/peer_connection/handler/datachannel.rs]) finds the channel of a stream
    in its registry ([src/src/data_channel/registry.rs]), opens and closes channels
    and hands messages and events to the application.  Next to it
    stand two small components of [rtc-shared]: the replay detectors used by SRTP and
    DTLS, and the framing of packets on a TCP stream used by ICE and TURN.

    Media travels as RTP packets ([rtc-rtp]) with RTCP beside them ([rtc-rtcp]).  Both are
    protected by an SRTP context per direction ([rtc-srtp/src/context/]), which keeps a
    rollover counter and a replay detector per source and calls a cipher
    ([rtc-srtp/src/cipher/]) keyed by the DTLS exporter ([config.rs],
    [key_derivation.rs]); the cipher calls the operations of [rtc-crypto].  Between the
    application and SRTP media passes a chain of interceptors ([rtc-interceptor]); two of
    them repair loss: the receiver's NACK generator logs what arrived and asks for what is
    missing, the sender's responder keeps what was sent and sends it again.

    STUN ([rtc-stun]) is the request/response protocol ICE and TURN use to find and probe
    addresses: a message is built from attributes ([message.rs] and one file per attribute),
    may be protected by a keyed MAC and a CRC, and a client ([client.rs]) sends a request
    again on a timer until the response or the last attempt, with an agent ([agent.rs])
    that keeps the transactions in progress.  The candidates ICE exchanges
    ([rtc-ice/src/candidate/]) travel as text in session descriptions and are paired and
    ordered by priority.

    Above all stands the offer/answer negotiation of the peer connection
    ([src/src/peer_connection/internal.rs], [state/signaling_state.rs]), which decides from
    the session descriptions of both peers what is sent at all.

    ** The files

    - [Prelude]: outcomes of Rust code (a value, an error, a panic, divergence),
      machine integers, big-endian readers and writers, list lemmas, the state and
      error monad of methods that take [&mut self], record update, and rules for what
      such a method keeps unchanged.
    - [Serial]: serial number arithmetic and padding ([rtc-sctp/src/util.rs]).
    - [Replay]: [rtc-shared/src/replay_detector/].
    - [TcpFraming]: [rtc-shared/src/tcp_framing.rs].
    - [SctpError]: the error values ([rtc-shared/src/error.rs]).
    - [SctpParam], [SctpChunk], [SctpPacket]: the codecs [param/], [chunk/],
      [packet.rs].  [Crc32c] is a bitwise CRC-32C used in witnesses only: the checksum
      crate is a parameter of the model.
    - [PayloadQueue], [PendingQueue], [ReassemblyQueue]: [queue/].
    - [SctpTimer]: the timer table and the RTO estimator; binary64 arithmetic is that
      of the Standard Library's [SpecFloat].
    - [SctpStream]: stream state and [packetize].
    - [Association]: the association's record, handshake, stream reset, receipt of
      DATA and FORWARD TSN, shutdown.  [AssociationSend]: SACK, congestion control,
      fast retransmission, partial reliability, gathering of datagrams.
      [AssociationEvents]: dispatch of chunks, timers, the application's calls.
    - [Transmission], [AssociationSafety], [Handshake], [Acknowledgement]: theorems
      about them.
    - [Negotiation]: the signaling state machine, [set_description], the transceivers a remote
      offer changes and their rollback, the negotiation-needed flag.
    - [Marshal]: the codec traits ([rtc-shared/src/marshal/mod.rs]) as classes, with the
      laws a codec is proved to satisfy.
    - [DataChannel]: [rtc-datachannel].  [DataChannelHandler]: the registry, the
      channel objects, the handler and the calls of the application
      ([src/src/data_channel/], [handler/datachannel.rs], [create_data_channel]).
      [DataChannelTrace]: runs of the handler and what the application sees of them.
    - [Rtp]: [rtc-rtp/src/header.rs], [packet/mod.rs].
    - [Rtcp]: the common header, bit fields and padding of RTCP, and the [Packet] trait as the
      class [RtcpTrait], with the laws a packet type is proved to satisfy ([RtcpCodec],
      [RtcpSafe]).  The packet types: [RtcpReports] (sender and receiver reports, goodbye),
      [RtcpSdes] (source descriptions), [RtcpNack], [RtcpFeedback] (resynchronization
      request, picture and slice loss, full intra request), [RtcpRemb] (bitrate estimates;
      binary32 arithmetic of [SpecFloat]), [RtcpTcc] (transport-wide congestion control),
      [RtcpCcfb] (RFC 8888; how the network splits a buffer is the parameter [Segmented]),
      [RtcpXr] (extended reports).  [RtcpDatagram]: raw packets, [packet.rs] and
      [compound_packet/], with the theorems about datagrams, proved from the laws.
    - [Bitmap]: the ring of bits of [rtc-interceptor/src/bitmap.rs].  [ReceiveLog],
      [SendBuffer]: [nack/receive_log.rs], [nack/send_buffer.rs].  [Interceptor]:
      packets, the trait as a class, chain, registry and the no-op interceptor.  [Nack]:
      [nack/generator.rs], [nack/responder.rs] as instances of the class.
    - [Transport]: addresses and transport contexts ([rtc-shared/src/transport.rs]).
    - [Crypto]: the operations of [rtc-crypto] as records of functions, with the laws the
      clients rely on as the classes [CryptoLaws] and [HmacLaws].
    - [SrtpCipher]: profiles, key derivation and the two ciphers, proved to keep the laws
      [CipherLaws].  [Srtp]: the contexts, proved against [CipherLaws].
    - [Stun]: message types, the message buffer and its decoder ([rtc-stun/src/message.rs],
      [attributes.rs]).  [StunAttributes]: the attributes and [Setter]s ([addr.rs],
      [xoraddr.rs], [textattrs.rs], [error_code.rs], [uattrs.rs], [integrity.rs],
      [fingerprint.rs]).  [StunClient]: [agent.rs] and [client.rs].  The CRC-32 and MD5
      crates, the random transaction identifiers and the order of the agent's hash map are
      parameters.
    - [NetText]: the text functions of Rust's standard library that candidates are read with
      (integers, IP addresses, white space).  [IceCandidate]: candidates and pairs
      ([rtc-ice/src/candidate/], [network_type/], [tcp_type/]).

    A Rust struct is a [Record] with the source's field names (a prefix where two
    structs share a name), an enum an [Inductive].  A pure function is a Rocq
    function; a method that changes [self] takes the state and returns it.  Vectors
    and deques are lists, hash maps are [gmap]s: where the association
    iterates over a hash map the model takes the order of [map_to_list], and the data
    channel handler takes the order as a parameter.  [Instant] is a number of
    nanoseconds.  Logging is left out.

    ** What the theorems show

    - Codecs: parameters, chunks and packets survive encoding and decoding; the two
      packet decoders agree; decoding never runs away, and panics only in the cases
      named.
    - Queues: the receive window accepts no TSN twice and advances to the first gap;
      gap ack blocks name exactly what arrived; the pending queue refines an abstract
      queue of messages; an ordered stream delivers exactly what was written, in
      order, whatever the network reorders or repeats (with overflow checks, as long as no
      message crosses the wrap of the TSN); unordered messages and FORWARD
      TSN behave as specified.
    - Timers: back-off, the earliest deadline, and the bounds of the retransmission
      timeout.
    - Association: new DATA stays within the congestion and receive windows; bundles
      fit the MTU and decode to the chunks put in; the state machine moves only along
      the listed transitions; an association is established only by the cookie; two
      associations whose datagrams arrive complete the handshake and agree on tags, TSNs
      and the number of streams they report, while the limits per direction are compared
      like with like; a SACK that fits releases exactly the chunks it acknowledges; the TSNs in
      flight are consecutive; data flows only after a handshake; and [shutdown] does
      not wait for outstanding data, whose SACKs are ignored in the state it leads to.
    - Data channels: DCEP messages survive encoding and decoding; [dial] and [accept]
      open a channel at both ends with the same parameters; stream identifiers are
      assigned by role, in order, the lowest that is free; and in every run in which
      negotiated channels are created before the association, on streams that are free, the
      application sees of a channel its opening, then the messages in order, each once, and
      its close exactly once.
    - RTP: packets survive encoding and decoding, and setting an extension keeps a header
      well formed.
    - RTCP: a datagram is accepted exactly when it is a sequence of frames that decode as the
      packets returned, without a panic whatever the bytes; the packets written come back,
      but for slice loss indications, the type of raw packets and the length of profile
      extensions, for which the theorem says what comes back; a compound packet accepted as valid has the shape RFC 3550 asks for and a CNAME; and
      the result does not depend on how the buffer is split.
    - SRTP: a session delivers every packet once, in spite of loss, reordering, repetition
      and forgery, for packets that arrive before the highest index delivered is too far away
      (2^15 less the replay window); an SRTCP session delivers every packet that is new and
      inside the window, and none twice; the initialization vectors are injective in
      the source, the rollover counter or index and the sequence number; the key derivation is that of RFC 3711.
    - Negotiation: [set_description] moves along the transitions of JSEP, all but five which it
      refuses, and no others; two
      peers that exchange descriptions agree on them whenever they are at rest, also when
      offers cross, and can always come to rest; rolling a remote offer back restores the
      transceivers, with the tags that are in the current descriptions.
    - Loss repair: the bitmap's word operations are the bit by bit ones; the receive log
      reports exactly what is missing from its window; the send buffer keeps its
      invariant and holds exactly the packets its window and limits admit; NACK pairs
      carry exactly the numbers packed; through the chains of both ends the sender resends
      exactly what the receiver misses and the sender still holds, for logs of at most
      16384 numbers; and in every run a number is asked for no more often than the limit
      while it stays missing.
    - STUN: decoding accepts exactly the messages of RFC 5389's layout, up to the two topmost
      bits and what follows the announced length, and returns their attributes; what is built from settings is read back from the decoded message; a
      message with integrity and fingerprint is accepted by the peer with the key, and the
      integrity check accepts exactly a message whose MAC covers what precedes it; a client
      sends an unanswered request at the documented attempts and then reports the timeout,
      never waits on nothing while a transaction is open, and polling its events ends.
    - ICE candidates: a candidate is read back from its text; the priority of a pair does not
      overflow, is the same at both ends and orders pairs as RFC 8445 asks.
    - Replay detection and TCP framing: no sequence number is accepted twice, for windows
      whose size modulo 64 is at most 32; framed packets come back whatever the segmentation.

    ** Overflow, fuel and bounds

    Integers are [Z] with their width written out ([as_u32], ...).  Operations that
    can overflow take a flag [oc]: with it they panic (overflow checks on), without it
    they wrap (release build).  Loops that are not structural take fuel and return
    [Diverge] when it runs out; each caller passes a measure of the data the loop
    consumes (bytes left, chunks queued, distance of two TSNs), and the theorems state
    results, so they also show the fuel is enough.  Counters of events ([u64]) and
    retransmission counts are not wrapped.

    ** Not modelled

    DTLS, the ICE agent, TURN, STUN URIs, mDNS, SDP, the other interceptors, the codecs of RTP
    payloads, media containers, the SCTP endpoint and the peer connection that ties them together: they
    are separate crates that only call what is modelled
    here, or are called by it through bytes.  Cryptographic libraries and the CRC
    crates are outside the sources. *)
From stdpp Require Export base tactics list numbers option gmap strings sorting.
From Stdlib Require Export ZArith Lia.

Open Scope Z_scope.
Set Default Proof Using "Type".

(** * Outcomes of Rust code *)

(** [Ok] and [Err] are the two constructors of [Result]; [Panic] stands for an
    unwinding panic (slice out of range, [Buf] underflow, [assert!], an integer
    overflow in a build with overflow checks); [Diverge] is what a loop modelled
    with fuel returns when the fuel runs out, so that a theorem that names the
    result, or says [no_panic], also says that the loop ends. *)
Inductive outcome (E A : Type) : Type :=
| Ok (a : A)
| Err (e : E)
| Panic
| Diverge.
Arguments Ok {E A} a.
Arguments Err {E A} e.
Arguments Panic {E A}.
Arguments Diverge {E A}.

#[export] Instance outcome_ret E : MRet (outcome E) := fun A a => Ok a.
#[export] Instance outcome_bind E : MBind (outcome E) := fun A B k m =>
  match m with Ok a => k a | Err e => Err e | Panic => Panic | Diverge => Diverge end.
#[export] Instance outcome_fmap E : FMap (outcome E) := fun A B f m =>
  match m with Ok a => Ok (f a) | Err e => Err e | Panic => Panic | Diverge => Diverge end.

#[export] Instance outcome_eq_dec `{EqDecision E, EqDecision A} : EqDecision (outcome E A).
Proof. solve_decision. Defined.

(** [post m P]: [m] ends without a panic, and a value it returns satisfies [P]. *)
Definition post {E A} (m : outcome E A) (P : A -> Prop) : Prop :=
  match m with Ok a => P a | Err _ => True | Panic | Diverge => False end.

(** [post_or m P Q]: the same for code that panics only when [Q] holds. *)
Definition post_or {E A} (m : outcome E A) (P : A -> Prop) (Q : Prop) : Prop :=
  match m with Ok a => P a | Err _ => True | Panic => Q | Diverge => False end.

(** [m] ends, in [Ok] or [Err]. *)
Definition no_panic {E A} (m : outcome E A) : Prop := post m (fun _ => True).

Section outcome_laws.
Context {E : Type}.

Lemma bind_Ok {A B} (m : outcome E A) (k : A -> outcome E B) (b : B) :
  m ≫= k = Ok b <-> exists a, m = Ok a /\ k a = Ok b.
Proof. destruct m; simpl; naive_solver. Qed.

Lemma post_bind {A B} (m : outcome E A) (k : A -> outcome E B) P Q :
  post m P -> (forall a, m = Ok a -> P a -> post (k a) Q) -> post (m ≫= k) Q.
Proof. destruct m; simpl; naive_solver. Qed.

Lemma post_weaken {A} (m : outcome E A) (P Q : A -> Prop) :
  post m P -> (forall a, P a -> Q a) -> post m Q.
Proof. destruct m; simpl; naive_solver. Qed.

Lemma post_or_bind {A B} (m : outcome E A) (k : A -> outcome E B) P R Q :
  post_or m P R -> (forall a, m = Ok a -> P a -> post_or (k a) Q R) -> post_or (m ≫= k) Q R.
Proof. destruct m; simpl; naive_solver. Qed.

Lemma post_or_intro {A} (m : outcome E A) P R : post m P -> post_or m P R.
Proof. by destruct m. Qed.

Lemma post_no_panic {A} (m : outcome E A) P : post m P -> no_panic m.
Proof. destruct m; unfold no_panic; simpl; naive_solver. Qed.

Lemma post_Ok {A} (m : outcome E A) P a : post m P -> m = Ok a -> P a.
Proof. intros H ->; exact H. Qed.

Lemma post_if {A} (c : bool) (m1 m2 : outcome E A) P :
  (c = true -> post m1 P) -> (c = false -> post m2 P) -> post (if c then m1 else m2) P.
Proof. destruct c; auto. Qed.
End outcome_laws.

(** * Machine integers *)

(** A [w]-bit unsigned integer is a [Z] in range; the ranges are literals so
    that [lia] sees them. *)
Definition is_u8 (x : Z) : Prop := 0 <= x < 256.
Definition is_u16 (x : Z) : Prop := 0 <= x < 65536.
Definition is_u32 (x : Z) : Prop := 0 <= x < 4294967296.
Definition is_u64 (x : Z) : Prop := 0 <= x < 18446744073709551616.

#[export] Instance is_u8_dec x : Decision (is_u8 x).
Proof. unfold is_u8; solve_decision. Defined.
#[export] Instance is_u16_dec x : Decision (is_u16 x).
Proof. unfold is_u16; solve_decision. Defined.
#[export] Instance is_u32_dec x : Decision (is_u32 x).
Proof. unfold is_u32; solve_decision. Defined.

(** [x as uN]: truncation to the low bits; also the wrapping operations. *)
Definition as_u16 (x : Z) : Z := x mod 65536.
Definition as_u32 (x : Z) : Z := x mod 4294967296.
Definition as_u64 (x : Z) : Z := x mod 18446744073709551616.

(** The plain [+] of Rust on an unsigned type with modulus [m]: with overflow
    checks ([oc = true], the dev profile) an overflow panics, without them
    (release) it wraps. *)
Definition add_ovf {E} (oc : bool) (m a b : Z) : outcome E Z :=
  if a + b <? m then Ok (a + b) else if oc then Panic else Ok (a + b - m).

(** The plain [-], likewise. *)
Definition sub_ovf {E} (oc : bool) (m a b : Z) : outcome E Z :=
  if b <=? a then Ok (a - b) else if oc then Panic else Ok (a - b + m).

(** The plain [*], likewise. *)
Definition mul_ovf {E} (oc : bool) (m a b : Z) : outcome E Z :=
  if a * b <? m then Ok (a * b) else if oc then Panic else Ok (a * b mod m).

(** The moduli of [u32], and of [usize] on a 64-bit target. *)
Definition U32 : Z := 4294967296.
Definition USIZE : Z := 18446744073709551616.

(** [lia] with division and modulo by constants. *)
Ltac mlia := Z.to_euclidean_division_equations; lia.

Ltac unfold_ints := unfold is_u8, is_u16, is_u32, is_u64, as_u16, as_u32, as_u64 in *.

Lemma sub_ovf_Ok {E} oc m a b : b <= a -> sub_ovf (E:=E) oc m a b = Ok (a - b).
Proof. intros. unfold sub_ovf. destruct (Z.leb_spec b a); [done|lia]. Qed.
Lemma mul_ovf_Ok {E} oc m a b : a * b < m -> mul_ovf (E:=E) oc m a b = Ok (a * b).
Proof. intros. unfold mul_ovf. destruct (Z.ltb_spec (a * b) m); [done|lia]. Qed.
Lemma add_ovf_Ok {E} oc m a b : a + b < m -> add_ovf (E:=E) oc m a b = Ok (a + b).
Proof. intros. unfold add_ovf. destruct (Z.ltb_spec (a + b) m); [done|lia]. Qed.
Lemma as_u16_range x : is_u16 (as_u16 x).
Proof. unfold_ints; mlia. Qed.
Lemma as_u32_range x : is_u32 (as_u32 x).
Proof. unfold_ints; mlia. Qed.
Lemma as_u16_id x : is_u16 x -> as_u16 x = x.
Proof. unfold_ints; mlia. Qed.
Lemma as_u32_id x : is_u32 x -> as_u32 x = x.
Proof. unfold_ints; mlia. Qed.

(** * Byte buffers *)

(** [Bytes], [BytesMut] and [Vec<u8>] are lists of bytes. *)
Abbreviation bytes := (list Z).

Definition bytes_ok (l : bytes) : Prop := Forall is_u8 l.
Definition zlen {A} (l : list A) : Z := Z.of_nat (length l).

(** [BufMut::put_*] (big endian). *)
Definition put_u8 (x : Z) : bytes := [x mod 256].
Definition put_u16 (x : Z) : bytes := [x / 256 mod 256; x mod 256].
Definition put_u32 (x : Z) : bytes :=
  [x / 16777216 mod 256; x / 65536 mod 256; x / 256 mod 256; x mod 256].
(** [u32::to_le_bytes]. *)
Definition le_bytes_u32 (x : Z) : bytes :=
  [x mod 256; x / 256 mod 256; x / 65536 mod 256; x / 16777216 mod 256].
(** [BufMut::put_bytes(0, n)]. *)
Definition zeros (n : Z) : bytes := replicate (Z.to_nat n) 0.

(** [Buf::get_*] (big endian): they advance the reader and panic when fewer
    bytes remain. *)
Definition get_u8 {E} (l : bytes) : outcome E (Z * bytes) :=
  match l with b0 :: r => Ok (b0, r) | _ => Panic end.
Definition get_u16 {E} (l : bytes) : outcome E (Z * bytes) :=
  match l with b0 :: b1 :: r => Ok (b0 * 256 + b1, r) | _ => Panic end.
Definition get_u32 {E} (l : bytes) : outcome E (Z * bytes) :=
  match l with
  | b0 :: b1 :: b2 :: b3 :: r =>
      Ok (b0 * 16777216 + b1 * 65536 + b2 * 256 + b3, r)
  | _ => Panic
  end.
Definition get_u32_le {E} (l : bytes) : outcome E (Z * bytes) :=
  match l with
  | b0 :: b1 :: b2 :: b3 :: r =>
      Ok (b0 + b1 * 256 + b2 * 65536 + b3 * 16777216, r)
  | _ => Panic
  end.

(** [raw.slice(a..b)] and [&raw[a..b]]. *)
Definition slice {E} (l : bytes) (a b : Z) : outcome E bytes :=
  if (0 <=? a) && (a <=? b) && (b <=? zlen l)
  then Ok (take (Z.to_nat (b - a)) (drop (Z.to_nat a) l)) else Panic.
(** [raw[i]]. *)
Definition index {E} (l : bytes) (i : Z) : outcome E Z :=
  if (0 <=? i) && (i <? zlen l) then Ok (nth (Z.to_nat i) l 0) else Panic.

Lemma zlen_nonneg {A} (l : list A) : 0 <= zlen l.
Proof. unfold zlen; lia. Qed.
Lemma zlen_nil {A} : zlen (@nil A) = 0.
Proof. reflexivity. Qed.
Lemma zlen_cons {A} (x : A) l : zlen (x :: l) = 1 + zlen l.
Proof. unfold zlen; simpl length; lia. Qed.
Lemma zlen_app {A} (l1 l2 : list A) : zlen (l1 ++ l2) = zlen l1 + zlen l2.
Proof. unfold zlen; rewrite length_app; lia. Qed.
Lemma zlen_take {A} n (l : list A) : zlen (take n l) = Z.min (Z.of_nat n) (zlen l).
Proof. unfold zlen; rewrite length_take; lia. Qed.
Lemma zlen_drop {A} n (l : list A) : zlen (drop n l) = Z.max 0 (zlen l - Z.of_nat n).
Proof. unfold zlen; rewrite length_drop; lia. Qed.
Lemma zlen_zeros n : zlen (zeros n) = Z.max 0 n.
Proof. unfold zlen, zeros; rewrite length_replicate; lia. Qed.
Lemma zlen_put_u8 x : zlen (put_u8 x) = 1.
Proof. reflexivity. Qed.
Lemma zlen_put_u16 x : zlen (put_u16 x) = 2.
Proof. reflexivity. Qed.
Lemma zlen_put_u32 x : zlen (put_u32 x) = 4.
Proof. reflexivity. Qed.
Lemma zlen_le_bytes_u32 x : zlen (le_bytes_u32 x) = 4.
Proof. reflexivity. Qed.
Lemma zlen_map {A B} (f : A -> B) l : zlen (map f l) = zlen l.
Proof. unfold zlen; rewrite length_map; done. Qed.

Create Rewrite HintDb zlen.
#[export] Hint Rewrite @zlen_nil @zlen_cons @zlen_app @zlen_take @zlen_drop zlen_zeros
  zlen_put_u8 zlen_put_u16 zlen_put_u32 zlen_le_bytes_u32 @zlen_map : zlen.

(** Length goals: push [zlen] to the leaves and leave the rest to [lia]. *)
Ltac zlen_pos :=
  repeat match goal with
  | |- context [zlen ?l] =>
      lazymatch goal with H : 0 <= zlen l |- _ => fail | _ => pose proof (zlen_nonneg l) end
  | H : context [zlen ?l] |- _ =>
      lazymatch goal with H : 0 <= zlen l |- _ => fail | _ => pose proof (zlen_nonneg l) end
  end.
Ltac zlia := autorewrite with zlen in *; zlen_pos; unfold_ints; lia.

Section buffers.
Context {E : Type}.

Lemma get_put_u8 x r : is_u8 x -> get_u8 (E:=E) (put_u8 x ++ r) = Ok (x, r).
Proof. intros; simpl; do 2 f_equal; unfold_ints; mlia. Qed.
Lemma get_put_u16 x r : is_u16 x -> get_u16 (E:=E) (put_u16 x ++ r) = Ok (x, r).
Proof. intros; simpl; do 2 f_equal; unfold_ints; mlia. Qed.
Lemma get_put_u32 x r : is_u32 x -> get_u32 (E:=E) (put_u32 x ++ r) = Ok (x, r).
Proof. intros; simpl; do 2 f_equal; unfold_ints; mlia. Qed.
Lemma get_le_bytes_u32 x r : is_u32 x -> get_u32_le (E:=E) (le_bytes_u32 x ++ r) = Ok (x, r).
Proof. intros; simpl; do 2 f_equal; unfold_ints; mlia. Qed.

Lemma post_get_u8 l : 1 <= zlen l ->
  post (get_u8 (E:=E) l) (fun vr => zlen vr.2 = zlen l - 1 /\ (bytes_ok l -> is_u8 vr.1 /\ bytes_ok vr.2)).
Proof.
  destruct l as [|a l]; simpl; autorewrite with zlen; [lia|].
  split; [lia|]. unfold bytes_ok; rewrite Forall_cons; auto.
Qed.
Lemma post_get_u16 l : 2 <= zlen l ->
  post (get_u16 (E:=E) l) (fun vr => zlen vr.2 = zlen l - 2 /\ (bytes_ok l -> is_u16 vr.1 /\ bytes_ok vr.2)).
Proof.
  destruct l as [|a [|b l]]; simpl; autorewrite with zlen; try lia.
  split; [lia|]. unfold bytes_ok. rewrite !Forall_cons. unfold_ints; naive_solver lia.
Qed.
Lemma post_get_u32 l : 4 <= zlen l ->
  post (get_u32 (E:=E) l) (fun vr => zlen vr.2 = zlen l - 4 /\ (bytes_ok l -> is_u32 vr.1 /\ bytes_ok vr.2)).
Proof.
  destruct l as [|a [|b [|c [|d l]]]]; simpl; autorewrite with zlen; try lia.
  split; [lia|]. unfold bytes_ok. rewrite !Forall_cons. unfold_ints; naive_solver lia.
Qed.
Lemma post_get_u32_le l : 4 <= zlen l ->
  post (get_u32_le (E:=E) l) (fun vr => zlen vr.2 = zlen l - 4).
Proof. destruct l as [|a [|b [|c [|d l]]]]; simpl; autorewrite with zlen; lia. Qed.

Lemma slice_Ok l a b : 0 <= a <= b -> b <= zlen l ->
  slice (E:=E) l a b = Ok (take (Z.to_nat (b - a)) (drop (Z.to_nat a) l)).
Proof.
  intros. unfold slice.
  destruct (Z.leb_spec 0 a), (Z.leb_spec a b), (Z.leb_spec b (zlen l)); try lia; done.
Qed.
Lemma post_slice l a b : 0 <= a <= b -> b <= zlen l ->
  post (slice (E:=E) l a b) (fun s => zlen s = b - a /\ (bytes_ok l -> bytes_ok s)).
Proof.
  intros. rewrite slice_Ok by done. simpl. split; [zlia|].
  intros; apply Forall_take, Forall_drop; done.
Qed.
Lemma slice_app l1 l2 l3 : slice (E:=E) (l1 ++ l2 ++ l3) (zlen l1) (zlen l1 + zlen l2) = Ok l2.
Proof.
  rewrite slice_Ok by zlia.
  replace (Z.to_nat (zlen l1)) with (length l1) by (unfold zlen; lia).
  replace (Z.to_nat (zlen l1 + zlen l2 - zlen l1)) with (length l2) by (unfold zlen; lia).
  rewrite drop_app_length, take_app_length; done.
Qed.
Lemma slice_app_eq l l1 l2 l3 a b : l = l1 ++ l2 ++ l3 -> a = zlen l1 -> b = zlen l1 + zlen l2 ->
  slice (E:=E) l a b = Ok l2.
Proof. intros -> -> ->; apply slice_app. Qed.
Lemma post_index l i : 0 <= i < zlen l -> post (index (E:=E) l i) (fun v => bytes_ok l -> is_u8 v).
Proof.
  intros. unfold index. destruct (Z.leb_spec 0 i), (Z.ltb_spec i (zlen l)); try lia; simpl.
  intros Hl. apply (proj1 (List.Forall_nth is_u8 l) Hl). unfold zlen in *; lia.
Qed.
End buffers.
Lemma put_u16_inj x y : is_u16 x -> is_u16 y -> put_u16 x = put_u16 y -> x = y.
Proof.
  intros Hx Hy H. pose proof (get_put_u16 (E:=unit) x [] Hx) as H1. rewrite H in H1.
  rewrite (get_put_u16 (E:=unit) y [] Hy) in H1. congruence.
Qed.

Lemma bytes_ok_app l1 l2 : bytes_ok (l1 ++ l2) <-> bytes_ok l1 /\ bytes_ok l2.
Proof. apply Forall_app. Qed.
Lemma bytes_ok_put_u8 x : bytes_ok (put_u8 x).
Proof. repeat constructor; mlia. Qed.
Lemma bytes_ok_put_u16 x : bytes_ok (put_u16 x).
Proof. repeat constructor; mlia. Qed.
Lemma bytes_ok_put_u32 x : bytes_ok (put_u32 x).
Proof. repeat constructor; mlia. Qed.
Lemma bytes_ok_zeros n : bytes_ok (zeros n).
Proof. apply Forall_replicate. unfold is_u8; lia. Qed.
Lemma bytes_ok_concat_map {A} (f : A -> bytes) l :
  (forall x, bytes_ok (f x)) -> bytes_ok (concat (map f l)).
Proof. intros Hf; induction l; simpl; [constructor|]. apply bytes_ok_app; auto. Qed.

Create HintDb post.
#[export] Hint Resolve bytes_ok_put_u8 bytes_ok_put_u16 bytes_ok_put_u32 bytes_ok_zeros
  bytes_ok_concat_map : post.

(** One step of a [post] proof along the code: a branch, a read of the buffer, or
    a call whose specification is in the hint database [post]. *)
Ltac post_step :=
  cbn zeta beta;
  lazymatch goal with
  | |- post (Ok _) _ => cbn [post]
  | |- post (Err _) _ => exact I
  | |- post (if _ then _ else _) _ => apply post_if; intros ?
  | |- post (get_u8 _ ≫= _) _ =>
      eapply post_bind; [apply post_get_u8; zlia | intros [? ?] _ [? ?]; cbn [fst snd] in *]
  | |- post (get_u16 _ ≫= _) _ =>
      eapply post_bind; [apply post_get_u16; zlia | intros [? ?] _ [? ?]; cbn [fst snd] in *]
  | |- post (get_u32 _ ≫= _) _ =>
      eapply post_bind; [apply post_get_u32; zlia | intros [? ?] _ [? ?]; cbn [fst snd] in *]
  | |- post (slice _ _ _ ≫= _) _ =>
      eapply post_bind; [apply post_slice; zlia | intros ? _ [? ?]]
  | |- post (index _ _ ≫= _) _ =>
      eapply post_bind; [apply post_index; zlia | intros ? _ ?]
  | |- post (_ ≫= _) _ =>
      eapply post_bind; [solve [eauto with post] | intros ? ? ?; cbn beta in *]
  end.

(** Discharges the range of the fields read one after the other from a buffer. *)
Ltac use_ok :=
  repeat match goal with
  | H : bytes_ok ?l -> _, Hl : bytes_ok ?l |- _ => specialize (H Hl)
  | H : _ /\ _ |- _ => destruct H
  end.

(** [for _ in 0..n { v.push(reader.get_*()) }]. *)
Fixpoint read_n {E A} (rd : bytes -> outcome E (A * bytes)) (n : nat) (reader : bytes)
  : outcome E (list A * bytes) :=
  match n with
  | O => Ok ([], reader)
  | S n => '(x, reader) ← rd reader; '(xs, reader) ← read_n rd n reader; Ok (x :: xs, reader)
  end.

Section read_n.
Context {E A : Type} (rd : bytes -> outcome E (A * bytes)) (ok : A -> Prop).

Lemma read_n_write (wr : A -> bytes) l r :
  (forall x r, ok x -> rd (wr x ++ r) = Ok (x, r)) ->
  Forall ok l -> read_n rd (length l) (concat (map wr l) ++ r) = Ok (l, r).
Proof.
  intros Hrw; induction 1 as [|x l Hx Hl IH]; cbn -[app]; [done|].
  rewrite <- (assoc_L app), Hrw by done. cbn -[app]. by rewrite IH.
Qed.

Lemma post_read_n (w : Z) n l :
  0 < w ->
  (forall l, w <= zlen l ->
     post (rd l) (fun vr => zlen vr.2 = zlen l - w /\ (bytes_ok l -> ok vr.1 /\ bytes_ok vr.2))) ->
  w * Z.of_nat n <= zlen l ->
  post (read_n rd n l) (fun vr => zlen vr.2 = zlen l - w * Z.of_nat n /\ length vr.1 = n /\
                                  (bytes_ok l -> Forall ok vr.1 /\ bytes_ok vr.2)).
Proof.
  intros Hw Hrd; revert l; induction n as [|n IH]; intros l Hl; cbn [read_n].
  { cbn. split_and!; [lia|done|auto]. }
  eapply post_bind; [apply Hrd; nia|]. intros [x r] _ [Hr Hok]; cbn in *.
  eapply post_bind; [apply IH; nia|]. intros [xs r'] _ (Hr' & Hn & Hok'); cbn in *.
  split_and!; [lia|lia|]. intros [? ?]%Hok. naive_solver.
Qed.
End read_n.

(** A property of a byte or another small number, checked value by value. *)
Lemma bounded_forall (n : nat) (P : Z -> bool) :
  forallb P (map Z.of_nat (seq 0 n)) = true -> forall z, 0 <= z < Z.of_nat n -> P z = true.
Proof.
  intros H z Hz. rewrite forallb_forall in H. apply H. apply in_map_iff. exists (Z.to_nat z). split; [lia|]. apply in_seq. lia.
Qed.

(** * Methods that take [&mut self] and return a [Result] *)

(** The object is threaded through; an [Err] leaves the changes made before it. *)
Definition stm (S E A : Type) : Type := S -> outcome E A * S.

#[export] Instance stm_ret S E : MRet (stm S E) := fun A a s => (Ok a, s).
#[export] Instance stm_bind S E : MBind (stm S E) := fun A B k m s =>
  match m s with
  | (Ok a, s) => k a s
  | (Err e, s) => (Err e, s)
  | (Panic, s) => (Panic, s)
  | (Diverge, s) => (Diverge, s)
  end.
Definition gets {S E A} (f : S -> A) : stm S E A := fun s => (Ok (f s), s).
Definition modify {S E} (f : S -> S) : stm S E unit := fun s => (Ok tt, f s).
Definition lift {S E A} (m : outcome E A) : stm S E A := fun s => (m, s).
Definition throw {S E A} (e : E) : stm S E A := fun s => (Err e, s).
(** [for x in l { f(x)?; }] *)
Fixpoint for_each {S E A} (f : A -> stm S E unit) (l : list A) : stm S E unit :=
  match l with
  | [] => mret tt
  | x :: l => f x ;; for_each f l
  end.

(** Running a computation step by step; [stm_step] takes one step of the goal. *)
Section run.
Context {S E : Type}.
Lemma bind_run {A B} (m : stm S E A) (k : A -> stm S E B) s x s' : m s = (Ok x, s') -> (m ≫= k) s = k x s'.
Proof. intros H. unfold mbind, stm_bind. by rewrite H. Qed.
Lemma bind_get {B} (k : S -> stm S E B) s : (gets id ≫= k) s = k s s.
Proof. done. Qed.
Lemma bind_modify {B} f (k : unit -> stm S E B) s : (modify f ≫= k) s = k tt (f s).
Proof. done. Qed.
Lemma bind_lift {A B} (o : outcome E A) (k : A -> stm S E B) s x : o = Ok x -> (lift o ≫= k) s = k x s.
Proof. by intros ->. Qed.
Lemma bind_ret {A B} (x : A) (k : A -> stm S E B) s : (mret x ≫= k) s = k x s.
Proof. done. Qed.
Lemma bind_assoc {A B C} (m : stm S E A) (k : A -> stm S E B) (h : B -> stm S E C) s :
  ((m ≫= k) ≫= h) s = (m ≫= (fun x => k x ≫= h)) s.
Proof. unfold mbind, stm_bind. destruct (m s) as [[]]; done. Qed.
End run.
Ltac stm_step := first [rewrite bind_assoc | rewrite bind_get | rewrite bind_modify | rewrite bind_ret]; cbv beta iota.

Lemma for_each_inv {S E A} (P : S -> Prop) (f : A -> stm S E unit) l s :
  P s -> (forall x s, x ∈ l -> P s -> P (f x s).2) -> P (for_each f l s).2.
Proof.
  revert s. induction l as [|x l IH]; intros s Hs Hf; cbn [for_each]; [done|].
  unfold mbind, stm_bind. pose proof (Hf x s ltac:(left) Hs) as Hx.
  destruct (f x s) as [[u|e| |] s']; cbn in *; [|done..]. apply IH; [done|]. intros y s1 Hy. apply Hf. by right.
Qed.

(** ** What a method keeps

    For a preorder [R] on states ("nothing but ... changed"), [R s0 (m s).2] says that
    running [m] from [s] stays related to [s0], whatever the outcome.  The rules below
    walk through a method's body; [kept] does so with the lemmas of the [kept] hint
    database for the methods it calls. *)
Create HintDb kept discriminated.

Section kept.
Context {S E : Type} (R : relation S) `{!PreOrder R}.

Lemma kept_bind {A B} s0 s (m : stm S E A) (k : A -> stm S E B) :
  R s0 s -> R s (m s).2 -> (forall x s', m s = (Ok x, s') -> R s0 s' -> R s0 (k x s').2) -> R s0 ((m ≫= k) s).2.
Proof using Type*.
  intros H0 H1 H2. unfold mbind, stm_bind. destruct (m s) as [[x|e| |] s'] eqn:Em; cbn in *;
    [apply H2; [done|]|..]; by etrans.
Qed.

Lemma kept_bind_sub (R' : relation S) {A B} s0 s (m : stm S E A) (k : A -> stm S E B) :
  (forall s s', R s s' -> R' s s') -> R s0 s -> R s (m s).2 ->
  (forall x s', R s0 s' -> R' s0 (k x s').2) -> R' s0 ((m ≫= k) s).2.
Proof using Type*.
  intros Hsub H0 H1 H2. unfold mbind, stm_bind. destruct (m s) as [[x|e| |] s'] eqn:Em; cbn in *;
    [apply H2|apply Hsub..]; by etrans.
Qed.

Lemma kept_gets {A B} s0 s (f : S -> A) (k : A -> stm S E B) :
  R s0 (k (f s) s).2 -> R s0 ((gets f ≫= k) s).2.
Proof using Type. done. Qed.

Lemma kept_modify {B} s0 s (f : S -> S) (k : unit -> stm S E B) :
  R s0 (f s) -> (forall s', R s0 s' -> R s0 (k tt s').2) -> R s0 ((modify f ≫= k) s).2.
Proof using Type. intros H0 H. exact (H _ H0). Qed.

Lemma kept_lift {A B} s0 s (o : outcome E A) (k : A -> stm S E B) :
  R s0 s -> (forall x, o = Ok x -> R s0 (k x s).2) -> R s0 ((lift o ≫= k) s).2.
Proof using Type. intros H0 H. unfold mbind, stm_bind, lift. destruct o; cbn; auto. Qed.

Lemma kept_tail {A} s0 s (m : stm S E A) : R s0 s -> R s (m s).2 -> R s0 (m s).2.
Proof using Type*. intros. by etrans. Qed.

Lemma kept_for_each {A} (f : A -> stm S E unit) l s :
  (forall x s, R s (f x s).2) -> R s (for_each f l s).2.
Proof using Type*.
  intros Hf. revert s. induction l as [|x l IH]; intros s; cbn [for_each]; [done|].
  apply kept_bind; [done|apply Hf|]. intros _ s' _ Hs'. by etrans.
Qed.
End kept.

(** * Record update *)

(** [r <| f := v |>] is [r] with field [f] replaced, for every record that has an
    [Eta] instance (its constructor applied to its projections). *)
Class Eta (R : Type) := eta : R -> R.
Class Setter {R T : Type} (proj : R -> T) := over : (T -> T) -> R -> R.
Arguments over {R T} proj {_} f r.

Ltac get_setter proj :=
  lazymatch type of proj with
  | ?R -> ?T =>
      let e := constr:(_ : Eta R) in
      let e := eval hnf in e in
      lazymatch eval pattern proj in e with
      | (fun _ => ?b) _ => fail 2 "the Eta instance does not mention the field"
      | ?s _ => exact (fun (f : T -> T) => s (fun r => f (proj r)))
      end
  end.
#[export] Hint Extern 1 (Setter ?p) => get_setter p : typeclass_instances.

Declare Scope rust_scope.
Open Scope rust_scope.
#[warnings="-postfix-notation-not-level-1"]
Notation "r <| p ::= f |>" := (over p f r)
  (at level 10, left associativity, p at level 9) : rust_scope.
#[warnings="-postfix-notation-not-level-1"]
Notation "r <| p := v |>" := (over p (fun _ => v) r)
  (at level 10, left associativity, p at level 9) : rust_scope.

(** * Sequences *)

(** [partition_point] of [[T]] and [VecDeque]: the index of the first element
    that fails the predicate.  The standard library finds it by binary search,
    which agrees with the scan on the partitioned sequences it is specified
    for; the theorems below that depend on the index assume such a sequence. *)
Fixpoint partition_point {A} (f : A -> bool) (l : list A) : nat :=
  match l with
  | [] => 0%nat
  | x :: r => if f x then S (partition_point f r) else 0%nat
  end.

(** [Vec::insert] / [VecDeque::insert] at an index not beyond the end. *)
Definition insert_at {A} (i : nat) (x : A) (l : list A) : list A := take i l ++ x :: drop i l.

(** Sum of an integer measure over a sequence. *)
Definition zsum {A} (f : A -> Z) (l : list A) : Z := foldr (fun x n => f x + n) 0 l.

Section sequences.
Context {A : Type}.
Implicit Types (l : list A) (f : A -> bool) (g : A -> Z).

Lemma zsum_app g l1 l2 : zsum g (l1 ++ l2) = zsum g l1 + zsum g l2.
Proof. unfold zsum; induction l1; simpl; lia. Qed.
Lemma zsum_cons g x l : zsum g (x :: l) = g x + zsum g l.
Proof. reflexivity. Qed.
Lemma zsum_nonneg g l : (forall x, 0 <= g x) -> 0 <= zsum g l.
Proof. unfold zsum; induction l as [|x l IH]; simpl; intros H; [lia|].
  pose proof (H x); specialize (IH H); lia. Qed.
Lemma zsum_perm g l1 l2 : l1 ≡ₚ l2 -> zsum g l1 = zsum g l2.
Proof. induction 1; rewrite ?zsum_cons in *; try lia; done. Qed.
Lemma zsum_ext g h l : (forall x, x ∈ l -> g x = h x) -> zsum g l = zsum h l.
Proof.
  induction l as [|x l IH]; intros H; [done|]. rewrite !zsum_cons, (H x), IH; [done| |left].
  intros; apply H; by right.
Qed.

Lemma insert_at_perm i (x : A) l : insert_at i x l ≡ₚ x :: l.
Proof. unfold insert_at. rewrite <- Permutation_middle, take_drop. done. Qed.
Lemma zsum_insert_at g i x l : zsum g (insert_at i x l) = g x + zsum g l.
Proof. rewrite (zsum_perm g _ _ (insert_at_perm i x l)). done. Qed.
Lemma length_insert_at i (x : A) l : length (insert_at i x l) = S (length l).
Proof. by rewrite insert_at_perm. Qed.
Lemma elem_of_insert_at i (x y : A) l : y ∈ insert_at i x l <-> y = x \/ y ∈ l.
Proof. rewrite insert_at_perm; apply elem_of_cons. Qed.

Lemma partition_point_le f l : (partition_point f l <= length l)%nat.
Proof. induction l; simpl; [done|]. destruct (f _); lia. Qed.
Lemma partition_point_true f l : Forall (fun x => f x = true) (take (partition_point f l) l).
Proof.
  induction l as [|x l IH]; simpl; [constructor|].
  destruct (f x) eqn:?; simpl; constructor; auto.
Qed.
Lemma partition_point_next f l x :
  l !! partition_point f l = Some x -> f x = false.
Proof.
  induction l as [|y l IH]; simpl; [done|].
  destruct (f y) eqn:?; simpl; [auto|]. intros; by simplify_eq.
Qed.
(** Every element satisfies the predicate: the insertion point is the end. *)
Lemma partition_point_all f l : Forall (fun x => f x = true) l -> partition_point f l = length l.
Proof. induction 1 as [|x l Hx Hl IH]; simpl; [done|]. by rewrite Hx, IH. Qed.

(** Sequences strictly increasing in an integer key, and binary insertion. *)
Definition ascending (key : A -> Z) l : Prop := StronglySorted (fun x y => key x < key y) l.

Lemma ascending_app key l1 l2 :
  ascending key (l1 ++ l2) <->
  ascending key l1 /\ ascending key l2 /\ (forall x y, x ∈ l1 -> y ∈ l2 -> key x < key y).
Proof.
  unfold ascending. induction l1 as [|a l1 IH]; simpl.
  { split; [intros H; split_and!; [constructor|done|set_solver]|naive_solver]. }
  split.
  - intros H; inversion H as [|? ? Hs Hf]; subst. apply IH in Hs as (H1 & H2 & H3).
    rewrite Forall_app, !Forall_forall in Hf. destruct Hf as [Hf1 Hf2].
    split_and!; [constructor; [done|by apply Forall_forall]|done|set_solver].
  - intros (H1 & H2 & H3). inversion H1; subst. constructor.
    + apply IH; split_and!; [done|done|set_solver].
    + apply Forall_app; split; [done|]. apply Forall_forall; intros; apply H3; [left|done].
Qed.

Lemma ascending_NoDup key l : ascending key l -> NoDup l.
Proof.
  unfold ascending. induction 1 as [|x l Hs IH Hf]; constructor; [|done].
  intros Hx. rewrite Forall_forall in Hf. specialize (Hf x Hx); lia.
Qed.

Lemma ascending_insert key f x l :
  ascending key l ->
  (forall y, y ∈ l -> f y = true <-> key y < key x) ->
  (forall y, y ∈ l -> key y <> key x) ->
  ascending key (insert_at (partition_point f l) x l).
Proof.
  intros Hs Hf Hne. unfold insert_at.
  pose proof (partition_point_true f l) as Ht.
  remember (partition_point f l) as i eqn:Hi.
  rewrite <- (take_drop i l) in Hs. apply ascending_app in Hs as (H1 & H2 & H3).
  rewrite Forall_forall in Ht.
  assert (Hsub : forall y, y ∈ take i l -> y ∈ l) by (intros; eapply elem_of_take in H as (?&?&?); by eapply list_elem_of_lookup_2).
  assert (Hlow : forall y, y ∈ take i l -> key y < key x) by (intros; apply Hf; auto).
  assert (Hhigh : forall y, y ∈ drop i l -> key x < key y).
  { destruct (drop i l) as [|z r] eqn:Hd; [set_solver|].
    assert (Hz : l !! i = Some z) by (rewrite <- (Nat.add_0_r i), <- lookup_drop, Hd; done).
    assert (Hzl : z ∈ l) by (by eapply list_elem_of_lookup_2).
    assert (Hzx : key x < key z).
    { rewrite Hi in Hz. apply partition_point_next in Hz.
      specialize (Hf z Hzl). specialize (Hne z Hzl). destruct (Z.lt_ge_cases (key z) (key x)) as [?|?]; [|lia].
      rewrite (proj2 Hf) in Hz by done. done. }
    intros y [->|Hy]%elem_of_cons; [done|]. inversion H2 as [|? ? ? Hall]; subst.
    rewrite Forall_forall in Hall. specialize (Hall y Hy). lia. }
  apply ascending_app; split_and!; [done| |].
  - constructor; [done|]. apply Forall_forall; auto.
  - intros a b Ha [->|Hb]%elem_of_cons; auto.
Qed.
End sequences.

Lemma ascending_ext {A} (f g : A -> Z) l :
  (forall x y, x ∈ l -> y ∈ l -> f x < f y -> g x < g y) -> ascending f l -> ascending g l.
Proof.
  unfold ascending. intros H Hs. induction Hs as [|x l Hs IH Hf]; constructor.
  - apply IH. intros; apply H; [by right|by right|done].
  - rewrite Forall_forall in *. intros y Hy. apply H; [by left|by right|auto].
Qed.

Lemma ascending_cons {A} (f : A -> Z) x l :
  ascending f (x :: l) <-> ascending f l /\ (forall y, y ∈ l -> f x < f y).
Proof.
  unfold ascending. split.
  - inversion 1 as [|? ? ? Hf]; subst. by rewrite Forall_forall in Hf.
  - intros [? ?]. constructor; [done|by apply Forall_forall].
Qed.

Lemma ascending_unique {A} (key : A -> Z) l x y : ascending key l -> x ∈ l -> y ∈ l -> key x = key y -> x = y.
Proof.
  unfold ascending. induction 1 as [|z l Hs IH Hf]; intros Hx Hy E; [by apply elem_of_nil in Hx|].
  rewrite Forall_forall in Hf. apply elem_of_cons in Hx as [->|Hx], Hy as [->|Hy].
  - done.
  - specialize (Hf y Hy). lia.
  - specialize (Hf x Hx). lia.
  - auto.
Qed.

Lemma partition_point_map {A B} (g : A -> B) f l : partition_point f (map g l) = partition_point (fun x => f (g x)) l.
Proof. induction l as [|x l IH]; cbn; [done|]. by rewrite IH. Qed.
Lemma partition_point_ext {A} (f g : A -> bool) l : (forall x, x ∈ l -> f x = g x) -> partition_point f l = partition_point g l.
Proof.
  induction l as [|x l IH]; cbn; intros H; [done|]. rewrite (H x) by left. case_match; [|done].
  f_equal. apply IH. intros; apply H; by right.
Qed.
Lemma insert_at_map {A B} (g : A -> B) i x l : insert_at i (g x) (map g l) = map g (insert_at i x l).
Proof. unfold insert_at. by rewrite map_app, !firstn_map, !skipn_map. Qed.

Lemma last_map {A B} (f : A -> B) l x : List.last (map f l) (f x) = f (List.last l x).
Proof. induction l as [|y l IH]; [done|]. cbn [map List.last]. destruct l; [done|]. exact IH. Qed.

Lemma last_cons_default {A} (x d : A) l : List.last (x :: l) d = List.last l x.
Proof.
  revert x d. induction l as [|y l IH]; intros x d; [done|].
  change (List.last (x :: y :: l) d) with (List.last (y :: l) d). by rewrite !IH.
Qed.
Lemma seq_last p n : List.last (seq (S p) n) p = (p + n)%nat.
Proof.
  revert p. induction n as [|n IH]; intros p; [cbn; lia|]. cbn [seq]. rewrite last_cons_default, IH. lia.
Qed.

(** * Writing into a slice *)

Lemma zlen_split {A} (l r : list A) : take (Z.to_nat (zlen l)) (l ++ r) = l /\ drop (Z.to_nat (zlen l)) (l ++ r) = r.
Proof. unfold zlen. rewrite Nat2Z.id. split; [apply take_app_length|apply drop_app_length]. Qed.
Lemma take_front {A} (a b : list A) n : n = zlen a -> take (Z.to_nat n) (a ++ b) = a.
Proof. intros ->. apply zlen_split. Qed.
Lemma drop_front {A} (a b : list A) n : n = zlen a -> drop (Z.to_nat n) (a ++ b) = b.
Proof. intros ->. apply zlen_split. Qed.

(** [l[a..a + b.len()].copy_from_slice(b)]. *)
Definition splice {E} (l : bytes) (a : Z) (b : bytes) : outcome E bytes :=
  if (0 <=? a) && (a + zlen b <=? zlen l)
  then Ok (take (Z.to_nat a) l ++ b ++ drop (Z.to_nat (a + zlen b)) l) else Panic.

Lemma splice_app {E} (a b c b' : bytes) : zlen b' = zlen b -> splice (E:=E) (a ++ b ++ c) (zlen a) b' = Ok (a ++ b' ++ c).
Proof.
  intros Hl. unfold splice. rewrite !(proj2 (Z.leb_le _ _)) by zlia. cbn [andb].
  rewrite take_front by done. rewrite (assoc_L app a b c), drop_front by zlia. done.
Qed.

(** Whether the build checks integer overflow. *)
Class OverflowChecks := overflow_checks : bool.

(** * Reading integers from bytes *)

Section splits.
Context {E : Type}.
Lemma get_u8_split b : bytes_ok b -> 1 <= zlen b ->
  exists x r, b = put_u8 x ++ r /\ is_u8 x /\ bytes_ok r /\ get_u8 (E:=E) b = Ok (x, r).
Proof using Type.
  intros Hb Hl. destruct b as [|x r]; [zlia|]. apply Forall_cons in Hb as [Hx Hr]. exists x, r. unfold put_u8.
  rewrite Z.mod_small by (unfold_ints; lia). done.
Qed.
Lemma get_u16_split b : bytes_ok b -> 2 <= zlen b ->
  exists x r, b = put_u16 x ++ r /\ is_u16 x /\ bytes_ok r /\ get_u16 (E:=E) b = Ok (x, r).
Proof using Type.
  intros Hb Hl. destruct b as [|x0 [|x1 r]]; [zlia..|]. apply Forall_cons in Hb as [H0 Hb]. apply Forall_cons in Hb as [H1 Hr].
  exists (x0 * 256 + x1), r. unfold put_u16. split_and!; [| |done|done]; unfold_ints; [|lia].
  cbn [app]. repeat f_equal; mlia.
Qed.
Lemma get_u32_split b : bytes_ok b -> 4 <= zlen b ->
  exists x r, b = put_u32 x ++ r /\ is_u32 x /\ bytes_ok r /\ get_u32 (E:=E) b = Ok (x, r).
Proof using Type.
  intros Hb Hl. destruct b as [|x0 [|x1 [|x2 [|x3 r]]]]; [zlia..|]. do 4 (apply Forall_cons in Hb as [? Hb]).
  eexists _, r. split_and!; [| |done|reflexivity]; unfold put_u32; unfold_ints; [|lia].
  cbn [app]. repeat f_equal; mlia.
Qed.
End splits.

(** * More of the buffers ([bytes::Buf]): 64-bit integers and runs of bytes *)

Definition put_u64 (x : Z) : bytes := put_u32 (x / 4294967296) ++ put_u32 x.
Definition get_u64 {E} (l : bytes) : outcome E (Z * bytes) :=
  '(hi, l) ← get_u32 l; '(lo, l) ← get_u32 l; Ok (hi * 4294967296 + lo, l).
Definition copy_to_bytes {E} (n : Z) (l : bytes) : outcome E (bytes * bytes) :=
  if zlen l <? n then Panic else Ok (take (Z.to_nat n) l, drop (Z.to_nat n) l).

Lemma zlen_put_u64 x : zlen (put_u64 x) = 8.
Proof. done. Qed.
#[export] Hint Rewrite zlen_put_u64 : zlen.

Lemma put_u8_mod x : put_u8 (x mod 256) = put_u8 x.
Proof. unfold put_u8. apply f_equal2; [mlia|done]. Qed.
Lemma put_u32_mod x : put_u32 (x mod 4294967296) = put_u32 x.
Proof. unfold put_u32. repeat (apply f_equal2; [mlia|]). done. Qed.

Section more_buffers.
Context {E : Type}.
Lemma get_put_u64 x r : is_u64 x -> get_u64 (E:=E) (put_u64 x ++ r) = Ok (x, r).
Proof using Type.
  intros Hx. unfold get_u64, put_u64. rewrite <- (assoc_L app), get_put_u32 by (unfold_ints; mlia). cbn [mbind outcome_bind].
  rewrite <- (put_u32_mod x), get_put_u32 by (unfold_ints; mlia). cbn [mbind outcome_bind]. do 2 f_equal. mlia.
Qed.
Lemma post_get_u64 l : 8 <= zlen l -> post (get_u64 (E:=E) l) (fun vr => zlen vr.2 = zlen l - 8 /\ (bytes_ok l -> is_u64 vr.1 /\ bytes_ok vr.2)).
Proof using Type.
  intros. unfold get_u64. post_step. post_step. cbn [post fst snd]. split; [lia|]. intros. use_ok. split; [|done]. unfold_ints. lia.
Qed.
Lemma copy_front n a b : n = zlen a -> copy_to_bytes (E:=E) n (a ++ b) = Ok (a, b).
Proof using Type.
  intros ->. unfold copy_to_bytes. rewrite (proj2 (Z.ltb_ge _ _)) by zlia. by destruct (zlen_split a b) as [-> ->].
Qed.
Lemma post_copy n l : 0 <= n <= zlen l ->
  post (copy_to_bytes (E:=E) n l) (fun vr => zlen vr.1 = n /\ zlen vr.2 = zlen l - n /\ (bytes_ok l -> bytes_ok vr.1 /\ bytes_ok vr.2)).
Proof using Type.
  intros. unfold copy_to_bytes. rewrite (proj2 (Z.ltb_ge _ _)) by lia. cbn [post fst snd]. split_and!; [zlia..|]. intros Hl.
  split; [by apply Forall_take|by apply Forall_drop].
Qed.
End more_buffers.
