(* ===== verification/Serial.v ===== *)
(** Serial number arithmetic (RFC 1982) of [rtc-sctp/src/util.rs]: the TSN and
    SSN comparisons every SCTP queue is ordered by, their meaning as a distance
    on the ring of machine integers, and the window in which they are a strict
    linear order.  [util.rs]'s padding helper is here too. *)
From S2P Require Import Prelude.

(** * The comparisons of [util.rs] *)

Definition sna32lt (i1 i2 : Z) : bool :=
  ((i1 <? i2) && (i2 - i1 <? 2147483648)) || ((i1 >? i2) && (i1 - i2 >? 2147483648)).
Definition sna32lte (i1 i2 : Z) : bool := (i1 =? i2) || sna32lt i1 i2.
Definition sna32gt (i1 i2 : Z) : bool :=
  ((i1 <? i2) && (i2 - i1 >=? 2147483648)) || ((i1 >? i2) && (i1 - i2 <=? 2147483648)).
Definition sna32gte (i1 i2 : Z) : bool := (i1 =? i2) || sna32gt i1 i2.
Definition sna32eq (i1 i2 : Z) : bool := i1 =? i2.

Definition sna16lt (i1 i2 : Z) : bool :=
  ((i1 <? i2) && (i2 - i1 <? 32768)) || ((i1 >? i2) && (i1 - i2 >? 32768)).
Definition sna16lte (i1 i2 : Z) : bool := (i1 =? i2) || sna16lt i1 i2.
Definition sna16gt (i1 i2 : Z) : bool :=
  ((i1 <? i2) && (i2 - i1 >=? 32768)) || ((i1 >? i2) && (i1 - i2 <=? 32768)).
Definition sna16gte (i1 i2 : Z) : bool := (i1 =? i2) || sna16gt i1 i2.
Definition sna16eq (i1 i2 : Z) : bool := i1 =? i2.

Definition PADDING_MULTIPLE : Z := 4.
Definition get_padding_size (len : Z) : Z :=
  (PADDING_MULTIPLE - (len mod PADDING_MULTIPLE)) mod PADDING_MULTIPLE.

(** * Distance on the ring *)

(** The number of increments that lead from the first number to the second. *)
Definition off32 (base x : Z) : Z := (x - base) mod 4294967296.
Definition off16 (base x : Z) : Z := (x - base) mod 65536.

Lemma off32_range b x : 0 <= off32 b x < 4294967296.
Proof. unfold off32; mlia. Qed.
Lemma off16_range b x : 0 <= off16 b x < 65536.
Proof. unfold off16; mlia. Qed.

Ltac sna_unfold := unfold sna32gte, sna32gt, sna32lte, sna32lt, sna16gte, sna16gt, sna16lte, sna16lt,
  off32, off16 in *.

Lemma sna32lt_spec a b : is_u32 a -> is_u32 b ->
  sna32lt a b = true <-> 0 < off32 a b < 2147483648.
Proof. sna_unfold; unfold_ints; intros; mlia. Qed.
Lemma sna32lte_spec a b : is_u32 a -> is_u32 b -> sna32lte a b = true <-> off32 a b < 2147483648.
Proof. sna_unfold; unfold_ints; intros; mlia. Qed.
Lemma sna32gt_spec a b : is_u32 a -> is_u32 b -> sna32gt a b = true <-> 2147483648 <= off32 a b.
Proof. sna_unfold; unfold_ints; intros; mlia. Qed.
Lemma sna16lt_spec a b : is_u16 a -> is_u16 b -> sna16lt a b = true <-> 0 < off16 a b < 32768.
Proof. sna_unfold; unfold_ints; intros; mlia. Qed.
Lemma sna16lte_spec a b : is_u16 a -> is_u16 b -> sna16lte a b = true <-> off16 a b < 32768.
Proof. sna_unfold; unfold_ints; intros; mlia. Qed.
Lemma sna16gt_spec a b : is_u16 a -> is_u16 b -> sna16gt a b = true <-> 32768 <= off16 a b.
Proof. sna_unfold; unfold_ints; intros; mlia. Qed.

(** Inside a half window starting right after [base], serial comparison is the
    comparison of the distances from [base]. *)
Lemma sna32lt_window base a b : is_u32 a -> is_u32 b ->
  0 < off32 base a <= 2147483648 -> 0 < off32 base b <= 2147483648 ->
  sna32lt a b = true <-> off32 base a < off32 base b.
Proof. intros; rewrite sna32lt_spec by done. unfold off32, is_u32 in *; mlia. Qed.
Lemma sna16lt_window base a b : is_u16 a -> is_u16 b ->
  off16 base a < 32768 -> off16 base b < 32768 ->
  sna16lt a b = true <-> off16 base a < off16 base b.
Proof. intros; rewrite sna16lt_spec by done. unfold off16, is_u16 in *; mlia. Qed.

Lemma off32_inj base a b : is_u32 a -> is_u32 b -> off32 base a = off32 base b -> a = b.
Proof. unfold off32, is_u32; mlia. Qed.
Lemma off16_inj base a b : is_u16 a -> is_u16 b -> off16 base a = off16 base b -> a = b.
Proof. unfold off16, is_u16; mlia. Qed.

Lemma get_padding_size_spec n : 0 <= n ->
  0 <= get_padding_size n < 4 /\ (n + get_padding_size n) mod 4 = 0.
Proof. unfold get_padding_size, PADDING_MULTIPLE; intros; mlia. Qed.

(** [sna32lt]/[sna32lte]/[sna32gt] compare TSNs by their distance on the
    32-bit ring: exactly one of "lte" and "gt" holds for any two numbers, "lt"
    is "less than half a turn ahead", and inside any half window they agree with
    the order of the offsets from the window's base, wrap-around included. *)
Theorem sna32_serial_order : forall a b, is_u32 a -> is_u32 b ->
  sna32gt a b = negb (sna32lte a b) /\
  (sna32lt a b = true <-> 0 < off32 a b < 2147483648) /\
  (forall k, sna32lt (as_u32 (a + k)) (as_u32 (b + k)) = sna32lt a b) /\
  (forall base, 0 < off32 base a <= 2147483648 -> 0 < off32 base b <= 2147483648 ->
     (sna32lt a b = true <-> off32 base a < off32 base b)).
Proof.
  intros a b Ha Hb. split_and!.
  - apply eq_true_iff_eq. rewrite sna32gt_spec, negb_true_iff, <- not_true_iff_false,
      sna32lte_spec by done. lia.
  - by apply sna32lt_spec.
  - intros k. apply eq_true_iff_eq. rewrite !sna32lt_spec by (done || apply as_u32_range).
    unfold off32, as_u32, is_u32 in *; mlia.
  - intros; by apply sna32lt_window.
Qed.

Lemma sna32_serial_order_witness :
  sna32lt 4294967295 3 = true /\ sna32gt 4294967295 3 = negb (sna32lte 4294967295 3).
Proof.
  split; [vm_compute; reflexivity|].
  apply (sna32_serial_order 4294967295 3); unfold is_u32; lia.
Defined.
