(* ===== verification/Replay.v ===== *)
(** The replay detectors of [rtc-shared/src/replay_detector] and the multi-word
    shift register they keep their window in ([fixed_big_int]).

    The detectors are state-passing definitions over the register of 64-bit
    words; the specification is a set of accepted numbers and the highest one,
    and the refinement says a packet passes [check] exactly when it is fresh and
    inside the window. *)
From S2P Require Import Prelude.

(** * [FixedBigInt] *)

Record FixedBigInt := mkFixedBigInt { bits : list Z; nbits : Z; msb_mask : Z }.

Definition U64 : Z := 18446744073709551616.
Definition word (l : list Z) (i : Z) : Z := nth (Z.to_nat i) l 0.

Definition FixedBigInt_new (n : Z) : FixedBigInt :=
  let chunk_size := (n + 63) / 64 in
  let chunk_size := if chunk_size =? 0 then 1 else chunk_size in
  {| bits := replicate (Z.to_nat chunk_size) 0;
     nbits := n;
     msb_mask := if n mod 64 =? 0 then U64 - 1
                 else Z.shiftl 1 (64 - n mod 64) - 1 |}.

(** The new value of word [i] computed in one iteration of the loop of [lsh]. *)
Definition lsh_word (sh : Z) (l : list Z) (i : Z) : Z :=
  let n_chunk := sh / 64 in
  let n_n := sh mod 64 in
  let carry :=
    if i - n_chunk >=? 0 then
      let carry := if n_n >=? 64 then 0 else as_u64 (Z.shiftl (word l (i - n_chunk)) n_n) in
      if i - n_chunk >? 0 then
        Z.lor carry (if n_n =? 0 then 0 else Z.shiftr (word l (i - n_chunk - 1)) (64 - n_n))
      else carry
    else 0 in
  if sh >=? 64 then carry else Z.lor (as_u64 (Z.shiftl (word l i) sh)) carry.

(** The in-place loop over [i = k-1, ..., 0]. *)
Fixpoint lsh_loop (sh : Z) (k : nat) (l : list Z) : list Z :=
  match k with
  | O => l
  | S i => lsh_loop sh i (<[i := lsh_word sh l (Z.of_nat i)]> l)
  end.

Definition lsh (b : FixedBigInt) (sh : Z) : FixedBigInt :=
  if sh =? 0 then b
  else
    let l := lsh_loop sh (length (bits b)) (bits b) in
    let last := (length l - 1)%nat in
    {| bits := <[last := Z.land (nth last l 0) (msb_mask b)]> l;
       nbits := nbits b; msb_mask := msb_mask b |}.

Definition bit (b : FixedBigInt) (i : Z) : Z :=
  if i >=? nbits b then 0
  else if Z.land (word (bits b) (i / 64)) (Z.shiftl 1 (i mod 64)) =? 0 then 0 else 1.

Definition set_bit (b : FixedBigInt) (i : Z) : FixedBigInt :=
  if i >=? nbits b then b
  else
    let chunk := Z.to_nat (i / 64) in
    {| bits := <[chunk := Z.lor (nth chunk (bits b) 0) (Z.shiftl 1 (i mod 64))]> (bits b);
       nbits := nbits b; msb_mask := msb_mask b |}.

(** ** Bit-level meaning *)

Section fixed_big_int.
(** Bit [j] of the whole register. *)
Definition tb (l : list Z) (j : Z) : bool := Z.testbit (word l (j / 64)) (j mod 64).

Lemma word_insert l k v i : (k < length l)%nat -> 0 <= i ->
  word (<[k := v]> l) i = if decide (i = Z.of_nat k) then v else word l i.
Proof.
  intros Hk Hi. unfold word. rewrite !nth_lookup.
  destruct (decide (i = Z.of_nat k)) as [->|Hne].
  - rewrite Nat2Z.id, list_lookup_insert_eq by done. done.
  - rewrite list_lookup_insert_ne by lia. done.
Qed.

Lemma length_lsh_loop sh k l : length (lsh_loop sh k l) = length l.
Proof. revert l; induction k; intros; simpl; [done|]. by rewrite IHk, length_insert. Qed.

(** [lsh_word] reads no word above its own. *)
Lemma lsh_word_ext sh l l' i : 0 <= sh -> 0 <= i ->
  (forall j, 0 <= j <= i -> word l j = word l' j) -> lsh_word sh l i = lsh_word sh l' i.
Proof.
  intros Hs Hi H. unfold lsh_word.
  assert (0 <= sh / 64) by mlia.
  destruct (Z.geb_spec (i - sh / 64) 0), (Z.gtb_spec (i - sh / 64) 0); try lia;
    rewrite ?(H (i - sh / 64)), ?(H (i - sh / 64 - 1)), ?(H i) by lia; done.
Qed.

Lemma lsh_loop_word sh k l i : 0 <= sh -> (k <= length l)%nat -> 0 <= i ->
  word (lsh_loop sh k l) i = if decide (i < Z.of_nat k) then lsh_word sh l i else word l i.
Proof.
  intros Hs. revert l; induction k as [|k IH]; intros l Hk Hi.
  { simpl. case_decide; [lia|done]. }
  cbn [lsh_loop]. rewrite IH by (rewrite ?length_insert; lia).
  case_decide; [|rewrite word_insert by lia]; repeat case_decide; try lia; try done.
  - apply lsh_word_ext; [done..|]. intros; rewrite word_insert by lia.
    case_decide; [lia|done].
  - subst. done.
Qed.

Lemma word_u64 l i : Forall is_u64 l -> is_u64 (word l i).
Proof.
  intros Hl. unfold word. rewrite nth_lookup.
  destruct (l !! Z.to_nat i) eqn:E; simpl; [|unfold_ints; lia].
  eapply Forall_lookup_1 in E; eauto.
Qed.

Lemma testbit_u64_high x p : is_u64 x -> 64 <= p -> Z.testbit x p = false.
Proof.
  intros Hx Hp. destruct (decide (x = 0)) as [->|]; [apply Z.testbit_0_l|].
  apply Z.bits_above_log2; [unfold_ints; lia|].
  apply Z.log2_lt_pow2; [unfold_ints; lia|].
  apply Z.lt_le_trans with (2 ^ 64); [unfold_ints; lia|]. apply Z.pow_le_mono_r; lia.
Qed.

Lemma testbit_as_u64 x p : 0 <= p < 64 -> Z.testbit (as_u64 x) p = Z.testbit x p.
Proof. intros. unfold as_u64. change 18446744073709551616 with (2 ^ 64). apply Z.mod_pow2_bits_low; lia. Qed.

Lemma tb_at l i p : 0 <= p < 64 -> tb l (64 * i + p) = Z.testbit (word l i) p.
Proof.
  intros. unfold tb. replace ((64 * i + p) / 64) with i by mlia.
  replace ((64 * i + p) mod 64) with p by mlia. done.
Qed.

Lemma lsh_word_testbit sh l i p : Forall is_u64 l -> 0 < sh -> 0 <= i -> 0 <= p < 64 ->
  Z.testbit (lsh_word sh l i) p = (sh <=? 64 * i + p) && tb l (64 * i + p - sh).
Proof.
  intros Hl Hs Hi Hp. unfold lsh_word.
  pose proof (Z.div_mod sh 64 ltac:(lia)) as Hdm.
  pose proof (Z.mod_pos_bound sh 64 ltac:(lia)) as Hm.
  set (c := sh / 64) in *. set (m := sh mod 64) in *.
  destruct (Z.geb_spec m 64); [lia|].
  assert (Hshl : forall x, Z.testbit (as_u64 (Z.shiftl x m)) p = if decide (p < m) then false else Z.testbit x (p - m)).
  { intros. rewrite testbit_as_u64 by done. rewrite Z.shiftl_spec by lia.
    case_decide; [apply Z.testbit_neg_r; lia|done]. }
  assert (Hshr : forall x, is_u64 x -> Z.testbit (Z.shiftr x (64 - m)) p = if decide (p < m) then Z.testbit x (p - m + 64) else false).
  { intros. rewrite Z.shiftr_spec by lia. replace (p + (64 - m)) with (p - m + 64) by lia.
    case_decide; [done|]. apply testbit_u64_high; [done|lia]. }
  (* the bit the specification names *)
  assert (Hsrc : tb l (64 * i + p - sh) =
    if decide (p < m) then Z.testbit (word l (i - c - 1)) (p - m + 64)
    else Z.testbit (word l (i - c)) (p - m)).
  { case_decide.
    - replace (64 * i + p - sh) with (64 * (i - c - 1) + (p - m + 64)) by lia. apply tb_at; lia.
    - replace (64 * i + p - sh) with (64 * (i - c) + (p - m)) by lia. apply tb_at; lia. }
  rewrite Hsrc. clear Hsrc.
  assert (Hcarry : forall w, 0 <= w -> w = i - c ->
     Z.testbit (if w >? 0 then Z.lor (as_u64 (Z.shiftl (word l w) m))
        (if m =? 0 then 0 else Z.shiftr (word l (w - 1)) (64 - m))
        else as_u64 (Z.shiftl (word l w) m)) p =
     (sh <=? 64 * i + p) && (if decide (p < m) then Z.testbit (word l (i - c - 1)) (p - m + 64)
      else Z.testbit (word l (i - c)) (p - m))).
  { intros w Hw ->. pose proof (word_u64 l (i - c - 1) Hl) as Hw1.
    destruct (Z.gtb_spec (i - c) 0).
    - rewrite Z.lor_spec, Hshl. replace (i - c - 1) with (i - c - 1) by lia.
      destruct (Z.eqb_spec m 0) as [E|E].
      + rewrite Z.testbit_0_l, orb_false_r. destruct (Z.leb_spec sh (64 * i + p)); [|lia].
        case_decide; [lia|done].
      + rewrite Hshr by done. destruct (Z.leb_spec sh (64 * i + p)); [|lia].
        case_decide; [done|]. by rewrite orb_false_r.
    - rewrite Hshl. case_decide; [|destruct (Z.leb_spec sh (64 * i + p)); [done|lia]].
      destruct (Z.leb_spec sh (64 * i + p)); [lia|done]. }
  destruct (Z.geb_spec (i - c) 0) as [Hw|Hw].
  - destruct (Z.geb_spec sh 64).
    + apply Hcarry; [lia|done].
    + assert (c = 0) by (unfold c; apply Z.div_small; lia).
      assert (m = sh) by (unfold m; apply Z.mod_small; lia).
      rewrite Z.lor_spec, Hcarry by lia.
      replace sh with m at 1 by done. rewrite Hshl.
      replace (i - c) with i by lia.
      case_decide; [done|]. destruct (Z.leb_spec sh (64 * i + p)); [|lia].
      by rewrite orb_diag.
  - destruct (Z.geb_spec sh 64); [|lia]. rewrite Z.testbit_0_l.
    destruct (Z.leb_spec sh (64 * i + p)); [lia|done].
Qed.

(** A register as [FixedBigInt_new] and the operations leave it. *)
Definition reg_ok (w : Z) (b : FixedBigInt) : Prop :=
  nbits b = w /\ Forall is_u64 (bits b) /\
  length (bits b) = length (bits (FixedBigInt_new w)) /\
  msb_mask b = msb_mask (FixedBigInt_new w).

Lemma zlen_bits_new w : 0 < w -> zlen (bits (FixedBigInt_new w)) = (w + 63) / 64.
Proof.
  intros. unfold FixedBigInt_new, zlen; simpl. rewrite length_replicate.
  destruct (Z.eqb_spec ((w + 63) / 64) 0); mlia.
Qed.

Lemma reg_ok_new w : 0 < w -> reg_ok w (FixedBigInt_new w).
Proof.
  intros. unfold reg_ok. split_and!; try done. simpl.
  apply Forall_replicate. unfold_ints; lia.
Qed.

Lemma tb_new w j : tb (bits (FixedBigInt_new w)) j = false.
Proof.
  unfold tb, word. rewrite nth_lookup. destruct (_ !! _) eqn:E; simpl; [|by rewrite Z.testbit_0_l].
  apply lookup_replicate in E as [-> _]. by rewrite Z.testbit_0_l.
Qed.

Lemma bit_tb b j : 0 <= j -> bit b j = if j <? nbits b then Z.b2z (tb (bits b) j) else 0.
Proof.
  intros. unfold bit. rewrite Z.geb_leb, Z.leb_antisym.
  destruct (Z.ltb_spec j (nbits b)); simpl; [|done]. unfold tb.
  rewrite Z.shiftl_1_l. set (x := word _ _). set (p := j mod 64).
  assert (0 <= p) by (unfold p; mlia).
  destruct (Z.eqb_spec (Z.land x (2 ^ p)) 0) as [E|E].
  - apply (f_equal (fun z => Z.testbit z p)) in E.
    rewrite Z.land_spec, Z.pow2_bits_true, andb_true_r, Z.testbit_0_l in E by done. by rewrite E.
  - destruct (Z.testbit x p) eqn:Et; [done|]. exfalso; apply E.
    apply Z.bits_inj'; intros q Hq. rewrite Z.land_spec, Z.testbit_0_l, Z.pow2_bits_eqb by done.
    destruct (Z.eqb_spec p q); [subst; by rewrite Et|by rewrite andb_false_r].
Qed.

(** The mask [FixedBigInt_new] computes covers the register exactly when
    [w mod 64 <= 32]. *)
Lemma msb_mask_covers w j : 0 < w -> w mod 64 <= 32 -> (w + 63) / 64 - 1 = j / 64 -> 0 <= j < w ->
  Z.testbit (msb_mask (FixedBigInt_new w)) (j mod 64) = true.
Proof.
  intros Hw Hm Hl Hj. simpl. destruct (Z.eqb_spec (w mod 64) 0) as [E|E].
  - change (U64 - 1) with (Z.ones 64). apply Z.ones_spec_low. mlia.
  - rewrite Z.shiftl_1_l. replace (2 ^ (64 - w mod 64) - 1) with (Z.ones (64 - w mod 64)) by (rewrite Z.ones_equiv; lia).
    apply Z.ones_spec_low. mlia.
Qed.

Lemma msb_mask_u64 w : 0 < w -> is_u64 (msb_mask (FixedBigInt_new w)).
Proof.
  intros. simpl. destruct (Z.eqb_spec (w mod 64) 0) as [E|E]; [unfold_ints; unfold U64; lia|].
  rewrite Z.shiftl_1_l. assert (0 < 2 ^ (64 - w mod 64)) by (apply Z.pow_pos_nonneg; mlia).
  assert (2 ^ (64 - w mod 64) <= 2 ^ 64) by (apply Z.pow_le_mono_r; mlia).
  unfold_ints; lia.
Qed.

Lemma is_u64_bits x : 0 <= x -> (forall p, 64 <= p -> Z.testbit x p = false) -> is_u64 x.
Proof.
  intros Hx H. split; [done|]. change 18446744073709551616 with (2 ^ 64).
  destruct (Z.lt_ge_cases x (2 ^ 64)) as [|Hge]; [done|exfalso].
  assert (Hl : 64 <= Z.log2 x) by (apply Z.log2_le_pow2; lia).
  specialize (H _ Hl). rewrite Z.bit_log2 in H by lia. done.
Qed.

Lemma lor_u64 x y : is_u64 x -> is_u64 y -> is_u64 (Z.lor x y).
Proof.
  intros Hx Hy. apply is_u64_bits; [apply Z.lor_nonneg; unfold_ints; lia|].
  intros; rewrite Z.lor_spec, !testbit_u64_high; done.
Qed.
Lemma land_u64 x y : is_u64 x -> is_u64 y -> is_u64 (Z.land x y).
Proof.
  intros Hx Hy. apply is_u64_bits; [apply Z.land_nonneg; unfold_ints; lia|].
  intros; rewrite Z.land_spec, !testbit_u64_high; done.
Qed.

Lemma lsh_word_u64 sh l i : Forall is_u64 l -> 0 <= sh -> is_u64 (lsh_word sh l i).
Proof.
  intros Hl Hs. unfold lsh_word.
  assert (H0 : is_u64 0) by (unfold_ints; lia).
  assert (Ha : forall x, is_u64 (as_u64 x)) by (intros; unfold_ints; mlia).
  assert (Hr : forall x k, is_u64 x -> 0 <= k -> is_u64 (Z.shiftr x k)).
  { intros x k Hx Hk. rewrite Z.shiftr_div_pow2 by done.
    assert (1 <= 2 ^ k) by (apply (Z.pow_le_mono_r 2 0 k); lia).
    unfold_ints; split; [apply Z.div_pos; lia|]. apply Z.le_lt_trans with x; [|lia].
    apply Z.div_le_upper_bound; nia. }
  pose proof (fun j => word_u64 l j Hl) as Hw. assert (0 <= 64 - sh mod 64) by mlia.
  repeat match goal with |- context [if ?c then _ else _] => destruct c end;
    repeat first [apply lor_u64 | apply Ha | apply Hr | apply H0 | apply Hw | done].
Qed.

Lemma lsh_loop_u64 sh k l : Forall is_u64 l -> 0 <= sh -> Forall is_u64 (lsh_loop sh k l).
Proof.
  intros Hl Hs. revert l Hl; induction k; intros; simpl; [done|].
  apply IHk. apply Forall_insert; [done|]. by apply lsh_word_u64.
Qed.

Lemma reg_ok_lsh w b sh : 0 < w -> 0 <= sh -> reg_ok w b -> reg_ok w (lsh b sh).
Proof.
  intros Hw Hs (Hn & Hu & Hl & Hm). unfold lsh. destruct (sh =? 0); [done|].
  unfold reg_ok; simpl. split_and!; try done.
  - apply Forall_insert; [by apply lsh_loop_u64|]. apply land_u64; [|rewrite Hm; by apply msb_mask_u64].
    pose proof (word_u64 (lsh_loop sh (length (bits b)) (bits b)) (Z.of_nat (length (lsh_loop sh (length (bits b)) (bits b)) - 1)) ltac:(by apply lsh_loop_u64)) as H.
    unfold word in H. by rewrite Nat2Z.id in H.
  - by rewrite length_insert, length_lsh_loop.
Qed.

(** Shifting moves every bit of the window up by [sh]. *)
Lemma tb_lsh w b sh j : reg_ok w b -> 0 < w -> w mod 64 <= 32 -> 0 <= sh -> 0 <= j < w ->
  tb (bits (lsh b sh)) j = (sh <=? j) && tb (bits b) (j - sh).
Proof.
  intros (Hn & Hu & Hl & Hm) Hw Hmod Hs Hj. unfold lsh.
  destruct (Z.eqb_spec sh 0) as [->|Hs0].
  { rewrite Z.sub_0_r. by destruct (Z.leb_spec 0 j); [|lia]. }
  simpl. set (l' := lsh_loop sh (length (bits b)) (bits b)).
  assert (Hlen : zlen l' = (w + 63) / 64).
  { unfold zlen, l'. rewrite length_lsh_loop, Hl. by apply zlen_bits_new. }
  assert (Hq : 0 <= j / 64 < (w + 63) / 64) by mlia.
  assert (Hsrc : Z.testbit (word l' (j / 64)) (j mod 64) = (sh <=? j) && tb (bits b) (j - sh)).
  { unfold l'. rewrite lsh_loop_word by (try lia; unfold zlen, l' in *; rewrite ?length_lsh_loop in *; lia).
    rewrite decide_True by (unfold zlen, l' in *; rewrite ?length_lsh_loop in *; lia).
    rewrite lsh_word_testbit by (done || mlia).
    replace (64 * (j / 64) + j mod 64) with j by mlia. done. }
  unfold tb at 1. rewrite word_insert by (unfold zlen in *; lia).
  case_decide as Hd; [|done].
  rewrite Z.land_spec, Hm, msb_mask_covers, andb_true_r by (unfold zlen in *; (done || lia)).
  rewrite <- Hsrc. unfold word. rewrite Hd. by rewrite Nat2Z.id.
Qed.

Lemma reg_ok_set_bit w b i : 0 < w -> 0 <= i -> reg_ok w b -> reg_ok w (set_bit b i).
Proof.
  intros Hw Hi (Hn & Hu & Hl & Hm). unfold set_bit. destruct (Z.geb_spec i (nbits b)); [done|].
  unfold reg_ok; simpl. split_and!; try done; [|by rewrite length_insert].
  apply Forall_insert; [done|]. apply lor_u64.
  - pose proof (word_u64 (bits b) (i / 64) Hu) as H'. done.
  - rewrite Z.shiftl_1_l. assert (2 ^ (i mod 64) < 2 ^ 64) by (apply Z.pow_lt_mono_r; mlia).
    assert (0 < 2 ^ (i mod 64)) by (apply Z.pow_pos_nonneg; mlia). unfold_ints; lia.
Qed.

Lemma tb_set_bit w b i j : reg_ok w b -> 0 <= i < w -> 0 <= j < w ->
  tb (bits (set_bit b i)) j = (j =? i) || tb (bits b) j.
Proof.
  intros (Hn & Hu & Hl & Hm) Hi Hj. unfold set_bit. destruct (Z.geb_spec i (nbits b)); [lia|]. simpl.
  assert (Hlen : zlen (bits b) = (w + 63) / 64).
  { unfold zlen. rewrite Hl. apply zlen_bits_new; lia. }
  unfold tb. rewrite word_insert by (unfold zlen in *; mlia).
  case_decide as Hd.
  - assert (Hij : j / 64 = i / 64) by mlia.
    rewrite Z.lor_spec, Z.shiftl_1_l, Z.pow2_bits_eqb by mlia.
    unfold word; rewrite Hij, orb_comm. f_equal.
    destruct (Z.eqb_spec (i mod 64) (j mod 64)), (Z.eqb_spec j i); try done; exfalso; mlia.
  - destruct (Z.eqb_spec j i) as [->|]; [exfalso; mlia|done].
Qed.
End fixed_big_int.

(** * [SlidingWindowDetector] *)

Record SlidingWindowDetector := mkSlidingWindowDetector {
  sw_accepted : bool;
  sw_seq : Z;
  sw_latest_seq : Z;
  sw_max_seq : Z;
  sw_window_size : Z;
  sw_mask : FixedBigInt
}.

Definition SlidingWindowDetector_new (window_size max_seq : Z) : SlidingWindowDetector :=
  {| sw_accepted := false; sw_seq := 0; sw_latest_seq := 0; sw_max_seq := max_seq;
     sw_window_size := window_size; sw_mask := FixedBigInt_new window_size |}.

Definition sw_set_accepted (d : SlidingWindowDetector) (a : bool) (s : Z) : SlidingWindowDetector :=
  {| sw_accepted := a; sw_seq := s; sw_latest_seq := sw_latest_seq d; sw_max_seq := sw_max_seq d;
     sw_window_size := sw_window_size d; sw_mask := sw_mask d |}.

(** [check]: the answer and the detector afterwards.  [oc] says whether the
    build checks [window_size + seq] for overflow. *)
Definition SlidingWindowDetector_check (oc : bool) (d : SlidingWindowDetector) (seq : Z)
  : outcome Empty_set (bool * SlidingWindowDetector) :=
  let d := sw_set_accepted d false (sw_seq d) in
  if seq >? sw_max_seq d then Ok (false, d)
  else if seq <=? sw_latest_seq d then
    upper ← add_ovf oc U64 (sw_window_size d) seq;
    if sw_latest_seq d >=? upper then Ok (false, d)
    else if negb (bit (sw_mask d) (sw_latest_seq d - seq) =? 0) then Ok (false, d)
    else Ok (true, sw_set_accepted d true seq)
  else Ok (true, sw_set_accepted d true seq).

Definition SlidingWindowDetector_accept (d : SlidingWindowDetector)
  : outcome Empty_set SlidingWindowDetector :=
  if negb (sw_accepted d) then Ok d
  else
    let '(mask, latest) :=
      if sw_seq d >? sw_latest_seq d
      then (lsh (sw_mask d) (sw_seq d - sw_latest_seq d), sw_seq d)
      else (sw_mask d, sw_latest_seq d) in
    if sw_max_seq d =? 0 then Panic (* remainder by zero *)
    else
      let diff := (latest - sw_seq d) mod sw_max_seq d in
      Ok {| sw_accepted := sw_accepted d; sw_seq := sw_seq d; sw_latest_seq := latest;
            sw_max_seq := sw_max_seq d; sw_window_size := sw_window_size d;
            sw_mask := set_bit mask diff |}.

(** One received record, as the DTLS and SRTP contexts drive the detector:
    [check], then authenticate, then [accept].  The boolean of the input says
    whether the record authenticates; the result whether it was delivered. *)
Definition sw_receive (oc : bool) (d : SlidingWindowDetector) (p : Z * bool)
  : outcome Empty_set (bool * SlidingWindowDetector) :=
  '(ok, d) ← SlidingWindowDetector_check oc d p.1;
  if ok && p.2 then d ← SlidingWindowDetector_accept d; Ok (true, d) else Ok (false, d).

(** A whole stream of records: the delivered sequence numbers, latest first. *)
Fixpoint sw_run (oc : bool) (d : SlidingWindowDetector) (ps : list (Z * bool)) (acc : list Z)
  : outcome Empty_set (list Z * SlidingWindowDetector) :=
  match ps with
  | [] => Ok (acc, d)
  | p :: ps =>
      '(ok, d) ← sw_receive oc d p;
      sw_run oc d ps (if ok : bool then p.1 :: acc else acc)
  end.

(** ** Specification: the set of delivered numbers *)

(** What the trait promises: [s] is inside the window below the highest
    delivered number [latest], or above it, and was not delivered before. *)
Definition fresh (max w latest : Z) (delivered : list Z) (s : Z) : Prop :=
  s <= max /\ (latest < s \/ (latest - s < w /\ s ∉ delivered)).

#[export] Instance fresh_dec max w latest H s : Decision (fresh max w latest H s).
Proof. unfold fresh; apply _. Defined.

(** The register shows the last [w] numbers up to [latest]. *)
Definition window_shows (w latest : Z) (m : FixedBigInt) (delivered : list Z) : Prop :=
  reg_ok w m /\
  (forall j, 0 <= j < w -> tb (bits m) j = true <-> latest - j ∈ delivered) /\
  (forall s, s ∈ delivered -> s <= latest).

Lemma window_shows_bit w latest m H s : 0 < w -> window_shows w latest m H ->
  0 <= latest - s < w -> bit m (latest - s) = 0 <-> s ∉ H.
Proof.
  intros Hw ((Hn & Hr) & Hb & _) Hs. rewrite bit_tb, Hn by lia.
  destruct (Z.ltb_spec (latest - s) w); [|lia].
  specialize (Hb (latest - s) Hs). replace (latest - (latest - s)) with s in Hb by lia.
  destruct (tb (bits m) (latest - s)); simpl; naive_solver lia.
Qed.

Lemma window_shows_advance w latest m H s : 0 < w -> w mod 64 <= 32 ->
  window_shows w latest m H -> latest < s ->
  window_shows w s (set_bit (lsh m (s - latest)) 0) (s :: H).
Proof.
  intros Hw Hm (Hr & Hb & Hle) Hs. split_and!.
  - apply reg_ok_set_bit; [lia..|]. by apply reg_ok_lsh; [|lia|].
  - intros j Hj. rewrite (tb_set_bit w) by (try apply reg_ok_lsh; (done || lia)).
    rewrite (tb_lsh w) by (done || lia). rewrite elem_of_cons.
    rewrite orb_true_iff, andb_true_iff, Z.eqb_eq, Z.leb_le.
    replace (s - j) with (latest - (j - (s - latest))) by lia.
    split.
    + intros [->|[Hsh Ht]]; [left; lia|right]. apply Hb in Ht; [done|lia].
    + intros [?|Hin]; [left; lia|right].
      destruct (decide (s - latest <= j)); [split; [lia|]; apply Hb; [lia|done]|].
      apply Hle in Hin; lia.
  - intros x [->|Hx]%elem_of_cons; [lia|]. apply Hle in Hx; lia.
Qed.

Lemma window_shows_mark w latest m H s : 0 < w -> window_shows w latest m H ->
  0 <= latest - s < w -> window_shows w latest (set_bit m (latest - s)) (s :: H).
Proof.
  intros Hw (Hr & Hb & Hle) Hs. split_and!.
  - apply reg_ok_set_bit; (done || lia).
  - intros j Hj. rewrite (tb_set_bit w) by (done || lia).
    rewrite elem_of_cons, orb_true_iff, Z.eqb_eq, Hb by lia.
    split; (intros [?|?]; [left; lia|right; done]).
  - intros x [->|Hx]%elem_of_cons; [lia|]. by apply Hle.
Qed.

Section sliding.
Context (oc : bool) (w max : Z).
Hypothesis Hw : 0 < w <= max.
Hypothesis Hmax : max + w < U64.
Hypothesis Hmod : w mod 64 <= 32.

Definition sw_rel (d : SlidingWindowDetector) (H : list Z) : Prop :=
  sw_max_seq d = max /\ sw_window_size d = w /\ 0 <= sw_latest_seq d <= max /\
  window_shows w (sw_latest_seq d) (sw_mask d) H /\ (forall s, s ∈ H -> 0 <= s).

Lemma sw_rel_new : sw_rel (SlidingWindowDetector_new w max) [].
Proof.
  unfold sw_rel, window_shows, SlidingWindowDetector_new.
  cbn [sw_max_seq sw_window_size sw_latest_seq sw_mask].
  split_and!; try done; try lia; try set_solver.
  - apply reg_ok_new; lia.
  - intros j Hj. rewrite tb_new. set_solver.
Qed.

Lemma sw_check_spec d H s : sw_rel d H -> 0 <= s ->
  SlidingWindowDetector_check oc d s =
    Ok (if decide (fresh max w (sw_latest_seq d) H s)
        then (true, sw_set_accepted d true s) else (false, sw_set_accepted d false (sw_seq d))).
Proof.
  intros (Hm & Hws & Hl & Hs & _) Hs0. unfold SlidingWindowDetector_check.
  destruct d as [a sq latest mx ws m]; simpl in *; subst mx ws.
  destruct (Z.gtb_spec s max); [rewrite decide_False by (unfold fresh; lia); done|].
  destruct (Z.leb_spec s latest); [|rewrite decide_True by (unfold fresh; split; [lia|by left]); done].
  unfold add_ovf. destruct (Z.ltb_spec (w + s) U64); [|lia]. simpl.
  destruct (Z.geb_spec latest (w + s)); [rewrite decide_False by (unfold fresh; lia); done|].
  pose proof (window_shows_bit w latest m H s ltac:(lia) Hs ltac:(lia)) as Hbit.
  destruct (Z.eqb_spec (bit m (latest - s)) 0) as [E|E]; simpl.
  - rewrite decide_True; [done|]. unfold fresh. split; [lia|right; split; [lia|by apply Hbit]].
  - rewrite decide_False; [done|]. unfold fresh. intros [_ [?|[_ ?]]]; [lia|naive_solver].
Qed.

Lemma sw_accept_spec d H s : sw_rel d H -> 0 <= s -> fresh max w (sw_latest_seq d) H s ->
  exists d', SlidingWindowDetector_accept (sw_set_accepted d true s) = Ok d' /\
    sw_rel d' (s :: H) /\ sw_latest_seq d' = Z.max (sw_latest_seq d) s.
Proof.
  intros (Hm & Hws & Hl & Hs & Hpos) Hs0 Hf. unfold SlidingWindowDetector_accept.
  destruct d as [a sq latest mx ws m]; simpl in *; subst mx ws.
  destruct (Z.eqb_spec max 0); [lia|]. unfold fresh in Hf.
  destruct (Z.gtb_spec s latest); eexists; (split; [done|]); unfold sw_rel; simpl.
  - rewrite Z.sub_diag, Z.mod_0_l by lia. split_and!; try lia; [|set_solver].
    apply window_shows_advance; (done || lia).
  - rewrite Z.mod_small by lia. split_and!; try lia; [|set_solver].
    apply window_shows_mark; (done || lia).
Qed.

Lemma sw_rel_flags d H a s : sw_rel d H -> sw_rel (sw_set_accepted d a s) H.
Proof. done. Qed.

Lemma sw_run_spec ps d H : sw_rel d H -> Forall (fun p => 0 <= p.1) ps -> NoDup H ->
  exists acc d', sw_run oc d ps H = Ok (acc, d') /\ sw_rel d' acc /\ NoDup acc /\
    (forall s, s ∈ acc -> s ∈ H \/ (s, true) ∈ ps).
Proof.
  revert d H; induction ps as [|[s auth] ps IH]; intros d H Hr Hps Hnd; simpl.
  { do 2 eexists; split_and!; try done. auto. }
  apply Forall_cons in Hps as [Hs Hps]; simpl in Hs.
  unfold sw_receive; simpl. rewrite (sw_check_spec d H s) by done. simpl.
  assert (Hskip : forall a q, exists acc d', sw_run oc (sw_set_accepted d a q) ps H = Ok (acc, d') /\
     sw_rel d' acc /\ NoDup acc /\ (forall x, x ∈ acc -> x ∈ H \/ (x, true) ∈ (s, auth) :: ps)).
  { intros a q. destruct (IH (sw_set_accepted d a q) H) as (acc & d' & E & ? & ? & Hin); [done..|].
    do 2 eexists; split_and!; [exact E|done|done|]. intros x Hx; destruct (Hin x Hx); [by left|right; by right]. }
  destruct (decide _) as [Hf|Hf]; simpl; [|apply Hskip].
  destruct auth; simpl; [|apply Hskip].
  destruct (sw_accept_spec d H s Hr Hs Hf) as (d1 & -> & Hr1 & Hl1). simpl.
  assert (HsH : s ∉ H).
  { destruct Hf as [_ [Hlt|[_ ?]]]; [|done]. intros Hin.
    destruct Hr as (_ & _ & _ & (_ & _ & Hle) & _). apply Hle in Hin; lia. }
  destruct (IH d1 (s :: H)) as (acc & d' & E & ? & ? & Hin); [done..|by constructor|].
  do 2 eexists; split_and!; [exact E|done|done|].
  intros x Hx. destruct (Hin x Hx) as [[->|?]%elem_of_cons|]; [right; left|by left|right; by right].
Qed.
End sliding.

(** * [WrappedSlidingWindowDetector] *)

Record WrappedSlidingWindowDetector := mkWrappedSlidingWindowDetector {
  wr_accepted : bool;
  wr_seq : Z;
  wr_latest_seq : Z;
  wr_max_seq : Z;
  wr_window_size : Z;
  wr_mask : FixedBigInt;
  wr_init : bool
}.

Definition WrappedSlidingWindowDetector_new (window_size max_seq : Z) : WrappedSlidingWindowDetector :=
  {| wr_accepted := false; wr_seq := 0; wr_latest_seq := 0; wr_max_seq := max_seq;
     wr_window_size := window_size; wr_mask := FixedBigInt_new window_size; wr_init := false |}.

(** [x as i64] for a [u64]. *)
Definition as_i64 (x : Z) : Z := if x <? 9223372036854775808 then x else x - U64.

(** The signed distance both methods compute ("Wrap the number"). *)
Definition wrapped_diff (latest seq max : Z) : Z :=
  let diff := as_i64 latest - as_i64 seq in
  if diff >? as_i64 max ÷ 2 then diff - as_i64 (as_u64 (max + 1))
  else if diff <=? - (as_i64 max ÷ 2) then diff + as_i64 (as_u64 (max + 1))
  else diff.

Definition wr_set (d : WrappedSlidingWindowDetector) (a : bool) (s latest : Z) (m : FixedBigInt) (i : bool)
  : WrappedSlidingWindowDetector :=
  {| wr_accepted := a; wr_seq := s; wr_latest_seq := latest; wr_max_seq := wr_max_seq d;
     wr_window_size := wr_window_size d; wr_mask := m; wr_init := i |}.

Definition WrappedSlidingWindowDetector_check (d : WrappedSlidingWindowDetector) (seq : Z)
  : bool * WrappedSlidingWindowDetector :=
  let d := wr_set d false (wr_seq d) (wr_latest_seq d) (wr_mask d) (wr_init d) in
  if seq >? wr_max_seq d then (false, d)
  else
    let d := if negb (wr_init d)
             then wr_set d false (wr_seq d) (if negb (seq =? 0) then seq - 1 else wr_max_seq d)
                    (wr_mask d) true
             else d in
    let diff := wrapped_diff (wr_latest_seq d) seq (wr_max_seq d) in
    if diff >=? wr_window_size d then (false, d)
    else if (diff >=? 0) && negb (bit (wr_mask d) diff =? 0) then (false, d)
    else (true, wr_set d true seq (wr_latest_seq d) (wr_mask d) (wr_init d)).

Definition WrappedSlidingWindowDetector_accept (d : WrappedSlidingWindowDetector)
  : outcome Empty_set WrappedSlidingWindowDetector :=
  if negb (wr_accepted d) then Ok d
  else
    let diff := wrapped_diff (wr_latest_seq d) (wr_seq d) (wr_max_seq d) in
    if negb (diff <? wr_window_size d) then Panic (* assert! *)
    else if diff <? 0
    then Ok (wr_set d (wr_accepted d) (wr_seq d) (wr_seq d)
               (set_bit (lsh (wr_mask d) (- diff)) 0) (wr_init d))
    else Ok (wr_set d (wr_accepted d) (wr_seq d) (wr_latest_seq d)
               (set_bit (wr_mask d) diff) (wr_init d)).

Definition wr_receive (d : WrappedSlidingWindowDetector) (seq : Z)
  : outcome Empty_set (bool * WrappedSlidingWindowDetector) :=
  let '(ok, d) := WrappedSlidingWindowDetector_check d seq in
  if ok then d ← WrappedSlidingWindowDetector_accept d; Ok (true, d) else Ok (false, d).

(** A stream of packets given by their extended numbers, of which the wire
    carries the residue modulo [max + 1]. *)
Fixpoint wr_run (max : Z) (d : WrappedSlidingWindowDetector) (es acc : list Z)
  : outcome Empty_set (list Z * WrappedSlidingWindowDetector) :=
  match es with
  | [] => Ok (acc, d)
  | e :: es =>
      '(ok, d) ← wr_receive d (e mod (max + 1));
      wr_run max d es (if ok : bool then e :: acc else acc)
  end.

(** Each packet is less than half a turn away from the highest one so far. *)
Fixpoint tracked (half latest : Z) (es : list Z) : Prop :=
  match es with
  | [] => True
  | e :: es => - half < latest - e <= half /\ tracked half (Z.max latest e) es
  end.

Section wrapped.
Context (w max : Z).
Hypothesis Hw : 0 < w < max / 2.
Hypothesis Hmax : max < 4611686018427387904.
Hypothesis Hmod : w mod 64 <= 32.
Local Abbreviation M := (max + 1).

Lemma wr_max_pos : 1 < max.
Proof using Hw. clear - Hw; mlia. Qed.

Lemma wrapped_diff_spec latest e : - (max / 2) < latest - e <= max / 2 ->
  wrapped_diff (latest mod M) (e mod M) max = latest - e.
Proof.
  intros Hd. pose proof wr_max_pos as Hp. pose proof (Z.mod_pos_bound latest M ltac:(lia)) as H1.
  pose proof (Z.mod_pos_bound e M ltac:(lia)) as H2.
  pose proof (Z.div_mod latest M ltac:(lia)) as D1. pose proof (Z.div_mod e M ltac:(lia)) as D2.
  unfold wrapped_diff, as_i64, as_u64. rewrite (Z.mod_small M) by lia.
  rewrite Z.quot_div_nonneg by (destruct (Z.ltb_spec max 9223372036854775808); lia).
  destruct (Z.ltb_spec (latest mod M) 9223372036854775808), (Z.ltb_spec (e mod M) 9223372036854775808),
    (Z.ltb_spec max 9223372036854775808), (Z.ltb_spec M 9223372036854775808); try lia.
  pose proof (Z.div_mod max 2 ltac:(lia)) as D3. pose proof (Z.mod_pos_bound max 2 ltac:(lia)) as Hr3.
  set (q1 := latest / M) in *. set (q2 := e / M) in *. set (r1 := latest mod M) in *. set (r2 := e mod M) in *.
  assert (Hq : r1 - r2 = (latest - e) - M * (q1 - q2)) by lia.
  assert (q1 - q2 = 0 \/ q1 - q2 = 1 \/ q1 - q2 = -1) as [Hc|[Hc|Hc]] by nia;
    rewrite Hc in Hq; destruct (Z.gtb_spec (r1 - r2) (max / 2)), (Z.leb_spec (r1 - r2) (- (max / 2))); lia.
Qed.

Definition wr_rel (latest : Z) (d : WrappedSlidingWindowDetector) (H : list Z) : Prop :=
  wr_max_seq d = max /\ wr_window_size d = w /\ wr_latest_seq d = latest mod M /\
  wr_init d = true /\ window_shows w latest (wr_mask d) H.

Lemma wr_receive_spec latest d H e : wr_rel latest d H -> - (max / 2) < latest - e <= max / 2 ->
  exists d', let ok := bool_decide (latest < e \/ (latest - e < w /\ e ∉ H)) in
    wr_receive d (e mod M) = Ok (ok, d') /\
    wr_rel (Z.max latest e) d' (if ok then e :: H else H).
Proof.
  intros (Hm & Hws & Hl & Hi & Hs) He. pose proof wr_max_pos as Hp.
  unfold wr_receive, WrappedSlidingWindowDetector_check, WrappedSlidingWindowDetector_accept.
  destruct d as [a sq lt mx ws m i]; simpl in *; subst. simpl.
  pose proof (Z.mod_pos_bound e M ltac:(lia)).
  destruct (Z.gtb_spec (e mod M) max); [lia|]. rewrite wrapped_diff_spec by done.
  destruct (Z.geb_spec (latest - e) w).
  { eexists. rewrite bool_decide_eq_false_2 by lia. split; [done|].
    unfold wr_rel; simpl. rewrite Z.max_l by lia. done. }
  destruct (Z.geb_spec (latest - e) 0) as [Hge|Hlt]; simpl.
  - pose proof (window_shows_bit w latest m H e ltac:(lia) Hs ltac:(lia)) as Hb.
    rewrite Z.max_l by lia.
    destruct (Z.eqb_spec (bit m (latest - e)) 0) as [E|E]; simpl.
    + rewrite wrapped_diff_spec by done. destruct (Z.ltb_spec (latest - e) w); [|lia]. simpl.
      destruct (Z.ltb_spec (latest - e) 0); [lia|].
      eexists. rewrite bool_decide_eq_true_2 by (right; split; [lia|by apply Hb]).
      split; [done|]. unfold wr_rel; simpl. split_and!; try done.
      by apply window_shows_mark; [lia| |lia].
    + eexists. rewrite bool_decide_eq_false_2 by (intros [?|[_ ?]]; [lia|naive_solver]).
      split; [done|]. done.
  - rewrite wrapped_diff_spec by done. destruct (Z.ltb_spec (latest - e) w); [|lia]. simpl.
    destruct (Z.ltb_spec (latest - e) 0); [|lia].
    eexists. rewrite bool_decide_eq_true_2 by (left; lia). split; [done|].
    unfold wr_rel; simpl. rewrite Z.max_r by lia. split_and!; try done.
    replace (- (latest - e)) with (e - latest) by lia.
    by apply window_shows_advance; [lia| | |lia].
Qed.

Lemma wr_first e : exists d', wr_receive (WrappedSlidingWindowDetector_new w max) (e mod M) = Ok (true, d') /\
  wr_rel e d' [e].
Proof.
  pose proof wr_max_pos as Hp.
  set (d0 := wr_set (WrappedSlidingWindowDetector_new w max) false 0 ((e - 1) mod M) (FixedBigInt_new w) true).
  pose proof (Z.mod_pos_bound e M ltac:(lia)).
  assert (Heq : wr_receive (WrappedSlidingWindowDetector_new w max) (e mod M) = wr_receive d0 (e mod M)).
  { unfold wr_receive, WrappedSlidingWindowDetector_check. simpl wr_max_seq.
    destruct (Z.gtb_spec (e mod M) max); [lia|]. simpl.
    replace (if negb (e mod M =? 0) then e mod M - 1 else max) with ((e - 1) mod M); [done|].
    pose proof (Z.mod_pos_bound e M ltac:(lia)). pose proof (Z.div_mod e M ltac:(lia)).
    destruct (Z.eqb_spec (e mod M) 0); simpl; symmetry.
    - apply (Z.mod_unique_pos _ _ (e / M - 1)); lia.
    - apply (Z.mod_unique_pos _ _ (e / M)); lia. }
  rewrite Heq.
  destruct (wr_receive_spec (e - 1) d0 [] e) as (d' & E & Hr).
  - unfold wr_rel, d0; cbn [wr_set wr_max_seq wr_window_size wr_latest_seq wr_init wr_mask].
    split_and!; try done. split_and!; [apply reg_ok_new; lia| |set_solver].
    intros j Hj. rewrite tb_new. set_solver.
  - lia.
  - rewrite bool_decide_eq_true_2 in E, Hr by lia. rewrite Z.max_r in Hr by lia. by exists d'.
Qed.

Lemma wr_run_spec es latest d H : wr_rel latest d H -> tracked (max / 2) latest es -> NoDup H ->
  exists acc d', wr_run max d es H = Ok (acc, d') /\ NoDup acc /\
    (forall e, e ∈ acc -> e ∈ H \/ e ∈ es) /\
    wr_rel (foldl Z.max latest es) d' acc.
Proof.
  revert latest d H; induction es as [|e es IH]; intros latest d H Hr Ht Hnd; simpl in *.
  { do 2 eexists; split_and!; try done. auto. }
  destruct Ht as [He Ht]. destruct (wr_receive_spec latest d H e Hr He) as (d1 & E & Hr1).
  rewrite E; simpl.
  destruct (IH (Z.max latest e) d1 _ Hr1 Ht) as (acc & d' & E' & ? & Hin & ?).
  { case_bool_decide as Hc; [|done]. constructor; [|done]. destruct Hc as [Hc|[_ ?]]; [|done].
    intros HeH. destruct Hr as (_ & _ & _ & _ & _ & _ & Hle). apply Hle in HeH; lia. }
  do 2 eexists; split_and!; [exact E'|done| |done].
  intros x Hx. destruct (Hin x Hx) as [Hx'|]; [|set_solver].
  case_bool_decide; set_solver.
Qed.
End wrapped.

(** * The properties *)

(** C30: [SlidingWindowDetector] (DTLS): whatever records arrive, forged ones
    included, and in whatever order, the detector never panics and never lets a
    sequence number through twice; and it lets through every number that is
    still inside the window (or above it) and not yet delivered.  The window
    size must leave the shift register's mask whole ([w mod 64 <= 32]). *)
Theorem sliding_window_no_replay : forall oc w max ps,
  0 < w <= max -> max + w < U64 -> w mod 64 <= 32 ->
  Forall (fun p => 0 <= p.1) ps ->
  exists acc d, sw_run oc (SlidingWindowDetector_new w max) ps [] = Ok (acc, d) /\
    NoDup acc /\ (forall s, s ∈ acc -> (s, true) ∈ ps) /\
    (forall s, 0 <= s -> exists d',
       SlidingWindowDetector_check oc d s =
         Ok (bool_decide (fresh max w (sw_latest_seq d) acc s), d') /\
       sw_latest_seq d' = sw_latest_seq d /\ sw_mask d' = sw_mask d).
Proof.
  intros oc w max ps Hw Hmax Hmod Hps.
  destruct (sw_run_spec oc w max Hw Hmax Hmod ps _ [] (sw_rel_new w max Hw Hmax Hmod) Hps (NoDup_nil_2))
    as (acc & d & E & Hr & Hnd & Hin).
  exists acc, d. split_and!; [done|done|intros s Hs; destruct (Hin s Hs); [set_solver|done]|].
  intros s Hs. rewrite (sw_check_spec oc w max Hw Hmax d acc s Hr Hs).
  destruct (decide _) as [Hf|Hf]; eexists;
    [rewrite bool_decide_eq_true_2 by done|rewrite bool_decide_eq_false_2 by done]; done.
Qed.

Lemma sliding_window_no_replay_witness :
  exists acc d, sw_run true (SlidingWindowDetector_new 64 281474976710655)
      [(1, true); (70, true); (1, true); (9, false); (9, true); (9, true); (70, true)] [] = Ok (acc, d) /\
    NoDup acc /\ acc = [9; 70; 1].
Proof.
  destruct (sliding_window_no_replay true 64 281474976710655
      [(1, true); (70, true); (1, true); (9, false); (9, true); (9, true); (70, true)])
    as (acc & d & E & Hnd & _); [lia|unfold U64; lia|vm_compute; discriminate|repeat constructor; simpl; lia|].
  exists acc, d. split; [exact E|split; [exact Hnd|]].
  vm_compute in E. injection E as <- _. reflexivity.
Defined.

(** [WrappedSlidingWindowDetector] (SRTP, SRTCP) refines a detector over
    unbounded numbers: when each packet is less than half the number space away
    from the highest one received, judging packets by their number modulo
    [max + 1] never panics, delivers no extended number twice across any number
    of wrap-arounds, and delivers exactly those that are fresh. *)
Theorem wrapped_window_no_replay : forall w max e0 es,
  0 < w < max / 2 -> max < 4611686018427387904 -> w mod 64 <= 32 ->
  tracked (max / 2) e0 es ->
  exists acc d, wr_run max (WrappedSlidingWindowDetector_new w max) (e0 :: es) [] = Ok (acc, d) /\
    NoDup acc /\ (forall e, e ∈ acc -> e ∈ e0 :: es) /\
    (let latest := foldl Z.max e0 es in
     forall e, - (max / 2) < latest - e <= max / 2 ->
       exists d', wr_receive d (e mod (max + 1)) =
         Ok (bool_decide (latest < e \/ (latest - e < w /\ e ∉ acc)), d')).
Proof.
  intros w max e0 es Hw Hmax Hmod Ht.
  destruct (wr_first w max Hw Hmax Hmod e0) as (d0 & E0 & Hr0).
  destruct (wr_run_spec w max Hw Hmax Hmod es e0 d0 [e0] Hr0 Ht) as (acc & d & E & Hnd & Hin & Hr).
  { apply NoDup_singleton. }
  exists acc, d. split_and!.
  - cbn [wr_run]. rewrite E0. exact E.
  - done.
  - intros e He; destruct (Hin e He); set_solver.
  - intros latest e He. destruct (wr_receive_spec w max Hw Hmax Hmod latest d acc e Hr He) as (d' & E' & _).
    by exists d'.
Qed.

Lemma wrapped_window_no_replay_witness :
  exists acc d, wr_run 65535 (WrappedSlidingWindowDetector_new 64 65535)
      [65534; 65535; 65536; 65534; 65540; 65536; 65537; 65476] [] = Ok (acc, d) /\
    NoDup acc /\ acc = [65537; 65540; 65536; 65535; 65534].
Proof.
  destruct (wrapped_window_no_replay 64 65535 65534 [65535; 65536; 65534; 65540; 65536; 65537; 65476])
    as (acc & d & E & Hnd & _);
    [vm_compute; split; reflexivity|lia|vm_compute; discriminate|vm_compute; repeat split; discriminate|].
  exists acc, d. split; [exact E|split; [exact Hnd|]].
  vm_compute in E. injection E as <- _. reflexivity.
Defined.

(** The mask [FixedBigInt::new] computes keeps [64 - n % 64] bits of the top
    word where [n % 64] are needed, so a window such as 48 forgets numbers it
    still covers: the record numbered 1 passes twice, 20 behind the head of a
    window of 48. *)
Theorem narrow_mask_admits_replay :
  exists d, sw_run true (SlidingWindowDetector_new 48 281474976710655)
    [(1, true); (21, true); (1, true)] [] = Ok ([1; 21; 1], d).
Proof. eexists. vm_compute. reflexivity. Qed.
