(* ===== verification/TcpFraming.v ===== *)
(** RFC 4571 framing for ICE over TCP ([rtc-shared/src/tcp_framing.rs]): the two
    encoders, the stateful decoder and the receive loop its callers run.  The
    theorems say that decoding does not depend on how TCP splits the stream and
    inverts the encoders. *)
From S2P Require Import Prelude.

Definition FRAMING_HEADER_LEN : Z := 2.
Definition MAX_FRAMED_PACKET_SIZE : Z := 65535.

(** [frame_packet] panics on a packet of more than 65535 bytes. *)
Definition frame_packet (buf : bytes) : outcome Empty_set bytes :=
  if negb (zlen buf <=? MAX_FRAMED_PACKET_SIZE) then Panic
  else
    let header := put_u16 (as_u16 (zlen buf)) in
    Ok (header ++ buf).

(** [frame_packet_to] overwrites a prefix of [out]: the result and the buffer
    afterwards. *)
Definition frame_packet_to (buf out : bytes) : option Z * bytes :=
  if zlen buf >? MAX_FRAMED_PACKET_SIZE then (None, out)
  else
    let total_len := FRAMING_HEADER_LEN + zlen buf in
    if zlen out <? total_len then (None, out)
    else
      let header := put_u16 (as_u16 (zlen buf)) in
      (Some total_len, header ++ buf ++ drop (Z.to_nat total_len) out).

Record TcpFrameDecoder := mkTcpFrameDecoder { buffer : bytes }.

Definition TcpFrameDecoder_new : TcpFrameDecoder := {| buffer := [] |}.

Definition extend_from_slice (d : TcpFrameDecoder) (data : bytes) : TcpFrameDecoder :=
  {| buffer := buffer d ++ data |}.

Definition next_packet (d : TcpFrameDecoder) : outcome Empty_set (option bytes * TcpFrameDecoder) :=
  if zlen (buffer d) <? FRAMING_HEADER_LEN then Ok (None, d)
  else
    b0 ← index (buffer d) 0;
    b1 ← index (buffer d) 1;
    let length := b0 * 256 + b1 in
    let total_len := FRAMING_HEADER_LEN + length in
    if zlen (buffer d) <? total_len then Ok (None, d)
    else
      packet ← slice (buffer d) FRAMING_HEADER_LEN total_len;
      Ok (Some packet, {| buffer := drop (Z.to_nat total_len) (buffer d) |}).

Definition buffered_len (d : TcpFrameDecoder) : Z := zlen (buffer d).
Definition TcpFrameDecoder_clear (d : TcpFrameDecoder) : TcpFrameDecoder := {| buffer := [] |}.

(** The loop of the callers, [while let Some(packet) = decoder.next_packet()].
    Each packet takes at least its two header bytes off the buffer, so as many
    rounds as there are buffered bytes, and one to see [None], are enough. *)
Fixpoint drain_packets (fuel : nat) (d : TcpFrameDecoder)
  : outcome Empty_set (list bytes * TcpFrameDecoder) :=
  match fuel with
  | O => Diverge
  | S fuel =>
      '(p, d) ← next_packet d;
      match p with
      | None => Ok ([], d)
      | Some packet => '(ps, d) ← drain_packets fuel d; Ok (packet :: ps, d)
      end
  end.

(** One TCP read handed to the decoder. *)
Definition feed (d : TcpFrameDecoder) (data : bytes) : outcome Empty_set (list bytes * TcpFrameDecoder) :=
  let d := extend_from_slice d data in
  drain_packets (S (length (buffer d))) d.

(** A sequence of reads: all packets in order, and the decoder at the end. *)
Fixpoint feed_all (d : TcpFrameDecoder) (reads : list bytes)
  : outcome Empty_set (list bytes * TcpFrameDecoder) :=
  match reads with
  | [] => Ok ([], d)
  | r :: reads =>
      '(ps, d) ← feed d r;
      '(qs, d) ← feed_all d reads;
      Ok (ps ++ qs, d)
  end.

(** * Parsing as a relation on the byte stream *)

(** [parses l ps rest]: the framed packets [ps] stand at the front of [l],
    followed by an incomplete frame [rest]. *)
Definition incomplete (l : bytes) : Prop :=
  zlen l < 2 \/ exists b0 b1 r, l = b0 :: b1 :: r /\ zlen r < b0 * 256 + b1.

Inductive parses : bytes -> list bytes -> bytes -> Prop :=
| parses_done l : incomplete l -> parses l [] l
| parses_packet b0 b1 p l ps rest :
    zlen p = b0 * 256 + b1 -> parses l ps rest ->
    parses (b0 :: b1 :: p ++ l) (p :: ps) rest.

Lemma next_packet_None l : incomplete l -> next_packet {| buffer := l |} = Ok (None, {| buffer := l |}).
Proof.
  unfold next_packet, FRAMING_HEADER_LEN; simpl. intros [H|(b0 & b1 & r & -> & H)].
  - destruct (Z.ltb_spec (zlen l) 2); [done|lia].
  - unfold index. autorewrite with zlen. zlen_pos.
    destruct (Z.ltb_spec (1 + (1 + zlen r)) 2); [lia|].
    destruct (Z.leb_spec 0 0), (Z.ltb_spec 0 (1 + (1 + zlen r))), (Z.leb_spec 0 1), (Z.ltb_spec 1 (1 + (1 + zlen r))); try lia.
    simpl. destruct (Z.ltb_spec (1 + (1 + zlen r)) (2 + (b0 * 256 + b1))); [done|lia].
Qed.

Lemma next_packet_Some b0 b1 p l : zlen p = b0 * 256 + b1 ->
  next_packet {| buffer := b0 :: b1 :: p ++ l |} = Ok (Some p, {| buffer := l |}).
Proof.
  intros Hp. unfold next_packet, FRAMING_HEADER_LEN; simpl buffer.
  unfold index. autorewrite with zlen. zlen_pos.
  destruct (Z.ltb_spec (1 + (1 + (zlen p + zlen l))) 2); [lia|].
  destruct (Z.leb_spec 0 0), (Z.ltb_spec 0 (1 + (1 + (zlen p + zlen l)))), (Z.leb_spec 0 1),
    (Z.ltb_spec 1 (1 + (1 + (zlen p + zlen l)))); try lia.
  simpl mbind. rewrite <- Hp.
  destruct (Z.ltb_spec (1 + (1 + (zlen p + zlen l))) (2 + zlen p)); [lia|].
  rewrite (slice_app_eq _ [b0; b1] p l) by (autorewrite with zlen; (done || lia)).
  simpl. do 3 f_equal. replace (Z.to_nat (2 + zlen p)) with (S (S (length p))) by (unfold zlen; lia).
  simpl. by rewrite drop_app_length.
Qed.

Lemma incomplete_dec l : bytes_ok l -> incomplete l \/
  exists b0 b1 p r, l = b0 :: b1 :: p ++ r /\ zlen p = b0 * 256 + b1.
Proof.
  intros Hl. destruct l as [|b0 [|b1 r]]; [left; left; zlia..|].
  apply Forall_cons in Hl as [H0 [H1 _]%Forall_cons].
  destruct (Z.lt_ge_cases (zlen r) (b0 * 256 + b1)) as [H|H]; [left; right; by eauto|].
  right. exists b0, b1, (take (Z.to_nat (b0 * 256 + b1)) r), (drop (Z.to_nat (b0 * 256 + b1)) r).
  rewrite take_drop. split; [done|zlia].
Qed.

Lemma parses_total l : bytes_ok l -> exists ps rest, parses l ps rest.
Proof.
  remember (length l) as n eqn:Hn. revert l Hn. induction (lt_wf n) as [n _ IH]; intros l -> Hl.
  destruct (incomplete_dec l Hl) as [H|(b0 & b1 & p & r & -> & Hp)]; [eexists _, _; by constructor|].
  apply Forall_cons in Hl as [_ [_ [_ Hr]%Forall_app]%Forall_cons].
  destruct (IH (length r)) with (l := r) as (ps & rest & H); [simpl; rewrite length_app; lia|done|done|].
  eexists _, _; by constructor.
Qed.

Lemma drain_packets_parses l ps rest fuel : parses l ps rest -> (length l < fuel)%nat ->
  drain_packets fuel {| buffer := l |} = Ok (ps, {| buffer := rest |}).
Proof.
  intros H; revert fuel; induction H as [l Hl|b0 b1 p l ps rest Hp H IH]; intros [|fuel] Hf; try lia;
    cbn [drain_packets].
  - by rewrite next_packet_None.
  - rewrite next_packet_Some by done. simpl. simpl in Hf. rewrite length_app in Hf. rewrite IH by lia. done.
Qed.

(** Reading on after more bytes arrived. *)
Lemma parses_app l1 ps1 r1 l2 ps2 r2 :
  parses l1 ps1 r1 -> parses (r1 ++ l2) ps2 r2 -> parses (l1 ++ l2) (ps1 ++ ps2) r2.
Proof.
  induction 1 as [l Hl|b0 b1 p l ps rest Hp H IH]; intros H2; [done|].
  simpl. rewrite <- app_assoc. constructor; [done|auto].
Qed.

Lemma parses_inj l ps r ps' r' : parses l ps r -> parses l ps' r' -> ps = ps' /\ r = r'.
Proof.
  intros H; revert ps' r'; induction H as [l Hl|b0 b1 p l ps rest Hp H IH]; intros ps' r' H'.
  - inversion H' as [|b0 b1 p l' ps'' rest Hp Hps]; subst; [done|exfalso].
    destruct Hl as [Hl|(b0' & b1' & r & [= -> -> <-] & Hl)]; autorewrite with zlen in *; zlen_pos; lia.
  - inversion H' as [l' Hl|b0' b1' p' l' ps'' rest' Hp' Hps]; subst.
    + exfalso. destruct Hl as [Hl|(b0' & b1' & r & [= -> -> <-] & Hl)]; autorewrite with zlen in *; zlen_pos; lia.
    + match goal with E : p' ++ l' = p ++ l |- _ => rename E into HE end.
      apply app_inj_1 in HE as [-> ->]; [|unfold zlen in *; lia].
      destruct (IH ps'' r' Hps) as [-> ->]; done.
Qed.

Lemma feed_all_parses reads d : bytes_ok (buffer d ++ concat reads) -> incomplete (buffer d) ->
  exists ps rest, feed_all d reads = Ok (ps, {| buffer := rest |}) /\
    parses (buffer d ++ concat reads) ps rest.
Proof.
  revert d; induction reads as [|r reads IH]; intros [b] Hok Hinc; simpl in *.
  { rewrite app_nil_r. eexists _, _. split; [done|by constructor]. }
  assert (Hbr : bytes_ok (b ++ r)) by (rewrite app_assoc in Hok; by apply Forall_app in Hok as [? _]).
  destruct (parses_total (b ++ r) Hbr) as (ps & rest & Hp).
  unfold feed, extend_from_slice; simpl buffer.
  erewrite drain_packets_parses by (done || lia). simpl.
  assert (Hrest : incomplete rest /\ bytes_ok rest).
  { clear - Hp Hbr. induction Hp as [l Hl|b0 b1 p l ps rest Hp H IH]; [done|].
    apply IH. by apply Forall_cons in Hbr as [_ [_ [_ Hr]%Forall_app]%Forall_cons]. }
  destruct (IH {| buffer := rest |}) as (qs & rest' & E & Hq); simpl in *;
    [|by destruct Hrest|].
  { apply Forall_app; split; [by destruct Hrest|].
    rewrite app_assoc in Hok. by apply Forall_app in Hok as [_ ?]. }
  rewrite E; simpl. eexists _, _. split; [done|]. rewrite app_assoc. by eapply parses_app.
Qed.

Lemma frame_packet_Ok p : zlen p <= 65535 ->
  frame_packet p = Ok (zlen p / 256 :: zlen p mod 256 :: p).
Proof.
  intros. unfold frame_packet, MAX_FRAMED_PACKET_SIZE. zlen_pos.
  destruct (Z.leb_spec (zlen p) 65535); [|lia]. simpl. unfold as_u16.
  rewrite (Z.mod_small (zlen p) 65536), (Z.mod_small (zlen p / 256)) by mlia. done.
Qed.

(** * Properties *)

(** The decoder inverts the encoder whatever the segmentation: frame any
    packets of at most 65535 bytes, send them over TCP, and read the stream in
    pieces of any sizes; the receive loop returns those packets, in order, with
    nothing left over, and never panics. *)
Theorem framing_roundtrip : forall ps frames reads,
  Forall (fun p => bytes_ok p /\ zlen p <= 65535) ps ->
  Forall2 (fun p f => frame_packet p = Ok f) ps frames ->
  concat reads = concat frames ->
  feed_all TcpFrameDecoder_new reads = Ok (ps, TcpFrameDecoder_new).
Proof.
  intros ps frames reads Hps Hfr Hcat.
  assert (Hp : parses (concat frames) ps [] /\ bytes_ok (concat frames)).
  { clear Hcat reads. induction Hfr as [|p f ps frames Hf Hfr IH]; simpl.
    { split; [constructor; left; zlia|constructor]. }
    apply Forall_cons in Hps as [[Hok Hlen] Hps]. specialize (IH Hps) as [IH IHok].
    rewrite frame_packet_Ok in Hf by done. injection Hf as <-. simpl. pose proof (zlen_nonneg p). split.
    - constructor; [mlia|done].
    - do 2 (apply Forall_cons; split; [unfold is_u8; mlia|]). by apply Forall_app. }
  destruct Hp as [Hp Hok].
  destruct (feed_all_parses reads TcpFrameDecoder_new) as (qs & rest & E & Hq);
    simpl in *; [by rewrite Hcat|left; zlia|].
  rewrite Hcat in Hq. destruct (parses_inj _ _ _ _ _ Hq Hp) as [-> ->]. done.
Qed.

Lemma framing_roundtrip_witness :
  feed_all TcpFrameDecoder_new [[0]; [3; 72; 105]; [33; 0; 0; 0]; []; [2; 7; 8]] =
    Ok ([[72; 105; 33]; []; [7; 8]], TcpFrameDecoder_new).
Proof.
  apply (framing_roundtrip _ [[0; 3; 72; 105; 33]; [0; 0]; [0; 2; 7; 8]]);
    repeat constructor; vm_compute; congruence.
Defined.

(** Segmentation independence for arbitrary input, well-formed or not: two
    ways of cutting the same byte stream into reads give the same packets and
    leave the same bytes buffered. *)
Theorem framing_segmentation_independent : forall reads1 reads2,
  bytes_ok (concat reads1) -> concat reads1 = concat reads2 ->
  exists ps d, feed_all TcpFrameDecoder_new reads1 = Ok (ps, d) /\
    feed_all TcpFrameDecoder_new reads2 = Ok (ps, d) /\
    next_packet d = Ok (None, d).
Proof.
  intros reads1 reads2 Hok Hcat.
  destruct (feed_all_parses reads1 TcpFrameDecoder_new) as (ps1 & r1 & E1 & H1); [done|left; zlia|].
  destruct (feed_all_parses reads2 TcpFrameDecoder_new) as (ps2 & r2 & E2 & H2);
    [simpl; by rewrite <- Hcat|left; zlia|].
  simpl in *. rewrite <- Hcat in H2. destruct (parses_inj _ _ _ _ _ H1 H2) as [-> ->].
  eexists _, _; split_and!; [done|done|]. apply next_packet_None.
  clear - H2. induction H2; done.
Qed.

Lemma framing_segmentation_independent_witness :
  exists ps d, feed_all TcpFrameDecoder_new [[0; 1; 9; 0]; [5; 1]] = Ok (ps, d) /\
    feed_all TcpFrameDecoder_new [[0]; [1]; [9; 0; 5]; [1]] = Ok (ps, d) /\
    next_packet d = Ok (None, d).
Proof.
  apply (framing_segmentation_independent [[0; 1; 9; 0]; [5; 1]] [[0]; [1]; [9; 0; 5]; [1]]).
  - repeat constructor; vm_compute; congruence.
  - reflexivity.
Defined.
