(* ===== verification/SctpError.v ===== *)
(** The SCTP section of the error enumeration of [rtc-shared/src/error.rs], the
    error half of [Result] in every SCTP component, with the two general variants
    the SCTP code also returns. *)
From S2P Require Import Prelude.

Inductive Error : Type :=
| ErrChunkHeaderTooSmall
| ErrChunkHeaderNotEnoughSpace
| ErrChunkHeaderPaddingNonZero
| ErrChunkHeaderInvalidLength
| ErrChunkTypeNotAbort
| ErrBuildAbortChunkFailed
| ErrChunkTypeNotCookieAck
| ErrChunkTypeNotCookieEcho
| ErrChunkTypeNotCt
| ErrBuildErrorChunkFailed
| ErrMarshalStreamFailed
| ErrChunkTooShort
| ErrChunkTypeNotForwardTsn
| ErrChunkTypeNotHeartbeat
| ErrChunkTypeNotHeartbeatAck
| ErrHeartbeatNotLongEnoughInfo
| ErrParseParamTypeFailed
| ErrHeartbeatParam
| ErrHeartbeatChunkUnmarshal
| ErrUnimplemented
| ErrHeartbeatAckParams
| ErrHeartbeatAckNotHeartbeatInfo
| ErrHeartbeatAckMarshalParam
| ErrErrorCauseTooSmall
| ErrParamTypeUnhandled (typ : Z)
| ErrParamTypeUnexpected
| ErrParamHeaderTooShort
| ErrParamHeaderSelfReportedLengthShorter
| ErrParamHeaderSelfReportedLengthLonger
| ErrParamHeaderParseFailed
| ErrParamPacketTooShort
| ErrSsnResetRequestParamTooShort
| ErrUnmarshalSsnResetRequestParam
| ErrReconfigRespParamTooShort
| ErrUnmarshalReconfigRespParam
| ErrInvalidAlgorithmType
| ErrInitChunkParseParamTypeFailed
| ErrInitChunkUnmarshalParam
| ErrInitAckMarshalParam
| ErrChunkTypeNotTypeInit
| ErrChunkValueNotLongEnough
| ErrChunkTypeInitFlagZero
| ErrChunkTypeInitUnmarshalFailed
| ErrChunkTypeInitMarshalFailed
| ErrChunkTypeInitInitiateTagZero
| ErrInitInboundStreamRequestZero
| ErrInitOutboundStreamRequestZero
| ErrInitAdvertisedReceiver1500
| ErrChunkPayloadSmall
| ErrChunkTypeNotPayloadData
| ErrChunkUnmarshalPayloadData
| ErrChunkTypeNotReconfig
| ErrChunkReconfigInvalidParamA
| ErrChunkParseParamTypeFailed
| ErrChunkMarshalParamAReconfigFailed
| ErrChunkMarshalParamBReconfigFailed
| ErrChunkTypeNotSack
| ErrSackSizeNotLargeEnoughInfo
| ErrChunkUnmarshalSack
| ErrInvalidChunkSize
| ErrChunkTypeNotShutdown
| ErrChunkUnmarshalShutdown
| ErrChunkTypeNotShutdownAck
| ErrChunkTypeNotShutdownComplete
| ErrPacketRawTooSmall
| ErrParseSctpChunkNotEnoughData
| ErrUnmarshalUnknownChunkType
| ErrChecksumMismatch
| ErrUnexpectedChuckPoppedUnordered
| ErrUnexpectedChuckPoppedOrdered
| ErrUnexpectedQState
| ErrTryAgain
| ErrAbortChunk (msg : string)
| ErrShutdownNonEstablished
| ErrAssociationClosedBeforeConn
| ErrAssociationInitFailed
| ErrAssociationHandshakeClosed
| ErrSilentlyDiscard
| ErrInitNotStoredToSend
| ErrCookieEchoNotStoredToSend
| ErrSctpPacketSourcePortZero
| ErrSctpPacketDestinationPortZero
| ErrInitChunkBundled
| ErrInitChunkVerifyTagNotZero
| ErrHandleInitState
| ErrInitAckNoCookie
| ErrStreamAlreadyExist
| ErrStreamCreateFailed
| ErrInflightQueueTsnPop
| ErrTsnRequestNotExist
| ErrResetPacketInStateNotExist
| ErrParameterType
| ErrPayloadDataStateNotExist
| ErrChunkTypeUnhandled
| ErrHandshakeInitAck
| ErrHandshakeCookieEcho
| ErrOutboundPacketTooLarge
| ErrStreamClosed
| ErrStreamNotExisted
| ErrAssociationNotExisted
| ErrTransportNoExisted
| ErrEof
| ErrInvalidSystemTime
| ErrNetConnRead
| ErrMaxDataChannelID
| ErrShortBuffer
| OtherSctpErr (msg : string).

Abbreviation result A := (outcome Error A).
