(* ===== verification/SctpParam.v ===== *)
(** SCTP parameters ([rtc-sctp/src/param]): the type-length-value records inside
    INIT, INIT ACK, HEARTBEAT and RE-CONFIG chunks.  [Param] is the closed sum of
    the types that implement the [Param] trait; [build_param] is the parser that
    dispatches on the type field.  Proved: the parser never panics, it consumes
    no more than the declared length, and it inverts [param_marshal]. *)
From S2P Require Import Prelude Serial SctpError.

(** * Parameter types *)

Inductive ParamType :=
| PT_HeartbeatInfo | PT_Ipv4Addr | PT_Ipv6Addr | PT_StateCookie | PT_UnrecognizedParam
| PT_CookiePreservative | PT_HostNameAddr | PT_SupportedAddrTypes | PT_OutSsnResetReq
| PT_IncSsnResetReq | PT_SsnTsnResetReq | PT_ReconfigResp | PT_AddOutStreamsReq
| PT_AddIncStreamsReq | PT_Random | PT_ChunkList | PT_ReqHmacAlgo | PT_Padding
| PT_SupportedExt | PT_ForwardTsnSupp | PT_AddIpAddr | PT_DelIpaddr | PT_ErrClauseInd
| PT_SetPriAddr | PT_SuccessInd | PT_AdaptLayerInd
| PT_Unknown (param_type : Z).

#[export] Instance ParamType_eq_dec : EqDecision ParamType.
Proof. solve_decision. Defined.

(** [impl From<u16> for ParamType]. *)
Definition ParamType_from_u16 (v : Z) : ParamType :=
  match v with
  | 1 => PT_HeartbeatInfo
  | 5 => PT_Ipv4Addr
  | 6 => PT_Ipv6Addr
  | 7 => PT_StateCookie
  | 8 => PT_UnrecognizedParam
  | 9 => PT_CookiePreservative
  | 11 => PT_HostNameAddr
  | 12 => PT_SupportedAddrTypes
  | 13 => PT_OutSsnResetReq
  | 14 => PT_IncSsnResetReq
  | 15 => PT_SsnTsnResetReq
  | 16 => PT_ReconfigResp
  | 17 => PT_AddOutStreamsReq
  | 18 => PT_AddIncStreamsReq
  | 32770 => PT_Random
  | 32771 => PT_ChunkList
  | 32772 => PT_ReqHmacAlgo
  | 32773 => PT_Padding
  | 32776 => PT_SupportedExt
  | 49152 => PT_ForwardTsnSupp
  | 49153 => PT_AddIpAddr
  | 49154 => PT_DelIpaddr
  | 49155 => PT_ErrClauseInd
  | 49156 => PT_SetPriAddr
  | 49157 => PT_SuccessInd
  | _ => PT_Unknown v
  end.

(** [impl From<ParamType> for u16]. *)
Definition u16_from_ParamType (t : ParamType) : Z :=
  match t with
  | PT_HeartbeatInfo => 1
  | PT_Ipv4Addr => 5
  | PT_Ipv6Addr => 6
  | PT_StateCookie => 7
  | PT_UnrecognizedParam => 8
  | PT_CookiePreservative => 9
  | PT_HostNameAddr => 11
  | PT_SupportedAddrTypes => 12
  | PT_OutSsnResetReq => 13
  | PT_IncSsnResetReq => 14
  | PT_SsnTsnResetReq => 15
  | PT_ReconfigResp => 16
  | PT_AddOutStreamsReq => 17
  | PT_AddIncStreamsReq => 18
  | PT_Random => 32770
  | PT_ChunkList => 32771
  | PT_ReqHmacAlgo => 32772
  | PT_Padding => 32773
  | PT_SupportedExt => 32776
  | PT_ForwardTsnSupp => 49152
  | PT_AddIpAddr => 49153
  | PT_DelIpaddr => 49154
  | PT_ErrClauseInd => 49155
  | PT_SetPriAddr => 49156
  | PT_SuccessInd => 49157
  | PT_AdaptLayerInd => 49158
  | PT_Unknown param_type => param_type
  end.

(** * Header *)

Record ParamHeader := mkParamHeader { ph_typ : ParamType; ph_value_length : Z }.

Definition PARAM_HEADER_LENGTH : Z := 4.

Definition ParamHeader_unmarshal (raw : bytes) : result ParamHeader :=
  if zlen raw <? PARAM_HEADER_LENGTH then Err ErrParamHeaderTooShort
  else
    '(t, reader) ← get_u16 raw;
    let typ := ParamType_from_u16 t in
    '(len, _) ← get_u16 reader;
    if (len <? PARAM_HEADER_LENGTH) || (zlen raw <? len) then Err ErrParamHeaderTooShort
    else Ok {| ph_typ := typ; ph_value_length := as_u16 (len - PARAM_HEADER_LENGTH) |}.

(** [oc]: overflow checks of the build, for the [u16] addition. *)
Definition ParamHeader_marshal (oc : bool) (h : ParamHeader) : result bytes :=
  len ← add_ovf oc 65536 (ph_value_length h) PARAM_HEADER_LENGTH;
  Ok (put_u16 (u16_from_ParamType (ph_typ h)) ++ put_u16 len).

(** * The parameters *)

Inductive ReconfigResult :=
| RR_SuccessNop | RR_SuccessPerformed | RR_Denied | RR_ErrorWrongSsn
| RR_ErrorRequestAlreadyInProgress | RR_ErrorBadSequenceNumber | RR_InProgress | RR_Unknown.

Definition ReconfigResult_from_u32 (v : Z) : ReconfigResult :=
  match v with
  | 0 => RR_SuccessNop
  | 1 => RR_SuccessPerformed
  | 2 => RR_Denied
  | 3 => RR_ErrorWrongSsn
  | 4 => RR_ErrorRequestAlreadyInProgress
  | 5 => RR_ErrorBadSequenceNumber
  | 6 => RR_InProgress
  | _ => RR_Unknown
  end.

(** [self.result as u32]: the discriminants of the enumeration. *)
Definition u32_from_ReconfigResult (r : ReconfigResult) : Z :=
  match r with
  | RR_SuccessNop => 0
  | RR_SuccessPerformed => 1
  | RR_Denied => 2
  | RR_ErrorWrongSsn => 3
  | RR_ErrorRequestAlreadyInProgress => 4
  | RR_ErrorBadSequenceNumber => 5
  | RR_InProgress => 6
  | RR_Unknown => 7
  end.

Inductive HmacAlgorithm := HmacResv1 | HmacSha128 | HmacResv2 | HmacSha256 | HmacUnknown.

Definition HmacAlgorithm_from_u16 (v : Z) : HmacAlgorithm :=
  match v with
  | 0 => HmacResv1
  | 1 => HmacSha128
  | 2 => HmacResv2
  | 3 => HmacSha256
  | _ => HmacUnknown
  end.

Definition u16_from_HmacAlgorithm (a : HmacAlgorithm) : Z :=
  match a with
  | HmacResv1 => 0 | HmacSha128 => 1 | HmacResv2 => 2 | HmacSha256 => 3 | HmacUnknown => 4
  end.

Record OutgoingResetRequest := mkOutgoingResetRequest {
  reconfig_request_sequence_number : Z;
  reconfig_response_sequence_number : Z;
  sender_last_tsn : Z;
  stream_identifiers : list Z
}.

Definition PARAM_OUTGOING_RESET_REQUEST_STREAM_IDENTIFIERS_OFFSET : Z := 12.

(** [Box<dyn Param>]. *)
Inductive Param :=
| ParamForwardTsnSupported
| ParamSupportedExtensions (chunk_types : list Z)
| ParamRandom (random_data : bytes)
| ParamRequestedHmacAlgorithm (available_algorithms : list HmacAlgorithm)
| ParamChunkList (chunk_types : list Z)
| ParamStateCookie (cookie : bytes)
| ParamHeartbeatInfo (heartbeat_information : bytes)
| ParamOutgoingResetRequest (r : OutgoingResetRequest)
| ParamReconfigResponse (response_sequence_number : Z) (res : ReconfigResult)
| ParamUnknown (typ : Z) (value : bytes).

(** [Param::value_length], one line per implementation. *)
Definition param_value_length (p : Param) : Z :=
  match p with
  | ParamForwardTsnSupported => 0
  | ParamSupportedExtensions chunk_types => zlen chunk_types
  | ParamRandom random_data => zlen random_data
  | ParamRequestedHmacAlgorithm algs => 2 * zlen algs
  | ParamChunkList chunk_types => zlen chunk_types
  | ParamStateCookie cookie => zlen cookie
  | ParamHeartbeatInfo info => zlen info
  | ParamOutgoingResetRequest r =>
      PARAM_OUTGOING_RESET_REQUEST_STREAM_IDENTIFIERS_OFFSET + zlen (stream_identifiers r) * 2
  | ParamReconfigResponse _ _ => 8
  | ParamUnknown _ value => zlen value
  end.

(** [Param::header]. *)
Definition param_header (p : Param) : ParamHeader :=
  {| ph_typ := match p with
               | ParamForwardTsnSupported => PT_ForwardTsnSupp
               | ParamSupportedExtensions _ => PT_SupportedExt
               | ParamRandom _ => PT_Random
               | ParamRequestedHmacAlgorithm _ => PT_ReqHmacAlgo
               | ParamChunkList _ => PT_ChunkList
               | ParamStateCookie _ => PT_StateCookie
               | ParamHeartbeatInfo _ => PT_HeartbeatInfo
               | ParamOutgoingResetRequest _ => PT_OutSsnResetReq
               | ParamReconfigResponse _ _ => PT_ReconfigResp
               | ParamUnknown typ _ => PT_Unknown typ
               end;
     ph_value_length := as_u16 (param_value_length p) |}.

(** What each [marshal_to] writes after the header. *)
Definition param_body (p : Param) : bytes :=
  match p with
  | ParamForwardTsnSupported => []
  | ParamSupportedExtensions chunk_types => concat (map put_u8 chunk_types)
  | ParamRandom random_data => random_data
  | ParamRequestedHmacAlgorithm algs => concat (map (fun a => put_u16 (u16_from_HmacAlgorithm a)) algs)
  | ParamChunkList chunk_types => concat (map put_u8 chunk_types)
  | ParamStateCookie cookie => cookie
  | ParamHeartbeatInfo info => info
  | ParamOutgoingResetRequest r =>
      put_u32 (reconfig_request_sequence_number r) ++
      put_u32 (reconfig_response_sequence_number r) ++
      put_u32 (sender_last_tsn r) ++
      concat (map put_u16 (stream_identifiers r))
  | ParamReconfigResponse n res => put_u32 n ++ put_u32 (u32_from_ReconfigResult res)
  | ParamUnknown _ value => value
  end.

(** [Param::marshal]. *)
Definition param_marshal (oc : bool) (p : Param) : result bytes :=
  h ← ParamHeader_marshal oc (param_header p);
  Ok (h ++ param_body p).

(** [while reader.has_remaining() { chunk_types.push(ChunkType(reader.get_u8())) }]. *)
Fixpoint read_chunk_types (reader : bytes) : list Z :=
  match reader with
  | [] => []
  | b :: reader => b :: read_chunk_types reader
  end.

Definition value_slice (h : ParamHeader) (raw : bytes) : result bytes :=
  slice raw PARAM_HEADER_LENGTH (PARAM_HEADER_LENGTH + ph_value_length h).

Definition ParamForwardTsnSupported_unmarshal (raw : bytes) : result Param :=
  _ ← ParamHeader_unmarshal raw; Ok ParamForwardTsnSupported.

Definition ParamSupportedExtensions_unmarshal (raw : bytes) : result Param :=
  h ← ParamHeader_unmarshal raw;
  reader ← value_slice h raw;
  Ok (ParamSupportedExtensions (read_chunk_types reader)).

Definition ParamRandom_unmarshal (raw : bytes) : result Param :=
  h ← ParamHeader_unmarshal raw; random_data ← value_slice h raw; Ok (ParamRandom random_data).

(** [while offset + 1 < header.value_length()]: each round reads two bytes. *)
Fixpoint hmac_loop (value_length offset : Z) (reader : bytes) : result (list HmacAlgorithm) :=
  if offset + 1 <? value_length then
    match reader with
    | b0 :: b1 :: reader =>
        match HmacAlgorithm_from_u16 (b0 * 256 + b1) with
        | (HmacSha128 | HmacSha256) as a =>
            algs ← hmac_loop value_length (offset + 2) reader; Ok (a :: algs)
        | _ => Err ErrInvalidAlgorithmType
        end
    | _ => Panic
    end
  else Ok [].

Definition ParamRequestedHmacAlgorithm_unmarshal (raw : bytes) : result Param :=
  h ← ParamHeader_unmarshal raw;
  reader ← value_slice h raw;
  algs ← hmac_loop (ph_value_length h) 0 reader;
  Ok (ParamRequestedHmacAlgorithm algs).

Definition ParamChunkList_unmarshal (raw : bytes) : result Param :=
  h ← ParamHeader_unmarshal raw;
  if negb (bool_decide (ph_typ h = PT_ChunkList)) then Err ErrParamTypeUnexpected
  else
    reader ← value_slice h raw;
    Ok (ParamChunkList (read_chunk_types reader)).

Definition ParamStateCookie_unmarshal (raw : bytes) : result Param :=
  h ← ParamHeader_unmarshal raw; cookie ← value_slice h raw; Ok (ParamStateCookie cookie).

Definition ParamHeartbeatInfo_unmarshal (raw : bytes) : result Param :=
  h ← ParamHeader_unmarshal raw; info ← value_slice h raw; Ok (ParamHeartbeatInfo info).

Definition ParamOutgoingResetRequest_unmarshal (raw : bytes) : result Param :=
  h ← ParamHeader_unmarshal raw;
  let value_length := ph_value_length h in
  if (value_length + PARAM_HEADER_LENGTH <? 16)
     || negb ((value_length + PARAM_HEADER_LENGTH - 16) mod 2 =? 0)
  then Err ErrUnmarshalReconfigRespParam
  else if zlen raw <? PARAM_HEADER_LENGTH + value_length then Err ErrSsnResetRequestParamTooShort
  else
    reader ← value_slice h raw;
    '(req, reader) ← get_u32 reader;
    '(resp, reader) ← get_u32 reader;
    '(tsn, reader) ← get_u32 reader;
    let lim := (value_length - PARAM_OUTGOING_RESET_REQUEST_STREAM_IDENTIFIERS_OFFSET) / 2 in
    '(sids, _) ← read_n get_u16 (Z.to_nat lim) reader;
    Ok (ParamOutgoingResetRequest
          {| reconfig_request_sequence_number := req;
             reconfig_response_sequence_number := resp;
             sender_last_tsn := tsn;
             stream_identifiers := sids |}).

Definition ParamReconfigResponse_unmarshal (raw : bytes) : result Param :=
  h ← ParamHeader_unmarshal raw;
  let value_length := ph_value_length h in
  if negb (value_length + PARAM_HEADER_LENGTH =? 12) && negb (value_length + PARAM_HEADER_LENGTH =? 20)
  then Err ErrUnmarshalReconfigRespParam
  else if zlen raw <? value_length + PARAM_HEADER_LENGTH then Err ErrReconfigRespParamTooShort
  else
    reader ← value_slice h raw;
    '(n, reader) ← get_u32 reader;
    '(res, _) ← get_u32 reader;
    Ok (ParamReconfigResponse n (ReconfigResult_from_u32 res)).

Definition ParamUnknown_unmarshal (raw : bytes) : result Param :=
  h ← ParamHeader_unmarshal raw;
  value ← value_slice h raw;
  Ok (ParamUnknown (u16_from_ParamType (ph_typ h)) value).

Definition build_param (raw_param : bytes) : result Param :=
  if zlen raw_param <? PARAM_HEADER_LENGTH then Err ErrParamHeaderTooShort
  else
    reader ← slice raw_param 0 2;
    '(raw_type, _) ← get_u16 reader;
    match ParamType_from_u16 raw_type with
    | PT_ForwardTsnSupp => ParamForwardTsnSupported_unmarshal raw_param
    | PT_SupportedExt => ParamSupportedExtensions_unmarshal raw_param
    | PT_Random => ParamRandom_unmarshal raw_param
    | PT_ReqHmacAlgo => ParamRequestedHmacAlgorithm_unmarshal raw_param
    | PT_ChunkList => ParamChunkList_unmarshal raw_param
    | PT_StateCookie => ParamStateCookie_unmarshal raw_param
    | PT_HeartbeatInfo => ParamHeartbeatInfo_unmarshal raw_param
    | PT_OutSsnResetReq => ParamOutgoingResetRequest_unmarshal raw_param
    | PT_ReconfigResp => ParamReconfigResponse_unmarshal raw_param
    | _ =>
        let stop_processing := Z.land (Z.shiftr raw_type 15) 1 =? 0 in
        if stop_processing then Err (ErrParamTypeUnhandled raw_type)
        else ParamUnknown_unmarshal raw_param
    end.

(** * Well-formed parameters *)

Definition hmac_supported (a : HmacAlgorithm) : Prop := a = HmacSha128 \/ a = HmacSha256.

(** The types [build_param] does not dispatch on and keeps as [ParamUnknown]. *)
Definition unknown_type (typ : Z) : Prop :=
  32768 <= typ < 65536 /\ typ ∉ [32770; 32771; 32772; 32776; 49152].

(** The fields are in the range of their Rust types, the length field fits, and
    the algorithm list and unknown type are ones a parser accepts. *)
Definition param_ok (p : Param) : Prop :=
  param_value_length p <= 65535 - PARAM_HEADER_LENGTH /\
  match p with
  | ParamForwardTsnSupported => True
  | ParamSupportedExtensions cts | ParamChunkList cts => Forall is_u8 cts
  | ParamRandom d | ParamStateCookie d | ParamHeartbeatInfo d => bytes_ok d
  | ParamRequestedHmacAlgorithm algs => Forall hmac_supported algs
  | ParamOutgoingResetRequest r =>
      is_u32 (reconfig_request_sequence_number r) /\
      is_u32 (reconfig_response_sequence_number r) /\
      is_u32 (sender_last_tsn r) /\ Forall is_u16 (stream_identifiers r)
  | ParamReconfigResponse n _ => is_u32 n
  | ParamUnknown typ value => unknown_type typ /\ bytes_ok value
  end.

Lemma read_chunk_types_id l : read_chunk_types l = l.
Proof. induction l; simpl; congruence. Qed.

Lemma concat_put_u8 l : Forall is_u8 l -> concat (map put_u8 l) = l.
Proof.
  induction 1 as [|x l Hx Hl IH]; [done|]. simpl. rewrite IH.
  f_equal. unfold is_u8 in Hx; mlia.
Qed.

Lemma zlen_concat_put_u16 {A} (f : A -> Z) l : zlen (concat (map (fun a => put_u16 (f a)) l)) = 2 * zlen l.
Proof. induction l; [done|]. cbn [map concat]. zlia. Qed.
Lemma zlen_concat_put_u8 l : zlen (concat (map put_u8 l)) = zlen l.
Proof. induction l; [done|]. cbn [map concat]. zlia. Qed.

Lemma param_value_length_nonneg p : 0 <= param_value_length p.
Proof.
  destruct p; cbn; unfold PARAM_OUTGOING_RESET_REQUEST_STREAM_IDENTIFIERS_OFFSET; zlia.
Qed.

(** The declared length is the length of what is written. *)
Lemma zlen_param_body p : zlen (param_body p) = param_value_length p.
Proof.
  destruct p; cbn [param_body param_value_length]; rewrite ?zlen_concat_put_u8; try done.
  - apply (zlen_concat_put_u16 u16_from_HmacAlgorithm).
  - pose proof (zlen_concat_put_u16 (fun x => x) (stream_identifiers r)
                  : zlen (concat (map put_u16 _)) = _).
    unfold PARAM_OUTGOING_RESET_REQUEST_STREAM_IDENTIFIERS_OFFSET. zlia.
Qed.

Lemma ParamType_u16_range v : is_u16 v -> u16_from_ParamType (ParamType_from_u16 v) = v.
Proof.
  intros Hv. unfold ParamType_from_u16. repeat case_match; subst; done.
Qed.

(** * The parser never panics *)

(** What a parser may rely on once the header has been read. *)
Definition header_fits (raw : bytes) (h : ParamHeader) : Prop :=
  0 <= ph_value_length h /\ PARAM_HEADER_LENGTH + ph_value_length h <= zlen raw /\
  (bytes_ok raw -> ph_value_length h <= 65535 - PARAM_HEADER_LENGTH).

Lemma post_ParamHeader_unmarshal raw : post (ParamHeader_unmarshal raw) (header_fits raw).
Proof.
  unfold ParamHeader_unmarshal, header_fits, PARAM_HEADER_LENGTH. repeat post_step.
  cbn [ph_value_length]. pose proof (as_u16_range (z0 - 4)).
  assert (as_u16 (z0 - 4) <= z0 - 4) by (unfold as_u16; apply Z.mod_le; lia).
  unfold_ints. split_and!; try lia. intros Hraw.
  destruct (H1 Hraw) as [_ Hb]. destruct (H3 Hb). lia.
Qed.
#[export] Hint Resolve post_ParamHeader_unmarshal : post.

Lemma post_value_slice raw h : header_fits raw h ->
  post (value_slice h raw) (fun v => zlen v = ph_value_length h /\ (bytes_ok raw -> bytes_ok v)).
Proof.
  intros (H0 & H1 & _). unfold value_slice, PARAM_HEADER_LENGTH in *.
  eapply post_weaken; [apply post_slice; lia|]. intros v [Hv ?]; split; [lia|done].
Qed.
#[export] Hint Resolve post_value_slice : post.

Lemma post_hmac_loop vl off reader : zlen reader = vl - off ->
  post (hmac_loop vl off reader) (fun algs => 2 * zlen algs <= zlen reader /\ Forall hmac_supported algs).
Proof.
  revert off. induction reader as [reader IH] using (induction_ltof1 _ length); intros off Hl.
  destruct reader as [|b0 [|b1 reader]]; cbn [hmac_loop]; apply post_if; intros Hc;
    autorewrite with zlen in Hl; try zlia; try (cbn; split; [zlia|constructor]).
  assert (Hr : post (hmac_loop vl (off + 2) reader)
                 (fun algs => 2 * zlen algs <= zlen reader /\ Forall hmac_supported algs)).
  { apply IH; [unfold ltof; simpl; lia|lia]. }
  destruct (HmacAlgorithm_from_u16 _) eqn:Ha; try exact I;
    (eapply post_bind; [exact Hr|]; intros algs _ [? ?]; cbn; split; [zlia|];
     constructor; [unfold hmac_supported; auto|done]).
Qed.

Definition param_fits (raw : bytes) (p : Param) : Prop :=
  PARAM_HEADER_LENGTH + param_value_length p <= zlen raw /\ (bytes_ok raw -> param_ok p).

(** The parameters that are their value: a slice of [raw] of the declared length. *)
Lemma post_value_param raw (mk : bytes -> Param) :
  (forall d, param_value_length (mk d) = zlen d) ->
  (forall d, bytes_ok d -> zlen d <= 65531 -> param_ok (mk d)) ->
  post (h ← ParamHeader_unmarshal raw; v ← value_slice h raw; Ok (mk v)) (param_fits raw).
Proof.
  intros Hlen Hok. repeat post_step. destruct H0 as [Hz Hb], H2 as [Hv Hbv]; unfold param_fits.
  rewrite Hlen. split; [lia|]. intros Hraw. apply Hok; [auto|].
  destruct Hb as [_ Hb]. specialize (Hb Hraw). unfold PARAM_HEADER_LENGTH in *; lia.
Qed.

Lemma post_ParamOutgoingResetRequest_unmarshal raw :
  post (ParamOutgoingResetRequest_unmarshal raw) (param_fits raw).
Proof.
  unfold ParamOutgoingResetRequest_unmarshal.
  eapply post_bind; [apply post_ParamHeader_unmarshal|]. intros h _ Hh.
  pose proof Hh as (Hh0 & Hh1 & Hh2).
  assert (E12 : PARAM_OUTGOING_RESET_REQUEST_STREAM_IDENTIFIERS_OFFSET = 12) by reflexivity.
  assert (E4 : PARAM_HEADER_LENGTH = 4) by reflexivity.
  do 2 (apply post_if; intros ?; [exact I|]).
  eapply post_bind; [by apply post_value_slice|]. intros v _ [Hv Hvb].
  do 3 post_step.
  eapply post_bind; [apply (post_read_n _ is_u16 2); [lia|apply post_get_u16|mlia]|].
  intros [sids r'] _ (_ & Hn & Hsids); cbn [fst snd] in *. cbn [post].
  assert (Hpl : param_value_length (ParamOutgoingResetRequest
            (mkOutgoingResetRequest z z0 z1 sids)) = ph_value_length h)
    by (cbn; unfold zlen; rewrite Hn, E12; mlia).
  split; [rewrite Hpl; lia|]. intros Hraw. split; [rewrite Hpl; auto|]. cbn.
  use_ok; done.
Qed.

Lemma post_ParamReconfigResponse_unmarshal raw :
  post (ParamReconfigResponse_unmarshal raw) (param_fits raw).
Proof.
  unfold ParamReconfigResponse_unmarshal.
  eapply post_bind; [apply post_ParamHeader_unmarshal|]. intros h _ Hh.
  pose proof Hh as (Hh0 & Hh1 & Hh2).
  assert (E4 : PARAM_HEADER_LENGTH = 4) by reflexivity.
  do 2 (apply post_if; intros ?; [exact I|]).
  eapply post_bind; [by apply post_value_slice|]. intros v _ [Hv Hvb].
  do 3 post_step. unfold param_fits, param_ok. cbn [param_value_length].
  split; [lia|]. intros Hraw. split; [lia|]. use_ok; done.
Qed.

Lemma post_ParamRequestedHmacAlgorithm_unmarshal raw :
  post (ParamRequestedHmacAlgorithm_unmarshal raw) (param_fits raw).
Proof.
  unfold ParamRequestedHmacAlgorithm_unmarshal.
  eapply post_bind; [apply post_ParamHeader_unmarshal|]. intros h _ Hh.
  pose proof Hh as (Hh0 & Hh1 & Hh2).
  eapply post_bind; [by apply post_value_slice|]. intros v _ [Hv Hvb].
  eapply post_bind; [apply post_hmac_loop; lia|]. intros algs _ [Hl Ha].
  cbn [post]. unfold param_fits, param_ok. cbn [param_value_length].
  split; [lia|]. intros Hraw. specialize (Hh2 Hraw). split; [lia|done].
Qed.

Lemma ParamHeader_unmarshal_typ raw h t r :
  ParamHeader_unmarshal raw = Ok h -> get_u16 (E:=Error) raw = Ok (t, r) -> ph_typ h = ParamType_from_u16 t.
Proof.
  unfold ParamHeader_unmarshal. intros H Ht. rewrite Ht in H.
  case_match; [done|]. apply bind_Ok in H as (? & ? & H). simplify_eq.
  apply bind_Ok in H as ([len r'] & _ & H). case_match; by simplify_eq.
Qed.

Lemma post_ParamUnknown_unmarshal raw t r :
  get_u16 (E:=Error) raw = Ok (t, r) -> (bytes_ok raw -> is_u16 t /\ unknown_type t) ->
  post (ParamUnknown_unmarshal raw) (param_fits raw).
Proof.
  intros Ht Hu. unfold ParamUnknown_unmarshal.
  eapply post_bind; [apply post_ParamHeader_unmarshal|]. intros h Hh Hfit.
  rewrite (ParamHeader_unmarshal_typ _ _ _ _ Hh Ht).
  eapply post_bind; [by apply post_value_slice|]. intros v _ [Hv Hvb]. cbn [post].
  destruct Hfit as (Hh0 & Hh1 & Hh2). unfold param_fits, param_ok. cbn [param_value_length].
  split; [lia|]. intros Hraw. destruct (Hu Hraw). rewrite ParamType_u16_range by done.
  specialize (Hh2 Hraw). split_and!; [lia|done|auto].
Qed.

Definition dispatched (t : ParamType) : bool :=
  match t with
  | PT_ForwardTsnSupp | PT_SupportedExt | PT_Random | PT_ReqHmacAlgo | PT_ChunkList
  | PT_StateCookie | PT_HeartbeatInfo | PT_OutSsnResetReq | PT_ReconfigResp => true
  | _ => false
  end.

(** The stop bit of an unrecognised type, and the types dispatched on. *)
Lemma unknown_type_spec t : is_u16 t ->
  unknown_type t <->
  (Z.land (Z.shiftr t 15) 1 =? 0) = false /\ dispatched (ParamType_from_u16 t) = false.
Proof.
  intros Ht. unfold is_u16 in Ht.
  replace (Z.land (Z.shiftr t 15) 1) with (t / 32768 mod 2)
    by (rewrite Z.shiftr_div_pow2 by lia; by rewrite (Z.land_ones _ 1)).
  unfold unknown_type. split.
  - intros [Hr Hn]. split; [mlia|]. unfold ParamType_from_u16.
    repeat case_match; subst; try done; try lia; exfalso; set_solver.
  - intros [Hb Hd]. split; [mlia|]. intros Hin.
    repeat (apply elem_of_cons in Hin as [->|Hin]; [done|]). by apply elem_of_nil in Hin.
Qed.

Lemma post_ParamChunkList_unmarshal raw : post (ParamChunkList_unmarshal raw) (param_fits raw).
Proof.
  unfold ParamChunkList_unmarshal. do 2 post_step; [post_step|].
  eapply post_bind; [by apply post_value_slice|]. intros v _ [Hv Hvb]. cbn [post].
  rewrite read_chunk_types_id. destruct H0 as (H0 & H2 & H3).
  unfold param_fits, param_ok; cbn [param_value_length]. split; [lia|].
  intros Hraw. specialize (H3 Hraw). split; [lia|exact (Hvb Hraw)].
Qed.

Lemma post_ParamForwardTsnSupported_unmarshal raw :
  post (ParamForwardTsnSupported_unmarshal raw) (param_fits raw).
Proof.
  unfold ParamForwardTsnSupported_unmarshal. repeat post_step.
  destruct H0 as (H0 & H2 & _). unfold param_fits, param_ok; cbn [param_value_length].
  split; [lia|]. intros _. split; [unfold PARAM_HEADER_LENGTH; lia|done].
Qed.

Lemma build_param_post raw : post (build_param raw) (param_fits raw).
Proof.
  unfold build_param. apply post_if; intros Hlen; [exact I|].
  destruct raw as [|b0 [|b1 raw']]; try (exfalso; revert Hlen; vm_compute; done).
  set (raw := b0 :: b1 :: raw') in *.
  rewrite (slice_app_eq _ [] [b0; b1] raw') by done. cbn -[ParamType_from_u16 raw].
  assert (Hu : bytes_ok raw -> (Z.land (Z.shiftr (b0 * 256 + b1) 15) 1 =? 0) = false ->
    dispatched (ParamType_from_u16 (b0 * 256 + b1)) = false ->
    is_u16 (b0 * 256 + b1) /\ unknown_type (b0 * 256 + b1)).
  { intros Hraw ? ?. unfold raw, bytes_ok in Hraw. rewrite !Forall_cons in Hraw.
    assert (is_u16 (b0 * 256 + b1)) by (unfold_ints; lia). by rewrite unknown_type_spec. }
  destruct (ParamType_from_u16 (b0 * 256 + b1)) eqn:Ht;
    try (apply post_if; intros Hs; [exact I|];
         apply (post_ParamUnknown_unmarshal _ (b0 * 256 + b1) raw'); auto; fail);
    auto using post_ParamOutgoingResetRequest_unmarshal, post_ParamReconfigResponse_unmarshal,
      post_ParamRequestedHmacAlgorithm_unmarshal;
    auto using post_ParamChunkList_unmarshal, post_ParamForwardTsnSupported_unmarshal;
    apply post_value_param; intros; unfold param_ok; cbn; rewrite ?read_chunk_types_id; done.
Qed.

(** [build_param] returns on every input, in [Ok] or [Err], never in a panic;
    a parameter it returns was declared within the input, and from bytes it has
    fields in range, a length that fits its header, supported algorithms only and,
    when unrecognised, a type whose high bit allows it to be skipped. *)
Theorem build_param_total raw : post (build_param raw) (param_fits raw).
Proof. apply build_param_post. Qed.

(** * Round trip *)

(** The bytes of a parameter, once the length is known to fit. *)
Definition param_bytes (p : Param) : bytes :=
  put_u16 (u16_from_ParamType (ph_typ (param_header p))) ++
  put_u16 (param_value_length p + PARAM_HEADER_LENGTH) ++ param_body p.

Lemma zlen_param_bytes p : zlen (param_bytes p) = PARAM_HEADER_LENGTH + param_value_length p.
Proof. unfold param_bytes, PARAM_HEADER_LENGTH. autorewrite with zlen. rewrite zlen_param_body. lia. Qed.

Lemma param_marshal_Ok oc p : param_value_length p <= 65535 - PARAM_HEADER_LENGTH ->
  param_marshal oc p = Ok (param_bytes p).
Proof.
  intros Hl. pose proof (param_value_length_nonneg p). unfold PARAM_HEADER_LENGTH in *.
  unfold param_marshal, ParamHeader_marshal, add_ovf, PARAM_HEADER_LENGTH. cbn [param_header ph_value_length].
  rewrite as_u16_id by (unfold is_u16; lia).
  destruct (Z.ltb_spec (param_value_length p + 4) 65536); [|lia]. done.
Qed.

Lemma param_type_u16 p : param_ok p -> is_u16 (u16_from_ParamType (ph_typ (param_header p))).
Proof. destruct p; cbn; unfold is_u16; try lia. intros (_ & [? _] & _); lia. Qed.

Section roundtrip.
Context (p : Param) (rest : bytes).
Hypothesis Hok : param_ok p.
Let raw := param_bytes p ++ rest.

Lemma param_header_roundtrip :
  ParamHeader_unmarshal raw =
  Ok {| ph_typ := ParamType_from_u16 (u16_from_ParamType (ph_typ (param_header p)));
        ph_value_length := param_value_length p |}.
Proof using Hok.
  destruct Hok as [Hl _]. pose proof (param_value_length_nonneg p).
  pose proof (param_type_u16 p Hok). pose proof (zlen_param_bytes p) as Hz.
  assert (zlen raw = PARAM_HEADER_LENGTH + param_value_length p + zlen rest) as Hraw
    by (unfold raw; rewrite zlen_app; lia).
  pose proof (zlen_nonneg rest). unfold PARAM_HEADER_LENGTH in *.
  unfold ParamHeader_unmarshal, PARAM_HEADER_LENGTH.
  destruct (Z.ltb_spec (zlen raw) 4); [lia|].
  assert (get_u16 (E:=Error) raw = Ok (u16_from_ParamType (ph_typ (param_header p)),
            put_u16 (param_value_length p + PARAM_HEADER_LENGTH) ++ param_body p ++ rest)) as ->
    by (unfold raw, param_bytes; rewrite <- !(assoc_L app); by apply get_put_u16).
  cbn -[put_u16 app get_u16].
  rewrite get_put_u16 by (unfold is_u16, PARAM_HEADER_LENGTH; lia). cbn -[put_u16 app].
  unfold PARAM_HEADER_LENGTH.
  destruct (Z.ltb_spec (param_value_length p + 4) 4); [lia|].
  destruct (Z.ltb_spec (zlen raw) (param_value_length p + 4)); [lia|]. cbn.
  rewrite as_u16_id by (unfold is_u16; lia). do 2 f_equal; lia.
Qed.

Lemma param_value_roundtrip t :
  value_slice {| ph_typ := t; ph_value_length := param_value_length p |} raw = Ok (param_body p).
Proof.
  unfold value_slice, PARAM_HEADER_LENGTH; cbn [ph_value_length].
  rewrite <- (zlen_param_body p).
  eapply (slice_app_eq _ (put_u16 _ ++ put_u16 _) _ rest); [|done|done].
  unfold raw, param_bytes. by rewrite <- !(assoc_L app).
Qed.
End roundtrip.

Lemma hmac_loop_roundtrip algs off vl : Forall hmac_supported algs -> vl = off + 2 * zlen algs ->
  hmac_loop vl off (concat (map (fun a => put_u16 (u16_from_HmacAlgorithm a)) algs)) = Ok algs.
Proof.
  intros Ha; revert off. induction Ha as [|a algs Ha Hs IH]; intros off Hv;
    autorewrite with zlen in Hv.
  { cbn. destruct (Z.ltb_spec (off + 1) vl); [lia|done]. }
  pose proof (zlen_nonneg algs). specialize (IH (off + 2) ltac:(lia)).
  cbn -[concat map HmacAlgorithm_from_u16]. cbn [map concat app put_u16 hmac_loop].
  destruct (Z.ltb_spec (off + 1) vl); [|lia]. destruct Ha as [-> | ->]; cbn; by rewrite IH.
Qed.

Lemma build_param_dispatch raw t r :
  4 <= zlen raw -> get_u16 (E:=Error) raw = Ok (t, r) ->
  build_param raw =
  match ParamType_from_u16 t with
  | PT_ForwardTsnSupp => ParamForwardTsnSupported_unmarshal raw
  | PT_SupportedExt => ParamSupportedExtensions_unmarshal raw
  | PT_Random => ParamRandom_unmarshal raw
  | PT_ReqHmacAlgo => ParamRequestedHmacAlgorithm_unmarshal raw
  | PT_ChunkList => ParamChunkList_unmarshal raw
  | PT_StateCookie => ParamStateCookie_unmarshal raw
  | PT_HeartbeatInfo => ParamHeartbeatInfo_unmarshal raw
  | PT_OutSsnResetReq => ParamOutgoingResetRequest_unmarshal raw
  | PT_ReconfigResp => ParamReconfigResponse_unmarshal raw
  | _ => if Z.land (Z.shiftr t 15) 1 =? 0 then Err (ErrParamTypeUnhandled t) else ParamUnknown_unmarshal raw
  end.
Proof.
  intros Hl Ht. unfold build_param, PARAM_HEADER_LENGTH.
  destruct (Z.ltb_spec (zlen raw) 4); [lia|].
  destruct raw as [|b0 [|b1 raw]]; try discriminate. cbn in Ht; simplify_eq.
  rewrite (slice_app_eq _ [] [b0; b1] r) by done. done.
Qed.

Lemma ReconfigResult_roundtrip r : ReconfigResult_from_u32 (u32_from_ReconfigResult r) = r.
Proof. by destruct r. Qed.

Lemma outgoing_reset_roundtrip r rest :
  param_ok (ParamOutgoingResetRequest r) ->
  ParamOutgoingResetRequest_unmarshal (param_bytes (ParamOutgoingResetRequest r) ++ rest) =
  Ok (ParamOutgoingResetRequest r).
Proof.
  intros Hok. unfold ParamOutgoingResetRequest_unmarshal.
  rewrite (param_header_roundtrip _ rest Hok). cbn [mbind outcome_bind ph_value_length].
  rewrite (param_value_roundtrip _ rest).
  pose proof (zlen_param_bytes (ParamOutgoingResetRequest r)) as Hz.
  destruct Hok as [_ (H1 & H2 & H3 & H4)]. cbn [param_value_length] in *.
  rewrite zlen_app. pose proof (zlen_nonneg rest). pose proof (zlen_nonneg (stream_identifiers r)) as Hn.
  unfold PARAM_HEADER_LENGTH, PARAM_OUTGOING_RESET_REQUEST_STREAM_IDENTIFIERS_OFFSET in *.
  set (n := zlen (stream_identifiers r)) in *.
  destruct (Z.ltb_spec (12 + n * 2 + 4) 16); [lia|].
  destruct (Z.eqb_spec ((12 + n * 2 + 4 - 16) mod 2) 0); [|mlia]. cbn [negb orb].
  case_match; [lia|]. cbn [mbind outcome_bind param_body].
  rewrite get_put_u32 by done. cbn [mbind outcome_bind].
  rewrite get_put_u32 by done. cbn [mbind outcome_bind].
  rewrite get_put_u32 by done. cbn [mbind outcome_bind].
  replace (Z.to_nat ((12 + n * 2 - 12) / 2)) with (length (stream_identifiers r))
    by (unfold n, zlen in *; mlia).
  rewrite <- (app_nil_r (concat _)), (read_n_write _ is_u16) by (try done; intros; by apply get_put_u16).
  by destruct r.
Qed.

Lemma reconfig_response_roundtrip n res rest :
  param_ok (ParamReconfigResponse n res) ->
  ParamReconfigResponse_unmarshal (param_bytes (ParamReconfigResponse n res) ++ rest) =
  Ok (ParamReconfigResponse n res).
Proof.
  intros Hok. unfold ParamReconfigResponse_unmarshal.
  rewrite (param_header_roundtrip _ rest Hok). cbn [mbind outcome_bind ph_value_length].
  rewrite (param_value_roundtrip _ rest), zlen_app, zlen_param_bytes.
  pose proof (zlen_nonneg rest). destruct Hok as [_ Hn].
  unfold PARAM_HEADER_LENGTH. cbn [param_value_length].
  do 2 (case_match; [lia|]). cbn [mbind outcome_bind param_body].
  rewrite get_put_u32 by done. cbn [mbind outcome_bind].
  rewrite <- (app_nil_r (put_u32 _)), get_put_u32 by (destruct res; unfold is_u32; cbn; lia).
  cbn [mbind outcome_bind]. by rewrite ReconfigResult_roundtrip.
Qed.

Lemma unknown_roundtrip typ value rest :
  param_ok (ParamUnknown typ value) ->
  ParamUnknown_unmarshal (param_bytes (ParamUnknown typ value) ++ rest) = Ok (ParamUnknown typ value).
Proof.
  intros Hok. unfold ParamUnknown_unmarshal.
  rewrite (param_header_roundtrip _ rest Hok). cbn [mbind outcome_bind ph_typ].
  rewrite (param_value_roundtrip _ rest). cbn [mbind outcome_bind param_header ph_typ u16_from_ParamType].
  rewrite ParamType_u16_range by (apply (param_type_u16 _ Hok)). done.
Qed.

Lemma build_param_bytes p rest : param_ok p -> build_param (param_bytes p ++ rest) = Ok p.
Proof.
  intros Hok.
  pose proof (zlen_param_bytes p). pose proof (param_value_length_nonneg p). pose proof (zlen_nonneg rest).
  rewrite (build_param_dispatch _ (u16_from_ParamType (ph_typ (param_header p)))
    (put_u16 (param_value_length p + PARAM_HEADER_LENGTH) ++ param_body p ++ rest)).
  2: { unfold PARAM_HEADER_LENGTH in *. rewrite zlen_app. lia. }
  2: { unfold param_bytes. rewrite <- !(assoc_L app). apply get_put_u16, param_type_u16, Hok. }
  pose proof (param_header_roundtrip p rest Hok) as Hh.
  pose proof (param_value_roundtrip p rest) as Hv.
  destruct p; cbn [param_header ph_typ u16_from_ParamType ParamType_from_u16] in *;
    auto using outgoing_reset_roundtrip, reconfig_response_roundtrip;
    try (unfold ParamForwardTsnSupported_unmarshal, ParamSupportedExtensions_unmarshal,
           ParamRandom_unmarshal, ParamRequestedHmacAlgorithm_unmarshal, ParamChunkList_unmarshal,
           ParamStateCookie_unmarshal, ParamHeartbeatInfo_unmarshal;
         rewrite Hh; cbn [mbind outcome_bind ph_typ]; rewrite ?bool_decide_eq_true_2 by done;
         cbn [negb]; rewrite ?Hv; cbn [mbind outcome_bind param_body ph_value_length];
         destruct Hok as [_ Hok]; rewrite ?read_chunk_types_id, ?concat_put_u8 by done;
         rewrite ?hmac_loop_roundtrip by (done || cbn; lia); done).
  pose proof (param_type_u16 _ Hok) as Hu. pose proof Hok as (_ & Hk & _).
  apply unknown_type_spec in Hk as [-> Hd]; [|done].
  destruct (ParamType_from_u16 typ); try discriminate; by apply unknown_roundtrip.
Qed.

(** Every well-formed parameter survives the wire: [marshal] succeeds, with
    or without overflow checks, and [build_param] gives the parameter back from
    the bytes, whatever follows them in the buffer. *)
Theorem param_roundtrip oc p rest :
  param_ok p -> exists raw, param_marshal oc p = Ok raw /\ build_param (raw ++ rest) = Ok p.
Proof.
  intros Hok. exists (param_bytes p). split; [apply param_marshal_Ok, Hok|by apply build_param_bytes].
Qed.

Lemma param_roundtrip_witness :
  exists raw, param_marshal true (ParamUnknown 49158 [1; 2; 3]) = Ok raw /\
              build_param (raw ++ [9]) = Ok (ParamUnknown 49158 [1; 2; 3]).
Proof.
  apply (param_roundtrip true (ParamUnknown 49158 [1; 2; 3]) [9]).
  split; [vm_compute; discriminate|]. split; [|repeat constructor; vm_compute; congruence].
  split; [lia|]. set_solver by lia.
Defined.
