(* ===== verification/SctpChunk.v ===== *)
(** SCTP chunks ([rtc-sctp/src/chunk]): one record per chunk type with its
    [unmarshal], and the sum [Chunk] of the types that implement the [Chunk] trait
    with [header], [value_length], [marshal] and [check].  Proved: the parsers
    never panic on a buffer cut to the length the chunk declares (the cut that
    [slice_chunk] of [packet.rs] makes), what they return is well-formed, and they
    invert [chunk_marshal]; the exceptions are exhibited. *)
From S2P Require Import Prelude Serial SctpError SctpParam.

(** * Chunk types and header *)

Definition CT_PAYLOAD_DATA : Z := 0.
Definition CT_INIT : Z := 1.
Definition CT_INIT_ACK : Z := 2.
Definition CT_SACK : Z := 3.
Definition CT_HEARTBEAT : Z := 4.
Definition CT_HEARTBEAT_ACK : Z := 5.
Definition CT_ABORT : Z := 6.
Definition CT_SHUTDOWN : Z := 7.
Definition CT_SHUTDOWN_ACK : Z := 8.
Definition CT_ERROR : Z := 9.
Definition CT_COOKIE_ECHO : Z := 10.
Definition CT_COOKIE_ACK : Z := 11.
Definition CT_SHUTDOWN_COMPLETE : Z := 14.
Definition CT_RECONFIG : Z := 130.
Definition CT_FORWARD_TSN : Z := 192.

Record ChunkHeader := mkChunkHeader { ch_typ : Z; ch_flags : Z; ch_value_length : Z }.

Definition CHUNK_HEADER_SIZE : Z := 4.

(** [for i in (1..=length_after_value).rev()]: the trailing bytes must be zero. *)
Fixpoint padding_loop (raw : bytes) (value_length : Z) (i : nat) : result unit :=
  match i with
  | O => Ok tt
  | S i' =>
      b ← index raw (CHUNK_HEADER_SIZE + (value_length + Z.of_nat i - 1));
      if negb (b =? 0) then Err ErrChunkHeaderPaddingNonZero
      else padding_loop raw value_length i'
  end.

Definition ChunkHeader_unmarshal (raw : bytes) : result ChunkHeader :=
  if zlen raw <? CHUNK_HEADER_SIZE then Err ErrChunkHeaderTooSmall
  else
    '(typ, reader) ← get_u8 raw;
    '(flags, reader) ← get_u8 reader;
    '(length, _) ← get_u16 reader;
    if length <? CHUNK_HEADER_SIZE then Err ErrChunkHeaderInvalidLength
    else
      let value_length := length - CHUNK_HEADER_SIZE in
      let length_after_value := zlen raw - length in
      if length_after_value <? 0 then Err ErrChunkHeaderNotEnoughSpace
      else
        _ ← (if length_after_value <? 4
             then padding_loop raw value_length (Z.to_nat length_after_value) else Ok tt);
        Ok {| ch_typ := typ; ch_flags := flags; ch_value_length := length - CHUNK_HEADER_SIZE |}.

Definition ChunkHeader_marshal (oc : bool) (h : ChunkHeader) : result bytes :=
  len ← add_ovf oc 65536 (ch_value_length h) CHUNK_HEADER_SIZE;
  Ok (put_u8 (ch_typ h) ++ put_u8 (ch_flags h) ++ put_u16 len).

(** [raw.slice(CHUNK_HEADER_SIZE..CHUNK_HEADER_SIZE + header.value_length())]. *)
Definition chunk_value (h : ChunkHeader) (raw : bytes) : result bytes :=
  slice raw CHUNK_HEADER_SIZE (CHUNK_HEADER_SIZE + ch_value_length h).

(** * DATA *)

Definition PAYLOAD_DATA_ENDING_FRAGMENT_BITMASK : Z := 1.
Definition PAYLOAD_DATA_BEGINING_FRAGMENT_BITMASK : Z := 2.
Definition PAYLOAD_DATA_UNORDERED_BITMASK : Z := 4.
Definition PAYLOAD_DATA_IMMEDIATE_SACK : Z := 8.
Definition PAYLOAD_DATA_HEADER_SIZE : Z := 12.

Inductive PayloadProtocolIdentifier :=
| PPI_Dcep | PPI_String | PPI_Binary | PPI_StringEmpty | PPI_BinaryEmpty | PPI_Unknown.

Definition PPI_from_u32 (v : Z) : PayloadProtocolIdentifier :=
  match v with
  | 50 => PPI_Dcep
  | 51 => PPI_String
  | 53 => PPI_Binary
  | 56 => PPI_StringEmpty
  | 57 => PPI_BinaryEmpty
  | _ => PPI_Unknown
  end.

(** [self.payload_type as u32]; [Unknown] follows [BinaryEmpty = 57]. *)
Definition u32_from_PPI (p : PayloadProtocolIdentifier) : Z :=
  match p with
  | PPI_Dcep => 50
  | PPI_String => 51
  | PPI_Binary => 53
  | PPI_StringEmpty => 56
  | PPI_BinaryEmpty => 57
  | PPI_Unknown => 58
  end.

(** [Instant] is a number of time units since an arbitrary origin. *)
Inductive MessageReliability :=
| Reliable
| Rexmit (max_retransmits : Z)
| Timed (deadline : Z).

Record ChunkPayloadData := mkPayload {
  unordered : bool;
  beginning_fragment : bool;
  ending_fragment : bool;
  immediate_sack : bool;
  tsn : Z;
  stream_identifier : Z;
  stream_sequence_number : Z;
  payload_type : PayloadProtocolIdentifier;
  user_data : bytes;
  acknowledged : bool;
  miss_indicator : Z;
  since : option Z;
  created_at : option Z;
  reliability : MessageReliability;
  stream_generation : Z;
  nsent : Z;
  abandoned : bool;
  retransmit : bool
}.

(** A chunk with the sender's bookkeeping at its default, as [unmarshal] builds it. *)
Definition received_payload (u b e i : bool) (t sid ssn : Z) (ppi : PayloadProtocolIdentifier)
  (data : bytes) : ChunkPayloadData :=
  {| unordered := u; beginning_fragment := b; ending_fragment := e; immediate_sack := i;
     tsn := t; stream_identifier := sid; stream_sequence_number := ssn;
     payload_type := ppi; user_data := data;
     acknowledged := false; miss_indicator := 0; since := None; created_at := None;
     reliability := Reliable; stream_generation := 0; nsent := 0;
     abandoned := false; retransmit := false |}.

Definition payload_flags (c : ChunkPayloadData) : Z :=
  let flags := 0 in
  let flags := if ending_fragment c then 1 else flags in
  let flags := if beginning_fragment c then Z.lor flags 2 else flags in
  let flags := if unordered c then Z.lor flags 4 else flags in
  if immediate_sack c then Z.lor flags 8 else flags.

Definition ChunkPayloadData_unmarshal (raw : bytes) : result ChunkPayloadData :=
  h ← ChunkHeader_unmarshal raw;
  if negb (ch_typ h =? CT_PAYLOAD_DATA) then Err ErrChunkTypeNotPayloadData
  else
    let i := negb (Z.land (ch_flags h) PAYLOAD_DATA_IMMEDIATE_SACK =? 0) in
    let u := negb (Z.land (ch_flags h) PAYLOAD_DATA_UNORDERED_BITMASK =? 0) in
    let b := negb (Z.land (ch_flags h) PAYLOAD_DATA_BEGINING_FRAGMENT_BITMASK =? 0) in
    let e := negb (Z.land (ch_flags h) PAYLOAD_DATA_ENDING_FRAGMENT_BITMASK =? 0) in
    if zlen raw <? CHUNK_HEADER_SIZE + PAYLOAD_DATA_HEADER_SIZE then Err ErrChunkPayloadSmall
    else if ch_value_length h <? PAYLOAD_DATA_HEADER_SIZE then Err ErrChunkUnmarshalPayloadData
    else
      reader ← chunk_value h raw;
      '(t, reader) ← get_u32 reader;
      '(sid, reader) ← get_u16 reader;
      '(ssn, reader) ← get_u16 reader;
      '(ppi, _) ← get_u32 reader;
      data ← slice raw (CHUNK_HEADER_SIZE + PAYLOAD_DATA_HEADER_SIZE)
                       (CHUNK_HEADER_SIZE + ch_value_length h);
      Ok (received_payload u b e i t sid ssn (PPI_from_u32 ppi) data).

Definition is_outstanding (c : ChunkPayloadData) : bool := negb (acknowledged c) && negb (abandoned c).

Definition is_fast_retransmit_candidate (c : ChunkPayloadData) : bool :=
  is_outstanding c && (nsent c =? 1) && (3 <=? miss_indicator c).

Definition set_flags (c : ChunkPayloadData) (ack aband rtx : bool) : ChunkPayloadData :=
  {| unordered := unordered c; beginning_fragment := beginning_fragment c;
     ending_fragment := ending_fragment c; immediate_sack := immediate_sack c;
     tsn := tsn c; stream_identifier := stream_identifier c;
     stream_sequence_number := stream_sequence_number c; payload_type := payload_type c;
     user_data := user_data c; acknowledged := ack; miss_indicator := miss_indicator c;
     since := since c; created_at := created_at c; reliability := reliability c;
     stream_generation := stream_generation c; nsent := nsent c;
     abandoned := aband; retransmit := rtx |}.

Definition acknowledge (c : ChunkPayloadData) : bool * ChunkPayloadData :=
  (negb (acknowledged c), set_flags c true (abandoned c) false).

Definition mark_abandoned (c : ChunkPayloadData) : ChunkPayloadData :=
  set_flags c (acknowledged c) true false.

(** * SACK *)

Record GapAckBlock := mkGap { gap_start : Z; gap_end : Z }.

Record ChunkSelectiveAck := mkSack {
  sack_cumulative_tsn_ack : Z;
  sack_advertised_receiver_window_credit : Z;
  gap_ack_blocks : list GapAckBlock;
  duplicate_tsn : list Z
}.

Definition SELECTIVE_ACK_HEADER_SIZE : Z := 12.

Definition get_gap (reader : bytes) : result (GapAckBlock * bytes) :=
  '(s, reader) ← get_u16 reader;
  '(e, reader) ← get_u16 reader;
  Ok ({| gap_start := s; gap_end := e |}, reader).

Definition put_gap (g : GapAckBlock) : bytes := put_u16 (gap_start g) ++ put_u16 (gap_end g).

Definition ChunkSelectiveAck_unmarshal (raw : bytes) : result ChunkSelectiveAck :=
  h ← ChunkHeader_unmarshal raw;
  if negb (ch_typ h =? CT_SACK) then Err ErrChunkTypeNotSack
  else if ch_value_length h <? SELECTIVE_ACK_HEADER_SIZE then Err ErrChunkUnmarshalSack
  else if zlen raw <? CHUNK_HEADER_SIZE + SELECTIVE_ACK_HEADER_SIZE then Err ErrSackSizeNotLargeEnoughInfo
  else
    reader ← chunk_value h raw;
    '(cum, reader) ← get_u32 reader;
    '(arwnd, reader) ← get_u32 reader;
    '(ngaps, reader) ← get_u16 reader;
    '(ndups, reader) ← get_u16 reader;
    if ch_value_length h <? SELECTIVE_ACK_HEADER_SIZE + 4 * ngaps + 4 * ndups
    then Err ErrChunkUnmarshalSack
    else if zlen raw <? CHUNK_HEADER_SIZE + SELECTIVE_ACK_HEADER_SIZE + (4 * ngaps + 4 * ndups)
    then Err ErrSackSizeNotLargeEnoughInfo
    else
      '(gaps, reader) ← read_n get_gap (Z.to_nat ngaps) reader;
      '(dups, _) ← read_n get_u32 (Z.to_nat ndups) reader;
      Ok {| sack_cumulative_tsn_ack := cum; sack_advertised_receiver_window_credit := arwnd;
            gap_ack_blocks := gaps; duplicate_tsn := dups |}.

(** * INIT and INIT ACK *)

Record ChunkInit := mkInit {
  is_ack : bool;
  initiate_tag : Z;
  init_advertised_receiver_window_credit : Z;
  num_outbound_streams : Z;
  num_inbound_streams : Z;
  initial_tsn : Z;
  init_params : list Param
}.

Definition INIT_CHUNK_MIN_LENGTH : Z := 16.
Definition INIT_OPTIONAL_VAR_HEADER_LENGTH : Z := 4.

(** The [while] loop over the parameters; [fuel] bounds the rounds, each of which
    advances by at least a parameter header. *)
Fixpoint init_params_loop (fuel : nat) (raw : bytes) (limit offset remaining : Z) : result (list Param) :=
  match fuel with
  | O => Diverge
  | S fuel =>
      if (INIT_OPTIONAL_VAR_HEADER_LENGTH <? remaining) && (offset <? limit) then
        s ← slice raw offset limit;
        p ← build_param s;
        let p_len := PARAM_HEADER_LENGTH + param_value_length p in
        let len_plus_padding := p_len + get_padding_size p_len in
        ps ← init_params_loop fuel raw limit (offset + len_plus_padding) (remaining - len_plus_padding);
        Ok (p :: ps)
      else Ok []
  end.

Definition ChunkInit_unmarshal (raw : bytes) : result ChunkInit :=
  h ← ChunkHeader_unmarshal raw;
  if negb ((ch_typ h =? CT_INIT) || (ch_typ h =? CT_INIT_ACK)) then Err ErrChunkTypeNotTypeInit
  else if zlen raw <? CHUNK_HEADER_SIZE + INIT_CHUNK_MIN_LENGTH then Err ErrChunkValueNotLongEnough
  else if ch_value_length h <? INIT_CHUNK_MIN_LENGTH then Err ErrChunkTypeInitUnmarshalFailed
  else if negb (ch_flags h =? 0) then Err ErrChunkTypeInitFlagZero
  else
    reader ← chunk_value h raw;
    '(tag, reader) ← get_u32 reader;
    '(arwnd, reader) ← get_u32 reader;
    '(nout, reader) ← get_u16 reader;
    '(nin, reader) ← get_u16 reader;
    '(itsn, _) ← get_u32 reader;
    let offset := CHUNK_HEADER_SIZE + INIT_CHUNK_MIN_LENGTH in
    params ← init_params_loop (S (length raw)) raw (CHUNK_HEADER_SIZE + ch_value_length h)
               offset (zlen raw - offset);
    Ok {| is_ack := ch_typ h =? CT_INIT_ACK; initiate_tag := tag;
          init_advertised_receiver_window_credit := arwnd; num_outbound_streams := nout;
          num_inbound_streams := nin; initial_tsn := itsn; init_params := params |}.

Definition ChunkInit_check (c : ChunkInit) : result unit :=
  if initiate_tag c =? 0 then Err ErrChunkTypeInitInitiateTagZero
  else if num_inbound_streams c =? 0 then Err ErrInitInboundStreamRequestZero
  else if num_outbound_streams c =? 0 then Err ErrInitOutboundStreamRequestZero
  else if init_advertised_receiver_window_credit c <? 1500 then Err ErrInitAdvertisedReceiver1500
  else Ok tt.

Definition set_supported_extensions (c : ChunkInit) : ChunkInit :=
  {| is_ack := is_ack c; initiate_tag := initiate_tag c;
     init_advertised_receiver_window_credit := init_advertised_receiver_window_credit c;
     num_outbound_streams := num_outbound_streams c; num_inbound_streams := num_inbound_streams c;
     initial_tsn := initial_tsn c;
     init_params := init_params c ++ [ParamSupportedExtensions [CT_RECONFIG; CT_FORWARD_TSN]] |}.

(** Parameters in sequence, all but the last padded to four bytes: the loop of
    the INIT and HEARTBEAT ACK writers, and the length they announce. *)
Fixpoint params_marshal (oc : bool) (ps : list Param) : result bytes :=
  match ps with
  | [] => Ok []
  | p :: ps' =>
      pp ← param_marshal oc p;
      rest ← params_marshal oc ps';
      let cnt := match ps' with [] => 0 | _ => get_padding_size (zlen pp) end in
      Ok (pp ++ zeros cnt ++ rest)
  end.

Fixpoint params_length (ps : list Param) : Z :=
  match ps with
  | [] => 0
  | p :: ps' =>
      let p_len := PARAM_HEADER_LENGTH + param_value_length p in
      p_len + match ps' with [] => 0 | _ => get_padding_size p_len end + params_length ps'
  end.

(** * FORWARD TSN *)

Record ChunkForwardTsnStream := mkFwdStream { identifier : Z; sequence : Z }.

Record ChunkForwardTsn := mkFwd {
  new_cumulative_tsn : Z;
  streams : list ChunkForwardTsnStream
}.

Definition NEW_CUMULATIVE_TSN_LENGTH : Z := 4.
Definition FORWARD_TSN_STREAM_LENGTH : Z := 4.

Definition ChunkForwardTsnStream_unmarshal (buf : bytes) : result ChunkForwardTsnStream :=
  if zlen buf <? FORWARD_TSN_STREAM_LENGTH then Err ErrChunkTooShort
  else
    '(i, reader) ← get_u16 buf;
    '(s, _) ← get_u16 reader;
    Ok {| identifier := i; sequence := s |}.

Definition put_fwd_stream (s : ChunkForwardTsnStream) : bytes :=
  put_u16 (identifier s) ++ put_u16 (sequence s).

(** [while remaining > 0]; a stream that was read is [FORWARD_TSN_STREAM_LENGTH]
    long and lies within [remaining], so the [usize] subtraction does not underflow. *)
Fixpoint fwd_streams_loop (fuel : nat) (buf : bytes) (limit offset remaining : Z)
  : result (list ChunkForwardTsnStream) :=
  match fuel with
  | O => Diverge
  | S fuel =>
      if 0 <? remaining then
        b ← slice buf offset limit;
        s ← ChunkForwardTsnStream_unmarshal b;
        ss ← fwd_streams_loop fuel buf limit (offset + FORWARD_TSN_STREAM_LENGTH)
               (remaining - FORWARD_TSN_STREAM_LENGTH);
        Ok (s :: ss)
      else Ok []
  end.

Definition ChunkForwardTsn_unmarshal (buf : bytes) : result ChunkForwardTsn :=
  h ← ChunkHeader_unmarshal buf;
  if negb (ch_typ h =? CT_FORWARD_TSN) then Err ErrChunkTypeNotForwardTsn
  else
    let offset := CHUNK_HEADER_SIZE + NEW_CUMULATIVE_TSN_LENGTH in
    if zlen buf <? offset then Err ErrChunkTooShort
    else
      reader ← chunk_value h buf;
      '(t, _) ← get_u32 reader;
      ss ← fwd_streams_loop (S (length buf)) buf (CHUNK_HEADER_SIZE + ch_value_length h)
             offset (zlen buf - offset);
      Ok {| new_cumulative_tsn := t; streams := ss |}.

(** * RE-CONFIG *)

Record ChunkReconfig := mkReconfig { param_a : option Param; param_b : option Param }.

Definition ChunkReconfig_unmarshal (raw : bytes) : result ChunkReconfig :=
  h ← ChunkHeader_unmarshal raw;
  if negb (ch_typ h =? CT_RECONFIG) then Err ErrChunkTypeNotReconfig
  else
    va ← chunk_value h raw;
    a ← build_param va;
    let padding := get_padding_size (PARAM_HEADER_LENGTH + param_value_length a) in
    let offset := CHUNK_HEADER_SIZE + PARAM_HEADER_LENGTH + param_value_length a + padding in
    if offset <? CHUNK_HEADER_SIZE + ch_value_length h then
      vb ← slice raw offset (CHUNK_HEADER_SIZE + ch_value_length h);
      b ← build_param vb;
      Ok {| param_a := Some a; param_b := Some b |}
    else Ok {| param_a := Some a; param_b := None |}.

Definition reconfig_value_length (c : ChunkReconfig) : Z :=
  let la := match param_a c with Some a => param_value_length a | None => 0 end in
  PARAM_HEADER_LENGTH + la +
  match param_b c with
  | Some b => PARAM_HEADER_LENGTH + param_value_length b + get_padding_size (PARAM_HEADER_LENGTH + la)
  | None => 0
  end.

Definition reconfig_body (oc : bool) (c : ChunkReconfig) : result bytes :=
  match param_a c with
  | None => Err ErrChunkReconfigInvalidParamA
  | Some a =>
      pa ← param_marshal oc a;
      match param_b c with
      | None => Ok pa
      | Some b =>
          pb ← param_marshal oc b;
          Ok (pa ++ zeros (get_padding_size (PARAM_HEADER_LENGTH + param_value_length a)) ++ pb)
      end
  end.

(** * SHUTDOWN, SHUTDOWN ACK, SHUTDOWN COMPLETE *)

Definition CUMULATIVE_TSN_ACK_LENGTH : Z := 4.

Record ChunkShutdown := mkShutdown { shutdown_cumulative_tsn_ack : Z }.

Definition ChunkShutdown_unmarshal (raw : bytes) : result ChunkShutdown :=
  h ← ChunkHeader_unmarshal raw;
  if negb (ch_typ h =? CT_SHUTDOWN) then Err ErrChunkTypeNotShutdown
  else if negb (ch_value_length h + CHUNK_HEADER_SIZE =? 8) then Err ErrChunkUnmarshalShutdown
  else if negb (zlen raw =? CHUNK_HEADER_SIZE + CUMULATIVE_TSN_ACK_LENGTH) then Err ErrInvalidChunkSize
  else
    reader ← chunk_value h raw;
    '(t, _) ← get_u32 reader;
    Ok {| shutdown_cumulative_tsn_ack := t |}.

Definition ChunkShutdownAck_unmarshal (raw : bytes) : result unit :=
  h ← ChunkHeader_unmarshal raw;
  if negb (ch_typ h =? CT_SHUTDOWN_ACK) then Err ErrChunkTypeNotShutdownAck else Ok tt.

Definition ChunkShutdownComplete_unmarshal (raw : bytes) : result unit :=
  h ← ChunkHeader_unmarshal raw;
  if negb (ch_typ h =? CT_SHUTDOWN_COMPLETE) then Err ErrChunkTypeNotShutdownComplete else Ok tt.

(** * COOKIE ECHO and COOKIE ACK *)

Record ChunkCookieEcho := mkCookieEcho { echo_cookie : bytes }.

Definition ChunkCookieEcho_unmarshal (raw : bytes) : result ChunkCookieEcho :=
  h ← ChunkHeader_unmarshal raw;
  if negb (ch_typ h =? CT_COOKIE_ECHO) then Err ErrChunkTypeNotCookieEcho
  else cookie ← chunk_value h raw; Ok {| echo_cookie := cookie |}.

Definition ChunkCookieAck_unmarshal (raw : bytes) : result unit :=
  h ← ChunkHeader_unmarshal raw;
  if negb (ch_typ h =? CT_COOKIE_ACK) then Err ErrChunkTypeNotCookieAck else Ok tt.

(** * ABORT and ERROR *)

Record ErrorCause := mkCause { cause_code : Z; cause_raw : bytes }.

Definition ERROR_CAUSE_HEADER_LENGTH : Z := 4.

Definition ErrorCause_unmarshal (buf : bytes) : result ErrorCause :=
  if zlen buf <? ERROR_CAUSE_HEADER_LENGTH then Err ErrErrorCauseTooSmall
  else
    '(code, reader) ← get_u16 buf;
    '(len, _) ← get_u16 reader;
    if len <? ERROR_CAUSE_HEADER_LENGTH then Err ErrErrorCauseTooSmall
    else
      let value_length := len - ERROR_CAUSE_HEADER_LENGTH in
      raw ← slice buf ERROR_CAUSE_HEADER_LENGTH (ERROR_CAUSE_HEADER_LENGTH + value_length);
      Ok {| cause_code := code; cause_raw := raw |}.

Definition cause_length (e : ErrorCause) : Z := zlen (cause_raw e) + ERROR_CAUSE_HEADER_LENGTH.

Definition ErrorCause_marshal (e : ErrorCause) : bytes :=
  put_u16 (cause_code e) ++ put_u16 (as_u16 (zlen (cause_raw e) + ERROR_CAUSE_HEADER_LENGTH)) ++ cause_raw e.

(** [while offset + 4 <= raw.len()], the loop both chunks share. *)
Fixpoint causes_loop (fuel : nat) (raw : bytes) (limit offset : Z) : result (list ErrorCause) :=
  match fuel with
  | O => Diverge
  | S fuel =>
      if offset + 4 <=? zlen raw then
        b ← slice raw offset limit;
        e ← ErrorCause_unmarshal b;
        es ← causes_loop fuel raw limit (offset + cause_length e);
        Ok (e :: es)
      else Ok []
  end.

Definition ChunkAbort_unmarshal (raw : bytes) : result (list ErrorCause) :=
  h ← ChunkHeader_unmarshal raw;
  if negb (ch_typ h =? CT_ABORT) then Err ErrChunkTypeNotAbort
  else causes_loop (S (length raw)) raw (CHUNK_HEADER_SIZE + ch_value_length h) CHUNK_HEADER_SIZE.

Definition ChunkError_unmarshal (raw : bytes) : result (list ErrorCause) :=
  h ← ChunkHeader_unmarshal raw;
  if negb (ch_typ h =? CT_ERROR) then Err ErrChunkTypeNotCt
  else causes_loop (S (length raw)) raw (CHUNK_HEADER_SIZE + ch_value_length h) CHUNK_HEADER_SIZE.

(** * HEARTBEAT and HEARTBEAT ACK *)

Definition is_heartbeat_info (p : Param) : bool :=
  bool_decide (ph_typ (param_header p) = PT_HeartbeatInfo).

Definition ChunkHeartbeat_unmarshal (raw : bytes) : result (list Param) :=
  h ← ChunkHeader_unmarshal raw;
  if negb (ch_typ h =? CT_HEARTBEAT) then Err ErrChunkTypeNotHeartbeat
  else if zlen raw <=? CHUNK_HEADER_SIZE then Err ErrHeartbeatNotLongEnoughInfo
  else
    v ← chunk_value h raw;
    p ← build_param v;
    if negb (is_heartbeat_info p) then Err ErrHeartbeatParam else Ok [p].

Definition ChunkHeartbeatAck_unmarshal (raw : bytes) : result (list Param) :=
  h ← ChunkHeader_unmarshal raw;
  if negb (ch_typ h =? CT_HEARTBEAT_ACK) then Err ErrChunkTypeNotHeartbeatAck
  else if zlen raw <=? CHUNK_HEADER_SIZE then Err ErrHeartbeatNotLongEnoughInfo
  else
    v ← chunk_value h raw;
    p ← build_param v;
    if negb (is_heartbeat_info p) then Err ErrHeartbeatParam else Ok [p].

(** The HEARTBEAT writer puts its parameters one after the other, unpadded. *)
Fixpoint heartbeat_body (oc : bool) (ps : list Param) : result bytes :=
  match ps with
  | [] => Ok []
  | p :: ps => pp ← param_marshal oc p; rest ← heartbeat_body oc ps; Ok (pp ++ rest)
  end.

Definition heartbeat_length (ps : list Param) : Z :=
  zsum (fun p => PARAM_HEADER_LENGTH + param_value_length p) ps.

(** The HEARTBEAT ACK writer insists on exactly one Heartbeat Info. *)
Definition heartbeat_ack_guard (ps : list Param) : result unit :=
  match ps with
  | [p] => if negb (is_heartbeat_info p) then Err ErrHeartbeatAckNotHeartbeatInfo else Ok tt
  | _ => Err ErrHeartbeatAckParams
  end.

(** * The [Chunk] trait *)

(** [Box<dyn Chunk>]. *)
Inductive Chunk :=
| CPayloadData (c : ChunkPayloadData)
| CInit (c : ChunkInit)
| CSack (c : ChunkSelectiveAck)
| CHeartbeat (params : list Param)
| CHeartbeatAck (params : list Param)
| CAbort (causes : list ErrorCause)
| CShutdown (c : ChunkShutdown)
| CShutdownAck
| CError (causes : list ErrorCause)
| CCookieEcho (c : ChunkCookieEcho)
| CCookieAck
| CShutdownComplete
| CReconfig (c : ChunkReconfig)
| CForwardTsn (c : ChunkForwardTsn).

(** [Chunk::value_length], one line per implementation. *)
Definition chunk_value_length (c : Chunk) : Z :=
  match c with
  | CPayloadData c => PAYLOAD_DATA_HEADER_SIZE + zlen (user_data c)
  | CInit c => 4 + 4 + 2 + 2 + 4 + params_length (init_params c)
  | CSack c => SELECTIVE_ACK_HEADER_SIZE + zlen (gap_ack_blocks c) * 4 + zlen (duplicate_tsn c) * 4
  | CHeartbeat ps => heartbeat_length ps
  | CHeartbeatAck ps => params_length ps
  | CAbort es | CError es => zsum cause_length es
  | CShutdown _ => CUMULATIVE_TSN_ACK_LENGTH
  | CShutdownAck | CCookieAck | CShutdownComplete => 0
  | CCookieEcho c => zlen (echo_cookie c)
  | CReconfig c => reconfig_value_length c
  | CForwardTsn c => NEW_CUMULATIVE_TSN_LENGTH + FORWARD_TSN_STREAM_LENGTH * zlen (streams c)
  end.

Definition chunk_type (c : Chunk) : Z :=
  match c with
  | CPayloadData _ => CT_PAYLOAD_DATA
  | CInit c => if is_ack c then CT_INIT_ACK else CT_INIT
  | CSack _ => CT_SACK
  | CHeartbeat _ => CT_HEARTBEAT
  | CHeartbeatAck _ => CT_HEARTBEAT_ACK
  | CAbort _ => CT_ABORT
  | CShutdown _ => CT_SHUTDOWN
  | CShutdownAck => CT_SHUTDOWN_ACK
  | CError _ => CT_ERROR
  | CCookieEcho _ => CT_COOKIE_ECHO
  | CCookieAck => CT_COOKIE_ACK
  | CShutdownComplete => CT_SHUTDOWN_COMPLETE
  | CReconfig _ => CT_RECONFIG
  | CForwardTsn _ => CT_FORWARD_TSN
  end.

(** [Chunk::header]: only DATA sets flags. *)
Definition chunk_header (c : Chunk) : ChunkHeader :=
  {| ch_typ := chunk_type c;
     ch_flags := match c with CPayloadData c => payload_flags c | _ => 0 end;
     ch_value_length := as_u16 (chunk_value_length c) |}.

(** What each [marshal_to] appends after the header. *)
Definition chunk_body (oc : bool) (c : Chunk) : result bytes :=
  match c with
  | CPayloadData c =>
      Ok (put_u32 (tsn c) ++ put_u16 (stream_identifier c) ++ put_u16 (stream_sequence_number c) ++
          put_u32 (u32_from_PPI (payload_type c)) ++ user_data c)
  | CInit c =>
      ps ← params_marshal oc (init_params c);
      Ok (put_u32 (initiate_tag c) ++ put_u32 (init_advertised_receiver_window_credit c) ++
          put_u16 (num_outbound_streams c) ++ put_u16 (num_inbound_streams c) ++
          put_u32 (initial_tsn c) ++ ps)
  | CSack c =>
      Ok (put_u32 (sack_cumulative_tsn_ack c) ++ put_u32 (sack_advertised_receiver_window_credit c) ++
          put_u16 (as_u16 (zlen (gap_ack_blocks c))) ++ put_u16 (as_u16 (zlen (duplicate_tsn c))) ++
          concat (map put_gap (gap_ack_blocks c)) ++ concat (map put_u32 (duplicate_tsn c)))
  | CHeartbeat ps => heartbeat_body oc ps
  | CHeartbeatAck ps => params_marshal oc ps
  | CAbort es | CError es => Ok (concat (map ErrorCause_marshal es))
  | CShutdown c => Ok (put_u32 (shutdown_cumulative_tsn_ack c))
  | CShutdownAck | CCookieAck | CShutdownComplete => Ok []
  | CCookieEcho c => Ok (echo_cookie c)
  | CReconfig c => reconfig_body oc c
  | CForwardTsn c => Ok (put_u32 (new_cumulative_tsn c) ++ concat (map put_fwd_stream (streams c)))
  end.

(** [Chunk::marshal]. *)
Definition chunk_marshal (oc : bool) (c : Chunk) : result bytes :=
  _ ← match c with CHeartbeatAck ps => heartbeat_ack_guard ps | _ => Ok tt end;
  h ← ChunkHeader_marshal oc (chunk_header c);
  b ← chunk_body oc c;
  Ok (h ++ b).

(** [Chunk::check]: only INIT checks anything. *)
Definition chunk_check (c : Chunk) : result unit :=
  match c with CInit c => ChunkInit_check c | _ => Ok tt end.

(** The [match ct] of [packet.rs]; HEARTBEAT ACK is not among its arms. *)
Definition unmarshal_chunk (ct : Z) (buf : bytes) : result Chunk :=
  if ct =? CT_INIT then CInit <$> ChunkInit_unmarshal buf
  else if ct =? CT_INIT_ACK then CInit <$> ChunkInit_unmarshal buf
  else if ct =? CT_ABORT then CAbort <$> ChunkAbort_unmarshal buf
  else if ct =? CT_COOKIE_ECHO then CCookieEcho <$> ChunkCookieEcho_unmarshal buf
  else if ct =? CT_COOKIE_ACK then (fun _ => CCookieAck) <$> ChunkCookieAck_unmarshal buf
  else if ct =? CT_HEARTBEAT then CHeartbeat <$> ChunkHeartbeat_unmarshal buf
  else if ct =? CT_PAYLOAD_DATA then CPayloadData <$> ChunkPayloadData_unmarshal buf
  else if ct =? CT_SACK then CSack <$> ChunkSelectiveAck_unmarshal buf
  else if ct =? CT_RECONFIG then CReconfig <$> ChunkReconfig_unmarshal buf
  else if ct =? CT_FORWARD_TSN then CForwardTsn <$> ChunkForwardTsn_unmarshal buf
  else if ct =? CT_ERROR then CError <$> ChunkError_unmarshal buf
  else if ct =? CT_SHUTDOWN then CShutdown <$> ChunkShutdown_unmarshal buf
  else if ct =? CT_SHUTDOWN_ACK then (fun _ => CShutdownAck) <$> ChunkShutdownAck_unmarshal buf
  else if ct =? CT_SHUTDOWN_COMPLETE
  then (fun _ => CShutdownComplete) <$> ChunkShutdownComplete_unmarshal buf
  else Err ErrUnmarshalUnknownChunkType.

(** * Well-formed chunks *)

Definition gap_wf (g : GapAckBlock) : Prop := is_u16 (gap_start g) /\ is_u16 (gap_end g).
Definition fwd_stream_wf (s : ChunkForwardTsnStream) : Prop := is_u16 (identifier s) /\ is_u16 (sequence s).
Definition cause_wf (e : ErrorCause) : Prop := is_u16 (cause_code e) /\ bytes_ok (cause_raw e).

(** Every field is in the range of its Rust type. *)
Definition chunk_wf (c : Chunk) : Prop :=
  match c with
  | CPayloadData c =>
      is_u32 (tsn c) /\ is_u16 (stream_identifier c) /\ is_u16 (stream_sequence_number c) /\
      bytes_ok (user_data c)
  | CInit c =>
      is_u32 (initiate_tag c) /\ is_u32 (init_advertised_receiver_window_credit c) /\
      is_u16 (num_outbound_streams c) /\ is_u16 (num_inbound_streams c) /\
      is_u32 (initial_tsn c) /\ Forall param_ok (init_params c)
  | CSack c =>
      is_u32 (sack_cumulative_tsn_ack c) /\ is_u32 (sack_advertised_receiver_window_credit c) /\
      Forall gap_wf (gap_ack_blocks c) /\ Forall is_u32 (duplicate_tsn c)
  | CHeartbeat ps | CHeartbeatAck ps => Forall param_ok ps
  | CAbort es | CError es => Forall cause_wf es
  | CShutdown c => is_u32 (shutdown_cumulative_tsn_ack c)
  | CShutdownAck | CCookieAck | CShutdownComplete => True
  | CCookieEcho c => bytes_ok (echo_cookie c)
  | CReconfig c => from_option param_ok True (param_a c) /\ from_option param_ok True (param_b c)
  | CForwardTsn c => is_u32 (new_cumulative_tsn c) /\ Forall fwd_stream_wf (streams c)
  end.

(** The length field of a buffer that starts with a chunk. *)
Definition declared_length (raw : bytes) : Z := nth 2 raw 0 * 256 + nth 3 raw 0.

(** The buffer is the chunk and nothing more, as [slice_chunk] hands it over. *)
Definition exact_cut (raw : bytes) : Prop := 4 <= zlen raw /\ declared_length raw = zlen raw.

(** What a parser's result owes to its input: it is no longer than the chunk, and
    well-formed when the input is made of bytes. *)
Definition chunk_fits (raw : bytes) (c : Chunk) : Prop :=
  0 <= chunk_value_length c /\ CHUNK_HEADER_SIZE + chunk_value_length c <= zlen raw /\
  (bytes_ok raw -> chunk_wf c).

(** * Parsers *)

Lemma post_padding_loop raw vl i :
  0 <= vl -> CHUNK_HEADER_SIZE + vl + Z.of_nat i <= zlen raw -> no_panic (padding_loop raw vl i).
Proof.
  unfold no_panic, CHUNK_HEADER_SIZE. intros Hvl. induction i as [|i IH]; intros Hi; [exact I|].
  cbn [padding_loop]. unfold CHUNK_HEADER_SIZE.
  eapply post_bind; [apply post_index; lia|]. intros b _ _.
  apply post_if; intros; [exact I|]. apply IH; lia.
Qed.

Definition chunk_header_fits (raw : bytes) (h : ChunkHeader) : Prop :=
  0 <= ch_value_length h /\ CHUNK_HEADER_SIZE + ch_value_length h <= zlen raw /\
  CHUNK_HEADER_SIZE + ch_value_length h = declared_length raw /\
  (bytes_ok raw -> is_u8 (ch_typ h) /\ is_u8 (ch_flags h) /\ ch_value_length h <= 65531).

Lemma post_ChunkHeader_unmarshal raw : post (ChunkHeader_unmarshal raw) (chunk_header_fits raw).
Proof.
  unfold ChunkHeader_unmarshal, chunk_header_fits. apply post_if; intros Hlen; [exact I|].
  destruct raw as [|b0 [|b1 [|b2 [|b3 raw']]]]; try (exfalso; revert Hlen; vm_compute; done).
  set (raw := b0 :: b1 :: b2 :: b3 :: raw') in *.
  change (declared_length raw) with (b2 * 256 + b3). cbn -[raw padding_loop].
  apply post_if; intros H1; [exact I|]. apply post_if; intros H2; [exact I|].
  unfold CHUNK_HEADER_SIZE in *.
  eapply post_bind with (P := fun _ => True).
  { apply post_if; intros; [|exact I]. apply post_padding_loop; unfold CHUNK_HEADER_SIZE; lia. }
  intros _ _ _. cbn [post ch_typ ch_flags ch_value_length]. split_and!; try lia.
  intros Hraw. unfold raw, bytes_ok in Hraw. rewrite !Forall_cons in Hraw.
  unfold_ints. split_and!; lia.
Qed.

Lemma post_chunk_value raw h : chunk_header_fits raw h ->
  post (chunk_value h raw) (fun v => zlen v = ch_value_length h /\ (bytes_ok raw -> bytes_ok v)).
Proof.
  intros (H0 & H1 & _). unfold chunk_value, CHUNK_HEADER_SIZE in *.
  eapply post_weaken; [apply post_slice; lia|]. intros v [Hv ?]; split; [lia|done].
Qed.

Lemma post_fmap {A B} (f : A -> B) (m : result A) P : post m (fun a => P (f a)) -> post (f <$> m) P.
Proof. by destruct m. Qed.

(** Opens a parser: reads the header and leaves what it guarantees in the context. *)
Ltac chunk_start raw h Hh :=
  eapply post_bind; [apply post_ChunkHeader_unmarshal|]; intros h _ Hh;
  pose proof (proj1 Hh); pose proof (proj1 (proj2 Hh)); pose proof (proj1 (proj2 (proj2 Hh)));
  pose proof (proj2 (proj2 (proj2 Hh)));
  unfold CHUNK_HEADER_SIZE, PARAM_HEADER_LENGTH, exact_cut, declared_length in *.
Ltac chunk_open v Hh :=
  eapply post_bind; [apply (post_chunk_value _ _ Hh)|]; intros v _ [? ?].
Ltac chunk_guard := apply post_if; intros ?; [exact I|].

Lemma post_ChunkPayloadData raw :
  post (ChunkPayloadData_unmarshal raw) (fun c => chunk_fits raw (CPayloadData c)).
Proof.
  unfold ChunkPayloadData_unmarshal, chunk_fits, PAYLOAD_DATA_HEADER_SIZE. chunk_start raw h Hh.
  do 3 chunk_guard. chunk_open v Hh. do 4 post_step.
  eapply post_bind; [apply post_slice; lia|]. intros d _ [? ?]. cbn.
  unfold PAYLOAD_DATA_HEADER_SIZE. split_and!; [zlia|zlia|]. intros; use_ok. done.
Qed.

Lemma post_get_gap l : 4 <= zlen l ->
  post (get_gap l) (fun vr => zlen vr.2 = zlen l - 4 /\ (bytes_ok l -> gap_wf vr.1 /\ bytes_ok vr.2)).
Proof.
  intros Hl. unfold get_gap. repeat post_step. cbn. split; [lia|]. intros; use_ok. unfold gap_wf; cbn; tauto.
Qed.

Lemma post_ChunkSelectiveAck raw :
  bytes_ok raw -> post (ChunkSelectiveAck_unmarshal raw) (fun c => chunk_fits raw (CSack c)).
Proof.
  intros Hraw. unfold ChunkSelectiveAck_unmarshal, chunk_fits, SELECTIVE_ACK_HEADER_SIZE.
  chunk_start raw h Hh. do 3 chunk_guard. chunk_open v Hh. do 4 post_step. use_ok.
  unfold is_u16 in *. do 2 chunk_guard.
  eapply post_bind; [apply (post_read_n _ gap_wf 4); [lia|apply post_get_gap|lia]|].
  intros [gs r] _ (? & ? & ?); cbn [fst snd] in *.
  eapply post_bind; [apply (post_read_n _ is_u32 4); [lia|apply post_get_u32|lia]|].
  intros [ds r'] _ (? & ? & ?); cbn [fst snd] in *. cbn. unfold SELECTIVE_ACK_HEADER_SIZE, zlen in *.
  use_ok. split_and!; [lia|lia|done..].
Qed.

Lemma params_length_cons p ps :
  params_length (p :: ps) =
  PARAM_HEADER_LENGTH + param_value_length p +
  (match ps with [] => 0 | _ => get_padding_size (PARAM_HEADER_LENGTH + param_value_length p) end) +
  params_length ps.
Proof. reflexivity. Qed.

(** The parameters of an INIT lie within the chunk; four bytes of fuel per round
    are enough. *)
Lemma post_init_params_loop raw limit fuel offset remaining :
  0 <= offset -> limit <= zlen raw -> 0 < 4 * Z.of_nat fuel -> limit - offset < 4 * Z.of_nat fuel ->
  post (init_params_loop fuel raw limit offset remaining) (fun ps =>
    0 <= params_length ps /\ (offset <= limit -> params_length ps <= limit - offset) /\
    (limit <= offset -> ps = []) /\ (bytes_ok raw -> Forall param_ok ps)).
Proof.
  revert offset remaining. induction fuel as [|fuel IH]; intros offset remaining Ho Hl Hp Hf; [lia|].
  cbn [init_params_loop]. apply post_if; intros Hc.
  2: { cbn. split_and!; [lia|lia|done|constructor]. }
  assert (Hlt : offset < limit) by lia.
  eapply post_bind; [apply post_slice; lia|]. intros s _ [Hs Hsok].
  eapply post_bind; [apply build_param_post|]. intros p _ [Hfit Hpok].
  pose proof (param_value_length_nonneg p).
  unfold PARAM_HEADER_LENGTH in *.
  pose proof (get_padding_size_spec (4 + param_value_length p) ltac:(lia)) as [Hpad _].
  eapply post_bind; [apply IH; lia|]. intros ps _ (Hn & Hle & Hnil & Hall). cbn [post].
  rewrite params_length_cons; unfold PARAM_HEADER_LENGTH. split_and!.
  - destruct ps; lia.
  - intros _. destruct ps; [cbn; lia|].
    destruct (Z.le_gt_cases limit (offset + (4 + param_value_length p +
      get_padding_size (4 + param_value_length p)))) as [Hge|Hge]; [by apply Hnil in Hge|lia].
  - lia.
  - intros Hraw. constructor; auto.
Qed.

Lemma post_ChunkInit raw : post (ChunkInit_unmarshal raw) (fun c => chunk_fits raw (CInit c)).
Proof.
  unfold ChunkInit_unmarshal, chunk_fits, INIT_CHUNK_MIN_LENGTH. chunk_start raw h Hh.
  do 4 chunk_guard. chunk_open v Hh. do 5 post_step.
  eapply post_bind; [apply post_init_params_loop; unfold zlen in *; lia|].
  intros ps _ (? & ? & _ & ?). cbn. split_and!; [lia|lia|]. intros; use_ok. by split_and!.
Qed.

Lemma post_ForwardTsnStream buf :
  post (ChunkForwardTsnStream_unmarshal buf) (fun s => 4 <= zlen buf /\ (bytes_ok buf -> fwd_stream_wf s)).
Proof.
  unfold ChunkForwardTsnStream_unmarshal, FORWARD_TSN_STREAM_LENGTH. repeat post_step.
  split; [lia|]. intros; use_ok. done.
Qed.

Lemma post_fwd_streams_loop buf fuel offset :
  0 <= offset <= zlen buf -> zlen buf - offset < 4 * Z.of_nat fuel ->
  post (fwd_streams_loop fuel buf (zlen buf) offset (zlen buf - offset)) (fun ss =>
    4 * zlen ss = zlen buf - offset /\ (bytes_ok buf -> Forall fwd_stream_wf ss)).
Proof.
  revert offset. induction fuel as [|fuel IH]; intros offset Ho Hf; [lia|].
  cbn [fwd_streams_loop]. apply post_if; intros Hc.
  2: { cbn. split; [zlia|constructor]. }
  eapply post_bind; [apply post_slice; lia|]. intros s _ [Hs Hsok].
  eapply post_bind; [apply post_ForwardTsnStream|]. intros st _ [H4 Hst].
  unfold FORWARD_TSN_STREAM_LENGTH.
  replace (zlen buf - offset - 4) with (zlen buf - (offset + 4)) by lia.
  eapply post_bind; [apply IH; lia|]. intros ss _ [Hlen Hall]. cbn [post].
  split; [zlia|]. intros. constructor; auto.
Qed.

Lemma post_ChunkForwardTsn raw :
  exact_cut raw -> post (ChunkForwardTsn_unmarshal raw) (fun c => chunk_fits raw (CForwardTsn c)).
Proof.
  intros Hcut. unfold ChunkForwardTsn_unmarshal, chunk_fits, NEW_CUMULATIVE_TSN_LENGTH.
  chunk_start raw h Hh. do 2 chunk_guard. chunk_open v Hh. post_step.
  replace (4 + ch_value_length h) with (zlen raw) by lia.
  eapply post_bind; [apply post_fwd_streams_loop; unfold zlen in *; lia|].
  intros ss _ [Hss ?]. cbn. unfold NEW_CUMULATIVE_TSN_LENGTH, FORWARD_TSN_STREAM_LENGTH.
  split_and!; [zlia|zlia|]. intros; use_ok. done.
Qed.

Lemma post_ChunkReconfig raw : post (ChunkReconfig_unmarshal raw) (fun c => chunk_fits raw (CReconfig c)).
Proof.
  unfold ChunkReconfig_unmarshal, chunk_fits. chunk_start raw h Hh. chunk_guard. chunk_open va Hh.
  eapply post_bind; [apply build_param_post|]. intros a _ [Hfa Hoka].
  pose proof (param_value_length_nonneg a). unfold PARAM_HEADER_LENGTH in *.
  pose proof (get_padding_size_spec (4 + param_value_length a) ltac:(lia)) as [Hpad _].
  apply post_if; intros Hc; cbn [post chunk_value_length chunk_wf param_a param_b from_option];
    unfold reconfig_value_length; cbn [param_a param_b]; unfold PARAM_HEADER_LENGTH.
  - eapply post_bind; [apply post_slice; lia|]. intros vb _ [Hvb Hvbok].
    eapply post_bind; [apply build_param_post|]. intros b _ [Hfb Hokb].
    pose proof (param_value_length_nonneg b). unfold PARAM_HEADER_LENGTH in *.
    cbn. split_and!; [lia|lia|]. auto.
  - split_and!; [lia|lia|]. intros; split; [auto|done].
Qed.

Lemma post_ChunkShutdown raw : post (ChunkShutdown_unmarshal raw) (fun c => chunk_fits raw (CShutdown c)).
Proof.
  unfold ChunkShutdown_unmarshal, chunk_fits, CUMULATIVE_TSN_ACK_LENGTH. chunk_start raw h Hh.
  do 3 chunk_guard. chunk_open v Hh. do 2 post_step. cbn. unfold CUMULATIVE_TSN_ACK_LENGTH.
  split_and!; [lia|lia|]. intros; use_ok. done.
Qed.

Lemma post_ChunkCookieEcho raw :
  post (ChunkCookieEcho_unmarshal raw) (fun c => chunk_fits raw (CCookieEcho c)).
Proof.
  unfold ChunkCookieEcho_unmarshal, chunk_fits. chunk_start raw h Hh. chunk_guard.
  chunk_open v Hh. cbn. split_and!; [zlia|lia|auto].
Qed.

(** The chunks without a value. *)
Lemma post_empty_chunk raw ct (e : Error) c :
  chunk_value_length c = 0 -> chunk_wf c ->
  post (h ← ChunkHeader_unmarshal raw; if negb (ch_typ h =? ct) then Err e else Ok tt)
       (fun _ => chunk_fits raw c).
Proof.
  intros Hz Hwf. chunk_start raw h Hh. chunk_guard. cbn. unfold chunk_fits, CHUNK_HEADER_SIZE.
  rewrite Hz. split_and!; [lia|lia|done].
Qed.

Lemma post_ChunkHeartbeat raw : post (ChunkHeartbeat_unmarshal raw) (fun ps => chunk_fits raw (CHeartbeat ps)).
Proof.
  unfold ChunkHeartbeat_unmarshal, chunk_fits. chunk_start raw h Hh. do 2 chunk_guard. chunk_open v Hh.
  eapply post_bind; [apply build_param_post|]. intros p _ [Hf Hok].
  pose proof (param_value_length_nonneg p). chunk_guard. cbn.
  unfold heartbeat_length, zsum, PARAM_HEADER_LENGTH in *; cbn. split_and!; [lia|lia|]. auto.
Qed.

(** A cause at [offset] declares more bytes than the chunk has left. *)
Definition cause_overruns (raw : bytes) (offset : Z) : Prop :=
  0 <= offset /\ offset + 4 <= zlen raw /\
  zlen raw - offset < declared_length (drop (Z.to_nat offset) raw).

Lemma ErrorCause_unmarshal_spec buf :
  post_or (ErrorCause_unmarshal buf)
    (fun e => 4 <= cause_length e <= zlen buf /\ (bytes_ok buf -> cause_wf e))
    (4 <= zlen buf < declared_length buf).
Proof.
  unfold ErrorCause_unmarshal, ERROR_CAUSE_HEADER_LENGTH, cause_length.
  destruct (Z.ltb_spec (zlen buf) 4) as [|H4]; [exact I|].
  destruct buf as [|b0 [|b1 [|b2 [|b3 buf']]]]; try (autorewrite with zlen in H4; lia).
  set (buf := b0 :: b1 :: b2 :: b3 :: buf') in *.
  change (get_u16 (E:=Error) buf) with (Ok (E:=Error) (b0 * 256 + b1, b2 :: b3 :: buf')).
  cbn [mbind outcome_bind get_u16].
  change (declared_length buf) with (b2 * 256 + b3).
  destruct (Z.ltb_spec (b2 * 256 + b3) 4) as [|Hl]; [exact I|].
  destruct (Z.le_gt_cases (b2 * 256 + b3) (zlen buf)) as [Hle|Hgt].
  - eapply post_or_bind; [apply post_or_intro, post_slice; lia|]. intros r _ [Hr Hrok]. cbn.
    unfold ERROR_CAUSE_HEADER_LENGTH. split; [lia|]. intros Hb; split; [|auto].
    unfold buf, bytes_ok in Hb. rewrite !Forall_cons in Hb. cbn. unfold_ints; lia.
  - unfold slice. destruct (Z.leb_spec (4 + (b2 * 256 + b3 - 4)) (zlen buf)); [lia|].
    rewrite andb_false_r. cbn. lia.
Qed.

Lemma causes_loop_spec raw fuel offset :
  0 <= offset -> zlen raw - offset < 4 * Z.of_nat fuel -> 0 < 4 * Z.of_nat fuel ->
  post_or (causes_loop fuel raw (zlen raw) offset)
    (fun es => 0 <= zsum cause_length es /\
               (offset <= zlen raw -> zsum cause_length es <= zlen raw - offset) /\
               (bytes_ok raw -> Forall cause_wf es))
    (exists o, cause_overruns raw o).
Proof.
  revert offset. induction fuel as [|fuel IH]; intros offset Ho Hf Hp; [lia|].
  cbn [causes_loop]. destruct (Z.leb_spec (offset + 4) (zlen raw)) as [Hle|Hgt].
  2: { cbn. split_and!; [lia|lia|constructor]. }
  rewrite slice_Ok by lia. cbn [mbind outcome_bind].
  set (b := take (Z.to_nat (zlen raw - offset)) (drop (Z.to_nat offset) raw)).
  assert (Hb : b = drop (Z.to_nat offset) raw).
  { apply take_ge. rewrite length_drop. unfold zlen; lia. }
  assert (Hbl : zlen b = zlen raw - offset) by (rewrite Hb; zlia).
  pose proof (ErrorCause_unmarshal_spec b) as He.
  destruct (ErrorCause_unmarshal b) as [e| | |]; cbn [mbind outcome_bind post_or] in *; try done.
  - destruct He as [Hel Hew]. eapply post_or_bind; [apply IH; lia|].
    intros es _ (Hn & Hs & Hw). cbn [post_or]. rewrite zsum_cons. split_and!; [lia|lia|].
    intros Hraw. constructor; [|auto]. apply Hew. rewrite Hb. by apply Forall_drop.
  - exists offset. unfold cause_overruns. rewrite <- Hb. lia.
Qed.

(** The causes of an ABORT or ERROR run past the end of the chunk. *)
Definition causes_overrun (ct : Z) (raw : bytes) : Prop :=
  (ct = CT_ABORT \/ ct = CT_ERROR) /\ exists o, cause_overruns raw o.

Lemma post_causes raw ct (e : Error) c :
  exact_cut raw -> (forall es, chunk_value_length (c es) = zsum cause_length es) ->
  (forall es, chunk_wf (c es) = Forall cause_wf es) ->
  post_or (h ← ChunkHeader_unmarshal raw;
           if negb (ch_typ h =? ct) then Err e
           else causes_loop (S (length raw)) raw (CHUNK_HEADER_SIZE + ch_value_length h) CHUNK_HEADER_SIZE)
    (fun es => chunk_fits raw (c es)) (exists o, cause_overruns raw o).
Proof.
  intros [H4 Hcut] Hlen Hwf.
  eapply post_or_bind; [apply post_or_intro, post_ChunkHeader_unmarshal|]. intros h _ (H1 & H2 & H3 & _).
  unfold CHUNK_HEADER_SIZE in *. case_match; [exact I|].
  replace (4 + ch_value_length h) with (zlen raw) by lia.
  pose proof (causes_loop_spec raw (S (length raw)) 4 ltac:(lia) ltac:(unfold zlen; lia) ltac:(lia)) as Hs.
  destruct (causes_loop _ _ _ _); cbn [post_or] in *; try done. destruct Hs as (? & ? & ?).
  unfold chunk_fits, CHUNK_HEADER_SIZE. rewrite Hlen, Hwf. split_and!; [lia|lia|done].
Qed.

Lemma post_or_fmap {A B} (f : A -> B) (m : result A) P R :
  post_or m (fun a => P (f a)) R -> post_or (f <$> m) P R.
Proof. by destruct m. Qed.

Lemma post_or_panic {A} (m : result A) P (R R' : Prop) : post_or m P R -> (R -> R') -> post_or m P R'.
Proof. destruct m; cbn; auto. Qed.

(** Every parser on an exact cut: the only panic is an overrunning error cause. *)
Lemma unmarshal_chunk_spec ct raw : bytes_ok raw -> exact_cut raw ->
  post_or (unmarshal_chunk ct raw) (chunk_fits raw) (causes_overrun ct raw).
Proof.
  intros Hraw Hcut. unfold unmarshal_chunk, causes_overrun.
  repeat match goal with
  | |- post_or (if ?c then _ else _) _ _ => destruct c eqn:?; [apply post_or_fmap|]
  end; [..|exact I];
  try (apply post_or_intro;
       first [ apply post_ChunkInit | apply post_ChunkCookieEcho | apply post_ChunkHeartbeat
             | apply post_ChunkPayloadData | by apply post_ChunkSelectiveAck | apply post_ChunkReconfig
             | by apply post_ChunkForwardTsn | apply post_ChunkShutdown | by apply post_empty_chunk ]; fail).
  - eapply post_or_panic; [by apply (post_causes _ _ _ CAbort)|]. intros; split; [lia|done].
  - eapply post_or_panic; [by apply (post_causes _ _ _ CError)|]. intros; split; [lia|done].
Qed.

(** * Round trip *)

Section header_roundtrip.
Context (t f : Z) (b : bytes).
Hypothesis Ht : is_u8 t.
Hypothesis Hf : is_u8 f.
Hypothesis Hb : zlen b <= 65531.

Definition framed_chunk : bytes := put_u8 t ++ put_u8 f ++ put_u16 (zlen b + CHUNK_HEADER_SIZE) ++ b.

Lemma zlen_framed_chunk : zlen framed_chunk = CHUNK_HEADER_SIZE + zlen b.
Proof using Type. unfold framed_chunk, CHUNK_HEADER_SIZE. zlia. Qed.

Lemma exact_cut_framed_chunk : exact_cut framed_chunk.
Proof using Hb.
  unfold exact_cut. rewrite zlen_framed_chunk. unfold declared_length, framed_chunk, CHUNK_HEADER_SIZE.
  cbn [put_u8 put_u16 app nth]. pose proof (zlen_nonneg b). split; [lia|mlia].
Qed.

Lemma ChunkHeader_unmarshal_framed :
  ChunkHeader_unmarshal framed_chunk = Ok {| ch_typ := t; ch_flags := f; ch_value_length := zlen b |}.
Proof using Ht Hf Hb.
  pose proof zlen_framed_chunk as Hz. pose proof (zlen_nonneg b). unfold ChunkHeader_unmarshal.
  rewrite Hz. unfold CHUNK_HEADER_SIZE in *.
  destruct (Z.ltb_spec (4 + zlen b) 4); [lia|].
  unfold framed_chunk, CHUNK_HEADER_SIZE.
  rewrite get_put_u8 by done. cbn [mbind outcome_bind]. rewrite get_put_u8 by done. cbn [mbind outcome_bind].
  rewrite get_put_u16 by (unfold is_u16; lia). cbn [mbind outcome_bind].
  destruct (Z.ltb_spec (zlen b + 4) 4); [lia|].
  destruct (Z.ltb_spec (4 + zlen b - (zlen b + 4)) 0); [lia|].
  replace (Z.to_nat (4 + zlen b - (zlen b + 4))) with 0%nat by lia. cbn [padding_loop].
  replace (zlen b + 4 - 4) with (zlen b) by lia. by case_match.
Qed.

Lemma chunk_value_framed t' f' :
  chunk_value {| ch_typ := t'; ch_flags := f'; ch_value_length := zlen b |} framed_chunk = Ok b.
Proof using Type.
  unfold chunk_value, CHUNK_HEADER_SIZE; cbn [ch_value_length].
  eapply (slice_app_eq _ (put_u8 t ++ put_u8 f ++ put_u16 (zlen b + 4)) _ []); [|done|done].
  rewrite app_nil_r. unfold framed_chunk, CHUNK_HEADER_SIZE. by rewrite <- !(assoc_L app).
Qed.
End header_roundtrip.

Lemma padding_loop_zero raw vl n :
  0 <= vl -> CHUNK_HEADER_SIZE + vl + Z.of_nat n <= zlen raw ->
  (forall j, (Z.to_nat (CHUNK_HEADER_SIZE + vl) <= j < length raw)%nat -> nth j raw 0 = 0) ->
  padding_loop raw vl n = Ok tt.
Proof.
  unfold CHUNK_HEADER_SIZE. intros Hvl Hn Hz. induction n as [|n IH]; [done|]. cbn [padding_loop].
  unfold index, CHUNK_HEADER_SIZE.
  destruct (Z.leb_spec 0 (4 + (vl + Z.of_nat (S n) - 1))), (Z.ltb_spec (4 + (vl + Z.of_nat (S n) - 1)) (zlen raw)); try lia.
  cbn [andb mbind outcome_bind]. rewrite Hz by (unfold zlen in *; lia). apply IH. lia.
Qed.

(** The header of a chunk that is followed by its padding or by other chunks. *)
Lemma ChunkHeader_unmarshal_app b rest :
  exact_cut b -> (zlen rest < 4 -> Forall (fun x => x = 0) rest) ->
  ChunkHeader_unmarshal (b ++ rest) =
  Ok {| ch_typ := nth 0 b 0; ch_flags := nth 1 b 0; ch_value_length := zlen b - CHUNK_HEADER_SIZE |}.
Proof.
  intros [H4 Hd] Hrest. unfold declared_length in Hd. pose proof (zlen_nonneg rest).
  unfold ChunkHeader_unmarshal. rewrite zlen_app. unfold CHUNK_HEADER_SIZE.
  destruct (Z.ltb_spec (zlen b + zlen rest) 4); [lia|].
  do 4 (destruct b as [|? b]; [autorewrite with zlen in H4; lia|]). cbn [nth] in *.
  cbn [app get_u8 get_u16 mbind outcome_bind]. rewrite Hd.
  set (bb := _ :: _) in *. change (_ :: _ :: _ :: _ :: b ++ rest) with (bb ++ rest).
  do 2 (case_match; [lia|]). replace (zlen bb + zlen rest - zlen bb) with (zlen rest) by lia.
  case_match; [|done]. rewrite padding_loop_zero; [done|lia| |].
  - unfold CHUNK_HEADER_SIZE. rewrite zlen_app. lia.
  - unfold CHUNK_HEADER_SIZE. intros j Hj. rewrite app_nth2 by (unfold zlen in *; lia).
    rewrite length_app in Hj. rewrite Forall_forall in Hrest.
    apply Hrest; [lia|]. apply list_elem_of_In, nth_In. unfold zlen in *; lia.
Qed.

(** The parameters of a chunk on the wire. *)
Fixpoint params_bytes (ps : list Param) : bytes :=
  match ps with
  | [] => []
  | p :: ps' =>
      param_bytes p ++
      zeros (match ps' with [] => 0 | _ => get_padding_size (zlen (param_bytes p)) end) ++
      params_bytes ps'
  end.

Lemma params_marshal_Ok oc ps : Forall param_ok ps -> params_marshal oc ps = Ok (params_bytes ps).
Proof.
  induction 1 as [|p ps Hp Hps IH]; [done|]. cbn [params_marshal params_bytes].
  rewrite param_marshal_Ok by apply Hp. cbn [mbind outcome_bind]. by rewrite IH.
Qed.

Lemma zlen_params_bytes ps : zlen (params_bytes ps) = params_length ps.
Proof.
  induction ps as [|p ps IH]; [done|]. cbn [params_bytes]. rewrite params_length_cons, !zlen_app, IH.
  rewrite zlen_zeros, zlen_param_bytes. pose proof (param_value_length_nonneg p).
  unfold PARAM_HEADER_LENGTH. pose proof (get_padding_size_spec (4 + param_value_length p) ltac:(lia)).
  destruct ps; lia.
Qed.

(** The condition the INIT parser puts on the last parameter: it must carry a value. *)
Definition last_param_nonempty (ps : list Param) : Prop :=
  match last ps with Some p => 0 < param_value_length p | None => True end.

Lemma params_length_ge p ps : 4 <= params_length (p :: ps).
Proof.
  revert p; induction ps as [|q ps IH]; intros p; rewrite params_length_cons;
    pose proof (param_value_length_nonneg p); unfold PARAM_HEADER_LENGTH;
    pose proof (get_padding_size_spec (4 + param_value_length p) ltac:(lia)); [cbn; lia|].
  specialize (IH q). lia.
Qed.

Lemma init_params_loop_roundtrip ps pre fuel :
  Forall param_ok ps -> last_param_nonempty ps -> (length ps < fuel)%nat ->
  init_params_loop fuel (pre ++ params_bytes ps) (zlen pre + params_length ps) (zlen pre) (params_length ps) = Ok ps.
Proof.
  intros Hok. revert pre fuel. induction Hok as [|p ps Hp Hps IH]; intros pre [|fuel] Hl Hfuel;
    try (cbn in Hfuel; lia); cbn [init_params_loop]; [by rewrite andb_false_l|].
  pose proof (params_length_ge p ps). pose proof (zlen_params_bytes (p :: ps)) as Hz.
  assert (4 < params_length (p :: ps)).
  { rewrite params_length_cons in *. pose proof (param_value_length_nonneg p). unfold PARAM_HEADER_LENGTH.
    destruct ps as [|q ps]; [unfold last_param_nonempty in Hl; cbn in *; lia|].
    pose proof (params_length_ge q ps).
    pose proof (get_padding_size_spec (4 + param_value_length p) ltac:(lia)). lia. }
  unfold INIT_OPTIONAL_VAR_HEADER_LENGTH.
  destruct (Z.ltb_spec 4 (params_length (p :: ps))); [|lia].
  destruct (Z.ltb_spec (zlen pre) (zlen pre + params_length (p :: ps))); [|lia]. cbn [andb].
  rewrite (slice_app_eq _ pre (params_bytes (p :: ps)) []) by (rewrite ?app_nil_r; done || lia).
  cbn [mbind outcome_bind]. cbn [params_bytes]. rewrite build_param_bytes by done. cbn [mbind outcome_bind].
  rewrite params_length_cons, zlen_param_bytes in *. pose proof (param_value_length_nonneg p).
  set (n := PARAM_HEADER_LENGTH + param_value_length p) in *.
  assert (Hn : 0 <= n) by (unfold n, PARAM_HEADER_LENGTH; lia).
  pose proof (get_padding_size_spec n Hn) as [Hpad _]. destruct ps as [|q ps].
  - destruct fuel as [|fuel]; [cbn in Hfuel; lia|]. cbn [init_params_loop params_length].
    unfold INIT_OPTIONAL_VAR_HEADER_LENGTH.
    destruct (Z.ltb_spec 4 (n + 0 + 0 - (n + get_padding_size n))); [lia|done].
  - specialize (IH (pre ++ param_bytes p ++ zeros (get_padding_size n)) fuel Hl ltac:(cbn in *; lia)).
    autorewrite with zlen in IH. rewrite zlen_param_bytes in IH. fold n in IH.
    rewrite <- !(assoc_L app) in IH.
    replace (zlen pre + (n + Z.max 0 (get_padding_size n))) with (zlen pre + (n + get_padding_size n)) in IH by lia.
    match goal with |- init_params_loop _ _ ?l _ ?r ≫= _ = _ =>
      replace l with (zlen pre + (n + get_padding_size n) + params_length (q :: ps)) by lia;
      replace r with (params_length (q :: ps)) by lia end.
    by rewrite IH.
Qed.

Lemma slice_suffix pre b : slice (E:=Error) (pre ++ b) (zlen pre) (zlen (pre ++ b)) = Ok b.
Proof. eapply (slice_app_eq _ pre b []); rewrite ?app_nil_r, ?zlen_app; done. Qed.

Lemma fwd_streams_loop_roundtrip ss pre fuel :
  Forall fwd_stream_wf ss -> (length ss < fuel)%nat ->
  let raw := pre ++ concat (map put_fwd_stream ss) in
  fwd_streams_loop fuel raw (zlen raw) (zlen pre) (zlen raw - zlen pre) = Ok ss.
Proof.
  intros Hok. revert pre fuel. induction Hok as [|s ss [Hi Hs] Hss IH]; intros pre [|fuel] Hfuel;
    try (cbn in Hfuel; lia); cbn zeta; cbn [fwd_streams_loop map concat].
  { rewrite app_nil_r, Z.sub_diag. done. }
  set (r := concat (map put_fwd_stream ss)) in *.
  destruct (Z.ltb_spec 0 (zlen (pre ++ put_fwd_stream s ++ r) - zlen pre)) as [_|H];
    [|unfold put_fwd_stream in H; zlia].
  rewrite slice_suffix. cbn [mbind outcome_bind].
  unfold ChunkForwardTsnStream_unmarshal, FORWARD_TSN_STREAM_LENGTH.
  destruct (Z.ltb_spec (zlen (put_fwd_stream s ++ r)) 4) as [H|_]; [unfold put_fwd_stream in H; zlia|].
  assert (get_u16 (E:=Error) (put_fwd_stream s ++ r) = Ok (identifier s, put_u16 (sequence s) ++ r)) as ->
    by (unfold put_fwd_stream; rewrite <- (assoc_L app); by apply get_put_u16).
  cbn [mbind outcome_bind].
  rewrite get_put_u16 by done. cbn [mbind outcome_bind].
  specialize (IH (pre ++ put_fwd_stream s) fuel ltac:(cbn in *; lia)). cbn zeta in IH.
  rewrite <- (assoc_L app) in IH.
  replace (zlen (pre ++ put_fwd_stream s)) with (zlen pre + 4) in IH by (unfold put_fwd_stream; zlia).
  replace (zlen (pre ++ put_fwd_stream s ++ r) - zlen pre - 4)
    with (zlen (pre ++ put_fwd_stream s ++ r) - (zlen pre + 4)) by lia.
  rewrite IH. by destruct s.
Qed.

Definition cause_ok (e : ErrorCause) : Prop := cause_wf e /\ cause_length e <= 65535.

Lemma zlen_cause_marshal e : zlen (ErrorCause_marshal e) = cause_length e.
Proof. unfold ErrorCause_marshal, cause_length, ERROR_CAUSE_HEADER_LENGTH. zlia. Qed.

Lemma cause_roundtrip e rest : cause_ok e -> ErrorCause_unmarshal (ErrorCause_marshal e ++ rest) = Ok e.
Proof.
  intros [[Hc Hr] Hl]. pose proof (zlen_nonneg (cause_raw e)). pose proof (zlen_nonneg rest).
  unfold cause_length, ERROR_CAUSE_HEADER_LENGTH in Hl.
  unfold ErrorCause_unmarshal. rewrite zlen_app, zlen_cause_marshal.
  unfold cause_length, ERROR_CAUSE_HEADER_LENGTH.
  destruct (Z.ltb_spec (zlen (cause_raw e) + 4 + zlen rest) 4); [lia|].
  unfold ErrorCause_marshal, ERROR_CAUSE_HEADER_LENGTH. rewrite as_u16_id by (unfold is_u16; lia).
  rewrite <- !(assoc_L app).
  rewrite get_put_u16 by done. cbn [mbind outcome_bind].
  rewrite get_put_u16 by (unfold is_u16; lia). cbn [mbind outcome_bind].
  destruct (Z.ltb_spec (zlen (cause_raw e) + 4) 4); [lia|].
  rewrite (slice_app_eq _ (put_u16 (cause_code e) ++ put_u16 (zlen (cause_raw e) + 4)) (cause_raw e) rest)
    by (rewrite <- ?(assoc_L app); autorewrite with zlen; done || lia).
  by destruct e.
Qed.

Lemma causes_loop_roundtrip es pre fuel :
  Forall cause_ok es -> (length es < fuel)%nat ->
  let raw := pre ++ concat (map ErrorCause_marshal es) in
  causes_loop fuel raw (zlen raw) (zlen pre) = Ok es.
Proof.
  intros Hok. revert pre fuel. induction Hok as [|e es He Hes IH]; intros pre [|fuel] Hfuel;
    try (cbn in Hfuel; lia); cbn zeta; cbn [causes_loop map concat].
  { rewrite app_nil_r. case_match; [lia|done]. }
  set (r := concat (map ErrorCause_marshal es)) in *.
  pose proof (zlen_cause_marshal e) as Hz. pose proof (zlen_nonneg (cause_raw e)). pose proof (zlen_nonneg r).
  destruct (Z.leb_spec (zlen pre + 4) (zlen (pre ++ ErrorCause_marshal e ++ r))) as [_|Hlt].
  2: { rewrite !zlen_app, Hz in Hlt. unfold cause_length, ERROR_CAUSE_HEADER_LENGTH in Hlt. lia. }
  rewrite slice_suffix. cbn [mbind outcome_bind]. rewrite cause_roundtrip by done. cbn [mbind outcome_bind].
  specialize (IH (pre ++ ErrorCause_marshal e) fuel ltac:(cbn in *; lia)). cbn zeta in IH.
  rewrite <- (assoc_L app) in IH.
  replace (zlen (pre ++ ErrorCause_marshal e)) with (zlen pre + cause_length e) in IH
    by (rewrite zlen_app; lia).
  by rewrite IH.
Qed.

(** What the wire can carry: the length field fits, a DATA chunk has no sender
    state, an INIT ends in a parameter with a value, a HEARTBEAT holds its one
    Heartbeat Info, a RE-CONFIG has its first parameter, error causes fit. *)
Definition chunk_ok (c : Chunk) : Prop :=
  chunk_wf c /\ chunk_value_length c <= 65535 - CHUNK_HEADER_SIZE /\
  match c with
  | CPayloadData c =>
      c = received_payload (unordered c) (beginning_fragment c) (ending_fragment c) (immediate_sack c)
            (tsn c) (stream_identifier c) (stream_sequence_number c) (payload_type c) (user_data c)
  | CInit c => last_param_nonempty (init_params c)
  | CHeartbeat ps => exists info, ps = [ParamHeartbeatInfo info]
  | CHeartbeatAck _ => False
  | CAbort es | CError es => Forall cause_ok es
  | CReconfig c => is_Some (param_a c)
  | _ => True
  end.

(** The chunk as bytes, from the body its writer produces. *)
Definition chunk_frame (c : Chunk) (b : bytes) : bytes :=
  framed_chunk (chunk_type c) (match c with CPayloadData c => payload_flags c | _ => 0 end) b.

Definition chunk_rt (oc : bool) (c : Chunk) : Prop :=
  exists b, chunk_body oc c = Ok b /\ zlen b = chunk_value_length c /\
            unmarshal_chunk (chunk_type c) (chunk_frame c b) = Ok c.

(** Opens a parser on a framed chunk: the header and the value come back. *)
Ltac framed_open :=
  rewrite ChunkHeader_unmarshal_framed by (try done; unfold is_u8, CHUNK_HEADER_SIZE in *; cbn in *; lia);
  cbn [mbind outcome_bind ch_typ ch_flags ch_value_length Z.eqb Pos.eqb negb orb
       CT_PAYLOAD_DATA CT_INIT CT_INIT_ACK CT_SACK CT_HEARTBEAT CT_ABORT CT_SHUTDOWN CT_SHUTDOWN_ACK
       CT_ERROR CT_COOKIE_ECHO CT_COOKIE_ACK CT_SHUTDOWN_COMPLETE CT_RECONFIG CT_FORWARD_TSN].

Lemma payload_flags_spec c :
  is_u8 (payload_flags c) /\
  negb (Z.land (payload_flags c) 8 =? 0) = immediate_sack c /\
  negb (Z.land (payload_flags c) 4 =? 0) = unordered c /\
  negb (Z.land (payload_flags c) 2 =? 0) = beginning_fragment c /\
  negb (Z.land (payload_flags c) 1 =? 0) = ending_fragment c.
Proof.
  unfold payload_flags, is_u8.
  destruct (ending_fragment c), (beginning_fragment c), (unordered c), (immediate_sack c);
    cbn; split_and!; done || lia.
Qed.

Lemma PPI_roundtrip p : PPI_from_u32 (u32_from_PPI p) = p.
Proof. by destruct p. Qed.

Lemma payload_rt oc c : chunk_ok (CPayloadData c) -> chunk_rt oc (CPayloadData c).
Proof.
  intros ((Ht & Hsid & Hssn & Hd) & Hl & Heq). cbn in Hl. unfold PAYLOAD_DATA_HEADER_SIZE, CHUNK_HEADER_SIZE in Hl.
  eexists; split; [reflexivity|]. split; [cbn [chunk_value_length]; unfold PAYLOAD_DATA_HEADER_SIZE; zlia|].
  set (b := put_u32 _ ++ _). assert (Hb : zlen b = 12 + zlen (user_data c)) by (unfold b; zlia).
  destruct (payload_flags_spec c) as (Hf & Hi & Hu & Hbg & He).
  unfold chunk_frame. change (unmarshal_chunk (chunk_type (CPayloadData c)))
    with (fun buf => CPayloadData <$> ChunkPayloadData_unmarshal buf). cbn beta.
  unfold ChunkPayloadData_unmarshal. cbn [chunk_type]. framed_open.
  rewrite zlen_framed_chunk, chunk_value_framed, Hb.
  pose proof (zlen_nonneg (user_data c)).
  unfold PAYLOAD_DATA_HEADER_SIZE, CHUNK_HEADER_SIZE, PAYLOAD_DATA_IMMEDIATE_SACK,
    PAYLOAD_DATA_UNORDERED_BITMASK, PAYLOAD_DATA_BEGINING_FRAGMENT_BITMASK, PAYLOAD_DATA_ENDING_FRAGMENT_BITMASK.
  do 2 (case_match; [lia|]). cbn [mbind outcome_bind]. rewrite Hi, Hu, Hbg, He.
  eassert (get_u32 (E:=Error) b = Ok (_, _)) as -> by (apply get_put_u32; done). cbn [mbind outcome_bind].
  rewrite get_put_u16 by done. cbn [mbind outcome_bind].
  rewrite get_put_u16 by done. cbn [mbind outcome_bind].
  rewrite get_put_u32 by (destruct (payload_type c); unfold is_u32; cbn; lia). cbn [mbind outcome_bind].
  rewrite (slice_app_eq _ (put_u8 0 ++ put_u8 (payload_flags c) ++ put_u16 (zlen b + 4) ++ put_u32 (tsn c) ++
      put_u16 (stream_identifier c) ++ put_u16 (stream_sequence_number c) ++
      put_u32 (u32_from_PPI (payload_type c))) (user_data c) []).
  - cbn. rewrite PPI_roundtrip, <- Heq. done.
  - rewrite app_nil_r. unfold framed_chunk, b. by rewrite <- !(assoc_L app).
  - zlia.
  - zlia.
Qed.

Lemma get_put_gap g r : gap_wf g -> get_gap (put_gap g ++ r) = Ok (g, r).
Proof.
  intros [Hs He]. unfold get_gap, put_gap. rewrite <- (assoc_L app), get_put_u16 by done.
  cbn [mbind outcome_bind]. rewrite get_put_u16 by done. by destruct g.
Qed.

Lemma zlen_concat_const {A} (f : A -> bytes) k l : (forall x, zlen (f x) = k) -> zlen (concat (map f l)) = zlen l * k.
Proof. intros Hf; induction l as [|x l IH]; cbn [map concat]; [done|]. rewrite zlen_app, Hf, IH, zlen_cons. lia. Qed.

Lemma sack_rt oc c : chunk_ok (CSack c) -> chunk_rt oc (CSack c).
Proof.
  intros ((Hc & Ha & Hg & Hd) & Hl & _). cbn [chunk_value_length] in Hl.
  unfold SELECTIVE_ACK_HEADER_SIZE, CHUNK_HEADER_SIZE in Hl.
  pose proof (zlen_nonneg (gap_ack_blocks c)). pose proof (zlen_nonneg (duplicate_tsn c)).
  eexists; split; [reflexivity|]. set (b := put_u32 _ ++ _).
  assert (Hb : zlen b = 12 + zlen (gap_ack_blocks c) * 4 + zlen (duplicate_tsn c) * 4).
  { unfold b. autorewrite with zlen. rewrite !(zlen_concat_const _ 4) by done. lia. }
  split; [rewrite Hb; done|]. unfold chunk_frame. cbn [chunk_type].
  change (unmarshal_chunk CT_SACK) with (fun buf => CSack <$> ChunkSelectiveAck_unmarshal buf). cbn beta.
  unfold ChunkSelectiveAck_unmarshal. framed_open. rewrite zlen_framed_chunk, chunk_value_framed, Hb.
  unfold SELECTIVE_ACK_HEADER_SIZE, CHUNK_HEADER_SIZE. do 2 (case_match; [lia|]). cbn [mbind outcome_bind].
  eassert (get_u32 (E:=Error) b = Ok (_, _)) as -> by (apply get_put_u32; done). cbn [mbind outcome_bind].
  rewrite get_put_u32 by done. cbn [mbind outcome_bind].
  rewrite get_put_u16 by apply as_u16_range. cbn [mbind outcome_bind].
  rewrite get_put_u16 by apply as_u16_range. cbn [mbind outcome_bind].
  rewrite !as_u16_id by (unfold is_u16; lia).
  do 2 (case_match; [lia|]).
  replace (Z.to_nat (zlen (gap_ack_blocks c))) with (length (gap_ack_blocks c)) by (unfold zlen; lia).
  replace (Z.to_nat (zlen (duplicate_tsn c))) with (length (duplicate_tsn c)) by (unfold zlen; lia).
  rewrite (read_n_write _ gap_wf) by (try done; intros; by apply get_put_gap). cbn [mbind outcome_bind].
  rewrite <- (app_nil_r (concat _)), (read_n_write _ is_u32) by (try done; intros; by apply get_put_u32).
  by destruct c.
Qed.

Lemma params_count ps : 4 * zlen ps <= params_length ps.
Proof.
  induction ps as [|p ps IH]; [done|]. rewrite params_length_cons, zlen_cons.
  pose proof (param_value_length_nonneg p). unfold PARAM_HEADER_LENGTH.
  pose proof (get_padding_size_spec (4 + param_value_length p) ltac:(lia)). destruct ps; lia.
Qed.

Lemma init_chunk_type c :
  let t := chunk_type (CInit c) in
  is_u8 t /\ negb ((t =? CT_INIT) || (t =? CT_INIT_ACK)) = false /\ (t =? CT_INIT_ACK) = is_ack c /\
  forall buf, unmarshal_chunk t buf = CInit <$> ChunkInit_unmarshal buf.
Proof. cbn. destruct (is_ack c); repeat split; vm_compute; congruence. Qed.

(** The whole parameter loop on the INIT that the writer produced. *)
Lemma init_params_framed t c b :
  let fixed := put_u32 (initiate_tag c) ++ put_u32 (init_advertised_receiver_window_credit c) ++
     put_u16 (num_outbound_streams c) ++ put_u16 (num_inbound_streams c) ++ put_u32 (initial_tsn c) in
  Forall param_ok (init_params c) -> last_param_nonempty (init_params c) ->
  b = fixed ++ params_bytes (init_params c) ->
  let n := params_length (init_params c) in
  init_params_loop (S (length (framed_chunk t 0 b))) (framed_chunk t 0 b) (4 + (16 + n)) (4 + 16)
    (4 + (16 + n) - (4 + 16)) = Ok (init_params c).
Proof.
  intros fixed Hp Hlast Hb n. pose proof (zlen_params_bytes (init_params c)) as Hz.
  pose proof (params_count (init_params c)) as Hn.
  set (pre := put_u8 t ++ put_u8 0 ++ put_u16 (zlen b + CHUNK_HEADER_SIZE) ++ fixed).
  assert (Hpre : zlen pre = 20) by reflexivity.
  assert (Hraw : framed_chunk t 0 b = pre ++ params_bytes (init_params c)).
  { unfold framed_chunk, pre. rewrite Hb, <- !(assoc_L app). done. }
  rewrite Hraw. pose proof (init_params_loop_roundtrip (init_params c) pre
    (S (length (pre ++ params_bytes (init_params c)))) Hp Hlast) as Hloop.
  rewrite Hpre in Hloop. replace (4 + (16 + n) - (4 + 16)) with n by lia.
  replace (4 + (16 + n)) with (20 + n) by lia. apply Hloop.
  rewrite length_app. unfold zlen in *. lia.
Qed.

Lemma init_rt oc c : chunk_ok (CInit c) -> chunk_rt oc (CInit c).
Proof.
  intros ((Ht & Ha & Ho & Hi & Hs & Hp) & Hl & Hlast). cbn [chunk_value_length] in Hl. unfold CHUNK_HEADER_SIZE in Hl.
  pose proof (zlen_params_bytes (init_params c)) as Hz. pose proof (zlen_nonneg (params_bytes (init_params c))).
  unfold chunk_rt. cbn [chunk_body]. rewrite params_marshal_Ok by done. cbn [mbind outcome_bind].
  eexists; split; [reflexivity|]. set (b := put_u32 _ ++ _).
  assert (Hb : zlen b = 16 + params_length (init_params c)) by (unfold b; rewrite <- Hz; zlia).
  split; [rewrite Hb; done|]. unfold chunk_frame.
  destruct (init_chunk_type c) as (Ht8 & Hty & Hack & ->). unfold ChunkInit_unmarshal.
  rewrite ChunkHeader_unmarshal_framed by (done || unfold is_u8; lia).
  cbn [mbind outcome_bind ch_typ ch_flags ch_value_length]. rewrite Hty, Hack.
  rewrite zlen_framed_chunk, chunk_value_framed, Hb. unfold INIT_CHUNK_MIN_LENGTH, CHUNK_HEADER_SIZE.
  do 2 (case_match; [lia|]). cbn [negb Z.eqb mbind outcome_bind].
  eassert (get_u32 (E:=Error) b = Ok (_, _)) as -> by (apply get_put_u32; done). cbn [mbind outcome_bind].
  rewrite get_put_u32 by done. cbn [mbind outcome_bind].
  rewrite get_put_u16 by done. cbn [mbind outcome_bind].
  rewrite get_put_u16 by done. cbn [mbind outcome_bind].
  rewrite get_put_u32 by done. cbn [mbind outcome_bind].
  rewrite init_params_framed by (try done; unfold b; by rewrite <- !(assoc_L app)). by destruct c.
Qed.

Lemma forward_tsn_rt oc c : chunk_ok (CForwardTsn c) -> chunk_rt oc (CForwardTsn c).
Proof.
  intros ((Ht & Hs) & Hl & _). cbn [chunk_value_length] in Hl.
  unfold NEW_CUMULATIVE_TSN_LENGTH, FORWARD_TSN_STREAM_LENGTH, CHUNK_HEADER_SIZE in Hl.
  eexists; split; [reflexivity|]. set (ss := concat (map put_fwd_stream (streams c))).
  set (b := put_u32 _ ++ _). pose proof (zlen_nonneg (streams c)).
  assert (Hss : zlen ss = zlen (streams c) * 4) by (by apply zlen_concat_const).
  assert (Hb : zlen b = 4 + 4 * zlen (streams c)) by (unfold b; zlia).
  split; [done|]. unfold chunk_frame. cbn [chunk_type].
  change (unmarshal_chunk CT_FORWARD_TSN) with (fun buf => CForwardTsn <$> ChunkForwardTsn_unmarshal buf). cbn beta.
  unfold ChunkForwardTsn_unmarshal. framed_open. rewrite zlen_framed_chunk, chunk_value_framed, Hb.
  unfold NEW_CUMULATIVE_TSN_LENGTH, CHUNK_HEADER_SIZE. case_match; [lia|]. cbn [mbind outcome_bind].
  eassert (get_u32 (E:=Error) b = Ok (_, _)) as -> by (apply get_put_u32; done). cbn [mbind outcome_bind].
  set (raw := framed_chunk _ _ b). set (pre := put_u8 192 ++ put_u8 0 ++ put_u16 (zlen b + 4) ++ put_u32 (new_cumulative_tsn c)).
  assert (Hraw : raw = pre ++ ss) by (unfold raw, pre, framed_chunk, b; by rewrite <- !(assoc_L app)).
  assert (Hz : zlen raw = 4 + (4 + 4 * zlen (streams c))) by (unfold raw; rewrite zlen_framed_chunk, Hb; done).
  rewrite <- Hz, Hraw. change (4 + 4) with (zlen pre).
  rewrite (fwd_streams_loop_roundtrip (streams c) pre) by (try done; rewrite length_app; unfold zlen in *; lia).
  by destruct c.
Qed.

Lemma causes_rt oc es (mk : list ErrorCause -> Chunk) :
  (mk = CAbort \/ mk = CError) -> chunk_ok (mk es) -> chunk_rt oc (mk es).
Proof.
  intros Hmk (_ & Hl & Hok). set (b := concat (map ErrorCause_marshal es)).
  assert (Hb : zlen b = zsum cause_length es).
  { unfold b, zsum. clear. induction es as [|e es IH]; cbn [map concat foldr]; [done|].
    rewrite zlen_app, zlen_cause_marshal. lia. }
  assert (Hlen : 4 * zlen es <= zlen b).
  { rewrite Hb. unfold zsum. clear. induction es as [|e es IH]; cbn [foldr]; [done|].
    rewrite zlen_cons. pose proof (zlen_nonneg (cause_raw e)). unfold cause_length at 1, ERROR_CAUSE_HEADER_LENGTH. lia. }
  assert (Hoks : Forall cause_ok es) by (destruct Hmk as [-> | ->]; exact Hok).
  assert (Hl' : zlen b <= 65531) by (rewrite Hb; destruct Hmk as [-> | ->]; exact Hl).
  exists b. split; [by destruct Hmk as [-> | ->]|]. split; [by destruct Hmk as [-> | ->]|].
  assert (Hloop : forall t, causes_loop (S (length (framed_chunk t 0 b))) (framed_chunk t 0 b) (4 + zlen b) 4 = Ok es).
  { intros t. change (4 + zlen b) with (CHUNK_HEADER_SIZE + zlen b). rewrite <- (zlen_framed_chunk t 0 b).
    set (pre := put_u8 t ++ put_u8 0 ++ put_u16 (zlen b + CHUNK_HEADER_SIZE)).
    assert (framed_chunk t 0 b = pre ++ b) as -> by (unfold framed_chunk, pre; by rewrite <- !(assoc_L app)).
    apply (causes_loop_roundtrip es pre); [done|]. fold b. rewrite length_app. unfold zlen in *; lia. }
  destruct Hmk as [-> | ->]; unfold chunk_frame; cbn [chunk_type].
  - change (unmarshal_chunk CT_ABORT) with (fun buf => CAbort <$> ChunkAbort_unmarshal buf). cbn beta.
    unfold ChunkAbort_unmarshal. framed_open. unfold CHUNK_HEADER_SIZE. by rewrite Hloop.
  - change (unmarshal_chunk CT_ERROR) with (fun buf => CError <$> ChunkError_unmarshal buf). cbn beta.
    unfold ChunkError_unmarshal. framed_open. unfold CHUNK_HEADER_SIZE. by rewrite Hloop.
Qed.

Lemma reconfig_rt oc c : chunk_ok (CReconfig c) -> chunk_rt oc (CReconfig c).
Proof.
  destruct c as [oa ob]. intros ((Ha & Hb) & Hl & [a Hsome]). cbn in Hsome; subst oa. cbn [param_a param_b from_option] in *.
  pose proof (zlen_param_bytes a) as Hza. pose proof (param_value_length_nonneg a).
  cbn [chunk_value_length] in Hl. unfold reconfig_value_length in Hl; cbn [param_a param_b] in Hl.
  unfold PARAM_HEADER_LENGTH, CHUNK_HEADER_SIZE in *.
  pose proof (get_padding_size_spec (4 + param_value_length a) ltac:(lia)) as [Hpad _].
  set (b := param_bytes a ++ match ob with
             | Some p => zeros (get_padding_size (4 + param_value_length a)) ++ param_bytes p | None => [] end).
  assert (Hbl : zlen b = 4 + param_value_length a + match ob with
             | Some p => 4 + param_value_length p + get_padding_size (4 + param_value_length a) | None => 0 end).
  { unfold b. rewrite zlen_app, Hza. destruct ob as [p|]; [|done].
    rewrite zlen_app, zlen_zeros, zlen_param_bytes. unfold PARAM_HEADER_LENGTH. lia. }
  exists b. split_and!.
  - cbn [chunk_body]. unfold reconfig_body; cbn [param_a param_b]. rewrite param_marshal_Ok by apply Ha.
    cbn [mbind outcome_bind]. destruct ob as [p|]; [|unfold b; by rewrite app_nil_r].
    rewrite param_marshal_Ok by apply Hb. done.
  - rewrite Hbl. done.
  - unfold chunk_frame. cbn [chunk_type].
    change (unmarshal_chunk CT_RECONFIG) with (fun buf => CReconfig <$> ChunkReconfig_unmarshal buf). cbn beta.
    unfold ChunkReconfig_unmarshal. framed_open.
    rewrite chunk_value_framed. cbn [mbind outcome_bind].
    assert (build_param b = Ok a) as -> by (by apply build_param_bytes).
    cbn [mbind outcome_bind]. rewrite Hbl. unfold PARAM_HEADER_LENGTH, CHUNK_HEADER_SIZE.
    destruct ob as [p|].
    2: { case_match; [lia|done]. }
    pose proof (param_value_length_nonneg p). case_match; [|lia].
    rewrite (slice_app_eq _ (put_u8 130 ++ put_u8 0 ++ put_u16 (zlen b + 4) ++ param_bytes a ++
               zeros (get_padding_size (4 + param_value_length a))) (param_bytes p) []).
    + cbn [mbind outcome_bind]. rewrite <- (app_nil_r (param_bytes p)), build_param_bytes by done. done.
    + unfold framed_chunk, b. rewrite app_nil_r, <- !(assoc_L app). done.
    + autorewrite with zlen. rewrite Hza. lia.
    + autorewrite with zlen. rewrite Hza, zlen_param_bytes. unfold PARAM_HEADER_LENGTH. lia.
Qed.

Lemma heartbeat_rt oc ps : chunk_ok (CHeartbeat ps) -> chunk_rt oc (CHeartbeat ps).
Proof.
  intros (Hwf & Hl & [info ->]). cbn [chunk_wf] in Hwf. apply Forall_cons in Hwf as [Hp _].
  set (p := ParamHeartbeatInfo info) in *. pose proof (zlen_param_bytes p) as Hz.
  pose proof (param_value_length_nonneg p). cbn [chunk_value_length] in Hl.
  unfold heartbeat_length, zsum in Hl; cbn [foldr] in Hl. unfold PARAM_HEADER_LENGTH, CHUNK_HEADER_SIZE in *.
  exists (param_bytes p). split_and!.
  - cbn [chunk_body heartbeat_body]. rewrite param_marshal_Ok by apply Hp. cbn [mbind outcome_bind].
    by rewrite app_nil_r.
  - rewrite Hz. cbn [chunk_value_length]. unfold heartbeat_length, zsum; cbn [foldr]. unfold PARAM_HEADER_LENGTH. lia.
  - unfold chunk_frame. cbn [chunk_type].
    change (unmarshal_chunk CT_HEARTBEAT) with (fun buf => CHeartbeat <$> ChunkHeartbeat_unmarshal buf). cbn beta.
    unfold ChunkHeartbeat_unmarshal. framed_open. rewrite zlen_framed_chunk, chunk_value_framed.
    unfold CHUNK_HEADER_SIZE. case_match; [lia|]. cbn [mbind outcome_bind].
    rewrite <- (app_nil_r (param_bytes p)), build_param_bytes by done. done.
Qed.

Lemma fixed_rt oc c :
  match c with CShutdown _ | CShutdownAck | CCookieEcho _ | CCookieAck | CShutdownComplete => True | _ => False end ->
  chunk_ok c -> chunk_rt oc c.
Proof.
  intros Hc (Hwf & Hl & _). unfold CHUNK_HEADER_SIZE in Hl. destruct c; try done; cbn [chunk_value_length] in Hl;
    eexists; (split; [reflexivity|split; [reflexivity|]]); unfold chunk_frame; cbn [chunk_type].
  2,4,5: reflexivity.
  - change (unmarshal_chunk CT_SHUTDOWN) with (fun buf => CShutdown <$> ChunkShutdown_unmarshal buf). cbn beta.
    unfold ChunkShutdown_unmarshal. framed_open. rewrite zlen_framed_chunk, chunk_value_framed.
    unfold CHUNK_HEADER_SIZE. cbn [zlen length put_u32 Z.of_nat Pos.of_succ_nat Pos.succ negb Z.eqb Z.add Pos.add Pos.eqb mbind outcome_bind].
    rewrite <- (app_nil_r (put_u32 _)), get_put_u32 by done. by destruct c.
  - change (unmarshal_chunk CT_COOKIE_ECHO) with (fun buf => CCookieEcho <$> ChunkCookieEcho_unmarshal buf). cbn beta.
    unfold ChunkCookieEcho_unmarshal. framed_open. rewrite chunk_value_framed. by destruct c.
Qed.

Lemma chunk_rt_all oc c : chunk_ok c -> chunk_rt oc c.
Proof.
  intros Hok. destruct c;
    auto using payload_rt, init_rt, sack_rt, heartbeat_rt, reconfig_rt, forward_tsn_rt;
    try (by apply fixed_rt); try (apply causes_rt; auto); by destruct Hok as (_ & _ & []).
Qed.

Lemma chunk_marshal_framed oc c b :
  chunk_body oc c = Ok b -> zlen b = chunk_value_length c -> zlen b <= 65531 ->
  (forall ps, c <> CHeartbeatAck ps) -> chunk_marshal oc c = Ok (chunk_frame c b).
Proof.
  intros Hbody Hlen Hmax Hna. unfold chunk_marshal, ChunkHeader_marshal, add_ovf, chunk_header.
  pose proof (zlen_nonneg b). cbn [ch_typ ch_flags ch_value_length]. rewrite <- Hlen, as_u16_id by (unfold is_u16; lia).
  unfold CHUNK_HEADER_SIZE. destruct (Z.ltb_spec (zlen b + 4) 65536); [|lia].
  destruct c; try (by destruct (Hna params)); cbn [mbind outcome_bind]; rewrite Hbody; done.
Qed.

(** The bytes of a chunk, with what a reader of the packet can see of them. *)
Lemma chunk_encode oc c : chunk_ok c ->
  exists b, chunk_marshal oc c = Ok b /\ exact_cut b /\
    zlen b = CHUNK_HEADER_SIZE + chunk_value_length c /\
    nth 0 b 0 = chunk_type c /\ unmarshal_chunk (chunk_type c) b = Ok c.
Proof.
  intros Hok. destruct (chunk_rt_all oc c Hok) as (b & Hbody & Hlen & Hun).
  destruct Hok as (_ & Hl & Hrep). unfold CHUNK_HEADER_SIZE in Hl.
  exists (chunk_frame c b). split_and!; [|apply exact_cut_framed_chunk; lia| | |done].
  - apply chunk_marshal_framed; [done|done|lia|]. intros ps ->. done.
  - unfold chunk_frame. rewrite zlen_framed_chunk. lia.
  - unfold chunk_frame, framed_chunk; cbn [put_u8 app nth].
    destruct c as [|ci| | | | | | | | | | | |]; try reflexivity. cbn. by destruct (is_ack ci).
Qed.

(** * Properties *)

(** On a buffer cut to the length the chunk declares, every chunk parser
    returns: the value is no longer than the chunk and its fields are in range, or
    it is an error.  The one way to panic is an ABORT or ERROR whose cause
    declares more bytes than the chunk has left. *)
Theorem chunk_parsers_safe ct raw : bytes_ok raw -> exact_cut raw ->
  post_or (unmarshal_chunk ct raw) (chunk_fits raw) (causes_overrun ct raw).
Proof. apply unmarshal_chunk_spec. Qed.

Lemma chunk_parsers_safe_witness :
  post_or (unmarshal_chunk 7 [7; 0; 0; 8; 1; 2; 3; 4]) (chunk_fits [7; 0; 0; 8; 1; 2; 3; 4])
    (causes_overrun 7 [7; 0; 0; 8; 1; 2; 3; 4]).
Proof.
  apply (chunk_parsers_safe 7 [7; 0; 0; 8; 1; 2; 3; 4]).
  - repeat constructor; vm_compute; congruence.
  - split; [vm_compute; congruence|reflexivity].
Defined.

(** Every chunk the wire can carry survives it: [marshal] succeeds with or
    without overflow checks, writes exactly the bytes its length field declares,
    and the parser its type selects gives the chunk back. *)
Theorem chunk_roundtrip oc c : chunk_ok c ->
  exists raw, chunk_marshal oc c = Ok raw /\ exact_cut raw /\
    zlen raw = CHUNK_HEADER_SIZE + chunk_value_length c /\ unmarshal_chunk (chunk_type c) raw = Ok c.
Proof.
  intros Hok. destruct (chunk_encode oc c Hok) as (b & ? & ? & ? & _ & ?). by exists b.
Qed.

Definition witness_reconfig : Chunk :=
  CReconfig {| param_a := Some (ParamOutgoingResetRequest (mkOutgoingResetRequest 1 2 3 [7]));
               param_b := Some (ParamReconfigResponse 9 RR_Denied) |}.

Lemma chunk_roundtrip_witness :
  exists raw, chunk_marshal true witness_reconfig = Ok raw /\ exact_cut raw /\
    zlen raw = CHUNK_HEADER_SIZE + chunk_value_length witness_reconfig /\
    unmarshal_chunk (chunk_type witness_reconfig) raw = Ok witness_reconfig.
Proof.
  apply (chunk_roundtrip true witness_reconfig).
  split; [|split; [vm_compute; congruence|by eexists]].
  repeat constructor; vm_compute; congruence.
Defined.

(** An ABORT chunk of eight bytes whose cause declares nine makes the parser
    panic: the cause length is not compared with the bytes present. *)
Theorem abort_cause_length_panics : unmarshal_chunk CT_ABORT [6; 0; 0; 8; 0; 13; 0; 9] = Panic.
Proof. reflexivity. Qed.

(** An INIT whose last parameter is the value-less Forward-TSN-Supported. *)
Definition init_fwd_last : ChunkInit :=
  {| is_ack := false; initiate_tag := 1; init_advertised_receiver_window_credit := 1500;
     num_outbound_streams := 1; num_inbound_streams := 1; initial_tsn := 7;
     init_params := [ParamSupportedExtensions [130; 192]; ParamForwardTsnSupported] |}.

(** The INIT parser stops while four bytes remain, so a value-less last
    parameter is written by [marshal] and lost by [unmarshal]. *)
Theorem init_loses_valueless_last_param :
  chunk_wf (CInit init_fwd_last) /\
  exists raw, chunk_marshal true (CInit init_fwd_last) = Ok raw /\
    unmarshal_chunk CT_INIT raw =
    Ok (CInit {| is_ack := false; initiate_tag := 1; init_advertised_receiver_window_credit := 1500;
                 num_outbound_streams := 1; num_inbound_streams := 1; initial_tsn := 7;
                 init_params := [ParamSupportedExtensions [130; 192]] |}).
Proof.
  split; [repeat constructor; vm_compute; congruence|].
  eexists; split; [reflexivity|reflexivity].
Qed.
