(* ===== verification/Crc32c.v ===== *)
(** A bitwise CRC-32C (Castagnoli, reflected polynomial), the function the
    [crc32c] crate is documented to compute.  The packet theorems are stated for
    any checksum with the two laws proved here; this instance shows the laws can
    hold, and makes the packet decoders executable on captured packets. *)
From S2P Require Import Prelude.

Definition CASTAGNOLI : Z := 0x82F63B78.
Definition MASK32 : Z := 0xFFFFFFFF.

Definition crc_bit (c : Z) : Z :=
  if Z.odd c then Z.lxor (Z.shiftr c 1) CASTAGNOLI else Z.shiftr c 1.
Definition crc_byte (c b : Z) : Z := Nat.iter 8 crc_bit (Z.lxor c (b mod 256)).
Definition crc_update (c : Z) (l : bytes) : Z := foldl crc_byte c l.

Definition ref_crc32c_append (crc : Z) (l : bytes) : Z :=
  Z.lxor (crc_update (Z.lxor crc MASK32) l) MASK32.
Definition ref_crc32c (l : bytes) : Z := ref_crc32c_append 0 l.

Lemma lxor_u32 x y : is_u32 x -> is_u32 y -> is_u32 (Z.lxor x y).
Proof.
  intros Hx Hy. assert (H0 : 0 <= Z.lxor x y) by (apply Z.lxor_nonneg; unfold_ints; lia).
  split; [done|]. change 4294967296 with (2 ^ 32).
  destruct (Z.lt_ge_cases (Z.lxor x y) (2 ^ 32)) as [|Hge]; [done|exfalso].
  assert (Hl : 32 <= Z.log2 (Z.lxor x y)) by (apply Z.log2_le_pow2; lia).
  assert (Hbit : forall z, is_u32 z -> Z.testbit z (Z.log2 (Z.lxor x y)) = false).
  { intros z Hz. destruct (Z.eq_dec z 0) as [->|]; [apply Z.testbit_0_l|].
    apply Z.bits_above_log2; [unfold_ints; lia|]. eapply Z.lt_le_trans; [|exact Hl].
    apply Z.log2_lt_pow2; unfold_ints; lia. }
  pose proof (Z.bit_log2 (Z.lxor x y) ltac:(lia)) as Hb.
  rewrite Z.lxor_spec, !Hbit in Hb by done. done.
Qed.

Lemma crc_bit_u32 c : is_u32 c -> is_u32 (crc_bit c).
Proof.
  intros Hc. assert (Hs : is_u32 (Z.shiftr c 1)) by (rewrite Z.shiftr_div_pow2 by lia; unfold_ints; mlia).
  unfold crc_bit. case_match; [|done]. apply lxor_u32; [done|]. unfold CASTAGNOLI, is_u32; lia.
Qed.

Lemma crc_byte_u32 c b : is_u32 c -> is_u32 (crc_byte c b).
Proof.
  intros Hc. unfold crc_byte. cbn [Nat.iter]. repeat apply crc_bit_u32.
  apply lxor_u32; [done|]. unfold_ints; mlia.
Qed.

Lemma ref_crc32c_u32 l : is_u32 (ref_crc32c l).
Proof.
  assert (Hm : is_u32 MASK32) by (unfold MASK32, is_u32; lia).
  apply lxor_u32; [|done]. unfold crc_update. generalize (lxor_u32 0 MASK32 ltac:(unfold is_u32; lia) Hm).
  generalize (Z.lxor 0 MASK32). induction l as [|x l IH]; cbn [foldl]; intros c Hc; [done|].
  by apply IH, crc_byte_u32.
Qed.

Lemma ref_crc32c_append_app a b : ref_crc32c_append (ref_crc32c a) b = ref_crc32c (a ++ b).
Proof.
  unfold ref_crc32c, ref_crc32c_append, crc_update.
  rewrite Z.lxor_assoc, Z.lxor_nilpotent, Z.lxor_0_r. by rewrite foldl_app.
Qed.
