(* ===== verification/SctpPacket.v ===== *)
(** SCTP packets ([rtc-sctp/src/packet.rs], checksum from [util.rs]): the two
    decoders ([PartialDecode::unmarshal] followed by [finish], which the endpoint
    uses, and [Packet::unmarshal]), the writer [write_framed] and [check_packet].
    CRC-32C is a parameter: the [crc32c] crate is not part of the sources, and the
    development uses only that its result is a [u32] and that [crc32c_append]
    continues a checksum.  Proved: which inputs can make the decoders panic, that
    they always end, that the two decoders agree, and that they invert the writer. *)
From S2P Require Import Prelude Serial SctpError SctpParam SctpChunk Crc32c.

Definition PACKET_HEADER_SIZE : Z := 12.

Record CommonHeader := mkCommonHeader {
  source_port : Z;
  destination_port : Z;
  verification_tag : Z
}.

Record Packet := mkPacket { common_header : CommonHeader; chunks : list Chunk }.

Record PartialDecode := mkPartialDecode {
  pd_common_header : CommonHeader;
  pd_remaining : bytes;
  first_chunk_type : Z;
  pd_initiate_tag : option Z;
  pd_cookie : option bytes
}.

(** * Decoding *)

Definition slice_chunk (raw : bytes) (offset : Z) : result bytes :=
  hi ← index raw (offset + 2);
  lo ← index raw (offset + 3);
  let chunk_length := hi * 256 + lo in
  if chunk_length <? CHUNK_HEADER_SIZE then Err ErrChunkHeaderInvalidLength
  else if zlen raw <? offset + chunk_length then Err ErrChunkHeaderNotEnoughSpace
  else slice raw offset (offset + chunk_length).

(** The [loop] of [finish] and of [Packet::unmarshal]; every round advances by at
    least a chunk header, so as many rounds as bytes are enough. *)
Fixpoint chunks_loop (fuel : nat) (raw : bytes) (offset : Z) : result (list Chunk) :=
  match fuel with
  | O => Diverge
  | S fuel =>
      if offset =? zlen raw then Ok []
      else if zlen raw <? offset + CHUNK_HEADER_SIZE then Err ErrParseSctpChunkNotEnoughData
      else
        chunk_buf ← slice_chunk raw offset;
        ct ← index raw offset;
        c ← unmarshal_chunk ct chunk_buf;
        let chunk_value_padding := get_padding_size (chunk_value_length c) in
        cs ← chunks_loop fuel raw (offset + (CHUNK_HEADER_SIZE + chunk_value_length c + chunk_value_padding));
        Ok (c :: cs)
  end.

Definition finish (pd : PartialDecode) : result Packet :=
  cs ← chunks_loop (S (length (pd_remaining pd))) (pd_remaining pd) 0;
  Ok {| common_header := pd_common_header pd; chunks := cs |}.

Section packet.
Variable crc32c : bytes -> Z.
Variable crc32c_append : Z -> bytes -> Z.

Definition FOUR_ZEROES : bytes := [0; 0; 0; 0].

Definition generate_packet_checksum (raw : bytes) : result Z :=
  head ← slice raw 0 8;
  let crc := crc32c head in
  let crc := crc32c_append crc FOUR_ZEROES in
  tail ← slice raw 12 (zlen raw);
  Ok (crc32c_append crc tail).

(** The common header and checksum test both decoders start with. *)
Definition read_common_header (raw : bytes) : result (CommonHeader * bytes) :=
  if zlen raw <? PACKET_HEADER_SIZE then Err ErrPacketRawTooSmall
  else
    '(sp, reader) ← get_u16 raw;
    '(dp, reader) ← get_u16 reader;
    '(vt, reader) ← get_u32 reader;
    '(their_checksum, reader) ← get_u32_le reader;
    our_checksum ← generate_packet_checksum raw;
    if negb (their_checksum =? our_checksum) then Err ErrChecksumMismatch
    else Ok ({| source_port := sp; destination_port := dp; verification_tag := vt |}, reader).

Definition PartialDecode_unmarshal (raw : bytes) : result PartialDecode :=
  '(hdr, reader) ← read_common_header raw;
  if zlen reader <? CHUNK_HEADER_SIZE then Err ErrParseSctpChunkNotEnoughData
  else
    header ← ChunkHeader_unmarshal reader;
    reader ← slice reader CHUNK_HEADER_SIZE (zlen reader);
    '(tag, cookie) ←
      (if (ch_typ header =? CT_INIT) || (ch_typ header =? CT_INIT_ACK) then
         '(tag, _) ← get_u32 reader; Ok (Some tag, None)
       else if ch_typ header =? CT_COOKIE_ECHO then
         cookie ← slice raw (PACKET_HEADER_SIZE + CHUNK_HEADER_SIZE)
                            (PACKET_HEADER_SIZE + CHUNK_HEADER_SIZE + ch_value_length header);
         Ok (None, Some cookie)
       else Ok (None, None));
    remaining ← slice raw PACKET_HEADER_SIZE (zlen raw);
    Ok {| pd_common_header := hdr; pd_remaining := remaining; first_chunk_type := ch_typ header;
          pd_initiate_tag := tag; pd_cookie := cookie |}.

Definition Packet_unmarshal (raw : bytes) : result Packet :=
  '(hdr, _) ← read_common_header raw;
  cs ← chunks_loop (S (length raw)) raw PACKET_HEADER_SIZE;
  Ok {| common_header := hdr; chunks := cs |}.

(** * Encoding *)

Definition marshaled_len (p : Packet) : Z :=
  PACKET_HEADER_SIZE +
  zsum (fun c => let n := CHUNK_HEADER_SIZE + chunk_value_length c in n + get_padding_size n) (chunks p).

(** [for c in chunks], appending to [writer]. *)
Fixpoint write_chunks (oc : bool) (chunks_start : Z) (cs : list Chunk) (writer : bytes) : result bytes :=
  match cs with
  | [] => Ok writer
  | c :: cs =>
      m ← chunk_marshal oc c;
      let writer := writer ++ m in
      let padding_needed := get_padding_size (zlen writer - chunks_start) in
      let writer := if negb (padding_needed =? 0) then writer ++ zeros padding_needed else writer in
      write_chunks oc chunks_start cs writer
  end.

(** [writer[a..a + 4].copy_from_slice(..)]. *)
Definition patch4 (writer : bytes) (a : Z) (v : bytes) : result bytes :=
  if (0 <=? a) && (a + 4 <=? zlen writer)
  then Ok (take (Z.to_nat a) writer ++ v ++ drop (Z.to_nat (a + 4)) writer) else Panic.

Definition write_framed (oc : bool) (hdr : CommonHeader) (cs : list Chunk) (writer : bytes) : result bytes :=
  let start := zlen writer in
  let writer := writer ++ put_u16 (source_port hdr) in
  let writer := writer ++ put_u16 (destination_port hdr) in
  let writer := writer ++ put_u32 (verification_tag hdr) in
  let checksum_offset := zlen writer in
  let writer := writer ++ put_u32 0 in
  let chunks_start := zlen writer in
  writer ← write_chunks oc chunks_start cs writer;
  whole ← slice writer start (zlen writer);
  let checksum := crc32c whole in
  patch4 writer checksum_offset (le_bytes_u32 checksum).

Definition Packet_marshal (oc : bool) (p : Packet) : result bytes :=
  write_framed oc (common_header p) (chunks p) [].
End packet.

(** * Validation *)

Fixpoint check_chunks (n : Z) (tag : Z) (cs : list Chunk) : result unit :=
  match cs with
  | [] => Ok tt
  | CInit ci :: cs =>
      if negb (is_ack ci) then
        if negb (n =? 1) then Err ErrInitChunkBundled
        else if negb (tag =? 0) then Err ErrInitChunkVerifyTagNotZero
        else check_chunks n tag cs
      else check_chunks n tag cs
  | _ :: cs => check_chunks n tag cs
  end.

Definition check_packet (p : Packet) : result unit :=
  if source_port (common_header p) =? 0 then Err ErrSctpPacketSourcePortZero
  else if destination_port (common_header p) =? 0 then Err ErrSctpPacketDestinationPortZero
  else check_chunks (zlen (chunks p)) (verification_tag (common_header p)) (chunks p).

(** * The chunk loop *)

Lemma index_Ok raw i : 0 <= i < zlen raw -> index (E:=Error) raw i = Ok (nth (Z.to_nat i) raw 0).
Proof.
  intros Hi. unfold index. destruct (Z.leb_spec 0 i), (Z.ltb_spec i (zlen raw)); try lia; done.
Qed.

Lemma nth_take_drop (l : bytes) n k i : (i < n)%nat -> nth i (take n (drop k l)) 0 = nth (k + i) l 0.
Proof.
  intros Hi. rewrite !nth_lookup. rewrite lookup_take_lt by done. by rewrite lookup_drop.
Qed.

Lemma slice_chunk_spec raw offset :
  bytes_ok raw -> 0 <= offset -> offset + 4 <= zlen raw ->
  post (slice_chunk raw offset) (fun buf =>
    exact_cut buf /\ bytes_ok buf /\ offset + zlen buf <= zlen raw).
Proof.
  intros Hraw Ho Hl. unfold slice_chunk, CHUNK_HEADER_SIZE. rewrite !index_Ok by lia. cbn [mbind outcome_bind].
  set (n := nth (Z.to_nat (offset + 2)) raw 0 * 256 + nth (Z.to_nat (offset + 3)) raw 0).
  do 2 (apply post_if; intros ?; [exact I|]). rewrite slice_Ok by lia. cbn [post].
  set (buf := take _ _). assert (Hb : zlen buf = n) by (unfold buf; zlia).
  split_and!; [split; [lia|]| |lia].
  - rewrite Hb. unfold declared_length, buf. rewrite !nth_take_drop by lia. unfold n.
    f_equal; [f_equal|]; f_equal; lia.
  - by apply Forall_take, Forall_drop.
Qed.

(** Somewhere in the packet an ABORT or ERROR has a cause that overruns it. *)
Definition overrun_in (raw : bytes) : Prop :=
  exists o buf, 0 <= o /\ o + 4 <= zlen raw /\ slice_chunk raw o = Ok buf /\
    causes_overrun (nth (Z.to_nat o) raw 0) buf.

Lemma chunks_loop_spec raw fuel offset :
  bytes_ok raw -> 0 <= offset -> zlen raw - offset < 4 * Z.of_nat fuel -> 0 < Z.of_nat fuel ->
  post_or (chunks_loop fuel raw offset) (Forall chunk_wf) (overrun_in raw).
Proof.
  intros Hraw. revert offset. induction fuel as [|fuel IH]; intros offset Ho Hf Hp; [lia|].
  cbn [chunks_loop]. case_match; [constructor|]. unfold CHUNK_HEADER_SIZE. case_match; [exact I|].
  pose proof (slice_chunk_spec raw offset Hraw Ho ltac:(lia)) as Hs.
  destruct (slice_chunk raw offset) as [buf| | |] eqn:Hbuf; cbn [mbind outcome_bind post post_or] in *; try done.
  destruct Hs as (Hcut & Hbb & Hbl). rewrite index_Ok by lia. cbn [mbind outcome_bind].
  pose proof (unmarshal_chunk_spec (nth (Z.to_nat offset) raw 0) buf Hbb Hcut) as Hc.
  destruct (unmarshal_chunk _ buf) as [c| | |]; cbn [mbind outcome_bind post_or] in *; try done.
  - destruct Hc as (Hc0 & Hc1 & Hwf). pose proof (get_padding_size_spec _ Hc0).
    unfold CHUNK_HEADER_SIZE in *. eapply post_or_bind; [apply IH; lia|].
    intros cs _ Hcs. constructor; auto.
  - exists offset, buf. split_and!; [lia|lia|done|done].
Qed.

(** The loop does not depend on the fuel once it is enough. *)
Lemma chunks_loop_fuel raw fuel fuel' offset :
  chunks_loop fuel raw offset <> Diverge -> (fuel <= fuel')%nat ->
  chunks_loop fuel' raw offset = chunks_loop fuel raw offset.
Proof.
  revert fuel' offset. induction fuel as [|fuel IH]; intros fuel' offset Hd Hle; [by destruct Hd|].
  destruct fuel' as [|fuel']; [lia|]. cbn [chunks_loop] in *.
  repeat case_match; try done.
  destruct (slice_chunk raw offset); cbn [mbind outcome_bind] in *; try done.
  destruct (index raw offset); cbn [mbind outcome_bind] in *; try done.
  destruct (unmarshal_chunk _ _); cbn [mbind outcome_bind] in *; try done.
  rewrite IH; [done| |lia]. intros E; rewrite E in Hd; done.
Qed.

(** The chunks of a packet read from offset [12 + o] of the packet or from offset
    [o] of what follows the header: the same. *)
Lemma index_drop raw k i : 0 <= k <= zlen raw -> 0 <= i -> index (E:=Error) (drop (Z.to_nat k) raw) i = index raw (k + i).
Proof.
  intros Hk Hi. unfold index. rewrite zlen_drop.
  destruct (Z.leb_spec 0 i), (Z.leb_spec 0 (k + i)); try lia. cbn [andb].
  destruct (Z.ltb_spec i (Z.max 0 (zlen raw - Z.of_nat (Z.to_nat k)))), (Z.ltb_spec (k + i) (zlen raw)); try lia; [|done].
  replace (Z.to_nat (k + i)) with (Z.to_nat k + Z.to_nat i)%nat by lia.
  by rewrite !nth_lookup, lookup_drop.
Qed.

Lemma slice_drop raw k a b : 0 <= k <= zlen raw -> 0 <= a ->
  slice (E:=Error) (drop (Z.to_nat k) raw) a b = slice raw (k + a) (k + b).
Proof.
  intros Hk Ha. unfold slice. rewrite zlen_drop.
  destruct (Z.leb_spec 0 a), (Z.leb_spec 0 (k + a)); try lia. cbn [andb].
  destruct (Z.leb_spec a b), (Z.leb_spec (k + a) (k + b)); try lia; cbn [andb]; [|done].
  destruct (Z.leb_spec b (Z.max 0 (zlen raw - Z.of_nat (Z.to_nat k)))), (Z.leb_spec (k + b) (zlen raw)); try lia; [|done].
  rewrite drop_drop. replace (Z.to_nat (k + a)) with (Z.to_nat k + Z.to_nat a)%nat by lia.
  by replace (k + b - (k + a)) with (b - a) by lia.
Qed.

Lemma slice_chunk_drop raw k o : 0 <= k <= zlen raw -> 0 <= o ->
  slice_chunk (drop (Z.to_nat k) raw) o = slice_chunk raw (k + o).
Proof.
  intros Hk Ho. unfold slice_chunk. rewrite !index_drop by lia. rewrite zlen_drop.
  replace (k + (o + 2)) with (k + o + 2) by lia. replace (k + (o + 3)) with (k + o + 3) by lia.
  destruct (index raw (k + o + 2)) as [hi| | |]; cbn [mbind outcome_bind]; try done.
  destruct (index raw (k + o + 3)) as [lo| | |]; cbn [mbind outcome_bind]; try done.
  case_match; [done|]. rewrite slice_drop by lia.
  replace (k + (o + (hi * 256 + lo))) with (k + o + (hi * 256 + lo)) by lia.
  rewrite Z2Nat.id, Z.max_r by lia.
  destruct (Z.ltb_spec (zlen raw - k) (o + (hi * 256 + lo))),
    (Z.ltb_spec (zlen raw) (k + o + (hi * 256 + lo))); done || lia.
Qed.

Lemma chunks_loop_drop fuel raw k o : 0 <= k <= zlen raw -> bytes_ok raw -> 0 <= o ->
  chunks_loop fuel (drop (Z.to_nat k) raw) o = chunks_loop fuel raw (k + o).
Proof.
  intros Hk Hraw. revert o. induction fuel as [|fuel IH]; intros o Ho; [done|]. cbn [chunks_loop].
  rewrite zlen_drop. unfold CHUNK_HEADER_SIZE.
  destruct (Z.eqb_spec o (Z.max 0 (zlen raw - Z.of_nat (Z.to_nat k)))), (Z.eqb_spec (k + o) (zlen raw)); try lia; [done|].
  destruct (Z.ltb_spec (Z.max 0 (zlen raw - Z.of_nat (Z.to_nat k))) (o + 4)), (Z.ltb_spec (zlen raw) (k + o + 4)); try lia; [done|].
  rewrite slice_chunk_drop, index_drop by lia.
  pose proof (slice_chunk_spec raw (k + o) Hraw ltac:(lia) ltac:(lia)) as Hs.
  destruct (slice_chunk raw (k + o)) as [buf| | |]; cbn [mbind outcome_bind post] in *; try done.
  destruct Hs as (Hcut & Hbb & _). destruct (index raw (k + o)) as [ct| | |]; cbn [mbind outcome_bind]; try done.
  pose proof (unmarshal_chunk_spec ct buf Hbb Hcut) as Hc.
  destruct (unmarshal_chunk ct buf) as [c| | |]; cbn [mbind outcome_bind post_or] in *; try done.
  destruct Hc as (Hc0 & _). pose proof (get_padding_size_spec _ Hc0).
  rewrite IH by lia. do 2 f_equal. lia.
Qed.

(** * The decoders *)

Section decoders.
Context (crc32c : bytes -> Z) (crc32c_append : Z -> bytes -> Z).

Local Abbreviation read_header := (read_common_header crc32c crc32c_append).
Local Abbreviation decode_partial := (PartialDecode_unmarshal crc32c crc32c_append).
Local Abbreviation decode_packet := (Packet_unmarshal crc32c crc32c_append).

Definition common_header_wf (h : CommonHeader) : Prop :=
  is_u16 (source_port h) /\ is_u16 (destination_port h) /\ is_u32 (verification_tag h).

Lemma post_read_common_header raw :
  post (read_header raw) (fun hr => 12 <= zlen raw /\ hr.2 = drop 12 raw /\ (bytes_ok raw -> common_header_wf hr.1)).
Proof.
  unfold read_common_header, PACKET_HEADER_SIZE, generate_packet_checksum.
  apply post_if; intros Hl; [exact I|].
  do 12 (destruct raw as [|? raw]; [exfalso; autorewrite with zlen in Hl; lia|]).
  cbn [get_u16 get_u32 get_u32_le mbind outcome_bind]. rewrite !slice_Ok by lia.
  cbn [mbind outcome_bind]. apply post_if; intros _; [exact I|]. cbn [post fst snd]. split_and!; [lia|done|].
  unfold bytes_ok. rewrite !Forall_cons. intros Hb. unfold common_header_wf; cbn. unfold_ints; lia.
Qed.

(** The datagram is an INIT or INIT ACK that stops before its initiate tag. *)
Definition short_init (raw : bytes) : Prop :=
  (nth 12 raw 0 = CT_INIT \/ nth 12 raw 0 = CT_INIT_ACK) /\ 16 <= zlen raw < 20.

Lemma ChunkHeader_unmarshal_typ raw h : ChunkHeader_unmarshal raw = Ok h -> ch_typ h = nth 0 raw 0.
Proof.
  unfold ChunkHeader_unmarshal. case_match; [done|]. destruct raw as [|b0 raw]; [done|].
  cbn [get_u8 mbind outcome_bind]. destruct (get_u8 raw) as [[f r]| | |]; cbn [mbind outcome_bind]; try done.
  destruct (get_u16 r) as [[l r']| | |]; cbn [mbind outcome_bind]; try done.
  repeat case_match; try done; intros [u [_ Hu]]%bind_Ok; by simplify_eq.
Qed.

Lemma PartialDecode_unmarshal_spec raw :
  post_or (decode_partial raw)
    (fun pd => 16 <= zlen raw /\ pd_remaining pd = drop 12 raw /\
               read_header raw = Ok (pd_common_header pd, drop 12 raw) /\ first_chunk_type pd = nth 12 raw 0)
    (short_init raw).
Proof.
  unfold PartialDecode_unmarshal. pose proof (post_read_common_header raw) as Hh.
  destruct (read_header raw) as [[hdr reader]| | |]; cbn [mbind outcome_bind post post_or fst snd] in *; try done.
  destruct Hh as (Hl & -> & _). unfold CHUNK_HEADER_SIZE, PACKET_HEADER_SIZE.
  case_match eqn:H4; [exact I|]. rewrite zlen_drop in H4.
  pose proof (post_ChunkHeader_unmarshal (drop 12 raw)) as Hch.
  destruct (ChunkHeader_unmarshal (drop 12 raw)) as [h| | |] eqn:Hheq; cbn [mbind outcome_bind post post_or] in *; try done.
  destruct Hch as (Hv0 & Hv1 & _). unfold CHUNK_HEADER_SIZE in Hv1. rewrite zlen_drop in Hv1.
  apply ChunkHeader_unmarshal_typ in Hheq. rewrite nth_lookup, lookup_drop, <- nth_lookup in Hheq; cbn in Hheq.
  rewrite (slice_Ok (drop 12 raw) 4) by zlia. cbn [mbind outcome_bind].
  set (r := take _ (drop _ (drop _ _))).
  assert (Hr : zlen r = zlen raw - 16) by (unfold r; zlia).
  rewrite (slice_Ok raw 12 (zlen raw)) by lia.
  assert (Hrem : take (Z.to_nat (zlen raw - 12)) (drop (Z.to_nat 12) raw) = drop 12 raw)
    by (apply take_ge; rewrite length_drop; unfold zlen; lia).
  destruct ((ch_typ h =? CT_INIT) || (ch_typ h =? CT_INIT_ACK)) eqn:Hinit.
  - destruct (Z.le_gt_cases 4 (zlen r)) as [Hge|Hlt].
    + assert (Hg : post ('(tag, _) ← get_u32 (E:=Error) r; Ok (Some tag, @None bytes)) (fun _ => True))
        by (post_step; done).
      eapply post_or_bind; [apply post_or_intro, Hg|].
      intros [tag ck] _ _. cbn. rewrite Hrem. split_and!; [lia|done|done|done].
    + assert (get_u32 (E:=Error) r = Panic) as ->.
      { destruct r as [|? [|? [|? [|? r]]]]; try done. autorewrite with zlen in Hlt. pose proof (zlen_nonneg r). lia. }
      cbn. split; [|lia]. rewrite <- Hheq. lia.
  - assert (Hck : post (if ch_typ h =? CT_COOKIE_ECHO
              then cookie ← slice (E:=Error) raw (12 + 4) (12 + 4 + ch_value_length h); Ok (None, Some cookie)
              else Ok (@None Z, None)) (fun _ => True)).
    { apply post_if; intros; [|exact I]. eapply post_bind; [apply post_slice; lia|]. done. }
    eapply post_or_bind; [apply post_or_intro, Hck|]. intros [tag ck] _ _. cbn.
    rewrite Hrem. split_and!; [lia|done|done|done].
Qed.

Lemma packet_decoders_agree raw pd :
  bytes_ok raw -> decode_partial raw = Ok pd -> finish pd = decode_packet raw.
Proof.
  intros Hraw Hpd. pose proof (PartialDecode_unmarshal_spec raw) as Hs. rewrite Hpd in Hs.
  destruct Hs as (Hl & Hrem & Hhdr & _). unfold finish, Packet_unmarshal. rewrite Hhdr, Hrem. cbn [mbind outcome_bind].
  rewrite (chunks_loop_drop _ raw 12 0) by (done || lia). unfold PACKET_HEADER_SIZE.
  rewrite (chunks_loop_fuel raw (S (length (drop 12 raw))) (S (length raw)) 12); [done| |rewrite length_drop; lia].
  pose proof (chunks_loop_spec raw (S (length (drop 12 raw))) 12 Hraw ltac:(lia)
    ltac:(rewrite length_drop; unfold zlen in *; lia) ltac:(lia)) as Hd.
  intros E. by rewrite E in Hd.
Qed.

Lemma packet_decode_spec raw : bytes_ok raw ->
  post_or (pd ← decode_partial raw; finish pd)
    (fun p => common_header_wf (common_header p) /\ Forall chunk_wf (chunks p))
    (short_init raw \/ overrun_in (drop 12 raw)).
Proof.
  intros Hraw. pose proof (PartialDecode_unmarshal_spec raw) as Hs.
  destruct (decode_partial raw) as [pd| | |]; cbn [mbind outcome_bind post_or] in *; auto.
  destruct Hs as (Hl & Hrem & Hhdr & _). pose proof (post_read_common_header raw) as Hw. rewrite Hhdr in Hw.
  destruct Hw as (_ & _ & Hw). unfold finish. rewrite Hrem.
  assert (Hd : bytes_ok (drop 12 raw)) by (by apply Forall_drop).
  pose proof (chunks_loop_spec (drop 12 raw) (S (length (drop 12 raw))) 0 Hd ltac:(lia)
    ltac:(unfold zlen; lia) ltac:(lia)) as Hc.
  destruct (chunks_loop _ (drop 12 raw) 0); cbn in *; auto.
Qed.
End decoders.

(** * The writer and the round trip *)

(** [bs] is the sequence of chunks [cs], each cut exactly and padded to four bytes. *)
Inductive encodes : list Chunk -> bytes -> Prop :=
| encodes_nil : encodes [] []
| encodes_cons c cs b bs :
    exact_cut b -> zlen b = CHUNK_HEADER_SIZE + chunk_value_length c ->
    nth 0 b 0 = chunk_type c -> unmarshal_chunk (chunk_type c) b = Ok c -> encodes cs bs ->
    encodes (c :: cs) (b ++ zeros (get_padding_size (zlen b)) ++ bs).

Definition chunks_len (cs : list Chunk) : Z :=
  zsum (fun c => let n := CHUNK_HEADER_SIZE + chunk_value_length c in n + get_padding_size n) cs.

Lemma get_padding_size_add a b : a mod 4 = 0 -> get_padding_size (a + b) = get_padding_size b.
Proof. unfold get_padding_size, PADDING_MULTIPLE. intros. mlia. Qed.

Lemma zlen_encodes cs bs : encodes cs bs -> zlen bs = chunks_len cs /\ zlen bs mod 4 = 0.
Proof.
  induction 1 as [|c cs b bs [H4 _] Hlen _ _ _ [IH IHm]]; [done|].
  pose proof (get_padding_size_spec (zlen b) ltac:(lia)) as [Hp Hm].
  rewrite !zlen_app, zlen_zeros. unfold chunks_len in *. rewrite zsum_cons, <- IH, <- Hlen. cbn zeta.
  split; [lia|]. rewrite Z.max_r by lia. mlia.
Qed.

Lemma write_chunks_encodes oc start cs w :
  Forall chunk_ok cs -> (zlen w - start) mod 4 = 0 ->
  exists bs, write_chunks oc start cs w = Ok (w ++ bs) /\ encodes cs bs.
Proof.
  intros Hok. revert w. induction Hok as [|c cs Hc Hcs IH]; intros w Hw.
  { exists []. rewrite app_nil_r. split; [done|constructor]. }
  destruct (chunk_encode oc c Hc) as (b & Hb & Hcut & Hlen & Hty & Hun).
  cbn [write_chunks]. rewrite Hb. cbn [mbind outcome_bind].
  assert (Hpad : get_padding_size (zlen (w ++ b) - start) = get_padding_size (zlen b)).
  { rewrite zlen_app. replace (zlen w + zlen b - start) with ((zlen w - start) + zlen b) by lia.
    by apply get_padding_size_add. }
  rewrite Hpad. set (n := get_padding_size (zlen b)).
  assert (Hn : 0 <= n < 4 /\ (zlen b + n) mod 4 = 0) by (apply get_padding_size_spec, zlen_nonneg).
  assert ((if negb (n =? 0) then (w ++ b) ++ zeros n else w ++ b) = w ++ b ++ zeros n) as ->.
  { destruct (Z.eqb_spec n 0) as [->|]; cbn [negb]; [by rewrite app_nil_r|by rewrite <- (assoc_L app)]. }
  destruct (IH (w ++ b ++ zeros n)) as (bs & Hbs & Henc).
  { rewrite !zlen_app, zlen_zeros, Z.max_r by lia. mlia. }
  exists (b ++ zeros n ++ bs). rewrite Hbs, <- !(assoc_L app). split; [done|by constructor].
Qed.

Lemma chunks_loop_encodes cs bs pre fuel :
  encodes cs bs -> (length cs < fuel)%nat -> chunks_loop fuel (pre ++ bs) (zlen pre) = Ok cs.
Proof.
  intros Henc. revert pre fuel. induction Henc as [|c cs b bs [H4 Hd] Hlen Hty Hun Henc IH];
    intros pre [|fuel] Hf; try (cbn in Hf; lia); cbn [chunks_loop].
  { rewrite app_nil_r, Z.eqb_refl. done. }
  set (pad := zeros _). pose proof (zlen_nonneg pad). pose proof (zlen_nonneg bs). pose proof (zlen_nonneg pre).
  assert (Hz : zlen (pre ++ b ++ pad ++ bs) = zlen pre + zlen b + zlen pad + zlen bs) by (rewrite !zlen_app; lia).
  rewrite Hz. unfold CHUNK_HEADER_SIZE in *. do 2 (case_match; [lia|]).
  assert (Hnth : forall k, (k < length b)%nat -> nth (Z.to_nat (zlen pre + Z.of_nat k)) (pre ++ b ++ pad ++ bs) 0 = nth k b 0).
  { intros k Hk. rewrite app_nth2 by (unfold zlen; lia).
    replace (Z.to_nat (zlen pre + Z.of_nat k) - length pre)%nat with k by (unfold zlen; lia).
    by rewrite app_nth1. }
  assert (slice_chunk (pre ++ b ++ pad ++ bs) (zlen pre) = Ok b) as ->.
  { unfold slice_chunk, CHUNK_HEADER_SIZE. rewrite !index_Ok by lia. cbn [mbind outcome_bind].
    rewrite (Hnth 2%nat : _ -> nth (Z.to_nat (zlen pre + 2)) _ 0 = _),
      (Hnth 3%nat : _ -> nth (Z.to_nat (zlen pre + 3)) _ 0 = _) by (unfold zlen in *; lia). unfold declared_length in Hd. rewrite Hd, Hz.
    do 2 (case_match; [lia|]). apply slice_app. }
  cbn [mbind outcome_bind]. rewrite index_Ok by lia. cbn [mbind outcome_bind].
  specialize (Hnth 0%nat). change (Z.of_nat 0) with 0 in Hnth. rewrite Z.add_0_r in Hnth. rewrite Hnth, Hty, Hun by (unfold zlen in *; lia).
  cbn [mbind outcome_bind].
  specialize (IH (pre ++ b ++ pad) fuel ltac:(cbn in *; lia)). rewrite <- !(assoc_L app) in IH.
  assert (Hoff : zlen (pre ++ b ++ pad) = zlen pre + (4 + chunk_value_length c + get_padding_size (chunk_value_length c))).
  { rewrite !zlen_app. unfold pad. rewrite zlen_zeros, Hlen.
    rewrite (get_padding_size_add 4) by done.
    pose proof (get_padding_size_spec (chunk_value_length c)). unfold get_padding_size, PADDING_MULTIPLE. mlia. }
  rewrite Hoff in IH. by rewrite IH.
Qed.

Lemma length_encodes cs bs : encodes cs bs -> (4 * length cs <= length bs)%nat.
Proof.
  induction 1 as [|c cs b bs [H4 _] _ _ _ _ IH]; [done|]. rewrite !length_app. unfold zlen in H4. cbn; lia.
Qed.

Section roundtrip.
Context (crc32c : bytes -> Z) (crc32c_append : Z -> bytes -> Z).
(** The [crc32c] crate: a 32-bit checksum that can be computed piecewise. *)
Hypothesis crc32c_u32 : forall l, is_u32 (crc32c l).
Hypothesis crc32c_append_app : forall a b, crc32c_append (crc32c a) b = crc32c (a ++ b).

Definition header8 (h : CommonHeader) : bytes :=
  put_u16 (source_port h) ++ put_u16 (destination_port h) ++ put_u32 (verification_tag h).

Definition packet_bytes (h : CommonHeader) (bs : bytes) : bytes :=
  header8 h ++ le_bytes_u32 (crc32c (header8 h ++ FOUR_ZEROES ++ bs)) ++ bs.

Lemma write_framed_Ok oc h cs w : Forall chunk_ok cs ->
  exists bs, encodes cs bs /\ write_framed crc32c oc h cs w = Ok (w ++ packet_bytes h bs).
Proof using Type.
  intros Hok. unfold write_framed. rewrite <- !(assoc_L app).
  set (w0 := w ++ put_u16 _ ++ put_u16 _ ++ put_u32 _ ++ put_u32 0).
  destruct (write_chunks_encodes oc (zlen w0) cs w0 Hok) as (bs & Hw & Henc); [by rewrite Z.sub_diag|].
  exists bs. split; [done|]. rewrite Hw. cbn [mbind outcome_bind].
  assert (Hw0 : w0 ++ bs = w ++ header8 h ++ FOUR_ZEROES ++ bs)
    by (unfold w0, header8; rewrite <- !(assoc_L app); done).
  rewrite Hw0, slice_suffix. cbn [mbind outcome_bind].
  unfold patch4.
  assert (H8 : zlen (w ++ put_u16 (source_port h) ++ put_u16 (destination_port h) ++ put_u32 (verification_tag h))
               = zlen (w ++ header8 h)) by done.
  rewrite H8. pose proof (zlen_nonneg (w ++ header8 h)). pose proof (zlen_nonneg bs).
  assert (Hz : zlen (w ++ header8 h ++ FOUR_ZEROES ++ bs) = zlen (w ++ header8 h) + 4 + zlen bs)
    by (rewrite !zlen_app; change (zlen FOUR_ZEROES) with 4; lia).
  rewrite Hz. destruct (Z.leb_spec 0 (zlen (w ++ header8 h))); [|lia].
  destruct (Z.leb_spec (zlen (w ++ header8 h) + 4) (zlen (w ++ header8 h) + 4 + zlen bs)); [|lia]. cbn [andb].
  replace (Z.to_nat (zlen (w ++ header8 h))) with (length (w ++ header8 h)) by (unfold zlen; lia).
  replace (Z.to_nat (zlen (w ++ header8 h) + 4)) with (length ((w ++ header8 h) ++ FOUR_ZEROES))
    by (rewrite (length_app _ FOUR_ZEROES); unfold zlen; cbn; lia).
  assert (take (length (w ++ header8 h)) (w ++ header8 h ++ FOUR_ZEROES ++ bs) = w ++ header8 h) as ->
    by (rewrite (assoc_L app w); apply take_app_length).
  assert (drop (length ((w ++ header8 h) ++ FOUR_ZEROES)) (w ++ header8 h ++ FOUR_ZEROES ++ bs) = bs) as ->
    by (rewrite (assoc_L app w), (assoc_L app (w ++ _)); apply drop_app_length).
  unfold packet_bytes. by rewrite <- !(assoc_L app).
Qed.

Lemma read_packet_bytes h bs : common_header_wf h ->
  read_common_header crc32c crc32c_append (packet_bytes h bs) = Ok (h, bs).
Proof using crc32c_u32 crc32c_append_app.
  intros (Hs & Hd & Ht). unfold read_common_header.
  assert (Hz : zlen (packet_bytes h bs) = 12 + zlen bs) by (unfold packet_bytes, header8; zlia).
  pose proof (zlen_nonneg bs). rewrite Hz. unfold PACKET_HEADER_SIZE. case_match; [lia|].
  assert (generate_packet_checksum crc32c crc32c_append (packet_bytes h bs)
          = Ok (crc32c (header8 h ++ FOUR_ZEROES ++ bs))) as ->.
  { unfold generate_packet_checksum.
    rewrite (slice_app_eq _ [] (header8 h) (le_bytes_u32 (crc32c (header8 h ++ FOUR_ZEROES ++ bs)) ++ bs) 0 8)
      by reflexivity.
    cbn [mbind outcome_bind].
    rewrite (slice_app_eq _ (header8 h ++ le_bytes_u32 (crc32c (header8 h ++ FOUR_ZEROES ++ bs))) bs [])
      by (rewrite ?app_nil_r; unfold packet_bytes; rewrite <- ?(assoc_L app); zlia || done).
    cbn [mbind outcome_bind]. by rewrite !crc32c_append_app, <- (assoc_L app). }
  unfold packet_bytes, header8. rewrite <- !(assoc_L app).
  rewrite get_put_u16 by done. cbn [mbind outcome_bind]. rewrite get_put_u16 by done. cbn [mbind outcome_bind].
  rewrite get_put_u32 by done. cbn [mbind outcome_bind].
  rewrite get_le_bytes_u32 by apply crc32c_u32. cbn [mbind outcome_bind]. rewrite Z.eqb_refl. by destruct h.
Qed.

(** The endpoint's first look at a packet of our own: it succeeds. *)
Lemma PartialDecode_packet_bytes h c cs bs :
  common_header_wf h -> encodes (c :: cs) bs ->
  (chunk_type c = CT_INIT \/ chunk_type c = CT_INIT_ACK -> 16 <= chunk_value_length c) ->
  exists pd, PartialDecode_unmarshal crc32c crc32c_append (packet_bytes h bs) = Ok pd.
Proof using crc32c_u32 crc32c_append_app.
  intros Hh Henc Hinit. unfold PartialDecode_unmarshal. rewrite read_packet_bytes by done. cbn [mbind outcome_bind].
  inversion Henc as [|? ? b bs' Hcut Hlen Hty Hun Henc' Heq1 Heq2]; subst.
  pose proof Hcut as [H4 _]. set (pad := zeros _).
  assert (Hpad : 0 <= zlen pad < 4).
  { unfold pad. rewrite zlen_zeros. pose proof (get_padding_size_spec (zlen b) ltac:(lia)). lia. }
  pose proof (zlen_encodes _ _ Henc') as [_ Hm]. pose proof (zlen_nonneg bs').
  rewrite (ChunkHeader_unmarshal_app b (pad ++ bs')); [|done|].
  2: { rewrite zlen_app. intros Hlt. assert (zlen bs' = 0) by mlia.
       destruct bs'; [|autorewrite with zlen in *; zlen_pos; lia]. rewrite app_nil_r.
       apply Forall_replicate; done. }
  assert (Hz : zlen (packet_bytes h (b ++ pad ++ bs')) = 12 + zlen b + zlen pad + zlen bs')
    by (unfold packet_bytes, header8; zlia).
  unfold CHUNK_HEADER_SIZE, PACKET_HEADER_SIZE. rewrite !zlen_app. case_match; [lia|].
  cbn [mbind outcome_bind ch_typ ch_value_length]. rewrite Hty.
  rewrite (slice_Ok (b ++ _)) by (rewrite ?zlen_app; lia). cbn [mbind outcome_bind]. set (r := take _ (drop _ (b ++ _))).
  rewrite (slice_Ok _ 12) by lia.
  destruct ((chunk_type c =? CT_INIT) || (chunk_type c =? CT_INIT_ACK)) eqn:Hi.
  - specialize (Hinit ltac:(lia)). unfold CHUNK_HEADER_SIZE in Hlen.
    assert (Hr : 4 <= zlen r) by (unfold r; zlia).
    destruct r as [|? [|? [|? [|? r]]]]; try (autorewrite with zlen in Hr; lia).
    cbn [get_u32 mbind outcome_bind]. by eexists.
  - case_match; [|cbn [mbind outcome_bind]; by eexists].
    rewrite slice_Ok by lia. cbn [mbind outcome_bind]. by eexists.
Qed.
End roundtrip.

(** * Properties *)

Definition packet_ok (p : Packet) : Prop :=
  common_header_wf (common_header p) /\ Forall chunk_ok (chunks p).

(** C31: Whatever the bytes of a datagram, decoding it the way the endpoint does
    ([PartialDecode::unmarshal], then [finish]) ends, and a packet it returns has
    every field in range.  It panics only on an INIT or INIT ACK cut off before its
    initiate tag, or on an ABORT or ERROR with an overrunning cause. *)
Theorem packet_decode_safe crc32c crc32c_append raw : bytes_ok raw ->
  post_or (pd ← PartialDecode_unmarshal crc32c crc32c_append raw; finish pd)
    (fun p => common_header_wf (common_header p) /\ Forall chunk_wf (chunks p))
    (short_init raw \/ overrun_in (drop 12 raw)).
Proof. apply packet_decode_spec. Qed.

(** The two decoders agree: once the endpoint's first look at a datagram
    succeeds, finishing it is the same as decoding the whole with
    [Packet::unmarshal], errors included. *)
Theorem packet_decoders_equivalent crc32c crc32c_append raw pd : bytes_ok raw ->
  PartialDecode_unmarshal crc32c crc32c_append raw = Ok pd ->
  finish pd = Packet_unmarshal crc32c crc32c_append raw.
Proof. apply packet_decoders_agree. Qed.

(** Encoding and decoding of a representable packet. *)
Lemma packet_rt crc32c crc32c_append oc p :
  (forall l, is_u32 (crc32c l)) -> (forall a b, crc32c_append (crc32c a) b = crc32c (a ++ b)) ->
  packet_ok p ->
  exists raw, Packet_marshal crc32c oc p = Ok raw /\ zlen raw = marshaled_len p /\
    Packet_unmarshal crc32c crc32c_append raw = Ok p /\
    (chunks p <> [] ->
     exists pd, PartialDecode_unmarshal crc32c crc32c_append raw = Ok pd /\ finish pd = Ok p).
Proof.
  intros Hu Happ [Hh Hc]. destruct (write_framed_Ok crc32c oc (common_header p) (chunks p) [] Hc) as (bs & Henc & Hw).
  exists (packet_bytes crc32c (common_header p) bs). pose proof (zlen_encodes _ _ Henc) as [Hlen _].
  assert (Hun : Packet_unmarshal crc32c crc32c_append (packet_bytes crc32c (common_header p) bs) = Ok p).
  { unfold Packet_unmarshal. rewrite read_packet_bytes by done. cbn [mbind outcome_bind].
    pose proof (length_encodes _ _ Henc).
    pose proof (chunks_loop_encodes (chunks p) bs
      (header8 (common_header p) ++ le_bytes_u32 (crc32c (header8 (common_header p) ++ FOUR_ZEROES ++ bs)))
      (S (length (packet_bytes crc32c (common_header p) bs))) Henc) as Hl.
    rewrite <- (assoc_L app) in Hl. change (zlen (header8 _ ++ le_bytes_u32 _)) with 12 in Hl.
    unfold PACKET_HEADER_SIZE. unfold packet_bytes at 2. rewrite Hl; [by destruct p|].
    unfold packet_bytes. rewrite !length_app. lia. }
  split_and!; [done| |done|].
  - unfold marshaled_len, packet_bytes, header8, PACKET_HEADER_SIZE. fold (chunks_len (chunks p)). zlia.
  - intros Hne. destruct (chunks p) as [|c cs] eqn:Hcs; [done|].
    destruct (PartialDecode_packet_bytes crc32c crc32c_append Hu Happ (common_header p) c cs bs Hh Henc) as [pd Hpd].
    { intros Hi. destruct c; destruct Hi as [Hi|Hi]; try discriminate Hi; cbn [chunk_value_length];
        pose proof (params_count (init_params c)); zlen_pos; lia. }
    exists pd. split; [done|].
    pose proof (PartialDecode_unmarshal_spec crc32c crc32c_append (packet_bytes crc32c (common_header p) bs)) as Hs.
    rewrite Hpd in Hs. destruct Hs as (_ & Hrem & Hhd & _).
    rewrite read_packet_bytes in Hhd by done. injection Hhd as Hhdr.
    change (drop 12 (packet_bytes _ _ bs)) with bs in Hrem. unfold finish. rewrite Hrem, <- Hhdr. pose proof (length_encodes _ _ Henc).
    rewrite (chunks_loop_encodes _ bs [] _ Henc) by lia. destruct p; cbn in *. by subst.
Qed.

(** C23: A packet of representable chunks (the fields in their widths, the parameters those
    the code writes; [chunk_ok]) survives the wire, for any checksum that is a [u32] and can
    be continued: [marshal] succeeds and writes exactly
    [marshaled_len] bytes, and both decoders give the packet back (the endpoint's
    decoder when there is a chunk to look at). *)
Theorem packet_roundtrip crc32c crc32c_append oc p :
  (forall l, is_u32 (crc32c l)) -> (forall a b, crc32c_append (crc32c a) b = crc32c (a ++ b)) ->
  packet_ok p ->
  exists raw, Packet_marshal crc32c oc p = Ok raw /\ zlen raw = marshaled_len p /\
    Packet_unmarshal crc32c crc32c_append raw = Ok p /\
    (chunks p <> [] ->
     exists pd, PartialDecode_unmarshal crc32c crc32c_append raw = Ok pd /\ finish pd = Ok p).
Proof. apply packet_rt. Qed.

(** The header-only packet of the repository's own test. *)
Definition header_only_packet : bytes :=
  [0x13; 0x88; 0x13; 0x88; 0x00; 0x00; 0x00; 0x00; 0x06; 0xa9; 0x00; 0xe1].

(** It decodes and encodes as that test expects, the reference checksum included. *)
Lemma header_only_packet_test :
  Packet_unmarshal ref_crc32c ref_crc32c_append header_only_packet =
    Ok (mkPacket (mkCommonHeader 5000 5000 0) []) /\
  Packet_marshal ref_crc32c true (mkPacket (mkCommonHeader 5000 5000 0) []) = Ok header_only_packet.
Proof. split; vm_compute; reflexivity. Qed.

(** The INIT packet of the same test. *)
Definition init_test_packet : bytes :=
  [0x13; 0x88; 0x13; 0x88; 0x00; 0x00; 0x00; 0x00; 0x81; 0x46; 0x9d; 0xfc; 0x01; 0x00;
   0x00; 0x56; 0x55; 0xb9; 0x64; 0xa5; 0x00; 0x02; 0x00; 0x00; 0x04; 0x00; 0x08; 0x00;
   0xe8; 0x6d; 0x10; 0x30; 0xc0; 0x00; 0x00; 0x04; 0x80; 0x08; 0x00; 0x09; 0xc0; 0x0f;
   0xc1; 0x80; 0x82; 0x00; 0x00; 0x00; 0x80; 0x02; 0x00; 0x24; 0x9f; 0xeb; 0xbb; 0x5c;
   0x50; 0xc9; 0xbf; 0x75; 0x9c; 0xb1; 0x2c; 0x57; 0x4f; 0xa4; 0x5a; 0x51; 0xba; 0x60;
   0x17; 0x78; 0x27; 0x94; 0x5c; 0x31; 0xe6; 0x5d; 0x5b; 0x09; 0x47; 0xe2; 0x22; 0x06;
   0x80; 0x04; 0x00; 0x06; 0x00; 0x01; 0x00; 0x00; 0x80; 0x03; 0x00; 0x06; 0x80; 0xc1;
   0x00; 0x00].

Lemma init_test_packet_decodes :
  exists p, Packet_unmarshal ref_crc32c ref_crc32c_append init_test_packet = Ok p.
Proof. eexists. vm_compute. reflexivity. Qed.

Lemma packet_decode_safe_witness :
  post_or (pd ← PartialDecode_unmarshal ref_crc32c ref_crc32c_append init_test_packet; finish pd)
    (fun p => common_header_wf (common_header p) /\ Forall chunk_wf (chunks p))
    (short_init init_test_packet \/ overrun_in (drop 12 init_test_packet)).
Proof.
  apply (packet_decode_safe ref_crc32c ref_crc32c_append init_test_packet).
  repeat constructor; vm_compute; congruence.
Defined.

Definition init_test_partial : PartialDecode :=
  {| pd_common_header := mkCommonHeader 5000 5000 0; pd_remaining := drop 12 init_test_packet;
     first_chunk_type := 1; pd_initiate_tag := Some 1438213285; pd_cookie := None |}.

Lemma packet_decoders_equivalent_witness :
  finish init_test_partial = Packet_unmarshal ref_crc32c ref_crc32c_append init_test_packet.
Proof.
  apply (packet_decoders_equivalent ref_crc32c ref_crc32c_append init_test_packet init_test_partial).
  - repeat constructor; vm_compute; congruence.
  - vm_compute. reflexivity.
Defined.

Definition witness_packet : Packet :=
  mkPacket (mkCommonHeader 5000 5000 9) [CCookieAck; CPayloadData (received_payload false true true false 7 1 2 PPI_String [104; 105; 33])].

Lemma packet_roundtrip_witness :
  exists raw, Packet_marshal ref_crc32c true witness_packet = Ok raw /\ zlen raw = marshaled_len witness_packet /\
    Packet_unmarshal ref_crc32c ref_crc32c_append raw = Ok witness_packet /\
    (chunks witness_packet <> [] ->
     exists pd, PartialDecode_unmarshal ref_crc32c ref_crc32c_append raw = Ok pd /\ finish pd = Ok witness_packet).
Proof.
  apply (packet_roundtrip ref_crc32c ref_crc32c_append true witness_packet ref_crc32c_u32 ref_crc32c_append_app).
  split; repeat constructor; vm_compute; congruence.
Defined.

(** A datagram with a right checksum that holds an INIT chunk of header only
    makes the endpoint's decoder panic: the initiate tag is read without a check
    that four bytes remain. *)
Theorem short_init_panics crc32c crc32c_append h :
  (forall l, is_u32 (crc32c l)) -> (forall a b, crc32c_append (crc32c a) b = crc32c (a ++ b)) ->
  common_header_wf h ->
  PartialDecode_unmarshal crc32c crc32c_append (packet_bytes crc32c h [CT_INIT; 0; 0; 4]) = Panic.
Proof.
  intros Hu Happ Hh. unfold PartialDecode_unmarshal. rewrite read_packet_bytes by done. reflexivity.
Qed.

Lemma short_init_panics_witness :
  PartialDecode_unmarshal ref_crc32c ref_crc32c_append
    (packet_bytes ref_crc32c (mkCommonHeader 5000 5000 0) [CT_INIT; 0; 0; 4]) = Panic.
Proof.
  apply (short_init_panics ref_crc32c ref_crc32c_append (mkCommonHeader 5000 5000 0)
           ref_crc32c_u32 ref_crc32c_append_app).
  repeat split; vm_compute; congruence.
Defined.

(** An INIT whose last parameter has no value is not decodable as a packet:
    the decoder steps over the chunk by the length of what it kept, lands on the
    parameter it dropped, and reads it as a (too short) FORWARD TSN chunk. *)
Theorem init_with_valueless_last_param_rejected :
  exists raw, Packet_marshal ref_crc32c true (mkPacket (mkCommonHeader 5000 5000 0) [CInit init_fwd_last]) = Ok raw /\
    Packet_unmarshal ref_crc32c ref_crc32c_append raw = Err ErrChunkTooShort.
Proof. eexists; split; [vm_compute; reflexivity|vm_compute; reflexivity]. Qed.

(** * Validation *)

Definition is_init (c : Chunk) : Prop := exists ci, c = CInit ci /\ is_ack ci = false.

Lemma check_chunks_spec n tag cs :
  check_chunks n tag cs = Ok tt <-> ((exists c, c ∈ cs /\ is_init c) -> n = 1 /\ tag = 0).
Proof.
  induction cs as [|c cs IH]; [split; [intros _ (c & Hc & _); by apply elem_of_nil in Hc|done]|].
  assert (Hskip : ~ is_init c -> (exists d, d ∈ c :: cs /\ is_init d) <-> (exists d, d ∈ cs /\ is_init d)).
  { intros Hn. split; intros (d & Hd & Hi); exists d; set_solver. }
  destruct c as [|ci| | | | | | | | | | | |]; cbn [check_chunks];
    try (rewrite IH, Hskip; [done|intros (? & ? & _); done]).
  destruct (is_ack ci) eqn:Ha; cbn [negb].
  { rewrite IH, Hskip; [done|]. intros (? & Heq & ?). congruence. }
  assert (Hex : exists d, d ∈ CInit ci :: cs /\ is_init d) by (exists (CInit ci); split; [left|by exists ci]).
  destruct (Z.eqb_spec n 1), (Z.eqb_spec tag 0); cbn [negb]; rewrite ?IH; naive_solver.
Qed.

(** [check_packet] accepts a packet exactly when both ports are nonzero and
    an INIT, if there is one, is alone in a packet with verification tag zero.  An
    INIT ACK is not constrained. *)
Theorem check_packet_spec p :
  check_packet p = Ok tt <->
  source_port (common_header p) <> 0 /\ destination_port (common_header p) <> 0 /\
  ((exists c, c ∈ chunks p /\ is_init c) ->
   length (chunks p) = 1%nat /\ verification_tag (common_header p) = 0).
Proof.
  unfold check_packet.
  destruct (Z.eqb_spec (source_port (common_header p)) 0); [naive_solver|].
  destruct (Z.eqb_spec (destination_port (common_header p)) 0); [naive_solver|].
  rewrite check_chunks_spec. unfold zlen.
  replace (Z.of_nat (length (chunks p)) = 1) with (Z.of_nat (length (chunks p)) = Z.of_nat 1) by done.
  rewrite Nat2Z.inj_iff. tauto.
Qed.
