(* ===== verification/PayloadQueue.v ===== *)
(** The payload queue ([rtc-sctp/src/queue/payload_queue.rs]): DATA chunks keyed by
    TSN with their serial order, the receive window of an association and its list
    of chunks in flight.  The receiver's use of it ([association/mod.rs]: the push of
    a DATA chunk and the two loops that advance [peer_last_tsn]) is a step relation.
    Proved: the representation invariant and its preservation, that a TSN is
    accepted at most once over the life of an association, wrap-arounds included,
    and what the gap ack blocks report; the wrap-around they miss is exhibited. *)
From S2P Require Import Prelude Serial SctpError SctpChunk.

(** * The queue *)

Record PayloadQueue := mkPayloadQueue {
  chunk_map : gmap Z ChunkPayloadData;
  sorted : list Z;
  dup_tsn : list Z;
  pq_n_bytes : Z
}.

Definition PayloadQueue_new : PayloadQueue :=
  {| chunk_map := ∅; sorted := []; dup_tsn := []; pq_n_bytes := 0 |}.

Definition contains_key (q : PayloadQueue) (t : Z) : bool := bool_decide (is_Some (chunk_map q !! t)).

Definition insert_sorted (t : Z) (l : list Z) : list Z :=
  insert_at (partition_point (fun x => sna32lt x t) l) t l.

Definition can_push (q : PayloadQueue) (p : ChunkPayloadData) (cumulative_tsn : Z) : bool :=
  negb (contains_key q (tsn p) || sna32lte (tsn p) cumulative_tsn).

(** The byte counter is a [usize] that counts bytes held in memory. *)
Definition push_no_check (q : PayloadQueue) (p : ChunkPayloadData) : PayloadQueue :=
  {| chunk_map := <[tsn p := p]> (chunk_map q);
     sorted := insert_sorted (tsn p) (sorted q);
     dup_tsn := dup_tsn q;
     pq_n_bytes := pq_n_bytes q + zlen (user_data p) |}.

Definition PayloadQueue_push (q : PayloadQueue) (p : ChunkPayloadData) (cumulative_tsn : Z)
  : bool * PayloadQueue :=
  if contains_key q (tsn p) || sna32lte (tsn p) cumulative_tsn then
    (false, {| chunk_map := chunk_map q; sorted := sorted q; dup_tsn := dup_tsn q ++ [tsn p];
               pq_n_bytes := pq_n_bytes q |})
  else
    (true, {| chunk_map := <[tsn p := p]> (chunk_map q);
              sorted := insert_sorted (tsn p) (sorted q);
              dup_tsn := dup_tsn q;
              pq_n_bytes := pq_n_bytes q + zlen (user_data p) |}).

Definition PayloadQueue_pop (oc : bool) (q : PayloadQueue) (t : Z)
  : result (option ChunkPayloadData * PayloadQueue) :=
  match sorted q with
  | front :: rest =>
      if front =? t then
        match chunk_map q !! t with
        | Some c =>
            n ← sub_ovf oc USIZE (pq_n_bytes q) (zlen (user_data c));
            Ok (Some c, {| chunk_map := delete t (chunk_map q); sorted := rest; dup_tsn := dup_tsn q;
                           pq_n_bytes := n |})
        | None =>
            Ok (None, {| chunk_map := chunk_map q; sorted := rest; dup_tsn := dup_tsn q;
                         pq_n_bytes := pq_n_bytes q |})
        end
      else Ok (None, q)
  | [] => Ok (None, q)
  end.

Definition PayloadQueue_get (q : PayloadQueue) (t : Z) : option ChunkPayloadData := chunk_map q !! t.

Definition pop_duplicates (q : PayloadQueue) : list Z * PayloadQueue :=
  (dup_tsn q, {| chunk_map := chunk_map q; sorted := sorted q; dup_tsn := []; pq_n_bytes := pq_n_bytes q |}).

(** The block loop of [get_gap_ack_blocks]; [b] is the block being built, [None]
    before the first TSN. *)
Definition gap_diff (cumulative_tsn t : Z) : Z :=
  if cumulative_tsn <=? t then as_u16 (t - cumulative_tsn) else 0.

Fixpoint gap_loop (oc : bool) (cumulative_tsn : Z) (b : GapAckBlock) (l : list Z)
  : result (list GapAckBlock) :=
  match l with
  | [] => Ok [b]
  | t :: l =>
      let diff := gap_diff cumulative_tsn t in
      next ← add_ovf oc 65536 (gap_end b) 1;
      if next =? diff then gap_loop oc cumulative_tsn {| gap_start := gap_start b; gap_end := next |} l
      else
        bs ← gap_loop oc cumulative_tsn {| gap_start := diff; gap_end := diff |} l;
        Ok (b :: bs)
  end.

Definition get_gap_ack_blocks (oc : bool) (q : PayloadQueue) (cumulative_tsn : Z)
  : result (list GapAckBlock) :=
  if bool_decide (chunk_map q = ∅) then Ok []
  else
    match sorted q with
    | [] => Ok [{| gap_start := 0; gap_end := 0 |}]
    | t :: l =>
        let diff := gap_diff cumulative_tsn t in
        gap_loop oc cumulative_tsn {| gap_start := diff; gap_end := diff |} l
    end.

Definition PayloadQueue_acknowledge (q : PayloadQueue) (t : Z) : bool * PayloadQueue :=
  match chunk_map q !! t with
  | Some c =>
      let '(newly, c) := acknowledge c in
      (newly, {| chunk_map := <[t := c]> (chunk_map q); sorted := sorted q; dup_tsn := dup_tsn q;
                 pq_n_bytes := pq_n_bytes q |})
  | None => (false, q)
  end.

(** [c.user_data.clear()]. *)
Definition clear_user_data (c : ChunkPayloadData) : ChunkPayloadData :=
  {| unordered := unordered c; beginning_fragment := beginning_fragment c;
     ending_fragment := ending_fragment c; immediate_sack := immediate_sack c;
     tsn := tsn c; stream_identifier := stream_identifier c;
     stream_sequence_number := stream_sequence_number c; payload_type := payload_type c;
     user_data := []; acknowledged := acknowledged c; miss_indicator := miss_indicator c;
     since := since c; created_at := created_at c; reliability := reliability c;
     stream_generation := stream_generation c; nsent := nsent c;
     abandoned := abandoned c; retransmit := retransmit c |}.

Definition release_payload (oc : bool) (q : PayloadQueue) (t : Z) : result (Z * PayloadQueue) :=
  match chunk_map q !! t with
  | Some c =>
      let n := zlen (user_data c) in
      nb ← sub_ovf oc USIZE (pq_n_bytes q) n;
      Ok (n, {| chunk_map := <[t := clear_user_data c]> (chunk_map q); sorted := sorted q;
                dup_tsn := dup_tsn q; pq_n_bytes := nb |})
  | None => Ok (0, q)
  end.

Definition get_last_tsn_received (q : PayloadQueue) : option Z := last (sorted q).

Definition mark_to_retransmit (c : ChunkPayloadData) : ChunkPayloadData :=
  if negb (is_outstanding c) then c else set_flags c (acknowledged c) (abandoned c) true.

Definition mark_all_to_retrasmit (q : PayloadQueue) : PayloadQueue :=
  {| chunk_map := mark_to_retransmit <$> chunk_map q; sorted := sorted q; dup_tsn := dup_tsn q;
     pq_n_bytes := pq_n_bytes q |}.

Definition PayloadQueue_len (q : PayloadQueue) : nat := size (chunk_map q).
Definition PayloadQueue_is_empty (q : PayloadQueue) : bool := Nat.eqb (PayloadQueue_len q) 0.

(** * The receiver's use of the queue *)

Record Receiver := mkReceiver { peer_last_tsn : Z; payload_queue : PayloadQueue }.

(** [while self.payload_queue.pop(self.peer_last_tsn + 1).is_some()]. *)
Fixpoint advance_loop (fuel : nat) (oc : bool) (cum : Z) (q : PayloadQueue) : result (Z * PayloadQueue) :=
  match fuel with
  | O => Diverge
  | S fuel =>
      next ← add_ovf oc 4294967296 cum 1;
      '(c, q) ← PayloadQueue_pop oc q next;
      match c with
      | Some _ => cum ← add_ovf oc 4294967296 cum 1; advance_loop fuel oc cum q
      | None => Ok (cum, q)
      end
  end.

Definition advance (oc : bool) (r : Receiver) : result Receiver :=
  '(cum, q) ← advance_loop (S (length (sorted (payload_queue r)))) oc (peer_last_tsn r) (payload_queue r);
  Ok {| peer_last_tsn := cum; payload_queue := q |}.

(** [while sna32lt(self.peer_last_tsn, c.new_cumulative_tsn)] of a FORWARD TSN. *)
Fixpoint forward_loop (fuel : nat) (oc : bool) (new_cum cum : Z) (q : PayloadQueue)
  : result (Z * PayloadQueue) :=
  match fuel with
  | O => Diverge
  | S fuel =>
      if sna32lt cum new_cum then
        next ← add_ovf oc 4294967296 cum 1;
        '(_, q) ← PayloadQueue_pop oc q next;
        cum ← add_ovf oc 4294967296 cum 1;
        forward_loop fuel oc new_cum cum q
      else Ok (cum, q)
  end.

Definition forward (oc : bool) (new_cum : Z) (r : Receiver) : result Receiver :=
  '(cum, q) ← forward_loop (S (Z.to_nat (off32 (peer_last_tsn r) new_cum))) oc new_cum
                (peer_last_tsn r) (payload_queue r);
  Ok {| peer_last_tsn := cum; payload_queue := q |}.

(** * Invariant *)

Definition payload_len (m : gmap Z ChunkPayloadData) (t : Z) : Z :=
  match m !! t with Some c => zlen (user_data c) | None => 0 end.

(** With respect to the cumulative TSN [cum]: the TSNs are strictly increasing in
    serial order and lie in the half window after [cum], they are the keys of the
    map, each key is the TSN of its chunk, and the counter is the bytes held. *)
Record pq_inv (cum : Z) (q : PayloadQueue) : Prop := mkPqInv {
  inv_cum : is_u32 cum;
  inv_ascending : ascending (off32 cum) (sorted q);
  inv_window : Forall (fun t => is_u32 t /\ 0 < off32 cum t <= 2147483648) (sorted q);
  inv_dom : forall t, t ∈ sorted q <-> is_Some (chunk_map q !! t);
  inv_tsn : forall t c, chunk_map q !! t = Some c -> tsn c = t;
  inv_bytes : pq_n_bytes q = zsum (payload_len (chunk_map q)) (sorted q)
}.

Lemma pq_inv_new cum : is_u32 cum -> pq_inv cum PayloadQueue_new.
Proof.
  intros Hc. split; [done|constructor|constructor| |done|done].
  intros t; cbn. rewrite lookup_empty. split; [by intros ?%elem_of_nil|by intros [? ?]].
Qed.

Lemma payload_len_nonneg m t : 0 <= payload_len m t.
Proof. unfold payload_len. case_match; [apply zlen_nonneg|lia]. Qed.

(** The window test of [push] and [can_push]. *)
Lemma not_sna32lte_window cum t : is_u32 cum -> is_u32 t ->
  sna32lte t cum = false <-> 0 < off32 cum t <= 2147483648.
Proof.
  intros Hc Ht. rewrite <- not_true_iff_false, sna32lte_spec by done. unfold off32, is_u32 in *; mlia.
Qed.

Lemma contains_key_spec cum q t : pq_inv cum q -> contains_key q t = true <-> t ∈ sorted q.
Proof. intros Hi. unfold contains_key. rewrite bool_decide_eq_true. symmetry. apply (inv_dom _ _ Hi). Qed.

(** Insertion of an absent TSN of the window. *)
Lemma pq_inv_insert cum q p :
  pq_inv cum q -> is_u32 (tsn p) -> tsn p ∉ sorted q -> 0 < off32 cum (tsn p) <= 2147483648 ->
  pq_inv cum (push_no_check q p).
Proof.
  intros Hi Ht Hnin Hw. destruct Hi as [Hc Ha Hwin Hdom Htsn Hb]. rewrite Forall_forall in Hwin.
  unfold push_no_check, insert_sorted.
  split; cbn [chunk_map sorted pq_n_bytes]; [done| | | | |].
  - apply ascending_insert; [done| |].
    + intros y Hy. destruct (Hwin y Hy). by apply sna32lt_window.
    + intros y Hy E. destruct (Hwin y Hy). apply off32_inj in E; [congruence|done|done].
  - apply Forall_forall. intros t [->|Hin]%elem_of_insert_at; [done|auto].
  - intros t. rewrite elem_of_insert_at, Hdom, lookup_insert_is_Some. destruct (decide (tsn p = t)); naive_solver.
  - intros t c [[<- <-]|[_ ?]]%lookup_insert_Some; auto.
  - rewrite zsum_insert_at, Hb. unfold payload_len at 2. rewrite lookup_insert_eq.
    rewrite (zsum_ext (payload_len (<[tsn p := p]> (chunk_map q))) (payload_len (chunk_map q))); [lia|].
    intros t Hin. unfold payload_len. rewrite lookup_insert_ne; [done|]. congruence.
Qed.

(** [push] decides by membership and window, and keeps the invariant. *)
Lemma PayloadQueue_push_spec cum q p :
  pq_inv cum q -> is_u32 (tsn p) ->
  let '(ok, q') := PayloadQueue_push q p cum in
  pq_inv cum q' /\
  (ok = true <-> (tsn p ∉ sorted q) /\ 0 < off32 cum (tsn p) <= 2147483648) /\
  (forall t, t ∈ sorted q' <-> t ∈ sorted q \/ (ok = true /\ t = tsn p)).
Proof.
  intros Hi Ht. pose proof (contains_key_spec cum q (tsn p) Hi) as Hk.
  pose proof (not_sna32lte_window cum (tsn p) (inv_cum _ _ Hi) Ht) as Hw.
  unfold PayloadQueue_push. destruct (contains_key q (tsn p) || sna32lte (tsn p) cum) eqn:Hc.
  - split_and!; [destruct Hi; by split| |naive_solver]. split; [done|]. intros [Hn Hwin].
    apply orb_true_iff in Hc as [Hc|Hc]; [by apply Hk in Hc|]. apply Hw in Hwin. congruence.
  - apply orb_false_iff in Hc as [Hn Hl]. apply Hw in Hl.
    assert (tsn p ∉ sorted q) by (intros Hin%Hk; congruence).
    split_and!; [by apply (pq_inv_insert cum q p)|naive_solver|].
    intros t. cbn. unfold insert_sorted. rewrite elem_of_insert_at. naive_solver.
Qed.

(** The step from [cum] to [cum + 1]: the distances drop by one. *)
Lemma off32_next cum t : is_u32 cum -> 0 < off32 cum t -> off32 (as_u32 (cum + 1)) t = off32 cum t - 1.
Proof. unfold off32, as_u32, is_u32; intros; mlia. Qed.

(** Moving the cumulative TSN past a number that is not queued. *)
Lemma pq_inv_skip cum q : pq_inv cum q -> as_u32 (cum + 1) ∉ sorted q -> pq_inv (as_u32 (cum + 1)) q.
Proof.
  intros [Hc Ha Hw Hdom Htsn Hb] Hn. rewrite Forall_forall in Hw.
  split; [apply as_u32_range| | |done|done|done].
  - eapply ascending_ext; [|exact Ha]. intros x y Hx Hy Hlt.
    destruct (Hw x Hx), (Hw y Hy). rewrite !off32_next by (done || lia). lia.
  - apply Forall_forall. intros t Ht. destruct (Hw t Ht) as [Hu Ho]. split; [done|].
    rewrite off32_next by (done || lia). enough (off32 cum t <> 1) by lia. intros E. apply Hn.
    replace (as_u32 (cum + 1)) with t; [done|]. unfold off32, as_u32, is_u32 in *; mlia.
Qed.

(** [pop] of the TSN after the cumulative one takes it if it is queued; either way
    the queue is in order for the next cumulative TSN. *)
Lemma pop_next_spec oc cum q :
  pq_inv cum q ->
  let next := as_u32 (cum + 1) in
  exists q', PayloadQueue_pop oc q next = Ok ((chunk_map q !! next), q') /\
    pq_inv next q' /\ (forall t, t ∈ sorted q' <-> t ∈ sorted q /\ t <> next) /\
    (is_Some (chunk_map q !! next) -> S (length (sorted q')) = length (sorted q)) /\
    (chunk_map q !! next = None -> q' = q).
Proof.
  intros Hi next. pose proof Hi as [Hc Ha Hw Hdom Htsn Hb]. rewrite Forall_forall in Hw.
  assert (Hoff : off32 cum next = 1) by (unfold off32, next, as_u32, is_u32 in *; mlia).
  assert (Hnot : next ∉ sorted q -> forall t, t ∈ sorted q <-> t ∈ sorted q /\ t <> next) by naive_solver.
  unfold PayloadQueue_pop. destruct (sorted q) as [|f rest] eqn:Hs.
  { assert (chunk_map q !! next = None) as Hnone by (apply eq_None_not_Some; rewrite <- Hdom; set_solver).
    rewrite Hnone. exists q. split_and!; [done|apply pq_inv_skip; [done|rewrite Hs; set_solver]| |by intros [? ?]|done].
    rewrite Hs. set_solver. }
  apply ascending_cons in Ha as [Ha Hlt]. destruct (Z.eqb_spec f next) as [->|Hne].
  - assert (is_Some (chunk_map q !! next)) as [c Hcq] by (apply Hdom; left). rewrite Hcq.
    rewrite zsum_cons in Hb. unfold payload_len at 1 in Hb. rewrite Hcq in Hb.
    pose proof (zsum_nonneg (payload_len (chunk_map q)) rest (payload_len_nonneg _)).
    rewrite sub_ovf_Ok by lia. cbn [mbind outcome_bind]. eexists. split; [done|].
    assert (Hnr : next ∉ rest) by (intros Hin; specialize (Hlt _ Hin); lia).
    split_and!; cbn [sorted]; [|intros t; rewrite elem_of_cons; naive_solver|done|congruence].
    apply pq_inv_skip; cbn [sorted]; [|done].
    split; cbn [sorted chunk_map pq_n_bytes]; [done|done| | | |].
    + apply Forall_forall. intros t Ht. apply Hw. by right.
    + intros t. rewrite lookup_delete_is_Some, <- Hdom, elem_of_cons. naive_solver.
    + intros t d [_ ?]%lookup_delete_Some. auto.
    + rewrite Hb. replace (_ + _ - _) with (zsum (payload_len (chunk_map q)) rest) by lia.
      apply zsum_ext. intros t Ht. unfold payload_len. rewrite lookup_delete_ne; [done|congruence].
  - assert (Hnin : next ∉ f :: rest).
    { intros [E|Hin]%elem_of_cons; [congruence|]. specialize (Hlt _ Hin).
      destruct (Hw f ltac:(by left)). lia. }
    assert (chunk_map q !! next = None) as -> by (apply eq_None_not_Some; by rewrite <- Hdom).
    exists q. split_and!; [done|apply pq_inv_skip; [done|by rewrite Hs]| |by intros [? ?]|done].
    rewrite Hs. auto.
Qed.

(** The cumulative TSN moved from [cum] over [n] numbers, and the queue kept what
    lies beyond. *)
Definition moved (cum : Z) (q : PayloadQueue) (n cum' : Z) (q' : PayloadQueue) : Prop :=
  0 <= n <= 2147483648 /\ cum' = as_u32 (cum + n) /\ pq_inv cum' q' /\
  (forall t, t ∈ sorted q' <-> t ∈ sorted q /\ n < off32 cum t).

Lemma moved_refl cum q : pq_inv cum q -> moved cum q 0 cum q.
Proof.
  intros Hi. pose proof Hi as [Hc _ Hw _ _ _]. rewrite Forall_forall in Hw. split_and!; [lia|lia| |done|].
  - rewrite Z.add_0_r, as_u32_id; done.
  - intros t. split; [|naive_solver]. intros Ht. destruct (Hw t Ht). split; [done|lia].
Qed.

Lemma off32_as_u32 cum n : is_u32 cum -> 0 <= n < 4294967296 -> off32 cum (as_u32 (cum + n)) = n.
Proof. unfold off32, as_u32, is_u32; intros; mlia. Qed.

Lemma moved_step cum q q1 n cum' q' :
  pq_inv cum q -> 1 + n <= 2147483648 ->
  (forall t, t ∈ sorted q1 <-> t ∈ sorted q /\ t <> as_u32 (cum + 1)) ->
  moved (as_u32 (cum + 1)) q1 n cum' q' -> moved cum q (1 + n) cum' q'.
Proof.
  intros [Hc _ Hw _ _ _] Hn Hq1 (Hn' & -> & Hi' & Hq'). rewrite Forall_forall in Hw.
  split_and!; [lia|lia| |done|].
  - unfold as_u32. rewrite Zplus_mod_idemp_l. f_equal. lia.
  - intros t. rewrite Hq', Hq1. split.
    + intros [[Ht Hne] Hlt]. destruct (Hw t Ht). rewrite off32_next in Hlt by (done || lia). split; [done|lia].
    + intros [Ht Hlt]. destruct (Hw t Ht). rewrite off32_next by (done || lia). split_and!; [done| |lia].
      intros ->. rewrite off32_as_u32 in Hlt by (done || lia). lia.
Qed.

Lemma add_ovf_wrap cum : is_u32 cum -> add_ovf (E:=Error) false 4294967296 cum 1 = Ok (as_u32 (cum + 1)).
Proof.
  intros Hc. unfold add_ovf, as_u32, is_u32 in *.
  destruct (Z.ltb_spec (cum + 1) 4294967296); f_equal; mlia.
Qed.

(** The advance loop stops right before the first TSN that is missing. *)
Lemma advance_loop_spec fuel cum q :
  pq_inv cum q -> (length (sorted q) < fuel)%nat ->
  exists n cum' q', advance_loop fuel false cum q = Ok (cum', q') /\ moved cum q n cum' q' /\
    (forall i, 1 <= i <= n -> as_u32 (cum + i) ∈ sorted q) /\ as_u32 (cum' + 1) ∉ sorted q'.
Proof.
  revert cum q. induction fuel as [|fuel IH]; intros cum q Hi Hf; [lia|]. cbn [advance_loop].
  pose proof (inv_cum _ _ Hi) as Hc. rewrite add_ovf_wrap by done. cbn [mbind outcome_bind].
  destruct (pop_next_spec false cum q Hi) as (q1 & -> & Hi1 & Hq1 & Hl & Hsame). cbn [mbind outcome_bind].
  destruct (chunk_map q !! as_u32 (cum + 1)) as [c|] eqn:Hm.
  - assert (Hin : as_u32 (cum + 1) ∈ sorted q) by (apply (inv_dom _ _ Hi); by rewrite Hm).
    specialize (Hl ltac:(by eexists)).
    destruct (IH (as_u32 (cum + 1)) q1 Hi1 ltac:(lia)) as (n & cum' & q' & -> & Hmv & Hall & Hstop).
    pose proof Hmv as (Hn & Hcum' & _).
    assert (Hsucc : forall i, as_u32 (as_u32 (cum + 1) + i) = as_u32 (cum + (1 + i)))
      by (intros i; unfold as_u32; rewrite Zplus_mod_idemp_l; f_equal; lia).
    assert (Hall' : forall i, 1 <= i <= 1 + n -> as_u32 (cum + i) ∈ sorted q).
    { intros i Hi'. destruct (Z.eq_dec i 1) as [->|]; [done|].
      specialize (Hall (i - 1) ltac:(lia)). rewrite Hsucc in Hall. replace (1 + (i - 1)) with i in Hall by lia.
      by apply Hq1 in Hall as [? _]. }
    assert (Hbound : 1 + n <= 2147483648).
    { pose proof (inv_window _ _ Hi) as Hw. rewrite Forall_forall in Hw.
      destruct (Hw _ (Hall' (1 + n) ltac:(lia))) as [_ Ho]. rewrite off32_as_u32 in Ho by (done || lia). lia. }
    exists (1 + n), cum', q'. split_and!; [done|by eapply moved_step|done|done].
  - assert (Hnin : as_u32 (cum + 1) ∉ sorted q) by (rewrite (inv_dom _ _ Hi), Hm; by intros [? ?]).
    rewrite (Hsame eq_refl). exists 0, cum, q. split_and!; [done|by apply moved_refl|lia|done].
Qed.

(** A FORWARD TSN moves the cumulative TSN to the one it names. *)
Lemma forward_loop_spec fuel new_cum cum q :
  pq_inv cum q -> is_u32 new_cum -> off32 cum new_cum < 2147483648 -> off32 cum new_cum < Z.of_nat fuel ->
  exists q', forward_loop fuel false new_cum cum q = Ok (new_cum, q') /\
    moved cum q (off32 cum new_cum) new_cum q'.
Proof.
  revert cum q. induction fuel as [|fuel IH]; intros cum q Hi Hu Hlt Hf;
    pose proof (off32_range cum new_cum); [lia|]. cbn [forward_loop].
  pose proof (inv_cum _ _ Hi) as Hc. destruct (sna32lt cum new_cum) eqn:Hs.
  - apply sna32lt_spec in Hs; [|done|done]. rewrite add_ovf_wrap by done. cbn [mbind outcome_bind].
    destruct (pop_next_spec false cum q Hi) as (q1 & -> & Hi1 & Hq1 & _). cbn [mbind outcome_bind].
    pose proof (off32_next cum new_cum Hc ltac:(lia)) as Hoff.
    destruct (IH (as_u32 (cum + 1)) q1 Hi1 Hu ltac:(lia) ltac:(lia)) as (q' & -> & Hmv).
    exists q'. split; [done|]. rewrite Hoff in Hmv.
    replace (off32 cum new_cum) with (1 + (off32 cum new_cum - 1)) by lia.
    eapply moved_step; [done|lia|done|done].
  - assert (Ho : off32 cum new_cum = 0).
    { destruct (Z.eq_dec (off32 cum new_cum) 0); [done|].
      rewrite (proj2 (sna32lt_spec cum new_cum Hc Hu)) in Hs by lia. done. }
    assert (new_cum = cum) as -> by (unfold off32, is_u32 in *; mlia).
    exists q. split; [done|]. rewrite Ho. by apply moved_refl.
Qed.

(** * Runs of the receiver *)

(** What happens to the receive window: a DATA chunk, the advance after it, a
    FORWARD TSN that is not out of date, a SACK that reports the duplicates.  The
    label is the TSN the step accepted. *)
Inductive recv_step : Receiver -> option Z -> Receiver -> Prop :=
| step_data r p ok q :
    is_u32 (tsn p) -> PayloadQueue_push (payload_queue r) p (peer_last_tsn r) = (ok, q) ->
    recv_step r (if ok then Some (tsn p) else None) {| peer_last_tsn := peer_last_tsn r; payload_queue := q |}
| step_advance r r' : advance false r = Ok r' -> recv_step r None r'
| step_forward r new_cum r' :
    is_u32 new_cum -> sna32lte new_cum (peer_last_tsn r) = false ->
    forward false new_cum r = Ok r' -> recv_step r None r'
| step_sack r dups q :
    pop_duplicates (payload_queue r) = (dups, q) ->
    recv_step r None {| peer_last_tsn := peer_last_tsn r; payload_queue := q |}.

(** A run from an initial TSN.  [N] counts TSNs without wrapping, so that [N] mod
    2^32 is [peer_last_tsn]; the history lists the unwrapped numbers accepted. *)
Inductive recv_run (tsn0 : Z) : Receiver -> Z -> list Z -> Prop :=
| run_init : is_u32 tsn0 -> recv_run tsn0 (mkReceiver tsn0 PayloadQueue_new) tsn0 []
| run_step r N H a r' :
    recv_run tsn0 r N H -> recv_step r a r' ->
    recv_run tsn0 r' (N + off32 (peer_last_tsn r) (peer_last_tsn r'))
      (match a with Some t => (N + off32 (peer_last_tsn r) t) :: H | None => H end).

Lemma advance_moved r r' : pq_inv (peer_last_tsn r) (payload_queue r) -> advance false r = Ok r' ->
  exists n, moved (peer_last_tsn r) (payload_queue r) n (peer_last_tsn r') (payload_queue r').
Proof.
  intros Hi Ha. unfold advance in Ha.
  destruct (advance_loop_spec _ _ _ Hi (Nat.lt_succ_diag_r _)) as (n & cum' & q' & E & Hm & _).
  rewrite E in Ha. cbn in Ha. simplify_eq. by exists n.
Qed.

Lemma forward_moved r new_cum r' :
  pq_inv (peer_last_tsn r) (payload_queue r) -> is_u32 new_cum ->
  sna32lte new_cum (peer_last_tsn r) = false -> forward false new_cum r = Ok r' ->
  exists n, moved (peer_last_tsn r) (payload_queue r) n (peer_last_tsn r') (payload_queue r').
Proof.
  intros Hi Hu Hl Hf. pose proof (inv_cum _ _ Hi) as Hc. apply not_sna32lte_window in Hl; [|done|done].
  unfold forward in Hf. destruct (Z.eq_dec (off32 (peer_last_tsn r) new_cum) 2147483648) as [Hedge|Hne].
  - cbn [forward_loop] in Hf.
    assert (sna32lt (peer_last_tsn r) new_cum = false) as Hs
      by (apply not_true_iff_false; rewrite sna32lt_spec by done; lia).
    rewrite Hs in Hf. cbn in Hf. simplify_eq. exists 0. by apply moved_refl.
  - destruct (forward_loop_spec (S (Z.to_nat (off32 (peer_last_tsn r) new_cum))) new_cum _ _ Hi Hu ltac:(lia) ltac:(lia))
      as (q' & E & Hm). rewrite E in Hf. cbn in Hf. simplify_eq. by eexists.
Qed.

(** The history against the window: what was accepted is behind the cumulative
    TSN or still queued. *)
Definition history_ok (N : Z) (H : list Z) (r : Receiver) : Prop :=
  peer_last_tsn r = as_u32 N /\ NoDup H /\
  (forall h, h ∈ H -> h <= N \/ (h <= N + 2147483648 /\ as_u32 h ∈ sorted (payload_queue r))).

Lemma history_moved N H r r' n :
  history_ok N H r -> moved (peer_last_tsn r) (payload_queue r) n (peer_last_tsn r') (payload_queue r') ->
  history_ok (N + off32 (peer_last_tsn r) (peer_last_tsn r')) H r'.
Proof.
  intros (HN & Hnd & Hh) (Hn & Hcum & Hi' & Hq).
  assert (Hoff : off32 (peer_last_tsn r) (peer_last_tsn r') = n).
  { rewrite Hcum. apply off32_as_u32; [rewrite HN; apply as_u32_range|lia]. }
  rewrite Hoff. split_and!; [|done|].
  - rewrite Hcum, HN. unfold as_u32. by rewrite Zplus_mod_idemp_l.
  - intros h Hin. destruct (Hh h Hin) as [?|[Hle Hs]]; [left; lia|].
    destruct (Z.le_gt_cases h (N + n)) as [?|Hgt]; [by left|right]. split; [lia|].
    apply Hq. split; [done|]. rewrite HN. unfold off32, as_u32. mlia.
Qed.

Lemma recv_run_inv tsn0 r N H : recv_run tsn0 r N H ->
  pq_inv (peer_last_tsn r) (payload_queue r) /\ history_ok N H r.
Proof.
  induction 1 as [Hu|r N H a r' Hrun [Hi Hh] Hstep].
  { split; [by apply pq_inv_new|]. split_and!; [by rewrite as_u32_id|constructor|]. by intros h ?%elem_of_nil. }
  pose proof (inv_cum _ _ Hi) as Hc.
  destruct Hstep as [r p ok q Hu Hp|r r' Ha|r new_cum r' Hu Hl Hf|r dups q Hd].
  - pose proof (PayloadQueue_push_spec _ _ p Hi Hu) as Hs. rewrite Hp in Hs. destruct Hs as (Hi' & Hok & Hq).
    cbn [peer_last_tsn payload_queue]. split; [done|]. destruct Hh as (HN & Hnd & Hh).
    unfold off32 at 1. rewrite Z.sub_diag, Zmod_0_l, Z.add_0_r.
    assert (Hold : forall h, h ∈ H -> h <= N \/ (h <= N + 2147483648 /\ as_u32 h ∈ sorted q)).
    { intros h Hin. destruct (Hh h Hin) as [?|[? Hs]]; [by left|right]. rewrite Hq. auto. }
    destruct ok; [|by split_and!]. destruct (proj1 Hok eq_refl) as [Hnin Hw].
    assert (Has : as_u32 (N + off32 (peer_last_tsn r) (tsn p)) = tsn p).
    { rewrite HN. unfold off32, as_u32, is_u32 in *. mlia. }
    split_and!; [done| |].
    + constructor; [|done]. intros [?|[_ Hs]]%Hh; [lia|]. rewrite Has in Hs. done.
    + intros h [->|Hin]%elem_of_cons; [|auto]. right. split; [lia|]. rewrite Has, Hq. auto.
  - destruct (advance_moved _ _ Hi Ha) as [n Hm]. split; [apply Hm|by eapply history_moved].
  - destruct (forward_moved _ _ _ Hi Hu Hl Hf) as [n Hm]. split; [apply Hm|by eapply history_moved].
  - unfold pop_duplicates in Hd. simplify_eq. cbn [peer_last_tsn payload_queue].
    unfold off32 at 1. rewrite Z.sub_diag, Zmod_0_l, Z.add_0_r. split; [by destruct Hi|done].
Qed.

(** * Gap ack blocks *)

(** The offsets a block list reports. *)
Definition in_blocks (k : Z) (bs : list GapAckBlock) : Prop :=
  exists b, b ∈ bs /\ gap_start b <= k <= gap_end b.

(** Non-empty blocks in increasing order with at least one missing TSN between them. *)
Definition blocks_separated (bs : list GapAckBlock) : Prop :=
  Forall (fun b => gap_start b <= gap_end b) bs /\
  StronglySorted (fun b b' => gap_end b + 1 < gap_start b') bs.

(** The TSNs above [cum] and at most a [u16] away, without wrap-around. *)
Definition near (cum : Z) (t : Z) : Prop := 0 <= t - cum <= 65535.

Lemma gap_diff_near cum t : near cum t -> gap_diff cum t = t - cum.
Proof.
  unfold near, gap_diff. intros Ht. destruct (Z.leb_spec cum t); [|lia].
  apply as_u16_id. unfold is_u16; lia.
Qed.

Lemma gap_loop_spec oc cum l b :
  ascending (fun t => t) l -> Forall (near cum) l -> gap_start b <= gap_end b ->
  (forall t, t ∈ l -> cum + gap_end b < t) ->
  exists bs, gap_loop oc cum b l = Ok bs /\ blocks_separated bs /\
    (forall k, in_blocks k bs <-> gap_start b <= k <= gap_end b \/ cum + k ∈ l) /\
    Forall (fun b' => gap_start b <= gap_start b') bs.
Proof.
  revert b. induction l as [|t l IH]; intros b Ha Hn Hb Hlt; cbn [gap_loop].
  { exists [b]. split_and!; [done| | |by constructor].
    - split; [by constructor|repeat constructor].
    - intros k. unfold in_blocks. split.
      + intros (g & Hg & Hk). apply list_elem_of_singleton in Hg as ->. by left.
      + intros [Hk|Hk]; [|by apply elem_of_nil in Hk]. exists b. split; [left|done]. }
  apply ascending_cons in Ha as [Ha Hmin]. apply Forall_cons in Hn as [Ht Hn].
  pose proof (Hlt t ltac:(by left)) as Hbt. rewrite (gap_diff_near cum t) by done.
  unfold near in Ht. rewrite add_ovf_Ok by lia. cbn [mbind outcome_bind].
  destruct (Z.eqb_spec (gap_end b + 1) (t - cum)) as [E|Hne].
  - destruct (IH {| gap_start := gap_start b; gap_end := gap_end b + 1 |} Ha Hn) as (bs & Hbs & Hsep & Hin & Hge);
      cbn [gap_start gap_end] in *; [lia|intros u Hu; specialize (Hmin u Hu); lia|].
    exists bs. split_and!; [done|done| |done]. intros k. rewrite Hin, elem_of_cons.
    split; [|intros [?|[?|?]]; [left; lia|left; lia|by right]].
    intros [Hk|?]; [|auto]. destruct (Z.eq_dec k (t - cum)); [right; left; lia|left; lia].
  - destruct (IH {| gap_start := t - cum; gap_end := t - cum |} Ha Hn) as (bs & Hbs & Hsep & Hin & Hge);
      cbn [gap_start gap_end] in *; [lia|intros u Hu; specialize (Hmin u Hu); lia|].
    rewrite Hbs. cbn [mbind outcome_bind]. exists (b :: bs). destruct Hsep as [Hne' Hss]. split_and!; [done| | |].
    + split; constructor; [done|done|done|]. eapply Forall_impl; [exact Hge|]. cbn; lia.
    + intros k. unfold in_blocks in *. setoid_rewrite elem_of_cons. specialize (Hin k).
      split.
      * intros (g & [->|Hg] & Hk); [by left|]. assert (exists b0, b0 ∈ bs /\ gap_start b0 <= k <= gap_end b0) as Hex by eauto.
        apply Hin in Hex as [?|?]; [right; left; lia|auto].
      * intros [Hk|[Hk|Hk]]; [exists b; auto| |].
        -- assert (t - cum <= k <= t - cum \/ cum + k ∈ l) as Hd by (left; lia). apply Hin in Hd as (g & ? & ?). eauto.
        -- assert (t - cum <= k <= t - cum \/ cum + k ∈ l) as Hd by auto. apply Hin in Hd as (g & ? & ?). eauto.
    + constructor; [lia|]. eapply Forall_impl; [exact Hge|]. cbn; lia.
Qed.

Lemma near_ascending cum l :
  is_u32 cum -> Forall (fun t => is_u32 t /\ 0 < off32 cum t <= 2147483648) l -> Forall (near cum) l ->
  ascending (off32 cum) l -> ascending (fun t => t) l.
Proof.
  intros Hc Hw Hn. apply ascending_ext. intros x y Hx Hy. rewrite Forall_forall in Hw, Hn.
  pose proof (Hw x Hx). pose proof (Hw y Hy). specialize (Hn x Hx) as H1. specialize (Hn y Hy) as H2.
  unfold near, off32, is_u32 in *. mlia.
Qed.

(** * The sender's operations *)

(** An update of chunks that keeps TSNs and data keeps the invariant. *)
Lemma pq_inv_map_update cum q m dups :
  pq_inv cum q ->
  (forall t, match chunk_map q !! t, m !! t with
             | Some c, Some c' => tsn c' = tsn c /\ user_data c' = user_data c
             | None, None => True | _, _ => False end) ->
  pq_inv cum {| chunk_map := m; sorted := sorted q; dup_tsn := dups; pq_n_bytes := pq_n_bytes q |}.
Proof.
  intros [Hc Ha Hw Hdom Htsn Hb] Hm. split; cbn [chunk_map sorted pq_n_bytes]; [done|done|done| | |].
  - intros t. rewrite Hdom. specialize (Hm t). unfold is_Some. destruct (chunk_map q !! t), (m !! t); naive_solver.
  - intros t c E. specialize (Hm t). rewrite E in Hm. destruct (chunk_map q !! t) as [c0|] eqn:E0; [|done].
    destruct Hm as [-> _]. auto.
  - rewrite Hb. apply zsum_ext. intros t _. unfold payload_len. specialize (Hm t).
    destruct (chunk_map q !! t), (m !! t); try done. by destruct Hm as [_ ->].
Qed.

Lemma acknowledge_inv cum q t : pq_inv cum q -> pq_inv cum (PayloadQueue_acknowledge q t).2.
Proof.
  intros Hi. unfold PayloadQueue_acknowledge. destruct (chunk_map q !! t) as [c|] eqn:Hc; [|done]. cbn [acknowledge snd].
  apply pq_inv_map_update; [done|]. intros u. destruct (decide (t = u)) as [<-|Hne].
  - rewrite Hc, lookup_insert_eq. done.
  - rewrite lookup_insert_ne by done. by destruct (chunk_map q !! u).
Qed.

Lemma mark_all_inv cum q : pq_inv cum q -> pq_inv cum (mark_all_to_retrasmit q).
Proof.
  intros Hi. apply pq_inv_map_update; [done|]. intros t. rewrite lookup_fmap.
  destruct (chunk_map q !! t) as [c|]; cbn; [|done]. unfold mark_to_retransmit. by case_match.
Qed.

Lemma zsum_update {A} `{EqDecision A} (f g : A -> Z) l x :
  NoDup l -> x ∈ l -> (forall y, y <> x -> f y = g y) -> zsum g l = zsum f l - f x + g x.
Proof.
  intros Hnd Hx Hfg. induction Hnd as [|y l Hy Hnd IH]; [by apply elem_of_nil in Hx|]. rewrite !zsum_cons.
  destruct (decide (x = y)) as [<-|Hne].
  - rewrite (zsum_ext f g l); [lia|]. intros z Hz. apply Hfg. congruence.
  - apply elem_of_cons in Hx as [?|Hx]; [done|]. rewrite IH, (Hfg y) by done. lia.
Qed.

Lemma release_payload_inv oc cum q t : pq_inv cum q ->
  exists q', release_payload oc q t = Ok (payload_len (chunk_map q) t, q') /\ pq_inv cum q' /\
    payload_len (chunk_map q') t = 0 /\ pq_n_bytes q' = pq_n_bytes q - payload_len (chunk_map q) t.
Proof.
  intros Hi. pose proof Hi as [Hcum Ha Hw Hdom Htsn Hb]. unfold release_payload, payload_len at 1.
  destruct (chunk_map q !! t) as [c|] eqn:Hc.
  2: { exists q. unfold payload_len. rewrite Hc. split_and!; [done|done|done|lia]. }
  assert (Ht : t ∈ sorted q) by (apply Hdom; by rewrite Hc).
  set (m := <[t := clear_user_data c]> (chunk_map q)).
  assert (Hlen : payload_len (chunk_map q) t = zlen (user_data c)) by (unfold payload_len; by rewrite Hc).
  assert (Hm : payload_len m t = 0) by (unfold payload_len, m; by rewrite lookup_insert_eq).
  assert (Hsum : zsum (payload_len m) (sorted q) = pq_n_bytes q - zlen (user_data c)).
  { rewrite (zsum_update (payload_len (chunk_map q)) _ _ t); [lia|by eapply ascending_NoDup|done|].
    intros y Hy. unfold payload_len, m. by rewrite lookup_insert_ne. }
  pose proof (zsum_nonneg (payload_len m) (sorted q) (payload_len_nonneg m)).
  rewrite sub_ovf_Ok by lia. cbn [mbind outcome_bind]. eexists. split; [done|]. cbn [chunk_map pq_n_bytes].
  split_and!; [|done|lia]. split; cbn [chunk_map sorted pq_n_bytes]; [done|done|done| | |by symmetry].
  - intros u. unfold m. rewrite lookup_insert_is_Some, Hdom. split; [|naive_solver].
    destruct (decide (t = u)); auto.
  - intros u d [[<- <-]|[_ ?]]%lookup_insert_Some; [|auto]. cbn. auto.
Qed.

(** * Properties *)

(** C29: Over any run of the receiver (DATA in any order and with any repetition,
    the cumulative TSN advancing, FORWARD TSN, SACKs), no TSN is accepted twice,
    counting TSNs without wrap-around; an accepted one is behind the cumulative TSN
    or queued, and the queue is in order for the current cumulative TSN. *)
Theorem receive_window_accepts_once tsn0 r N H : recv_run tsn0 r N H ->
  NoDup H /\ peer_last_tsn r = as_u32 N /\ pq_inv (peer_last_tsn r) (payload_queue r) /\
  (forall h, h ∈ H -> h <= N \/ (h <= N + 2147483648 /\ as_u32 h ∈ sorted (payload_queue r))).
Proof. intros Hrun. destruct (recv_run_inv _ _ _ _ Hrun) as [Hi (HN & Hnd & Hh)]. done. Qed.

Definition data_chunk (t : Z) : ChunkPayloadData :=
  received_payload false true true false t 0 0 PPI_Binary [1; 2; 3].

(** Data across the wrap: 2^32 - 1 is the next TSN, 0 follows it. *)
Definition wrap_receiver : Receiver :=
  {| peer_last_tsn := 4294967294;
     payload_queue := (PayloadQueue_push PayloadQueue_new (data_chunk 0) 4294967294).2 |}.

Lemma receive_window_accepts_once_witness :
  NoDup [4294967296] /\ peer_last_tsn wrap_receiver = as_u32 4294967294 /\
  pq_inv (peer_last_tsn wrap_receiver) (payload_queue wrap_receiver) /\
  (forall h, h ∈ [4294967296] -> h <= 4294967294 \/
     (h <= 4294967294 + 2147483648 /\ as_u32 h ∈ sorted (payload_queue wrap_receiver))).
Proof.
  apply (receive_window_accepts_once 4294967294 wrap_receiver 4294967294 [4294967296]).
  apply (run_step 4294967294 (mkReceiver 4294967294 PayloadQueue_new) 4294967294 [] (Some 0) wrap_receiver).
  - apply run_init. split; lia.
  - apply (step_data (mkReceiver 4294967294 PayloadQueue_new) (data_chunk 0) true); [split; cbn; lia|reflexivity].
Defined.

(** After a DATA chunk the receiver moves its cumulative TSN over exactly the
    consecutive TSNs it holds, removes those from the queue, and stops before the
    first one that is missing; the loop always ends. *)
Theorem advance_to_first_gap r : pq_inv (peer_last_tsn r) (payload_queue r) ->
  exists n r', advance false r = Ok r' /\ 0 <= n /\ peer_last_tsn r' = as_u32 (peer_last_tsn r + n) /\
    pq_inv (peer_last_tsn r') (payload_queue r') /\
    (forall i, 1 <= i <= n -> as_u32 (peer_last_tsn r + i) ∈ sorted (payload_queue r)) /\
    (as_u32 (peer_last_tsn r' + 1) ∉ sorted (payload_queue r')) /\
    (forall t, t ∈ sorted (payload_queue r') <->
               t ∈ sorted (payload_queue r) /\ n < off32 (peer_last_tsn r) t).
Proof.
  intros Hi. destruct (advance_loop_spec _ _ _ Hi (Nat.lt_succ_diag_r _))
    as (n & cum' & q' & E & (Hn & Hc & Hi' & Hq) & Hall & Hstop).
  exists n, {| peer_last_tsn := cum'; payload_queue := q' |}. unfold advance. rewrite E. cbn.
  split_and!; [done|lia|done|done|done|done|done].
Qed.

Definition two_chunk_receiver : Receiver :=
  {| peer_last_tsn := 4294967294;
     payload_queue := push_no_check (push_no_check PayloadQueue_new (data_chunk 0)) (data_chunk 4294967295) |}.

Lemma advance_to_first_gap_witness :
  exists n r', advance false two_chunk_receiver = Ok r' /\ 0 <= n /\
    peer_last_tsn r' = as_u32 (peer_last_tsn two_chunk_receiver + n) /\
    pq_inv (peer_last_tsn r') (payload_queue r') /\
    (forall i, 1 <= i <= n ->
       as_u32 (peer_last_tsn two_chunk_receiver + i) ∈ sorted (payload_queue two_chunk_receiver)) /\
    (as_u32 (peer_last_tsn r' + 1) ∉ sorted (payload_queue r')) /\
    (forall t, t ∈ sorted (payload_queue r') <->
               t ∈ sorted (payload_queue two_chunk_receiver) /\
               n < off32 (peer_last_tsn two_chunk_receiver) t).
Proof.
  apply (advance_to_first_gap two_chunk_receiver). unfold two_chunk_receiver; cbn [peer_last_tsn payload_queue].
  apply pq_inv_insert; [apply pq_inv_insert; [apply pq_inv_new| | |]| | |];
    [split; lia|split; cbn; lia|by intros ?%elem_of_nil|vm_compute; split; congruence
    |split; cbn; lia| |vm_compute; split; congruence].
  apply (bool_decide_unpack _). vm_compute. exact I.
Defined.

(** When the queued TSNs are at most 65535 above the cumulative TSN and have
    not wrapped, the gap ack blocks report exactly the queued TSNs, as non-empty
    blocks in order, never touching each other. *)
Theorem gap_ack_blocks_exact oc cum q :
  pq_inv cum q -> Forall (near cum) (sorted q) ->
  exists bs, get_gap_ack_blocks oc q cum = Ok bs /\ blocks_separated bs /\
    (forall k, in_blocks k bs <-> cum + k ∈ sorted q).
Proof.
  intros Hi Hn. pose proof Hi as [Hc Ha Hw Hdom _ _]. pose proof (near_ascending cum _ Hc Hw Hn Ha) as Hasc.
  unfold get_gap_ack_blocks. destruct (sorted q) as [|t l] eqn:Hs.
  - assert (chunk_map q = ∅) as Hm.
    { apply map_eq. intros t. rewrite lookup_empty. apply eq_None_not_Some. rewrite <- Hdom. by intros ?%elem_of_nil. }
    rewrite bool_decide_eq_true_2 by done. exists []. split_and!; [done|repeat constructor|].
    intros k. unfold in_blocks. split; [intros (b & Hb & _)|intros Hb]; by apply elem_of_nil in Hb.
  - assert (Hne : chunk_map q <> ∅).
    { intros E. assert (is_Some (chunk_map q !! t)) as [c Hcq] by (apply Hdom; left). by rewrite E, lookup_empty in Hcq. }
    rewrite bool_decide_eq_false_2 by done. apply ascending_cons in Hasc as [Hl Hmin].
    apply Forall_cons in Hn as [Ht Hn]. rewrite gap_diff_near by done.
    destruct (gap_loop_spec oc cum l {| gap_start := t - cum; gap_end := t - cum |} Hl Hn) as (bs & Hbs & Hsep & Hin & _);
      cbn [gap_start gap_end] in *; [lia|intros u Hu; specialize (Hmin u Hu); lia|].
    exists bs. split_and!; [done|done|]. intros k. rewrite Hin, elem_of_cons.
    split; (intros [?|?]; [left; lia|by right]).
Qed.

Definition gap_queue : PayloadQueue :=
  push_no_check (push_no_check (push_no_check PayloadQueue_new (data_chunk 12)) (data_chunk 13)) (data_chunk 20).

Lemma gap_ack_blocks_exact_witness :
  exists bs, get_gap_ack_blocks true gap_queue 10 = Ok bs /\ blocks_separated bs /\
    (forall k, in_blocks k bs <-> 10 + k ∈ sorted gap_queue).
Proof.
  apply (gap_ack_blocks_exact true 10 gap_queue).
  - unfold gap_queue.
    apply pq_inv_insert; [apply pq_inv_insert; [apply pq_inv_insert; [apply pq_inv_new; split; lia|..]|..]|..];
      try (split; cbn; lia); try (vm_compute; split; congruence);
      apply (bool_decide_unpack _); vm_compute; exact I.
  - repeat constructor; vm_compute; congruence.
Defined.

(** Across the wrap of the TSN the blocks are wrong: with cumulative TSN
    2^32 - 2 and only TSN 0 queued (two ahead), a state the receiver reaches, the
    SACK reports offset 0, which no receiver means, instead of offset 2. *)
Theorem gap_ack_blocks_lost_at_wrap :
  (exists N H, recv_run 4294967294 wrap_receiver N H) /\
  off32 4294967294 0 = 2 /\ sorted (payload_queue wrap_receiver) = [0] /\
  get_gap_ack_blocks true (payload_queue wrap_receiver) (peer_last_tsn wrap_receiver) =
    Ok [{| gap_start := 0; gap_end := 0 |}].
Proof.
  split; [|split_and!; vm_compute; reflexivity]. exists 4294967294, [4294967296].
  apply (run_step 4294967294 (mkReceiver 4294967294 PayloadQueue_new) 4294967294 [] (Some 0) wrap_receiver).
  - apply run_init. split; lia.
  - apply (step_data (mkReceiver 4294967294 PayloadQueue_new) (data_chunk 0) true); [split; cbn; lia|reflexivity].
Qed.

(** Releasing the payload of a chunk in flight never underflows the byte
    counter, takes off exactly the bytes the chunk held and keeps the queue in
    order; releasing it again takes off nothing. *)
Theorem release_payload_once oc cum q t : pq_inv cum q ->
  exists n q', release_payload oc q t = Ok (n, q') /\ n = payload_len (chunk_map q) t /\
    pq_n_bytes q' = pq_n_bytes q - n /\ pq_inv cum q' /\
    exists q'', release_payload oc q' t = Ok (0, q'') /\ pq_n_bytes q'' = pq_n_bytes q'.
Proof.
  intros Hi. destruct (release_payload_inv oc cum q t Hi) as (q' & E & Hi' & H0 & Hb).
  destruct (release_payload_inv oc cum q' t Hi') as (q'' & E' & _ & _ & Hb').
  rewrite H0 in E', Hb'. exists (payload_len (chunk_map q) t), q'. split_and!; [done|done|done|done|].
  exists q''. split; [done|lia].
Qed.

Lemma release_payload_once_witness :
  exists n q', release_payload true (payload_queue wrap_receiver) 0 = Ok (n, q') /\
    n = payload_len (chunk_map (payload_queue wrap_receiver)) 0 /\
    pq_n_bytes q' = pq_n_bytes (payload_queue wrap_receiver) - n /\ pq_inv 4294967294 q' /\
    exists q'', release_payload true q' 0 = Ok (0, q'') /\ pq_n_bytes q'' = pq_n_bytes q'.
Proof.
  apply (release_payload_once true 4294967294 (payload_queue wrap_receiver) 0).
  apply (pq_inv_insert 4294967294 PayloadQueue_new (data_chunk 0));
    [apply pq_inv_new; split; lia|split; cbn; lia|by intros ?%elem_of_nil|vm_compute; split; congruence].
Defined.

(** Acknowledging a chunk and marking the queue for retransmission change
    neither the set of TSNs nor the bytes held, and keep the queue in order; an
    acknowledged chunk counts as new once and is never marked again. *)
Theorem sender_marks_keep_queue cum q t : pq_inv cum q ->
  let q1 := (PayloadQueue_acknowledge q t).2 in
  let q2 := mark_all_to_retrasmit q1 in
  pq_inv cum q1 /\ pq_inv cum q2 /\ sorted q2 = sorted q /\ pq_n_bytes q2 = pq_n_bytes q /\
  (PayloadQueue_acknowledge q1 t).1 = false /\
  (forall c, chunk_map q2 !! t = Some c -> acknowledged c = true /\ retransmit c = false).
Proof.
  intros Hi q1 q2. pose proof (acknowledge_inv cum q t Hi) as Hi1. fold q1 in Hi1.
  assert (Hq1 : sorted q1 = sorted q /\ pq_n_bytes q1 = pq_n_bytes q)
    by (unfold q1, PayloadQueue_acknowledge; by destruct (chunk_map q !! t)).
  assert (Hc1 : forall c, chunk_map q1 !! t = Some c -> acknowledged c = true /\ retransmit c = false).
  { intros c. unfold q1, PayloadQueue_acknowledge. destruct (chunk_map q !! t) eqn:E; [|cbn [snd]; congruence].
    cbn [acknowledge snd chunk_map]. rewrite lookup_insert_eq. intros [= <-]. done. }
  split_and!; [done|by apply mark_all_inv|by apply Hq1|by apply Hq1| |].
  - unfold PayloadQueue_acknowledge at 1. destruct (chunk_map q1 !! t) as [c|] eqn:E; [|done].
    cbn. by destruct (Hc1 c eq_refl) as [-> _].
  - intros c. unfold q2, mark_all_to_retrasmit; cbn [chunk_map]. rewrite lookup_fmap.
    destruct (chunk_map q1 !! t) as [c1|] eqn:E; [|done]. cbn. intros [= <-]. destruct (Hc1 c1 eq_refl) as [Ha Hr].
    unfold mark_to_retransmit, is_outstanding. rewrite Ha. done.
Qed.

Lemma sender_marks_keep_queue_witness :
  let q1 := (PayloadQueue_acknowledge (payload_queue wrap_receiver) 0).2 in
  let q2 := mark_all_to_retrasmit q1 in
  pq_inv 4294967294 q1 /\ pq_inv 4294967294 q2 /\ sorted q2 = sorted (payload_queue wrap_receiver) /\
  pq_n_bytes q2 = pq_n_bytes (payload_queue wrap_receiver) /\
  (PayloadQueue_acknowledge q1 0).1 = false /\
  (forall c, chunk_map q2 !! 0 = Some c -> acknowledged c = true /\ retransmit c = false).
Proof.
  apply (sender_marks_keep_queue 4294967294 (payload_queue wrap_receiver) 0).
  apply (pq_inv_insert 4294967294 PayloadQueue_new (data_chunk 0));
    [apply pq_inv_new; split; lia|split; cbn; lia|by intros ?%elem_of_nil|vm_compute; split; congruence].
Defined.

(** With overflow checks (the dev profile) the advance panics when the
    cumulative TSN is the last of its range, whatever the queue holds. *)
Theorem advance_overflow_panics q :
  advance true {| peer_last_tsn := 4294967295; payload_queue := q |} = Panic.
Proof. reflexivity. Qed.
