(* ===== verification/PendingQueue.v ===== *)
(** The pending queue ([rtc-sctp/src/queue/pending_queue.rs]): DATA chunks waiting
    for transmission, ordered and unordered ones apart, with the rule that a message
    once begun is finished before another is begun.  [Spec] is the abstract queue of
    whole messages; the refinement theorems show that [push], [pop] and
    [drain_message] implement it. *)
From S2P Require Import Prelude SctpError SctpChunk.

(** * The queue *)

Record PendingPosition := mkPosition { pos_unordered : bool; position : Z }.

#[export] Instance PendingPosition_eq_dec : EqDecision PendingPosition.
Proof. solve_decision. Defined.

Record PendingQueue := mkPendingQueue {
  unordered_queue : list ChunkPayloadData;
  ordered_queue : list ChunkPayloadData;
  ordered_popped : Z;
  unordered_popped : Z;
  queue_len : Z;
  pend_n_bytes : Z;
  selected : bool;
  unordered_is_selected : bool
}.

Definition PendingQueue_new : PendingQueue := mkPendingQueue [] [] 0 0 0 0 false false.

Definition PendingQueue_push (q : PendingQueue) (c : ChunkPayloadData) : PendingQueue :=
  {| unordered_queue := if unordered c then unordered_queue q ++ [c] else unordered_queue q;
     ordered_queue := if unordered c then ordered_queue q else ordered_queue q ++ [c];
     ordered_popped := ordered_popped q;
     unordered_popped := unordered_popped q;
     queue_len := queue_len q + 1;
     pend_n_bytes := pend_n_bytes q + zlen (user_data c);
     selected := selected q;
     unordered_is_selected := unordered_is_selected q |}.

Definition peek (q : PendingQueue) : option ChunkPayloadData :=
  if selected q then
    if unordered_is_selected q then head (unordered_queue q) else head (ordered_queue q)
  else
    match head (unordered_queue q) with
    | Some c => Some c
    | None => head (ordered_queue q)
    end.

Definition front_position (q : PendingQueue) : option PendingPosition :=
  match peek q with
  | None => None
  | Some c =>
      Some {| pos_unordered := unordered c;
              position := if unordered c then unordered_popped q else ordered_popped q |}
  end.

(** The validation loop of [drain_message]: the number and bytes of the fragments
    up to the one that ends the message. *)
Fixpoint drain_scan (first : ChunkPayloadData) (u : bool) (i bytes : Z) (l : list ChunkPayloadData)
  : result (option (Z * Z)) :=
  match l with
  | [] => Ok None
  | c :: l =>
      if (negb (i =? 0) && beginning_fragment c)
         || negb (stream_identifier c =? stream_identifier first)
         || negb (stream_sequence_number c =? stream_sequence_number first)
         || negb (stream_generation c =? stream_generation first)
         || negb (eqb (unordered c) u)
      then Err (OtherSctpErr "invalid pending message fragments")
      else
        let bytes := bytes + zlen (user_data c) in
        if ending_fragment c then Ok (Some (i + 1, bytes))
        else drain_scan first u (i + 1) bytes l
  end.

(** An [Err] leaves the queue as it was: it is validated before it is changed. *)
Definition drain_message (q : PendingQueue) (pos : PendingPosition)
  : result (list ChunkPayloadData * PendingQueue) :=
  if negb (bool_decide (front_position q = Some pos)) then Ok ([], q)
  else
    let queue := if pos_unordered pos then unordered_queue q else ordered_queue q in
    match head queue with
    | None => Err (OtherSctpErr "missing pending message")
    | Some first =>
        if negb (selected q) && negb (beginning_fragment first)
        then Err (OtherSctpErr "missing pending message beginning")
        else
          found ← drain_scan first (pos_unordered pos) 0 0 queue;
          match found with
          | None => Err (OtherSctpErr "pending message has no ending fragment")
          | Some (count, bytes) =>
              if (queue_len q <? count) || (pend_n_bytes q <? bytes)
              then Err (OtherSctpErr "invalid pending message accounting")
              else
                let n := Z.to_nat count in
                Ok (take n queue,
                    {| unordered_queue := if pos_unordered pos then drop n queue else unordered_queue q;
                       ordered_queue := if pos_unordered pos then ordered_queue q else drop n queue;
                       ordered_popped := if pos_unordered pos then ordered_popped q
                                         else as_u64 (ordered_popped q + count);
                       unordered_popped := if pos_unordered pos then as_u64 (unordered_popped q + count)
                                           else unordered_popped q;
                       queue_len := queue_len q - count;
                       pend_n_bytes := pend_n_bytes q - bytes;
                       selected := false;
                       unordered_is_selected := unordered_is_selected q |})
          end
    end.

(** [pop_front] of one of the two queues, with the selection it leaves. *)
Definition pop_front (q : PendingQueue) (u sel uns : bool) : option ChunkPayloadData * PendingQueue :=
  (head (if u then unordered_queue q else ordered_queue q),
   {| unordered_queue := if u then tail (unordered_queue q) else unordered_queue q;
      ordered_queue := if u then ordered_queue q else tail (ordered_queue q);
      ordered_popped := ordered_popped q; unordered_popped := unordered_popped q;
      queue_len := queue_len q; pend_n_bytes := pend_n_bytes q;
      selected := sel; unordered_is_selected := uns |}).

(** The counters at the end of [pop]. *)
Definition pop_account (oc : bool) (p : ChunkPayloadData) (q : PendingQueue) : result PendingQueue :=
  nb ← sub_ovf oc USIZE (pend_n_bytes q) (zlen (user_data p));
  ql ← sub_ovf oc USIZE (queue_len q) 1;
  Ok {| unordered_queue := unordered_queue q; ordered_queue := ordered_queue q;
        ordered_popped := if unordered p then ordered_popped q else as_u64 (ordered_popped q + 1);
        unordered_popped := if unordered p then as_u64 (unordered_popped q + 1) else unordered_popped q;
        queue_len := ql; pend_n_bytes := nb;
        selected := selected q; unordered_is_selected := unordered_is_selected q |}.

Definition PendingQueue_pop (oc : bool) (q : PendingQueue) (beginning unord : bool)
  : result (option ChunkPayloadData * PendingQueue) :=
  let finish (pq : option ChunkPayloadData * PendingQueue) :=
    match pq.1 with
    | Some p => q' ← pop_account oc p pq.2; Ok (Some p, q')
    | None => Ok (None, pq.2)
    end in
  if selected q then
    let u := unordered_is_selected q in
    let sel := match head (if u then unordered_queue q else ordered_queue q) with
               | Some p => if ending_fragment p then false else selected q
               | None => selected q
               end in
    finish (pop_front q u sel u)
  else if negb beginning then Ok (None, q)
  else
    match head (if unord then unordered_queue q else ordered_queue q) with
    | Some p =>
        if negb (ending_fragment p) then finish (pop_front q unord true unord)
        else finish (pop_front q unord (selected q) (unordered_is_selected q))
    | None => finish (pop_front q unord (selected q) (unordered_is_selected q))
    end.

(** [send_payload_data]: the fragments of a message, one after the other. *)
Definition push_all (q : PendingQueue) (cs : list ChunkPayloadData) : PendingQueue :=
  foldl PendingQueue_push q cs.

(** * Messages and the abstract queue *)

(** What the fragments of one message share. *)
Definition message_key (c : ChunkPayloadData) : Z * Z * Z :=
  (stream_identifier c, stream_sequence_number c, stream_generation c).

(** The fragments after the first: no B bit, and the E bit on the last only. *)
Inductive rest_of (u : bool) (k : Z * Z * Z) : list ChunkPayloadData -> Prop :=
| rest_last c :
    beginning_fragment c = false -> unordered c = u -> message_key c = k -> ending_fragment c = true ->
    rest_of u k [c]
| rest_cons c l :
    beginning_fragment c = false -> unordered c = u -> message_key c = k -> ending_fragment c = false ->
    rest_of u k l -> rest_of u k (c :: l).

(** A whole message: it begins with the B bit and ends with the E bit. *)
Inductive message (u : bool) : list ChunkPayloadData -> Prop :=
| message_single c :
    beginning_fragment c = true -> ending_fragment c = true -> unordered c = u -> message u [c]
| message_many c l :
    beginning_fragment c = true -> ending_fragment c = false -> unordered c = u ->
    rest_of u (message_key c) l -> message u (c :: l).

(** The abstract queue: what is left of the message being sent, and whole
    messages waiting. *)
Record Spec := mkSpec {
  cur : list ChunkPayloadData;
  cur_unordered : bool;
  waiting_unordered : list (list ChunkPayloadData);
  waiting_ordered : list (list ChunkPayloadData)
}.

Definition spec_push (u : bool) (m : list ChunkPayloadData) (s : Spec) : Spec :=
  if u then mkSpec (cur s) (cur_unordered s) (waiting_unordered s ++ [m]) (waiting_ordered s)
  else mkSpec (cur s) (cur_unordered s) (waiting_unordered s) (waiting_ordered s ++ [m]).

(** The message to send from: the current one, else the first unordered, else the
    first ordered. *)
Definition spec_select (s : Spec) : Spec :=
  match cur s with
  | _ :: _ => s
  | [] =>
      match waiting_unordered s, waiting_ordered s with
      | m :: ms, _ => mkSpec m true ms (waiting_ordered s)
      | [], m :: ms => mkSpec m false [] ms
      | [], [] => s
      end
  end.

Definition spec_pop (s : Spec) : option (ChunkPayloadData * Spec) :=
  let s := spec_select s in
  match cur s with
  | [] => None
  | c :: r => Some (c, mkSpec r (cur_unordered s) (waiting_unordered s) (waiting_ordered s))
  end.

Definition spec_drain (s : Spec) : list ChunkPayloadData * Spec :=
  let s := spec_select s in
  (cur s, mkSpec [] (cur_unordered s) (waiting_unordered s) (waiting_ordered s)).

(** Everything queued, in the order it will be sent when nothing is added. *)
Definition spec_contents (s : Spec) : list ChunkPayloadData :=
  cur s ++ concat (waiting_unordered s) ++ concat (waiting_ordered s).

(** * The refinement relation *)

Record refines (q : PendingQueue) (s : Spec) : Prop := mkRefines {
  ref_unordered : unordered_queue q = (if cur_unordered s then cur s else []) ++ concat (waiting_unordered s);
  ref_ordered : ordered_queue q = (if cur_unordered s then [] else cur s) ++ concat (waiting_ordered s);
  ref_selected : selected q = match cur s with [] => false | _ => true end;
  ref_which : cur s <> [] -> unordered_is_selected q = cur_unordered s;
  ref_cur : cur s <> [] -> exists k, rest_of (cur_unordered s) k (cur s);
  ref_U : Forall (message true) (waiting_unordered s);
  ref_O : Forall (message false) (waiting_ordered s);
  ref_len : queue_len q = zlen (unordered_queue q) + zlen (ordered_queue q);
  ref_bytes : pend_n_bytes q = zsum (fun c => zlen (user_data c)) (unordered_queue q) +
                               zsum (fun c => zlen (user_data c)) (ordered_queue q);
  ref_popped : is_u64 (ordered_popped q) /\ is_u64 (unordered_popped q)
}.

Lemma refines_new : refines PendingQueue_new (mkSpec [] false [] []).
Proof. split; try done; unfold is_u64; cbn; lia. Qed.

Lemma message_unordered u m : message u m -> Forall (fun c => unordered c = u) m.
Proof.
  assert (Hr : forall k l, rest_of u k l -> Forall (fun c => unordered c = u) l) by (induction 1; auto).
  destruct 1; eauto.
Qed.

Lemma message_nonempty u m : message u m -> exists c l, m = c :: l /\ beginning_fragment c = true /\ unordered c = u.
Proof. destruct 1; eauto. Qed.

(** Pushing fragments one by one appends the message to its queue. *)
Lemma push_all_fields u q m : Forall (fun c => unordered c = u) m ->
  push_all q m =
  {| unordered_queue := if u then unordered_queue q ++ m else unordered_queue q;
     ordered_queue := if u then ordered_queue q else ordered_queue q ++ m;
     ordered_popped := ordered_popped q; unordered_popped := unordered_popped q;
     queue_len := queue_len q + zlen m;
     pend_n_bytes := pend_n_bytes q + zsum (fun c => zlen (user_data c)) m;
     selected := selected q; unordered_is_selected := unordered_is_selected q |}.
Proof.
  intros Hm. revert q. induction Hm as [|c m Hc Hm IH]; intros q; unfold push_all in *; cbn [foldl].
  - destruct q; cbn. rewrite !app_nil_r, !Z.add_0_r. by destruct u.
  - rewrite IH. unfold PendingQueue_push; cbn -[zlen zsum]. rewrite Hc, zlen_cons, zsum_cons.
    rewrite !Z.add_assoc. destruct u; cbn -[zlen zsum]; rewrite <- !(assoc_L app); done.
Qed.

Lemma push_refines u q s m : refines q s -> message u m -> refines (push_all q m) (spec_push u m s).
Proof.
  intros [H1 H2 H3 H4 H5 H6 H7 H8 H9 H10] Hm. pose proof (message_unordered u m Hm) as Hu.
  rewrite (push_all_fields u) by done. unfold spec_push.
  destruct u; split; cbn [cur cur_unordered waiting_unordered waiting_ordered unordered_queue ordered_queue
    ordered_popped unordered_popped queue_len pend_n_bytes selected unordered_is_selected]; try done;
    rewrite ?concat_app; cbn [concat]; rewrite ?app_nil_r.
  all: try (rewrite (assoc_L app); congruence).
  all: try (apply Forall_app; split; [done|by constructor]).
  all: rewrite ?zlen_app, ?zsum_app; lia.
Qed.

Definition accounted (q : PendingQueue) : Prop :=
  queue_len q = zlen (unordered_queue q) + zlen (ordered_queue q) /\
  pend_n_bytes q = zsum (fun c => zlen (user_data c)) (unordered_queue q) +
                   zsum (fun c => zlen (user_data c)) (ordered_queue q) /\
  is_u64 (ordered_popped q) /\ is_u64 (unordered_popped q).

Lemma refines_accounted q s : refines q s -> accounted q.
Proof. intros [? ? ? ? ? ? ? ? ? ?]. unfold accounted. tauto. Qed.

Lemma as_u64_range x : is_u64 (as_u64 x).
Proof. unfold_ints; mlia. Qed.

(** Taking the front chunk of a queue: no counter underflows. *)
Lemma pop_account_fields oc q (u : bool) c rest sel uns :
  (if u then unordered_queue q else ordered_queue q) = c :: rest -> unordered c = u -> accounted q ->
  exists q', pop_account oc c (pop_front q u sel uns).2 = Ok q' /\
    unordered_queue q' = (if u then rest else unordered_queue q) /\
    ordered_queue q' = (if u then ordered_queue q else rest) /\
    selected q' = sel /\ unordered_is_selected q' = uns /\ accounted q'.
Proof.
  intros Hq Hu (Hl & Hb & Ho & Hun). unfold pop_account, pop_front.
  cbn [snd pend_n_bytes queue_len unordered_queue ordered_queue ordered_popped unordered_popped selected unordered_is_selected].
  pose proof (fun l => zsum_nonneg (fun c : ChunkPayloadData => zlen (user_data c)) l (fun c => zlen_nonneg _)) as Hz.
  pose proof (Hz rest). pose proof (Hz (unordered_queue q)). pose proof (Hz (ordered_queue q)).
  pose proof (zlen_nonneg (unordered_queue q)). pose proof (zlen_nonneg (ordered_queue q)).
  pose proof (zlen_nonneg rest). pose proof (zlen_nonneg (user_data c)).
  destruct u; rewrite Hq in *; rewrite zlen_cons in *; rewrite zsum_cons in *; cbn [tail];
    rewrite !sub_ovf_Ok by lia; cbn [mbind outcome_bind]; rewrite Hu; eexists;
    (split; [done|]); unfold accounted;
    cbn [pend_n_bytes queue_len unordered_queue ordered_queue ordered_popped unordered_popped selected unordered_is_selected];
    split_and!; try done; try apply as_u64_range; lia.
Qed.

(** Beginning a message from the front of a queue. *)
Lemma pop_begin oc q (u : bool) c l rest :
  selected q = false -> (if u then unordered_queue q else ordered_queue q) = (c :: l) ++ rest ->
  message u (c :: l) -> accounted q ->
  exists q', PendingQueue_pop oc q (beginning_fragment c) (unordered c) = Ok (Some c, q') /\
    unordered_queue q' = (if u then l ++ rest else unordered_queue q) /\
    ordered_queue q' = (if u then ordered_queue q else l ++ rest) /\
    selected q' = (match l with [] => false | _ => true end) /\
    (l <> [] -> unordered_is_selected q' = u) /\ accounted q'.
Proof.
  intros Hsel Hq Hm Hacc. unfold PendingQueue_pop. rewrite Hsel.
  inversion Hm as [c' Hb He Hu|c' l' Hb He Hu Hr]; subst; rewrite Hb; cbn [negb]; rewrite Hq; cbn [app head].
  - rewrite He; cbn [negb].
    destruct (pop_account_fields oc q (unordered c) c rest (selected q) (unordered_is_selected q) Hq eq_refl Hacc)
      as (q' & E & ? & ? & Hs & ? & ?).
    rewrite Hsel in E. unfold pop_front at 1; cbn [fst]. rewrite Hq; cbn [app head]. rewrite E. cbn.
    exists q'. rewrite Hsel in Hs. by split_and!.
  - rewrite He; cbn [negb].
    destruct (pop_account_fields oc q (unordered c) c (l ++ rest) true (unordered c) Hq eq_refl Hacc)
      as (q' & E & ? & ? & Hs & ? & ?).
    unfold pop_front at 1; cbn [fst]. rewrite Hq; cbn [app head]. rewrite E. cbn.
    exists q'. split_and!; try done. rewrite Hs. by destruct Hr.
Qed.

(** Continuing the selected message. *)
Lemma pop_continue oc q (u : bool) k c l rest :
  selected q = true -> unordered_is_selected q = u ->
  (if u then unordered_queue q else ordered_queue q) = (c :: l) ++ rest ->
  rest_of u k (c :: l) -> accounted q ->
  exists q', PendingQueue_pop oc q (beginning_fragment c) (unordered c) = Ok (Some c, q') /\
    unordered_queue q' = (if u then l ++ rest else unordered_queue q) /\
    ordered_queue q' = (if u then ordered_queue q else l ++ rest) /\
    selected q' = (match l with [] => false | _ => true end) /\
    unordered_is_selected q' = u /\ accounted q'.
Proof.
  intros Hsel Huns Hq Hr Hacc. unfold PendingQueue_pop. rewrite Hsel, Huns, Hq. cbn [app head].
  assert (Hu : unordered c = u) by (by inversion Hr).
  assert (He : (if ending_fragment c then false else true) = match l with [] => false | _ => true end).
  { inversion Hr as [? ? ? ? He|? ? ? ? ? He Hr']; subst; rewrite He; [done|]. by destruct Hr'. }
  rewrite He.
  destruct (pop_account_fields oc q u c (l ++ rest) (match l with [] => false | _ => true end) u Hq Hu Hacc)
    as (q' & E & ? & ? & ? & ? & ?).
  unfold pop_front at 1; cbn [fst]. rewrite Hq; cbn [app head]. rewrite E. cbn. exists q'. by split_and!.
Qed.

(** What is left of a message after its first chunk. *)
Lemma message_tail u c l : message u (c :: l) -> l <> [] -> exists k, rest_of u k l.
Proof. inversion 1; subst; [done|eauto]. Qed.
Lemma rest_of_tail u k c l : rest_of u k (c :: l) -> l <> [] -> exists k, rest_of u k l.
Proof. inversion 1; subst; [done|eauto]. Qed.

Lemma refines_intro q cu (u : bool) Us Os :
  unordered_queue q = (if u then cu else []) ++ concat Us ->
  ordered_queue q = (if u then [] else cu) ++ concat Os ->
  selected q = (match cu with [] => false | _ => true end) ->
  (cu <> [] -> unordered_is_selected q = u) -> (cu <> [] -> exists k, rest_of u k cu) ->
  Forall (message true) Us -> Forall (message false) Os -> accounted q ->
  refines q (mkSpec cu u Us Os).
Proof. intros ? ? ? ? ? ? ? (? & ? & ? & ?). by split. Qed.

Lemma pop_refines oc q s : refines q s ->
  match spec_pop s with
  | None => peek q = None
  | Some (c, s') => peek q = Some c /\
      exists q', PendingQueue_pop oc q (beginning_fragment c) (unordered c) = Ok (Some c, q') /\ refines q' s'
  end.
Proof.
  intros Href. pose proof (refines_accounted q s Href) as Hacc.
  destruct Href as [HU HO Hsel Hwhich Hcur HmU HmO _ _ _].
  unfold spec_pop, spec_select, peek. destruct s as [cu uu Us Os]; cbn in HU, HO, Hsel, Hwhich, Hcur, HmU, HmO.
  destruct cu as [|c r]; cbn [cur waiting_unordered waiting_ordered cur_unordered]; rewrite Hsel.
  - assert (HU' : unordered_queue q = concat Us) by (rewrite HU; by destruct uu).
    assert (HO' : ordered_queue q = concat Os) by (rewrite HO; by destruct uu).
    destruct Us as [|m Us]; [destruct Os as [|m Os]; [by rewrite HU', HO'|]|].
    + apply Forall_cons in HmO as [Hm HmO]. destruct (message_nonempty _ _ Hm) as (c & l & -> & _).
      cbn [cur]. rewrite HU', HO'. split; [done|].
      destruct (pop_begin oc q false c l (concat Os) Hsel HO' Hm Hacc) as (q' & E & Hu' & Ho' & Hs' & Hw' & Ha').
      exists q'. split; [done|]. apply refines_intro; eauto using message_tail. by rewrite Hu', HU'.
    + apply Forall_cons in HmU as [Hm HmU]. destruct (message_nonempty _ _ Hm) as (c & l & -> & _).
      cbn [cur]. rewrite HU'. split; [done|].
      destruct (pop_begin oc q true c l (concat Us) Hsel HU' Hm Hacc) as (q' & E & Hu' & Ho' & Hs' & Hw' & Ha').
      exists q'. split; [done|]. apply refines_intro; eauto using message_tail. by rewrite Ho', HO'.
  - destruct (Hcur ltac:(done)) as [k Hr]. specialize (Hwhich ltac:(done)). rewrite Hwhich.
    destruct (pop_continue oc q uu k c r (concat (if uu then Us else Os)) Hsel Hwhich) as (q' & E & Hu' & Ho' & Hs' & Hw' & Ha');
      [by destruct uu|done|done|].
    split; [destruct uu; [by rewrite HU|by rewrite HO]|]. exists q'. split; [done|].
    apply refines_intro; eauto using rest_of_tail; destruct uu; congruence.
Qed.

(** * Draining *)

Lemma drain_scan_rest first u k l rest i bytes :
  rest_of u k l -> message_key first = k ->
  drain_scan first u i bytes (l ++ rest) = Ok (Some (i + zlen l, bytes + zsum (fun c => zlen (user_data c)) l)).
Proof.
  intros Hr Hk. revert i bytes. induction Hr as [c Hb Hu Hkc He|c l Hb Hu Hkc He Hr IH]; intros i bytes;
    cbn [app drain_scan]; rewrite Hb, Hu, andb_false_r; unfold message_key in *; rewrite <- Hkc in Hk;
    injection Hk as -> -> ->; rewrite (Z.eqb_refl (stream_identifier c)), (Z.eqb_refl (stream_sequence_number c)), (Z.eqb_refl (stream_generation c)), eqb_reflx; cbn [negb orb]; rewrite He.
  - rewrite zsum_cons, zlen_cons. change (zlen (@nil ChunkPayloadData)) with 0. do 3 f_equal; cbn; lia.
  - rewrite IH, zsum_cons, zlen_cons. do 3 f_equal; lia.
Qed.

Lemma drain_scan_message u c l rest :
  message u (c :: l) ->
  drain_scan c u 0 0 ((c :: l) ++ rest) = Ok (Some (zlen (c :: l), zsum (fun c => zlen (user_data c)) (c :: l))).
Proof.
  intros Hm. cbn [app drain_scan]. rewrite zsum_cons, zlen_cons.
  change (0 =? 0) with true. rewrite (Z.eqb_refl (stream_identifier c)), (Z.eqb_refl (stream_sequence_number c)), (Z.eqb_refl (stream_generation c)).
  inversion Hm as [? Hb He Hu|? ? Hb He Hu Hr]; subst; rewrite eqb_reflx; cbn [negb andb orb]; rewrite He.
  - change (zlen (@nil ChunkPayloadData)) with 0. cbn [zsum foldr map]. do 3 f_equal; lia.
  - rewrite (drain_scan_rest _ _ _ _ _ _ _ Hr eq_refl). do 3 f_equal; lia.
Qed.

(** The queue after removing [l] from the front of one side. *)
Definition drained (q : PendingQueue) (u : bool) (l rest : list ChunkPayloadData) : PendingQueue :=
  {| unordered_queue := if u then rest else unordered_queue q;
     ordered_queue := if u then ordered_queue q else rest;
     ordered_popped := if u then ordered_popped q else as_u64 (ordered_popped q + zlen l);
     unordered_popped := if u then as_u64 (unordered_popped q + zlen l) else unordered_popped q;
     queue_len := queue_len q - zlen l;
     pend_n_bytes := pend_n_bytes q - zsum (fun c => zlen (user_data c)) l;
     selected := false; unordered_is_selected := unordered_is_selected q |}.

Lemma drained_accounted q (u : bool) l rest :
  accounted q -> (if u then unordered_queue q else ordered_queue q) = l ++ rest -> accounted (drained q u l rest).
Proof.
  intros (Hl & Hb & Ho & Hu) Hq. unfold accounted, drained.
  cbn [pend_n_bytes queue_len unordered_queue ordered_queue ordered_popped unordered_popped].
  destruct u; rewrite Hq, ?zlen_app, ?zsum_app in *; split_and!; try done; try apply as_u64_range; lia.
Qed.

(** [drain_message] at the front position, once the scan has found the end. *)
Lemma drain_at_front q (u : bool) c l rest :
  accounted q -> (if u then unordered_queue q else ordered_queue q) = (c :: l) ++ rest -> unordered c = u ->
  peek q = Some c -> (selected q = true \/ beginning_fragment c = true) ->
  drain_scan c u 0 0 ((c :: l) ++ rest) = Ok (Some (zlen (c :: l), zsum (fun c => zlen (user_data c)) (c :: l))) ->
  exists pos, front_position q = Some pos /\ pos_unordered pos = u /\
    position pos = (if u then unordered_popped q else ordered_popped q) /\
    drain_message q pos = Ok (c :: l, drained q u (c :: l) rest).
Proof.
  intros (Hl & Hb & _) Hq Hu Hpeek Hsel Hscan. unfold drain_message, front_position. rewrite Hpeek, Hu.
  eexists; split; [done|]. split; [done|]. split; [done|]. rewrite bool_decide_eq_true_2 by done. cbn [negb pos_unordered].
  rewrite Hq. cbn [app head]. change (c :: l ++ rest) with ((c :: l) ++ rest).
  assert (negb (selected q) && negb (beginning_fragment c) = false) as ->
    by (destruct Hsel as [-> | ->]; [done|by rewrite andb_false_r]).
  rewrite Hscan. cbn [mbind outcome_bind].
  pose proof (fun l => zsum_nonneg (fun c : ChunkPayloadData => zlen (user_data c)) l (fun c => zlen_nonneg (user_data c))) as Hz.
  pose proof (Hz rest). pose proof (Hz (unordered_queue q)). pose proof (Hz (ordered_queue q)).
  zlen_pos. pose proof (zlen_nonneg rest). pose proof (zlen_nonneg (c :: l)).
  assert (Hcount : zlen (c :: l) <= queue_len q /\ zsum (fun c => zlen (user_data c)) (c :: l) <= pend_n_bytes q).
  { rewrite Hl, Hb. destruct u; rewrite Hq, zlen_app, zsum_app; lia. }
  destruct (_ || _) eqn:Hg; [exfalso; apply orb_true_iff in Hg as [Hg|Hg]; apply Z.ltb_lt in Hg; lia|].
  replace (Z.to_nat (zlen (c :: l))) with (length (c :: l)) by (unfold zlen; lia).
  rewrite take_app_length, drop_app_length. by destruct u.
Qed.

Lemma drain_again q (u : bool) l rest pos :
  accounted q -> (if u then unordered_queue q else ordered_queue q) = l ++ rest -> 0 < zlen l < USIZE ->
  pos_unordered pos = u -> position pos = (if u then unordered_popped q else ordered_popped q) ->
  drain_message (drained q u l rest) pos = Ok ([], drained q u l rest).
Proof.
  intros (_ & _ & Ho & Hun) Hq Hl Hpu Hpp. unfold drain_message.
  rewrite bool_decide_eq_false_2; [done|]. unfold front_position. destruct (peek _) as [c|]; [|done]. intros [= <-].
  cbn [pos_unordered position] in *. rewrite Hpu in Hpp.
  unfold drained in Hpp; cbn [unordered_popped ordered_popped] in Hpp. unfold USIZE, as_u64, is_u64 in *.
  destruct u; mlia.
Qed.

Lemma drain_refines q s : refines q s -> queue_len q < USIZE ->
  match front_position q with
  | None => spec_contents s = []
  | Some pos => exists q', drain_message q pos = Ok ((spec_drain s).1, q') /\
      (spec_drain s).1 <> [] /\ refines q' (spec_drain s).2 /\ drain_message q' pos = Ok ([], q')
  end.
Proof.
  intros Href Hlen. pose proof (refines_accounted q s Href) as Hacc.
  destruct Href as [HU HO Hsel Hwhich Hcur HmU HmO _ _ _].
  destruct s as [cu uu Us Os]; cbn in HU, HO, Hsel, Hwhich, Hcur, HmU, HmO.
  assert (Hfin : forall (u : bool) c l rest Us' Os',
    (if u then unordered_queue q else ordered_queue q) = (c :: l) ++ rest -> unordered c = u -> peek q = Some c ->
    (selected q = true \/ beginning_fragment c = true) ->
    drain_scan c u 0 0 ((c :: l) ++ rest) = Ok (Some (zlen (c :: l), zsum (fun c => zlen (user_data c)) (c :: l))) ->
    (if u then rest else unordered_queue q) = concat Us' -> (if u then ordered_queue q else rest) = concat Os' ->
    Forall (message true) Us' -> Forall (message false) Os' ->
    match front_position q with
    | None => spec_contents (mkSpec cu uu Us Os) = []
    | Some pos => exists q', drain_message q pos = Ok (c :: l, q') /\ c :: l <> [] /\
        refines q' (mkSpec [] u Us' Os') /\ drain_message q' pos = Ok ([], q')
    end).
  { intros u c l rest Us' Os' Hq Hu Hpk Hs Hscan EU EO FU FO.
    destruct (drain_at_front q u c l rest Hacc Hq Hu Hpk Hs Hscan) as (pos & -> & Hpu & Hpp & E).
    exists (drained q u (c :: l) rest). split_and!; [done|done| |].
    - apply refines_intro; cbn [unordered_queue ordered_queue selected drained]; try done;
        [by destruct u|by destruct u|by apply drained_accounted].
    - eapply drain_again; try done. destruct Hacc as (Hl & _).
      assert (zlen (c :: l) <= queue_len q) by (rewrite Hl; destruct u; rewrite Hq, zlen_app; zlen_pos; lia).
      rewrite zlen_cons in *. zlen_pos. lia. }
  unfold spec_drain, spec_select; cbn [cur waiting_unordered waiting_ordered cur_unordered].
  destruct cu as [|c r].
  - assert (HU' : unordered_queue q = concat Us) by (rewrite HU; by destruct uu).
    assert (HO' : ordered_queue q = concat Os) by (rewrite HO; by destruct uu).
    destruct Us as [|m Us]; [destruct Os as [|m Os]|].
    + unfold front_position, peek. by rewrite Hsel, HU', HO'.
    + apply Forall_cons in HmO as [Hm HmO]. destruct (message_nonempty _ _ Hm) as (c & l & -> & Hb & Hu).
      cbn [cur fst snd cur_unordered waiting_unordered waiting_ordered].
      eapply (Hfin false c l (concat Os) [] Os); auto using drain_scan_message.
      unfold peek. by rewrite Hsel, HU', HO'.
    + apply Forall_cons in HmU as [Hm HmU]. destruct (message_nonempty _ _ Hm) as (c & l & -> & Hb & Hu).
      cbn [cur fst snd cur_unordered waiting_unordered waiting_ordered].
      eapply (Hfin true c l (concat Us) Us Os); auto using drain_scan_message.
      unfold peek. by rewrite Hsel, HU'.
  - destruct (Hcur ltac:(done)) as [k Hr]. specialize (Hwhich ltac:(done)).
    cbn [cur fst snd cur_unordered waiting_unordered waiting_ordered].
    assert (Hk : message_key c = k /\ unordered c = uu) by (by inversion Hr). destruct Hk as [Hk Hu].
    eapply (Hfin uu c r (concat (if uu then Us else Os)) Us Os); auto; try (by destruct uu).
    + unfold peek. rewrite Hsel, Hwhich. destruct uu; [by rewrite HU|by rewrite HO].
    + rewrite (drain_scan_rest _ _ _ _ _ _ _ Hr Hk). done.
Qed.

(** * Runs *)

(** What the association does to the queue: a message is queued, the peeked chunk is
    popped, the message at the front is abandoned. *)
Inductive PendingOp :=
| OpPush (u : bool) (m : list ChunkPayloadData)
| OpPop
| OpDrain.

(** The chunks a step takes out of the queue, and the queue after it. *)
Definition step_op (oc : bool) (q : PendingQueue) (op : PendingOp) : result (list ChunkPayloadData * PendingQueue) :=
  match op with
  | OpPush u m => Ok ([], push_all q m)
  | OpPop =>
      match peek q with
      | None => Ok ([], q)
      | Some c =>
          r ← PendingQueue_pop oc q (beginning_fragment c) (unordered c);
          Ok (match r.1 with Some p => [p] | None => [] end, r.2)
      end
  | OpDrain =>
      match front_position q with
      | None => Ok ([], q)
      | Some pos => drain_message q pos
      end
  end.

Fixpoint run_ops (oc : bool) (q : PendingQueue) (ops : list PendingOp)
  : result (list (list ChunkPayloadData) * PendingQueue) :=
  match ops with
  | [] => Ok ([], q)
  | op :: ops =>
      r ← step_op oc q op;
      rs ← run_ops oc r.2 ops;
      Ok (r.1 :: rs.1, rs.2)
  end.

Definition spec_step (s : Spec) (op : PendingOp) : list ChunkPayloadData * Spec :=
  match op with
  | OpPush u m => ([], spec_push u m s)
  | OpPop => match spec_pop s with None => ([], s) | Some (c, s') => ([c], s') end
  | OpDrain => match spec_contents s with [] => ([], s) | _ => spec_drain s end
  end.

Fixpoint spec_run (s : Spec) (ops : list PendingOp) : list (list ChunkPayloadData) * Spec :=
  match ops with
  | [] => ([], s)
  | op :: ops =>
      let r := spec_step s op in
      let rs := spec_run r.2 ops in
      (r.1 :: rs.1, rs.2)
  end.

Definition op_valid (op : PendingOp) : Prop :=
  match op with OpPush u m => message u m | _ => True end.

(** Chunks pushed by a run: what bounds the queue's length. *)
Definition op_pushes (op : PendingOp) : Z :=
  match op with OpPush _ m => zlen m | _ => 0 end.

Lemma refines_length q s : refines q s -> queue_len q = zlen (spec_contents s).
Proof.
  intros [HU HO _ _ _ _ _ Hl _ _]. rewrite Hl, HU, HO. unfold spec_contents.
  destruct (cur_unordered s); rewrite !zlen_app; change (zlen (@nil ChunkPayloadData)) with 0; lia.
Qed.

Lemma spec_select_contents s : spec_contents (spec_select s) = spec_contents s.
Proof.
  destruct s as [[|c r] u [|m Us] [|m' Os]]; try done; unfold spec_contents, spec_select; cbn.
  - by rewrite <- (assoc_L app).
  - by rewrite <- (assoc_L app).
Qed.

Lemma spec_step_length s op : zlen (spec_contents (spec_step s op).2) <= zlen (spec_contents s) + op_pushes op.
Proof.
  destruct op as [u m| |]; cbn [spec_step op_pushes].
  - unfold spec_push, spec_contents. destruct u; cbn [cur cur_unordered waiting_unordered waiting_ordered snd];
      rewrite ?concat_app; cbn [concat]; rewrite !zlen_app; change (zlen (@nil ChunkPayloadData)) with 0; lia.
  - rewrite <- (spec_select_contents s). unfold spec_pop. destruct (spec_select s) as [[|c r] u Us Os] eqn:E; cbn [cur snd].
    + rewrite <- E, spec_select_contents. lia.
    + unfold spec_contents; cbn [cur cur_unordered waiting_unordered waiting_ordered]. rewrite !zlen_app, zlen_cons. lia.
  - destruct (spec_contents s) eqn:E; cbn [snd]; [rewrite E; lia|]. rewrite <- E, <- (spec_select_contents s).
    unfold spec_drain, spec_contents; cbn [snd cur waiting_unordered waiting_ordered]. rewrite !zlen_app.
    change (zlen (@nil ChunkPayloadData)) with 0. pose proof (zlen_nonneg (cur (spec_select s))). lia.
Qed.

Lemma step_op_refines oc q s op : refines q s -> op_valid op -> queue_len q < USIZE ->
  exists q', step_op oc q op = Ok ((spec_step s op).1, q') /\ refines q' (spec_step s op).2.
Proof.
  intros Hr Hv Hl. destruct op as [u m| |]; cbn [step_op spec_step op_valid] in *.
  - eexists; split; [done|]. by apply push_refines.
  - pose proof (pop_refines oc q s Hr) as Hp. destruct (spec_pop s) as [[c s']|].
    + destruct Hp as (-> & q' & -> & Hr'). by exists q'.
    + rewrite Hp. by exists q.
  - pose proof (drain_refines q s Hr Hl) as Hd. destruct (front_position q) as [pos|] eqn:Hf.
    + destruct Hd as (q' & -> & Hne & Hr' & _).
      destruct (spec_contents s) as [|c l] eqn:E; [|by exists q'].
      exfalso. apply Hne. unfold spec_drain. cbn [fst]. rewrite <- (spec_select_contents s) in E.
      unfold spec_contents in E. by apply app_eq_nil in E as [-> _].
    + rewrite Hd. by exists q.
Qed.

(** C28: Whatever whole messages are queued and however queueing, popping and
    abandoning interleave, the queue behaves as the abstract queue of messages: no
    operation fails, no counter underflows, every step takes out the same chunks, and
    the byte and chunk counters are those of the chunks still queued. In particular a
    message that was begun is finished before another begins, and unordered messages
    go first. *)
Theorem pending_queue_refines oc ops q s :
  refines q s -> Forall op_valid ops -> queue_len q + zsum op_pushes ops < USIZE ->
  exists q', run_ops oc q ops = Ok ((spec_run s ops).1, q') /\ refines q' (spec_run s ops).2.
Proof.
  revert q s. induction ops as [|op ops IH]; intros q s Hr Hv Hl; [by exists q|].
  apply Forall_cons in Hv as [Hv Hvs]. rewrite zsum_cons in Hl.
  assert (0 <= op_pushes op) by (destruct op; cbn [op_pushes]; try apply zlen_nonneg; lia).
  pose proof (zsum_nonneg op_pushes ops ltac:(intros [| |]; cbn [op_pushes]; try apply zlen_nonneg; lia)).
  destruct (step_op_refines oc q s op Hr Hv ltac:(lia)) as (q1 & E1 & Hr1).
  pose proof (spec_step_length s op). rewrite (refines_length q s Hr) in Hl.
  destruct (IH q1 (spec_step s op).2 Hr1 Hvs ltac:(rewrite (refines_length _ _ Hr1); lia)) as (q2 & E2 & Hr2).
  exists q2. cbn [run_ops spec_run]. rewrite E1; cbn [mbind outcome_bind fst snd]. by rewrite E2.
Qed.

(** [drain_message] takes exactly the rest of the message at the front, whole,
    and a second call with the same position takes nothing and changes nothing, even
    when the next message is of the same stream. *)
Theorem drain_message_once q s pos : refines q s -> queue_len q < USIZE -> front_position q = Some pos ->
  exists q', drain_message q pos = Ok ((spec_drain s).1, q') /\ refines q' (spec_drain s).2 /\
    drain_message q' pos = Ok ([], q').
Proof. intros Hr Hl Hf. pose proof (drain_refines q s Hr Hl) as H. rewrite Hf in H. naive_solver. Qed.

(** Two messages on one stream: ordered, of two fragments each, and an unordered one. *)
Definition frag (u b e : bool) (data : bytes) : ChunkPayloadData :=
  received_payload u b e false 0 7 3 PPI_Binary data.

Definition example_ops : list PendingOp :=
  [OpPush false [frag false true false [1; 2]; frag false false true [3]]; OpPop;
   OpPush true [frag true true true [4]]; OpPush false [frag false true true [5]]; OpDrain; OpPop; OpPop].

Lemma example_ops_valid : Forall op_valid example_ops.
Proof.
  repeat apply Forall_cons_2; try apply Forall_nil_2; try exact I.
  - by apply message_many; [| | |apply rest_last].
  - by apply message_single.
  - by apply message_single.
Qed.

Lemma pending_queue_refines_witness :
  (spec_run (mkSpec [] false [] []) example_ops).1 =
    [[]; [frag false true false [1; 2]]; []; []; [frag false false true [3]]; [frag true true true [4]];
     [frag false true true [5]]] /\
  exists q', run_ops true PendingQueue_new example_ops = Ok ((spec_run (mkSpec [] false [] []) example_ops).1, q') /\
    refines q' (spec_run (mkSpec [] false [] []) example_ops).2.
Proof.
  split; [reflexivity|].
  exact (pending_queue_refines true example_ops PendingQueue_new (mkSpec [] false [] []) refines_new example_ops_valid eq_refl).
Defined.

Lemma drain_message_once_witness :
  let m := [frag false true false [1; 2]; frag false false true [3]] in
  let q := push_all (push_all PendingQueue_new m) m in
  exists q', drain_message q (mkPosition false 0) = Ok (m, q') /\
    refines q' (mkSpec [] false [] [m]) /\ drain_message q' (mkPosition false 0) = Ok ([], q').
Proof.
  intros m q.
  assert (Hm : message false m) by (by apply message_many; [| | |apply rest_last]).
  assert (Hq : refines q (mkSpec [] false [] [m; m])).
  { apply (push_refines false _ (mkSpec [] false [] [m])); [|done].
    by apply (push_refines false _ (mkSpec [] false [] [])); [apply refines_new|]. }
  exact (drain_message_once q (mkSpec [] false [] [m; m]) (mkPosition false 0) Hq eq_refl eq_refl).
Defined.
