(* ===== verification/ReassemblyQueue.v ===== *)
(** The reassembly queue of a stream ([rtc-sctp/src/queue/reassembly_queue.rs]): the
    fragments of the ordered messages grouped by stream sequence number, the loose
    fragments of the unordered ones, and the messages ready to be read.  Proved: an
    ordered stream delivers its messages whole, once and in the order they were sent,
    whatever order their fragments arrive in; what the scan of the unordered
    fragments extracts; that the three ways to read a message give the same bytes;
    and what a FORWARD TSN removes. *)
From S2P Require Import Prelude Serial SctpError SctpChunk.

(** * One message *)

Record Chunks := mkChunks {
  ssn : Z;
  ppi : PayloadProtocolIdentifier;
  chunks : list ChunkPayloadData;
  ck_offset : Z;
  ck_index : Z;
  arrival : Z
}.

Definition Chunks_new (arrival ssn : Z) (ppi : PayloadProtocolIdentifier) (cs : list ChunkPayloadData) : Chunks :=
  {| ssn := ssn; ppi := ppi; chunks := cs; ck_offset := 0; ck_index := 0; arrival := arrival |}.

Definition Chunks_len (c : Chunks) : Z := zsum (fun c => zlen (user_data c)) (chunks c).
Definition Chunks_is_empty (c : Chunks) : bool := Chunks_len c =? 0.

Definition to_payload (c : Chunks) (max_len : Z) : result bytes :=
  if max_len <? Chunks_len c then Err ErrShortBuffer
  else Ok (foldl (fun buf c => buf ++ user_data c) [] (chunks c)).

(** [buf[i..i + data.len()].copy_from_slice(data)], inside the bounds. *)
Definition copy_at (buf : bytes) (i : Z) (data : bytes) : bytes :=
  take (Z.to_nat i) buf ++ data ++ drop (Z.to_nat (i + zlen data)) buf.

(** [read] keeps what it copied when it fails, so the buffer is returned as well. *)
Fixpoint read_loop (cs : list ChunkPayloadData) (buf : bytes) (n_written : Z) : result Z * bytes :=
  match cs with
  | [] => (Ok n_written, buf)
  | c :: cs =>
      let to_copy := zlen (user_data c) in
      let n := Z.min to_copy (zlen buf - n_written) in
      let buf := copy_at buf n_written (take (Z.to_nat n) (user_data c)) in
      if n <? to_copy then (Err ErrShortBuffer, buf) else read_loop cs buf (n_written + n)
  end.

Definition Chunks_read (c : Chunks) (buf : bytes) : result Z * bytes := read_loop (chunks c) buf 0.

(** The loop of [next]: the fragments from [index] on, the offset in the first one. *)
Fixpoint next_loop (cs : list ChunkPayloadData) (max_length index offset n_written : Z) (buf : bytes)
  : result (bytes * Z * Z) :=
  match cs with
  | [] => Ok (buf, index, offset)
  | c :: cs =>
      rest ← slice (user_data c) offset (zlen (user_data c));
      let to_copy := zlen rest in
      let n := Z.min to_copy (max_length - n_written) in
      part ← slice (user_data c) offset (offset + n);
      if n <? to_copy then Ok (buf ++ part, index, offset + n)
      else next_loop cs max_length (index + 1) 0 (n_written + n) (buf ++ part)
  end.

Definition Chunks_next (c : Chunks) (max_length : Z) : result (option bytes * Chunks) :=
  if zlen (chunks c) <=? ck_index c then Ok (None, c)
  else
    '(buf, index, offset) ←
      next_loop (drop (Z.to_nat (ck_index c)) (chunks c)) max_length (ck_index c) (ck_offset c) 0 [];
    Ok (Some buf, {| ssn := ssn c; ppi := ppi c; chunks := chunks c;
                     ck_offset := offset; ck_index := index; arrival := arrival c |}).

(** Part 3 of [is_complete], after the first fragment. *)
Fixpoint contiguous_loop (oc : bool) (last_tsn : Z) (cs : list ChunkPayloadData) : result bool :=
  match cs with
  | [] => Ok true
  | c :: cs =>
      next ← add_ovf oc 4294967296 last_tsn 1;
      if negb (tsn c =? next) then Ok false else contiguous_loop oc (tsn c) cs
  end.

Definition is_complete (oc : bool) (c : Chunks) : result bool :=
  match chunks c with
  | [] => Ok false
  | first :: rest =>
      if negb (beginning_fragment first) then Ok false
      else if negb (ending_fragment (List.last rest first)) then Ok false
      else contiguous_loop oc (tsn first) rest
  end.

Definition with_chunks (c : Chunks) (cs : list ChunkPayloadData) : Chunks :=
  {| ssn := ssn c; ppi := ppi c; chunks := cs; ck_offset := ck_offset c; ck_index := ck_index c;
     arrival := arrival c |}.

Definition Chunks_push (oc : bool) (c : Chunks) (chunk : ChunkPayloadData) : result (bool * Chunks) :=
  let idx := partition_point (fun x => sna32lt (tsn x) (tsn chunk)) (chunks c) in
  match chunks c !! idx with
  | Some x =>
      if tsn x =? tsn chunk then Ok (false, c)
      else let c := with_chunks c (insert_at idx chunk (chunks c)) in
           ok ← is_complete oc c; Ok (ok, c)
  | None =>
      let c := with_chunks c (insert_at idx chunk (chunks c)) in
      ok ← is_complete oc c; Ok (ok, c)
  end.

(** * The queue of a stream *)

Record ReassemblyQueue := mkReassemblyQueue {
  si : Z;
  next_ssn : Z;
  rq_ordered : list Chunks;
  rq_unordered : list Chunks;
  unordered_chunks : list ChunkPayloadData;
  rq_n_bytes : Z;
  next_arrival : Z
}.

Definition ReassemblyQueue_new (si : Z) : ReassemblyQueue := mkReassemblyQueue si 0 [] [] [] 0 0.

(** The scan of [find_complete_unordered_chunk_set]: where the complete set starts
    and how many chunks it has. *)
Fixpoint find_loop (oc : bool) (cs : list ChunkPayloadData) (i start_idx n_chunks last_tsn : Z)
  : result (option (Z * Z)) :=
  match cs with
  | [] => Ok None
  | c :: cs =>
      if beginning_fragment c then
        if ending_fragment c then Ok (Some (i, 1)) else find_loop oc cs (i + 1) i 1 (tsn c)
      else if start_idx <? 0 then find_loop oc cs (i + 1) start_idx n_chunks last_tsn
      else
        next ← add_ovf oc 4294967296 last_tsn 1;
        if negb (tsn c =? next) then find_loop oc cs (i + 1) (-1) n_chunks last_tsn
        else if ending_fragment c then Ok (Some (start_idx, n_chunks + 1))
        else find_loop oc cs (i + 1) start_idx (n_chunks + 1) (tsn c)
  end.

(** The arrival counter is a [u64] stepped once per message. *)
Definition find_complete_unordered_chunk_set (oc : bool) (q : ReassemblyQueue)
  : result (option Chunks * ReassemblyQueue) :=
  found ← find_loop oc (unordered_chunks q) 0 (-1) 0 0;
  match found with
  | None => Ok (None, q)
  | Some (start_idx, n_chunks) =>
      let s := Z.to_nat start_idx in
      let n := Z.to_nat n_chunks in
      let cs := take n (drop s (unordered_chunks q)) in
      match cs with
      | [] => Panic
      | c0 :: _ =>
          Ok (Some (Chunks_new (next_arrival q) 0 (payload_type c0) cs),
              {| si := si q; next_ssn := next_ssn q; rq_ordered := rq_ordered q; rq_unordered := rq_unordered q;
                 unordered_chunks := take s (unordered_chunks q) ++ drop (s + n) (unordered_chunks q);
                 rq_n_bytes := rq_n_bytes q; next_arrival := next_arrival q + 1 |})
      end
  end.

Definition with_ordered (q : ReassemblyQueue) (l : list Chunks) (n arr : Z) : ReassemblyQueue :=
  {| si := si q; next_ssn := next_ssn q; rq_ordered := l; rq_unordered := rq_unordered q;
     unordered_chunks := unordered_chunks q; rq_n_bytes := n; next_arrival := arr |}.

Definition ReassemblyQueue_push (oc : bool) (q : ReassemblyQueue) (chunk : ChunkPayloadData)
  : result (bool * ReassemblyQueue) :=
  if negb (stream_identifier chunk =? si q) then Ok (false, q)
  else if unordered chunk then
    let idx := partition_point (fun c => sna32lt (tsn c) (tsn chunk)) (unordered_chunks q) in
    let q := {| si := si q; next_ssn := next_ssn q; rq_ordered := rq_ordered q; rq_unordered := rq_unordered q;
                unordered_chunks := insert_at idx chunk (unordered_chunks q);
                rq_n_bytes := rq_n_bytes q + zlen (user_data chunk); next_arrival := next_arrival q |} in
    '(cset, q) ← find_complete_unordered_chunk_set oc q;
    match cset with
    | Some cset =>
        Ok (true, {| si := si q; next_ssn := next_ssn q; rq_ordered := rq_ordered q;
                     rq_unordered := rq_unordered q ++ [cset];
                     unordered_chunks := unordered_chunks q; rq_n_bytes := rq_n_bytes q;
                     next_arrival := next_arrival q |})
    | None => Ok (false, q)
    end
  else if sna16lt (stream_sequence_number chunk) (next_ssn q) then Ok (false, q)
  else
    let n := rq_n_bytes q + zlen (user_data chunk) in
    let s := stream_sequence_number chunk in
    let idx := partition_point (fun c => sna16lt (ssn c) s) (rq_ordered q) in
    let fresh :=
      '(ok, cset) ← Chunks_push oc (Chunks_new (next_arrival q) s (payload_type chunk) []) chunk;
      Ok (ok, with_ordered q (insert_at idx cset (rq_ordered q)) n (next_arrival q + 1)) in
    match rq_ordered q !! idx with
    | Some c =>
        if ssn c =? s then
          '(ok, c) ← Chunks_push oc c chunk;
          Ok (ok, with_ordered q (<[idx := c]> (rq_ordered q)) n (next_arrival q))
        else fresh
    | None => fresh
    end.

Definition is_readable (oc : bool) (q : ReassemblyQueue) : result bool :=
  match rq_unordered q with
  | _ :: _ => Ok true
  | [] =>
      match rq_ordered q with
      | cset :: _ => complete ← is_complete oc cset; Ok (complete && sna16lte (ssn cset) (next_ssn q))
      | [] => Ok false
      end
  end.

Definition readable_unordered_chunks (q : ReassemblyQueue) : option Chunks := head (rq_unordered q).

Definition readable_ordered_chunks (oc : bool) (q : ReassemblyQueue) : result (option Chunks) :=
  match rq_ordered q with
  | c :: _ =>
      complete ← is_complete oc c;
      if negb complete then Ok None
      else if sna16gt (ssn c) (next_ssn q) then Ok None
      else Ok (Some c)
  | [] => Ok None
  end.

Definition subtract_num_bytes (q : ReassemblyQueue) (n : Z) : ReassemblyQueue :=
  {| si := si q; next_ssn := next_ssn q; rq_ordered := rq_ordered q; rq_unordered := rq_unordered q;
     unordered_chunks := unordered_chunks q;
     rq_n_bytes := if n <=? rq_n_bytes q then rq_n_bytes q - n else 0;
     next_arrival := next_arrival q |}.

(** [self.ordered.pop_front()] and [self.unordered.pop_front()], with the step of [next_ssn]. *)
Definition pop_ordered (q : ReassemblyQueue) (c : Chunks) : ReassemblyQueue :=
  {| si := si q; next_ssn := if ssn c =? next_ssn q then as_u16 (next_ssn q + 1) else next_ssn q;
     rq_ordered := tail (rq_ordered q); rq_unordered := rq_unordered q;
     unordered_chunks := unordered_chunks q; rq_n_bytes := rq_n_bytes q; next_arrival := next_arrival q |}.
Definition pop_unordered (q : ReassemblyQueue) : ReassemblyQueue :=
  {| si := si q; next_ssn := next_ssn q; rq_ordered := rq_ordered q; rq_unordered := tail (rq_unordered q);
     unordered_chunks := unordered_chunks q; rq_n_bytes := rq_n_bytes q; next_arrival := next_arrival q |}.

Definition ReassemblyQueue_read (oc : bool) (q : ReassemblyQueue) : result (option Chunks * ReassemblyQueue) :=
  let finish (c : Chunks) (q : ReassemblyQueue) := Ok (Some c, subtract_num_bytes q (Chunks_len c)) in
  readable ← readable_ordered_chunks oc q;
  match readable_unordered_chunks q, readable with
  | Some u, Some o => if arrival u <? arrival o then finish u (pop_unordered q) else finish o (pop_ordered q o)
  | _, _ =>
      match rq_unordered q, rq_ordered q with
      | u :: _, _ => finish u (pop_unordered q)
      | [], c :: _ =>
          complete ← is_complete oc c;
          if negb complete then Ok (None, q)
          else if sna16gt (ssn c) (next_ssn q) then Ok (None, q)
          else finish c (pop_ordered q c)
      | [], [] => Ok (None, q)
      end
  end.

(** [iter().filter(p)] and [retain(p)] with a test that can panic. *)
Fixpoint filter_result {A} (p : A -> result bool) (l : list A) : result (list A) :=
  match l with
  | [] => Ok []
  | x :: l => b ← p x; r ← filter_result p l; Ok (if b : bool then x :: r else r)
  end.

Definition forward_tsn_for_ordered (oc : bool) (q : ReassemblyQueue) (last_ssn : Z) : result ReassemblyQueue :=
  dropped ← filter_result (fun s => if sna16lte (ssn s) last_ssn then negb <$> is_complete oc s else Ok false)
              (rq_ordered q);
  let q := subtract_num_bytes q (foldl (fun n s => n + foldl (fun acc c => acc + zlen (user_data c)) 0 (chunks s)) 0 dropped) in
  kept ← filter_result (fun s => if negb (sna16lte (ssn s) last_ssn) then Ok true else is_complete oc s) (rq_ordered q);
  Ok {| si := si q;
        next_ssn := if sna16lte (next_ssn q) last_ssn then as_u16 (last_ssn + 1) else next_ssn q;
        rq_ordered := kept; rq_unordered := rq_unordered q; unordered_chunks := unordered_chunks q;
        rq_n_bytes := rq_n_bytes q; next_arrival := next_arrival q |}.

Fixpoint last_idx_loop (cs : list ChunkPayloadData) (new_cumulative_tsn i last_idx : Z) : Z :=
  match cs with
  | [] => last_idx
  | c :: cs =>
      if sna32gt (tsn c) new_cumulative_tsn then last_idx
      else last_idx_loop cs new_cumulative_tsn (i + 1) i
  end.

Definition forward_tsn_for_unordered (q : ReassemblyQueue) (new_cumulative_tsn : Z) : ReassemblyQueue :=
  let last_idx := last_idx_loop (unordered_chunks q) new_cumulative_tsn 0 (-1) in
  if 0 <=? last_idx then
    let n := Z.to_nat (last_idx + 1) in
    let q := foldl (fun q c => subtract_num_bytes q (zlen (user_data c))) q (take n (unordered_chunks q)) in
    {| si := si q; next_ssn := next_ssn q; rq_ordered := rq_ordered q; rq_unordered := rq_unordered q;
       unordered_chunks := drop n (unordered_chunks q); rq_n_bytes := rq_n_bytes q;
       next_arrival := next_arrival q |}
  else q.

(** * Reading a message *)

(** The bytes of a message. *)
Definition payload (cs : list ChunkPayloadData) : bytes := concat (map user_data cs).

Lemma zlen_payload cs : zlen (payload cs) = zsum (fun c => zlen (user_data c)) cs.
Proof.
  induction cs as [|c cs IH]; [done|]. unfold payload in *. cbn [map concat]. by rewrite zlen_app, zsum_cons, IH.
Qed.

Lemma foldl_payload cs buf : foldl (fun buf c => buf ++ user_data c) buf cs = buf ++ payload cs.
Proof.
  revert buf. induction cs as [|c cs IH]; intros buf; cbn; [by rewrite app_nil_r|].
  by rewrite IH, <- (assoc_L app).
Qed.

Lemma read_loop_spec cs done rest :
  read_loop cs (done ++ rest) (zlen done) =
  if zlen (payload cs) <=? zlen rest
  then (Ok (zlen done + zlen (payload cs)), done ++ payload cs ++ drop (length (payload cs)) rest)
  else (Err ErrShortBuffer, done ++ take (length rest) (payload cs)).
Proof.
  revert done rest. induction cs as [|c cs IH]; intros done rest; cbn [read_loop].
  { change (payload []) with (@nil Z). zlen_pos. destruct (zlen [] <=? zlen rest) eqn:E; [|by zlia].
    f_equal. f_equal. zlia. }
  change (payload (c :: cs)) with (user_data c ++ payload cs). rewrite !zlen_app.
  set (d := user_data c) in *. assert (Hcopy : forall n, (n <= length d)%nat -> (n <= length rest)%nat ->
    copy_at (done ++ rest) (zlen done) (take n d) = (done ++ take n d) ++ drop n rest).
  { intros n Hn Hr. unfold copy_at. rewrite <- (assoc_L app). f_equal.
    - unfold zlen. by rewrite Nat2Z.id, take_app_length.
    - f_equal. rewrite zlen_take. unfold zlen. replace (Z.to_nat _) with (length done + n)%nat by lia.
      by rewrite drop_app_add. }
  replace (zlen done + zlen rest - zlen done) with (zlen rest) by lia.
  destruct (Z.min (zlen d) (zlen rest) <? zlen d) eqn:E.
  - rewrite Hcopy by (unfold zlen in *; lia).
    pose proof (zlen_nonneg (payload cs)). destruct (_ <=? _) eqn:E2; [zlia|].
    f_equal. replace (Z.to_nat _) with (length rest) by (unfold zlen in *; lia).
    rewrite drop_ge, app_nil_r by lia. f_equal. by rewrite take_app_le by (unfold zlen in *; lia).
  - assert (Hle : (length d <= length rest)%nat) by (unfold zlen in *; lia).
    replace (Z.min (zlen d) (zlen rest)) with (zlen d) by (unfold zlen in *; lia).
    replace (Z.to_nat (zlen d)) with (length d) by (unfold zlen; lia). rewrite Hcopy, firstn_all by lia.
    replace (zlen done + zlen d) with (zlen (done ++ d)) by (by rewrite zlen_app).
    rewrite IH, zlen_drop, !zlen_app. destruct (zlen (payload cs) <=? _) eqn:E2, (zlen d + _ <=? _) eqn:E3;
      try (unfold zlen in *; lia).
    + f_equal; [f_equal; lia|]. by rewrite length_app, drop_drop, <- !(assoc_L app).
    + f_equal. rewrite <- !(assoc_L app), length_drop. f_equal. rewrite take_app.
      by rewrite (take_ge d) by lia.
Qed.

(** What is left to read at an offset in the first of [cs]. *)
Definition unread (cs : list ChunkPayloadData) (offset : Z) : bytes :=
  match cs with [] => [] | c :: cs => drop (Z.to_nat offset) (user_data c) ++ payload cs end.
Definition offset_ok (cs : list ChunkPayloadData) (offset : Z) : Prop :=
  match cs with [] => True | c :: _ => 0 <= offset <= zlen (user_data c) end.

Lemma unread_0 cs : unread cs 0 = payload cs.
Proof. by destruct cs. Qed.

Lemma next_loop_spec cs max index offset nw buf :
  offset_ok cs offset -> 0 <= nw <= max ->
  exists k o, next_loop cs max index offset nw buf =
      Ok (buf ++ take (Z.to_nat (max - nw)) (unread cs offset), index + Z.of_nat k, o) /\
    (k <= length cs)%nat /\ offset_ok (drop k cs) o /\
    unread (drop k cs) o = drop (Z.to_nat (max - nw)) (unread cs offset) /\
    (k = length cs \/ unread (drop k cs) o <> []).
Proof.
  revert index offset nw buf. induction cs as [|c cs IH]; intros index offset nw buf Hok Hnw; cbn [next_loop].
  { exists 0%nat, offset. cbn [unread drop length]. rewrite take_nil, app_nil_r, Z.add_0_r. split_and!; auto; by destruct (Z.to_nat _). }
  cbn [offset_ok unread] in *. set (d := user_data c) in *.
  rewrite slice_Ok by lia. cbn [mbind outcome_bind].
  assert (Hs : take (Z.to_nat (zlen d - offset)) (drop (Z.to_nat offset) d) = drop (Z.to_nat offset) d).
  { apply take_ge. rewrite length_drop. unfold zlen in *; lia. }
  rewrite Hs. clear Hs. set (r := drop (Z.to_nat offset) d) in *.
  assert (Hr : zlen r = zlen d - offset) by (unfold r; rewrite zlen_drop; unfold zlen in *; lia).
  rewrite slice_Ok by (unfold zlen in *; lia). cbn [mbind outcome_bind]. fold r.
  replace (offset + Z.min _ _ - offset) with (Z.min (zlen r) (max - nw)) by lia.
  destruct (_ <? _) eqn:E.
  - exists 0%nat, (offset + (max - nw)). cbn [drop unread offset_ok].
    replace (Z.min _ _) with (max - nw) by lia. fold d.
    assert (Hlt : (Z.to_nat (max - nw) < length r)%nat) by (unfold zlen in *; lia).
    split_and!; try lia.
    + rewrite take_app_le by lia. do 3 f_equal; lia.
    + rewrite drop_app_le by lia. f_equal. unfold r. rewrite drop_drop. f_equal. lia.
    + right. intros [Hd _]%app_eq_nil. apply (f_equal length) in Hd. rewrite length_drop in Hd.
      cbn in Hd. unfold zlen in *. lia.
  - destruct (IH (index + 1) 0 (nw + Z.min (zlen r) (max - nw)) (buf ++ r)) as (k & o & E1 & Hk & Ho & Hu & Hl);
      [destruct cs; cbn; try done; zlen_pos; lia|lia|].
    exists (S k), o. cbn [drop]. rewrite unread_0 in *.
    replace (Z.to_nat (Z.min _ _)) with (length r) by (unfold zlen in *; lia). rewrite firstn_all, E1.
    split_and!; try done; try (cbn [length]; lia).
    + f_equal. f_equal. f_equal; [|lia]. rewrite <- (assoc_L app). f_equal.
      rewrite take_app, (take_ge r) by (unfold zlen in *; lia). f_equal. f_equal. unfold zlen in *; lia.
    + rewrite Hu, drop_app, (drop_ge r) by (unfold zlen in *; lia). cbn [app]. f_equal. unfold zlen in *; lia.
    + destruct Hl as [->|Hl]; auto.
Qed.

(** Calling [next] until it returns [None]. *)
Fixpoint walk (fuel : nat) (c : Chunks) (max_length : Z) : result (list bytes) :=
  match fuel with
  | O => Diverge
  | S fuel =>
      '(piece, c) ← Chunks_next c max_length;
      match piece with
      | None => Ok []
      | Some b => r ← walk fuel c max_length; Ok (b :: r)
      end
  end.

Definition cursor_unread (c : Chunks) : bytes := unread (drop (Z.to_nat (ck_index c)) (chunks c)) (ck_offset c).
Definition cursor_ok (c : Chunks) : Prop :=
  0 <= ck_index c <= zlen (chunks c) /\ offset_ok (drop (Z.to_nat (ck_index c)) (chunks c)) (ck_offset c).

Lemma Chunks_next_spec c max : cursor_ok c -> 0 <= max -> ck_index c < zlen (chunks c) ->
  exists c', Chunks_next c max = Ok (Some (take (Z.to_nat max) (cursor_unread c)), c') /\ cursor_ok c' /\
    cursor_unread c' = drop (Z.to_nat max) (cursor_unread c) /\
    (ck_index c' = zlen (chunks c') \/ cursor_unread c' <> []).
Proof.
  intros [Hi Ho] Hm Hlt. unfold Chunks_next. destruct (_ <=? _) eqn:E; [lia|].
  destruct (next_loop_spec _ max (ck_index c) _ 0 [] Ho ltac:(lia)) as (k & o & E1 & Hk & Ho' & Hu & Hl).
  rewrite E1, Z.sub_0_r in *. cbn [mbind outcome_bind app]. eexists; split; [done|].
  unfold cursor_ok, cursor_unread; cbn [chunks ck_index ck_offset].
  replace (Z.to_nat (ck_index c + Z.of_nat k)) with (Z.to_nat (ck_index c) + k)%nat by lia.
  rewrite <- drop_drop. rewrite length_drop in Hk, Hl.
  split_and!; try done; unfold zlen in *; [lia..|]. destruct Hl as [->|Hl]; [left; lia|by right].
Qed.

Lemma Chunks_next_done c max : zlen (chunks c) <= ck_index c -> Chunks_next c max = Ok (None, c).
Proof. intros H. unfold Chunks_next. destruct (_ <=? _) eqn:E; [done|lia]. Qed.

Lemma walk_spec max n c : 0 < max -> cursor_ok c -> (length (cursor_unread c) <= n)%nat ->
  exists ps, walk (S (S n)) c max = Ok ps /\ concat ps = cursor_unread c /\
    Forall (fun p => zlen p <= max) ps /\ Forall (fun p => zlen p = max) (removelast ps).
Proof.
  intros Hm. revert c. induction n as [n IH] using lt_wf_ind. intros c Hc Hn.
  destruct (decide (zlen (chunks c) <= ck_index c)) as [Hd|Hd].
  { exists []. cbn [walk]. rewrite Chunks_next_done by done. split_and!; auto. cbn. unfold cursor_unread.
    rewrite drop_ge; [done|]. unfold zlen in Hd. lia. }
  destruct (Chunks_next_spec c max Hc ltac:(lia) ltac:(lia)) as (c' & E & Hc' & Hu & Hl).
  assert (Hpiece : zlen (take (Z.to_nat max) (cursor_unread c)) <= max) by (rewrite zlen_take; lia).
  destruct (decide (cursor_unread c' = [])) as [Hz|Hz].
  - destruct Hl as [Hl|Hl]; [|done]. exists [take (Z.to_nat max) (cursor_unread c)].
    cbn [walk]. rewrite E. cbn [mbind outcome_bind]. rewrite Chunks_next_done by lia. split_and!; auto.
    cbn [concat]. by rewrite <- Hz, Hu, take_drop.
  - assert (Hlen : (Z.to_nat max < length (cursor_unread c))%nat).
    { destruct (decide (length (cursor_unread c) <= Z.to_nat max)%nat); [|lia]. by rewrite Hu, drop_ge in Hz. }
    destruct n as [|n]; [lia|].
    destruct (IH n ltac:(lia) c' Hc') as (ps & Ew & Hcat & Hall & Hfull); [rewrite Hu, length_drop; lia|].
    exists (take (Z.to_nat max) (cursor_unread c) :: ps).
    change (walk (S (S (S n))) c max) with ('(piece, c) ← Chunks_next c max;
      match piece with None => Ok [] | Some b => r ← walk (S (S n)) c max; Ok (b :: r) end).
    rewrite E. cbn [mbind outcome_bind]. rewrite Ew. cbn [mbind outcome_bind concat removelast].
    split_and!; auto; [by rewrite Hcat, Hu, take_drop|].
    destruct ps as [|p ps]; [cbn in Hcat; congruence|]. constructor; [|done]. rewrite zlen_take. unfold zlen; lia.
Qed.

(** The three ways to read a message give the same bytes, the fragments' bytes in
    order: [to_payload] returns them when they fit the limit and fails otherwise,
    [read] writes them at the front of the buffer, leaving the rest of it, and fails
    when they do not fit, having filled the buffer with their beginning, and calling
    [next] with any positive size until it returns [None] terminates and yields them
    in pieces of exactly that size, a shorter last piece apart. *)
Theorem message_reads_agree arr s p cs max_len buf size : 0 < size ->
  let m := payload cs in
  let c := Chunks_new arr s p cs in
  to_payload c max_len = (if max_len <? zlen m then Err ErrShortBuffer else Ok m) /\
  Chunks_read c buf = (if zlen m <=? zlen buf then (Ok (zlen m), m ++ drop (length m) buf)
                       else (Err ErrShortBuffer, take (length buf) m)) /\
  exists ps, walk (S (S (length m))) c size = Ok ps /\ concat ps = m /\
    Forall (fun p => zlen p <= size) ps /\ Forall (fun p => zlen p = size) (removelast ps).
Proof.
  intros Hs m c. split_and!.
  - unfold to_payload, Chunks_len, c, m. cbn [chunks Chunks_new]. by rewrite <- zlen_payload, foldl_payload.
  - unfold Chunks_read. apply (read_loop_spec cs [] buf).
  - destruct (walk_spec size (length m) c Hs) as (ps & ? & Hcat & ? & ?).
    + unfold c, cursor_ok; cbn [ck_index ck_offset chunks Chunks_new]. pose proof (zlen_nonneg cs).
      split; [lia|]. cbn [Z.to_nat]. rewrite drop_0. destruct cs as [|c0 cs0]; cbn [offset_ok]; [done|]. pose proof (zlen_nonneg (user_data c0)). lia.
    + unfold cursor_unread, c; cbn [ck_index ck_offset chunks Chunks_new Z.to_nat]. by rewrite drop_0, unread_0.
    + exists ps. split_and!; try done. rewrite Hcat. unfold cursor_unread, c; cbn [ck_index ck_offset chunks Chunks_new Z.to_nat]. by rewrite drop_0, unread_0.
Qed.

(** * An ordered stream *)

(** The positions of the fragments received, in order. *)
Definition positions (n : nat) (ps : list nat) : Prop :=
  ascending Z.of_nat ps /\ Forall (fun j => (j < n)%nat) ps.

Lemma positions_seq n ps : positions n ps -> (forall j, (j < n)%nat -> j ∈ ps) -> ps = seq 0 n.
Proof.
  intros [Ha Hb] Hall. rewrite Forall_forall in Hb.
  assert (AntiSymm (=) (fun x y : nat => Z.of_nat x < Z.of_nat y)) by (intros x y; lia).
  assert (Hs : forall a m, ascending Z.of_nat (seq a m)).
  { intros a m. revert a. induction m as [|m IH]; intros a; cbn; constructor; [apply IH|].
    apply Forall_forall. intros x Hx%list_elem_of_In%in_seq. lia. }
  apply (StronglySorted_unique (fun x y : nat => Z.of_nat x < Z.of_nat y)); [done|apply Hs|].
  apply NoDup_Permutation; [by eapply ascending_NoDup|by eapply ascending_NoDup, Hs|].
  intros x. split; [intros Hx; apply list_elem_of_In, in_seq; specialize (Hb x Hx); lia|].
  intros Hx%list_elem_of_In%in_seq. apply Hall. lia.
Qed.

Lemma positions_insert n ps j : positions n ps -> (j < n)%nat -> j ∉ ps ->
  positions n (insert_at (partition_point (fun x => bool_decide (x < j)%nat) ps) j ps).
Proof.
  intros [Ha Hb] Hj Hn. split.
  - apply ascending_insert; [done| |].
    + intros y _. rewrite bool_decide_eq_true. lia.
    + intros y Hy E. assert (y = j) by lia. congruence.
  - rewrite Forall_forall in *. intros x [->|Hx]%elem_of_insert_at; auto.
Qed.

Section OrderedStream.
Context (oc : bool) (sid : Z) (frag : nat -> nat -> ChunkPayloadData) (len : nat -> nat) (base : nat -> Z).

(** Message [i] as it was sent: [len i] fragments with consecutive TSNs from
    [base i] on, the B bit on the first and the E bit on the last. *)
Definition sent_message (i : nat) : list ChunkPayloadData := map (frag i) (seq 0 (len i)).

Record message_ok (i : nat) : Prop := mkMessageOk {
  mo_len : (0 < len i)%nat /\ Z.of_nat (len i) < 2147483648;
  mo_base : is_u32 (base i);
  (* with overflow checks, the TSNs of the message must not wrap *)
  mo_wrap : oc = false \/ base i + Z.of_nat (len i) <= 4294967296;
  mo_frag : forall j, (j < len i)%nat ->
    stream_identifier (frag i j) = sid /\ unordered (frag i j) = false /\
    stream_sequence_number (frag i j) = as_u16 (Z.of_nat i) /\ tsn (frag i j) = as_u32 (base i + Z.of_nat j) /\
    beginning_fragment (frag i j) = bool_decide (j = 0%nat) /\
    ending_fragment (frag i j) = bool_decide (S j = len i)
}.

Lemma frag_tsn_eq i j j' : message_ok i -> (j < len i)%nat -> (j' < len i)%nat ->
  tsn (frag i j) = tsn (frag i j') <-> j = j'.
Proof.
  intros [Hl Hb _ Hf] Hj Hj'. destruct (Hf j Hj) as (_ & _ & _ & -> & _), (Hf j' Hj') as (_ & _ & _ & -> & _).
  unfold as_u32, is_u32 in *. split; [intros|intros ->; done]. mlia.
Qed.

Lemma frag_tsn_lt i j j' : message_ok i -> (j < len i)%nat -> (j' < len i)%nat ->
  sna32lt (tsn (frag i j)) (tsn (frag i j')) = bool_decide (j < j')%nat.
Proof.
  intros [Hl Hb _ Hf] Hj Hj'. destruct (Hf j Hj) as (_ & _ & _ & -> & _), (Hf j' Hj') as (_ & _ & _ & -> & _).
  apply eq_true_iff_eq. rewrite bool_decide_eq_true, sna32lt_spec by apply as_u32_range.
  unfold off32, as_u32, is_u32 in *. mlia.
Qed.

Lemma contiguous_frags i p qs : message_ok i -> positions (len i) (p :: qs) ->
  contiguous_loop oc (tsn (frag i p)) (map (frag i) qs) = Ok (bool_decide (qs = seq (S p) (length qs))).
Proof.
  intros Hm. revert p. induction qs as [|q qs IH]; intros p [Ha Hb]; [done|]. cbn [map contiguous_loop length seq].
  apply Forall_cons in Hb as [Hp Hb]. pose proof Hb as [Hq _]%Forall_cons.
  assert (Hpq : (p < q)%nat) by (inversion Ha as [|? ? ? Hf]; subst; apply Forall_cons in Hf as [? _]; lia).
  destruct Hm as [Hl Hbase Hw Hf] eqn:Em. clear Em. pose proof (Hf p Hp) as (_ & _ & _ & Ep & _).
  pose proof (Hf q Hq) as (_ & _ & _ & Eq & _).
  assert (add_ovf (E:=Error) oc 4294967296 (tsn (frag i p)) 1 = Ok (as_u32 (base i + Z.of_nat p + 1))) as ->.
  { rewrite Ep. unfold add_ovf, as_u32, is_u32 in *. destruct Hw as [->|Hw].
    - cbn [andb]. destruct (_ <? _) eqn:E; f_equal; mlia.
    - destruct (_ <? _) eqn:E; [f_equal; mlia|exfalso; mlia]. }
  cbn [mbind outcome_bind]. destruct (tsn (frag i q) =? as_u32 (base i + Z.of_nat p + 1)) eqn:E; cbn [negb].
  - assert (q = S p) as -> by (rewrite Eq in E; unfold as_u32, is_u32 in *; mlia).
    rewrite IH by (split; [by inversion Ha|done]). f_equal. apply bool_decide_ext. split; congruence.
  - f_equal. symmetry. apply bool_decide_eq_false. intros [= ->].
    rewrite Eq in E. replace (base i + Z.of_nat (S p)) with (base i + Z.of_nat p + 1) in E by lia. lia.
Qed.

(** A set of fragments is complete exactly when all of them are there. *)
Lemma is_complete_frags i c ps : message_ok i -> positions (len i) ps -> chunks c = map (frag i) ps ->
  is_complete oc c = Ok (bool_decide (ps = seq 0 (len i))).
Proof.
  intros Hm Hp Hc. unfold is_complete. rewrite Hc. pose proof (mo_len i Hm) as [Hl _].
  destruct ps as [|p qs]; cbn [map].
  { f_equal. symmetry. apply bool_decide_eq_false. by destruct (len i); [lia|]. }
  pose proof Hp as [_ Hb]. rewrite last_map.
  assert (Hlast : (List.last qs p < len i)%nat).
  { apply Forall_cons in Hb as [Hpb Hb]. clear Hc Hp. revert p Hpb. induction Hb as [|q qs Hq Hqs IH]; intros p Hpb; [done|].
    cbn [List.last]. destruct qs; [done|]. exact (IH p Hpb). }
  apply Forall_cons in Hb as [Hpb Hb].
  destruct (mo_frag i Hm p Hpb) as (_ & _ & _ & _ & -> & _).
  destruct (mo_frag i Hm _ Hlast) as (_ & _ & _ & _ & _ & ->).
  rewrite (contiguous_frags i p qs) by done.
  destruct (bool_decide (p = 0%nat)) eqn:E0; cbn [negb].
  2:{ f_equal. symmetry. apply bool_decide_eq_false. apply bool_decide_eq_false in E0.
      destruct (len i); [lia|]. cbn. congruence. }
  apply bool_decide_eq_true in E0 as ->.
  assert (Hiff : 0%nat :: qs = seq 0 (len i) <-> qs = seq 1 (length qs) /\ S (List.last qs 0%nat) = len i).
  { split.
    - intros E. destruct (len i) as [|n]; [lia|]. cbn in E. injection E as E. rewrite E, length_seq, seq_last. auto.
    - intros [E El]. rewrite E, seq_last in El. rewrite <- El, E at 1. cbn [seq Nat.add]. done. }
  destruct (bool_decide (S _ = len i)) eqn:E1; cbn [negb]; f_equal.
  - apply bool_decide_eq_true in E1. apply bool_decide_ext. naive_solver.
  - symmetry. apply bool_decide_eq_false. apply bool_decide_eq_false in E1. naive_solver.
Qed.

(** Where a fragment goes among those received. *)
Definition place (j : nat) (ps : list nat) : list nat :=
  insert_at (partition_point (fun x => bool_decide (x < j)%nat) ps) j ps.

Lemma Chunks_push_frag i c ps j : message_ok i -> positions (len i) ps -> chunks c = map (frag i) ps ->
  (j < len i)%nat -> j ∉ ps ->
  Chunks_push oc c (frag i j) =
    Ok (bool_decide (place j ps = seq 0 (len i)), with_chunks c (map (frag i) (place j ps))).
Proof.
  intros Hm Hp Hc Hj Hn. unfold Chunks_push. rewrite Hc, partition_point_map.
  destruct Hp as [Ha Hb]. pose proof Hb as Hb'. rewrite Forall_forall in Hb'.
  rewrite (partition_point_ext _ (fun x => bool_decide (x < j)%nat)) by (intros x Hx; apply frag_tsn_lt; auto).
  rewrite insert_at_map. fold (place j ps).
  assert (Hins : is_complete oc (with_chunks c (map (frag i) (place j ps))) = Ok (bool_decide (place j ps = seq 0 (len i)))).
  { apply is_complete_frags; [done|by apply positions_insert|done]. }
  rewrite Hins. cbn [mbind outcome_bind].
  rewrite list_lookup_fmap. destruct (ps !! _) as [x|] eqn:Ex; cbn [fmap option_fmap option_map]; [|done].
  apply list_elem_of_lookup_2 in Ex. destruct (tsn (frag i x) =? tsn (frag i j)) eqn:E; [|done].
  apply Z.eqb_eq, frag_tsn_eq in E; [by subst|done|auto|done].
Qed.

(** The SSNs of the messages less than half a turn ahead. *)
Definition ahead (k i : nat) : Prop := (k <= i)%nat /\ Z.of_nat i < Z.of_nat k + 32768.

Lemma ssn_lt k i i' : ahead k i -> ahead k i' ->
  sna16lt (as_u16 (Z.of_nat i)) (as_u16 (Z.of_nat i')) = bool_decide (i < i')%nat.
Proof.
  unfold ahead. intros. apply eq_true_iff_eq. rewrite bool_decide_eq_true, sna16lt_spec by apply as_u16_range.
  unfold off16, as_u16. mlia.
Qed.
Lemma ssn_eq k i i' : ahead k i -> ahead k i' -> as_u16 (Z.of_nat i) = as_u16 (Z.of_nat i') -> i = i'.
Proof. unfold ahead, as_u16. intros. mlia. Qed.
Lemma ssn_gt k i : ahead k i -> sna16gt (as_u16 (Z.of_nat i)) (as_u16 (Z.of_nat k)) = bool_decide (i <> k).
Proof.
  unfold ahead. intros. apply eq_true_iff_eq. rewrite bool_decide_eq_true, sna16gt_spec by apply as_u16_range.
  unfold off16, as_u16. mlia.
Qed.
Lemma ahead_self k : ahead k k.
Proof. unfold ahead. lia. Qed.

(** A set of chunks stands for the fragments of message [d.1] at the positions [d.2]. *)
Definition stands_for (c : Chunks) (d : nat * list nat) : Prop :=
  ssn c = as_u16 (Z.of_nat d.1) /\ chunks c = map (frag d.1) d.2.

(** After [k] messages were read and the fragments [got] arrived, the queue holds
    the sets [d]. *)
Record stream_inv (k : nat) (got : gset (nat * nat)) (d : list (nat * list nat)) (q : ReassemblyQueue) : Prop :=
  mkStreamInv {
  sv_si : si q = sid;
  sv_next : next_ssn q = as_u16 (Z.of_nat k);
  sv_un : rq_unordered q = [];
  sv_sets : Forall2 stands_for (rq_ordered q) d;
  sv_asc : ascending (fun p => Z.of_nat p.1) d;
  sv_each : Forall (fun p => ahead k p.1 /\ p.2 <> [] /\ positions (len p.1) p.2) d;
  sv_bytes : rq_n_bytes q = zsum Chunks_len (rq_ordered q);
  sv_got : forall i j, (exists ps, (i, ps) ∈ d /\ j ∈ ps) <-> (i, j) ∈ got /\ (k <= i)%nat;
  sv_read : forall i j, (i < k)%nat -> (j < len i)%nat -> (i, j) ∈ got
}.

Lemma stream_inv_new : stream_inv 0 ∅ [] (ReassemblyQueue_new sid).
Proof.
  split; try done; try constructor; try lia; [|set_solver].
  intros (ps & Hd & _). by apply elem_of_nil in Hd.
Qed.

(** The scan for the set of an arriving fragment. *)
Lemma stream_index k got d q i : stream_inv k got d q -> ahead k i ->
  partition_point (fun c => sna16lt (ssn c) (as_u16 (Z.of_nat i))) (rq_ordered q) =
  partition_point (fun p => bool_decide (p.1 < i)%nat) d.
Proof.
  intros [_ _ _ Hs _ He _ _ _] Hi. induction Hs as [|c p l d [Hc _] Hs IH]; [done|].
  apply Forall_cons in He as [[Hp _] He]. cbn [partition_point]. rewrite Hc, (ssn_lt k) by done.
  case_match; [|done]. by rewrite (IH He).
Qed.

(** The set of message [i], if there is one, is at the index found. *)
Lemma stream_found d i ps : ascending (fun p : nat * list nat => Z.of_nat p.1) d -> (i, ps) ∈ d ->
  d !! partition_point (fun p => bool_decide (p.1 < i)%nat) d = Some (i, ps).
Proof.
  unfold ascending. induction 1 as [|z d Hs IH Hf]; intros Hin; [by apply elem_of_nil in Hin|].
  rewrite Forall_forall in Hf. cbn [partition_point]. apply elem_of_cons in Hin as [<-|Hin]; cbn [fst].
  - by rewrite bool_decide_eq_false_2 by lia.
  - rewrite bool_decide_eq_true_2 by (specialize (Hf _ Hin); cbn in Hf; lia). cbn. auto.
Qed.

(** [got] restricted to the messages not yet read is what the sets hold. *)
Definition held (k : nat) (got : gset (nat * nat)) (d : list (nat * list nat)) : Prop :=
  forall i j, (exists ps, (i, ps) ∈ d /\ j ∈ ps) <-> (i, j) ∈ got /\ (k <= i)%nat.

Lemma held_replace k got i j ps l1 l2 : (k <= i)%nat -> held k got (l1 ++ (i, ps) :: l2) ->
  held k ({[(i, j)]} ∪ got) (l1 ++ (i, place j ps) :: l2).
Proof.
  intros Hk H i' j'. rewrite elem_of_union, elem_of_singleton. specialize (H i' j').
  setoid_rewrite elem_of_app in H. setoid_rewrite elem_of_cons in H.
  setoid_rewrite elem_of_app. setoid_rewrite elem_of_cons. unfold place. split.
  - intros (ps' & [Hin|[[= -> ->]|Hin]] & Hj).
    + destruct (proj1 H) as [? ?]; [by exists ps'; auto|auto].
    + apply elem_of_insert_at in Hj as [->|Hj]; [auto|]. destruct (proj1 H) as [? ?]; [exists ps; auto|auto].
    + destruct (proj1 H) as [? ?]; [by exists ps'; auto|auto].
  - intros [[[= -> ->]|Hin] Hki].
    + exists (insert_at (partition_point (fun x => bool_decide (x < j)%nat) ps) j ps).
      rewrite elem_of_insert_at. auto.
    + destruct (proj2 H (conj Hin Hki)) as (ps' & [?|[[= -> ->]|?]] & Hj); [by exists ps'; auto| |by exists ps'; auto].
      exists (insert_at (partition_point (fun x => bool_decide (x < j)%nat) ps) j ps). rewrite elem_of_insert_at. auto.
Qed.

Lemma held_fresh k got i j l1 l2 : (k <= i)%nat -> held k got (l1 ++ l2) ->
  held k ({[(i, j)]} ∪ got) (l1 ++ (i, [j]) :: l2).
Proof.
  intros Hk H i' j'. rewrite elem_of_union, elem_of_singleton. specialize (H i' j').
  setoid_rewrite elem_of_app in H. setoid_rewrite elem_of_app. setoid_rewrite elem_of_cons. split.
  - intros (ps' & [Hin|[[= -> ->]|Hin]] & Hj).
    + destruct (proj1 H) as [? ?]; [by exists ps'; auto|auto].
    + apply list_elem_of_singleton in Hj as ->. auto.
    + destruct (proj1 H) as [? ?]; [by exists ps'; auto|auto].
  - intros [[[= -> ->]|Hin] Hki]; [exists [j]; split; [auto|left]|].
    destruct (proj2 H (conj Hin Hki)) as (ps' & [?|?] & Hj); by exists ps'; auto.
Qed.

Lemma ascending_replace {A} (key : A -> Z) l1 x y l2 : key x = key y ->
  ascending key (l1 ++ x :: l2) -> ascending key (l1 ++ y :: l2).
Proof.
  intros E. rewrite !ascending_app, !ascending_cons. intros (H1 & [H2 H3] & H4). split_and!; try done.
  - intros z Hz. rewrite <- E. auto.
  - intros a b Ha [->|Hb]%elem_of_cons; [rewrite <- E; apply H4; [done|left]|apply H4; [done|by right]].
Qed.

(** The set of a message whose first fragment arrives. *)
Lemma stream_push_fresh k got d q i j :
  message_ok i -> stream_inv k got d q -> ahead k i -> (j < len i)%nat -> (forall ps, (i, ps) ∉ d) ->
  let idx := partition_point (fun p => bool_decide (p.1 < i)%nat) d in
  exists ok d' q',
    ('(ok, cset) ← Chunks_push oc (Chunks_new (next_arrival q) (as_u16 (Z.of_nat i)) (payload_type (frag i j)) []) (frag i j);
     Ok (ok, with_ordered q (insert_at idx cset (rq_ordered q)) (rq_n_bytes q + zlen (user_data (frag i j)))
       (next_arrival q + 1))) = Ok (ok, q') /\ stream_inv k ({[(i, j)]} ∪ got) d' q'.
Proof.
  intros Hm [Hsi Hnx Hun Hs Ha He Hb Hg Hr] Hk Hj Hnone idx.
  assert (Hpos1 : positions (len i) [j]) by (split; repeat constructor; done).
  rewrite (Chunks_push_frag i _ [] j) by (done || apply not_elem_of_nil || (split; constructor)).
  cbn [mbind outcome_bind]. eexists _, (insert_at idx (i, [j]) d), _. split; [done|].
  split; cbn [si next_ssn rq_ordered rq_unordered rq_n_bytes with_ordered]; try done.
  - unfold insert_at. apply Forall2_app; [by apply Forall2_take|]. constructor; [done|by apply Forall2_drop].
  - apply ascending_insert; [done| |]; intros [i' ps'] Hin; cbn [fst].
    + rewrite bool_decide_eq_true. lia.
    + intros E. assert (i' = i) as -> by lia. by apply (Hnone ps').
  - rewrite Forall_forall in *. intros p [->|Hp]%elem_of_insert_at; auto.
  - rewrite zsum_insert_at, <- Hb. unfold Chunks_len; cbn. lia.
  - apply (held_fresh k got i j); [by destruct Hk|]. by rewrite take_drop.
  - intros; apply elem_of_union_r; auto.
Qed.

(** The set of a message that gains a fragment. *)
Lemma stream_push_replace k got d q i j idx c ps n arr :
  stream_inv k got d q -> ahead k i -> (j < len i)%nat -> j ∉ ps ->
  rq_ordered q !! idx = Some c -> d !! idx = Some (i, ps) -> n = rq_n_bytes q + zlen (user_data (frag i j)) ->
  stream_inv k ({[(i, j)]} ∪ got) (<[idx := (i, place j ps)]> d)
    (with_ordered q (<[idx := with_chunks c (map (frag i) (place j ps))]> (rq_ordered q)) n arr).
Proof.
  intros [Hsi Hnx Hun Hs Ha He Hb Hg Hr] Hk Hj Hjps Ec Ed ->.
  destruct (Forall2_lookup_lr _ _ _ _ _ _ Hs Ec Ed) as [Hssn Hchunks]. cbn [fst snd] in *.
  pose proof (Forall_lookup_1 _ _ _ _ He Ed) as (_ & _ & Hps). cbn [fst snd] in *.
  pose proof (lookup_lt_Some _ _ _ Ec) as Hlt. pose proof (lookup_lt_Some _ _ _ Ed) as Hltd.
  pose proof (take_drop_middle _ _ _ Ed) as Hd. pose proof (take_drop_middle _ _ _ Ec) as Hc.
  split; cbn [si next_ssn rq_ordered rq_unordered rq_n_bytes with_ordered]; try done.
  - by apply Forall2_insert.
  - rewrite insert_take_drop by done. apply (ascending_replace _ _ (i, ps)); [done|]. by rewrite Hd.
  - apply Forall_insert; [done|]. cbn [fst snd]. split_and!; [done| |by apply positions_insert].
    unfold place, insert_at. by destruct (take _ ps).
  - assert (Chunks_len (with_chunks c (map (frag i) (place j ps))) = zlen (user_data (frag i j)) + Chunks_len c).
    { unfold Chunks_len; cbn [chunks with_chunks]. unfold place. by rewrite Hchunks, <- insert_at_map, zsum_insert_at. }
    rewrite insert_take_drop, Hb by done. rewrite <- Hc at 1. rewrite !zsum_app, !zsum_cons. lia.
  - rewrite insert_take_drop by done. apply held_replace; [by destruct Hk|]. by rewrite Hd.
  - intros; apply elem_of_union_r; auto.
Qed.

(** A fragment that has not arrived before is taken into the set of its message. *)
Lemma stream_push k got d q i j :
  (forall i, message_ok i) -> stream_inv k got d q ->
  (i, j) ∉ got -> (j < len i)%nat -> Z.of_nat i < Z.of_nat k + 32768 ->
  exists ok d' q', ReassemblyQueue_push oc q (frag i j) = Ok (ok, q') /\ stream_inv k ({[(i, j)]} ∪ got) d' q'.
Proof.
  intros Hm Hinv Hnew Hj Hwin. pose proof Hinv as [Hsi Hnx Hun Hs Ha He Hb Hg Hr].
  assert (Hk : (k <= i)%nat) by (destruct (decide (k <= i)%nat); [done|destruct Hnew; apply Hr; lia]).
  assert (Hahead : ahead k i) by done.
  destruct (mo_frag i (Hm i) j Hj) as (Esid & Eun & Essn & _).
  unfold ReassemblyQueue_push. rewrite Esid, Hsi, Z.eqb_refl, Eun, Essn, Hnx. cbn [negb].
  rewrite (ssn_lt k), bool_decide_eq_false_2 by (done || lia || apply ahead_self).
  rewrite (stream_index k got d q i Hinv Hahead).
  pose proof (stream_push_fresh k got d q i j (Hm i) Hinv Hahead Hj) as Hfresh.
  pose proof (fun ps => stream_found d i ps Ha) as Hfound.
  set (idx := partition_point _ d) in *. cbv zeta in Hfresh.
  destruct (rq_ordered q !! idx) as [c|] eqn:Ec.
  2:{ apply Hfresh. intros ps Hin%Hfound.
      apply lookup_ge_None_1 in Ec. rewrite (Forall2_length _ _ _ Hs) in Ec. apply lookup_lt_Some in Hin. lia. }
  destruct (Forall2_lookup_l _ _ _ _ _ Hs Ec) as ([i' ps] & Ed & Hssn & Hchunks). cbn [fst snd] in *.
  assert (Hin' : (i', ps) ∈ d) by (by eapply list_elem_of_lookup_2).
  pose proof (Forall_lookup_1 _ _ _ _ He Ed) as (Hah & _ & Hps). cbn [fst snd] in *.
  destruct (ssn c =? as_u16 (Z.of_nat i)) eqn:Es.
  2:{ apply Hfresh. intros ps' Hin%Hfound. rewrite Ed in Hin. injection Hin as -> ->. lia. }
  assert (i' = i) as -> by (apply (ssn_eq k); [done|done|lia]).
  assert (Hjps : j ∉ ps) by (intros Hjp; apply Hnew, (Hg i j); eauto).
  rewrite (Chunks_push_frag i c ps j) by done. cbn [mbind outcome_bind].
  eexists _, _, _. split; [done|]. by eapply stream_push_replace.
Qed.

(** All fragments of message [k] have arrived. *)
Definition message_complete (k : nat) (got : gset (nat * nat)) : bool :=
  forallb (fun j => bool_decide ((k, j) ∈ got)) (seq 0 (len k)).

Lemma stream_complete k got d q : (0 < len k)%nat -> stream_inv k got d q ->
  message_complete k got = true <-> exists d', d = (k, seq 0 (len k)) :: d'.
Proof.
  intros Hl [_ _ _ _ Ha He _ Hg _]. unfold message_complete. rewrite forallb_forall.
  setoid_rewrite bool_decide_eq_true. setoid_rewrite in_seq. split.
  - intros Hall. destruct (proj2 (Hg k 0%nat)) as (ps & Hin & H0); [split; [apply Hall; lia|lia]|].
    assert (Hps : ps = seq 0 (len k)).
    { rewrite Forall_forall in He. destruct (He _ Hin) as (_ & _ & Hpos). apply positions_seq; [done|].
      intros j Hj. destruct (proj2 (Hg k j)) as (ps' & Hin' & Hj'); [split; [apply Hall; lia|lia]|].
      assert ((k, ps') = (k, ps)) as [= ->] by (by eapply (ascending_unique _ d)). done. }
    subst ps. destruct d as [|[i ps] d]; [by apply elem_of_nil in Hin|].
    apply elem_of_cons in Hin as [<-|Hin]; [by exists d|]. apply ascending_cons in Ha as [_ Ha].
    apply Forall_cons in He as [[[? _] _] _]. specialize (Ha _ Hin). cbn in *. lia.
  - intros [d' ->] j Hj. apply (Hg k j). exists (seq 0 (len k)). split; [by left|]. apply list_elem_of_In, in_seq. lia.
Qed.

Lemma stream_inv_pop k got d c q : stream_inv k got ((k, seq 0 (len k)) :: d) q -> rq_ordered q = c :: tail (rq_ordered q) ->
  stream_inv (S k) got d (subtract_num_bytes (pop_ordered q c) (Chunks_len c)).
Proof.
  intros [Hsi Hnx Hun Hs Ha He Hb Hg Hr] Hq. rewrite Hq in Hs, Hb.
  apply Forall2_cons in Hs as [[Hssn Hc] Hs]. apply ascending_cons in Ha as [Ha Hlt]. apply Forall_cons in He as [_ He].
  cbn [fst] in *. rewrite zsum_cons in Hb.
  pose proof (zsum_nonneg Chunks_len (tail (rq_ordered q))) as Hnn.
  assert (0 <= zsum Chunks_len (tail (rq_ordered q))).
  { apply Hnn. intros x. unfold Chunks_len. apply zsum_nonneg. intros; apply zlen_nonneg. }
  split; cbn [si next_ssn rq_ordered rq_unordered rq_n_bytes subtract_num_bytes pop_ordered]; try done.
  - rewrite Hssn, Hnx, Z.eqb_refl. unfold as_u16. mlia.
  - rewrite Forall_forall in *. intros p Hp. destruct (He p Hp) as ([H1 H2] & H3). split; [|done].
    specialize (Hlt p Hp). unfold ahead in *. lia.
  - destruct (_ <=? _) eqn:E; lia.
  - intros i j. specialize (Hg i j). setoid_rewrite elem_of_cons in Hg. split.
    + intros (ps & Hin & Hj). specialize (Hlt _ Hin). cbn in Hlt. split; [|lia]. apply Hg. eauto.
    + intros [Hin Hk]. destruct (proj2 Hg) as (ps & [[= -> _]|Hps] & Hj); [split; [done|lia]|lia|eauto].
  - intros i j Hi Hj. destruct (decide (i = k)) as [->|]; [|apply Hr; [lia|done]].
    apply (Hg k j). exists (seq 0 (len k)). split; [by left|]. apply list_elem_of_In, in_seq. lia.
Qed.

(** [read] delivers the next message once all of it is there, and nothing before. *)
Lemma stream_read k got d q : (forall i, message_ok i) -> stream_inv k got d q ->
  is_readable oc q = Ok (message_complete k got) /\
  if message_complete k got
  then exists c d' q', ReassemblyQueue_read oc q = Ok (Some c, q') /\ chunks c = sent_message k /\ stream_inv (S k) got d' q'
  else ReassemblyQueue_read oc q = Ok (None, q).
Proof.
  intros Hm Hinv. pose proof (stream_complete k got d q (proj1 (mo_len k (Hm k))) Hinv) as Hcomp.
  pose proof Hinv as [_ Hnx Hun Hs _ He _ _ _].
  unfold is_readable, ReassemblyQueue_read, readable_unordered_chunks, readable_ordered_chunks. rewrite Hun.
  destruct (rq_ordered q) as [|c l] eqn:Eq; inversion Hs as [|? [i ps] ? d' [Hssn Hch] Hs']; subst.
  { assert (message_complete k got = false) as -> by (apply not_true_iff_false; rewrite Hcomp; by intros [? ?]). done. }
  apply Forall_cons in He as [(Hah & _ & Hpos) _]. cbn [fst snd] in *.
  rewrite (is_complete_frags i c ps) by done. cbn [mbind outcome_bind head].
  assert (Hlte : sna16lte (ssn c) (next_ssn q) = bool_decide (i = k)).
  { rewrite Hssn, Hnx. pose proof (ssn_gt k i Hah) as Hgt. apply eq_true_iff_eq.
    rewrite sna16lte_spec, bool_decide_eq_true by apply as_u16_range. unfold off16, as_u16, ahead in *. mlia. }
  assert (Hgt : sna16gt (ssn c) (next_ssn q) = bool_decide (i <> k)) by (rewrite Hssn, Hnx; by apply ssn_gt).
  rewrite Hlte, Hgt. split.
  - f_equal. apply eq_true_iff_eq. rewrite andb_true_iff, !bool_decide_eq_true, Hcomp. split.
    + intros [-> ->]. eauto.
    + intros [? [= -> -> _]]. auto.
  - destruct (message_complete k got) eqn:Ec.
    + destruct (proj1 Hcomp eq_refl) as [? [= -> -> <-]]. rewrite !bool_decide_eq_true_2 by done.
      rewrite bool_decide_eq_false_2 by tauto. cbn [negb mbind outcome_bind].
      eexists c, d', _. split; [done|]. split; [done|]. apply stream_inv_pop; [done|]. by rewrite Eq.
    + destruct (bool_decide (ps = _)) eqn:E1; cbn [negb mbind outcome_bind]; [|done].
      apply bool_decide_eq_true in E1 as ->.
      rewrite bool_decide_eq_true_2; [done|]. intros ->. enough (false = true) by done. apply Hcomp. eauto.
Qed.

(** * Runs of an ordered stream *)

(** A fragment arrives, or the application reads. *)
Inductive StreamEvent := Arrive (i j : nat) | Read.

(** The payloads read in a run of the queue. *)
Fixpoint deliver (q : ReassemblyQueue) (evs : list StreamEvent) : result (list bytes * ReassemblyQueue) :=
  match evs with
  | [] => Ok ([], q)
  | Arrive i j :: evs => r ← ReassemblyQueue_push oc q (frag i j); deliver r.2 evs
  | Read :: evs =>
      r ← ReassemblyQueue_read oc q;
      rs ← deliver r.2 evs;
      Ok (match r.1 with Some c => payload (chunks c) :: rs.1 | None => rs.1 end, rs.2)
  end.

(** The same run on the messages: how many were read and which fragments arrived.
    [None] when a fragment arrives twice or is half the SSN space ahead. *)
Fixpoint observe (k : nat) (got : gset (nat * nat)) (evs : list StreamEvent) : option (nat * gset (nat * nat)) :=
  match evs with
  | [] => Some (k, got)
  | Arrive i j :: evs =>
      if bool_decide ((i, j) ∈ got) || negb (bool_decide (j < len i)%nat) || (Z.of_nat k + 32768 <=? Z.of_nat i)
      then None else observe k ({[(i, j)]} ∪ got) evs
  | Read :: evs => observe (if message_complete k got then S k else k) got evs
  end.

Lemma observe_mono k got evs k' got' : observe k got evs = Some (k', got') -> (k <= k')%nat.
Proof.
  revert k got. induction evs as [|[i j|] evs IH]; intros k got; cbn [observe].
  - intros [= -> _]. lia.
  - case_match; [done|]. apply IH.
  - intros H%IH. destruct (message_complete k got); lia.
Qed.

Lemma deliver_observe k got d q evs k' got' :
  (forall i, message_ok i) -> stream_inv k got d q -> observe k got evs = Some (k', got') ->
  exists d' q', deliver q evs = Ok (map (fun i => payload (sent_message i)) (seq k (k' - k)), q') /\
    stream_inv k' got' d' q'.
Proof.
  intros Hm. revert k got d q. induction evs as [|[i j|] evs IH]; intros k got d q Hinv Hobs; cbn [observe deliver] in *.
  - injection Hobs as -> ->. rewrite Nat.sub_diag. eauto.
  - destruct (bool_decide _) eqn:E1; [done|]. destruct (bool_decide (j < len i)%nat) eqn:E2; [|done].
    cbn [orb negb] in Hobs. destruct (_ <=? _) eqn:E3; [done|].
    destruct (stream_push k got d q i j Hm Hinv) as (ok & d1 & q1 & -> & Hinv1);
      [by apply bool_decide_eq_false in E1|by apply bool_decide_eq_true in E2|lia|].
    cbn [mbind outcome_bind snd]. eauto.
  - destruct (stream_read k got d q Hm Hinv) as [_ Hr]. destruct (message_complete k got).
    + destruct Hr as (c & d1 & q1 & -> & Hc & Hinv1). cbn [mbind outcome_bind fst snd].
      pose proof (observe_mono _ _ _ _ _ Hobs). destruct (IH _ _ _ _ Hinv1 Hobs) as (d2 & q2 & -> & Hinv2).
      cbn [mbind outcome_bind fst snd]. exists d2, q2. split; [|done]. rewrite Hc.
      by replace (k' - k)%nat with (S (k' - S k)) by lia.
    + rewrite Hr. cbn [mbind outcome_bind fst snd].
      destruct (IH _ _ _ _ Hinv Hobs) as (d2 & q2 & -> & Hinv2). cbn [mbind outcome_bind fst snd]. eauto.
Qed.

(** C11: An ordered stream delivers its messages whole, once each and in the order they
    were sent: in every run in which the fragments of the messages arrive in any
    order, each at most once and less than half the SSN space ahead, interleaved with
    reads, no operation fails and the payloads read are those of messages
    [0, 1, ..., k - 1]; a read delivers message [k] exactly when all its fragments
    have arrived, which is also what [is_readable] reports, and the byte counter is
    the number of bytes held.  Where the code is built with overflow checks, this is for
    messages whose own TSNs do not wrap ([is_complete] adds 1 to the last TSN without
    wrapping and panics otherwise); without them, for all. *)
Theorem ordered_delivery evs k got : (forall i, message_ok i) -> observe 0 ∅ evs = Some (k, got) ->
  exists q, deliver (ReassemblyQueue_new sid) evs = Ok (map (fun i => payload (sent_message i)) (seq 0 k), q) /\
    is_readable oc q = Ok (message_complete k got) /\ rq_n_bytes q = zsum Chunks_len (rq_ordered q).
Proof.
  intros Hm Hobs. destruct (deliver_observe 0 ∅ [] _ evs k got Hm stream_inv_new Hobs) as (d & q & E & Hinv).
  exists q. rewrite Nat.sub_0_r in E. split; [done|]. split; [|apply (sv_bytes _ _ _ _ Hinv)].
  by apply (stream_read k got d q).
Qed.
End OrderedStream.

(** Messages of two fragments each, arriving backwards. *)
Definition two_base (i : nat) : Z := (10 + 2 * Z.of_nat i) mod 4294967294.
Definition two_frags (i j : nat) : ChunkPayloadData :=
  received_payload false (bool_decide (j = 0%nat)) (bool_decide (S j = 2%nat)) false
    (as_u32 (two_base i + Z.of_nat j)) 5 (as_u16 (Z.of_nat i)) PPI_Binary [Z.of_nat i; Z.of_nat j].

Lemma two_frags_ok i : message_ok true 5 two_frags (fun _ => 2%nat) two_base i.
Proof.
  split; [lia| | |done].
  - unfold two_base, is_u32. mlia.
  - right. unfold two_base. mlia.
Qed.

Definition example_events : list StreamEvent :=
  [Arrive 1 1; Arrive 0 1; Read; Arrive 1 0; Read; Arrive 0 0; Read; Read; Read].

Lemma ordered_delivery_witness :
  exists q, deliver true two_frags (ReassemblyQueue_new 5) example_events = Ok ([[0; 0; 0; 1]; [1; 0; 1; 1]], q).
Proof.
  destruct (ordered_delivery true 5 two_frags (fun _ => 2%nat) two_base example_events 2
    {[(0, 0); (1, 0); (0, 1); (1, 1)]}%nat two_frags_ok) as (q & E & _).
  - vm_compute. reflexivity.
  - exists q. exact E.
Defined.

(** The fragments 2^32 - 1 and 0 of a message: complete where the addition wraps, and a
    panic where it is checked. *)
Lemma is_complete_overflow_panics :
  let message := Chunks_new 0 0 PPI_Binary
    [received_payload false true false false 4294967295 5 0 PPI_Binary [1]; received_payload false false true false 0 5 0 PPI_Binary [2]] in
  is_complete false message = Ok true /\ is_complete true message = Panic.
Proof. done. Qed.

Lemma message_reads_agree_witness :
  to_payload (Chunks_new 0 0 PPI_Binary [two_frags 3 0; two_frags 3 1]) 4 = Ok [3; 0; 3; 1] /\
  Chunks_read (Chunks_new 0 0 PPI_Binary [two_frags 3 0; two_frags 3 1]) [9; 9; 9] = (Err ErrShortBuffer, [3; 0; 3]) /\
  exists ps, walk 6 (Chunks_new 0 0 PPI_Binary [two_frags 3 0; two_frags 3 1]) 3 = Ok ps /\ concat ps = [3; 0; 3; 1].
Proof.
  destruct (message_reads_agree 0 0 PPI_Binary [two_frags 3 0; two_frags 3 1] 4 [9; 9; 9] 3 eq_refl)
    as (E1 & E2 & ps & E3 & E4 & _).
  split; [exact E1|]. split; [exact E2|]. exists ps. split; [exact E3|exact E4].
Defined.

(** * Unordered messages *)

(** The fragments of a message after the first: consecutive TSNs, no B bit, the E
    bit on the last only. *)
Inductive chain : Z -> list ChunkPayloadData -> Prop :=
| chain_end last c :
    beginning_fragment c = false -> tsn c = as_u32 (last + 1) -> ending_fragment c = true -> chain last [c]
| chain_next last c l :
    beginning_fragment c = false -> tsn c = as_u32 (last + 1) -> ending_fragment c = false ->
    chain (tsn c) l -> chain last (c :: l).

Inductive complete_run : list ChunkPayloadData -> Prop :=
| run_single c : beginning_fragment c = true -> ending_fragment c = true -> complete_run [c]
| run_many c l :
    beginning_fragment c = true -> ending_fragment c = false -> chain (tsn c) l -> complete_run (c :: l).

(** The length of the complete run a list starts with, and the first one of a list. *)
Fixpoint chain_len (last : Z) (cs : list ChunkPayloadData) : option Z :=
  match cs with
  | [] => None
  | c :: cs =>
      if beginning_fragment c || negb (tsn c =? as_u32 (last + 1)) then None
      else if ending_fragment c then Some 1 else Z.add 1 <$> chain_len (tsn c) cs
  end.
Definition run_len (cs : list ChunkPayloadData) : option Z :=
  match cs with
  | [] => None
  | c :: cs =>
      if beginning_fragment c then
        if ending_fragment c then Some 1 else Z.add 1 <$> chain_len (tsn c) cs
      else None
  end.
Fixpoint first_run (i : Z) (cs : list ChunkPayloadData) : option (Z * Z) :=
  match cs with
  | [] => None
  | _ :: r => match run_len cs with Some n => Some (i, n) | None => first_run (i + 1) r end
  end.

(** The TSNs for which [last_tsn + 1] does not overflow. *)
Definition can_step (oc : bool) (c : ChunkPayloadData) : Prop :=
  is_u32 (tsn c) /\ (oc = true -> tsn c <> 4294967295).

Lemma add_ovf_step oc c : can_step oc c -> add_ovf (E:=Error) oc 4294967296 (tsn c) 1 = Ok (as_u32 (tsn c + 1)).
Proof.
  intros [Hu Ho]. unfold add_ovf, as_u32, is_u32 in *. destruct (_ <? _) eqn:E; [f_equal; mlia|].
  destruct oc; [exfalso; specialize (Ho eq_refl); lia|]. f_equal. mlia.
Qed.

(** One pass with the candidate so far in hand finds what the search that tries
    every position finds. *)
Lemma find_loop_first_run oc cs : Forall (can_step oc) cs ->
  (forall i start n last, 0 <= i -> start < 0 -> find_loop oc cs i start n last = Ok (first_run i cs)) /\
  (forall i start n c, 0 <= i -> 0 <= start -> can_step oc c ->
     find_loop oc cs i start n (tsn c) =
     Ok (match chain_len (tsn c) cs with Some k => Some (start, n + k) | None => first_run i cs end)).
Proof.
  induction 1 as [|c cs Hc Hcs [IH1 IH2]]; [split; done|].
  assert (Hbegin : forall i start n last, 0 <= i -> beginning_fragment c = true ->
    find_loop oc (c :: cs) i start n last = Ok (first_run i (c :: cs))).
  { intros i start n last Hi Hb. cbn [find_loop first_run run_len]. rewrite Hb. case_match; [done|].
    rewrite IH2 by (done || lia). by destruct (chain_len (tsn c) cs). }
  split.
  - intros i start n last Hi Hs. destruct (beginning_fragment c) eqn:Hb; [by apply Hbegin|].
    cbn [find_loop first_run run_len]. rewrite Hb. destruct (start <? 0) eqn:E; [|lia]. apply IH1; lia.
  - intros i start n c0 Hi Hs H0. destruct (beginning_fragment c) eqn:Hb.
    { rewrite Hbegin by done. cbn [chain_len]. by rewrite Hb. }
    cbn [find_loop chain_len first_run run_len]. rewrite Hb, add_ovf_step by done.
    destruct (start <? 0) eqn:E; [lia|]. cbn [mbind outcome_bind orb].
    destruct (tsn c =? as_u32 (tsn c0 + 1)) eqn:Et; cbn [negb]; [|apply IH1; lia].
    destruct (ending_fragment c); [done|]. rewrite IH2 by (done || lia).
    destruct (chain_len (tsn c) cs); cbn; [|done]. do 3 f_equal. lia.
Qed.

Lemma chain_len_Some last cs n : chain_len last cs = Some n ->
  exists m l, cs = m ++ l /\ zlen m = n /\ chain last m.
Proof.
  revert last n. induction cs as [|c cs IH]; intros last n; cbn [chain_len]; [done|].
  destruct (beginning_fragment c) eqn:Hb; [done|]. destruct (tsn c =? _) eqn:Et; [|done]. cbn [orb negb].
  apply Z.eqb_eq in Et. destruct (ending_fragment c) eqn:He.
  - intros [= <-]. exists [c], cs. split_and!; [done|done|by constructor].
  - destruct (chain_len (tsn c) cs) as [k|] eqn:Ek; [|done]. intros [= <-].
    destruct (IH _ _ Ek) as (m & l & -> & <- & Hm). exists (c :: m), l.
    split_and!; [done|by rewrite zlen_cons|by constructor].
Qed.

Lemma chain_len_app last m l : chain last m -> chain_len last (m ++ l) = Some (zlen m).
Proof.
  induction 1 as [last c Hb Ht He|last c m Hb Ht He Hm IH]; cbn [app chain_len];
    rewrite Hb, He; rewrite <- Ht, Z.eqb_refl; cbn [orb negb]; [done|]. rewrite IH. cbn. by rewrite zlen_cons.
Qed.

Lemma run_len_Some cs n : run_len cs = Some n -> exists m l, cs = m ++ l /\ zlen m = n /\ complete_run m.
Proof.
  destruct cs as [|c cs]; cbn [run_len]; [done|].
  destruct (beginning_fragment c) eqn:Hb; [|done]. destruct (ending_fragment c) eqn:He.
  - intros [= <-]. exists [c], cs. split_and!; [done|done|by constructor].
  - destruct (chain_len (tsn c) cs) as [k|] eqn:Ek; [|done]. intros [= <-].
    destruct (chain_len_Some _ _ _ Ek) as (m & l & -> & <- & Hm). exists (c :: m), l.
    split_and!; [done|by rewrite zlen_cons|by constructor].
Qed.

Lemma run_len_app m l : complete_run m -> run_len (m ++ l) = Some (zlen m).
Proof.
  destruct 1 as [c Hb He|c m Hb He Hm]; cbn [app run_len]; rewrite Hb, He; [done|].
  rewrite (chain_len_app _ _ _ Hm). cbn. by rewrite zlen_cons.
Qed.

Lemma first_run_Some i cs s n : first_run i cs = Some (s, n) ->
  exists l1 m l2, cs = l1 ++ m ++ l2 /\ s = i + zlen l1 /\ n = zlen m /\ complete_run m.
Proof.
  revert i. induction cs as [|c cs IH]; intros i; cbn [first_run]; [done|].
  destruct (run_len (c :: cs)) as [k|] eqn:Ek.
  - intros [= <- <-]. destruct (run_len_Some _ _ Ek) as (m & l & E & <- & Hm).
    exists [], m, l. split_and!; try done. change (zlen (@nil ChunkPayloadData)) with 0. lia.
  - intros (l1 & m & l2 & -> & -> & -> & Hm)%IH. exists (c :: l1), m, l2. split_and!; try done. rewrite zlen_cons. lia.
Qed.

Lemma first_run_None i cs l1 m l2 : first_run i cs = None -> cs = l1 ++ m ++ l2 -> ~ complete_run m.
Proof.
  revert i cs. induction l1 as [|c l1 IH]; intros i cs Hf -> Hm.
  - assert (Hr : run_len (m ++ l2) = Some (zlen m)) by (by apply run_len_app).
    cbn [app] in Hf. destruct (m ++ l2) as [|c cs] eqn:E; [done|]. cbn [first_run] in Hf. by rewrite Hr in Hf.
  - cbn [app first_run] in Hf. destruct (run_len _); [done|]. by eapply IH.
Qed.

Lemma complete_run_nonempty m : complete_run m -> exists c l, m = c :: l.
Proof. destruct 1; eauto. Qed.

(** An arriving unordered chunk joins the loose chunks at its place in TSN order;
    if they then hold a complete run, B to E with consecutive TSNs, one such run is
    taken out whole, queued as a message and the others are left, and otherwise
    nothing is taken out and there is none: the single pass over the chunks misses
    no run that trying every position would find. *)
Theorem unordered_push_extracts oc q chunk :
  let all := insert_at (partition_point (fun c => sna32lt (tsn c) (tsn chunk)) (unordered_chunks q)) chunk (unordered_chunks q) in
  stream_identifier chunk = si q -> unordered chunk = true -> Forall (can_step oc) all ->
  exists ok q', ReassemblyQueue_push oc q chunk = Ok (ok, q') /\
    rq_ordered q' = rq_ordered q /\ next_ssn q' = next_ssn q /\ rq_n_bytes q' = rq_n_bytes q + zlen (user_data chunk) /\
    if ok : bool then
      exists l1 m l2 p, all = l1 ++ m ++ l2 /\ complete_run m /\ unordered_chunks q' = l1 ++ l2 /\
        rq_unordered q' = rq_unordered q ++ [Chunks_new (next_arrival q) 0 p m]
    else unordered_chunks q' = all /\ rq_unordered q' = rq_unordered q /\
         forall l1 m l2, all = l1 ++ m ++ l2 -> ~ complete_run m.
Proof.
  intros all Hsi Hun Hall. unfold ReassemblyQueue_push. rewrite Hsi, Z.eqb_refl, Hun. cbn [negb]. fold all.
  unfold find_complete_unordered_chunk_set. cbn [unordered_chunks].
  rewrite (proj1 (find_loop_first_run oc all Hall)) by lia. cbn [mbind outcome_bind].
  destruct (first_run 0 all) as [[s n]|] eqn:E.
  - destruct (first_run_Some _ _ _ _ E) as (l1 & m & l2 & -> & -> & -> & Hm).
    destruct (complete_run_nonempty m Hm) as (c & l & ->).
    replace (Z.to_nat (0 + zlen l1)) with (length l1) by (unfold zlen; lia).
    replace (Z.to_nat (zlen (c :: l))) with (length (c :: l)) by (unfold zlen; lia).
    rewrite drop_app_length, take_app_length. cbn [mbind outcome_bind]. eexists true, _. split; [done|].
    cbn [rq_ordered next_ssn rq_n_bytes unordered_chunks rq_unordered next_arrival]. split_and!; try done.
    exists l1, (c :: l), l2, (payload_type c). split_and!; try done.
    by rewrite take_app_length, drop_app_add, drop_app_length.
  - cbn [mbind outcome_bind]. eexists false, _. split; [done|].
    cbn [rq_ordered next_ssn rq_n_bytes unordered_chunks rq_unordered]. split_and!; try done.
    intros l1 m l2 Hm. by eapply first_run_None.
Qed.

Lemma unordered_push_extracts_witness :
  let c t b e := received_payload true b e false t 5 0 PPI_Binary [t] in
  let q := mkReassemblyQueue 5 0 [] [] [c 7 true false; c 9 false true] 2 0 in
  exists q', ReassemblyQueue_push true q (c 8 false false) = Ok (true, q') /\
    unordered_chunks q' = [] /\ rq_n_bytes q' = 3.
Proof.
  intros c q. destruct (unordered_push_extracts true q (c 8 false false)) as (ok & q' & E & _ & _ & Hn & H).
  - reflexivity.
  - reflexivity.
  - repeat constructor; cbn; intros; lia.
  - assert (ok = true) as -> by (vm_compute in E; by injection E as <-).
    exists q'. split; [exact E|]. split; [vm_compute in E; injection E as <-; reflexivity|exact Hn].
Defined.

(** * Forward TSN *)

Definition complete (oc : bool) (s : Chunks) : bool :=
  match is_complete oc s with Ok b => b | _ => false end.

Lemma contiguous_loop_Ok oc c cs : can_step oc c -> Forall (can_step oc) cs ->
  exists b, contiguous_loop oc (tsn c) cs = Ok b.
Proof.
  intros Hc Hcs. revert c Hc. induction Hcs as [|c' cs Hc' Hcs IH]; intros c Hc; cbn [contiguous_loop]; [eauto|].
  rewrite add_ovf_step by done. cbn [mbind outcome_bind]. case_match; eauto.
Qed.

Lemma is_complete_Ok oc s : Forall (can_step oc) (chunks s) -> is_complete oc s = Ok (complete oc s).
Proof.
  intros H. unfold complete. enough (exists b, is_complete oc s = Ok b) as [b ->] by done.
  unfold is_complete. destruct H as [|c cs Hc Hcs]; [eauto|]. repeat (case_match; [eauto|]). by apply contiguous_loop_Ok.
Qed.

Lemma filter_result_Ok {A} (p : A -> result bool) (f : A -> bool) l :
  Forall (fun x => p x = Ok (f x)) l -> filter_result p l = Ok (List.filter f l).
Proof. induction 1 as [|x l Hx Hl IH]; cbn; [done|]. rewrite Hx. cbn. rewrite IH. by destruct (f x). Qed.

Lemma foldl_zsum {A} (f : A -> Z) l n : foldl (fun n x => n + f x) n l = n + zsum f l.
Proof.
  revert n. induction l as [|x l IH]; intros n; cbn [foldl]; [cbn; lia|]. rewrite IH, zsum_cons. lia.
Qed.

Lemma zsum_filter_split {A} (g : A -> Z) (f : A -> bool) l :
  zsum g l = zsum g (List.filter f l) + zsum g (List.filter (fun x => negb (f x)) l).
Proof.
  induction l as [|x l IH]; [done|]. cbn [List.filter]. rewrite zsum_cons. destruct (f x); cbn [negb]; rewrite zsum_cons; lia.
Qed.

Lemma Chunks_len_nonneg s : 0 <= Chunks_len s.
Proof. unfold Chunks_len. apply zsum_nonneg. intros; apply zlen_nonneg. Qed.

Lemma forward_ordered_spec oc q last_ssn rest :
  Forall (fun s => Forall (can_step oc) (chunks s)) (rq_ordered q) ->
  rq_n_bytes q = zsum Chunks_len (rq_ordered q) + rest -> 0 <= rest ->
  let keep s := negb (sna16lte (ssn s) last_ssn) || complete oc s in
  forward_tsn_for_ordered oc q last_ssn =
  Ok {| si := si q; next_ssn := if sna16lte (next_ssn q) last_ssn then as_u16 (last_ssn + 1) else next_ssn q;
        rq_ordered := List.filter keep (rq_ordered q); rq_unordered := rq_unordered q;
        unordered_chunks := unordered_chunks q;
        rq_n_bytes := zsum Chunks_len (List.filter keep (rq_ordered q)) + rest; next_arrival := next_arrival q |}.
Proof.
  intros Hs Hb Hr keep. unfold forward_tsn_for_ordered.
  assert (Hc : Forall (fun s => is_complete oc s = Ok (complete oc s)) (rq_ordered q))
    by (eapply Forall_impl; [exact Hs|]; intros; by apply is_complete_Ok).
  rewrite (filter_result_Ok _ (fun s => negb (keep s))).
  2:{ eapply Forall_impl; [exact Hc|]. intros s E. unfold keep. cbn beta. rewrite E. by destruct (sna16lte _ _), (complete oc s). }
  cbn [mbind outcome_bind]. unfold subtract_num_bytes. cbn [rq_ordered].
  rewrite (filter_result_Ok _ keep).
  2:{ eapply Forall_impl; [exact Hc|]. intros s E. unfold keep. cbn beta. rewrite E. by destruct (sna16lte _ _), (complete oc s). }
  cbn [mbind outcome_bind si next_ssn rq_ordered rq_unordered unordered_chunks rq_n_bytes next_arrival]. do 2 f_equal.
  assert (Hlen : forall l, foldl (fun n s => n + foldl (fun acc c => acc + zlen (user_data c)) 0 (chunks s)) 0 l = zsum Chunks_len l).
  { intros l. rewrite (foldl_zsum (fun s => foldl (fun acc c => acc + zlen (user_data c)) 0 (chunks s))). cbn.
    apply zsum_ext. intros s _. by rewrite (foldl_zsum (fun c => zlen (user_data c))). }
  rewrite Hlen, Hb, (zsum_filter_split Chunks_len keep (rq_ordered q)).
  pose proof (zsum_nonneg Chunks_len (List.filter keep (rq_ordered q)) Chunks_len_nonneg).
  destruct (_ <=? _) eqn:E; lia.
Qed.

Lemma last_idx_loop_spec cs new i last :
  last_idx_loop cs new i last =
  let n := partition_point (fun c => negb (sna32gt (tsn c) new)) cs in
  if Nat.eqb n 0 then last else i + Z.of_nat n - 1.
Proof.
  revert i last. induction cs as [|c cs IH]; intros i last; [done|]. cbn [last_idx_loop partition_point].
  destruct (sna32gt (tsn c) new); [done|]. cbn [negb Nat.eqb]. rewrite IH. cbv zeta.
  destruct (Nat.eqb _ 0) eqn:E; [apply Nat.eqb_eq in E as ->|]; lia.
Qed.

Lemma foldl_subtract q cs : zsum (fun c => zlen (user_data c)) cs <= rq_n_bytes q ->
  foldl (fun q c => subtract_num_bytes q (zlen (user_data c))) q cs =
  {| si := si q; next_ssn := next_ssn q; rq_ordered := rq_ordered q; rq_unordered := rq_unordered q;
     unordered_chunks := unordered_chunks q;
     rq_n_bytes := rq_n_bytes q - zsum (fun c => zlen (user_data c)) cs; next_arrival := next_arrival q |}.
Proof.
  revert q. induction cs as [|c cs IH]; intros q H; cbn [foldl].
  - destruct q; cbn. by rewrite Z.sub_0_r.
  - rewrite zsum_cons in *. pose proof (zsum_nonneg (fun c : ChunkPayloadData => zlen (user_data c)) cs ltac:(intros; apply zlen_nonneg)).
    unfold subtract_num_bytes at 2. destruct (_ <=? _) eqn:E; [|lia].
    rewrite IH by (cbn [rq_n_bytes]; lia). cbn. f_equal. lia.
Qed.

(** A cut of a sorted list. *)
Lemma partition_filter {A} (key : A -> Z) (f : A -> bool) l b :
  ascending key l -> (forall x, x ∈ l -> f x = true <-> key x <= b) ->
  drop (partition_point f l) l = List.filter (fun x => negb (f x)) l.
Proof.
  unfold ascending. induction 1 as [|x l Hs IH Hf]; intros H; [done|]. cbn [partition_point List.filter].
  rewrite Forall_forall in Hf. destruct (f x) eqn:E; cbn [negb drop].
  - apply IH. intros; apply H; by right.
  - f_equal. symmetry. rewrite (List.filter_ext_in _ (fun _ => true)); [clear; induction l; cbn; congruence|].
    intros y Hy%list_elem_of_In. apply negb_true_iff, not_true_iff_false. rewrite (H y) by (by right).
    specialize (Hf y Hy). apply not_true_iff_false in E. rewrite (H x) in E by left. lia.
Qed.

Definition unordered_bytes (cs : list ChunkPayloadData) : Z := zsum (fun c => zlen (user_data c)) cs.

Lemma forward_unordered_spec q new base rest :
  is_u32 new -> 0 < off32 base new <= 2147483648 ->
  Forall (fun c => is_u32 (tsn c) /\ 0 < off32 base (tsn c) <= 2147483648) (unordered_chunks q) ->
  ascending (fun c => off32 base (tsn c)) (unordered_chunks q) ->
  rq_n_bytes q = unordered_bytes (unordered_chunks q) + rest -> 0 <= rest ->
  forward_tsn_for_unordered q new =
  let kept := List.filter (fun c => sna32gt (tsn c) new) (unordered_chunks q) in
  {| si := si q; next_ssn := next_ssn q; rq_ordered := rq_ordered q; rq_unordered := rq_unordered q;
     unordered_chunks := kept; rq_n_bytes := unordered_bytes kept + rest; next_arrival := next_arrival q |}.
Proof.
  intros Hn Hw Hwin Ha Hb Hr. rewrite Forall_forall in Hwin. unfold forward_tsn_for_unordered. rewrite last_idx_loop_spec.
  pose proof (partition_filter _ (fun c => negb (sna32gt (tsn c) new)) (unordered_chunks q) (off32 base new) Ha) as Hcut.
  rewrite (filter_ext (fun x => negb (negb (sna32gt (tsn x) new))) (fun x => sna32gt (tsn x) new)) in Hcut
    by (intros; apply negb_involutive).
  set (n := partition_point _ _) in *. cbv zeta. rewrite <- Hcut; clear Hcut.
  2:{ intros c Hc. destruct (Hwin c Hc) as [Hu Ho]. rewrite negb_true_iff, <- not_true_iff_false, sna32gt_spec by done.
      unfold off32, is_u32 in *. mlia. }
  assert (Hsplit : unordered_bytes (unordered_chunks q) =
    unordered_bytes (take n (unordered_chunks q)) + unordered_bytes (drop n (unordered_chunks q)))
    by (unfold unordered_bytes; by rewrite <- zsum_app, take_drop).
  pose proof (zsum_nonneg (fun c : ChunkPayloadData => zlen (user_data c)) (drop n (unordered_chunks q)) ltac:(intros; apply zlen_nonneg)).
  destruct (Nat.eqb n 0) eqn:E.
  - apply Nat.eqb_eq in E as E0. rewrite E0 in *. cbn [Z.leb Z.compare drop]. rewrite drop_0, <- Hb. by destruct q.
  - apply Nat.eqb_neq in E. destruct (0 <=? 0 + Z.of_nat n - 1) eqn:E1; [|lia].
    replace (Z.to_nat (0 + Z.of_nat n - 1 + 1)) with n by lia.
    unfold unordered_bytes in *. rewrite foldl_subtract by lia.
    cbn [si next_ssn rq_ordered rq_unordered unordered_chunks rq_n_bytes next_arrival]. f_equal. lia.
Qed.

(** A FORWARD TSN discards what the sender gave up and nothing else. On the
    ordered side it removes exactly the incomplete sets up to the given SSN, keeps
    every complete one and every later one, and moves the expected SSN past it; on the
    unordered side, whose chunks are in TSN order, it removes exactly the chunks up
    to the new cumulative TSN. Both keep the byte counter exact. *)
Theorem forward_tsn_discards oc q last_ssn new base rest :
  Forall (fun s => Forall (can_step oc) (chunks s)) (rq_ordered q) ->
  is_u32 new -> 0 < off32 base new <= 2147483648 ->
  Forall (fun c => is_u32 (tsn c) /\ 0 < off32 base (tsn c) <= 2147483648) (unordered_chunks q) ->
  ascending (fun c => off32 base (tsn c)) (unordered_chunks q) ->
  rq_n_bytes q = zsum Chunks_len (rq_ordered q) + unordered_bytes (unordered_chunks q) + rest -> 0 <= rest ->
  exists q1, forward_tsn_for_ordered oc q last_ssn = Ok q1 /\
    let q2 := forward_tsn_for_unordered q1 new in
    rq_ordered q2 = List.filter (fun s => negb (sna16lte (ssn s) last_ssn) || complete oc s) (rq_ordered q) /\
    unordered_chunks q2 = List.filter (fun c => sna32gt (tsn c) new) (unordered_chunks q) /\
    rq_unordered q2 = rq_unordered q /\
    next_ssn q2 = (if sna16lte (next_ssn q) last_ssn then as_u16 (last_ssn + 1) else next_ssn q) /\
    rq_n_bytes q2 = zsum Chunks_len (rq_ordered q2) + unordered_bytes (unordered_chunks q2) + rest.
Proof.
  intros Hs Hn Hw Hwin Ha Hb Hr.
  pose proof (zsum_nonneg Chunks_len (rq_ordered q) Chunks_len_nonneg).
  assert (Hu : forall cs, 0 <= unordered_bytes cs) by (intros; apply zsum_nonneg; intros; apply zlen_nonneg).
  rewrite (forward_ordered_spec oc q last_ssn (unordered_bytes (unordered_chunks q) + rest)); [|done|lia|specialize (Hu (unordered_chunks q)); lia].
  eexists. split; [done|]. set (kept := List.filter _ (rq_ordered q)).
  pose proof (zsum_nonneg Chunks_len kept Chunks_len_nonneg).
  rewrite (forward_unordered_spec _ new base (zsum Chunks_len kept + rest)); try done; cbn [rq_n_bytes unordered_chunks]; try lia.
  cbn [rq_ordered unordered_chunks rq_unordered next_ssn rq_n_bytes]. split_and!; try done. lia.
Qed.

Lemma forward_tsn_discards_witness :
  let c u t b e s := received_payload u b e false t 5 s PPI_Binary [t] in
  let q := mkReassemblyQueue 5 0
             [Chunks_new 0 0 PPI_Binary [c false 3 true false 0]; Chunks_new 1 1 PPI_Binary [c false 5 true true 1]]
             [] [c true 4294967295 true false 0; c true 8 false true 0] 4 2 in
  exists q1, forward_tsn_for_ordered false q 1 = Ok q1 /\
    rq_n_bytes (forward_tsn_for_unordered q1 7) = 2 /\
    next_ssn (forward_tsn_for_unordered q1 7) = 2.
Proof.
  intros c q. destruct (forward_tsn_discards false q 1 7 4294967290 0) as (q1 & E & Ho & Hu & _ & Hs & Hb).
  - repeat constructor; unfold is_u32; cbn; intros; lia.
  - unfold is_u32; lia.
  - vm_compute; split; [reflexivity|discriminate].
  - repeat (apply Forall_cons_2 || apply Forall_nil_2); vm_compute; intuition discriminate.
  - repeat constructor.
  - reflexivity.
  - lia.
  - exists q1. split; [exact E|]. split; [|exact Hs]. rewrite Hb, Ho, Hu. reflexivity.
Defined.

(** The byte counter counts a retransmitted fragment again: pushing the same
    ordered chunk twice leaves one copy of it in the queue and twice its bytes in the
    counter, which still shows them after the message was read and the queue is
    empty. *)
Theorem duplicate_inflates_n_bytes :
  let c := received_payload false true true false 9 5 0 PPI_Binary [1; 2; 3] in
  exists q1 q2 m q3,
    ReassemblyQueue_push true (ReassemblyQueue_new 5) c = Ok (true, q1) /\
    ReassemblyQueue_push true q1 c = Ok (false, q2) /\
    ReassemblyQueue_read true q2 = Ok (Some m, q3) /\ chunks m = [c] /\
    rq_ordered q3 = [] /\ rq_n_bytes q3 = 3.
Proof.
  intros c. eexists _, _, _, _. split; [vm_compute; reflexivity|]. split; [vm_compute; reflexivity|].
  split; [vm_compute; reflexivity|]. by split_and!.
Qed.
