(* ===== verification/SctpTimer.v ===== *)
(** The timers of an SCTP association ([rtc-sctp/src/association/timer.rs]): the
    table of the six retransmission and acknowledgement timers with their own
    back-off, and the manager of the retransmission timeout.  Instants are
    nanoseconds, intervals milliseconds as in the code; [f64] is IEEE 754 binary64
    as the Standard Library specifies it.  Proved: the deadlines a control timer
    takes over its expirations, when a timer fails, that arming an idle timer never
    moves a deadline, and the bounds of the timeout. *)
From Stdlib Require Import SpecFloat.
From stdpp Require Import functions.
From S2P Require Import Prelude SctpError.

(** * The timer table *)

Definition ACK_INTERVAL : Z := 200.
Definition MAX_INIT_RETRANS : Z := 8.
Definition PATH_MAX_RETRANS : Z := 5.
Definition NO_MAX_RETRANS : Z := USIZE - 1.

Record TimerConfig := mkTimerConfig {
  max_t1_init_retrans : Z;
  max_t1_cookie_retrans : Z;
  max_t2_shutdown_retrans : Z;
  max_t3_rtx_retrans : Z;
  max_reconfig_retrans : Z;
  max_ack_retrans : Z
}.

Definition TimerConfig_default : TimerConfig :=
  {| max_t1_init_retrans := MAX_INIT_RETRANS; max_t1_cookie_retrans := MAX_INIT_RETRANS;
     max_t2_shutdown_retrans := NO_MAX_RETRANS; max_t3_rtx_retrans := PATH_MAX_RETRANS;
     max_reconfig_retrans := PATH_MAX_RETRANS; max_ack_retrans := PATH_MAX_RETRANS |}.

Inductive Timer := T1Init | T1Cookie | T2Shutdown | T3RTX | Reconfig | Ack.

#[export] Instance Timer_eq_dec : EqDecision Timer.
Proof. solve_decision. Defined.

Definition Timer_VALUES : list Timer := [T1Init; T1Cookie; T2Shutdown; T3RTX; Reconfig; Ack].

(** An array indexed by [timer as usize] is a function of the timer. *)
Record TimerTable := mkTimerTable {
  data : Timer -> option Z;
  retrans : Timer -> Z;
  max_retrans : Timer -> Z;
  shutdown_interval : option Z;
  reconfig_interval : option Z
}.

Definition TimerTable_new (c : TimerConfig) : TimerTable :=
  {| data := fun _ => None; retrans := fun _ => 0;
     max_retrans := fun t =>
       match t with
       | T1Init => max_t1_init_retrans c
       | T1Cookie => max_t1_cookie_retrans c
       | T2Shutdown => max_t2_shutdown_retrans c
       | T3RTX => max_t3_rtx_retrans c
       | Reconfig => max_reconfig_retrans c
       | Ack => max_ack_retrans c
       end;
     shutdown_interval := None; reconfig_interval := None |}.

Definition timer_set (t : Timer) (time : option Z) (tb : TimerTable) : TimerTable :=
  {| data := <[t := time]> (data tb); retrans := retrans tb; max_retrans := max_retrans tb;
     shutdown_interval := shutdown_interval tb; reconfig_interval := reconfig_interval tb |}.

Definition timer_get (t : Timer) (tb : TimerTable) : option Z := data tb t.

Definition min_opt (a b : option Z) : option Z :=
  match a, b with
  | Some x, Some y => Some (Z.min x y)
  | Some x, None => Some x
  | None, b => b
  end.

Definition next_timeout (tb : TimerTable) : option Z :=
  foldr (fun t m => min_opt (data tb t) m) None Timer_VALUES.

(** [control_interval] borrows the interval of T2-shutdown or RECONFIG; reading
    through it is [control_interval], writing through it is [set_control_interval]. *)
Definition is_control (t : Timer) : bool :=
  match t with T2Shutdown | Reconfig => true | _ => false end.
Definition control_interval (t : Timer) (tb : TimerTable) : option Z :=
  match t with
  | T2Shutdown => shutdown_interval tb
  | Reconfig => reconfig_interval tb
  | _ => None
  end.
Definition set_control_interval (t : Timer) (v : option Z) (tb : TimerTable) : TimerTable :=
  {| data := data tb; retrans := retrans tb; max_retrans := max_retrans tb;
     shutdown_interval := match t with T2Shutdown => v | _ => shutdown_interval tb end;
     reconfig_interval := match t with Reconfig => v | _ => reconfig_interval tb end |}.

Definition RTO_INITIAL : Z := 1000.
Definition RTO_MIN : Z := 1000.
Definition RTO_MAX : Z := 60000.
Definition RTO_ALPHA : Z := 1.
Definition RTO_BETA : Z := 2.
Definition RTO_BASE : Z := 8.

(** [<<] on [u64] drops the high bits. *)
Definition calculate_next_timeout (rto n_rtos : Z) : Z :=
  if n_rtos <? 31 then Z.min (as_u64 (Z.shiftl rto n_rtos)) RTO_MAX else RTO_MAX.

Definition from_millis (ms : Z) : Z := ms * 1000000.

Definition timer_start (t : Timer) (now interval : Z) (tb : TimerTable) : TimerTable :=
  let '(interval, tb) :=
    if is_control t then
      let current := default interval (control_interval t tb) in
      (current, set_control_interval t (Some current) tb)
    else
      match t with
      | Ack | T3RTX => (interval, tb)
      | _ => (calculate_next_timeout interval (retrans tb t), tb)
      end in
  timer_set t (Some (now + from_millis interval)) tb.

Definition start_if_idle (t : Timer) (now interval : Z) (tb : TimerTable) : TimerTable :=
  match data tb t with
  | None => timer_start t now interval tb
  | Some _ => tb
  end.

Definition reset_retrans (t : Timer) (tb : TimerTable) : TimerTable :=
  {| data := data tb; retrans := <[t := 0]> (retrans tb); max_retrans := max_retrans tb;
     shutdown_interval := shutdown_interval tb; reconfig_interval := reconfig_interval tb |}.

Definition timer_stop (t : Timer) (tb : TimerTable) : TimerTable :=
  let tb := reset_retrans t (timer_set t None tb) in
  if is_control t then set_control_interval t None tb else tb.

(** The expiration counter is a [usize] stepped once per expiration. *)
Definition is_expired (t : Timer) (after : Z) (tb : TimerTable) : bool * bool * Z * TimerTable :=
  let expired := match data tb t with Some x => x <=? after | None => false end in
  let tb := if expired && is_control t
            then set_control_interval t ((fun previous => calculate_next_timeout previous 1) <$> control_interval t tb) tb
            else tb in
  let tb := if expired
            then {| data := data tb; retrans := <[t := retrans tb t + 1]> (retrans tb); max_retrans := max_retrans tb;
                    shutdown_interval := shutdown_interval tb; reconfig_interval := reconfig_interval tb |}
            else tb in
  (expired, expired && (max_retrans tb t <? retrans tb t), retrans tb t, tb).

(** * The retransmission timeout *)

(** [f64] and the conversions the code uses. *)
Definition f64 : Type := spec_float.
Definition f64_of_Z (z : Z) : f64 := binary_normalize 53 1024 z 0 false.
Definition f64_add (x y : f64) : f64 := SFadd 53 1024 x y.
Definition f64_mul (x y : f64) : f64 := SFmul 53 1024 x y.
Definition f64_div (x y : f64) : f64 := SFdiv 53 1024 x y.
(** [x as u64] truncates and saturates; NaN is 0. *)
Definition f64_as_u64 (x : f64) : Z :=
  match x with
  | S754_zero _ | S754_nan => 0
  | S754_infinity neg => if neg then 0 else 18446744073709551615
  | S754_finite true _ _ => 0
  | S754_finite false m e => Z.min 18446744073709551615 (Z.shiftl (Zpos m) e)
  end.

(** Signed 64-bit results, checked or wrapping. *)
Definition as_i64 (x : Z) : Z := if as_u64 x <? 9223372036854775808 then as_u64 x else as_u64 x - 18446744073709551616.
Definition i64_ovf (oc : bool) (x : Z) : result Z :=
  if (-9223372036854775808 <=? x) && (x <? 9223372036854775808) then Ok x else if oc then Panic else Ok (as_i64 x).
Definition u64_ovf (oc : bool) (x : Z) : result Z :=
  if (0 <=? x) && (x <? 18446744073709551616) then Ok x else if oc then Panic else Ok (as_u64 x).

Record RtoManager := mkRtoManager { srtt : Z; rttvar : f64; rto : Z; no_update : bool }.

Definition RtoManager_new : RtoManager :=
  {| srtt := 0; rttvar := S754_zero false; rto := RTO_INITIAL; no_update := false |}.

Definition set_new_rtt (oc : bool) (m : RtoManager) (rtt : Z) : result (Z * RtoManager) :=
  if no_update m then Ok (srtt m, m)
  else
    '(srtt, rttvar) ←
      (if srtt m =? 0 then Ok (rtt, f64_div (f64_of_Z rtt) (f64_of_Z 2))
       else
         diff ← i64_ovf oc (as_i64 (srtt m) - as_i64 rtt);
         diff ← i64_ovf oc (Z.abs diff);
         let rttvar := f64_div (f64_add (f64_mul (f64_of_Z (RTO_BASE - RTO_BETA)) (rttvar m))
                                        (f64_mul (f64_of_Z RTO_BETA) (f64_of_Z diff)))
                               (f64_of_Z RTO_BASE) in
         a ← u64_ovf oc ((RTO_BASE - RTO_ALPHA) * srtt m);
         b ← u64_ovf oc (RTO_ALPHA * rtt);
         s ← u64_ovf oc (a + b);
         Ok (s / RTO_BASE, rttvar));
    sum ← u64_ovf oc (srtt + f64_as_u64 (f64_mul (f64_of_Z 4) rttvar));
    Ok (srtt, {| srtt := srtt; rttvar := rttvar; rto := Z.min RTO_MAX (Z.max RTO_MIN sum); no_update := no_update m |}).

Definition get_rto (m : RtoManager) : Z := rto m.

Definition backoff (m : RtoManager) : RtoManager :=
  if no_update m then m
  else {| srtt := srtt m; rttvar := rttvar m;
          rto := Z.min (Z.min (rto m * 2) 18446744073709551615) RTO_MAX; no_update := no_update m |}.

Definition rto_reset (m : RtoManager) : RtoManager :=
  if no_update m then m
  else {| srtt := 0; rttvar := S754_zero false; rto := RTO_INITIAL; no_update := no_update m |}.

Definition set_rto (m : RtoManager) (r : Z) (no_upd : bool) : RtoManager :=
  {| srtt := srtt m; rttvar := rttvar m; rto := r; no_update := no_upd |}.

(** * Properties of the table *)

#[local] Arguments insert : simpl never.

Lemma timer_set_get t x tb : data (timer_set t x tb) t = x.
Proof. apply fn_lookup_insert. Qed.

Lemma Timer_VALUES_all t : t ∈ Timer_VALUES.
Proof. unfold Timer_VALUES. destruct t; set_solver. Qed.

Lemma min_opt_spec a b x : min_opt a b = Some x <->
  (a = Some x /\ (forall y, b = Some y -> x <= y)) \/ (b = Some x /\ (forall y, a = Some y -> x <= y)).
Proof.
  destruct a as [u|], b as [v|]; cbn; split; intros H; try naive_solver lia.
  - injection H as <-. destruct (Z.min_spec u v) as [[? ->]|[? ->]]; [left|right]; naive_solver lia.
  - f_equal. destruct H as [[[= ->] H]|[[= ->] H]]; specialize (H _ eq_refl); lia.
Qed.

Lemma next_timeout_fold (f : Timer -> option Z) l x :
  foldr (fun t m => min_opt (f t) m) None l = Some x ->
  (exists t, t ∈ l /\ f t = Some x) /\ (forall t y, t ∈ l -> f t = Some y -> x <= y).
Proof.
  revert x. induction l as [|t l IH]; intros x; cbn; [done|]. rewrite min_opt_spec.
  intros [[Hx Hy]|[Hx Hy]].
  - split; [exists t; split; [left|done]|]. intros t' y [->|Ht]%elem_of_cons Hf; [rewrite Hx in Hf; by injection Hf as ->|].
    destruct (foldr _ None l) as [z|] eqn:E.
    + destruct (IH z eq_refl) as [_ Hz]. specialize (Hy z eq_refl). specialize (Hz t' y Ht Hf). lia.
    + exfalso. clear -E Ht Hf. induction l as [|a l IH]; [by apply elem_of_nil in Ht|]. cbn in E.
      apply elem_of_cons in Ht as [->|Ht]; [rewrite Hf in E; by destruct (foldr _ _ _)|].
      apply IH; [|done]. destruct (f a); [by destruct (foldr _ _ _)|done].
  - destruct (IH x Hx) as [(t' & Ht & Hf) Hz]. split; [exists t'; split; [by right|done]|].
    intros t'' y [->|Ht'']%elem_of_cons Hf'; eauto.
Qed.

(** Doubling capped at [RTO_MAX]. *)
Definition doubled (r : Z) (n : nat) : Z := Z.min (r * 2 ^ Z.of_nat n) RTO_MAX.

Lemma calculate_next_timeout_spec r n : 0 < r <= RTO_MAX ->
  calculate_next_timeout r (Z.of_nat n) = doubled r n.
Proof.
  intros Hr. unfold calculate_next_timeout, doubled, RTO_MAX in *. destruct (Z.of_nat n <? 31) eqn:E.
  - rewrite Z.shiftl_mul_pow2 by lia. f_equal. unfold as_u64. apply Z.mod_small.
    assert (2 ^ Z.of_nat n <= 2 ^ 30) by (apply Z.pow_le_mono_r; lia).
    assert (0 < 2 ^ Z.of_nat n) by (apply Z.pow_pos_nonneg; lia). nia.
  - assert (2 ^ 31 <= 2 ^ Z.of_nat n) by (apply Z.pow_le_mono_r; lia). nia.
Qed.

Lemma doubled_step r n : 0 < r <= RTO_MAX -> calculate_next_timeout (doubled r n) 1 = doubled r (S n).
Proof.
  intros Hr. assert (H1 : 0 < 2 ^ Z.of_nat n) by (apply Z.pow_pos_nonneg; lia).
  assert (Hd : 0 < doubled r n <= RTO_MAX) by (unfold doubled, RTO_MAX in *; nia).
  pose proof (calculate_next_timeout_spec (doubled r n) 1 Hd) as E. change (Z.of_nat 1) with 1 in E. rewrite E.
  unfold doubled. change (2 ^ Z.of_nat 1) with 2.
  replace (r * 2 ^ Z.of_nat (S n)) with (2 * (r * 2 ^ Z.of_nat n))
    by (rewrite Nat2Z.inj_succ, Z.pow_succ_r by lia; ring).
  assert (0 < r * 2 ^ Z.of_nat n) by nia. unfold RTO_MAX. lia.
Qed.

(** The timers with a back-off of their own. *)
Definition backs_off (t : Timer) : bool :=
  match t with T1Init | T1Cookie | T2Shutdown | Reconfig => true | T3RTX | Ack => false end.

(** One expiration as [handle_timeout] processes it: the timer is found expired,
    cleared and started again with the timeout of the moment. *)
Definition expiration (t : Timer) (now rto : Z) (tb : TimerTable) : option TimerTable :=
  let '(expired, _, _, tb) := is_expired t now tb in
  if expired : bool then Some (timer_start t now rto (timer_set t None tb)) else None.

Fixpoint expirations (t : Timer) (l : list (Z * Z)) (tb : TimerTable) : option TimerTable :=
  match l with
  | [] => Some tb
  | (now, rto) :: l => tb ← expiration t now rto tb; expirations t l tb
  end.

(** After [n] expirations of a timer that was started with the timeout [r]. *)
Record backed_off (t : Timer) (r : Z) (n : nat) (now : Z) (mx : Z) (tb : TimerTable) : Prop := mkBackedOff {
  bo_data : data tb t = Some (now + from_millis (doubled r n));
  bo_retrans : retrans tb t = Z.of_nat n;
  bo_max : max_retrans tb t = mx;
  bo_interval : is_control t = true -> control_interval t tb = Some (doubled r n)
}.

Lemma backed_off_start t r now tb : backs_off t = true -> 0 < r <= RTO_MAX ->
  backed_off t r 0 now (max_retrans tb t) (timer_start t now r (timer_stop t tb)).
Proof.
  intros Ht Hr. assert (Hd : doubled r 0 = r) by (unfold doubled; change (2 ^ Z.of_nat 0) with 1; lia).
  assert (Hc : calculate_next_timeout r 0 = r) by (by rewrite <- Hd at 2; apply (calculate_next_timeout_spec r 0)).
  destruct t; try done; split; try done; cbn; rewrite ?fn_lookup_insert, ?Hd, ?Hc; done.
Qed.

Lemma backed_off_step t r n now mx tb now' rto tb' : backs_off t = true -> 0 < r <= RTO_MAX ->
  (is_control t = true \/ rto = r) -> backed_off t r n now mx tb ->
  expiration t now' rto tb = Some tb' -> backed_off t r (S n) now' mx tb'.
Proof.
  intros Ht Hr Hrto [Hd Hn Hm Hi] E. unfold expiration, is_expired in E. rewrite Hd in E.
  destruct (_ <=? now') eqn:Ed; [|done]. cbn [andb] in E. injection E as <-.
  pose proof (calculate_next_timeout_spec r (S n) Hr) as Hc. pose proof (doubled_step r n Hr) as Hs.
  replace (Z.of_nat (S n)) with (Z.of_nat n + 1) in * by lia.
  destruct t; try done; cbn in Hi, Hn, Hm |- *;
    try (destruct Hrto as [?| ->]; [done|]); try (specialize (Hi eq_refl); rewrite Hi);
    split; cbn; rewrite ?fn_lookup_insert, ?Hn, ?Hc; cbn; rewrite ?Hs; try done; try lia;
    intros; unfold calculate_next_timeout in Hs; cbn in Hs; by rewrite Hs.
Qed.

Lemma backed_off_expirations t r n now mx tb l tb' : backs_off t = true -> 0 < r <= RTO_MAX ->
  (is_control t = true \/ Forall (fun p => p.2 = r) l) -> backed_off t r n now mx tb ->
  expirations t l tb = Some tb' -> backed_off t r (n + length l) (List.last (map fst l) now) mx tb'.
Proof.
  intros Ht Hr. revert n now tb. induction l as [|[now' rto] l IH]; intros n now tb Hl Hb E; cbn [expirations] in E.
  - injection E as <-. by rewrite Nat.add_0_r.
  - destruct (expiration t now' rto tb) as [tb1|] eqn:E1; [|done]. cbn [map fst]. rewrite last_cons_default.
    replace (n + length ((now', rto) :: l))%nat with (S n + length l)%nat by (cbn; lia).
    apply (IH (S n) now' tb1); [|eapply backed_off_step; try done|done].
    + destruct Hl as [?|Hl]; [by left|right; by inversion Hl].
    + destruct Hl as [?|Hl]; [by left|right; by inversion Hl].
Qed.

(** A timer that is stopped and then started with the timeout [r] takes, at its
    [n]-th expiration in a row, a deadline of [r] doubled [n] times and capped at
    [RTO_MAX] after the instant it expired at; for the shutdown and reconfiguration
    timers whatever the data timeout has become meanwhile. It reports failure at the
    first expiration beyond the configured number and not before. *)
Theorem timer_backoff t r now0 tb l tb' after :
  backs_off t = true -> 0 < r <= RTO_MAX -> (is_control t = true \/ Forall (fun p => p.2 = r) l) ->
  expirations t l (timer_start t now0 r (timer_stop t tb)) = Some tb' ->
  let n := length l in
  let deadline := List.last (map fst l) now0 + from_millis (doubled r n) in
  timer_get t tb' = Some deadline /\
  (is_expired t after tb').1.1.1 = bool_decide (deadline <= after) /\
  (is_expired t after tb').1.1.2 = bool_decide (deadline <= after) && (max_retrans tb t <? Z.of_nat n + 1).
Proof.
  intros Ht Hr Hl E n deadline.
  destruct (backed_off_expirations t r 0 now0 (max_retrans tb t) _ l tb' Ht Hr Hl (backed_off_start t r now0 tb Ht Hr) E)
    as [Hd Hn Hm Hi].
  cbn [Nat.add] in *. fold n deadline in Hd. fold n in Hn. unfold timer_get. rewrite Hd.
  assert (Hle : forall x y, (x <=? y) = bool_decide (x <= y))
    by (intros; apply eq_true_iff_eq; rewrite bool_decide_eq_true; lia).
  unfold is_expired. rewrite Hd, Hle. split_and!; [done|done|]. cbn [fst snd].
  destruct (bool_decide (deadline <= after)); [|done]. cbn [andb].
  destruct (is_control t) eqn:Ec; cbn; rewrite fn_lookup_insert, Hn, Hm; done.
Qed.

Lemma timer_backoff_witness :
  let l := [(1000000000, 4000); (3000000000, 1000); (9000000000, 60000)] in
  exists tb', expirations T2Shutdown l (timer_start T2Shutdown 0 1000 (timer_stop T2Shutdown (TimerTable_new TimerConfig_default))) = Some tb' /\
    timer_get T2Shutdown tb' = Some 17000000000.
Proof.
  intros l.
  destruct (expirations T2Shutdown l _) as [tb'|] eqn:E; [|vm_compute in E; discriminate].
  exists tb'. split; [reflexivity|].
  destruct (timer_backoff T2Shutdown 1000 0 (TimerTable_new TimerConfig_default) l tb' 0) as [H _].
  - reflexivity.
  - unfold RTO_MAX; lia.
  - by left.
  - exact E.
  - rewrite H. reflexivity.
Defined.

(** [next_timeout] is the earliest deadline of an armed timer, and starting an
    idle timer arms it while an armed one keeps its deadline, due or not. *)
Theorem next_timeout_earliest tb :
  match next_timeout tb with
  | Some x => (exists t, timer_get t tb = Some x) /\ (forall t y, timer_get t tb = Some y -> x <= y)
  | None => forall t, timer_get t tb = None
  end /\
  forall t now interval,
    timer_get t (start_if_idle t now interval tb) =
      match timer_get t tb with Some x => Some x | None => timer_get t (timer_start t now interval tb) end /\
    is_Some (timer_get t (start_if_idle t now interval tb)) /\
    timer_get t (timer_stop t tb) = None.
Proof.
  split.
  - destruct (next_timeout tb) as [x|] eqn:E.
    + destruct (next_timeout_fold _ _ _ E) as [(t & _ & Ht) Hall]. split; [by exists t|].
      intros t' y. apply Hall, Timer_VALUES_all.
    + intros t. unfold timer_get. destruct (data tb t) as [y|] eqn:Et; [|done]. exfalso. revert E.
      unfold next_timeout, Timer_VALUES; cbn [foldr].
      destruct t; rewrite Et; repeat (destruct (data tb _) as [?|]; cbn [min_opt]; try done).
  - intros t now interval. unfold start_if_idle, timer_get. destruct (data tb t) as [x|] eqn:Et; rewrite ?Et.
    + split_and!; [done|done|]. destruct t; cbn; apply fn_lookup_insert.
    + split_and!; [done| |destruct t; cbn; apply fn_lookup_insert].
      unfold timer_start. destruct (if is_control t then _ else _) as [i tb1]. rewrite timer_set_get. done.
Qed.

(** * Properties of the timeout *)

Lemma u64_ovf_release x : exists y, u64_ovf false x = Ok y.
Proof. unfold u64_ovf. case_match; eauto. Qed.
Lemma i64_ovf_release x : exists y, i64_ovf false x = Ok y.
Proof. unfold i64_ovf. case_match; eauto. Qed.

(** What the manager does over the life of an association. *)
Inductive RtoOp := Measure (rtt : Z) | BackOff | ResetRto.

Definition rto_op (oc : bool) (m : RtoManager) (op : RtoOp) : result RtoManager :=
  match op with
  | Measure rtt => r ← set_new_rtt oc m rtt; Ok r.2
  | BackOff => Ok (backoff m)
  | ResetRto => Ok (rto_reset m)
  end.

Fixpoint rto_ops (oc : bool) (m : RtoManager) (ops : list RtoOp) : result RtoManager :=
  match ops with
  | [] => Ok m
  | op :: ops => m ← rto_op oc m op; rto_ops oc m ops
  end.

Definition rto_ok (m : RtoManager) : Prop := RTO_MIN <= get_rto m <= RTO_MAX.

Lemma set_new_rtt_clamps oc m rtt s m' : rto_ok m -> set_new_rtt oc m rtt = Ok (s, m') -> rto_ok m'.
Proof.
  intros Hm. unfold set_new_rtt. destruct (no_update m); [by intros [= <- <-]|].
  destruct (if srtt m =? 0 then _ else _) as [[s1 v1]| | |]; cbn [mbind outcome_bind]; try done.
  destruct (u64_ovf _ _) as [x| | |]; cbn [mbind outcome_bind]; try done.
  intros [= <- <-]. unfold rto_ok, get_rto, RTO_MIN, RTO_MAX in *; cbn [rto]. lia.
Qed.

Lemma set_new_rtt_release m rtt : exists s m', set_new_rtt false m rtt = Ok (s, m').
Proof.
  unfold set_new_rtt. destruct (no_update m); [eauto|].
  assert (exists s v, (if srtt m =? 0 then Ok (rtt, f64_div (f64_of_Z rtt) (f64_of_Z 2)) else _) = Ok (s, v)) as (s & v & ->).
  { case_match; [eauto|].
    destruct (i64_ovf_release (as_i64 (srtt m) - as_i64 rtt)) as [d ->]. cbn [mbind outcome_bind].
    destruct (i64_ovf_release (Z.abs d)) as [d' ->]. cbn [mbind outcome_bind].
    destruct (u64_ovf_release ((RTO_BASE - RTO_ALPHA) * srtt m)) as [a ->]. cbn [mbind outcome_bind].
    destruct (u64_ovf_release (RTO_ALPHA * rtt)) as [b ->]. cbn [mbind outcome_bind].
    destruct (u64_ovf_release (a + b)) as [c ->]. cbn [mbind outcome_bind]. eauto. }
  cbn [mbind outcome_bind].
  destruct (u64_ovf_release (s + f64_as_u64 (f64_mul (f64_of_Z 4) v))) as [x ->]. cbn [mbind outcome_bind]. eauto.
Qed.

(** Whatever round trips are measured, however often the timeout is backed off
    or reset, the release build always has a timeout between [RTO_MIN] and
    [RTO_MAX]. *)
Theorem rto_bounded ops : exists m, rto_ops false RtoManager_new ops = Ok m /\ RTO_MIN <= get_rto m <= RTO_MAX.
Proof.
  assert (H : forall m, rto_ok m -> exists m', rto_ops false m ops = Ok m' /\ rto_ok m');
    [|apply H; vm_compute; split; discriminate].
  induction ops as [|op ops IH]; intros m Hm; [eauto|]. cbn [rto_ops].
  destruct op as [rtt| |]; cbn [rto_op].
  - destruct (set_new_rtt_release m rtt) as (s & m' & E). rewrite E. cbn [mbind outcome_bind snd].
    apply IH. by eapply set_new_rtt_clamps.
  - cbn [mbind outcome_bind]. apply IH. unfold rto_ok, backoff, get_rto, RTO_MIN, RTO_MAX in *.
    destruct (no_update m); cbn [rto]; lia.
  - cbn [mbind outcome_bind]. apply IH. unfold rto_ok, rto_reset, get_rto, RTO_MIN, RTO_MAX in *.
    destruct (no_update m); cbn [rto]; [lia|]. unfold RTO_INITIAL; lia.
Qed.
