(* ===== verification/SctpStream.v ===== *)
(** The streams of an association ([rtc-sctp/src/association/stream.rs]): the state
    of a stream, the fragmentation of a message, the buffered amount, and what an
    application does to a stream that needs no more than its state.  Proved: what
    [packetize] produces, and, with the reassembly queue, that an ordered stream
    carries the messages written to it from end to end; the message without bytes,
    for which it does not, is exhibited. *)
From S2P Require Import Prelude Serial SctpError SctpChunk PendingQueue ReassemblyQueue SctpTimer.

(** * The state of a stream *)

Inductive Side := Client | Server.

Inductive ReliabilityType := RT_Reliable | RT_Rexmit | RT_Timed.
Definition ReliabilityType_from_u8 (v : Z) : ReliabilityType :=
  match v with 1 => RT_Rexmit | 2 => RT_Timed | _ => RT_Reliable end.

Inductive RecvSendState := RS_Closed | RS_Readable | RS_Writable | RS_ReadWritable.

#[export] Instance RecvSendState_eq_dec : EqDecision RecvSendState.
Proof. solve_decision. Defined.
#[export] Instance PayloadProtocolIdentifier_eq_dec : EqDecision PayloadProtocolIdentifier.
Proof. solve_decision. Defined.

Definition RecvSendState_from_u8 (v : Z) : RecvSendState :=
  match v with 1 => RS_Readable | 2 => RS_Writable | 3 => RS_ReadWritable | _ => RS_Closed end.
Definition u8_from_RecvSendState (s : RecvSendState) : Z :=
  match s with RS_Closed => 0 | RS_Readable => 1 | RS_Writable => 2 | RS_ReadWritable => 3 end.

Record StreamState := mkStreamState {
  ss_side : Side;
  ss_max_payload_size : Z;
  ss_stream_identifier : Z;
  ss_generation : Z;
  ss_default_payload_type : PayloadProtocolIdentifier;
  reassembly_queue : ReassemblyQueue;
  sequence_number : Z;
  ss_state : RecvSendState;
  ss_unordered : bool;
  reliability_type : ReliabilityType;
  reliability_value : Z;
  buffered_amount : Z;
  buffered_amount_low : Z;
  buffered_amount_high : Z
}.
#[export] Instance StreamState_eta : Eta StreamState := fun s =>
  mkStreamState (ss_side s) (ss_max_payload_size s) (ss_stream_identifier s) (ss_generation s)
    (ss_default_payload_type s) (reassembly_queue s) (sequence_number s) (ss_state s) (ss_unordered s)
    (reliability_type s) (reliability_value s) (buffered_amount s) (buffered_amount_low s) (buffered_amount_high s).

Definition StreamState_new (side : Side) (sid max_payload_size : Z) (ppi : PayloadProtocolIdentifier) : StreamState :=
  {| ss_side := side; ss_stream_identifier := sid; ss_generation := 0; ss_max_payload_size := max_payload_size;
     ss_default_payload_type := ppi; reassembly_queue := ReassemblyQueue_new sid; sequence_number := 0;
     ss_state := RS_ReadWritable; ss_unordered := false; reliability_type := RT_Reliable; reliability_value := 0;
     buffered_amount := 0; buffered_amount_low := 0; buffered_amount_high := 4294967295 |}.

Definition stream_handle_data (oc : bool) (s : StreamState) (pd : ChunkPayloadData) : result (bool * StreamState) :=
  '(ok, q) ← ReassemblyQueue_push oc (reassembly_queue s) pd;
  Ok (ok, s <| reassembly_queue := q |>).

Definition handle_forward_tsn_for_ordered (oc : bool) (s : StreamState) (last_ssn : Z) : result StreamState :=
  if ss_unordered s then Ok s
  else q ← forward_tsn_for_ordered oc (reassembly_queue s) last_ssn; Ok (s <| reassembly_queue := q |>).

Definition handle_forward_tsn_for_unordered (s : StreamState) (new_cumulative_tsn : Z) : StreamState :=
  if negb (ss_unordered s) then s
  else s <| reassembly_queue ::= fun q => forward_tsn_for_unordered q new_cumulative_tsn |>.

(** * Fragmentation *)

(** The reliability of a message, resolved when it is queued. *)
Definition message_reliability (s : StreamState) (now : Z) (ppi : PayloadProtocolIdentifier) : MessageReliability :=
  if bool_decide (ppi = PPI_Dcep) then Reliable
  else
    match reliability_type s with
    | RT_Reliable => Reliable
    | RT_Rexmit => Rexmit (reliability_value s)
    | RT_Timed => Timed (now + from_millis (reliability_value s))
    end.

(** The loop of [packetize] at offset [i]. *)
Fixpoint packetize_loop (fuel : nat) (s : StreamState) (now : Z) (ppi : PayloadProtocolIdentifier) (raw : bytes)
  (i remaining : Z) : result (list ChunkPayloadData) :=
  if remaining =? 0 then Ok []
  else
    match fuel with
    | O => Diverge
    | S fuel =>
        let fragment_size := Z.min (ss_max_payload_size s) remaining in
        data ← slice raw i (i + fragment_size);
        let chunk :=
          {| unordered := negb (bool_decide (ppi = PPI_Dcep)) && ss_unordered s;
             beginning_fragment := i =? 0;
             ending_fragment := remaining - fragment_size =? 0;
             immediate_sack := false; tsn := 0;
             stream_identifier := ss_stream_identifier s; stream_sequence_number := sequence_number s;
             payload_type := ppi; user_data := data;
             acknowledged := false; miss_indicator := 0; since := None; created_at := Some now;
             reliability := message_reliability s now ppi; stream_generation := ss_generation s;
             nsent := 0; abandoned := false; retransmit := false |} in
        rest ← packetize_loop fuel s now ppi raw (i + fragment_size) (remaining - fragment_size);
        Ok (chunk :: rest)
    end.

Definition packetize (s : StreamState) (now : Z) (raw : bytes) (ppi : PayloadProtocolIdentifier)
  : result (bool * list ChunkPayloadData * StreamState) :=
  cs ← packetize_loop (length raw) s now ppi raw 0 (zlen raw);
  let unordered := negb (bool_decide (ppi = PPI_Dcep)) && ss_unordered s in
  let old_amount := buffered_amount s in
  let new_amount := old_amount + zlen raw in
  Ok ((old_amount <? buffered_amount_high s) && (buffered_amount_high s <=? new_amount), cs,
      s <| sequence_number ::= fun n => if unordered then n else as_u16 (n + 1) |> <| buffered_amount := new_amount |>).

Definition on_buffer_released (s : StreamState) (n_bytes_released : Z) : bool * StreamState :=
  if n_bytes_released <=? 0 then (false, s)
  else
    let old_amount := buffered_amount s in
    let new_amount := if old_amount <? n_bytes_released then 0 else old_amount - n_bytes_released in
    ((buffered_amount_low s <? old_amount) && (new_amount <=? buffered_amount_low s),
     s <| buffered_amount := new_amount |>).

(** [stop] and [finish] on the state of the stream: the read or the write bit is cleared. *)
Definition stream_stop_state (s : StreamState) : bool * StreamState :=
  (bool_decide (ss_state s = RS_Readable) || bool_decide (ss_state s = RS_ReadWritable),
   s <| ss_state ::= fun st => RecvSendState_from_u8 (Z.land (u8_from_RecvSendState st) 2) |>).
Definition stream_finish_state (s : StreamState) : StreamState :=
  s <| ss_state ::= fun st => RecvSendState_from_u8 (Z.land (u8_from_RecvSendState st) 1) |>.

(** * What [packetize] produces *)

(** The fields every fragment of a message has. *)
Definition fragment_of (s : StreamState) (now : Z) (ppi : PayloadProtocolIdentifier) (c : ChunkPayloadData) : Prop :=
  stream_identifier c = ss_stream_identifier s /\ stream_sequence_number c = sequence_number s /\
  stream_generation c = ss_generation s /\ unordered c = (negb (bool_decide (ppi = PPI_Dcep)) && ss_unordered s) /\
  payload_type c = ppi /\ reliability c = message_reliability s now ppi /\ created_at c = Some now /\
  0 < zlen (user_data c) <= ss_max_payload_size s.

Lemma packetize_loop_spec fuel s now ppi raw i remaining :
  0 < ss_max_payload_size s -> 0 <= i -> 0 <= remaining -> i + remaining = zlen raw -> remaining <= Z.of_nat fuel ->
  exists cs, packetize_loop fuel s now ppi raw i remaining = Ok cs /\
    payload cs = drop (Z.to_nat i) raw /\ Forall (fragment_of s now ppi) cs /\
    Forall (fun c => zlen (user_data c) = ss_max_payload_size s) (removelast cs) /\
    (forall j c, cs !! j = Some c ->
       beginning_fragment c = (i =? 0) && bool_decide (j = 0%nat) /\ ending_fragment c = bool_decide (S j = length cs)).
Proof.
  intros Hmax. revert i remaining. induction fuel as [|fuel IH]; intros i remaining Hi Hr Hsum Hf; cbn [packetize_loop].
  - assert (remaining = 0) as -> by lia. exists []. split_and!; try done.
    rewrite drop_ge; [done|]. unfold zlen in *. lia.
  - destruct (remaining =? 0) eqn:E0.
    { exists []. split_and!; try done. rewrite drop_ge; [done|]. unfold zlen in *. lia. }
    set (n := Z.min (ss_max_payload_size s) remaining). assert (Hn : 0 < n <= remaining) by lia.
    rewrite slice_Ok by lia. cbn [mbind outcome_bind]. replace (i + n - i) with n by lia.
    destruct (IH (i + n) (remaining - n)) as (cs & -> & Hp & Hall & Hfull & Hflags); [lia..|].
    cbn [mbind outcome_bind]. eexists. split; [done|].
    set (data := take (Z.to_nat n) (drop (Z.to_nat i) raw)).
    assert (Hlen : zlen data = n).
    { unfold data. rewrite zlen_take, zlen_drop. lia. }
    assert (Hrest : remaining - n = 0 <-> cs = []).
    { assert (Hz : zlen (payload cs) = remaining - n) by (rewrite Hp, zlen_drop; lia). split.
      - intros Hz0. destruct cs as [|c cs]; [done|]. apply Forall_cons in Hall as [(_ & _ & _ & _ & _ & _ & _ & Hc) _].
        change (payload (c :: cs)) with (user_data c ++ payload cs) in Hz. rewrite zlen_app in Hz.
        pose proof (zlen_nonneg (payload cs)). lia.
      - intros ->. rewrite <- Hz. done. }
    split_and!.
    + change (data ++ payload cs = drop (Z.to_nat i) raw). rewrite Hp. unfold data.
      replace (Z.to_nat (i + n)) with (Z.to_nat i + Z.to_nat n)%nat by lia. rewrite <- drop_drop. apply take_drop.
    + constructor; [|done]. unfold fragment_of.
      cbn [stream_identifier stream_sequence_number stream_generation unordered payload_type reliability created_at user_data].
      fold data. rewrite Hlen. split_and!; done || lia.
    + destruct cs as [|c cs]; [constructor|]. change (removelast (?x :: c :: cs)) with (x :: removelast (c :: cs)).
      constructor; [|done]. cbn [user_data]. fold data. rewrite Hlen.
      assert (remaining - n <> 0) by (rewrite Hrest; done). lia.
    + intros [|j] c Hc; cbn in Hc.
      * injection Hc as <-. cbn [beginning_fragment ending_fragment]. split; [by rewrite andb_true_r|].
        apply eq_true_iff_eq. rewrite Z.eqb_eq, bool_decide_eq_true, Hrest. cbn. destruct cs; cbn; split; intros; try done; lia.
      * destruct (Hflags j c Hc) as [-> ->]. split; [destruct (i + n =? 0) eqn:?; [lia|]; by rewrite andb_false_r|].
        cbn [length]. apply bool_decide_ext. lia.
Qed.

Lemma rest_of_flags u k cs n m : cs <> [] -> (n > 0)%nat -> m = (n + length cs)%nat ->
  (forall j c, cs !! j = Some c -> beginning_fragment c = bool_decide ((n + j)%nat = 0%nat) /\
     ending_fragment c = bool_decide (S (n + j) = m) /\ unordered c = u /\ message_key c = k) ->
  rest_of u k cs.
Proof.
  revert n. induction cs as [|c cs IH]; intros n Hne Hn Hm H; [done|].
  destruct (H 0%nat c eq_refl) as (Hb & He & Hu & Hk). rewrite bool_decide_eq_false_2 in Hb by lia.
  destruct cs as [|c' cs].
  - apply rest_last; try done. rewrite He. apply bool_decide_eq_true. cbn in Hm. lia.
  - apply rest_cons; try done; [rewrite He; apply bool_decide_eq_false; cbn in Hm; lia|].
    apply (IH (S n)); [done|lia|cbn in *; lia|]. intros j d Hd. specialize (H (S j) d Hd).
    replace (n + S j)%nat with (S n + j)%nat in H by lia. done.
Qed.

Lemma message_of_flags u k cs : cs <> [] ->
  (forall j c, cs !! j = Some c -> beginning_fragment c = bool_decide (j = 0%nat) /\
     ending_fragment c = bool_decide (S j = length cs) /\ unordered c = u /\ message_key c = k) ->
  message u cs.
Proof.
  intros Hne H. destruct cs as [|c cs]; [done|]. destruct (H 0%nat c eq_refl) as (Hb & He & Hu & Hk).
  destruct cs as [|c' cs]; [by apply message_single|].
  apply message_many; try done.
  apply (rest_of_flags _ _ _ 1 (length (c :: c' :: cs))); [done|lia|done|].
  intros j d Hd. rewrite Hk. exact (H (S j) d Hd).
Qed.

Lemma packetize_spec s now raw ppi : 0 < ss_max_payload_size s ->
  let u := negb (bool_decide (ppi = PPI_Dcep)) && ss_unordered s in
  exists high cs, packetize s now raw ppi =
      Ok (high, cs, s <| sequence_number ::= fun n => if u then n else as_u16 (n + 1) |>
                      <| buffered_amount := buffered_amount s + zlen raw |>) /\
    payload cs = raw /\ Forall (fragment_of s now ppi) cs /\
    Forall (fun c => zlen (user_data c) = ss_max_payload_size s) (removelast cs) /\
    (forall j c, cs !! j = Some c ->
       beginning_fragment c = bool_decide (j = 0%nat) /\ ending_fragment c = bool_decide (S j = length cs)).
Proof.
  intros Hmax u. unfold packetize. pose proof (zlen_nonneg raw).
  destruct (packetize_loop_spec (length raw) s now ppi raw 0 (zlen raw)) as (cs & -> & Hp & Hall & Hfull & Hflags);
    [done|lia|lia|lia|unfold zlen; lia|].
  cbn [mbind outcome_bind]. eexists _, cs. split; [done|]. rewrite drop_0 in Hp. split_and!; try done.
Qed.

(** [packetize] splits a message into the fragments of one message: their bytes in
    order are the message, each has at least one and at most [max_payload_size] of
    them and all but the last have that many; they share stream, sequence number,
    generation, ordering and reliability, only the first has the B bit and only the
    last the E bit, so what is queued is a whole message of the pending queue. The
    sequence number steps once for an ordered message, and DCEP messages are always
    ordered and reliable. *)
Theorem packetize_message s now raw ppi : 0 < ss_max_payload_size s -> raw <> [] ->
  exists high cs s', packetize s now raw ppi = Ok (high, cs, s') /\
    payload cs = raw /\ Forall (fragment_of s now ppi) cs /\
    Forall (fun c => zlen (user_data c) = ss_max_payload_size s) (removelast cs) /\
    message (negb (bool_decide (ppi = PPI_Dcep)) && ss_unordered s) cs /\
    (ppi = PPI_Dcep -> Forall (fun c => unordered c = false /\ reliability c = Reliable) cs /\
                       sequence_number s' = as_u16 (sequence_number s + 1)) /\
    buffered_amount s' = buffered_amount s + zlen raw.
Proof.
  intros Hmax Hraw. destruct (packetize_spec s now raw ppi Hmax) as (high & cs & E & Hp & Hall & Hfull & Hflags).
  exists high, cs. eexists. split; [exact E|]. split_and!; try done.
  - apply (message_of_flags _ (ss_stream_identifier s, sequence_number s, ss_generation s)).
    + intros ->. by apply Hraw.
    + intros j c Hc. destruct (Hflags j c Hc) as [? ?]. pose proof (Forall_lookup_1 _ _ _ _ Hall Hc) as Hf.
      unfold fragment_of, message_key in *. destruct Hf as (-> & -> & -> & -> & _). done.
  - intros ->. split; [|done]. eapply Forall_impl; [exact Hall|]. intros c Hf. unfold fragment_of in Hf.
    destruct Hf as (_ & _ & _ & -> & _ & -> & _). done.
Qed.

Lemma packetize_message_witness :
  let s := StreamState_new Client 7 2 PPI_Binary in
  exists high cs s', packetize s 5 [1; 2; 3] PPI_Binary = Ok (high, cs, s') /\ message false cs /\
    payload cs = [1; 2; 3] /\ length cs = 2%nat.
Proof.
  intros s. destruct (packetize_message s 5 [1; 2; 3] PPI_Binary) as (high & cs & s' & E & Hp & _ & _ & Hm & _ & _);
    [reflexivity|discriminate|].
  exists high, cs, s'. split; [exact E|]. split; [exact Hm|]. split; [exact Hp|].
  vm_compute in E. injection E as _ <- _. reflexivity.
Defined.

(** * A stream from end to end *)

Section EndToEnd.
Context (oc : bool) (s0 : StreamState) (now : nat -> Z) (ppi : nat -> PayloadProtocolIdentifier) (raw : nat -> bytes) (t0 : Z).

(** The sender's stream before its [i]-th write, and what that write queues. *)
Fixpoint writer (i : nat) : StreamState :=
  match i with
  | O => s0
  | S i => match packetize (writer i) (now i) (raw i) (ppi i) with Ok (_, _, s) => s | _ => writer i end
  end.
Definition written (i : nat) : list ChunkPayloadData :=
  match packetize (writer i) (now i) (raw i) (ppi i) with Ok (_, cs, _) => cs | _ => [] end.

(** TSNs are given out one after the other, from [t0] on. *)
Fixpoint first_tsn (i : nat) : Z :=
  match i with O => as_u32 t0 | S i => as_u32 (first_tsn i + zlen (written i)) end.

(** Fragment [j] of message [i] as the receiver decodes it from the wire. *)
Definition arriving (i j : nat) : ChunkPayloadData :=
  match written i !! j with
  | Some c => received_payload (unordered c) (beginning_fragment c) (ending_fragment c) (immediate_sack c)
                (as_u32 (first_tsn i + Z.of_nat j)) (stream_identifier c) (stream_sequence_number c)
                (payload_type c) (user_data c)
  | None => received_payload false false false false 0 0 0 PPI_Unknown []
  end.

Context (Hmax : 0 < ss_max_payload_size s0) (Hord : ss_unordered s0 = false) (Hseq : sequence_number s0 = 0).

Lemma writer_fields i :
  ss_max_payload_size (writer i) = ss_max_payload_size s0 /\ ss_unordered (writer i) = false /\
  ss_stream_identifier (writer i) = ss_stream_identifier s0 /\ sequence_number (writer i) = as_u16 (Z.of_nat i).
Proof using Hmax Hord Hseq.
  induction i as [|i (IH1 & IH2 & IH3 & IH4)]; [cbn [writer]; rewrite Hseq; by split_and!|]. cbn [writer].
  destruct (packetize_spec (writer i) (now i) (raw i) (ppi i)) as (high & cs & -> & _); [lia|].
  cbn. rewrite IH2, andb_false_r, IH4. split_and!; try done. unfold as_u16. mlia.
Qed.

Lemma written_spec i :
  payload (written i) = raw i /\
  (forall j c, written i !! j = Some c ->
     beginning_fragment c = bool_decide (j = 0%nat) /\ ending_fragment c = bool_decide (S j = length (written i)) /\
     stream_identifier c = ss_stream_identifier s0 /\ unordered c = false /\
     stream_sequence_number c = as_u16 (Z.of_nat i) /\ 0 < zlen (user_data c)).
Proof using Hmax Hord Hseq.
  destruct (writer_fields i) as (H1 & H2 & H3 & H4). unfold written.
  destruct (packetize_spec (writer i) (now i) (raw i) (ppi i)) as (high & cs & -> & Hp & Hall & _ & Hflags); [lia|].
  split; [done|]. intros j c Hc. destruct (Hflags j c Hc) as [-> ->].
  destruct (Forall_lookup_1 _ _ _ _ Hall Hc) as (-> & -> & _ & -> & _ & _ & _ & ?).
  rewrite H2, H3, H4, andb_false_r. split_and!; done || lia.
Qed.

Lemma first_tsn_range i : is_u32 (first_tsn i).
Proof using. destruct i; apply as_u32_range. Qed.

Lemma length_payload cs : Forall (fun c => 0 < zlen (user_data c)) cs -> zlen cs <= zlen (payload cs).
Proof using.
  induction 1 as [|c cs Hc Hcs IH]; [done|].
  change (payload (c :: cs)) with (user_data c ++ payload cs). rewrite zlen_cons, zlen_app. lia.
Qed.

Lemma arriving_message_ok i :
  raw i <> [] -> zlen (raw i) < 2147483648 -> (oc = false \/ first_tsn i + zlen (written i) <= 4294967296) ->
  message_ok oc (ss_stream_identifier s0) arriving (fun i => length (written i)) first_tsn i.
Proof using Hmax Hord Hseq.
  intros Hne Hlt Hw. destruct (written_spec i) as [Hp Hall].
  assert (Hlen : zlen (written i) <= zlen (raw i)).
  { rewrite <- Hp. apply length_payload, Forall_lookup. intros j c Hc. by apply (Hall j c Hc). }
  split.
  - split; [|unfold zlen in *; lia]. destruct (written i); [by rewrite <- Hp in Hne|cbn; lia].
  - apply first_tsn_range.
  - done.
  - intros j Hj. apply lookup_lt_is_Some in Hj as [c Hc]. destruct (Hall j c Hc) as (Hb & He & Hs & Hu & Hq & _).
    unfold arriving. rewrite Hc. by split_and!.
Qed.

Lemma arriving_payload i : payload (sent_message arriving (fun i => length (written i)) i) = raw i.
Proof using Hmax Hord Hseq.
  destruct (written_spec i) as [Hp _]. rewrite <- Hp. unfold payload, sent_message. f_equal.
  apply list_eq. intros j. rewrite !list_lookup_fmap.
  destruct (decide (j < length (written i))%nat) as [Hj|Hj].
  - rewrite lookup_seq_lt by done. cbn. apply lookup_lt_is_Some in Hj as [c Hc]. unfold arriving. by rewrite Hc.
  - rewrite lookup_seq_ge, lookup_ge_None_2 by lia. done.
Qed.

(** C8: What is written to an ordered stream is what is read from it.  Messages with bytes,
    each below 2^31, are written one after the other; their DATA chunks are numbered with
    consecutive TSNs from any start.  The TSNs may wrap between two messages, and where the
    code is built without overflow checks also inside a message; with overflow checks a
    message whose own TSNs wrap makes [is_complete] panic and is not covered.  Then in
    whatever order the chunks arrive at the receiver, each once and less than half the SSN
    space ahead, interleaved with its reads, the receiver reads the messages as they were
    written, whole, once and in order; a read takes the next message as soon as all its
    chunks have arrived. *)
Theorem ordered_stream_end_to_end evs k got :
  (forall i, raw i <> [] /\ zlen (raw i) < 2147483648) ->
  (oc = false \/ forall i, first_tsn i + zlen (written i) <= 4294967296) ->
  observe (fun i => length (written i)) 0 ∅ evs = Some (k, got) ->
  exists q, deliver oc arriving (ReassemblyQueue_new (ss_stream_identifier s0)) evs = Ok (map raw (seq 0 k), q) /\
    is_readable oc q = Ok (message_complete (fun i => length (written i)) k got).
Proof using Hmax Hord Hseq.
  intros Hraw Hw Hobs.
  assert (Hm : forall i, message_ok oc (ss_stream_identifier s0) arriving (fun i => length (written i)) first_tsn i).
  { intros i. destruct (Hraw i). apply arriving_message_ok; try done. destruct Hw; auto. }
  destruct (deliver_observe oc (ss_stream_identifier s0) arriving (fun i => length (written i)) first_tsn
              0 ∅ [] _ evs k got Hm (stream_inv_new _ _ _) Hobs) as (d & q & E & Hinv).
  exists q. rewrite Nat.sub_0_r in E. rewrite E. split.
  - f_equal. f_equal. apply map_ext. apply arriving_payload.
  - by destruct (stream_read _ _ _ _ _ _ _ _ _ Hm Hinv).
Qed.
End EndToEnd.

(** Three-byte messages in fragments of two bytes, with TSNs that wrap. *)
Definition example_raw (i : nat) : bytes := [Z.of_nat i; 7; 9].
Definition example_stream : StreamState := StreamState_new Client 5 2 PPI_Binary.

Lemma ordered_stream_end_to_end_witness :
  exists q, deliver false (arriving example_stream (fun _ => 0) (fun _ => PPI_Binary) example_raw 4294967294)
              (ReassemblyQueue_new 5) example_events = Ok ([[0; 7; 9]; [1; 7; 9]], q).
Proof.
  destruct (ordered_stream_end_to_end false example_stream (fun _ => 0) (fun _ => PPI_Binary) example_raw 4294967294
    eq_refl eq_refl eq_refl example_events 2 {[(0, 0); (1, 0); (0, 1); (1, 1)]}%nat) as (q & E & _).
  - intros i. split; [discriminate|reflexivity].
  - by left.
  - vm_compute. reflexivity.
  - exists q. exact E.
Defined.

(** A write of no bytes wedges an ordered stream: it queues no chunk but takes a
    sequence number, so the receiver, which has had every chunk that was sent, waits
    for that number for ever and never delivers the message written next. *)
Theorem empty_write_blocks_stream :
  exists high s1 cs s2,
    packetize example_stream 0 [] PPI_Binary = Ok (high, [], s1) /\
    packetize s1 0 [1; 2] PPI_Binary = Ok (high, cs, s2) /\ payload cs = [1; 2] /\
    exists c q, cs = [c] /\ ReassemblyQueue_push true (ReassemblyQueue_new 5) c = Ok (true, q) /\
      is_readable true q = Ok false /\ ReassemblyQueue_read true q = Ok (None, q).
Proof.
  eexists _, _, _, _. split; [vm_compute; reflexivity|]. split; [vm_compute; reflexivity|]. split; [reflexivity|].
  eexists _, _. split; [reflexivity|]. split; [vm_compute; reflexivity|]. split; vm_compute; reflexivity.
Qed.
