(* ===== verification/Association.v ===== *)
(** The association ([rtc-sctp/src/association/mod.rs]): its state, its streams, the
    four-way handshake, the receipt of DATA and FORWARD TSN, stream resets and the
    shutdown sequence.  The sending side is in [AssociationSend], the dispatch of
    packets and timers in [AssociationEvents].

    A method that returns [Result] is a function in the [stm] monad: an error leaves
    the changes made before it.  Hash maps are [gmap]s, whose order of iteration is
    fixed where Rust's is not.  Random values ([rand]) are arguments.  Logging and
    the no-op [awake_write_loop] are left out; the socket addresses are not state the
    protocol looks at. *)
From S2P Require Import Prelude Serial SctpError SctpParam SctpChunk SctpPacket PayloadQueue PendingQueue ReassemblyQueue SctpTimer SctpStream.

(** * State *)

Inductive AssociationState :=
| Closed | CookieWait | CookieEchoed | Established
| ShutdownAckSent | ShutdownPending | ShutdownReceived | ShutdownSent.
Inductive AckMode := Normal | NoDelay | AlwaysDelay.
Inductive AckState := Idle | Immediate | Delay.

#[export] Instance AssociationState_eq_dec : EqDecision AssociationState.
Proof. solve_decision. Defined.
#[export] Instance AckMode_eq_dec : EqDecision AckMode.
Proof. solve_decision. Defined.
#[export] Instance AckState_eq_dec : EqDecision AckState.
Proof. solve_decision. Defined.

Definition is_drained (s : AssociationState) : bool :=
  match s with ShutdownSent | ShutdownAckSent | ShutdownPending | ShutdownReceived => true | _ => false end.

Inductive AssociationError :=
| HandshakeFailed (reason : string) | TransportError | AssociationClosed | ApplicationClosed
| ResetByPeer | TimedOut | LocallyClosed.

Inductive StreamEvent :=
| Opened (id : Z) | Readable (id : Z) | Writable (id : Z) | Finished (id : Z)
| Stopped (id error_code : Z) | Available | BufferedAmountLow (id : Z) | BufferedAmountHigh (id : Z)
| BufferedAmountReleased (id n_bytes : Z).

Inductive Event :=
| EvHandshakeFailed (reason : AssociationError)
| EvConnected
| EvAssociationLost (reason : AssociationError) (id : Z)
| EvStream (e : StreamEvent)
| EvDatagramReceived.

Inductive EndpointEvent := Drained.

Record AssociationStats := mkStats {
  n_datas : Z; n_sacks : Z; n_t3timeouts : Z; n_ack_timeouts : Z; n_fast_retrans : Z
}.
#[export] Instance AssociationStats_eta : Eta AssociationStats := fun s =>
  mkStats (n_datas s) (n_sacks s) (n_t3timeouts s) (n_ack_timeouts s) (n_fast_retrans s).

Record Association := mkAssociation {
  as_side : Side;
  as_state : AssociationState;
  handshake_completed : bool;
  max_message_size : Z;
  inflight_queue_length : Z;
  will_send_shutdown : bool;
  peer_verification_tag : Z;
  my_verification_tag : Z;
  my_next_tsn : Z;
  peer_last_tsn : Z;
  min_tsn2measure_rtt : Z;
  will_send_forward_tsn : bool;
  will_retransmit_fast : bool;
  will_retransmit_reconfig : bool;
  t3_retransmit_pending : bool;
  will_send_shutdown_ack : bool;
  will_send_shutdown_complete : bool;
  my_next_rsn : Z;
  reconfigs : gmap Z ChunkReconfig;
  reconfig_requests : gmap Z OutgoingResetRequest;
  as_source_port : Z;
  as_destination_port : Z;
  my_max_num_inbound_streams : Z;
  my_max_num_outbound_streams : Z;
  my_cookie : option bytes;
  payload_queue : PayloadQueue;
  inflight_queue : PayloadQueue;
  pending_queue : PendingQueue;
  control_queue : list Packet;
  stream_queue : list Z;
  mtu : Z;
  max_payload_size : Z;
  cumulative_tsn_ack_point : Z;
  advanced_peer_tsn_ack_point : Z;
  use_forward_tsn : bool;
  fwd_tsn_stream_map : gmap Z Z;
  rto_mgr : RtoManager;
  timers : TimerTable;
  max_receive_buffer_size : Z;
  cwnd : Z;
  rwnd : Z;
  ssthresh : Z;
  partial_bytes_acked : Z;
  in_fast_recovery : bool;
  fast_recover_exit_point : Z;
  stored_init : option ChunkInit;
  stored_cookie_echo : option ChunkCookieEcho;
  next_stream_generation : Z;
  as_streams : gmap Z StreamState;
  events : list Event;
  endpoint_events : list EndpointEvent;
  as_error : option AssociationError;
  delayed_ack_triggered : bool;
  immediate_ack_triggered : bool;
  stats : AssociationStats;
  ack_state : AckState;
  ack_mode : AckMode
}.
#[export] Instance Association_eta : Eta Association := fun a =>
  mkAssociation (as_side a) (as_state a) (handshake_completed a) (max_message_size a) (inflight_queue_length a)
    (will_send_shutdown a) (peer_verification_tag a) (my_verification_tag a) (my_next_tsn a)
    (peer_last_tsn a) (min_tsn2measure_rtt a) (will_send_forward_tsn a) (will_retransmit_fast a)
    (will_retransmit_reconfig a) (t3_retransmit_pending a) (will_send_shutdown_ack a)
    (will_send_shutdown_complete a) (my_next_rsn a) (reconfigs a) (reconfig_requests a) (as_source_port a)
    (as_destination_port a) (my_max_num_inbound_streams a) (my_max_num_outbound_streams a) (my_cookie a)
    (payload_queue a) (inflight_queue a) (pending_queue a) (control_queue a) (stream_queue a) (mtu a)
    (max_payload_size a) (cumulative_tsn_ack_point a) (advanced_peer_tsn_ack_point a) (use_forward_tsn a)
    (fwd_tsn_stream_map a) (rto_mgr a) (timers a) (max_receive_buffer_size a) (cwnd a) (rwnd a) (ssthresh a)
    (partial_bytes_acked a) (in_fast_recovery a) (fast_recover_exit_point a) (stored_init a)
    (stored_cookie_echo a) (next_stream_generation a) (as_streams a) (events a) (endpoint_events a)
    (as_error a) (delayed_ack_triggered a) (immediate_ack_triggered a) (stats a) (ack_state a) (ack_mode a).

#[export] Instance Chunk_data_eta : Eta ChunkPayloadData := fun c =>
  mkPayload (unordered c) (beginning_fragment c) (ending_fragment c) (immediate_sack c) (tsn c) (stream_identifier c)
    (stream_sequence_number c) (payload_type c) (user_data c) (acknowledged c) (miss_indicator c) (since c)
    (created_at c) (reliability c) (stream_generation c) (nsent c) (abandoned c) (retransmit c).

(** A method of the association that returns a [Result]. *)
Abbreviation AM := (stm Association Error).

Definition COMMON_HEADER_SIZE : Z := 12.
Definition DATA_CHUNK_HEADER_SIZE : Z := 16.

Record TransportConfig := mkTransportConfig {
  cfg_max_receive_buffer_size : Z;
  cfg_max_message_size : Z;
  cfg_max_num_outbound_streams : Z;
  cfg_max_num_inbound_streams : Z;
  cfg_timer_config : TimerConfig
}.
Definition TransportConfig_default : TransportConfig :=
  mkTransportConfig (1024 * 1024) 262144 65535 65535 TimerConfig_default.

Definition Association_default : Association :=
  {| as_side := Client; as_state := Closed; handshake_completed := false; max_message_size := 0;
     inflight_queue_length := 0; will_send_shutdown := false;
     peer_verification_tag := 0; my_verification_tag := 0; my_next_tsn := 0; peer_last_tsn := 0;
     min_tsn2measure_rtt := 0; will_send_forward_tsn := false; will_retransmit_fast := false;
     will_retransmit_reconfig := false; t3_retransmit_pending := false;
     will_send_shutdown_ack := false; will_send_shutdown_complete := false;
     my_next_rsn := 0; reconfigs := ∅; reconfig_requests := ∅; as_source_port := 0; as_destination_port := 0;
     my_max_num_inbound_streams := 0; my_max_num_outbound_streams := 0; my_cookie := None;
     payload_queue := PayloadQueue_new; inflight_queue := PayloadQueue_new; pending_queue := PendingQueue_new;
     control_queue := []; stream_queue := []; mtu := 0; max_payload_size := 0;
     cumulative_tsn_ack_point := 0; advanced_peer_tsn_ack_point := 0; use_forward_tsn := false;
     fwd_tsn_stream_map := ∅;
     rto_mgr := {| srtt := 0; rttvar := SpecFloat.S754_zero false; rto := 0; no_update := false |};
     timers := TimerTable_new (mkTimerConfig 0 0 0 0 0 0);
     max_receive_buffer_size := 0; cwnd := 0; rwnd := 0; ssthresh := 0; partial_bytes_acked := 0;
     in_fast_recovery := false; fast_recover_exit_point := 0; stored_init := None; stored_cookie_echo := None;
     next_stream_generation := 0; as_streams := ∅; events := []; endpoint_events := []; as_error := None;
     delayed_ack_triggered := false; immediate_ack_triggered := false;
     stats := mkStats 0 0 0 0 0; ack_state := Idle; ack_mode := Normal |}.

(** * Small methods *)

Definition set_state (s : AssociationState) (a : Association) : Association := a <| as_state := s |>.

Definition create_packet (a : Association) (cs : list Chunk) : Packet :=
  mkPacket (mkCommonHeader (as_source_port a) (as_destination_port a) (peer_verification_tag a)) cs.

Definition push_control (p : Packet) (a : Association) : Association := a <| control_queue ::= fun q => q ++ [p] |>.
Definition push_event (e : Event) (a : Association) : Association := a <| events ::= fun q => q ++ [e] |>.

Definition send_init : AM unit := fun a =>
  match stored_init a with
  | Some init =>
      let a := a <| as_source_port := 5000 |> <| as_destination_port := 5000 |> in
      (Ok tt, push_control (create_packet a [CInit init]) a)
  | None => (Err ErrInitNotStoredToSend, a)
  end.

Definition send_cookie_echo : AM unit := fun a =>
  match stored_cookie_echo a with
  | Some c => (Ok tt, push_control (create_packet a [CCookieEcho c]) a)
  | None => (Err ErrCookieEchoNotStoredToSend, a)
  end.

Definition sat_u32 (x : Z) : Z := Z.min x 4294967295.

(** [random_tsn] is the draw of [random::<u32>()]; [local_aid] the tag the endpoint chose. *)
Definition Association_new (server : bool) (config : TransportConfig) (max_payload local_aid now random_tsn : Z)
  : Association :=
  let mtu := sat_u32 (max_payload + (COMMON_HEADER_SIZE + DATA_CHUNK_HEADER_SIZE)) in
  let cwnd := Z.min (Z.max (sat_u32 (mtu * 2)) 4380) (sat_u32 (mtu * 4)) in
  let tsn := if random_tsn =? 0 then 1 else random_tsn in
  let this := Association_default
    <| as_side := if server then Server else Client |>
    <| max_receive_buffer_size := cfg_max_receive_buffer_size config |>
    <| max_message_size := cfg_max_message_size config |>
    <| my_max_num_outbound_streams := cfg_max_num_outbound_streams config |>
    <| my_max_num_inbound_streams := cfg_max_num_inbound_streams config |>
    <| max_payload_size := max_payload |>
    <| rto_mgr := RtoManager_new |>
    <| timers := TimerTable_new (cfg_timer_config config) |>
    <| Association.mtu := mtu |> <| Association.cwnd := cwnd |>
    <| my_verification_tag := local_aid |> <| my_next_tsn := tsn |> <| my_next_rsn := tsn |>
    <| min_tsn2measure_rtt := tsn |> <| cumulative_tsn_ack_point := tsn - 1 |>
    <| advanced_peer_tsn_ack_point := tsn - 1 |> in
  if server then this
  else
    let init := set_supported_extensions
      {| is_ack := false; initial_tsn := my_next_tsn this;
         num_outbound_streams := my_max_num_outbound_streams this;
         num_inbound_streams := my_max_num_inbound_streams this;
         initiate_tag := my_verification_tag this;
         init_advertised_receiver_window_credit := max_receive_buffer_size this; init_params := [] |} in
    let this := set_state CookieWait this <| stored_init := Some init |> in
    let this := (send_init this).2 in
    this <| timers ::= timer_start T1Init now (get_rto (rto_mgr this)) |>.

(** * Streams *)

Definition create_stream (sid : Z) (accept : bool) (ppi : PayloadProtocolIdentifier) (a : Association) : Association :=
  let s := StreamState_new (as_side a) sid (max_payload_size a) ppi <| ss_generation := next_stream_generation a |> in
  let a := a <| next_stream_generation ::= fun g => as_u64 (g + 1) |> in
  let a := if accept then push_event (EvStream (Opened sid)) (a <| stream_queue ::= fun q => q ++ [sid] |>) else a in
  a <| as_streams ::= insert sid s |>.

Definition get_or_create_stream (sid : Z) (a : Association) : Association :=
  match as_streams a !! sid with
  | Some _ => a
  | None => create_stream sid true PPI_Unknown a
  end.

Definition open_stream (sid : Z) (ppi : PayloadProtocolIdentifier) : AM unit := fun a =>
  match as_streams a !! sid with
  | Some _ => (Err ErrStreamAlreadyExist, a)
  | None => (Ok tt, create_stream sid false ppi a)
  end.

Definition accept_stream (a : Association) : option Z * Association :=
  match stream_queue a with
  | [] => (None, a)
  | sid :: q => (Some sid, a <| stream_queue := q |>)
  end.

Definition unregister_stream (sid : Z) (reason : AssociationError) (a : Association) : Association :=
  match as_streams a !! sid with
  | Some _ => push_event (EvAssociationLost reason sid) (a <| as_streams ::= delete sid |>)
  | None => a
  end.

Definition stream_keys (a : Association) : list Z := (map_to_list (as_streams a)).*1.
Definition stream_values (a : Association) : list StreamState := (map_to_list (as_streams a)).*2.

Definition close_all_timers (a : Association) : Association :=
  a <| timers ::= fun tb => foldl (fun tb t => timer_stop t tb) tb Timer_VALUES |>.

Definition close (reason : AssociationError) (a : Association) : Association :=
  if bool_decide (as_state a = Closed) then a
  else
    let a := close_all_timers (set_state Closed a) in
    foldl (fun a sid => unregister_stream sid reason a) a (stream_keys a).

(** [any] over the streams, with a test that can panic. *)
Fixpoint any_readable (oc : bool) (l : list StreamState) : result bool :=
  match l with
  | [] => Ok false
  | s :: l => b ← is_readable oc (reassembly_queue s); if b : bool then Ok true else any_readable oc l
  end.
Definition has_readable_data (oc : bool) (a : Association) : result bool := any_readable oc (stream_values a).

(** [as u32] truncates and the sum is checked or wraps. *)
Fixpoint sum_queued (oc : bool) (l : list StreamState) (n : Z) : result Z :=
  match l with
  | [] => Ok n
  | s :: l => n ← add_ovf oc U32 n (as_u32 (rq_n_bytes (reassembly_queue s))); sum_queued oc l n
  end.
Definition get_my_receiver_window_credit (oc : bool) (a : Association) : result Z :=
  bytes_queued ← sum_queued oc (stream_values a) 0;
  Ok (Z.max 0 (max_receive_buffer_size a - bytes_queued)).

(** * Handshake *)

(** [tmp |= a[i] ^ b[i]]. *)
Definition constant_time_eq (x y : bytes) : bool :=
  (zlen x =? zlen y) && (foldl (fun tmp p => Z.lor tmp (Z.lxor p.1 p.2)) 0 (zip x y) =? 0).

Definition dec_tsn (t : Z) : Z := if t =? 0 then 4294967295 else t - 1.

(** The scan of the parameters of an INIT for FORWARD TSN support. *)
Definition supports_forward_tsn (ps : list Param) : bool :=
  existsb (fun p => match p with ParamSupportedExtensions ts => existsb (fun t => t =? CT_FORWARD_TSN) ts | _ => false end) ps.
(** The last state cookie among the parameters of an INIT ACK. *)
Definition find_cookie (ps : list Param) : option bytes :=
  foldl (fun acc p => match p with ParamStateCookie c => Some c | _ => acc end) None ps.

(** [new_cookie] is the draw of [ParamStateCookie::new()]. *)
Definition handle_init (new_cookie : bytes) (p : Packet) (i : ChunkInit) : AM (list Packet) := fun a =>
  if negb (bool_decide (as_state a ∈ [Closed; CookieWait; CookieEchoed])) then (Err ErrHandleInitState, a)
  else
    let a := a
      <| my_max_num_inbound_streams ::= Z.min (num_inbound_streams i) |>
      <| my_max_num_outbound_streams ::= Z.min (num_outbound_streams i) |>
      <| peer_verification_tag := initiate_tag i |>
      <| as_source_port := destination_port (common_header p) |>
      <| as_destination_port := source_port (common_header p) |>
      <| peer_last_tsn := dec_tsn (initial_tsn i) |>
      <| rwnd := init_advertised_receiver_window_credit i |>
      <| ssthresh := init_advertised_receiver_window_credit i |>
      <| use_forward_tsn ::= fun u => u || supports_forward_tsn (init_params i) |> in
    let cookie := default new_cookie (my_cookie a) in
    let a := a <| my_cookie := Some cookie |> in
    let init_ack := set_supported_extensions
      {| is_ack := true; initial_tsn := my_next_tsn a;
         num_outbound_streams := my_max_num_outbound_streams a; num_inbound_streams := my_max_num_inbound_streams a;
         initiate_tag := my_verification_tag a; init_advertised_receiver_window_credit := max_receive_buffer_size a;
         init_params := [ParamStateCookie cookie] |} in
    (Ok [create_packet a [CInit init_ack]], a).

Definition handle_init_ack (p : Packet) (i : ChunkInit) (now : Z) : AM (list Packet) := fun a =>
  if negb (bool_decide (as_state a = CookieWait)) then (Ok [], a)
  else
    let a := a
      <| my_max_num_inbound_streams ::= Z.min (num_inbound_streams i) |>
      <| my_max_num_outbound_streams ::= Z.min (num_outbound_streams i) |>
      <| peer_verification_tag := initiate_tag i |>
      <| peer_last_tsn := dec_tsn (initial_tsn i) |> in
    if negb (as_source_port a =? destination_port (common_header p))
       || negb (as_destination_port a =? source_port (common_header p))
    then (Ok [], a)
    else
      let a := a
        <| rwnd := init_advertised_receiver_window_credit i |>
        <| ssthresh := init_advertised_receiver_window_credit i |>
        <| timers ::= timer_stop T1Init |>
        <| stored_init := None |>
        <| use_forward_tsn ::= fun u => u || supports_forward_tsn (init_params i) |> in
      match find_cookie (init_params i) with
      | Some c =>
          (send_cookie_echo ;;
           modify (fun a => set_state CookieEchoed (a <| timers ::= timer_start T1Cookie now (get_rto (rto_mgr a)) |>)) ;;
           mret [] : AM (list Packet))
          (a <| stored_cookie_echo := Some (mkCookieEcho c) |>)
      | None => (Err ErrInitAckNoCookie, a)
      end.

Definition handle_heartbeat (params : list Param) (a : Association) : list Packet :=
  match params with
  | ParamHeartbeatInfo info :: _ => [create_packet a [CHeartbeatAck [ParamHeartbeatInfo info]]]
  | _ => []
  end.

Definition handle_cookie_echo (c : ChunkCookieEcho) (a : Association) : list Packet * Association :=
  match my_cookie a with
  | None => ([], a)
  | Some cookie =>
      let ack a := ([create_packet a [CCookieAck]], a) in
      match as_state a with
      | Established => if negb (constant_time_eq cookie (echo_cookie c)) then ([], a) else ack a
      | Closed | CookieWait | CookieEchoed =>
          if negb (constant_time_eq cookie (echo_cookie c)) then ([], a)
          else
            let a := a <| timers ::= timer_stop T1Init |> <| stored_init := None |>
                       <| timers ::= timer_stop T1Cookie |> <| stored_cookie_echo := None |> in
            ack (set_state Established (push_event EvConnected a) <| handshake_completed := true |>)
      | _ => ([], a)
      end
  end.

Definition handle_cookie_ack (a : Association) : list Packet * Association :=
  if negb (bool_decide (as_state a = CookieEchoed)) then ([], a)
  else
    let a := a <| timers ::= timer_stop T1Cookie |> <| stored_cookie_echo := None |> in
    ([], set_state Established (push_event EvConnected a) <| handshake_completed := true |>).

Definition is_handshaking (a : Association) : bool := negb (handshake_completed a).
Definition negotiated_max_streams (a : Association) : option Z :=
  if is_handshaking a then None
  else Some (Z.min (my_max_num_inbound_streams a) (my_max_num_outbound_streams a)).

(** * Stream resets *)

Definition generate_next_rsn (oc : bool) : AM Z := fun a =>
  match add_ovf oc U32 (my_next_rsn a) 1 with
  | Ok n => (Ok (my_next_rsn a), a <| my_next_rsn := n |>)
  | Err e => (Err e, a)
  | Panic => (Panic, a)
  | Diverge => (Diverge, a)
  end.

Definition streams_awaiting_drain (oc : bool) (p : OutgoingResetRequest) (a : Association) : result (list Z) :=
  filter_result (fun id => match as_streams a !! id with
                           | Some s => is_readable oc (reassembly_queue s)
                           | None => Ok false
                           end) (stream_identifiers p).

(** The loop over the streams named by a request: those not draining are reset. *)
Definition reset_loop (respond : bool) (draining ids : list Z) (a : Association) : list Z * Association :=
  foldl (fun '(sis, a) id =>
    if bool_decide (id ∈ draining) then (sis, a)
    else
      match as_streams a !! id with
      | Some _ => (if respond then sis ++ [id] else sis, unregister_stream id ResetByPeer a)
      | None => (sis, a)
      end) ([], a) ids.

(** The packets to reply with. *)
Definition reset_streams_if_any (oc : bool) (p : OutgoingResetRequest) (respond : bool) : AM (list Packet) :=
  '(res, sis_to_reset) ← (fun a =>
    if sna32lte (sender_last_tsn p) (peer_last_tsn a) then
      (draining ← lift (streams_awaiting_drain oc p a);
       sis ← (fun a => let '(sis, a) := reset_loop respond draining (stream_identifiers p) a in (Ok sis, a));
       match draining with
       | [] => modify (fun a => a <| reconfig_requests ::= delete (reconfig_request_sequence_number p) |>) ;;
               mret (RR_SuccessPerformed, sis)
       | _ => mret (RR_InProgress, sis)
       end : AM (ReconfigResult * list Z)) a
    else (Ok (RR_InProgress, []), a)) : AM (ReconfigResult * list Z);
  request ← (match sis_to_reset with
             | [] => mret []
             | _ =>
                 rsn ← generate_next_rsn oc;
                 a ← gets id;
                 t ← lift (sub_ovf oc U32 (my_next_tsn a) 1);
                 let c := mkReconfig (Some (ParamOutgoingResetRequest
                            (mkOutgoingResetRequest rsn (reconfig_request_sequence_number p) t sis_to_reset))) None in
                 modify (fun a => a <| reconfigs ::= insert rsn c |>) ;;
                 gets (fun a => [create_packet a [CReconfig c]])
             end : AM (list Packet));
  response ← gets (fun a => create_packet a [CReconfig
               (mkReconfig (Some (ParamReconfigResponse (reconfig_request_sequence_number p) res)) None)]);
  mret (request ++ [response]).

Fixpoint reset_all (oc : bool) (respond : bool) (ps : list OutgoingResetRequest) : AM (list Packet) :=
  match ps with
  | [] => mret []
  | p :: ps => r ← reset_streams_if_any oc p respond; rs ← reset_all oc respond ps; mret (r ++ rs)
  end.

Definition pending_requests (a : Association) : list OutgoingResetRequest := (map_to_list (reconfig_requests a)).*2.

(** An error of one request is logged and the others are still tried. *)
Fixpoint retry_loop (oc : bool) (ps : list OutgoingResetRequest) : AM (list Packet) :=
  match ps with
  | [] => mret []
  | p :: ps =>
      r ← (fun a => match reset_streams_if_any oc p true a with
                    | (Err _, a) => (Ok [], a)
                    | m => m
                    end : outcome Error (list Packet) * Association);
      rs ← retry_loop oc ps;
      mret (r ++ rs)
  end.

Definition retry_deferred_resets (oc : bool) (sid : Z) : AM unit := fun a =>
  let pending := List.filter (fun p => bool_decide (sid ∈ stream_identifiers p)) (pending_requests a) in
  match pending with
  | [] => (Ok tt, a)
  | _ => (reply ← retry_loop oc pending;
          modify (fun a => a <| control_queue ::= fun q => q ++ reply |>) : AM unit) a
  end.

Definition handle_reconfig_param (oc : bool) (raw : Param) : AM (list Packet) :=
  match raw with
  | ParamOutgoingResetRequest p =>
      modify (fun a => a <| reconfig_requests ::= insert (reconfig_request_sequence_number p) p |>) ;;
      reset_streams_if_any oc p true
  | ParamReconfigResponse n _ =>
      modify (fun a =>
        let a := a <| reconfigs ::= delete n |> in
        if bool_decide (reconfigs a = ∅) then a <| timers ::= timer_stop Reconfig |> else a) ;;
      mret []
  | _ => throw ErrParameterType
  end.

Definition handle_reconfig (oc : bool) (c : ChunkReconfig) : AM (list Packet) :=
  ra ← (match param_a c with Some p => handle_reconfig_param oc p | None => mret [] end : AM (list Packet));
  rb ← (match param_b c with Some p => handle_reconfig_param oc p | None => mret [] end : AM (list Packet));
  mret (ra ++ rb).

(** * Receiving DATA *)

(** [while self.payload_queue.pop(self.peer_last_tsn + 1).is_some()], with the reset
    requests that wait for the TSN retried. *)
Fixpoint advance_peer_loop (fuel : nat) (oc : bool) : AM (list Packet) :=
  match fuel with
  | O => lift Diverge
  | S fuel =>
      a ← gets id;
      next ← lift (add_ovf oc U32 (peer_last_tsn a) 1);
      '(c, q) ← lift (PayloadQueue_pop oc (payload_queue a) next);
      modify (fun a => a <| payload_queue := q |>) ;;
      match c with
      | Some _ =>
          t ← lift (add_ovf oc U32 (peer_last_tsn a) 1);
          modify (fun a => a <| peer_last_tsn := t |>) ;;
          a ← gets id;
          reply ← reset_all oc false (pending_requests a);
          rest ← advance_peer_loop fuel oc;
          mret (reply ++ rest)
      | None => mret []
      end
  end.

Definition handle_peer_last_tsn_and_acknowledgement (oc : bool) (sack_immediately : bool) : AM (list Packet) :=
  a ← gets id;
  reply ← advance_peer_loop (S (length (sorted (payload_queue a)))) oc;
  modify (fun a =>
    let has_packet_loss := negb (PayloadQueue_is_empty (payload_queue a)) in
    if (negb (bool_decide (ack_state a = Immediate)) && negb sack_immediately && negb has_packet_loss
        && bool_decide (ack_mode a = Normal)) || bool_decide (ack_mode a = AlwaysDelay)
    then if bool_decide (ack_state a = Idle) then a <| delayed_ack_triggered := true |>
         else a <| immediate_ack_triggered := true |>
    else a <| immediate_ack_triggered := true |>) ;;
  mret reply.

(** Whether a chunk that can be pushed is taken when the receive buffer is full. *)
Definition accept_when_full (oc : bool) (d : ChunkPayloadData) (a : Association) : result bool :=
  let fills_gap := match get_last_tsn_received (payload_queue a) with
                   | Some last_tsn => sna32lt (tsn d) last_tsn
                   | None => false
                   end in
  unblocks ← (if tsn d =? as_u32 (peer_last_tsn a + 1) then negb <$> has_readable_data oc a else Ok false);
  Ok (fills_gap || unblocks).

Definition handle_data (oc : bool) (d : ChunkPayloadData) : AM (list Packet) :=
  modify (fun a => a <| stats ::= fun s => s <| n_datas ::= Z.add 1 |> |>) ;;
  a ← gets id;
  stream_handle_data ←
    (if can_push (payload_queue a) d (peer_last_tsn a) then
       modify (get_or_create_stream (stream_identifier d)) ;;
       a ← gets id;
       credit ← lift (get_my_receiver_window_credit oc a);
       take ← (if 0 <? credit then mret true else lift (accept_when_full oc d a) : AM bool);
       if take : bool then
         modify (fun a => a <| payload_queue ::= fun q => (PayloadQueue_push q d (peer_last_tsn a)).2 |>) ;;
         mret true
       else mret false
     else mret false : AM bool);
  (if stream_handle_data : bool then
     a ← gets id;
     match as_streams a !! stream_identifier d with
     | Some s =>
         modify (push_event EvDatagramReceived) ;;
         '(ok, s) ← lift (SctpStream.stream_handle_data oc s d);
         modify (fun a => a <| as_streams ::= insert (stream_identifier d) s |>) ;;
         readable ← (if ok : bool then lift (is_readable oc (reassembly_queue s)) else mret false : AM bool);
         if readable : bool then modify (push_event (EvStream (Readable (ss_stream_identifier s)))) else mret tt
     | None => mret tt
     end
   else mret tt : AM unit) ;;
  handle_peer_last_tsn_and_acknowledgement oc (immediate_sack d).

(** * FORWARD TSN *)

Definition update_stream (sid : Z) (s : StreamState) (a : Association) : Association :=
  a <| as_streams ::= insert sid s |>.

Definition report_readable (oc : bool) (s : StreamState) : AM unit :=
  readable ← lift (is_readable oc (reassembly_queue s));
  if readable : bool then modify (push_event (EvStream (Readable (ss_stream_identifier s)))) else mret tt.

Definition forward_ordered_stream (oc : bool) (f : ChunkForwardTsnStream) : AM unit :=
  a ← gets id;
  match as_streams a !! identifier f with
  | Some s =>
      s ← lift (handle_forward_tsn_for_ordered oc s (sequence f));
      modify (update_stream (identifier f) s) ;;
      report_readable oc s
  | None => mret tt
  end.

Definition forward_unordered_stream (oc : bool) (new_tsn : Z) (p : Z * StreamState) : AM unit :=
  let s := handle_forward_tsn_for_unordered p.2 new_tsn in
  modify (update_stream p.1 s) ;; report_readable oc s.

(** [ErrorCauseUnrecognizedChunkType::default()]: the type is an alias of [ErrorCause]. *)
Definition ErrorCauseUnrecognizedChunkType_default : ErrorCause := mkCause 0 [].

Definition handle_forward_tsn (oc : bool) (c : ChunkForwardTsn) : AM (list Packet) :=
  a ← gets id;
  if negb (use_forward_tsn a) then mret [create_packet a [CError [ErrorCauseUnrecognizedChunkType_default]]]
  else if sna32lte (new_cumulative_tsn c) (peer_last_tsn a) then
    modify (fun a => a <| ack_state := Immediate |> <| timers ::= timer_stop Ack |>) ;; mret []
  else
    '(cum, q) ← lift (forward_loop (S (Z.to_nat (off32 (peer_last_tsn a) (new_cumulative_tsn c)))) oc
                        (new_cumulative_tsn c) (peer_last_tsn a) (payload_queue a));
    modify (fun a => a <| peer_last_tsn := cum |> <| payload_queue := q |>) ;;
    for_each (forward_ordered_stream oc) (SctpChunk.streams c) ;;
    a ← gets id;
    for_each (forward_unordered_stream oc (new_cumulative_tsn c)) (map_to_list (as_streams a)) ;;
    handle_peer_last_tsn_and_acknowledgement oc false.

(** * Shutdown *)

Definition shutdown : AM unit := fun a =>
  if negb (bool_decide (as_state a = Established)) then (Err ErrShutdownNonEstablished, a)
  else
    let a := set_state ShutdownPending a in
    let a := if inflight_queue_length a =? 0 then set_state ShutdownSent (a <| will_send_shutdown := true |>) else a in
    (Ok tt, a <| endpoint_events ::= fun q => q ++ [Drained] |>).

Definition handle_shutdown (a : Association) : Association :=
  match as_state a with
  | Established =>
      if negb (PayloadQueue_is_empty (inflight_queue a)) then set_state ShutdownReceived a
      else set_state ShutdownAckSent (a <| will_send_shutdown_ack := true |>)
  | ShutdownSent => set_state ShutdownAckSent (a <| will_send_shutdown_ack := true |>)
  | _ => a
  end.

Definition handle_shutdown_ack (a : Association) : Association :=
  match as_state a with
  | ShutdownSent | ShutdownAckSent => a <| timers ::= timer_stop T2Shutdown |> <| will_send_shutdown_complete := true |>
  | _ => a
  end.

Definition handle_shutdown_complete (a : Association) : Association :=
  match as_state a with
  | ShutdownAckSent => close AssociationClosed (a <| timers ::= timer_stop T2Shutdown |>)
  | _ => a
  end.
