(* ===== verification/AssociationSend.v ===== *)
(** The sending side of the association ([rtc-sctp/src/association/mod.rs]): the
    processing of a SACK, congestion control, fast retransmission, the abandonment of
    messages under partial reliability, and the gathering of outgoing packets. *)
From S2P Require Import Prelude Serial SctpError SctpParam SctpChunk SctpPacket PayloadQueue PendingQueue ReassemblyQueue SctpTimer SctpStream Association.

(** * SACK *)

Definition is_current_stream_data (a : Association) (c : ChunkPayloadData) : bool :=
  match as_streams a !! stream_identifier c with
  | Some s => ss_generation s =? stream_generation c
  | None => false
  end.

(** What a SACK acknowledged so far: bytes per stream and in total, whether any
    DATA was newly acknowledged, and the highest TSN newly acknowledged. *)
Record Acked := mkAcked {
  bytes_acked_per_stream : gmap Z Z;
  total_bytes_acked : Z;
  newly_acked_data : bool;
  htna : Z
}.

Definition add_bytes (sid n : Z) (m : gmap Z Z) : gmap Z Z := <[sid := default 0 (m !! sid) + n]> m.

Definition count_acked (a : Association) (c : ChunkPayloadData) (n : Z) (k : Acked) : Acked :=
  {| bytes_acked_per_stream := if is_current_stream_data a c
                               then add_bytes (stream_identifier c) n (bytes_acked_per_stream k)
                               else bytes_acked_per_stream k;
     total_bytes_acked := total_bytes_acked k + n;
     newly_acked_data := newly_acked_data k || (0 <? nsent c);
     htna := htna k |}.

(** [now.duration_since(since).as_millis()]; [duration_since] saturates at zero. *)
Definition elapsed_millis (now since : Z) : Z := Z.max 0 (now - since) / 1000000.

Definition measure_rtt (oc : bool) (now : Z) (c : ChunkPayloadData) : AM unit :=
  modify (fun a => a <| min_tsn2measure_rtt := my_next_tsn a |>) ;;
  match since c with
  | Some t =>
      a ← gets id;
      '(_, m) ← lift (set_new_rtt oc (rto_mgr a) (as_u64 (elapsed_millis now t)));
      modify (fun a => a <| rto_mgr := m |>)
  | None => mret tt
  end.

Definition exit_fast_recovery (c : ChunkPayloadData) (a : Association) : Association :=
  if in_fast_recovery a && (tsn c =? fast_recover_exit_point a) then a <| in_fast_recovery := false |> else a.

(** The chunks up to the cumulative TSN ack leave the in-flight queue. *)
Fixpoint cumulative_loop (fuel : nat) (oc : bool) (now cum i : Z) (k : Acked) : AM Acked :=
  if sna32lte i cum then
    match fuel with
    | O => lift Diverge
    | S fuel =>
        a ← gets id;
        '(c, q) ← lift (PayloadQueue_pop oc (inflight_queue a) i);
        modify (fun a => a <| inflight_queue := q |>) ;;
        match c with
        | None => throw ErrInflightQueueTsnPop
        | Some c =>
            let '(fresh, c) := acknowledge c in
            k ← (if fresh : bool then
                   a ← gets id;
                   (if negb (abandoned c) && (nsent c =? 1) && sna32gte (tsn c) (min_tsn2measure_rtt a)
                    then measure_rtt oc now c else mret tt : AM unit) ;;
                   mret (count_acked a c (zlen (user_data c)) k)
                 else mret k : AM Acked);
            modify (exit_fast_recovery c) ;;
            cumulative_loop fuel oc now cum (as_u32 (i + 1)) k
        end
    end
  else mret k.

(** One TSN of a gap ack block. *)
Definition gap_acked (oc : bool) (now t : Z) (k : Acked) : AM Acked :=
  a ← gets id;
  let '(newly, q) := PayloadQueue_acknowledge (inflight_queue a) t in
  modify (fun a => a <| inflight_queue := q |>) ;;
  n ← (if newly : bool then
         '(n, q) ← lift (release_payload oc q t);
         modify (fun a => a <| inflight_queue := q |>) ;; mret n
       else mret 0 : AM Z);
  a ← gets id;
  match PayloadQueue_get (inflight_queue a) t with
  | None => throw ErrTsnRequestNotExist
  | Some c =>
      if newly : bool then
        (if negb (abandoned c) && (nsent c =? 1) then measure_rtt oc now c else mret tt : AM unit) ;;
        let k := count_acked a c n k in
        mret {| bytes_acked_per_stream := bytes_acked_per_stream k; total_bytes_acked := total_bytes_acked k;
                newly_acked_data := newly_acked_data k; htna := if sna32lt (htna k) t then t else htna k |}
      else mret k
  end.

Fixpoint gap_acked_all (oc : bool) (now : Z) (ts : list Z) (k : Acked) : AM Acked :=
  match ts with
  | [] => mret k
  | t :: ts => k ← gap_acked oc now t k; gap_acked_all oc now ts k
  end.

(** The TSNs the gap ack blocks of a SACK name, in order. *)
Definition gap_tsns (d : ChunkSelectiveAck) : list Z :=
  concat (map (fun g => map (fun i => as_u32 (sack_cumulative_tsn_ack d + i))
                            (seqZ (gap_start g) (gap_end g - gap_start g + 1))) (gap_ack_blocks d)).

Definition get_is (f : ChunkPayloadData -> bool) (q : PayloadQueue) (t : Z) : bool :=
  match PayloadQueue_get q t with Some c => f c | None => false end.

Definition process_selective_ack (oc : bool) (d : ChunkSelectiveAck) (now : Z) : AM Acked :=
  a ← gets id;
  let earliest_outstanding := List.find (get_is is_outstanding (inflight_queue a)) (sorted (inflight_queue a)) in
  let cum := sack_cumulative_tsn_ack d in
  k ← cumulative_loop (S (length (sorted (inflight_queue a)))) oc now cum (as_u32 (cumulative_tsn_ack_point a + 1))
        (mkAcked ∅ 0 false cum);
  k ← gap_acked_all oc now (gap_tsns d) k;
  (if newly_acked_data k then modify (fun a => a <| timers ::= reset_retrans T3RTX |>) else mret tt : AM unit) ;;
  modify (fun a =>
    match earliest_outstanding with
    | Some t => if sna32lte t cum || get_is acknowledged (inflight_queue a) t
                then a <| timers ::= timer_set T3RTX None |> else a
    | None => a
    end) ;;
  mret k.

Definition PendingQueue_is_empty (q : PendingQueue) : bool := queue_len q =? 0.

Definition start_t3 (now : Z) (a : Association) : Association :=
  a <| timers ::= start_if_idle T3RTX now (get_rto (rto_mgr a)) |>.

Definition on_cumulative_tsn_ack_point_advanced (oc : bool) (total : Z) (now : Z) : AM unit :=
  modify (fun a => if PayloadQueue_is_empty (inflight_queue a) then a <| timers ::= timer_stop T3RTX |>
                   else start_t3 now a) ;;
  a ← gets id;
  if cwnd a <=? ssthresh a then
    if negb (in_fast_recovery a) && negb (PendingQueue_is_empty (pending_queue a)) then
      w ← lift (add_ovf oc U32 (cwnd a) (Z.min (as_u32 total) (cwnd a)));
      modify (fun a => a <| cwnd := w |>)
    else mret tt
  else
    p ← lift (add_ovf oc U32 (partial_bytes_acked a) (as_u32 total));
    modify (fun a => a <| partial_bytes_acked := p |>) ;;
    if (cwnd a <=? p) && negb (PendingQueue_is_empty (pending_queue a)) then
      w ← lift (add_ovf oc U32 (cwnd a) (mtu a));
      modify (fun a => a <| partial_bytes_acked := p - cwnd a |> <| cwnd := w |>)
    else mret tt.

(** [ssthresh = max(cwnd / 2, 4 * mtu)]. *)
Definition reduced_ssthresh (oc : bool) (a : Association) : result Z :=
  m ← mul_ovf oc U32 4 (mtu a); Ok (Z.max (cwnd a / 2) m).

Definition update_inflight (t : Z) (c : ChunkPayloadData) (a : Association) : Association :=
  a <| inflight_queue ::= fun q => mkPayloadQueue (<[t := c]> (chunk_map q)) (sorted q) (dup_tsn q) (pq_n_bytes q) |>.

Fixpoint miss_loop (fuel : nat) (oc : bool) (htna max_tsn t : Z) : AM unit :=
  if sna32lt t max_tsn then
    match fuel with
    | O => lift Diverge
    | S fuel =>
        a ← gets id;
        match PayloadQueue_get (inflight_queue a) t with
        | None => throw ErrTsnRequestNotExist
        | Some c =>
            (if is_outstanding c && (miss_indicator c <? 3) then
               let m := miss_indicator c + 1 in
               modify (update_inflight t (c <| miss_indicator := m |>)) ;;
               if (m =? 3) && negb (in_fast_recovery a) then
                 s ← lift (reduced_ssthresh oc a);
                 modify (fun a => a <| in_fast_recovery := true |> <| fast_recover_exit_point := htna |>
                                    <| ssthresh := s |> <| cwnd := s |> <| partial_bytes_acked := 0 |>
                                    <| will_retransmit_fast := true |>)
               else mret tt
             else mret tt : AM unit) ;;
            miss_loop fuel oc htna max_tsn (as_u32 (t + 1))
        end
    end
  else mret tt.

Definition process_fast_retransmission (oc : bool) (cum htna : Z) (advanced : bool) : AM unit :=
  a ← gets id;
  (if negb (in_fast_recovery a) || advanced then
     max_tsn ← (if negb (in_fast_recovery a) then mret htna
                else n ← lift (add_ovf oc U32 (as_u32 (Z.of_nat (PayloadQueue_len (inflight_queue a)))) 1);
                     mret (as_u32 (cum + n)) : AM Z);
     miss_loop (S (length (sorted (inflight_queue a)))) oc htna max_tsn (as_u32 (cum + 1))
   else mret tt : AM unit) ;;
  modify (fun a => if in_fast_recovery a && advanced then a <| will_retransmit_fast := true |> else a).

(** * Stream buffers and FORWARD TSN *)

Definition release_one (si n : Z) (a : Association) : Association :=
  let a := if 0 <? n then push_event (EvStream (BufferedAmountReleased si n)) a else a in
  match as_streams a !! si with
  | Some s =>
      let '(low, s) := on_buffer_released s n in
      let a := update_stream si s a in
      if low : bool then push_event (EvStream (BufferedAmountLow si)) a else a
  | None => a
  end.
Definition release_stream_buffers (m : gmap Z Z) (a : Association) : Association :=
  foldl (fun a p => release_one p.1 p.2 a) a (map_to_list m).

Definition note_abandoned_for_forward_tsn (unord : bool) (si ssn : Z) (a : Association) : Association :=
  if unord then a
  else a <| fwd_tsn_stream_map ::= fun m =>
              match m !! si with
              | Some cur => if sna16lt cur ssn then <[si := ssn]> m else m
              | None => <[si := ssn]> m
              end |>.

(** [while let Some(c) = self.inflight_queue.get(tsn)], up to the first chunk not abandoned. *)
Fixpoint advance_ack_loop (fuel : nat) (t : Z) (a : Association) : result Association :=
  match fuel with
  | O => Diverge
  | S fuel =>
      match PayloadQueue_get (inflight_queue a) t with
      | None => Ok a
      | Some c =>
          if negb (abandoned c) then Ok a
          else advance_ack_loop fuel (as_u32 (t + 1))
                 (note_abandoned_for_forward_tsn (unordered c) (stream_identifier c) (stream_sequence_number c)
                    (a <| advanced_peer_tsn_ack_point := t |>))
      end
  end.

Definition advance_peer_ack_point (a : Association) : result Association :=
  a ← advance_ack_loop (S (size (chunk_map (inflight_queue a)))) (as_u32 (advanced_peer_tsn_ack_point a + 1)) a;
  Ok (if sna32gt (advanced_peer_tsn_ack_point a) (cumulative_tsn_ack_point a)
      then a <| will_send_forward_tsn := true |>
      else a <| fwd_tsn_stream_map := ∅ |>).

(** Run a function on the state that returns the new state or panics. *)
Definition modify_result (f : Association -> result Association) : AM unit := fun a =>
  match f a with
  | Ok a => (Ok tt, a)
  | Err e => (Err e, a)
  | Panic => (Panic, a)
  | Diverge => (Diverge, a)
  end.

Definition postprocess_sack (state : AssociationState) (now : Z) (a : Association) : Association :=
  if negb (PayloadQueue_is_empty (inflight_queue a)) then start_t3 now a
  else
    match state with
    | ShutdownPending => set_state ShutdownSent (a <| will_send_shutdown := true |>)
    | ShutdownReceived => set_state ShutdownAckSent (a <| will_send_shutdown_ack := true |>)
    | _ => a
    end.

Definition update_rwnd (d : ChunkSelectiveAck) (a : Association) : Association :=
  let outstanding := as_u32 (pq_n_bytes (inflight_queue a)) in
  a <| rwnd := if sack_advertised_receiver_window_credit d <=? outstanding then 0
               else sack_advertised_receiver_window_credit d - outstanding |>.

Definition handle_sack (oc : bool) (d : ChunkSelectiveAck) (now : Z) : AM (list Packet) :=
  a ← gets id;
  let state := as_state a in
  let cum := sack_cumulative_tsn_ack d in
  if negb (bool_decide (state ∈ [Established; ShutdownPending; ShutdownReceived])) then mret []
  else
    modify (fun a => a <| stats ::= fun s => s <| n_sacks ::= Z.add 1 |> |>) ;;
    if sna32gt (cumulative_tsn_ack_point a) cum then mret []
    else
      k ← process_selective_ack oc d now;
      a ← gets id;
      let advanced := sna32lt (cumulative_tsn_ack_point a) cum in
      (if advanced then
         modify (fun a => a <| cumulative_tsn_ack_point := cum |>) ;;
         on_cumulative_tsn_ack_point_advanced oc (total_bytes_acked k) now
       else mret tt : AM unit) ;;
      modify (release_stream_buffers (bytes_acked_per_stream k)) ;;
      modify (update_rwnd d) ;;
      process_fast_retransmission oc cum (htna k) advanced ;;
      a ← gets id;
      (if use_forward_tsn a then
         modify (fun a => if sna32lt (advanced_peer_tsn_ack_point a) (cumulative_tsn_ack_point a)
                          then a <| advanced_peer_tsn_ack_point := cumulative_tsn_ack_point a |>
                                 <| fwd_tsn_stream_map := ∅ |>
                          else a) ;;
         modify_result advance_peer_ack_point
       else mret tt : AM unit) ;;
      modify (postprocess_sack state now) ;;
      mret [].

(** * Abandoning messages *)

Record MessageToAbandon := mkToAbandon { ma_inflight : option (Z * Z); ma_pending : option PendingPosition }.

Definition deadline (r : MessageReliability) : option Z := match r with Timed d => Some d | _ => None end.

Definition timed_data_expired (a : Association) (c : ChunkPayloadData) (now : Z) : bool :=
  use_forward_tsn a && match deadline (reliability c) with Some d => d <=? now | None => false end.

Definition retransmission_policy_exhausted (a : Association) (c : ChunkPayloadData) (now : Z) (is_candidate : bool) : bool :=
  if negb (use_forward_tsn a) then false
  else
    match reliability c with
    | Reliable => false
    | Timed d => (d <=? now) && (negb (bool_decide (Some d = created_at c)) || is_candidate)
    | Rexmit max_retransmits => is_candidate && (max_retransmits <? nsent c)
    end.

Definition generate_next_tsn (a : Association) : Z * Association :=
  (my_next_tsn a, a <| my_next_tsn ::= fun t => as_u32 (t + 1) |>).

Definition same_message (c d : ChunkPayloadData) : bool :=
  (stream_identifier c =? stream_identifier d) && (stream_sequence_number c =? stream_sequence_number d)
  && (stream_generation c =? stream_generation d) && eqb (unordered c) (unordered d).

Definition inconsistent : Error := OtherSctpErr "inconsistent retransmission message".

(** The fragments of the candidate's message before it, and after it. *)
Fixpoint first_loop (fuel : nat) (a : Association) (cand c : ChunkPayloadData) (first : Z) : result Z :=
  if negb (beginning_fragment c) && negb (first =? as_u32 (cumulative_tsn_ack_point a + 1)) then
    match fuel with
    | O => Diverge
    | S fuel =>
        let first := as_u32 (first - 1) in
        match PayloadQueue_get (inflight_queue a) first with
        | None => Err inconsistent
        | Some c => if ending_fragment c || negb (same_message c cand) then Err inconsistent
                    else first_loop fuel a cand c first
        end
    end
  else Ok first.
Fixpoint last_loop (fuel : nat) (a : Association) (cand c : ChunkPayloadData) (last : Z)
  : result (Z * option PendingPosition) :=
  if negb (ending_fragment c) then
    match fuel with
    | O => Diverge
    | S fuel =>
        let next := as_u32 (last + 1) in
        match PayloadQueue_get (inflight_queue a) next with
        | None =>
            match peek (pending_queue a) with
            | None => Err inconsistent
            | Some tail => if beginning_fragment tail || negb (same_message tail cand) then Err inconsistent
                           else Ok (last, front_position (pending_queue a))
            end
        | Some c => if beginning_fragment c || negb (same_message c cand) then Err inconsistent
                    else last_loop fuel a cand c next
        end
    end
  else Ok (last, None).

Definition retransmit_message_to_abandon (a : Association) (t : Z) : result MessageToAbandon :=
  match PayloadQueue_get (inflight_queue a) t with
  | None => Err inconsistent
  | Some cand =>
      let fuel := S (size (chunk_map (inflight_queue a))) in
      first ← first_loop fuel a cand cand t;
      '(last, pending) ← last_loop fuel a cand cand t;
      Ok (mkToAbandon (Some (first, last)) pending)
  end.

(** The drained tail: it gets TSNs, or is released at once when nothing of its
    message was sent and it is unordered. *)
Fixpoint abandon_tail (assign_tsns : bool) (tail : list ChunkPayloadData) (inflight : option (Z * Z))
  (released : gmap Z Z) (changed : bool) (a : Association) : option (Z * Z) * gmap Z Z * bool * Association :=
  match tail with
  | [] => (inflight, released, changed, a)
  | c :: tail =>
      if assign_tsns then
        let '(t, a) := generate_next_tsn a in
        let inflight := Some (match inflight with Some (first, _) => first | None => t end, t) in
        abandon_tail assign_tsns tail inflight released changed
          (a <| inflight_queue ::= fun q => push_no_check q (c <| tsn := t |>) |>)
      else
        let released := if is_current_stream_data a c
                        then add_bytes (stream_identifier c) (zlen (user_data c)) released else released in
        abandon_tail assign_tsns tail inflight released true a
  end.

(** The in-flight fragments from [t] to [last] are marked and their payload released. *)
Fixpoint abandon_inflight (fuel : nat) (oc : bool) (t last : Z) (released : gmap Z Z) (changed : bool)
  : AM (gmap Z Z * bool) :=
  match fuel with
  | O => lift Diverge
  | S fuel =>
      a ← gets id;
      '(released, changed) ←
        (match PayloadQueue_get (inflight_queue a) t with
         | Some c =>
             let a' := update_inflight t (mark_abandoned c) a in
             '(n, q) ← lift (release_payload oc (inflight_queue a') t);
             modify (fun _ => a' <| inflight_queue := q |>) ;;
             mret (if (0 <? n) && is_current_stream_data a c
                   then add_bytes (stream_identifier c) n released else released,
                   changed || negb (abandoned c))
         | None => mret (released, changed)
         end : AM (gmap Z Z * bool));
      if t =? last then mret (released, changed)
      else abandon_inflight fuel oc (as_u32 (t + 1)) last released changed
  end.

Definition abandon_message (oc : bool) (m : MessageToAbandon) : AM bool :=
  '(inflight, released, changed) ←
    (match ma_pending m with
     | Some pos =>
         a ← gets id;
         '(tail, q) ← lift (drain_message (pending_queue a) pos);
         let assign_tsns := bool_decide (is_Some (ma_inflight m))
                            || match tail with c :: _ => negb (beginning_fragment c) || negb (unordered c) | [] => false end in
         let '(inflight, released, changed, a) :=
           abandon_tail assign_tsns tail (ma_inflight m) ∅ false (a <| pending_queue := q |>) in
         modify (fun _ => a) ;; mret (inflight, released, changed)
     | None => mret (ma_inflight m, ∅, false)
     end : AM (option (Z * Z) * gmap Z Z * bool));
  '(released, changed) ←
    (match inflight with
     | Some (t, last) => abandon_inflight (S (Z.to_nat (off32 t last))) oc t last released changed
     | None => mret (released, changed)
     end : AM (gmap Z Z * bool));
  modify (release_stream_buffers released) ;;
  mret changed.

Definition on_messages_abandoned (now : Z) : AM unit :=
  modify_result advance_peer_ack_point ;;
  modify (fun a => if sna32gt (advanced_peer_tsn_ack_point a) (cumulative_tsn_ack_point a) then start_t3 now a else a).

Definition abandon_retransmit_candidate (oc : bool) (t now : Z) : AM bool :=
  a ← gets id;
  match PayloadQueue_get (inflight_queue a) t with
  | None => throw (OtherSctpErr "missing retransmission candidate")
  | Some c =>
      if negb (retransmission_policy_exhausted a c now true) then mret false
      else
        m ← lift (retransmit_message_to_abandon a t);
        changed ← abandon_message oc m;
        (if changed : bool then on_messages_abandoned now else mret tt : AM unit) ;;
        mret true
  end.

Definition missing_fragment : Error := OtherSctpErr "missing inflight message fragment".

(** The loop of [unretransmittable_messages], with the message being scanned. *)
Fixpoint unretransmittable_loop (a : Association) (now : Z) (is_candidate : ChunkPayloadData -> bool) (ts : list Z)
  (cur : option (Z * Z)) (exhausted : bool) (acc : list MessageToAbandon) : result (list MessageToAbandon) :=
  match ts with
  | [] =>
      Ok (match cur with
          | Some (first, last) =>
              if exhausted then acc ++ [mkToAbandon (Some (first, last)) (front_position (pending_queue a))] else acc
          | None => acc
          end)
  | t :: ts =>
      match PayloadQueue_get (inflight_queue a) t with
      | None => Err missing_fragment
      | Some c =>
          let first := match cur with Some (first, _) => first | None => t end in
          let exhausted := exhausted || (is_outstanding c && retransmission_policy_exhausted a c now (is_candidate c)) in
          if ending_fragment c then
            unretransmittable_loop a now is_candidate ts None false
              (if exhausted then acc ++ [mkToAbandon (Some (first, t)) None] else acc)
          else unretransmittable_loop a now is_candidate ts (Some (first, t)) exhausted acc
      end
  end.
Definition unretransmittable_messages (a : Association) (now : Z) (is_candidate : ChunkPayloadData -> bool)
  : result (list MessageToAbandon) :=
  unretransmittable_loop a now is_candidate (sorted (inflight_queue a)) None false [].

Fixpoint abandon_all (oc : bool) (ms : list MessageToAbandon) (changed : bool) : AM bool :=
  match ms with
  | [] => mret changed
  | m :: ms => c ← abandon_message oc m; abandon_all oc ms (changed || c)
  end.

Definition abandon_unretransmittable_messages (oc : bool) (now : Z) (is_candidate : ChunkPayloadData -> bool) : AM unit :=
  a ← gets id;
  ms ← lift (unretransmittable_messages a now is_candidate);
  changed ← abandon_all oc ms false;
  if changed : bool then on_messages_abandoned now else mret tt.

Definition pending_message_expired (a : Association) (c : ChunkPayloadData) (now : Z) : bool :=
  (negb (beginning_fragment c) || unordered c)
  && negb (bool_decide (deadline (reliability c) = created_at c))
  && timed_data_expired a c now.

(** The sent fragments of the message at the front of the pending queue, last first. *)
Fixpoint pending_prefix (q : PayloadQueue) (ts : list Z) (inflight : option (Z * Z)) : result (option (Z * Z)) :=
  match ts with
  | [] => Ok inflight
  | t :: ts =>
      match PayloadQueue_get q t with
      | None => Err missing_fragment
      | Some c =>
          if ending_fragment c then Ok inflight
          else
            let inflight := Some (t, match inflight with Some (_, last) => last | None => t end) in
            if beginning_fragment c then Ok inflight else pending_prefix q ts inflight
      end
  end.
Definition pending_message_to_abandon (a : Association) : result MessageToAbandon :=
  inflight ← (match peek (pending_queue a) with
              | Some c => if negb (beginning_fragment c)
                          then pending_prefix (inflight_queue a) (rev (sorted (inflight_queue a))) None else Ok None
              | None => Ok None
              end);
  Ok (mkToAbandon inflight (front_position (pending_queue a))).

Definition fail_message_queue (a : Association) : Association :=
  close TransportError a <| control_queue := [] |> <| endpoint_events ::= fun q => q ++ [Drained] |>.

(** * Sending DATA *)

Definition move_pending_data_chunk_to_inflight_queue (oc : bool) (beginning unord : bool) (now : Z)
  : AM (option ChunkPayloadData) :=
  a ← gets id;
  '(c, q) ← lift (PendingQueue_pop oc (pending_queue a) beginning unord);
  modify (fun a => a <| pending_queue := q |>) ;;
  match c with
  | Some c =>
      a ← gets id;
      let '(t, a) := generate_next_tsn a in
      let c := c <| tsn := t |> <| since := Some now |> <| nsent := 1 |> in
      modify (fun _ => a <| inflight_queue ::= fun q => push_no_check q c |>) ;;
      mret (Some c)
  | None => mret None
  end.

Definition option_list {A} (o : option A) : list A := match o with Some x => [x] | None => [] end.

(** [while let Some(c) = self.pending_queue.peek()]; [None] when the queues are
    inconsistent and the association was closed. *)
Fixpoint pop_pending_loop (fuel : nat) (oc : bool) (now : Z) (chunks : list ChunkPayloadData) (sis : list Z)
  : AM (option (list ChunkPayloadData * list Z)) :=
  a ← gets id;
  match peek (pending_queue a) with
  | None => mret (Some (chunks, sis))
  | Some c =>
      match fuel with
      | O => lift Diverge
      | S fuel =>
          let data_len := zlen (user_data c) in
          if data_len =? 0 then
            '(_, q) ← lift (PendingQueue_pop oc (pending_queue a) (beginning_fragment c) (unordered c));
            modify (fun a => a <| pending_queue := q |>) ;;
            pop_pending_loop fuel oc now chunks (sis ++ [stream_identifier c])
          else if pending_message_expired a c now then
            fun a =>
              match (m ← lift (pending_message_to_abandon a); abandon_message oc m : AM bool) a with
              | (Ok true, a) => (on_messages_abandoned now ;; pop_pending_loop fuel oc now chunks sis) a
              | (Ok false, a) => pop_pending_loop fuel oc now chunks sis a
              | (Err _, a) => (Ok None, fail_message_queue a)
              | (Panic, a) => (Panic, a)
              | (Diverge, a) => (Diverge, a)
              end
          else if cwnd a <? pq_n_bytes (inflight_queue a) + data_len then mret (Some (chunks, sis))
          else if rwnd a <? data_len then mret (Some (chunks, sis))
          else
            modify (fun a => a <| rwnd := rwnd a - as_u32 data_len |>) ;;
            c ← move_pending_data_chunk_to_inflight_queue oc (beginning_fragment c) (unordered c) now;
            pop_pending_loop fuel oc now (chunks ++ option_list c) sis
      end
  end.

(** The data sender can always have one DATA chunk in flight: the zero window probe. *)
Definition send_probe (oc : bool) (now : Z) (chunks : list ChunkPayloadData) : AM (list ChunkPayloadData) :=
  a ← gets id;
  if bool_decide (chunks = []) && PayloadQueue_is_empty (inflight_queue a) then
    match peek (pending_queue a) with
    | Some c =>
        c ← move_pending_data_chunk_to_inflight_queue oc (beginning_fragment c) (unordered c) now;
        mret (chunks ++ option_list c)
    | None => mret chunks
    end
  else mret chunks.

Definition pop_pending_data_chunks_to_send (oc : bool) (now : Z) : AM (list ChunkPayloadData * list Z) :=
  a ← gets id;
  if PendingQueue_is_empty (pending_queue a) then mret ([], [])
  else
    r ← pop_pending_loop (S (Z.to_nat (queue_len (pending_queue a)))) oc now [] [];
    match r with
    | None => mret ([], [])
    | Some (chunks, sis) => chunks ← send_probe oc now chunks; mret (chunks, sis)
    end.

Definition next_multiple_of_4 (n : Z) : Z := (n + 3) / 4 * 4.
(** The marshalled size of a DATA chunk. *)
Definition wire_size (c : ChunkPayloadData) : Z := next_multiple_of_4 (DATA_CHUNK_HEADER_SIZE + zlen (user_data c)).

(** The first pass of [bundle_data_chunks_into_packets]: the chunks are split into
    datagrams.  [cur] is the current bundle and [len] its size with the header. *)
Fixpoint split_bundles (mtu : Z) (cur : list ChunkPayloadData) (len : Z) (cs : list ChunkPayloadData)
  : list (list ChunkPayloadData) :=
  match cs with
  | [] => [cur]
  | c :: cs =>
      let wire := wire_size c in
      if (mtu <? len + wire) && negb (bool_decide (cur = []))
      then cur :: split_bundles mtu [c] (COMMON_HEADER_SIZE + wire) cs
      else split_bundles mtu (cur ++ [c]) (len + wire) cs
  end.

Section gather.
Context (crc32c : bytes -> Z).

(** [if let Ok(raw) = ...]: an error is logged and the packet left out. *)
Definition ok_packet (m : result bytes) : result (list bytes) :=
  match m with
  | Ok raw => Ok [raw]
  | Err _ => Ok []
  | Panic => Panic
  | Diverge => Diverge
  end.

Fixpoint marshal_each (oc : bool) (ps : list Packet) : result (list bytes) :=
  match ps with
  | [] => Ok []
  | p :: ps => r ← ok_packet (Packet_marshal crc32c oc p); rs ← marshal_each oc ps; Ok (r ++ rs)
  end.

Definition bundle_data_chunks_into_packets (oc : bool) (a : Association) (cs : list ChunkPayloadData) : result (list bytes) :=
  match cs with
  | [] => Ok []
  | _ => marshal_each oc (map (fun b => create_packet a (map CPayloadData b))
                            (split_bundles (mtu a) [] COMMON_HEADER_SIZE cs))
  end.

Definition still_wanted (q : PayloadQueue) (c : ChunkPayloadData) : bool :=
  get_is (fun c => negb (abandoned c)) q (tsn c).

Definition sum_user_data (cs : list ChunkPayloadData) : Z := zsum (fun c => zlen (user_data c)) cs.

(** The scan of [get_data_packets_to_retransmit] at offset [i]: the chunks to send
    again, their bytes, and whether marked chunks remain. *)
Fixpoint retransmit_loop (fuel : nat) (oc : bool) (now awnd i : Z) (chunks : list ChunkPayloadData) (bytes_to_send : Z)
  : AM (list ChunkPayloadData * bool) :=
  match fuel with
  | O => lift Diverge
  | S fuel =>
      a ← gets id;
      let t := as_u32 (cumulative_tsn_ack_point a + (i + 1)) in
      match PayloadQueue_get (inflight_queue a) t with
      | None => mret (chunks, false)
      | Some c =>
          if negb (retransmit c) then retransmit_loop fuel oc now awnd (i + 1) chunks bytes_to_send
          else
            abandoned ← abandon_retransmit_candidate oc t now;
            a ← gets id;
            if abandoned : bool then
              let chunks := List.filter (still_wanted (inflight_queue a)) chunks in
              retransmit_loop fuel oc now awnd (i + 1) chunks (sum_user_data chunks)
            else
              match PayloadQueue_get (inflight_queue a) t with
              | None => mret (chunks, false)
              | Some c =>
                  if (i =? 0) && (rwnd a <? as_u32 (zlen (user_data c))) then mret (chunks ++ [c], true)
                  else if awnd <? bytes_to_send + zlen (user_data c) then mret (chunks, true)
                  else retransmit_loop fuel oc now awnd (i + 1) (chunks ++ [c]) (bytes_to_send + zlen (user_data c))
              end
      end
  end.

(** One more attempt is counted for each chunk sent again. *)
Definition count_attempt (clear_retransmit : bool) (c : ChunkPayloadData) (a : Association) : ChunkPayloadData * Association :=
  match PayloadQueue_get (inflight_queue a) (tsn c) with
  | Some d =>
      let d := d <| nsent ::= Z.add 1 |> in
      let d := if clear_retransmit then d <| retransmit := false |> else d in
      (c <| nsent := nsent d |>, update_inflight (tsn c) d a)
  | None => (c, a)
  end.
Fixpoint count_attempts (clear_retransmit : bool) (cs : list ChunkPayloadData) (a : Association)
  : list ChunkPayloadData * Association :=
  match cs with
  | [] => ([], a)
  | c :: cs =>
      let '(c, a) := count_attempt clear_retransmit c a in
      let '(cs, a) := count_attempts clear_retransmit cs a in
      (c :: cs, a)
  end.

Definition get_data_packets_to_retransmit (oc : bool) (now : Z) : AM (list bytes) :=
  a ← gets id;
  '(chunks, remaining) ← retransmit_loop (S (size (chunk_map (inflight_queue a)))) oc now (Z.min (cwnd a) (rwnd a)) 0 [] 0;
  modify (fun a => a <| t3_retransmit_pending := remaining |>) ;;
  chunks ← (fun a => let '(cs, a) := count_attempts true chunks a in (Ok cs, a));
  a ← gets id;
  lift (bundle_data_chunks_into_packets oc a chunks).

(** Packets gathered so far are dropped when the queues turn out inconsistent. *)
Definition gather_data_packets_to_retransmit (oc : bool) (raw : list bytes) (now : Z) : AM (list bytes) := fun a =>
  if t3_retransmit_pending a then
    match get_data_packets_to_retransmit oc now a with
    | (Ok more, a) => (Ok (raw ++ more), a)
    | (Err _, a) => (Ok [], fail_message_queue a)
    | (Panic, a) => (Panic, a)
    | (Diverge, a) => (Diverge, a)
    end
  else (Ok raw, a).

Definition marshal_one (oc : bool) (a : Association) (c : Chunk) : result (list bytes) :=
  ok_packet (Packet_marshal crc32c oc (create_packet a [c])).

(** The first half of the RECONFIG part: every stored request again. *)
Definition retransmit_reconfigs (oc : bool) : AM (list bytes) :=
  a ← gets id;
  if will_retransmit_reconfig a then
    modify (fun a => a <| will_retransmit_reconfig := false |>) ;;
    lift (marshal_each oc (map (fun kc => create_packet a [CReconfig (snd kc)]) (map_to_list (reconfigs a))))
  else mret [].

Definition send_reconfig (oc : bool) (sis : list Z) : AM (list bytes) :=
  match sis with
  | [] => mret []
  | _ =>
      rsn ← generate_next_rsn oc;
      a ← gets id;
      t ← lift (sub_ovf oc U32 (my_next_tsn a) 1);
      let c := mkReconfig (Some (ParamOutgoingResetRequest (mkOutgoingResetRequest rsn 0 t sis))) None in
      modify (fun a => a <| reconfigs ::= <[rsn := c]> |>) ;;
      lift (marshal_one oc a (CReconfig c))
  end.

Definition gather_outbound_data_and_reconfig_packets (oc : bool) (raw : list bytes) (now : Z) : AM (list bytes) :=
  '(chunks, sis) ← pop_pending_data_chunks_to_send oc now;
  a ← gets id;
  if bool_decide (as_state a = Closed) then mret []
  else
    data ← (match chunks with
            | [] => mret []
            | _ => modify (start_t3 now) ;; lift (bundle_data_chunks_into_packets oc a chunks)
            end : AM (list bytes));
    if negb (bool_decide (sis = [])) || will_retransmit_reconfig a then
      again ← retransmit_reconfigs oc;
      new ← send_reconfig oc sis;
      modify (fun a => if bool_decide (reconfigs a = ∅) then a
                       else a <| timers ::= timer_start Reconfig now (get_rto (rto_mgr a)) |>) ;;
      mret (raw ++ data ++ again ++ new)
    else mret (raw ++ data).

Definition sum_wire (cs : list ChunkPayloadData) : Z := COMMON_HEADER_SIZE + zsum wire_size cs.

(** The scan of [gather_outbound_fast_retransmission_packets]: the chunks that fit one
    packet of [mtu]; [None] when the queues are inconsistent. *)
Fixpoint fast_loop (fuel : nat) (oc : bool) (now i : Z) (cs : list ChunkPayloadData) (len : Z)
  : AM (option (list ChunkPayloadData)) :=
  match fuel with
  | O => lift Diverge
  | S fuel => fun a =>
      let t := as_u32 (cumulative_tsn_ack_point a + (i + 1)) in
      match PayloadQueue_get (inflight_queue a) t with
      | None => (Ok (Some cs), a)
      | Some c =>
          if negb (is_fast_retransmit_candidate c) then fast_loop fuel oc now (i + 1) cs len a
          else
            match abandon_retransmit_candidate oc t now a with
            | (Ok true, a) =>
                let cs := List.filter (still_wanted (inflight_queue a)) cs in
                fast_loop fuel oc now (i + 1) cs (sum_wire cs) a
            | (Ok false, a) =>
                match PayloadQueue_get (inflight_queue a) t with
                | None => (Ok (Some cs), a)
                | Some c =>
                    if mtu a <? len + wire_size c then (Ok (Some cs), a)
                    else fast_loop fuel oc now (i + 1) (cs ++ [c]) (len + wire_size c) a
                end
            | (Err _, a) => (Ok None, fail_message_queue a)
            | (Panic, a) => (Panic, a)
            | (Diverge, a) => (Diverge, a)
            end
      end
  end.

(** How many of the chunks are still in flight: each counts as a fast retransmission. *)
Definition count_fast (cs : list ChunkPayloadData) (a : Association) : Z :=
  zlen (List.filter (fun c => bool_decide (is_Some (PayloadQueue_get (inflight_queue a) (tsn c)))) cs).

Definition gather_outbound_fast_retransmission_packets (oc : bool) (raw : list bytes) (now : Z) : AM (list bytes) :=
  a ← gets id;
  if will_retransmit_fast a then
    modify (fun a => a <| will_retransmit_fast := false |>) ;;
    r ← fast_loop (S (size (chunk_map (inflight_queue a)))) oc now 0 [] COMMON_HEADER_SIZE;
    match r with
    | None => mret []
    | Some cs =>
        modify (fun a => a <| stats ::= fun s => s <| n_fast_retrans ::= Z.add (count_fast cs a) |> |>) ;;
        cs ← (fun a => let '(cs, a) := count_attempts false cs a in (Ok cs, a));
        a ← gets id;
        data ← lift (bundle_data_chunks_into_packets oc a cs);
        mret (raw ++ data)
    end
  else mret raw.

Definition create_selective_ack_chunk (oc : bool) : AM ChunkSelectiveAck :=
  a ← gets id;
  credit ← lift (get_my_receiver_window_credit oc a);
  blocks ← lift (get_gap_ack_blocks oc (Association.payload_queue a) (Association.peer_last_tsn a));
  let '(dups, q) := pop_duplicates (Association.payload_queue a) in
  modify (fun a => a <| Association.payload_queue := q |>) ;;
  mret (mkSack (Association.peer_last_tsn a) credit blocks dups).

Definition gather_outbound_sack_packets (oc : bool) (raw : list bytes) : AM (list bytes) :=
  a ← gets id;
  match ack_state a with
  | Immediate =>
      modify (fun a => a <| ack_state := Idle |>) ;;
      sack ← create_selective_ack_chunk oc;
      p ← lift (marshal_one oc a (CSack sack));
      mret (raw ++ p)
  | _ => mret raw
  end.

Definition create_forward_tsn (a : Association) : ChunkForwardTsn :=
  mkFwd (advanced_peer_tsn_ack_point a)
    (map (fun kv => mkFwdStream (fst kv) (snd kv)) (map_to_list (fwd_tsn_stream_map a))).

Definition gather_outbound_forward_tsn_packets (oc : bool) (raw : list bytes) : AM (list bytes) :=
  a ← gets id;
  if will_send_forward_tsn a then
    modify (fun a => a <| will_send_forward_tsn := false |>) ;;
    if sna32gt (advanced_peer_tsn_ack_point a) (cumulative_tsn_ack_point a) then
      p ← lift (marshal_one oc a (CForwardTsn (create_forward_tsn a)));
      mret (raw ++ p)
    else mret raw
  else mret raw.

Definition start_t2 (now : Z) (p : list bytes) (a : Association) : Association :=
  match p with
  | [] => a
  | _ => a <| timers ::= timer_start T2Shutdown now (get_rto (rto_mgr a)) |>
  end.

(** [false] once SHUTDOWN COMPLETE went out: the association closes after the send. *)
Definition gather_outbound_shutdown_packets (oc : bool) (raw : list bytes) (now : Z) : AM (list bytes * bool) :=
  a ← gets id;
  if will_send_shutdown a then
    modify (fun a => a <| will_send_shutdown := false |>) ;;
    p ← lift (marshal_one oc a (CShutdown (mkShutdown (cumulative_tsn_ack_point a))));
    modify (start_t2 now p) ;; mret (raw ++ p, true)
  else if will_send_shutdown_ack a then
    modify (fun a => a <| will_send_shutdown_ack := false |>) ;;
    p ← lift (marshal_one oc a CShutdownAck);
    modify (start_t2 now p) ;; mret (raw ++ p, true)
  else if will_send_shutdown_complete a then
    modify (fun a => a <| will_send_shutdown_complete := false |>) ;;
    p ← lift (marshal_one oc a CShutdownComplete);
    mret (raw ++ p, bool_decide (p = []))
  else mret (raw, true).

(** [f] unless the association was closed meanwhile: [return (vec![], false)]. *)
Definition unless_closed (f : AM (list bytes * bool)) : AM (list bytes * bool) :=
  a ← gets id;
  if bool_decide (as_state a = Closed) then mret ([], false) else f.

Definition gather_outbound (oc : bool) (now : Z) : AM (list bytes * bool) :=
  a ← gets id;
  raw ← lift (marshal_each oc (control_queue a));
  modify (fun a => a <| control_queue := [] |>) ;;
  match as_state a with
  | Established =>
      raw ← gather_data_packets_to_retransmit oc raw now;
      unless_closed (
      raw ← gather_outbound_data_and_reconfig_packets oc raw now;
      unless_closed (
      raw ← gather_outbound_fast_retransmission_packets oc raw now;
      unless_closed (
      raw ← gather_outbound_sack_packets oc raw;
      raw ← gather_outbound_forward_tsn_packets oc raw;
      mret (raw, true))))
  | ShutdownPending | ShutdownSent | ShutdownReceived =>
      raw ← gather_data_packets_to_retransmit oc raw now;
      unless_closed (
      raw ← gather_outbound_fast_retransmission_packets oc raw now;
      unless_closed (
      raw ← gather_outbound_sack_packets oc raw;
      raw ← gather_outbound_forward_tsn_packets oc raw;
      gather_outbound_shutdown_packets oc raw now))
  | ShutdownAckSent => gather_outbound_shutdown_packets oc raw now
  | _ => mret (raw, true)
  end.
End gather.

Definition send_reset_request (now sid : Z) : AM unit :=
  a ← gets id;
  if negb (bool_decide (as_state a = Established)) then throw ErrResetPacketInStateNotExist
  else
    let c := received_payload false true true false 0 sid 0 PPI_Unknown [] <| created_at := Some now |> in
    modify (fun a => a <| pending_queue ::= fun q => PendingQueue_push q c |>).

Definition send_payload_data (cs : list ChunkPayloadData) : AM unit :=
  a ← gets id;
  if negb (bool_decide (as_state a = Established)) then throw ErrPayloadDataStateNotExist
  else modify (fun a => a <| pending_queue ::= fun q => foldl PendingQueue_push q cs |>).
