(* ===== verification/AssociationEvents.v ===== *)
(** The association's dispatch ([rtc-sctp/src/association/mod.rs], [stream.rs]): an
    incoming packet is handed chunk by chunk to the handlers, timers expire, and the
    application reads, writes and closes streams. *)
From stdpp Require Import pretty.
From S2P Require Import Prelude Serial SctpError SctpParam SctpChunk SctpPacket PayloadQueue PendingQueue ReassemblyQueue SctpTimer SctpStream Association AssociationSend.

(** * Incoming chunks *)

Definition USER_INITIATED_ABORT : Z := 12.

Definition ErrorCauseCode_display (code : Z) : string :=
  match code with
  | 1 => "Invalid Stream Identifier"
  | 2 => "Missing Mandatory Parameter"
  | 3 => "Stale Cookie Error"
  | 4 => "Out Of Resource"
  | 5 => "Unresolvable IP"
  | 6 => "Unrecognized Chunk Type"
  | 7 => "Invalid Mandatory Parameter"
  | 8 => "Unrecognized Parameters"
  | 9 => "No User Data"
  | 10 => "Cookie Received While Shutting Down"
  | 11 => "Restart Of An Association With New Addresses"
  | 12 => "User Initiated Abort"
  | 13 => "Protocol Violation"
  | _ => "Unknown CauseCode: " +:+ pretty code
  end%string.

Definition causes_display (es : list ErrorCause) : string :=
  foldl (fun s e => s +:+ "(" +:+ ErrorCauseCode_display (cause_code e) +:+ ")") "" es.

Definition handle_chunk_start (a : Association) : Association :=
  a <| delayed_ack_triggered := false |> <| immediate_ack_triggered := false |>.

Definition handle_chunk_end (now : Z) (a : Association) : Association :=
  if immediate_ack_triggered a then a <| ack_state := Immediate |> <| timers ::= timer_stop Ack |>
  else if delayed_ack_triggered a then a <| ack_state := Delay |> <| timers ::= timer_start Ack now ACK_INTERVAL |>
  else a.

(** A handler that cannot fail, and one that answers nothing. *)
Definition total {A} (f : Association -> A * Association) : AM A := fun a => let '(x, a) := f a in (Ok x, a).
Definition silent (f : Association -> Association) : AM (list Packet) := modify f ;; mret [].

(** The packets a chunk is answered with.  [new_cookie] is the cookie
    [ParamStateCookie::new] draws at random for a first INIT. *)
Definition chunk_reply (oc : bool) (new_cookie : bytes) (p : Packet) (c : Chunk) (now : Z) : AM (list Packet) :=
  match c with
  | CInit i => if is_ack i then handle_init_ack p i now else handle_init new_cookie p i
  | CAbort causes =>
      if existsb (fun e => cause_code e =? USER_INITIATED_ABORT) causes then silent (close ResetByPeer)
      else throw (ErrAbortChunk (causes_display causes))
  | CError causes => throw (ErrAbortChunk (causes_display causes))
  | CHeartbeat params => gets (handle_heartbeat params)
  | CCookieEcho c => total (handle_cookie_echo c)
  | CCookieAck => total handle_cookie_ack
  | CPayloadData d => handle_data oc d
  | CSack d => handle_sack oc d now
  | CReconfig c => handle_reconfig oc c
  | CForwardTsn c => handle_forward_tsn oc c
  | CShutdown _ => silent handle_shutdown
  | CShutdownAck => silent handle_shutdown_ack
  | CShutdownComplete => silent handle_shutdown_complete
  | CHeartbeatAck _ => throw ErrChunkTypeUnhandled
  end.

Definition handle_chunk (oc : bool) (new_cookie : bytes) (p : Packet) (now : Z) (c : Chunk) : AM unit :=
  lift (chunk_check c) ;;
  packets ← chunk_reply oc new_cookie p c now;
  modify (fun a => a <| control_queue ::= fun q => q ++ packets |>).

Definition handle_inbound (oc : bool) (new_cookie : bytes) (p : Packet) (now : Z) : AM unit :=
  match check_packet p with
  | Err _ => mret tt
  | Panic => lift Panic
  | Diverge => lift Diverge
  | Ok _ =>
      modify handle_chunk_start ;;
      for_each (handle_chunk oc new_cookie p now) (SctpPacket.chunks p) ;;
      modify (handle_chunk_end now)
  end.

(** [handle_event] on a datagram the endpoint routed here; [new_cookie] as above. *)
Definition handle_event (oc : bool) (new_cookie : bytes) (pd : PartialDecode) (now : Z) : AM unit := fun a =>
  match finish pd with
  | Err _ => (Ok tt, a)
  | Panic => (Panic, a)
  | Diverge => (Diverge, a)
  | Ok p =>
      match handle_inbound oc new_cookie p now a with
      | (Err _, a) => (Ok tt, close TransportError a)
      | r => r
      end
  end.

(** * Timers *)

Definition on_ack_timeout (a : Association) : Association :=
  a <| stats ::= fun s => s <| n_ack_timeouts ::= Z.add 1 |> |> <| ack_state := Immediate |>.

(** [if let Err(err) = f() { debug!(..) }]. *)
Definition log_error (f : AM unit) : AM unit := fun a =>
  match f a with (Err _, a) => (Ok tt, a) | r => r end.

Definition on_t3_timeout (oc : bool) (now : Z) : AM unit := fun a =>
  let a := a <| stats ::= fun s => s <| n_t3timeouts ::= Z.add 1 |> |> <| rto_mgr ::= backoff |> in
  match abandon_unretransmittable_messages oc now is_outstanding a with
  | (Err _, a) => (Ok tt, fail_message_queue a)
  | (Ok _, a) =>
      (a ← gets id;
       s ← lift (reduced_ssthresh oc a);
       modify (fun a => a <| ssthresh := s |> <| cwnd := mtu a |>) ;;
       (if use_forward_tsn a then modify_result advance_peer_ack_point else mret tt : AM unit) ;;
       modify (fun a => a <| inflight_queue ::= mark_all_to_retrasmit |> <| t3_retransmit_pending := true |>) : AM unit) a
  | (Panic, a) => (Panic, a)
  | (Diverge, a) => (Diverge, a)
  end.

Definition on_retransmission_timeout (oc : bool) (t : Timer) (now : Z) : AM unit :=
  match t with
  | T1Init => log_error send_init
  | T1Cookie => log_error send_cookie_echo
  | T2Shutdown =>
      modify (fun a => match as_state a with
                       | ShutdownSent => a <| will_send_shutdown := true |>
                       | ShutdownAckSent => a <| will_send_shutdown_ack := true |>
                       | _ => a
                       end)
  | T3RTX => on_t3_timeout oc now
  | Reconfig => modify (fun a => a <| will_retransmit_reconfig := true |>)
  | Ack => mret tt
  end.

Definition on_retransmission_failure (t : Timer) (a : Association) : Association :=
  match t with
  | T1Init => a <| as_error := Some (HandshakeFailed "handshake failed (INIT ACK)") |>
  | T1Cookie => a <| as_error := Some (HandshakeFailed "handshake failed (COOKIE ECHO)") |>
  | _ => a
  end.

(** One timer of [handle_timeout]; [false] stops the scan ([break]). *)
Definition timeout_one (oc : bool) (now : Z) (t : Timer) : AM bool :=
  a ← gets id;
  let '(expired, failure, _, tb) := is_expired t now (timers a) in
  modify (fun a => a <| timers := tb |>) ;;
  if negb expired then mret true
  else
    modify (fun a => a <| timers ::= timer_set t None |>) ;;
    if bool_decide (t = Ack) then modify on_ack_timeout ;; mret true
    else if failure then modify (on_retransmission_failure t) ;; mret true
    else
      on_retransmission_timeout oc t now ;;
      a ← gets id;
      if bool_decide (as_state a = Closed) then mret false
      else modify (fun a => a <| timers ::= timer_start t now (get_rto (rto_mgr a)) |>) ;; mret true.

Fixpoint timeout_all (oc : bool) (now : Z) (ts : list Timer) : AM unit :=
  match ts with
  | [] => mret tt
  | t :: ts => go ← timeout_one oc now t; if go : bool then timeout_all oc now ts else mret tt
  end.

Definition handle_timeout (oc : bool) (now : Z) : AM unit := timeout_all oc now Timer_VALUES.

(** * The application's side *)

Definition poll (a : Association) : option Event * Association :=
  match events a with
  | e :: q => (Some e, a <| events := q |>)
  | [] =>
      match as_error a with
      | Some err => (Some (EvHandshakeFailed err), a <| as_error := None |>)
      | None => (None, a)
      end
  end.

Definition poll_endpoint_event (a : Association) : option EndpointEvent * Association :=
  match endpoint_events a with
  | e :: q => (Some e, a <| endpoint_events := q |>)
  | [] => (None, a)
  end.

(** The datagrams to send, [None] when there are none. *)
Definition poll_transmit (crc32c : bytes -> Z) (oc : bool) (now : Z) : AM (option (list bytes)) :=
  '(contents, _) ← gather_outbound crc32c oc now;
  mret (match contents with [] => None | _ => Some contents end).

Definition has_read_side (s : StreamState) : bool :=
  bool_decide (ss_state s = RS_ReadWritable) || bool_decide (ss_state s = RS_Readable).
Definition has_write_side (s : StreamState) : bool :=
  bool_decide (ss_state s = RS_Writable) || bool_decide (ss_state s = RS_ReadWritable).

Definition read_sctp (oc : bool) (sid : Z) : AM (option Chunks) :=
  a ← gets id;
  match as_streams a !! sid with
  | Some s =>
      if has_read_side s then
        '(m, q) ← lift (ReassemblyQueue_read oc (reassembly_queue s));
        modify (update_stream sid (s <| reassembly_queue := q |>)) ;;
        readable ← lift (is_readable oc q);
        (if readable : bool then mret tt else retry_deferred_resets oc sid : AM unit) ;;
        mret m
      else throw ErrStreamClosed
  | None => throw ErrStreamClosed
  end.

(** [BytesSource::pop_chunk] of the two sources that hold one buffer. *)
Definition pop_chunk (source : bytes) (limit : Z) : bytes := take (Z.to_nat (Z.min limit (zlen source))) source.

Definition is_writable (a : Association) (sid : Z) : bool :=
  match as_streams a !! sid with Some s => has_write_side s | None => false end.

Definition write_source (now sid : Z) (source : bytes) (ppi : PayloadProtocolIdentifier) : AM Z :=
  a ← gets id;
  if negb (is_writable a sid) then throw ErrStreamClosed
  else if max_message_size a <? zlen source then throw ErrOutboundPacketTooLarge
  else if is_drained (as_state a) then throw ErrStreamClosed
  else
    let p := pop_chunk source (max_message_size a) in
    match as_streams a !! sid with
    | Some s =>
        '(high, cs, s) ← lift (packetize s now p ppi);
        modify (update_stream sid s) ;;
        (if high : bool then modify (push_event (EvStream (BufferedAmountHigh sid))) else mret tt : AM unit) ;;
        send_payload_data cs ;;
        mret (zlen p)
    | None => throw ErrStreamClosed
    end.

Definition stream_stop (now sid : Z) : AM unit :=
  a ← gets id;
  match as_streams a !! sid with
  | Some s =>
      let '(reset, s) := stream_stop_state s in
      modify (update_stream sid s) ;;
      if reset : bool then send_reset_request now sid else mret tt
  | None => mret tt
  end.
Definition stream_finish (sid : Z) : AM unit :=
  modify (fun a => match as_streams a !! sid with
                   | Some s => update_stream sid (stream_finish_state s) a
                   | None => a
                   end).
Definition stream_close (now sid : Z) : AM unit := stream_finish sid ;; stream_stop now sid.
