(* ===== verification/Transmission.v ===== *)
(** What the association sends ([rtc-sctp/src/association/mod.rs]): the bundles DATA
    chunks are packed into and how they come back from the wire, and the windows that
    bound a burst of new DATA. *)
From S2P Require Import Prelude Serial SctpError SctpParam SctpChunk SctpPacket Crc32c PayloadQueue PendingQueue ReassemblyQueue SctpTimer SctpStream Association AssociationSend.

(** * Bundles *)

(** [b] fits a datagram, or holds a single chunk that does not. *)
Definition bundle_fits (mtu : Z) (b : list ChunkPayloadData) : Prop :=
  b <> [] /\ (sum_wire b <= mtu \/ length b = 1%nat).

(** The first chunk of the next datagram would not have fitted: no split is early. *)
Fixpoint greedy (mtu : Z) (bs : list (list ChunkPayloadData)) : Prop :=
  match bs with
  | [] => True
  | b :: rest =>
      match rest with (c :: _) :: _ => mtu < sum_wire b + wire_size c | _ => True end /\ greedy mtu rest
  end.

Lemma sum_wire_app b c : sum_wire (b ++ [c]) = sum_wire b + wire_size c.
Proof. unfold sum_wire. rewrite zsum_app, zsum_cons. cbn. lia. Qed.

Lemma split_bundles_spec mtu cs : forall cur len,
  len = sum_wire cur -> (cur = [] -> cs <> []) -> (cur <> [] -> bundle_fits mtu cur) ->
  let bs := split_bundles mtu cur len cs in
  concat bs = cur ++ cs /\ Forall (bundle_fits mtu) bs /\ greedy mtu bs /\
  exists h t, bs = (cur ++ h) :: t.
Proof.
  induction cs as [|c cs IH]; intros cur len -> Hne Hfit; cbn [split_bundles].
  { destruct cur as [|d cur]; [by destruct Hne|].
    split_and!; [cbn; by rewrite !app_nil_r|constructor; [by apply Hfit|constructor]|done|].
    exists [], []. by rewrite app_nil_r. }
  destruct ((mtu <? sum_wire cur + wire_size c) && negb (bool_decide (cur = []))) eqn:E.
  - apply andb_true_iff in E as [Hlt Hcur]. rewrite negb_true_iff, bool_decide_eq_false in Hcur.
    destruct (IH [c] (COMMON_HEADER_SIZE + wire_size c)) as (Hc & Hf & Hg & h & t & Hh);
      [unfold sum_wire; rewrite zsum_cons; cbn; lia|done|by split; [|right]|].
    rewrite Hh in *. cbn [concat greedy app] in *. rewrite Hc. split_and!; [done|constructor; auto|lia|apply Hg|apply Hg|].
    exists [], (([c] ++ h) :: t). by rewrite app_nil_r.
  - rewrite <- sum_wire_app. destruct (IH (cur ++ [c]) _ eq_refl) as (Hc & Hf & Hg & h & t & Hh).
    + by destruct cur.
    + intros _. split; [by destruct cur|]. rewrite sum_wire_app.
      apply andb_false_iff in E as [E|E]; [left; lia|]. rewrite negb_false_iff, bool_decide_eq_true in E. subst. by right.
    + rewrite Hc. rewrite <- (assoc_L app). split_and!; [done|done|done|].
      exists (c :: h), t. rewrite Hh. by rewrite <- (assoc_L app).
Qed.

(** * On the wire *)

(** A DATA chunk as the peer decodes it: the sender's bookkeeping stays behind. *)
Definition on_wire (c : ChunkPayloadData) : ChunkPayloadData :=
  received_payload (unordered c) (beginning_fragment c) (ending_fragment c) (immediate_sack c)
    (tsn c) (stream_identifier c) (stream_sequence_number c) (payload_type c) (user_data c).

(** What a chunk must satisfy to be sent: its fields are in range and it fits a chunk. *)
Definition sendable (c : ChunkPayloadData) : Prop := chunk_ok (CPayloadData (on_wire c)).

Lemma write_chunks_on_wire oc start b w :
  write_chunks oc start (map CPayloadData b) w = write_chunks oc start (map (fun c => CPayloadData (on_wire c)) b) w.
Proof.
  revert w. induction b as [|c b IH]; intros w; [done|]. cbn [map write_chunks].
  change (chunk_marshal oc (CPayloadData c)) with (chunk_marshal oc (CPayloadData (on_wire c))).
  destruct (chunk_marshal _ _); cbn; [|done..]. apply IH.
Qed.

Lemma wire_size_marshaled c :
  wire_size c = CHUNK_HEADER_SIZE + chunk_value_length (CPayloadData c) +
                get_padding_size (CHUNK_HEADER_SIZE + chunk_value_length (CPayloadData c)).
Proof.
  unfold wire_size, next_multiple_of_4, DATA_CHUNK_HEADER_SIZE, CHUNK_HEADER_SIZE, get_padding_size, PADDING_MULTIPLE.
  cbn [chunk_value_length]. unfold PAYLOAD_DATA_HEADER_SIZE. pose proof (zlen_nonneg (user_data c)). mlia.
Qed.

Section wire.
Context (crc32c : bytes -> Z) (crc32c_append : Z -> bytes -> Z).
Hypothesis crc32c_u32 : forall l, is_u32 (crc32c l).
Hypothesis crc32c_app : forall a b, crc32c_append (crc32c a) b = crc32c (a ++ b).

Definition data_packet (a : Association) (b : list ChunkPayloadData) : Packet :=
  create_packet a (map (fun c => CPayloadData (on_wire c)) b).

(** [raw] is a datagram of the size the bundle was budgeted with, and the peer
    decodes it to the chunks of [b]. *)
Definition carries (a : Association) (b : list ChunkPayloadData) (raw : bytes) : Prop :=
  zlen raw = sum_wire b /\
  exists pd, PartialDecode_unmarshal crc32c crc32c_append raw = Ok pd /\ finish pd = Ok (data_packet a b).

Lemma bundle_carries oc a b :
  common_header_wf (common_header (create_packet a [])) -> b <> [] -> Forall sendable b ->
  exists raw, Packet_marshal crc32c oc (create_packet a (map CPayloadData b)) = Ok raw /\ carries a b raw.
Proof using crc32c_app crc32c_u32.
  intros Hh Hne Hb. destruct (packet_rt crc32c crc32c_append oc (data_packet a b)) as (raw & Hm & Hl & _ & Hd); [done|done| |].
  { split; [done|]. cbn. rewrite Forall_map. exact Hb. }
  exists raw. split.
  - rewrite <- Hm. unfold Packet_marshal, write_framed. cbn [common_header SctpPacket.chunks data_packet create_packet].
    by rewrite write_chunks_on_wire.
  - split; [|apply Hd; by destruct b].
    rewrite Hl. unfold marshaled_len, sum_wire, PACKET_HEADER_SIZE, COMMON_HEADER_SIZE. f_equal. unfold data_packet, create_packet. cbn [SctpPacket.chunks]. clear.
    induction b as [|c b IH]; [done|]. cbn [map]. rewrite !zsum_cons, IH, wire_size_marshaled. done.
Qed.

Lemma marshal_each_carries oc a bs :
  common_header_wf (common_header (create_packet a [])) -> Forall (fun b => b <> [] /\ Forall sendable b) bs ->
  exists raws, marshal_each crc32c oc (map (fun b => create_packet a (map CPayloadData b)) bs) = Ok raws /\
               Forall2 (carries a) bs raws.
Proof using crc32c_app crc32c_u32.
  intros Hh. induction 1 as [|b bs [Hne Hb] _ (raws & Hm & Hall)]; [by exists []|].
  destruct (bundle_carries oc a b Hh Hne Hb) as (raw & Hraw & Hc).
  exists (raw :: raws). cbn [map marshal_each]. rewrite Hraw. cbn [ok_packet mbind outcome_bind].
  rewrite Hm. cbn [mbind outcome_bind app]. by split; [|constructor].
Qed.

Lemma bundle_data_carries oc a cs :
  common_header_wf (common_header (create_packet a [])) -> Forall sendable cs ->
  exists bs raws, bundle_data_chunks_into_packets crc32c oc a cs = Ok raws /\ concat bs = cs /\
    Forall (bundle_fits (mtu a)) bs /\ greedy (mtu a) bs /\ Forall2 (carries a) bs raws.
Proof using crc32c_app crc32c_u32.
  intros Hh Hs. destruct cs as [|c cs]; [exists [], []; split_and!; done || constructor|].
  unfold bundle_data_chunks_into_packets.
  destruct (split_bundles_spec (mtu a) (c :: cs) [] COMMON_HEADER_SIZE) as (Hc & Hf & Hg & _); [done..|].
  set (bs := split_bundles (mtu a) [] COMMON_HEADER_SIZE (c :: cs)) in *.
  destruct (marshal_each_carries oc a bs Hh) as (raws & Hm & Hall).
  { cbn [app] in Hc. rewrite <- Hc in Hs. apply Forall_concat in Hs. rewrite Forall_forall in Hs, Hf |- *.
    intros b Hb. split; [by apply Hf|by apply Hs]. }
  exists bs, raws. by split_and!.
Qed.
End wire.

(** DATA chunks handed to [bundle_data_chunks_into_packets] all go out, in
    order, in datagrams no longer than the MTU unless a single chunk alone is; no
    datagram is closed while the next chunk would still fit; each datagram has exactly
    the size it was budgeted with, and the peer's decoder gets back exactly the chunks
    put into it. *)
Theorem data_bundles_roundtrip crc32c crc32c_append oc a cs :
  (forall l, is_u32 (crc32c l)) -> (forall x y, crc32c_append (crc32c x) y = crc32c (x ++ y)) ->
  common_header_wf (common_header (create_packet a [])) -> Forall sendable cs ->
  exists bs raws, bundle_data_chunks_into_packets crc32c oc a cs = Ok raws /\ concat bs = cs /\
    Forall (bundle_fits (mtu a)) bs /\ greedy (mtu a) bs /\ Forall2 (carries crc32c crc32c_append a) bs raws.
Proof. intros. by apply bundle_data_carries. Qed.

Definition bundle_example : list ChunkPayloadData :=
  map (fun t => received_payload false true true false t 1 2 PPI_Binary (replicate 500 7)) [10; 11; 12].

Definition bundle_association : Association :=
  Association_new true TransportConfig_default 1200 9 0 10 <| as_source_port := 5000 |> <| as_destination_port := 5000 |>.

Lemma data_bundles_roundtrip_witness :
  exists bs raws, bundle_data_chunks_into_packets ref_crc32c true bundle_association bundle_example = Ok raws /\
    concat bs = bundle_example /\ Forall (bundle_fits (mtu bundle_association)) bs /\
    greedy (mtu bundle_association) bs /\ Forall2 (carries ref_crc32c ref_crc32c_append bundle_association) bs raws.
Proof.
  apply (data_bundles_roundtrip ref_crc32c ref_crc32c_append true bundle_association bundle_example
           ref_crc32c_u32 ref_crc32c_append_app).
  - repeat split; vm_compute; congruence.
  - unfold bundle_example. repeat constructor; try (vm_compute; congruence); apply Forall_replicate; split; vm_compute; congruence.
Defined.

(** * New DATA *)

(** What a burst takes from the messages waiting: the chunks sent, the streams whose
    reset is due (an empty chunk marks it), and what stays queued. *)
Fixpoint burst (cwnd inflight rwnd : Z) (l : list ChunkPayloadData)
  : list ChunkPayloadData * list Z * list ChunkPayloadData :=
  match l with
  | [] => ([], [], [])
  | c :: l' =>
      let n := zlen (user_data c) in
      if n =? 0 then
        let '(sent, sis, rest) := burst cwnd inflight rwnd l' in (sent, stream_identifier c :: sis, rest)
      else if (cwnd <? inflight + n) || (rwnd <? n) then ([], [], l)
      else let '(sent, sis, rest) := burst cwnd (inflight + n) (rwnd - n) l' in (c :: sent, sis, rest)
  end.

(** The first transmission of a chunk. *)
Definition stamp (now t : Z) (c : ChunkPayloadData) : ChunkPayloadData :=
  c <| tsn := t |> <| since := Some now |> <| nsent := 1 |>.
Fixpoint stamp_all (now t : Z) (cs : list ChunkPayloadData) : list ChunkPayloadData :=
  match cs with
  | [] => []
  | c :: cs => stamp now t c :: stamp_all now (as_u32 (t + 1)) cs
  end.

Definition push_inflight (q : PayloadQueue) (cs : list ChunkPayloadData) : PayloadQueue := foldl push_no_check q cs.

(** The association after [cs] were taken from the pending queue, now [q], [spent]
    bytes of the peer's window used. *)
Definition after_sending (now : Z) (cs : list ChunkPayloadData) (spent : Z) (q : PendingQueue) (a : Association) : Association :=
  a <| pending_queue := q |>
    <| inflight_queue ::= fun f => push_inflight f (stamp_all now (my_next_tsn a) cs) |>
    <| my_next_tsn := as_u32 (my_next_tsn a + zlen cs) |>
    <| rwnd := rwnd a - spent |>.

Lemma after_sending_none now a : is_u32 (my_next_tsn a) -> after_sending now [] 0 (pending_queue a) a = a.
Proof.
  intros H. unfold after_sending. cbn [stamp_all push_inflight foldl]. change (zlen (@nil ChunkPayloadData)) with 0.
  rewrite Z.add_0_r, Z.sub_0_r, as_u32_id by done. by destruct a.
Qed.

Lemma after_sending_cons now c cs n spent q q1 a : 
  after_sending now cs spent q (after_sending now [c] n q1 a) = after_sending now (c :: cs) (n + spent) q a.
Proof.
  assert (E : as_u32 (as_u32 (my_next_tsn a + zlen [c]) + zlen cs) = as_u32 (my_next_tsn a + zlen (c :: cs))).
  { rewrite !zlen_cons. change (zlen (@nil ChunkPayloadData)) with 0. unfold as_u32.
    rewrite Zplus_mod_idemp_l. f_equal. lia. }
  assert (E2 : rwnd a - n - spent = rwnd a - (n + spent)) by lia.
  unfold after_sending. destruct a; cbn in E, E2 |- *. rewrite E, E2. reflexivity.
Qed.

Lemma spec_pop_contents q s : refines q s ->
  match spec_pop s with
  | None => spec_contents s = []
  | Some (c, s') => spec_contents s = c :: spec_contents s'
  end.
Proof.
  intros Href. pose proof (ref_U _ _ Href) as HU. pose proof (ref_O _ _ Href) as HO. clear Href.
  rewrite <- (spec_select_contents s). unfold spec_pop.
  destruct s as [[|c r] u [|m Us] [|m' Os]]; unfold spec_select; cbn [cur waiting_unordered waiting_ordered] in *; try done.
  - apply Forall_cons in HO as [Hm _]. by destruct (message_nonempty _ _ Hm) as (? & ? & -> & _).
  - apply Forall_cons in HU as [Hm _]. by destruct (message_nonempty _ _ Hm) as (? & ? & -> & _).
  - apply Forall_cons in HU as [Hm _]. by destruct (message_nonempty _ _ Hm) as (? & ? & -> & _).
Qed.

(** Sending the chunk at the front. *)
Lemma move_pending_spec oc now a s c l :
  refines (pending_queue a) s -> spec_contents s = c :: l ->
  peek (pending_queue a) = Some c /\
  exists q' s', refines q' s' /\ spec_contents s' = l /\
    move_pending_data_chunk_to_inflight_queue oc (beginning_fragment c) (unordered c) now a =
      (Ok (Some (stamp now (my_next_tsn a) c)), after_sending now [c] 0 q' a) /\
    PendingQueue_pop oc (pending_queue a) (beginning_fragment c) (unordered c) = Ok (Some c, q').
Proof.
  intros Href Hl. pose proof (pop_refines oc _ _ Href) as Hp. pose proof (spec_pop_contents _ _ Href) as Hc.
  destruct (spec_pop s) as [[d s']|]; [|congruence]. rewrite Hl in Hc. injection Hc as -> Hc.
  destruct Hp as [Hpeek (q' & Hpop & Href')]. split; [done|]. exists q', s'. split_and!; [done|done| |done].
  unfold move_pending_data_chunk_to_inflight_queue. unfold mbind at 1, stm_bind at 1. cbn [gets].
  unfold id. unfold mbind at 1, stm_bind at 1. unfold lift. rewrite Hpop.
  assert (E : rwnd a - 0 = rwnd a) by lia. unfold after_sending. rewrite E. by destruct a.
Qed.

Lemma zsum_user_data_cons c cs : sum_user_data (c :: cs) = zlen (user_data c) + sum_user_data cs.
Proof. unfold sum_user_data. by rewrite zsum_cons. Qed.

Lemma pop_pending_step fuel oc now a s c l cs sis :
  refines (pending_queue a) s -> spec_contents s = c :: l -> is_u32 (rwnd a) -> pending_message_expired a c now = false ->
  exists q' s', refines q' s' /\ spec_contents s' = l /\
    let n := zlen (user_data c) in
    pop_pending_loop (S fuel) oc now cs sis a =
      if n =? 0 then pop_pending_loop fuel oc now cs (sis ++ [stream_identifier c]) (a <| pending_queue := q' |>)
      else if (cwnd a <? pq_n_bytes (inflight_queue a) + n) || (rwnd a <? n) then (Ok (Some (cs, sis)), a)
      else pop_pending_loop fuel oc now (cs ++ [stamp now (my_next_tsn a) c]) sis (after_sending now [c] n q' a).
Proof.
  intros Href Hl Hr Hexp.
  destruct (move_pending_spec oc now a s c l Href Hl) as (Hpeek & q' & s' & Href' & Hl' & Hmove & Hpop).
  exists q', s'. split_and!; [done|done|]. cbn zeta.
  cbn [pop_pending_loop]. unfold mbind at 1, stm_bind at 1. cbn [gets]. unfold id. rewrite Hpeek, Hexp.
  destruct (zlen (user_data c) =? 0) eqn:Hz.
  { unfold mbind at 1, stm_bind at 1. unfold lift at 1. rewrite Hpop. reflexivity. }
  destruct (cwnd a <? _); cbn [orb]; [done|]. destruct (Z.ltb_spec (rwnd a) (zlen (user_data c))); [done|].
  unfold mbind at 1, stm_bind at 1. cbn [modify]. unfold mbind at 1, stm_bind at 1.
  set (a1 := a <| rwnd := _ |>).
  destruct (move_pending_spec oc now a1 s c l Href Hl) as (_ & q1 & _ & _ & _ & Hmove1 & Hpop1).
  change (pending_queue a1) with (pending_queue a) in Hpop1. rewrite Hpop in Hpop1. injection Hpop1 as <-.
  rewrite Hmove1. cbn [option_list]. f_equal. unfold a1.
  pose proof (zlen_nonneg (user_data c)).
  assert (E : rwnd a - as_u32 (zlen (user_data c)) - 0 = rwnd a - zlen (user_data c))
    by (rewrite as_u32_id by (unfold is_u32 in *; lia); lia).
  unfold after_sending. cbn in E |- *. by rewrite E.
Qed.

Lemma pop_pending_loop_spec oc now l : forall fuel a s cs sis,
  (length l <= fuel)%nat -> refines (pending_queue a) s -> spec_contents s = l -> is_u32 (rwnd a) ->
  is_u32 (my_next_tsn a) -> Forall (fun c => pending_message_expired a c now = false) l ->
  let '(sent, rs, rest) := burst (cwnd a) (pq_n_bytes (inflight_queue a)) (rwnd a) l in
  exists q' s', refines q' s' /\ spec_contents s' = rest /\
    pop_pending_loop fuel oc now cs sis a =
      (Ok (Some (cs ++ stamp_all now (my_next_tsn a) sent, sis ++ rs)), after_sending now sent (sum_user_data sent) q' a).
Proof.
  induction l as [|c l IH]; intros fuel a s cs sis Hfuel Href Hl Hr Ht Hexp; cbn [burst].
  { exists (pending_queue a), s. split_and!; [done|done|]. pose proof (pop_refines oc _ _ Href) as Hp.
    pose proof (spec_pop_contents _ _ Href) as Hc. destruct (spec_pop s) as [[? ?]|]; [congruence|].
    rewrite after_sending_none by done. cbn [stamp_all]. rewrite !app_nil_r.
    destruct fuel; cbn [pop_pending_loop]; unfold mbind, stm_bind; cbn [gets]; unfold id; by rewrite Hp. }
  destruct fuel as [|fuel]; [cbn in Hfuel; lia|]. apply Forall_cons in Hexp as [Hc Hexp].
  destruct (pop_pending_step fuel oc now a s c l cs sis Href Hl Hr Hc) as (q1 & s1 & Href1 & Hl1 & ->).
  cbn [length] in Hfuel. destruct (zlen (user_data c) =? 0).
  - specialize (IH fuel (a <| pending_queue := q1 |>) s1 cs (sis ++ [stream_identifier c]) ltac:(lia) Href1 Hl1 Hr Ht Hexp).
    change (cwnd (a <| pending_queue := q1 |>)) with (cwnd a) in IH.
    change (rwnd (a <| pending_queue := q1 |>)) with (rwnd a) in IH.
    change (inflight_queue (a <| pending_queue := q1 |>)) with (inflight_queue a) in IH.
    destruct (burst _ _ _ l) as [[sent rs] rest]. destruct IH as (q' & s' & Href' & Hl' & ->).
    exists q', s'. split_and!; [done|done|]. by rewrite <- (assoc_L app).
  - destruct ((cwnd a <? _) || (rwnd a <? _)) eqn:Hw.
    { exists (pending_queue a), s. rewrite after_sending_none by done. cbn [stamp_all]. by rewrite !app_nil_r. }
    apply orb_false_iff in Hw as [_ Hw]. pose proof (zlen_nonneg (user_data c)).
    set (a1 := after_sending now [c] (zlen (user_data c)) q1 a).
    specialize (IH fuel a1 s1 (cs ++ [stamp now (my_next_tsn a) c]) sis ltac:(lia) Href1 Hl1).
    assert (is_u32 (rwnd a1)) by (unfold a1, is_u32 in *; cbn; lia).
    specialize (IH ltac:(done) (as_u32_range _) Hexp).
    change (cwnd a1) with (cwnd a) in IH. change (rwnd a1) with (rwnd a - zlen (user_data c)) in IH.
    change (pq_n_bytes (inflight_queue a1)) with (pq_n_bytes (inflight_queue a) + zlen (user_data c)) in IH.
    destruct (burst _ _ _ l) as [[sent rs] rest]. destruct IH as (q' & s' & Href' & Hl' & ->).
    exists q', s'. split_and!; [done|done|]. unfold a1. rewrite after_sending_cons, zsum_user_data_cons.
    cbn [stamp_all]. rewrite <- (assoc_L app). reflexivity.
Qed.

Definition has_data (c : ChunkPayloadData) : bool := negb (zlen (user_data c) =? 0).

(** What a burst sends is a prefix of the waiting data within both windows, and it
    stops only at a chunk that one of them does not admit. *)
Lemma burst_windows cw inf rw l : 0 <= rw ->
  let '(sent, sis, rest) := burst cw inf rw l in
  (exists taken, l = taken ++ rest /\ sent = List.filter has_data taken /\
     sis = map stream_identifier (List.filter (fun c => negb (has_data c)) taken)) /\
  (sent <> [] -> inf + sum_user_data sent <= cw) /\ sum_user_data sent <= rw /\
  (forall c r, rest = c :: r -> 0 < zlen (user_data c) /\
     (cw < inf + sum_user_data sent + zlen (user_data c) \/ rw < sum_user_data sent + zlen (user_data c))).
Proof.
  revert inf rw. induction l as [|c l IH]; intros inf rw Hrw; cbn [burst].
  { split_and!; [by exists []|done|done|done]. }
  pose proof (zlen_nonneg (user_data c)).
  destruct (Z.eqb_spec (zlen (user_data c)) 0) as [Hz|Hz].
  { specialize (IH inf rw Hrw). destruct (burst _ _ _ l) as [[sent sis] rest]. destruct IH as ((taken & -> & -> & ->) & IH). split; [|done].
    exists (c :: taken). cbn [List.filter]. unfold has_data. by rewrite Hz. }
  destruct ((cw <? inf + zlen (user_data c)) || (rw <? zlen (user_data c))) eqn:Hw.
  { change (sum_user_data []) with 0. split_and!; [by exists []|done|done|].
    intros d r [= <- <-]. apply orb_true_iff in Hw. lia. }
  apply orb_false_iff in Hw. specialize (IH (inf + zlen (user_data c)) (rw - zlen (user_data c)) ltac:(lia)).
  destruct (burst _ _ _ l) as [[sent sis] rest]. destruct IH as ((taken & -> & Hf & ->) & Hc & Hr & Hstop).
  rewrite zsum_user_data_cons. split_and!; [| |lia|].
  - exists (c :: taken). assert (Hd : has_data c = true) by (unfold has_data; by rewrite (proj2 (Z.eqb_neq _ _) Hz)).
    cbn [List.filter]. rewrite Hd. cbn [negb]. by rewrite Hf.
  - intros _. destruct sent; [change (sum_user_data []) with 0; lia|]. specialize (Hc ltac:(done)). lia.
  - intros d r Hd. specialize (Hstop d r Hd). lia.
Qed.

(** The chunk sent although a window is closed, when nothing is in flight. *)
Definition zero_window_probe (a : Association) (sent rest : list ChunkPayloadData) : list ChunkPayloadData :=
  match sent, PayloadQueue_is_empty (inflight_queue a) with
  | [], true => take 1 rest
  | _, _ => []
  end.

Lemma after_sending_nil now q a : is_u32 (my_next_tsn a) -> after_sending now [] 0 q a = a <| pending_queue := q |>.
Proof. intros H. by rewrite <- (after_sending_none now (a <| pending_queue := q |>)). Qed.

Lemma send_probe_spec oc now a s sent rest :
  refines (pending_queue a) s -> spec_contents s = rest -> is_u32 (my_next_tsn a) ->
  let probe := zero_window_probe a sent rest in
  exists q' s', refines q' s' /\ spec_contents s' = drop (length probe) rest /\
    send_probe oc now sent a = (Ok (sent ++ stamp_all now (my_next_tsn a) probe), after_sending now probe 0 q' a).
Proof.
  intros Href Hl Ht. unfold send_probe. unfold mbind at 1, stm_bind at 1. cbn [gets]. unfold id at 1 2.
  assert (Hnone : zero_window_probe a sent rest = [] -> (Ok sent : result _, a) =
    (Ok (sent ++ stamp_all now (my_next_tsn a) (zero_window_probe a sent rest)),
     after_sending now (zero_window_probe a sent rest) 0 (pending_queue a) a)).
  { intros ->. cbn [stamp_all]. by rewrite app_nil_r, after_sending_none. }
  unfold zero_window_probe in *. destruct sent as [|c sent]; cbn [bool_decide andb]; cycle 1.
  { exists (pending_queue a), s. split_and!; [done|done|by apply Hnone]. }
  destruct (PayloadQueue_is_empty (inflight_queue a)); cycle 1.
  { exists (pending_queue a), s. split_and!; [done|done|by apply Hnone]. }
  destruct rest as [|c rest].
  { exists (pending_queue a), s. split_and!; [done|done|]. pose proof (pop_refines oc _ _ Href) as Hp.
    pose proof (spec_pop_contents _ _ Href) as Hc. destruct (spec_pop s) as [[? ?]|]; [congruence|].
    rewrite Hp. by apply Hnone. }
  destruct (move_pending_spec oc now a s c rest Href Hl) as (-> & q' & s' & Href' & Hl' & Hmove & _).
  exists q', s'. split_and!; [done|done|]. cbn. unfold mbind, stm_bind. rewrite Hmove. done.
Qed.

Lemma pop_pending_spec oc now a s :
  refines (pending_queue a) s -> is_u32 (rwnd a) -> is_u32 (my_next_tsn a) ->
  Forall (fun c => pending_message_expired a c now = false) (spec_contents s) ->
  let '(sent, sis, rest) := burst (cwnd a) (pq_n_bytes (inflight_queue a)) (rwnd a) (spec_contents s) in
  let probe := zero_window_probe a sent rest in
  exists q' s', refines q' s' /\ spec_contents s' = drop (length probe) rest /\
    pop_pending_data_chunks_to_send oc now a =
      (Ok (stamp_all now (my_next_tsn a) (sent ++ probe), sis),
       after_sending now (sent ++ probe) (sum_user_data sent) q' a).
Proof.
  intros Href Hr Ht Hexp. pose proof (refines_length _ _ Href) as Hlen.
  pose proof (pop_pending_loop_spec oc now (spec_contents s) (S (Z.to_nat (queue_len (pending_queue a)))) a s [] []) as Hloop.
  unfold pop_pending_data_chunks_to_send. unfold mbind at 1, stm_bind at 1. cbn [gets]. unfold id at 1, PendingQueue_is_empty.
  destruct (Z.eqb_spec (queue_len (pending_queue a)) 0) as [Hz|Hz].
  { destruct (spec_contents s) eqn:E; [|rewrite zlen_cons in Hlen; zlen_pos; lia]. cbn [burst].
    assert (zero_window_probe a [] [] = []) as -> by (unfold zero_window_probe; by destruct (PayloadQueue_is_empty _)).
    exists (pending_queue a), s. change (sum_user_data []) with 0. cbn [app]. rewrite after_sending_none by done. done. }
  specialize (Hloop ltac:(unfold zlen in Hlen; lia) Href eq_refl Hr Ht Hexp).
  destruct (burst _ _ _ _) as [[sent sis] rest]. destruct Hloop as (q1 & s1 & Href1 & Hl1 & Hloop).
  unfold mbind at 1, stm_bind at 1. change (id a) with a. rewrite Hloop. cbn [app].
  destruct (send_probe_spec oc now (after_sending now sent (sum_user_data sent) q1 a) s1
              (stamp_all now (my_next_tsn a) sent) rest Href1 Hl1 (as_u32_range _)) as (q2 & s2 & Href2 & Hl2 & Hp).
  unfold mbind at 1, stm_bind at 1. rewrite Hp. destruct sent as [|c sent].
  - change (sum_user_data []) with 0 in *. rewrite after_sending_nil in * by done. exists q2, s2. split_and!; done.
  - exists q2, s2. split_and!; [done|done|]. cbn [stamp_all zero_window_probe length drop app] in *.
    rewrite !app_nil_r, after_sending_nil by apply as_u32_range. done.
Qed.

(** C6: Sending new DATA.  With no queued message past its lifetime, a burst takes the
    waiting chunks in order, [taken], and leaves [rest].  Those of the chunks taken that
    have data are sent, in their order and with the next TSNs; together with what is in
    flight they stay within the congestion window, and within the peer's receive window,
    which shrinks by exactly their bytes; the burst stops only at a chunk one of the
    windows does not admit.  Beyond that the next chunk goes out alone when nothing is in
    flight and nothing was sent (the zero window probe).  The empty chunks taken are not
    sent: the streams to reset are exactly theirs, in their order. *)
Theorem new_data_within_windows oc now a s :
  refines (pending_queue a) s -> is_u32 (rwnd a) -> is_u32 (my_next_tsn a) ->
  Forall (fun c => pending_message_expired a c now = false) (spec_contents s) ->
  exists taken rest q' s',
    let sent := List.filter has_data taken in
    let probe := zero_window_probe a sent rest in
    let sis := map stream_identifier (List.filter (fun c => negb (has_data c)) taken) in
    spec_contents s = taken ++ rest /\
    pop_pending_data_chunks_to_send oc now a =
      (Ok (stamp_all now (my_next_tsn a) (sent ++ probe), sis),
       after_sending now (sent ++ probe) (sum_user_data sent) q' a) /\
    refines q' s' /\ spec_contents s' = drop (length probe) rest /\
    (sent <> [] -> pq_n_bytes (inflight_queue a) + sum_user_data sent <= cwnd a) /\ sum_user_data sent <= rwnd a /\
    (forall c r, rest = c :: r -> 0 < zlen (user_data c) /\
       (cwnd a < pq_n_bytes (inflight_queue a) + sum_user_data sent + zlen (user_data c) \/
        rwnd a < sum_user_data sent + zlen (user_data c))).
Proof.
  intros Href Hr Ht Hexp. pose proof (pop_pending_spec oc now a s Href Hr Ht Hexp) as Hp.
  pose proof (burst_windows (cwnd a) (pq_n_bytes (inflight_queue a)) (rwnd a) (spec_contents s) ltac:(apply Hr)) as Hw.
  destruct (burst _ _ _ _) as [[sent sis] rest]. destruct Hp as (q' & s' & Href' & Hl' & Hp).
  destruct Hw as ((taken & Hl & -> & ->) & ? & ? & ?). exists taken, rest, q', s'. cbn zeta in *. by split_and!.
Qed.

(** Three waiting messages and a congestion window for two. *)
Definition burst_spec : Spec := mkSpec [] false [] (map (fun c => [c]) bundle_example).
Definition burst_association : Association :=
  bundle_association <| pending_queue := push_all PendingQueue_new bundle_example |> <| rwnd := 100000 |> <| cwnd := 1200 |>.

Lemma new_data_within_windows_witness :
  exists taken rest q' s',
    let a := burst_association in
    let sent := List.filter has_data taken in
    let sis := map stream_identifier (List.filter (fun c => negb (has_data c)) taken) in
    let probe := zero_window_probe a sent rest in
    spec_contents burst_spec = taken ++ rest /\
    pop_pending_data_chunks_to_send true 5 a =
      (Ok (stamp_all 5 (my_next_tsn a) (sent ++ probe), sis),
       after_sending 5 (sent ++ probe) (sum_user_data sent) q' a) /\
    refines q' s' /\ spec_contents s' = drop (length probe) rest /\
    (sent <> [] -> pq_n_bytes (inflight_queue a) + sum_user_data sent <= cwnd a) /\ sum_user_data sent <= rwnd a /\
    (forall c r, rest = c :: r -> 0 < zlen (user_data c) /\
       (cwnd a < pq_n_bytes (inflight_queue a) + sum_user_data sent + zlen (user_data c) \/
        rwnd a < sum_user_data sent + zlen (user_data c))).
Proof.
  apply (new_data_within_windows true 5 burst_association burst_spec).
  - split; try (vm_compute; congruence); repeat constructor; vm_compute; congruence.
  - split; vm_compute; congruence.
  - split; vm_compute; congruence.
  - repeat constructor.
Defined.
