(* ===== verification/AssociationSafety.v ===== *)
(** Safety of the association's state machine ([rtc-sctp/src/association/mod.rs]): what
    each operation can and cannot change, who can establish an association, and
    invariants of every association the program can reach. *)
From S2P Require Import Prelude Serial SctpError SctpParam SctpChunk SctpPacket PayloadQueue PendingQueue ReassemblyQueue SctpTimer SctpStream Association AssociationSend AssociationEvents.

(** * Quiet operations *)

(** What never changes once an association exists. *)
Definition fixed (a : Association) : Side * Z * Z * Z * Z * Z * Z :=
  (as_side a, my_verification_tag a, mtu a, max_payload_size a, max_receive_buffer_size a, max_message_size a,
   inflight_queue_length a).

Definition was_established (s : AssociationState) : bool := bool_decide (s = Established) || is_drained s.

(** A state change outside the handshake: none, to [Closed], or through the shutdown states. *)
Definition winds_down (s s' : AssociationState) : Prop :=
  s' = s \/ s' = Closed \/ (was_established s = true /\ is_drained s' = true).

(** [quiet W a a']: nothing that identifies the session changed, and the state moved
    by [W] at most. *)
Record quiet (W : relation AssociationState) (a a' : Association) : Prop := mkQuiet {
  quiet_fixed : fixed a' = fixed a;
  quiet_cookie : my_cookie a' = my_cookie a;
  quiet_completed : handshake_completed a' = handshake_completed a;
  quiet_state : W (as_state a) (as_state a')
}.

#[export] Instance winds_down_preorder : PreOrder winds_down.
Proof.
  split; [by left|]. intros s1 s2 s3 [->|[->|[H1 H2]]]; [done|..].
  - intros [->|[->|[H _]]]; [right; by left..|done].
  - intros [->|[->|[_ H]]]; [right; by right|right; by left|right; by right].
Qed.

#[export] Instance quiet_preorder W `{!PreOrder W} : PreOrder (quiet W).
Proof.
  split; [by split|]. intros a b c [H1 H2 H3 H4] [H1' H2' H3' H4']. split; [congruence..|by etrans].
Qed.

#[export] Hint Extern 0 (PreOrder _) => typeclasses eauto : kept.

(** Closes [quiet W a s] when [s] updates other fields of a state related to [a]. *)
Ltac quiet_base :=
  first
    [ assumption | reflexivity | (split; [reflexivity|reflexivity|reflexivity|reflexivity])
    | match goal with H : quiet ?W ?a ?b |- quiet ?W ?a _ =>
        solve [split; [exact (quiet_fixed _ _ _ H)|exact (quiet_cookie _ _ _ H)|exact (quiet_completed _ _ _ H)
                      |exact (quiet_state _ _ _ H)]] end
    | (etrans; [|solve [auto with kept nocore]]); quiet_base ].

Ltac quiet_if :=
  repeat (quiet_base ||
          match goal with |- quiet _ _ ?t => match t with context [match ?x with _ => _ end] => destruct x end end).

(** A case analysis; on a call's result, with what the call keeps. *)
Ltac quiet_case x :=
  lazymatch type of x with
  | (_ * Association)%type =>
      lazymatch goal with |- quiet ?W ?a0 _ =>
      lazymatch x with ?m ?s =>
        let H := fresh in
        assert (H : quiet W a0 (snd x)) by ((etrans; [|solve [auto with kept nocore]]); quiet_if);
        destruct x; cbn [snd] in H end end
  | _ => destruct x
  end.

Ltac kept_step :=
  lazymatch goal with
  | |- quiet _ _ (snd (mbind _ (gets _) _)) => apply kept_gets; cbv beta; unfold id
  | |- quiet ?W _ (snd (mbind _ (modify _) _)) => apply (kept_modify (quiet W)); [cbv beta; quiet_if|intros]
  | |- quiet ?W _ (snd (mbind _ (lift _) _)) => apply (kept_lift (quiet W)); [quiet_if|intros]
  | |- quiet ?W _ (snd (mbind _ _ _)) => apply (kept_bind (quiet W)); [quiet_if| |intros]
  | |- quiet _ _ (snd ((match ?x with _ => _ end) _)) => quiet_case x
  | |- quiet _ _ (snd (match ?x with _ => _ end)) => quiet_case x
  | |- quiet _ _ (snd (lift _ _)) => unfold lift; cbn [snd]; quiet_if
  | |- quiet _ _ (snd (throw _ _)) => unfold throw; cbn [snd]; quiet_if
  | |- quiet _ _ (snd (gets _ _)) => unfold gets; cbn [snd]; quiet_if
  | |- quiet _ _ (snd (modify _ _)) => unfold modify; cbn [snd]; quiet_if
  | |- quiet _ _ (snd (mret _ _)) => unfold mret, stm_ret; cbn [snd]; quiet_if
  | |- quiet _ _ (snd (_, _)) => cbn [snd]; quiet_if
  | |- quiet _ ?a (snd (?m ?a)) => solve [auto with kept nocore]
  | |- quiet ?W _ (snd _) => apply (kept_tail (quiet W)); [quiet_if|]
  end.
Ltac kept := intros; repeat kept_step.

Lemma quiet_push_event W `{!PreOrder W} e a : quiet W a (push_event e a).
Proof. quiet_base. Qed.
#[export] Hint Resolve quiet_push_event : kept.

Lemma quiet_unregister W `{!PreOrder W} sid r a : quiet W a (unregister_stream sid r a).
Proof. unfold unregister_stream. quiet_if. Qed.

Lemma quiet_foldl W `{!PreOrder W} {A} (f : Association -> A -> Association) l a :
  (forall a x, quiet W a (f a x)) -> quiet W a (foldl f a l).
Proof. intros Hf. revert a. induction l as [|x l IH]; intros a; cbn; [done|]. etrans; [apply Hf|apply IH]. Qed.

Lemma quiet_set_state (W : relation AssociationState) s a : W (as_state a) s -> quiet W a (set_state s a).
Proof. by split. Qed.

Lemma quiet_close r a : quiet winds_down a (close r a).
Proof.
  unfold close. case_bool_decide; [done|]. etrans; [|apply (quiet_foldl winds_down); intros; apply (quiet_unregister winds_down)].
  split; try done. right; by left.
Qed.

Lemma quiet_fail a : quiet winds_down a (fail_message_queue a).
Proof. unfold fail_message_queue. pose proof (quiet_close TransportError a). quiet_base. Qed.

Lemma quiet_get_or_create W `{!PreOrder W} sid a : quiet W a (get_or_create_stream sid a).
Proof. unfold get_or_create_stream, create_stream. quiet_if. Qed.
#[export] Hint Resolve quiet_get_or_create : kept.

Lemma quiet_generate_rsn W `{!PreOrder W} oc a : quiet W a (generate_next_rsn oc a).2.
Proof. unfold generate_next_rsn. kept. Qed.
#[export] Hint Resolve quiet_generate_rsn : kept.

Lemma quiet_reset_loop W `{!PreOrder W} respond draining ids a : quiet W a (reset_loop respond draining ids a).2.
Proof.
  unfold reset_loop. match goal with |- context [foldl ?f _ ids] =>
    enough (H : forall sis a, quiet W a (foldl f (sis, a) ids).2) by apply H end.
  clear a. induction ids as [|id ids IH]; intros sis a; cbn [foldl]; [done|].
  case_bool_decide; [apply IH|]. destruct (as_streams a !! id); [|apply IH].
  etrans; [apply (quiet_unregister W id ResetByPeer a)|apply IH].
Qed.

#[export] Hint Resolve quiet_reset_loop : kept.

Lemma quiet_reset W `{!PreOrder W} oc p respond a : quiet W a (reset_streams_if_any oc p respond a).2.
Proof.
  unfold reset_streams_if_any. kept.
Qed.
#[export] Hint Resolve quiet_reset : kept.

Lemma quiet_reset_all W `{!PreOrder W} oc respond ps a : quiet W a (reset_all oc respond ps a).2.
Proof. revert a. induction ps as [|p ps IH]; cbn [reset_all]; kept. Qed.
#[export] Hint Resolve quiet_reset_all : kept.

Lemma quiet_retry_loop W `{!PreOrder W} oc ps a : quiet W a (retry_loop oc ps a).2.
Proof.
  revert a. induction ps as [|p ps IH]; intros a; cbn [retry_loop]; kept.
Qed.
#[export] Hint Resolve quiet_retry_loop : kept.

Lemma quiet_retry W `{!PreOrder W} oc sid a : quiet W a (retry_deferred_resets oc sid a).2.
Proof. unfold retry_deferred_resets. kept. Qed.

Lemma quiet_reconfig_param W `{!PreOrder W} oc p a : quiet W a (handle_reconfig_param oc p a).2.
Proof. unfold handle_reconfig_param. kept. Qed.
#[export] Hint Resolve quiet_reconfig_param : kept.

Lemma quiet_reconfig W `{!PreOrder W} oc c a : quiet W a (handle_reconfig oc c a).2.
Proof. unfold handle_reconfig. kept. Qed.

Lemma quiet_advance_peer W `{!PreOrder W} fuel oc a : quiet W a (advance_peer_loop fuel oc a).2.
Proof. revert a. induction fuel as [|fuel IH]; intros a; cbn [advance_peer_loop]; kept. Qed.
#[export] Hint Resolve quiet_advance_peer : kept.

Lemma quiet_peer_last W `{!PreOrder W} oc b a : quiet W a (handle_peer_last_tsn_and_acknowledgement oc b a).2.
Proof. unfold handle_peer_last_tsn_and_acknowledgement. kept. Qed.
#[export] Hint Resolve quiet_peer_last : kept.

Lemma quiet_data W `{!PreOrder W} oc d a : quiet W a (handle_data oc d a).2.
Proof. unfold handle_data. kept. Qed.

Lemma quiet_report W `{!PreOrder W} oc s a : quiet W a (report_readable oc s a).2.
Proof. unfold report_readable. kept. Qed.
#[export] Hint Resolve quiet_report : kept.

Lemma quiet_forward_ordered W `{!PreOrder W} oc f a : quiet W a (forward_ordered_stream oc f a).2.
Proof. unfold forward_ordered_stream, update_stream. kept. Qed.
Lemma quiet_forward_unordered W `{!PreOrder W} oc t p a : quiet W a (forward_unordered_stream oc t p a).2.
Proof. unfold forward_unordered_stream, update_stream. kept. Qed.
#[export] Hint Resolve quiet_forward_ordered quiet_forward_unordered : kept.

Lemma quiet_for_each W `{!PreOrder W} {A} (f : A -> AM unit) l a : (forall x a, quiet W a (f x a).2) -> quiet W a (for_each f l a).2.
Proof. apply (kept_for_each (quiet W)). Qed.
#[export] Hint Resolve quiet_for_each : kept.

Lemma quiet_forward_tsn W `{!PreOrder W} oc c a : quiet W a (handle_forward_tsn oc c a).2.
Proof. unfold handle_forward_tsn. kept. Qed.

(** ** The sending side *)

Lemma quiet_measure_rtt W `{!PreOrder W} oc now c a : quiet W a (measure_rtt oc now c a).2.
Proof. unfold measure_rtt. kept. Qed.
#[export] Hint Resolve quiet_measure_rtt : kept.

Lemma quiet_cumulative W `{!PreOrder W} fuel oc now cum i k a : quiet W a (cumulative_loop fuel oc now cum i k a).2.
Proof. revert i k a. induction fuel as [|fuel IH]; intros i k a; cbn [cumulative_loop]; unfold exit_fast_recovery; kept. Qed.
#[export] Hint Resolve quiet_cumulative : kept.

Lemma quiet_gap W `{!PreOrder W} oc now t k a : quiet W a (gap_acked oc now t k a).2.
Proof. unfold gap_acked. kept. Qed.
#[export] Hint Resolve quiet_gap : kept.

Lemma quiet_gaps W `{!PreOrder W} oc now ts k a : quiet W a (gap_acked_all oc now ts k a).2.
Proof. revert k a. induction ts as [|t ts IH]; intros k a; cbn [gap_acked_all]; kept. Qed.
#[export] Hint Resolve quiet_gaps : kept.

Lemma quiet_selective W `{!PreOrder W} oc d now a : quiet W a (process_selective_ack oc d now a).2.
Proof. unfold process_selective_ack. kept. Qed.
#[export] Hint Resolve quiet_selective : kept.

Lemma quiet_advanced W `{!PreOrder W} oc total now a : quiet W a (on_cumulative_tsn_ack_point_advanced oc total now a).2.
Proof. unfold on_cumulative_tsn_ack_point_advanced, start_t3. kept. Qed.
#[export] Hint Resolve quiet_advanced : kept.

Lemma quiet_miss W `{!PreOrder W} fuel oc h m t a : quiet W a (miss_loop fuel oc h m t a).2.
Proof. revert t a. induction fuel as [|fuel IH]; intros t a; cbn [miss_loop]; unfold update_inflight; kept. Qed.
#[export] Hint Resolve quiet_miss : kept.

Lemma quiet_fast W `{!PreOrder W} oc cum h adv a : quiet W a (process_fast_retransmission oc cum h adv a).2.
Proof. unfold process_fast_retransmission. kept. Qed.
#[export] Hint Resolve quiet_fast : kept.

Lemma quiet_release W `{!PreOrder W} m a : quiet W a (release_stream_buffers m a).
Proof. apply (quiet_foldl W). intros a' [si n]. unfold release_one, update_stream. quiet_if. Qed.
#[export] Hint Resolve quiet_release : kept.

Lemma quiet_note W `{!PreOrder W} u si ssn a : quiet W a (note_abandoned_for_forward_tsn u si ssn a).
Proof. unfold note_abandoned_for_forward_tsn. quiet_if. Qed.

Lemma quiet_advance_ack_loop W `{!PreOrder W} fuel t a a' : advance_ack_loop fuel t a = Ok a' -> quiet W a a'.
Proof.
  revert t a. induction fuel as [|fuel IH]; intros t a; cbn [advance_ack_loop]; [done|].
  destruct (PayloadQueue_get _ _); [|by intros [= ->]]. destruct (abandoned _); cbn [negb]; [|by intros [= ->]].
  intros H%IH. etrans; [|exact H]. etrans; [|apply (quiet_note W)]. quiet_base.
Qed.

Lemma quiet_advance_ack_point W `{!PreOrder W} a : quiet W a (modify_result advance_peer_ack_point a).2.
Proof.
  unfold modify_result, advance_peer_ack_point. destruct (advance_ack_loop _ _ _) as [a'| | |] eqn:E; cbn; [|done..].
  apply (quiet_advance_ack_loop W) in E. quiet_if.
Qed.
#[export] Hint Resolve quiet_advance_ack_point : kept.

Lemma quiet_abandon_tail W `{!PreOrder W} b tail i r c a : quiet W a (abandon_tail b tail i r c a).2.
Proof.
  revert i r c a. induction tail as [|d tail IH]; intros i r c a; cbn [abandon_tail]; [done|].
  destruct b; [|apply IH]. cbn [generate_next_tsn]. etrans; [|apply IH]. quiet_base.
Qed.
#[export] Hint Resolve quiet_abandon_tail : kept.

Lemma quiet_abandon_inflight W `{!PreOrder W} fuel oc t l r c a : quiet W a (abandon_inflight fuel oc t l r c a).2.
Proof.
  revert t r c a. induction fuel as [|fuel IH]; intros t r c a; cbn [abandon_inflight]; unfold update_inflight; kept.
Qed.
#[export] Hint Resolve quiet_abandon_inflight : kept.

Lemma quiet_abandon_message W `{!PreOrder W} oc m a : quiet W a (abandon_message oc m a).2.
Proof. unfold abandon_message. kept. Qed.
#[export] Hint Resolve quiet_abandon_message : kept.

Lemma quiet_messages_abandoned W `{!PreOrder W} now a : quiet W a (on_messages_abandoned now a).2.
Proof. unfold on_messages_abandoned, start_t3. kept. Qed.
#[export] Hint Resolve quiet_messages_abandoned : kept.

Lemma quiet_abandon_candidate W `{!PreOrder W} oc t now a : quiet W a (abandon_retransmit_candidate oc t now a).2.
Proof. unfold abandon_retransmit_candidate. kept. Qed.
#[export] Hint Resolve quiet_abandon_candidate : kept.

Lemma quiet_abandon_all W `{!PreOrder W} oc ms b a : quiet W a (abandon_all oc ms b a).2.
Proof. revert b a. induction ms as [|m ms IH]; intros b a; cbn [abandon_all]; kept. Qed.
#[export] Hint Resolve quiet_abandon_all : kept.

Lemma quiet_abandon_messages W `{!PreOrder W} oc now p a : quiet W a (abandon_unretransmittable_messages oc now p a).2.
Proof. unfold abandon_unretransmittable_messages. kept. Qed.
#[export] Hint Resolve quiet_abandon_messages : kept.

Lemma quiet_move_pending W `{!PreOrder W} oc b u now a : quiet W a (move_pending_data_chunk_to_inflight_queue oc b u now a).2.
Proof. unfold move_pending_data_chunk_to_inflight_queue, generate_next_tsn. kept. Qed.
#[export] Hint Resolve quiet_move_pending : kept.

Lemma quiet_send_probe W `{!PreOrder W} oc now cs a : quiet W a (send_probe oc now cs a).2.
Proof. unfold send_probe. kept. Qed.
#[export] Hint Resolve quiet_send_probe quiet_fail quiet_close : kept.

Lemma quiet_abandon_found W `{!PreOrder W} oc o a :
  quiet W a ((lift o ≫= (fun m => abandon_message oc m) : AM bool) a).2.
Proof. cbv beta. kept. Qed.
#[export] Hint Resolve quiet_abandon_found : kept.

Lemma quiet_pop_loop fuel oc now cs sis a : quiet winds_down a (pop_pending_loop fuel oc now cs sis a).2.
Proof. revert cs sis a. induction fuel as [|fuel IH]; intros cs sis a; cbn [pop_pending_loop]; kept. Qed.
#[export] Hint Resolve quiet_pop_loop : kept.

Lemma quiet_pop_pending oc now a : quiet winds_down a (pop_pending_data_chunks_to_send oc now a).2.
Proof. unfold pop_pending_data_chunks_to_send. kept. Qed.
#[export] Hint Resolve quiet_pop_pending : kept.

(** ** Gathering *)

Lemma quiet_bundle_data W `{!PreOrder W} (m : result (list bytes)) a : quiet W a (lift m a : _ * Association).2.
Proof. done. Qed.

Lemma quiet_count_attempt W `{!PreOrder W} b c a : quiet W a (count_attempt b c a).2.
Proof. unfold count_attempt, update_inflight. quiet_case (PayloadQueue_get (inflight_queue a) (tsn c)); quiet_base. Qed.
#[export] Hint Resolve quiet_count_attempt : kept.

Lemma quiet_count_attempts W `{!PreOrder W} b cs a : quiet W a (count_attempts b cs a).2.
Proof.
  revert a. induction cs as [|c cs IH]; intros a; cbn [count_attempts]; [done|].
  pose proof (quiet_count_attempt W b c a) as H. destruct (count_attempt b c a) as [c' a1]; cbn in H.
  specialize (IH a1). destruct (count_attempts b cs a1) as [cs' a2]; cbn in *. by etrans.
Qed.
#[export] Hint Resolve quiet_count_attempts : kept.

Lemma quiet_retransmit_loop W `{!PreOrder W} fuel oc now awnd i cs n a :
  quiet W a (retransmit_loop fuel oc now awnd i cs n a).2.
Proof. revert i cs n a. induction fuel as [|fuel IH]; intros i cs n a; cbn [retransmit_loop]; kept. Qed.
#[export] Hint Resolve quiet_retransmit_loop : kept.

Lemma quiet_get_retransmit W `{!PreOrder W} crc oc now a : quiet W a (get_data_packets_to_retransmit crc oc now a).2.
Proof. unfold get_data_packets_to_retransmit. kept. Qed.
#[export] Hint Resolve quiet_get_retransmit : kept.

Lemma quiet_gather_retransmit crc oc raw now a : quiet winds_down a (gather_data_packets_to_retransmit crc oc raw now a).2.
Proof. unfold gather_data_packets_to_retransmit. kept. Qed.
#[export] Hint Resolve quiet_gather_retransmit : kept.

Lemma quiet_retransmit_reconfigs W `{!PreOrder W} crc oc a : quiet W a (retransmit_reconfigs crc oc a).2.
Proof. unfold retransmit_reconfigs. kept. Qed.
Lemma quiet_send_reconfig W `{!PreOrder W} crc oc sis a : quiet W a (send_reconfig crc oc sis a).2.
Proof. unfold send_reconfig. kept. Qed.
#[export] Hint Resolve quiet_retransmit_reconfigs quiet_send_reconfig : kept.

Lemma quiet_gather_data crc oc raw now a : quiet winds_down a (gather_outbound_data_and_reconfig_packets crc oc raw now a).2.
Proof. unfold gather_outbound_data_and_reconfig_packets, start_t3. kept. Qed.
#[export] Hint Resolve quiet_gather_data : kept.

Lemma quiet_fast_loop fuel oc now i cs n a : quiet winds_down a (fast_loop fuel oc now i cs n a).2.
Proof. revert i cs n a. induction fuel as [|fuel IH]; intros i cs n a; cbn [fast_loop]; kept. Qed.
#[export] Hint Resolve quiet_fast_loop : kept.

Lemma quiet_gather_fast crc oc raw now a : quiet winds_down a (gather_outbound_fast_retransmission_packets crc oc raw now a).2.
Proof. unfold gather_outbound_fast_retransmission_packets. kept. Qed.

Lemma quiet_create_sack W `{!PreOrder W} oc a : quiet W a (create_selective_ack_chunk oc a).2.
Proof. unfold create_selective_ack_chunk. kept. Qed.
#[export] Hint Resolve quiet_gather_fast quiet_create_sack : kept.

Lemma quiet_gather_sack W `{!PreOrder W} crc oc raw a : quiet W a (gather_outbound_sack_packets crc oc raw a).2.
Proof. unfold gather_outbound_sack_packets. kept. Qed.
Lemma quiet_gather_forward W `{!PreOrder W} crc oc raw a : quiet W a (gather_outbound_forward_tsn_packets crc oc raw a).2.
Proof. unfold gather_outbound_forward_tsn_packets. kept. Qed.
Lemma quiet_gather_shutdown W `{!PreOrder W} crc oc raw now a : quiet W a (gather_outbound_shutdown_packets crc oc raw now a).2.
Proof. unfold gather_outbound_shutdown_packets, start_t2. kept. Qed.
#[export] Hint Resolve quiet_gather_sack quiet_gather_forward quiet_gather_shutdown : kept.

Lemma quiet_gather crc oc now a : quiet winds_down a (gather_outbound crc oc now a).2.
Proof. unfold gather_outbound, unless_closed. kept. Qed.
#[export] Hint Resolve quiet_gather : kept.

(** ** Events *)

Lemma quiet_weaken (W : relation AssociationState) `{!PreOrder W} a a' : quiet eq a a' -> quiet W a a'.
Proof. intros [H1 H2 H3 H4]. split; [done..|]. by rewrite H4. Qed.

(** The moves of a SACK: the last DATA in flight is acknowledged while shutting down. *)
Definition sack_moves (s s' : AssociationState) : Prop :=
  s' = s \/ (s = ShutdownPending /\ s' = ShutdownSent) \/ (s = ShutdownReceived /\ s' = ShutdownAckSent).

#[export] Instance sack_moves_preorder : PreOrder sack_moves.
Proof. split; [by left|]. intros s1 s2 s3. unfold sack_moves. naive_solver. Qed.

Lemma quiet_postprocess now a0 a : quiet eq a0 a -> quiet sack_moves a0 (postprocess_sack (as_state a0) now a).
Proof.
  intros H. pose proof (quiet_state _ _ _ H) as Hs. unfold postprocess_sack, start_t3.
  pose proof (quiet_weaken sack_moves _ _ H) as Hw.
  destruct (negb _); [quiet_base|].
  destruct (as_state a0) eqn:E; try quiet_base; destruct H as [H1 H2 H3 _];
    (split; [exact H1|exact H2|exact H3|]); rewrite E; unfold sack_moves; naive_solver.
Qed.

Ltac sack_step :=
  apply (kept_bind_sub (quiet eq) (quiet sack_moves));
    [intros ? ?; apply (quiet_weaken sack_moves)|assumption|solve [cbv beta; kept]|intros ? ? ?].

Lemma quiet_sack_moves oc d now a : quiet sack_moves a (handle_sack oc d now a).2.
Proof.
  unfold handle_sack. apply kept_gets; cbv beta; unfold id. destruct (negb _); [done|].
  assert (quiet eq a a) by done. sack_step. destruct (sna32gt _ _); [by apply (quiet_weaken sack_moves)|].
  sack_step. apply kept_gets; cbv beta; unfold id. do 4 sack_step. apply kept_gets; cbv beta; unfold id. sack_step.
  by apply quiet_postprocess.
Qed.

Lemma quiet_sub (W W' : relation AssociationState) a a' :
  (forall s s', W s s' -> W' s s') -> quiet W a a' -> quiet W' a a'.
Proof. intros Hs [H1 H2 H3 H4]. split; auto. Qed.

Lemma quiet_sack oc d now a : quiet winds_down a (handle_sack oc d now a).2.
Proof.
  eapply quiet_sub; [|apply quiet_sack_moves]. intros s s' [->|[[-> ->]|[-> ->]]]; [by left|right; by right..].
Qed.

Lemma quiet_shutdown_chunk a : quiet winds_down a (handle_shutdown a).
Proof.
  unfold handle_shutdown. destruct (as_state a) eqn:E; try done; [case_match|]; (split; [done..|rewrite E]); right; by right.
Qed.
Lemma quiet_shutdown_ack W `{!PreOrder W} a : quiet W a (handle_shutdown_ack a).
Proof. unfold handle_shutdown_ack. quiet_if. Qed.
Lemma quiet_shutdown_complete a : quiet winds_down a (handle_shutdown_complete a).
Proof. unfold handle_shutdown_complete. quiet_if. Qed.
#[export] Hint Resolve quiet_sack quiet_shutdown_chunk quiet_shutdown_ack quiet_shutdown_complete quiet_data
  quiet_reconfig quiet_forward_tsn quiet_retry : kept.

Lemma quiet_send_init W `{!PreOrder W} a : quiet W a (send_init a).2.
Proof. unfold send_init, push_control. kept. Qed.
Lemma quiet_send_cookie_echo W `{!PreOrder W} a : quiet W a (send_cookie_echo a).2.
Proof. unfold send_cookie_echo, push_control. kept. Qed.
#[export] Hint Resolve quiet_send_init quiet_send_cookie_echo : kept.

Lemma quiet_t3 oc now a : quiet winds_down a (on_t3_timeout oc now a).2.
Proof. unfold on_t3_timeout. kept. Qed.
#[export] Hint Resolve quiet_t3 : kept.

Lemma quiet_retransmission_timeout oc t now a : quiet winds_down a (on_retransmission_timeout oc t now a).2.
Proof. unfold on_retransmission_timeout, log_error. kept. Qed.
Lemma quiet_retransmission_failure W `{!PreOrder W} t a : quiet W a (on_retransmission_failure t a).
Proof. unfold on_retransmission_failure. quiet_if. Qed.
Lemma quiet_ack_timeout W `{!PreOrder W} a : quiet W a (on_ack_timeout a).
Proof. unfold on_ack_timeout. quiet_base. Qed.
#[export] Hint Resolve quiet_retransmission_timeout quiet_retransmission_failure quiet_ack_timeout : kept.

Lemma quiet_timeout_one oc now t a : quiet winds_down a (timeout_one oc now t a).2.
Proof. unfold timeout_one. kept. Qed.
#[export] Hint Resolve quiet_timeout_one : kept.

Lemma quiet_timeouts oc now ts a : quiet winds_down a (timeout_all oc now ts a).2.
Proof. revert a. induction ts as [|t ts IH]; intros a; cbn [timeout_all]; kept. Qed.

(** * What a chunk does to the state machine *)

(** The moves of the state machine on a chunk. *)
Inductive transition : Chunk -> AssociationState -> AssociationState -> Prop :=
| tr_none c s : transition c s s
| tr_init_ack i : is_ack i = true -> transition (CInit i) CookieWait CookieEchoed
| tr_cookie_echo e s : s ∈ [Closed; CookieWait; CookieEchoed] -> transition (CCookieEcho e) s Established
| tr_cookie_ack : transition CCookieAck CookieEchoed Established
| tr_sack_pending d : transition (CSack d) ShutdownPending ShutdownSent
| tr_sack_received d : transition (CSack d) ShutdownReceived ShutdownAckSent
| tr_shutdown_wait c : transition (CShutdown c) Established ShutdownReceived
| tr_shutdown c s : s ∈ [Established; ShutdownSent] -> transition (CShutdown c) s ShutdownAckSent
| tr_complete : transition CShutdownComplete ShutdownAckSent Closed
| tr_abort es s : transition (CAbort es) s Closed.

(** The effect of a chunk: the move, and what it takes to establish the association. *)
Record chunk_effect (c : Chunk) (a a' : Association) : Prop := mkEffect {
  eff_transition : transition c (as_state a) (as_state a');
  eff_fixed : fixed a' = fixed a;
  eff_cookie : (forall i, c = CInit i -> is_ack i = true) -> my_cookie a' = my_cookie a;
  eff_echo : forall e, c = CCookieEcho e -> as_state a' <> as_state a -> my_cookie a = Some (echo_cookie e);
  eff_completed : handshake_completed a' = handshake_completed a \/
                  (handshake_completed a' = true /\ as_state a' = Established);
  eff_established : as_state a' = Established -> as_state a = Established \/ handshake_completed a' = true
}.

Lemma quiet_effect (W : relation AssociationState) c a a' :
  quiet W a a' -> (forall s s', W s s' -> transition c s s') ->
  (forall s s', W s s' -> s' = Established -> s = Established) -> (forall e, c <> CCookieEcho e) ->
  chunk_effect c a a'.
Proof. intros [H1 H2 H3 H4] Ht He Hc. split; eauto. intros e ->. by destruct (Hc e). Qed.

Lemma quiet_eq_effect c a a' : quiet eq a a' -> chunk_effect c a a'.
Proof.
  intros [H1 H2 H3 H4]. split; auto; rewrite ?H4; auto; [apply tr_none|]. intros e _ Hn. by destruct Hn.
Qed.

(** The accumulated differences are zero only when the strings are equal. *)
Lemma constant_time_eq_spec x y : constant_time_eq x y = true -> x = y.
Proof.
  unfold constant_time_eq. intros [Hl Hf]%andb_true_iff. apply Z.eqb_eq in Hl, Hf. unfold zlen in Hl.
  assert (H : forall acc, foldl (fun tmp p => Z.lor tmp (Z.lxor p.1 p.2)) acc (zip x y) = 0 -> x = y); [|by eapply H].
  clear Hf. revert y Hl. induction x as [|b x IH]; intros [|b' y] Hl acc Hz; cbn in Hl, Hz; [done|lia|lia|].
  assert (Hhead : forall l acc, foldl (fun tmp (p : Z * Z) => Z.lor tmp (Z.lxor p.1 p.2)) acc l = 0 -> acc = 0).
  { clear. induction l as [|p l IH]; intros acc; cbn; [done|]. intros H%IH. by apply Z.lor_eq_0_iff in H as [? _]. }
  f_equal; [|by eapply IH; [lia|]]. apply Hhead, Z.lor_eq_0_iff in Hz as [_ Hx]. by apply Z.lxor_eq.
Qed.

Lemma init_effect ck p i a : is_ack i = false -> chunk_effect (CInit i) a (handle_init ck p i a).2.
Proof.
  intros Hi. unfold handle_init. case_bool_decide; cbn [negb]; [|by apply quiet_eq_effect].
  split; try done; [apply tr_none|..]; auto. intros H1. specialize (H1 i eq_refl). congruence.
Qed.

Lemma init_ack_effect p i now a : is_ack i = true -> chunk_effect (CInit i) a (handle_init_ack p i now a).2.
Proof.
  intros Hi. unfold handle_init_ack. case_bool_decide as Hs; cbn [negb]; [|by apply quiet_eq_effect].
  case_match; [by apply quiet_eq_effect|]. case_match; [|by apply quiet_eq_effect].
  split; try done; auto. cbn. rewrite Hs. by apply tr_init_ack.
Qed.

Lemma cookie_echo_effect e a : chunk_effect (CCookieEcho e) a (handle_cookie_echo e a).2.
Proof.
  unfold handle_cookie_echo. destruct (my_cookie a) as [ck|] eqn:Hck; [|by apply quiet_eq_effect].
  assert (Hq : chunk_effect (CCookieEcho e) a a) by (by apply quiet_eq_effect).
  destruct (constant_time_eq ck (echo_cookie e)) eqn:Heq; [|by destruct (as_state a)].
  apply constant_time_eq_spec in Heq. subst ck.
  destruct (as_state a) eqn:Hs; try done; cbn;
    (split; try done; [rewrite Hs; constructor; set_solver|by intros e' [= <-]|by right|by right]).
Qed.

Lemma cookie_ack_effect a : chunk_effect CCookieAck a (handle_cookie_ack a).2.
Proof.
  unfold handle_cookie_ack. case_bool_decide as Hs; cbn [negb]; [|by apply quiet_eq_effect].
  split; try done; [cbn; rewrite Hs; constructor|by right|by right].
Qed.

Lemma shutdown_effect c a : chunk_effect (CShutdown c) a (handle_shutdown a).
Proof.
  unfold handle_shutdown. destruct (as_state a) eqn:Hs; try (by apply quiet_eq_effect); [case_match|];
    (split; try done; [cbn; rewrite Hs; constructor; set_solver|by left]).
Qed.

Definition closes (s s' : AssociationState) : Prop := s' = s \/ s' = Closed.
#[export] Instance closes_preorder : PreOrder closes.
Proof. split; [by left|]. intros ? ? ?. unfold closes. naive_solver. Qed.

Lemma quiet_close_moves r a : quiet closes a (close r a) /\ as_state (close r a) = Closed.
Proof.
  unfold close. case_bool_decide as Hs; [done|].
  pose proof (quiet_foldl eq (fun a sid => unregister_stream sid r a) (stream_keys (close_all_timers (set_state Closed a)))
                (close_all_timers (set_state Closed a)) ltac:(intros; apply (quiet_unregister eq))) as H.
  split; [|by rewrite <- (quiet_state _ _ _ H)].
  etrans; [|apply (quiet_weaken closes); exact H]. split; try done. by right.
Qed.

Lemma chunk_reply_effect oc ck p c now a : chunk_effect c a (chunk_reply oc ck p c now a).2.
Proof.
  destruct c as [d|i|d|ps|ps|es|sh| |es|e| | |rc|f]; cbn [chunk_reply].
  - apply quiet_eq_effect, (quiet_data eq).
  - destruct (is_ack i) eqn:Hi; [by apply init_ack_effect|by apply init_effect].
  - eapply quiet_effect; [apply quiet_sack_moves| | |done].
    + intros s s' [->|[[-> ->]|[-> ->]]]; constructor.
    + intros s s' [->|[[-> ->]|[-> ->]]]; done.
  - by apply quiet_eq_effect.
  - by apply quiet_eq_effect.
  - destruct (existsb _ es); [|by apply quiet_eq_effect]. cbn.
    eapply quiet_effect; [apply quiet_close_moves| | |done]; intros s s' [->| ->]; [constructor..|done|done].
  - apply shutdown_effect.
  - apply quiet_eq_effect, (quiet_shutdown_ack eq).
  - by apply quiet_eq_effect.
  - pose proof (cookie_echo_effect e a) as H. unfold total. by destruct (handle_cookie_echo e a).
  - pose proof (cookie_ack_effect a) as H. unfold total. by destruct (handle_cookie_ack a).
  - change (chunk_effect CShutdownComplete a (handle_shutdown_complete a)). unfold handle_shutdown_complete. destruct (as_state a) eqn:Hs; try (by apply quiet_eq_effect).
    destruct (quiet_close_moves AssociationClosed (a <| timers ::= timer_stop T2Shutdown |>)) as [[H1 H2 H3 H4] H5].
    split; try done; [rewrite H5, Hs; constructor|by left|by rewrite H5].
  - apply quiet_eq_effect, (quiet_reconfig eq).
  - apply quiet_eq_effect, (quiet_forward_tsn eq).
Qed.

Lemma handle_chunk_effect oc ck p now c a : chunk_effect c a (handle_chunk oc ck p now c a).2.
Proof.
  unfold handle_chunk. unfold mbind at 1, stm_bind at 1, lift.
  destruct (chunk_check c); try (by apply quiet_eq_effect). unfold mbind at 1, stm_bind at 1.
  pose proof (chunk_reply_effect oc ck p c now a) as H. destruct (chunk_reply oc ck p c now a) as [[ps|er| |] a'];
    cbn [snd] in *; try exact H. destruct H as [? ? ? ? ? ?]. by split.
Qed.

(** * Establishing an association *)

(** A packet that takes the association to [Established]: a COOKIE ECHO with the
    cookie handed out, or a COOKIE ACK to a COOKIE ECHO that was sent, or that an INIT
    ACK of the same packet caused. *)
Definition establishes (a : Association) (cs : list Chunk) : Prop :=
  (exists e, CCookieEcho e ∈ cs /\ my_cookie a = Some (echo_cookie e)) \/
  (CCookieAck ∈ cs /\ (as_state a = CookieEchoed \/
                       (as_state a = CookieWait /\ exists i, CInit i ∈ cs /\ is_ack i = true))).

(** What holds while the chunks [cs] of a packet that arrived at [a] are handled. *)
Record gate (a : Association) (cs : list Chunk) (a' : Association) : Prop := mkGate {
  gate_cookie : my_cookie a' = my_cookie a;
  gate_established : as_state a' = Established -> as_state a = Established \/ establishes a cs;
  gate_echoed : as_state a' = CookieEchoed ->
                as_state a = CookieEchoed \/ (as_state a = CookieWait /\ exists i, CInit i ∈ cs /\ is_ack i = true);
  gate_wait : as_state a' = CookieWait -> as_state a = CookieWait
}.

Lemma transition_established c s : transition c s Established ->
  s = Established \/ (exists e, c = CCookieEcho e /\ s <> Established) \/ (c = CCookieAck /\ s = CookieEchoed).
Proof. inversion 1; subst; auto. right; left. eexists. split; [done|]. intros ->. set_solver. Qed.

Lemma transition_echoed c s : transition c s CookieEchoed ->
  s = CookieEchoed \/ (s = CookieWait /\ exists i, c = CInit i /\ is_ack i = true).
Proof. inversion 1; subst; eauto. Qed.

Lemma transition_wait c s : transition c s CookieWait -> s = CookieWait.
Proof. inversion 1; subst; eauto. Qed.

Lemma gate_step a cs c a1 a2 :
  gate a cs a1 -> c ∈ cs -> (forall i, c = CInit i -> is_ack i = true) -> chunk_effect c a1 a2 -> gate a cs a2.
Proof.
  intros [Hk He Hc Hw] Hin Hni [Ht _ Hck Hecho _ _]. specialize (Hck Hni). split; [congruence|..]; intros H2; rewrite H2 in Ht.
  - apply transition_established in Ht as [H1|[(e & -> & H1)|[-> H1]]]; [auto| |].
    + right. left. exists e. split; [done|]. rewrite <- Hk. apply Hecho; congruence.
    + right. right. auto.
  - apply transition_echoed in Ht as [H1|(H1 & i & -> & Hi)]; [auto|]. right. eauto.
  - apply transition_wait in Ht. auto.
Qed.

Lemma gate_quiet a cs a1 a2 : gate a cs a1 -> quiet eq a1 a2 -> gate a cs a2.
Proof. intros [Hk He Hc Hw] [_ H2 _ H4]. rewrite H4 in *. split; auto. congruence. Qed.

Lemma quiet_chunk_start W `{!PreOrder W} a : quiet W a (handle_chunk_start a).
Proof. quiet_base. Qed.
Lemma quiet_chunk_end W `{!PreOrder W} now a : quiet W a (handle_chunk_end now a).
Proof. unfold handle_chunk_end. quiet_if. Qed.

(** An INIT that passes validation is alone in its packet. *)
Lemma check_packet_init p i :
  check_packet p = Ok tt -> CInit i ∈ SctpPacket.chunks p -> is_ack i = false -> SctpPacket.chunks p = [CInit i].
Proof.
  unfold check_packet. destruct (_ =? 0); [done|]. destruct (_ =? 0); [done|]. intros H Hin Hi.
  apply check_chunks_spec in H as [H _]; [|exists (CInit i); split; [done|by exists i]].
  destruct (SctpPacket.chunks p) as [|c [|c' cs]]; unfold zlen in H; cbn [length] in H; [lia| |lia].
  apply list_elem_of_singleton in Hin. by subst.
Qed.

Lemma handle_inbound_gate oc ck p now a :
  as_state (handle_inbound oc ck p now a).2 = Established ->
  as_state a = Established \/ establishes a (SctpPacket.chunks p).
Proof.
  unfold handle_inbound. destruct (check_packet p) as [[]| | |] eqn:Hp; [|auto..].
  unfold mbind at 1, stm_bind at 1. cbn [modify]. unfold mbind, stm_bind.
  match goal with |- context [for_each ?f ?l ?s0] => set (r := for_each f l s0) end.
  assert (Hr : as_state r.2 = Established -> as_state a = Established \/ establishes a (SctpPacket.chunks p)).
  2: { destruct r as [[u|e| |] a1]; cbn [snd] in *; auto.
       intros H. apply Hr. by rewrite (quiet_state _ _ _ (quiet_chunk_end eq now a1)). }
  destruct (existsb (fun c => match c with CInit i => negb (is_ack i) | _ => false end) (SctpPacket.chunks p)) eqn:Hx.
  - apply existsb_exists in Hx as (c & Hc & Hack). destruct c as [|i| | | | | | | | | | | | ]; try done.
    apply negb_true_iff in Hack. apply list_elem_of_In in Hc.
    unfold r. rewrite (check_packet_init p i) by done. cbn [for_each]. intros H. left. unfold mbind, stm_bind in H.
    pose proof (handle_chunk_effect oc ck p now (CInit i) (handle_chunk_start a)) as [Ht _ _ _ _ _].
    assert (Hs : as_state (handle_chunk oc ck p now (CInit i) (handle_chunk_start a)).2 = Established)
      by (by destruct (handle_chunk _ _ _ _ _ _) as [[]]).
    rewrite Hs in Ht. by apply transition_established in Ht as [H1|[(? & ? & _)|[? _]]].
  - apply (for_each_inv (gate a (SctpPacket.chunks p))).
    + eapply gate_quiet; [|apply (quiet_chunk_start eq)]. split; auto.
    + intros c s Hc Hg. eapply gate_step; [done|done| |apply handle_chunk_effect].
      intros i ->. destruct (is_ack i) eqn:Hi; [done|]. exfalso. rewrite <- not_true_iff_false, existsb_exists in Hx.
      apply Hx. exists (CInit i). rewrite Hi. split; [by apply list_elem_of_In|done].
Qed.

(** C7: Nobody establishes an association without the cookie.  When an incoming
    datagram takes the association to [Established], it carried a COOKIE ECHO with
    exactly the cookie this side handed out, or a COOKIE ACK while a COOKIE ECHO of
    this side was outstanding (or sent on account of an INIT ACK in the same
    datagram). *)
Theorem established_needs_cookie oc ck pd now a :
  as_state (handle_event oc ck pd now a).2 = Established -> as_state a <> Established ->
  exists p, finish pd = Ok p /\ establishes a (SctpPacket.chunks p).
Proof.
  unfold handle_event. intros H Hn. destruct (finish pd) as [p| | |]; cbn in H; try done. exists p. split; [done|].
  destruct (handle_inbound_gate oc ck p now a) as [He|He]; [|done|done].
  destruct (handle_inbound oc ck p now a) as [[u|e| |] a']; cbn in *; try done.
  destruct (quiet_close_moves TransportError a') as [_ Hc]. congruence.
Qed.

(** A COOKIE ACK for a COOKIE ECHO that was sent. *)
Definition cookie_ack_datagram : PartialDecode :=
  {| pd_common_header := mkCommonHeader 5000 5000 7; pd_remaining := [CT_COOKIE_ACK; 0; 0; 4];
     first_chunk_type := CT_COOKIE_ACK; pd_initiate_tag := None; pd_cookie := None |}.

Definition echoed_association : Association :=
  set_state CookieEchoed (Association_new false TransportConfig_default 1200 7 0 1).

Lemma established_needs_cookie_witness :
  exists p, finish cookie_ack_datagram = Ok p /\ establishes echoed_association (SctpPacket.chunks p).
Proof.
  apply (established_needs_cookie true [] cookie_ack_datagram 0 echoed_association).
  - vm_compute. reflexivity.
  - vm_compute. congruence.
Defined.

(** C24: The state machine.  Whatever the association, the packet and the chunk, and
    whether the handler succeeds, fails or panics, the state moves only along the
    transitions of [transition]. *)
Theorem chunk_transitions oc ck p now c a :
  transition c (as_state a) (as_state (handle_chunk oc ck p now c a).2).
Proof. apply handle_chunk_effect. Qed.

(** * Reachable associations *)

(** Everything that can happen to an association: what the endpoint and the
    application call. *)
Inductive step : Association -> Association -> Prop :=
| step_event oc ck pd now a : step a (handle_event oc ck pd now a).2
| step_timeout oc now a : step a (handle_timeout oc now a).2
| step_transmit crc oc now a : step a (poll_transmit crc oc now a).2
| step_poll a : step a (poll a).2
| step_poll_endpoint a : step a (poll_endpoint_event a).2
| step_open sid ppi a : step a (open_stream sid ppi a).2
| step_accept a : step a (accept_stream a).2
| step_read oc sid a : step a (read_sctp oc sid a).2
| step_write now sid source ppi a : step a (write_source now sid source ppi a).2
| step_stop now sid a : step a (stream_stop now sid a).2
| step_finish sid a : step a (stream_finish sid a).2
| step_shutdown a : step a (shutdown a).2
| step_close r a : step a (close r a).

Definition reachable (a : Association) : Prop :=
  exists server config max_payload aid now tsn, rtc step (Association_new server config max_payload aid now tsn) a.

(** What holds of every reachable association. *)
Record session_inv (a : Association) : Prop := mkSession {
  session_no_count : inflight_queue_length a = 0;
  session_completed : was_established (as_state a) = true -> handshake_completed a = true
}.

Lemma session_inv_new server config max_payload aid now tsn :
  session_inv (Association_new server config max_payload aid now tsn).
Proof. by destruct server. Qed.

Lemma session_inv_quiet a a' : quiet winds_down a a' -> session_inv a -> session_inv a'.
Proof.
  intros [H1 _ H3 H4] [Hn Hc]. unfold fixed in H1. split; [congruence|]. rewrite H3. intros He. apply Hc.
  destruct H4 as [<-|[E|[E _]]]; [done|by rewrite E in He|done].
Qed.

Lemma transition_was_established c s s' : transition c s s' -> was_established s' = true ->
  was_established s = true \/ s' = Established.
Proof. inversion 1; subst; auto; set_solver. Qed.

Lemma session_inv_effect c a a' : chunk_effect c a a' -> session_inv a -> session_inv a'.
Proof.
  intros [Ht Hf _ _ Hd He] [Hn Hc]. unfold fixed in Hf. split; [congruence|]. intros Hw.
  destruct (transition_was_established _ _ _ Ht Hw) as [Hs|Hs].
  - destruct Hd as [->|[-> _]]; auto.
  - destruct (He Hs) as [Ha|Ha]; [|done]. destruct Hd as [->|[-> _]]; [|done]. apply Hc. by rewrite Ha.
Qed.

Lemma session_inv_event oc ck pd now a : session_inv a -> session_inv (handle_event oc ck pd now a).2.
Proof.
  intros Ha. unfold handle_event. destruct (finish pd) as [p| | |]; try done.
  assert (H : session_inv (handle_inbound oc ck p now a).2).
  { unfold handle_inbound. destruct (check_packet p); try done.
    unfold mbind at 1, stm_bind at 1. cbn [modify]. unfold mbind, stm_bind.
    match goal with |- context [for_each ?f ?l ?s0] => set (r := for_each f l s0) end.
    assert (Hr : session_inv r.2).
    { apply for_each_inv; [eapply session_inv_quiet; [apply (quiet_chunk_start winds_down)|done]|].
      intros c s _ Hs. eapply session_inv_effect; [apply handle_chunk_effect|done]. }
    destruct r as [[x|e| |] a1]; try done. cbn. eapply session_inv_quiet; [apply (quiet_chunk_end winds_down)|done]. }
  destruct (handle_inbound oc ck p now a) as [[x|e| |] a1]; try done.
  cbn in *. eapply session_inv_quiet; [apply quiet_close|done].
Qed.

Lemma quiet_read W `{!PreOrder W} oc sid a : quiet W a (read_sctp oc sid a).2.
Proof. unfold read_sctp, update_stream. kept. Qed.
Lemma quiet_write W `{!PreOrder W} now sid src ppi a : quiet W a (write_source now sid src ppi a).2.
Proof. unfold write_source, update_stream, send_payload_data. kept. Qed.
Lemma quiet_stop W `{!PreOrder W} now sid a : quiet W a (stream_stop now sid a).2.
Proof. unfold stream_stop, update_stream, send_reset_request. kept. Qed.
Lemma quiet_finish W `{!PreOrder W} sid a : quiet W a (stream_finish sid a).2.
Proof. unfold stream_finish, update_stream. kept. Qed.
Lemma quiet_transmit crc oc now a : quiet winds_down a (poll_transmit crc oc now a).2.
Proof. unfold poll_transmit. kept. Qed.
Lemma quiet_shutdown a : quiet winds_down a (shutdown a).2.
Proof.
  unfold shutdown. case_bool_decide as Hs; [|done]. cbn [negb].
  cbn zeta. destruct (_ =? 0); (split; [done..|rewrite Hs; right; by right]).
Qed.

Lemma session_inv_step a a' : step a a' -> session_inv a -> session_inv a'.
Proof.
  destruct 1; [apply session_inv_event|..]; apply session_inv_quiet.
  - apply quiet_timeouts.
  - apply quiet_transmit.
  - unfold poll. kept.
  - unfold poll_endpoint_event. kept.
  - unfold open_stream, create_stream. kept.
  - unfold accept_stream. kept.
  - apply (quiet_read winds_down).
  - apply (quiet_write winds_down).
  - apply (quiet_stop winds_down).
  - apply (quiet_finish winds_down).
  - apply quiet_shutdown.
  - apply quiet_close.
Qed.

Lemma reachable_session a : reachable a -> session_inv a.
Proof.
  intros (server & config & mp & aid & now & tsn & H).
  pose proof (session_inv_new server config mp aid now tsn) as Hi. revert Hi.
  induction H as [|x y z Hxy _ IH]; [done|]. intros Hx. apply IH. by eapply session_inv_step.
Qed.

(** In every reachable association, data can only flow after a completed
    handshake: an association that is established or shutting down has
    [handshake_completed], and so reports its negotiated stream count. *)
Theorem established_after_handshake a :
  reachable a -> was_established (as_state a) = true ->
  handshake_completed a = true /\ is_Some (negotiated_max_streams a).
Proof.
  intros H%reachable_session Hs. pose proof (session_completed _ H Hs) as Hc. split; [done|].
  unfold negotiated_max_streams, is_handshaking. rewrite Hc. by eexists.
Qed.

Lemma handle_sack_ignored b oc d now : as_state b <> Established -> as_state b <> ShutdownPending -> as_state b <> ShutdownReceived ->
  handle_sack oc d now b = (Ok [], b).
Proof.
  intros H1 H2 H3. unfold handle_sack. rewrite bind_get. by destruct (as_state b).
Qed.

(** C40: [shutdown] does not wait for outstanding data.  The counter it tests is zero
    in every reachable association, so from [Established] it always goes to [ShutdownSent],
    with whatever is in flight or still pending.  In that state, and in every other but
    [Established], [ShutdownPending] and [ShutdownReceived], a SACK is ignored: as long as
    the association is not established again by a new handshake, which is possible, nothing
    in flight is acknowledged. *)
Theorem shutdown_ignores_outstanding_data a :
  reachable a -> as_state a = Established ->
  exists a', shutdown a = (Ok tt, a') /\ as_state a' = ShutdownSent /\ will_send_shutdown a' = true /\
    inflight_queue a' = inflight_queue a /\ pending_queue a' = pending_queue a /\
    forall b oc d now, as_state b <> Established -> as_state b <> ShutdownPending -> as_state b <> ShutdownReceived ->
      handle_sack oc d now b = (Ok [], b).
Proof.
  intros H%reachable_session Hs. pose proof (session_no_count _ H) as Hn. unfold shutdown. rewrite Hs. cbn [bool_decide negb].
  change (inflight_queue_length (set_state ShutdownPending a)) with (inflight_queue_length a). rewrite Hn.
  cbn [Z.eqb]. eexists. split_and!; try reflexivity. intros b oc d now H1 H2 H3. by apply handle_sack_ignored.
Qed.

(** An association that accepted an INIT and a COOKIE ECHO and has a chunk in flight. *)
Definition init_chunk_example : ChunkInit :=
  {| is_ack := false; initiate_tag := 3; init_advertised_receiver_window_credit := 100000;
     num_outbound_streams := 10; num_inbound_streams := 10; initial_tsn := 40; init_params := [] |}.
Definition datagram (tag : Z) (c : Chunk) : PartialDecode :=
  {| pd_common_header := mkCommonHeader 5000 5000 tag;
     pd_remaining := match chunk_marshal true c with Ok b => b | _ => [] end;
     first_chunk_type := chunk_type c; pd_initiate_tag := None; pd_cookie := None |}.

Definition server0 : Association := Association_new true TransportConfig_default 1200 9 0 1.
Definition server1 : Association := (handle_event true [1; 2; 3; 4] (datagram 0 (CInit init_chunk_example)) 0 server0).2.
Definition server2 : Association :=
  (handle_event true [] (datagram 9 (CCookieEcho (mkCookieEcho [1; 2; 3; 4]))) 0 server1).2.
Definition server3 : Association := (open_stream 1 PPI_Binary server2).2.
Definition server4 : Association := (write_source 5 1 [1; 2; 3] PPI_Binary server3).2.
Definition server5 : Association := (poll_transmit (fun _ => 0) true 5 server4).2.

Lemma server5_reachable : reachable server5.
Proof.
  exists true, TransportConfig_default, 1200, 9, 0, 1.
  apply (rtc_l _ server0 server1); [exact (step_event true [1; 2; 3; 4] (datagram 0 (CInit init_chunk_example)) 0 server0)|].
  apply (rtc_l _ server1 server2);
    [exact (step_event true [] (datagram 9 (CCookieEcho (mkCookieEcho [1; 2; 3; 4]))) 0 server1)|].
  apply (rtc_l _ server2 server3); [exact (step_open 1 PPI_Binary server2)|].
  apply (rtc_l _ server3 server4); [exact (step_write 5 1 [1; 2; 3] PPI_Binary server3)|].
  apply (rtc_l _ server4 server5); [exact (step_transmit (fun _ => 0) true 5 server4)|]. apply rtc_refl.
Qed.

(** Its chunk is in flight. *)
Lemma server5_in_flight : sorted (inflight_queue server5) = [1] /\ pq_n_bytes (inflight_queue server5) = 3.
Proof. vm_compute. done. Qed.

Lemma established_after_handshake_witness :
  handshake_completed server5 = true /\ is_Some (negotiated_max_streams server5).
Proof. apply (established_after_handshake server5 server5_reachable). vm_compute. reflexivity. Defined.

Lemma shutdown_ignores_outstanding_data_witness :
  exists a', shutdown server5 = (Ok tt, a') /\ as_state a' = ShutdownSent /\ will_send_shutdown a' = true /\
    inflight_queue a' = inflight_queue server5 /\ pending_queue a' = pending_queue server5 /\
    forall oc d now, handle_sack oc d now a' = (Ok [], a').
Proof.
  destruct (shutdown_ignores_outstanding_data server5 server5_reachable) as (a' & E & Hs & Hw & Hi & Hp & Hk); [vm_compute; reflexivity|].
  exists a'. split_and!; try assumption. intros oc d now. apply Hk; rewrite Hs; discriminate.
Defined.

(** An INIT in [ShutdownSent] is an error, which closes the association; the old cookie
    establishes it again, with the chunk still in flight. *)
Lemma closed_established_again :
  let a1 := (shutdown server5).2 in
  let a2 := (handle_event true [1; 2; 3; 4] (datagram 0 (CInit init_chunk_example)) 6 a1).2 in
  let a3 := (handle_event true [] (datagram 9 (CCookieEcho (mkCookieEcho [1; 2; 3; 4]))) 7 a2).2 in
  as_state a1 = ShutdownSent /\ as_state a2 = Closed /\ as_state a3 = Established /\ sorted (inflight_queue a3) = [1].
Proof. vm_compute. done. Qed.

(** * Two handlers that do less than their comments say *)

(** An INIT ACK bundled with a COOKIE ACK establishes the client at once: the peer
    never saw the cookie. *)
Definition init_ack_example : ChunkInit :=
  {| is_ack := true; initiate_tag := 3; init_advertised_receiver_window_credit := 100000;
     num_outbound_streams := 10; num_inbound_streams := 10; initial_tsn := 40;
     init_params := [ParamStateCookie [1; 2; 3; 4]] |}.
Definition bundled_datagram : PartialDecode :=
  {| pd_common_header := mkCommonHeader 5000 5000 7;
     pd_remaining := match chunk_marshal true (CInit init_ack_example) with Ok b => b ++ [CT_COOKIE_ACK; 0; 0; 4] | _ => [] end;
     first_chunk_type := CT_INIT_ACK; pd_initiate_tag := Some 3; pd_cookie := None |}.

Lemma bundled_init_ack_establishes :
  finish bundled_datagram = Ok (mkPacket (mkCommonHeader 5000 5000 7) [CInit init_ack_example; CCookieAck]) /\
  as_state (Association_new false TransportConfig_default 1200 7 0 1) = CookieWait /\
  as_state (handle_event true [] bundled_datagram 0 (Association_new false TransportConfig_default 1200 7 0 1)).2 = Established.
Proof. vm_compute. done. Qed.

(** An INIT ACK for other ports is discarded, but only after the peer's tag, the
    stream counts and the peer's TSN were taken from it. *)
Lemma mismatched_init_ack_overwrites p i now a :
  as_state a = CookieWait -> as_source_port a <> destination_port (common_header p) ->
  exists a', handle_init_ack p i now a = (Ok [], a') /\ as_state a' = CookieWait /\
    peer_verification_tag a' = initiate_tag i /\ Association.peer_last_tsn a' = dec_tsn (initial_tsn i).
Proof.
  intros Hs Hp. apply Z.eqb_neq in Hp. unfold handle_init_ack. rewrite Hs. cbn [bool_decide negb].
  eexists. split; [cbv zeta; cbn [as_source_port over]; by rewrite Hp|]. split; [exact Hs|split; reflexivity].
Qed.
