(* ===== verification/Handshake.v ===== *)
(** The four-way handshake, from one association's datagrams to the other's: INIT,
    INIT ACK, COOKIE ECHO and COOKIE ACK are encoded, decoded and handled
    ([rtc-sctp/src/association/mod.rs], [packet.rs]). *)
From S2P Require Import Prelude Serial SctpError SctpParam SctpChunk SctpPacket Crc32c PayloadQueue PendingQueue ReassemblyQueue SctpTimer SctpStream Association AssociationSend AssociationEvents AssociationSafety.

(** * Exchanging datagrams *)

Section exchange.
Context (crc32c : bytes -> Z) (crc32c_append : Z -> bytes -> Z).

(** What [poll_transmit] hands to the network. *)
Definition transmit (oc : bool) (now : Z) (a : Association) : list bytes * Association :=
  match poll_transmit crc32c oc now a with
  | (Ok (Some ds), a) => (ds, a)
  | (_, a) => ([], a)
  end.

(** A datagram arrives: the endpoint decodes its head and hands it over. *)
Definition receive (oc : bool) (ck : bytes) (now : Z) (a : Association) (raw : bytes) : Association :=
  match PartialDecode_unmarshal crc32c crc32c_append raw with
  | Ok pd => (handle_event oc ck pd now a).2
  | _ => a
  end.

(** Everything [from] has to send arrives at [to]; [ck] is the cookie [to] would draw. *)
Definition flight (oc : bool) (ck : bytes) (now : Z) (from to : Association) : Association * Association :=
  let '(ds, from) := transmit oc now from in (from, foldl (receive oc ck now) to ds).

(** Two round trips, the client beginning. *)
Definition handshake (oc : bool) (ck : bytes) (now : Z) (client server : Association) : Association * Association :=
  let '(client, server) := flight oc ck now client server in
  let '(server, client) := flight oc ck now server client in
  let '(client, server) := flight oc ck now client server in
  let '(server, client) := flight oc ck now server client in
  (client, server).
End exchange.

(** * Nothing but control packets *)

(** The association has nothing to send but its control queue. *)
Definition idle (a : Association) : bool :=
  negb (t3_retransmit_pending a) && PendingQueue_is_empty (pending_queue a) && negb (will_retransmit_reconfig a)
  && negb (will_retransmit_fast a) && negb (bool_decide (ack_state a = Immediate)) && negb (will_send_forward_tsn a).

Definition only_control (a : Association) : bool :=
  match as_state a with
  | Established => idle a
  | Closed | CookieWait | CookieEchoed => true
  | _ => false
  end.

Lemma gather_only_control crc32c oc now a raw :
  only_control a = true -> marshal_each crc32c oc (control_queue a) = Ok raw ->
  gather_outbound crc32c oc now a = (Ok (raw, true), a <| control_queue := [] |>).
Proof.
  intros Ho Hm. unfold gather_outbound. unfold mbind at 1, stm_bind at 1. cbn [gets]. unfold id at 1.
  unfold mbind at 1, stm_bind at 1. unfold lift at 1. change (control_queue (id a)) with (control_queue a). rewrite Hm.
  unfold mbind at 1, stm_bind at 1. cbn [modify]. change (as_state (id a)) with (as_state a).
  unfold only_control in Ho. destruct (as_state a) eqn:Hs; try done.
  unfold idle in Ho. repeat rewrite andb_true_iff in Ho. rewrite !negb_true_iff in Ho. destruct Ho as [[[[[H1 H2] H3] H4] H5] H6].
  set (a1 := a <| control_queue := [] |>).
  assert (Hst : bool_decide (as_state a1 = Closed) = false) by (apply bool_decide_eq_false; change (as_state a <> Closed); congruence).
  assert (E1 : gather_data_packets_to_retransmit crc32c oc raw now a1 = (Ok raw, a1)).
  { unfold gather_data_packets_to_retransmit. change (t3_retransmit_pending a1) with (t3_retransmit_pending a). by rewrite H1. }
  assert (E2 : gather_outbound_data_and_reconfig_packets crc32c oc raw now a1 = (Ok raw, a1)).
  { unfold gather_outbound_data_and_reconfig_packets, pop_pending_data_chunks_to_send, mbind, stm_bind, gets, id.
    change (pending_queue a1) with (pending_queue a). rewrite H2. unfold mret, stm_ret. rewrite Hst.
    change (will_retransmit_reconfig a1) with (will_retransmit_reconfig a). rewrite H3. cbn. by rewrite app_nil_r. }
  assert (E3 : gather_outbound_fast_retransmission_packets crc32c oc raw now a1 = (Ok raw, a1)).
  { unfold gather_outbound_fast_retransmission_packets, mbind, stm_bind, gets, id.
    change (will_retransmit_fast a1) with (will_retransmit_fast a). by rewrite H4. }
  assert (E4 : gather_outbound_sack_packets crc32c oc raw a1 = (Ok raw, a1)).
  { unfold gather_outbound_sack_packets, mbind, stm_bind, gets, id. change (ack_state a1) with (ack_state a).
    apply bool_decide_eq_false in H5. by destruct (ack_state a). }
  assert (E5 : gather_outbound_forward_tsn_packets crc32c oc raw a1 = (Ok raw, a1)).
  { unfold gather_outbound_forward_tsn_packets, mbind, stm_bind, gets, id.
    change (will_send_forward_tsn a1) with (will_send_forward_tsn a). by rewrite H6. }
  unfold mbind, stm_bind, unless_closed, gets, id. rewrite E1. unfold mbind, stm_bind. rewrite Hst, E2, Hst, E3, Hst, E4, E5. done.
Qed.

(** One control packet crosses the network. *)
Lemma flight_control crc32c crc32c_append oc ck now from to p :
  (forall l, is_u32 (crc32c l)) -> (forall x y, crc32c_append (crc32c x) y = crc32c (x ++ y)) ->
  only_control from = true -> control_queue from = [p] -> packet_ok p -> SctpPacket.chunks p <> [] ->
  exists pd, finish pd = Ok p /\
    flight crc32c crc32c_append oc ck now from to = (from <| control_queue := [] |>, (handle_event oc ck pd now to).2).
Proof.
  intros Hu Happ Ho Hq Hp Hne. destruct (packet_rt crc32c crc32c_append oc p Hu Happ Hp) as (raw & Hm & _ & _ & Hd).
  destruct (Hd Hne) as (pd & Hpd & Hf). exists pd. split; [done|].
  assert (Hg : gather_outbound crc32c oc now from = (Ok ([raw], true), from <| control_queue := [] |>)).
  { apply gather_only_control; [done|]. rewrite Hq. cbn [marshal_each]. rewrite Hm. done. }
  unfold flight, transmit, poll_transmit, mbind, stm_bind. rewrite Hg. cbn. unfold receive. by rewrite Hpd.
Qed.

(** A datagram with a single chunk. *)
Lemma handle_event_single oc ck pd now a p c ps :
  finish pd = Ok p -> check_packet p = Ok tt -> SctpPacket.chunks p = [c] -> chunk_check c = Ok tt ->
  (chunk_reply oc ck p c now (handle_chunk_start a)).1 = Ok ps ->
  (handle_event oc ck pd now a).2 =
  handle_chunk_end now ((chunk_reply oc ck p c now (handle_chunk_start a)).2 <| control_queue ::= fun q => q ++ ps |>).
Proof.
  intros Hf Hp Hc Hk Hr. unfold handle_event. rewrite Hf. unfold handle_inbound. rewrite Hp.
  unfold mbind at 1, stm_bind at 1. cbn [modify]. rewrite Hc. cbn [for_each]. unfold handle_chunk.
  unfold mbind, stm_bind, lift. rewrite Hk.
  destruct (chunk_reply oc ck p c now (handle_chunk_start a)) as [r a1]. cbn [fst snd] in Hr |- *. subst r. reflexivity.
Qed.

Lemma constant_time_eq_refl x : constant_time_eq x x = true.
Proof.
  unfold constant_time_eq. rewrite Z.eqb_refl. cbn [andb]. apply Z.eqb_eq.
  induction x as [|b x IH]; [done|]. cbn. by rewrite Z.lxor_nilpotent.
Qed.

(** * The handshake *)

(** What the handshake reads and writes of an association. *)
Record view := mkView {
  v_state : AssociationState; v_done : bool; v_events : list Event;
  v_my_tag : Z; v_my_tsn : Z; v_buffer : Z;
  v_peer_tag : Z; v_peer_tsn : Z; v_window : Z;
  v_inbound : Z; v_outbound : Z; v_forward : bool; v_ports : Z * Z;
  v_cookie : option bytes; v_queue : list Packet;
  v_init : option ChunkInit; v_echo : option ChunkCookieEcho
}.

Definition view_of (a : Association) : view :=
  mkView (as_state a) (handshake_completed a) (events a)
    (my_verification_tag a) (my_next_tsn a) (max_receive_buffer_size a)
    (peer_verification_tag a) (Association.peer_last_tsn a) (rwnd a)
    (my_max_num_inbound_streams a) (my_max_num_outbound_streams a) (use_forward_tsn a)
    (as_source_port a, as_destination_port a) (my_cookie a) (control_queue a)
    (stored_init a) (stored_cookie_echo a).

(** The view once the control queue is sent. *)
Definition drained (v : view) : view :=
  mkView (v_state v) (v_done v) (v_events v) (v_my_tag v) (v_my_tsn v) (v_buffer v) (v_peer_tag v) (v_peer_tsn v)
    (v_window v) (v_inbound v) (v_outbound v) (v_forward v) (v_ports v) (v_cookie v) [] (v_init v) (v_echo v).

(** [a] shows [v], and nothing but its control queue is waiting to be sent. *)
Definition shows (a : Association) (v : view) : Prop := view_of a = v /\ idle a = true.

(** The next datagram of [from] as a step between views: what [to] makes of it. *)
Lemma flight_view crc32c crc32c_append oc ck now from to p v w v' :
  (forall l, is_u32 (crc32c l)) -> (forall x y, crc32c_append (crc32c x) y = crc32c (x ++ y)) ->
  shows from v -> shows to w ->
  packet_ok p -> SctpPacket.chunks p <> [] -> v_queue v = [p] ->
  v_state v ∈ [Closed; CookieWait; CookieEchoed; Established] ->
  (forall pd, finish pd = Ok p -> shows to w -> shows (handle_event oc ck pd now to).2 v') ->
  exists from' to', flight crc32c crc32c_append oc ck now from to = (from', to') /\
    shows from' (drained v) /\ shows to' v'.
Proof.
  intros Hu Ha [Hv Hi] Hw Hp Hc Hq Hst Hto.
  assert (Ho : only_control from = true).
  { unfold only_control. change (as_state from) with (v_state (view_of from)). rewrite Hv.
    repeat (apply elem_of_cons in Hst as [->|Hst]; [done|]). by apply elem_of_nil in Hst. }
  assert (Hq' : control_queue from = [p]) by (rewrite <- Hq, <- Hv; reflexivity).
  destruct (flight_control crc32c crc32c_append oc ck now from to p Hu Ha Ho Hq' Hp Hc) as (pd & Hf & E).
  eexists _, _. split; [exact E|]. split; [|exact (Hto pd Hf Hw)].
  split; [rewrite <- Hv; reflexivity|exact Hi].
Qed.

Ltac single_chunk oc ck Hf ps Hk :=
  match goal with |- shows (handle_event _ _ ?pd ?now ?a).2 _ =>
    rewrite (handle_event_single oc ck pd now a _ _ ps Hf eq_refl eq_refl Hk eq_refl) end.
Ltac open_view a H :=
  destruct a; unfold view_of in H; cbn [as_state handshake_completed events my_verification_tag my_next_tsn
    max_receive_buffer_size peer_verification_tag Association.peer_last_tsn rwnd my_max_num_inbound_streams
    my_max_num_outbound_streams use_forward_tsn as_source_port as_destination_port my_cookie control_queue
    stored_init stored_cookie_echo] in H; injection H as -> -> -> -> -> -> -> -> -> -> -> -> -> -> -> -> -> ->.

(** What an endpoint starts from: its configuration, tag and first TSN are in range,
    and its INIT passes the peer's check. *)
Record party_ok (config : TransportConfig) (aid tsn : Z) : Prop := mkParty {
  party_tag : 0 < aid < 4294967296;
  party_tsn : is_u32 tsn;
  party_out : 0 < cfg_max_num_outbound_streams config < 65536;
  party_in : 0 < cfg_max_num_inbound_streams config < 65536;
  party_buffer : 1500 <= cfg_max_receive_buffer_size config < 4294967296
}.

(** Where the handshake leaves one side [a], configured with [ca], with respect to the other
    side [b], configured with [cb]. *)
Record joined (ca cb : TransportConfig) (a b : Association) : Prop := mkJoined {
  joined_state : as_state a = Established /\ handshake_completed a = true;
  joined_event : EvConnected ∈ events a;
  joined_tag : peer_verification_tag a = my_verification_tag b;
  joined_tsn : as_u32 (Association.peer_last_tsn a + 1) = my_next_tsn b;
  joined_window : rwnd a = max_receive_buffer_size b;
  joined_limits : my_max_num_inbound_streams a = Z.min (cfg_max_num_inbound_streams ca) (cfg_max_num_inbound_streams cb) /\
                  my_max_num_outbound_streams a = Z.min (cfg_max_num_outbound_streams ca) (cfg_max_num_outbound_streams cb);
  joined_streams : negotiated_max_streams a =
    Some (Z.min (Z.min (cfg_max_num_inbound_streams ca) (cfg_max_num_outbound_streams ca))
                (Z.min (cfg_max_num_inbound_streams cb) (cfg_max_num_outbound_streams cb)));
  joined_forward : use_forward_tsn a = true;
  joined_quiet : control_queue a = [] /\ stored_init a = None /\ stored_cookie_echo a = None
}.

Definition first_tsn (random : Z) : Z := if random =? 0 then 1 else random.

Lemma dec_tsn_next t : is_u32 t -> as_u32 (dec_tsn t + 1) = t.
Proof. unfold dec_tsn, is_u32, as_u32. intros. destruct (Z.eqb_spec t 0); mlia. Qed.

Lemma init_chunk_ok ack tag rw o i t cookie :
  is_u32 tag -> is_u32 rw -> is_u16 o -> is_u16 i -> is_u32 t ->
  (forall c, cookie = Some c -> bytes_ok c /\ zlen c <= 1024) ->
  chunk_ok (CInit (set_supported_extensions (mkInit ack tag rw o i t (option_list (ParamStateCookie <$> cookie))))).
Proof.
  intros Ht Hr Ho Hi Hs Hc.
  assert (Hext : param_ok (ParamSupportedExtensions [CT_RECONFIG; CT_FORWARD_TSN])).
  { split; [vm_compute; congruence|]. repeat constructor; vm_compute; congruence. }
  unfold chunk_ok. cbn [chunk_value_length set_supported_extensions init_params].
  destruct cookie as [c|]; cbn [fmap option_fmap option_map option_list app].
  - destruct (Hc c eq_refl) as [Hb Hl].
    assert (Hcp : param_ok (ParamStateCookie c)) by (split; [cbn [param_value_length]; unfold PARAM_HEADER_LENGTH; lia|done]).
    split; [exact (conj Ht (conj Hr (conj Ho (conj Hi (conj Hs (Forall_cons_2 _ _ _ Hcp (Forall_cons_2 _ _ _ Hext (Forall_nil_2 _))))))))|].
    split; [|done].
    rewrite !params_length_cons. cbn [param_value_length params_length]. unfold PARAM_HEADER_LENGTH, CHUNK_HEADER_SIZE.
    change (zlen [CT_RECONFIG; CT_FORWARD_TSN]) with 2.
    pose proof (get_padding_size_spec (4 + zlen c) ltac:(zlen_pos; lia)). lia.
  - split; [exact (conj Ht (conj Hr (conj Ho (conj Hi (conj Hs (Forall_cons_2 _ _ _ Hext (Forall_nil_2 _)))))))|].
    split; [vm_compute; congruence|done].
Qed.

Section handshake.
Context (crc32c : bytes -> Z) (crc32c_append : Z -> bytes -> Z).
Hypothesis crc32c_u32 : forall l, is_u32 (crc32c l).
Hypothesis crc32c_app : forall x y, crc32c_append (crc32c x) y = crc32c (x ++ y).
Context (oc : bool) (ck : bytes) (now : Z).
Hypothesis cookie_ok : bytes_ok ck /\ zlen ck <= 1024.
Context (ccfg : TransportConfig) (cmp caid ctsn : Z) (scfg : TransportConfig) (smp said stsn : Z).
Hypothesis client_ok : party_ok ccfg caid ctsn.
Hypothesis server_ok : party_ok scfg said stsn.

Let client0 := Association_new false ccfg cmp caid now ctsn.
Let server0 := Association_new true scfg smp said now stsn.

Let init1 : ChunkInit := set_supported_extensions
  (mkInit false caid (cfg_max_receive_buffer_size ccfg) (cfg_max_num_outbound_streams ccfg)
     (cfg_max_num_inbound_streams ccfg) (first_tsn ctsn) []).
Let init2 : ChunkInit := set_supported_extensions
  (mkInit true said (cfg_max_receive_buffer_size scfg)
     (Z.min (cfg_max_num_outbound_streams ccfg) (cfg_max_num_outbound_streams scfg))
     (Z.min (cfg_max_num_inbound_streams ccfg) (cfg_max_num_inbound_streams scfg)) (first_tsn stsn) [ParamStateCookie ck]).

Lemma first_tsn_u32 t : is_u32 t -> is_u32 (first_tsn t).
Proof using Type. unfold first_tsn, is_u32. intros. destruct (t =? 0); lia. Qed.

Lemma control_packet_ok tag c : is_u32 tag -> chunk_ok c -> packet_ok (mkPacket (mkCommonHeader 5000 5000 tag) [c]).
Proof using Type.
  intros. split; [|by constructor]. split_and!; [split; cbn; lia|split; cbn; lia|done].
Qed.

Lemma init1_ok : chunk_ok (CInit init1) /\ ChunkInit_check init1 = Ok tt.
Proof using client_ok.
  destruct client_ok as [Ht Hs Ho Hi Hb]. pose proof (first_tsn_u32 _ Hs). split.
  - apply (init_chunk_ok _ _ _ _ _ _ None); unfold is_u32, is_u16 in *; (lia || done).
  - unfold ChunkInit_check, init1. cbn. repeat (case_match; [lia|]). done.
Qed.

Lemma init2_ok : chunk_ok (CInit init2) /\ ChunkInit_check init2 = Ok tt.
Proof using client_ok server_ok cookie_ok.
  destruct client_ok as [_ _ Ho Hi _], server_ok as [Ht Hs Ho' Hi' Hb]. pose proof (first_tsn_u32 _ Hs). split.
  - apply (init_chunk_ok _ _ _ _ _ _ (Some ck)); unfold is_u32, is_u16 in *; (lia || done || by intros c [= <-]).
  - unfold ChunkInit_check, init2. cbn. repeat (case_match; [lia|]). done.
Qed.

Let client_view st done evs tag last window inb outb fwd cookie queue init echo : view :=
  mkView st done evs caid (first_tsn ctsn) (cfg_max_receive_buffer_size ccfg) tag last window inb outb fwd
    (5000, 5000) cookie queue init echo.
Let server_view st done evs tag last window inb outb fwd ports cookie queue : view :=
  mkView st done evs said (first_tsn stsn) (cfg_max_receive_buffer_size scfg) tag last window inb outb fwd
    ports cookie queue None None.
Let inb0 := Z.min (cfg_max_num_inbound_streams ccfg) (cfg_max_num_inbound_streams scfg).
Let outb0 := Z.min (cfg_max_num_outbound_streams ccfg) (cfg_max_num_outbound_streams scfg).
Let packet tag c := mkPacket (mkCommonHeader 5000 5000 tag) [c].

Let client_v0 queue := client_view CookieWait false [] 0 0 0
  (cfg_max_num_inbound_streams ccfg) (cfg_max_num_outbound_streams ccfg) false None queue (Some init1) None.
Let server_v0 := server_view Closed false [] 0 0 0
  (cfg_max_num_inbound_streams scfg) (cfg_max_num_outbound_streams scfg) false (0, 0) None [].
Let server_v1 queue := server_view Closed false [] caid (dec_tsn (first_tsn ctsn)) (cfg_max_receive_buffer_size ccfg)
  inb0 outb0 true (5000, 5000) (Some ck) queue.
Let client_v1 queue := client_view CookieEchoed false [] said (dec_tsn (first_tsn stsn)) (cfg_max_receive_buffer_size scfg)
  (Z.min inb0 (cfg_max_num_inbound_streams ccfg)) (Z.min outb0 (cfg_max_num_outbound_streams ccfg)) true None queue
  None (Some (mkCookieEcho ck)).

Let server_v2 queue := server_view Established true [EvConnected] caid (dec_tsn (first_tsn ctsn))
  (cfg_max_receive_buffer_size ccfg) inb0 outb0 true (5000, 5000) (Some ck) queue.
Let client_v2 := client_view Established true [EvConnected] said (dec_tsn (first_tsn stsn))
  (cfg_max_receive_buffer_size scfg)
  (Z.min inb0 (cfg_max_num_inbound_streams ccfg)) (Z.min outb0 (cfg_max_num_outbound_streams ccfg)) true None [] None None.

Lemma client_hello : shows client0 (client_v0 [packet 0 (CInit init1)]).
Proof using Type. split; reflexivity. Qed.

Lemma server_hello : shows server0 server_v0.
Proof using Type. split; reflexivity. Qed.

Lemma server_on_init pd a : finish pd = Ok (packet 0 (CInit init1)) -> shows a server_v0 ->
  shows (handle_event oc ck pd now a).2 (server_v1 [packet caid (CInit init2)]).
Proof using client_ok.
  intros Hf [Hv Hi]. open_view a Hv.
  single_chunk oc ck Hf [packet caid (CInit init2)] (proj2 init1_ok).
  split; [reflexivity|exact Hi].
Qed.

Lemma client_on_init_ack pd a : finish pd = Ok (packet caid (CInit init2)) -> shows a (client_v0 []) ->
  shows (handle_event oc ck pd now a).2 (client_v1 [packet said (CCookieEcho (mkCookieEcho ck))]).
Proof using client_ok server_ok cookie_ok.
  intros Hf [Hv Hi]. open_view a Hv.
  single_chunk oc ck Hf (@nil Packet) (proj2 init2_ok).
  split; [reflexivity|exact Hi].
Qed.

Lemma cookie_echo_accepted a : my_cookie a = Some ck -> as_state a = Closed ->
  handle_cookie_echo (mkCookieEcho ck) a =
  let a' := set_state Established (push_event EvConnected (a <| timers ::= timer_stop T1Init |> <| stored_init := None |>
              <| timers ::= timer_stop T1Cookie |> <| stored_cookie_echo := None |>)) <| handshake_completed := true |> in
  ([create_packet a' [CCookieAck]], a').
Proof using Type.
  intros Hm Hs. unfold handle_cookie_echo. rewrite Hm, Hs. cbn [echo_cookie]. rewrite constant_time_eq_refl. reflexivity.
Qed.

Lemma server_on_echo pd a : finish pd = Ok (packet said (CCookieEcho (mkCookieEcho ck))) -> shows a (server_v1 []) ->
  shows (handle_event oc ck pd now a).2 (server_v2 [packet caid CCookieAck]).
Proof using Type.
  intros Hf [Hv Hi]. open_view a Hv.
  match goal with |- shows (handle_event _ _ _ _ ?x).2 _ => set (a := x) end.
  pose proof (cookie_echo_accepted (handle_chunk_start a) eq_refl eq_refl) as E.
  assert (Hr : chunk_reply oc ck (packet said (CCookieEcho (mkCookieEcho ck))) (CCookieEcho (mkCookieEcho ck)) now
    (handle_chunk_start a) = (let '(x, a) := handle_cookie_echo (mkCookieEcho ck) (handle_chunk_start a) in (Ok x, a)))
    by reflexivity.
  rewrite E in Hr. clear E. cbv zeta in Hr.
  rewrite (handle_event_single oc ck pd now a _ _ [packet caid CCookieAck] Hf eq_refl eq_refl eq_refl);
    rewrite Hr; [|reflexivity].
  split; [reflexivity|exact Hi].
Qed.

Lemma client_on_ack pd a : finish pd = Ok (packet caid CCookieAck) -> shows a (client_v1 []) ->
  shows (handle_event oc ck pd now a).2 client_v2.
Proof using Type.
  intros Hf [Hv Hi]. open_view a Hv. single_chunk oc ck Hf (@nil Packet) (eq_refl (Ok tt : result unit)).
  split; [reflexivity|exact Hi].
Qed.

Lemma handshake_joins :
  let '(client, server) := handshake crc32c crc32c_append oc ck now client0 server0 in
  joined ccfg scfg client server /\ joined scfg ccfg server client.
Proof using All.
  pose proof (party_tag _ _ _ client_ok) as Ht1. pose proof (party_tsn _ _ _ client_ok) as Hs1.
  pose proof (party_tag _ _ _ server_ok) as Ht2. pose proof (party_tsn _ _ _ server_ok) as Hs2.
  assert (Ut : is_u32 0 /\ is_u32 caid /\ is_u32 said) by (unfold is_u32; lia). destruct Ut as (U0 & U1 & U2).
  assert (Hecho : chunk_ok (CCookieEcho (mkCookieEcho ck))).
  { destruct cookie_ok. split; [done|]. split; [cbn; unfold CHUNK_HEADER_SIZE; lia|done]. }
  assert (Hack : chunk_ok CCookieAck) by done.
  unfold handshake.
  destruct (flight_view crc32c crc32c_append oc ck now client0 server0 (packet 0 (CInit init1)) _ _ _ crc32c_u32 crc32c_app client_hello server_hello
    (control_packet_ok _ _ U0 (proj1 init1_ok)) ltac:(done) eq_refl ltac:(cbn; set_solver)
    (fun pd => server_on_init pd server0)) as (client1 & server1 & -> & Hc1 & Hv1).
  destruct (flight_view crc32c crc32c_append oc ck now server1 client1 (packet caid (CInit init2)) _ _ _ crc32c_u32 crc32c_app Hv1 Hc1
    (control_packet_ok _ _ U1 (proj1 init2_ok)) ltac:(done) eq_refl ltac:(cbn; set_solver)
    (fun pd => client_on_init_ack pd client1)) as (server2 & client2 & -> & Hv2 & Hc2).
  destruct (flight_view crc32c crc32c_append oc ck now client2 server2 (packet said (CCookieEcho (mkCookieEcho ck)))
    _ _ _ crc32c_u32 crc32c_app Hc2 Hv2
    (control_packet_ok _ _ U2 Hecho) ltac:(done) eq_refl ltac:(cbn; set_solver)
    (fun pd => server_on_echo pd server2)) as (client3 & server3 & -> & Hc3 & Hv3).
  destruct (flight_view crc32c crc32c_append oc ck now server3 client3 (packet caid CCookieAck) _ _ _ crc32c_u32 crc32c_app Hv3 Hc3
    (control_packet_ok _ _ U1 Hack) ltac:(done) eq_refl ltac:(cbn; set_solver)
    (fun pd => client_on_ack pd client3)) as (server4 & client4 & -> & [Hv4 _] & [Hc4 _]).
  open_view server4 Hv4. open_view client4 Hc4.
  pose proof (dec_tsn_next _ (first_tsn_u32 _ Hs1)). pose proof (dec_tsn_next _ (first_tsn_u32 _ Hs2)).
  split; (split; [done|apply list_elem_of_singleton; done|done|done|done| | |done|done]).
  - split; cbn; lia.
  - cbn. f_equal. lia.
  - split; cbn; lia.
  - cbn. f_equal. lia.
Qed.
End handshake.

(** C1: The four-way handshake works end to end.  Take any two endpoints whose
    configurations are in range (at least one stream each way, a receive buffer of at least
    1500 bytes), nonzero tags and a cookie of at most 1024 bytes (the code makes 32); let each
    side's datagrams reach the other, encoded and decoded, the client beginning.  After two
    round trips both associations are established and report it, each sends with the tag the
    other chose and expects the other's first TSN, each knows the other's receive buffer, both
    use FORWARD TSN, and nothing is left to send.  Both report the same number of negotiated
    streams, the least of the four configured limits.  The limits kept per direction are the
    minima of like with like (inbound with inbound, outbound with outbound), as the code
    computes them; a side's outbound limit may exceed what the other side takes. *)
Theorem handshake_establishes crc32c crc32c_append oc ck now ccfg cmp caid ctsn scfg smp said stsn :
  (forall l, is_u32 (crc32c l)) -> (forall x y, crc32c_append (crc32c x) y = crc32c (x ++ y)) ->
  bytes_ok ck /\ zlen ck <= 1024 -> party_ok ccfg caid ctsn -> party_ok scfg said stsn ->
  let '(client, server) := handshake crc32c crc32c_append oc ck now
    (Association_new false ccfg cmp caid now ctsn) (Association_new true scfg smp said now stsn) in
  joined ccfg scfg client server /\ joined scfg ccfg server client.
Proof.
  intros Hu Ha Hk Hc Hs.
  exact (handshake_joins crc32c crc32c_append Hu Ha oc ck now Hk ccfg cmp caid ctsn scfg smp said stsn Hc Hs).
Qed.

Lemma handshake_establishes_witness :
  let '(client, server) := handshake ref_crc32c ref_crc32c_append true [1; 2; 3; 4] 0
    (Association_new false TransportConfig_default 1200 7 0 4294967295)
    (Association_new true TransportConfig_default 1200 9 0 0) in
  joined TransportConfig_default TransportConfig_default client server /\ joined TransportConfig_default TransportConfig_default server client.
Proof.
  assert (Hk : bytes_ok [1; 2; 3; 4] /\ zlen [1; 2; 3; 4] <= 1024)
    by (split; [repeat constructor; vm_compute; congruence|vm_compute; congruence]).
  assert (Hc : party_ok TransportConfig_default 7 4294967295) by (split; vm_compute; (done || split; congruence)).
  assert (Hs : party_ok TransportConfig_default 9 0) by (split; vm_compute; (done || split; congruence)).
  exact (handshake_establishes ref_crc32c ref_crc32c_append true [1; 2; 3; 4] 0 TransportConfig_default 1200 7 4294967295
           TransportConfig_default 1200 9 0 ref_crc32c_u32 ref_crc32c_append_app Hk Hc Hs).
Defined.

(** The limits per direction do not match the other side's: with 3 streams in and 10 out
    configured at both ends, each may send on 10 streams to an end that takes 3. *)
Lemma outbound_exceeds_inbound :
  let cfg := mkTransportConfig (1024 * 1024) 262144 10 3 TimerConfig_default in
  let '(client, server) := handshake ref_crc32c ref_crc32c_append true [1; 2; 3; 4] 0
    (Association_new false cfg 1200 7 0 5) (Association_new true cfg 1200 9 0 6) in
  as_state client = Established /\ as_state server = Established /\
  my_max_num_outbound_streams client = 10 /\ my_max_num_inbound_streams server = 3.
Proof. vm_compute. done. Qed.
