(* ===== verification/Acknowledgement.v ===== *)
(** What a SACK does to the data in flight ([rtc-sctp/src/association/mod.rs],
    [handle_sack] and the functions it calls).  The in-flight queue holds consecutive
    TSNs from the one after the cumulative ack point; the SACKs of a peer that
    acknowledges only what was sent are processed to the end, every byte that leaves
    flight is credited once, and the queue keeps its shape. *)
From S2P Require Import Prelude Serial SctpError SctpParam SctpChunk SctpPacket PayloadQueue PendingQueue ReassemblyQueue SctpTimer SctpStream Association AssociationSend.

(** * Consecutive TSNs *)

Fixpoint tsns (t : Z) (n : nat) : list Z :=
  match n with
  | O => []
  | S n => t :: tsns (as_u32 (t + 1)) n
  end.

Lemma tsns_length t n : length (tsns t n) = n.
Proof. revert t. induction n as [|n IH]; intros t; [done|]. cbn. by rewrite IH. Qed.

Lemma off32_succ t x : is_u32 t -> is_u32 x -> x <> t -> off32 (as_u32 (t + 1)) x = off32 t x - 1.
Proof. unfold off32, as_u32, is_u32. intros. mlia. Qed.

Lemma off32_self t : off32 t t = 0.
Proof. unfold off32. by rewrite Z.sub_diag. Qed.

Lemma elem_of_tsns t n x : is_u32 t -> Z.of_nat n < 4294967296 ->
  x ∈ tsns t n <-> is_u32 x /\ off32 t x < Z.of_nat n.
Proof.
  revert t. induction n as [|n IH]; intros t Ht Hn.
  { split; [by intros ?%elem_of_nil|]. intros [_ ?]. pose proof (off32_range t x). lia. }
  cbn [tsns]. rewrite elem_of_cons, IH by (apply as_u32_range || lia).
  destruct (decide (x = t)) as [->|Hne]; [rewrite off32_self; split; [intros _; split; [done|lia]|by left]|].
  split.
  - intros [?|[Hx Ho]]; [done|]. rewrite off32_succ in Ho by done. split; [done|lia].
  - intros [Hx Ho]. right. rewrite off32_succ by done. split; [done|lia].
Qed.

Lemma NoDup_tsns t n : is_u32 t -> Z.of_nat n <= 4294967296 -> NoDup (tsns t n).
Proof.
  revert t. induction n as [|n IH]; intros t Ht Hn; [constructor|]. cbn. constructor.
  - rewrite elem_of_tsns by (apply as_u32_range || lia). intros [_ Ho].
    assert (off32 (as_u32 (t + 1)) t = 4294967295) by (unfold off32, as_u32, is_u32 in *; mlia). lia.
  - apply IH; [apply as_u32_range|lia].
Qed.

Lemma as_u32_add_assoc t x y : as_u32 (as_u32 (t + x) + y) = as_u32 (t + (x + y)).
Proof. unfold as_u32. mlia. Qed.

Lemma drop_tsns t n m : is_u32 t -> drop m (tsns t n) = tsns (as_u32 (t + Z.of_nat m)) (n - m).
Proof.
  revert t n. induction m as [|m IH]; intros t n Ht.
  { cbn [drop]. rewrite Nat.sub_0_r, Z.add_0_r. by rewrite as_u32_id. }
  destruct n as [|n]; [done|]. cbn [drop tsns Nat.sub]. rewrite IH by apply as_u32_range.
  rewrite as_u32_add_assoc. do 2 f_equal. lia.
Qed.

(** * The data in flight *)

(** The queue holds the TSNs from [t] on, without a gap; a chunk the peer has
    acknowledged no longer has its payload. *)
Record flight (t : Z) (q : PayloadQueue) : Prop := mkFlight {
  fl_start : is_u32 t;
  fl_tsns : sorted q = tsns t (length (sorted q));
  fl_short : Z.of_nat (length (sorted q)) < 2147483648;
  fl_dom : forall x, x ∈ sorted q <-> is_Some (chunk_map q !! x);
  fl_key : forall x c, chunk_map q !! x = Some c -> tsn c = x;
  fl_bytes : pq_n_bytes q = zsum (payload_len (chunk_map q)) (sorted q);
  fl_acked : forall x c, chunk_map q !! x = Some c -> acknowledged c = true -> user_data c = []
}.

(** The bytes in flight of the chunks that satisfy [P]. *)
Definition weight (P : ChunkPayloadData -> bool) (m : gmap Z ChunkPayloadData) (t : Z) : Z :=
  match m !! t with Some c => if P c then zlen (user_data c) else 0 | None => 0 end.
Definition weigh (P : ChunkPayloadData -> bool) (q : PayloadQueue) : Z := zsum (weight P (chunk_map q)) (sorted q).

Lemma weigh_all t q : flight t q -> weigh (fun _ => true) q = pq_n_bytes q.
Proof. intros Hf. rewrite (fl_bytes _ _ Hf). reflexivity. Qed.

Lemma flight_NoDup t q : flight t q -> NoDup (sorted q).
Proof. intros [Ht Hs Hn _ _ _ _]. rewrite Hs. apply NoDup_tsns; [done|lia]. Qed.

Lemma flight_elem t q x : flight t q -> x ∈ sorted q <-> is_u32 x /\ off32 t x < Z.of_nat (length (sorted q)).
Proof. intros [Ht Hs Hn _ _ _ _]. rewrite Hs at 1. apply elem_of_tsns; [done|lia]. Qed.

Lemma zsum_change g h (l : list Z) x : NoDup l -> x ∈ l -> (forall y, y <> x -> g y = h y) ->
  zsum g l = zsum h l + (g x - h x).
Proof.
  induction 1 as [|y l Hy Hl IH]; intros Hin Heq; [by apply elem_of_nil in Hin|]. rewrite !zsum_cons.
  apply elem_of_cons in Hin as [->|Hin].
  - rewrite (zsum_ext g h l); [lia|]. intros z Hz. apply Heq. congruence.
  - rewrite IH by done. rewrite (Heq y) by congruence. lia.
Qed.

(** The first chunk leaves. *)
Lemma flight_pop oc t q rest : flight t q -> sorted q = t :: rest ->
  exists c q', PayloadQueue_pop oc q t = Ok (Some c, q') /\ chunk_map q !! t = Some c /\
    flight (as_u32 (t + 1)) q' /\ sorted q' = rest /\ chunk_map q' = delete t (chunk_map q) /\
    (forall P, weigh P q = (if P c then zlen (user_data c) else 0) + weigh P q').
Proof.
  intros Hf Hs. pose proof (flight_NoDup _ _ Hf) as Hnd. destruct Hf as [Ht Hsorted Hn Hd Hk Hb Ha].
  rewrite Hs in Hnd. apply NoDup_cons in Hnd as [Hnin Hnd].
  destruct (proj1 (Hd t)) as [c Hc]; [rewrite Hs; left|].
  assert (Hrest : forall g h, (forall y, y <> t -> g y = h y) -> zsum g rest = zsum h rest).
  { intros g h Heq. apply zsum_ext. intros y Hy. apply Heq. congruence. }
  assert (Hpl : forall y, y <> t -> payload_len (chunk_map q) y = payload_len (delete t (chunk_map q)) y).
  { intros y Hy. unfold payload_len. by rewrite lookup_delete_ne. }
  assert (Hlen : pq_n_bytes q = zlen (user_data c) + zsum (payload_len (delete t (chunk_map q))) rest).
  { rewrite Hb, Hs, zsum_cons, (Hrest _ _ Hpl). unfold payload_len at 1. by rewrite Hc. }
  assert (0 <= zsum (payload_len (delete t (chunk_map q))) rest) by (apply zsum_nonneg, payload_len_nonneg).
  eexists c, _. unfold PayloadQueue_pop. rewrite Hs, Z.eqb_refl, Hc, sub_ovf_Ok by lia. cbn [mbind outcome_bind].
  split; [reflexivity|]. split; [done|]. split; [|split; [done|split; [done|]]].
  - rewrite Hs in Hsorted, Hn, Hd. cbn [length] in *. cbn [tsns] in Hsorted. injection Hsorted as Hr.
    split; cbn [sorted chunk_map pq_n_bytes]; [apply as_u32_range|done|lia| | |lia|].
    + intros x. rewrite lookup_delete_is_Some, <- Hd, elem_of_cons. split; [intros Hx; split; [congruence|by right]|].
      intros [? [?|?]]; [congruence|done].
    + intros x d [_ Hx]%lookup_delete_Some. eauto.
    + intros x d [_ Hx]%lookup_delete_Some. eauto.
  - intros P. unfold weigh. cbn [sorted chunk_map]. rewrite Hs, zsum_cons. unfold weight at 1. rewrite Hc. f_equal.
    apply Hrest. intros y Hy. unfold weight. by rewrite lookup_delete_ne.
Qed.

(** A chunk is replaced by another form of itself. *)
Lemma flight_replace t q x c c' : flight t q -> chunk_map q !! x = Some c -> tsn c' = x ->
  (acknowledged c' = true -> user_data c' = []) ->
  let q' := mkPayloadQueue (<[x := c']> (chunk_map q)) (sorted q) (dup_tsn q)
              (pq_n_bytes q - zlen (user_data c) + zlen (user_data c')) in
  flight t q' /\
  (forall P, weigh P q' = weigh P q - (if P c then zlen (user_data c) else 0) + (if P c' then zlen (user_data c') else 0)).
Proof.
  intros Hf Hc Hx Hac q'. pose proof (flight_NoDup _ _ Hf) as Hnd. destruct Hf as [Ht Hs Hn Hd Hk Hb Ha].
  assert (Hin : x ∈ sorted q) by (apply Hd; eauto).
  assert (Hw : forall P, weigh P q' = weigh P q - (if P c then zlen (user_data c) else 0) + (if P c' then zlen (user_data c') else 0)).
  { intros P. unfold weigh, q'. cbn [sorted chunk_map].
    rewrite (zsum_change (weight P (chunk_map q)) (weight P (<[x:=c']> (chunk_map q))) (sorted q) x Hnd Hin).
    - unfold weight. rewrite Hc, lookup_insert_eq. lia.
    - intros y Hy. unfold weight. by rewrite lookup_insert_ne. }
  split; [|done].
  split; unfold q'; cbn [sorted chunk_map pq_n_bytes]; try done.
  - intros y. rewrite lookup_insert_is_Some, Hd. destruct (decide (x = y)) as [<-|]; [naive_solver|naive_solver].
  - intros y d [[<- <-]|[_ ?]]%lookup_insert_Some; [done|eauto].
  - specialize (Hw (fun _ => true)). unfold weigh, q' in Hw. cbn [sorted chunk_map] in Hw.
    change (weight (fun _ => true)) with payload_len in Hw. rewrite Hw, <- Hb. done.
  - intros y d [[<- <-]|[_ ?]]%lookup_insert_Some; [done|eauto].
Qed.

(** * Credit *)

Definition on_stream (a : Association) (sid : Z) (c : ChunkPayloadData) : bool :=
  is_current_stream_data a c && (stream_identifier c =? sid).

(** Between two moments, what was credited is what left flight: in total, and for
    every stream that is still open. *)
Record balance (a : Association) (k : Acked) (q : PayloadQueue) (k' : Acked) (q' : PayloadQueue) : Prop := mkBalance {
  bal_total : total_bytes_acked k' - total_bytes_acked k = weigh (fun _ => true) q - weigh (fun _ => true) q';
  bal_stream : forall sid, default 0 (bytes_acked_per_stream k' !! sid) - default 0 (bytes_acked_per_stream k !! sid) =
    weigh (on_stream a sid) q - weigh (on_stream a sid) q'
}.

Lemma balance_refl a k q q' : (forall P, weigh P q = weigh P q') -> balance a k q k q'.
Proof. intros E. split; intros; rewrite E; lia. Qed.
Lemma balance_trans a k q k' q' k'' q'' : balance a k q k' q' -> balance a k' q' k'' q'' -> balance a k q k'' q''.
Proof.
  intros [T1 S1] [T2 S2]. split; [lia|]. intros sid. specialize (S1 sid). specialize (S2 sid). lia.
Qed.

Lemma balance_streams b a k q k' q' : balance b k q k' q' -> as_streams b = as_streams a -> balance a k q k' q'.
Proof.
  intros [T S] E. split; [done|]. intros sid. specialize (S sid). unfold on_stream, is_current_stream_data in *.
  by rewrite E in S.
Qed.

Lemma balance_count a b c c0 n k q q' :
  (forall P, weigh P q = (if P c0 then n else 0) + weigh P q') -> as_streams b = as_streams a ->
  stream_identifier c = stream_identifier c0 -> stream_generation c = stream_generation c0 ->
  balance a k q (count_acked b c n k) q'.
Proof.
  intros Hw Hb Hi Hg. split; cbn [count_acked total_bytes_acked bytes_acked_per_stream].
  - specialize (Hw (fun _ => true)). cbv beta iota in Hw. lia.
  - intros sid. specialize (Hw (on_stream a sid)). rewrite Hw. unfold on_stream, is_current_stream_data.
    rewrite Hb, Hi, Hg. unfold add_bytes. destruct (as_streams a !! stream_identifier c0) as [s|]; cbn [andb]; [|lia].
    destruct (ss_generation s =? stream_generation c0); cbn [andb]; [|lia].
    destruct (Z.eqb_spec (stream_identifier c0) sid) as [->|Hne];
      [rewrite lookup_insert_eq; cbn [default from_option id]; lia|rewrite lookup_insert_ne by done; lia].
Qed.

(** * The two loops *)

(** What the loops leave alone. *)
Definition frame (a : Association) :=
  (as_state a, (cumulative_tsn_ack_point a, advanced_peer_tsn_ack_point a, my_next_tsn a), as_streams a,
   (cwnd a, ssthresh a, mtu a, partial_bytes_acked a, rwnd a), pending_queue a, use_forward_tsn a, events a).

Lemma frame_streams a b : frame b = frame a -> as_streams b = as_streams a.
Proof. by intros [= ]. Qed.

Lemma measure_rtt_release now c a : exists a',
  measure_rtt false now c a = (Ok tt, a') /\ inflight_queue a' = inflight_queue a /\ frame a' = frame a.
Proof.
  unfold measure_rtt. unfold mbind at 1, stm_bind at 1. cbn [modify]. destruct (since c) as [s|]; [|by eexists].
  unfold mbind, stm_bind, gets, lift.
  match goal with |- context [set_new_rtt false ?m ?r] => destruct (set_new_rtt_release m r) as (x & m' & ->) end.
  by eexists.
Qed.

Lemma measured_release (b : bool) now c a : exists a',
  (if b then measure_rtt false now c else mret tt) a = (Ok tt, a') /\ inflight_queue a' = inflight_queue a /\ frame a' = frame a.
Proof. destruct b; [apply measure_rtt_release|by eexists]. Qed.

Lemma exit_fast_recovery_frame c a :
  inflight_queue (exit_fast_recovery c a) = inflight_queue a /\ frame (exit_fast_recovery c a) = frame a.
Proof. unfold exit_fast_recovery. by case_match. Qed.

(** The chunk at the head is acknowledged. *)
Lemma cumulative_step fuel now cum t rest k a :
  flight t (inflight_queue a) -> sorted (inflight_queue a) = t :: rest -> sna32lte t cum = true ->
  exists k' a', cumulative_loop (S fuel) false now cum t k a = cumulative_loop fuel false now cum (as_u32 (t + 1)) k' a' /\
    flight (as_u32 (t + 1)) (inflight_queue a') /\ sorted (inflight_queue a') = rest /\
    chunk_map (inflight_queue a') = delete t (chunk_map (inflight_queue a)) /\
    balance a k (inflight_queue a) k' (inflight_queue a') /\ htna k' = htna k /\ frame a' = frame a.
Proof.
  intros Hf Hs E. destruct (flight_pop false t _ rest Hf Hs) as (c & q' & Hpop & Hc & Hf' & Hs' & Hm' & Hw).
  pose proof (fl_acked _ _ Hf t c Hc) as Hack.
  cbn [cumulative_loop]. rewrite E. stm_step. rewrite (bind_lift _ _ _ _ Hpop). cbv beta iota. stm_step. cbn [acknowledge].
  set (a1 := a <| inflight_queue := q' |>).
  destruct (acknowledged c) eqn:Hd; cbn [negb].
  - do 2 stm_step. pose proof (exit_fast_recovery_frame (set_flags c true (abandoned c) false) a1) as [Hq Hfr].
    eexists k, _. split; [reflexivity|]. rewrite Hq. split_and!; try done.
    apply balance_refl. intros P. change (inflight_queue a1) with q'. rewrite (Hw P), (Hack eq_refl).
    change (zlen (@nil Z)) with 0. by destruct (P c).
  - do 3 stm_step. cbn [set_flags abandoned nsent tsn user_data].
    match goal with |- context [((if ?b then measure_rtt false now ?d else mret tt) ≫= _) ?x] =>
      destruct (measured_release b now d x) as (a2 & Hm & Hq2 & Hfr2) end.
    rewrite (bind_run _ _ _ _ _ Hm). do 2 stm_step.
    match goal with |- context [exit_fast_recovery ?d a2] => pose proof (exit_fast_recovery_frame d a2) as [Hq Hfr] end.
    eexists _, _. split; [reflexivity|]. rewrite Hq, Hq2, Hfr, Hfr2. split_and!; try done.
    by apply (balance_count a _ _ c).
Qed.

(** [m] chunks leave from the head of the queue. *)
Lemma cumulative_loop_spec now m : forall fuel t k a,
  flight t (inflight_queue a) -> (m <= length (sorted (inflight_queue a)))%nat -> (m <= fuel)%nat ->
  exists k' a', cumulative_loop fuel false now (as_u32 (t + Z.of_nat m - 1)) t k a = (Ok k', a') /\
    flight (as_u32 (t + Z.of_nat m)) (inflight_queue a') /\
    sorted (inflight_queue a') = drop m (sorted (inflight_queue a)) /\
    (forall x, x ∈ drop m (sorted (inflight_queue a)) -> chunk_map (inflight_queue a') !! x = chunk_map (inflight_queue a) !! x) /\
    balance a k (inflight_queue a) k' (inflight_queue a') /\ htna k' = htna k /\ frame a' = frame a.
Proof.
  induction m as [|m IH]; intros fuel t k a Hf Hlen Hfuel; pose proof (fl_start _ _ Hf) as Ht; pose proof (fl_short _ _ Hf) as Hshort.
  { assert (E : sna32lte t (as_u32 (t + Z.of_nat 0 - 1)) = false).
    { apply not_true_iff_false. rewrite sna32lte_spec by (done || apply as_u32_range). unfold off32, as_u32, is_u32 in *. mlia. }
    exists k, a. split; [destruct fuel; cbn [cumulative_loop]; by rewrite E|].
    rewrite Z.add_0_r, as_u32_id by done. split_and!; try done. by apply balance_refl. }
  destruct fuel as [|fuel]; [lia|].
  assert (Hs : exists rest, sorted (inflight_queue a) = t :: rest).
  { rewrite (fl_tsns _ _ Hf). destruct (length (sorted (inflight_queue a))); [lia|]. by eexists. }
  destruct Hs as [rest Hs]. pose proof (flight_NoDup _ _ Hf) as Hnd. rewrite Hs in Hnd. apply NoDup_cons in Hnd as [Hnin _].
  assert (E : sna32lte t (as_u32 (t + Z.of_nat (S m) - 1)) = true).
  { apply sna32lte_spec; [done|apply as_u32_range|]. unfold off32, as_u32, is_u32 in *. mlia. }
  destruct (cumulative_step fuel now _ t rest k a Hf Hs E) as (k1 & a1 & -> & Hf1 & Hs1 & Hm1 & Hb1 & Hh1 & Hfr1).
  rewrite Hs in Hlen. cbn [length] in Hlen.
  assert (Ec : as_u32 (t + Z.of_nat (S m) - 1) = as_u32 (as_u32 (t + 1) + Z.of_nat m - 1)) by (unfold as_u32; mlia).
  rewrite Ec. destruct (IH fuel (as_u32 (t + 1)) k1 a1) as (k' & a' & Hl & Hf' & Hs' & Hm' & Hb' & Hh' & Hfr');
    [done|rewrite Hs1; lia|lia|].
  exists k', a'. split; [exact Hl|]. rewrite Hs. cbn [drop]. rewrite Hs1 in Hs', Hm'.
  split_and!; [|done| | |congruence|congruence].
  - rewrite as_u32_add_assoc in Hf'. replace (t + Z.of_nat (S m)) with (t + (1 + Z.of_nat m)) by lia. done.
  - intros x Hx. rewrite Hm', Hm1 by done. apply lookup_delete_ne. intros ->. apply Hnin.
    rewrite <- (take_drop m rest). apply elem_of_app. by right.
  - eapply balance_trans; [done|]. by apply (balance_streams a1 a), frame_streams.
Qed.

(** A chunk the peer reports beyond the cumulative TSN: acknowledged and emptied. *)
Definition sacked (c : ChunkPayloadData) : ChunkPayloadData := clear_user_data (acknowledge c).2.

Lemma sacked_idem c : sacked (sacked c) = sacked c.
Proof. by destruct c. Qed.

Lemma acknowledged_sacked c : acknowledged c = true -> user_data c = [] -> (acknowledge c).2 = sacked c.
Proof. destruct c; cbn. intros -> ->. reflexivity. Qed.

(** [acknowledge] and [release_payload] of one TSN in flight. *)
Lemma flight_sack t q x c : flight t q -> chunk_map q !! x = Some c -> acknowledged c = false ->
  exists q', release_payload false (PayloadQueue_acknowledge q x).2 x = Ok (zlen (user_data c), q') /\
    flight t q' /\ sorted q' = sorted q /\ chunk_map q' = <[x := sacked c]> (chunk_map q) /\
    (forall P, weigh P q = (if P c then zlen (user_data c) else 0) + weigh P q').
Proof.
  intros Hf Hc Hn. pose proof (flight_replace t q x c (sacked c) Hf Hc (fl_key _ _ Hf x c Hc) ltac:(done)) as [Hf' Hw].
  change (zlen (user_data (sacked c))) with 0 in Hf', Hw. rewrite Z.add_0_r in Hf', Hw.
  assert (Hle : zlen (user_data c) <= pq_n_bytes q).
  { pose proof (fl_bytes _ _ Hf') as E. cbn [pq_n_bytes] in E.
    pose proof (zsum_nonneg (payload_len (<[x:=sacked c]> (chunk_map q))) (sorted q) (payload_len_nonneg _)).
    cbn [chunk_map sorted] in E. lia. }
  unfold release_payload, PayloadQueue_acknowledge. rewrite Hc. cbn [acknowledge snd chunk_map pq_n_bytes sorted dup_tsn].
  rewrite lookup_insert_eq. cbn [set_flags user_data]. rewrite sub_ovf_Ok by done. cbn [mbind outcome_bind].
  rewrite insert_insert_eq.
  exists (mkPayloadQueue (<[x := sacked c]> (chunk_map q)) (sorted q) (dup_tsn q) (pq_n_bytes q - zlen (user_data c))).
  split; [reflexivity|]. split; [exact Hf'|]. split; [done|]. split; [done|].
  intros P. rewrite (Hw P). destruct (P (sacked c)); lia.
Qed.

Lemma PayloadQueue_acknowledge_again t q x c : flight t q -> chunk_map q !! x = Some c -> acknowledged c = true ->
  let q' := (PayloadQueue_acknowledge q x).2 in
  flight t q' /\ sorted q' = sorted q /\ chunk_map q' = <[x := sacked c]> (chunk_map q) /\ (forall P, weigh P q = weigh P q').
Proof.
  intros Hf Hc Hn. pose proof (fl_acked _ _ Hf x c Hc Hn) as He.
  pose proof (flight_replace t q x c (sacked c) Hf Hc (fl_key _ _ Hf x c Hc) ltac:(done)) as [Hf' Hw].
  change (zlen (user_data (sacked c))) with 0 in Hf', Hw. rewrite He in Hf', Hw. change (zlen (@nil Z)) with 0 in Hf', Hw.
  rewrite Z.sub_0_r, Z.add_0_r in Hf', Hw.
  unfold PayloadQueue_acknowledge. rewrite Hc. cbn [snd]. pose proof (acknowledged_sacked c Hn He) as E.
  destruct (acknowledge c) as [n c'] eqn:Ea. cbn [snd] in E |- *. subst c'.
  cbn zeta. cbn [sorted chunk_map]. split_and!; try done. intros P. rewrite (Hw P). destruct (P c), (P (sacked c)); lia.
Qed.

Lemma gap_acked_spec now t x c k a :
  flight t (inflight_queue a) -> chunk_map (inflight_queue a) !! x = Some c ->
  exists k' a', gap_acked false now x k a = (Ok k', a') /\ flight t (inflight_queue a') /\
    sorted (inflight_queue a') = sorted (inflight_queue a) /\
    chunk_map (inflight_queue a') = <[x := sacked c]> (chunk_map (inflight_queue a)) /\
    balance a k (inflight_queue a) k' (inflight_queue a') /\
    (htna k' = htna k \/ htna k' = x) /\ frame a' = frame a.
Proof.
  intros Hf Hc. unfold gap_acked. stm_step.
  assert (Hnew : (PayloadQueue_acknowledge (inflight_queue a) x).1 = negb (acknowledged c))
    by (unfold PayloadQueue_acknowledge; by rewrite Hc).
  destruct (acknowledged c) eqn:Hd.
  - pose proof (PayloadQueue_acknowledge_again t _ x c Hf Hc Hd) as (Hf' & Hs' & Hm' & Hw').
    destruct (PayloadQueue_acknowledge (inflight_queue a) x) as [newly q]. cbn [fst snd negb] in *. subst newly.
    do 3 stm_step. unfold PayloadQueue_get at 1.
    match goal with |- context [chunk_map (inflight_queue ?y) !! x] => change (inflight_queue y) with q end.
    rewrite Hm', lookup_insert_eq.
    eexists k, _. split; [reflexivity|]. split_and!; try done; [by apply balance_refl|by left].
  - pose proof (flight_sack t _ x c Hf Hc Hd) as (q' & Hr & Hf' & Hs' & Hm' & Hw').
    destruct (PayloadQueue_acknowledge (inflight_queue a) x) as [newly q]. cbn [fst snd negb] in *. subst newly.
    do 2 stm_step. rewrite (bind_lift _ _ _ _ Hr). repeat stm_step.
    unfold PayloadQueue_get at 1.
    match goal with |- context [chunk_map (inflight_queue ?y) !! x] => change (inflight_queue y) with q' end.
    rewrite Hm', lookup_insert_eq.
    match goal with |- context [((if ?b then measure_rtt false now ?d else mret tt) ≫= _) ?y] =>
      destruct (measured_release b now d y) as (a2 & Hm & Hq2 & Hfr2) end.
    rewrite (bind_run _ _ _ _ _ Hm). eexists _, _. split; [reflexivity|]. rewrite Hq2. split_and!; try done.
    + match goal with |- balance _ _ _ ?kk _ => change kk with kk end.
      pose proof (balance_count a (a <| inflight_queue := q' |>) (sacked c) c (zlen (user_data c)) k (inflight_queue a) q'
                    Hw' eq_refl eq_refl eq_refl) as [T S]. split; [exact T|exact S].
    + cbn [htna count_acked]. destruct (sna32lt _ _); [by right|by left].
Qed.

(** All the TSNs of the gap ack blocks. *)
Lemma gap_acked_all_spec now t xs : forall k a,
  flight t (inflight_queue a) -> Forall (fun x => x ∈ sorted (inflight_queue a)) xs ->
  exists k' a', gap_acked_all false now xs k a = (Ok k', a') /\ flight t (inflight_queue a') /\
    sorted (inflight_queue a') = sorted (inflight_queue a) /\
    (forall x, chunk_map (inflight_queue a') !! x =
       (if bool_decide (x ∈ xs) then sacked else id) <$> chunk_map (inflight_queue a) !! x) /\
    balance a k (inflight_queue a) k' (inflight_queue a') /\
    (htna k' = htna k \/ htna k' ∈ xs) /\ frame a' = frame a.
Proof.
  induction xs as [|x xs IH]; intros k a Hf Hin.
  { exists k, a. split_and!; try done; [|by apply balance_refl|by left]. intros x.
    rewrite bool_decide_eq_false_2 by set_solver. by rewrite option_fmap_id. }
  apply Forall_cons in Hin as [Hx Hin]. destruct (proj1 (fl_dom _ _ Hf x) Hx) as [c Hc].
  destruct (gap_acked_spec now t x c k a Hf Hc) as (k1 & a1 & E1 & Hf1 & Hs1 & Hm1 & Hb1 & Hh1 & Hfr1).
  cbn [gap_acked_all]. rewrite (bind_run _ _ _ _ _ E1).
  destruct (IH k1 a1 Hf1) as (k' & a' & E & Hf' & Hs' & Hm' & Hb' & Hh' & Hfr'); [by rewrite Hs1|].
  exists k', a'. split; [exact E|]. split_and!; [done|congruence| | |rewrite elem_of_cons; intuition congruence|congruence].
  - intros y. rewrite Hm', Hm1. destruct (decide (x = y)) as [<-|Hne].
    + rewrite lookup_insert_eq, Hc, bool_decide_eq_true_2 with (P := x ∈ x :: xs) by left. cbn [fmap option_fmap option_map].
      f_equal. case_bool_decide; [apply sacked_idem|done].
    + rewrite lookup_insert_ne by done. f_equal. by rewrite (bool_decide_ext (y ∈ x :: xs) (y ∈ xs)) by set_solver.
  - eapply balance_trans; [done|]. by apply (balance_streams a1 a), frame_streams.
Qed.

(** * The SACK as a whole *)

(** The SACK acknowledges, of the [n] TSNs in flight after [point], the first [m] and
    some of the others. *)
Record sack_fits (point : Z) (q : PayloadQueue) (d : ChunkSelectiveAck) (m : nat) : Prop := mkSackFits {
  fits_m : (m <= length (sorted q))%nat;
  fits_cum : sack_cumulative_tsn_ack d = as_u32 (point + Z.of_nat m);
  fits_gaps : Forall (fun x => x ∈ drop m (sorted q)) (gap_tsns d)
}.

Lemma process_selective_ack_spec d now m a :
  is_u32 (cumulative_tsn_ack_point a) -> flight (as_u32 (cumulative_tsn_ack_point a + 1)) (inflight_queue a) ->
  sack_fits (cumulative_tsn_ack_point a) (inflight_queue a) d m ->
  exists k a', process_selective_ack false d now a = (Ok k, a') /\
    flight (as_u32 (sack_cumulative_tsn_ack d + 1)) (inflight_queue a') /\
    sorted (inflight_queue a') = drop m (sorted (inflight_queue a)) /\
    (forall x, x ∈ sorted (inflight_queue a') -> chunk_map (inflight_queue a') !! x =
       (if bool_decide (x ∈ gap_tsns d) then sacked else id) <$> chunk_map (inflight_queue a) !! x) /\
    balance a (mkAcked ∅ 0 false (sack_cumulative_tsn_ack d)) (inflight_queue a) k (inflight_queue a') /\
    (htna k = sack_cumulative_tsn_ack d \/ htna k ∈ sorted (inflight_queue a')) /\ frame a' = frame a.
Proof.
  intros Hp Hf [Hm Hc Hg]. unfold process_selective_ack. stm_step.
  assert (Ec : sack_cumulative_tsn_ack d = as_u32 (as_u32 (cumulative_tsn_ack_point a + 1) + Z.of_nat m - 1))
    by (rewrite Hc; unfold as_u32; mlia).
  destruct (cumulative_loop_spec now m (S (length (sorted (inflight_queue a)))) _
              (mkAcked ∅ 0 false (sack_cumulative_tsn_ack d)) a Hf Hm ltac:(lia))
    as (k1 & a1 & E1 & Hf1 & Hs1 & Hm1 & Hb1 & Hh1 & Hfr1).
  rewrite <- Ec in E1. rewrite (bind_run _ _ _ _ _ E1).
  assert (Et : as_u32 (as_u32 (cumulative_tsn_ack_point a + 1) + Z.of_nat m) = as_u32 (sack_cumulative_tsn_ack d + 1))
    by (rewrite Hc; unfold as_u32; mlia).
  rewrite Et in Hf1.
  destruct (gap_acked_all_spec now _ (gap_tsns d) k1 a1 Hf1) as (k & a2 & E2 & Hf2 & Hs2 & Hm2 & Hb2 & Hh2 & Hfr2);
    [by rewrite Hs1|].
  rewrite (bind_run _ _ _ _ _ E2).
  assert (Hfin : forall b f, (forall x, inflight_queue (f x) = inflight_queue x /\ frame (f x) = frame x) ->
    exists a3, ((if b : bool then modify (fun a => a <| timers ::= reset_retrans T3RTX |>) else mret tt) ;;
                modify f ;; mret k : AM Acked) a2 = (Ok k, a3) /\ inflight_queue a3 = inflight_queue a2 /\ frame a3 = frame a2).
  { intros b f Hff. destruct b; repeat stm_step; eexists; split; try reflexivity; [|apply Hff].
    destruct (Hff (a2 <| timers ::= reset_retrans T3RTX |>)) as [-> ->]. done. }
  match goal with |- context [modify ?f ≫= _] => match f with context [sna32lte] => destruct (Hfin (newly_acked_data k) f) as (a3 & E3 & Hq3 & Hfr3) end end.
  { intros x. repeat case_match; done. }
  exists k, a3. split; [exact E3|]. rewrite Hq3, Hfr3. rewrite Hs2, Hs1. split_and!; [done|done| | | |congruence].
  - intros x Hx. by rewrite Hm2, Hm1.
  - eapply balance_trans; [exact Hb1|]. apply (balance_streams a1 a); [done|]. by apply frame_streams.
  - rewrite Hh1 in Hh2. cbn [htna] in Hh2. destruct Hh2 as [?|Hin]; [by left|right].
    rewrite Forall_forall in Hg. auto.
Qed.

(** ** The streams *)

Lemma release_one_streams i n a sid :
  as_streams (release_one i n a) !! sid =
  (if decide (i = sid) then fun s => (on_buffer_released s n).2 else id) <$> as_streams a !! sid.
Proof.
  unfold release_one. set (b := if 0 <? n then push_event _ a else a).
  assert (E : as_streams b = as_streams a) by (unfold b; by case_match). rewrite E.
  destruct (as_streams a !! i) as [s|] eqn:Hi.
  - destruct (on_buffer_released s n) as [low s'] eqn:Hr.
    assert (E2 : forall x : Association, as_streams (if low then push_event (EvStream (BufferedAmountLow i)) x else x) = as_streams x)
      by (intros; by destruct low).
    rewrite E2. unfold update_stream. change (as_streams (b <| as_streams ::= insert i s' |>)) with (<[i := s']> (as_streams b)).
    rewrite E. destruct (decide (i = sid)) as [<-|Hne].
    + rewrite lookup_insert_eq, Hi. cbn. by rewrite Hr.
    + rewrite lookup_insert_ne by done. by rewrite option_fmap_id.
  - rewrite E. destruct (decide (i = sid)) as [<-|Hne]; [by rewrite Hi|by rewrite option_fmap_id].
Qed.

(** Everything but the streams and the event queue. *)
Definition apart (a : Association) :=
  (inflight_queue a, cumulative_tsn_ack_point a, advanced_peer_tsn_ack_point a, my_next_tsn a, use_forward_tsn a, rwnd a).

Lemma release_one_apart i n a : apart (release_one i n a) = apart a.
Proof.
  unfold release_one. set (b := if 0 <? n then push_event _ a else a).
  assert (E : apart b = apart a) by (unfold b; by case_match). rewrite <- E.
  case_match; [|done]. destruct (on_buffer_released _ _) as [low s']. by destruct low.
Qed.

Lemma release_stream_buffers_spec (m : gmap Z Z) a :
  apart (release_stream_buffers m a) = apart a /\
  forall sid, as_streams (release_stream_buffers m a) !! sid =
    (fun s => (on_buffer_released s (default 0 (m !! sid))).2) <$> as_streams a !! sid.
Proof.
  unfold release_stream_buffers. set (f := fun a (p : Z * Z) => release_one p.1 p.2 a).
  assert (H : forall l a, NoDup l.*1 -> apart (foldl f a l) = apart a /\
    forall sid, as_streams (foldl f a l) !! sid =
      (fun s => (on_buffer_released s (default 0 ((list_to_map l : gmap Z Z) !! sid))).2) <$> as_streams a !! sid).
  { clear a. induction l as [|[i n] l IH]; intros a Hnd.
    - split; [done|]. intros sid. cbn. rewrite lookup_empty. by destruct (as_streams a !! sid).
    - cbn in Hnd. apply NoDup_cons in Hnd as [Hni Hnd]. destruct (IH (f a (i, n)) Hnd) as [H1 H2]. cbn [foldl].
      split; [rewrite H1; apply release_one_apart|]. intros sid. rewrite H2. unfold f at 1. cbn [fst snd].
      rewrite release_one_streams. cbn [list_to_map foldr uncurry]. destruct (decide (i = sid)) as [<-|Hne].
      + rewrite lookup_insert_eq, not_elem_of_list_to_map_1 by done. cbn [default from_option id].
        destruct (as_streams a !! i) as [s|]; [|done]. cbn. done.
      + rewrite lookup_insert_ne by done. by destruct (as_streams a !! sid). }
  destruct (H (map_to_list m) a (NoDup_fst_map_to_list m)) as [H1 H2]. split; [exact H1|].
  intros sid. rewrite H2. by rewrite list_to_map_to_list.
Qed.

(** ** Congestion control *)

Lemma add_ovf_release {E} m x y : exists z, add_ovf (E:=E) false m x y = Ok z.
Proof. unfold add_ovf. case_match; eauto. Qed.
Lemma mul_ovf_release {E} m x y : exists z, mul_ovf (E:=E) false m x y = Ok z.
Proof. unfold mul_ovf. case_match; eauto. Qed.

(** Everything but the congestion window and the timers. *)
Definition uncongested (a : Association) := (apart a, as_streams a).

Lemma on_cumulative_tsn_ack_point_advanced_release total now a : exists a',
  on_cumulative_tsn_ack_point_advanced false total now a = (Ok tt, a') /\ uncongested a' = uncongested a.
Proof.
  unfold on_cumulative_tsn_ack_point_advanced. do 2 stm_step.
  match goal with |- context [cwnd ?x <=? ssthresh _] => set (b := x) end.
  assert (E : uncongested b = uncongested a) by (unfold b, start_t3; by case_match). rewrite <- E. clearbody b. clear E.
  destruct (cwnd b <=? ssthresh b).
  - destruct (negb _ && negb _); [|by exists b].
    destruct (add_ovf_release (E:=Error) U32 (cwnd b) (Z.min (as_u32 total) (cwnd b))) as [w Hw].
    rewrite (bind_lift _ _ _ _ Hw). by eexists.
  - destruct (add_ovf_release (E:=Error) U32 (partial_bytes_acked b) (as_u32 total)) as [p Hp].
    rewrite (bind_lift _ _ _ _ Hp). stm_step. destruct (_ && _); [|by eexists].
    destruct (add_ovf_release (E:=Error) U32 (cwnd b) (mtu b)) as [w Hw].
    rewrite (bind_lift _ _ _ _ Hw). by eexists.
Qed.

(** ** Missing reports *)

Definition unmissed (c : ChunkPayloadData) : ChunkPayloadData := c <| miss_indicator := 0 |>.

(** Two queues that differ in the missing reports of their chunks only. *)
Definition alike (q q' : PayloadQueue) : Prop :=
  sorted q' = sorted q /\ forall x, unmissed <$> chunk_map q' !! x = unmissed <$> chunk_map q !! x.

Lemma alike_refl q : alike q q.
Proof. done. Qed.
Lemma alike_trans q q' q'' : alike q q' -> alike q' q'' -> alike q q''.
Proof. intros [S1 M1] [S2 M2]. split; [congruence|]. intros x. by rewrite M2, M1. Qed.

Lemma weigh_alike P q q' : (forall c, P (unmissed c) = P c) -> alike q q' -> weigh P q' = weigh P q.
Proof.
  intros HP [S M]. unfold weigh. rewrite S. apply zsum_ext. intros x _. specialize (M x). unfold weight.
  destruct (chunk_map q' !! x) as [c'|], (chunk_map q !! x) as [c|]; try done. apply (inj Some) in M.
  rewrite <- (HP c'), <- (HP c), M. change (user_data c') with (user_data (unmissed c')). by rewrite M.
Qed.

Lemma flight_miss t q x c n : flight t q -> chunk_map q !! x = Some c ->
  let q' := mkPayloadQueue (<[x := c <| miss_indicator := n |>]> (chunk_map q)) (sorted q) (dup_tsn q) (pq_n_bytes q) in
  flight t q' /\ alike q q'.
Proof.
  intros Hf Hc. pose proof (flight_replace t q x c (c <| miss_indicator := n |>) Hf Hc) as [Hf' _].
  { exact (fl_key _ _ Hf x c Hc). }
  { exact (fl_acked _ _ Hf x c Hc). }
  change (user_data (c <| miss_indicator := n |>)) with (user_data c) in Hf'. rewrite Z.sub_add in Hf'.
  split; [exact Hf'|]. split; [done|]. intros y. cbn [chunk_map]. destruct (decide (x = y)) as [<-|Hne].
  - by rewrite lookup_insert_eq, Hc.
  - by rewrite lookup_insert_ne.
Qed.

Definition calm (a : Association) := (cumulative_tsn_ack_point a, advanced_peer_tsn_ack_point a, my_next_tsn a, use_forward_tsn a, rwnd a, as_streams a).

Lemma miss_loop_spec base htna max_tsn : is_u32 max_tsn -> forall fuel t a,
  flight base (inflight_queue a) -> is_u32 t ->
  (0 < off32 t max_tsn < 2147483648 -> off32 t max_tsn <= Z.of_nat fuel) ->
  (0 < off32 t max_tsn < 2147483648 ->
   forall x, is_u32 x -> 0 < off32 x max_tsn <= off32 t max_tsn -> x ∈ sorted (inflight_queue a)) ->
  exists a', miss_loop fuel false htna max_tsn t a = (Ok tt, a') /\
    flight base (inflight_queue a') /\ alike (inflight_queue a) (inflight_queue a') /\ calm a' = calm a.
Proof.
  intros Hmax. induction fuel as [|fuel IH]; intros t a Hf Ht Hfuel Hin; pose proof (sna32lt_spec t max_tsn Ht Hmax) as Hlt;
    cbn [miss_loop]; destruct (sna32lt t max_tsn).
  - specialize (proj1 Hlt eq_refl) as H. specialize (Hfuel H). lia.
  - by exists a.
  - specialize (proj1 Hlt eq_refl) as H. stm_step.
    destruct (proj1 (fl_dom _ _ Hf t)) as [c Hc]; [apply Hin; [done|done|lia]|].
    unfold PayloadQueue_get. rewrite Hc.
    match goal with |- context [(?m ≫= _) a] =>
      assert (Hbody : exists a1, m a = (Ok tt, a1) /\ flight base (inflight_queue a1) /\
        alike (inflight_queue a) (inflight_queue a1) /\ calm a1 = calm a) end.
    { destruct (is_outstanding c && (miss_indicator c <? 3)); [|by exists a].
      pose proof (flight_miss base _ t c (miss_indicator c + 1) Hf Hc) as [Hf1 Ha1].
      stm_step. destruct (_ && _); [|by eexists].
      assert (Hs : exists s, reduced_ssthresh false a = Ok s).
      { unfold reduced_ssthresh. destruct (mul_ovf_release (E:=Error) U32 4 (mtu a)) as [z ->]. by eexists. }
      destruct Hs as [s Hs]. rewrite (bind_lift _ _ _ _ Hs). by eexists. }
    destruct Hbody as (a1 & E1 & Hf1 & Ha1 & Hc1). rewrite (bind_run _ _ _ _ _ E1).
    assert (Ho : off32 (as_u32 (t + 1)) max_tsn = off32 t max_tsn - 1) by (unfold off32, as_u32, is_u32 in *; mlia).
    destruct (IH (as_u32 (t + 1)) a1 Hf1 (as_u32_range _)) as (a' & E & Hf' & Ha' & Hc').
    + lia.
    + intros Ho' x Hx Hxo. rewrite (proj1 Ha1). apply Hin; [done|done|lia].
    + exists a'. split; [exact E|]. split_and!; [done|by eapply alike_trans|congruence].
  - by exists a.
Qed.

Lemma flight_size t q : flight t q -> size (chunk_map q) = length (sorted q).
Proof.
  intros Hf. rewrite <- size_dom. rewrite <- (size_list_to_set (C:=gset Z) (sorted q) (flight_NoDup _ _ Hf)).
  f_equal. apply set_eq. intros x. rewrite elem_of_dom, elem_of_list_to_set. symmetry. apply (fl_dom _ _ Hf).
Qed.

Lemma process_fast_retransmission_release cum htna advanced a :
  is_u32 cum -> flight (as_u32 (cum + 1)) (inflight_queue a) -> htna = cum \/ htna ∈ sorted (inflight_queue a) ->
  exists a', process_fast_retransmission false cum htna advanced a = (Ok tt, a') /\
    flight (as_u32 (cum + 1)) (inflight_queue a') /\ alike (inflight_queue a) (inflight_queue a') /\ calm a' = calm a.
Proof.
  intros Hc Hf Hh. pose proof (fl_short _ _ Hf) as Hshort. unfold process_fast_retransmission. stm_step.
  assert (Hend : forall a1, exists a', modify (E:=Error) (fun a => if in_fast_recovery a && advanced then a <| will_retransmit_fast := true |> else a) a1
    = (Ok tt, a') /\ inflight_queue a' = inflight_queue a1 /\ calm a' = calm a1).
  { intros a1. eexists. split; [reflexivity|]. by destruct (_ && _). }
  assert (Hloop : forall max_tsn, is_u32 max_tsn ->
    off32 (as_u32 (cum + 1)) max_tsn <= Z.of_nat (length (sorted (inflight_queue a))) \/ max_tsn = cum ->
    exists a', miss_loop (S (length (sorted (inflight_queue a)))) false htna max_tsn (as_u32 (cum + 1)) a = (Ok tt, a') /\
    flight (as_u32 (cum + 1)) (inflight_queue a') /\ alike (inflight_queue a) (inflight_queue a') /\ calm a' = calm a).
  { intros max_tsn Hu Hm. assert (Hcum : off32 (as_u32 (cum + 1)) cum = 4294967295) by (unfold off32, as_u32, is_u32 in *; mlia).
    apply (miss_loop_spec (as_u32 (cum + 1))); [done|done|apply as_u32_range| |].
    - intros H. destruct Hm as [Hm| ->]; lia.
    - intros H x Hx Hxo. destruct Hm as [Hm| ->]; [|lia]. apply (flight_elem _ _ _ Hf). split; [done|].
      assert (off32 (as_u32 (cum + 1)) x = off32 (as_u32 (cum + 1)) max_tsn - off32 x max_tsn)
        by (unfold off32, as_u32, is_u32 in *; mlia). lia. }
  destruct (negb (in_fast_recovery a) || advanced) eqn:Hg.
  - rewrite bind_assoc.
    match goal with |- context [((if _ then mret htna else ?m) ≫= _) a] =>
      assert (Hmax : exists x, (if negb (in_fast_recovery a) then mret htna else m) a = (Ok x, a) /\ is_u32 x /\
        (off32 (as_u32 (cum + 1)) x <= Z.of_nat (length (sorted (inflight_queue a))) \/ x = cum)) end.
    { destruct (in_fast_recovery a); cbn [negb].
      - unfold PayloadQueue_len. rewrite (flight_size _ _ Hf).
        assert (Ha : add_ovf (E:=Error) false U32 (as_u32 (Z.of_nat (length (sorted (inflight_queue a))))) 1 =
                     Ok (Z.of_nat (length (sorted (inflight_queue a))) + 1)).
        { rewrite as_u32_id by (unfold is_u32; lia). apply add_ovf_Ok. unfold U32. lia. }
        rewrite (bind_lift _ _ _ _ Ha). eexists. split; [reflexivity|]. split; [apply as_u32_range|]. left.
        unfold off32, as_u32, is_u32 in *. mlia.
      - exists htna. split; [reflexivity|]. destruct Hh as [->|Hin]; [by split; [|right]|].
        apply (flight_elem _ _ _ Hf) in Hin as [? ?]. split; [done|]. left. lia. }
    destruct Hmax as (x & Hx & Hu & Hm). rewrite (bind_run _ _ _ _ _ Hx).
    destruct (Hloop x Hu Hm) as (a1 & E1 & Hf1 & Ha1 & Hc1). rewrite (bind_run _ _ _ _ _ E1).
    destruct (Hend a1) as (a' & E & Hq & Hc'). exists a'. rewrite Hq, Hc'. done.
  - stm_step. destruct (Hend a) as (a' & E & Hq & Hc'). exists a'. rewrite Hq, Hc'. done.
Qed.

(** ** The advanced ack point *)

Lemma note_abandoned_keeps u si ssn a :
  inflight_queue (note_abandoned_for_forward_tsn u si ssn a) = inflight_queue a /\
  cumulative_tsn_ack_point (note_abandoned_for_forward_tsn u si ssn a) = cumulative_tsn_ack_point a /\
  (as_streams (note_abandoned_for_forward_tsn u si ssn a), my_next_tsn (note_abandoned_for_forward_tsn u si ssn a),
   rwnd (note_abandoned_for_forward_tsn u si ssn a)) = (as_streams a, my_next_tsn a, rwnd a).
Proof. unfold note_abandoned_for_forward_tsn. by destruct u. Qed.

Lemma advance_ack_loop_total base : forall fuel t a,
  flight base (inflight_queue a) -> is_u32 t ->
  (t ∈ sorted (inflight_queue a) -> Z.of_nat (length (sorted (inflight_queue a))) - off32 base t < Z.of_nat fuel) -> (0 < fuel)%nat ->
  exists a', advance_ack_loop fuel t a = Ok a' /\ inflight_queue a' = inflight_queue a /\
    cumulative_tsn_ack_point a' = cumulative_tsn_ack_point a /\
    (as_streams a', my_next_tsn a', rwnd a') = (as_streams a, my_next_tsn a, rwnd a).
Proof.
  induction fuel as [|fuel IH]; intros t a Hf Ht Hfuel Hpos; [lia|]. cbn [advance_ack_loop].
  unfold PayloadQueue_get. destruct (chunk_map (inflight_queue a) !! t) as [c|] eqn:Hc; [|by exists a].
  destruct (negb (abandoned c)); [by exists a|].
  assert (Hin : t ∈ sorted (inflight_queue a)) by (apply (fl_dom _ _ Hf); eauto).
  specialize (Hfuel Hin). pose proof (fl_short _ _ Hf) as Hs. pose proof (proj1 (flight_elem _ _ _ Hf) Hin) as [_ Ho].
  match goal with |- context [advance_ack_loop fuel _ ?x] => set (b := x) end.
  pose proof (note_abandoned_keeps (unordered c) (stream_identifier c) (stream_sequence_number c) (a <| advanced_peer_tsn_ack_point := t |>)) as (H1 & H2 & H3).
  fold b in H1, H2, H3. change (inflight_queue b = inflight_queue a) in H1.
  change (cumulative_tsn_ack_point b = cumulative_tsn_ack_point a) in H2.
  destruct (IH (as_u32 (t + 1)) b) as (a' & E & Hq & Hp & Hr); [by rewrite H1|apply as_u32_range| |lia|].
  - rewrite H1. intros Hin'. apply (flight_elem _ _ _ Hf) in Hin' as [_ Ho'].
    pose proof (fl_start _ _ Hf). assert (off32 base (as_u32 (t + 1)) = off32 base t + 1) by (unfold off32, as_u32, is_u32 in *; mlia). lia.
  - exists a'. split; [exact E|]. split_and!; [congruence|congruence|]. rewrite Hr. exact H3.
Qed.

Lemma advance_peer_ack_point_total base a : flight base (inflight_queue a) ->
  exists a', modify_result advance_peer_ack_point a = (Ok tt, a') /\ inflight_queue a' = inflight_queue a /\
    cumulative_tsn_ack_point a' = cumulative_tsn_ack_point a /\
    (as_streams a', my_next_tsn a', rwnd a') = (as_streams a, my_next_tsn a, rwnd a).
Proof.
  intros Hf. unfold modify_result, advance_peer_ack_point. rewrite (flight_size _ _ Hf).
  destruct (advance_ack_loop_total base (S (length (sorted (inflight_queue a)))) (as_u32 (advanced_peer_tsn_ack_point a + 1)) a Hf)
    as (a1 & -> & Hq & Hp & Hr); [apply as_u32_range| |lia|].
  { pose proof (off32_range base (as_u32 (advanced_peer_tsn_ack_point a + 1))). lia. }
  cbn [mbind outcome_bind]. eexists. split; [reflexivity|]. by case_match.
Qed.

(** ** [handle_sack] *)

(** The invariant of the sending side: the TSNs in flight are exactly those sent and
    not cumulatively acknowledged. *)
Record sending (a : Association) : Prop := mkSending {
  snd_point : is_u32 (cumulative_tsn_ack_point a);
  snd_flight : flight (as_u32 (cumulative_tsn_ack_point a + 1)) (inflight_queue a);
  snd_next : my_next_tsn a = as_u32 (cumulative_tsn_ack_point a + 1 + Z.of_nat (length (sorted (inflight_queue a))))
}.

(** What a chunk in flight is after the SACK, but for its missing reports. *)
Definition after_sack (d : ChunkSelectiveAck) (x : Z) (c : ChunkPayloadData) : ChunkPayloadData :=
  if bool_decide (x ∈ gap_tsns d) then sacked c else c.

(** The bytes of stream [sid] that left flight between [q] and [q']. *)
Definition left_flight (a : Association) (sid : Z) (q q' : PayloadQueue) : Z :=
  weigh (on_stream a sid) q - weigh (on_stream a sid) q'.

Record sack_done (a : Association) (d : ChunkSelectiveAck) (m : nat) (a' : Association) : Prop := mkSackDone {
  done_sending : sending a';
  done_point : cumulative_tsn_ack_point a' = sack_cumulative_tsn_ack d;
  done_rest : sorted (inflight_queue a') = drop m (sorted (inflight_queue a));
  done_chunks : forall x, x ∈ sorted (inflight_queue a') ->
    unmissed <$> chunk_map (inflight_queue a') !! x =
    (fun c => unmissed (after_sack d x c)) <$> chunk_map (inflight_queue a) !! x;
  done_streams : forall sid, as_streams a' !! sid =
    (fun s => (on_buffer_released s (left_flight a sid (inflight_queue a) (inflight_queue a'))).2) <$> as_streams a !! sid;
  done_rwnd : rwnd a' = Z.max 0 (sack_advertised_receiver_window_credit d - as_u32 (pq_n_bytes (inflight_queue a')))
}.

Lemma sack_advance total now cum a : exists a',
  (if sna32lt (cumulative_tsn_ack_point a) cum
   then modify (fun a => a <| cumulative_tsn_ack_point := cum |>) ;; on_cumulative_tsn_ack_point_advanced false total now
   else mret tt : AM unit) a = (Ok tt, a') /\
  cumulative_tsn_ack_point a' = (if sna32lt (cumulative_tsn_ack_point a) cum then cum else cumulative_tsn_ack_point a) /\
  (inflight_queue a', as_streams a', my_next_tsn a') = (inflight_queue a, as_streams a, my_next_tsn a).
Proof.
  destruct (sna32lt _ cum); [|by exists a]. stm_step.
  destruct (on_cumulative_tsn_ack_point_advanced_release total now (a <| cumulative_tsn_ack_point := cum |>)) as (a' & E & Hu).
  exists a'. split; [exact E|]. revert Hu. unfold uncongested, apart. by intros [= -> -> _ -> _ _ ->].
Qed.

(** Everything the FORWARD TSN point, the timers and the state do not touch. *)
Definition kernel (a : Association) :=
  (inflight_queue a, cumulative_tsn_ack_point a, (as_streams a, my_next_tsn a, rwnd a)).

Lemma sack_forward base state now a : flight base (inflight_queue a) -> exists a',
  ((if use_forward_tsn a then
      modify (fun a => if sna32lt (advanced_peer_tsn_ack_point a) (cumulative_tsn_ack_point a)
                       then a <| advanced_peer_tsn_ack_point := cumulative_tsn_ack_point a |> <| fwd_tsn_stream_map := ∅ |>
                       else a) ;;
      modify_result advance_peer_ack_point
    else mret tt) ;;
   modify (postprocess_sack state now) ;; mret [] : AM (list Packet)) a = (Ok [], a') /\ kernel a' = kernel a.
Proof.
  intros Hf.
  assert (Hpost : forall b : Association, kernel (postprocess_sack state now b) = kernel b).
  { intros b. unfold postprocess_sack, start_t3. case_match; [done|]. by case_match. }
  destruct (use_forward_tsn a).
  - rewrite bind_assoc, bind_modify. cbv beta.
    match goal with |- context [(modify_result _ ≫= _) ?x] => set (b := x) end.
    assert (Hb : kernel b = kernel a) by (unfold b; by case_match). clearbody b. injection Hb as Hb1 Hb2 Hb3 Hb4 Hb5.
    destruct (advance_peer_ack_point_total base b) as (c & E & H1 & H2 & H3); [by rewrite Hb1|].
    rewrite (bind_run _ _ _ _ _ E), bind_modify. eexists. split; [reflexivity|]. rewrite Hpost. unfold kernel. congruence.
  - rewrite bind_ret, bind_modify. eexists. split; [reflexivity|]. apply Hpost.
Qed.

Lemma sending_offset a d m : sending a -> sack_fits (cumulative_tsn_ack_point a) (inflight_queue a) d m ->
  off32 (cumulative_tsn_ack_point a) (sack_cumulative_tsn_ack d) = Z.of_nat m /\ is_u32 (sack_cumulative_tsn_ack d) /\ Z.of_nat m < 2147483648.
Proof.
  intros [Hp Hf _] [Hm Hc _]. pose proof (fl_short _ _ Hf). split_and!; [|rewrite Hc; apply as_u32_range|lia].
  rewrite Hc. unfold off32, as_u32, is_u32 in *. mlia.
Qed.

Lemma on_stream_unmissed a sid c : on_stream a sid (unmissed c) = on_stream a sid c.
Proof. done. Qed.

Lemma sack_done_intro a d m k q1 a' :
  sending a -> sack_fits (cumulative_tsn_ack_point a) (inflight_queue a) d m ->
  flight (as_u32 (sack_cumulative_tsn_ack d + 1)) q1 -> sorted q1 = drop m (sorted (inflight_queue a)) ->
  (forall x, x ∈ sorted q1 -> chunk_map q1 !! x =
     (if bool_decide (x ∈ gap_tsns d) then sacked else id) <$> chunk_map (inflight_queue a) !! x) ->
  balance a (mkAcked ∅ 0 false (sack_cumulative_tsn_ack d)) (inflight_queue a) k q1 ->
  alike q1 (inflight_queue a') -> flight (as_u32 (sack_cumulative_tsn_ack d + 1)) (inflight_queue a') ->
  cumulative_tsn_ack_point a' = sack_cumulative_tsn_ack d -> my_next_tsn a' = my_next_tsn a ->
  (forall sid, as_streams a' !! sid =
     (fun s => (on_buffer_released s (default 0 (bytes_acked_per_stream k !! sid))).2) <$> as_streams a !! sid) ->
  rwnd a' = Z.max 0 (sack_advertised_receiver_window_credit d - as_u32 (pq_n_bytes q1)) ->
  sack_done a d m a'.
Proof.
  intros [Hp Hf Hn] [Hm Hc _] Hf1 Hs1 Hc1 [_ Hbal] Ha Hf' Hpt Hmy Hst Hrw. pose proof Ha as [Hsa Hma].
  split.
  - split; rewrite Hpt; [rewrite Hc; apply as_u32_range|done|].
    rewrite Hmy, Hn, Hsa, Hs1, length_drop, Hc. unfold as_u32. mlia.
  - done.
  - congruence.
  - intros x Hx. rewrite Hma, Hc1 by (by rewrite <- Hsa). rewrite <- option_fmap_compose. unfold compose, after_sack.
    destruct (chunk_map (inflight_queue a) !! x); [|done]. cbn. by case_bool_decide.
  - intros sid. rewrite Hst. specialize (Hbal sid). cbn [bytes_acked_per_stream] in Hbal. rewrite lookup_empty in Hbal.
    cbn [default from_option id] in Hbal. unfold left_flight.
    rewrite (weigh_alike _ _ _ (on_stream_unmissed a sid) Ha).
    by replace (default 0 (bytes_acked_per_stream k !! sid)) with
      (weigh (on_stream a sid) (inflight_queue a) - weigh (on_stream a sid) q1) by lia.
  - rewrite Hrw. do 3 f_equal. rewrite <- (weigh_all _ _ Hf1), <- (weigh_all _ _ Hf'). symmetry. by apply weigh_alike.
Qed.

Lemma handle_sack_spec d now m a :
  as_state a ∈ [Established; ShutdownPending; ShutdownReceived] -> sending a ->
  sack_fits (cumulative_tsn_ack_point a) (inflight_queue a) d m ->
  exists a', handle_sack false d now a = (Ok [], a') /\ sack_done a d m a'.
Proof.
  intros Hst Hs Hfit. destruct (sending_offset a d m Hs Hfit) as (Ho & Hu & Hm). destruct Hs as [Hp Hf Hnext].
  unfold handle_sack. stm_step. rewrite bool_decide_eq_true_2 by done. cbn [negb]. stm_step.
  assert (Hgt : sna32gt (cumulative_tsn_ack_point a) (sack_cumulative_tsn_ack d) = false).
  { apply not_true_iff_false. rewrite sna32gt_spec by done. lia. }
  rewrite Hgt. set (a0 := a <| stats ::= _ |>).
  destruct (process_selective_ack_spec d now m a0 Hp Hf Hfit) as (k & a1 & E1 & Hf1 & Hs1 & Hm1 & Hb1 & Hh1 & Hfr1).
  apply (balance_streams a0 a) in Hb1; [|done]. rewrite (bind_run _ _ _ _ _ E1). stm_step.
  change (frame a0) with (frame a) in Hfr1. change (inflight_queue a0) with (inflight_queue a) in *. clear E1 a0.
  injection Hfr1 as _ Hpt _ Hmy Hstr _ _ _ _ _ _ _ _.
  destruct (sack_advance (total_bytes_acked k) now (sack_cumulative_tsn_ack d) a1) as (a2 & E2 & Hpt2 & Hk2).
  rewrite (bind_run _ _ _ _ _ E2). injection Hk2 as Hq2 Hstr2 Hmy2. do 2 stm_step.
  assert (Hpoint : cumulative_tsn_ack_point a2 = sack_cumulative_tsn_ack d).
  { rewrite Hpt2, Hpt. pose proof (sna32lt_spec (cumulative_tsn_ack_point a) (sack_cumulative_tsn_ack d) Hp Hu) as Hlt.
    destruct (sna32lt (cumulative_tsn_ack_point a) (sack_cumulative_tsn_ack d)); [done|]. apply (off32_inj (cumulative_tsn_ack_point a)); [done|done|]. rewrite off32_self, Ho.
    destruct m; [done|]. exfalso. enough (false = true) by done. apply Hlt. lia. }
  destruct (release_stream_buffers_spec (bytes_acked_per_stream k) a2) as [Hap Hsb].
  set (a3 := release_stream_buffers (bytes_acked_per_stream k) a2) in *. clearbody a3.
  injection Hap as Hq3 Hpt3 _ Hmy3 _ _. set (a4 := update_rwnd d a3).
  destruct (process_fast_retransmission_release (sack_cumulative_tsn_ack d) (htna k)
    (sna32lt (cumulative_tsn_ack_point a1) (sack_cumulative_tsn_ack d)) a4) as (a5 & E5 & Hf5 & Ha5 & Hc5); [done| | |].
  { change (inflight_queue a4) with (inflight_queue a3). by rewrite Hq3, Hq2. }
  { change (inflight_queue a4) with (inflight_queue a3). by rewrite Hq3, Hq2. }
  rewrite (bind_run _ _ _ _ _ E5). stm_step.
  destruct (sack_forward _ (as_state a) now a5 Hf5) as (a' & E' & Hk'). exists a'. split; [exact E'|].
  injection Hk' as Hq' Hpt' Hstr' Hmy' Hrw'. injection Hc5 as Hpt5 _ Hmy5 _ Hrw5 Hstr5.
  change (cumulative_tsn_ack_point a4) with (cumulative_tsn_ack_point a3) in Hpt5. change (my_next_tsn a4) with (my_next_tsn a3) in Hmy5.
  change (as_streams a4) with (as_streams a3) in Hstr5. change (inflight_queue a4) with (inflight_queue a3) in Ha5.
  rewrite Hq3, Hq2 in Ha5.
  apply (sack_done_intro a d m k (inflight_queue a1)); try done.
  - by rewrite Hq'.
  - by rewrite Hq'.
  - congruence.
  - congruence.
  - intros sid. by rewrite Hstr', Hstr5, Hsb, Hstr2, Hstr.
  - rewrite Hrw', Hrw5. 
    change (rwnd a4) with (if sack_advertised_receiver_window_credit d <=? as_u32 (pq_n_bytes (inflight_queue a3)) then 0
      else sack_advertised_receiver_window_credit d - as_u32 (pq_n_bytes (inflight_queue a3))).
    rewrite Hq3, Hq2.
    destruct (Z.leb_spec (sack_advertised_receiver_window_credit d) (as_u32 (pq_n_bytes (inflight_queue a1)))); lia.
Qed.

(** * New chunks *)

Lemma tsns_snoc t n : is_u32 t -> tsns t (S n) = tsns t n ++ [as_u32 (t + Z.of_nat n)].
Proof.
  revert t. induction n as [|n IH]; intros t Ht.
  { cbn. by rewrite Z.add_0_r, as_u32_id. }
  change (tsns t (S (S n))) with (t :: tsns (as_u32 (t + 1)) (S n)). rewrite IH by apply as_u32_range.
  rewrite as_u32_add_assoc. cbn [tsns app]. do 4 f_equal. lia.
Qed.

Lemma flight_push t q c : flight t q -> Z.of_nat (length (sorted q)) < 2147483647 ->
  tsn c = as_u32 (t + Z.of_nat (length (sorted q))) -> acknowledged c = false -> flight t (push_no_check q c).
Proof.
  intros Hf Hlen Hc Hack. pose proof (flight_elem t q) as Hel. specialize (fun x => Hel x Hf).
  destruct Hf as [Ht Hs Hn Hd Hk Hb Ha].
  assert (Hoff : off32 t (tsn c) = Z.of_nat (length (sorted q))) by (rewrite Hc; unfold off32, as_u32, is_u32 in *; mlia).
  assert (Hnin : tsn c ∉ sorted q) by (rewrite Hel; lia).
  assert (Hpp : partition_point (fun x => sna32lt x (tsn c)) (sorted q) = length (sorted q)).
  { apply partition_point_all, Forall_forall. intros x [Hx Hox]%Hel. apply sna32lt_spec; [done|rewrite Hc; apply as_u32_range|].
    unfold off32, is_u32 in *. mlia. }
  assert (Hsort : sorted (push_no_check q c) = sorted q ++ [tsn c]).
  { cbn [push_no_check sorted]. unfold insert_sorted, insert_at. rewrite Hpp, firstn_all, skipn_all. done. }
  split; rewrite ?Hsort; cbn [push_no_check chunk_map pq_n_bytes].
  - done.
  - rewrite length_app. cbn [length]. rewrite Nat.add_1_r, tsns_snoc, <- Hc, <- Hs by done. done.
  - rewrite length_app. cbn [length]. lia.
  - intros x. rewrite elem_of_app, list_elem_of_singleton, Hd, lookup_insert_is_Some. destruct (decide (tsn c = x)); naive_solver.
  - intros x d [[<- <-]|[_ ?]]%lookup_insert_Some; eauto.
  - rewrite zsum_app, zsum_cons. change (zsum _ (@nil Z)) with 0. unfold payload_len at 2. rewrite lookup_insert_eq, Hb.
    rewrite (zsum_ext (payload_len (<[tsn c := c]> (chunk_map q))) (payload_len (chunk_map q))); [lia|].
    intros x Hx. unfold payload_len. rewrite lookup_insert_ne; [done|]. congruence.
  - intros x d [[<- <-]|[_ ?]]%lookup_insert_Some; [by rewrite Hack|eauto].
Qed.

Lemma sending_move oc b u now a c a' :
  sending a -> Z.of_nat (length (sorted (inflight_queue a))) < 2147483647 ->
  move_pending_data_chunk_to_inflight_queue oc b u now a = (Ok (Some c), a') -> acknowledged c = false -> sending a'.
Proof.
  intros [Hp Hf Hn] Hlen Hmv Hack. unfold move_pending_data_chunk_to_inflight_queue in Hmv. rewrite bind_get in Hmv.
  destruct (PendingQueue_pop oc (pending_queue a) b u) as [[c0 q]| | |] eqn:Hpop; try done.
  rewrite (bind_lift _ _ _ (c0, q)) in Hmv by done. cbv beta iota in Hmv. rewrite bind_modify in Hmv. destruct c0 as [c0|]; [|done].
  rewrite bind_get in Hmv. unfold generate_next_tsn in Hmv. cbv beta iota in Hmv.
  rewrite bind_modify in Hmv. apply pair_equal_spec in Hmv as [Hc <-]. injection Hc as <-.
  match goal with |- sending (?b <| inflight_queue ::= fun q => push_no_check q ?d |>) => set (x := d) in *; set (a1 := b) end.
  change (acknowledged x = false) in Hack.
  assert (Hx : tsn x = as_u32 (as_u32 (cumulative_tsn_ack_point a + 1) + Z.of_nat (length (sorted (inflight_queue a))))).
  { change (tsn x) with (my_next_tsn a). rewrite Hn. unfold as_u32. mlia. }
  pose proof (flight_push _ _ x Hf Hlen Hx Hack) as Hf'.
  split; [exact Hp|exact Hf'|].
  change (as_u32 (my_next_tsn a + 1) =
    as_u32 (cumulative_tsn_ack_point a + 1 + Z.of_nat (length (sorted (push_no_check (inflight_queue a) x))))).
  rewrite Hn. cbn [push_no_check sorted]. unfold insert_sorted, insert_at. rewrite length_app. cbn [length].
  rewrite length_take, length_drop. pose proof (partition_point_le (fun y => sna32lt y (tsn x)) (sorted (inflight_queue a))).
  unfold as_u32. rewrite Z.add_mod_idemp_l by lia. f_equal. lia.
Qed.

(** The sender: it moves chunks into flight and is told of their arrival; between
    these it does whatever leaves the queue, the ack point and the next TSN alone
    (the handshake, messages written by the application, received data). *)
Inductive sender_step : Association -> Association -> Prop :=
| sender_send oc b u now a c a' :
    Z.of_nat (length (sorted (inflight_queue a))) < 2147483647 ->
    move_pending_data_chunk_to_inflight_queue oc b u now a = (Ok (Some c), a') -> acknowledged c = false ->
    sender_step a a'
| sender_sack d now m a ps a' :
    as_state a ∈ [Established; ShutdownPending; ShutdownReceived] ->
    sack_fits (cumulative_tsn_ack_point a) (inflight_queue a) d m ->
    handle_sack false d now a = (Ok ps, a') -> sender_step a a'
| sender_other a a' :
    inflight_queue a' = inflight_queue a -> cumulative_tsn_ack_point a' = cumulative_tsn_ack_point a ->
    my_next_tsn a' = my_next_tsn a -> sender_step a a'.

Lemma sending_new server cfg mp aid now random_tsn : is_u32 random_tsn -> sending (Association_new server cfg mp aid now random_tsn).
Proof.
  intros Ht. set (t := if random_tsn =? 0 then 1 else random_tsn).
  assert (Hr : 0 < t < 4294967296) by (unfold t, is_u32 in *; destruct (Z.eqb_spec random_tsn 0); lia).
  assert (H : cumulative_tsn_ack_point (Association_new server cfg mp aid now random_tsn) = t - 1 /\
    inflight_queue (Association_new server cfg mp aid now random_tsn) = PayloadQueue_new /\
    my_next_tsn (Association_new server cfg mp aid now random_tsn) = t) by (by destruct server).
  destruct H as (H1 & H2 & H3). split; rewrite ?H1, ?H2, ?H3.
  - unfold is_u32; lia.
  - split; cbn; try done; [apply as_u32_range|].
    intros x. rewrite lookup_empty. split; [by intros ?%elem_of_nil|by intros [? ?]].
  - cbn. rewrite as_u32_id; unfold is_u32; lia.
Qed.

Lemma sending_reachable a b : sending a -> rtc sender_step a b -> sending b.
Proof.
  intros Ha Hr. eapply (rtc_ind_r sending); [exact Ha| |exact Hr].
  intros x c _ Hstep Hb. destruct Hstep as [oc y u nw x ch c Hlen Hm Hack|d nw m x ps c Hst Hfit Hs|x c Hq Hp Hn].
  - by eapply sending_move.
  - destruct (handle_sack_spec d nw m x Hst Hb Hfit) as (b' & E & Hd). rewrite E in Hs. injection Hs as _ <-. apply Hd.
  - destruct Hb. split; by rewrite ?Hq, ?Hp, ?Hn.
Qed.

(** The TSNs in flight are exactly the consecutive numbers from the one after the
    cumulative ack point to the last one assigned, whatever is sent and however the
    peer acknowledges what it received; chunks it acknowledged hold no payload and the
    byte counter is the payload still in flight. *)
Theorem in_flight_consecutive server cfg mp aid now random_tsn a :
  is_u32 random_tsn -> rtc sender_step (Association_new server cfg mp aid now random_tsn) a -> sending a.
Proof. intros Ht. apply sending_reachable. by apply sending_new. Qed.

(** Three messages of a client that is established, moved into flight with the TSNs
    100, 101 and 102. *)
Definition new_sender : Association := Association_new false TransportConfig_default 1200 7 0 100.
Definition loaded_sender : Association :=
  new_sender <| as_state := Established |> <| pending_queue := push_all PendingQueue_new
    (map (fun n => received_payload false true true false 0 1 n PPI_Binary [n; n]) [0; 1; 2]) |>.
Definition send_one (a : Association) : Association := (move_pending_data_chunk_to_inflight_queue true true false 5 a).2.
Definition sender3 : Association := send_one (send_one (send_one loaded_sender)).
Definition good_sack : ChunkSelectiveAck := mkSack 100 1000 [mkGap 2 2] [].

Lemma send_one_step a : Z.of_nat (length (sorted (inflight_queue a))) < 2147483647 ->
  (match move_pending_data_chunk_to_inflight_queue true true false 5 a with
   | (Ok (Some c), _) => negb (acknowledged c) | _ => false end) = true ->
  sender_step a (send_one a).
Proof.
  intros Hl H. unfold send_one. destruct (move_pending_data_chunk_to_inflight_queue true true false 5 a) as [[[c|]| | |] a'] eqn:E; try done.
  eapply sender_send; [done|exact E|by apply negb_true_iff].
Qed.

Lemma sender3_reached : rtc sender_step new_sender sender3.
Proof.
  apply (rtc_l _ new_sender loaded_sender); [apply sender_other; vm_compute; reflexivity|].
  apply (rtc_l _ loaded_sender (send_one loaded_sender)); [apply send_one_step; vm_compute; reflexivity|].
  apply (rtc_l _ (send_one loaded_sender) (send_one (send_one loaded_sender))); [apply send_one_step; vm_compute; reflexivity|].
  apply (rtc_l _ (send_one (send_one loaded_sender)) sender3); [apply send_one_step; vm_compute; reflexivity|]. apply rtc_refl.
Qed.

Lemma in_flight_consecutive_witness : sending sender3.
Proof.
  refine (in_flight_consecutive false TransportConfig_default 1200 7 0 100 sender3 _ _); [split; vm_compute; congruence|].
  apply sender3_reached.
Defined.


(** C2: A SACK that acknowledges only data in flight is processed to the end, where the code
    is built without overflow checks and the chunks in flight are numbered one after the
    other from the cumulative ack point on ([sending]).  The
    chunks it covers cumulatively leave the queue, those of its gap ack blocks stay,
    acknowledged and without payload, all others stay as they were (missing reports
    apart); the cumulative ack point moves to the one reported; every stream still
    open is released exactly the bytes of its chunks that left flight, and the
    window is the advertised one less what is still in flight. *)
Theorem sack_processed d now m a :
  as_state a ∈ [Established; ShutdownPending; ShutdownReceived] -> sending a ->
  sack_fits (cumulative_tsn_ack_point a) (inflight_queue a) d m ->
  exists a', handle_sack false d now a = (Ok [], a') /\ sack_done a d m a'.
Proof. apply handle_sack_spec. Qed.

Lemma good_sack_fits : sack_fits (cumulative_tsn_ack_point sender3) (inflight_queue sender3) good_sack 1.
Proof. split; [vm_compute; lia|vm_compute; reflexivity|]. repeat constructor. Qed.

Lemma sender3_sending : sending sender3.
Proof. refine (sending_reachable new_sender sender3 _ sender3_reached). apply sending_new. split; vm_compute; congruence. Qed.

Lemma sack_processed_witness : exists a', handle_sack false good_sack 9 sender3 = (Ok [], a') /\ sack_done sender3 good_sack 1 a'.
Proof.
  refine (sack_processed good_sack 9 1 sender3 _ sender3_sending good_sack_fits). vm_compute. left.
Defined.
