(* ===== verification/Negotiation.v ===== *)
(** * Offer/answer negotiation

    The signaling state machine of a peer connection ([state/signaling_state.rs]) and what
    applying a session description does to it ([set_description], [rollback_transceivers]
    and the negotiation-needed flag of [peer_connection/internal.rs]), with the theorem
    that two peers that exchange descriptions agree on them. *)
From S2P Require Import Prelude.

(** * Data *)

Inductive RTCSdpType := SdpUnspecified | Offer | Pranswer | Answer | Rollback.
Inductive StateChangeOp := SetLocal | SetRemote.
Inductive RTCSignalingState :=
| SigUnspecified | Stable | HaveLocalOffer | HaveRemoteOffer | HaveLocalPranswer | HaveRemotePranswer | SigClosed.
Inductive RTCPeerConnectionState := PcUnspecified | New | Connecting | Connected | Disconnected | Failed | PcClosed.
Inductive NegotiationNeededState := Empty | Run | Queue.
Inductive RTCRtpTransceiverDirection := DirUnspecified | Sendrecv | Sendonly | Recvonly | Inactive.

Inductive RTCIceConnectionState := IceUnspecified | IceNew | IceChecking | IceConnected | IceCompleted | IceDisconnected | IceFailed | IceClosed.
Inductive RTCDtlsTransportState := DtlsUnspecified | DtlsNew | DtlsConnecting | DtlsConnected | DtlsClosed | DtlsFailed.

#[export] Instance RTCSdpType_eq_dec : EqDecision RTCSdpType. Proof. solve_decision. Defined.
#[export] Instance StateChangeOp_eq_dec : EqDecision StateChangeOp. Proof. solve_decision. Defined.
#[export] Instance RTCSignalingState_eq_dec : EqDecision RTCSignalingState. Proof. solve_decision. Defined.
#[export] Instance RTCPeerConnectionState_eq_dec : EqDecision RTCPeerConnectionState. Proof. solve_decision. Defined.
#[export] Instance NegotiationNeededState_eq_dec : EqDecision NegotiationNeededState. Proof. solve_decision. Defined.
#[export] Instance RTCRtpTransceiverDirection_eq_dec : EqDecision RTCRtpTransceiverDirection. Proof. solve_decision. Defined.

#[export] Instance RTCIceConnectionState_eq_dec : EqDecision RTCIceConnectionState. Proof. solve_decision. Defined.
#[export] Instance RTCDtlsTransportState_eq_dec : EqDecision RTCDtlsTransportState. Proof. solve_decision. Defined.

Definition UNSPECIFIED_STR : string := "Unspecified".

Definition RTCSdpType_to_string (t : RTCSdpType) : string :=
  match t with Offer => "offer" | Pranswer => "pranswer" | Answer => "answer" | Rollback => "rollback" | SdpUnspecified => UNSPECIFIED_STR end.

Definition RTCSignalingState_to_string (s : RTCSignalingState) : string :=
  match s with
  | Stable => "stable" | HaveLocalOffer => "have-local-offer" | HaveRemoteOffer => "have-remote-offer"
  | HaveLocalPranswer => "have-local-pranswer" | HaveRemotePranswer => "have-remote-pranswer"
  | SigClosed => "closed" | SigUnspecified => UNSPECIFIED_STR
  end.
Definition RTCSignalingState_from (raw : string) : RTCSignalingState :=
  if bool_decide (raw = "stable"%string) then Stable
  else if bool_decide (raw = "have-local-offer"%string) then HaveLocalOffer
  else if bool_decide (raw = "have-remote-offer"%string) then HaveRemoteOffer
  else if bool_decide (raw = "have-local-pranswer"%string) then HaveLocalPranswer
  else if bool_decide (raw = "have-remote-pranswer"%string) then HaveRemotePranswer
  else if bool_decide (raw = "closed"%string) then SigClosed else SigUnspecified.

Definition direction_to_string (d : RTCRtpTransceiverDirection) : string :=
  match d with
  | Sendrecv => "sendrecv" | Sendonly => "sendonly" | Recvonly => "recvonly" | Inactive => "inactive" | DirUnspecified => UNSPECIFIED_STR
  end.
Definition direction_from (raw : string) : RTCRtpTransceiverDirection :=
  if bool_decide (raw = "sendrecv"%string) then Sendrecv
  else if bool_decide (raw = "sendonly"%string) then Sendonly
  else if bool_decide (raw = "recvonly"%string) then Recvonly
  else if bool_decide (raw = "inactive"%string) then Inactive else DirUnspecified.
Definition reverse_direction (d : RTCRtpTransceiverDirection) : RTCRtpTransceiverDirection :=
  match d with Sendonly => Recvonly | Recvonly => Sendonly | d => d end.
Definition has_send (d : RTCRtpTransceiverDirection) : bool := match d with Sendrecv | Sendonly => true | _ => false end.
Definition has_recv (d : RTCRtpTransceiverDirection) : bool := match d with Sendrecv | Recvonly => true | _ => false end.
Definition from_send_recv (send recv : bool) : RTCRtpTransceiverDirection :=
  match send, recv with true, true => Sendrecv | true, false => Sendonly | false, true => Recvonly | false, false => Inactive end.

(** ** Session descriptions

    Of a parsed description, the fields negotiation reads: the name, formats and attributes
    of each media section. *)

Record AttributeLine := mkAttribute { at_key : string; at_value : option string }.
Record MediaDescription := mkMediaDescription { md_media : string; md_formats : list string; md_attributes : list AttributeLine }.
Record SessionDescription := mkSessionDescription { media_descriptions : list MediaDescription }.
Record RTCSessionDescription := mkDescription { sdp_type : RTCSdpType; sdp : string; parsed : option SessionDescription }.

Fixpoint find_attribute (key : string) (l : list AttributeLine) : option (option string) :=
  match l with
  | [] => None
  | a :: l => if bool_decide (at_key a = key) then Some (at_value a) else find_attribute key l
  end.
Definition md_attribute (m : MediaDescription) (key : string) : option (option string) := find_attribute key (md_attributes m).
Definition get_mid_value (m : MediaDescription) : option string := mjoin (find_attribute "mid" (md_attributes m)).

Fixpoint first_direction (l : list AttributeLine) : RTCRtpTransceiverDirection :=
  match l with
  | [] => DirUnspecified
  | a :: l => let d := direction_from (at_key a) in if bool_decide (d = DirUnspecified) then first_direction l else d
  end.
Definition get_peer_direction (m : MediaDescription) : RTCRtpTransceiverDirection := first_direction (md_attributes m).

Definition is_webrtc_datachannel (m : MediaDescription) : bool :=
  bool_decide (md_media m = "application"%string) && bool_decide (md_formats m = ["webrtc-datachannel"%string]).
Definition get_application_media (d : SessionDescription) : option MediaDescription := List.find is_webrtc_datachannel (media_descriptions d).
Definition have_data_channel (d : RTCSessionDescription) : option MediaDescription := parsed d ≫= get_application_media.
Definition get_by_mid (search_mid : string) (d : RTCSessionDescription) : option MediaDescription :=
  p ← parsed d; List.find (fun m => bool_decide (mjoin (md_attribute m "mid") = Some search_mid)) (media_descriptions p).

(** ** [str::split_whitespace], on the bytes of a UTF-8 string *)

(** The number of bytes of the white space character the string starts with. *)
Definition whitespace_len (s : list Z) : nat :=
  match s with
  | a :: r =>
      if ((9 <=? a) && (a <=? 13)) || (a =? 32) then 1%nat
      else match r with
           | b :: r =>
               if (a =? 194) && ((b =? 133) || (b =? 160)) then 2%nat
               else match r with
                    | c :: _ =>
                        if ((a =? 225) && (b =? 154) && (c =? 128)) ||
                           ((a =? 226) && (b =? 128) && (((128 <=? c) && (c <=? 138)) || (c =? 168) || (c =? 169) || (c =? 175))) ||
                           ((a =? 226) && (b =? 129) && (c =? 159)) || ((a =? 227) && (b =? 128) && (c =? 128)) then 3%nat
                        else 0%nat
                    | [] => 0%nat
                    end
           | [] => 0%nat
           end
  | [] => 0%nat
  end.
Fixpoint skip_whitespace (fuel : nat) (s : list Z) : list Z :=
  match fuel with
  | O => s
  | S fuel => match whitespace_len s with O => s | n => skip_whitespace fuel (drop n s) end
  end.
Fixpoint until_whitespace (s : list Z) : list Z :=
  match s with
  | [] => []
  | a :: r => match whitespace_len s with O => a :: until_whitespace r | _ => [] end
  end.
Definition string_bytes (s : string) : list Z := (fun a => Z.of_nat (Ascii.nat_of_ascii a)) <$> String.list_ascii_of_string s.
(** [split_whitespace().next()] *)
Definition first_word (s : string) : option (list Z) :=
  match until_whitespace (skip_whitespace (String.length s) (string_bytes s)) with [] => None | w => Some w end.

(** ** Transceivers

    Of a sender, its track's stream identifier and flags; what negotiation only passes on
    (the receiver, codec preferences) is the type [Rest]. *)

Inductive RtpCodecKind := KindUnspecified | Audio | Video | Application.
#[export] Instance RtpCodecKind_eq_dec : EqDecision RtpCodecKind. Proof. solve_decision. Defined.
Definition RtpCodecKind_from (raw : string) : RtpCodecKind :=
  if bool_decide (raw = "audio"%string) then Audio
  else if bool_decide (raw = "video"%string) then Video
  else if bool_decide (raw = "application"%string) then Application else KindUnspecified.

Record Sender := mkSender { se_stream_id : string; se_negotiated : bool; se_sent : bool }.
#[export] Instance Sender_eta : Eta Sender := fun s => mkSender (se_stream_id s) (se_negotiated s) (se_sent s).

Section negotiation.
Context {Rest : Type}.

Record Transceiver := mkTransceiver {
  t_mid : option string;
  t_kind : RtpCodecKind;
  t_sender : option Sender;
  t_direction : RTCRtpTransceiverDirection;
  t_current_direction : RTCRtpTransceiverDirection;
  t_stopped : bool;
  t_created_by_remote_description : bool;
  t_rest : Rest
}.
#[export] Instance Transceiver_eta : Eta Transceiver := fun t =>
  mkTransceiver (t_mid t) (t_kind t) (t_sender t) (t_direction t) (t_current_direction t) (t_stopped t) (t_created_by_remote_description t) (t_rest t).

Inductive NegotiationError :=
| ErrPeerConnSDPTypeInvalidValue | ErrSDPDoesNotMatchOffer | ErrSDPDoesNotMatchAnswer | ErrPeerConnStateChangeInvalid
| ErrSignalingStateCannotRollback | ErrSignalingStateProposedTransitionInvalid (msg : string) | ErrRTPTransceiverCannotChangeMid
| ErrPeerConnRemoteDescriptionWithoutMidValue | ErrCodec.

Inductive RTCPeerConnectionEvent :=
| OnSignalingStateChangeEvent (s : RTCSignalingState) | OnNegotiationNeededEvent | OnConnectionStateChangeEvent (s : RTCPeerConnectionState).

Record PeerConnection := mkPeerConnection {
  current_local_description : option RTCSessionDescription;
  pending_local_description : option RTCSessionDescription;
  current_remote_description : option RTCSessionDescription;
  pending_remote_description : option RTCSessionDescription;
  signaling_state : RTCSignalingState;
  peer_connection_state : RTCPeerConnectionState;
  event_outs : list RTCPeerConnectionEvent;
  data_channels : list Z;
  rtp_transceivers : list Transceiver;
  last_offer : string;
  last_answer : string;
  negotiation_needed_state : NegotiationNeededState;
  is_negotiation_ongoing : bool
}.
#[export] Instance PeerConnection_eta : Eta PeerConnection := fun p =>
  mkPeerConnection (current_local_description p) (pending_local_description p) (current_remote_description p) (pending_remote_description p)
    (signaling_state p) (peer_connection_state p) (event_outs p) (data_channels p) (rtp_transceivers p) (last_offer p) (last_answer p)
    (negotiation_needed_state p) (is_negotiation_ongoing p).

Definition PeerConnection_new : PeerConnection :=
  mkPeerConnection None None None None Stable New [] [] [] "" "" Empty false.

(** * The state machine *)

Definition transition_invalid (cur : RTCSignalingState) (a b : string) : NegotiationError :=
  ErrSignalingStateProposedTransitionInvalid ("from " +:+ RTCSignalingState_to_string cur +:+ " applying " +:+ a +:+ " " +:+ b).
Definition bool_to_string (b : bool) : string := if b then "true" else "false".

Definition check_next_signaling_state (cur next : RTCSignalingState) (op : StateChangeOp) (t : RTCSdpType) : outcome NegotiationError RTCSignalingState :=
  let refused := Err (transition_invalid cur (bool_to_string (bool_decide (op = SetLocal))) (RTCSdpType_to_string t)) in
  let goto s := if bool_decide (next = s) then Ok next else refused in
  if bool_decide (t = Rollback) && bool_decide (cur = Stable) then Err ErrSignalingStateCannotRollback
  else
    match cur with
    | Stable =>
        match op with
        | SetLocal => if bool_decide (t = Offer) then goto HaveLocalOffer else refused
        | SetRemote => if bool_decide (t = Offer) then goto HaveRemoteOffer else refused
        end
    | HaveLocalOffer =>
        match op with
        | SetRemote => match t with Answer => goto Stable | Pranswer => goto HaveRemotePranswer | _ => refused end
        | SetLocal => match t with Offer => goto HaveLocalOffer | Rollback => goto Stable | _ => refused end
        end
    | HaveRemotePranswer =>
        if bool_decide (op = SetRemote) && bool_decide (t = Answer) then goto Stable else refused
    | HaveRemoteOffer =>
        match op with
        | SetLocal => match t with Answer => goto Stable | Pranswer => goto HaveLocalPranswer | _ => refused end
        | SetRemote => if bool_decide (t = Rollback) then goto Stable else refused
        end
    | HaveLocalPranswer =>
        if bool_decide (op = SetLocal) && bool_decide (t = Answer) then goto Stable else refused
    | SigClosed | SigUnspecified => Err (transition_invalid cur (RTCSdpType_to_string t) (bool_to_string (bool_decide (op = SetLocal))))
    end.

(** * Transceivers *)

Definition Sender_stop (s : Sender) : Sender := s <| se_negotiated := false |> <| se_sent := false |>.
Definition Transceiver_stop (t : Transceiver) : Transceiver :=
  if t_stopped t then t
  else t <| t_stopped := true |> <| t_sender ::= fmap Sender_stop |> <| t_direction := Inactive |> <| t_current_direction := Inactive |>.
Definition set_mid (t : Transceiver) (mid : string) : outcome NegotiationError Transceiver :=
  match t_mid t with Some _ => Err ErrRTPTransceiverCannotChangeMid | None => Ok (t <| t_mid := Some mid |>) end.
Definition disassociate (t : Transceiver) : Transceiver := t <| t_mid := None |> <| t_current_direction := DirUnspecified |>.

Definition description_mids (d : option RTCSessionDescription) : list string :=
  match d ≫= parsed with
  | Some p => omap (fun m => match get_mid_value m with Some mid => if bool_decide (mid = ""%string) then None else Some mid | None => None end) (media_descriptions p)
  | None => []
  end.
Definition current_description_mids (self : PeerConnection) : gset string :=
  list_to_set (description_mids (current_local_description self) ++ description_mids (current_remote_description self)).

(** The loop over the indices below [i], from the last. *)
Fixpoint remove_created (i : nat) (ts : list Transceiver) : list Transceiver :=
  match i with
  | O => ts
  | S i =>
      match ts !! i with
      | Some t => if t_created_by_remote_description t && negb (bool_decide (is_Some (t_sender t)))
                  then remove_created i (delete i (<[i := Transceiver_stop t]> ts)) else remove_created i ts
      | None => remove_created i ts
      end
  end.

Definition disassociate_new (negotiated_mids : gset string) (t : Transceiver) : Transceiver :=
  match t_mid t with Some mid => if bool_decide (mid ∈ negotiated_mids) then t else disassociate t | None => t end.

Definition rollback_transceivers (self : PeerConnection) : PeerConnection :=
  let negotiated_mids := current_description_mids self in
  let self := self <| rtp_transceivers ::= fun ts => remove_created (length ts) ts |> in
  self <| rtp_transceivers ::= map (disassociate_new negotiated_mids) |>.

(** * The negotiation-needed flag *)

Definition do_negotiation_needed (self : PeerConnection) : bool * PeerConnection :=
  match negotiation_needed_state self with
  | Run => (false, self <| negotiation_needed_state := Queue |>)
  | Queue => (false, self)
  | Empty => (true, self <| negotiation_needed_state := Run |>)
  end.
Definition after_negotiation_needed_op (self : PeerConnection) : bool * PeerConnection :=
  let old := negotiation_needed_state self in
  let self := self <| negotiation_needed_state := Empty |> in
  if bool_decide (old = Queue) then do_negotiation_needed self else (false, self).

(** Whether a transceiver is not covered by the negotiated descriptions. *)
Definition transceiver_needs (local_desc : RTCSessionDescription) (remote : option RTCSessionDescription) (t : Transceiver) : bool :=
  match t_mid t ≫= (fun mid => get_by_mid mid local_desc) with
  | None => true
  | Some m =>
      let msid_differs :=
        match t_sender t with
        | Some sender =>
            has_send (t_direction t) &&
            match mjoin (md_attribute m "msid") with
            | Some dmsid => negb (bool_decide (first_word dmsid = Some (string_bytes (se_stream_id sender))))
            | None => true
            end
        | None => false
        end in
      if msid_differs then true
      else
        match sdp_type local_desc with
        | Offer =>
            match remote with
            | Some remote_desc =>
                match t_mid t ≫= (fun mid => get_by_mid mid remote_desc) with
                | Some rm => negb (bool_decide (get_peer_direction m = t_direction t)) &&
                             negb (bool_decide (get_peer_direction rm = reverse_direction (t_direction t)))
                | None => true
                end
            | None => false
            end
        | Answer => negb (bool_decide (is_Some (md_attribute m (direction_to_string (t_direction t)))))
        | _ => false
        end
  end.

Definition check_negotiation_needed (self : PeerConnection) : bool :=
  match current_local_description self with
  | Some local_desc =>
      if negb (bool_decide (length (data_channels self) = 0%nat)) && negb (bool_decide (is_Some (have_data_channel local_desc))) then true
      else existsb (transceiver_needs local_desc (current_remote_description self)) (rtp_transceivers self)
  | None => true
  end.

Definition negotiation_needed_op (self : PeerConnection) : bool * PeerConnection :=
  if bool_decide (peer_connection_state self = PcClosed) then (false, self)
  else if negb (bool_decide (signaling_state self = Stable)) then after_negotiation_needed_op self
  else if negb (check_negotiation_needed self) then after_negotiation_needed_op (self <| is_negotiation_ongoing := false |>)
  else if is_negotiation_ongoing self then after_negotiation_needed_op self
  else after_negotiation_needed_op (self <| is_negotiation_ongoing := true |> <| event_outs ::= fun q => q ++ [OnNegotiationNeededEvent] |>).

Definition trigger_negotiation_needed (self : PeerConnection) : PeerConnection :=
  let '(run, self) := do_negotiation_needed self in
  if run then snd (negotiation_needed_op self) else self.

Definition add_rtp_transceiver (t : Transceiver) (self : PeerConnection) : PeerConnection :=
  trigger_negotiation_needed (self <| rtp_transceivers ::= fun ts => ts ++ [t] |>).

(** * Applying a description *)

Definition do_signaling_state_change (new_state : RTCSignalingState) (self : PeerConnection) : PeerConnection :=
  self <| event_outs ::= fun q => q ++ [OnSignalingStateChangeEvent new_state] |>.

(** The [let next_state = ...] of [set_description]: the state moved to, and what happens to
    the descriptions if the move is allowed. *)
Definition next_description_state (sd : RTCSessionDescription) (op : StateChangeOp) (self : PeerConnection)
  : outcome NegotiationError RTCSignalingState * PeerConnection :=
  let cur := signaling_state self in
  let checked next (f : PeerConnection -> PeerConnection) :=
    let next_state := check_next_signaling_state cur next op (sdp_type sd) in
    (next_state, match next_state with Ok _ => f self | _ => self end) in
  match op with
  | SetLocal =>
      match sdp_type sd with
      | Offer =>
          if negb (bool_decide (sdp sd = last_offer self)) then (Err ErrSDPDoesNotMatchOffer, self)
          else checked HaveLocalOffer (fun self => self <| pending_local_description := Some sd |>)
      | Answer =>
          if negb (bool_decide (sdp sd = last_answer self)) then (Err ErrSDPDoesNotMatchAnswer, self)
          else checked Stable (fun self =>
            let pending_remote := pending_remote_description self in
            self <| pending_remote_description := None |> <| pending_local_description := None |>
                 <| current_local_description := Some sd |> <| current_remote_description := pending_remote |>)
      | Rollback => checked Stable (fun self => rollback_transceivers (self <| pending_local_description := None |>))
      | Pranswer =>
          if negb (bool_decide (sdp sd = last_answer self)) then (Err ErrSDPDoesNotMatchAnswer, self)
          else checked HaveLocalPranswer (fun self => self <| pending_local_description := Some sd |>)
      | SdpUnspecified => (Err ErrPeerConnStateChangeInvalid, self)
      end
  | SetRemote =>
      match sdp_type sd with
      | Offer => checked HaveRemoteOffer (fun self => self <| pending_remote_description := Some sd |>)
      | Answer =>
          checked Stable (fun self =>
            let pending_local := pending_local_description self in
            self <| pending_local_description := None |> <| pending_remote_description := None |>
                 <| current_remote_description := Some sd |> <| current_local_description := pending_local |>)
      | Rollback => checked Stable (fun self => rollback_transceivers (self <| pending_remote_description := None |>))
      | Pranswer => checked HaveRemotePranswer (fun self => self <| pending_remote_description := Some sd |>)
      | SdpUnspecified => (Err ErrPeerConnStateChangeInvalid, self)
      end
  end.

Definition set_description (sd : RTCSessionDescription) (op : StateChangeOp) (self : PeerConnection) : outcome NegotiationError unit * PeerConnection :=
  if bool_decide (sdp_type sd = SdpUnspecified) then (Err ErrPeerConnSDPTypeInvalidValue, self)
  else
    let '(next_state, self) := next_description_state sd op self in
    match next_state with
    | Ok next_state =>
        let self := self <| signaling_state := next_state |> in
        let reached_stable := bool_decide (signaling_state self = Stable) in
        let self := if reached_stable
          then self <| is_negotiation_ongoing := false |>
                    <| rtp_transceivers ::= map (fun t => t <| t_created_by_remote_description := false |>) |>
          else self in
        let self := do_signaling_state_change next_state self in
        let self := if reached_stable then trigger_negotiation_needed self else self in
        (Ok tt, self)
    | Err e => (Err e, self)
    | Panic => (Panic, self)
    | Diverge => (Diverge, self)
    end.

(** * The media sections of a remote offer *)

Definition find_by_mid (mid : string) (ts : list Transceiver) : option nat := fst <$> list_find (fun t => t_mid t = Some mid) ts.

Definition preferred_directions (remote : RTCRtpTransceiverDirection) : list RTCRtpTransceiverDirection :=
  match remote with
  | Sendrecv => [Recvonly; Sendrecv] | Sendonly => [Recvonly] | Recvonly => [Sendonly; Sendrecv] | _ => []
  end.
Definition find_unassociated (kind : RtpCodecKind) (ts : list Transceiver) (d : RTCRtpTransceiverDirection) : option nat :=
  fst <$> list_find (fun t => t_mid t = None /\ t_kind t = kind /\ d = t_direction t) ts.
Definition satisfy_type_and_direction (kind : RtpCodecKind) (remote : RTCRtpTransceiverDirection) (ts : list Transceiver) : option nat :=
  head (omap (find_unassociated kind ts) (preferred_directions remote)).

(** What the remote direction makes of the local one. *)
Definition adjusted_direction (remote local : RTCRtpTransceiverDirection) : RTCRtpTransceiverDirection :=
  match remote, local with
  | Recvonly, Sendrecv => Sendonly
  | Recvonly, Recvonly => Inactive
  | Sendrecv, Sendonly => Sendrecv
  | Sendrecv, Inactive => Recvonly
  | Sendonly, Inactive => Recvonly
  | _, local => local
  end.

(** [set_codec_preferences_from_remote_description], which reads the media section and the
    kind, and the receiver of a new transceiver. *)
Class Codecs := {
  codecs_from_remote : MediaDescription -> RtpCodecKind -> Rest -> outcome NegotiationError Rest;
  new_rest : RTCRtpTransceiverDirection -> Rest
}.
Context `{Codecs}.

Definition match_transceiver (mid : string) (direction : RTCRtpTransceiverDirection) (m : MediaDescription) (t : Transceiver)
  : outcome NegotiationError unit * Transceiver :=
  let t := t <| t_direction ::= adjusted_direction direction |> in
  match codecs_from_remote m (t_kind t) (t_rest t) with
  | Ok rest =>
      let t := t <| t_rest := rest |> in
      match t_mid t with
      | None => match set_mid t mid with Ok t => (Ok tt, t) | Err e => (Err e, t) | Panic => (Panic, t) | Diverge => (Diverge, t) end
      | Some _ => (Ok tt, t)
      end
  | Err e => (Err e, t)
  | Panic => (Panic, t)
  | Diverge => (Diverge, t)
  end.

Definition created_transceiver (mid : string) (kind : RtpCodecKind) (direction : RTCRtpTransceiverDirection) (m : MediaDescription)
  : outcome NegotiationError Transceiver :=
  let local_direction := if bool_decide (direction = Recvonly) then Sendonly else Recvonly in
  let t := mkTransceiver None kind None local_direction DirUnspecified false false (new_rest local_direction) in
  rest ← codecs_from_remote m kind (t_rest t);
  let t := t <| t_rest := rest |> in
  t ← (match t_mid t with None => set_mid t mid | Some _ => Ok t end);
  Ok (t <| t_created_by_remote_description := true |>).

(** One turn of the loop of [set_remote_description] over the media sections of an offer. *)
Definition apply_media (m : MediaDescription) (self : PeerConnection) : outcome NegotiationError unit * PeerConnection :=
  match get_mid_value m with
  | None => (Err ErrPeerConnRemoteDescriptionWithoutMidValue, self)
  | Some mid =>
      if bool_decide (mid = ""%string) then (Err ErrPeerConnRemoteDescriptionWithoutMidValue, self)
      else if is_webrtc_datachannel m then (Ok tt, self)
      else
        let kind := RtpCodecKind_from (md_media m) in
        let direction := get_peer_direction m in
        if bool_decide (kind = KindUnspecified) || bool_decide (direction = DirUnspecified) then (Ok tt, self)
        else
          let '(found, self) :=
            match find_by_mid mid (rtp_transceivers self) with
            | Some i => (Some i, if bool_decide (direction = Inactive) then self <| rtp_transceivers ::= alter Transceiver_stop i |> else self)
            | None => (satisfy_type_and_direction kind direction (rtp_transceivers self), self)
            end in
          match found with
          | Some i =>
              match rtp_transceivers self !! i with
              | Some t => let '(r, t) := match_transceiver mid direction m t in (r, self <| rtp_transceivers ::= <[i := t]> |>)
              | None => (Panic, self)
              end
          | None =>
              match created_transceiver mid kind direction m with
              | Ok t => (Ok tt, add_rtp_transceiver t self)
              | Err e => (Err e, self)
              | Panic => (Panic, self)
              | Diverge => (Diverge, self)
              end
          end
  end.

Fixpoint apply_remote_offer (media : list MediaDescription) (self : PeerConnection) : outcome NegotiationError unit * PeerConnection :=
  match media with
  | [] => (Ok tt, self)
  | m :: media =>
      match apply_media m self with
      | (Ok _, self) => apply_remote_offer media self
      | r => r
      end
  end.

(** * The state of the connection *)

Definition update_connection_state (is_closed : bool) (ice : RTCIceConnectionState) (dtls : RTCDtlsTransportState) (self : PeerConnection) : PeerConnection :=
  if bool_decide (peer_connection_state self = PcClosed) && negb is_closed then self
  else
    let connection_state :=
      if is_closed then PcClosed
      else if bool_decide (ice = IceFailed) || bool_decide (dtls = DtlsFailed) then Failed
      else if bool_decide (ice = IceDisconnected) then Disconnected
      else if (bool_decide (ice = IceNew) || bool_decide (ice = IceClosed)) && (bool_decide (dtls = DtlsNew) || bool_decide (dtls = DtlsClosed)) then New
      else if (bool_decide (ice = IceNew) || bool_decide (ice = IceChecking)) || (bool_decide (dtls = DtlsNew) || bool_decide (dtls = DtlsConnecting)) then Connecting
      else if (bool_decide (ice = IceConnected) || bool_decide (ice = IceCompleted) || bool_decide (ice = IceClosed)) &&
              (bool_decide (dtls = DtlsConnected) || bool_decide (dtls = DtlsClosed)) then Connected
      else New in
    if bool_decide (peer_connection_state self = connection_state) then self
    else self <| peer_connection_state := connection_state |> <| event_outs ::= fun q => q ++ [OnConnectionStateChangeEvent connection_state] |>.
End negotiation.
Arguments Codecs : clear implicits.
Arguments Transceiver : clear implicits.
Arguments PeerConnection : clear implicits.

(** * What negotiation promises

    The descriptions of a connection and the moves JSEP allows on them. *)

Record core := mkCore {
  c_state : RTCSignalingState;
  c_pending_local : option RTCSessionDescription;
  c_pending_remote : option RTCSessionDescription;
  c_current_local : option RTCSessionDescription;
  c_current_remote : option RTCSessionDescription
}.
Definition core_of {Rest} (pc : PeerConnection Rest) : core :=
  mkCore (signaling_state pc) (pending_local_description pc) (pending_remote_description pc) (current_local_description pc) (current_remote_description pc).

(** The transitions of JSEP, with what each does to the pending and current descriptions.
    Those of the state machine (RFC 9429, section 3.2): an offer or a provisional answer may
    be given again in the state it led to.  And the rollback of an offer that has no answer
    yet (section 4.1.10.2), whose effect is the same through either call. *)
Inductive jsep_step (sd : RTCSessionDescription) : StateChangeOp -> core -> core -> Prop :=
| jsep_local_offer st pl pr cl cr : sdp_type sd = Offer -> st = Stable \/ st = HaveLocalOffer ->
    jsep_step sd SetLocal (mkCore st pl pr cl cr) (mkCore HaveLocalOffer (Some sd) pr cl cr)
| jsep_remote_offer st pl pr cl cr : sdp_type sd = Offer -> st = Stable \/ st = HaveRemoteOffer ->
    jsep_step sd SetRemote (mkCore st pl pr cl cr) (mkCore HaveRemoteOffer pl (Some sd) cl cr)
| jsep_local_pranswer st pl pr cl cr : sdp_type sd = Pranswer -> st = HaveRemoteOffer \/ st = HaveLocalPranswer ->
    jsep_step sd SetLocal (mkCore st pl pr cl cr) (mkCore HaveLocalPranswer (Some sd) pr cl cr)
| jsep_remote_pranswer st pl pr cl cr : sdp_type sd = Pranswer -> st = HaveLocalOffer \/ st = HaveRemotePranswer ->
    jsep_step sd SetRemote (mkCore st pl pr cl cr) (mkCore HaveRemotePranswer pl (Some sd) cl cr)
| jsep_local_answer st pl pr cl cr : sdp_type sd = Answer -> st = HaveRemoteOffer \/ st = HaveLocalPranswer ->
    jsep_step sd SetLocal (mkCore st pl pr cl cr) (mkCore Stable None None (Some sd) pr)
| jsep_remote_answer st pl pr cl cr : sdp_type sd = Answer -> st = HaveLocalOffer \/ st = HaveRemotePranswer ->
    jsep_step sd SetRemote (mkCore st pl pr cl cr) (mkCore Stable None None pl (Some sd))
| jsep_rollback_local_offer op pl pr cl cr : sdp_type sd = Rollback ->
    jsep_step sd op (mkCore HaveLocalOffer pl pr cl cr) (mkCore Stable None pr cl cr)
| jsep_rollback_remote_offer op pl pr cl cr : sdp_type sd = Rollback ->
    jsep_step sd op (mkCore HaveRemoteOffer pl pr cl cr) (mkCore Stable pl None cl cr).

(** The transitions of JSEP that the code does not have: an offer of the peer and a
    provisional answer, of either side, given again; and the rollback of the peer's offer by
    [set_local_description], and of the own offer by [set_remote_description]. *)
Definition not_taken (sd : RTCSessionDescription) (op : StateChangeOp) (st : RTCSignalingState) : bool :=
  match op, sdp_type sd, st with
  | SetRemote, Offer, HaveRemoteOffer | SetLocal, Pranswer, HaveLocalPranswer | SetRemote, Pranswer, HaveRemotePranswer
  | SetLocal, Rollback, HaveRemoteOffer | SetRemote, Rollback, HaveLocalOffer => true
  | _, _, _ => false
  end.

(** The moves of the code. *)
Inductive signaling_step (sd : RTCSessionDescription) : StateChangeOp -> core -> core -> Prop :=
| step_local_offer st pl pr cl cr : sdp_type sd = Offer -> st = Stable \/ st = HaveLocalOffer ->
    signaling_step sd SetLocal (mkCore st pl pr cl cr) (mkCore HaveLocalOffer (Some sd) pr cl cr)
| step_remote_offer pl pr cl cr : sdp_type sd = Offer ->
    signaling_step sd SetRemote (mkCore Stable pl pr cl cr) (mkCore HaveRemoteOffer pl (Some sd) cl cr)
| step_local_pranswer pl pr cl cr : sdp_type sd = Pranswer ->
    signaling_step sd SetLocal (mkCore HaveRemoteOffer pl pr cl cr) (mkCore HaveLocalPranswer (Some sd) pr cl cr)
| step_remote_pranswer pl pr cl cr : sdp_type sd = Pranswer ->
    signaling_step sd SetRemote (mkCore HaveLocalOffer pl pr cl cr) (mkCore HaveRemotePranswer pl (Some sd) cl cr)
| step_local_answer st pl pr cl cr : sdp_type sd = Answer -> st = HaveRemoteOffer \/ st = HaveLocalPranswer ->
    signaling_step sd SetLocal (mkCore st pl pr cl cr) (mkCore Stable None None (Some sd) pr)
| step_remote_answer st pl pr cl cr : sdp_type sd = Answer -> st = HaveLocalOffer \/ st = HaveRemotePranswer ->
    signaling_step sd SetRemote (mkCore st pl pr cl cr) (mkCore Stable None None pl (Some sd))
| step_local_rollback pl pr cl cr : sdp_type sd = Rollback ->
    signaling_step sd SetLocal (mkCore HaveLocalOffer pl pr cl cr) (mkCore Stable None pr cl cr)
| step_remote_rollback pl pr cl cr : sdp_type sd = Rollback ->
    signaling_step sd SetRemote (mkCore HaveRemoteOffer pl pr cl cr) (mkCore Stable pl None cl cr).

Lemma signaling_step_jsep sd op c c' : signaling_step sd op c c' <-> jsep_step sd op c c' /\ not_taken sd op (c_state c) = false.
Proof.
  unfold not_taken. split.
  - intros Hs. split; destruct Hs as [? ? ? ? ? E|? ? ? ? E|? ? ? ? E|? ? ? ? E|? ? ? ? ? E|? ? ? ? ? E|? ? ? ? E|? ? ? ? E]; cbn [c_state];
      try (constructor; by auto); rewrite E; naive_solver.
  - intros [Hj Hg]. destruct Hj as [? ? ? ? ? E Hst|? ? ? ? ? E Hst|? ? ? ? ? E Hst|? ? ? ? ? E Hst|? ? ? ? ? E Hst|? ? ? ? ? E Hst|[] ? ? ? ? E|[] ? ? ? ? E];
      cbn [c_state] in Hg; rewrite E in Hg; try discriminate Hg; try destruct Hst as [-> | ->]; try discriminate Hg; constructor; by auto.
Qed.

Lemma not_taken_jsep sd op c : not_taken sd op (c_state c) = true -> exists c', jsep_step sd op c c'.
Proof.
  unfold not_taken. destruct c as [st pl pr cl cr]. cbn [c_state].
  destruct op, (sdp_type sd) eqn:E, st; try done; intros _; eexists; constructor; by auto.
Qed.

(** A local description must be the last one created. *)
Definition created {Rest} (sd : RTCSessionDescription) (op : StateChangeOp) (pc : PeerConnection Rest) : Prop :=
  op = SetLocal -> match sdp_type sd with Offer => sdp sd = last_offer pc | Answer | Pranswer => sdp sd = last_answer pc | _ => True end.

Section refinement.
Context {Rest : Type}.
Implicit Types pc : PeerConnection Rest.

(** Asking for negotiation changes the flag, its state and the events only. *)
Lemma trigger_core pc : core_of (trigger_negotiation_needed pc) = core_of pc.
Proof.
  unfold trigger_negotiation_needed, do_negotiation_needed. destruct (negotiation_needed_state pc) eqn:E; [|done..].
  unfold negotiation_needed_op. cbn. repeat (case_match; cbn; try done).
Qed.

Lemma rollback_core pc : core_of (rollback_transceivers pc) = core_of pc.
Proof. done. Qed.

(** What asking for negotiation emits. *)
Lemma trigger_events pc : exists n, event_outs (trigger_negotiation_needed pc) = event_outs pc ++ n /\
  (n = [] \/ n = [OnNegotiationNeededEvent] /\ signaling_state pc = Stable).
Proof.
  unfold trigger_negotiation_needed, do_negotiation_needed. destruct (negotiation_needed_state pc) eqn:E; [|exists []; rewrite app_nil_r; by auto..].
  unfold negotiation_needed_op. cbn [negotiation_needed_state peer_connection_state over]. repeat case_match; cbn;
    try (exists []; rewrite app_nil_r; by auto).
  eexists. split; [reflexivity|]. right. split; [done|]. by case_bool_decide.
Qed.

Definition with_state (st : RTCSignalingState) (c : core) : core :=
  mkCore st (c_pending_local c) (c_pending_remote c) (c_current_local c) (c_current_remote c).

Ltac no_step := intros [Hc [c' Hj]]; first [inversion Hj; subst; try congruence; naive_solver | specialize (Hc eq_refl); cbn in Hc; congruence].

Lemma next_description_refines sd op pc : sdp_type sd <> SdpUnspecified ->
  match next_description_state sd op pc with
  | (Ok st, pc') => created sd op pc /\ signaling_step sd op (core_of pc) (with_state st (core_of pc')) /\ event_outs pc' = event_outs pc
  | (Err _, pc') => pc' = pc /\ ~ (created sd op pc /\ exists c', signaling_step sd op (core_of pc) c')
  | _ => False
  end.
Proof.
  intros Hsd. destruct sd as [ty text parsed]. cbn [sdp_type] in Hsd. unfold next_description_state, created. cbn [sdp_type sdp].
  unfold core_of. destruct (signaling_state pc) eqn:Est, op, ty; try done; cbn;
    try (case_bool_decide as Htext; cbn); rewrite ?Est;
    first [ split; [by intros | split; [|done]; constructor; by auto]
          | split; [done|]; no_step ].
Qed.

Lemma set_description_spec sd op pc :
  match set_description sd op pc with
  | (Ok _, pc') => created sd op pc /\ signaling_step sd op (core_of pc) (core_of pc') /\
      exists needed, event_outs pc' = event_outs pc ++ OnSignalingStateChangeEvent (signaling_state pc') :: needed /\
        (needed = [] \/ needed = [OnNegotiationNeededEvent] /\ signaling_state pc' = Stable)
  | (Err _, pc') => pc' = pc /\ ~ (created sd op pc /\ exists c', signaling_step sd op (core_of pc) c')
  | _ => False
  end.
Proof.
  unfold set_description. case_bool_decide as Hty.
  { split; [done|]. intros [_ [c' Hj]]. inversion Hj; congruence. }
  pose proof (next_description_refines sd op pc Hty) as Hn. destruct (next_description_state sd op pc) as [[st|e| |] pc1]; [|done..].
  destruct Hn as (Hc & Hj & He). cbv zeta. cbn [signaling_state over]. split; [done|].
  case_bool_decide as Hst; cbn [signaling_state over].
  - match goal with |- context [trigger_negotiation_needed ?p] => set (pc2 := p) end.
    destruct (trigger_events pc2) as (n & En & Hn). pose proof (trigger_core pc2) as Ec. assert (Es : signaling_state (trigger_negotiation_needed pc2) = st) by (by injection Ec).
    split; [rewrite Ec; exact Hj|]. exists n. rewrite En, Es. subst pc2. cbn [event_outs over do_signaling_state_change] in *. rewrite He, <- (assoc_L app).
    split; [done|]. naive_solver.
  - split; [exact Hj|]. exists []. cbn. rewrite He. by auto.
Qed.
End refinement.

(** C10: [set_description] against the transitions of JSEP (RFC 9429): those of its state
    machine, and the rollback of an offer that has no answer yet, by either call.  It succeeds
    exactly when JSEP has a transition for the description in the signaling state, this is
    not one of the five the code does not take, and, for a local description, it is the last
    that was created.  The five, which JSEP allows and the code refuses, give the peer's
    offer, or a provisional answer of either side, again in the state it led to, or roll the
    offer of one side back by the call for the other side's descriptions.  On success the
    pending and current descriptions and the state are those of the transition, and the
    application is told the new state, and after it at most that negotiation is needed
    again, on reaching the stable state only; otherwise it returns an error and changes
    nothing. *)
Theorem signaling_refines_jsep {Rest} sd op (pc : PeerConnection Rest) :
  let refused := not_taken sd op (signaling_state pc) in
  (refused = true -> exists c', jsep_step sd op (core_of pc) c') /\
  match set_description sd op pc with
  | (Ok _, pc') => created sd op pc /\ refused = false /\ jsep_step sd op (core_of pc) (core_of pc') /\
      exists needed, event_outs pc' = event_outs pc ++ OnSignalingStateChangeEvent (signaling_state pc') :: needed /\
        (needed = [] \/ needed = [OnNegotiationNeededEvent] /\ signaling_state pc' = Stable)
  | (Err _, pc') => pc' = pc /\ ~ (created sd op pc /\ refused = false /\ exists c', jsep_step sd op (core_of pc) c')
  | _ => False
  end.
Proof.
  intros refused. split; [exact (not_taken_jsep sd op (core_of pc))|]. pose proof (set_description_spec sd op pc) as Hs.
  destruct (set_description sd op pc) as [[u|e| |] pc']; [| |done..].
  - destruct Hs as (Hc & Hj & He). apply signaling_step_jsep in Hj as [Hj Hg]. done.
  - destruct Hs as [-> Hn]. split; [done|]. intros (Hc & Hg & c' & Hj). apply Hn. split; [done|]. exists c'. by apply signaling_step_jsep.
Qed.

(** * Two peers

    A signaling channel carries descriptions in order in each direction.  Either peer may
    create a description at any time, offer when it is stable and answer an offer it
    holds.  When offers cross, the polite peer rolls its own back and takes the other's,
    and the other peer ignores the polite one's. *)

Section two_peers.
Context {Rest : Type}.

Record system := mkSystem {
  impolite : PeerConnection Rest;
  polite : PeerConnection Rest;
  to_polite : list RTCSessionDescription;
  to_impolite : list RTCSessionDescription
}.

Definition rollback_description : RTCSessionDescription := mkDescription Rollback "" None.

(** What a peer does that may change anything but its descriptions and signaling state:
    creating an offer or an answer, adding transceivers and channels, emitting events. *)
Definition other_work (pc pc' : PeerConnection Rest) : Prop := core_of pc' = core_of pc.

(** The peer applies a description of its own. *)
Definition applies_local (sd : RTCSessionDescription) (pc pc' : PeerConnection Rest) : Prop :=
  sdp_type sd <> Rollback /\ (sdp_type sd = Offer -> signaling_state pc = Stable) /\ set_description sd SetLocal pc = (Ok tt, pc').

Inductive system_step : system -> system -> Prop :=
| work_impolite a a' b ab ba : other_work a a' -> system_step (mkSystem a b ab ba) (mkSystem a' b ab ba)
| work_polite a b b' ab ba : other_work b b' -> system_step (mkSystem a b ab ba) (mkSystem a b' ab ba)
| send_impolite sd a a' b ab ba : applies_local sd a a' -> system_step (mkSystem a b ab ba) (mkSystem a' b (ab ++ [sd]) ba)
| send_polite sd a b b' ab ba : applies_local sd b b' -> system_step (mkSystem a b ab ba) (mkSystem a b' ab (ba ++ [sd]))
| receive_impolite sd a a' b ab ba : set_description sd SetRemote a = (Ok tt, a') -> system_step (mkSystem a b ab (sd :: ba)) (mkSystem a' b ab ba)
| receive_polite sd a b b' ab ba : set_description sd SetRemote b = (Ok tt, b') -> system_step (mkSystem a b (sd :: ab) ba) (mkSystem a b' ab ba)
| ignore_impolite sd a b ab ba : sdp_type sd = Offer -> signaling_state a <> Stable -> system_step (mkSystem a b ab (sd :: ba)) (mkSystem a b ab ba)
| yield_polite sd a b b1 b' ab ba : sdp_type sd = Offer -> signaling_state b = HaveLocalOffer ->
    set_description rollback_description SetLocal b = (Ok tt, b1) -> set_description sd SetRemote b1 = (Ok tt, b') ->
    system_step (mkSystem a b (sd :: ab) ba) (mkSystem a b' ab ba).

Definition agree (a b : core) : Prop := c_current_local a = c_current_remote b /\ c_current_remote a = c_current_local b.
End two_peers.
Arguments system : clear implicits.

(** ** The same system on descriptions only *)

Record core_system := mkCoreSystem { cs_a : core; cs_b : core; cs_ab : list RTCSessionDescription; cs_ba : list RTCSessionDescription }.
Definition core_system_of {Rest} (s : system Rest) : core_system :=
  mkCoreSystem (core_of (impolite s)) (core_of (polite s)) (to_polite s) (to_impolite s).

Definition core_local (sd : RTCSessionDescription) (c c' : core) : Prop :=
  sdp_type sd <> Rollback /\ (sdp_type sd = Offer -> c_state c = Stable) /\ signaling_step sd SetLocal c c'.

Inductive core_system_step : core_system -> core_system -> Prop :=
| core_stay s : core_system_step s s
| core_send_a sd a a' b ab ba : core_local sd a a' -> core_system_step (mkCoreSystem a b ab ba) (mkCoreSystem a' b (ab ++ [sd]) ba)
| core_send_b sd a b b' ab ba : core_local sd b b' -> core_system_step (mkCoreSystem a b ab ba) (mkCoreSystem a b' ab (ba ++ [sd]))
| core_receive_a sd a a' b ab ba : signaling_step sd SetRemote a a' -> core_system_step (mkCoreSystem a b ab (sd :: ba)) (mkCoreSystem a' b ab ba)
| core_receive_b sd a b b' ab ba : signaling_step sd SetRemote b b' -> core_system_step (mkCoreSystem a b (sd :: ab) ba) (mkCoreSystem a b' ab ba)
| core_ignore_a sd a b ab ba : sdp_type sd = Offer -> c_state a <> Stable -> core_system_step (mkCoreSystem a b ab (sd :: ba)) (mkCoreSystem a b ab ba)
| core_yield_b sd a b b1 b' ab ba : sdp_type sd = Offer -> c_state b = HaveLocalOffer ->
    signaling_step rollback_description SetLocal b b1 -> signaling_step sd SetRemote b1 b' -> core_system_step (mkCoreSystem a b (sd :: ab) ba) (mkCoreSystem a b' ab ba).

Lemma set_description_Ok {Rest} sd op (pc pc' : PeerConnection Rest) : set_description sd op pc = (Ok tt, pc') -> signaling_step sd op (core_of pc) (core_of pc').
Proof. intros E. pose proof (set_description_spec sd op pc) as Hs. rewrite E in Hs. apply Hs. Qed.

Lemma set_remote_enabled {Rest} sd (pc : PeerConnection Rest) c : signaling_step sd SetRemote (core_of pc) c -> exists pc', set_description sd SetRemote pc = (Ok tt, pc').
Proof.
  intros Hj. pose proof (set_description_spec sd SetRemote pc) as Hs. destruct (set_description sd SetRemote pc) as [[[]|e| |] pc']; [by exists pc'| |done..].
  exfalso. apply Hs. split; [done|by exists c].
Qed.

Lemma system_step_core {Rest} (s s' : system Rest) : system_step s s' -> core_system_step (core_system_of s) (core_system_of s').
Proof.
  intros Hs. inversion Hs; subst; unfold core_system_of; cbn [impolite polite to_polite to_impolite];
    try match goal with H : other_work _ _ |- _ => unfold other_work in H; rewrite H; constructor end;
    try match goal with H : applies_local _ _ _ |- _ => destruct H as (? & ? & ?%set_description_Ok) end;
    repeat match goal with H : set_description _ _ _ = _ |- _ => apply set_description_Ok in H end;
    first [by eapply core_receive_a | by eapply core_receive_b | by eapply core_ignore_a | by eapply core_yield_b
          | by eapply core_send_a; split | by eapply core_send_b; split].
Qed.

(** ** Where an exchange can be

    [x] and [y] are the descriptions the two agreed on last. *)

Definition at_rest (cl cr : option RTCSessionDescription) : core := mkCore Stable None None cl cr.
Definition offering (o : RTCSessionDescription) (cl cr : option RTCSessionDescription) : core := mkCore HaveLocalOffer (Some o) None cl cr.
Definition holding (o : RTCSessionDescription) (cl cr : option RTCSessionDescription) : core := mkCore HaveRemoteOffer None (Some o) cl cr.
Definition provisional (r o : RTCSessionDescription) (cl cr : option RTCSessionDescription) : core := mkCore HaveLocalPranswer (Some r) (Some o) cl cr.
Definition awaiting (o r : RTCSessionDescription) (cl cr : option RTCSessionDescription) : core := mkCore HaveRemotePranswer (Some o) (Some r) cl cr.

(** A list of at most one description, of the type given. *)
Definition at_most_one (t : RTCSdpType) (l : list RTCSessionDescription) : Prop := l = [] \/ exists d, l = [d] /\ sdp_type d = t.
(** A peer that answered is at rest, or has made an offer since. *)
Definition renewed (cl cr : option RTCSessionDescription) (c : core) (sent : list RTCSessionDescription) : Prop :=
  (c = at_rest cl cr /\ sent = []) \/ exists q, sdp_type q = Offer /\ c = offering q cl cr /\ sent = [q].

Inductive exchange : core_system -> Prop :=
| ex_idle x y : exchange (mkCoreSystem (at_rest x y) (at_rest y x) [] [])
| ex_a_offered o x y : sdp_type o = Offer -> exchange (mkCoreSystem (offering o x y) (at_rest y x) [o] [])
| ex_b_offered p x y : sdp_type p = Offer -> exchange (mkCoreSystem (at_rest x y) (offering p y x) [] [p])
| ex_crossed o p x y st : sdp_type o = Offer -> sdp_type p = Offer -> at_most_one Offer st ->
    exchange (mkCoreSystem (offering o x y) (offering p y x) [o] st)
| ex_a_held o x y st : at_most_one Offer st -> exchange (mkCoreSystem (offering o x y) (holding o y x) [] st)
| ex_a_provisional o r x y st : at_most_one Offer st -> sdp_type r = Pranswer -> exchange (mkCoreSystem (offering o x y) (provisional r o y x) [] (st ++ [r]))
| ex_a_awaiting o r x y : exchange (mkCoreSystem (awaiting o r x y) (provisional r o y x) [] [])
| ex_a_answered o a x y st rs b q : at_most_one Offer st -> at_most_one Pranswer rs -> sdp_type a = Answer -> renewed (Some a) (Some o) b q ->
    exchange (mkCoreSystem (offering o x y) b [] (st ++ rs ++ a :: q))
| ex_a_answered' o r a x y b q : sdp_type a = Answer -> renewed (Some a) (Some o) b q -> exchange (mkCoreSystem (awaiting o r x y) b [] (a :: q))
| ex_b_held p x y : exchange (mkCoreSystem (holding p x y) (offering p y x) [] [])
| ex_b_provisional p r x y : sdp_type r = Pranswer -> exchange (mkCoreSystem (provisional r p x y) (offering p y x) [r] [])
| ex_b_awaiting p r x y : exchange (mkCoreSystem (provisional r p x y) (awaiting p r y x) [] [])
| ex_b_answered p a x y rs c q : at_most_one Pranswer rs -> sdp_type a = Answer -> renewed (Some a) (Some p) c q ->
    exchange (mkCoreSystem c (offering p y x) (rs ++ a :: q) [])
| ex_b_answered' p r a x y c q : sdp_type a = Answer -> renewed (Some a) (Some p) c q -> exchange (mkCoreSystem c (awaiting p r y x) (a :: q) []).

Ltac exchange_cases :=
  repeat match goal with
  | H : at_most_one _ _ |- _ => destruct H as [?|(? & ? & ?)]; simplify_eq
  | H : renewed _ _ _ _ |- _ => destruct H as [[-> ->]|(? & ? & -> & ->)]
  end; cbn in *; simplify_eq.
Ltac step_inv :=
  repeat match goal with
  | H : core_local _ _ _ |- _ => destruct H as (? & ? & H)
  | H : signaling_step _ _ _ _ |- _ => inversion H; subst; clear H
  | H : _ \/ _ |- _ => destruct H
  | H : ?t = Offer -> _, H' : ?t = Offer |- _ => specialize (H H')
  end; cbn in *; try congruence; simplify_eq.

Ltac exchange_side := first [done | by left | right; eexists; by split_and!].
Ltac exchange_solve := first
  [ apply ex_idle | apply ex_a_offered; done | apply ex_b_offered; done | apply ex_crossed; exchange_side
  | apply ex_a_held; exchange_side | apply (ex_a_provisional _ _ _ _ []); exchange_side | apply (ex_a_provisional _ _ _ _ [_]); exchange_side
  | apply ex_a_awaiting | apply (ex_a_answered _ _ _ _ [] []); exchange_side | apply (ex_a_answered _ _ _ _ [] [_]); exchange_side
  | apply (ex_a_answered _ _ _ _ [_] []); exchange_side | apply (ex_a_answered _ _ _ _ [_] [_]); exchange_side | apply ex_a_answered'; exchange_side
  | apply ex_b_held | apply ex_b_provisional; done | apply ex_b_awaiting | apply (ex_b_answered _ _ _ _ []); exchange_side
  | apply (ex_b_answered _ _ _ _ [_]); exchange_side | apply ex_b_answered'; exchange_side ].

Lemma exchange_step s s' : exchange s -> core_system_step s s' -> exchange s'.
Proof.
  intros He Hs. destruct Hs as [s|sd a a' b ab ba Hl|sd a b b' ab ba Hl|sd a a' b ab ba Hj|sd a b b' ab ba Hj|sd a b ab ba Hty Hst|sd a b b1 b' ab ba Hty Hst Hj Hj'].
  { done. }
  all: inversion He; subst; clear He; exchange_cases; step_inv; exchange_solve.
Qed.

(** ** Every exchange can be brought to rest *)

Definition weight (c : core) : nat := match c_state c with HaveRemoteOffer | HaveLocalPranswer => 3 | _ => 0 end.
Definition message_weight (d : RTCSessionDescription) : nat := match sdp_type d with Offer => 5 | _ => 1 end.
Definition unrest (s : core_system) : nat :=
  weight (cs_a s) + weight (cs_b s) + sum_list_with message_weight (cs_ab s) + sum_list_with message_weight (cs_ba s).
Definition resting (s : core_system) : Prop :=
  c_state (cs_a s) = Stable /\ c_state (cs_b s) = Stable /\ cs_ab s = [] /\ cs_ba s = [].

Definition some_answer : RTCSessionDescription := mkDescription Answer "" None.

Lemma exchange_progress s : exchange s -> resting s \/ exists s', core_system_step s s' /\ (unrest s' < unrest s)%nat.
Proof.
  intros He. destruct He; exchange_cases; [by left|..]; right;
    first [ eexists; split; [by eapply core_receive_b; econstructor; eauto|]
          | eexists; split; [by eapply core_receive_a; econstructor; eauto|]
          | eexists; split; [by eapply core_ignore_a|]
          | eexists; split; [by eapply core_yield_b; [..|econstructor|econstructor; eauto]|]
          | eexists; split; [by eapply (core_send_b some_answer); split; [|split; [|econstructor; eauto]]|]
          | eexists; split; [by eapply (core_send_a some_answer); split; [|split; [|econstructor; eauto]]|] ];
    unfold unrest, message_weight; cbn; repeat match goal with H : sdp_type _ = _ |- _ => rewrite H end; lia.
Qed.

Lemma exchange_settles s : exchange s -> exists s', rtc core_system_step s s' /\ resting s' /\ exchange s'.
Proof.
  induction (well_founded_ltof _ unrest s) as [s _ IH]. intros He. destruct (exchange_progress s He) as [Hr|(s1 & Hs & Hlt)]; [by exists s|].
  destruct (IH s1 Hlt (exchange_step _ _ He Hs)) as (s' & Hs' & Hr & He'). exists s'. split; [by eapply rtc_l|done].
Qed.

Lemma resting_agrees s : exchange s -> resting s -> agree (cs_a s) (cs_b s).
Proof. intros He (Ha & Hb & Hab & Hba). destruct He; exchange_cases; try discriminate; by split. Qed.

(** Each peer can take what is in flight to it. *)
Lemma exchange_head_b s sd l : exchange s -> cs_ab s = sd :: l ->
  (exists c, signaling_step sd SetRemote (cs_b s) c) \/
  sdp_type sd = Offer /\ c_state (cs_b s) = HaveLocalOffer /\ exists c1 c2, signaling_step rollback_description SetLocal (cs_b s) c1 /\ signaling_step sd SetRemote c1 c2.
Proof.
  intros He El. destruct He; exchange_cases; try discriminate; simplify_eq; first [left; eexists; by econstructor; eauto | right; split_and!; [done..|]].
  all: do 2 eexists; split; by econstructor.
Qed.
Lemma exchange_head_a s sd l : exchange s -> cs_ba s = sd :: l ->
  (exists c, signaling_step sd SetRemote (cs_a s) c) \/ sdp_type sd = Offer /\ c_state (cs_a s) <> Stable.
Proof. intros He El. destruct He; exchange_cases; try discriminate; simplify_eq; first [left; eexists; by econstructor; eauto | by right]. Qed.

(** ** Back to the connections *)

Lemma signaling_deterministic sd op c c1 c2 : signaling_step sd op c c1 -> signaling_step sd op c c2 -> c1 = c2.
Proof. intros H1 H2. inversion H1; subst; inversion H2; subst; congruence. Qed.

Lemma local_enabled {Rest} sd (pc : PeerConnection Rest) c : core_local sd (core_of pc) c ->
  exists pc1 pc', other_work pc pc1 /\ applies_local sd pc1 pc' /\ core_of pc' = c.
Proof.
  intros (Hr & Ho & Hj). set (pc1 := pc <| last_offer := sdp sd |> <| last_answer := sdp sd |>). exists pc1.
  pose proof (set_description_spec sd SetLocal pc1) as Hs. destruct (set_description sd SetLocal pc1) as [[[]|e| |] pc'] eqn:E; [| |done..].
  - exists pc'. split; [done|]. split; [by split|]. destruct Hs as (_ & Hj' & _). change (core_of pc1) with (core_of pc) in Hj'.
    by eapply signaling_deterministic.
  - exfalso. apply Hs. split; [intros _; unfold pc1; by destruct (sdp_type sd)|by exists c].
Qed.

Lemma rollback_enabled {Rest} (pc : PeerConnection Rest) c : signaling_step rollback_description SetLocal (core_of pc) c ->
  exists pc', set_description rollback_description SetLocal pc = (Ok tt, pc') /\ core_of pc' = c.
Proof.
  intros Hj. pose proof (set_description_spec rollback_description SetLocal pc) as Hs.
  destruct (set_description rollback_description SetLocal pc) as [[[]|e| |] pc'] eqn:E; [| |done..].
  - exists pc'. split; [done|]. symmetry. eapply signaling_deterministic; [done|]. by apply set_description_Ok.
  - exfalso. apply Hs. split; [done|by exists c].
Qed.

(** A move of the descriptions is a move of the connections. *)
Lemma core_step_system {Rest} (s : system Rest) c : core_system_step (core_system_of s) c -> exists s', rtc system_step s s' /\ core_system_of s' = c.
Proof.
  destruct s as [a b ab ba]. unfold core_system_of. cbn [impolite polite to_polite to_impolite]. intros Hs.
  inversion Hs as [|sd ? ca ? ? ? Hl|sd ? ? cb ? ? Hl|sd ? ca ? ? l Hj|sd ? ? cb l ? Hj|sd ? ? ? l Hty Hst|sd ? ? b1 cb l ? Hty Hst Hj Hj']; subst; clear Hs.
  - by eexists.
  - destruct (local_enabled _ _ _ Hl) as (a1 & a' & Hw & Ha & <-). exists (mkSystem a' b (ab ++ [sd]) ba). split; [|done].
    eapply rtc_l; [by apply work_impolite|]. by apply rtc_once, send_impolite.
  - destruct (local_enabled _ _ _ Hl) as (b1 & b' & Hw & Hb & <-). exists (mkSystem a b' ab (ba ++ [sd])). split; [|done].
    eapply rtc_l; [by apply work_polite|]. by apply rtc_once, send_polite.
  - destruct (set_remote_enabled _ _ _ Hj) as (a1 & E). exists (mkSystem a1 b ab l). split; [by eapply rtc_once, receive_impolite|].
    by rewrite (signaling_deterministic _ _ _ _ _ Hj (set_description_Ok _ _ _ _ E)).
  - destruct (set_remote_enabled _ _ _ Hj) as (b1 & E). exists (mkSystem a b1 l ba). split; [by eapply rtc_once, receive_polite|].
    by rewrite (signaling_deterministic _ _ _ _ _ Hj (set_description_Ok _ _ _ _ E)).
  - exists (mkSystem a b ab l). split; [by eapply rtc_once, ignore_impolite|done].
  - destruct (rollback_enabled _ _ Hj) as (b2 & E & <-). destruct (set_remote_enabled _ _ _ Hj') as (b3 & E'). exists (mkSystem a b3 l ba).
    split; [by eapply rtc_once, yield_polite|]. by rewrite (signaling_deterministic _ _ _ _ _ Hj' (set_description_Ok _ _ _ _ E')).
Qed.

Lemma core_steps_system {Rest} c c' : rtc core_system_step c c' -> forall s : system Rest, core_system_of s = c -> exists s', rtc system_step s s' /\ core_system_of s' = c'.
Proof.
  induction 1 as [c|c c1 c' Hs _ IH]; intros s Es; [by exists s|]. rewrite <- Es in Hs. destruct (core_step_system s c1 Hs) as (s1 & H1 & E1).
  destruct (IH s1 E1) as (s' & H2 & E2). exists s'. split; [by etrans|done].
Qed.

Lemma system_exchange {Rest} (s s' : system Rest) : rtc system_step s s' -> exchange (core_system_of s) -> exchange (core_system_of s').
Proof. induction 1 as [|s s1 s' Hs _ IH]; intros He; [done|]. apply IH. eapply exchange_step; [done|by apply system_step_core]. Qed.

(** C5: Two peer connections that exchange descriptions over an ordered signaling channel,
    offering, answering, also provisionally, and renegotiating as they like, with crossing
    offers settled by rollback at one of them: whenever both are stable and nothing is in
    flight, each one's current local description is the other's current remote one; no
    description in flight is ever stuck, whatever interleaving led there; and every run
    can be continued until both are stable with nothing in flight. *)
Theorem perfect_negotiation_agrees {Rest} (s : system Rest) : rtc system_step (mkSystem PeerConnection_new PeerConnection_new [] []) s ->
  (resting (core_system_of s) -> agree (core_of (impolite s)) (core_of (polite s))) /\
  (forall sd l, to_polite s = sd :: l -> exists b, system_step s (mkSystem (impolite s) b l (to_impolite s))) /\
  (forall sd l, to_impolite s = sd :: l -> exists a, system_step s (mkSystem a (polite s) (to_polite s) l)) /\
  exists s', rtc system_step s s' /\ resting (core_system_of s').
Proof.
  intros Hr. pose proof (system_exchange _ _ Hr (ex_idle None None)) as He. split; [|split; [|split]].
  - intros. by apply (resting_agrees (core_system_of s)).
  - destruct s as [a b ab ba]. cbn. intros sd l ->. destruct (exchange_head_b _ _ _ He eq_refl) as [[c Hj]|(Ht & Hs & c1 & c2 & H1 & H2)].
    + destruct (set_remote_enabled _ _ _ Hj) as (b' & E). exists b'. by eapply receive_polite.
    + destruct (rollback_enabled _ _ H1) as (b1 & E1 & <-). destruct (set_remote_enabled _ _ _ H2) as (b2 & E2). exists b2. by eapply yield_polite.
  - destruct s as [a b ab ba]. cbn. intros sd l ->. destruct (exchange_head_a _ _ _ He eq_refl) as [[c Hj]|[Ht Hs]].
    + destruct (set_remote_enabled _ _ _ Hj) as (a' & E). exists a'. by eapply receive_impolite.
    + exists a. by eapply ignore_impolite.
  - destruct (exchange_settles _ He) as (c & Hs & Hrest & _). destruct (core_steps_system _ _ Hs s eq_refl) as (s' & Hs' & <-). by exists s'.
Qed.

(** Both peers offer, the polite one yields and answers. *)
Definition example_offer (text : string) : RTCSessionDescription := mkDescription Offer text None.
Definition example_answer (text : string) : RTCSessionDescription := mkDescription Answer text None.
Definition offered (text : string) : PeerConnection unit :=
  snd (set_description (example_offer text) SetLocal (PeerConnection_new <| last_offer := text |>)).
Definition yielded (text : string) (pc : PeerConnection unit) : PeerConnection unit :=
  snd (set_description (example_offer text) SetRemote (snd (set_description rollback_description SetLocal pc))).
Definition answered (text : string) (pc : PeerConnection unit) : PeerConnection unit :=
  snd (set_description (example_answer text) SetLocal (pc <| last_answer := text |>)).

Definition impolite_offers : PeerConnection unit := offered "a".
Definition polite_yields : PeerConnection unit := yielded "a" (offered "b").
Definition polite_answers : PeerConnection unit := answered "c" polite_yields.
Definition impolite_settles : PeerConnection unit := snd (set_description (example_answer "c") SetRemote impolite_offers).

Definition example_end : system unit := mkSystem impolite_settles polite_answers [] [].

Lemma example_run : rtc system_step (mkSystem PeerConnection_new PeerConnection_new [] []) example_end.
Proof.
  eapply rtc_l; [by apply (work_impolite _ (PeerConnection_new <| last_offer := "a"%string |>))|].
  eapply rtc_l; [by apply (work_polite _ _ (PeerConnection_new <| last_offer := "b"%string |>))|].
  eapply rtc_l; [apply (send_impolite (example_offer "a") _ impolite_offers); split_and!; [discriminate|done|vm_compute; reflexivity]|].
  eapply rtc_l; [apply (send_polite (example_offer "b") _ _ (offered "b")); split_and!; [discriminate|done|vm_compute; reflexivity]|].
  eapply rtc_l; [apply (yield_polite (example_offer "a") _ _ (snd (set_description rollback_description SetLocal (offered "b"))) polite_yields); vm_compute; reflexivity|].
  eapply rtc_l; [apply ignore_impolite; [done|vm_compute; discriminate]|].
  eapply rtc_l; [apply (work_polite _ _ (polite_yields <| last_answer := "c"%string |>)); vm_compute; reflexivity|].
  eapply rtc_l; [apply (send_polite (example_answer "c") _ _ polite_answers); split_and!; [discriminate|discriminate|vm_compute; reflexivity]|].
  apply rtc_once. apply receive_impolite. vm_compute. reflexivity.
Qed.

Lemma perfect_negotiation_agrees_witness :
  agree (core_of (impolite example_end)) (core_of (polite example_end)) /\
  current_remote_description (polite example_end) = Some (example_offer "a") /\ current_local_description (polite example_end) = Some (example_answer "c").
Proof.
  assert (Hrest : resting (core_system_of example_end)) by (unfold resting; split_and!; vm_compute; reflexivity).
  split; [exact (proj1 (perfect_negotiation_agrees example_end example_run) Hrest)|]. split; vm_compute; reflexivity.
Defined.

(** * Rolling back a remote offer *)

Section rollback.
Context {Rest : Type} `{Codecs Rest}.
Implicit Types t : Transceiver Rest.

(** Created by the pending remote offer, and no track attached since. *)
Definition fresh t : Prop := t_created_by_remote_description t = true /\ t_sender t = None.

Lemma remove_created_filter i (ts : list (Transceiver Rest)) : (i <= length ts)%nat ->
  remove_created i ts = filter (fun t => ~ fresh t) (take i ts) ++ drop i ts.
Proof.
  revert ts. induction i as [|i IH]; intros ts Hi; [done|]. cbn [remove_created].
  destruct (lookup_lt_is_Some_2 ts i ltac:(lia)) as [t Ht]. rewrite Ht, (take_S_r _ _ _ Ht), filter_app, filter_cons, filter_nil.
  destruct (decide (fresh t)) as [Hf|Hf].
  - rewrite decide_False by tauto. destruct Hf as [-> ->]. cbn [andb]. rewrite bool_decide_false by (by intros []). cbn [negb]. rewrite app_nil_r.
    rewrite delete_take_drop, take_insert_ge, drop_insert_lt by lia. rewrite IH by (rewrite length_app, length_take; lia).
    rewrite take_app_le, take_take, Nat.min_id by (rewrite length_take; lia). rewrite drop_app_le by (rewrite length_take; lia).
    rewrite (drop_ge (take i ts)) by (rewrite length_take; lia). done.
  - rewrite decide_True by done. assert (t_created_by_remote_description t && negb (bool_decide (is_Some (t_sender t))) = false) as ->.
    { unfold fresh in Hf. destruct (t_created_by_remote_description t); [|done]. destruct (t_sender t); [done|tauto]. }
    rewrite IH by lia. rewrite (drop_S _ _ _ Ht). by rewrite <- (assoc_L app).
Qed.

(** What applying an offer may do to a transceiver, apart from its direction: stop it, and
    give it the identification tag of a new section. *)
Definition touched (mids : gset string) t t' : Prop :=
  t_kind t' = t_kind t /\ se_stream_id <$> t_sender t' = se_stream_id <$> t_sender t /\
  t_created_by_remote_description t' = t_created_by_remote_description t /\
  (t_mid t' = t_mid t \/ t_mid t = None /\ exists mid, t_mid t' = Some mid /\ mid ∉ mids).

Definition applied (mids : gset string) (ts0 ts : list (Transceiver Rest)) : Prop :=
  exists old new, ts = old ++ new /\ Forall2 (touched mids) ts0 old /\ Forall fresh new.

Lemma touched_refl mids t : touched mids t t.
Proof. by repeat split; auto. Qed.
Lemma applied_refl mids ts : applied mids ts ts.
Proof. exists ts, []. rewrite app_nil_r. split; [done|]. split; [|done]. apply Forall_Forall2_diag, Forall_forall. intros. apply touched_refl. Qed.

(** A change of one transceiver that keeps both relations. *)
Lemma applied_insert mids ts0 ts i t t' : applied mids ts0 ts -> ts !! i = Some t ->
  (forall t0, touched mids t0 t -> touched mids t0 t') -> (fresh t -> fresh t') -> applied mids ts0 (<[i := t']> ts).
Proof.
  intros (old & new & -> & Ho & Hn) Hi Ht Hf. destruct (decide (i < length old)%nat) as [Hlt|Hge].
  - rewrite insert_app_l by done. rewrite lookup_app_l in Hi by done. exists (<[i := t']> old), new. split; [done|]. split; [|done].
    destruct (Forall2_lookup_r _ _ _ _ _ Ho Hi) as (t0 & H0 & Htt). rewrite <- (list_insert_id ts0 i t0 H0). apply Forall2_insert; auto.
  - rewrite insert_app_r_alt by lia. rewrite lookup_app_r in Hi by lia. exists old, (<[i - length old := t']> new)%nat. split; [done|]. split; [done|].
    apply Forall_insert; [done|]. apply Hf. by eapply Forall_lookup_1.
Qed.

Lemma trigger_transceivers (pc : PeerConnection Rest) : rtp_transceivers (trigger_negotiation_needed pc) = rtp_transceivers pc.
Proof.
  unfold trigger_negotiation_needed, do_negotiation_needed. destruct (negotiation_needed_state pc) eqn:E; [|done..].
  unfold negotiation_needed_op. cbn. repeat (case_match; cbn; try done).
Qed.

Lemma touched_stop mids t0 t : touched mids t0 t -> touched mids t0 (Transceiver_stop t).
Proof.
  unfold touched, Transceiver_stop. destruct (t_stopped t); [done|]. cbn. intros (H1 & H2 & H3 & H4). repeat split; try done.
  rewrite <- H2. by destruct (t_sender t).
Qed.
Lemma fresh_stop t : fresh t -> fresh (Transceiver_stop t).
Proof. unfold fresh, Transceiver_stop. destruct (t_stopped t); [done|]. cbn. intros [-> ->]. done. Qed.

Lemma match_transceiver_keeps mids mid d m t r t' : match_transceiver mid d m t = (r, t') -> (t_mid t = None -> mid ∉ mids) ->
  (forall t0, touched mids t0 t -> touched mids t0 t') /\ (fresh t -> fresh t').
Proof.
  unfold match_transceiver, touched, fresh, set_mid. cbn. intros E Hm.
  destruct (codecs_from_remote m (t_kind t) (t_rest t)); simplify_eq/=; try by split.
  destruct (t_mid t) as [x|] eqn:Et; simplify_eq/=; [rewrite Et; by split|]. split; [|done]. intros t0 (? & ? & ? & Hmid). repeat split; try done.
  right. destruct Hmid as [Hx|(? & ? & ? & _)]; [|done]. split; [congruence|]. exists mid. auto.
Qed.

Lemma find_by_mid_spec mid (ts : list (Transceiver Rest)) i : find_by_mid mid ts = Some i -> exists t, ts !! i = Some t /\ t_mid t = Some mid.
Proof. unfold find_by_mid. destruct (list_find _ ts) as [[j t]|] eqn:E; [|done]. intros [= <-]. apply list_find_Some in E as (? & ? & _). by exists t. Qed.
Lemma find_by_mid_None mid (ts : list (Transceiver Rest)) t : find_by_mid mid ts = None -> t ∈ ts -> t_mid t <> Some mid.
Proof. unfold find_by_mid. destruct (list_find _ ts) as [[j t']|] eqn:E; [done|]. apply list_find_None in E. rewrite Forall_forall in E. intros _ ?. by apply E. Qed.
Lemma satisfy_spec kind d (ts : list (Transceiver Rest)) i : satisfy_type_and_direction kind d ts = Some i -> exists t, ts !! i = Some t /\ t_mid t = None.
Proof.
  unfold satisfy_type_and_direction. intros E. apply head_Some_elem_of, list_elem_of_omap in E as (x & _ & E). unfold find_unassociated in E.
  destruct (list_find _ ts) as [[j t]|] eqn:F; [|done]. injection E as <-. apply list_find_Some in F as (? & (? & _) & _). by exists t.
Qed.

(** The tag of a section that is not associated yet is not a negotiated one. *)
Definition new_sections (mids : gset string) (ts0 : list (Transceiver Rest)) (m : MediaDescription) : Prop :=
  forall mid, get_mid_value m = Some mid -> mid ∈ mids -> exists t, t ∈ ts0 /\ t_mid t = Some mid.

Lemma applied_mid mids ts0 ts t mid : applied mids ts0 ts -> t ∈ ts0 -> t_mid t = Some mid -> exists t', t' ∈ ts /\ t_mid t' = Some mid.
Proof.
  intros (old & new & -> & Ho & _) Ht Hm. apply list_elem_of_lookup in Ht as [i Hi]. destruct (Forall2_lookup_l _ _ _ _ _ Ho Hi) as (t' & Hi' & (_ & _ & _ & Hmid)).
  exists t'. split; [apply elem_of_app; left; by eapply list_elem_of_lookup_2|]. destruct Hmid as [->|[? _]]; congruence.
Qed.

Lemma apply_media_applied mids ts0 m (pc : PeerConnection Rest) : new_sections mids ts0 m -> applied mids ts0 (rtp_transceivers pc) ->
  applied mids ts0 (rtp_transceivers (apply_media m pc).2) /\ core_of (apply_media m pc).2 = core_of pc.
Proof.
  intros Hnew Ha. unfold apply_media. destruct (get_mid_value m) as [mid|] eqn:Emid; [|done]. case_bool_decide; [done|]. destruct (is_webrtc_datachannel m); [done|]. cbv zeta.
  destruct (bool_decide _ || bool_decide _); [done|]. destruct (find_by_mid mid (rtp_transceivers pc)) as [i|] eqn:Ef.
  - apply find_by_mid_spec in Ef as (t & Ht & Etm). set (pc1 := if bool_decide _ then _ else pc).
    assert (H1 : applied mids ts0 (rtp_transceivers pc1) /\ core_of pc1 = core_of pc /\ exists t1, rtp_transceivers pc1 !! i = Some t1 /\ t_mid t1 = Some mid).
    { subst pc1. case_bool_decide; [|split; [done|split; [done|by exists t]]]. cbn. split; [|split; [done|]].
      - assert (alter Transceiver_stop i (rtp_transceivers pc) = <[i := Transceiver_stop t]> (rtp_transceivers pc)) as ->.
        { rewrite list_insert_alter. apply list_alter_ext; [|done]. intros x Hx. congruence. }
        eapply applied_insert; [done..|intros; by apply touched_stop|by apply fresh_stop].
      - exists (Transceiver_stop t). split; [rewrite list_lookup_alter_eq; by rewrite Ht|]. unfold Transceiver_stop. by destruct (t_stopped t). }
    destruct H1 as (H1 & Hc & t1 & Ht1 & Em1). rewrite Ht1. destruct (match_transceiver mid _ m t1) as [r t'] eqn:Em. cbn [snd]. split; [|exact Hc]. cbn.
    destruct (match_transceiver_keeps mids _ _ _ _ _ _ Em) as [Hk1 Hk2]; [congruence|]. by eapply applied_insert.
  - destruct (satisfy_type_and_direction _ _ _) as [i|] eqn:Es.
    + apply satisfy_spec in Es as (t & Ht & Etm). rewrite Ht. destruct (match_transceiver mid _ m t) as [r t'] eqn:Em. cbn. split; [|done].
      destruct (match_transceiver_keeps mids _ _ _ _ _ _ Em) as [Hk1 Hk2]; [|by eapply applied_insert]. intros _ Hin.
      destruct (Hnew mid Emid Hin) as (t1 & Ht1 & Em1). destruct (applied_mid _ _ _ _ _ Ha Ht1 Em1) as (t2 & Ht2 & Em2). by apply (find_by_mid_None _ _ _ Ef Ht2).
    + destruct (created_transceiver mid _ _ m) as [t|e| |] eqn:Ec; [|done..]. cbn [snd]. unfold add_rtp_transceiver. rewrite trigger_core, trigger_transceivers. split; [|done]. cbn.
      destruct Ha as (old & new & -> & Ho & Hn). exists old, (new ++ [t]). split; [by rewrite (assoc_L app)|]. split; [done|]. apply Forall_app. split; [done|]. apply Forall_singleton.
      unfold created_transceiver in Ec. cbn in Ec. destruct (codecs_from_remote _ _ _); simplify_eq/=. done.
Qed.

Lemma apply_remote_offer_applied mids ts0 media (pc : PeerConnection Rest) : (forall m, m ∈ media -> new_sections mids ts0 m) -> applied mids ts0 (rtp_transceivers pc) ->
  applied mids ts0 (rtp_transceivers (apply_remote_offer media pc).2) /\ core_of (apply_remote_offer media pc).2 = core_of pc.
Proof.
  revert pc. induction media as [|m media IH]; intros pc Hnew Ha; [done|]. cbn [apply_remote_offer].
  destruct (apply_media_applied mids ts0 m pc (Hnew m ltac:(by left)) Ha) as [H1 Hc]. destruct (apply_media m pc) as [[[]|e| |] pc1]; [|done..].
  cbn [snd] in *. destruct (IH pc1 ltac:(intros; apply Hnew; by right) H1) as [H2 Hc2]. split; [done|]. by rewrite Hc2.
Qed.

(** What rollback leaves of the transceivers. *)
Definition after_rollback (mids : gset string) (ts : list (Transceiver Rest)) : list (Transceiver Rest) :=
  (fun t => t <| t_created_by_remote_description := false |>) <$> (disassociate_new mids <$> remove_created (length ts) ts).

Lemma set_rollback pc : signaling_state pc = HaveRemoteOffer -> exists pc', set_description rollback_description SetRemote pc = (Ok tt, pc') /\
  core_of pc' = with_state Stable (core_of (pc <| pending_remote_description := None |>)) /\
  rtp_transceivers pc' = after_rollback (current_description_mids pc) (rtp_transceivers pc).
Proof.
  intros Hs. unfold set_description, next_description_state. cbn [sdp_type rollback_description]. rewrite bool_decide_false by done. cbv zeta. rewrite Hs. cbn -[trigger_negotiation_needed].
  eexists. split; [reflexivity|]. rewrite !bool_decide_true by done. rewrite trigger_core, trigger_transceivers. done.
Qed.

(** A transceiver as rollback leaves it: its tag is kept where it is one of the current
    descriptions'. *)
Definition restored (mids : gset string) t t' : Prop :=
  t_mid t' = (mid ← t_mid t; if bool_decide (mid ∈ mids) then Some mid else None) /\ t_kind t' = t_kind t /\ se_stream_id <$> t_sender t' = se_stream_id <$> t_sender t /\ t_created_by_remote_description t' = false.

Lemma applied_rollback mids ts0 ts : applied mids ts0 ts ->
  (forall t, t ∈ ts0 -> t_created_by_remote_description t = false) -> Forall2 (restored mids) ts0 (after_rollback mids ts).
Proof.
  intros (old & new & -> & Ho & Hn) H0. unfold after_rollback. rewrite remove_created_filter by done. rewrite drop_ge, take_ge, app_nil_r, filter_app by done.
  assert (filter (fun t => ~ fresh t) new = []) as ->.
  { clear -Hn. induction Hn as [|t new Ht _ IH]; [done|]. rewrite filter_cons, decide_False by tauto. exact IH. }
  rewrite app_nil_r. clear Hn new. induction Ho as [|t t' ts0 old (Hk & Hse & Hcr & Hmid) _ IH]; [constructor|].
  pose proof (H0 t ltac:(by left)) as Hf. rewrite filter_cons, decide_True by (intros [? _]; congruence). cbn [fmap list_fmap].
  constructor; [|apply IH; intros; apply H0; by right]. unfold restored, disassociate_new, disassociate.
  destruct Hmid as [Hmid|(Hmid & mid & Hmid' & Hni)].
  - rewrite Hmid. destruct (t_mid t) as [mid|] eqn:Em; [case_bool_decide|]; split_and!; cbn; rewrite ?Hmid; auto; by case_bool_decide.
  - rewrite Hmid, Hmid', bool_decide_false by done. cbn. auto.
Qed.
End rollback.

(** C26: Rolling a remote offer back, whether applying its media sections succeeded or stopped
    at an error, always succeeds and restores the descriptions and the signaling state; every
    transceiver is back in its place with its kind and track, and with its identification tag
    if the current descriptions have it, and those the offer created are gone.  A tag that is
    in no current description is lost, also one the transceiver had before the offer
    ([create_offer] gives such tags).  Before the offer the connection is stable with no
    remote offer pending and no transceiver is marked as created by an offer (the mark is
    cleared on reaching the stable state), and every section of the offer with a tag of the
    current descriptions has a transceiver with that tag. *)
Theorem rollback_undoes_remote_offer {Rest} (codecs : Codecs Rest) (pc : PeerConnection Rest) sd p :
  sdp_type sd = Offer -> parsed sd = Some p ->
  signaling_state pc = Stable -> pending_remote_description pc = None ->
  (forall t, t ∈ rtp_transceivers pc -> t_created_by_remote_description t = false) ->
  (forall m, m ∈ media_descriptions p -> new_sections (current_description_mids pc) (rtp_transceivers pc) m) ->
  exists pc1 r pc2 pc3, set_description sd SetRemote pc = (Ok tt, pc1) /\
    apply_remote_offer (media_descriptions p) pc1 = (r, pc2) /\
    set_description rollback_description SetRemote pc2 = (Ok tt, pc3) /\
    core_of pc3 = core_of pc /\ Forall2 (restored (current_description_mids pc)) (rtp_transceivers pc) (rtp_transceivers pc3).
Proof.
  intros Ht _ Hst Hpr Hts Hnew. set (pc1 := do_signaling_state_change HaveRemoteOffer (pc <| pending_remote_description := Some sd |> <| signaling_state := HaveRemoteOffer |>)).
  assert (E1 : set_description sd SetRemote pc = (Ok tt, pc1)).
  { unfold set_description, next_description_state. rewrite Ht, Hst. done. }
  destruct (apply_remote_offer_applied (current_description_mids pc) (rtp_transceivers pc) _ pc1 Hnew (applied_refl _ _)) as [Ha Hc].
  destruct (apply_remote_offer (media_descriptions p) pc1) as [r pc2] eqn:E2. cbn [snd] in *.
  destruct (set_rollback pc2) as (pc3 & E3 & Hc3 & Ht3); [by injection Hc|]. exists pc1, r, pc2, pc3. split_and!; [done..| |].
  - rewrite Hc3. destruct pc, pc2. cbn in *. injection Hc. intros. subst. done.
  - rewrite Ht3. assert (current_description_mids pc2 = current_description_mids pc) as ->.
    { unfold current_description_mids. injection Hc. by intros -> -> _ _ _. }
    by apply applied_rollback.
Qed.

(** A connection with one transceiver that sends and receives video, and an offer with a
    video section to send to and an audio section to receive from. *)
#[local] Instance any_codecs : Codecs unit := {| codecs_from_remote _ _ r := Ok r; new_rest _ := tt |}.
Definition example_connection : PeerConnection unit :=
  PeerConnection_new <| rtp_transceivers := [mkTransceiver None Video (Some (mkSender "s" false false)) Sendrecv DirUnspecified false false tt] |>.
Definition example_media : list MediaDescription :=
  [mkMediaDescription "video" [] [mkAttribute "mid" (Some "0"%string); mkAttribute "recvonly" None];
   mkMediaDescription "audio" [] [mkAttribute "mid" (Some "1"%string); mkAttribute "sendonly" None]].
Definition example_remote_offer : RTCSessionDescription := mkDescription Offer "v=0" (Some (mkSessionDescription example_media)).

Lemma rollback_undoes_remote_offer_witness :
  exists pc1 r pc2 pc3, set_description example_remote_offer SetRemote example_connection = (Ok tt, pc1) /\
    apply_remote_offer example_media pc1 = (r, pc2) /\ set_description rollback_description SetRemote pc2 = (Ok tt, pc3) /\
    Forall2 (restored ∅) (rtp_transceivers example_connection) (rtp_transceivers pc3).
Proof.
  destruct (rollback_undoes_remote_offer any_codecs example_connection example_remote_offer (mkSessionDescription example_media))
    as (pc1 & r & pc2 & pc3 & E1 & E2 & E3 & _ & F); [reflexivity..| | |].
  - intros t [->|Hn]%elem_of_cons; [|by apply elem_of_nil in Hn]. reflexivity.
  - intros m _ mid _ Hin. exfalso. revert Hin. apply not_elem_of_empty.
  - exists pc1, r, pc2, pc3. split_and!; assumption.
Defined.

(** The direction the offer gave a transceiver is not undone: it sent and received before
    the offer, and only sends after the rollback. *)
Lemma rollback_keeps_direction :
  let pc1 := snd (set_description example_remote_offer SetRemote example_connection) in
  let pc2 := snd (apply_remote_offer example_media pc1) in
  let pc3 := snd (set_description rollback_description SetRemote pc2) in
  t_direction <$> rtp_transceivers example_connection = [Sendrecv] /\ t_direction <$> rtp_transceivers pc3 = [Sendonly] /\ signaling_state pc3 = Stable.
Proof. vm_compute. done. Qed.

(** A tag that [create_offer] gave a transceiver is lost when a remote offer is rolled back. *)
Lemma rollback_loses_offered_mid :
  let pc := example_connection <| rtp_transceivers ::= fmap (fun t => t <| t_mid := Some "7"%string |>) |> in
  let pc1 := snd (set_description example_remote_offer SetRemote pc) in
  let pc2 := snd (apply_remote_offer example_media pc1) in
  let pc3 := snd (set_description rollback_description SetRemote pc2) in
  t_mid <$> rtp_transceivers pc = [Some "7"%string] /\ t_mid <$> rtp_transceivers pc3 = [None] /\ signaling_state pc3 = Stable.
Proof. vm_compute. done. Qed.

(** A closed connection stays closed, whatever the transports do, and applies no description. *)
Lemma closed_is_terminal {Rest} (pc : PeerConnection Rest) ice dtls : peer_connection_state pc = PcClosed -> update_connection_state false ice dtls pc = pc.
Proof. intros E. unfold update_connection_state. by rewrite bool_decide_true. Qed.
Lemma closed_refuses {Rest} (pc : PeerConnection Rest) sd op : signaling_state pc = SigClosed -> exists e, set_description sd op pc = (Err e, pc).
Proof.
  intros E. pose proof (set_description_spec sd op pc) as Hs. destruct (set_description sd op pc) as [[[]|e| |] pc']; [|exists e; by destruct Hs as [-> _]|done..].
  destruct Hs as (_ & Hj & _). unfold core_of in Hj. rewrite E in Hj. inversion Hj; naive_solver.
Qed.
