(* ===== verification/Marshal.v ===== *)
(** The codec traits of [rtc-shared/src/marshal/mod.rs], through which the RTP, RTCP
    and data channel messages are encoded and decoded, as type classes; the laws a
    codec keeps are a class of their own, against which its clients are proved.
    [String::from_utf8] of the standard library is here as well. *)
From S2P Require Import Prelude.

(** * The traits *)

Class MarshalSize (T : Type) := mkMarshalSize { marshal_size : T -> Z }.

(** [marshal_to] is given the length of the buffer and returns the number it reports
    together with the bytes it wrote from the start of the buffer on. *)
Class MarshalTo (E T : Type) := mkMarshalTo { marshal_to : T -> Z -> outcome E (Z * bytes) }.

(** [unmarshal] returns what is left of the buffer as well. *)
Class Unmarshal (E T : Type) := mkUnmarshal { unmarshal : bytes -> outcome E (T * bytes) }.

(** [Error::Other(format!("marshal_to output size {n}, but expect {l}"))]. *)
Class SizeError (E : Type) := mkSizeError { size_error : Z -> Z -> E }.

Section marshal.
Context {E T : Type} `{MarshalSize T, MarshalTo E T, SizeError E}.

(** The provided method [marshal]: a zeroed buffer of the announced size. *)
Definition marshal (x : T) : outcome E bytes :=
  let l := marshal_size x in
  '(n, b) ← marshal_to x l;
  if negb (n =? l) then Err (size_error n l) else Ok (b ++ zeros (l - zlen b)).
End marshal.

(** What a codec promises for the values in [ok]: encoding succeeds in a buffer that is
    large enough and fills exactly the announced size; decoding gives the value back
    and leaves what follows it. *)
Class Codec (E T : Type) `{MarshalSize T, MarshalTo E T, Unmarshal E T} (ok : T -> Prop) : Prop := mkCodec {
  codec_write : forall x room, ok x -> marshal_size x <= room ->
    exists b, marshal_to (E:=E) x room = Ok (marshal_size x, b) /\ zlen b = marshal_size x /\
      forall r, unmarshal (E:=E) (b ++ r) = Ok (x, r)
}.

(** The same for values that end where the buffer ends. *)
Class ClosedCodec (E T : Type) `{MarshalSize T, MarshalTo E T, Unmarshal E T} (ok : T -> Prop) : Prop := mkClosedCodec {
  closed_write : forall x room, ok x -> marshal_size x <= room ->
    exists b, marshal_to (E:=E) x room = Ok (marshal_size x, b) /\ zlen b = marshal_size x /\
      unmarshal (E:=E) b = Ok (x, [])
}.

Lemma codec_marshal {E T} `{SizeError E, Codec E T ok} x : ok x ->
  exists b, marshal (E:=E) x = Ok b /\ zlen b = marshal_size x /\ forall r, unmarshal (E:=E) (b ++ r) = Ok (x, r).
Proof.
  intros Hx. destruct (codec_write x (marshal_size x) Hx (Z.le_refl _)) as (b & Hw & Hl & Hr).
  exists b. split; [|done]. unfold marshal. rewrite Hw. cbn [mbind outcome_bind]. rewrite Z.eqb_refl. cbn [negb].
  rewrite Hl, Z.sub_diag. by rewrite app_nil_r.
Qed.

Lemma closed_marshal {E T} `{SizeError E, ClosedCodec E T ok} x : ok x ->
  exists b, marshal (E:=E) x = Ok b /\ zlen b = marshal_size x /\ unmarshal (E:=E) b = Ok (x, []).
Proof.
  intros Hx. destruct (closed_write x (marshal_size x) Hx (Z.le_refl _)) as (b & Hw & Hl & Hr).
  exists b. split; [|done]. unfold marshal. rewrite Hw. cbn [mbind outcome_bind]. rewrite Z.eqb_refl. cbn [negb].
  rewrite Hl, Z.sub_diag. by rewrite app_nil_r.
Qed.

#[export] Instance codec_closed {E T} `{Codec E T ok} : ClosedCodec E T ok.
Proof.
  split. intros x room Hx Hr. destruct (codec_write x room Hx Hr) as (b & Hw & Hl & Hd). exists b.
  split; [done|]. split; [done|]. by rewrite <- (app_nil_r b).
Qed.

(** * UTF-8 *)

Definition is_continuation (b : Z) : bool := (128 <=? b) && (b <=? 191).
Definition between (lo b hi : Z) : bool := (lo <=? b) && (b <=? hi).

(** Well-formed UTF-8, as [String::from_utf8] checks it: the shortest form of a scalar
    value each time, no surrogate, nothing above U+10FFFF. *)
Fixpoint utf8_valid (l : bytes) : bool :=
  match l with
  | [] => true
  | b0 :: r0 =>
      if b0 <? 128 then utf8_valid r0
      else
        match r0 with
        | [] => false
        | b1 :: r1 =>
            if between 194 b0 223 then is_continuation b1 && utf8_valid r1
            else
              match r1 with
              | [] => false
              | b2 :: r2 =>
                  if (b0 =? 224) && between 160 b1 191 || between 225 b0 236 && is_continuation b1
                     || (b0 =? 237) && between 128 b1 159 || between 238 b0 239 && is_continuation b1
                  then is_continuation b2 && utf8_valid r2
                  else
                    match r2 with
                    | [] => false
                    | b3 :: r3 =>
                        if (b0 =? 240) && between 144 b1 191 || between 241 b0 243 && is_continuation b1
                           || (b0 =? 244) && between 128 b1 143
                        then is_continuation b2 && is_continuation b3 && utf8_valid r3
                        else false
                    end
              end
        end
  end.
