(* ===== verification/DataChannel.v ===== *)
(** Data channels ([rtc-datachannel]): the DCEP messages and their codec
    ([message/*.rs]), and a channel with its opening handshake, its queues and its
    counters ([data_channel/mod.rs]).  Proved: the codec round trip, on which inputs
    the decoder panics, and that the DCEP handshake of two channels completes with
    the configuration of the side that dialled. *)
From S2P Require Import Prelude Marshal SctpChunk SctpStream.

(** * Errors *)

(** The variants of [rtc-shared/src/error.rs] that the data channel code returns, of
    this crate and of the peer connection. *)
Inductive DcError :=
| UnexpectedEndOfBuffer (expected actual : Z)
| InvalidMessageType (t : Z)
| InvalidChannelType (t : Z)
| InvalidPayloadProtocolIdentifier (ppi : Z)
| Utf8
| DcOther (n l : Z)
| ErrOutboundPacketTooLarge
| ErrMaxDataChannelID
| ErrConnectionClosed
| ErrDataChannelClosed
| ErrDataChannelNotOpen
| ErrDataChannelStreamIdNotAssigned
| ErrDataChannelNotExisted
| ErrRetransmitsOrPacketLifeTime
| ErrProtocolTooLarge.
#[export] Instance DcError_size : SizeError DcError := mkSizeError _ DcOther.

Abbreviation dc_result A := (outcome DcError A).

(** * The message type *)

Inductive MessageType := MT_DataChannelThreshold | MT_DataChannelClose | MT_DataChannelAck | MT_DataChannelOpen.

Definition MESSAGE_TYPE_THRESHOLD : Z := 0.
Definition MESSAGE_TYPE_CLOSE : Z := 1.
Definition MESSAGE_TYPE_ACK : Z := 2.
Definition MESSAGE_TYPE_OPEN : Z := 3.
Definition MESSAGE_TYPE_LEN : Z := 1.

(** [self as u8] of a message type, in the order of declaration. *)
Definition MessageType_as_u8 (t : MessageType) : Z :=
  match t with
  | MT_DataChannelThreshold => 0 | MT_DataChannelClose => 1 | MT_DataChannelAck => 2 | MT_DataChannelOpen => 3
  end.

(** [put_u8] on a slice panics when nothing is left of it. *)
Definition MessageType_marshal_to (t : MessageType) (room : Z) : dc_result (Z * bytes) :=
  if room <? 1 then Panic
  else Ok (1, put_u8 (match t with
                      | MT_DataChannelThreshold => MESSAGE_TYPE_THRESHOLD
                      | MT_DataChannelClose => MESSAGE_TYPE_CLOSE
                      | MT_DataChannelAck => MESSAGE_TYPE_ACK
                      | MT_DataChannelOpen => MESSAGE_TYPE_OPEN
                      end)).

Definition MessageType_unmarshal (buf : bytes) : dc_result (MessageType * bytes) :=
  if zlen buf <? MESSAGE_TYPE_LEN then Err (UnexpectedEndOfBuffer MESSAGE_TYPE_LEN (zlen buf))
  else
    '(b, buf) ← get_u8 buf;
    if b =? MESSAGE_TYPE_THRESHOLD then Ok (MT_DataChannelThreshold, buf)
    else if b =? MESSAGE_TYPE_CLOSE then Ok (MT_DataChannelClose, buf)
    else if b =? MESSAGE_TYPE_ACK then Ok (MT_DataChannelAck, buf)
    else if b =? MESSAGE_TYPE_OPEN then Ok (MT_DataChannelOpen, buf)
    else Err (InvalidMessageType b).

(** * The channel type *)

Inductive ChannelType :=
| CT_Reliable | CT_ReliableUnordered
| CT_PartialReliableRexmit | CT_PartialReliableRexmitUnordered
| CT_PartialReliableTimed | CT_PartialReliableTimedUnordered.

Definition CHANNEL_TYPE_LEN : Z := 1.
Definition ChannelType_byte (t : ChannelType) : Z :=
  match t with
  | CT_Reliable => 0
  | CT_ReliableUnordered => 128
  | CT_PartialReliableRexmit => 1
  | CT_PartialReliableRexmitUnordered => 129
  | CT_PartialReliableTimed => 2
  | CT_PartialReliableTimedUnordered => 130
  end.

Definition ChannelType_marshal_to (t : ChannelType) (room : Z) : dc_result (Z * bytes) :=
  if room <? CHANNEL_TYPE_LEN then Err (UnexpectedEndOfBuffer CHANNEL_TYPE_LEN room)
  else Ok (1, put_u8 (ChannelType_byte t)).

Definition ChannelType_unmarshal (buf : bytes) : dc_result (ChannelType * bytes) :=
  if zlen buf <? CHANNEL_TYPE_LEN then Err (UnexpectedEndOfBuffer CHANNEL_TYPE_LEN (zlen buf))
  else
    '(b0, buf) ← get_u8 buf;
    if b0 =? 0 then Ok (CT_Reliable, buf)
    else if b0 =? 128 then Ok (CT_ReliableUnordered, buf)
    else if b0 =? 1 then Ok (CT_PartialReliableRexmit, buf)
    else if b0 =? 129 then Ok (CT_PartialReliableRexmitUnordered, buf)
    else if b0 =? 2 then Ok (CT_PartialReliableTimed, buf)
    else if b0 =? 130 then Ok (CT_PartialReliableTimedUnordered, buf)
    else Err (InvalidChannelType b0).

(** * The OPEN message *)

Definition CHANNEL_OPEN_HEADER_LEN : Z := 11.

Record DataChannelOpen := mkOpen {
  open_channel_type : ChannelType;
  open_priority : Z;
  open_reliability_parameter : Z;
  open_label : bytes;
  open_protocol : bytes
}.

Definition DataChannelOpen_size (o : DataChannelOpen) : Z :=
  CHANNEL_OPEN_HEADER_LEN + zlen (open_label o) + zlen (open_protocol o).

Definition DataChannelOpen_marshal_to (o : DataChannelOpen) (room : Z) : dc_result (Z * bytes) :=
  let required_len := DataChannelOpen_size o in
  if room <? required_len then Err (UnexpectedEndOfBuffer required_len room)
  else
    '(_, b) ← ChannelType_marshal_to (open_channel_type o) room;
    Ok (DataChannelOpen_size o,
        b ++ put_u16 (open_priority o) ++ put_u32 (open_reliability_parameter o)
          ++ put_u16 (as_u16 (zlen (open_label o))) ++ put_u16 (as_u16 (zlen (open_protocol o)))
          ++ open_label o ++ open_protocol o).

(** [copy_to_slice] into a vector of length [n]. *)
Definition copy_to_slice {E} (n : Z) (buf : bytes) : outcome E (bytes * bytes) :=
  if zlen buf <? n then Panic else Ok (take (Z.to_nat n) buf, drop (Z.to_nat n) buf).

Definition DataChannelOpen_unmarshal (buf : bytes) : dc_result (DataChannelOpen * bytes) :=
  if zlen buf <? CHANNEL_OPEN_HEADER_LEN then Err (UnexpectedEndOfBuffer CHANNEL_OPEN_HEADER_LEN (zlen buf))
  else
    '(channel_type, buf) ← ChannelType_unmarshal buf;
    '(priority, buf) ← get_u16 buf;
    '(reliability_parameter, buf) ← get_u32 buf;
    '(label_len, buf) ← get_u16 buf;
    '(protocol_len, buf) ← get_u16 buf;
    let required_len := label_len + protocol_len in
    if zlen buf <? required_len then Err (UnexpectedEndOfBuffer required_len (zlen buf))
    else
      '(label, buf) ← copy_to_slice label_len buf;
      '(protocol, buf) ← copy_to_slice protocol_len buf;
      Ok (mkOpen channel_type priority reliability_parameter label protocol, buf).

(** * Threshold notifications *)

Inductive DataChannelThreshold := TH_Low (threshold : Z) | TH_High (threshold : Z).

Definition DataChannelThreshold_marshal_to (t : DataChannelThreshold) (room : Z) : dc_result (Z * bytes) :=
  if room <? 5 then Panic
  else Ok (5, match t with
              | TH_Low threshold => put_u8 0 ++ put_u32 threshold
              | TH_High threshold => put_u8 1 ++ put_u32 threshold
              end).

Definition DataChannelThreshold_unmarshal (buf : bytes) : dc_result (DataChannelThreshold * bytes) :=
  '(t, buf) ← get_u8 buf;
  '(v, buf) ← get_u32 buf;
  if t =? 0 then Ok (TH_Low v, buf) else Ok (TH_High v, buf).

(** * Messages *)

Inductive Message :=
| M_Threshold (t : DataChannelThreshold)
| M_Close
| M_Ack
| M_Open (o : DataChannelOpen).

Definition message_type (m : Message) : MessageType :=
  match m with
  | M_Threshold _ => MT_DataChannelThreshold
  | M_Close => MT_DataChannelClose
  | M_Ack => MT_DataChannelAck
  | M_Open _ => MT_DataChannelOpen
  end.

Definition Message_size (m : Message) : Z :=
  match m with
  | M_Threshold _ => 5 + MESSAGE_TYPE_LEN
  | M_Close => 0 + MESSAGE_TYPE_LEN
  | M_Ack => 0 + MESSAGE_TYPE_LEN
  | M_Open o => DataChannelOpen_size o + MESSAGE_TYPE_LEN
  end.

Definition Message_marshal_to (m : Message) (room : Z) : dc_result (Z * bytes) :=
  '(n, b) ← MessageType_marshal_to (message_type m) room;
  '(k, c) ← match m with
            | M_Threshold t => DataChannelThreshold_marshal_to t (room - n)
            | M_Close => Ok (0, [])
            | M_Ack => Ok (0, [])
            | M_Open o => DataChannelOpen_marshal_to o (room - n)
            end;
  Ok (n + k, b ++ c).

Definition Message_unmarshal (buf : bytes) : dc_result (Message * bytes) :=
  if zlen buf <? MESSAGE_TYPE_LEN then Err (UnexpectedEndOfBuffer MESSAGE_TYPE_LEN (zlen buf))
  else
    '(t, buf) ← MessageType_unmarshal buf;
    match t with
    | MT_DataChannelThreshold => '(t, buf) ← DataChannelThreshold_unmarshal buf; Ok (M_Threshold t, buf)
    | MT_DataChannelClose => Ok (M_Close, buf)
    | MT_DataChannelAck => Ok (M_Ack, buf)
    | MT_DataChannelOpen => '(o, buf) ← DataChannelOpen_unmarshal buf; Ok (M_Open o, buf)
    end.

#[export] Instance Message_MarshalSize : MarshalSize Message := mkMarshalSize _ Message_size.
#[export] Instance Message_MarshalTo : MarshalTo DcError Message := mkMarshalTo _ _ Message_marshal_to.
#[export] Instance Message_Unmarshal : Unmarshal DcError Message := mkUnmarshal _ _ Message_unmarshal.

(** * Channels *)

(** A [String] is the list of its bytes, well-formed UTF-8. *)
Record DataChannelConfig := mkDcConfig {
  dc_channel_type : ChannelType;
  dc_negotiated : bool;
  dc_priority : Z;
  dc_reliability_parameter : Z;
  dc_label : bytes;
  dc_protocol : bytes
}.
Definition DataChannelConfig_default : DataChannelConfig := mkDcConfig CT_Reliable false 0 0 [] [].

Record DataChannelMessage := mkDcMessage {
  msg_association_handle : Z;
  msg_stream_id : Z;
  msg_ppi : PayloadProtocolIdentifier;
  msg_payload : bytes;
  msg_negotiated : bool
}.

Record DataChannel := mkDataChannel {
  dc_config : DataChannelConfig;
  dc_association_handle : Z;
  dc_stream_id : Z;
  read_outs : list DataChannelMessage;
  write_outs : list DataChannelMessage;
  dc_handshake_complete : bool;
  messages_sent : Z;
  messages_received : Z;
  bytes_sent : Z;
  bytes_received : Z
}.
#[export] Instance DataChannel_eta : Eta DataChannel := fun d =>
  mkDataChannel (dc_config d) (dc_association_handle d) (dc_stream_id d) (read_outs d) (write_outs d)
    (dc_handshake_complete d) (messages_sent d) (messages_received d) (bytes_sent d) (bytes_received d).

Definition DataChannel_new (config : DataChannelConfig) (association_handle stream_id : Z) : DataChannel :=
  mkDataChannel config association_handle stream_id [] [] false 0 0 0 0.

(** The control message [m] is put on the write queue. *)
Definition write_control (m : Message) : stm DataChannel DcError unit :=
  payload ← lift (marshal m);
  modify (fun d => d <| write_outs ::= fun q => q ++ [mkDcMessage (dc_association_handle d) (dc_stream_id d) PPI_Dcep payload false] |>).

Definition write_data_channel_ack : stm DataChannel DcError unit := write_control M_Ack.
Definition write_data_channel_close : stm DataChannel DcError unit := write_control M_Close.
Definition set_buffered_amount_high_threshold (threshold : Z) : stm DataChannel DcError unit :=
  write_control (M_Threshold (TH_High threshold)).
Definition set_buffered_amount_low_threshold (threshold : Z) : stm DataChannel DcError unit :=
  write_control (M_Threshold (TH_Low threshold)).

Definition dial (config : DataChannelConfig) (association_handle stream_id : Z) : dc_result DataChannel :=
  let d := DataChannel_new config association_handle stream_id in
  msg ← marshal (M_Open (mkOpen (dc_channel_type config) (dc_priority config) (dc_reliability_parameter config)
                           (dc_label config) (dc_protocol config)));
  Ok (d <| write_outs ::= fun q => q ++ [mkDcMessage association_handle stream_id PPI_Dcep msg (dc_negotiated config)] |>
        <| dc_handshake_complete := dc_negotiated config |>).

Definition from_utf8 (l : bytes) : dc_result bytes := if utf8_valid l then Ok l else Err Utf8.

Definition accept (config : DataChannelConfig) (association_handle stream_id : Z) (ppi : PayloadProtocolIdentifier)
  (buf : bytes) : dc_result DataChannel :=
  if negb (bool_decide (ppi = PPI_Dcep)) then Err (InvalidPayloadProtocolIdentifier (u32_from_PPI ppi))
  else
    '(msg, _) ← unmarshal buf;
    match msg with
    | M_Open dco =>
        label ← from_utf8 (open_label dco);
        protocol ← from_utf8 (open_protocol dco);
        let config := mkDcConfig (open_channel_type dco) (dc_negotiated config) (open_priority dco)
                        (open_reliability_parameter dco) label protocol in
        match write_data_channel_ack (DataChannel_new config association_handle stream_id) with
        | (Ok _, d) => Ok (d <| dc_handshake_complete := true |>)
        | (Err e, _) => Err e
        | (Panic, _) => Panic
        | (Diverge, _) => Diverge
        end
    | _ => Err (InvalidMessageType (MessageType_as_u8 (message_type msg)))
    end.

Definition handle_dcep (data : bytes) : stm DataChannel DcError unit :=
  '(msg, _) ← lift (unmarshal data);
  match msg with
  | M_Open _ => write_data_channel_ack
  | M_Ack => modify (fun d => d <| dc_handshake_complete := true |>)
  | _ => throw (InvalidMessageType (MessageType_as_u8 (message_type msg)))
  end.

(** The counters are [usize]s that count messages and bytes of the process. *)
Definition dc_handle_read (msg : DataChannelMessage) : stm DataChannel DcError unit :=
  modify (fun d => d <| messages_received ::= Z.add 1 |> <| bytes_received ::= Z.add (zlen (msg_payload msg)) |>) ;;
  if bool_decide (msg_ppi msg = PPI_Dcep) then handle_dcep (msg_payload msg)
  else modify (fun d => d <| read_outs ::= fun q => q ++ [msg] |>).

Definition pop_front {A} (q : list A) : option A * list A :=
  match q with [] => (None, []) | x :: q => (Some x, q) end.

Definition dc_poll_read (d : DataChannel) : option DataChannelMessage * DataChannel :=
  let '(m, q) := pop_front (read_outs d) in (m, d <| read_outs := q |>).

Definition dc_handle_write (msg : DataChannelMessage) (d : DataChannel) : DataChannel :=
  d <| messages_sent ::= Z.add 1 |> <| bytes_sent ::= Z.add (zlen (msg_payload msg)) |>
    <| write_outs ::= fun q => q ++ [mkDcMessage (dc_association_handle d) (dc_stream_id d) (msg_ppi msg)
                                       (msg_payload msg) (msg_negotiated msg)] |>.

Definition dc_poll_write (d : DataChannel) : option DataChannelMessage * DataChannel :=
  let '(m, q) := pop_front (write_outs d) in (m, d <| write_outs := q |>).

Definition dc_close : stm DataChannel DcError unit :=
  modify (fun d => d <| dc_handshake_complete := false |>) ;; write_data_channel_close.

(** * Reliability *)

Definition get_reliability_params (t : ChannelType) : bool * ReliabilityType :=
  match t with
  | CT_Reliable => (false, RT_Reliable)
  | CT_ReliableUnordered => (true, RT_Reliable)
  | CT_PartialReliableRexmit => (false, RT_Rexmit)
  | CT_PartialReliableRexmitUnordered => (true, RT_Rexmit)
  | CT_PartialReliableTimed => (false, RT_Timed)
  | CT_PartialReliableTimedUnordered => (true, RT_Timed)
  end.

Definition get_channel_type_and_reliability_parameter (ordered : bool) (max_retransmits max_packet_life_time : option Z)
  : ChannelType * Z :=
  match max_retransmits, max_packet_life_time with
  | None, None => (if ordered then CT_Reliable else CT_ReliableUnordered, 0)
  | Some n, _ => (if ordered then CT_PartialReliableRexmit else CT_PartialReliableRexmitUnordered, n)
  | None, Some t => (if ordered then CT_PartialReliableTimed else CT_PartialReliableTimedUnordered, t)
  end.

(** A user message; the empty one travels as one zero byte under its own identifier. *)
Definition get_data_channel_message (is_string : bool) (data : bytes) : DataChannelMessage :=
  let ppi := match is_string, data with
             | false, [] => PPI_BinaryEmpty
             | false, _ => PPI_Binary
             | true, [] => PPI_StringEmpty
             | true, _ => PPI_String
             end in
  mkDcMessage 0 0 ppi (match data with [] => [0] | _ => data end) false.

(** * The codec *)

Definition open_ok (o : DataChannelOpen) : Prop :=
  is_u16 (open_priority o) /\ is_u32 (open_reliability_parameter o) /\ is_u16 (zlen (open_label o)) /\ is_u16 (zlen (open_protocol o)).
Definition threshold_ok (t : DataChannelThreshold) : Prop := match t with TH_Low v | TH_High v => is_u32 v end.
Definition message_ok (m : Message) : Prop :=
  match m with M_Threshold t => threshold_ok t | M_Open o => open_ok o | _ => True end.

Lemma ChannelType_rt t r : ChannelType_unmarshal (put_u8 (ChannelType_byte t) ++ r) = Ok (t, r).
Proof.
  unfold ChannelType_unmarshal. rewrite (proj2 (Z.ltb_ge _ _)) by (unfold CHANNEL_TYPE_LEN; zlia). by destruct t.
Qed.

Lemma copy_to_slice_app {E} l r : copy_to_slice (E:=E) (zlen l) (l ++ r) = Ok (l, r).
Proof.
  unfold copy_to_slice. rewrite (proj2 (Z.ltb_ge _ _)) by zlia. unfold zlen. rewrite Nat2Z.id, take_app_length, drop_app_length. done.
Qed.

Lemma DataChannelOpen_rt o room : open_ok o -> DataChannelOpen_size o <= room ->
  exists b, DataChannelOpen_marshal_to o room = Ok (DataChannelOpen_size o, b) /\ zlen b = DataChannelOpen_size o /\
    forall r, DataChannelOpen_unmarshal (b ++ r) = Ok (o, r).
Proof.
  intros (Hp & Hr & Hl & Hq) Hroom. unfold DataChannelOpen_marshal_to, ChannelType_marshal_to.
  assert (0 <= zlen (open_label o) /\ 0 <= zlen (open_protocol o)) by (split; apply zlen_nonneg).
  unfold DataChannelOpen_size, CHANNEL_OPEN_HEADER_LEN, CHANNEL_TYPE_LEN in *.
  rewrite !(proj2 (Z.ltb_ge _ _)) by lia. cbn [mbind outcome_bind].
  eexists. split; [reflexivity|]. split; [autorewrite with zlen; lia|].
  intros r. unfold DataChannelOpen_unmarshal, CHANNEL_OPEN_HEADER_LEN. rewrite !(as_u16_id (zlen _)) by done.
  rewrite <- !(assoc_L app). rewrite (proj2 (Z.ltb_ge _ _)) by zlia.
  rewrite ChannelType_rt. cbn [mbind outcome_bind]. rewrite get_put_u16 by done. cbn [mbind outcome_bind].
  rewrite get_put_u32 by done. cbn [mbind outcome_bind]. rewrite !get_put_u16 by done. cbn [mbind outcome_bind].
  rewrite get_put_u16 by done. cbn [mbind outcome_bind]. rewrite (proj2 (Z.ltb_ge _ _)) by zlia.
  rewrite !copy_to_slice_app. cbn [mbind outcome_bind]. rewrite copy_to_slice_app. cbn [mbind outcome_bind]. by destruct o.
Qed.

Lemma DataChannelThreshold_rt t room : threshold_ok t -> 5 <= room ->
  exists b, DataChannelThreshold_marshal_to t room = Ok (5, b) /\ zlen b = 5 /\
    forall r, DataChannelThreshold_unmarshal (b ++ r) = Ok (t, r).
Proof.
  intros Ht Hr. unfold DataChannelThreshold_marshal_to. rewrite (proj2 (Z.ltb_ge _ _)) by lia. eexists. split; [reflexivity|].
  destruct t as [v|v]; (split; [reflexivity|]); intros r; unfold DataChannelThreshold_unmarshal;
    rewrite <- (assoc_L app), get_put_u8 by done; cbn [mbind outcome_bind]; by rewrite get_put_u32.
Qed.

Lemma MessageType_rt t room : 1 <= room -> exists b, MessageType_marshal_to t room = Ok (1, b) /\ zlen b = 1 /\
  forall r, MessageType_unmarshal (b ++ r) = Ok (t, r).
Proof.
  intros Hr. unfold MessageType_marshal_to. rewrite (proj2 (Z.ltb_ge _ _)) by lia. eexists. split; [reflexivity|].
  split; [reflexivity|]. intros r. unfold MessageType_unmarshal. rewrite (proj2 (Z.ltb_ge _ _)) by (unfold MESSAGE_TYPE_LEN; zlia).
  by destruct t.
Qed.

#[export] Instance Message_codec : Codec DcError Message message_ok.
Proof.
  split. cbn [marshal_size marshal_to unmarshal Message_MarshalSize Message_MarshalTo Message_Unmarshal].
  intros m room Hm Hroom.
  assert (H1 : 1 <= room).
  { destruct m; cbn [Message_size] in Hroom; unfold DataChannelOpen_size, MESSAGE_TYPE_LEN, CHANNEL_OPEN_HEADER_LEN in Hroom; zlen_pos; lia. }
  destruct (MessageType_rt (message_type m) room H1) as (b & Ht & Hl & Hd).
  assert (Hu : forall c r, Message_unmarshal ((b ++ c) ++ r) =
    match message_type m with
    | MT_DataChannelThreshold => '(t, buf) ← DataChannelThreshold_unmarshal (c ++ r); Ok (M_Threshold t, buf)
    | MT_DataChannelClose => Ok (M_Close, c ++ r)
    | MT_DataChannelAck => Ok (M_Ack, c ++ r)
    | MT_DataChannelOpen => '(o, buf) ← DataChannelOpen_unmarshal (c ++ r); Ok (M_Open o, buf)
    end).
  { intros c r. unfold Message_unmarshal. rewrite (proj2 (Z.ltb_ge _ _)) by (unfold MESSAGE_TYPE_LEN; zlia).
    by rewrite <- (assoc_L app), Hd. }
  unfold Message_marshal_to. rewrite Ht. cbn [mbind outcome_bind].
  destruct m as [t| | |o]; cbn [Message_size message_type message_ok] in *; unfold MESSAGE_TYPE_LEN in *.
  - destruct (DataChannelThreshold_rt t (room - 1) Hm) as (c & -> & Hc & Hr); [lia|]. cbn [mbind outcome_bind].
    eexists. split; [reflexivity|]. split; [zlia|]. intros r. by rewrite Hu, Hr.
  - eexists. split; [reflexivity|]. split; [zlia|]. intros r. by rewrite Hu.
  - eexists. split; [reflexivity|]. split; [zlia|]. intros r. by rewrite Hu.
  - destruct (DataChannelOpen_rt o (room - 1) Hm) as (c & -> & Hc & Hr); [lia|]. cbn [mbind outcome_bind].
    exists (b ++ c). split; [do 2 f_equal; lia|]. split; [zlia|]. intros r. by rewrite Hu, Hr.
Qed.

(** * The opening handshake *)

Definition config_ok (c : DataChannelConfig) : Prop :=
  is_u16 (dc_priority c) /\ is_u32 (dc_reliability_parameter c) /\ is_u16 (zlen (dc_label c)) /\ is_u16 (zlen (dc_protocol c)) /\
  utf8_valid (dc_label c) = true /\ utf8_valid (dc_protocol c) = true.

Lemma marshal_ack : marshal (E:=DcError) M_Ack = Ok [2].
Proof. reflexivity. Qed.
Lemma unmarshal_ack : unmarshal (E:=DcError) [2] = Ok (M_Ack, []).
Proof. reflexivity. Qed.

Lemma accept_open config h s o b rest :
  unmarshal (E:=DcError) b = Ok (M_Open o, rest) -> utf8_valid (open_label o) = true -> utf8_valid (open_protocol o) = true ->
  accept config h s PPI_Dcep b =
  Ok (mkDataChannel (mkDcConfig (open_channel_type o) (dc_negotiated config) (open_priority o) (open_reliability_parameter o)
                       (open_label o) (open_protocol o)) h s [] [mkDcMessage h s PPI_Dcep [2] false] true 0 0 0 0).
Proof.
  intros Hb Hl Hp. unfold accept. rewrite bool_decide_eq_true_2 by done. cbn [negb]. rewrite Hb. cbn [mbind outcome_bind].
  unfold from_utf8. rewrite Hl, Hp. cbn [mbind outcome_bind]. unfold write_data_channel_ack, write_control.
  rewrite (bind_lift _ _ _ _ marshal_ack). reflexivity.
Qed.

(** C27: The DCEP handshake, for a channel whose label and protocol are UTF-8 text of less
    than 65536 bytes each (the length of a label is checked nowhere, and a longer one is
    announced with its length cut to 16 bits and misread).  The OPEN that [dial] queues is accepted
    by any other endpoint, whose channel gets exactly the dialled channel type, priority,
    reliability parameter, label and protocol and is open at once; the ACK it queues
    opens the dialling side, and neither side delivers any of this to its
    application. *)
Theorem dcep_handshake config config0 h s h' s' :
  config_ok config ->
  exists d open d1 p ack p1 d2,
    dial config h s = Ok d /\ dc_poll_write d = (Some open, d1) /\
    dc_handshake_complete d = dc_negotiated config /\ msg_negotiated open = dc_negotiated config /\
    accept config0 h' s' (msg_ppi open) (msg_payload open) = Ok p /\ dc_poll_write p = (Some ack, p1) /\
    dc_config p = mkDcConfig (dc_channel_type config) (dc_negotiated config0) (dc_priority config)
                    (dc_reliability_parameter config) (dc_label config) (dc_protocol config) /\
    dc_handshake_complete p = true /\ dc_handle_read ack d1 = (Ok tt, d2) /\ dc_handshake_complete d2 = true /\
    read_outs p1 = [] /\ read_outs d2 = [] /\ write_outs p1 = [] /\ write_outs d2 = [].
Proof.
  intros (Hp & Hr & Hl & Hq & Ul & Up).
  set (o := mkOpen (dc_channel_type config) (dc_priority config) (dc_reliability_parameter config) (dc_label config) (dc_protocol config)).
  destruct (codec_marshal (E:=DcError) (M_Open o)) as (b & Hm & _ & Hd); [by repeat split; apply Hp || apply Hr || apply Hl || apply Hq|].
  specialize (Hd []). rewrite app_nil_r in Hd.
  assert (Hdial : dial config h s = Ok (mkDataChannel config h s [] [mkDcMessage h s PPI_Dcep b (dc_negotiated config)] (dc_negotiated config) 0 0 0 0)).
  { unfold dial. change (mkOpen _ _ _ _ _) with o. rewrite Hm. reflexivity. }
  pose proof (accept_open config0 h' s' o b [] Hd Ul Up) as Hacc.
  do 7 eexists. split; [exact Hdial|]. split; [reflexivity|]. split; [reflexivity|]. split; [reflexivity|].
  split; [exact Hacc|]. split; [reflexivity|]. split; [reflexivity|]. split; [reflexivity|].
  split.
  { unfold dc_handle_read. rewrite bind_modify, bool_decide_eq_true_2 by done. unfold handle_dcep.
    cbn [msg_payload]. rewrite (bind_lift _ _ _ _ unmarshal_ack). reflexivity. }
  split_and!; reflexivity.
Qed.

Lemma dcep_handshake_witness :
  let config := mkDcConfig CT_PartialReliableRexmit false 256 3 [99; 104; 195; 169] [] in
  exists d open d1 p ack p1 d2,
    dial config 1 4 = Ok d /\ dc_poll_write d = (Some open, d1) /\
    dc_handshake_complete d = false /\ msg_negotiated open = false /\
    accept DataChannelConfig_default 7 4 (msg_ppi open) (msg_payload open) = Ok p /\ dc_poll_write p = (Some ack, p1) /\
    dc_config p = config /\
    dc_handshake_complete p = true /\ dc_handle_read ack d1 = (Ok tt, d2) /\ dc_handshake_complete d2 = true /\
    read_outs p1 = [] /\ read_outs d2 = [] /\ write_outs p1 = [] /\ write_outs d2 = [].
Proof.
  apply (dcep_handshake (mkDcConfig CT_PartialReliableRexmit false 256 3 [99; 104; 195; 169] []) DataChannelConfig_default 1 4 7 4).
  repeat split; vm_compute; congruence.
Defined.

(** * Malformed messages *)

Lemma post_ChannelType buf : bytes_ok buf -> 1 <= zlen buf ->
  post (ChannelType_unmarshal buf) (fun tr => zlen tr.2 = zlen buf - 1 /\ bytes_ok tr.2).
Proof.
  intros Hb Hl. unfold ChannelType_unmarshal. rewrite (proj2 (Z.ltb_ge _ _)) by done. post_step. use_ok.
  repeat (post_step; [done|]). done.
Qed.

Lemma post_copy_to_slice {E} n l : 0 <= n <= zlen l ->
  post (copy_to_slice (E:=E) n l) (fun vr => zlen vr.1 = n /\ zlen vr.2 = zlen l - n /\ (bytes_ok l -> bytes_ok vr.1 /\ bytes_ok vr.2)).
Proof.
  intros Hn. unfold copy_to_slice. rewrite (proj2 (Z.ltb_ge _ _)) by lia. cbn [post fst snd].
  split; [zlia|]. split; [zlia|]. intros Hl. split; [by apply Forall_take|by apply Forall_drop].
Qed.

Lemma post_DataChannelOpen buf : bytes_ok buf -> post (DataChannelOpen_unmarshal buf) (fun mr => open_ok mr.1).
Proof.
  intros Hb. unfold DataChannelOpen_unmarshal, CHANNEL_OPEN_HEADER_LEN. post_step; [done|].
  eapply post_bind; [apply post_ChannelType; [done|lia]|]. intros [ct rt] _ [Hr Hb']. cbn [fst snd] in *.
  do 4 post_step. use_ok. post_step; [done|]. unfold is_u16 in *.
  eapply post_bind; [apply post_copy_to_slice; lia|]. intros [lb rb] _ (A1 & A2 & A3). cbn [fst snd] in *.
  eapply post_bind; [apply post_copy_to_slice; lia|]. intros [pb rb'] _ (B1 & B2 & B3). cbn [fst snd post] in *.
  unfold open_ok, is_u16. cbn [open_priority open_reliability_parameter open_label open_protocol]. split_and!; try lia; done.
Qed.

Lemma short_threshold_panics rest : zlen rest < 5 -> Message_unmarshal (MESSAGE_TYPE_THRESHOLD :: rest) = Panic.
Proof.
  intros Hs. unfold Message_unmarshal, MessageType_unmarshal, MESSAGE_TYPE_LEN. rewrite !(proj2 (Z.ltb_ge _ _)) by zlia.
  destruct rest as [|b1 [|b2 [|b3 [|b4 [|b5 rest]]]]]; try reflexivity. revert Hs. zlia.
Qed.

(** The decoder of DCEP messages.  On every buffer it ends; it panics exactly when
    the first byte is the internal message type 0 and fewer than five bytes follow,
    and a message it returns has its fields in range. *)
Theorem dcep_decode_panics buf :
  bytes_ok buf ->
  post_or (Message_unmarshal buf) (fun mr => message_ok mr.1) (exists rest, buf = MESSAGE_TYPE_THRESHOLD :: rest /\ zlen rest < 5) /\
  (forall rest, buf = MESSAGE_TYPE_THRESHOLD :: rest -> zlen rest < 5 -> Message_unmarshal buf = Panic).
Proof.
  intros Hb. split; [|intros rest -> Hs; by apply short_threshold_panics].
  destruct buf as [|b0 rest]; [done|]. apply Forall_cons in Hb as [H0 Hb].
  destruct (Z.eqb_spec b0 MESSAGE_TYPE_THRESHOLD) as [->|Hne].
  - destruct (Z.lt_ge_cases (zlen rest) 5) as [Hs|Hs]; [rewrite short_threshold_panics by done; cbn; eauto|].
    apply post_or_intro. unfold Message_unmarshal, MessageType_unmarshal, MESSAGE_TYPE_LEN.
    rewrite !(proj2 (Z.ltb_ge _ _)) by zlia. cbn [get_u8 mbind outcome_bind]. rewrite Z.eqb_refl. cbn [mbind outcome_bind].
    eapply (post_bind _ _ (fun tr => threshold_ok tr.1)); [|intros [th r] _ Ht; exact Ht].
    unfold DataChannelThreshold_unmarshal. do 2 post_step. change (bytes_ok rest) in Hb. use_ok. post_step; done.
  - apply post_or_intro. unfold Message_unmarshal, MessageType_unmarshal, MESSAGE_TYPE_LEN.
    rewrite !(proj2 (Z.ltb_ge _ _)) by zlia. cbn [get_u8 mbind outcome_bind]. rewrite (proj2 (Z.eqb_neq _ _)) by done.
    repeat (case_match; cbn [mbind outcome_bind]; try done).
    eapply post_bind; [by apply post_DataChannelOpen|]. intros [o r] _ Ho. exact Ho.
Qed.

Lemma dcep_decode_panics_witness :
  post_or (Message_unmarshal [0]) (fun mr => message_ok mr.1) (exists rest, [0] = MESSAGE_TYPE_THRESHOLD :: rest /\ zlen rest < 5) /\
  (forall rest, [0] = MESSAGE_TYPE_THRESHOLD :: rest -> zlen rest < 5 -> Message_unmarshal [0] = Panic).
Proof. apply (dcep_decode_panics [0]). repeat constructor; vm_compute; congruence. Defined.

(** * User messages *)

Definition is_user (m : DataChannelMessage) : bool := negb (bool_decide (msg_ppi m = PPI_Dcep)).

Lemma write_control_keeps m d : read_outs (write_control m d).2 = read_outs d.
Proof. unfold write_control, mbind, stm_bind, lift. by destruct (marshal m). Qed.

Lemma dc_handle_read_outs m d :
  read_outs (dc_handle_read m d).2 = read_outs d ++ (if is_user m then [m] else []) /\
  messages_received (dc_handle_read m d).2 = 1 + messages_received d /\
  bytes_received (dc_handle_read m d).2 = zlen (msg_payload m) + bytes_received d.
Proof.
  unfold dc_handle_read, is_user. rewrite bind_modify. case_bool_decide; cbn [negb]; [|done]. rewrite app_nil_r.
  unfold handle_dcep, write_data_channel_ack, write_control. unfold mbind, stm_bind, lift.
  destruct (unmarshal (msg_payload m)) as [[msg r]| | |]; try done. by destruct msg.
Qed.

(** Whatever arrives on a channel, and whether or not its control messages are
    well formed, the application reads exactly the user messages, unchanged and in
    order, and the counters count every message and every byte. *)
Theorem user_messages_in_order ms d :
  let d' := foldl (fun d m => (dc_handle_read m d).2) d ms in
  read_outs d' = read_outs d ++ List.filter is_user ms /\
  messages_received d' = messages_received d + zlen ms /\
  bytes_received d' = bytes_received d + zsum (fun m => zlen (msg_payload m)) ms.
Proof.
  revert d. induction ms as [|m ms IH]; intros d; cbn zeta in *.
  { cbn. rewrite app_nil_r. unfold zlen; cbn; unfold zsum; cbn. split_and!; [done|lia|lia]. }
  cbn [foldl List.filter]. destruct (IH (dc_handle_read m d).2) as (H1 & H2 & H3).
  destruct (dc_handle_read_outs m d) as (R1 & R2 & R3). rewrite H1, H2, H3, R1, R2, R3.
  rewrite zlen_cons, zsum_cons. split_and!; [|lia|lia]. rewrite <- (assoc_L app). by destruct (is_user m).
Qed.

(** The parameters the channel type stands for are those it was chosen for. *)
Lemma reliability_params_rt ordered retransmits lifetime :
  let '(t, v) := get_channel_type_and_reliability_parameter ordered retransmits lifetime in
  get_reliability_params t = (negb ordered, match retransmits, lifetime with
                                            | Some _, _ => RT_Rexmit | None, Some _ => RT_Timed | None, None => RT_Reliable end) /\
  v = match retransmits, lifetime with Some n, _ => n | None, Some n => n | None, None => 0 end.
Proof. by destruct ordered, retransmits, lifetime. Qed.
