(* ===== verification/DataChannelTrace.v ===== *)
(** What the application sees of its data channels over the life of a peer connection
    ([src/src/peer_connection/handler/datachannel.rs]).  The handler's operations are
    the steps of a transition system whose state also holds everything the application
    was given so far and the user messages every channel took from SCTP; its invariant
    is proved by induction on the steps. *)
From S2P Require Import Prelude Marshal SctpChunk SctpStream DataChannel DataChannelHandler.

(** * What has been seen *)

(** The messages for the application about channel [id], and how often its close was
    reported. *)
Definition about (id : Z) (t : TaggedRTCMessageInternal) : option DataChannelEvent :=
  match tag_message t with
  | MI_DataChannel i e => if i =? id then Some e else None
  | _ => None
  end.
Definition reads (id : Z) (l : list TaggedRTCMessageInternal) : list DataChannelEvent := omap (about id) l.
Definition is_close (id : Z) (e : TaggedRTCEventInternal) : bool :=
  match ev_event e with OnDataChannel (OnClose i) => i =? id | _ => false end.
Definition closes (id : Z) (l : list TaggedRTCEventInternal) : Z := zsum (fun e => if is_close id e then 1 else 0) l.

Lemma reads_app id l1 l2 : reads id (l1 ++ l2) = reads id l1 ++ reads id l2.
Proof. apply omap_app. Qed.
Lemma closes_app id l1 l2 : closes id (l1 ++ l2) = closes id l1 + closes id l2.
Proof. apply zsum_app. Qed.

(** The registry, all messages and events handed out or waiting to be, and the user
    messages each channel took. *)
Record Seen := mkSeen {
  s_reg : DataChannelRegistry;
  s_reads : list TaggedRTCMessageInternal;
  s_events : list TaggedRTCEventInternal;
  s_taken : Z -> list DataChannelMessage
}.

(** The channel opens and delivers the messages [T]. *)
Definition open_with (T : list DataChannelMessage) : list DataChannelEvent :=
  DE_Open :: map (fun m => DE_Message (to_application m)) T.

(** Nothing, or the opening and a prefix of the messages. *)
Definition prefix_of (R : list DataChannelEvent) (T : list DataChannelMessage) : Prop :=
  R = [] \/ exists k, R = open_with (take k T).

Definition buffered (c : RTCDataChannelInternal) : list DataChannelMessage :=
  match ch_data_channel c with Some d => read_outs d | None => [] end.

(** How far the report on an open channel has got: the application knows of everything,
    has yet to hear that the channel is open, or has yet to get what is buffered. *)
Inductive mode := Settled | Opening | Draining.

Definition messages (T : list DataChannelMessage) : list DataChannelEvent := map (fun m => DE_Message (to_application m)) T.

(** What the application has seen of a channel in its state. *)
Definition channel_ok (md : mode) (c : RTCDataChannelInternal) (R : list DataChannelEvent) (T : list DataChannelMessage) (n : Z) : Prop :=
  n = (if close_emitted c then 1 else 0) /\
  match ready_state c with
  | DS_Connecting => md = Settled /\ R = [] /\ buffered c = T /\ close_emitted c = false
  | DS_Open =>
      close_emitted c = false /\
      match md with
      | Settled => R = open_with T /\ buffered c = []
      | Opening => R = [] /\ buffered c = T
      | Draining => R ++ messages (buffered c) = open_with T
      end
  | DS_Closed => md = Settled /\ prefix_of R T
  | _ => False
  end.

Definition status_ok (r : DataChannelRegistry) (md : mode) (id : Z) (R : list DataChannelEvent) (T : list DataChannelMessage) (n : Z) : Prop :=
  match channels r !! id with
  | Some c => channel_ok md c R T n
  | None => md = Settled /\ if (0 <=? id) && (id <? next_handle r) then prefix_of R T /\ n = 1 else R = [] /\ T = [] /\ n = 0
  end.

Definition inv (P : Z -> mode) (s : Seen) : Prop :=
  reg_ok (s_reg s) /\
  forall id, status_ok (s_reg s) (P id) id (reads id (s_reads s)) (s_taken s id) (closes id (s_events s)).

Definition settled : Z -> mode := fun _ => Settled.
Definition upd (P : Z -> mode) (id : Z) (md : mode) : Z -> mode := fun j => if decide (j = id) then md else P j.

Lemma upd_eq P id md : upd P id md id = md.
Proof. unfold upd. by rewrite decide_True. Qed.
Lemma upd_ne P id md j : j <> id -> upd P id md j = P j.
Proof. intros. unfold upd. by rewrite decide_False. Qed.

Lemma inv_ext P P' s : (forall j, P j = P' j) -> inv P s -> inv P' s.
Proof. intros HP [Hok Hst]. split; [done|]. intros j. rewrite <- HP. apply Hst. Qed.

(** * One channel changes *)

(** The step concerns channel [id] only: it becomes [c'], the application is told [rs]
    and [es]. *)
Record touches (id : Z) (c' : RTCDataChannelInternal) (rs : list TaggedRTCMessageInternal) (es : list TaggedRTCEventInternal) (s s' : Seen) : Prop :=
  mkTouches {
  t_reg : s_reg s' = s_reg s <| channels ::= insert id c' |>;
  t_reads : s_reads s' = s_reads s ++ rs;
  t_events : s_events s' = s_events s ++ es;
  t_only_reads : forall j, j <> id -> reads j rs = [];
  t_only_events : forall j, j <> id -> closes j es = 0;
  t_taken : forall j, j <> id -> s_taken s' j = s_taken s j
}.

Lemma inv_touch P md id c c' rs es s s' :
  inv P s -> channels (s_reg s) !! id = Some c -> touches id c' rs es s s' ->
  ch_id c' = ch_id c -> ch_stream_id c' = ch_stream_id c ->
  channel_ok md c' (reads id (s_reads s) ++ reads id rs) (s_taken s' id) (closes id (s_events s) + closes id es) ->
  inv (upd P id md) s'.
Proof.
  intros [Hok Hst] Hc [Hreg Hrd Hev Ho1 Ho2 Ht] Eid Es Hch. split.
  - rewrite Hreg. by apply (reg_ok_put _ _ c).
  - intros j. unfold status_ok. rewrite Hrd, Hev, reads_app, closes_app, Hreg.
    change (channels (s_reg s <| channels ::= insert id c' |>)) with (<[id := c']> (channels (s_reg s))).
    change (next_handle (s_reg s <| channels ::= insert id c' |>)) with (next_handle (s_reg s)).
    destruct (decide (j = id)) as [->|Hne].
    + by rewrite lookup_insert_eq, upd_eq.
    + rewrite lookup_insert_ne, Ho1, Ho2, Ht, app_nil_r, Z.add_0_r, upd_ne by done. exact (Hst j).
Qed.

Lemma inv_channel P s id c : inv P s -> channels (s_reg s) !! id = Some c ->
  channel_ok (P id) c (reads id (s_reads s)) (s_taken s id) (closes id (s_events s)).
Proof. intros [_ Hst] Hc. specialize (Hst id). unfold status_ok in Hst. by rewrite Hc in Hst. Qed.

(** A new channel, with a fresh handle. *)
Lemma inv_insert P md c s s' :
  inv P s -> (forall x, ch_stream_id c = Some x -> by_stream (s_reg s) !! x = None) ->
  s_reg s' = (Registry_insert c (s_reg s)).2 -> s_reads s' = s_reads s -> s_events s' = s_events s -> s_taken s' = s_taken s ->
  channel_ok md c [] [] 0 -> inv (upd P (next_handle (s_reg s)) md) s'.
Proof.
  intros [Hok Hst] Hfree Hreg Hrd Hev Ht Hch. set (id := next_handle (s_reg s)).
  assert (Hnew : channels (s_reg s) !! id = None).
  { destruct (channels (s_reg s) !! id) as [d|] eqn:E; [|done]. apply (reg_id _ Hok) in E. unfold id in E. lia. }
  split; [rewrite Hreg; by apply reg_ok_insert|]. intros j. rewrite Hrd, Hev, Ht. specialize (Hst j). unfold status_ok in *.
  rewrite Hreg. unfold Registry_insert. cbn [snd channels next_handle]. fold id.
  destruct (decide (j = id)) as [->|Hj].
  - rewrite Hnew, (proj2 (Z.ltb_ge _ _)), andb_false_r in Hst by (unfold id; lia). destruct Hst as (_ & -> & -> & ->).
    rewrite lookup_insert_eq, upd_eq. exact Hch.
  - rewrite lookup_insert_ne, upd_ne by done. destruct (channels (s_reg s) !! j); [done|]. destruct Hst as [Hp Hst].
    split; [done|]. pose proof (reg_next _ Hok). destruct (Z.leb_spec 0 j), (Z.ltb_spec j (next_handle (s_reg s))), (Z.ltb_spec j (id + 1)); try done; unfold id in *; lia.
Qed.

(** A channel leaves, its close reported by now. *)
Lemma inv_remove P sid id c es s s' :
  inv P s -> by_stream (s_reg s) !! sid = Some id -> channels (s_reg s) !! id = Some c -> P id = Settled ->
  s_reg s' = (remove_by_stream sid (s_reg s)).2 -> s_reads s' = s_reads s -> s_events s' = s_events s ++ es -> s_taken s' = s_taken s ->
  (forall j, j <> id -> closes j es = 0) -> (if close_emitted c then closes id es = 0 else closes id es = 1) -> inv P s'.
Proof.
  intros [Hok Hst] Hs Hc HP Hreg Hrd Hev Ht Ho Hn. split; [rewrite Hreg; by apply reg_ok_remove|].
  intros j. rewrite Hrd, Hev, Ht, closes_app. specialize (Hst j). unfold status_ok in *. rewrite Hreg.
  unfold remove_by_stream. rewrite Hs. cbn [snd channels next_handle]. destruct (decide (j = id)) as [->|Hj].
  - rewrite lookup_delete_eq. rewrite Hc, HP in Hst. destruct (reg_id _ Hok id c Hc) as [_ [Hge Hlt]].
    rewrite (proj2 (Z.leb_le _ _) Hge), (proj2 (Z.ltb_lt _ _) Hlt), HP. split; [done|]. destruct Hst as [Hcl Hst].
    split; [|rewrite Hcl; destruct (close_emitted c); lia].
    destruct (ready_state c); try done.
    + left. apply Hst.
    + right. exists (length (s_taken s id)). rewrite take_ge by lia. apply Hst.
    + apply Hst.
  - rewrite lookup_delete_ne, Ho, Z.add_0_r by done. exact Hst.
Qed.

(** * The handler's operations *)

(** The state together with what was handed out before. *)
Definition view (rl : list TaggedRTCMessageInternal) (el : list TaggedRTCEventInternal) (T : Z -> list DataChannelMessage) (h : Handler) : Seen :=
  mkSeen (data_channels h) (rl ++ ctx_read_outs h) (el ++ ctx_event_outs h) T.

(** What an operation on channel [id] does to the handler. *)
Definition effect (id : Z) (c' : RTCDataChannelInternal) (rs : list TaggedRTCMessageInternal) (es : list TaggedRTCEventInternal) (h h' : Handler) : Prop :=
  data_channels h' = data_channels h <| channels ::= insert id c' |> /\
  ctx_read_outs h' = ctx_read_outs h ++ rs /\ ctx_event_outs h' = ctx_event_outs h ++ es.

(** ... and one that the application does not notice. *)
Definition same_view (h h' : Handler) : Prop :=
  data_channels h' = data_channels h /\ ctx_read_outs h' = ctx_read_outs h /\ ctx_event_outs h' = ctx_event_outs h.

Lemma same_view_view rl el T h h' : same_view h h' -> view rl el T h' = view rl el T h.
Proof. intros (H1 & H2 & H3). unfold view. by rewrite H1, H2, H3. Qed.

Lemma effect_same id c' rs es h h1 h' : same_view h h1 -> effect id c' rs es h1 h' -> effect id c' rs es h h'.
Proof. intros (H1 & H2 & H3) (E1 & E2 & E3). unfold effect. by rewrite E1, E2, E3, H1, H2, H3. Qed.

Lemma effect_touches rl el T T' id c' rs es h h' :
  effect id c' rs es h h' -> (forall j, j <> id -> reads j rs = []) -> (forall j, j <> id -> closes j es = 0) ->
  (forall j, j <> id -> T' j = T j) -> touches id c' rs es (view rl el T h) (view rl el T' h').
Proof.
  intros (E1 & E2 & E3) H1 H2 H3. split; cbn [view s_reg s_reads s_events s_taken]; try done.
  - by rewrite E2, (assoc_L app).
  - by rewrite E3, (assoc_L app).
Qed.

(** The common case: the operation on [id] leaves [c'] and tells [rs] and [es]. *)
Lemma inv_effect rl el P md T T' id c c' rs es h h' :
  inv P (view rl el T h) -> channels (data_channels h) !! id = Some c -> effect id c' rs es h h' ->
  (forall j, j <> id -> reads j rs = []) -> (forall j, j <> id -> closes j es = 0) -> (forall j, j <> id -> T' j = T j) ->
  ch_id c' = ch_id c -> ch_stream_id c' = ch_stream_id c ->
  (forall R n, channel_ok (P id) c R (T id) n -> channel_ok md c' (R ++ reads id rs) (T' id) (n + closes id es)) ->
  inv (upd P id md) (view rl el T' h').
Proof.
  intros Hi Hc He H1 H2 H3 Eid Es Hch. eapply (inv_touch P md id c c' rs es); [exact Hi|done|by apply effect_touches|done|done|].
  apply Hch. exact (inv_channel _ _ _ _ Hi Hc).
Qed.

Lemma drain_write_same now d h : same_view h (drain_write now d h).2 /\ (drain_write now d h).1 = d <| write_outs := [] |>.
Proof.
  split; [|done]. unfold drain_write. cbn [snd]. generalize (write_outs d). intros l. revert h.
  induction l as [|m l IH]; intros h; [done|]. cbn [foldl]. destruct (IH (send_down now m h)) as (H1 & H2 & H3).
  unfold same_view. by rewrite H1, H2, H3.
Qed.

Definition told (now tr id : Z) (m : DataChannelMessage) : TaggedRTCMessageInternal :=
  mkTagged now tr (MI_DataChannel id (DE_Message (to_application m))).

Lemma drain_read_effect now tr id lb pr d h :
  let h' := (drain_read now tr id lb pr d h).2 in
  data_channels h' = data_channels h /\ ctx_read_outs h' = ctx_read_outs h ++ map (told now tr id) (read_outs d) /\
  ctx_event_outs h' = ctx_event_outs h /\ (drain_read now tr id lb pr d h).1 = d <| read_outs := [] |>.
Proof.
  unfold drain_read. cbn [fst snd]. generalize (read_outs d) at 1 2 3 4. intros l. revert h.
  induction l as [|m l IH]; intros h; [by rewrite app_nil_r|]. cbn [foldl map].
  destruct (IH (deliver now tr id lb pr m h)) as (H1 & H2 & H3 & _). rewrite H1, H2, H3.
  split; [done|]. split; [|done]. unfold deliver, push_read. cbn. by rewrite <- (assoc_L app).
Qed.

Lemma reads_told now tr id l : reads id (map (told now tr id) l) = messages l.
Proof. induction l as [|m l IH]; [done|]. cbn. unfold about. cbn. rewrite Z.eqb_refl. cbn. by f_equal. Qed.
Lemma reads_told_other now tr id l j : j <> id -> reads j (map (told now tr id) l) = [].
Proof.
  intros Hj. induction l as [|m l IH]; [done|]. cbn. unfold about. cbn. rewrite (proj2 (Z.eqb_neq _ _)) by congruence. exact IH.
Qed.

Lemma put_same r id c : channels r !! id = Some c -> r <| channels ::= insert id c |> = r.
Proof.
  intros Hc. destruct r as [ch bs nh]. change (mkRegistry (<[id := c]> ch) bs nh = mkRegistry ch bs nh). f_equal. by apply insert_id.
Qed.

(** Reporting the opening. *)
Lemma emit_effect now tr id c h : channels (data_channels h) !! id = Some c ->
  exists h', emit_data_channel_opened now tr id h = (Ok tt, h') /\
    effect id c [mkTagged now tr (MI_DataChannel id DE_Open)] [] h h'.
Proof.
  intros Hc. unfold emit_data_channel_opened, get_channel, mbind, stm_bind, modify. rewrite Hc. eexists. split; [reflexivity|].
  split; [|split; [done|by rewrite app_nil_r]].
  change (data_channels h = data_channels h <| channels ::= insert id c |>). by rewrite put_same.
Qed.

Lemma inv_emit rl el T P now tr id c h : inv P (view rl el T h) -> channels (data_channels h) !! id = Some c ->
  ready_state c = DS_Open -> P id = Opening ->
  exists h', emit_data_channel_opened now tr id h = (Ok tt, h') /\ inv (upd P id Draining) (view rl el T h') /\
    data_channels h' = data_channels h.
Proof.
  intros Hi Hc Ho HP. destruct (emit_effect now tr id c h Hc) as (h' & E & Heff). exists h'. split; [done|]. split.
  - eapply (inv_effect rl el P Draining T T id c c); [exact Hi|done|exact Heff| |done|done|done|done|].
    + intros j Hj. cbn. unfold about. cbn. by rewrite (proj2 (Z.eqb_neq _ _)) by congruence.
    + intros R n. unfold channel_ok. rewrite Ho, HP. intros (-> & Hce & -> & <-). cbn. unfold about. cbn. rewrite Z.eqb_refl. cbn.
      change (closes id []) with 0. rewrite Z.add_0_r. done.
  - destruct Heff as (-> & _). by apply put_same.
Qed.

(** ** Messages from SCTP *)

(** The channel that takes the user message [m]. *)
Definition taker (h : Handler) (m : DataChannelMessage) : option Z :=
  if is_user m then
    id ← by_stream (data_channels h) !! msg_stream_id m;
    c ← channels (data_channels h) !! id;
    if bool_decide (ready_state c = DS_Closed) then None
    else match ch_data_channel c with Some _ => Some id | None => None end
  else None.

Definition take_at (T : Z -> list DataChannelMessage) (id : Z) (ms : list DataChannelMessage) : Z -> list DataChannelMessage :=
  fun j => if decide (j = id) then T j ++ ms else T j.
Definition took (h : Handler) (m : DataChannelMessage) (T : Z -> list DataChannelMessage) : Z -> list DataChannelMessage :=
  match taker h m with Some id => take_at T id [m] | None => T end.

Lemma take_at_eq T id ms : take_at T id ms id = T id ++ ms.
Proof. unfold take_at. by rewrite decide_True. Qed.
Lemma take_at_ne T id ms j : j <> id -> take_at T id ms j = T j.
Proof. intros. unfold take_at. by rewrite decide_False. Qed.

Lemma user_message_read m d : is_user m = true -> (dc_handle_read m d).1 = Ok tt.
Proof.
  unfold is_user. rewrite negb_true_iff. intros E. unfold dc_handle_read. rewrite bind_modify, E. done.
Qed.

Lemma inv_mode P P' s : (forall j, P j = P' j) -> inv P s -> inv P' s.
Proof. apply inv_ext. Qed.

(** The state of a channel after it read [m], before anything is delivered. *)
Definition after_read (c : RTCDataChannelInternal) (d' : DataChannel) (opened : bool) : RTCDataChannelInternal :=
  let c := c <| ch_data_channel := Some d' |> in
  if opened then c <| ready_state := DS_Open |> <| handshake_deadline := None |> else c.
Definition read_mode (c : RTCDataChannelInternal) (opened : bool) : mode :=
  if opened then Opening else if bool_decide (ready_state c = DS_Open) then Draining else Settled.

Lemma channel_ok_read c d m opened R T n :
  channel_ok Settled c R T n -> ready_state c <> DS_Closed -> ch_data_channel c = Some d ->
  (opened = true -> ready_state c = DS_Connecting) ->
  channel_ok (read_mode c opened) (after_read c (dc_handle_read m d).2 opened) R (T ++ (if is_user m then [m] else [])) n.
Proof.
  intros [Hn Hst] Hnc Hd Hop. destruct (dc_handle_read_outs m d) as [Hr _].
  assert (Hb : buffered (after_read c (dc_handle_read m d).2 opened) = buffered c ++ (if is_user m then [m] else [])).
  { unfold buffered, after_read. rewrite Hd. by destruct opened. }
  assert (Hce : close_emitted (after_read c (dc_handle_read m d).2 opened) = close_emitted c) by (by destruct opened).
  unfold channel_ok. rewrite Hce, Hb. split; [done|]. unfold read_mode. destruct opened.
  - specialize (Hop eq_refl). rewrite Hop in Hst. destruct Hst as (_ & -> & <- & Hce'). cbn. done.
  - change (ready_state (after_read c (dc_handle_read m d).2 false)) with (ready_state c).
    destruct (ready_state c) eqn:E; try done.
    + rewrite bool_decide_eq_false_2 by done. destruct Hst as (_ & -> & <- & Hce'). done.
    + rewrite bool_decide_eq_true_2 by done. destruct Hst as (Hce' & -> & ->). split; [done|].
      unfold open_with. cbn [app messages map]. f_equal. by rewrite map_app.
Qed.

Lemma channel_ok_refused c d m R T n :
  channel_ok Settled c R T n -> ready_state c <> DS_Closed -> ch_data_channel c = Some d -> is_user m = false ->
  channel_ok Settled (after_read c (dc_handle_read m d).2 false) R T n.
Proof.
  intros Hco Hnc Hd Hm. pose proof (channel_ok_read c d m false R T n Hco Hnc Hd ltac:(done)) as Hr.
  rewrite Hm, app_nil_r in Hr. unfold read_mode in Hr. case_bool_decide as Ho; [|exact Hr].
  destruct (dc_handle_read_outs m d) as [Hb _]. rewrite Hm, app_nil_r in Hb.
  destruct Hco as [Hn Hco]. unfold channel_ok, after_read, buffered in *. cbn in Hr |- *. rewrite Ho in *. rewrite Hd in *.
  split; [apply Hr|]. rewrite Hb. apply Hco.
Qed.

Lemma took_at h m T id c d :
  by_stream (data_channels h) !! msg_stream_id m = Some id -> channels (data_channels h) !! id = Some c ->
  ready_state c <> DS_Closed -> ch_data_channel c = Some d ->
  (forall j, j <> id -> took h m T j = T j) /\ took h m T id = T id ++ (if is_user m then [m] else []).
Proof.
  intros Hs Hc Hcl Hd. unfold took, taker. destruct (is_user m); [|by rewrite app_nil_r].
  rewrite Hs. cbn [mbind option_bind]. rewrite Hc. cbn [mbind option_bind]. rewrite bool_decide_eq_false_2, Hd by done.
  split; [intros j Hj; by apply take_at_ne|apply take_at_eq].
Qed.

Lemma took_none h m T : taker h m = None -> took h m T = T.
Proof. unfold took. by intros ->. Qed.

(** The message goes to a known channel. *)
Lemma take_known rl el T m h id c d op md :
  inv settled (view rl el T h) ->
  by_stream (data_channels h) !! msg_stream_id m = Some id -> channels (data_channels h) !! id = Some c ->
  ready_state c <> DS_Closed -> ch_data_channel c = Some d -> (op = true -> ready_state c = DS_Connecting) ->
  (op = false /\ is_user m = false /\ md = Settled \/ md = read_mode c op) ->
  inv (upd settled id md) (view rl el (took h m T)
    (h <| data_channels ::= fun r => r <| channels ::= insert (default 0 (by_stream r !! msg_stream_id m)) (after_read c (dc_handle_read m d).2 op) |> |>)).
Proof.
  intros Hi Hs Hc Hcl Hd Hop Hmd. destruct (took_at h m T id c d Hs Hc Hcl Hd) as [To Ti].
  apply (inv_effect rl el settled _ T _ id c (after_read c (dc_handle_read m d).2 op) [] [] h); [exact Hi|done| |done|done|done| | |].
  - split; [|split; by rewrite app_nil_r].
    change (data_channels h <| channels ::= insert (default 0 (by_stream (data_channels h) !! msg_stream_id m)) (after_read c (dc_handle_read m d).2 op) |> =
            data_channels h <| channels ::= insert id (after_read c (dc_handle_read m d).2 op) |>). by rewrite Hs.
  - by destruct op.
  - by destruct op.
  - intros R n Hco. change (reads id []) with (@nil DataChannelEvent). change (closes id []) with 0.
    rewrite app_nil_r, Z.add_0_r, Ti. destruct Hmd as [(-> & Hu & ->)| ->].
    + rewrite Hu, app_nil_r. by apply channel_ok_refused.
    + by apply channel_ok_read.
Qed.

Lemma inv_settled s id : inv (upd settled id Settled) s -> inv settled s.
Proof. apply inv_ext. intros j. unfold upd, settled. by case_decide. Qed.

Lemma write_control_reads m d : read_outs (write_control m d).2 = read_outs d.
Proof. unfold write_control. unfold mbind, stm_bind, lift. by destruct (marshal m). Qed.

Lemma accept_settled config a sid ppi pl d : DataChannel.accept config a sid ppi pl = Ok d -> read_outs d = [].
Proof.
  unfold DataChannel.accept. case_match; [done|]. destruct (unmarshal pl) as [[msg r]| | |]; cbn; try done.
  destruct msg as [t| | |o]; cbn; try done. destruct (from_utf8 (open_label o)); cbn; try done.
  destruct (from_utf8 (open_protocol o)) as [pr| | |]; cbn; try done.
  match goal with |- context [write_data_channel_ack ?d0] =>
    pose proof (write_control_reads M_Ack d0) as Hw; unfold write_data_channel_ack; destruct (write_control M_Ack d0) as [[]?] end;
    intros [=]; subst. exact Hw.
Qed.

Lemma Internal_accept_open a sid ppi pl c : Internal_accept a sid ppi pl = Ok c ->
  ready_state c = DS_Open /\ ch_stream_id c = Some sid /\ close_emitted c = false /\ exists d, ch_data_channel c = Some d /\ read_outs d = [].
Proof.
  unfold Internal_accept. pose proof (accept_settled DataChannelConfig_default a sid ppi pl) as Ha.
  destruct (DataChannel.accept _ a sid ppi pl) as [d| | |]; cbn; try done. destruct (get_reliability_params _) as [u k]. cbn.
  intros [= <-]. cbn. specialize (Ha d eq_refl). eauto 6.
Qed.

(** What [take_message] leaves to report. *)
Definition pending_mode (opened : bool) (c : RTCDataChannelInternal) (md : mode) : Prop :=
  if opened then md = Opening /\ ready_state c = DS_Open
  else md = if bool_decide (ready_state c = DS_Open) then Draining else Settled.

Lemma take_message_inv rl el T m h :
  inv settled (view rl el T h) ->
  match take_message m h with
  | (Ok (Some opened), h1) =>
      exists id c d md, by_stream (data_channels h1) !! msg_stream_id m = Some id /\ channels (data_channels h1) !! id = Some c /\
        ch_data_channel c = Some d /\ inv (upd settled id md) (view rl el (took h m T) h1) /\ pending_mode opened c md
  | (_, h1) => inv settled (view rl el (took h m T) h1)
  end.
Proof.
  intros Hi. pose proof Hi as [Hok _]. cbn [view s_reg] in Hok. unfold take_message, get_by_stream.
  destruct (by_stream (data_channels h) !! msg_stream_id m) as [id|] eqn:Hs; cbn [mbind option_bind].
  - destruct (reg_fwd _ Hok _ _ Hs) as (c & Hc & Hcs). rewrite Hc.
    assert (Hno : bool_decide (ready_state c = DS_Closed) = true \/ ch_data_channel c = None -> taker h m = None).
    { unfold taker. rewrite Hs. cbn. rewrite Hc. cbn. destruct (is_user m); [|done]. intros [-> | ->]; [done|by case_bool_decide]. }
    destruct (bool_decide (ready_state c = DS_Closed)) eqn:Hcl; [rewrite took_none by auto; exact Hi|].
    destruct (ch_data_channel c) as [d|] eqn:Hd; [|rewrite took_none by auto; exact Hi]. clear Hno.
    apply bool_decide_eq_false in Hcl. pose proof (take_known rl el T m h id c d) as Hk. pose proof (user_message_read m d) as Huser.
    destruct (dc_handle_read m d) as [r d'] eqn:Er. cbn [fst snd] in Hk, Huser.
    assert (Hbad : r <> Ok tt -> inv settled (view rl el (took h m T) (h <| data_channels ::= fun r => r <| channels ::= insert (default 0 (by_stream r !! msg_stream_id m)) (after_read c d' false) |> |>))).
    { intros Hr. apply (inv_settled _ id). apply Hk; [done..|]. left. destruct (is_user m); [by rewrite Huser in Hr|done]. }
    change (ready_state (c <| ch_data_channel := Some d' |>)) with (ready_state c).
    destruct r as [[]| | |]; [|by apply Hbad..]. clear Hbad.
    set (opened := dc_handshake_complete d' && bool_decide (ready_state c = DS_Connecting)).
    assert (Hop : opened = true -> ready_state c = DS_Connecting).
    { unfold opened. rewrite andb_true_iff. intros [_ ?%bool_decide_eq_true]. done. }
    exists id, (after_read c d' opened), d', (read_mode c opened).
    split; [exact Hs|]. split; [|split; [by destruct opened|split; [by apply Hk; auto|by destruct opened]]].
    change (<[default 0 (by_stream (data_channels h) !! msg_stream_id m) := after_read c d' opened]> (channels (data_channels h)) !! id = Some (after_read c d' opened)).
    rewrite Hs. apply lookup_insert_eq.
  - assert (Hno : taker h m = None) by (unfold taker; rewrite Hs; by destruct (is_user m)). rewrite (took_none _ _ _ Hno).
    destruct (Internal_accept _ _ _ _) as [c| | |] eqn:Ha; [|exact Hi..]. apply Internal_accept_open in Ha. destruct Ha as (Ho & Hcs & Hce & d & Hd & Hro).
    exists (next_handle (data_channels h)), (c <| ch_id := next_handle (data_channels h) |>), d, Opening.
    split; [cbn; rewrite Hcs; apply lookup_insert_eq|]. split; [cbn; apply lookup_insert_eq|]. split; [exact Hd|]. split; [|done].
    apply (inv_insert settled Opening c (view rl el T h)); [exact Hi| |reflexivity..|].
    + rewrite Hcs. intros x [= <-]. exact Hs.
    + unfold channel_ok, buffered. by rewrite Ho, Hce, Hd.
Qed.

(** Changes of a channel the application does not notice. *)
Definition alike (c c' : RTCDataChannelInternal) : Prop :=
  ch_id c' = ch_id c /\ ch_stream_id c' = ch_stream_id c /\ ready_state c' = ready_state c /\ close_emitted c' = close_emitted c /\
  buffered c' = buffered c.

Lemma channel_ok_alike md c c' R T n : alike c c' -> channel_ok md c R T n -> channel_ok md c' R T n.
Proof. intros (_ & _ & E1 & E2 & E3). unfold channel_ok. by rewrite E1, E2, E3. Qed.

Lemma inv_upd_same P s id : inv (upd P id (P id)) s -> inv P s.
Proof. apply inv_ext. intros j. unfold upd. case_decide; congruence. Qed.

Lemma inv_quiet rl el T P id c c' h h' : inv P (view rl el T h) -> channels (data_channels h) !! id = Some c ->
  effect id c' [] [] h h' -> alike c c' -> inv P (view rl el T h').
Proof.
  intros Hi Hc He Ha. apply (inv_upd_same _ _ id).
  apply (inv_effect rl el P (P id) T T id c c' [] [] h); [exact Hi|done|exact He|done|done|done|apply Ha|apply Ha|].
  intros R n Hco. rewrite app_nil_r, Z.add_0_r. by apply (channel_ok_alike _ c).
Qed.

Lemma put_effect id c rs es h h1 : data_channels h1 = data_channels h -> ctx_read_outs h1 = ctx_read_outs h ++ rs ->
  ctx_event_outs h1 = ctx_event_outs h ++ es -> effect id c rs es h (put_channel id c h1).
Proof.
  intros E1 E2 E3. split; [|by split].
  change (data_channels h1 <| channels ::= insert id c |> = data_channels h <| channels ::= insert id c |>). by rewrite E1.
Qed.

Lemma put_quiet rl el T P id c c' h h1 : inv P (view rl el T h) -> channels (data_channels h) !! id = Some c ->
  same_view h h1 -> alike c c' -> inv P (view rl el T (put_channel id c' h1)).
Proof.
  intros Hi Hc (E1 & E2 & E3) Ha. apply (inv_quiet rl el T P id c c' h); [exact Hi|done| |done].
  apply put_effect; by rewrite ?app_nil_r.
Qed.

(** The end of [handle_read]: what is buffered goes out. *)
Definition flush (now tr id : Z) (c : RTCDataChannelInternal) (d : DataChannel) (h : Handler) : Handler :=
  let '(d, h) := if bool_decide (ready_state c = DS_Open)
                 then drain_read now tr id (ch_label c) (ch_protocol c) d h else (d, h) in
  let '(d, h) := drain_write now d h in
  put_channel id (c <| ch_data_channel := Some d |>) h.

Lemma flush_inv rl el T P now tr id c d h :
  inv P (view rl el T h) -> channels (data_channels h) !! id = Some c -> ch_data_channel c = Some d ->
  P id = (if bool_decide (ready_state c = DS_Open) then Draining else Settled) ->
  inv (upd P id Settled) (view rl el T (flush now tr id c d h)).
Proof.
  intros Hi Hc Hd HP. unfold flush. case_bool_decide as Ho.
  - pose proof (drain_read_effect now tr id (ch_label c) (ch_protocol c) d h) as Hr.
    destruct (drain_read _ _ _ _ _ d h) as [d1 h1]. cbn [fst snd] in Hr. destruct Hr as (R1 & R2 & R3 & ->).
    destruct (drain_write_same now (d <| read_outs := [] |>) h1) as [(W1 & W2 & W3) Wd]. destruct (drain_write _ _ h1) as [d2 h2]. cbn [fst snd] in *.
    apply (inv_effect rl el P Settled T T id c (c <| ch_data_channel := Some d2 |>) (map (told now tr id) (read_outs d)) [] h);
      [exact Hi|done| | |done|done|done|done|].
    + apply put_effect; [congruence|congruence|rewrite app_nil_r; congruence].
    + intros j Hj. by apply reads_told_other.
    + intros R n. rewrite HP, reads_told, Z.add_0_r. unfold channel_ok, buffered. cbn. rewrite Ho, Hd, Wd. cbn.
      intros (? & ? & ?). done.
  - destruct (drain_write_same now d h) as [Hsv Wd]. destruct (drain_write now d h) as [d1 h1]. cbn [fst snd] in *.
    apply (inv_ext P); [intros j; unfold upd; case_decide; congruence|].
    apply (put_quiet rl el T P id c _ h); [done|done|done|]. unfold alike, buffered. cbn. by rewrite Hd, Wd.
Qed.

Lemma observe_view rl el T now h : view rl el T (observe now h) = view rl el T h.
Proof. done. Qed.

Definition is_internal (msg : TaggedRTCMessageInternal) : bool :=
  match tag_message msg with MI_DataChannel _ _ => true | _ => false end.

Definition reading (h : Handler) (msg : TaggedRTCMessageInternal) (T : Z -> list DataChannelMessage) : Z -> list DataChannelMessage :=
  match tag_message msg with MI_Sctp m => took h m T | _ => T end.

Lemma inv_push_read rl el T P msg h : is_internal msg = false -> inv P (view rl el T h) -> inv P (view rl el T (push_read msg h)).
Proof.
  intros Hm [Hok Hst]. split; [done|]. intros id. specialize (Hst id). cbn [view s_reg s_reads s_events s_taken] in *.
  change (ctx_read_outs (push_read msg h)) with (ctx_read_outs h ++ [msg]). rewrite (assoc_L app), reads_app.
  replace (reads id [msg]) with (@nil DataChannelEvent); [by rewrite app_nil_r|].
  cbn. unfold about. unfold is_internal in Hm. by destruct (tag_message msg).
Qed.

Lemma report_inv rl el T msg m opened id c d md h :
  by_stream (data_channels h) !! msg_stream_id m = Some id -> channels (data_channels h) !! id = Some c ->
  ch_data_channel c = Some d -> inv (upd settled id md) (view rl el T h) -> pending_mode opened c md ->
  exists h', (if opened then emit_data_channel_opened (tag_now msg) (tag_transport msg) id else mret tt : HM unit) h = (Ok tt, h') /\
    channels (data_channels h') !! id = Some c /\
    inv settled (view rl el T (flush (tag_now msg) (tag_transport msg) id c d h')).
Proof.
  intros Hs Hc Hd Hi Hmd. destruct opened; cbn [pending_mode] in Hmd.
  - destruct Hmd as [-> Ho].
    destruct (inv_emit rl el T _ (tag_now msg) (tag_transport msg) id c h Hi Hc Ho (upd_eq _ _ _)) as (h' & E & Hi' & Ed).
    exists h'. rewrite Ed. split; [exact E|]. split; [done|]. apply (inv_settled _ id).
    eapply inv_ext; [|apply (flush_inv rl el T _ _ _ id c d h' Hi'); [by rewrite Ed|done|]].
    + intros j. unfold upd. by case_decide.
    + rewrite upd_eq. by rewrite bool_decide_eq_true_2.
  - exists h. split; [done|]. split; [done|]. apply (inv_settled _ id).
    eapply inv_ext; [|apply (flush_inv rl el T _ _ _ id c d h Hi); [done|done|by rewrite upd_eq]].
    intros j. unfold upd. repeat case_decide; done.
Qed.

Lemma bind_some {A B} (x : A) e (f : A -> HM B) h : (ok_or (Some x) e ≫= f) h = f x h.
Proof. done. Qed.

Lemma h_handle_read_inv rl el T msg h : inv settled (view rl el T h) -> is_internal msg = false ->
  inv settled (view rl el (reading h msg T) (h_handle_read msg h).2).
Proof.
  intros Hi Hm. unfold h_handle_read, reading. rewrite bind_modify.
  destruct (tag_message msg) as [m|i e|x] eqn:Emsg; [|by unfold is_internal in Hm; rewrite Emsg in Hm|].
  - rewrite <- (observe_view _ _ _ (tag_now msg)) in Hi. change (took h m T) with (took (observe (tag_now msg) h) m T).
    revert Hi. generalize (observe (tag_now msg) h). clear h. intros h Hi. pose proof (take_message_inv rl el T m h Hi) as Ht.
    unfold mbind at 1, stm_bind at 1. destruct (take_message m h) as [[[opened|]| | |] h1]; cbn [snd]; try exact Ht.
    destruct Ht as (id & c & d & md & Hs & Hc & Hd & Hi1 & Hmd).
    destruct (report_inv rl el (took h m T) msg m opened id c d md h1 Hs Hc Hd Hi1 Hmd) as (h2 & E & Hc2 & Hi2).
    rewrite bind_get. cbn [Datatypes.id]. rewrite Hs, bind_some.
    rewrite (bind_run _ _ _ _ _ E). unfold get_channel, mbind at 1, stm_bind at 1. rewrite Hc2, Hd, bind_some.
    exact Hi2.
  - apply inv_push_read; [done|]. exact Hi.
Qed.

Lemma dc_handle_write_reads m d : read_outs (dc_handle_write m d) = read_outs d.
Proof. done. Qed.

Lemma h_handle_write_inv rl el T msg h : inv settled (view rl el T h) -> inv settled (view rl el T (h_handle_write msg h).2).
Proof.
  intros Hi. unfold h_handle_write. rewrite bind_modify. rewrite <- (observe_view _ _ _ (tag_now msg)) in Hi.
  revert Hi. generalize (observe (tag_now msg) h). clear h. intros h Hi.
  destruct (tag_message msg) as [m|id [|m|]|x]; [exact Hi..| |exact Hi|exact Hi].
  unfold mbind at 1, stm_bind at 1, get_channel. destruct (channels (data_channels h) !! id) as [c|] eqn:Hc; [|exact Hi].
  unfold mbind, stm_bind. destruct (ch_data_channel c) as [d|] eqn:Hd; [|exact Hi].
  cbn [ok_or mret stm_ret modify snd].
  match goal with |- context [drain_write ?n ?d ?h] => destruct (drain_write_same n d h) as [Hsv Wd]; destruct (drain_write n d h) as [d1 h1] end.
  cbn [fst snd] in *. apply (put_quiet rl el T settled id c _ h); [exact Hi|done|exact Hsv|].
  unfold alike, buffered. cbn. by rewrite Hd, Wd.
Qed.

(** ** Opening the channels of the application *)

Lemma marshal_total m : exists b, marshal (E:=DcError) m = Ok b.
Proof.
  unfold marshal. cbn [marshal_size marshal_to Message_MarshalSize Message_MarshalTo]. unfold Message_marshal_to, MessageType_marshal_to.
  destruct m as [t| | |o]; cbn [Message_size message_type]; unfold MESSAGE_TYPE_LEN in *; [eexists; reflexivity..|].
  assert (H0 : 11 <= DataChannelOpen_size o) by (unfold DataChannelOpen_size, CHANNEL_OPEN_HEADER_LEN; zlen_pos; lia).
  rewrite (proj2 (Z.ltb_ge _ _)) by lia. cbn [mbind outcome_bind]. unfold DataChannelOpen_marshal_to, ChannelType_marshal_to, CHANNEL_TYPE_LEN.
  rewrite (proj2 (Z.ltb_ge _ _)), (proj2 (Z.ltb_ge _ _)) by lia. cbn [mbind outcome_bind].
  replace (1 + DataChannelOpen_size o) with (DataChannelOpen_size o + 1) by lia. rewrite Z.eqb_refl. by eexists.
Qed.

Lemma run_control m d : exists d', run_on (write_control m) d = Ok d' /\ read_outs d' = read_outs d.
Proof.
  destruct (marshal_total m) as [b Hb]. unfold run_on, write_control. rewrite (bind_lift _ _ _ _ Hb). by eexists.
Qed.

Lemma Internal_dial_total a c s : ch_stream_id c = Some s ->
  exists d, read_outs d = [] /\
    Internal_dial a c = Ok (c <| ch_data_channel := Some d |> <| ready_state := if ch_negotiated c then DS_Open else DS_Connecting |>).
Proof.
  intros Hs. unfold Internal_dial. rewrite Hs. destruct (get_channel_type_and_reliability_parameter _ _ _) as [ct rp].
  unfold dial. cbn [dc_channel_type dc_priority dc_reliability_parameter dc_label dc_protocol dc_negotiated].
  destruct (marshal_total (M_Open (mkOpen ct CHANNEL_PRIORITY_NORMAL rp (ch_label c) (ch_protocol c)))) as [b ->]. cbn [mbind outcome_bind].
  unfold set_buffered_amount_low_threshold, set_buffered_amount_high_threshold.
  match goal with |- context [run_on (write_control ?m) ?d] => destruct (run_control m d) as (d1 & -> & H1) end. cbn [mbind outcome_bind].
  match goal with |- context [run_on (write_control ?m) ?d] => destruct (run_control m d) as (d2 & -> & H2) end. cbn [mbind outcome_bind].
  exists d2. split; [by rewrite H2, H1|done].
Qed.

(** The channels [l] are open and the application has yet to hear of it. *)
Definition opening (l : list Z) : Z -> mode := fun j => if bool_decide (j ∈ l) then Opening else Settled.
Definition fresh_open (r : DataChannelRegistry) (id : Z) : Prop :=
  exists c, channels r !! id = Some c /\ ready_state c = DS_Open /\ buffered c = [].
(** Every channel has a stream. *)
Definition all_assigned (r : DataChannelRegistry) : Prop := forall id c, channels r !! id = Some c -> is_Some (ch_stream_id c).

Record dialling (l : list Z) (s : Seen) : Prop := mkDialling {
  dl_inv : inv (opening l) s;
  dl_nodup : NoDup l;
  dl_fresh : forall id, id ∈ l -> fresh_open (s_reg s) id;
  dl_assigned : all_assigned (s_reg s)
}.

Lemma dialling_put rl el T l l' id c c' h h' :
  dialling l (view rl el T h) -> channels (data_channels h) !! id = Some c -> effect id c' [] [] h h' ->
  ch_stream_id c' = ch_stream_id c -> id ∉ l -> NoDup l' -> (forall j, j ∈ l' -> j ∈ l \/ j = id /\ ready_state c' = DS_Open /\ buffered c' = []) ->
  inv (opening l') (view rl el T h') -> dialling l' (view rl el T h').
Proof.
  intros [_ _ Hf Ha] Hc (E & _ & _) Es Hni Hnd Hl Hi. cbn [view s_reg] in *.
  assert (Ec : channels (data_channels h') = <[id := c']> (channels (data_channels h))) by (by rewrite E).
  split; [done|done| |]; cbn [view s_reg].
  - intros j [Hj|(-> & Ho & Hb)]%Hl; [|exists c'; by rewrite Ec, lookup_insert_eq].
    destruct (Hf j Hj) as (e & He & ?). exists e. rewrite Ec, lookup_insert_ne by congruence. done.
  - intros j e. rewrite Ec. intros [[<- <-]|[_ He]]%lookup_insert_Some; [rewrite Es|]; eauto.
Qed.

Lemma opening_snoc l id j : upd (opening l) id Opening j = opening (l ++ [id]) j.
Proof. unfold upd, opening. repeat case_decide; repeat case_bool_decide; set_solver. Qed.

Lemma dial_one_spec rl el T now a id l h : dialling l (view rl el T h) ->
  exists o h', dial_one now a id h = (Ok o, h') /\ dialling (l ++ o) (view rl el T h').
Proof.
  intros Hdl. pose proof Hdl as [Hi Hnd Hf Ha]. cbn [view s_reg] in *. unfold dial_one.
  assert (Hnop : exists o h', (Ok [] : dc_result (list Z), h) = (Ok o, h') /\ dialling (l ++ o) (view rl el T h')).
  { exists [], h. by rewrite app_nil_r. }
  destruct (channels (data_channels h) !! id) as [c|] eqn:Hc; [|done].
  do 2 (case_bool_decide; [|done]). clear Hnop. rename H into Hcon, H0 into Hnone. cbn [andb].
  assert (Hni : id ∉ l). { intros (e & He & Ho & _)%Hf. congruence. }
  assert (HP : opening l id = Settled) by (unfold opening; by rewrite bool_decide_eq_false_2).
  destruct (Ha id c Hc) as [s Hs]. destruct (Internal_dial_total a c s Hs) as (d & Hd & ->).
  assert (Hid : ch_id c = id) by (apply (reg_id _ (proj1 Hi) id c Hc)).
  destruct (ch_negotiated c) eqn:Hn; cbn [ch_negotiated ch_data_channel];
    match goal with |- context [ch_negotiated ?x] => change (ch_negotiated x) with (ch_negotiated c); rewrite Hn end; cbn match;
    match goal with |- context [ch_data_channel ?x] => change (ch_data_channel x) with (Some d) end; cbn match;
    destruct (drain_write_same now d h) as [(W1 & W2 & W3) Wd]; destruct (drain_write now d h) as [d1 h1]; cbn [fst snd] in *.
  - exists [id], (put_channel id (c <| ch_data_channel := Some d |> <| ready_state := DS_Open |> <| ch_data_channel := Some d1 |>) h1).
    split; [cbn; by rewrite Hn, Hid|].
    assert (He : effect id (c <| ch_data_channel := Some d |> <| ready_state := DS_Open |> <| ch_data_channel := Some d1 |>) [] [] h
      (put_channel id (c <| ch_data_channel := Some d |> <| ready_state := DS_Open |> <| ch_data_channel := Some d1 |>) h1)).
    { apply put_effect; by rewrite ?app_nil_r. }
    eapply (dialling_put _ _ _ l _ id c); [exact Hdl|done|exact He|done|done| | |].
    + apply NoDup_app. split; [done|]. split; [set_solver|apply NoDup_singleton].
    + intros j [?| ->%list_elem_of_singleton]%elem_of_app; [by left|right]. split; [done|]. unfold buffered. cbn. by rewrite Wd.
    + eapply inv_ext; [apply opening_snoc|].
      eapply (inv_effect rl el (opening l) Opening T T id c); [exact Hi|done|exact He|done|done|done|done|done|].
      intros R n. rewrite HP, app_nil_r, Z.add_0_r. unfold channel_ok, buffered. cbn. rewrite Hcon, Hnone, Wd. cbn. rewrite Hd. by intros (? & _ & ? & ? & ?).
  - eexists [], _. split; [cbn; rewrite Hn; reflexivity|]. rewrite app_nil_r.
    eapply (dialling_put _ _ _ l _ id c); [exact Hdl|done|apply (put_effect _ _ [] []); [exact W1|by rewrite app_nil_r..]|done|done|done|by left|].
    apply (put_quiet rl el T _ id c _ h); [exact Hi|done|done|]. unfold alike, buffered. cbn. rewrite Hnone, Wd, Hcon. cbn. by rewrite Hd.
Qed.

Lemma dial_all_spec rl el T now a ids : forall l h, dialling l (view rl el T h) ->
  exists l' h', dial_all now a ids l h = (Ok l', h') /\ dialling l' (view rl el T h').
Proof.
  induction ids as [|id ids IH]; intros l h Hdl; [by exists l, h|]. cbn [dial_all].
  destruct (dial_one_spec rl el T now a id l h Hdl) as (o & h1 & E & Hdl1). rewrite (bind_run _ _ _ _ _ E). by apply IH.
Qed.

Lemma inv_drained P id c s : inv P s -> channels (s_reg s) !! id = Some c -> ready_state c = DS_Open -> buffered c = [] ->
  P id = Draining -> inv (upd P id Settled) s.
Proof.
  intros [Hok Hst] Hc Ho Hb HP. split; [done|]. intros j. specialize (Hst j). unfold upd. case_decide; [subst|done].
  unfold status_ok, channel_ok in *. rewrite Hc, Ho, Hb, HP, app_nil_r in *. tauto.
Qed.

Lemma emit_all rl el T now tr l : forall h, NoDup l -> inv (opening l) (view rl el T h) ->
  (forall id, id ∈ l -> fresh_open (data_channels h) id) ->
  exists h', for_each (emit_data_channel_opened now tr) l h = (Ok tt, h') /\ inv settled (view rl el T h').
Proof.
  induction l as [|id l IH]; intros h Hnd Hi Hf.
  { exists h. split; [done|]. eapply inv_ext; [|exact Hi]. done. }
  apply NoDup_cons in Hnd as [Hni Hnd]. destruct (Hf id) as (c & Hc & Ho & Hb); [by left|].
  assert (HP : opening (id :: l) id = Opening) by (unfold opening; by rewrite bool_decide_eq_true_2 by left).
  destruct (inv_emit rl el T _ now tr id c h Hi Hc Ho HP) as (h1 & E & Hi1 & Ed).
  apply (inv_drained _ id c) in Hi1; [|cbn [view s_reg]; by rewrite Ed|done|done|apply upd_eq].
  destruct (IH h1) as (h2 & E2 & Hi2); [done| |rewrite Ed; intros j Hj; apply Hf; by right|].
  - eapply inv_ext; [|exact Hi1]. intros j. unfold upd, opening. repeat case_decide; repeat case_bool_decide; set_solver.
  - exists h2. split; [|done]. cbn [for_each]. by rewrite (bind_run _ _ _ _ _ E).
Qed.

(** ** The connected procedure *)

Lemma inv_assigned rl el T h A r' : inv settled (view rl el T h) -> reg_ok r' -> next_handle r' = next_handle (data_channels h) ->
  (forall id, channels r' !! id = assigned A id <$> channels (data_channels h) !! id) ->
  inv settled (view rl el T (h <| data_channels := r' |>)).
Proof.
  intros [_ Hst] Hok Hn Hch. split; [done|]. intros id. specialize (Hst id). unfold status_ok in *.
  cbn [view s_reg s_reads s_events s_taken] in *. change (data_channels (h <| data_channels := r' |>)) with r'.
  rewrite Hn, Hch. destruct (channels (data_channels h) !! id) as [c|]; cbn [fmap option_fmap option_map]; [|exact Hst].
  unfold assigned. by destruct (A !! id).
Qed.

Lemma assign_roles role mx r : (role = Role_Client \/ role = Role_Server) \/
  assign_stream_ids role mx r = (Err ErrDataChannelStreamIdNotAssigned, r).
Proof. destruct role; auto. Qed.

Lemma assign_inv rl el T role mx h : inv settled (view rl el T h) ->
  exists res h', on_registry (assign_stream_ids role mx) h = (res, h') /\ inv settled (view rl el T h') /\
    (res = Ok tt -> all_assigned (data_channels h')).
Proof.
  intros Hi. pose proof (proj1 Hi) as Hok. cbn [view s_reg] in Hok. unfold on_registry.
  destruct (assign_roles role mx (data_channels h)) as [Hr|E]; [|rewrite E; eexists _, _; split; [reflexivity|]; split; [exact Hi|done]].
  destruct (assign_stream_ids_spec role mx (data_channels h) Hok Hr) as (res & ids & r' & E & [H1 H2 H3 H4 H5] & Hres).
  rewrite E. eexists _, _. split; [reflexivity|]. split; [by eapply inv_assigned|]. intros ->. destruct Hres as [(_ & Hl & _)|[Hx _]]; [|done].
  intros id c. change (data_channels (h <| data_channels := r' |>)) with r'. rewrite H3.
  destruct (channels (data_channels h) !! id) as [c0|] eqn:Hc; [|done]. intros [= <-]. unfold assigned.
  destruct (list_to_map _ !! id) eqn:Em; [done|]. destruct (ch_stream_id c0) eqn:Es; [done|].
  apply not_elem_of_list_to_map in Em. rewrite fst_zip in Em by lia. destruct Em. apply elem_of_pending; eauto.
Qed.

Lemma connected_inv rl el T role mx now a order h : inv settled (view rl el T h) ->
  inv settled (view rl el T ((on_registry (assign_stream_ids role mx) ;;
      h ← gets id;
      opened ← dial_all now a (order (channels (data_channels h))) [];
      for_each (emit_data_channel_opened now 0) opened) h).2).
Proof.
  intros Hi. destruct (assign_inv rl el T role mx h Hi) as (res & h1 & E & Hi1 & Ha).
  destruct res as [[]| | |]; [|unfold mbind at 1, stm_bind at 1; rewrite E; exact Hi1..].
  rewrite (bind_run _ _ _ _ _ E), bind_get.
  destruct (dial_all_spec rl el T now a (order (channels (data_channels h1))) [] h1) as (l & h2 & E2 & [Hi2 Hnd Hf _]).
  { split; [|constructor|intros id []%not_elem_of_nil|by apply Ha]. eapply inv_ext; [|exact Hi1]. done. }
  cbn [Datatypes.id]. rewrite (bind_run _ _ _ _ _ E2). destruct (emit_all rl el T now 0 l h2 Hnd Hi2 Hf) as (h3 & E3 & Hi3).
  by rewrite E3.
Qed.

(** ** Closing *)

Definition is_report (e : RTCEventInternal) : bool := match e with OnDataChannel (OnClose _) => true | _ => false end.

Lemma inv_push_event rl el T P e h : is_report (ev_event e) = false -> inv P (view rl el T h) ->
  inv P (view rl el T (push_event_out e h)).
Proof.
  intros He [Hok Hst]. split; [done|]. intros id. specialize (Hst id). cbn [view s_reg s_reads s_events s_taken] in *.
  change (ctx_event_outs (push_event_out e h)) with (ctx_event_outs h ++ [e]). rewrite (assoc_L app), closes_app.
  replace (closes id [e]) with 0; [by rewrite Z.add_0_r|].
  unfold closes. cbn. unfold is_close. unfold is_report in He. destruct (ev_event e) as [| | | | |[]|]; done.
Qed.

Lemma closes_one now id j : closes j [mkTaggedEvent now (OnDataChannel (OnClose id))] = if id =? j then 1 else 0.
Proof. unfold closes. cbn. unfold is_close. cbn. by destruct (id =? j). Qed.

Lemma dc_close_total d : exists d', dc_close d = (Ok tt, d').
Proof. destruct (marshal_total M_Close) as [b Hb]. unfold dc_close, write_data_channel_close, write_control. by eexists. Qed.

(** What a closed channel may still have shown. *)
Lemma channel_ok_closing c c' R T n k : channel_ok Settled c R T n -> ready_state c' = DS_Closed ->
  close_emitted c = false -> (k = if close_emitted c' then 1 else 0) -> channel_ok Settled c' R T (n + k).
Proof.
  intros [Hn Hst] Hc Hce ->. rewrite Hce in Hn. unfold channel_ok. rewrite Hc. split; [lia|]. split; [done|].
  destruct (ready_state c); try done; [by left; apply Hst| |by apply Hst].
  right. exists (length T). rewrite take_ge by lia. apply Hst.
Qed.

Lemma channel_ok_not_emitted c R T n : channel_ok Settled c R T n -> ready_state c <> DS_Closed -> close_emitted c = false.
Proof. intros [_ H]. destruct (ready_state c); try done; tauto. Qed.

Lemma closing_inv rl el T id c c' es h h' : inv settled (view rl el T h) -> channels (data_channels h) !! id = Some c ->
  effect id c' [] es h h' -> ready_state c <> DS_Closed -> ready_state c' = DS_Closed -> ch_id c' = ch_id c -> ch_stream_id c' = ch_stream_id c ->
  (forall j, j <> id -> closes j es = 0) -> closes id es = (if close_emitted c' then 1 else 0) -> inv settled (view rl el T h').
Proof.
  intros Hi Hc He Ho Hcl Eid Es Hes Hn. apply (inv_settled _ id).
  apply (inv_effect rl el settled Settled T T id c c' [] es h); [exact Hi|done|exact He|done|done|done|done|done|].
  intros R n Hco. rewrite app_nil_r. apply (channel_ok_closing c); [done|done|by eapply channel_ok_not_emitted|done].
Qed.

Lemma close_timed_out_inv rl el T now id c h : inv settled (view rl el T h) -> channels (data_channels h) !! id = Some c ->
  ready_state c = DS_Connecting ->
  exists h', close_timed_out now id h = (Ok tt, h') /\ inv settled (view rl el T h') /\
    forall j, j <> id -> channels (data_channels h') !! j = channels (data_channels h) !! j.
Proof.
  intros Hi Hc Ho. unfold close_timed_out. rewrite Hc.
  assert (Hfin : forall c1 st, ready_state c1 = DS_Closed -> ch_id c1 = ch_id c -> ch_stream_id c1 = ch_stream_id c ->
    let h' := push_event_out (mkTaggedEvent now (OnDataChannel (OnClose id))) (put_channel id (c1 <| close_emitted := true |>) (h <| h_stats ::= st |>)) in
    inv settled (view rl el T h') /\ forall j, j <> id -> channels (data_channels h') !! j = channels (data_channels h) !! j).
  { intros c1 st H1 H2 H3 h'. split; [|intros j Hj; by apply lookup_insert_ne].
    apply (closing_inv rl el T id c (c1 <| close_emitted := true |>) [mkTaggedEvent now (OnDataChannel (OnClose id))] h);
      [exact Hi|done| |congruence|exact H1|exact H2|exact H3| |].
    - split; [done|]. split; [by rewrite app_nil_r|done].
    - intros j Hj. rewrite closes_one. by rewrite (proj2 (Z.eqb_neq _ _)).
    - rewrite closes_one, Z.eqb_refl. done. }
  change (ch_data_channel (c <| handshake_deadline := None |> <| ready_state := DS_Closed |>)) with (ch_data_channel c).
  destruct (ch_data_channel c) as [d|].
  - destruct (dc_close_total d) as [d' ->]. eexists. split; [reflexivity|]. by apply Hfin.
  - eexists. split; [reflexivity|]. by apply Hfin.
Qed.

Lemma close_all_inv rl el T now l : forall h, inv settled (view rl el T h) -> NoDup l ->
  (forall id, id ∈ l -> exists c, channels (data_channels h) !! id = Some c /\ ready_state c = DS_Connecting) ->
  inv settled (view rl el T (for_each (close_timed_out now) l h).2).
Proof.
  induction l as [|id l IH]; intros h Hi Hnd Hl; [done|]. apply NoDup_cons in Hnd as [Hni Hnd].
  destruct (Hl id) as (c & Hc & Ho); [by left|]. destruct (close_timed_out_inv rl el T now id c h Hi Hc Ho) as (h1 & E & Hi1 & Hoth).
  cbn [for_each]. rewrite (bind_run _ _ _ _ _ E). apply IH; [done|done|].
  intros j Hj. rewrite Hoth by congruence. apply Hl. by right.
Qed.

Lemma stream_closed_inv rl el T now sid h : inv settled (view rl el T h) -> inv settled (view rl el T (stream_closed now sid h)).
Proof.
  intros Hi. pose proof (proj1 Hi) as Hok. cbn [view s_reg] in Hok. unfold stream_closed.
  destruct (by_stream (data_channels h) !! sid) as [id|] eqn:Hs.
  - destruct (reg_fwd _ Hok _ _ Hs) as (c & Hc & _). destruct (reg_id _ Hok id c Hc) as [Hid _].
    assert (Hrem : forall es h', data_channels h' = (remove_by_stream sid (data_channels h)).2 -> ctx_read_outs h' = ctx_read_outs h ->
      ctx_event_outs h' = ctx_event_outs h ++ es -> (forall j, j <> id -> closes j es = 0) ->
      (if close_emitted c then closes id es = 0 else closes id es = 1) -> inv settled (view rl el T h')).
    { intros es h' H1 H2 H3 H4 H5. apply (inv_remove settled sid id c es (view rl el T h)); [exact Hi|done|done|done|done| | |done|done|done].
      - cbn. by rewrite H2.
      - cbn. by rewrite H3, (assoc_L app). }
    destruct (remove_by_stream sid (data_channels h)) as [dc r] eqn:Er. cbn [snd] in Hrem.
    assert (dc = Some c) as ->. { unfold remove_by_stream in Er. rewrite Hs in Er. congruence. }
    destruct (close_emitted c) eqn:Hce.
    + apply (Hrem []); [done|done|by rewrite app_nil_r|done|done].
    + rewrite Hid. apply (Hrem [mkTaggedEvent now (OnDataChannel (OnClose id))]); [done|done|done| |].
      * intros j Hj. rewrite closes_one. by rewrite (proj2 (Z.eqb_neq _ _)).
      * by rewrite closes_one, Z.eqb_refl.
  - unfold remove_by_stream. rewrite Hs. exact Hi.
Qed.

Lemma alter_quiet rl el T P f id h : (forall c, alike c (f c)) -> inv P (view rl el T h) ->
  inv P (view rl el T (h <| data_channels ::= fun r => r <| channels ::= alter f id |> |>)).
Proof.
  intros Hf Hi. destruct (channels (data_channels h) !! id) as [c|] eqn:Hc.
  - apply (inv_quiet rl el T P id c (f c) h); [exact Hi|done| |done].
    split; [|split; by rewrite app_nil_r]. cbn. unfold over. cbn. f_equal. apply map_eq. intros j.
    destruct (decide (j = id)) as [->|Hj]; [by rewrite lookup_insert_eq, lookup_alter_eq, Hc|by rewrite lookup_insert_ne, lookup_alter_ne].
  - replace (view rl el T (h <| data_channels ::= fun r => r <| channels ::= alter f id |> |>)) with (view rl el T h); [done|].
    unfold view. f_equal. destruct h as [[ch bs nh]]. cbn in Hc |- *. unfold over. cbn. f_equal. apply map_eq. intros j.
    destruct (decide (j = id)) as [->|Hj]; [by rewrite lookup_alter_eq, Hc|by rewrite lookup_alter_ne].
Qed.

Lemma buffer_released_inv rl el T P sid n h : inv P (view rl el T h) -> inv P (view rl el T (buffer_released sid n h)).
Proof.
  intros Hi. unfold buffer_released. destruct (by_stream (data_channels h) !! sid) as [id|]; [|done]. by apply alter_quiet.
Qed.

Lemma send_message_inv rl el T P mx now id m h : inv P (view rl el T h) -> inv P (view rl el T (send_message mx now id m h).2).
Proof. intros Hi. unfold send_message. destruct (ensure_sendable _ _ _ h); [|exact Hi..]. by apply alter_quiet. Qed.

Lemma app_set_threshold_inv rl el T P set m id h : (forall c, alike c (set c)) -> (forall d, read_outs (m d).2 = read_outs d) ->
  inv P (view rl el T h) -> inv P (view rl el T (app_set_threshold set m id h).2).
Proof.
  intros Hset Hm Hi. unfold app_set_threshold. destruct (channels (data_channels h) !! id) as [c|] eqn:Hc; [|exact Hi]. cbn [snd].
  apply (put_quiet rl el T P id c _ h); [exact Hi|done|done|]. destruct (Hset c) as (H1 & H2 & H3 & H4 & H5).
  destruct (ch_data_channel (set c)) as [d|] eqn:Hd; [|done]. unfold alike, buffered in *. cbn. rewrite Hd in H5. by rewrite Hm.
Qed.

Lemma buffered_event_inv rl el T P now sid e h : (forall id, is_report (OnDataChannel (e id)) = false) ->
  inv P (view rl el T h) -> inv P (view rl el T (buffered_event now sid e h)).
Proof.
  intros He Hi. unfold buffered_event. destruct (by_stream (data_channels h) !! sid); [|done]. by apply inv_push_event; [apply He|].
Qed.

Lemma h_handle_event_inv rl el T order evt h : is_report (ev_event evt) = false -> inv settled (view rl el T h) ->
  inv settled (view rl el T (h_handle_event order evt h).2).
Proof.
  intros He Hi. unfold h_handle_event. destruct (ev_event evt) eqn:Ee; cbn [modify snd].
  - rewrite bind_get. by apply connected_inv.
  - by apply stream_closed_inv.
  - by apply buffer_released_inv.
  - by apply buffered_event_inv.
  - by apply buffered_event_inv.
  - by apply inv_push_event.
  - by apply inv_push_event.
Qed.

Lemma drain_channel_inv rl el T h id : inv settled (view rl el T h) -> inv settled (view rl el T (drain_channel h id)).
Proof.
  intros Hi. unfold drain_channel.
  destruct (channels (data_channels h) !! id) as [c|] eqn:Hc; [|done]. destruct (ch_data_channel c) as [d|] eqn:Hd; [|done].
  destruct (drain_write_same (ctx_now h) d h) as [Hsv Wd]. destruct (drain_write (ctx_now h) d h) as [d1 h1]. cbn [fst snd] in *.
  apply (put_quiet rl el T settled id c _ h); [done|done|done|]. unfold alike, buffered. cbn. by rewrite Hd, Wd.
Qed.

Lemma h_poll_write_inv rl el T order h : inv settled (view rl el T h) -> inv settled (view rl el T (h_poll_write order h).2).
Proof.
  intros Hi. unfold h_poll_write.
  assert (Hf : forall l h, inv settled (view rl el T h) -> inv settled (view rl el T (foldl drain_channel h l))).
  { clear. induction l as [|id l IH]; intros h Hi; [done|]. cbn [foldl]. by apply IH, drain_channel_inv. }
  apply (Hf (order (channels (data_channels h)))) in Hi. revert Hi. generalize (foldl drain_channel h (order (channels (data_channels h)))).
  intros h1 Hi1. by destruct (pop_front (ctx_write_outs h1)).
Qed.

Lemma app_close_inv rl el T id h : inv settled (view rl el T h) -> inv settled (view rl el T (app_close id h).2).
Proof.
  intros Hi. unfold app_close. destruct (channels (data_channels h) !! id) as [c|] eqn:Hc; [|done].
  case_bool_decide as Hcl; [done|]. pose proof (inv_channel _ _ _ _ Hi Hc) as Hco. apply channel_ok_not_emitted in Hco; [|done].
  assert (Hclose : exists d', Internal_close (c <| ready_state := DS_Closing |>) =
    (Ok tt, c <| ready_state := DS_Closing |> <| ch_data_channel := d' |> <| handshake_deadline := None |> <| ready_state := DS_Closed |>)).
  { unfold Internal_close. change (ch_data_channel (c <| ready_state := DS_Closing |>)) with (ch_data_channel c).
    destruct (ch_data_channel c) as [d|] eqn:Hd.
    - destruct (dc_close_total d) as [d' ->]. by eexists.
    - exists None. do 2 f_equal. destruct c. cbn in Hd. subst. done. }
  destruct Hclose as [d' ->]. cbn [snd].
  apply (closing_inv rl el T id c (c <| ready_state := DS_Closing |> <| ch_data_channel := d' |> <| handshake_deadline := None |> <| ready_state := DS_Closed |>) [] h);
    [exact Hi|done| |done|done|done|done|done|].
  - apply put_effect; by rewrite ?app_nil_r.
  - cbn. by rewrite Hco.
Qed.

(** ** Creating *)

Lemma insert_inv rl el T p h : inv settled (view rl el T h) -> (forall s, pr_negotiated p = Some s -> by_stream (data_channels h) !! s = None) ->
  inv settled (view rl el T (h <| data_channels := (Registry_insert (RTCDataChannelInternal_new p) (data_channels h)).2 |>)).
Proof.
  intros Hi Hfree. apply (inv_settled _ (next_handle (data_channels h))).
  apply (inv_insert settled Settled (RTCDataChannelInternal_new p) (view rl el T h)); [exact Hi|exact Hfree|done..].
Qed.

Lemma dial_put_inv rl el T a id c c' h : inv settled (view rl el T h) -> channels (data_channels h) !! id = Some c ->
  ready_state c = DS_Connecting -> ch_data_channel c = None -> ch_negotiated c = false -> Internal_dial a c = Ok c' ->
  inv settled (view rl el T (put_channel id c' h)).
Proof.
  intros Hi Hc Ho Hn Hneg Hd. destruct (ch_stream_id c) as [s|] eqn:Hs; [|by unfold Internal_dial in Hd; rewrite Hs in Hd].
  destruct (Internal_dial_total a c s Hs) as (d & Hr & E). rewrite E, Hneg in Hd. injection Hd as <-.
  apply (put_quiet rl el T settled id c _ h); [done|done|done|]. unfold alike, buffered. cbn. by rewrite Ho, Hn, Hr.
Qed.

(** An in-band channel, or one created before there is an association. *)
Definition creation_ok (association : option Z) (options : option RTCDataChannelInit) (h : Handler) : Prop :=
  match in_negotiated (default RTCDataChannelInit_default options) with
  | Some s => association = None /\ by_stream (data_channels h) !! s = None
  | None => True
  end.

Lemma assigned_channel role mx h res h' id c : reg_ok (data_channels h) ->
  on_registry (assign_stream_ids role mx) h = (res, h') -> channels (data_channels h) !! id = Some c ->
  exists s, channels (data_channels h') !! id = Some (c <| ch_stream_id := s |>).
Proof.
  intros Hok. unfold on_registry. destruct (assign_roles role mx (data_channels h)) as [Hr|E].
  - destruct (assign_stream_ids_spec role mx (data_channels h) Hok Hr) as (r & ids & r' & -> & [_ _ H3 _ _] & _).
    intros [= <- <-] Hc. change (data_channels (h <| data_channels := r' |>)) with r'. rewrite H3, Hc. unfold assigned. cbn [fmap option_fmap option_map].
    destruct (list_to_map _ !! id) as [s|]; [by exists (Some s)|]. exists (ch_stream_id c). by destruct c.
  - rewrite E. intros [= <- <-] Hc. exists (ch_stream_id c). change (channels (data_channels h) !! id = Some (c <| ch_stream_id := ch_stream_id c |>)).
    rewrite Hc. by destruct c.
Qed.

Lemma create_inv rl el T closed association label options h : inv settled (view rl el T h) -> creation_ok association options h ->
  inv settled (view rl el T (create_data_channel closed association label options h).2).
Proof.
  intros Hi Hok. unfold create_data_channel, creation_ok in *. destruct closed; [exact Hi|].
  set (o := default RTCDataChannelInit_default options) in *. destruct (bool_decide (is_Some (in_max_packet_life_time o)) && _); [exact Hi|].
  destruct (65535 <? _); [exact Hi|].
  set (p := mkParams label (in_protocol o) (in_ordered o) (in_max_packet_life_time o) (in_max_retransmits o) (in_negotiated o)).
  set (nh := next_handle (data_channels h)).
  set (h1 := h <| data_channels := (Registry_insert (RTCDataChannelInternal_new p) (data_channels h)).2 |>).
  assert (Hi1 : inv settled (view rl el T h1)).
  { apply insert_inv; [done|]. intros s Hs. change (in_negotiated o = Some s) in Hs. rewrite Hs in Hok. apply Hok. }
  assert (Hc1 : channels (data_channels h1) !! nh = Some (RTCDataChannelInternal_new p <| ch_id := nh |>)) by apply lookup_insert_eq.
  match goal with |- context [(?a ≫= ?b) h] => change (inv settled (view rl el T (b nh h1).2)) end. clearbody h1. cbv beta.
  rewrite bind_get. cbv beta.
  destruct association as [a|]; [|exact Hi1].
  assert (Hneg : in_negotiated o = None) by (destruct (in_negotiated o); [by destruct Hok|done]).
  assert (Hgo : inv settled (view rl el T ((on_registry (assign_stream_ids (dtls_role h1) (max_channels h1)) ;;
          c ← get_channel nh;
          if bool_decide (ready_state c = DS_Connecting) && bool_decide (ch_data_channel c = None) then
            c ← lift (Internal_dial a c); modify (put_channel nh c) ;; mret nh
          else mret nh) h1).2)).
  { destruct (assign_inv rl el T (dtls_role h1) (max_channels h1) h1 Hi1) as (res & h2 & E & Hi2 & _).
    destruct (assigned_channel _ _ _ _ _ nh _ (proj1 Hi1) E Hc1) as [s Hc2].
    destruct res as [[]| | |]; [|unfold mbind at 1, stm_bind at 1; rewrite E; exact Hi2..].
    rewrite (bind_run _ _ _ _ _ E). unfold mbind at 1, stm_bind at 1, get_channel. rewrite Hc2. cbv beta iota.
    destruct (bool_decide (ready_state _ = _) && _); [|exact Hi2]. unfold mbind at 1, stm_bind at 1, lift. destruct (Internal_dial a _) as [c'| | |] eqn:Hd; [|exact Hi2..].
    apply (dial_put_inv rl el T a nh _ c' h2 Hi2 Hc2); [done|done| |done]. cbn. by rewrite Hneg. }
  destruct (dtls_role h1); [exact Hi1..|exact Hgo|exact Hgo].
Qed.

(** * Runs of a peer connection *)

(** The handler, the messages and events the application has taken from it, and the
    user messages each channel took from SCTP. *)
Record World := mkWorld {
  w_handler : Handler;
  w_reads : list TaggedRTCMessageInternal;
  w_events : list TaggedRTCEventInternal;
  w_taken : Z -> list DataChannelMessage
}.

(** The calls of the peer connection's driver and of the application. *)
Inductive Action :=
| Create (closed : bool) (association : option Z) (label : bytes) (options : option RTCDataChannelInit)
| Close (id : Z)
| Read (msg : TaggedRTCMessageInternal)
| Write (msg : TaggedRTCMessageInternal)
| Send (max_message_size : option Z) (now id : Z) (m : RTCDataChannelMessage)
| SetHighThreshold (threshold id : Z)
| SetLowThreshold (threshold id : Z)
| Event (evt : TaggedRTCEventInternal)
| Expire (now : Z)
| PollRead
| PollWrite
| PollEvent.

Section runs.
Context (order : gmap Z RTCDataChannelInternal -> list Z).

Definition act (a : Action) (w : World) : World :=
  let h := w_handler w in
  let on h := mkWorld h (w_reads w) (w_events w) (w_taken w) in
  match a with
  | Create closed association label options => on (create_data_channel closed association label options h).2
  | Close id => on (app_close id h).2
  | Read msg => mkWorld (h_handle_read msg h).2 (w_reads w) (w_events w) (reading h msg (w_taken w))
  | Write msg => on (h_handle_write msg h).2
  | Send mx now id m => on (send_message mx now id m h).2
  | SetHighThreshold t id => on (app_set_high_threshold t id h).2
  | SetLowThreshold t id => on (app_set_low_threshold t id h).2
  | Event evt => on (h_handle_event order evt h).2
  | Expire now => on (h_handle_timeout order now h).2
  | PollRead => let '(m, h) := h_poll_read h in mkWorld h (w_reads w ++ option_list m) (w_events w) (w_taken w)
  | PollWrite => on (h_poll_write order h).2
  | PollEvent => let '(e, h) := h_poll_event h in mkWorld h (w_reads w) (w_events w ++ option_list e) (w_taken w)
  end.

(** Only this handler makes messages and reports about data channels; a negotiated
    channel is created before there is an association, on a stream that is free. *)
Definition allowed (a : Action) (w : World) : Prop :=
  match a with
  | Create _ association _ options => creation_ok association options (w_handler w)
  | Read msg => is_internal msg = false
  | Event evt => is_report (ev_event evt) = false
  | _ => True
  end.

Definition World_new (now : Z) (timeout : option Z) (role : RTCDtlsRole) (max : option Z) : World :=
  mkWorld (mkHandler Registry_new [] [] [] now (mkStatsAcc 0 0 ∅) timeout role max) [] [] (fun _ => []).

Inductive reachable : World -> Prop :=
| reach_new now timeout role max : reachable (World_new now timeout role max)
| reach_act a w : reachable w -> allowed a w -> reachable (act a w).

Definition seen (w : World) : Seen := view (w_reads w) (w_events w) (w_taken w) (w_handler w).

Hypothesis order_keys : forall m, Permutation (order m) (map fst (map_to_list m)).

Lemma h_handle_timeout_inv rl el T now h : inv settled (view rl el T h) -> inv settled (view rl el T (h_handle_timeout order now h).2).
Proof.
  intros Hi. unfold h_handle_timeout. rewrite bind_modify, bind_get. cbn [id]. rewrite <- (observe_view _ _ _ now) in Hi.
  revert Hi. generalize (observe now h). clear h. intros h Hi. apply close_all_inv; [done| |].
  - apply NoDup_ListNoDup, List.NoDup_filter, NoDup_ListNoDup. rewrite order_keys. apply NoDup_fst_map_to_list.
  - intros id Hin%list_elem_of_In%filter_In. destruct Hin as [_ Ht]. destruct (channels (data_channels h) !! id) as [c|]; [|done].
    exists c. split; [done|]. unfold timed_out in Ht. destruct (handshake_deadline c); [|done].
    apply andb_true_iff in Ht as [Ht _]. by apply bool_decide_eq_true in Ht.
Qed.

Lemma act_inv a w : inv settled (seen w) -> allowed a w -> inv settled (seen (act a w)).
Proof.
  destruct w as [h rl el T]. unfold seen. cbn [w_handler w_reads w_events w_taken]. intros Hi Ha.
  destruct a; cbn [act w_handler w_reads w_events w_taken allowed] in *.
  - by apply create_inv.
  - by apply app_close_inv.
  - by apply h_handle_read_inv.
  - by apply h_handle_write_inv.
  - by apply send_message_inv.
  - apply app_set_threshold_inv; [done|apply write_control_reads|done].
  - apply app_set_threshold_inv; [done|apply write_control_reads|done].
  - by apply h_handle_event_inv.
  - by apply h_handle_timeout_inv.
  - unfold h_poll_read. destruct (pop_front (ctx_read_outs h)) as [m q] eqn:E. cbn.
    replace (view (rl ++ option_list m) el T (h <| ctx_read_outs := q |>)) with (view rl el T h); [done|].
    unfold view. f_equal. rewrite <- (assoc_L app). f_equal. unfold pop_front in E. destruct (ctx_read_outs h); injection E as <- <-; done.
  - by apply h_poll_write_inv.
  - unfold h_poll_event. destruct (pop_front (ctx_event_outs h)) as [m q] eqn:E. cbn.
    replace (view rl (el ++ option_list m) T (h <| ctx_event_outs := q |>)) with (view rl el T h); [done|].
    unfold view. f_equal. rewrite <- (assoc_L app). f_equal. unfold pop_front in E. destruct (ctx_event_outs h); injection E as <- <-; done.
Qed.

Lemma reachable_inv w : reachable w -> inv settled (seen w).
Proof.
  induction 1 as [now timeout role max|a w _ IH Ha]; [|by apply act_inv].
  split; [apply registry_new_ok|]. intros id. unfold status_ok. cbn. rewrite lookup_empty. split; [done|]. by destruct (Z.leb_spec 0 id), (Z.ltb_spec id 0); try lia.
Qed.
End runs.

(** C3: What the application sees of a channel, in every run of the handler in which
    negotiated channels are created before there is an association and each on a stream
    that no channel has (the calls [allowed]; the others are not covered: a negotiated
    channel created later is open with no opening reported, and a second one on a stream
    takes the first one's messages).  The rest of the run is arbitrary: what the network
    and the timers do, and what the application creates, sends and closes; messages and
    reports about data channels are made by this handler only.  Then for every channel:
    while it is connecting nothing has been handed out; while it is open, its opening and
    after it every user message it took from SCTP, each once and in order; when it is
    closed, nothing or the opening and a prefix of these messages.  Its close is reported
    at most once, never while it is usable, and exactly once when the channel is gone. *)
Theorem application_view order w id :
  (forall m, Permutation (order m) (map fst (map_to_list m))) -> reachable order w ->
  let R := reads id (w_reads w ++ ctx_read_outs (w_handler w)) in
  let n := closes id (w_events w ++ ctx_event_outs (w_handler w)) in
  match channels (data_channels (w_handler w)) !! id with
  | Some c =>
      match ready_state c with
      | DS_Connecting => R = [] /\ n = 0
      | DS_Open => R = open_with (w_taken w id) /\ n = 0
      | DS_Closed => prefix_of R (w_taken w id) /\ n = if close_emitted c then 1 else 0
      | _ => False
      end
  | None =>
      if (0 <=? id) && (id <? next_handle (data_channels (w_handler w))) then prefix_of R (w_taken w id) /\ n = 1
      else R = [] /\ n = 0
  end.
Proof.
  intros Hord Hw R n. pose proof (reachable_inv order Hord w Hw) as [_ Hst]. specialize (Hst id). unfold status_ok, channel_ok in Hst.
  cbn [seen view s_reg s_reads s_events s_taken settled] in Hst. fold R n in Hst.
  destruct (channels (data_channels (w_handler w)) !! id) as [c|].
  - destruct Hst as [-> Hst]. destruct (ready_state c); try done.
    + destruct Hst as (_ & -> & _ & ->). done.
    + destruct Hst as (-> & -> & _). done.
    + by destruct Hst as [_ ?].
  - destruct Hst as [_ Hst]. destruct ((0 <=? id) && _); [done|]. by destruct Hst as (? & _ & ?).
Qed.

(** A client opens a channel, the acknowledgement and two messages arrive. *)
Definition key_order (m : gmap Z RTCDataChannelInternal) : list Z := map fst (map_to_list m).
Definition example_message (ppi : PayloadProtocolIdentifier) (payload : bytes) : TaggedRTCMessageInternal :=
  mkTagged 2 0 (MI_Sctp (mkDcMessage 7 0 ppi payload false)).
Definition example_run : list Action :=
  [Create false None [97] None; Event (mkTaggedEvent 1 (SCTPHandshakeComplete 7)); PollWrite; Read (example_message PPI_Dcep [2]);
   Read (example_message PPI_String [104; 105]); PollRead; Read (example_message PPI_BinaryEmpty [0])].
Definition example_world : World :=
  foldl (fun w a => act key_order a w) (World_new 0 (Some 30) Role_Client None) example_run.

Lemma example_reachable : reachable key_order example_world.
Proof.
  assert (H : forall l w, reachable key_order w ->
    (fix ok l w := match l with [] => True | a :: l => allowed a w /\ ok l (act key_order a w) end) l w ->
    reachable key_order (foldl (fun w a => act key_order a w) w l)).
  { induction l as [|a l IH]; intros w Hw Hl; [done|]. destruct Hl as [Ha Hl]. cbn [foldl]. apply IH; [by constructor|done]. }
  apply H; [constructor|]. vm_compute. tauto.
Qed.

Lemma application_view_witness :
  reads 0 (w_reads example_world ++ ctx_read_outs (w_handler example_world)) =
    [DE_Open; DE_Message (mkRtcMessage true [104; 105]); DE_Message (mkRtcMessage false [])] /\
  closes 0 (w_events example_world ++ ctx_event_outs (w_handler example_world)) = 0.
Proof.
  pose proof (application_view key_order example_world 0 (fun m => Permutation_refl _) example_reachable) as H.
  vm_compute in H |- *. exact H.
Defined.

(** A negotiated channel created while there is an association is open at once, and
    the application is not told. *)
Lemma negotiated_opens_silently :
  let h := w_handler (World_new 0 (Some 30) Role_Client None) in
  let h' := (create_data_channel false (Some 7) [97] (Some (mkInit_ true None None [] (Some 4))) h).2 in
  ready_state <$> channels (data_channels h') !! 0 = Some DS_Open /\ ctx_read_outs h' = [].
Proof. by vm_compute. Qed.

(** A channel created while there is an association has no handshake deadline. *)
Lemma late_channel_no_deadline :
  let h := w_handler (World_new 0 (Some 30) Role_Client None) in
  let h' := (create_data_channel false (Some 7) [97] None h).2 in
  (fun c => (ready_state c, handshake_deadline c)) <$> channels (data_channels h') !! 0 = Some (DS_Connecting, None).
Proof. by vm_compute. Qed.

(** Two negotiated channels on one stream: what arrives reaches the second only. *)
Lemma negotiated_stream_taken :
  let create h := (create_data_channel false None [97] (Some (mkInit_ true None None [] (Some 4))) h).2 in
  let h := create (create (w_handler (World_new 0 (Some 30) Role_Client None))) in
  (ch_stream_id <$> channels (data_channels h) !! 0) = Some (Some 4) /\ (ch_stream_id <$> channels (data_channels h) !! 1) = Some (Some 4) /\
  by_stream (data_channels h) !! 4 = Some 1.
Proof. by vm_compute. Qed.
