(* ===== verification/Rtp.v ===== *)
(** RTP packets ([rtc-rtp/src/header.rs], [rtc-rtp/src/packet/mod.rs]): the header with
    its contributing sources and header extensions, the packet with its padding, the
    codec, and the operations on extensions.  Proved: the codec round trip, that
    decoding any datagram ends without a panic, and what setting and removing an
    extension does to the header. *)
From S2P Require Import Prelude Marshal.

(** * Errors *)

(** The variants of [Error] the RTP, RTCP and SRTP code returns; the messages of [Error::Other]
    and [Error::Crypto] are constructors of their own. *)
Inductive MediaError :=
| ErrHeaderSizeInsufficient
| ErrHeaderSizeInsufficientForExtension
| ErrBufferTooSmall
| HeaderExtensionPayloadNot32BitWords
| ErrRfc3550headerIdrange
| ErrRfc8285oneByteHeaderIdrange
| ErrRfc8285oneByteHeaderSize
| ErrRfc8285twoByteHeaderIdrange
| ErrRfc8285twoByteHeaderSize
| ErrHeaderExtensionNotFound
| ErrHeaderExtensionsNotEnabled
| ErrShortPacket
| ErrTooShortRtp
| ErrTooShortRtcp
| ErrExceededMaxPackets
| ErrFailedToVerifyAuthTag
| RtpFailedToVerifyAuthTag
| RtcpFailedToVerifyAuthTag
| SrtpTooSmall (len tag : Z)
| SrtcpTooSmall (len tag : Z)
| RtcpInvalidLengthAuthTag (len tag : Z)
| SrtpSsrcDuplicated (ssrc seq : Z)
| SrtcpSsrcDuplicated (ssrc idx : Z)
| SrtpMasterKeyLength (expected actual : Z)
| SrtpSaltLength (expected actual : Z)
| UnsupportedIndexOverKdr
| InvalidMasterKeyLength
| InvalidMasterSaltLength
| UnsupportedOutLength
| PacketTooShort
| BadVersion
| InvalidHeader
| BufferTooShort
| WrongType
| TooManyReports
| TooManySources
| TooManyChunks
| ReasonTooLong
| SdesMissingType
| SdesTextTooLong
| InvalidTotalLost
| EmptyCompound
| BadFirstPacket
| MissingCname
| PacketBeforeCname
| InvalidBitrate
| SsrcMustBeZero
| MissingRembIdentifier
| InvalidSizeOrStartIndex
| PacketStatusChunkLength
| DeltaExceedLimit
| InvalidBlockSize
| WrongChunkType
| CryptoErr
| NoAesProfile
| KeyingMaterialLength (expected actual : Z)
| MediaOther (n l : Z).
#[export] Instance MediaError_size : SizeError MediaError := mkSizeError _ MediaOther.

Abbreviation rtp_result A := (outcome MediaError A).

(** * The header *)

Definition HEADER_LENGTH : Z := 4.
Definition VERSION_SHIFT : Z := 6.
Definition VERSION_MASK : Z := 3.
Definition PADDING_SHIFT : Z := 5.
Definition PADDING_MASK : Z := 1.
Definition EXTENSION_SHIFT : Z := 4.
Definition EXTENSION_MASK : Z := 1.
Definition EXTENSION_PROFILE_ONE_BYTE : Z := 48862.
Definition EXTENSION_PROFILE_TWO_BYTE : Z := 4096.
Definition EXTENSION_ID_RESERVED : Z := 15.
Definition CC_MASK : Z := 15.
Definition MARKER_SHIFT : Z := 7.
Definition MARKER_MASK : Z := 1.
Definition PT_MASK : Z := 127.
Definition CSRC_OFFSET : Z := 12.
Definition CSRC_LENGTH : Z := 4.

Record Extension := mkExtension { ext_id : Z; ext_payload : bytes }.

Record Header := mkHeader {
  version : Z;
  padding : bool;
  extension : bool;
  marker : bool;
  payload_type : Z;
  sequence_number : Z;
  timestamp : Z;
  ssrc : Z;
  csrc : list Z;
  extension_profile : Z;
  extensions : list Extension;
  extensions_padding : Z
}.
#[export] Instance Header_eta : Eta Header := fun h =>
  mkHeader (version h) (padding h) (extension h) (marker h) (payload_type h) (sequence_number h) (timestamp h) (ssrc h) (csrc h)
    (extension_profile h) (extensions h) (extensions_padding h).

(** [self.extension_profile] as the two arms the code distinguishes by [match]. *)
Definition profile_len (profile : Z) : Z :=
  if profile =? EXTENSION_PROFILE_ONE_BYTE then 1 else if profile =? EXTENSION_PROFILE_TWO_BYTE then 2 else 0.

Definition get_extension_payload_len (h : Header) : Z :=
  zsum (fun e => zlen (ext_payload e)) (extensions h) + zlen (extensions h) * profile_len (extension_profile h).

(** [usize::div_ceil]. *)
Definition div_ceil (a b : Z) : Z := (a + b - 1) / b.

Definition marshal_size_for (h : Header) (extension_payload_len : Z) : Z :=
  12 + zlen (csrc h) * CSRC_LENGTH +
  (if extension h then 4 + div_ceil (extension_payload_len + extensions_padding h) 4 * 4 else 0).

Definition Header_size (h : Header) : Z :=
  marshal_size_for h (if extension h then get_extension_payload_len h else 0).

Definition Header_b0 (h : Header) : Z :=
  let b0 := Z.lor (Z.shiftl (version h) VERSION_SHIFT mod 256) (zlen (csrc h) mod 256) in
  let b0 := if padding h then Z.lor b0 (Z.shiftl 1 PADDING_SHIFT) else b0 in
  if extension h then Z.lor b0 (Z.shiftl 1 EXTENSION_SHIFT) else b0.
Definition Header_b1 (h : Header) : Z :=
  if marker h then Z.lor (payload_type h) (Z.shiftl 1 MARKER_SHIFT) else payload_type h.

(** One extension under the two profiles of RFC 8285; [u8] subtraction overflows for an
    empty one-byte extension. *)
Definition put_one_byte `{OverflowChecks} (e : Extension) : rtp_result bytes :=
  len ← sub_ovf overflow_checks 256 (zlen (ext_payload e) mod 256) 1;
  Ok (put_u8 (Z.lor (Z.shiftl (ext_id e) 4 mod 256) len) ++ ext_payload e).
Definition put_two_byte (e : Extension) : bytes :=
  put_u8 (ext_id e) ++ put_u8 (zlen (ext_payload e) mod 256) ++ ext_payload e.

Fixpoint put_one_bytes `{OverflowChecks} (l : list Extension) : rtp_result bytes :=
  match l with
  | [] => Ok []
  | e :: l => b ← put_one_byte e; c ← put_one_bytes l; Ok (b ++ c)
  end.

(** The extension block after its profile. *)
Definition put_extensions `{OverflowChecks} (h : Header) : rtp_result bytes :=
  let extension_payload_len := get_extension_payload_len h in
  let profile := extension_profile h in
  if negb (profile =? EXTENSION_PROFILE_ONE_BYTE) && negb (profile =? EXTENSION_PROFILE_TWO_BYTE)
     && negb (extension_payload_len mod 4 =? 0)
  then Err HeaderExtensionPayloadNot32BitWords
  else
    let extension_payload_size := div_ceil (as_u16 extension_payload_len) 4 in
    b ← if profile =? EXTENSION_PROFILE_ONE_BYTE then put_one_bytes (extensions h)
        else if profile =? EXTENSION_PROFILE_TWO_BYTE then Ok (concat (map put_two_byte (extensions h)))
        else
          match extensions h with
          | [e] => if negb (zlen (ext_payload e) mod 4 =? 0) then Err HeaderExtensionPayloadNot32BitWords else Ok (ext_payload e)
          | _ => Err ErrRfc3550headerIdrange
          end;
    Ok (put_u16 extension_payload_size ++ b ++ zeros (extension_payload_size * 4 - extension_payload_len)).

Definition Header_marshal_to `{OverflowChecks} (h : Header) (room : Z) : rtp_result (Z * bytes) :=
  if room <? Header_size h then Err ErrBufferTooSmall
  else
    e ← if extension h then b ← put_extensions h; Ok (put_u16 (extension_profile h) ++ b) else Ok [];
    let b := put_u8 (Header_b0 h) ++ put_u8 (Header_b1 h) ++ put_u16 (sequence_number h) ++ put_u32 (timestamp h)
             ++ put_u32 (ssrc h) ++ concat (map put_u32 (csrc h)) ++ e in
    Ok (zlen b, b).

(** Decoding the extension block: [curr_offset] and [end_] are offsets in the packet,
    the fuel is the number of bytes left. *)
Fixpoint one_byte_loop (fuel : nat) (curr_offset end_ : Z) (buf : bytes) (exts : list Extension) (pad : Z)
  : rtp_result (list Extension * Z * bytes) :=
  if curr_offset <? end_ then
    match fuel with
    | O => Diverge
    | S fuel =>
        '(b, buf) ← get_u8 buf;
        if b =? 0 then one_byte_loop fuel (curr_offset + 1) end_ buf exts (pad + 1)
        else
          let extid := Z.shiftr b 4 in
          let len := Z.land b 15 + 1 in
          if extid =? EXTENSION_ID_RESERVED then Ok (exts, pad, buf)
          else if zlen buf <? len then Err ErrHeaderSizeInsufficientForExtension
          else one_byte_loop fuel (curr_offset + 1 + len) end_ (drop (Z.to_nat len) buf)
                 (exts ++ [mkExtension extid (take (Z.to_nat len) buf)]) pad
    end
  else Ok (exts, pad, buf).

Fixpoint two_byte_loop (fuel : nat) (curr_offset end_ : Z) (buf : bytes) (exts : list Extension) (pad : Z)
  : rtp_result (list Extension * Z * bytes) :=
  if curr_offset <? end_ then
    match fuel with
    | O => Diverge
    | S fuel =>
        '(b, buf) ← get_u8 buf;
        if b =? 0 then two_byte_loop fuel (curr_offset + 1) end_ buf exts (pad + 1)
        else if end_ <=? curr_offset + 1 then Err ErrHeaderSizeInsufficientForExtension
        else
          '(len, buf) ← get_u8 buf;
          if zlen buf <? len then Err ErrHeaderSizeInsufficientForExtension
          else two_byte_loop fuel (curr_offset + 2 + len) end_ (drop (Z.to_nat len) buf)
                 (exts ++ [mkExtension b (take (Z.to_nat len) buf)]) pad
    end
  else Ok (exts, pad, buf).

(** The extension block of a packet of [raw_packet_len] bytes, from [curr_offset] on:
    profile, extensions, padding. *)
Definition get_extensions (raw_packet_len curr_offset : Z) (buf : bytes) : rtp_result (Z * list Extension * Z * bytes) :=
  if raw_packet_len <? curr_offset + 4 then Err ErrHeaderSizeInsufficientForExtension
  else
    '(profile, buf) ← get_u16 buf;
    '(words, buf) ← get_u16 buf;
    let curr_offset := curr_offset + 4 in
    let extension_length := words * 4 in
    let end_ := curr_offset + extension_length in
    if raw_packet_len <? end_ then Err ErrHeaderSizeInsufficientForExtension
    else if profile =? EXTENSION_PROFILE_ONE_BYTE then
      '(exts, pad, buf) ← one_byte_loop (length buf) curr_offset end_ buf [] 0; Ok (profile, exts, pad, buf)
    else if profile =? EXTENSION_PROFILE_TWO_BYTE then
      '(exts, pad, buf) ← two_byte_loop (length buf) curr_offset end_ buf [] 0; Ok (profile, exts, pad, buf)
    else if zlen buf <? extension_length then Panic
    else Ok (profile, [mkExtension 0 (take (Z.to_nat extension_length) buf)], 0, drop (Z.to_nat extension_length) buf).

Definition Header_unmarshal (raw_packet : bytes) : rtp_result (Header * bytes) :=
  let raw_packet_len := zlen raw_packet in
  if raw_packet_len <? HEADER_LENGTH then Err ErrHeaderSizeInsufficient
  else
    '(b0, buf) ← get_u8 raw_packet;
    let version := Z.land (Z.shiftr b0 VERSION_SHIFT) VERSION_MASK in
    let padding := 0 <? Z.land (Z.shiftr b0 PADDING_SHIFT) PADDING_MASK in
    let extension := 0 <? Z.land (Z.shiftr b0 EXTENSION_SHIFT) EXTENSION_MASK in
    let cc := Z.land b0 CC_MASK in
    let curr_offset := CSRC_OFFSET + cc * CSRC_LENGTH in
    if raw_packet_len <? curr_offset then Err ErrHeaderSizeInsufficient
    else
      '(b1, buf) ← get_u8 buf;
      let marker := 0 <? Z.land (Z.shiftr b1 MARKER_SHIFT) MARKER_MASK in
      let payload_type := Z.land b1 PT_MASK in
      '(sequence_number, buf) ← get_u16 buf;
      '(timestamp, buf) ← get_u32 buf;
      '(ssrc, buf) ← get_u32 buf;
      '(csrc, buf) ← read_n get_u32 (Z.to_nat cc) buf;
      '(profile, exts, pad, buf) ← if extension then get_extensions raw_packet_len curr_offset buf else Ok (0, [], 0, buf);
      Ok (mkHeader version padding extension marker payload_type sequence_number timestamp ssrc csrc profile exts pad, buf).

#[export] Instance Header_MarshalSize : MarshalSize Header := mkMarshalSize _ Header_size.
#[export] Instance Header_MarshalTo `{OverflowChecks} : MarshalTo MediaError Header := mkMarshalTo _ _ Header_marshal_to.
#[export] Instance Header_Unmarshal : Unmarshal MediaError Header := mkUnmarshal _ _ Header_unmarshal.

(** * The packet *)

Record Packet := mkPacket { header : Header; payload : bytes }.

Definition get_padding (len : Z) : Z := if len mod 4 =? 0 then 0 else 4 - len mod 4.

(** The padding a packet with the padding flag gets. *)
Definition padding_len (p : Packet) : Z :=
  if padding (header p) then let n := get_padding (zlen (payload p)) in if n =? 0 then 4 else n else 0.

Definition Packet_size (p : Packet) : Z := Header_size (header p) + zlen (payload p) + padding_len p.

Definition Packet_marshal_to `{OverflowChecks} (p : Packet) (room : Z) : rtp_result (Z * bytes) :=
  if room <? Packet_size p then Err ErrBufferTooSmall
  else
    '(n, b) ← Header_marshal_to (header p) room;
    let pad := padding_len p in
    Ok (n + zlen (payload p) + pad, b ++ payload p ++ (if pad =? 0 then [] else zeros (pad - 1) ++ put_u8 pad)).

(** [&payload[..n]] of a buffer the padding leaves. *)
Definition strip_padding (payload : bytes) : rtp_result bytes :=
  let payload_len := zlen payload in
  if 0 <? payload_len then
    padding_len ← index payload (payload_len - 1);
    if padding_len <=? payload_len then Ok (take (Z.to_nat (payload_len - padding_len)) payload) else Err ErrShortPacket
  else Err ErrShortPacket.

Definition Packet_unmarshal (raw_packet : bytes) : rtp_result (Packet * bytes) :=
  '(header, payload) ← Header_unmarshal raw_packet;
  if padding header then payload ← strip_padding payload; Ok (mkPacket header payload, []) else Ok (mkPacket header payload, []).

#[export] Instance Packet_MarshalSize : MarshalSize Packet := mkMarshalSize _ Packet_size.
#[export] Instance Packet_MarshalTo `{OverflowChecks} : MarshalTo MediaError Packet := mkMarshalTo _ _ Packet_marshal_to.
#[export] Instance Packet_Unmarshal : Unmarshal MediaError Packet := mkUnmarshal _ _ Packet_unmarshal.

(** * Extensions *)

Definition get_extension_ids (h : Header) : list Z := if extension h then map ext_id (extensions h) else [].

Definition get_extension (id : Z) (h : Header) : option bytes :=
  if extension h then (fun x => ext_payload x.2) <$> list_find (fun e => ext_id e = id) (extensions h) else None.

(** Room for an extension of the given length under the profile, or the error. *)
Definition check_extension (profile id payload_len : Z) : rtp_result Z :=
  if profile =? EXTENSION_PROFILE_ONE_BYTE then
    if negb ((1 <=? id) && (id <=? 14)) then Err ErrRfc8285oneByteHeaderIdrange
    else if 16 <? payload_len then Err ErrRfc8285oneByteHeaderSize else Ok 1
  else if profile =? EXTENSION_PROFILE_TWO_BYTE then
    if id <? 1 then Err ErrRfc8285twoByteHeaderIdrange
    else if 255 <? payload_len then Err ErrRfc8285twoByteHeaderSize else Ok 2
  else if negb (id =? 0) then Err ErrRfc3550headerIdrange else Ok 0.

(** [delta.cmp(&0)] and what it does to the padding; [%] of Rust truncates. *)
Definition adjust_padding (pad delta : Z) : Z :=
  if delta <? 0 then Z.rem (pad - delta) 4
  else if 0 <? delta then
    let p := Z.rem delta 4 in if pad <? p then pad + 4 - p else pad - p
  else pad.

Definition set_extension (id : Z) (payload : bytes) (h : Header) : rtp_result Header :=
  let payload_len := zlen payload in
  if extension h then
    extension_profile_len ← check_extension (extension_profile h) id payload_len;
    match list_find (fun e => ext_id e = id) (extensions h) with
    | Some (i, e) =>
        let delta := payload_len - zlen (ext_payload e) in
        Ok (h <| extensions := <[i := mkExtension id payload]> (extensions h) |> <| extensions_padding ::= fun p => adjust_padding p delta |>)
    | None =>
        let delta := payload_len + extension_profile_len in
        Ok (h <| extensions := extensions h ++ [mkExtension id payload] |> <| extensions_padding ::= fun p => adjust_padding p delta |>)
    end
  else
    let profile := if payload_len <=? 16 then EXTENSION_PROFILE_ONE_BYTE
                   else if payload_len <=? 255 then EXTENSION_PROFILE_TWO_BYTE else extension_profile h in
    let extension_profile_len := if payload_len <=? 16 then 1 else if payload_len <=? 255 then 2 else 0 in
    let p := (payload_len + extension_profile_len) mod 4 in
    Ok (h <| extension := true |> <| extension_profile := profile |>
          <| extensions := extensions h ++ [mkExtension id payload] |>
          <| extensions_padding ::= fun q => if q <? p then q + 4 - p else q - p |>).

Definition del_extension (id : Z) (h : Header) : rtp_result Header :=
  if extension h then
    match list_find (fun e => ext_id e = id) (extensions h) with
    | Some (i, e) =>
        let p := (zlen (ext_payload e) + profile_len (extension_profile h)) mod 4 in
        Ok (h <| extensions := delete i (extensions h) |> <| extensions_padding ::= fun q => (q + p) mod 4 |>)
    | None => Err ErrHeaderExtensionNotFound
    end
  else Err ErrHeaderExtensionsNotEnabled.

(** * The codec *)

(** An extension the profile can carry. *)
Definition ext_ok (profile : Z) (e : Extension) : Prop :=
  if profile =? EXTENSION_PROFILE_ONE_BYTE then 1 <= ext_id e <= 14 /\ 1 <= zlen (ext_payload e) <= 16
  else if profile =? EXTENSION_PROFILE_TWO_BYTE then 1 <= ext_id e <= 255 /\ zlen (ext_payload e) <= 255
  else ext_id e = 0 /\ zlen (ext_payload e) mod 4 = 0.

Definition rfc8285 (profile : Z) : bool := (profile =? EXTENSION_PROFILE_ONE_BYTE) || (profile =? EXTENSION_PROFILE_TWO_BYTE).

(** The extension block: the padding brings it to a word boundary. *)
Definition extensions_ok (h : Header) : Prop :=
  if extension h then
    is_u16 (extension_profile h) /\ Forall (ext_ok (extension_profile h)) (extensions h) /\
    (rfc8285 (extension_profile h) = false -> length (extensions h) = 1%nat) /\
    get_extension_payload_len h < 65536 /\ extensions_padding h = (- get_extension_payload_len h) mod 4
  else extension_profile h = 0 /\ extensions h = [] /\ extensions_padding h = 0.

Definition header_ok (h : Header) : Prop :=
  0 <= version h < 4 /\ 0 <= payload_type h < 128 /\ is_u16 (sequence_number h) /\ is_u32 (timestamp h) /\ is_u32 (ssrc h) /\
  zlen (csrc h) <= 15 /\ Forall is_u32 (csrc h) /\ extensions_ok h.

Lemma b0_fields h : 0 <= version h < 4 -> zlen (csrc h) <= 15 ->
  is_u8 (Header_b0 h) /\ Z.land (Z.shiftr (Header_b0 h) VERSION_SHIFT) VERSION_MASK = version h /\
  (0 <? Z.land (Z.shiftr (Header_b0 h) PADDING_SHIFT) PADDING_MASK) = padding h /\
  (0 <? Z.land (Z.shiftr (Header_b0 h) EXTENSION_SHIFT) EXTENSION_MASK) = extension h /\
  Z.land (Header_b0 h) CC_MASK = zlen (csrc h).
Proof.
  intros Hv Hc. assert (Hc' : 0 <= zlen (csrc h) < 16) by zlia. unfold Header_b0. revert Hc'.
  generalize (zlen (csrc h)). intros cc Hcc.
  assert (H : forall v, 0 <= v < 4 -> forall c, 0 <= c < 16 -> forall p x : bool,
    let b0 := Z.lor (Z.shiftl v VERSION_SHIFT mod 256) (c mod 256) in
    let b0 := if p then Z.lor b0 (Z.shiftl 1 PADDING_SHIFT) else b0 in
    let b0 := if x then Z.lor b0 (Z.shiftl 1 EXTENSION_SHIFT) else b0 in
    bool_decide (is_u8 b0 /\ Z.land (Z.shiftr b0 VERSION_SHIFT) VERSION_MASK = v /\
      (0 <? Z.land (Z.shiftr b0 PADDING_SHIFT) PADDING_MASK) = p /\
      (0 <? Z.land (Z.shiftr b0 EXTENSION_SHIFT) EXTENSION_MASK) = x /\ Z.land b0 CC_MASK = c) = true).
  { intros v Hv' c Hc'' p x.
    assert (v = 0 \/ v = 1 \/ v = 2 \/ v = 3) as [-> | [-> | [-> | ->]]] by lia;
      destruct p, x; revert c Hc''; apply (bounded_forall 16); vm_compute; reflexivity. }
  exact (bool_decide_eq_true_1 _ (H (version h) Hv cc Hcc (padding h) (extension h))).
Qed.

Lemma b1_fields h : 0 <= payload_type h < 128 ->
  is_u8 (Header_b1 h) /\ (0 <? Z.land (Z.shiftr (Header_b1 h) MARKER_SHIFT) MARKER_MASK) = marker h /\
  Z.land (Header_b1 h) PT_MASK = payload_type h.
Proof.
  intros Hp. unfold Header_b1. revert Hp. generalize (payload_type h). intros t Ht.
  assert (H : forall m : bool, forall t, 0 <= t < 128 ->
    let b1 := if m then Z.lor t (Z.shiftl 1 MARKER_SHIFT) else t in
    bool_decide (is_u8 b1 /\ (0 <? Z.land (Z.shiftr b1 MARKER_SHIFT) MARKER_MASK) = m /\ Z.land b1 PT_MASK = t) = true).
  { intros []; apply (bounded_forall 128); vm_compute; reflexivity. }
  exact (bool_decide_eq_true_1 _ (H (marker h) t Ht)).
Qed.

Lemma one_byte_fields id len : 1 <= id <= 14 -> 1 <= len <= 16 ->
  let b := Z.lor (Z.shiftl id 4 mod 256) (len - 1) in
  is_u8 b /\ b <> 0 /\ Z.shiftr b 4 = id /\ Z.land b 15 + 1 = len.
Proof.
  intros Hi Hl b.
  assert (H : forall id, 0 <= id < 15 -> bool_decide (id = 0) || forallb (fun k => 
    let b := Z.lor (Z.shiftl id 4 mod 256) k in
    bool_decide (is_u8 b /\ b <> 0 /\ Z.shiftr b 4 = id /\ Z.land b 15 + 1 = k + 1)) (map Z.of_nat (seq 0 16)) = true).
  { apply (bounded_forall 15). vm_compute. reflexivity. }
  specialize (H id ltac:(lia)). apply orb_true_iff in H as [H%bool_decide_eq_true|H]; [lia|].
  apply (fun H => bounded_forall 16 _ H (len - 1)) in H; [|lia]. apply bool_decide_eq_true_1 in H as (H1 & H2 & H3 & H4).
  split_and!; [done|done|done|]. rewrite Z.sub_add in H4. exact H4.
Qed.

Lemma one_byte_padding fuel curr pad r exts ap : 0 <= pad -> (Z.to_nat pad <= fuel)%nat ->
  one_byte_loop fuel curr (curr + pad) (zeros pad ++ r) exts ap = Ok (exts, ap + pad, r).
Proof.
  unfold zeros. remember (Z.to_nat pad) as n eqn:Hn. revert fuel curr pad ap Hn.
  induction n as [|n IH]; intros fuel curr pad ap Hn Hp Hf.
  - replace pad with 0 by lia. rewrite !Z.add_0_r. destruct fuel; cbn [one_byte_loop]; by rewrite Z.ltb_irrefl.
  - destruct fuel as [|fuel]; [lia|]. cbn [one_byte_loop replicate app]. rewrite (proj2 (Z.ltb_lt _ _)) by lia.
    cbn [get_u8 mbind outcome_bind]. rewrite Z.eqb_refl.
    replace (curr + pad) with (curr + 1 + (pad - 1)) by lia. rewrite IH by lia. do 3 f_equal. lia.
Qed.

Lemma two_byte_padding fuel curr pad r exts ap : 0 <= pad -> (Z.to_nat pad <= fuel)%nat ->
  two_byte_loop fuel curr (curr + pad) (zeros pad ++ r) exts ap = Ok (exts, ap + pad, r).
Proof.
  unfold zeros. remember (Z.to_nat pad) as n eqn:Hn. revert fuel curr pad ap Hn.
  induction n as [|n IH]; intros fuel curr pad ap Hn Hp Hf.
  - replace pad with 0 by lia. rewrite !Z.add_0_r. destruct fuel; cbn [two_byte_loop]; by rewrite Z.ltb_irrefl.
  - destruct fuel as [|fuel]; [lia|]. cbn [two_byte_loop replicate app]. rewrite (proj2 (Z.ltb_lt _ _)) by lia.
    cbn [get_u8 mbind outcome_bind]. rewrite Z.eqb_refl.
    replace (curr + pad) with (curr + 1 + (pad - 1)) by lia. rewrite IH by lia. do 3 f_equal. lia.
Qed.


Definition one_byte (e : Extension) : bytes :=
  put_u8 (Z.lor (Z.shiftl (ext_id e) 4 mod 256) (zlen (ext_payload e) - 1)) ++ ext_payload e.

Lemma put_one_bytes_Ok `{OverflowChecks} l : Forall (ext_ok EXTENSION_PROFILE_ONE_BYTE) l ->
  put_one_bytes l = Ok (concat (map one_byte l)).
Proof.
  induction 1 as [|e l [Hi Hl] _ IH]; [done|]. cbn [put_one_bytes map concat]. rewrite IH. unfold put_one_byte.
  rewrite (Z.mod_small (zlen _)) by lia. rewrite sub_ovf_Ok by lia. done.
Qed.

Lemma one_byte_loop_rt l pad r : 0 <= pad -> Forall (ext_ok EXTENSION_PROFILE_ONE_BYTE) l -> forall fuel curr acc ap,
  (length (concat (map one_byte l)) + Z.to_nat pad <= fuel)%nat ->
  one_byte_loop fuel curr (curr + (zlen (concat (map one_byte l)) + pad)) (concat (map one_byte l) ++ zeros pad ++ r) acc ap =
    Ok (acc ++ l, ap + pad, r).
Proof.
  intros Hp. induction 1 as [|e l [Hi Hl] _ IH]; intros fuel curr acc ap Hf.
  { cbn [map concat app]. rewrite app_nil_r, zlen_nil, Z.add_0_l. apply one_byte_padding; [done|]. cbn in Hf. lia. }
  cbn [map concat] in *. destruct (one_byte_fields (ext_id e) (zlen (ext_payload e)) Hi Hl) as (Hu & Hn & Hs & Hm).
  set (b := Z.lor _ _) in Hu, Hn, Hs, Hm. assert (Eb : one_byte e = put_u8 b ++ ext_payload e) by reflexivity. rewrite Eb in *.
  rewrite !length_app in Hf. rewrite <- !(assoc_L app). cbn [put_u8 length] in Hf.
  destruct fuel as [|fuel]; [lia|]. cbn [one_byte_loop]. rewrite (proj2 (Z.ltb_lt _ _)) by zlia.
  rewrite get_put_u8 by done. cbn [mbind outcome_bind]. rewrite (proj2 (Z.eqb_neq _ _) Hn), Hs, Hm.
  rewrite (proj2 (Z.eqb_neq _ _)) by (unfold EXTENSION_ID_RESERVED; lia). rewrite (proj2 (Z.ltb_ge _ _)) by zlia.
  destruct (zlen_split (ext_payload e) (concat (map one_byte l) ++ zeros pad ++ r)) as [-> ->].
  replace (curr + (zlen (_ ++ _ ++ concat (map one_byte l)) + pad)) with
    (curr + 1 + zlen (ext_payload e) + (zlen (concat (map one_byte l)) + pad)) by zlia.
  rewrite IH by lia. rewrite <- (assoc_L app). by destruct e.
Qed.

Lemma two_byte_loop_rt l pad r : 0 <= pad -> Forall (ext_ok EXTENSION_PROFILE_TWO_BYTE) l -> forall fuel curr acc ap,
  (length (concat (map put_two_byte l)) + Z.to_nat pad <= fuel)%nat ->
  two_byte_loop fuel curr (curr + (zlen (concat (map put_two_byte l)) + pad)) (concat (map put_two_byte l) ++ zeros pad ++ r) acc ap =
    Ok (acc ++ l, ap + pad, r).
Proof.
  intros Hp. induction 1 as [|e l [Hi Hl] _ IH]; intros fuel curr acc ap Hf.
  { cbn [map concat app]. rewrite app_nil_r, zlen_nil, Z.add_0_l. apply two_byte_padding; [done|]. cbn in Hf. lia. }
  cbn [map concat] in *. assert (Hl0 : 0 <= zlen (ext_payload e)) by apply zlen_nonneg.
  assert (Eb : put_two_byte e = put_u8 (ext_id e) ++ put_u8 (zlen (ext_payload e)) ++ ext_payload e).
  { unfold put_two_byte. by rewrite Z.mod_small by lia. }
  rewrite Eb in *. rewrite !length_app in Hf. rewrite <- !(assoc_L app). cbn [put_u8 length] in Hf.
  destruct fuel as [|fuel]; [lia|]. cbn [two_byte_loop]. rewrite (proj2 (Z.ltb_lt _ _)) by zlia.
  rewrite get_put_u8 by (unfold is_u8; lia). cbn [mbind outcome_bind]. rewrite (proj2 (Z.eqb_neq _ _)) by lia.
  rewrite (proj2 (Z.leb_gt _ _)) by zlia. rewrite get_put_u8 by (unfold is_u8; lia). cbn [mbind outcome_bind].
  rewrite (proj2 (Z.ltb_ge _ _)) by zlia.
  destruct (zlen_split (ext_payload e) (concat (map put_two_byte l) ++ zeros pad ++ r)) as [-> ->].
  replace (curr + (zlen (_ ++ _ ++ _ ++ concat (map put_two_byte l)) + pad)) with
    (curr + 2 + zlen (ext_payload e) + (zlen (concat (map put_two_byte l)) + pad)) by zlia.
  rewrite IH by lia. rewrite <- (assoc_L app). by destruct e.
Qed.

(** The bytes of the extensions take the announced length. *)
Lemma zlen_one_bytes l : zlen (concat (map one_byte l)) = zsum (fun e => zlen (ext_payload e)) l + zlen l.
Proof. induction l as [|e l IH]; [done|]. cbn [map concat]. rewrite zsum_cons. unfold one_byte at 1. zlia. Qed.
Lemma zlen_two_bytes l : zlen (concat (map put_two_byte l)) = zsum (fun e => zlen (ext_payload e)) l + zlen l * 2.
Proof. induction l as [|e l IH]; [done|]. cbn [map concat]. rewrite zsum_cons. unfold put_two_byte at 1. zlia. Qed.

Lemma get_extension_payload_len_nonneg h : 0 <= get_extension_payload_len h.
Proof.
  unfold get_extension_payload_len, profile_len. pose proof (zsum_nonneg (fun e => zlen (ext_payload e)) (extensions h) (fun e => zlen_nonneg _)).
  zlen_pos. repeat case_match; lia.
Qed.

Lemma div_ceil_4 n : 0 <= n -> div_ceil n 4 * 4 = n + (- n) mod 4.
Proof. unfold div_ceil. intros. mlia. Qed.

(** The reader of the block at [body], [n] bytes long and padded by [pad]. *)
Definition read_block (profile n pad off : Z) (buf : bytes) : rtp_result (Z * list Extension * Z * bytes) :=
  if profile =? EXTENSION_PROFILE_ONE_BYTE then
    '(exts, pad, buf) ← one_byte_loop (length buf) (off + 4) (off + 4 + (n + pad)) buf [] 0; Ok (profile, exts, pad, buf)
  else if profile =? EXTENSION_PROFILE_TWO_BYTE then
    '(exts, pad, buf) ← two_byte_loop (length buf) (off + 4) (off + 4 + (n + pad)) buf [] 0; Ok (profile, exts, pad, buf)
  else if zlen buf <? n + pad then Panic
  else Ok (profile, [mkExtension 0 (take (Z.to_nat (n + pad)) buf)], 0, drop (Z.to_nat (n + pad)) buf).

Lemma get_extensions_block profile n pad body len off r :
  is_u16 profile -> zlen body = n -> n < 65536 -> pad = (- n) mod 4 -> 0 <= off ->
  let b := put_u16 profile ++ (put_u16 (div_ceil n 4) ++ body ++ zeros pad) ++ r in
  off + zlen b = len -> get_extensions len off b = read_block profile n pad off (body ++ zeros pad ++ r).
Proof.
  intros Hpr Hb Hn Hpad Hoff b Hl. assert (0 <= n) by (rewrite <- Hb; apply zlen_nonneg).
  pose proof (div_ceil_4 n ltac:(done)) as Hdc. assert (Hp0 : 0 <= pad < 4) by (rewrite Hpad; mlia).
  assert (Hbl : zlen b = 4 + n + pad + zlen r) by (unfold b; zlia). zlen_pos.
  unfold get_extensions, b in *. rewrite (proj2 (Z.ltb_ge _ _)) by lia. rewrite get_put_u16 by done. cbn [mbind outcome_bind].
  rewrite <- !(assoc_L app). rewrite get_put_u16 by (unfold is_u16; lia). cbn [mbind outcome_bind]. rewrite Hdc, <- Hpad.
  rewrite (proj2 (Z.ltb_ge _ _)) by lia. done.
Qed.

(** Every profile's body is read back. *)
Lemma block_rt `{OverflowChecks} h : extension h = true -> extensions_ok h ->
  exists body, zlen body = get_extension_payload_len h /\
    put_extensions h = Ok (put_u16 (div_ceil (get_extension_payload_len h) 4) ++ body ++ zeros (extensions_padding h)) /\
    forall off r, read_block (extension_profile h) (get_extension_payload_len h) (extensions_padding h) off (body ++ zeros (extensions_padding h) ++ r)
      = Ok (extension_profile h, extensions h, extensions_padding h, r).
Proof.
  intros Hx. unfold extensions_ok. rewrite Hx. intros (Hpr & Hex & Hone & Hlen & Hpad).
  pose proof (get_extension_payload_len_nonneg h) as H0. pose proof (div_ceil_4 _ H0) as Hdc.
  assert (Hp0 : 0 <= extensions_padding h < 4) by (rewrite Hpad; mlia).
  assert (Hn : get_extension_payload_len h = zsum (fun e => zlen (ext_payload e)) (extensions h) + zlen (extensions h) * profile_len (extension_profile h)) by done.
  set (n := get_extension_payload_len h) in *. unfold put_extensions, read_block. fold n. rewrite (as_u16_id n) by (unfold is_u16; lia).
  replace (div_ceil n 4 * 4 - n) with (extensions_padding h) by lia. unfold ext_ok, rfc8285, profile_len in *.
  destruct (extension_profile h =? EXTENSION_PROFILE_ONE_BYTE) eqn:E1; cbn [negb andb orb] in *;
    [|destruct (extension_profile h =? EXTENSION_PROFILE_TWO_BYTE) eqn:E2; cbn [negb andb orb] in *].
  - exists (concat (map one_byte (extensions h))). pose proof (zlen_one_bytes (extensions h)) as Hb. split; [lia|].
    rewrite (put_one_bytes_Ok (extensions h)) by done. split; [done|]. intros off r. replace n with (zlen (concat (map one_byte (extensions h)))) by lia.
    rewrite one_byte_loop_rt; [done|lia|done|]. rewrite !length_app. unfold zeros. rewrite length_replicate. lia.
  - exists (concat (map put_two_byte (extensions h))). pose proof (zlen_two_bytes (extensions h)) as Hb. split; [lia|].
    split; [done|]. intros off r. replace n with (zlen (concat (map put_two_byte (extensions h)))) by lia.
    rewrite two_byte_loop_rt; [done|lia|done|]. rewrite !length_app. unfold zeros. rewrite length_replicate. lia.
  - destruct (extensions h) as [|e [|? ?]] eqn:Ee; [by specialize (Hone eq_refl)| |by specialize (Hone eq_refl)].
    apply Forall_cons in Hex as [[Hi Hm] _]. cbn [zsum foldr] in Hn. exists (ext_payload e). split; [lia|].
    assert (Hn4 : n mod 4 = 0) by (rewrite Hn, Z.mul_0_r, !Z.add_0_r; done). rewrite Hn4, Hm. split; [done|]. intros off r.
    assert (extensions_padding h = 0) as -> by (rewrite Hpad; mlia). change (zeros 0 ++ r) with r.
    replace (n + 0) with (zlen (ext_payload e)) by lia. rewrite (proj2 (Z.ltb_ge _ _)) by zlia.
    destruct (zlen_split (ext_payload e) r) as [-> ->]. destruct e. cbn in Hi. by subst.
Qed.

(** A buffer that holds a header, read field by field. *)
Lemma fixed_fields h e r : header_ok h ->
  let b := put_u8 (Header_b0 h) ++ put_u8 (Header_b1 h) ++ put_u16 (sequence_number h) ++ put_u32 (timestamp h)
             ++ put_u32 (ssrc h) ++ concat (map put_u32 (csrc h)) ++ e in
  zlen b = 12 + zlen (csrc h) * 4 + zlen e /\
  Header_unmarshal (b ++ r) =
    ('(profile, exts, pad, buf) ← if extension h then get_extensions (zlen (b ++ r)) (12 + zlen (csrc h) * 4) (e ++ r) else Ok (0, [], 0, e ++ r);
     Ok (mkHeader (version h) (padding h) (extension h) (marker h) (payload_type h) (sequence_number h) (timestamp h) (ssrc h) (csrc h) profile exts pad, buf)).
Proof.
  intros (Hv & Hpt & Hseq & Hts & Hss & Hcc & Hcs & _) b.
  assert (Hc4 : zlen (concat (map put_u32 (csrc h))) = zlen (csrc h) * 4).
  { clear. induction (csrc h) as [|x l IH]; [done|]. cbn [map concat]. zlia. }
  assert (Hb : zlen b = 12 + zlen (csrc h) * 4 + zlen e) by (unfold b; zlia). split; [done|].
  destruct (b0_fields h Hv Hcc) as (Hu0 & F1 & F2 & F3 & F4). destruct (b1_fields h Hpt) as (Hu1 & G1 & G2).
  assert (Hlen : zlen (b ++ r) = 12 + zlen (csrc h) * 4 + zlen e + zlen r) by (rewrite zlen_app; lia). zlen_pos.
  unfold Header_unmarshal. set (len := zlen (b ++ r)) in *. unfold HEADER_LENGTH. rewrite (proj2 (Z.ltb_ge _ _)) by lia.
  unfold b. rewrite <- !(assoc_L app). rewrite get_put_u8 by done. cbn [mbind outcome_bind]. rewrite F1, F2, F3, F4.
  unfold CSRC_OFFSET, CSRC_LENGTH. rewrite (proj2 (Z.ltb_ge _ _)) by lia. rewrite get_put_u8 by done. cbn [mbind outcome_bind].
  rewrite get_put_u16 by done. cbn [mbind outcome_bind]. rewrite get_put_u32 by done. cbn [mbind outcome_bind].
  rewrite get_put_u32 by done. cbn [mbind outcome_bind].
  replace (Z.to_nat (zlen (csrc h))) with (length (csrc h)) by (unfold zlen; lia).
  rewrite (read_n_write get_u32 is_u32 put_u32) by (intros; by apply get_put_u32 || done). cbn [mbind outcome_bind]. by rewrite G1, G2.
Qed.

(** The encoder's bytes after the fixed part, read back. *)
Definition reads_back (h : Header) (e : bytes) : Prop := forall off r, 0 <= off ->
  (if extension h then get_extensions (off + zlen (e ++ r)) off (e ++ r) else Ok (0, [], 0, e ++ r)) =
    Ok (extension_profile h, extensions h, extensions_padding h, r).

Lemma header_tail `{OverflowChecks} h : header_ok h ->
  exists e, (if extension h then b ← put_extensions h; Ok (put_u16 (extension_profile h) ++ b) else Ok []) = Ok e /\
    12 + zlen (csrc h) * 4 + zlen e = Header_size h /\ reads_back h e.
Proof.
  intros Hok. pose proof Hok as (_ & _ & _ & _ & _ & _ & _ & Hex). unfold Header_size, marshal_size_for, CSRC_LENGTH, reads_back.
  destruct (extension h) eqn:Hx.
  - destruct (block_rt h Hx Hex) as (body & Hn & Hput & Hread). rewrite Hput. cbn [mbind outcome_bind].
    unfold extensions_ok in Hex. rewrite Hx in Hex. destruct Hex as (Hpr & _ & _ & Hlen & Hpad).
    eexists. split; [reflexivity|]. pose proof (get_extension_payload_len_nonneg h) as H0. pose proof (div_ceil_4 _ H0) as Hdc.
    assert (Hp0 : 0 <= extensions_padding h) by (rewrite Hpad; mlia).
    split; [unfold div_ceil in *; rewrite Hpad in *; zlen_pos; autorewrite with zlen; rewrite Hn; mlia|].
    intros off r Hoff. rewrite <- (assoc_L app _ _ r).
    rewrite (get_extensions_block _ _ _ _ _ off r Hpr Hn Hlen Hpad Hoff eq_refl). apply Hread.
  - exists []. split; [done|]. split; [rewrite zlen_nil; lia|]. unfold extensions_ok in Hex. rewrite Hx in Hex.
    destruct Hex as (-> & -> & ->). done.
Qed.

#[export] Instance Header_codec `{OverflowChecks} : Codec MediaError Header header_ok.
Proof.
  split. intros h room Hok Hroom. cbn [marshal_size marshal_to unmarshal Header_MarshalSize Header_MarshalTo Header_Unmarshal] in *.
  unfold Header_marshal_to. rewrite (proj2 (Z.ltb_ge _ _)) by done.
  destruct (header_tail h Hok) as (e & -> & Hsz & Hread). cbn [mbind outcome_bind].
  destruct (fixed_fields h e [] Hok) as [Hl _]. eexists. split; [by rewrite Hl, Hsz|]. split; [by rewrite Hl|].
  intros r. destruct (fixed_fields h e r Hok) as [_ ->]. rewrite zlen_app, Hl.
  assert (Hr := Hread (12 + zlen (csrc h) * 4) r). rewrite zlen_app, Z.add_assoc in Hr. rewrite Hr by (zlen_pos; lia). by destruct h.
Qed.

Lemma strip_padding_rt payload pad : 0 < pad < 256 -> strip_padding (payload ++ zeros (pad - 1) ++ put_u8 pad) = Ok payload.
Proof.
  intros Hp. unfold strip_padding. set (l := payload ++ _). assert (Hl : zlen l = zlen payload + pad) by (unfold l; zlia).
  zlen_pos. rewrite (proj2 (Z.ltb_lt _ _)) by lia.
  assert (Hi : index (E:=MediaError) l (zlen l - 1) = Ok pad).
  { unfold index. rewrite (proj2 (Z.leb_le _ _)), (proj2 (Z.ltb_lt _ _)) by lia. cbn [andb]. f_equal.
    assert (Z.to_nat (zlen l - 1) = length (payload ++ zeros (pad - 1))) as ->.
    { rewrite length_app. unfold zeros. rewrite length_replicate. rewrite Hl. unfold zlen. lia. }
    unfold l. rewrite (assoc_L app), app_nth2, Nat.sub_diag by lia. cbn. by rewrite Z.mod_small by lia. }
  rewrite Hi. cbn [mbind outcome_bind]. rewrite (proj2 (Z.leb_le _ _)) by lia. f_equal.
  replace (zlen l - pad) with (zlen payload) by lia. apply zlen_split.
Qed.

Definition packet_ok (p : Packet) : Prop := header_ok (header p).

(** A packet in bytes: its header, then what decoding takes the payload from. *)
Definition packet_tail (p : Packet) : bytes :=
  payload p ++ (if padding_len p =? 0 then [] else zeros (padding_len p - 1) ++ put_u8 (padding_len p)).

Lemma padding_len_bounds p : 0 <= padding_len p <= 4 /\ (padding_len p = 0 <-> padding (header p) = false).
Proof.
  unfold padding_len, get_padding. destruct (padding (header p)); [|lia]. split; [|split; [|done]]; repeat case_match; mlia.
Qed.

Lemma packet_write `{OverflowChecks} p room : packet_ok p -> Packet_size p <= room -> exists hb,
  Packet_marshal_to p room = Ok (Packet_size p, hb ++ packet_tail p) /\ zlen hb = Header_size (header p) /\
  zlen (hb ++ packet_tail p) = Packet_size p /\ (forall r, Header_unmarshal (hb ++ r) = Ok (header p, r)).
Proof.
  intros Hok Hroom. destruct (padding_len_bounds p) as [Hpad _]. unfold Packet_marshal_to, Packet_size, packet_tail in *. zlen_pos.
  rewrite (proj2 (Z.ltb_ge _ _)) by done.
  destruct (codec_write (E:=MediaError) (header p) room Hok) as (b & Hw & Hl & Hr);
    [change (Header_size (header p) <= room); lia|].
  cbn [marshal_size marshal_to unmarshal Header_MarshalSize Header_MarshalTo Header_Unmarshal] in Hw, Hl, Hr. rewrite Hw.
  cbn [mbind outcome_bind]. exists b. split; [done|]. split; [done|]. split; [|done].
  destruct (Z.eqb_spec (padding_len p) 0); zlia.
Qed.

Lemma strip_packet_tail p : (if padding (header p) then strip_padding (packet_tail p) else Ok (packet_tail p)) = Ok (payload p).
Proof.
  destruct (padding_len_bounds p) as [Hpad Hpad0]. unfold packet_tail. destruct (padding (header p)).
  - destruct (Z.eqb_spec (padding_len p) 0) as [E|E]; [by apply Hpad0 in E|]. apply strip_padding_rt. lia.
  - rewrite (proj2 Hpad0 eq_refl). cbn [Z.eqb]. by rewrite app_nil_r.
Qed.

#[export] Instance Packet_codec `{OverflowChecks} : ClosedCodec MediaError Packet packet_ok.
Proof.
  split. intros p room Hok Hroom. destruct (packet_write p room Hok Hroom) as (hb & Hw & _ & Hl & Hr).
  exists (hb ++ packet_tail p). split; [exact Hw|]. split; [exact Hl|].
  cbn [unmarshal Packet_Unmarshal]. unfold Packet_unmarshal. rewrite Hr. cbn [mbind outcome_bind].
  pose proof (strip_packet_tail p) as Hs. destruct (padding (header p)); [rewrite Hs|injection Hs as ->]; by destruct p.
Qed.

(** C39: RTP packets survive the wire.  A packet whose header fields are in range and
    whose extensions fit its profile, with the padding of a word boundary, is
    marshalled into exactly its announced size, with or without overflow checks, and
    unmarshalling those bytes gives the packet back: header, contributing sources,
    extensions of either form, payload, padding removed. *)
Theorem rtp_packet_roundtrip `{OverflowChecks} (p : Packet) : packet_ok p ->
  exists b, marshal (E:=MediaError) p = Ok b /\ zlen b = Packet_size p /\ unmarshal (E:=MediaError) b = Ok (p, []).
Proof. intros Hok. exact (closed_marshal p Hok). Qed.

Definition packet_example : Packet :=
  mkPacket (mkHeader 2 true true true 96 65535 1 4294967295 [7; 8] EXTENSION_PROFILE_ONE_BYTE
              [mkExtension 1 [255]; mkExtension 14 [1; 2; 3; 4]] 1) [10; 20; 30].

Lemma rtp_packet_roundtrip_witness :
  exists b, marshal (H0 := @Packet_MarshalTo true) (E:=MediaError) packet_example = Ok b /\ zlen b = Packet_size packet_example /\
    unmarshal (E:=MediaError) b = Ok (packet_example, []).
Proof.
  apply (@rtp_packet_roundtrip true packet_example). unfold packet_ok, header_ok, extensions_ok, is_u16, is_u32.
  cbn [packet_example header extension version payload_type sequence_number timestamp ssrc csrc extension_profile extensions extensions_padding].
  assert (Hn : get_extension_payload_len (header packet_example) = 7) by reflexivity.
  change (zlen [7; 8]) with 2. cbn [packet_example header] in Hn. rewrite Hn.
  split_and!; try lia; [|done|done| |done|done].
  - repeat (apply Forall_cons; split; [lia|]). constructor.
  - apply Forall_cons; split; [unfold ext_ok; cbn; unfold zlen; cbn; lia|]. apply Forall_cons; split; [unfold ext_ok; cbn; unfold zlen; cbn; lia|]. constructor.
Defined.

(** * Decoding is safe *)

Lemma post_one_byte_loop fuel : forall curr end_ buf exts pad, (length buf <= fuel)%nat -> end_ - curr <= zlen buf ->
  post (one_byte_loop fuel curr end_ buf exts pad) (fun x => x.2 `suffix_of` buf).
Proof.
  induction fuel as [|fuel IH]; intros curr end_ buf exts pad Hf He; cbn [one_byte_loop];
    destruct (Z.ltb_spec curr end_) as [Hlt|Hge]; try (by exists []).
  - unfold zlen in He. lia.
  - destruct buf as [|b buf]; [unfold zlen in He; cbn in He; lia|]. cbn [get_u8 mbind outcome_bind length] in *.
    assert (Hz : end_ - (curr + 1) <= zlen buf) by zlia.
    destruct (b =? 0).
    + eapply post_weaken; [apply IH; [lia|done]|]. intros x [pre ->]. by exists (b :: pre).
    + destruct (Z.shiftr b 4 =? EXTENSION_ID_RESERVED); [by exists [b]|]. assert (H0 : 0 <= Z.land b 15) by (apply Z.land_nonneg; lia).
      destruct (Z.ltb_spec (zlen buf) (Z.land b 15 + 1)) as [Hs|Hs]; [done|]. eapply post_weaken; [apply IH; [rewrite length_drop; lia|zlia]|].
      intros x [pre Hx]. exists (b :: take (Z.to_nat (Z.land b 15 + 1)) buf ++ pre).
      cbn [app]. rewrite <- (assoc_L app), <- Hx, take_drop. done.
Qed.

Lemma post_two_byte_loop fuel : forall curr end_ buf exts pad, bytes_ok buf -> (length buf <= fuel)%nat -> end_ - curr <= zlen buf ->
  post (two_byte_loop fuel curr end_ buf exts pad) (fun x => x.2 `suffix_of` buf).
Proof.
  induction fuel as [|fuel IH]; intros curr end_ buf exts pad Hok Hf He; cbn [two_byte_loop];
    destruct (Z.ltb_spec curr end_) as [Hlt|Hge]; try (by exists []).
  - unfold zlen in He. lia.
  - destruct buf as [|b buf]; [unfold zlen in He; cbn in He; lia|]. cbn [get_u8 mbind outcome_bind length] in *.
    apply Forall_cons in Hok as [_ Hok]. assert (Hz : end_ - (curr + 1) <= zlen buf) by zlia.
    destruct (b =? 0); [eapply post_weaken; [apply IH; [done|lia|done]|]; intros x [pre ->]; by exists (b :: pre)|].
    destruct (Z.leb_spec end_ (curr + 1)); [done|]. destruct buf as [|n buf]; [unfold zlen in Hz; cbn in Hz; lia|].
    cbn [get_u8 mbind outcome_bind length] in *. apply Forall_cons in Hok as [Hn Hok]. unfold is_u8 in Hn.
    destruct (Z.ltb_spec (zlen buf) n) as [Hs|Hs]; [done|].
    eapply post_weaken; [apply IH; [by apply Forall_drop|rewrite length_drop; lia|zlia]|].
    intros x [pre Hx]. exists (b :: n :: take (Z.to_nat n) buf ++ pre).
    cbn [app]. rewrite <- (assoc_L app), <- Hx, take_drop. done.
Qed.

(** The readers leave a suffix. *)
Definition leaves {E A} (rd : bytes -> outcome E (A * bytes)) : Prop := forall l x r, rd l = Ok (x, r) -> r `suffix_of` l.
Lemma leaves_u8 {E} : leaves (@get_u8 E).
Proof. intros [|a l] x r; [done|]. intros [= <- <-]. by exists [a]. Qed.
Lemma leaves_u16 {E} : leaves (@get_u16 E).
Proof. intros [|a [|b l]] x r; [done..|]. intros [= <- <-]. by exists [a; b]. Qed.
Lemma leaves_u32 {E} : leaves (@get_u32 E).
Proof. intros [|a [|b [|c [|d l]]]] x r; [done..|]. intros [= <- <-]. by exists [a; b; c; d]. Qed.
Lemma leaves_n {E A} (rd : bytes -> outcome E (A * bytes)) n : leaves rd -> leaves (read_n rd n).
Proof.
  intros Hrd. induction n as [|n IH]; intros l x r; cbn [read_n].
  - intros [= <- <-]. by exists [].
  - destruct (rd l) as [[y l1]| | |] eqn:E1; cbn; try done. destruct (read_n rd n l1) as [[ys l2]| | |] eqn:E2; cbn; try done.
    intros [= <- <-]. apply Hrd in E1 as [p ->]. apply IH in E2 as [q ->]. exists (p ++ q). by rewrite (assoc_L app).
Qed.

Lemma post_get_extensions len off buf : bytes_ok buf -> len - off <= zlen buf ->
  post (get_extensions len off buf) (fun x => x.2 `suffix_of` buf).
Proof.
  intros Hok Hl. unfold get_extensions. destruct (Z.ltb_spec len (off + 4)) as [H|H]; [done|].
  eapply post_bind; [apply post_get_u16; lia|]. intros [pr b1] E1 [L1 O1]; cbn [fst snd] in *. apply leaves_u16 in E1.
  destruct (O1 Hok) as [_ Hok1]. eapply post_bind; [apply post_get_u16; lia|]. intros [w b2] E2 [L2 O2]; cbn [fst snd] in *.
  apply leaves_u16 in E2. destruct (O2 Hok1) as [Hw Hok2]. unfold is_u16 in Hw.
  destruct (Z.ltb_spec len (off + 4 + w * 4)) as [H'|H']; [done|].
  assert (S12 : b2 `suffix_of` buf) by (by etrans).
  destruct (pr =? EXTENSION_PROFILE_ONE_BYTE); [|destruct (pr =? EXTENSION_PROFILE_TWO_BYTE)].
  - eapply post_bind; [apply (post_one_byte_loop (length b2)); [done|lia]|]. intros [[ex pad] b3] _ S3. cbn in *. by etrans.
  - eapply post_bind; [apply (post_two_byte_loop (length b2)); [done|done|lia]|]. intros [[ex pad] b3] _ S3. cbn in *. by etrans.
  - rewrite (proj2 (Z.ltb_ge _ _)) by lia. cbn. etrans; [|exact S12]. exists (take (Z.to_nat (w * 4)) b2). by rewrite take_drop.
Qed.

(** The fixed fields of a decoded header are in range. *)
Definition fields_ok (h : Header) : Prop :=
  0 <= version h < 4 /\ 0 <= payload_type h < 128 /\ is_u16 (sequence_number h) /\ is_u32 (timestamp h) /\ is_u32 (ssrc h) /\
  zlen (csrc h) <= 15 /\ Forall is_u32 (csrc h).

Lemma land_bound a n : 0 <= n -> 0 <= Z.land a (Z.ones n) < 2 ^ n.
Proof. intros. rewrite Z.land_ones by done. apply Z.mod_pos_bound. by apply Z.pow_pos_nonneg. Qed.

Lemma post_Header_unmarshal raw : bytes_ok raw ->
  post (Header_unmarshal raw) (fun x => fields_ok x.1 /\ x.2 `suffix_of` raw).
Proof.
  intros Hok. unfold Header_unmarshal, HEADER_LENGTH, CSRC_OFFSET, CSRC_LENGTH. destruct (Z.ltb_spec (zlen raw) 4); [done|].
  eapply post_bind; [apply post_get_u8; lia|]. intros [b0 l0] E0 [L0 O0]; cbn [fst snd] in *. apply leaves_u8 in E0. destruct (O0 Hok) as [_ K0].
  pose proof (land_bound b0 4 ltac:(lia)) as Hcc. change (Z.ones 4) with CC_MASK in Hcc. set (cc := Z.land b0 CC_MASK) in *.
  destruct (Z.ltb_spec (zlen raw) (12 + cc * 4)); [done|].
  eapply post_bind; [apply post_get_u8; lia|]. intros [b1 l1] E1 [L1 O1]; cbn [fst snd] in *. apply leaves_u8 in E1. destruct (O1 K0) as [_ K1].
  eapply post_bind; [apply post_get_u16; lia|]. intros [sq l2] E2 [L2 O2]; cbn [fst snd] in *. apply leaves_u16 in E2. destruct (O2 K1) as [R2 K2].
  eapply post_bind; [apply post_get_u32; lia|]. intros [ts l3] E3 [L3 O3]; cbn [fst snd] in *. apply leaves_u32 in E3. destruct (O3 K2) as [R3 K3].
  eapply post_bind; [apply post_get_u32; lia|]. intros [ss l4] E4 [L4 O4]; cbn [fst snd] in *. apply leaves_u32 in E4. destruct (O4 K3) as [R4 K4].
  eapply post_bind; [apply (post_read_n get_u32 is_u32 4); [lia|apply post_get_u32|lia]|].
  intros [cs l5] E5 (L5 & N5 & O5); cbn [fst snd] in *. apply (leaves_n _ _ leaves_u32) in E5. destruct (O5 K4) as [R5 K5].
  assert (S5 : l5 `suffix_of` raw) by (etrans; [exact E5|]; etrans; [exact E4|]; etrans; [exact E3|]; etrans; [exact E2|]; by etrans).
  pose proof (land_bound (Z.shiftr b0 VERSION_SHIFT) 2 ltac:(lia)) as Hv. pose proof (land_bound b1 7 ltac:(lia)) as Hpt.
  assert (Hf : forall pr ex pad, fields_ok (mkHeader (Z.land (Z.shiftr b0 VERSION_SHIFT) VERSION_MASK)
    (0 <? Z.land (Z.shiftr b0 PADDING_SHIFT) PADDING_MASK) (0 <? Z.land (Z.shiftr b0 EXTENSION_SHIFT) EXTENSION_MASK)
    (0 <? Z.land (Z.shiftr b1 MARKER_SHIFT) MARKER_MASK) (Z.land b1 PT_MASK) sq ts ss cs pr ex pad)).
  { intros. change (Z.ones 2) with VERSION_MASK in Hv. change (Z.ones 7) with PT_MASK in Hpt. change (2 ^ 2) with 4 in Hv. change (2 ^ 7) with 128 in Hpt.
    split_and!; cbn [version payload_type sequence_number timestamp ssrc csrc]; try apply Hv; try apply Hpt; try done. unfold zlen. lia. }
  destruct (0 <? Z.land (Z.shiftr b0 EXTENSION_SHIFT) EXTENSION_MASK).
  - eapply post_bind; [apply post_get_extensions; [done|]|]; [lia|]. intros [[[pr ex] pad] l6] _ S6. cbn in *. split; [apply Hf|by etrans].
  - cbn. split; [apply Hf|done].
Qed.

(** The padding of a decoded header is counted up from zero. *)
Lemma one_byte_loop_pad fuel : forall curr end_ buf exts pad x, one_byte_loop fuel curr end_ buf exts pad = Ok x -> pad <= x.1.2.
Proof.
  induction fuel as [|fuel IH]; intros curr end_ buf exts pad x; cbn [one_byte_loop]; destruct (curr <? end_); try done;
    try (intros [= <-]; cbn; lia).
  destruct (get_u8 buf) as [[b l]| | |]; cbn [mbind outcome_bind]; try done. destruct (b =? 0); [intros H%IH; lia|].
  destruct (_ =? EXTENSION_ID_RESERVED); [intros [= <-]; cbn; lia|]. destruct (_ <? _); [done|]. apply IH.
Qed.
Lemma two_byte_loop_pad fuel : forall curr end_ buf exts pad x, two_byte_loop fuel curr end_ buf exts pad = Ok x -> pad <= x.1.2.
Proof.
  induction fuel as [|fuel IH]; intros curr end_ buf exts pad x; cbn [two_byte_loop]; destruct (curr <? end_); try done;
    try (intros [= <-]; cbn; lia).
  destruct (get_u8 buf) as [[b l]| | |]; cbn [mbind outcome_bind]; try done. destruct (b =? 0); [intros H%IH; lia|].
  destruct (end_ <=? _); [done|]. destruct (get_u8 l) as [[n m]| | |]; cbn [mbind outcome_bind]; try done.
  destruct (_ <? _); [done|]. apply IH.
Qed.

Lemma Header_unmarshal_pad raw h r : Header_unmarshal raw = Ok (h, r) -> 0 <= extensions_padding h.
Proof.
  unfold Header_unmarshal. destruct (_ <? _); [done|]. destruct (get_u8 raw) as [[b0 l0]| | |]; cbn [mbind outcome_bind]; try done.
  destruct (zlen raw <? _); [done|]. destruct (get_u8 l0) as [[b1 l1]| | |]; cbn [mbind outcome_bind]; try done.
  destruct (get_u16 l1) as [[sq l2]| | |]; cbn [mbind outcome_bind]; try done.
  destruct (get_u32 l2) as [[ts l3]| | |]; cbn [mbind outcome_bind]; try done.
  destruct (get_u32 l3) as [[ss l4]| | |]; cbn [mbind outcome_bind]; try done.
  destruct (read_n get_u32 _ l4) as [[cs l5]| | |]; cbn [mbind outcome_bind]; try done.
  destruct (0 <? Z.land (Z.shiftr b0 EXTENSION_SHIFT) EXTENSION_MASK); [|intros [= <- <-]; done]. unfold get_extensions. destruct (zlen raw <? _); [done|].
  destruct (get_u16 l5) as [[pr l6]| | |]; cbn [mbind outcome_bind]; try done.
  destruct (get_u16 l6) as [[ws l7]| | |]; cbn [mbind outcome_bind]; try done. destruct (zlen raw <? _); [done|].
  destruct (pr =? EXTENSION_PROFILE_ONE_BYTE); [|destruct (pr =? EXTENSION_PROFILE_TWO_BYTE)].
  - destruct (one_byte_loop _ _ _ _ _ _) as [[[ex pad] l8]| | |] eqn:E; cbn [mbind outcome_bind]; try done.
    intros [= <- <-]. exact (one_byte_loop_pad _ _ _ _ _ _ _ E).
  - destruct (two_byte_loop _ _ _ _ _ _) as [[[ex pad] l8]| | |] eqn:E; cbn [mbind outcome_bind]; try done.
    intros [= <- <-]. exact (two_byte_loop_pad _ _ _ _ _ _ _ E).
  - destruct (zlen l7 <? _); cbn [mbind outcome_bind]; [done|]. intros [= <- <-]. done.
Qed.

Lemma Header_size_nonneg h : 0 <= extensions_padding h -> 0 <= Header_size h.
Proof.
  intros Hp. unfold Header_size, marshal_size_for, CSRC_LENGTH. pose proof (get_extension_payload_len_nonneg h).
  destruct (extension h); [|zlia]. pose proof (div_ceil_4 (get_extension_payload_len h + extensions_padding h) ltac:(lia)).
  assert (0 <= (- (get_extension_payload_len h + extensions_padding h)) mod 4) by (apply Z.mod_pos_bound; lia). zlia.
Qed.

Lemma post_strip_padding l : bytes_ok l -> post (strip_padding l) (fun p => exists q, l = p ++ q).
Proof.
  intros Hok. unfold strip_padding. destruct (Z.ltb_spec 0 (zlen l)); [|done].
  eapply post_bind; [apply post_index; lia|]. intros n _ Hn. specialize (Hn Hok). unfold is_u8 in Hn.
  destruct (Z.leb_spec n (zlen l)); [|done]. cbn. exists (drop (Z.to_nat (zlen l - n)) l). by rewrite take_drop.
Qed.

(** Decoding an RTP packet is safe.  Whatever bytes arrive, [Packet::unmarshal] ends
    without a panic, in an error or in a packet whose fixed fields are in range, with
    at most 15 contributing sources, and whose payload is a part of the datagram. *)
Theorem rtp_decode_safe raw : bytes_ok raw ->
  post (Packet_unmarshal raw) (fun x => fields_ok (header x.1) /\ x.2 = [] /\ exists pre suf, raw = pre ++ payload x.1 ++ suf).
Proof.
  intros Hok. unfold Packet_unmarshal. eapply post_bind; [by apply post_Header_unmarshal|]. intros [h l] _ [Hf [pre Hs]]. cbn [fst snd] in *.
  assert (Hl : bytes_ok l) by (rewrite Hs in Hok; by apply bytes_ok_app in Hok as [_ ?]).
  destruct (padding h).
  - eapply post_bind; [by apply post_strip_padding|]. intros p _ [q Hq]. cbn. split; [done|]. split; [done|]. exists pre, q. by rewrite Hs, Hq.
  - cbn. split; [done|]. split; [done|]. exists pre, []. by rewrite app_nil_r.
Qed.

Lemma rtp_decode_safe_witness :
  post (Packet_unmarshal [144; 96; 0; 1; 0; 0; 0; 2; 0; 0; 0; 3; 190; 222; 0; 1; 16; 255; 0; 0; 42])
    (fun x => fields_ok (header x.1) /\ x.2 = [] /\ exists pre suf,
       [144; 96; 0; 1; 0; 0; 0; 2; 0; 0; 0; 3; 190; 222; 0; 1; 16; 255; 0; 0; 42] = pre ++ payload x.1 ++ suf).
Proof. apply rtp_decode_safe. repeat (apply Forall_cons; split; [unfold is_u8; lia|]). constructor. Defined.

(** * Setting an extension *)

Lemma zsum_insert {A} (f : A -> Z) l i x y : l !! i = Some x -> zsum f (<[i := y]> l) = zsum f l - f x + f y.
Proof.
  revert i. induction l as [|z l IH]; intros [|i] H; try done.
  - injection H as ->. cbn [insert list_insert]. change (<[0%nat := y]> (x :: l)) with (y :: l). rewrite !zsum_cons. lia.
  - change (<[S i := y]> (z :: l)) with (z :: <[i := y]> l). rewrite !zsum_cons. rewrite (IH i H). lia.
Qed.

Definition ext_find (id : Z) (l : list Extension) : option bytes :=
  (fun x => ext_payload x.2) <$> list_find (fun e => ext_id e = id) l.

Lemma ext_find_cons id e l : ext_find id (e :: l) = if decide (ext_id e = id) then Some (ext_payload e) else ext_find id l.
Proof. unfold ext_find. cbn [list_find]. case_decide; [done|]. by destruct (list_find _ l) as [[i x]|]. Qed.

Lemma ext_find_insert id j e' l : forall i e, list_find (fun e => ext_id e = id) l = Some (i, e) -> ext_id e' = id ->
  ext_find j (<[i := e']> l) = if decide (j = id) then Some (ext_payload e') else ext_find j l.
Proof.
  induction l as [|x l IH]; intros i e Hf He; [done|]. cbn [list_find] in Hf. case_decide as Hx.
  - injection Hf as <- <-. change (<[0%nat := e']> (x :: l)) with (e' :: l). rewrite !ext_find_cons.
    repeat case_decide; congruence.
  - destruct (list_find _ l) as [[k y]|] eqn:E; [|done]. cbn in Hf. injection Hf as <- <-.
    change (<[S k := e']> (x :: l)) with (x :: <[k := e']> l). rewrite !ext_find_cons. rewrite (IH _ _ eq_refl He).
    repeat case_decide; congruence.
Qed.

Lemma ext_find_snoc id j p l : list_find (fun e => ext_id e = id) l = None ->
  ext_find j (l ++ [mkExtension id p]) = if decide (j = id) then Some p else ext_find j l.
Proof.
  induction l as [|x l IH]; intros Hf; cbn [app list_find] in *.
  - rewrite ext_find_cons. cbn [ext_id ext_payload]. repeat case_decide; by subst.
  - case_decide as Hx; [done|]. destruct (list_find _ l) as [[k y]|] eqn:E; [done|].
    rewrite !ext_find_cons, IH by done. repeat case_decide; congruence.
Qed.

Lemma adjust_padding_spec len delta pad : pad = (- len) mod 4 -> adjust_padding pad delta = (- (len + delta)) mod 4.
Proof.
  intros Hp. assert (0 <= pad < 4) by (rewrite Hp; mlia). unfold adjust_padding.
  destruct (Z.ltb_spec delta 0); [rewrite Z.rem_mod_nonneg by lia; mlia|]. destruct (Z.ltb_spec 0 delta); [|rewrite Hp; f_equal; lia].
  rewrite Z.rem_mod_nonneg by lia. destruct (Z.ltb_spec pad (delta mod 4)); mlia.
Qed.

(** The header with other extensions. *)
Definition fixed_part (h : Header) := (version h, padding h, marker h, payload_type h, sequence_number h, timestamp h, ssrc h, csrc h).

Lemma header_ok_extensions h h' : header_ok h -> fixed_part h' = fixed_part h -> extensions_ok h' -> header_ok h'.
Proof. intros (? & ? & ? & ? & ? & ? & ? & _) [= E1 E2 E3 E4 E5 E6 E7 E8] ?. unfold header_ok. by rewrite E1, E4, E5, E6, E7, E8. Qed.

(** The call's arguments as RFC 8285 wants them; the code checks only some of it. *)
Definition settable (id : Z) (payload : bytes) (h : Header) : Prop :=
  1 <= zlen payload /\ 1 <= id <= 255 /\ get_extension_payload_len h + 2 + zlen payload < 65536 /\
  if extension h then rfc8285 (extension_profile h) = true else zlen payload <= 255 /\ (zlen payload <= 16 -> id <= 14).

Lemma check_extension_ok profile id payload n : rfc8285 profile = true -> 1 <= zlen payload -> 1 <= id <= 255 ->
  check_extension profile id (zlen payload) = Ok n -> ext_ok profile (mkExtension id payload) /\ n = profile_len profile.
Proof.
  unfold rfc8285, check_extension, ext_ok, profile_len. cbn [ext_id ext_payload]. intros Hr Hl Hi.
  destruct (profile =? EXTENSION_PROFILE_ONE_BYTE); cbn [orb] in Hr.
  - destruct (Z.leb_spec 1 id), (Z.leb_spec id 14); cbn [andb negb]; try done.
    destruct (Z.ltb_spec 16 (zlen payload)); [done|]. intros [= <-]. split; [split; lia|done].
  - rewrite Hr. destruct (id <? 1); [done|]. destruct (Z.ltb_spec 255 (zlen payload)); [done|]. intros [= <-]. split; [split; lia|done].
Qed.

(** Extensions replaced under the same profile. *)
Lemma extensions_ok_change h exts delta : extension h = true -> extensions_ok h -> rfc8285 (extension_profile h) = true ->
  Forall (ext_ok (extension_profile h)) exts ->
  zsum (fun e => zlen (ext_payload e)) exts + zlen exts * profile_len (extension_profile h) = get_extension_payload_len h + delta ->
  get_extension_payload_len h + delta < 65536 ->
  extensions_ok (h <| extensions := exts |> <| extensions_padding ::= fun p => adjust_padding p delta |>).
Proof.
  intros Hx Hok Hr Hall Hsum Hlen. unfold extensions_ok in *. rewrite Hx in Hok. destruct Hok as (Hpr & _ & _ & _ & Hpad).
  set (h' := h <| extensions := exts |> <| extensions_padding ::= fun p => adjust_padding p delta |>).
  assert (E1 : extension h' = true) by exact Hx. assert (E2 : extension_profile h' = extension_profile h) by done.
  assert (E3 : extensions h' = exts) by done. assert (E4 : extensions_padding h' = adjust_padding (extensions_padding h) delta) by done.
  assert (E5 : get_extension_payload_len h' = get_extension_payload_len h + delta) by (unfold get_extension_payload_len at 1; by rewrite E2, E3).
  rewrite E1, E2, E3, E4, E5. split_and!; [exact Hpr|exact Hall|by rewrite Hr|lia|]. by apply adjust_padding_spec.
Qed.

Lemma set_existing h id payload : header_ok h -> settable id payload h -> extension h = true ->
  match set_extension id payload h with
  | Ok h' => header_ok h' /\ extension h' = true /\ fixed_part h' = fixed_part h /\
             forall j, get_extension j h' = if decide (j = id) then Some payload else get_extension j h
  | Err e => check_extension (extension_profile h) id (zlen payload) = Err e
  | _ => False
  end.
Proof.
  intros Hok (Hl & Hi & Hlen & Hr) Hx. rewrite Hx in Hr. unfold set_extension. rewrite Hx.
  pose proof (check_extension_ok (extension_profile h) id payload) as Hchk.
  destruct (check_extension (extension_profile h) id (zlen payload)) as [n|e| |] eqn:Ec; cbn [mbind outcome_bind]; [|done|..].
  2,3: unfold check_extension in Ec; repeat case_match; done.
  destruct (Hchk n Hr Hl Hi eq_refl) as [Hext ->]. pose proof Hok as (_ & _ & _ & _ & _ & _ & _ & Hexs).
  assert (Hall : Forall (ext_ok (extension_profile h)) (extensions h)) by (unfold extensions_ok in Hexs; rewrite Hx in Hexs; apply Hexs).
  assert (Hpl : 0 <= profile_len (extension_profile h) <= 2) by (unfold profile_len; repeat case_match; lia).
  destruct (list_find (fun e => ext_id e = id) (extensions h)) as [[i e]|] eqn:Ef.
  - pose proof Ef as (Hlk & _)%list_find_Some. split; [|split; [done|split; [done|]]].
    + apply (header_ok_extensions h); [done|done|]. apply extensions_ok_change; [done|done|done|by apply Forall_insert| |].
      * rewrite (zsum_insert _ _ _ _ _ Hlk). unfold zlen at 4. rewrite length_insert. unfold get_extension_payload_len. cbn [ext_payload].
        fold (zlen (extensions h)). lia.
      * pose proof (zlen_nonneg (ext_payload e)). lia.
    + intros j. unfold get_extension. cbn [extension]. change (extension (h <| _ := _ |> <| _ ::= _ |>)) with (extension h). rewrite Hx.
      exact (ext_find_insert id j (mkExtension id payload) (extensions h) i e Ef eq_refl).
  - split; [|split; [done|split; [done|]]].
    + apply (header_ok_extensions h); [done|done|].
      apply extensions_ok_change; [done|done|done|apply Forall_app; split; [done|by apply Forall_singleton]| |lia].
      rewrite zsum_app. unfold get_extension_payload_len. cbn [zsum foldr ext_payload]. autorewrite with zlen. lia.
    + intros j. unfold get_extension. change (extension (h <| _ := _ |> <| _ ::= _ |>)) with (extension h). rewrite Hx.
      exact (ext_find_snoc id j payload (extensions h) Ef).
Qed.

Lemma set_first h id payload : header_ok h -> settable id payload h -> extension h = false ->
  exists h', set_extension id payload h = Ok h' /\ header_ok h' /\ extension h' = true /\ fixed_part h' = fixed_part h /\
    forall j, get_extension j h' = if decide (j = id) then Some payload else get_extension j h.
Proof.
  intros Hok (Hl & Hi & Hlen & Hs) Hx. rewrite Hx in Hs. destruct Hs as [H255 H16]. pose proof Hok as (_ & _ & _ & _ & _ & _ & _ & Hexs).
  unfold extensions_ok in Hexs. rewrite Hx in Hexs. destruct Hexs as (Hp0 & He0 & Hpad0).
  assert (Hgo : forall h' pr n, (pr = EXTENSION_PROFILE_ONE_BYTE /\ n = 1 /\ zlen payload <= 16 \/ pr = EXTENSION_PROFILE_TWO_BYTE /\ n = 2) ->
    extension h' = true -> extension_profile h' = pr -> extensions h' = [mkExtension id payload] ->
    extensions_padding h' = (let p := (zlen payload + n) mod 4 in if extensions_padding h <? p then extensions_padding h + 4 - p else extensions_padding h - p) -> fixed_part h' = fixed_part h ->
    header_ok h' /\ extension h' = true /\ fixed_part h' = fixed_part h /\
    forall j, get_extension j h' = if decide (j = id) then Some payload else get_extension j h).
  { intros h' pr n Hpn E1 E2 E3 E4 E5. split_and!; [|done|done|].
    - apply (header_ok_extensions h); [done|done|]. unfold extensions_ok.
      assert (E6 : get_extension_payload_len h' = zlen payload + n).
      { unfold get_extension_payload_len, profile_len. rewrite E2, E3. cbn [zsum foldr ext_payload].
        destruct Hpn as [(-> & -> & _)|(-> & ->)]; cbn; unfold zlen; cbn [length]; lia. }
      rewrite E1, E2, E3, E4, E6. split_and!; [destruct Hpn as [(-> & _)|(-> & _)]; done| | | |].
      + apply Forall_singleton. unfold ext_ok. cbn [ext_id ext_payload]. destruct Hpn as [(-> & _ & ?)|(-> & _)]; cbn; lia.
      + destruct Hpn as [(-> & _)|(-> & _)]; done.
      + lia.
      + cbv zeta. rewrite Hpad0. destruct (Z.ltb_spec 0 ((zlen payload + n) mod 4)); mlia.
    - intros j. unfold get_extension. rewrite E1, E3, Hx. cbn [list_find ext_id]. repeat case_decide; by try congruence. }
  unfold set_extension. rewrite Hx, He0. cbn [app]. destruct (Z.leb_spec (zlen payload) 16) as [Hle|Hgt].
  - eexists. split; [reflexivity|]. apply (Hgo _ EXTENSION_PROFILE_ONE_BYTE 1); [by left|done..].
  - rewrite (proj2 (Z.leb_le _ _)) by done. eexists. split; [reflexivity|].
    apply (Hgo _ EXTENSION_PROFILE_TWO_BYTE 2); [by right|done..].
Qed.

Lemma zsum_delete {A} (f : A -> Z) l i x : l !! i = Some x -> zsum f (delete i l) = zsum f l - f x.
Proof.
  revert i. induction l as [|z l IH]; intros [|i] H; try done.
  - injection H as ->. change (delete 0%nat (x :: l)) with l. rewrite zsum_cons. lia.
  - change (delete (S i) (z :: l)) with (z :: delete i l). rewrite !zsum_cons, (IH i H). lia.
Qed.

Lemma ext_find_delete id j l : forall i e, list_find (fun e => ext_id e = id) l = Some (i, e) -> j <> id ->
  ext_find j (delete i l) = ext_find j l.
Proof.
  induction l as [|x l IH]; intros i e Hf Hj; [done|]. cbn [list_find] in Hf. case_decide as Hx.
  - injection Hf as <- <-. change (delete 0%nat (x :: l)) with l. rewrite ext_find_cons. by rewrite decide_False by congruence.
  - destruct (list_find _ l) as [[k y]|] eqn:E; [|done]. cbn in Hf. injection Hf as <- <-.
    change (delete (S k) (x :: l)) with (x :: delete k l). rewrite !ext_find_cons. by rewrite (IH _ _ eq_refl Hj).
Qed.

(** Removing an extension keeps the header acceptable and the other extensions. *)
Lemma del_extension_keeps_header h id : header_ok h -> extension h = true -> rfc8285 (extension_profile h) = true ->
  match del_extension id h with
  | Ok h' => header_ok h' /\ fixed_part h' = fixed_part h /\ forall j, j <> id -> get_extension j h' = get_extension j h
  | Err e => e = ErrHeaderExtensionNotFound /\ get_extension id h = None
  | _ => False
  end.
Proof.
  intros Hok Hx Hr. unfold del_extension, get_extension. rewrite Hx. pose proof Hok as (_ & _ & _ & _ & _ & _ & _ & Hexs).
  destruct (list_find (fun e => ext_id e = id) (extensions h)) as [[i e]|] eqn:Ef; [|done].
  pose proof Ef as (Hlk & _)%list_find_Some. unfold extensions_ok in Hexs. rewrite Hx in Hexs. destruct Hexs as (Hpr & Hall & _ & Hlen & Hpad).
  set (h' := h <| extensions := delete i (extensions h) |> <| extensions_padding ::= _ |>). split_and!; [|done|].
  - apply (header_ok_extensions h); [done|done|]. unfold extensions_ok.
    assert (E5 : get_extension_payload_len h' = get_extension_payload_len h - (zlen (ext_payload e) + profile_len (extension_profile h))).
    { unfold get_extension_payload_len. change (extensions h') with (delete i (extensions h)). change (extension_profile h') with (extension_profile h).
      rewrite (zsum_delete _ _ _ _ Hlk). assert (Hlt := lookup_lt_Some _ _ _ Hlk). assert (Hd : zlen (delete i (extensions h)) = zlen (extensions h) - 1) by (unfold zlen; rewrite length_delete by eauto; lia). rewrite Hd. lia. }
    assert (0 <= profile_len (extension_profile h)) by (unfold profile_len; repeat case_match; lia). pose proof (zlen_nonneg (ext_payload e)).
    rewrite E5. change (extension h') with (extension h). rewrite Hx. change (extension_profile h') with (extension_profile h).
    split_and!; [exact Hpr|by apply Forall_delete|by rewrite Hr|lia|].
    change (extensions_padding h') with ((extensions_padding h + (zlen (ext_payload e) + profile_len (extension_profile h)) mod 4) mod 4).
    rewrite Hpad. mlia.
  - intros j Hj. change (extension h') with (extension h). rewrite Hx. exact (ext_find_delete id j (extensions h) i e Ef Hj).
Qed.

(** Setting a header extension.  For a header the codec accepts and arguments within
    the limits of the two extension forms, [set_extension] fails only with the error of
    its own check; otherwise the header stays acceptable, in particular its padding
    still ends the block on a word boundary, the new value can be read back, every other
    extension is as before, and so is the rest of the header. *)
Theorem set_extension_keeps_header h id payload : header_ok h -> settable id payload h ->
  match set_extension id payload h with
  | Ok h' => header_ok h' /\ extension h' = true /\ fixed_part h' = fixed_part h /\
             forall j, get_extension j h' = if decide (j = id) then Some payload else get_extension j h
  | Err e => extension h = true /\ check_extension (extension_profile h) id (zlen payload) = Err e
  | _ => False
  end.
Proof.
  intros Hok Hs. destruct (extension h) eqn:Hx.
  - pose proof (set_existing h id payload Hok Hs Hx) as H. by destruct (set_extension id payload h).
  - destruct (set_first h id payload Hok Hs Hx) as (h' & -> & H). exact H.
Qed.

Definition header_example : Header := mkHeader 2 false false true 96 7 1 2 [] 0 [] 0.

Lemma set_extension_keeps_header_witness :
  match set_extension 3 [1; 2] header_example with
  | Ok h' => header_ok h' /\ extension h' = true /\ fixed_part h' = fixed_part header_example /\
             forall j, get_extension j h' = if decide (j = 3) then Some [1; 2] else get_extension j header_example
  | Err e => extension header_example = true /\ check_extension (extension_profile header_example) 3 (zlen [1; 2]) = Err e
  | _ => False
  end.
Proof.
  apply set_extension_keeps_header.
  - unfold header_ok, extensions_ok, is_u16, is_u32. cbn. split_and!; try lia; try done; constructor.
  - unfold settable. cbn [extension header_example]. change (zlen [1; 2]) with 2. change (get_extension_payload_len header_example) with 0. lia.
Defined.

(** An empty one-byte extension is accepted and panics when the header is written. *)
Lemma empty_extension_panics :
  exists h, set_extension 3 [] header_example = Ok h /\ Header_marshal_to (H := true) h 100 = Panic.
Proof. eexists. split; [reflexivity|]. by vm_compute. Qed.

(** An id the one-byte form cannot carry is accepted for the first extension and written
    as another one. *)
Lemma first_extension_id_unchecked :
  exists h b, set_extension 20 [1] header_example = Ok h /\ marshal (H0 := @Header_MarshalTo true) (E:=MediaError) h = Ok b /\
    (x ← Header_unmarshal b; Ok (get_extension_ids x.1)) = Ok [4].
Proof. eexists _, _. split; [reflexivity|]. split; [by vm_compute|]. by vm_compute. Qed.

(** After the reserved id 15 the rest of the extension block is taken for payload. *)
Lemma reserved_id_leaks_extensions :
  (x ← Packet_unmarshal [144; 96; 0; 1; 0; 0; 0; 2; 0; 0; 0; 3; 190; 222; 0; 1; 240; 1; 2; 3; 42]; Ok (payload x.1)) = Ok [1; 2; 3; 42].
Proof. by vm_compute. Qed.

(** A packet with a whole word of padding among its extensions is decoded, but cannot
    be marshalled again. *)
Lemma extra_padding_breaks_marshal :
  exists h, Header_unmarshal [144; 96; 0; 1; 0; 0; 0; 2; 0; 0; 0; 3; 190; 222; 0; 2; 16; 255; 0; 0; 0; 0; 0; 0] = Ok (h, []) /\
    marshal (H0 := @Header_MarshalTo true) (E:=MediaError) h = Err (MediaOther 20 24).
Proof. eexists. split; [by vm_compute|]. by vm_compute. Qed.
