(* ===== verification/Rtcp.v ===== *)
(** RTCP ([rtc-rtcp]): the common header ([header.rs]) and its codec, padding and bit
    fields ([util.rs]), the trait of packets ([packet.rs]) as a class, and the laws a
    packet type keeps so that it can stand in a datagram with others. *)
From S2P Require Import Prelude Marshal Rtp.

(** * The common header *)

Inductive PacketType :=
| PT_Unsupported | PT_SenderReport | PT_ReceiverReport | PT_SourceDescription | PT_Goodbye | PT_ApplicationDefined
| PT_TransportSpecificFeedback | PT_PayloadSpecificFeedback | PT_ExtendedReport.
#[export] Instance PacketType_eq_dec : EqDecision PacketType.
Proof. solve_decision. Defined.

Definition PacketType_as_u8 (t : PacketType) : Z :=
  match t with
  | PT_Unsupported => 0
  | PT_SenderReport => 200
  | PT_ReceiverReport => 201
  | PT_SourceDescription => 202
  | PT_Goodbye => 203
  | PT_ApplicationDefined => 204
  | PT_TransportSpecificFeedback => 205
  | PT_PayloadSpecificFeedback => 206
  | PT_ExtendedReport => 207
  end.

Definition PacketType_from (b : Z) : PacketType :=
  if b =? 200 then PT_SenderReport
  else if b =? 201 then PT_ReceiverReport
  else if b =? 202 then PT_SourceDescription
  else if b =? 203 then PT_Goodbye
  else if b =? 204 then PT_ApplicationDefined
  else if b =? 205 then PT_TransportSpecificFeedback
  else if b =? 206 then PT_PayloadSpecificFeedback
  else if b =? 207 then PT_ExtendedReport
  else PT_Unsupported.

Definition RTP_VERSION : Z := 2.
Definition COUNT_SHIFT : Z := 0.
Definition COUNT_MASK : Z := 31.
Definition RTCP_HEADER_LENGTH : Z := 4.
Definition COUNT_MAX : Z := 31.
Definition SSRC_LENGTH : Z := 4.

Record RtcpHeader := mkRtcpHeader { rh_padding : bool; rh_count : Z; rh_packet_type : PacketType; rh_length : Z }.

Definition RtcpHeader_marshal_to (h : RtcpHeader) (room : Z) : rtp_result (Z * bytes) :=
  if 31 <? rh_count h then Err InvalidHeader
  else if room <? RTCP_HEADER_LENGTH then Err BufferTooShort
  else
    let b0 := Z.lor (Z.lor (Z.shiftl RTP_VERSION VERSION_SHIFT mod 256) (Z.shiftl (if rh_padding h then 1 else 0) PADDING_SHIFT))
                (Z.shiftl (rh_count h) COUNT_SHIFT) in
    Ok (RTCP_HEADER_LENGTH, put_u8 b0 ++ put_u8 (PacketType_as_u8 (rh_packet_type h)) ++ put_u16 (rh_length h)).

Definition RtcpHeader_unmarshal (raw_packet : bytes) : rtp_result (RtcpHeader * bytes) :=
  if zlen raw_packet <? RTCP_HEADER_LENGTH then Err PacketTooShort
  else
    '(b0, buf) ← get_u8 raw_packet;
    let version := Z.land (Z.shiftr b0 VERSION_SHIFT) VERSION_MASK in
    if negb (version =? RTP_VERSION) then Err BadVersion
    else
      let padding := 0 <? Z.land (Z.shiftr b0 PADDING_SHIFT) PADDING_MASK in
      let count := Z.land (Z.shiftr b0 COUNT_SHIFT) COUNT_MASK in
      '(t, buf) ← get_u8 buf;
      '(length, buf) ← get_u16 buf;
      Ok (mkRtcpHeader padding count (PacketType_from t) length, buf).

#[export] Instance RtcpHeader_MarshalSize : MarshalSize RtcpHeader := mkMarshalSize _ (fun _ => RTCP_HEADER_LENGTH).
#[export] Instance RtcpHeader_MarshalTo : MarshalTo MediaError RtcpHeader := mkMarshalTo _ _ RtcpHeader_marshal_to.
#[export] Instance RtcpHeader_Unmarshal : Unmarshal MediaError RtcpHeader := mkUnmarshal _ _ RtcpHeader_unmarshal.

Definition rtcp_header_ok (h : RtcpHeader) : Prop := 0 <= rh_count h <= 31 /\ is_u16 (rh_length h).

Lemma rtcp_b0_fields (p : bool) c : 0 <= c <= 31 ->
  let b0 := Z.lor (Z.lor (Z.shiftl RTP_VERSION VERSION_SHIFT mod 256) (Z.shiftl (if p then 1 else 0) PADDING_SHIFT)) (Z.shiftl c COUNT_SHIFT) in
  is_u8 b0 /\ Z.land (Z.shiftr b0 VERSION_SHIFT) VERSION_MASK = RTP_VERSION /\
  (0 <? Z.land (Z.shiftr b0 PADDING_SHIFT) PADDING_MASK) = p /\ Z.land (Z.shiftr b0 COUNT_SHIFT) COUNT_MASK = c.
Proof.
  intros Hc b0. assert (H : forall (p : bool) c, 0 <= c < 32 ->
    let b0 := Z.lor (Z.lor (Z.shiftl RTP_VERSION VERSION_SHIFT mod 256) (Z.shiftl (if p then 1 else 0) PADDING_SHIFT)) (Z.shiftl c COUNT_SHIFT) in
    bool_decide (is_u8 b0 /\ Z.land (Z.shiftr b0 VERSION_SHIFT) VERSION_MASK = RTP_VERSION /\
      (0 <? Z.land (Z.shiftr b0 PADDING_SHIFT) PADDING_MASK) = p /\ Z.land (Z.shiftr b0 COUNT_SHIFT) COUNT_MASK = c) = true).
  { intros []; apply (bounded_forall 32); vm_compute; reflexivity. }
  exact (bool_decide_eq_true_1 _ (H p c ltac:(lia))).
Qed.

#[export] Instance RtcpHeader_codec : Codec MediaError RtcpHeader rtcp_header_ok.
Proof.
  split. intros h room [Hc Hl] Hr. cbn [marshal_size marshal_to unmarshal RtcpHeader_MarshalSize RtcpHeader_MarshalTo RtcpHeader_Unmarshal] in *.
  unfold RtcpHeader_marshal_to. rewrite !(proj2 (Z.ltb_ge _ _)) by lia. eexists. split; [reflexivity|]. split; [reflexivity|]. intros r.
  destruct (rtcp_b0_fields (rh_padding h) (rh_count h) Hc) as (Hu & F1 & F2 & F3). cbv zeta in *.
  set (b0 := Z.lor (Z.lor _ _) _) in *. unfold RtcpHeader_unmarshal. rewrite (proj2 (Z.ltb_ge _ _)) by (unfold RTCP_HEADER_LENGTH; zlia).
  rewrite <- !(assoc_L app). rewrite get_put_u8 by done. cbn [mbind outcome_bind]. rewrite F1, F2, F3. cbn [negb Z.eqb RTP_VERSION Pos.eqb].
  assert (Ht : is_u8 (PacketType_as_u8 (rh_packet_type h)) /\ PacketType_from (PacketType_as_u8 (rh_packet_type h)) = rh_packet_type h).
  { by destruct (rh_packet_type h). }
  destruct Ht as [Ht1 Ht2]. rewrite get_put_u8 by done. cbn [mbind outcome_bind]. rewrite get_put_u16 by done. cbn [mbind outcome_bind].
  rewrite Ht2. by destruct h.
Qed.

Lemma post_RtcpHeader_unmarshal raw : bytes_ok raw -> post (RtcpHeader_unmarshal raw) (fun x => rtcp_header_ok x.1 /\ x.2 `suffix_of` raw /\ zlen x.2 = zlen raw - 4).
Proof.
  intros Hok. unfold RtcpHeader_unmarshal, RTCP_HEADER_LENGTH. destruct (Z.ltb_spec (zlen raw) 4); [done|].
  eapply post_bind; [apply post_get_u8; lia|]. intros [b0 l0] E0 [L0 O0]; cbn [fst snd] in *. apply leaves_u8 in E0. destruct (O0 Hok) as [_ K0].
  destruct (negb _); [done|].
  eapply post_bind; [apply post_get_u8; lia|]. intros [t l1] E1 [L1 O1]; cbn [fst snd] in *. apply leaves_u8 in E1. destruct (O1 K0) as [_ K1].
  eapply post_bind; [apply post_get_u16; lia|]. intros [n l2] E2 [L2 O2]; cbn [fst snd] in *. apply leaves_u16 in E2. destruct (O2 K1) as [R2 K2].
  cbn. pose proof (land_bound (Z.shiftr b0 COUNT_SHIFT) 5 ltac:(lia)) as Hc. change (Z.ones 5) with COUNT_MASK in Hc. change (2 ^ 5) with 32 in Hc.
  split; [split; cbn [rh_count rh_length]; [lia|done]|]. split; [etrans; [exact E2|]; by etrans|lia].
Qed.

(** The bytes of a header that is well formed. *)
Definition rtcp_header_bytes (h : RtcpHeader) : bytes :=
  put_u8 (Z.lor (Z.lor (Z.shiftl RTP_VERSION VERSION_SHIFT mod 256) (Z.shiftl (if rh_padding h then 1 else 0) PADDING_SHIFT))
            (Z.shiftl (rh_count h) COUNT_SHIFT)) ++
  put_u8 (PacketType_as_u8 (rh_packet_type h)) ++ put_u16 (rh_length h).

Lemma rtcp_header_write h room : rtcp_header_ok h -> 4 <= room -> RtcpHeader_marshal_to h room = Ok (4, rtcp_header_bytes h).
Proof. intros [Hc _] Hr. unfold RtcpHeader_marshal_to. by rewrite !(proj2 (Z.ltb_ge _ _)) by (unfold RTCP_HEADER_LENGTH; lia). Qed.

Lemma rtcp_header_read h r : rtcp_header_ok h -> RtcpHeader_unmarshal (rtcp_header_bytes h ++ r) = Ok (h, r).
Proof.
  intros Hh. destruct (codec_write (E:=MediaError) (ok:=rtcp_header_ok) h 4 Hh) as (b & Hw & _ & Hr); [done|].
  change (RtcpHeader_marshal_to h 4 = Ok (4, b)) in Hw. rewrite rtcp_header_write in Hw by done. injection Hw as <-. apply Hr.
Qed.

Lemma zlen_rtcp_header_bytes h : zlen (rtcp_header_bytes h) = 4.
Proof. reflexivity. Qed.
#[export] Hint Rewrite zlen_rtcp_header_bytes : zlen.

Lemma rtcp_header_bytes_ok h : bytes_ok (rtcp_header_bytes h).
Proof. unfold rtcp_header_bytes. rewrite !bytes_ok_app. auto with post. Qed.

(** * Padding and bit fields ([util.rs]) *)

Definition rtcp_padding_size (len : Z) : Z := if len mod 4 =? 0 then 0 else 4 - len mod 4.

Definition put_padding (len : Z) : bytes :=
  let padding_size := rtcp_padding_size len in
  flat_map (fun i => if i =? padding_size - 1 then put_u8 padding_size else put_u8 0) (seqZ 0 padding_size).

Definition set_nbits_of_uint16 (src size start_index val : Z) : rtp_result Z :=
  if 16 <? start_index + size then Err InvalidSizeOrStartIndex
  else
    let val := Z.land val (Z.shiftl 1 size - 1) in
    Ok (Z.lor src (as_u16 (Z.shiftl val (16 - size - start_index)))).

Definition append_nbits_to_uint32 (src n val : Z) : Z :=
  Z.lor (as_u32 (Z.shiftl src n)) (Z.land val (Z.shiftr 4294967295 (32 - n))).

Definition get_nbits_from_byte (b begin n : Z) : Z :=
  let end_shift := 8 - (begin + n) in
  let mask := Z.land (Z.shiftr 255 begin) (Z.shiftl 255 end_shift mod 256) in
  Z.shiftr (Z.land b mask) end_shift.

Definition get_24bits_from_bytes (b0 b1 b2 : Z) : Z := Z.shiftl b0 16 + Z.shiftl b1 8 + b2.

Lemma land_low_high a b k : 0 <= k -> 0 <= a < 2 ^ k -> Z.land a (Z.shiftl b k) = 0.
Proof.
  intros Hk Ha. apply Z.bits_inj'. intros n Hn. rewrite Z.land_spec, Z.shiftl_spec, Z.bits_0 by lia. destruct (Z.lt_ge_cases n k).
  - rewrite (Z.testbit_neg_r b) by lia. apply andb_false_r.
  - destruct (decide (a = 0)) as [-> | Hz]; [by rewrite Z.bits_0|]. rewrite (Z.bits_above_log2 a n); [done|lia|].
    apply Z.log2_lt_pow2; [lia|]. eapply Z.lt_le_trans; [apply Ha|]. apply Z.pow_le_mono_r; lia.
Qed.

(** Fields that do not overlap: the word is their sum. *)
Lemma lor_shift a b k : 0 <= k -> 0 <= a < 2 ^ k -> Z.lor a (Z.shiftl b k) = a + b * 2 ^ k.
Proof.
  intros Hk Ha. pose proof (land_low_high a b k Hk Ha) as H. rewrite <- Z.lxor_lor, <- Z.add_nocarry_lxor by done.
  by rewrite Z.shiftl_mul_pow2.
Qed.

Lemma land_255 x : Z.land x 255 = x mod 256.
Proof. exact (Z.land_ones x 8 ltac:(lia)). Qed.

Lemma ones_pred n : 2 ^ n - 1 = Z.ones n.
Proof. rewrite Z.ones_equiv. lia. Qed.

(** A field written below the bits that are set already. *)
Lemma set_nbits_add s size start val : 0 <= size -> 0 <= start -> start + size <= 16 -> 0 <= s * 2 ^ (16 - start) < 65536 -> 0 <= val < 2 ^ size ->
  set_nbits_of_uint16 (s * 2 ^ (16 - start)) size start val = Ok (s * 2 ^ (16 - start) + val * 2 ^ (16 - size - start)).
Proof.
  intros Hs Ht Hst Hsrc Hv. unfold set_nbits_of_uint16. rewrite (proj2 (Z.ltb_ge _ _)) by lia. rewrite Z.shiftl_1_l, (ones_pred size), Z.land_ones, Z.mod_small by lia.
  assert (Hp : 2 ^ (16 - start) = 2 ^ size * 2 ^ (16 - size - start)) by (rewrite <- Z.pow_add_r by lia; f_equal; lia).
  assert (0 < 2 ^ (16 - size - start)) by (apply Z.pow_pos_nonneg; lia). assert (2 ^ (16 - start) <= 65536) by (apply (Z.pow_le_mono_r 2 (16 - start) 16); lia).
  assert (val * 2 ^ (16 - size - start) < 2 ^ size * 2 ^ (16 - size - start)) by (apply Z.mul_lt_mono_pos_r; lia).
  assert (0 <= val * 2 ^ (16 - size - start)) by (apply Z.mul_nonneg_nonneg; lia).
  rewrite Z.shiftl_mul_pow2 by lia. rewrite as_u16_id by (unfold is_u16; lia). f_equal.
  rewrite Z.lor_comm. rewrite <- (Z.shiftl_mul_pow2 s) by lia. rewrite lor_shift by lia. rewrite Z.shiftl_mul_pow2 by lia. lia.
Qed.

Lemma rtcp_padding_bound n : 0 <= rtcp_padding_size n <= 3.
Proof. unfold rtcp_padding_size. destruct (Z.eqb_spec (n mod 4) 0); mlia. Qed.

Lemma rtcp_padding_aligned n : (n + rtcp_padding_size n) mod 4 = 0.
Proof. unfold rtcp_padding_size. destruct (Z.eqb_spec (n mod 4) 0); mlia. Qed.

Lemma padding_multiple n : rtcp_padding_size (n * 4) = 0.
Proof. unfold rtcp_padding_size. by rewrite Z.mod_mul by lia. Qed.

Lemma zlen_put_padding n : zlen (put_padding n) = rtcp_padding_size n.
Proof.
  unfold put_padding. pose proof (rtcp_padding_bound n).
  assert (rtcp_padding_size n = 0 \/ rtcp_padding_size n = 1 \/ rtcp_padding_size n = 2 \/ rtcp_padding_size n = 3) as Hp by lia.
  by destruct Hp as [-> | [-> | [-> | ->]]].
Qed.
#[export] Hint Rewrite zlen_put_padding : zlen.

(** * Packets ([packet.rs]) *)

(** The methods of the trait that depend on the packet; [as_any], [equal] and [cloned] are
    the pattern matching and equality of the model. *)
Class RtcpTrait (T : Type) := mkRtcpTrait { packet_header : T -> RtcpHeader; destination_ssrc : T -> list Z; raw_size : T -> Z }.

(** [marshal_size] of a packet: [raw_size], aligned to 32 bits. *)
Definition padded_size {T} `{RtcpTrait T} (p : T) : Z := raw_size p + rtcp_padding_size (raw_size p).

(** [header] of a packet with a given [raw_size]. *)
Definition padded_header (raw count : Z) (t : PacketType) : RtcpHeader :=
  mkRtcpHeader (negb (rtcp_padding_size raw =? 0)) count t (as_u16 ((raw + rtcp_padding_size raw) / 4 - 1)).

(** [for x in xs { let n = x.marshal_to(buf)?; buf = &mut buf[n..]; }] in a zeroed buffer. *)
Fixpoint write_each {E T} `{MarshalTo E T} (l : list T) (room : Z) : outcome E (Z * bytes) :=
  match l with
  | [] => Ok (0, [])
  | x :: l =>
      '(n, b) ← marshal_to x room;
      if room <? n then Panic
      else '(m, bs) ← write_each l (room - n); Ok (n + m, b ++ zeros (n - zlen b) ++ bs)
  end.

(** What the packets' [marshal_to] share: the header, the body, the padding. *)
Definition put_packet (h : RtcpHeader) (raw size room : Z) (body : rtp_result bytes) : rtp_result (Z * bytes) :=
  '(_, hb) ← RtcpHeader_marshal_to h room;
  b ← body;
  Ok (size, hb ++ b ++ if rh_padding h then put_padding raw else []).

(** * The laws of a packet type *)

(** A packet of the type is written as its header and a body of the length the header
    announces, and is read back from exactly these bytes. *)
Class RtcpCodec (T : Type) `{RtcpTrait T, MarshalSize T, MarshalTo MediaError T, Unmarshal MediaError T} (ok : T -> Prop) : Prop := mkRtcpCodec {
  rtcp_write : forall p room, ok p -> marshal_size p <= room ->
    exists body, marshal_to (E:=MediaError) p room = Ok (marshal_size p, rtcp_header_bytes (packet_header p) ++ body) /\
      rtcp_header_ok (packet_header p) /\ zlen body = 4 * rh_length (packet_header p) /\ marshal_size p = 4 + zlen body /\
      unmarshal (E:=MediaError) (rtcp_header_bytes (packet_header p) ++ body) = Ok (p, [])
}.

(** Whatever the body of a packet that fits a datagram holds, decoding ends without a panic,
    and what it accepts it has read to the end. *)
Class RtcpSafe (T : Type) `{Unmarshal MediaError T} : Prop := mkRtcpSafe {
  rtcp_safe : forall h body, rtcp_header_ok h -> bytes_ok body -> zlen body = 4 * rh_length h -> zlen body < 65536 ->
    post (unmarshal (E:=MediaError) (T:=T) (rtcp_header_bytes h ++ body)) (fun x => x.2 = [])
}.

Lemma padding_bytes raw c t : (if rh_padding (padded_header raw c t) then put_padding raw else []) = put_padding raw.
Proof. cbn [rh_padding padded_header]. unfold put_padding. by destruct (Z.eqb_spec (rtcp_padding_size raw) 0) as [-> |]. Qed.

(** The header of a packet announces the body and its padding. *)
Lemma padded_header_ok raw c t body : raw = 4 + zlen body -> raw + rtcp_padding_size raw <= 262144 -> 0 <= c <= 31 ->
  rtcp_header_ok (padded_header raw c t) /\ zlen (body ++ put_padding raw) = 4 * rh_length (padded_header raw c t).
Proof.
  intros Hr Hb Hc. pose proof (rtcp_padding_aligned raw) as Ha. pose proof (rtcp_padding_bound raw).
  assert (Hl : rh_length (padded_header raw c t) = (raw + rtcp_padding_size raw) / 4 - 1).
  { cbn [rh_length padded_header]. apply as_u16_id. zlen_pos. unfold is_u16. mlia. }
  split; [split; [done|]|]; rewrite Hl; zlen_pos; [unfold is_u16; mlia|]. rewrite zlen_app, zlen_put_padding. mlia.
Qed.

(** How a codec is proved: the bytes of the body, then decoding it behind the header. *)
Lemma put_packet_frame {T} `{RtcpTrait T, Unmarshal MediaError T} (p q : T) c t size room body b :
  packet_header p = padded_header (raw_size p) c t -> size = padded_size p -> body = Ok b ->
  raw_size p = 4 + zlen b -> padded_size p <= 262144 -> 0 <= c <= 31 -> size <= room ->
  (forall h, h = packet_header p -> rtcp_header_ok h -> zlen (b ++ put_padding (raw_size p)) = 4 * rh_length h ->
     unmarshal (E:=MediaError) (rtcp_header_bytes h ++ b ++ put_padding (raw_size p)) = Ok (q, [])) ->
  exists body', put_packet (packet_header p) (raw_size p) size room body = Ok (size, rtcp_header_bytes (packet_header p) ++ body') /\
    rtcp_header_ok (packet_header p) /\ zlen body' = 4 * rh_length (packet_header p) /\ size = 4 + zlen body' /\
    unmarshal (E:=MediaError) (rtcp_header_bytes (packet_header p) ++ body') = Ok (q, []).
Proof.
  intros Eh -> -> Hraw Hsz Hc Hroom Hd. destruct (padded_header_ok (raw_size p) c t b Hraw Hsz Hc) as [Hok Hlen].
  rewrite <- Eh in Hok, Hlen. exists (b ++ put_padding (raw_size p)). unfold put_packet.
  rewrite rtcp_header_write by (try done; unfold padded_size in *; pose proof (rtcp_padding_bound (raw_size p)); zlia).
  cbn [mbind outcome_bind]. split; [by rewrite Eh, padding_bytes|]. split_and!; try done.
  - unfold padded_size. zlia.
  - by apply Hd.
Qed.

#[export] Instance rtcp_closed {T} `{RtcpCodec T ok} : ClosedCodec MediaError T ok.
Proof.
  split. intros p room Hp Hr. destruct (rtcp_write p room Hp Hr) as (body & Hw & _ & _ & Hl & Hu).
  eexists. split; [exact Hw|]. split; [zlia|exact Hu].
Qed.

(** Checks of the announced length and type at the start of a decoder. *)
Lemma ltb_false a b : b <= a -> (a <? b) = false.
Proof. apply Z.ltb_ge. Qed.

(** Reads back what was just written: an integer field, or the comparison of a length. *)
Ltac read_back :=
  repeat first
    [ rewrite <- !(assoc_L app)
    | rewrite get_put_u8 by (try done; unfold_ints; lia) | rewrite get_put_u16 by (try done; unfold_ints; lia)
    | rewrite get_put_u32 by (try done; unfold_ints; lia)
    | progress cbn [mbind outcome_bind negb orb andb] ].

Lemma write_each_codec {T} `{Codec MediaError T ok} l : forall room, Forall ok l -> zsum marshal_size l <= room ->
  exists b, write_each (E:=MediaError) l room = Ok (zsum marshal_size l, b) /\ zlen b = zsum marshal_size l /\
    forall r, read_n (unmarshal (E:=MediaError)) (length l) (b ++ r) = Ok (l, r).
Proof.
  induction l as [|x l IH]; intros room Hl Hr; [by exists []|]. apply Forall_cons in Hl as [Hx Hl]. rewrite zsum_cons in Hr.
  assert (Hnn : 0 <= zsum marshal_size l).
  { clear -Hl H2. induction Hl as [|y l Hy Hl IH]; [done|]. rewrite zsum_cons. destruct (codec_write y _ Hy (Z.le_refl _)) as (b & _ & Hb & _). zlen_pos. lia. }
  destruct (codec_write (E:=MediaError) x room Hx) as (b & Hw & Hb & Hu); [lia|].
  destruct (IH (room - marshal_size x) Hl) as (bs & Hws & Hbs & Hus); [lia|].
  cbn [write_each]. rewrite Hw. cbn [mbind outcome_bind]. rewrite ltb_false by lia. rewrite Hws. cbn [mbind outcome_bind].
  replace (zeros (marshal_size x - zlen b)) with (@nil Z) by (rewrite Hb, Z.sub_diag; done). cbn [app].
  eexists. split; [done|]. split; [rewrite zlen_app; cbn [zsum foldr]; change (foldr _ _ l) with (zsum marshal_size l); lia|].
  intros r. cbn [length read_n]. rewrite <- (assoc_L app), Hu. cbn [mbind outcome_bind]. rewrite Hus. done.
Qed.

(** A packet whose size is a multiple of four has no padding. *)
Lemma no_padding raw : raw mod 4 = 0 -> rtcp_padding_size raw = 0 /\ put_padding raw = [].
Proof. intros H. unfold put_padding, rtcp_padding_size. by rewrite H. Qed.

(** A count of at most 31 survives [as u8]. *)
Lemma count_u8 {A} (l : list A) : zlen l <= 31 -> zlen l mod 256 = zlen l /\ 0 <= zlen l mod 256 <= 31.
Proof. intros. zlen_pos. rewrite Z.mod_small by lia. lia. Qed.

(** [post_step] with the other reads of a buffer. *)
Ltac buf_step :=
  cbn zeta beta;
  lazymatch goal with
  | |- post (get_u64 _ ≫= _) _ => eapply post_bind; [apply post_get_u64; zlia | intros [? ?] _ [? ?]; cbn [fst snd] in *]
  | |- post (copy_to_bytes _ _ ≫= _) _ => eapply post_bind; [apply post_copy; zlia | intros [? ?] _ (? & ? & ?); cbn [fst snd] in *]
  | |- _ => post_step
  end.
Ltac bool_lia := repeat match goal with
  | H : (_ <? _) = false |- _ => apply Z.ltb_ge in H
  | H : (_ <? _) = true |- _ => apply Z.ltb_lt in H
  | H : (_ <=? _) = false |- _ => apply Z.leb_gt in H
  | H : (_ <=? _) = true |- _ => apply Z.leb_le in H
  end.
