(* ===== verification/Bitmap.v ===== *)
(** Circular receipt bitmaps of the interceptors ([rtc-interceptor/src/bitmap.rs]):
    one bit per sequence number in a vector of 64-bit_at words whose capacity is a power
    of two.  The operations split a circular range at the wrap and work a word at a
    time; the theorems say that they compute what a walk over the single bits does.
    A closure that returns [ControlFlow] is a function of the state it captures:
    [Ok] for [Continue], [Err] for [Break]. *)
From S2P Require Import Prelude Marshal Rtp.

Definition WORD_BITS : Z := 64.
Definition U64_MAX : Z := Z.ones 64.

(** * The [u64] operations of the standard library *)

Definition not_u64 (x : Z) : Z := Z.land (Z.lnot x) U64_MAX.
Definition shl_u64 (x n : Z) : Z := as_u64 (Z.shiftl x n).

Fixpoint trailing_zeros_pos (p : positive) : Z :=
  match p with xO q => 1 + trailing_zeros_pos q | _ => 0 end.
Definition trailing_zeros (x : Z) : Z := match x with Zpos p => trailing_zeros_pos p | _ => WORD_BITS end.

Fixpoint count_ones_pos (p : positive) : Z :=
  match p with xO q => count_ones_pos q | xI q => 1 + count_ones_pos q | xH => 1 end.
Definition count_ones (x : Z) : Z := match x with Zpos p => count_ones_pos p | _ => 0 end.
Definition word_count_zeros (x : Z) : Z := WORD_BITS - count_ones x.

Definition is_power_of_two (x : Z) : bool := (0 <? x) && (Z.land x (x - 1) =? 0).

(** [debug_assert!]: a panic only where the build has debug assertions. *)
Class DebugAssertions := debug_assertions : bool.
Definition debug_assert `{DebugAssertions} {E} (c : bool) : outcome E unit :=
  if debug_assertions && negb c then Panic else Ok tt.

(** [words[i]], which panics out of range. *)
Definition word_at {E} (words : list Z) (i : Z) : outcome E Z :=
  if i <? 0 then Panic else match words !! Z.to_nat i with Some w => Ok w | None => Panic end.

(** A [for] loop over a list whose body may break. *)
Fixpoint foldM {E S A} (f : A -> S -> outcome E S) (l : list A) (s : S) : outcome E S :=
  match l with [] => Ok s | x :: r => s' ← f x s; foldM f r s' end.

(** * The operations *)

Section bitmap.
Context `{DebugAssertions, OverflowChecks}.

(** The [while] loop of [for_each_segment]; a pass covers at least one bit. *)
Fixpoint segment_loop {B S} (fuel : nat) (capacity bit offset len : Z) (f : Z -> Z -> Z -> S -> outcome B S) (s : S) : outcome B S :=
  if offset <? len then
    match fuel with
    | O => Diverge
    | Datatypes.S fuel =>
        let n := Z.min (len - offset) (capacity - bit) in
        s' ← f bit n offset s;
        segment_loop fuel capacity 0 (offset + n) len f s'
    end
  else Ok s.

Definition for_each_segment {B S} (words start len : Z) (f : Z -> Z -> Z -> S -> outcome B S) (s : S) : outcome B S :=
  let capacity := words * WORD_BITS in
  _ ← debug_assert (is_power_of_two capacity);
  segment_loop (Z.to_nat len) capacity (Z.land start (capacity - 1)) 0 len f s.

Definition for_each_word {B S} (start len : Z) (f : Z -> Z -> S -> outcome B S) (s : S) : outcome B S :=
  _ ← debug_assert (1 <=? len);
  let end_ := start + len in
  let first := start / WORD_BITS in
  let last := (end_ - 1) / WORD_BITS in
  let head := shl_u64 U64_MAX (start mod WORD_BITS) in
  let tail := Z.shiftr U64_MAX (WORD_BITS - 1 - (end_ - 1) mod WORD_BITS) in
  if first =? last then f first (Z.land head tail) s
  else
    s ← f first head s;
    s ← foldM (fun word => f word U64_MAX) (seqZ (first + 1) (last - (first + 1))) s;
    f last tail s.

Definition add_u32 {E} (a b : Z) : outcome E Z := add_ovf overflow_checks U32 a b.

Definition count_zeros_linear {E} (words : list Z) (start len : Z) : outcome E Z :=
  let end_ := start + len in
  let first := start / WORD_BITS in
  let last := (end_ - 1) / WORD_BITS in
  let head := shl_u64 U64_MAX (start mod WORD_BITS) in
  let tail := Z.shiftr U64_MAX (WORD_BITS - 1 - (end_ - 1) mod WORD_BITS) in
  w ← word_at words first;
  if first =? last then Ok (count_ones (Z.land (Z.land (not_u64 w) head) tail))
  else
    middle ← slice words (first + 1) last;
    full ← foldM (fun word n => add_u32 n (word_count_zeros word)) middle 0;
    z ← add_u32 (count_ones (Z.land (not_u64 w) head)) full;
    w' ← word_at words last;
    add_u32 z (count_ones (Z.land (not_u64 w') tail)).

Definition count_zeros {E} (words : list Z) (start len : Z) : outcome E Z :=
  for_each_segment (zlen words) start len (fun start len _ zeros =>
    n ← count_zeros_linear words start len; add_u32 zeros n) 0.

(** [while zeros != 0]: the body on the lowest set bit, which is then cleared. *)
Fixpoint each_set_bit {B S} (fuel : nat) (zeros : Z) (f : Z -> S -> outcome B S) (s : S) : outcome B S :=
  if zeros =? 0 then Ok s
  else match fuel with
       | O => Diverge
       | Datatypes.S fuel => s' ← f (trailing_zeros zeros) s; each_set_bit fuel (Z.land zeros (zeros - 1)) f s'
       end.

Definition for_each_zero {E S} (words : list Z) (start len : Z) (f : Z -> S -> S) (s : S) : outcome E S :=
  for_each_segment (zlen words) start len (fun start len offset s =>
    for_each_word start len (fun word mask s =>
      w ← word_at words word;
      let zeros := Z.land (not_u64 w) mask in
      each_set_bit 64 zeros (fun tz s =>
        let bit := word * WORD_BITS + tz in
        Ok (f (offset + (bit - start)) s)) s) s) s.

(** [Err offset] is [Break]: the clear bit found. *)
Definition first_zero {E} (words : list Z) (start len : Z) : outcome E (option Z) :=
  let len := Z.min len (zlen words * WORD_BITS) in
  match for_each_segment (zlen words) start len (fun start len offset s =>
          for_each_word start len (fun word mask s =>
            w ← word_at words word;
            let zeros := Z.land (not_u64 w) mask in
            if zeros =? 0 then Ok s
            else
              let bit := word * WORD_BITS + trailing_zeros zeros in
              Err (offset + (bit - start))) s) tt
  with
  | Err offset => Ok (Some offset)
  | Ok _ => Ok None
  | Panic => Panic
  | Diverge => Diverge
  end.

Definition fill_zero {E} (words : list Z) (a b : Z) : outcome E (list Z) :=
  m ← slice words a b;
  Ok (take (Z.to_nat a) words ++ replicate (length m) 0 ++ drop (Z.to_nat b) words).

Definition clear_linear {E} (words : list Z) (start len : Z) : outcome E (list Z) :=
  let end_ := start + len in
  let first := start / WORD_BITS in
  let last := (end_ - 1) / WORD_BITS in
  let head := shl_u64 U64_MAX (start mod WORD_BITS) in
  let tail := Z.shiftr U64_MAX (WORD_BITS - 1 - (end_ - 1) mod WORD_BITS) in
  w ← word_at words first;
  if first =? last then Ok (<[Z.to_nat first := Z.land w (not_u64 (Z.land head tail))]> words)
  else
    let words := <[Z.to_nat first := Z.land w (not_u64 head)]> words in
    words ← fill_zero words (first + 1) last;
    w' ← word_at words last;
    Ok (<[Z.to_nat last := Z.land w' (not_u64 tail)]> words).

Definition clear {E} (words : list Z) (start len : Z) : outcome E (list Z) :=
  if zlen words * WORD_BITS <=? len then Ok (replicate (length words) 0)
  else for_each_segment (zlen words) start len (fun start len _ words => clear_linear words start len) words.
End bitmap.

(** * Single words *)

(** The positions of the set bits of a word, in ascending order. *)
Definition ones (x : Z) : list Z := filter (fun b => Z.testbit x b = true) (seqZ 0 64).

Lemma testbit_U64_MAX b : 0 <= b -> Z.testbit U64_MAX b = (b <? 64).
Proof. intros. unfold U64_MAX. rewrite Z.testbit_ones_nonneg by lia. done. Qed.

Lemma testbit_not_u64 x b : 0 <= b < 64 -> Z.testbit (not_u64 x) b = negb (Z.testbit x b).
Proof.
  intros. unfold not_u64. rewrite Z.land_spec, Z.lnot_spec, testbit_U64_MAX by lia.
  rewrite (proj2 (Z.ltb_lt b 64)) by lia. apply andb_true_r.
Qed.

Lemma testbit_head k b : 0 <= k < 64 -> 0 <= b < 64 -> Z.testbit (shl_u64 U64_MAX k) b = (k <=? b).
Proof.
  intros. unfold shl_u64, as_u64. change 18446744073709551616 with (2 ^ 64).
  rewrite Z.mod_pow2_bits_low, Z.shiftl_spec by lia. destruct (Z.leb_spec k b).
  - rewrite testbit_U64_MAX by lia. apply Z.ltb_lt. lia.
  - apply Z.testbit_neg_r. lia.
Qed.

Lemma testbit_tail k b : 0 <= k < 64 -> 0 <= b < 64 -> Z.testbit (Z.shiftr U64_MAX (WORD_BITS - 1 - k)) b = (b <=? k).
Proof.
  intros. unfold WORD_BITS. rewrite Z.shiftr_spec, testbit_U64_MAX by lia.
  destruct (Z.ltb_spec (b + (64 - 1 - k)) 64), (Z.leb_spec b k); lia.
Qed.

(** [w & (w - 1)] clears exactly the bit that [trailing_zeros] finds. *)
Lemma land_pred_double z : Z.land (2 * z) (2 * z - 1) = 2 * Z.land z (z - 1).
Proof.
  replace (2 * z - 1) with (2 * (z - 1) + 1) by lia. apply Z.bits_inj'. intros n Hn. rewrite Z.land_spec.
  destruct (Z.eq_dec n 0) as [->|Hn0]; [by rewrite !Z.testbit_even_0|].
  replace n with (Z.succ (n - 1)) by lia. rewrite !Z.testbit_even_succ, Z.testbit_odd_succ by lia. by rewrite Z.land_spec.
Qed.

Lemma land_pred_odd z : Z.land (2 * z + 1) (2 * z + 1 - 1) = 2 * z.
Proof.
  replace (2 * z + 1 - 1) with (2 * z) by lia. apply Z.bits_inj'. intros n Hn. rewrite Z.land_spec.
  destruct (Z.eq_dec n 0) as [->|Hn0]; [by rewrite !Z.testbit_even_0, andb_false_r|].
  replace n with (Z.succ (n - 1)) by lia. rewrite !Z.testbit_even_succ, Z.testbit_odd_succ by lia. apply andb_diag.
Qed.

Lemma trailing_zeros_spec p :
  0 <= trailing_zeros_pos p /\ Z.testbit (Zpos p) (trailing_zeros_pos p) = true /\
  (forall b, 0 <= b < trailing_zeros_pos p -> Z.testbit (Zpos p) b = false) /\
  forall b, 0 <= b -> Z.testbit (Z.land (Zpos p) (Zpos p - 1)) b = Z.testbit (Zpos p) b && negb (b =? trailing_zeros_pos p).
Proof.
  induction p as [p _|p (I0 & I1 & I2 & I3)|]; cbn [trailing_zeros_pos].
  - split; [lia|]. split; [done|]. split; [lia|]. intros b Hb. rewrite (Pos2Z.inj_xI p), land_pred_odd.
    destruct (Z.eqb_spec b 0) as [->|]; [by rewrite Z.testbit_even_0, andb_false_r|].
    replace b with (Z.succ (b - 1)) by lia. by rewrite Z.testbit_even_succ, Z.testbit_odd_succ, andb_true_r by lia.
  - rewrite (Pos2Z.inj_xO p), land_pred_double. replace (1 + trailing_zeros_pos p) with (Z.succ (trailing_zeros_pos p)) by lia.
    split; [lia|]. split; [by rewrite Z.testbit_even_succ|]. split.
    + intros b Hb. destruct (Z.eq_dec b 0) as [->|]; [apply Z.testbit_even_0|]. replace b with (Z.succ (b - 1)) by lia.
      rewrite Z.testbit_even_succ by lia. apply I2. lia.
    + intros b Hb. destruct (Z.eq_dec b 0) as [->|]; [by rewrite !Z.testbit_even_0|]. replace b with (Z.succ (b - 1)) by lia.
      rewrite !Z.testbit_even_succ, I3 by lia. destruct (Z.testbit (Zpos p) (b - 1)); [cbn [andb]|done].
      f_equal. destruct (Z.eqb_spec (b - 1) (trailing_zeros_pos p)), (Z.eqb_spec (Z.succ (b - 1)) (Z.succ (trailing_zeros_pos p))); lia.
  - split; [lia|]. split; [done|]. split; [lia|]. intros b Hb. destruct (Z.eqb_spec b 0) as [->|]; [done|].
    rewrite Z.bits_0, andb_true_r. symmetry. change 1 with (2 ^ 0). apply Z.pow2_bits_false. lia.
Qed.

Lemma count_ones_double z : 0 <= z -> count_ones (2 * z) = count_ones z.
Proof. by destruct z. Qed.

Lemma count_ones_step p : count_ones (Zpos p) = 1 + count_ones (Z.land (Zpos p) (Zpos p - 1)).
Proof.
  induction p as [p _|p IH|].
  - by rewrite (Pos2Z.inj_xI p), land_pred_odd.
  - rewrite (Pos2Z.inj_xO p), land_pred_double, !count_ones_double; [exact IH| |lia]. apply Z.land_nonneg. lia.
  - reflexivity.
Qed.

Lemma ones_0 : ones 0 = [].
Proof. reflexivity. Qed.

Lemma filter_none {A} (P : A -> Prop) `{forall x, Decision (P x)} (l : list A) : (forall x, x ∈ l -> ~ P x) -> filter P l = [].
Proof.
  induction l as [|x l IH]; intros Hn; [done|]. rewrite filter_cons, decide_False by (apply Hn; set_solver).
  apply IH. intros y Hy. apply Hn. set_solver.
Qed.

Lemma filter_same {A} (P Q : A -> Prop) `{forall x, Decision (P x)} `{forall x, Decision (Q x)} (l : list A) :
  (forall x, x ∈ l -> P x <-> Q x) -> filter P l = filter Q l.
Proof.
  induction l as [|x l IH]; intros Hn; [done|]. rewrite !filter_cons. rewrite IH by (intros y Hy; apply Hn; set_solver).
  specialize (Hn x ltac:(set_solver)). do 2 case_decide; tauto.
Qed.

Lemma land_lt_pow2 x y n : 0 <= n -> 0 <= x < 2 ^ n -> Z.land x y < 2 ^ n.
Proof.
  intros Hn Hx. rewrite <- (Z.mod_small x (2 ^ n)), <- Z.land_ones by lia.
  rewrite <- Z.land_assoc, (Z.land_comm (Z.ones n)), Z.land_assoc. apply land_bound. lia.
Qed.

Lemma ones_step x : 0 <= x < 2 ^ 64 -> x <> 0 ->
  ones x = trailing_zeros x :: ones (Z.land x (x - 1)) /\ 0 <= Z.land x (x - 1) < 2 ^ 64 /\ 0 <= trailing_zeros x < 64.
Proof.
  intros Hx Hx0. destruct x as [|p|p]; try lia. cbn [trailing_zeros]. destruct (trailing_zeros_spec p) as (T0 & T1 & T2 & T3).
  set (t := trailing_zeros_pos p) in *. assert (Ht : t < 64).
  { destruct (Z.ltb_spec t 64); [done|]. rewrite Z.testbit_eqb in T1 by lia.
    pose proof (Z.pow_le_mono_r 2 64 t ltac:(lia) ltac:(lia)). rewrite Z.div_small in T1 by lia. done. }
  split.
  - unfold ones. replace 64 with (t + (1 + (63 - t))) by lia. rewrite !seqZ_app, !filter_app by lia. rewrite Z.add_0_l.
    rewrite (filter_none _ (seqZ 0 t)) by (intros b Hb%elem_of_seqZ; rewrite T2 by lia; done).
    rewrite (filter_none _ (seqZ 0 t)) by (intros b Hb%elem_of_seqZ; rewrite T3, T2 by lia; done).
    change (seqZ t 1) with [t]. rewrite !filter_cons, !filter_nil, T1, decide_True by done. cbn [app].
    rewrite T3, Z.eqb_refl, andb_false_r, decide_False by done. f_equal. apply filter_same. intros b Hb%elem_of_seqZ.
    rewrite T3 by lia. destruct (Z.eqb_spec b t); [lia|]. by rewrite andb_true_r.
  - split; [|lia]. split; [apply Z.land_nonneg; lia|].
    apply land_lt_pow2; lia.
Qed.

Lemma length_ones x : (length (ones x) <= 64)%nat.
Proof. unfold ones. etrans; [apply length_filter|]. by rewrite length_seqZ. Qed.

Lemma each_set_bit_fold {B S} (f : Z -> S -> outcome B S) fuel x s :
  0 <= x < 2 ^ 64 -> (length (ones x) <= fuel)%nat -> each_set_bit fuel x f s = foldM f (ones x) s.
Proof.
  revert x s. induction fuel as [|fuel IH]; intros x s Hx Hf; cbn [each_set_bit]; destruct (Z.eqb_spec x 0) as [->|Hx0]; try done;
    destruct (ones_step x Hx Hx0) as (E & Hy & _); rewrite E in Hf |- *; cbn [length] in Hf; [lia|].
  cbn [foldM]. destruct (f (trailing_zeros x) s) as [s'| | |]; [|done..]. cbn [mbind outcome_bind]. apply IH; [done|lia].
Qed.

Lemma count_ones_length x : 0 <= x < 2 ^ 64 -> count_ones x = zlen (ones x).
Proof.
  intros Hx. remember (length (ones x)) as n eqn:Hn. revert x Hx Hn. induction n as [|n IH]; intros x Hx Hn;
    (destruct (Z.eq_dec x 0) as [->|Hx0]; [done|]); destruct (ones_step x Hx Hx0) as (E & Hy & _);
    rewrite E in Hn |- *; cbn [length] in Hn; [lia|].
  rewrite zlen_cons. rewrite <- IH by (lia || done). destruct x as [|p|p]; [lia|apply count_ones_step|lia].
Qed.

(** * Ranges of bits *)

Definition words_ok (words : list Z) : Prop := Forall is_u64 words.

(** The bit at a position, and the clear positions of a linear range. *)
Definition bit_at (words : list Z) (p : Z) : bool := Z.testbit (nth (Z.to_nat (p / 64)) words 0) (p mod 64).
Definition zeros_in (words : list Z) (a n : Z) : list Z := filter (fun p => bit_at words p = false) (seqZ a n).

Section foldM_laws.
Context {E S A : Type}.
Implicit Type f : A -> S -> outcome E S.

Lemma foldM_app f l1 l2 s : foldM f (l1 ++ l2) s = (s' ← foldM f l1 s; foldM f l2 s').
Proof. revert s. induction l1 as [|x l1 IH]; intros s; [done|]. cbn. destruct (f x s); cbn; [apply IH|done..]. Qed.

Lemma foldM_fmap {B} (g : B -> A) f l s : foldM f (g <$> l) s = foldM (fun x => f (g x)) l s.
Proof. revert s. induction l as [|x l IH]; intros s; [done|]. cbn. destruct (f (g x) s); cbn; [apply IH|done..]. Qed.

Lemma foldM_ext f g l s : (forall x s, x ∈ l -> f x s = g x s) -> foldM f l s = foldM g l s.
Proof.
  revert s. induction l as [|x l IH]; intros s Hx; [done|]. cbn. rewrite Hx by set_solver.
  destruct (g x s); cbn; [|done..]. apply IH. intros y t Hy. apply Hx. set_solver.
Qed.
End foldM_laws.

Lemma filter_fmap {A B} (f : A -> B) (P : B -> Prop) `{forall x, Decision (P x)} (l : list A) :
  filter P (f <$> l) = f <$> filter (fun x => P (f x)) l.
Proof. induction l as [|x l IH]; [done|]. rewrite fmap_cons, !filter_cons. case_decide; by rewrite IH. Qed.

Section ranges.
Context (words : list Z) (Hok : words_ok words).

Lemma word_at_Ok {E} w : 0 <= w < zlen words ->
  word_at (E:=E) words w = Ok (nth (Z.to_nat w) words 0) /\ is_u64 (nth (Z.to_nat w) words 0).
Proof using Hok.
  intros Hw. unfold word_at. destruct (Z.ltb_spec w 0); [lia|]. destruct (words !! Z.to_nat w) as [x|] eqn:E'.
  - rewrite (nth_lookup_Some _ _ _ _ E'). split; [done|]. exact (Forall_lookup_1 _ _ _ _ Hok E').
  - apply lookup_ge_None in E'. unfold zlen in Hw. lia.
Qed.

Lemma zeros_in_app a n m : 0 <= n -> 0 <= m -> zeros_in words a (n + m) = zeros_in words a n ++ zeros_in words (a + n) m.
Proof. intros. unfold zeros_in. by rewrite seqZ_app, filter_app by lia. Qed.

(** The bits that a mask selects in one word. *)
Lemma zeros_in_word w lo hi z : 0 <= w -> 0 <= lo -> lo <= hi <= 64 ->
  (forall b, 0 <= b < 64 -> Z.testbit z b = negb (Z.testbit (nth (Z.to_nat w) words 0) b) && (lo <=? b) && (b <? hi)) ->
  zeros_in words (w * 64 + lo) (hi - lo) = Z.add (w * 64) <$> ones z.
Proof.
  intros Hw Hlo Hhi Hz. unfold ones. replace (seqZ 0 64) with (seqZ 0 (lo + ((hi - lo) + (64 - hi)))) by (f_equal; lia). rewrite !seqZ_app, !filter_app by lia.
  rewrite (filter_none _ (seqZ 0 lo)), (filter_none _ (seqZ (0 + lo + (hi - lo)) _)).
  2-3: intros b Hb%elem_of_seqZ; rewrite Hz by lia; destruct (Z.leb_spec lo b), (Z.ltb_spec b hi); try lia; rewrite ?andb_false_r; done.
  rewrite app_nil_r, app_nil_l, Z.add_0_l. unfold zeros_in. rewrite <- (fmap_add_seqZ (w * 64) lo), filter_fmap. f_equal.
  apply filter_same. intros b Hb%elem_of_seqZ. rewrite Hz by lia. unfold bit_at.
  replace ((w * 64 + b) / 64) with w by mlia. replace ((w * 64 + b) mod 64) with b by mlia.
  rewrite (proj2 (Z.leb_le _ _)), (proj2 (Z.ltb_lt _ _)) by lia. rewrite !andb_true_r. by destruct (Z.testbit _ b).
Qed.

Lemma land_not_u64 x y : is_u64 (Z.land (not_u64 x) y) .
Proof using.
  unfold is_u64, not_u64. change 18446744073709551616 with (2 ^ 64). rewrite <- Z.land_assoc, (Z.land_comm U64_MAX), Z.land_assoc.
  apply land_bound. lia.
Qed.

(** Where the masks of the first and the last word cut a range. *)
#[local] Abbreviation word w := (nth (Z.to_nat w) words 0).
Lemma zeros_in_parts start len : 0 <= start -> 1 <= len -> start + len <= zlen words * 64 ->
  let first := start / WORD_BITS in
  let last := (start + len - 1) / WORD_BITS in
  let head := shl_u64 U64_MAX (start mod WORD_BITS) in
  let tail := Z.shiftr U64_MAX (WORD_BITS - 1 - (start + len - 1) mod WORD_BITS) in
  0 <= first <= last /\ last < zlen words /\
  zeros_in words start len =
    if first =? last then Z.add (first * 64) <$> ones (Z.land (not_u64 (word first)) (Z.land head tail))
    else (Z.add (first * 64) <$> ones (Z.land (not_u64 (word first)) head)) ++
         zeros_in words ((first + 1) * 64) ((last - (first + 1)) * 64) ++
         (Z.add (last * 64) <$> ones (Z.land (not_u64 (word last)) tail)).
Proof.
  intros Hs Hl He. cbv zeta. change (start / WORD_BITS) with (start / 64). change (start mod WORD_BITS) with (start mod 64).
  change ((start + len - 1) / WORD_BITS) with ((start + len - 1) / 64). change ((start + len - 1) mod WORD_BITS) with ((start + len - 1) mod 64).
  set (first := start / 64). set (last := (start + len - 1) / 64).
  pose proof (Z.mod_pos_bound start 64 ltac:(lia)) as M1. pose proof (Z.mod_pos_bound (start + len - 1) 64 ltac:(lia)) as M2.
  pose proof (Z.div_mod start 64 ltac:(lia)) as D1. pose proof (Z.div_mod (start + len - 1) 64 ltac:(lia)) as D2.
  fold first in D1. fold last in D2. set (lo := start mod 64) in *. set (hi := (start + len - 1) mod 64) in *.
  assert (Hle : first <= last) by (apply Z.div_le_mono; lia). split; [lia|]. split; [lia|].
  destruct (Z.eqb_spec first last) as [Heq|Hne].
  - rewrite <- (zeros_in_word first lo (hi + 1)); [f_equal; lia|lia..|]. intros b Hb.
    rewrite !Z.land_spec, testbit_not_u64, testbit_head, testbit_tail by lia. rewrite andb_assoc. f_equal.
    destruct (Z.leb_spec b hi), (Z.ltb_spec b (hi + 1)); lia.
  - rewrite <- (zeros_in_word first lo 64).
    2-4: lia. 2: { intros b Hb. rewrite Z.land_spec, testbit_not_u64, testbit_head by lia. destruct (Z.ltb_spec b 64); [by rewrite andb_true_r|lia]. }
    rewrite <- (zeros_in_word last 0 (hi + 1)).
    2-4: lia. 2: { intros b Hb. rewrite Z.land_spec, testbit_not_u64, testbit_tail by lia. destruct (Z.leb_spec 0 b); [|lia].
      rewrite andb_true_r. f_equal. destruct (Z.leb_spec b hi), (Z.ltb_spec b (hi + 1)); lia. }
    replace len with ((64 - lo) + ((last - (first + 1)) * 64 + (hi + 1))) by lia.
    rewrite (zeros_in_app start), (zeros_in_app (start + _)) by lia. f_equal; [f_equal; lia|]. f_equal; f_equal; lia.
Qed.

Lemma zeros_in_full w : 0 <= w -> zeros_in words (w * 64) 64 = Z.add (w * 64) <$> ones (not_u64 (word w)).
Proof.
  intros Hw. rewrite <- (zeros_in_word w 0 64); [f_equal; lia|lia..|]. intros b Hb. rewrite testbit_not_u64 by lia.
  rewrite (proj2 (Z.leb_le _ _)), (proj2 (Z.ltb_lt _ _)) by lia. by rewrite !andb_true_r.
Qed.

Lemma land_not_max x : Z.land (not_u64 x) U64_MAX = not_u64 x.
Proof. unfold not_u64. by rewrite <- Z.land_assoc, Z.land_diag. Qed.

Section fold.
Context `{DebugAssertions} {B S : Type} (h : Z -> Z -> S -> outcome B S) (g : Z -> S -> outcome B S).
Hypothesis Hh : forall word mask s w, word_at (E:=B) words word = Ok w ->
  h word mask s = foldM (fun b => g (word * 64 + b)) (ones (Z.land (not_u64 w) mask)) s.

Lemma word_fold w mask s : 0 <= w < zlen words ->
  h w mask s = foldM g (Z.add (w * 64) <$> ones (Z.land (not_u64 (word w)) mask)) s.
Proof using Hh Hok. intros Hw. destruct (word_at_Ok (E:=B) w Hw) as [E _]. by rewrite (Hh _ _ _ _ E), foldM_fmap. Qed.

Lemma full_words_fold a n s : 0 <= a -> 0 <= n -> a + n <= zlen words ->
  foldM (fun word => h word U64_MAX) (seqZ a n) s = foldM g (zeros_in words (a * 64) (n * 64)) s.
Proof using Hh Hok.
  intros Ha Hn. revert a s Ha. pattern n. apply natlike_ind; [| |done].
  - intros a s _ _. reflexivity.
  - clear n Hn. intros n Hn IH a s Ha Hl. rewrite seqZ_cons by lia. replace (Z.pred (Z.succ n)) with n by lia.
    replace (Z.succ n * 64) with (64 + n * 64) by lia. rewrite zeros_in_app, foldM_app, zeros_in_full by lia. cbn [foldM].
    rewrite word_fold, land_not_max by lia. destruct (foldM g (_ <$> _) s) as [s'| | |]; [|done..].
    cbn [mbind outcome_bind]. replace (a * 64 + 64) with (Z.succ a * 64) by lia. apply IH; lia.
Qed.

Lemma for_each_word_fold start len s : 0 <= start -> 1 <= len -> start + len <= zlen words * 64 ->
  for_each_word start len h s = foldM g (zeros_in words start len) s.
Proof using Hh Hok.
  intros Hs Hl He. unfold for_each_word, debug_assert. rewrite (proj2 (Z.leb_le 1 len)) by lia. rewrite andb_false_r.
  cbn [mbind outcome_bind]. destruct (zeros_in_parts start len Hs Hl He) as (Hf & Hla & ->).
  set (first := start / WORD_BITS) in *. set (last := (start + len - 1) / WORD_BITS) in *.
  destruct (Z.eqb_spec first last) as [Heq|Hne]; [apply word_fold; lia|].
  rewrite foldM_app, word_fold by lia. destruct (foldM g (_ <$> _) s) as [s1| | |]; [|done..].
  cbn [mbind outcome_bind]. rewrite foldM_app, full_words_fold by lia.
  destruct (foldM g (zeros_in _ _ _) s1) as [s2| | |]; [|done..]. cbn [mbind outcome_bind]. apply word_fold. lia.
Qed.
End fold.
End ranges.

(** * Circular ranges *)

(** A bitmap: [u64] words, a power of two of them. *)
Definition bitmap_ok (words : list Z) : Prop := words_ok words /\ exists k, 6 <= k /\ zlen words * 64 = 2 ^ k.

(** The walk over single bits: the offsets in [off .. off + n] of the clear bits of the
    circular range that starts at [start], re-reads included. *)
Definition zero_offsets (words : list Z) (start off n : Z) : list Z :=
  filter (fun o => bit_at words ((start + o) mod (zlen words * 64)) = false) (seqZ off n).

Lemma zero_offsets_app words start a n m : 0 <= n -> 0 <= m ->
  zero_offsets words start a (n + m) = zero_offsets words start a n ++ zero_offsets words start (a + n) m.
Proof. intros. unfold zero_offsets. by rewrite seqZ_app, filter_app by lia. Qed.

Lemma zero_offsets_linear words start off b n : b = (start + off) mod (zlen words * 64) -> 0 < zlen words -> b + n <= zlen words * 64 ->
  zero_offsets words start off n = (fun p => off + (p - b)) <$> zeros_in words b n.
Proof.
  intros Hb Hpos Hn. unfold zero_offsets, zeros_in. replace (seqZ b n) with (Z.add (b - off) <$> seqZ off n) by (rewrite fmap_add_seqZ; f_equal; lia).
  rewrite filter_fmap, <- list_fmap_compose. unfold compose. rewrite (list_fmap_ext _ id), list_fmap_id by (intros; unfold id; lia).
  apply filter_same. intros o Ho%elem_of_seqZ. replace ((start + o) mod (zlen words * 64)) with (b - off + o); [done|].
  replace (start + o) with (start + off + (o - off)) by lia. rewrite <- Z.add_mod_idemp_l, <- Hb by lia.
  pose proof (Z.mod_pos_bound (start + off) (zlen words * 64)). rewrite Z.mod_small by lia. lia.
Qed.

Lemma land_pred_pow x k : 0 <= k -> Z.land x (2 ^ k - 1) = x mod 2 ^ k.
Proof. intros. rewrite Z.sub_1_r, <- Z.ones_equiv. by apply Z.land_ones. Qed.

Lemma is_power_of_two_pow k : 0 <= k -> is_power_of_two (2 ^ k) = true.
Proof.
  intros Hk. unfold is_power_of_two. pose proof (Z.pow_pos_nonneg 2 k). rewrite (proj2 (Z.ltb_lt _ _)) by lia.
  by rewrite land_pred_pow, Z.mod_same by lia.
Qed.

Section segments.
Context `{DebugAssertions} {B S : Type} (cap start len : Z) (f : Z -> Z -> Z -> S -> outcome B S).
Hypothesis Hcap : 0 < cap.

(** The rule for [for_each_segment]: what holds of the range covered so far is kept by
    the body on the next linear segment. *)
Lemma segment_loop_inv (I : Z -> S -> Prop) :
  (forall b n off s, b = (start + off) mod cap -> 1 <= n -> b + n <= cap -> 0 <= off -> off + n <= len -> I off s ->
    exists s', f b n off s = Ok s' /\ I (off + n) s') ->
  forall fuel off b s, b = (start + off) mod cap -> 0 <= off <= len -> (Z.to_nat (len - off) <= fuel)%nat -> I off s ->
    exists s', segment_loop fuel cap b off len f s = Ok s' /\ I len s'.
Proof using Hcap.
  intros Hf fuel. induction fuel as [|fuel IH]; intros off b s Hb Hoff Hfu HI; cbn [segment_loop]; destruct (Z.ltb_spec off len); try lia.
  1, 3: exists s; split; [done|]; by replace len with off by lia.
  pose proof (Z.mod_pos_bound (start + off) cap Hcap) as Hm. rewrite <- Hb in Hm.
  destruct (Hf b (Z.min (len - off) (cap - b)) off s) as (s' & E & HI'); try lia; [done|]. rewrite E. cbn [mbind outcome_bind].
  destruct (Z.min_spec (len - off) (cap - b)) as [[Hlt Hmin]|[Hge Hmin]]; rewrite Hmin in *.
  - exists s'. replace (off + (len - off)) with len in * by lia. split; [|done]. destruct fuel; cbn [segment_loop]; by rewrite Z.ltb_irrefl.
  - apply IH; [|lia..|done]. rewrite Z.add_assoc, <- Z.add_mod_idemp_l, <- Hb by lia.
    replace (b + (cap - b)) with cap by lia. by rewrite Z.mod_same by lia.
Qed.

(** The same for a body that visits the clear bits and may break. *)
Lemma segment_loop_fold words (g : Z -> S -> outcome B S) : cap = zlen words * 64 ->
  (forall b n off s, b = (start + off) mod cap -> 1 <= n -> b + n <= cap -> 0 <= off ->
    f b n off s = foldM g (zero_offsets words start off n) s) ->
  forall fuel off b s, b = (start + off) mod cap -> 0 <= off <= len -> (Z.to_nat (len - off) <= fuel)%nat ->
    segment_loop fuel cap b off len f s = foldM g (zero_offsets words start off (len - off)) s.
Proof using Hcap.
  intros Hc Hf fuel. induction fuel as [|fuel IH]; intros off b s Hb Hoff Hfu; cbn [segment_loop]; destruct (Z.ltb_spec off len); try lia.
  1, 3: by replace (len - off) with 0 by lia.
  pose proof (Z.mod_pos_bound (start + off) cap Hcap) as Hm. rewrite <- Hb in Hm.
  set (n := Z.min (len - off) (cap - b)). replace (len - off) with (n + (len - (off + n))) by lia.
  rewrite zero_offsets_app, foldM_app, (Hf b n off s) by (done || lia). destruct (foldM g (zero_offsets words start off n) s) as [s'| | |]; [|done..].
  cbn [mbind outcome_bind]. destruct (Z.eq_dec n (cap - b)) as [Hn|Hn].
  - apply IH; [|lia..]. rewrite Hn, Z.add_assoc, <- Z.add_mod_idemp_l, <- Hb by lia.
    replace (b + (cap - b)) with cap by lia. by rewrite Z.mod_same by lia.
  - replace (off + n) with len by lia. rewrite Z.sub_diag. destruct fuel; cbn [segment_loop]; by rewrite Z.ltb_irrefl.
Qed.
End segments.

Lemma for_each_segment_start `{DebugAssertions} {B S} words start len (f : Z -> Z -> Z -> S -> outcome B S) s : bitmap_ok words ->
  for_each_segment (zlen words) start len f s =
    segment_loop (Z.to_nat len) (zlen words * 64) (start mod (zlen words * 64)) 0 len f s.
Proof.
  intros (_ & k & Hk & E). unfold for_each_segment, WORD_BITS, debug_assert. rewrite E, is_power_of_two_pow, andb_false_r by lia.
  cbn [mbind outcome_bind]. by rewrite land_pred_pow by lia.
Qed.

Lemma bitmap_ok_pos words : bitmap_ok words -> 0 < zlen words.
Proof. intros (_ & k & Hk & E). pose proof (Z.pow_pos_nonneg 2 k). lia. Qed.

Lemma for_each_segment_fold `{DebugAssertions} {B S} words start len (h : Z -> Z -> Z -> Z -> S -> outcome B S) (g : Z -> S -> outcome B S) s :
  bitmap_ok words -> 0 <= len ->
  (forall b off word mask s w, word_at (E:=B) words word = Ok w ->
    h b off word mask s = foldM (fun i => g (off + (word * 64 + i - b))) (ones (Z.land (not_u64 w) mask)) s) ->
  for_each_segment (zlen words) start len (fun b n off => for_each_word b n (h b off)) s = foldM g (zero_offsets words start 0 len) s.
Proof.
  intros Hok Hlen Hh. rewrite for_each_segment_start by done. pose proof (bitmap_ok_pos _ Hok).
  rewrite (segment_loop_fold (zlen words * 64) start len _ ltac:(lia) words g eq_refl); try lia; [by rewrite Z.sub_0_r| |by rewrite Z.add_0_r].
  intros b n off s' Hb Hn Hbn Hoff. pose proof (Z.mod_pos_bound (start + off) (zlen words * 64)).
  rewrite (for_each_word_fold words (proj1 Hok) _ (fun p => g (off + (p - b)))); [|intros; by apply Hh|lia..].
  by rewrite (zero_offsets_linear _ _ _ b), foldM_fmap by (done || lia).
Qed.

(** * Counting *)

Lemma length_filter_not {A} (P : A -> Prop) `{forall x, Decision (P x)} (l : list A) :
  (length (filter P l) + length (filter (fun x => ~ P x) l) = length l)%nat.
Proof. induction l as [|x l IH]; [done|]. rewrite !filter_cons. destruct (decide (P x)); [rewrite decide_False by tauto|rewrite decide_True by done]; cbn; lia. Qed.

Lemma word_count_zeros_length x : is_u64 x -> word_count_zeros x = zlen (ones (not_u64 x)).
Proof.
  intros Hx. unfold word_count_zeros, WORD_BITS. rewrite count_ones_length by done.
  pose proof (length_filter_not (fun b => Z.testbit x b = true) (seqZ 0 64)) as L. fold (ones x) in L. rewrite length_seqZ in L.
  unfold ones at 2. rewrite (filter_same _ (fun b => ~ (Z.testbit x b = true))); [unfold zlen; lia|].
  intros b Hb%elem_of_seqZ. rewrite testbit_not_u64 by lia. by destruct (Z.testbit x b).
Qed.

Lemma zlen_zeros_in words a n : 0 <= n -> 0 <= zlen (zeros_in words a n) <= n.
Proof.
  intros Hn. split; [apply zlen_nonneg|]. unfold zeros_in, zlen. pose proof (length_filter (fun p => bit_at words p = false) (seqZ a n)).
  rewrite length_seqZ in *. lia.
Qed.

Lemma zlen_zero_offsets words start a n : 0 <= n -> 0 <= zlen (zero_offsets words start a n) <= n.
Proof.
  intros Hn. split; [apply zlen_nonneg|]. unfold zero_offsets, zlen.
  pose proof (length_filter (fun o => bit_at words ((start + o) mod (zlen words * 64)) = false) (seqZ a n)).
  rewrite length_seqZ in *. unfold zlen in *. lia.
Qed.

Lemma zlen_fmap {A B} (f : A -> B) l : zlen (f <$> l) = zlen l.
Proof. unfold zlen. by rewrite length_fmap. Qed.
#[export] Hint Rewrite @zlen_fmap : zlen.

Section counting.
Context `{DebugAssertions, OverflowChecks} {E : Type}.

Lemma full_words_count words a n acc : words_ok words -> (a + n <= length words)%nat -> 0 <= acc -> acc + Z.of_nat n * 64 < U32 ->
  foldM (E:=E) (fun word z => add_u32 z (word_count_zeros word)) (take n (drop a words)) acc =
    Ok (acc + zlen (zeros_in words (Z.of_nat a * 64) (Z.of_nat n * 64))).
Proof.
  intros Hok. revert a acc. induction n as [|n IH]; intros a acc Hl Ha Hu.
  - cbn. f_equal. rewrite Z.add_0_r. done.
  - destruct (lookup_lt_is_Some_2 words a ltac:(lia)) as [w Hw]. rewrite (drop_S _ _ _ Hw). cbn [take foldM].
    replace (Z.of_nat (S n) * 64) with (64 + Z.of_nat n * 64) in * by lia. rewrite zeros_in_app, zeros_in_full by lia. rewrite Nat2Z.id.
    rewrite (nth_lookup_Some _ _ _ _ Hw), zlen_app, zlen_fmap, <- word_count_zeros_length by exact (Forall_lookup_1 _ _ _ _ Hok Hw).
    assert (Hc : 0 <= word_count_zeros w <= 64).
    { rewrite word_count_zeros_length by exact (Forall_lookup_1 _ _ _ _ Hok Hw). pose proof (length_ones (not_u64 w)). unfold zlen. lia. }
    unfold add_u32. rewrite add_ovf_Ok by lia. cbn [mbind outcome_bind]. replace (Z.of_nat a * 64 + 64) with (Z.of_nat (S a) * 64) by lia.
    change (foldM (E:=E) (fun word z => add_u32 z (word_count_zeros word)) (take n (drop (S a) words)) (acc + word_count_zeros w) =
      Ok (acc + (word_count_zeros w + zlen (zeros_in words (Z.of_nat (S a) * 64) (Z.of_nat n * 64))))).
    rewrite IH by lia. f_equal. lia.
Qed.

Lemma count_zeros_linear_Ok words start len : words_ok words -> 0 <= start -> 1 <= len -> start + len <= zlen words * 64 -> len < U32 ->
  count_zeros_linear (E:=E) words start len = Ok (zlen (zeros_in words start len)).
Proof.
  intros Hok Hs Hl He Hu. unfold count_zeros_linear. destruct (zeros_in_parts words start len Hs Hl He) as (Hf & Hla & P).
  pose proof (zlen_zeros_in words start len ltac:(lia)) as Z0. rewrite P in Z0 |- *. clear P.
  set (first := start / WORD_BITS) in *. set (last := (start + len - 1) / WORD_BITS) in *.
  destruct (word_at_Ok words Hok (E:=E) first ltac:(lia)) as [-> _]. cbn [mbind outcome_bind].
  set (head := shl_u64 _ _) in *. set (tail := Z.shiftr _ _) in *.
  destruct (Z.eqb_spec first last) as [Heq|Hne].
  - rewrite zlen_fmap. rewrite <- Z.land_assoc, count_ones_length; [done|apply land_not_u64].
  - rewrite slice_Ok by lia. cbn [mbind outcome_bind]. autorewrite with zlen in *.
    assert (64 * (last - (first + 1)) <= len).
    { subst first last. unfold WORD_BITS. pose proof (Z.div_mod start 64). pose proof (Z.div_mod (start + len - 1) 64).
      pose proof (Z.mod_pos_bound start 64). pose proof (Z.mod_pos_bound (start + len - 1) 64). lia. }
    rewrite full_words_count by (unfold zlen in *; try done; lia). cbn [mbind outcome_bind].
    rewrite Z2Nat.id, Z.add_0_l by lia. rewrite Z2Nat.id by lia.
    rewrite !count_ones_length by apply land_not_u64. zlen_pos.
    unfold add_u32. rewrite add_ovf_Ok by lia. cbn [mbind outcome_bind].
    destruct (word_at_Ok words Hok (E:=E) last ltac:(lia)) as [-> _]. cbn [mbind outcome_bind].
    rewrite count_ones_length by apply land_not_u64. rewrite add_ovf_Ok by lia. f_equal. lia.
Qed.

Lemma count_zeros_Ok words start len : bitmap_ok words -> 0 <= len < U32 ->
  count_zeros (E:=E) words start len = Ok (zlen (zero_offsets words start 0 len)).
Proof.
  intros Hok Hlen. unfold count_zeros. rewrite for_each_segment_start by done. pose proof (bitmap_ok_pos _ Hok).
  destruct (segment_loop_inv (zlen words * 64) start len
    (fun start len _ zeros => n ← count_zeros_linear (E:=E) words start len; add_u32 zeros n) ltac:(lia)
    (fun off z => z = zlen (zero_offsets words start 0 off))) with (fuel := Z.to_nat len) (off := 0) (b := start mod (zlen words * 64)) (s := 0)
    as (z & -> & ->); try lia; try done; [|by rewrite Z.add_0_r].
  intros b n off z Hb Hn Hbn Hoff Hln ->. pose proof (Z.mod_pos_bound (start + off) (zlen words * 64)).
  rewrite count_zeros_linear_Ok by (apply Hok || lia). cbn [mbind outcome_bind]. eexists. split; [|done].
  rewrite zero_offsets_app, zlen_app, Z.add_0_l by lia. rewrite (zero_offsets_linear words start off b) by (done || lia). rewrite zlen_fmap.
  pose proof (zlen_zero_offsets words start 0 off ltac:(lia)). pose proof (zlen_zeros_in words b n ltac:(lia)).
  apply add_ovf_Ok. lia.
Qed.
End counting.

(** * Enumerating and searching *)

Lemma foldM_pure {E S A} (f : A -> S -> S) l s : foldM (E:=E) (fun x s => Ok (f x s)) l s = Ok (foldl (fun s x => f x s) s l).
Proof. revert s. induction l as [|x l IH]; intros s; [done|]. cbn [foldM mbind outcome_bind foldl]. apply IH. Qed.

Lemma foldM_break {S A} l (s : S) : foldM (fun (x : A) _ => Err x) l s = match head l with Some x => Err x | None => Ok s end.
Proof. by destruct l. Qed.

Lemma foldl_push {A B} (f : A -> B) l acc : foldl (fun acc x => acc ++ [f x]) acc l = acc ++ (f <$> l).
Proof. revert acc. induction l as [|x l IH]; intros acc; cbn [foldl]; [by rewrite app_nil_r|]. by rewrite IH, fmap_cons, <- (assoc_L app). Qed.

(** A full pass over the bitmap that finds no clear bit says that there is none. *)
Lemma zero_offsets_period words start n : 0 < zlen words -> zlen words * 64 <= n ->
  zero_offsets words start 0 (zlen words * 64) = [] -> zero_offsets words start 0 n = [].
Proof.
  intros Hpos Hn E. apply filter_none. intros o Ho Hb%not_true_iff_false. apply Hb. clear Hb.
  assert (Ho' : o mod (zlen words * 64) ∉ zero_offsets words start 0 (zlen words * 64)) by (rewrite E; set_solver).
  unfold zero_offsets in Ho'. rewrite list_elem_of_filter, elem_of_seqZ in Ho'. rewrite Z.add_mod_idemp_r in Ho' by lia.
  destruct (bit_at words ((start + o) mod (zlen words * 64))); [done|]. exfalso. apply Ho'. split; [done|].
  pose proof (Z.mod_pos_bound o (zlen words * 64)). lia.
Qed.

Section enumerating.
Context `{DebugAssertions} {E : Type}.

Lemma for_each_zero_Ok {S} words start len (f : Z -> S -> S) s : bitmap_ok words -> 0 <= len ->
  for_each_zero (E:=E) words start len f s = Ok (foldl (fun s o => f o s) s (zero_offsets words start 0 len)).
Proof.
  intros Hok Hlen. rewrite <- foldM_pure. unfold for_each_zero, WORD_BITS. apply for_each_segment_fold; [done..|].
  intros b off word mask s' w E'. rewrite E'. cbn [mbind outcome_bind]. apply each_set_bit_fold; [apply land_not_u64|apply length_ones].
Qed.

Lemma first_zero_Ok words start len : bitmap_ok words -> 0 <= len ->
  first_zero (E:=E) words start len = Ok (head (zero_offsets words start 0 len)).
Proof.
  intros Hok Hlen. pose proof (bitmap_ok_pos _ Hok) as Hpos. unfold first_zero. change WORD_BITS with 64.
  rewrite (for_each_segment_fold words start (Z.min len (zlen words * 64)) _ (fun o _ => Err o)); [|done|lia|].
  - rewrite foldM_break. transitivity (Ok (E:=E) (head (zero_offsets words start 0 (Z.min len (zlen words * 64)))));
      [by destruct (head _)|]. f_equal. destruct (Z.le_ge_cases len (zlen words * 64)) as [Hle|Hge]; [by rewrite Z.min_l by lia|].
    rewrite Z.min_r by lia. destruct (zero_offsets words start 0 (zlen words * 64)) as [|o l] eqn:E'.
    + by rewrite (zero_offsets_period words start len).
    + replace len with (zlen words * 64 + (len - zlen words * 64)) by lia. by rewrite zero_offsets_app, E' by lia.
  - intros b off word mask s w E'. rewrite E'. cbn [mbind outcome_bind]. set (z := Z.land (not_u64 w) mask).
    destruct (Z.eqb_spec z 0) as [->|Hz]; [done|]. destruct (ones_step z (land_not_u64 w mask) Hz) as [-> _]. done.
Qed.
End enumerating.

(** * Clearing *)

Lemma testbit_land_not x m b : 0 <= b < 64 -> Z.testbit (Z.land x (not_u64 m)) b = Z.testbit x b && negb (Z.testbit m b).
Proof. intros. by rewrite Z.land_spec, testbit_not_u64 by lia. Qed.

Lemma words_ok_insert words i x m : words_ok words -> words_ok (<[i := Z.land x (not_u64 m)]> words).
Proof. intros. apply Forall_insert; [done|]. rewrite Z.land_comm. apply land_not_u64. Qed.

Section clearing.
Context `{DebugAssertions} {E : Type}.

Lemma fill_zero_Ok words a b : words_ok words -> 0 <= a <= b -> b <= zlen words ->
  exists words', fill_zero (E:=E) words a b = Ok words' /\ length words' = length words /\ words_ok words' /\
    forall i, nth i words' 0 = if (a <=? Z.of_nat i) && (Z.of_nat i <? b) then 0 else nth i words 0.
Proof.
  intros Hok Ha Hb. unfold fill_zero. rewrite slice_Ok by lia. cbn [mbind outcome_bind]. eexists. split; [done|].
  unfold zlen in Hb. rewrite length_take, length_drop. split; [rewrite !length_app, length_take, length_replicate, length_drop; lia|]. split.
  - apply Forall_app; split; [by apply Forall_take|]. apply Forall_app; split; [|by apply Forall_drop]. apply Forall_replicate. done.
  - intros i. rewrite !nth_lookup. set (n := (_ `min` _)%nat). assert (Hn : n = Z.to_nat (b - a)) by lia.
    destruct (Z.leb_spec a (Z.of_nat i)); cbn [andb].
    + rewrite lookup_app_r by (rewrite length_take; lia). rewrite length_take. destruct (Z.ltb_spec (Z.of_nat i) b).
      * rewrite lookup_app_l by (rewrite length_replicate; lia). by rewrite lookup_replicate_2 by lia.
      * rewrite lookup_app_r by (rewrite length_replicate; lia). rewrite length_replicate, lookup_drop. do 2 f_equal. lia.
    + rewrite lookup_app_l by (rewrite length_take; lia). by rewrite lookup_take_lt by lia.
Qed.

Lemma nth_insert_same (words : list Z) i x : (i < length words)%nat -> nth i (<[i := x]> words) 0 = x.
Proof. intros. by rewrite nth_lookup, list_lookup_insert_eq by lia. Qed.
Lemma nth_insert_other (words : list Z) i j x : i <> j -> nth j (<[i := x]> words) 0 = nth j words 0.
Proof. intros. by rewrite !nth_lookup, list_lookup_insert_ne by lia. Qed.

(** What clearing a linear range leaves, word by word. *)
Definition cleared (words words' : list Z) (a n : Z) : Prop :=
  words_ok words' /\ length words' = length words /\
  forall p, 0 <= p < zlen words * 64 -> bit_at words' p = bit_at words p && negb ((a <=? p) && (p <? a + n)).

Lemma clear_linear_Ok words start len : words_ok words -> 0 <= start -> 1 <= len -> start + len <= zlen words * 64 ->
  exists words', clear_linear (E:=E) words start len = Ok words' /\ cleared words words' start len.
Proof.
  intros Hok Hs Hl He. unfold clear_linear. change (start / WORD_BITS) with (start / 64). change (start mod WORD_BITS) with (start mod 64).
  change ((start + len - 1) / WORD_BITS) with ((start + len - 1) / 64). change ((start + len - 1) mod WORD_BITS) with ((start + len - 1) mod 64).
  set (first := start / 64). set (last := (start + len - 1) / 64).
  pose proof (Z.mod_pos_bound start 64 ltac:(lia)) as M1. pose proof (Z.mod_pos_bound (start + len - 1) 64 ltac:(lia)) as M2.
  pose proof (Z.div_mod start 64 ltac:(lia)) as D1. pose proof (Z.div_mod (start + len - 1) 64 ltac:(lia)) as D2.
  fold first in D1. fold last in D2. set (lo := start mod 64) in *. set (hi := (start + len - 1) mod 64) in *.
  assert (Hle : first <= last) by (apply Z.div_le_mono; lia).
  destruct (word_at_Ok words Hok (E:=E) first ltac:(lia)) as [-> _]. cbn [mbind outcome_bind].
  destruct (Z.eqb_spec first last) as [Heq|Hne].
  - eexists. split; [done|]. split; [by apply words_ok_insert|]. split; [apply length_insert|]. intros p Hp. unfold bit_at.
    pose proof (Z.mod_pos_bound p 64 ltac:(lia)) as M3. pose proof (Z.div_mod p 64 ltac:(lia)) as D3.
    remember (p / 64) as q eqn:Hq. clear Hq. destruct (Z.eq_dec q first) as [->|Hf].
    + rewrite nth_insert_same by (unfold zlen in *; lia). rewrite testbit_land_not, Z.land_spec, testbit_head, testbit_tail by lia. f_equal. f_equal.
      f_equal; [destruct (Z.leb_spec lo (p mod 64)), (Z.leb_spec start p)|destruct (Z.leb_spec (p mod 64) hi), (Z.ltb_spec p (start + len))]; lia.
    + rewrite nth_insert_other by lia. destruct (Z.leb_spec start p), (Z.ltb_spec p (start + len)); try (cbn; by rewrite andb_true_r); lia.
  - set (words1 := <[_ := _]> words). assert (Hok1 : words_ok words1) by (by apply words_ok_insert).
    assert (Hl1 : zlen words1 = zlen words) by (unfold zlen, words1; by rewrite length_insert).
    destruct (fill_zero_Ok words1 (first + 1) last Hok1 ltac:(lia) ltac:(lia)) as (words2 & -> & Hl2 & Hok2 & N2). cbn [mbind outcome_bind].
    assert (Hl2' : zlen words2 = zlen words) by (unfold zlen in *; lia).
    destruct (word_at_Ok words2 Hok2 (E:=E) last ltac:(lia)) as [-> _]. cbn [mbind outcome_bind].
    eexists. split; [done|]. split; [by apply words_ok_insert|]. split; [rewrite length_insert; unfold zlen in *; lia|]. intros p Hp. unfold bit_at.
    pose proof (Z.mod_pos_bound p 64 ltac:(lia)) as M3. pose proof (Z.div_mod p 64 ltac:(lia)) as D3. set (b := p mod 64) in *.
    remember (p / 64) as q eqn:Hq. clear Hq. destruct (Z.eq_dec q last) as [->|Hla]; [rewrite nth_insert_same by (unfold zlen in *; lia)|rewrite nth_insert_other by lia];
      rewrite N2, Z2Nat.id by lia.
    + rewrite Z.ltb_irrefl, andb_false_r. unfold words1. rewrite nth_insert_other, testbit_land_not, testbit_tail by lia. f_equal. f_equal.
      destruct (Z.leb_spec start p), (Z.leb_spec b hi), (Z.ltb_spec p (start + len)); lia.
    + destruct (Z.eq_dec q first) as [->|Hf].
      * rewrite (proj2 (Z.leb_gt _ _)) by lia. cbn [andb]. unfold words1. rewrite nth_insert_same, testbit_land_not, testbit_head by (unfold zlen in *; lia).
        f_equal. f_equal. destruct (Z.leb_spec lo b), (Z.leb_spec start p), (Z.ltb_spec p (start + len)); lia.
      * unfold words1. rewrite nth_insert_other by lia.
        destruct (Z.leb_spec (first + 1) q), (Z.ltb_spec q last), (Z.leb_spec start p), (Z.ltb_spec p (start + len)); cbn [andb negb];
          rewrite ?Z.bits_0, ?andb_false_r, ?andb_true_r; try done; lia.
Qed.
(** Whether position [p] is one of the first [n] of the circular range at [start]. *)
Definition in_circle (cap start n p : Z) : bool := (p - start) mod cap <? n.

Lemma in_circle_step cap start off b n p : 0 < cap -> b = (start + off) mod cap -> 0 <= off -> 0 <= n -> b + n <= cap -> off + n < cap -> 0 <= p < cap ->
  in_circle cap start (off + n) p = in_circle cap start off p || (b <=? p) && (p <? b + n).
Proof.
  intros Hc Hb Ho Hn Hbn Hon Hp. unfold in_circle.
  pose proof (Z.mod_pos_bound (p - start) cap Hc) as M1. pose proof (Z.div_mod (p - start) cap ltac:(lia)) as D1.
  pose proof (Z.mod_pos_bound (start + off) cap Hc) as M2. pose proof (Z.div_mod (start + off) cap ltac:(lia)) as D2. rewrite <- Hb in *.
  set (d := (p - start) mod cap) in *. set (q1 := (p - start) / cap) in *. set (q2 := (start + off) / cap) in *.
  assert (D : p - b = cap * (q1 + q2) + d - off) by lia. set (q := q1 + q2) in *.
  assert (Hq : q = -1 \/ q = 0 \/ q = 1) by nia.
  destruct (Z.ltb_spec d (off + n)), (Z.ltb_spec d off), (Z.leb_spec b p), (Z.ltb_spec p (b + n)); try done; exfalso;
    destruct Hq as [Hq|[Hq|Hq]]; rewrite Hq in D; lia.
Qed.

Lemma clear_Ok words start len : bitmap_ok words -> 0 <= len ->
  exists words', clear (E:=E) words start len = Ok words' /\ bitmap_ok words' /\ length words' = length words /\
    forall p, 0 <= p < zlen words * 64 -> bit_at words' p = bit_at words p && negb (in_circle (zlen words * 64) start len p).
Proof.
  intros Hok Hlen. pose proof (bitmap_ok_pos _ Hok) as Hpos. unfold clear. change WORD_BITS with 64. destruct (Z.leb_spec (zlen words * 64) len).
  - exists (replicate (length words) 0). split; [done|]. split.
    + split; [by apply Forall_replicate|]. unfold zlen. rewrite length_replicate. apply Hok.
    + split; [apply length_replicate|]. intros p Hp. unfold in_circle.
      pose proof (Z.mod_pos_bound (p - start) (zlen words * 64) ltac:(lia)). rewrite (proj2 (Z.ltb_lt _ _)) by lia. rewrite andb_false_r.
      unfold bit_at. rewrite nth_lookup. destruct (replicate _ _ !! _) as [x|] eqn:Hx; [apply lookup_replicate in Hx as [-> _]|]; apply Z.bits_0.
  - rewrite for_each_segment_start by done. set (cap := zlen words * 64) in *.
    destruct (segment_loop_inv cap start len (fun start len _ words => clear_linear (E:=E) words start len) ltac:(lia)
      (fun off w => words_ok w /\ length w = length words /\ forall p, 0 <= p < cap -> bit_at w p = bit_at words p && negb (in_circle cap start off p)))
      with (fuel := Z.to_nat len) (off := 0) (b := start mod cap) (s := words) as (w & -> & Hw & Hl & Hbit); try lia.
    + intros b n off w Hb Hn Hbn Hoff Hln (Hw & Hl & Hbit). assert (Hz : zlen w = zlen words) by (unfold zlen; by rewrite Hl).
      pose proof (Z.mod_pos_bound (start + off) cap ltac:(lia)).
      destruct (clear_linear_Ok w b n Hw) as (w' & -> & Hw' & Hl' & Hbit'); [lia..|]. exists w'. split; [done|]. split; [done|].
      split; [by rewrite Hl'|]. intros p Hp. rewrite Hbit', Hbit by lia. rewrite (in_circle_step _ _ off b n) by (done || lia).
      by rewrite negb_orb, andb_assoc.
    + by rewrite Z.add_0_r.
    + split; [apply Hok|]. split; [done|]. intros p Hp. unfold in_circle. pose proof (Z.mod_pos_bound (p - start) cap ltac:(lia)).
      rewrite (proj2 (Z.ltb_ge _ _)) by lia. by rewrite andb_true_r.
    + exists w. split; [done|]. split; [|done]. split; [done|]. unfold zlen. rewrite Hl. apply Hok.
Qed.
End clearing.

(** * The word-at-a-time operations against the walk over single bits *)

(** C32: On every bitmap whose capacity is a power of two, from any start bit and over any
    length, ranges that wrap or re-read the bitmap included, the four operations do what
    the walk over single bits does: [count_zeros] returns the number of clear bits
    visited (for a length that fits its [u32]), [for_each_zero] calls the closure with
    exactly the offsets of the clear bits, in order, [first_zero] finds the first of
    them, and [clear] clears exactly the bits of the range and keeps the others. *)
Theorem bitmap_per_bit (da oc : bool) words start len :
  bitmap_ok words -> 0 <= len < U32 ->
  let _ : DebugAssertions := da in
  let _ : OverflowChecks := oc in
  count_zeros (E:=MediaError) words start len = Ok (zlen (zero_offsets words start 0 len)) /\
  for_each_zero (E:=MediaError) words start len (fun o acc => acc ++ [o]) [] = Ok (zero_offsets words start 0 len) /\
  first_zero (E:=MediaError) words start len = Ok (head (zero_offsets words start 0 len)) /\
  exists words', clear (E:=MediaError) words start len = Ok words' /\ bitmap_ok words' /\ length words' = length words /\
    forall p, 0 <= p < zlen words * 64 -> bit_at words' p = bit_at words p && negb ((p - start) mod (zlen words * 64) <? len).
Proof.
  intros Hok Hlen DA OC. split; [by apply count_zeros_Ok|]. split.
  - rewrite for_each_zero_Ok by (done || lia). f_equal.
    rewrite <- (list_fmap_id (zero_offsets words start 0 len)) at 2. apply (foldl_push id _ []).
  - split; [apply first_zero_Ok; done || lia|]. apply clear_Ok; done || lia.
Qed.

(** Three passes over a bitmap of two words from a start in the second one. *)
Lemma bitmap_per_bit_witness :
  count_zeros (E:=MediaError) (H:=true) (H0:=true) [18446744073709551614; 18446744073709551615 - 2 ^ 40] 1100 300 = Ok 5.
Proof.
  assert (Hok : bitmap_ok [18446744073709551614; 18446744073709551615 - 2 ^ 40]).
  { split; [repeat constructor; vm_compute; congruence|]. exists 7. split; [lia|reflexivity]. }
  destruct (bitmap_per_bit true true [18446744073709551614; 18446744073709551615 - 2 ^ 40] 1100 300 Hok) as [C _].
  - unfold U32. lia.
  - refine (eq_trans C _). vm_compute. reflexivity.
Defined.
