(* ===== verification/ReceiveLog.v ===== *)
(** The receive log of the NACK generator ([rtc-interceptor/src/nack/receive_log.rs]):
    a circular bitmap of the sequence numbers received and the last number before the
    first gap.  The theorems relate it to the history of the numbers received, with
    sequence numbers extended past the 16-bit wrap. *)
From S2P Require Import Prelude Marshal Rtp Bitmap.

Definition UINT16_SIZE_HALF : Z := 32768.

Definition wrapping_add (a b : Z) : Z := as_u16 (a + b).
Definition wrapping_sub (a b : Z) : Z := as_u16 (a - b).

Record ReceiveLog := mkReceiveLog {
  rl_packets : list Z;
  rl_size : Z;
  rl_size_mask : Z;
  rl_end : Z;
  rl_started : bool;
  rl_last_consecutive : Z
}.
#[export] Instance ReceiveLog_eta : Eta ReceiveLog := fun r =>
  mkReceiveLog (rl_packets r) (rl_size r) (rl_size_mask r) (rl_end r) (rl_started r) (rl_last_consecutive r).

Definition ReceiveLog_new (size : Z) : option ReceiveLog :=
  let is_valid := existsb (fun i => size =? Z.shiftl 1 i) (seqZ 6 10) in
  if negb is_valid then None
  else Some (mkReceiveLog (replicate (Z.to_nat (size / 64)) 0) size (size - 1) 0 false 0).

Section receive_log.
Context `{DebugAssertions} {E : Type}.
#[local] Abbreviation result := (outcome E).

Definition set_received (self : ReceiveLog) (seq : Z) : result ReceiveLog :=
  let pos := Z.land seq (rl_size_mask self) in
  w ← word_at (rl_packets self) (pos / 64);
  Ok (self <| rl_packets := <[Z.to_nat (pos / 64) := Z.lor w (Z.shiftl 1 (pos mod 64))]> (rl_packets self) |>).

Definition get_received (self : ReceiveLog) (seq : Z) : result bool :=
  let pos := Z.land seq (rl_size_mask self) in
  w ← word_at (rl_packets self) (pos / 64);
  Ok (negb (Z.land w (Z.shiftl 1 (pos mod 64)) =? 0)).

Definition fix_last_consecutive (self : ReceiveLog) : result ReceiveLog :=
  let first := wrapping_add (rl_last_consecutive self) 1 in
  let span := wrapping_sub (rl_end self) (rl_last_consecutive self) in
  found ← first_zero (rl_packets self) first span;
  Ok (self <| rl_last_consecutive :=
    match found with
    | Some offset => wrapping_add (rl_last_consecutive self) offset
    | None => rl_end self
    end |>).

Definition ReceiveLog_add (self : ReceiveLog) (seq : Z) : result ReceiveLog :=
  if negb (rl_started self) then
    self ← set_received self seq;
    Ok (self <| rl_end := seq |> <| rl_started := true |> <| rl_last_consecutive := seq |>)
  else
    let diff := wrapping_sub seq (rl_end self) in
    if diff =? 0 then Ok self
    else if diff <? UINT16_SIZE_HALF then
      packets ← clear (rl_packets self) (wrapping_add (rl_end self) 1) (diff - 1);
      let self := self <| rl_packets := packets |> <| rl_end := seq |> in
      self ← (if wrapping_add (rl_last_consecutive self) 1 =? seq then Ok (self <| rl_last_consecutive := seq |>)
              else if rl_size self <? wrapping_sub seq (rl_last_consecutive self) then
                fix_last_consecutive (self <| rl_last_consecutive := wrapping_sub seq (rl_size self) |>)
              else Ok self);
      set_received self seq
    else
      self ← (if wrapping_add (rl_last_consecutive self) 1 =? seq
              then fix_last_consecutive (self <| rl_last_consecutive := seq |>) else Ok self);
      set_received self seq.

Definition ReceiveLog_get (self : ReceiveLog) (seq : Z) : result bool :=
  let diff := wrapping_sub (rl_end self) seq in
  if UINT16_SIZE_HALF <=? diff then Ok false
  else if rl_size self <=? diff then Ok false
  else get_received self seq.

Definition missing_seq_numbers (self : ReceiveLog) (skip_last_n : Z) : result (list Z) :=
  let until := wrapping_sub (rl_end self) skip_last_n in
  let span := wrapping_sub until (rl_last_consecutive self) in
  if UINT16_SIZE_HALF <=? span then Ok []
  else
    let first := wrapping_add (rl_last_consecutive self) 1 in
    for_each_zero (rl_packets self) first span (fun offset missing => missing ++ [wrapping_add first (as_u16 offset)]) [].

Definition is_missing (self : ReceiveLog) (seq skip_last_n : Z) : result bool :=
  let until := wrapping_sub (rl_end self) skip_last_n in
  let span := wrapping_sub until (rl_last_consecutive self) in
  if UINT16_SIZE_HALF <=? span then Ok false
  else
    let offset := wrapping_sub seq (rl_last_consecutive self) in
    if negb (offset =? 0) && (offset <=? span) then
      received ← get_received self seq; Ok (negb received)
    else Ok false.
End receive_log.

(** * The log against the history of the numbers received *)

Lemma mod_mod_size x k : 6 <= k <= 15 -> (x mod 65536) mod 2 ^ k = x mod 2 ^ k.
Proof.
  intros Hk. change 65536 with (2 ^ 16). replace (2 ^ 16) with (2 ^ k * 2 ^ (16 - k)) by (rewrite <- Z.pow_add_r by lia; f_equal; lia).
  rewrite Z.rem_mul_r by (apply Z.pow_nonzero || apply Z.pow_pos_nonneg; lia). rewrite Z.mul_comm, Z.mod_add by (apply Z.pow_nonzero; lia).
  apply Z.mod_mod, Z.pow_nonzero; lia.
Qed.

Lemma size_bounds k : 6 <= k <= 15 -> 64 <= 2 ^ k <= 32768.
Proof. intros. split; [change 64 with (2 ^ 6)|change 32768 with (2 ^ 15)]; apply Z.pow_le_mono_r; lia. Qed.

(** The history [h] holds the extended sequence numbers received, [first] the one the log
    started with, [newest] the highest one and [consecutive] the one up to which nothing
    in the window is missing. *)
Record log_ok (k : Z) (h : list Z) (first newest consecutive : Z) (rl : ReceiveLog) : Prop := {
  lo_k : 6 <= k <= 15;
  lo_size : rl_size rl = 2 ^ k;
  lo_mask : rl_size_mask rl = 2 ^ k - 1;
  lo_bitmap : bitmap_ok (rl_packets rl);
  lo_capacity : zlen (rl_packets rl) * 64 = 2 ^ k;
  lo_started : rl_started rl = true;
  lo_end : rl_end rl = newest mod 65536;
  lo_last : rl_last_consecutive rl = consecutive mod 65536;
  lo_range : newest - 2 ^ k <= consecutive <= newest;
  lo_newest : newest ∈ h;
  lo_first : first <= consecutive;
  lo_max : forall e, e ∈ h -> e <= newest;
  lo_bits : forall e, newest - 2 ^ k < e <= newest -> bit_at (rl_packets rl) (e mod 2 ^ k) = bool_decide (e ∈ h);
  lo_consecutive : forall e, first <= e <= consecutive -> newest - 2 ^ k < e -> e ∈ h
}.

(** ** One bit *)

Lemma testbit_single n b : 0 <= n -> 0 <= b -> Z.testbit (Z.shiftl 1 n) b = (b =? n).
Proof. intros. rewrite Z.shiftl_1_l, Z.pow2_bits_eqb by lia. apply Z.eqb_sym. Qed.

Lemma land_single w n : 0 <= n -> negb (Z.land w (Z.shiftl 1 n) =? 0) = Z.testbit w n.
Proof.
  intros Hn. destruct (Z.testbit w n) eqn:T; destruct (Z.eqb_spec (Z.land w (Z.shiftl 1 n)) 0) as [E|E]; try done; exfalso.
  - assert (Z.testbit (Z.land w (Z.shiftl 1 n)) n = true) by (by rewrite Z.land_spec, testbit_single, T, Z.eqb_refl by lia).
    by rewrite E, Z.bits_0 in *.
  - apply E. apply Z.bits_inj'. intros b Hb. rewrite Z.land_spec, testbit_single, Z.bits_0 by lia.
    destruct (Z.eqb_spec b n) as [->|]; [by rewrite T|apply andb_false_r].
Qed.

Lemma lor_single_u64 w n : is_u64 w -> 0 <= n < 64 -> is_u64 (Z.lor w (Z.shiftl 1 n)).
Proof.
  intros Hw Hn. unfold is_u64 in *. rewrite Z.shiftl_1_l. assert (0 <= Z.lor w (2 ^ n)) by (apply Z.lor_nonneg; split; [lia|apply Z.pow_nonneg; lia]).
  split; [done|]. change 18446744073709551616 with (2 ^ 64). destruct (Z.eq_dec (Z.lor w (2 ^ n)) 0) as [->|Hz]; [lia|].
  apply Z.log2_lt_pow2; [lia|]. rewrite Z.log2_lor by (lia || apply Z.pow_nonneg; lia). apply Z.max_lub_lt.
  - destruct (Z.eq_dec w 0) as [->|]; [done|]. apply Z.log2_lt_pow2; lia.
  - rewrite Z.log2_pow2 by lia. lia.
Qed.

Section one_bit.
Context {E : Type} (k : Z) (rl : ReceiveLog).
Hypothesis Hk : 6 <= k <= 15.
Hypothesis Hmask : rl_size_mask rl = 2 ^ k - 1.
Hypothesis Hok : bitmap_ok (rl_packets rl).
Hypothesis Hcap : zlen (rl_packets rl) * 64 = 2 ^ k.

Lemma get_received_Ok e : get_received (E:=E) rl (e mod 65536) = Ok (bit_at (rl_packets rl) (e mod 2 ^ k)).
Proof using Hk Hmask Hok Hcap.
  unfold get_received. rewrite Hmask, land_pred_pow, mod_mod_size by lia. pose proof (size_bounds k Hk).
  pose proof (Z.mod_pos_bound e (2 ^ k) ltac:(lia)) as M. set (p := e mod 2 ^ k) in *. clearbody p.
  destruct (word_at_Ok (rl_packets rl) (proj1 Hok) (E:=E) (p / 64)) as [-> _]; [Z.to_euclidean_division_equations; lia|].
  cbn [mbind outcome_bind]. rewrite land_single by (apply Z.mod_pos_bound; lia). done.
Qed.

Lemma set_received_Ok e : exists packets', set_received (E:=E) rl (e mod 65536) = Ok (rl <| rl_packets := packets' |>) /\
  bitmap_ok packets' /\ zlen packets' * 64 = 2 ^ k /\
  forall p, 0 <= p < 2 ^ k -> bit_at packets' p = bit_at (rl_packets rl) p || (p =? e mod 2 ^ k).
Proof using Hk Hmask Hok Hcap.
  unfold set_received. rewrite Hmask, land_pred_pow, mod_mod_size by lia. pose proof (size_bounds k Hk).
  pose proof (Z.mod_pos_bound e (2 ^ k) ltac:(lia)) as M. set (q := e mod 2 ^ k) in *. clearbody q. destruct Hok as [Hw Hp].
  destruct (word_at_Ok (rl_packets rl) Hw (E:=E) (q / 64)) as [-> Hu]; [Z.to_euclidean_division_equations; lia|].
  cbn [mbind outcome_bind]. eexists. split; [done|]. pose proof (Z.mod_pos_bound q 64 ltac:(lia)).
  split; [split; [by apply Forall_insert, lor_single_u64; [..|lia]|unfold zlen; by rewrite length_insert]|].
  split; [unfold zlen; by rewrite length_insert|]. intros p Hp'. unfold bit_at.
  pose proof (Z.div_mod p 64 ltac:(lia)). pose proof (Z.div_mod q 64 ltac:(lia)). pose proof (Z.mod_pos_bound p 64 ltac:(lia)).
  destruct (Z.eq_dec (p / 64) (q / 64)) as [Heq|Hne].
  - rewrite Heq, nth_insert_same by (unfold zlen in *; Z.to_euclidean_division_equations; lia).
    rewrite Z.lor_spec, testbit_single by lia. f_equal. destruct (Z.eqb_spec (p mod 64) (q mod 64)), (Z.eqb_spec p q); lia.
  - rewrite nth_insert_other by (Z.to_euclidean_division_equations; lia). destruct (Z.eqb_spec p q) as [->|]; [lia|]. by rewrite orb_false_r.
Qed.
End one_bit.

(** ** Runs of numbers *)

Lemma head_filter_seqZ (P : Z -> Prop) `{forall x, Decision (P x)} a n :
  match head (filter P (seqZ a n)) with
  | Some x => a <= x < a + n /\ P x /\ forall y, a <= y < x -> ~ P y
  | None => forall y, a <= y < a + n -> ~ P y
  end.
Proof.
  destruct (Z.le_gt_cases n 0) as [Hn|Hn]; [rewrite seqZ_nil by lia; cbn; lia|]. assert (Hn' : 0 <= n) by lia. clear Hn. revert a.
  pattern n. apply natlike_ind; [intros a y; lia| |done]. clear n Hn'. intros n Hn IH a. rewrite seqZ_cons, filter_cons by lia.
  rewrite Z.pred_succ. destruct (decide (P a)) as [HP|HP]; cbn [head].
  - split; [lia|]. split; [done|]. intros y; lia.
  - specialize (IH (Z.succ a)). destruct (head _) as [x|].
    + destruct IH as (Hx & HPx & Hy). split; [lia|]. split; [done|]. intros y Hy'. destruct (Z.eq_dec y a) as [->|]; [done|]. apply Hy. lia.
    + intros y Hy'. destruct (Z.eq_dec y a) as [->|]; [done|]. apply IH. lia.
Qed.

Section runs.
Context `{DebugAssertions} {E : Type} (k : Z) (rl : ReceiveLog).
Hypothesis Hk : 6 <= k <= 15.
Hypothesis Hok : bitmap_ok (rl_packets rl).
Hypothesis Hcap : zlen (rl_packets rl) * 64 = 2 ^ k.

Lemma zero_offsets_run c n : zero_offsets (rl_packets rl) (c mod 65536) 0 n =
  (fun e => e - c) <$> filter (fun e => bit_at (rl_packets rl) (e mod 2 ^ k) = false) (seqZ c n).
Proof using Hk Hcap.
  unfold zero_offsets. rewrite Hcap. replace (seqZ c n) with (Z.add c <$> seqZ 0 n) by (rewrite fmap_add_seqZ; f_equal; lia).
  rewrite filter_fmap, <- list_fmap_compose. unfold compose. rewrite (list_fmap_ext _ id), list_fmap_id by (intros; unfold id; lia).
  apply filter_same. intros o _. pose proof (size_bounds k Hk). rewrite <- Z.add_mod_idemp_l, mod_mod_size, Z.add_mod_idemp_l by lia. done.
Qed.

Lemma fix_last_consecutive_Ok last newest : rl_end rl = newest mod 65536 -> rl_last_consecutive rl = last mod 65536 ->
  0 <= newest - last < 65536 ->
  exists last', fix_last_consecutive (E:=E) rl = Ok (rl <| rl_last_consecutive := last' mod 65536 |>) /\ last <= last' <= newest /\
    forall e, last < e <= last' -> bit_at (rl_packets rl) (e mod 2 ^ k) = true.
Proof using Hk Hcap Hok.
  intros He Hl Hr. unfold fix_last_consecutive, wrapping_add, wrapping_sub, as_u16. rewrite He, Hl.
  rewrite Zplus_mod_idemp_l. rewrite <- Zminus_mod, (Z.mod_small (newest - last)) by lia. rewrite first_zero_Ok by (done || lia).
  rewrite zero_offsets_run. pose proof (head_filter_seqZ (fun e => bit_at (rl_packets rl) (e mod 2 ^ k) = false) (last + 1) (newest - last)) as Hh.
  cbn [mbind outcome_bind]. destruct (filter _ _) as [|x l]; cbn [head fmap list_fmap] in *.
  - exists newest. split; [done|]. split; [lia|]. intros e Hee. apply not_false_iff_true. apply Hh. lia.
  - exists (x - 1). rewrite Zplus_mod_idemp_l. replace (last + (x - (last + 1))) with (x - 1) by lia. split; [done|]. split; [lia|].
    intros e Hee. apply not_false_iff_true. apply Hh. lia.
Qed.
End runs.

(** ** Adding a number *)

Lemma window_unique s x y newest : 0 < s -> newest - s < x <= newest -> newest - s < y <= newest -> x mod s = y mod s -> x = y.
Proof.
  intros Hs Hx Hy E. pose proof (Z.div_mod x s ltac:(lia)). pose proof (Z.div_mod y s ltac:(lia)). rewrite E in *.
  assert (x / s = y / s) by nia. congruence.
Qed.

Section adding.
Context `{DebugAssertions} {E : Type}.

Lemma ReceiveLog_new_ok size rl : ReceiveLog_new size = Some rl -> exists k, 6 <= k <= 15 /\ size = 2 ^ k /\
  rl = mkReceiveLog (replicate (Z.to_nat (2 ^ k / 64)) 0) (2 ^ k) (2 ^ k - 1) 0 false 0 /\
  bitmap_ok (rl_packets rl) /\ zlen (rl_packets rl) * 64 = 2 ^ k.
Proof.
  unfold ReceiveLog_new. destruct (existsb _ _) eqn:X; [|done]. intros [= <-]. apply existsb_exists in X as (k & Hk & Es).
  apply list_elem_of_In, elem_of_seqZ in Hk. apply Z.eqb_eq in Es. rewrite Z.shiftl_1_l in Es. exists k. split; [lia|]. split; [done|].
  rewrite Es. split; [done|]. cbn [rl_packets]. assert (L : zlen (replicate (Z.to_nat (2 ^ k / 64)) 0) * 64 = 2 ^ k).
  { unfold zlen. rewrite length_replicate. replace k with (6 + (k - 6)) by lia. rewrite Z.pow_add_r by lia. change (2 ^ 6) with 64.
    pose proof (Z.pow_pos_nonneg 2 (k - 6)). rewrite (Z.mul_comm 64), Z.div_mul by lia. lia. }
  split; [|done]. split; [by apply Forall_replicate|]. exists k. split; [lia|done].
Qed.

(** The first number. *)
Lemma add_first size rl e : ReceiveLog_new size = Some rl ->
  exists k rl', size = 2 ^ k /\ ReceiveLog_add (E:=E) rl (e mod 65536) = Ok rl' /\ log_ok k [e] e e e rl'.
Proof.
  intros Hnew. destruct (ReceiveLog_new_ok _ _ Hnew) as (k & Hk & Hs & -> & Hok & Hcap). pose proof (size_bounds k Hk).
  set (rl := mkReceiveLog _ _ _ _ _ _) in *. unfold ReceiveLog_add. cbn [rl_started rl negb]. fold rl.
  destruct (set_received_Ok (E:=E) k rl Hk eq_refl Hok Hcap e) as (packets & -> & Hok' & Hcap' & Hbit). cbn [mbind outcome_bind].
  exists k. eexists. split; [done|]. split; [done|]. split; try first [done|cbn; lia].
  - by left.
  - intros x ->%list_elem_of_singleton. lia.
  - intros x Hx. cbn [rl_packets over]. pose proof (Z.mod_pos_bound x (2 ^ k)). rewrite Hbit by lia.
    replace (bit_at (rl_packets rl) (x mod 2 ^ k)) with false.
    + cbn. destruct (Z.eqb_spec (x mod 2 ^ k) (e mod 2 ^ k)) as [Em|Em].
      * apply (window_unique _ _ _ e) in Em as ->; [|lia..]. by rewrite bool_decide_true by set_solver.
      * rewrite bool_decide_false; [done|]. by intros ->%list_elem_of_singleton.
    + unfold bit_at, rl. cbn [rl_packets]. rewrite nth_lookup.
      destruct (replicate _ _ !! _) as [y|] eqn:Hy; [apply lookup_replicate in Hy as [-> _]|]; by rewrite Z.bits_0.
  - intros x Hx _. assert (x = e) as -> by lia. set_solver.
Qed.

Lemma in_circle_window k start n x : 6 <= k <= 15 ->
  in_circle (2 ^ k) (start mod 65536) n (x mod 2 ^ k) = ((x - start) mod 2 ^ k <? n).
Proof.
  intros Hk. unfold in_circle. pose proof (size_bounds k Hk). rewrite Zminus_mod, mod_mod_size by lia.
  rewrite Z.mod_mod by lia. by rewrite <- Zminus_mod.
Qed.

(** Clearing the skipped numbers leaves the window before the new one as it should be. *)
Lemma clear_skipped k h first newest consecutive rl e : log_ok k h first newest consecutive rl -> newest < e < newest + 32768 ->
  exists packets, clear (E:=E) (rl_packets rl) (wrapping_add (rl_end rl) 1) (wrapping_sub (e mod 65536) (rl_end rl) - 1) = Ok packets /\
    bitmap_ok packets /\ zlen packets * 64 = 2 ^ k /\
    forall x, e - 2 ^ k < x < e -> bit_at packets (x mod 2 ^ k) = bool_decide (x ∈ h).
Proof.
  intros L He. destruct L. pose proof (size_bounds k lo_k0). unfold wrapping_add, wrapping_sub, as_u16. rewrite lo_end0.
  rewrite Zplus_mod_idemp_l, <- Zminus_mod, (Z.mod_small (e - newest)) by lia.
  destruct (clear_Ok (E:=E) (rl_packets rl) ((newest + 1) mod 65536) (e - newest - 1) lo_bitmap0 ltac:(lia)) as (packets & -> & Hok' & Hl & Hbit).
  exists packets. split; [done|]. split; [done|]. split; [unfold zlen in *; lia|]. intros x Hx.
  rewrite lo_capacity0 in Hbit. pose proof (Z.mod_pos_bound x (2 ^ k) ltac:(lia)). rewrite Hbit, in_circle_window by lia.
  destruct (Z.le_gt_cases x newest) as [Hle|Hgt].
  - replace (x - (newest + 1)) with (x - newest - 1 + 2 ^ k + (-1) * 2 ^ k) by lia. rewrite Z.mod_add, (Z.mod_small (x - newest - 1 + 2 ^ k)) by lia.
    rewrite (proj2 (Z.ltb_ge _ _)) by lia. rewrite andb_true_r. apply lo_bits0. lia.
  - assert (Hc : (x - (newest + 1)) mod 2 ^ k < e - newest - 1).
    { destruct (Z.lt_ge_cases (x - (newest + 1)) (2 ^ k)); [rewrite Z.mod_small by lia; lia|].
      pose proof (Z.mod_pos_bound (x - (newest + 1)) (2 ^ k)). lia. }
    rewrite (proj2 (Z.ltb_lt _ _)) by exact Hc. rewrite andb_false_r. symmetry. apply bool_decide_eq_false_2.
    intros Hin. apply lo_max0 in Hin. lia.
Qed.

(** Marking the number completes the window. *)
Lemma mark_received k rl h newest e : 6 <= k <= 15 -> rl_size_mask rl = 2 ^ k - 1 -> bitmap_ok (rl_packets rl) -> zlen (rl_packets rl) * 64 = 2 ^ k ->
  newest - 2 ^ k < e <= newest ->
  (forall x, newest - 2 ^ k < x <= newest -> x <> e -> bit_at (rl_packets rl) (x mod 2 ^ k) = bool_decide (x ∈ h)) ->
  exists packets, set_received (E:=E) rl (e mod 65536) = Ok (rl <| rl_packets := packets |>) /\
    bitmap_ok packets /\ zlen packets * 64 = 2 ^ k /\
    forall x, newest - 2 ^ k < x <= newest -> bit_at packets (x mod 2 ^ k) = bool_decide (x ∈ e :: h).
Proof.
  intros Hk Hm Hok Hcap He Hbits. destruct (set_received_Ok (E:=E) k rl Hk Hm Hok Hcap e) as (packets & -> & Hok' & Hcap' & Hbit).
  exists packets. split; [done|]. split; [done|]. split; [done|]. intros x Hx. pose proof (size_bounds k Hk).
  pose proof (Z.mod_pos_bound x (2 ^ k) ltac:(lia)). rewrite Hbit by lia. destruct (Z.eq_dec x e) as [->|Hne].
  - rewrite Z.eqb_refl, orb_true_r. symmetry. apply bool_decide_eq_true_2. set_solver.
  - rewrite Hbits by lia. destruct (Z.eqb_spec (x mod 2 ^ k) (e mod 2 ^ k)) as [Em|Em].
    + apply (window_unique _ _ _ newest) in Em; [done|lia..].
    + rewrite orb_false_r. apply bool_decide_ext. set_solver.
Qed.

Lemma mod_eq_small a b : (a mod 65536 =? b mod 65536) = true -> -65536 < a - b < 65536 -> a = b.
Proof. intros Hm%Z.eqb_eq Hr. pose proof (Z.div_mod a 65536). pose proof (Z.div_mod b 65536). lia. Qed.

(** A number ahead of all others. *)
Lemma add_ahead k h first newest last rl e : log_ok k h first newest last rl -> newest < e < newest + 32768 ->
  exists rl' last', ReceiveLog_add (E:=E) rl (e mod 65536) = Ok rl' /\ log_ok k (e :: h) first e last' rl'.
Proof.
  intros L He. destruct (clear_skipped _ _ _ _ _ _ _ L He) as (packets & Ec & Hok & Hcap & Hbits). destruct L.
  pose proof (size_bounds k lo_k0). unfold ReceiveLog_add. rewrite lo_started0. cbn [negb].
  assert (Ed : wrapping_sub (e mod 65536) (rl_end rl) = e - newest).
  { unfold wrapping_sub, as_u16. rewrite lo_end0, <- Zminus_mod. apply Z.mod_small. lia. }
  rewrite Ed in *. rewrite (proj2 (Z.eqb_neq _ _)) by lia. unfold UINT16_SIZE_HALF. rewrite (proj2 (Z.ltb_lt _ _)) by lia.
  rewrite Ec. cbn [mbind outcome_bind]. clear Ec Ed. set (rl1 := rl <| rl_packets := packets |> <| rl_end := e mod 65536 |>).
  assert (Hlast : exists last', (if wrapping_add (rl_last_consecutive rl1) 1 =? e mod 65536 then Ok (rl1 <| rl_last_consecutive := e mod 65536 |>)
      else if rl_size rl1 <? wrapping_sub (e mod 65536) (rl_last_consecutive rl1)
           then fix_last_consecutive (E:=E) (rl1 <| rl_last_consecutive := wrapping_sub (e mod 65536) (rl_size rl1) |>) else Ok rl1) =
      Ok (rl1 <| rl_last_consecutive := last' mod 65536 |>) /\ e - 2 ^ k <= last' <= e /\ last <= last' /\
      forall x, first <= x <= last' -> e - 2 ^ k < x -> x ∈ e :: h).
  { unfold wrapping_add, wrapping_sub, as_u16. cbn [rl1 rl_size rl_last_consecutive over]. rewrite lo_last0, lo_size0, Zplus_mod_idemp_l, <- Zminus_mod, Zminus_mod_idemp_l.
    rewrite (Z.mod_small (e - last)) by lia.
    destruct ((last + 1) mod 65536 =? e mod 65536) eqn:E1; [|destruct (Z.ltb_spec (2 ^ k) (e - last)) as [Hlt|Hge]].
    - apply mod_eq_small in E1; [|lia]. exists e. split; [done|]. do 2 (split; [lia|]). intros x Hx Hw.
      destruct (Z.eq_dec x e) as [->|]; [set_solver|]. apply elem_of_cons. right. apply lo_consecutive0; lia.
    - destruct (fix_last_consecutive_Ok (E:=E) k (rl1 <| rl_last_consecutive := (e - 2 ^ k) mod 65536 |>) lo_k0) with (last := e - 2 ^ k) (newest := e)
        as (last' & -> & Hr & Hb); [done..|lia|]. exists last'. split; [done|]. do 2 (split; [lia|]). intros x Hx Hw. specialize (Hb x ltac:(lia)).
      destruct (Z.eq_dec x e) as [->|]; [set_solver|]. apply elem_of_cons. right. apply (bool_decide_eq_true_1 _). rewrite <- Hbits by lia. exact Hb.
    - exists last. split; [by rewrite <- lo_last0; destruct rl|]. do 2 (split; [lia|]). intros x Hx Hw. apply elem_of_cons. right. apply lo_consecutive0; lia. }
  destruct Hlast as (last' & -> & Hr & Hll & Hc). cbn [mbind outcome_bind].
  destruct (mark_received k (rl1 <| rl_last_consecutive := last' mod 65536 |>) h e e lo_k0)
    as (packets' & -> & Hok' & Hcap' & Hb'); [done..|lia|intros x Hx Hne; apply Hbits; lia|].
  eexists _, last'. split; [done|]. split; try first [done|cbn; lia].
  - by left.
  - intros x [->|Hx]%elem_of_cons; [lia|]. apply lo_max0 in Hx. lia.
Qed.
(** A number that was overtaken, but is still in the window. *)
Lemma add_late k h first newest last rl e : log_ok k h first newest last rl -> newest - 2 ^ k < e < newest ->
  exists rl' last', ReceiveLog_add (E:=E) rl (e mod 65536) = Ok rl' /\ log_ok k (e :: h) first newest last' rl'.
Proof.
  intros L He. destruct L. pose proof (size_bounds k lo_k0). unfold ReceiveLog_add. rewrite lo_started0. cbn [negb].
  assert (Ed : wrapping_sub (e mod 65536) (rl_end rl) = e - newest + 65536).
  { unfold wrapping_sub, as_u16. rewrite lo_end0, <- Zminus_mod. replace (e - newest) with (e - newest + 65536 + (-1) * 65536) by lia.
    rewrite Z.mod_add, Z.mod_small by lia. lia. }
  rewrite Ed. rewrite (proj2 (Z.eqb_neq _ _)) by lia. unfold UINT16_SIZE_HALF. rewrite (proj2 (Z.ltb_ge _ _)) by lia. clear Ed.
  assert (Hlast : exists last', (if wrapping_add (rl_last_consecutive rl) 1 =? e mod 65536
      then fix_last_consecutive (E:=E) (rl <| rl_last_consecutive := e mod 65536 |>) else Ok rl) =
      Ok (rl <| rl_last_consecutive := last' mod 65536 |>) /\ last <= last' <= newest /\
      forall x, first <= x <= last' -> newest - 2 ^ k < x -> x ∈ e :: h).
  { unfold wrapping_add, as_u16. rewrite lo_last0, Zplus_mod_idemp_l. destruct ((last + 1) mod 65536 =? e mod 65536) eqn:E1.
    - apply mod_eq_small in E1; [|lia].
      destruct (fix_last_consecutive_Ok (E:=E) k (rl <| rl_last_consecutive := e mod 65536 |>) lo_k0) with (last := e) (newest := newest)
        as (last' & -> & Hr & Hb); [done..|lia|]. exists last'. split; [done|]. split; [lia|]. intros x Hx Hw.
      destruct (Z.eq_dec x e) as [->|]; [by left|]. right. destruct (Z.le_gt_cases x last); [apply lo_consecutive0; lia|].
      specialize (Hb x ltac:(lia)). apply (bool_decide_eq_true_1 _). rewrite <- lo_bits0 by lia. exact Hb.
    - exists last. split; [by rewrite <- lo_last0; destruct rl|]. split; [lia|]. intros x Hx Hw. right. apply lo_consecutive0; lia. }
  destruct Hlast as (last' & -> & Hr & Hc). cbn [mbind outcome_bind].
  destruct (mark_received k (rl <| rl_last_consecutive := last' mod 65536 |>) h newest e lo_k0)
    as (packets' & -> & Hok' & Hcap' & Hb'); [done..|lia|intros x Hx Hne; apply lo_bits0; lia|].
  eexists _, last'. split; [done|]. split; try first [done|cbn; lia].
  - by right.
  - intros x [->|Hx]%elem_of_cons; [lia|]. by apply lo_max0.
Qed.

Lemma log_ok_same k h h' first newest last rl : (forall x, x ∈ h <-> x ∈ h') -> log_ok k h first newest last rl -> log_ok k h' first newest last rl.
Proof.
  intros Hh []. split; try done; try (by apply Hh); try (intros; by apply lo_max0, Hh).
  - intros x Hx. rewrite lo_bits0 by done. by apply bool_decide_ext.
  - intros x Hx Hw. apply Hh. by apply lo_consecutive0.
Qed.

(** The newest number again. *)
Lemma add_again k h first newest last rl : log_ok k h first newest last rl ->
  ReceiveLog_add (E:=E) rl (newest mod 65536) = Ok rl.
Proof.
  intros []. unfold ReceiveLog_add. rewrite lo_started0. cbn [negb]. unfold wrapping_sub, as_u16. by rewrite lo_end0, Z.sub_diag.
Qed.

(** The numbers a log can tell apart: none that left the window before it arrived, no
    jump of half the number space. *)
Fixpoint trackable (size newest : Z) (es : list Z) : Prop :=
  match es with
  | [] => True
  | e :: r => newest - size < e < newest + 32768 /\ trackable size (Z.max newest e) r
  end.

Lemma add_all k h first newest last rl es : log_ok k h first newest last rl -> trackable (2 ^ k) newest es ->
  exists rl' last', foldM (fun e rl => ReceiveLog_add (E:=E) rl (e mod 65536)) es rl = Ok rl' /\
    log_ok k (h ++ es) first (foldl Z.max newest es) last' rl'.
Proof.
  revert h newest last rl. induction es as [|e es IH]; intros h newest last rl L Ht.
  - exists rl, last. by rewrite app_nil_r.
  - cbn [trackable] in Ht. destruct Ht as [He Ht].
    assert (S1 : exists rl1 last1, ReceiveLog_add (E:=E) rl (e mod 65536) = Ok rl1 /\ log_ok k (e :: h) first (Z.max newest e) last1 rl1).
    { destruct (Z.lt_trichotomy e newest) as [Hlt|[->|Hgt]].
      - rewrite Z.max_l by lia. apply (add_late _ _ _ _ last); [done|lia].
      - exists rl, last. rewrite Z.max_id. split; [by eapply add_again|]. eapply log_ok_same; [|done]. intros x.
        destruct L. rewrite elem_of_cons. naive_solver.
      - rewrite Z.max_r by lia. apply (add_ahead _ _ _ newest last); [done|lia]. }
    destruct S1 as (rl1 & last1 & E1 & L1). destruct (IH _ _ _ _ L1 Ht) as (rl' & last' & E2 & L2).
    exists rl', last'. cbn [foldM foldl]. rewrite E1. split; [exact E2|]. eapply log_ok_same; [|done]. intros x. set_solver.
Qed.
End adding.

(** ** Queries *)

(** The numbers of the window that are missing, up to [skip] before the newest. *)
Definition lost (size first newest skip : Z) (h : list Z) : list Z :=
  let lo := Z.max first (newest - size + 1) in
  filter (fun e => ~ e ∈ h) (seqZ lo (newest - skip - lo + 1)).

Section queries.
Context `{DebugAssertions} {E : Type} (k : Z) (h : list Z) (first newest last : Z) (rl : ReceiveLog).
Hypothesis L : log_ok k h first newest last rl.

(** Nothing up to [last_consecutive] is missing. *)
Lemma lost_after_consecutive skip : lost (2 ^ k) first newest skip h = filter (fun e => ~ e ∈ h) (seqZ (last + 1) (newest - skip - last)).
Proof using L.
  destruct L. unfold lost. cbv zeta. set (lo := Z.max first (newest - 2 ^ k + 1)).
  assert (Hin : forall x, lo <= x <= last -> x ∈ h) by (intros; apply lo_consecutive0; lia).
  destruct (Z.le_gt_cases last (newest - skip)) as [Hle|Hgt].
  - replace (newest - skip - lo + 1) with ((last + 1 - lo) + (newest - skip - last)) by lia. rewrite seqZ_app, filter_app by lia.
    rewrite (filter_none _ (seqZ lo _)) by (intros x Hx%elem_of_seqZ Hn; apply Hn, Hin; lia). rewrite app_nil_l. do 2 f_equal. lia.
  - rewrite (seqZ_nil (last + 1)) by lia. apply filter_none. intros x Hx%elem_of_seqZ Hn. apply Hn, Hin. lia.
Qed.

(** The range the queries walk; [span] is that of the code. *)
Lemma query_span skip : 0 <= skip <= 32768 -> newest - skip - last < 32768 ->
  let span := wrapping_sub (wrapping_sub (rl_end rl) skip) (rl_last_consecutive rl) in
  if 32768 <=? span then newest - skip < last else span = newest - skip - last.
Proof using L.
  intros Hs Hl. cbv zeta. destruct L. pose proof (size_bounds k lo_k0). unfold wrapping_sub, as_u16. rewrite lo_end0, lo_last0.
  rewrite (Zminus_mod_idemp_l newest skip), <- Zminus_mod. destruct (Z.le_gt_cases last (newest - skip)).
  - rewrite Z.mod_small by lia. rewrite (proj2 (Z.leb_gt _ _)) by lia. done.
  - replace (newest - skip - last) with (newest - skip - last + 65536 + (-1) * 65536) by lia. rewrite Z.mod_add, Z.mod_small by lia.
    rewrite (proj2 (Z.leb_le _ _)) by lia. lia.
Qed.

Lemma missing_seq_numbers_Ok skip : 0 <= skip <= 32768 -> newest - skip - last < 32768 ->
  missing_seq_numbers (E:=E) rl skip = Ok ((fun e => e mod 65536) <$> lost (2 ^ k) first newest skip h).
Proof using L.
  intros Hs Hl. pose proof (query_span skip Hs Hl) as Hq. cbv zeta in Hq. rewrite lost_after_consecutive. unfold missing_seq_numbers, UINT16_SIZE_HALF.
  set (span := wrapping_sub (wrapping_sub _ _) _) in *. revert Hq. destruct (Z.leb_spec 32768 span); intros Hq; [by rewrite seqZ_nil by lia|].
  destruct L. rewrite Hq. destruct (Z.le_gt_cases 0 (newest - skip - last)) as [Hp|Hn]; [|unfold wrapping_sub in span; pose proof (as_u16_range (as_u16 (rl_end rl - skip) - rl_last_consecutive rl)); unfold is_u16, span in *; lia].
  rewrite for_each_zero_Ok by (done || lia). f_equal. rewrite (foldl_push (fun o => wrapping_add (wrapping_add (rl_last_consecutive rl) 1) (as_u16 o))), app_nil_l.
  unfold wrapping_add, as_u16. rewrite lo_last0, Zplus_mod_idemp_l, (zero_offsets_run k rl lo_k0 lo_capacity0), <- list_fmap_compose. unfold compose.
  rewrite (filter_same _ (fun e => ~ e ∈ h)).
  - apply list_fmap_ext. intros i x _. rewrite <- Zplus_mod. f_equal. lia.
  - intros x Hx%elem_of_seqZ. rewrite lo_bits0 by lia. apply bool_decide_eq_false.
Qed.

Lemma is_missing_Ok skip seq : 0 <= skip <= 32768 -> newest - skip - last < 32768 -> is_u16 seq ->
  is_missing (E:=E) rl seq skip = Ok (bool_decide (seq ∈ (fun e => e mod 65536) <$> lost (2 ^ k) first newest skip h)).
Proof using L.
  intros Hs Hl Hseq. pose proof (query_span skip Hs Hl) as Hq. cbv zeta in Hq. rewrite lost_after_consecutive. unfold is_missing, UINT16_SIZE_HALF.
  set (span := wrapping_sub (wrapping_sub _ _) _) in *. revert Hq. destruct (Z.leb_spec 32768 span) as [Hsp|Hsp]; intros Hq; [by rewrite seqZ_nil by lia|].
  destruct L. set (o := wrapping_sub seq (rl_last_consecutive rl)). assert (Ho : is_u16 o) by apply as_u16_range.
  assert (Eo : seq = (last + o) mod 65536).
  { unfold o, wrapping_sub, as_u16. rewrite lo_last0, Zplus_mod_idemp_r. 
    replace (last + (seq - last mod 65536)) with (seq + (last - last mod 65536)) by lia.
    pose proof (Z.div_mod last 65536 ltac:(lia)). replace (last - last mod 65536) with (last / 65536 * 65536) by lia. rewrite Z.mod_add by lia.
    symmetry. by apply Z.mod_small. }
  clearbody o. unfold is_u16 in *.
  assert (Hel : seq ∈ (fun e => e mod 65536) <$> filter (fun e => ~ e ∈ h) (seqZ (last + 1) (newest - skip - last)) <-> 1 <= o <= span /\ ~ last + o ∈ h).
  { rewrite list_elem_of_fmap. setoid_rewrite list_elem_of_filter. setoid_rewrite elem_of_seqZ. split.
    - intros (x & Ex & Hn & Hx). assert (x = last + o) as -> by (apply mod_eq_small; [apply Z.eqb_eq; congruence|lia]). split; [lia|done].
    - intros [Hr Hn]. exists (last + o). split; [done|]. split; [done|]. lia. }
  destruct (Z.eqb_spec o 0) as [->|Hne]; cbn [negb andb]; [rewrite bool_decide_false; [done|]; rewrite Hel; lia|].
  destruct (Z.leb_spec o span); [|rewrite bool_decide_false; [done|]; rewrite Hel; lia].
  rewrite Eo at 1. rewrite (get_received_Ok (E:=E) k rl lo_k0 lo_mask0 lo_bitmap0 lo_capacity0). cbn [mbind outcome_bind].
  rewrite lo_bits0 by lia. f_equal. rewrite <- bool_decide_not. apply bool_decide_ext. rewrite Hel. intuition lia.
Qed.

Lemma ReceiveLog_get_Ok e : newest - 32768 < e <= newest + 32768 ->
  ReceiveLog_get (E:=E) rl (e mod 65536) = Ok (bool_decide (newest - 2 ^ k < e <= newest /\ e ∈ h)).
Proof using L.
  intros He. destruct L. pose proof (size_bounds k lo_k0). unfold ReceiveLog_get, UINT16_SIZE_HALF, wrapping_sub, as_u16.
  rewrite lo_end0, lo_size0, <- Zminus_mod. destruct (Z.le_gt_cases e newest).
  - rewrite Z.mod_small by lia. rewrite (proj2 (Z.leb_gt _ _)) by lia. destruct (Z.leb_spec (2 ^ k) (newest - e)).
    + rewrite bool_decide_false by lia. done.
    + rewrite (get_received_Ok (E:=E) k rl lo_k0 lo_mask0 lo_bitmap0 lo_capacity0), lo_bits0 by lia. f_equal. apply bool_decide_ext. intuition lia.
  - replace (newest - e) with (newest - e + 65536 + (-1) * 65536) by lia. rewrite Z.mod_add, Z.mod_small by lia.
    rewrite (proj2 (Z.leb_le _ _)) by lia. by rewrite bool_decide_false by lia.
Qed.
End queries.

(** C12: For every log size up to 16384, every [skip] up to 32768 and every history of
    sequence numbers, extended past the 16-bit wrap, in which no number arrives after it left the window or jumps half
    the number space: the log never fails; [missing_seq_numbers] lists exactly the
    numbers of the window since the first one that have not arrived and are not among
    the last [skip], in order; [is_missing] is membership in that list; and [get] is
    membership in the history for the numbers of the window. *)
Theorem receive_log_exact (da : bool) size rl e0 es skip :
  ReceiveLog_new size = Some rl -> size <= 16384 -> trackable size e0 es -> 0 <= skip <= 32768 ->
  let _ : DebugAssertions := da in
  let newest := foldl Z.max e0 es in
  let missing := (fun e => e mod 65536) <$> lost size e0 newest skip (e0 :: es) in
  exists rl', foldM (E:=MediaError) (fun e rl => ReceiveLog_add rl (e mod 65536)) (e0 :: es) rl = Ok rl' /\
    missing_seq_numbers (E:=MediaError) rl' skip = Ok missing /\
    (forall seq, is_u16 seq -> is_missing (E:=MediaError) rl' seq skip = Ok (bool_decide (seq ∈ missing))) /\
    (forall e, newest - 32768 < e <= newest + 32768 ->
      ReceiveLog_get (E:=MediaError) rl' (e mod 65536) = Ok (bool_decide (newest - size < e <= newest /\ e ∈ e0 :: es))).
Proof.
  intros Hnew Hsz Ht Hs DA newest missing. destruct (add_first (E:=MediaError) _ _ e0 Hnew) as (k & rl1 & -> & E1 & L1).
  destruct (add_all (E:=MediaError) _ _ _ _ _ _ _ L1 Ht) as (rl' & last & E2 & L2). exists rl'. cbn [foldM]. rewrite E1. split; [exact E2|].
  pose proof (lo_range _ _ _ _ _ _ L2). split; [apply (missing_seq_numbers_Ok _ _ _ _ _ _ L2); [done|unfold newest in *; lia]|]. split.
  - intros seq Hseq. apply (is_missing_Ok _ _ _ _ _ _ L2); [done|unfold newest in *; lia|done].
  - intros e He. apply (ReceiveLog_get_Ok _ _ _ _ _ _ L2). done.
Qed.

(** A log of 64 numbers across the wrap: 65534, 65535, then 2 and 5 before 4. *)
Lemma receive_log_exact_witness :
  exists rl', foldM (E:=MediaError) (fun e rl => ReceiveLog_add (H:=true) rl (e mod 65536)) [65534; 65535; 65538; 65541; 65540]
      (mkReceiveLog [0] 64 63 0 false 0) = Ok rl' /\
    missing_seq_numbers (E:=MediaError) (H:=true) rl' 1 = Ok [0; 1; 3].
Proof.
  destruct (receive_log_exact true 64 (mkReceiveLog [0] 64 63 0 false 0) 65534 [65535; 65538; 65541; 65540] 1) as (rl' & E1 & E2 & _).
  - reflexivity.
  - lia.
  - cbn. lia.
  - lia.
  - exists rl'. split; [exact E1|]. refine (eq_trans E2 _). vm_compute. reflexivity.
Defined.

(** * Two departures *)

(** A packet older than the window sets the bit of a newer number: after 0 and 100, number
    70 is missing from a log of 64; when number 6 arrives at last, 70 is no longer reported. *)
Lemma old_packet_hides_loss :
  let log l := foldM (E:=MediaError) (fun e rl => ReceiveLog_add (H:=true) rl e) l (mkReceiveLog [0] 64 63 0 false 0) in
  (rl ← log [0; 100]; is_missing rl 70 0) = Ok true /\
  (rl ← log [0; 100; 6]; is_missing rl 70 0) = Ok false /\
  (rl ← log [0; 100; 6]; missing_seq_numbers (H:=true) rl 0) = Ok (seqZ 37 33 ++ seqZ 71 29).
Proof. vm_compute. repeat split. Qed.

(** With the largest size the span of a window whose first number is missing is half the
    number space, which the query takes for an empty range. *)
Lemma full_window_reports_nothing :
  exists rl, ReceiveLog_new 32768 = Some rl /\
  (rl ← foldM (E:=MediaError) (fun e rl => ReceiveLog_add (H:=true) rl e) [0; 20000; 32769] rl;
   m ← missing_seq_numbers (H:=true) rl 0; g ← ReceiveLog_get rl 20001; Ok (rl_last_consecutive rl, m, g)) = Ok (1, [], false).
Proof. eexists. split; [reflexivity|]. vm_compute. reflexivity. Qed.
