(* ===== verification/SendBuffer.v ===== *)
(** The send buffer of the NACK responder ([rtc-interceptor/src/nack/send_buffer.rs]): the
    packets sent, in a circular array indexed by sequence number, bounded by count, by
    payload bytes and by age.  An [Instant] is a number of nanoseconds. *)
From S2P Require Import Prelude Marshal Rtp Bitmap ReceiveLog.

Record Entry := mkEntry { en_packet : Packet; en_sent_at : Z }.

Record HistoryLimits := mkHistoryLimits { max_bytes : Z; max_age : option Z }.

Record SendBuffer := mkSendBuffer {
  sb_packets : list (option Entry);
  sb_size : Z;
  sb_mask : Z;
  sb_highest_added : Z;
  sb_started : bool;
  sb_oldest : Z;
  sb_bytes : Z;
  sb_newest_sent_at : option Z;
  sb_epoch : option Z;
  sb_limits : HistoryLimits
}.
#[export] Instance SendBuffer_eta : Eta SendBuffer := fun s =>
  mkSendBuffer (sb_packets s) (sb_size s) (sb_mask s) (sb_highest_added s) (sb_started s) (sb_oldest s) (sb_bytes s)
    (sb_newest_sent_at s) (sb_epoch s) (sb_limits s).

Definition with_limits (size : Z) (limits : HistoryLimits) : option SendBuffer :=
  let is_valid := existsb (fun i => size =? Z.shiftl 1 i) (seqZ 0 16) in
  if negb is_valid then None
  else Some (mkSendBuffer (replicate (Z.to_nat size) None) size (size - 1) 0 false 0 0 None None limits).

(** [self.packets[i]], which panics out of range. *)
Definition slot_at {E} (packets : list (option Entry)) (i : Z) : outcome E (option Entry) :=
  if i <? 0 then Panic else match packets !! Z.to_nat i with Some o => Ok o | None => Panic end.

Definition saturating_duration_since (now earlier : Z) : Z := Z.max 0 (now - earlier).
Definition saturating_sub (a b : Z) : Z := Z.max 0 (a - b).

Definition expires_at (self : SendBuffer) : option Z :=
  match sb_newest_sent_at self, max_age (sb_limits self) with Some t, Some a => Some (t + a) | _, _ => None end.

(** [get_or_insert] on the epoch. *)
Definition stamp (self : SendBuffer) (now : Z) : Z * SendBuffer :=
  let epoch := default now (sb_epoch self) in
  (as_u64 (saturating_duration_since now epoch), self <| sb_epoch := Some epoch |>).

Definition expired (self : SendBuffer) (entry : Entry) (now : Z) : bool :=
  match max_age (sb_limits self), sb_epoch self with
  | Some age, Some epoch => as_u64 age <=? saturating_sub (as_u64 (saturating_duration_since now epoch)) (en_sent_at entry)
  | _, _ => false
  end.

Section send_buffer.
Context `{OverflowChecks} {E : Type}.
#[local] Abbreviation result := (outcome E).

Definition sb_clear (self : SendBuffer) (seq : Z) : result SendBuffer :=
  let i := Z.land seq (sb_mask self) in
  slot ← slot_at (sb_packets self) i;
  let self := self <| sb_packets ::= <[Z.to_nat i := None]> |> in
  match slot with
  | Some entry =>
      bytes ← sub_ovf overflow_checks USIZE (sb_bytes self) (zlen (payload (en_packet entry)));
      Ok (self <| sb_bytes := bytes |>)
  | None => Ok self
  end.

(** The [while] loop of [evict]. *)
Fixpoint evict_loop (fuel : nat) (self : SendBuffer) (now end_ : Z) : result SendBuffer :=
  if sb_oldest self =? end_ then Ok (self <| sb_oldest := sb_highest_added self |> <| sb_newest_sent_at := None |>)
  else match fuel with
       | O => Diverge
       | S fuel =>
           slot ← slot_at (sb_packets self) (Z.land (sb_oldest self) (sb_mask self));
           match slot with
           | Some entry =>
               if sequence_number (header (en_packet entry)) =? sb_oldest self then
                 let is_newest := sb_oldest self =? sb_highest_added self in
                 let over_budget := (max_bytes (sb_limits self) <? sb_bytes self) && negb is_newest in
                 if negb (over_budget || expired self entry now) then Ok self
                 else
                   self ← sb_clear self (sb_oldest self);
                   evict_loop fuel (self <| sb_oldest ::= fun o => wrapping_add o 1 |>) now end_
               else evict_loop fuel (self <| sb_oldest ::= fun o => wrapping_add o 1 |>) now end_
           | None => evict_loop fuel (self <| sb_oldest ::= fun o => wrapping_add o 1 |>) now end_
           end
       end.

Definition evict (self : SendBuffer) (now : Z) : result SendBuffer :=
  if negb (sb_started self) then Ok self
  else evict_loop (Z.to_nat 65536) self now (wrapping_add (sb_highest_added self) 1).

Definition expire (self : SendBuffer) (now : Z) : result SendBuffer := evict self now.

(** [while i != seq { self.clear(i); i += 1 }]. *)
Fixpoint clear_between (fuel : nat) (self : SendBuffer) (i seq : Z) : result SendBuffer :=
  if i =? seq then Ok self
  else match fuel with
       | O => Diverge
       | S fuel => self ← sb_clear self i; clear_between fuel self (wrapping_add i 1) seq
       end.

(** The bookkeeping of [add] before the packet is stored: [None] when it returns early. *)
Definition place (self : SendBuffer) (seq : Z) : result (option SendBuffer) :=
  if negb (sb_started self) then
    Ok (Some (self <| sb_highest_added := seq |> <| sb_oldest := seq |> <| sb_started := true |>))
  else
    let diff := wrapping_sub seq (sb_highest_added self) in
    if diff =? 0 then Ok None
    else if diff <? UINT16_SIZE_HALF then
      self ← (if sb_size self <=? diff then
                Ok (self <| sb_packets ::= map (fun _ => None) |> <| sb_bytes := 0 |> <| sb_oldest := seq |>)
              else
                self ← clear_between (Z.to_nat 65536) self (wrapping_add (sb_highest_added self) 1) seq;
                let window_start := wrapping_sub seq (sb_size self - 1) in
                Ok (if wrapping_sub window_start (sb_oldest self) <? UINT16_SIZE_HALF
                    then self <| sb_oldest := window_start |> else self));
      Ok (Some (self <| sb_highest_added := seq |>))
    else if sb_size self <=? wrapping_sub (sb_highest_added self) seq then Ok None
    else Ok (Some (if wrapping_sub (sb_oldest self) seq <? UINT16_SIZE_HALF then self <| sb_oldest := seq |> else self)).

Definition SendBuffer_add (self : SendBuffer) (packet : Packet) (now : Z) : result SendBuffer :=
  let seq := sequence_number (header packet) in
  placed ← place self seq;
  match placed with
  | None => Ok self
  | Some self =>
      self ← sb_clear self seq;
      bytes ← add_ovf overflow_checks USIZE (sb_bytes self) (zlen (payload packet));
      let self := self <| sb_bytes := bytes |> in
      let '(sent_at, self) := stamp self now in
      _ ← slot_at (sb_packets self) (Z.land seq (sb_mask self));
      let self := self <| sb_packets ::= <[Z.to_nat (Z.land seq (sb_mask self)) := Some (mkEntry packet sent_at)]> |> in
      let self := match sb_newest_sent_at self with
                  | Some newest => if newest <? now then self <| sb_newest_sent_at := Some now |> else self
                  | None => self <| sb_newest_sent_at := Some now |>
                  end in
      evict self now
  end.

Definition SendBuffer_get (self : SendBuffer) (seq now : Z) : result (option Packet) :=
  if negb (sb_started self) then Ok None
  else
    let diff := wrapping_sub (sb_highest_added self) seq in
    if UINT16_SIZE_HALF <=? diff then Ok None
    else if sb_size self <=? diff then Ok None
    else
      entry ← slot_at (sb_packets self) (Z.land seq (sb_mask self));
      match entry with
      | None => Ok None
      | Some entry =>
          if negb (sequence_number (header (en_packet entry)) =? seq) || expired self entry now then Ok None
          else Ok (Some (en_packet entry))
      end.
End send_buffer.

(** * The buffer as a map of the window *)

Definition entry_bytes (o : option Entry) : Z := match o with Some en => zlen (payload (en_packet en)) | None => 0 end.

(** The entry in the slot of the extended sequence number [e]. *)
Definition stored (k : Z) (sb : SendBuffer) (e : Z) : option Entry := mjoin (sb_packets sb !! Z.to_nat (e mod 2 ^ k)).

Definition in_window (k newest e : Z) : Prop := newest - 2 ^ k < e <= newest.

(** What holds of a buffer between two steps; [bytes] is what the entries refer to, and no
    slot keeps a packet of an earlier window. *)
Record sb_shape (k : Z) (sb : SendBuffer) : Prop := {
  sc_k : 0 <= k <= 15;
  sc_size : sb_size sb = 2 ^ k;
  sc_mask : sb_mask sb = 2 ^ k - 1;
  sc_length : zlen (sb_packets sb) = 2 ^ k;
  sc_bytes : sb_bytes sb = zsum entry_bytes (sb_packets sb);
  sc_small : Forall (fun o => entry_bytes o < U32) (sb_packets sb)
}.

Record sb_core (k newest : Z) (sb : SendBuffer) : Prop := {
  sc_shape : sb_shape k sb;
  sc_started : sb_started sb = true;
  sc_highest : sb_highest_added sb = newest mod 65536;
  sc_slots : forall e en, in_window k newest e -> stored k sb e = Some en ->
    sequence_number (header (en_packet en)) = e mod 65536
}.

(** ... and [oldest] is where the entries start. *)
Record sb_ok (k newest oldest : Z) (sb : SendBuffer) : Prop := {
  so_core : sb_core k newest sb;
  so_oldest : sb_oldest sb = oldest mod 65536;
  so_range : in_window k newest oldest;
  so_empty : forall e, in_window k newest e -> e < oldest -> stored k sb e = None
}.

Lemma mod_mod_size16 x k : 0 <= k <= 15 -> (x mod 65536) mod 2 ^ k = x mod 2 ^ k.
Proof.
  intros Hk. change 65536 with (2 ^ 16). replace (2 ^ 16) with (2 ^ k * 2 ^ (16 - k)) by (rewrite <- Z.pow_add_r by lia; f_equal; lia).
  rewrite Z.rem_mul_r by (apply Z.pow_nonzero || apply Z.pow_pos_nonneg; lia). rewrite Z.mul_comm, Z.mod_add by (apply Z.pow_nonzero; lia).
  apply Z.mod_mod, Z.pow_nonzero; lia.
Qed.

Lemma size16_bounds k : 0 <= k <= 15 -> 1 <= 2 ^ k <= 32768.
Proof. intros. split; [change 1 with (2 ^ 0)|change 32768 with (2 ^ 15)]; apply Z.pow_le_mono_r; lia. Qed.

Lemma entry_bytes_nonneg o : 0 <= entry_bytes o.
Proof. destruct o; [apply zlen_nonneg|done]. Qed.

Lemma no_entry_bytes {A} (l : list A) : zsum entry_bytes (map (fun _ => None) l) = 0.
Proof. induction l as [|x l IH]; [done|]. exact IH. Qed.

Definition with_packets (sb : SendBuffer) (packets : list (option Entry)) : SendBuffer :=
  sb <| sb_packets := packets |> <| sb_bytes := zsum entry_bytes packets |>.

Section slots.
Context (k newest : Z) (sb : SendBuffer) (C : sb_shape k sb).

Lemma slot_lookup e : exists o, sb_packets sb !! Z.to_nat (e mod 2 ^ k) = Some o /\ stored k sb e = o /\
  forall E, slot_at (E:=E) (sb_packets sb) (Z.land (e mod 65536) (sb_mask sb)) = Ok o.
Proof using C.
  destruct C. pose proof (size16_bounds k sc_k0). pose proof (Z.mod_pos_bound e (2 ^ k) ltac:(lia)).
  destruct (lookup_lt_is_Some_2 (sb_packets sb) (Z.to_nat (e mod 2 ^ k))) as [o Ho]; [unfold zlen in *; lia|].
  exists o. split; [done|]. unfold stored. rewrite Ho. split; [by destruct o|]. intros E. unfold slot_at.
  rewrite sc_mask0, land_pred_pow, mod_mod_size16 by lia. rewrite (proj2 (Z.ltb_ge _ _)) by lia. by rewrite Ho.
Qed.

Lemma stored_set e x o : in_window k newest e -> in_window k newest x ->
  stored k (with_packets sb (<[Z.to_nat (e mod 2 ^ k) := o]> (sb_packets sb))) x = if decide (x = e) then o else stored k sb x.
Proof using C.
  intros He Hx. destruct (slot_lookup e) as (o1 & L1 & _). destruct C. pose proof (size16_bounds k sc_k0). unfold stored, with_packets. cbn [sb_packets over].
  destruct (decide (x = e)) as [->|Hne].
  - rewrite list_lookup_insert_eq by (by eapply lookup_lt_Some). by destruct o.
  - rewrite list_lookup_insert_ne; [done|]. intros Em. apply Hne. apply (window_unique (2 ^ k) x e newest); [lia|done..|].
    pose proof (Z.mod_pos_bound e (2 ^ k)). pose proof (Z.mod_pos_bound x (2 ^ k)). lia.
Qed.

Lemma sb_clear_Ok `{OverflowChecks} E e : sb_clear (E:=E) sb (e mod 65536) = Ok (with_packets sb (<[Z.to_nat (e mod 2 ^ k) := None]> (sb_packets sb))).
Proof using C.
  destruct (slot_lookup e) as (o & L1 & _ & L2). destruct C. pose proof (size16_bounds k sc_k0). unfold sb_clear.
  rewrite L2. cbn [mbind outcome_bind]. rewrite sc_mask0, land_pred_pow, mod_mod_size16 by lia. unfold with_packets.
  rewrite (zsum_insert entry_bytes _ _ o None L1), <- sc_bytes0. destruct o as [en|]; cbn [entry_bytes].
  - cbn [sb_bytes over]. rewrite sub_ovf_Ok; [cbn [mbind outcome_bind]; by rewrite Z.add_0_r|].
    rewrite sc_bytes0. pose proof (zsum_insert entry_bytes _ _ _ None L1) as Z1. cbn [entry_bytes] in Z1.
    pose proof (zsum_nonneg entry_bytes (<[Z.to_nat (e mod 2 ^ k) := None]> (sb_packets sb)) entry_bytes_nonneg). lia.
  - replace (sb_bytes sb - 0 + 0) with (sb_bytes sb) by lia. by destruct sb.
Qed.

Lemma bytes_clear e : sb_bytes (with_packets sb (<[Z.to_nat (e mod 2 ^ k) := None]> (sb_packets sb))) <= sb_bytes sb.
Proof using C.
  destruct (slot_lookup e) as (oo & L1 & L2 & _). cbn. rewrite (zsum_insert _ _ _ _ _ L1), (sc_bytes _ _ C).
  pose proof (entry_bytes_nonneg oo). cbn [entry_bytes]. lia.
Qed.

Lemma shape_set i o : entry_bytes o < U32 -> sb_shape k (with_packets sb (<[i := o]> (sb_packets sb))).
Proof using C. intros Ho. destruct C. split; try done; [cbn; unfold zlen in *; by rewrite length_insert|by apply Forall_insert]. Qed.
End slots.

Lemma core_set k newest sb e o : sb_core k newest sb -> in_window k newest e -> entry_bytes o < U32 ->
  (forall en, o = Some en -> sequence_number (header (en_packet en)) = e mod 65536) ->
  sb_core k newest (with_packets sb (<[Z.to_nat (e mod 2 ^ k) := o]> (sb_packets sb))).
Proof.
  intros C He Hsm Ho. pose proof (stored_set k newest sb (sc_shape _ _ _ C)) as S. destruct C. split; try done; [by apply shape_set|].
  intros x en Hx. rewrite S by done. destruct (decide (x = e)) as [->|]; [apply Ho|by apply sc_slots0].
Qed.

(** ** Eviction *)

(** Setting [oldest] or [newest_sent_at] changes nothing else. *)
Lemma core_oldest k newest sb f : sb_core k newest sb -> sb_core k newest (sb <| sb_oldest ::= f |>).
Proof. by intros [[] ? ?]. Qed.
Lemma core_newest_sent k newest sb t : sb_core k newest sb -> sb_core k newest (sb <| sb_newest_sent_at := t |>).
Proof. by intros [[] ? ?]. Qed.

Record evicted (k newest now o o' : Z) (sb sb' : SendBuffer) : Prop := {
  ev_ok : sb_ok k newest (Z.min o' newest) sb';
  ev_range : o <= o' <= newest + 1;
  ev_epoch : sb_epoch sb' = sb_epoch sb;
  ev_limits : sb_limits sb' = sb_limits sb;
  ev_stored : forall e, in_window k newest e -> stored k sb' e = if e <? o' then None else stored k sb e;
  ev_kept : o' <= newest -> sb_newest_sent_at sb' = sb_newest_sent_at sb /\
    (exists en, stored k sb o' = Some en /\ expired sb en now = false) /\ (sb_bytes sb' <= max_bytes (sb_limits sb) \/ o' = newest);
  ev_bytes : sb_bytes sb' <= sb_bytes sb;
  ev_all : newest < o' -> sb_newest_sent_at sb' = None;
  ev_reason : forall e en, o <= e < o' -> stored k sb e = Some en ->
    expired sb en now = true \/ (max_bytes (sb_limits sb) < sb_bytes sb /\ e <> newest)
}.

Section evicting.
Context `{OverflowChecks} {E : Type} (k newest now : Z).

Lemma evict_skip sb o o' sb' : sb_core k newest sb -> in_window k newest o -> stored k sb o = None ->
  evicted k newest now (o + 1) o' (sb <| sb_oldest := (o + 1) mod 65536 |>) sb' -> evicted k newest now o o' sb sb'.
Proof.
  intros C Ho Hn []. split; try done; [lia|]. intros e en He Hs. destruct (Z.eq_dec e o) as [->|]; [congruence|]. apply ev_reason0; [lia|done].
Qed.

Lemma evict_drop sb o o' sb' en : sb_core k newest sb -> in_window k newest o -> stored k sb o = Some en ->
  (forall e, in_window k newest e -> e < o -> stored k sb e = None) ->
  expired sb en now = true \/ (max_bytes (sb_limits sb) < sb_bytes sb /\ o <> newest) ->
  evicted k newest now (o + 1) o' (with_packets sb (<[Z.to_nat (o mod 2 ^ k) := None]> (sb_packets sb)) <| sb_oldest := (o + 1) mod 65536 |>) sb' ->
  evicted k newest now o o' sb sb'.
Proof.
  intros C Ho Hs Hemp Hwhy V. pose proof (stored_set k newest sb (sc_shape _ _ _ C)) as Hset. set (ps := <[Z.to_nat (o mod 2 ^ k) := None]> (sb_packets sb)) in *.
  assert (Hst : forall x, in_window k newest x -> stored k (with_packets sb ps <| sb_oldest := (o + 1) mod 65536 |>) x = if decide (x = o) then None else stored k sb x).
  { intros x Hx. by apply Hset. }
  assert (Hle : zsum entry_bytes ps <= sb_bytes sb).
  { apply (bytes_clear k sb (sc_shape _ _ _ C)). }
  destruct V. split; try done; [lia| | |etrans; [exact ev_bytes0|exact Hle]|].
  - intros e He. rewrite ev_stored0, Hst by done. destruct (Z.ltb_spec e o'); [done|]. by rewrite decide_False by lia.
  - intros Hk. destruct (ev_kept0 Hk) as (K1 & (en' & K2 & K3) & K4). split; [done|]. split; [|done]. exists en'. split; [|done].
    rewrite Hst in K2 by (unfold in_window in *; lia). by rewrite decide_False in K2 by lia.
  - intros e en' He Hs'. destruct (Z.eq_dec e o) as [->|Hne]; [congruence|].
    destruct (Z.le_gt_cases e newest) as [Hen|Hen].
    + destruct (ev_reason0 e en') as [Hx|[Hx Hx2]]; [lia| |by left|right].
      * rewrite Hst by (unfold in_window in *; lia). by rewrite decide_False by lia.
      * split; [|done]. change (max_bytes (sb_limits sb) < zsum entry_bytes ps) in Hx. lia.
    + destruct Ho. lia.
Qed.

Lemma evict_loop_Ok fuel sb o : sb_core k newest sb -> newest - 2 ^ k < o <= newest + 1 -> sb_oldest sb = o mod 65536 ->
  (forall e, in_window k newest e -> e < o -> stored k sb e = None) -> (Z.to_nat (newest + 1 - o) <= fuel)%nat ->
  exists sb' o', evict_loop (E:=E) fuel sb now ((newest + 1) mod 65536) = Ok sb' /\ evicted k newest now o o' sb sb'.
Proof.
  revert sb o. induction fuel as [|fuel IH]; intros sb o C Ho Hold Hemp Hf; pose proof (size16_bounds k (sc_k _ _ (sc_shape _ _ _ C))) as Hb; cbn [evict_loop]; rewrite Hold.
  all: destruct (Z.eq_dec o (newest + 1)) as [->|Hne].
  1, 3: rewrite Z.eqb_refl; eexists _, (newest + 1); split; [done|]; split; try done; try lia; cbn [sb_newest_sent_at over];
    [split; cbn; [by apply core_newest_sent, core_oldest|rewrite Z.min_r by lia; apply C|unfold in_window; lia|intros e He _; by apply Hemp; [|unfold in_window in *; lia]]
    |intros e He; rewrite (proj2 (Z.ltb_lt _ _)) by (unfold in_window in *; lia); by apply Hemp; [|unfold in_window in *; lia]].
  1: lia.
  assert (Hw : in_window k newest o) by (unfold in_window; lia).
  assert (Hmod : (o mod 65536 =? (newest + 1) mod 65536) = false).
  { apply not_true_iff_false. intros Hm. apply mod_eq_small in Hm; lia. }
  rewrite Hmod. destruct (slot_lookup k sb (sc_shape _ _ _ C) o) as (s & _ & Hs & ->). cbn [mbind outcome_bind]. unfold wrapping_add, as_u16.
  assert (Hnext : (fun x => (x + 1) mod 65536) (o mod 65536) = (o + 1) mod 65536) by apply Zplus_mod_idemp_l. cbv beta in Hnext.
  destruct s as [en|].
  - rewrite (sc_slots _ _ _ C o en Hw Hs). rewrite Z.eqb_refl, (sc_highest _ _ _ C).
    assert (Hnew : (o mod 65536 =? newest mod 65536) = (o =? newest)).
    { destruct (Z.eqb_spec o newest) as [->|]; [apply Z.eqb_refl|]. apply not_true_iff_false. intros Hm. apply mod_eq_small in Hm; unfold in_window in *; lia. }
    rewrite Hnew. destruct (((max_bytes (sb_limits sb) <? sb_bytes sb) && negb (o =? newest)) || expired sb en now) eqn:Hd; cbn [negb].
    + rewrite (sb_clear_Ok k sb (sc_shape _ _ _ C) E o). cbn [mbind outcome_bind]. set (sb1 := with_packets _ _).
      assert (C1 : sb_core k newest sb1) by (apply core_set; done). assert (Hold1 : sb_oldest sb1 = o mod 65536) by done.
      change (sb1 <| sb_oldest ::= fun x => (x + 1) mod 65536 |>) with (sb1 <| sb_oldest := (sb_oldest sb1 + 1) mod 65536 |>). rewrite Hold1, Hnext.
      destruct (IH (sb1 <| sb_oldest := (o + 1) mod 65536 |>) (o + 1)) as (sb' & o' & -> & V); [by apply core_oldest|unfold in_window in *; lia|done| |lia|].
      { intros e He Hlt. change (stored k sb1 e = None). unfold sb1. rewrite (stored_set k newest sb (sc_shape _ _ _ C)) by done. destruct (decide (e = o)); [done|].
        apply Hemp; [done|lia]. }
      exists sb', o'. split; [done|]. apply (evict_drop sb o o' sb' en); try done.
      apply orb_prop in Hd as [[Hd1 Hd2]%andb_prop|Hd]; [right|by left]. apply Z.ltb_lt in Hd1. apply negb_true_iff, Z.eqb_neq in Hd2. done.
    + apply orb_false_elim in Hd as [Hd1 Hd2]. exists sb, o. split; [done|]. split; try done; try lia.
      * rewrite Z.min_l by (unfold in_window in *; lia). split; try done.
      * intros e He. destruct (Z.ltb_spec e o); [by apply Hemp|done].
      * intros _. split; [done|]. split; [by exists en|]. apply andb_false_iff in Hd1 as [Hd1|Hd1]; [left; by apply Z.ltb_ge in Hd1|].
        right. apply negb_false_iff, Z.eqb_eq in Hd1. done.
  - change (sb <| sb_oldest ::= fun x => (x + 1) mod 65536 |>) with (sb <| sb_oldest := (sb_oldest sb + 1) mod 65536 |>). rewrite Hold, Hnext.
    destruct (IH (sb <| sb_oldest := (o + 1) mod 65536 |>) (o + 1)) as (sb' & o' & -> & V); [by apply core_oldest|unfold in_window in *; lia|done| |lia|].
    { intros e He Hlt. change (stored k sb e = None). destruct (Z.eq_dec e o) as [->|]; [done|]. apply Hemp; [done|lia]. }
    exists sb', o'. split; [done|]. by apply (evict_skip sb o o' sb').
Qed.
End evicting.

(** ** Making room for a packet *)

Section placing.
Context `{OverflowChecks} {E : Type} (k : Z).

Lemma with_own_packets sb : sb_shape k sb -> with_packets sb (sb_packets sb) = sb.
Proof. intros []. unfold with_packets. rewrite <- sc_bytes0. by destruct sb. Qed.

Lemma clear_between_Ok fuel sb a e : sb_shape k sb -> e - 2 ^ k < a <= e -> (Z.to_nat (e - a) <= fuel)%nat ->
  exists ps, clear_between (E:=E) fuel sb (a mod 65536) (e mod 65536) = Ok (with_packets sb ps) /\ sb_shape k (with_packets sb ps) /\ zsum entry_bytes ps <= sb_bytes sb /\
    forall y, e - 2 ^ k < y < e -> stored k (with_packets sb ps) y = if y <? a then stored k sb y else None.
Proof.
  revert sb a. induction fuel as [|fuel IH]; intros sb a C Ha Hf; pose proof (size16_bounds k (sc_k _ _ C)); cbn [clear_between].
  all: destruct (Z.eq_dec a e) as [->|Hne].
  1, 3: exists (sb_packets sb); rewrite Z.eqb_refl, with_own_packets by done; split; [done|]; split; [done|]; split; [rewrite (sc_bytes _ _ C); done|];
    intros y Hy; by rewrite (proj2 (Z.ltb_lt _ _)) by lia.
  1: lia.
  rewrite (proj2 (Z.eqb_neq _ _)) by (intros Hm%Z.eqb_eq; apply mod_eq_small in Hm; lia).
  rewrite (sb_clear_Ok k sb C E a). cbn [mbind outcome_bind]. unfold wrapping_add, as_u16. rewrite Zplus_mod_idemp_l.
  set (sb1 := with_packets sb _). destruct (IH sb1 (a + 1)) as (ps & -> & Hl & Hby & Hst); [by apply shape_set|lia..|].
  exists ps. split; [done|]. split; [done|]. split; [etrans; [exact Hby|by apply bytes_clear]|]. intros y Hy. change (with_packets sb ps) with (with_packets sb1 ps). rewrite Hst by lia.
  unfold sb1. rewrite (stored_set k e sb C a y) by (unfold in_window; lia).
  destruct (decide (y = a)) as [->|]; [by rewrite Z.ltb_irrefl, (proj2 (Z.ltb_lt _ _)) by lia|].
  destruct (Z.ltb_spec y a), (Z.ltb_spec y (a + 1)); try done; lia.
Qed.

(** What [add] leaves before it stores the packet numbered [e]. *)
Definition room_for (sb : SendBuffer) (newest oldest e : Z) (sb1 : SendBuffer) (newest1 oldest1 : Z) : Prop :=
  newest1 = Z.max newest e /\ oldest1 <= e /\ sb_ok k newest1 oldest1 sb1 /\
  sb_epoch sb1 = sb_epoch sb /\ sb_limits sb1 = sb_limits sb /\ sb_newest_sent_at sb1 = sb_newest_sent_at sb /\ sb_bytes sb1 <= sb_bytes sb /\
  forall x, in_window k newest1 x -> stored k sb1 x = if decide (x < e \/ e < x <= newest) then (if x <=? newest then stored k sb x else None) else None.

(** Clearing the packet's own slot makes a state of the window it belongs to. *)
Lemma clear_own sb2 sb newest oldest e newest1 oldest1 :
  sb_ok k newest oldest sb -> newest1 = Z.max newest e -> in_window k newest1 e -> in_window k newest1 oldest1 -> oldest1 <= e ->
  (oldest1 <= oldest \/ oldest1 = newest1 - 2 ^ k + 1 \/ (oldest1 = e /\ newest <= e - 2 ^ k)) ->
  sb_shape k sb2 -> sb_started sb2 = true -> sb_highest_added sb2 = newest1 mod 65536 -> sb_oldest sb2 = oldest1 mod 65536 ->
  sb_epoch sb2 = sb_epoch sb -> sb_limits sb2 = sb_limits sb -> sb_newest_sent_at sb2 = sb_newest_sent_at sb -> sb_bytes sb2 <= sb_bytes sb ->
  (forall x, in_window k newest1 x -> x <> e -> stored k sb2 x = if x <=? newest then stored k sb x else None) ->
  exists sb1, sb_clear (E:=E) sb2 (e mod 65536) = Ok sb1 /\ room_for sb newest oldest e sb1 newest1 oldest1.
Proof.
  intros [C So Sr Se] Hn1 He Ho Hoe Hcase C2 Hst Hh Hold Hep Hli Hns Hby Hx. rewrite (sb_clear_Ok k sb2 C2 E e). set (sb1 := with_packets _ _).
  pose proof (stored_set k newest1 sb2 C2) as Hset.
  assert (Hs : forall x, in_window k newest1 x -> stored k sb1 x = if decide (x < e \/ e < x <= newest) then (if x <=? newest then stored k sb x else None) else None).
  { intros x Hw. unfold sb1. rewrite Hset by done. destruct (decide (x = e)) as [->|Hne]; [by rewrite decide_False by lia|]. rewrite Hx by done.
    destruct (decide (x < e \/ e < x <= newest)); [done|]. destruct (Z.leb_spec x newest); [lia|done]. }
  exists sb1. split; [done|]. split; [done|]. split; [done|]. split; [|split_and!; try done; etrans; [apply bytes_clear; done|done]].
  split; [split; [by apply shape_set|done..|]|done|done|].
  - intros x en Hw. rewrite Hs by done. destruct (decide _); [|done]. destruct (Z.leb_spec x newest); [|done]. apply (sc_slots _ _ _ C).
    unfold in_window in *. lia.
  - intros x Hw Hlt. rewrite Hs by done. destruct (decide _); [|done]. destruct (Z.leb_spec x newest); [|done].
    apply Se; unfold in_window in *; lia.
Qed.

Lemma place_ahead sb newest oldest e : sb_ok k newest oldest sb -> newest < e < newest + 32768 ->
  exists sb1 oldest1, (placed ← place (E:=E) sb (e mod 65536); match placed with None => Panic | Some sb2 => sb_clear sb2 (e mod 65536) end) = Ok sb1 /\
    room_for sb newest oldest e sb1 e oldest1.
Proof.
  intros O He. pose proof O as [C So Sr Se]. pose proof C as [S St Sh _]. pose proof (size16_bounds k (sc_k _ _ S)). unfold place.
  rewrite St. cbn [negb]. assert (Ed : wrapping_sub (e mod 65536) (sb_highest_added sb) = e - newest).
  { unfold wrapping_sub, as_u16. rewrite Sh, <- Zminus_mod. apply Z.mod_small. lia. }
  rewrite Ed, (proj2 (Z.eqb_neq _ _)) by lia. unfold UINT16_SIZE_HALF. rewrite (proj2 (Z.ltb_lt (e - newest) _)) by lia. rewrite (sc_size _ _ S).
  destruct (Z.leb_spec (2 ^ k) (e - newest)) as [Hj|Hj]; cbn [mbind outcome_bind].
  - set (sb2 := _ <| sb_highest_added := e mod 65536 |>). destruct (clear_own sb2 sb newest oldest e e e) as (sb1 & E1 & R); try done; try lia.
    1-2: unfold in_window; lia.
    + destruct S. split; try done; [unfold zlen in *; cbn; by rewrite length_map|cbn; symmetry; apply no_entry_bytes|].
      cbn. apply Forall_fmap, Forall_true. done.
    + rewrite (sc_bytes _ _ S). apply zsum_nonneg, entry_bytes_nonneg.
    + intros x Hw Hne. rewrite (proj2 (Z.leb_gt _ _)) by (unfold in_window in Hw; lia). unfold stored. cbn.
      rewrite list_lookup_fmap. by destruct (sb_packets sb !! _).
    + exists sb1, e. by split.
  - unfold wrapping_add, as_u16. rewrite Sh, Zplus_mod_idemp_l.
    destruct (clear_between_Ok (Z.to_nat 65536) sb (newest + 1) e S ltac:(lia) ltac:(lia)) as (ps & -> & Hl & Hby & Hst). cbn [mbind outcome_bind].
    unfold wrapping_sub, as_u16. change (sb_oldest (with_packets sb ps)) with (sb_oldest sb). change (sb_size (with_packets sb ps)) with (sb_size sb).
    rewrite So, (sc_size _ _ S), (Zminus_mod_idemp_l e (2 ^ k - 1)), <- Zminus_mod. set (ws := e - (2 ^ k - 1)).
    assert (Hcmp : ((ws - oldest) mod 65536 <? 32768) = (oldest <=? ws)).
    { unfold in_window, ws in *. destruct (Z.leb_spec oldest (e - (2 ^ k - 1))).
      - rewrite Z.mod_small by lia. apply Z.ltb_lt. lia.
      - replace (e - (2 ^ k - 1) - oldest) with (e - (2 ^ k - 1) - oldest + 65536 + (-1) * 65536) by lia. rewrite Z.mod_add, Z.mod_small by lia.
        apply Z.ltb_ge. lia. }
    rewrite Hcmp. set (sb2 := _ <| sb_highest_added := e mod 65536 |>).
    destruct (clear_own sb2 sb newest oldest e e (Z.max oldest ws)) as (sb1 & E1 & R); try done; try lia; subst sb2.
    all: try (unfold in_window, ws in *; lia).
    all: try (by destruct (oldest <=? ws)).
    + destruct (oldest <=? ws); destruct Hl; by split.
    + destruct (Z.leb_spec oldest ws); cbn [sb_oldest over]; [by rewrite Z.max_r by lia|]. rewrite Z.max_l by lia. exact So.
    + intros x Hw Hne. transitivity (stored k (with_packets sb ps) x); [by destruct (oldest <=? ws)|]. rewrite Hst by (unfold in_window in Hw; lia).
      destruct (Z.ltb_spec x (newest + 1)), (Z.leb_spec x newest); try done; lia.
    + exists sb1, (Z.max oldest ws). by split.
Qed.

Lemma place_late sb newest oldest e : sb_ok k newest oldest sb -> newest - 2 ^ k < e < newest ->
  exists sb1 oldest1, (placed ← place (E:=E) sb (e mod 65536); match placed with None => Panic | Some sb2 => sb_clear sb2 (e mod 65536) end) = Ok sb1 /\
    room_for sb newest oldest e sb1 newest oldest1.
Proof.
  intros O He. pose proof O as [C So Sr Se]. pose proof C as [S St Sh _]. pose proof (size16_bounds k (sc_k _ _ S)). unfold place.
  rewrite St. cbn [negb]. assert (Ed : wrapping_sub (e mod 65536) (sb_highest_added sb) = e - newest + 65536).
  { unfold wrapping_sub, as_u16. rewrite Sh, <- Zminus_mod. replace (e - newest) with (e - newest + 65536 + (-1) * 65536) by lia.
    rewrite Z.mod_add, Z.mod_small by lia. lia. }
  rewrite Ed, (proj2 (Z.eqb_neq _ _)) by lia. unfold UINT16_SIZE_HALF. rewrite (proj2 (Z.ltb_ge (e - newest + 65536) _)) by lia.
  unfold wrapping_sub, as_u16. rewrite Sh, So, (sc_size _ _ S), <- !Zminus_mod, (Z.mod_small (newest - e)) by lia.
  rewrite (proj2 (Z.leb_gt _ _)) by lia. cbn [mbind outcome_bind].
  assert (Hcmp : ((oldest - e) mod 65536 <? 32768) = (e <=? oldest)).
  { unfold in_window in *. destruct (Z.leb_spec e oldest).
    - rewrite Z.mod_small by lia. apply Z.ltb_lt. lia.
    - replace (oldest - e) with (oldest - e + 65536 + (-1) * 65536) by lia. rewrite Z.mod_add, Z.mod_small by lia. apply Z.ltb_ge. lia. }
  rewrite Hcmp. set (sb2 := if e <=? oldest then sb <| sb_oldest := e mod 65536 |> else sb).
  destruct (clear_own sb2 sb newest oldest e newest (Z.min oldest e)) as (sb1 & E1 & R); try done; try lia; subst sb2.
  all: try (unfold in_window in *; lia). all: try (by destruct (e <=? oldest)).
  - destruct (e <=? oldest); destruct S; by split.
  - destruct (Z.leb_spec e oldest); cbn [sb_oldest over]; [by rewrite Z.min_r by lia|]. by rewrite Z.min_l by lia.
  - intros x Hw Hne. rewrite (proj2 (Z.leb_le x newest)) by (unfold in_window in Hw; lia). by destruct (e <=? oldest).
  - exists sb1, (Z.min oldest e). by split.
Qed.

(** The two early returns. *)
Lemma place_refused sb newest oldest e : sb_ok k newest oldest sb -> e = newest \/ newest - 32768 <= e <= newest - 2 ^ k ->
  place (E:=E) sb (e mod 65536) = Ok None.
Proof.
  intros [[S St Sh _] So Sr Se] He. pose proof (size16_bounds k (sc_k _ _ S)). unfold place. rewrite St. cbn [negb].
  unfold wrapping_sub, as_u16, UINT16_SIZE_HALF. rewrite Sh, (sc_size _ _ S), <- !Zminus_mod. destruct He as [->|He]; [by rewrite Z.sub_diag|].
  replace (e - newest) with (e - newest + 65536 + (-1) * 65536) by lia. rewrite Z.mod_add, (Z.mod_small (e - newest + 65536)), (Z.mod_small (newest - e)) by lia.
  rewrite (proj2 (Z.eqb_neq _ _)) by lia. rewrite (proj2 (Z.ltb_ge (e - newest + 65536) _)) by lia. rewrite (proj2 (Z.leb_le (2 ^ k) (newest - e))) by lia. done.
Qed.

(** ** Adding a packet *)

Lemma zsum_bound {A} (g : A -> Z) l m : Forall (fun x => g x < m) l -> zsum g l <= zlen l * m.
Proof. induction 1 as [|x l Hx _ IH]; [done|]. rewrite zsum_cons, zlen_cons. lia. Qed.

(** What [add] does once there is room for the packet. *)
Definition store (sb1 : SendBuffer) (packet : Packet) (now : Z) : outcome E SendBuffer :=
  bytes ← add_ovf overflow_checks USIZE (sb_bytes sb1) (zlen (payload packet));
  let self := sb1 <| sb_bytes := bytes |> in
  let '(sent_at, self) := stamp self now in
  _ ← slot_at (sb_packets self) (Z.land (sequence_number (header packet)) (sb_mask self));
  let self := self <| sb_packets ::= <[Z.to_nat (Z.land (sequence_number (header packet)) (sb_mask self)) := Some (mkEntry packet sent_at)]> |> in
  let self := match sb_newest_sent_at self with
              | Some newest => if newest <? now then self <| sb_newest_sent_at := Some now |> else self
              | None => self <| sb_newest_sent_at := Some now |>
              end in
  evict self now.

Lemma add_store sb packet now sb1 :
  (placed ← place (E:=E) sb (sequence_number (header packet));
   match placed with None => Panic | Some sb2 => sb_clear sb2 (sequence_number (header packet)) end) = Ok sb1 ->
  SendBuffer_add (E:=E) sb packet now = store sb1 packet now.
Proof.
  unfold SendBuffer_add. destruct (place sb _) as [[sb2|]| | |]; cbn [mbind outcome_bind]; try done. intros ->. done.
Qed.

Lemma add_room sb newest oldest e packet now : sb_ok k newest oldest sb -> newest - 2 ^ k < e < newest + 32768 -> e <> newest ->
  sequence_number (header packet) = e mod 65536 ->
  exists sb1 oldest1, SendBuffer_add (E:=E) sb packet now = store sb1 packet now /\ room_for sb newest oldest e sb1 (Z.max newest e) oldest1.
Proof.
  intros O Hw Hne Hseq. destruct (Z.lt_ge_cases newest e).
  - destruct (place_ahead sb newest oldest e O ltac:(lia)) as (sb1 & oldest1 & E1 & R). rewrite <- Hseq in E1.
    exists sb1, oldest1. rewrite Z.max_r by lia. split; [by apply add_store|done].
  - destruct (place_late sb newest oldest e O ltac:(lia)) as (sb1 & oldest1 & E1 & R). rewrite <- Hseq in E1.
    exists sb1, oldest1. rewrite Z.max_l by lia. split; [by apply add_store|done].
Qed.

Definition max_time (t : option Z) (now : Z) : option Z :=
  match t with Some t => Some (Z.max t now) | None => Some now end.

(** The state in which [add] starts the eviction. *)
Record with_entry (newest e : Z) (packet : Packet) (now : Z) (sb1 sb2 : SendBuffer) : Prop := {
  we_core : sb_core k newest sb2;
  we_epoch : sb_epoch sb2 = Some (default now (sb_epoch sb1));
  we_limits : sb_limits sb2 = sb_limits sb1;
  we_sent : sb_newest_sent_at sb2 = max_time (sb_newest_sent_at sb1) now;
  we_bytes : sb_bytes sb2 = sb_bytes sb1 + zlen (payload packet);
  we_stored : forall x, in_window k newest x -> stored k sb2 x =
    if decide (x = e) then Some (mkEntry packet (as_u64 (saturating_duration_since now (default now (sb_epoch sb1))))) else stored k sb1 x
}.

Lemma store_Ok sb1 newest oldest packet now e : sb_ok k newest oldest sb1 -> in_window k newest e -> oldest <= e -> stored k sb1 e = None ->
  sequence_number (header packet) = e mod 65536 -> zlen (payload packet) < U32 ->
  exists sb2 sb' o', store sb1 packet now = Ok sb' /\ with_entry newest e packet now sb1 sb2 /\ evicted k newest now oldest o' sb2 sb'.
Proof.
  intros [C So Sr Se] He Hoe Hne Hseq Hpl. pose proof C as [S St Sh Sl]. pose proof (size16_bounds k (sc_k _ _ S)) as Hb.
  unfold store. rewrite Hseq. assert (Hsum : sb_bytes sb1 <= 32768 * U32).
  { rewrite (sc_bytes _ _ S). etrans; [apply zsum_bound, S|]. rewrite (sc_length _ _ S). unfold U32. lia. }
  pose proof (zlen_nonneg (payload packet)). rewrite add_ovf_Ok by (unfold U32, USIZE in *; lia). cbn [mbind outcome_bind].
  unfold stamp. cbn [sb_epoch over]. set (epoch := default now (sb_epoch sb1)). set (sent := as_u64 _). cbv zeta. cbn [sb_packets sb_mask over].
  destruct (slot_lookup k sb1 S e) as (oo & L1 & L2 & ->). cbn [mbind outcome_bind].
  rewrite (sc_mask _ _ S), land_pred_pow, mod_mod_size16 by (apply S). rewrite Hne in L2. subst oo.
  set (en := mkEntry packet sent). set (ps := <[Z.to_nat (e mod 2 ^ k) := Some en]> (sb_packets sb1)).
  assert (Hb2 : sb_bytes sb1 + zlen (payload packet) = zsum entry_bytes ps).
  { unfold ps. rewrite (zsum_insert _ _ _ _ _ L1), (sc_bytes _ _ S). cbn. lia. }
  assert (C2 : sb_core k newest (with_packets sb1 ps)).
  { apply core_set; try done. by intros ? [= <-]. }
  set (sb2 := with_packets sb1 ps <| sb_epoch := Some epoch |> <| sb_newest_sent_at := max_time (sb_newest_sent_at sb1) now |>).
  match goal with |- exists _ _ _, evict ?s now = _ /\ _ => replace s with sb2 end.
  2: { unfold sb2, with_packets, max_time. rewrite <- Hb2. destruct sb1; cbn. destruct sb_newest_sent_at0 as [t|]; [|done].
       destruct (Z.ltb_spec t now); [by rewrite Z.max_r by lia|by rewrite Z.max_l by lia]. }
  assert (W : with_entry newest e packet now sb1 sb2).
  { split; try done; [by destruct C2 as [[]]|]. intros x Hx. apply (stored_set k newest sb1 S); done. }
  unfold evict. rewrite (sc_started _ _ _ (we_core _ _ _ _ _ _ W)). cbn [negb]. unfold wrapping_add, as_u16.
  rewrite (sc_highest _ _ _ (we_core _ _ _ _ _ _ W)), Zplus_mod_idemp_l.
  destruct (evict_loop_Ok (E:=E) k newest now (Z.to_nat 65536) sb2 oldest (we_core _ _ _ _ _ _ W)) as (sb' & o' & -> & V);
    [unfold in_window in *; lia|exact So| |unfold in_window in *; lia|by exists sb2, sb', o'].
  intros x Hx Hlt. rewrite (we_stored _ _ _ _ _ _ W) by done. rewrite decide_False by lia. by apply Se.
Qed.
End placing.

(** * The buffer against the history of the packets sent *)

(** A packet sent: its extended sequence number, the packet and the time. *)
Record Sent := mkSent { st_seq : Z; st_packet : Packet; st_time : Z }.

Definition too_old (limits : HistoryLimits) (now t : Z) : Prop := exists age, max_age limits = Some age /\ age <= now - t.
Definition age_ok (limits : HistoryLimits) : Prop := forall age, max_age limits = Some age -> is_u64 age.
Definition payload_bytes (h : list Sent) : Z := zsum (fun s => zlen (payload (st_packet s))) h.

Lemma fmap_unique {A B} (f : A -> B) l x y : NoDup (f <$> l) -> x ∈ l -> y ∈ l -> f x = f y -> x = y.
Proof.
  induction l as [|a l IH]; [intros _ Hx; by apply not_elem_of_nil in Hx|]. rewrite fmap_cons, NoDup_cons. intros [Ha Hnd].
  rewrite !elem_of_cons. intros [->|Hx] [->|Hy] E; [done| | |by apply IH]; exfalso; apply Ha; [rewrite E|rewrite <- E]; by apply list_elem_of_fmap_2.
Qed.

Section history.
Context `{OverflowChecks} {E : Type} (k : Z) (limits : HistoryLimits) (t0 : Z) (Hage : age_ok limits).

(** Up to time [last], the buffer holds of the window what has not aged out. *)
Record history_ok (h : list Sent) (newest last : Z) (sb : SendBuffer) : Prop := {
  ho_ok : exists oldest, sb_ok k newest oldest sb;
  ho_epoch : sb_epoch sb = Some t0;
  ho_limits : sb_limits sb = limits;
  ho_time : t0 <= last < t0 + USIZE;
  ho_times : forall s, s ∈ h -> t0 <= st_time s <= last;
  ho_newest : newest ∈ st_seq <$> h;
  ho_max : forall s, s ∈ h -> st_seq s <= newest;
  ho_bytes : sb_bytes sb <= payload_bytes h;
  ho_sound : forall e en, in_window k newest e -> stored k sb e = Some en ->
    exists s, s ∈ h /\ st_seq s = e /\ en = mkEntry (st_packet s) (st_time s - t0);
  ho_complete : forall s, s ∈ h -> in_window k newest (st_seq s) -> stored k sb (st_seq s) = None -> too_old limits last (st_time s)
}.

Lemma expired_spec sb p t now : sb_epoch sb = Some t0 -> sb_limits sb = limits -> t0 <= t <= now -> now < t0 + USIZE ->
  expired sb (mkEntry p (t - t0)) now = true <-> too_old limits now t.
Proof using Hage.
  intros He Hl Ht Hn. unfold expired, too_old. rewrite He, Hl. unfold USIZE in *. destruct (max_age limits) as [age|] eqn:Ha.
  - pose proof (Hage age Ha) as Hu. unfold is_u64 in Hu. unfold as_u64, saturating_sub, saturating_duration_since. cbn [en_sent_at].
    rewrite (Z.mod_small age), (Z.max_r 0 (now - t0)), (Z.mod_small (now - t0)), Z.max_r by lia. rewrite Z.leb_le. split.
    + intros Hle. exists age. split; [done|lia].
    + intros (? & [= <-] & Hle). lia.
  - split; [done|]. by intros (? & ? & _).
Qed.

(** Storing a packet and evicting keeps the relation. *)
Lemma history_evicted h newest last s now oldest o' sb1 sb2 sb' :
  sb_limits sb1 = limits -> default now (sb_epoch sb1) = t0 -> last <= now < t0 + USIZE -> st_time s = now -> t0 <= now ->
  in_window k newest (st_seq s) -> oldest <= st_seq s -> NoDup (st_seq <$> s :: h) ->
  (forall r, r ∈ h -> t0 <= st_time r <= last) -> newest ∈ st_seq <$> s :: h -> (forall r, r ∈ s :: h -> st_seq r <= newest) ->
  sb_bytes sb1 <= payload_bytes h -> payload_bytes (s :: h) <= max_bytes limits ->
  (forall e en, in_window k newest e -> stored k sb1 e = Some en -> exists r, r ∈ h /\ st_seq r = e /\ en = mkEntry (st_packet r) (st_time r - t0)) ->
  (forall r, r ∈ h -> in_window k newest (st_seq r) -> stored k sb1 (st_seq r) = None -> too_old limits last (st_time r)) ->
  (forall e, in_window k newest e -> e < oldest -> stored k sb1 e = None) ->
  with_entry k newest (st_seq s) (st_packet s) now sb1 sb2 -> evicted k newest now oldest o' sb2 sb' ->
  history_ok (s :: h) newest now sb'.
Proof using Hage.
  intros Hl He Hnow Hts Ht0 Hw Hos Hnd Hh Hnew Hmaxs Hby Hmax Hsound Hcomp Hempty W V. destruct W as [C2 W1 W2 W3 W4 W5]. destruct V. rewrite He in *. rewrite Hl in W2.
  unfold payload_bytes in *. rewrite zsum_cons in *. set (pl := zlen (payload (st_packet s))) in *.
  assert (Hsent : as_u64 (saturating_duration_since now t0) = st_time s - t0).
  { unfold as_u64, saturating_duration_since, USIZE in *. rewrite Z.max_r, Z.mod_small by lia. lia. }
  assert (Hsound2 : forall e en, in_window k newest e -> stored k sb2 e = Some en -> exists r, r ∈ s :: h /\ st_seq r = e /\ en = mkEntry (st_packet r) (st_time r - t0)).
  { intros e en Hwe. rewrite W5 by done. destruct (decide (e = st_seq s)) as [->|].
    - intros [= <-]. exists s. split; [by left|]. split; [done|]. by rewrite Hsent.
    - intros Hs. destruct (Hsound e en Hwe Hs) as (r & Hr & Hr'). exists r. split; [by right|done]. }
  assert (Htimes : forall r, r ∈ s :: h -> t0 <= st_time r <= now).
  { intros r [->|Hr]%elem_of_cons; [lia|]. specialize (Hh r Hr). lia. }
  split; [by eexists|congruence|congruence|lia|done|done|done|unfold payload_bytes; rewrite zsum_cons; fold pl; lia| |].
  - intros e en Hwe. rewrite ev_stored0 by done. destruct (e <? o'); [done|]. by apply Hsound2.
  - intros r Hr Hwr. rewrite ev_stored0 by done. destruct (stored k sb2 (st_seq r)) as [en|] eqn:Hs.
    + destruct (Z.ltb_spec (st_seq r) o'); [|done]. intros _. destruct (Hsound2 _ _ Hwr Hs) as (r' & Hr' & Hseq & ->).
      assert (r' = r) as -> by (by apply (fmap_unique st_seq (s :: h))).
      assert (Hor : oldest <= st_seq r).
      { destruct (Z.le_gt_cases oldest (st_seq r)); [done|]. rewrite W5, decide_False, Hempty in Hs; try done; lia. }
      destruct (ev_reason0 (st_seq r) _ ltac:(lia) Hs) as [Hx|[Hx _]]; [|rewrite W2 in Hx; lia].
      apply (expired_spec sb2) in Hx; [done..|by apply Htimes|lia].
    + intros _. rewrite W5 in Hs by done. destruct (decide (st_seq r = st_seq s)); [done|]. apply elem_of_cons in Hr as [->|Hr]; [done|].
      destruct (Hcomp r Hr Hwr Hs) as (age & Ha & Hle). exists age. split; [done|]. lia.
Qed.

Definition sendable (s : Sent) : Prop := sequence_number (header (st_packet s)) = st_seq s mod 65536 /\ zlen (payload (st_packet s)) < U32.

Lemma history_add h newest last sb s : history_ok h newest last sb -> newest - 2 ^ k < st_seq s < newest + 32768 -> sendable s ->
  NoDup (st_seq <$> s :: h) -> last <= st_time s < t0 + USIZE -> payload_bytes (s :: h) <= max_bytes limits ->
  exists sb', SendBuffer_add (E:=E) sb (st_packet s) (st_time s) = Ok sb' /\ history_ok (s :: h) (Z.max newest (st_seq s)) (st_time s) sb'.
Proof using Hage.
  intros [[oldest O] He Hl Ht Hts Hnew Hmax Hby Hsound Hcomp] Hw [Hseq Hpl] Hnd Hnow Hbud. set (e := st_seq s) in *.
  assert (Hne : e <> newest). { intros Hen. rewrite fmap_cons, NoDup_cons in Hnd. apply Hnd. fold e. by rewrite Hen. }
  pose proof (add_room (E:=E) k sb newest oldest e (st_packet s) (st_time s) O Hw Hne Hseq) as R.
  destruct R as (sb1 & oldest1 & -> & _ & Roe & RO & Rep & Rli & Rns & Rby & Rst). set (n1 := Z.max newest e) in *.
  assert (Hb : 1 <= 2 ^ k) by (apply size16_bounds, (sc_k _ _ (sc_shape _ _ _ (so_core _ _ _ _ O)))).
  assert (Hwe : in_window k n1 e) by (unfold in_window, n1; lia).
  assert (Hst : forall x, in_window k n1 x -> x <> e -> x <= newest -> stored k sb1 x = stored k sb x).
  { intros x Hx Hxe Hxn. rewrite Rst, decide_True by (done || lia). by rewrite (proj2 (Z.leb_le _ _)). }
  destruct (store_Ok (E:=E) k sb1 n1 oldest1 (st_packet s) (st_time s) e RO Hwe Roe) as (sb2 & sb' & o' & -> & W & V); [|done..|].
  { rewrite Rst by done. by rewrite decide_False by lia. }
  exists sb'. split; [done|]. apply (history_evicted h n1 last s (st_time s) oldest1 o' sb1 sb2 sb'); try done; try lia.
  - congruence.
  - by rewrite Rep, He.
  - unfold n1. destruct (Z.max_spec newest e) as [[_ ->]|[_ ->]]; [left|by right].
  - intros r [->|Hr]%elem_of_cons; [fold e; lia|]. specialize (Hmax r Hr). lia.
  - intros x en Hx. rewrite Rst by done. destruct (decide _); [|done]. destruct (Z.leb_spec x newest); [|done]. apply Hsound.
    unfold in_window, n1 in *. lia.
  - intros r Hr Hwr Hn. pose proof (Hmax r Hr). apply Hcomp; [done|unfold in_window, n1 in *; lia|]. rewrite <- Hst; try done.
    intros Ee. rewrite fmap_cons, NoDup_cons in Hnd. apply Hnd. fold e. rewrite <- Ee. by apply list_elem_of_fmap_2.
  - apply RO.
Qed.

(** The packets a buffer can keep apart, in the order they are sent. *)
Fixpoint sent_in_order (size newest last : Z) (l : list Sent) : Prop :=
  match l with
  | [] => True
  | s :: r => newest - size < st_seq s < newest + 32768 /\ sendable s /\ last <= st_time s < t0 + USIZE /\
      sent_in_order size (Z.max newest (st_seq s)) (st_time s) r
  end.

Lemma history_all l h newest last sb : history_ok h newest last sb -> sent_in_order (2 ^ k) newest last l ->
  NoDup (st_seq <$> rev l ++ h) -> payload_bytes (rev l ++ h) <= max_bytes limits ->
  exists sb' last', foldM (fun s sb => SendBuffer_add (E:=E) sb (st_packet s) (st_time s)) l sb = Ok sb' /\
    history_ok (rev l ++ h) (foldl (fun n s => Z.max n (st_seq s)) newest l) last' sb' /\ last' = List.last (st_time <$> l) last.
Proof using Hage.
  revert h newest last sb. induction l as [|s l IH]; intros h newest last sb Hok Hin Hnd Hbud.
  - exists sb, last. done.
  - cbn [rev] in *. rewrite <- (assoc_L app) in *. cbn [app] in *. destruct Hin as (Hw & Hs & Ht & Hin).
    assert (Hnd1 : NoDup (st_seq <$> s :: h)) by (rewrite fmap_app in Hnd; by apply NoDup_app in Hnd as (_ & _ & ?)).
    assert (Hb1 : payload_bytes (s :: h) <= max_bytes limits).
    { unfold payload_bytes in *. rewrite zsum_app in Hbud. pose proof (zsum_nonneg (fun s => zlen (payload (st_packet s))) (rev l) ltac:(intros; apply zlen_nonneg)). lia. }
    destruct (history_add h newest last sb s Hok Hw Hs Hnd1 Ht Hb1) as (sb1 & E1 & Hok1).
    destruct (IH _ _ _ _ Hok1 Hin Hnd Hbud) as (sb' & last' & E2 & Hok' & ->). exists sb'. eexists. split; [cbn [foldM]; rewrite E1; exact E2|].
    split; [done|]. rewrite fmap_cons. by rewrite last_cons_default.
Qed.
End history.

(** ** The first packet, and lookups *)

Section use.
Context `{OverflowChecks} {E : Type}.

Lemma with_limits_ok size limits sb : with_limits size limits = Some sb -> exists k, 0 <= k <= 15 /\ size = 2 ^ k /\
  sb = mkSendBuffer (replicate (Z.to_nat (2 ^ k)) None) (2 ^ k) (2 ^ k - 1) 0 false 0 0 None None limits.
Proof.
  unfold with_limits. destruct (existsb _ _) eqn:X; [|done]. intros [= <-]. apply existsb_exists in X as (k & Hk & Es).
  apply list_elem_of_In, elem_of_seqZ in Hk. apply Z.eqb_eq in Es. rewrite Z.shiftl_1_l in Es. exists k. split; [lia|]. split; [done|]. by rewrite Es.
Qed.

Lemma first_room size limits sb packet e now : with_limits size limits = Some sb -> sequence_number (header packet) = e mod 65536 ->
  exists k sb1, size = 2 ^ k /\ SendBuffer_add (E:=E) sb packet now = store (E:=E) sb1 packet now /\ sb_ok k e e sb1 /\
    (forall x, stored k sb1 x = None) /\ sb_epoch sb1 = None /\ sb_limits sb1 = limits /\ sb_newest_sent_at sb1 = None /\ sb_bytes sb1 = 0.
Proof.
  intros Hnew Hseq. destruct (with_limits_ok _ _ _ Hnew) as (k & Hk & Hs & ->). clear Hnew. exists k. pose proof (size16_bounds k Hk).
  set (ps := replicate (Z.to_nat (2 ^ k)) None).
  assert (Hnone : forall i o, ps !! i = Some o -> o = None) by (by intros i o [-> _]%lookup_replicate).
  set (sb2 := mkSendBuffer ps (2 ^ k) (2 ^ k - 1) (e mod 65536) true (e mod 65536) 0 None None limits).
  assert (Hz : forall l : list (option Entry), (forall i o, l !! i = Some o -> o = None) -> zsum entry_bytes l = 0).
  { induction l as [|o l IH]; intros Hl; [done|]. rewrite zsum_cons, IH by (intros i; apply (Hl (S i))). by rewrite (Hl 0%nat o eq_refl). }
  assert (S2 : sb_shape k sb2).
  { split; try done; [change (zlen ps = 2 ^ k); unfold zlen, ps; rewrite length_replicate; lia|by change (0 = zsum entry_bytes ps); rewrite Hz|]. apply Forall_lookup. intros i o Ho. by rewrite (Hnone i o Ho). }
  assert (Hclear : forall i o, <[Z.to_nat (e mod 2 ^ k) := None]> ps !! i = Some o -> o = None).
  { intros i o Ho. apply list_lookup_insert_Some in Ho as [(_ & <- & _)|[_ Ho]]; [done|by apply (Hnone i)]. }
  exists (with_packets sb2 (<[Z.to_nat (e mod 2 ^ k) := None]> ps)). split; [done|].
  split; [apply add_store; rewrite Hseq; cbn [place sb_started negb mbind outcome_bind]; apply (sb_clear_Ok k sb2 S2)|].
  assert (Hst : forall x, stored k (with_packets sb2 (<[Z.to_nat (e mod 2 ^ k) := None]> ps)) x = None).
  { intros x. unfold stored. cbn. destruct (<[_ := _]> ps !! _) as [o|] eqn:Ho; [|done]. by rewrite (Hclear _ _ Ho). }
  split; [|by split_and!; [..|apply Hz]]. split; try done; [|unfold in_window; lia]. split; try done; [by apply shape_set|].
  intros x en _. by rewrite Hst.
Qed.

Lemma SendBuffer_get_Ok k newest oldest sb e now : sb_ok k newest oldest sb -> newest - 32768 < e <= newest + 32768 ->
  SendBuffer_get (E:=E) sb (e mod 65536) now = Ok
    (if decide (in_window k newest e) then
       match stored k sb e with Some en => if expired sb en now then None else Some (en_packet en) | None => None end
     else None).
Proof.
  intros [C So Sr Se] He. pose proof C as [S St Sh Sl]. pose proof (size16_bounds k (sc_k _ _ S)). unfold SendBuffer_get. rewrite St. cbn [negb].
  unfold wrapping_sub, as_u16, UINT16_SIZE_HALF. rewrite Sh, (sc_size _ _ S), <- Zminus_mod. unfold in_window. destruct (Z.le_gt_cases e newest).
  - rewrite Z.mod_small by lia. rewrite (proj2 (Z.leb_gt 32768 _)) by lia. destruct (Z.leb_spec (2 ^ k) (newest - e)); [by rewrite decide_False by lia|].
    rewrite decide_True by lia. destruct (slot_lookup k sb S e) as (o & _ & Ho & ->). cbn [mbind outcome_bind]. rewrite Ho. destruct o as [en|]; [|done].
    rewrite (Sl e en) by (unfold in_window; done || lia). rewrite Z.eqb_refl. cbn [negb orb]. by destruct (expired sb en now).
  - replace (newest - e) with (newest - e + 65536 + (-1) * 65536) by lia. rewrite Z.mod_add, Z.mod_small by lia.
    rewrite (proj2 (Z.leb_le _ _)) by lia. by rewrite decide_False by lia.
Qed.

Lemma history_first size limits sb s : with_limits size limits = Some sb -> age_ok limits -> sendable s -> payload_bytes [s] <= max_bytes limits ->
  exists k sb', size = 2 ^ k /\ SendBuffer_add (E:=E) sb (st_packet s) (st_time s) = Ok sb' /\
    history_ok k limits (st_time s) [s] (st_seq s) (st_time s) sb'.
Proof.
  intros Hnew Hage [Hseq Hpl] Hbud.
  destruct (first_room _ _ _ _ _ (st_time s) Hnew Hseq) as (k & sb1 & Hs & -> & O & Hst & Hep & Hli & Hns & Hby). exists k.
  pose proof (size16_bounds k (sc_k _ _ (sc_shape _ _ _ (so_core _ _ _ _ O)))).
  assert (Hw : in_window k (st_seq s) (st_seq s)) by (unfold in_window; lia).
  destruct (store_Ok (E:=E) k sb1 (st_seq s) (st_seq s) (st_packet s) (st_time s) (st_seq s) O Hw) as (sb2 & sb' & o' & -> & W & V); try done; try lia.
  exists sb'. split; [done|]. split; [done|]. apply (history_evicted k limits (st_time s) Hage [] (st_seq s) (st_time s) s (st_time s) (st_seq s) o' sb1 sb2 sb'); try done.
  - by rewrite Hep.
  - unfold USIZE. lia.
  - apply NoDup_singleton.
  - intros r Hr. by apply not_elem_of_nil in Hr.
  - by left.
  - intros r ->%list_elem_of_singleton. done.
  - by rewrite Hby.
  - intros e en _. by rewrite Hst.
  - intros r Hr. by apply not_elem_of_nil in Hr.
Qed.
End use.

(** The buffer after a run of packets. *)
Lemma history_run `{OverflowChecks} {E} size limits sb s0 l :
  with_limits size limits = Some sb -> age_ok limits -> sendable s0 -> sent_in_order (st_time s0) size (st_seq s0) (st_time s0) l ->
  NoDup (st_seq <$> s0 :: l) -> payload_bytes (s0 :: l) <= max_bytes limits ->
  exists k sb', size = 2 ^ k /\ foldM (fun s sb => SendBuffer_add (E:=E) sb (st_packet s) (st_time s)) (s0 :: l) sb = Ok sb' /\
    history_ok k limits (st_time s0) (rev l ++ [s0]) (foldl (fun n s => Z.max n (st_seq s)) (st_seq s0) l) (List.last (st_time <$> l) (st_time s0)) sb'.
Proof.
  intros Hnew Hage Hs0 Hin Hnd Hbud.
  assert (Hb0 : payload_bytes [s0] <= max_bytes limits).
  { unfold payload_bytes in *. rewrite zsum_cons in *. pose proof (zsum_nonneg (fun s => zlen (payload (st_packet s))) l ltac:(intros; apply zlen_nonneg)). cbn in *. lia. }
  destruct (history_first (E:=E) _ _ _ s0 Hnew Hage Hs0 Hb0) as (k & sb1 & -> & E1 & H1).
  assert (Hperm : rev l ++ [s0] ≡ₚ s0 :: l) by (rewrite <- Permutation_rev; apply Permutation_app_comm).
  destruct (history_all (E:=E) k limits (st_time s0) Hage l [s0] _ _ sb1 H1 Hin) as (sb' & last' & E2 & H2 & ->).
  { by rewrite Hperm. }
  { unfold payload_bytes in *. by rewrite (zsum_perm _ _ _ Hperm). }
  exists k, sb'. split; [done|]. split; [cbn [foldM]; rewrite E1; exact E2|done].
Qed.

(** What a lookup finds, as a function of the history. *)
Definition too_oldb (limits : HistoryLimits) (now t : Z) : bool :=
  match max_age limits with Some age => age <=? now - t | None => false end.
Definition retained (h : list Sent) (limits : HistoryLimits) (size newest now e : Z) : option Packet :=
  match List.find (fun s => st_seq s =? e) h with
  | Some s => if (newest - size <? e) && negb (too_oldb limits now (st_time s)) then Some (st_packet s) else None
  | None => None
  end.

Lemma too_oldb_spec limits now t : too_oldb limits now t = true <-> too_old limits now t.
Proof.
  unfold too_oldb, too_old. destruct (max_age limits) as [age|]; [rewrite Z.leb_le|]; split; try done.
  - intros. by exists age.
  - by intros (? & [= <-] & ?).
  - by intros (? & ? & _).
Qed.

Lemma find_unique h s : NoDup (st_seq <$> h) -> s ∈ h -> List.find (fun r => st_seq r =? st_seq s) h = Some s.
Proof.
  intros Hnd Hs. destruct (List.find _ h) as [r|] eqn:F.
  - apply find_some in F as [Hr Es]. apply list_elem_of_In in Hr. apply Z.eqb_eq in Es. f_equal. by apply (fmap_unique st_seq h).
  - apply list_elem_of_In in Hs. pose proof (find_none _ _ F s Hs) as Hn. cbn in Hn. by rewrite Z.eqb_refl in Hn.
Qed.

Lemma history_get `{OverflowChecks} {E} k limits t0 h newest last sb now e : age_ok limits -> history_ok k limits t0 h newest last sb ->
  NoDup (st_seq <$> h) -> last <= now < t0 + USIZE -> newest - 32768 < e <= newest + 32768 ->
  SendBuffer_get (E:=E) sb (e mod 65536) now = Ok (retained h limits (2 ^ k) newest now e).
Proof.
  intros Hage [[oldest O] Hep Hli Ht Hts Hne Hmx Hby Hsound Hcomp] Hnd Hnow He. rewrite (SendBuffer_get_Ok k newest oldest sb e now O He). f_equal.
  assert (Hin : forall s, s ∈ h -> st_seq s = e -> retained h limits (2 ^ k) newest now e =
    if (newest - 2 ^ k <? e) && negb (too_oldb limits now (st_time s)) then Some (st_packet s) else None).
  { intros s Hs <-. unfold retained. by rewrite find_unique. }
  destruct (decide (in_window k newest e)) as [Hw|Hw].
  - destruct (stored k sb e) as [en|] eqn:Hs.
    + destruct (Hsound e en Hw Hs) as (s & Hsh & Hse & ->). rewrite (Hin s Hsh Hse). unfold in_window in Hw. rewrite (proj2 (Z.ltb_lt _ _)) by lia.
      cbn [andb en_packet]. pose proof (Hts s Hsh). pose proof (expired_spec limits t0 Hage sb (st_packet s) (st_time s) now Hep Hli ltac:(lia) ltac:(lia)) as Hx.
      pose proof (too_oldb_spec limits now (st_time s)) as Hy. destruct (expired _ _ _), (too_oldb _ _ _); try done; exfalso; naive_solver.
    + unfold retained. destruct (List.find _ h) as [s|] eqn:F; [|done]. apply find_some in F as [Hr Es]. apply list_elem_of_In in Hr. apply Z.eqb_eq in Es.
      subst e. destruct (Hcomp s Hr Hw Hs) as (age & Ha & Hle). unfold too_oldb. rewrite Ha, (proj2 (Z.leb_le _ _)) by lia. by rewrite andb_false_r.
  - unfold retained. destruct (List.find _ h) as [s|] eqn:F; [|done]. apply find_some in F as [Hr Es]. apply list_elem_of_In in Hr. apply Z.eqb_eq in Es.
    pose proof (Hmx s Hr). unfold in_window in Hw. rewrite (proj2 (Z.ltb_ge _ _)) by lia. done.
Qed.

(** C13: Packets are sent with distinct sequence numbers, extended past the wrap, none older
    than the window and no jump of half the number space, at times that do not go back
    and within the byte budget: adding them never fails, and a lookup at a later time
    finds a packet exactly when it was sent under that number, its number is among the
    last [size] and it has not reached the age limit. *)
Theorem send_buffer_exact (oc : bool) size limits sb s0 l now :
  with_limits size limits = Some sb -> age_ok limits -> sendable s0 -> sent_in_order (st_time s0) size (st_seq s0) (st_time s0) l ->
  NoDup (st_seq <$> s0 :: l) -> payload_bytes (s0 :: l) <= max_bytes limits ->
  List.last (st_time <$> l) (st_time s0) <= now < st_time s0 + USIZE ->
  let _ : OverflowChecks := oc in
  let newest := foldl (fun n s => Z.max n (st_seq s)) (st_seq s0) l in
  exists sb', foldM (fun s sb => SendBuffer_add (E:=MediaError) sb (st_packet s) (st_time s)) (s0 :: l) sb = Ok sb' /\
    forall e, newest - 32768 < e <= newest + 32768 -> exists r, SendBuffer_get (E:=MediaError) sb' (e mod 65536) now = Ok r /\
      forall p, r = Some p <-> exists t, mkSent e p t ∈ s0 :: l /\ newest - size < e /\ ~ too_old limits now t.
Proof.
  intros Hnew Hage Hs0 Hin Hnd Hbud Hnow OC newest.
  destruct (history_run (E:=MediaError) _ _ _ _ _ Hnew Hage Hs0 Hin Hnd Hbud) as (k & sb' & -> & E1 & H1). exists sb'. split; [done|].
  assert (Hperm : rev l ++ [s0] ≡ₚ s0 :: l) by (rewrite <- Permutation_rev; apply Permutation_app_comm).
  assert (Hnd' : NoDup (st_seq <$> rev l ++ [s0])) by (by rewrite Hperm). intros e He.
  eexists. split; [by apply (history_get (E:=MediaError) _ _ _ _ _ _ _ now e Hage H1 Hnd')|]. setoid_rewrite <- Hperm. clear -Hnd'. intros p. unfold retained. split.
  - destruct (List.find _ _) as [[e' p' t]|] eqn:F; [|done]. apply find_some in F as [Hr Es]. apply list_elem_of_In in Hr. apply Z.eqb_eq in Es. cbn in *. subst e'.
    destruct (_ && _) eqn:C; [|done]. intros [= <-]. apply andb_prop in C as [C1%Z.ltb_lt C2%negb_true_iff]. exists t. split; [done|]. split; [done|].
    intros Hold%too_oldb_spec. congruence.
  - intros (t & Hr & Hlt & Hy). pose proof (find_unique _ _ Hnd' Hr) as F. cbn [st_seq] in F. rewrite F. cbn [st_time st_packet].
    rewrite (proj2 (Z.ltb_lt _ _)) by done. destruct (too_oldb limits now t) eqn:To; [|done]. apply too_oldb_spec in To. done.
Qed.

Definition example_packet (seq : Z) (body : bytes) : Packet :=
  mkPacket (mkHeader 2 false false false 96 seq 3000 7 [] 0 [] 0) body.

(** Three packets across the wrap in a buffer of two with an age limit of 100 ns. *)
Lemma send_buffer_exact_witness :
  exists sb, with_limits 2 (mkHistoryLimits 100 (Some 100)) = Some sb /\
  exists sb', foldM (fun s sb => SendBuffer_add (E:=MediaError) (H:=true) sb (st_packet s) (st_time s))
      [mkSent 65535 (example_packet 65535 [1]) 10; mkSent 65536 (example_packet 0 [2]) 20; mkSent 65537 (example_packet 1 [3]) 30] sb = Ok sb' /\
    SendBuffer_get (E:=MediaError) sb' 0 119 = Ok (Some (example_packet 0 [2])).
Proof.
  eexists. split; [reflexivity|].
  destruct (send_buffer_exact true 2 (mkHistoryLimits 100 (Some 100)) _ (mkSent 65535 (example_packet 65535 [1]) 10)
    [mkSent 65536 (example_packet 0 [2]) 20; mkSent 65537 (example_packet 1 [3]) 30] 119 eq_refl) as (sb' & E1 & G).
  - intros age [= <-]. unfold is_u64. lia.
  - split; reflexivity.
  - cbn [sent_in_order]. unfold sendable. split_and!; first [exact I | vm_compute; congruence].
  - apply (bool_decide_eq_true_1 _). reflexivity.
  - vm_compute. congruence.
  - unfold USIZE. cbn. lia.
  - exists sb'. split; [exact E1|]. destruct (G 65536) as (r & E2 & Hr); [cbn; lia|]. refine (eq_trans E2 _). f_equal. apply Hr. exists 20.
    split; [right; left|]. split; [cbn; lia|]. intros (age & [= <-] & Hle). lia.
Defined.

(** ** The limits *)

(** Nothing is kept beyond the byte limit but the newest packet. *)
Definition within_budget (k newest : Z) (sb : SendBuffer) : Prop :=
  sb_bytes sb <= max_bytes (sb_limits sb) \/ forall x, in_window k newest x -> x <> newest -> stored k sb x = None.

Lemma evicted_budget k newest now o o' sb sb' : evicted k newest now o o' sb sb' -> within_budget k newest sb'.
Proof.
  intros []. unfold within_budget. rewrite ev_limits0. destruct (Z.le_gt_cases o' newest) as [Hle|Hgt].
  - destruct (ev_kept0 Hle) as (_ & _ & [Hb| ->]); [by left|]. right. intros x Hx Hne. rewrite ev_stored0 by done.
    unfold in_window in Hx. by rewrite (proj2 (Z.ltb_lt _ _)) by lia.
  - right. intros x Hx Hne. rewrite ev_stored0 by done. unfold in_window in Hx. by rewrite (proj2 (Z.ltb_lt _ _)) by lia.
Qed.

(** C34: Whatever the limits and whichever number within half the number space is added, [add]
    returns and keeps the buffer well formed: the byte count is the sum over the stored
    packets, every stored packet is in the slot of its number inside the window and none
    is before [oldest], and the stored payloads stay within the byte limit unless only
    the newest packet is left. *)
Theorem send_buffer_invariant (oc : bool) k newest oldest sb packet e now :
  sb_ok k newest oldest sb -> within_budget k newest sb -> newest - 32768 <= e < newest + 32768 ->
  sequence_number (header packet) = e mod 65536 -> zlen (payload packet) < U32 ->
  let _ : OverflowChecks := oc in
  exists sb' oldest', SendBuffer_add (E:=MediaError) sb packet now = Ok sb' /\
    sb_ok k (Z.max newest e) oldest' sb' /\ within_budget k (Z.max newest e) sb' /\ sb_limits sb' = sb_limits sb.
Proof.
  intros O Hbud He Hseq Hpl OC. destruct (decide (e = newest \/ newest - 32768 <= e <= newest - 2 ^ k)) as [Hr|Hr].
  - exists sb, oldest. unfold SendBuffer_add. rewrite Hseq, (place_refused (E:=MediaError) k sb newest oldest e O Hr). split; [done|].
    pose proof (size16_bounds k (sc_k _ _ (sc_shape _ _ _ (so_core _ _ _ _ O)))). by rewrite Z.max_l by lia.
  - pose proof (add_room (E:=MediaError) k sb newest oldest e packet now O ltac:(lia) ltac:(lia) Hseq) as R.
    destruct R as (sb1 & oldest1 & -> & _ & Roe & RO & Rep & Rli & Rns & Rby & Rst).
    pose proof (size16_bounds k (sc_k _ _ (sc_shape _ _ _ (so_core _ _ _ _ O)))).
    destruct (store_Ok (E:=MediaError) k sb1 (Z.max newest e) oldest1 packet now e RO) as (sb2 & sb' & o' & -> & W & V); try done.
    + unfold in_window. lia.
    + rewrite Rst by (unfold in_window; lia). by rewrite decide_False by lia.
    + exists sb'. eexists. split; [done|]. split; [apply V|]. split; [by eapply evicted_budget|].
      rewrite (ev_limits _ _ _ _ _ _ _ V), (we_limits _ _ _ _ _ _ _ W). done.
Qed.

Definition example_buffer : SendBuffer :=
  mkSendBuffer [Some (mkEntry (example_packet 4 [1; 2]) 0); None] 2 1 4 true 4 2 (Some 50) (Some 50) (mkHistoryLimits 3 None).

(** A second packet of two bytes exceeds the limit of three: the first one goes. *)
Lemma send_buffer_invariant_witness :
  exists sb' oldest', SendBuffer_add (E:=MediaError) (H:=true) example_buffer (example_packet 5 [3; 4]) 60 = Ok sb' /\
    sb_ok 1 5 oldest' sb' /\ sb_bytes sb' = 2.
Proof.
  assert (Hw : forall e, in_window 1 4 e -> e = 3 \/ e = 4) by (unfold in_window; intros; lia).
  destruct (send_buffer_invariant true 1 4 4 example_buffer (example_packet 5 [3; 4]) 5 60) as (sb' & oldest' & E1 & O & _).
  - split; [split; [split| | |]|..]; try reflexivity; try lia; try (split; vm_compute; congruence).
    + repeat constructor.
    + intros e en He. destruct (Hw e He) as [-> | ->]; [discriminate|]. intros Hs. injection Hs as <-. reflexivity.
    + intros e He Hlt. destruct (Hw e He) as [-> | ->]; [reflexivity|lia].
  - left. vm_compute. congruence.
  - lia.
  - reflexivity.
  - reflexivity.
  - exists sb', oldest'. split; [exact E1|]. split; [exact O|]. vm_compute in E1. injection E1 as <-. reflexivity.
Defined.
