(* ===== verification/RtcpNack.v ===== *)
(** Generic NACK feedback ([rtc-rtcp/src/transport_feedbacks/transport_layer_nack]): the
    lost sequence numbers of a stream packed in pairs of a base number and a mask of the
    sixteen numbers after it, and the codec of the packet that carries them. *)
From S2P Require Import Prelude Marshal Rtp Rtcp Bitmap ReceiveLog.

(** * Pairs *)

Record NackPair := mkNackPair { packet_id : Z; lost_packets : Z }.

Record NackIterator := mkNackIterator { ni_packet_id : Z; ni_bitfield : Z; ni_has_yielded_packet_id : bool }.

Definition NackIterator_next (self : NackIterator) : option (Z * NackIterator) :=
  if negb (ni_has_yielded_packet_id self) then
    Some (ni_packet_id self, mkNackIterator (ni_packet_id self) (ni_bitfield self) true)
  else if negb (ni_bitfield self =? 0) then
    let i := trailing_zeros (ni_bitfield self) in
    Some (wrapping_add (ni_packet_id self) (i + 1),
          mkNackIterator (ni_packet_id self) (Z.land (ni_bitfield self) (ni_bitfield self - 1)) true)
  else None.

Definition NackIterator_size_hint (self : NackIterator) : Z :=
  (if negb (ni_has_yielded_packet_id self) then 1 else 0) + count_ones (ni_bitfield self).

(** [collect]; a pair yields at most 17 numbers. *)
Fixpoint nack_collect {E} (fuel : nat) (it : NackIterator) : outcome E (list Z) :=
  match NackIterator_next it with
  | None => Ok []
  | Some (x, it') => match fuel with O => Diverge | S fuel => l ← nack_collect fuel it'; Ok (x :: l) end
  end.

Definition NackPair_new (seq : Z) : NackPair := mkNackPair seq 0.
Definition NackPair_into_iter (p : NackPair) : NackIterator := mkNackIterator (packet_id p) (lost_packets p) false.
Definition packet_list {E} (p : NackPair) : outcome E (list Z) := nack_collect 17 (NackPair_into_iter p).

(** The body of the loop of [nack_pairs_from_sequence_numbers]; [pairs] and the pair being
    filled are its state. *)
Definition nack_pairs_step (st : list NackPair * NackPair) (seq : Z) : list NackPair * NackPair :=
  let '(pairs, nack_pair) := st in
  if seq =? packet_id nack_pair then st
  else if (seq <=? packet_id nack_pair) || (Z.min 65535 (packet_id nack_pair + 16) <? seq) then (pairs ++ [nack_pair], NackPair_new seq)
  else (pairs, mkNackPair (packet_id nack_pair) (Z.lor (lost_packets nack_pair) (Z.shiftl 1 (seq - packet_id nack_pair - 1)))).

Definition nack_pairs_from_sequence_numbers (seq_nos : list Z) : list NackPair :=
  match seq_nos with
  | [] => []
  | s0 :: r => let '(pairs, nack_pair) := foldl nack_pairs_step ([], NackPair_new s0) r in pairs ++ [nack_pair]
  end.

(** * The packet *)

Definition FORMAT_TLN : Z := 1.
Definition TLN_LENGTH : Z := 2.
Definition NACK_OFFSET : Z := 8.
Definition NACK_MIN_OCTET_COUNT : Z := 12.

Record TransportLayerNack := mkTransportLayerNack { tln_sender_ssrc : Z; tln_media_ssrc : Z; tln_nacks : list NackPair }.

Definition tln_raw_size (p : TransportLayerNack) : Z := RTCP_HEADER_LENGTH + NACK_OFFSET + zlen (tln_nacks p) * 4.
#[export] Instance tln_RtcpTrait : RtcpTrait TransportLayerNack :=
  mkRtcpTrait _ (fun p => padded_header (tln_raw_size p) FORMAT_TLN PT_TransportSpecificFeedback) (fun p => [tln_media_ssrc p]) tln_raw_size.

Definition put_nack_pair (p : NackPair) : bytes := put_u16 (packet_id p) ++ put_u16 (lost_packets p).
Definition get_nack_pair (buf : bytes) : rtp_result (NackPair * bytes) :=
  '(id, buf) ← get_u16 buf; '(lost, buf) ← get_u16 buf; Ok (mkNackPair id lost, buf).

Definition tln_marshal_to (p : TransportLayerNack) (room : Z) : rtp_result (Z * bytes) :=
  if 255 <? zlen (tln_nacks p) + TLN_LENGTH then Err TooManyReports
  else if room <? padded_size p then Err BufferTooShort
  else put_packet (packet_header p) (raw_size p) (padded_size p) room
         (Ok (put_u32 (tln_sender_ssrc p) ++ put_u32 (tln_media_ssrc p) ++ concat (map put_nack_pair (tln_nacks p)))).

(** What is left of the buffer is skipped ([raw_packet.advance(raw_packet.remaining())]). *)
Definition tln_unmarshal (raw_packet : bytes) : rtp_result (TransportLayerNack * bytes) :=
  if zlen raw_packet <? RTCP_HEADER_LENGTH + NACK_MIN_OCTET_COUNT then Err PacketTooShort
  else
    '(h, buf) ← RtcpHeader_unmarshal raw_packet;
    if zlen raw_packet <? RTCP_HEADER_LENGTH + 4 * rh_length h then Err PacketTooShort
    else if negb (bool_decide (rh_packet_type h = PT_TransportSpecificFeedback)) || negb (rh_count h =? FORMAT_TLN) then Err WrongType
    else
      '(sender_ssrc, buf) ← get_u32 buf;
      '(media_ssrc, buf) ← get_u32 buf;
      '(nacks, buf) ← read_n get_nack_pair (Z.to_nat (rh_length h - NACK_OFFSET / 4)) buf;
      Ok (mkTransportLayerNack sender_ssrc media_ssrc nacks, []).

#[export] Instance tln_MarshalSize : MarshalSize TransportLayerNack := mkMarshalSize _ padded_size.
#[export] Instance tln_MarshalTo : MarshalTo MediaError TransportLayerNack := mkMarshalTo _ _ tln_marshal_to.
#[export] Instance tln_Unmarshal : Unmarshal MediaError TransportLayerNack := mkUnmarshal _ _ tln_unmarshal.

(** * The numbers of a pair *)

Definition pair_ok (p : NackPair) : Prop := is_u16 (packet_id p) /\ is_u16 (lost_packets p).

(** The base number, then the numbers its mask names. *)
Definition pair_list (p : NackPair) : list Z := packet_id p :: ((fun i => wrapping_add (packet_id p) (i + 1)) <$> ones (lost_packets p)).

Lemma testbit_u16 b i : is_u16 b -> 16 <= i -> Z.testbit b i = false.
Proof.
  intros Hb Hi. unfold is_u16 in Hb. rewrite Z.testbit_eqb by lia. pose proof (Z.pow_le_mono_r 2 16 i ltac:(lia) ltac:(lia)).
  change (2 ^ 16) with 65536 in *. by rewrite Z.div_small by lia.
Qed.

Lemma ones_u16 b : is_u16 b -> ones b = filter (fun i => Z.testbit b i = true) (seqZ 0 16).
Proof.
  intros Hb. unfold ones. change 64 with (16 + 48). rewrite seqZ_app, filter_app by lia. rewrite (filter_none _ (seqZ (0 + 16) 48)); [apply app_nil_r|].
  intros i Hi%elem_of_seqZ. rewrite testbit_u16 by (done || lia). done.
Qed.

Lemma elem_of_ones b i : is_u16 b -> i ∈ ones b <-> 0 <= i < 16 /\ Z.testbit b i = true.
Proof. intros Hb. rewrite (ones_u16 b Hb), list_elem_of_filter, elem_of_seqZ. intuition lia. Qed.

Lemma nack_collect_ones {E} fuel id b : 0 <= b < 2 ^ 64 -> (length (ones b) <= fuel)%nat ->
  nack_collect (E:=E) fuel (mkNackIterator id b true) = Ok ((fun i => wrapping_add id (i + 1)) <$> ones b).
Proof.
  revert b. induction fuel as [|fuel IH]; intros b Hb Hf; cbn [nack_collect]; unfold NackIterator_next; cbn [ni_has_yielded_packet_id ni_bitfield ni_packet_id negb];
    (destruct (Z.eqb_spec b 0) as [->|Hb0]; [done|]); destruct (ones_step b Hb Hb0) as (E1 & Hy & _); rewrite E1 in Hf |- *; cbn [length] in Hf; cbn [negb]; [lia|].
  rewrite IH by (done || lia). done.
Qed.

Lemma packet_list_Ok {E} p : pair_ok p -> packet_list (E:=E) p = Ok (pair_list p).
Proof.
  intros [Hi Hb]. 
  change (packet_list (E:=E) p) with (l ← nack_collect (E:=E) 16 (mkNackIterator (packet_id p) (lost_packets p) true); Ok (packet_id p :: l)).
  rewrite nack_collect_ones; [done|unfold is_u16 in Hb; lia|]. rewrite ones_u16 by done. etrans; [apply length_filter|]. by rewrite length_seqZ.
Qed.

(** The mask with one more bit. *)
Lemma lor_u16 b i : is_u16 b -> 0 <= i < 16 -> is_u16 (Z.lor b (Z.shiftl 1 i)).
Proof.
  intros Hb Hi. unfold is_u16 in *. rewrite Z.shiftl_1_l. assert (0 <= Z.lor b (2 ^ i)) by (apply Z.lor_nonneg; split; [lia|apply Z.pow_nonneg; lia]).
  split; [done|]. change 65536 with (2 ^ 16). destruct (Z.eq_dec (Z.lor b (2 ^ i)) 0) as [->|Hz]; [lia|].
  apply Z.log2_lt_pow2; [lia|]. rewrite Z.log2_lor by (lia || apply Z.pow_nonneg; lia). apply Z.max_lub_lt.
  - destruct (Z.eq_dec b 0) as [->|]; [done|]. apply Z.log2_lt_pow2; lia.
  - rewrite Z.log2_pow2 by lia. lia.
Qed.

Lemma elem_of_ones_lor b i j : is_u16 b -> 0 <= i < 16 -> j ∈ ones (Z.lor b (Z.shiftl 1 i)) <-> j ∈ ones b \/ j = i.
Proof.
  intros Hb Hi. rewrite !elem_of_ones by (try done; by apply lor_u16). rewrite Z.lor_spec. split.
  - intros [Hj [Ht|Ht]%orb_prop]; [by left|]. right. rewrite testbit_single in Ht by lia. by apply Z.eqb_eq in Ht.
  - intros [[Hj Ht]| ->]; [by rewrite Ht|]. split; [done|]. by rewrite testbit_single, Z.eqb_refl, orb_true_r by lia.
Qed.

Lemma ones_lor_above b i : is_u16 b -> 0 <= i < 16 -> b < 2 ^ i -> ones (Z.lor b (Z.shiftl 1 i)) = ones b ++ [i].
Proof.
  intros Hb Hi Hlt. rewrite !ones_u16 by (try done; by apply lor_u16). replace 16 with (i + (1 + (15 - i))) by lia. rewrite !seqZ_app, !filter_app by lia.
  rewrite Z.add_0_l. change (seqZ i 1) with [i]. rewrite !filter_cons, !filter_nil.
  assert (Hhi : forall j, i <= j -> Z.testbit b j = false).
  { intros j Hj. unfold is_u16 in Hb. rewrite Z.testbit_eqb by lia. pose proof (Z.pow_le_mono_r 2 i j ltac:(lia) ltac:(lia)). by rewrite Z.div_small by lia. }
  rewrite Z.lor_spec, testbit_single, Z.eqb_refl, orb_true_r, Hhi by lia. rewrite decide_True, decide_False by done.
  rewrite (filter_none (fun j => Z.testbit b j = true) (seqZ (i + 1) _)) by (intros j Hj%elem_of_seqZ; rewrite Hhi by lia; done).
  rewrite (filter_none _ (seqZ (i + 1) _)).
  2: { intros j Hj%elem_of_seqZ. rewrite Z.lor_spec, testbit_single, Hhi by lia. destruct (Z.eqb_spec j i); [lia|done]. }
  rewrite !app_nil_r. f_equal. apply filter_same. intros j Hj%elem_of_seqZ. rewrite Z.lor_spec, testbit_single by lia.
  destruct (Z.eqb_spec j i); [lia|]. by rewrite orb_false_r.
Qed.

(** * Packing *)

(** All numbers of the pairs, in the order the responder visits them. *)
Definition nack_list (pairs : list NackPair) : list Z := flat_map pair_list pairs.

Lemma nack_list_snoc pairs p : nack_list (pairs ++ [p]) = nack_list pairs ++ pair_list p.
Proof. unfold nack_list. rewrite flat_map_app. cbn. by rewrite app_nil_r. Qed.

Lemma pair_ok_new s : is_u16 s -> pair_ok (NackPair_new s).
Proof. intros. by split. Qed.

(** One step on any number. *)
Lemma nack_step_spec pairs p seq : pair_ok p -> is_u16 seq -> let '(pairs', p') := nack_pairs_step (pairs, p) seq in
  pair_ok p' /\ (Forall pair_ok pairs -> Forall pair_ok pairs') /\
  forall x, x ∈ nack_list (pairs' ++ [p']) <-> x ∈ nack_list (pairs ++ [p]) \/ x = seq.
Proof.
  intros [Hi Hb] Hs. unfold nack_pairs_step. destruct (Z.eqb_spec seq (packet_id p)) as [->|Hne].
  { split; [done|]. split; [done|]. intros x. rewrite nack_list_snoc. unfold pair_list. set_solver. }
  destruct (_ || _) eqn:Hc.
  - split; [by apply pair_ok_new|]. split; [intros; by apply Forall_app; split; [|apply Forall_singleton]|].
    intros x. rewrite !nack_list_snoc. change (pair_list (NackPair_new seq)) with [seq]. set_solver.
  - apply orb_false_elim in Hc as [H1%Z.leb_gt H2%Z.ltb_ge]. unfold is_u16 in *. set (i := seq - packet_id p - 1). assert (0 <= i < 16) by lia.
    split; [split; [done|by apply lor_u16]|]. split; [done|]. intros x. rewrite !nack_list_snoc. unfold pair_list. cbn [packet_id lost_packets].
    rewrite !elem_of_app, !elem_of_cons, !list_elem_of_fmap. setoid_rewrite elem_of_ones_lor; [|done..].
    assert (Hx : wrapping_add (packet_id p) (i + 1) = seq) by (unfold wrapping_add, as_u16; rewrite Z.mod_small by lia; lia). naive_solver.
Qed.

Lemma nack_fold_spec r pairs p : pair_ok p -> Forall pair_ok pairs -> Forall is_u16 r ->
  let '(pairs', p') := foldl nack_pairs_step (pairs, p) r in
  Forall pair_ok (pairs' ++ [p']) /\ forall x, x ∈ nack_list (pairs' ++ [p']) <-> x ∈ nack_list (pairs ++ [p]) \/ x ∈ r.
Proof.
  intros Hp Hps Hr. revert pairs p Hp Hps. induction Hr as [|s r Hs Hr IH]; intros pairs p Hp Hps; cbn [foldl].
  - split; [by apply Forall_app; split; [|apply Forall_singleton]|]. set_solver.
  - pose proof (nack_step_spec pairs p s Hp Hs) as Hst. destruct (nack_pairs_step (pairs, p) s) as [pairs1 p1]. destruct Hst as (Hp1 & Hps1 & Hx1).
    specialize (IH pairs1 p1 Hp1 (Hps1 Hps)). destruct (foldl _ _ r) as [pairs' p']. destruct IH as [Hok Hx]. split; [done|].
    intros x. rewrite Hx, Hx1, elem_of_cons. tauto.
Qed.

(** The pair being filled: its base is the extended number [base], its mask holds numbers
    up to [last], and no number of it wraps. *)
Record filling (base last : Z) (p : NackPair) : Prop := {
  fl_id : packet_id p = base mod 65536;
  fl_span : 0 <= last - base <= 16;
  fl_nowrap : base mod 65536 + (last - base) < 65536;
  fl_mask : 0 <= lost_packets p < 2 ^ (last - base)
}.

Lemma filling_ok base last p : filling base last p -> pair_ok p.
Proof.
  intros []. split; [rewrite fl_id0; apply as_u16_range|]. unfold is_u16. pose proof (Z.pow_le_mono_r 2 (last - base) 16 ltac:(lia) ltac:(lia)).
  change (2 ^ 16) with 65536 in *. lia.
Qed.

(** One step on the next number of an ascending list. *)
Lemma nack_step_next pairs p base last x : filling base last p -> last < x < base + 65536 ->
  let '(pairs', p') := nack_pairs_step (pairs, p) (x mod 65536) in
  (exists base', base <= base' /\ filling base' x p') /\ nack_list (pairs' ++ [p']) = nack_list (pairs ++ [p]) ++ [x mod 65536].
Proof.
  intros F Hx. pose proof (filling_ok _ _ _ F) as [Hi Hb]. destruct F. unfold nack_pairs_step. rewrite fl_id0.
  assert (Hm : x mod 65536 = base mod 65536 + (x - base) \/ x mod 65536 = base mod 65536 + (x - base) - 65536).
  { pose proof (Z.div_mod x 65536). pose proof (Z.div_mod base 65536). pose proof (Z.mod_pos_bound x 65536). pose proof (Z.mod_pos_bound base 65536). lia. }
  pose proof (Z.mod_pos_bound x 65536 ltac:(lia)). pose proof (Z.mod_pos_bound base 65536 ltac:(lia)).
  destruct (Z.eqb_spec (x mod 65536) (base mod 65536)); [lia|]. destruct (_ || _) eqn:Hc.
  - split; [exists x; split; [lia|]; split; cbn [NackPair_new packet_id lost_packets]; rewrite ?Z.sub_diag; try lia; done|].
    rewrite !nack_list_snoc. done.
  - apply orb_false_elim in Hc as [H1%Z.leb_gt H2%Z.ltb_ge]. set (i := x mod 65536 - base mod 65536 - 1). assert (Hix : i = x - base - 1) by lia.
    assert (Hpow : lost_packets p < 2 ^ i) by (eapply Z.lt_le_trans; [apply fl_mask0|apply Z.pow_le_mono_r; lia]).
    split.
    + exists base. split; [lia|]. split; cbn [packet_id lost_packets]; [done|lia|lia|]. rewrite Z.shiftl_1_l. replace (x - base) with (i + 1) by lia.
      assert (0 <= Z.lor (lost_packets p) (2 ^ i)) by (apply Z.lor_nonneg; split; [lia|apply Z.pow_nonneg; lia]). split; [done|].
      apply Z.log2_lt_cancel. rewrite Z.log2_lor, !Z.log2_pow2 by (lia || apply Z.pow_nonneg; lia). apply Z.max_lub_lt; [|lia].
      destruct (Z.eq_dec (lost_packets p) 0) as [->|]; [cbn; lia|]. pose proof (proj1 (Z.log2_lt_pow2 (lost_packets p) i ltac:(lia)) Hpow). lia.
    + rewrite !nack_list_snoc. unfold pair_list. cbn [packet_id lost_packets]. rewrite ones_lor_above by (done || lia). rewrite fmap_app, <- fl_id0.
      rewrite <- (assoc_L app). cbn [app]. do 3 f_equal. cbn. f_equal. unfold wrapping_add, as_u16. rewrite fl_id0, Z.mod_small by lia. lia.
Qed.

Lemma nack_fold_next r pairs p base last : filling base last p -> ascending id (last :: r) -> (forall x, x ∈ r -> x < base + 65536) ->
  let '(pairs', p') := foldl nack_pairs_step (pairs, p) ((fun x => x mod 65536) <$> r) in
  nack_list (pairs' ++ [p']) = nack_list (pairs ++ [p]) ++ ((fun x => x mod 65536) <$> r).
Proof.
  revert pairs p base last. induction r as [|x r IH]; intros pairs p base last F Ha Hr; cbn [foldl fmap list_fmap]; [by rewrite app_nil_r|].
  apply ascending_cons in Ha as [Ha Hlt]. assert (Hx : last < x) by (apply Hlt; by left).
  pose proof (nack_step_next pairs p base last x F ltac:(split; [done|apply Hr; by left])) as Hst.
  destruct (nack_pairs_step (pairs, p) (x mod 65536)) as [pairs1 p1]. destruct Hst as ((base' & Hb' & F') & E1).
  specialize (IH pairs1 p1 base' x F' Ha ltac:(intros y Hy; specialize (Hr y ltac:(by right)); lia)).
  change (list_fmap Z Z (fun x => x mod 65536) r) with ((fun x => x mod 65536) <$> r). destruct (foldl _ _ _) as [pairs' p'].
  rewrite IH, E1. by rewrite <- (assoc_L app).
Qed.

(** [nacks.iter().flat_map(|&pair| pair)]. *)
Definition nack_seqs {E} (nacks : list NackPair) : outcome E (list Z) :=
  lists ← mapM packet_list nacks; Ok (concat lists).

Lemma nack_seqs_Ok {E} nacks : Forall pair_ok nacks -> nack_seqs (E:=E) nacks = Ok (nack_list nacks).
Proof.
  intros H. assert (Hm : mapM (packet_list (E:=E)) nacks = Ok (map pair_list nacks)).
  { induction H as [|p l Hp _ IH]; [done|]. cbn [mapM]. rewrite (packet_list_Ok p Hp). cbn [mbind outcome_bind]. by rewrite IH. }
  unfold nack_seqs. rewrite Hm. cbn [mbind outcome_bind]. unfold nack_list. by rewrite flat_map_concat_map.
Qed.

(** The pairs made from a list of numbers. *)
Lemma nack_pairs_ok seq_nos : Forall is_u16 seq_nos -> Forall pair_ok (nack_pairs_from_sequence_numbers seq_nos) /\
  forall x, x ∈ nack_list (nack_pairs_from_sequence_numbers seq_nos) <-> x ∈ seq_nos.
Proof.
  destruct seq_nos as [|s r]; intros Hu; [by split|]. apply Forall_cons in Hu as [Hs Hr]. unfold nack_pairs_from_sequence_numbers.
  pose proof (nack_fold_spec r [] (NackPair_new s) (pair_ok_new s Hs) ltac:(constructor) Hr) as Hf. destruct (foldl _ _ r) as [pairs p].
  destruct Hf as [Hok Hx]. split; [done|]. intros x. rewrite Hx. cbn. set_solver.
Qed.

Lemma nack_pairs_ascending l : ascending id l -> (forall x y, x ∈ l -> y ∈ l -> y < x + 65536) ->
  nack_list (nack_pairs_from_sequence_numbers ((fun x => x mod 65536) <$> l)) = (fun x => x mod 65536) <$> l.
Proof.
  intros Ha Hspan. destruct l as [|s r]; [done|]. cbn [fmap list_fmap nack_pairs_from_sequence_numbers].
  assert (F : filling s s (NackPair_new (s mod 65536))).
  { pose proof (Z.mod_pos_bound s 65536). split; cbn [NackPair_new packet_id lost_packets]; rewrite ?Z.sub_diag; try lia; done. }
  pose proof (nack_fold_next r [] _ s s F Ha ltac:(intros x Hx; apply Hspan; [by left|by right])) as Hf.
  change (list_fmap Z Z (fun x => x mod 65536) r) with ((fun x => x mod 65536) <$> r). destruct (foldl _ _ _) as [pairs p]. exact Hf.
Qed.

(** Packing lost sequence numbers in pairs loses and adds none, for every list of 16-bit
    numbers in any order; and for a list that ascends, across the wrap as well, the
    responder's walk over the pairs visits exactly the list, in its order. *)
Theorem nack_pairs_exact :
  (forall seq_nos, Forall is_u16 seq_nos ->
    exists seqs, nack_seqs (E:=MediaError) (nack_pairs_from_sequence_numbers seq_nos) = Ok seqs /\ forall x, x ∈ seqs <-> x ∈ seq_nos) /\
  (forall l, ascending id l -> (forall x y, x ∈ l -> y ∈ l -> y < x + 65536) ->
    nack_seqs (E:=MediaError) (nack_pairs_from_sequence_numbers ((fun x => x mod 65536) <$> l)) = Ok ((fun x => x mod 65536) <$> l)).
Proof.
  split.
  - intros seq_nos Hu. destruct (nack_pairs_ok seq_nos Hu) as [Hok Hx]. eexists. split; [by apply nack_seqs_Ok|done].
  - intros l Ha Hs. rewrite <- (nack_pairs_ascending l Ha Hs) at 2. apply nack_seqs_Ok, nack_pairs_ok.
    apply Forall_forall. intros x (y & -> & _)%list_elem_of_fmap. apply as_u16_range.
Qed.

(** * The codec *)

Definition tln_ok (p : TransportLayerNack) : Prop :=
  is_u32 (tln_sender_ssrc p) /\ is_u32 (tln_media_ssrc p) /\ Forall pair_ok (tln_nacks p) /\ 1 <= zlen (tln_nacks p) <= 253.

Lemma get_put_nack_pair p r : pair_ok p -> get_nack_pair (put_nack_pair p ++ r) = Ok (p, r).
Proof.
  intros [Hi Hb]. unfold get_nack_pair, put_nack_pair. rewrite <- (assoc_L app), get_put_u16 by done. cbn [mbind outcome_bind].
  rewrite get_put_u16 by done. cbn [mbind outcome_bind]. by destruct p.
Qed.

Lemma zlen_nack_pairs l : zlen (concat (map put_nack_pair l)) = zlen l * 4.
Proof. induction l as [|q l IH]; [done|]. cbn [map concat]. rewrite zlen_app, IH, zlen_cons. unfold put_nack_pair. zlia. Qed.
#[export] Hint Rewrite zlen_nack_pairs : zlen.

#[export] Instance tln_codec : RtcpCodec TransportLayerNack tln_ok.
Proof.
  split. intros p room (Hs & Hm & Hn & Hl) Hr. cbn [marshal_size marshal_to tln_MarshalSize tln_MarshalTo] in *.
  assert (Hraw : raw_size p = (3 + zlen (tln_nacks p)) * 4) by (cbn; unfold tln_raw_size, RTCP_HEADER_LENGTH, NACK_OFFSET; lia).
  assert (Hp : rtcp_padding_size (raw_size p) = 0) by (rewrite Hraw; apply padding_multiple).
  assert (Hsz : padded_size p = (3 + zlen (tln_nacks p)) * 4) by (unfold padded_size; rewrite Hp; lia).
  unfold tln_marshal_to. rewrite !ltb_false by (unfold TLN_LENGTH; lia).
  eapply put_packet_frame; [reflexivity|done|reflexivity|zlia|lia|done|done|]. intros h -> Hok Hlen.
  assert (Hb : put_padding (raw_size p) = []) by (apply nil_length_inv; pose proof (zlen_put_padding (raw_size p)); unfold zlen in *; lia).
  rewrite Hb, app_nil_r in *. cbn [unmarshal tln_Unmarshal]. unfold tln_unmarshal, RTCP_HEADER_LENGTH, NACK_MIN_OCTET_COUNT. rewrite ltb_false by zlia.
  rewrite rtcp_header_read by done. cbn [mbind outcome_bind]. rewrite ltb_false by zlia.
  replace (Z.to_nat (rh_length (packet_header p) - NACK_OFFSET / 4)) with (length (tln_nacks p))
    by (change (NACK_OFFSET / 4) with 2; revert Hlen; zlen_pos; rewrite !zlen_app, zlen_nack_pairs, !zlen_put_u32; unfold zlen; lia).
  cbn [packet_header tln_RtcpTrait rh_packet_type rh_count padded_header]. rewrite bool_decide_true by done. change (FORMAT_TLN =? FORMAT_TLN) with true.
  read_back. rewrite <- (app_nil_r (concat _)).
  rewrite (read_n_write _ pair_ok put_nack_pair) by (try done; intros; by apply get_put_nack_pair). read_back. by destruct p.
Qed.

#[export] Instance tln_safe : RtcpSafe TransportLayerNack.
Proof.
  split. intros h body Hh Hb Hl _. cbn [unmarshal tln_Unmarshal]. unfold tln_unmarshal, RTCP_HEADER_LENGTH, NACK_MIN_OCTET_COUNT.
  buf_step; [done|]. bool_lia. rewrite rtcp_header_read by done. cbn [mbind outcome_bind]. do 2 (buf_step; [done|]). do 2 buf_step. use_ok.
  eapply post_bind; [|by intros [? ?] _ _]. eapply (post_read_n _ pair_ok 4); [lia| |change (NACK_OFFSET / 4) with 2; zlia].
  intros buf Hbuf. unfold get_nack_pair. do 2 buf_step. cbn [post fst snd]. split; [lia|]. intros. use_ok. done.
Qed.
