(* ===== verification/RtcpReports.v ===== *)
(** The RTCP packets of RFC 3550: reception report blocks ([reception_report.rs]), sender
    and receiver reports ([sender_report/], [receiver_report/]) and goodbye
    ([goodbye/]), as types that keep the laws of [Rtcp]. *)
From S2P Require Import Prelude Marshal Rtp Rtcp.

(** * Reception report blocks *)

Definition RECEPTION_REPORT_LENGTH : Z := 24.

Record ReceptionReport := mkReceptionReport {
  rep_ssrc : Z;
  fraction_lost : Z;
  total_lost : Z;
  last_sequence_number : Z;
  rep_jitter : Z;
  last_sender_report : Z;
  rep_delay : Z
}.

Definition ReceptionReport_raw_size (_ : ReceptionReport) : Z := RECEPTION_REPORT_LENGTH.
Definition ReceptionReport_marshal_size (r : ReceptionReport) : Z :=
  ReceptionReport_raw_size r + rtcp_padding_size (ReceptionReport_raw_size r).

Definition ReceptionReport_marshal_to (r : ReceptionReport) (room : Z) : rtp_result (Z * bytes) :=
  if room <? ReceptionReport_marshal_size r then Err BufferTooShort
  else if Z.shiftl 1 25 <=? total_lost r then Err InvalidTotalLost
  else
    Ok (ReceptionReport_marshal_size r,
        put_u32 (rep_ssrc r) ++ put_u8 (fraction_lost r) ++
        put_u8 (Z.land (Z.shiftr (total_lost r) 16) 255) ++ put_u8 (Z.land (Z.shiftr (total_lost r) 8) 255) ++ put_u8 (Z.land (total_lost r) 255) ++
        put_u32 (last_sequence_number r) ++ put_u32 (rep_jitter r) ++ put_u32 (last_sender_report r) ++ put_u32 (rep_delay r) ++
        put_padding (ReceptionReport_raw_size r)).

Definition ReceptionReport_unmarshal (raw_packet : bytes) : rtp_result (ReceptionReport * bytes) :=
  if zlen raw_packet <? RECEPTION_REPORT_LENGTH then Err PacketTooShort
  else
    '(ssrc, buf) ← get_u32 raw_packet;
    '(fraction_lost, buf) ← get_u8 buf;
    '(t0, buf) ← get_u8 buf;
    '(t1, buf) ← get_u8 buf;
    '(t2, buf) ← get_u8 buf;
    let total_lost := Z.lor (Z.lor t2 (Z.shiftl t1 8)) (Z.shiftl t0 16) in
    '(last_sequence_number, buf) ← get_u32 buf;
    '(jitter, buf) ← get_u32 buf;
    '(last_sender_report, buf) ← get_u32 buf;
    '(delay, buf) ← get_u32 buf;
    Ok (mkReceptionReport ssrc fraction_lost total_lost last_sequence_number jitter last_sender_report delay, buf).

#[export] Instance ReceptionReport_MarshalSize : MarshalSize ReceptionReport := mkMarshalSize _ ReceptionReport_marshal_size.
#[export] Instance ReceptionReport_MarshalTo : MarshalTo MediaError ReceptionReport := mkMarshalTo _ _ ReceptionReport_marshal_to.
#[export] Instance ReceptionReport_Unmarshal : Unmarshal MediaError ReceptionReport := mkUnmarshal _ _ ReceptionReport_unmarshal.

(** The loop over the blocks of a report; [offset] is where the next one starts. *)
Fixpoint read_reports (n : nat) (offset raw_packet_len : Z) (buf : bytes) : rtp_result (list ReceptionReport * bytes) :=
  match n with
  | O => Ok ([], buf)
  | S n =>
      if raw_packet_len <? offset + RECEPTION_REPORT_LENGTH then Err PacketTooShort
      else
        '(r, buf) ← unmarshal buf;
        '(rs, buf) ← read_reports n (offset + RECEPTION_REPORT_LENGTH) raw_packet_len buf;
        Ok (r :: rs, buf)
  end.

(** * Sender reports *)

Definition SR_HEADER_LENGTH : Z := 24.
Definition SR_REPORT_OFFSET : Z := RTCP_HEADER_LENGTH + SR_HEADER_LENGTH.

Record SenderReport := mkSenderReport {
  sr_ssrc : Z;
  sr_ntp_time : Z;
  sr_rtp_time : Z;
  sr_packet_count : Z;
  sr_octet_count : Z;
  sr_reports : list ReceptionReport;
  sr_profile_extensions : bytes
}.

Definition SenderReport_raw_size (p : SenderReport) : Z :=
  RTCP_HEADER_LENGTH + SR_HEADER_LENGTH + zsum marshal_size (sr_reports p) + zlen (sr_profile_extensions p).

#[export] Instance SenderReport_trait : RtcpTrait SenderReport := mkRtcpTrait _
  (fun p => padded_header (SenderReport_raw_size p) (zlen (sr_reports p) mod 256) PT_SenderReport)
  (fun p => map rep_ssrc (sr_reports p) ++ [sr_ssrc p])
  SenderReport_raw_size.

Definition SenderReport_marshal_to (p : SenderReport) (room : Z) : rtp_result (Z * bytes) :=
  if COUNT_MAX <? zlen (sr_reports p) then Err TooManyReports
  else if room <? padded_size p then Err BufferTooShort
  else put_packet (packet_header p) (raw_size p) (padded_size p) room (
    '(_, reports) ← write_each (sr_reports p) (room - SR_REPORT_OFFSET);
    Ok (put_u32 (sr_ssrc p) ++ put_u64 (sr_ntp_time p) ++ put_u32 (sr_rtp_time p) ++ put_u32 (sr_packet_count p) ++ put_u32 (sr_octet_count p) ++
        reports ++ sr_profile_extensions p)).

Definition SenderReport_unmarshal (raw_packet : bytes) : rtp_result (SenderReport * bytes) :=
  let raw_packet_len := zlen raw_packet in
  if raw_packet_len <? RTCP_HEADER_LENGTH + SR_HEADER_LENGTH then Err PacketTooShort
  else
    '(header, buf) ← RtcpHeader_unmarshal raw_packet;
    if negb (bool_decide (rh_packet_type header = PT_SenderReport)) then Err WrongType
    else
      '(ssrc, buf) ← get_u32 buf;
      '(ntp_time, buf) ← get_u64 buf;
      '(rtp_time, buf) ← get_u32 buf;
      '(packet_count, buf) ← get_u32 buf;
      '(octet_count, buf) ← get_u32 buf;
      '(reports, buf) ← read_reports (Z.to_nat (rh_count header)) SR_REPORT_OFFSET raw_packet_len buf;
      '(profile_extensions, buf) ← copy_to_bytes (zlen buf) buf;
      Ok (mkSenderReport ssrc ntp_time rtp_time packet_count octet_count reports profile_extensions, buf).

#[export] Instance SenderReport_MarshalSize : MarshalSize SenderReport := mkMarshalSize _ padded_size.
#[export] Instance SenderReport_MarshalTo : MarshalTo MediaError SenderReport := mkMarshalTo _ _ SenderReport_marshal_to.
#[export] Instance SenderReport_Unmarshal : Unmarshal MediaError SenderReport := mkUnmarshal _ _ SenderReport_unmarshal.

(** * Receiver reports *)

Definition RR_REPORT_OFFSET : Z := RTCP_HEADER_LENGTH + SSRC_LENGTH.

Record ReceiverReport := mkReceiverReport { rr_ssrc : Z; rr_reports : list ReceptionReport; rr_profile_extensions : bytes }.

Definition ReceiverReport_raw_size (p : ReceiverReport) : Z :=
  RTCP_HEADER_LENGTH + SSRC_LENGTH + zsum marshal_size (rr_reports p) + zlen (rr_profile_extensions p).

#[export] Instance ReceiverReport_trait : RtcpTrait ReceiverReport := mkRtcpTrait _
  (fun p => padded_header (ReceiverReport_raw_size p) (zlen (rr_reports p) mod 256) PT_ReceiverReport)
  (fun p => map rep_ssrc (rr_reports p))
  ReceiverReport_raw_size.

Definition ReceiverReport_marshal_to (p : ReceiverReport) (room : Z) : rtp_result (Z * bytes) :=
  if COUNT_MAX <? zlen (rr_reports p) then Err TooManyReports
  else if room <? padded_size p then Err BufferTooShort
  else put_packet (packet_header p) (raw_size p) (padded_size p) room (
    '(_, reports) ← write_each (rr_reports p) (room - RR_REPORT_OFFSET);
    Ok (put_u32 (rr_ssrc p) ++ reports ++ rr_profile_extensions p)).

Definition ReceiverReport_unmarshal (raw_packet : bytes) : rtp_result (ReceiverReport * bytes) :=
  let raw_packet_len := zlen raw_packet in
  if raw_packet_len <? RTCP_HEADER_LENGTH + SSRC_LENGTH then Err PacketTooShort
  else
    '(header, buf) ← RtcpHeader_unmarshal raw_packet;
    if negb (bool_decide (rh_packet_type header = PT_ReceiverReport)) then Err WrongType
    else
      '(ssrc, buf) ← get_u32 buf;
      '(reports, buf) ← read_reports (Z.to_nat (rh_count header)) RR_REPORT_OFFSET raw_packet_len buf;
      '(profile_extensions, buf) ← copy_to_bytes (zlen buf) buf;
      Ok (mkReceiverReport ssrc reports profile_extensions, buf).

#[export] Instance ReceiverReport_MarshalSize : MarshalSize ReceiverReport := mkMarshalSize _ padded_size.
#[export] Instance ReceiverReport_MarshalTo : MarshalTo MediaError ReceiverReport := mkMarshalTo _ _ ReceiverReport_marshal_to.
#[export] Instance ReceiverReport_Unmarshal : Unmarshal MediaError ReceiverReport := mkUnmarshal _ _ ReceiverReport_unmarshal.

(** * Goodbye *)

Definition SDES_MAX_OCTET_COUNT : Z := 255.

Record Goodbye := mkGoodbye { bye_sources : list Z; bye_reason : bytes }.

Definition Goodbye_raw_size (p : Goodbye) : Z :=
  let srcs_length := zlen (bye_sources p) * SSRC_LENGTH in
  let reason_length := zlen (bye_reason p) + 1 in
  RTCP_HEADER_LENGTH + srcs_length + reason_length.

#[export] Instance Goodbye_trait : RtcpTrait Goodbye := mkRtcpTrait _
  (fun p => padded_header (Goodbye_raw_size p) (zlen (bye_sources p) mod 256) PT_Goodbye)
  bye_sources
  Goodbye_raw_size.

Definition Goodbye_marshal_to (p : Goodbye) (room : Z) : rtp_result (Z * bytes) :=
  if COUNT_MAX <? zlen (bye_sources p) then Err TooManySources
  else if SDES_MAX_OCTET_COUNT <? zlen (bye_reason p) then Err ReasonTooLong
  else if room <? padded_size p then Err BufferTooShort
  else put_packet (packet_header p) (raw_size p) (padded_size p) room
         (Ok (concat (map put_u32 (bye_sources p)) ++ put_u8 (zlen (bye_reason p)) ++ bye_reason p)).

Definition Goodbye_unmarshal (raw_packet : bytes) : rtp_result (Goodbye * bytes) :=
  let raw_packet_len := zlen raw_packet in
  '(header, buf) ← RtcpHeader_unmarshal raw_packet;
  if negb (bool_decide (rh_packet_type header = PT_Goodbye)) then Err WrongType
  else if negb (rtcp_padding_size raw_packet_len =? 0) then Err PacketTooShort
  else
    let reason_offset := RTCP_HEADER_LENGTH + rh_count header * SSRC_LENGTH in
    if raw_packet_len <? reason_offset then Err PacketTooShort
    else
      '(sources, buf) ← read_n get_u32 (Z.to_nat (rh_count header)) buf;
      if reason_offset <? raw_packet_len then
        '(reason_len, buf) ← get_u8 buf;
        if raw_packet_len <? reason_offset + 1 + reason_len then Err PacketTooShort
        else '(reason, buf) ← copy_to_bytes reason_len buf; Ok (mkGoodbye sources reason, [])
      else Ok (mkGoodbye sources [], []).

#[export] Instance Goodbye_MarshalSize : MarshalSize Goodbye := mkMarshalSize _ padded_size.
#[export] Instance Goodbye_MarshalTo : MarshalTo MediaError Goodbye := mkMarshalTo _ _ Goodbye_marshal_to.
#[export] Instance Goodbye_Unmarshal : Unmarshal MediaError Goodbye := mkUnmarshal _ _ Goodbye_unmarshal.

(** * The block codec *)

Definition report_ok (r : ReceptionReport) : Prop :=
  is_u32 (rep_ssrc r) /\ is_u8 (fraction_lost r) /\ 0 <= total_lost r < 16777216 /\ is_u32 (last_sequence_number r) /\
  is_u32 (rep_jitter r) /\ is_u32 (last_sender_report r) /\ is_u32 (rep_delay r).

Lemma total_lost_word x :
  Z.lor (Z.lor (Z.land x 255) (Z.shiftl (Z.land (Z.shiftr x 8) 255) 8)) (Z.shiftl (Z.land (Z.shiftr x 16) 255) 16) = x mod 16777216.
Proof.
  rewrite !land_255, !Z.shiftr_div_pow2 by lia. change (2 ^ 8) with 256. change (2 ^ 16) with 65536.
  rewrite (lor_shift (x mod 256) _ 8), lor_shift by (change (2 ^ 8) with 256; change (2 ^ 16) with 65536; mlia).
  change (2 ^ 8) with 256. change (2 ^ 16) with 65536. change 65536 with (256 * 256) at 1. rewrite <- Z.div_div by lia. mlia.
Qed.

(** What is read back of any block the encoder accepts: the loss count modulo 2^24. *)
Lemma reception_report_written r room : is_u32 (rep_ssrc r) -> is_u8 (fraction_lost r) -> 0 <= total_lost r < 33554432 ->
  is_u32 (last_sequence_number r) -> is_u32 (rep_jitter r) -> is_u32 (last_sender_report r) -> is_u32 (rep_delay r) -> 24 <= room ->
  exists b, ReceptionReport_marshal_to r room = Ok (24, b) /\ zlen b = 24 /\
    forall s, ReceptionReport_unmarshal (b ++ s) =
      Ok (mkReceptionReport (rep_ssrc r) (fraction_lost r) (total_lost r mod 16777216) (last_sequence_number r) (rep_jitter r) (last_sender_report r) (rep_delay r), s).
Proof.
  intros H1 H2 H3 H4 H5 H6 H7 Hr. unfold ReceptionReport_marshal_to. change (ReceptionReport_marshal_size r) with 24. rewrite ltb_false by lia.
  rewrite (proj2 (Z.leb_gt _ _)) by (change (Z.shiftl 1 25) with 33554432; lia). eexists. split; [done|]. split; [done|]. intros s.
  unfold ReceptionReport_unmarshal, RECEPTION_REPORT_LENGTH. rewrite ltb_false by zlia. read_back.
  do 3 (rewrite get_put_u8 by (rewrite land_255; unfold is_u8; mlia); read_back). rewrite total_lost_word. by change (put_padding _) with (@nil Z).
Qed.

#[export] Instance report_codec : Codec MediaError ReceptionReport report_ok.
Proof.
  split. intros r room (H1 & H2 & H3 & H4 & H5 & H6 & H7) Hr. change (24 <= room) in Hr.
  destruct (reception_report_written r room) as (b & Hw & Hl & Hu); try done; [lia|]. exists b. split; [exact Hw|]. split; [done|].
  intros s. cbn [unmarshal ReceptionReport_Unmarshal]. rewrite Hu, Z.mod_small by lia. by destruct r.
Qed.

Lemma zsum_reports l : zsum (marshal_size (T:=ReceptionReport)) l = 24 * zlen l.
Proof. induction l as [|r l IH]; [done|]. rewrite zsum_cons, IH, zlen_cons. change (marshal_size r) with 24. lia. Qed.

Lemma read_reports_all n : forall offset len buf, offset + 24 * Z.of_nat n <= len -> read_reports n offset len buf = read_n unmarshal n buf.
Proof.
  induction n as [|n IH]; intros offset len buf H; [done|]. cbn [read_reports read_n]. unfold RECEPTION_REPORT_LENGTH. rewrite ltb_false by lia.
  destruct (unmarshal buf) as [[r b]| | |]; cbn [mbind outcome_bind]; [|done..]. by rewrite IH by lia.
Qed.

(** * The codecs of the reports *)

Definition sender_report_ok (p : SenderReport) : Prop :=
  is_u32 (sr_ssrc p) /\ is_u64 (sr_ntp_time p) /\ is_u32 (sr_rtp_time p) /\ is_u32 (sr_packet_count p) /\ is_u32 (sr_octet_count p) /\
  Forall report_ok (sr_reports p) /\ zlen (sr_reports p) <= 31 /\ padded_size p <= 262144.

(** What a receiver reads: the padding of the packet ends up in the profile extensions. *)
Lemma sender_report_written p room : sender_report_ok p -> padded_size p <= room ->
  let q := mkSenderReport (sr_ssrc p) (sr_ntp_time p) (sr_rtp_time p) (sr_packet_count p) (sr_octet_count p) (sr_reports p)
             (sr_profile_extensions p ++ put_padding (raw_size p)) in
  exists body, SenderReport_marshal_to p room = Ok (padded_size p, rtcp_header_bytes (packet_header p) ++ body) /\
    rtcp_header_ok (packet_header p) /\ zlen body = 4 * rh_length (packet_header p) /\ padded_size p = 4 + zlen body /\
    unmarshal (E:=MediaError) (rtcp_header_bytes (packet_header p) ++ body) = Ok (q, []).
Proof.
  intros (H1 & H2 & H3 & H4 & H5 & Hr & Hc & Hs) Hroom q.
  assert (Hraw : raw_size p = 28 + 24 * zlen (sr_reports p) + zlen (sr_profile_extensions p)).
  { cbn. unfold SenderReport_raw_size. rewrite zsum_reports. unfold RTCP_HEADER_LENGTH, SR_HEADER_LENGTH. lia. }
  pose proof (rtcp_padding_bound (raw_size p)).
  destruct (write_each_codec (ok:=report_ok) (sr_reports p) (room - SR_REPORT_OFFSET) Hr) as (b & Hw & Hb & Hu).
  { rewrite zsum_reports. unfold padded_size, SR_REPORT_OFFSET, RTCP_HEADER_LENGTH, SR_HEADER_LENGTH in *. zlia. }
  rewrite zsum_reports in Hb. unfold SenderReport_marshal_to. rewrite !ltb_false by (unfold COUNT_MAX; lia).
  eapply put_packet_frame; [reflexivity|done|rewrite Hw; reflexivity|zlia|done|by apply count_u8|done|]. intros h -> Hok Hlen.
  cbn [unmarshal SenderReport_Unmarshal]. unfold SenderReport_unmarshal, RTCP_HEADER_LENGTH, SR_HEADER_LENGTH. rewrite ltb_false by zlia.
  rewrite rtcp_header_read by done. cbn [mbind outcome_bind packet_header SenderReport_trait rh_packet_type rh_count padded_header].
  rewrite bool_decide_true by done. read_back. rewrite get_put_u64 by done. read_back.
  rewrite (proj1 (count_u8 _ Hc)). replace (Z.to_nat (zlen (sr_reports p))) with (length (sr_reports p)) by (unfold zlen; lia).
  rewrite read_reports_all by (change SR_REPORT_OFFSET with 28; change (Z.of_nat (length (sr_reports p))) with (zlen (sr_reports p)); zlia).
  rewrite Hu. cbn [mbind outcome_bind]. set (e := sr_profile_extensions p ++ _). rewrite <- (app_nil_r e) at 2. by rewrite copy_front.
Qed.

#[export] Instance sender_report_codec : RtcpCodec SenderReport (fun p => sender_report_ok p /\ zlen (sr_profile_extensions p) mod 4 = 0).
Proof.
  split. intros p room [Hp He] Hr. destruct (sender_report_written p room Hp Hr) as (body & Hw & Hh & Hl & Hs & Hu).
  destruct (no_padding (raw_size p)) as [_ Hpb].
  { cbn. unfold SenderReport_raw_size. rewrite zsum_reports. unfold RTCP_HEADER_LENGTH, SR_HEADER_LENGTH. clear -He. mlia. }
  exists body. split_and!; try done. rewrite Hu, Hpb, app_nil_r. by destruct p.
Qed.

Definition receiver_report_ok (p : ReceiverReport) : Prop :=
  is_u32 (rr_ssrc p) /\ Forall report_ok (rr_reports p) /\ zlen (rr_reports p) <= 31 /\ padded_size p <= 262144.

Lemma receiver_report_written p room : receiver_report_ok p -> padded_size p <= room ->
  let q := mkReceiverReport (rr_ssrc p) (rr_reports p) (rr_profile_extensions p ++ put_padding (raw_size p)) in
  exists body, ReceiverReport_marshal_to p room = Ok (padded_size p, rtcp_header_bytes (packet_header p) ++ body) /\
    rtcp_header_ok (packet_header p) /\ zlen body = 4 * rh_length (packet_header p) /\ padded_size p = 4 + zlen body /\
    unmarshal (E:=MediaError) (rtcp_header_bytes (packet_header p) ++ body) = Ok (q, []).
Proof.
  intros (H1 & Hr & Hc & Hs) Hroom q.
  assert (Hraw : raw_size p = 8 + 24 * zlen (rr_reports p) + zlen (rr_profile_extensions p)).
  { cbn. unfold ReceiverReport_raw_size. rewrite zsum_reports. unfold RTCP_HEADER_LENGTH, SSRC_LENGTH. lia. }
  pose proof (rtcp_padding_bound (raw_size p)).
  destruct (write_each_codec (ok:=report_ok) (rr_reports p) (room - RR_REPORT_OFFSET) Hr) as (b & Hw & Hb & Hu).
  { rewrite zsum_reports. unfold padded_size, RR_REPORT_OFFSET, RTCP_HEADER_LENGTH, SSRC_LENGTH in *. zlia. }
  rewrite zsum_reports in Hb. unfold ReceiverReport_marshal_to. rewrite !ltb_false by (unfold COUNT_MAX; lia).
  eapply put_packet_frame; [reflexivity|done|rewrite Hw; reflexivity|zlia|done|by apply count_u8|done|]. intros h -> Hok Hlen.
  cbn [unmarshal ReceiverReport_Unmarshal]. unfold ReceiverReport_unmarshal, RTCP_HEADER_LENGTH, SSRC_LENGTH. rewrite ltb_false by zlia.
  rewrite rtcp_header_read by done. cbn [mbind outcome_bind packet_header ReceiverReport_trait rh_packet_type rh_count padded_header].
  rewrite bool_decide_true by done. read_back.
  rewrite (proj1 (count_u8 _ Hc)). replace (Z.to_nat (zlen (rr_reports p))) with (length (rr_reports p)) by (unfold zlen; lia).
  rewrite read_reports_all by (change RR_REPORT_OFFSET with 8; change (Z.of_nat (length (rr_reports p))) with (zlen (rr_reports p)); zlia).
  rewrite Hu. cbn [mbind outcome_bind]. set (e := rr_profile_extensions p ++ _). rewrite <- (app_nil_r e) at 2. by rewrite copy_front.
Qed.

#[export] Instance receiver_report_codec : RtcpCodec ReceiverReport (fun p => receiver_report_ok p /\ zlen (rr_profile_extensions p) mod 4 = 0).
Proof.
  split. intros p room [Hp He] Hr. destruct (receiver_report_written p room Hp Hr) as (body & Hw & Hh & Hl & Hs & Hu).
  destruct (no_padding (raw_size p)) as [_ Hpb].
  { cbn. unfold ReceiverReport_raw_size. rewrite zsum_reports. unfold RTCP_HEADER_LENGTH, SSRC_LENGTH. clear -He. mlia. }
  exists body. split_and!; try done. rewrite Hu, Hpb, app_nil_r. by destruct p.
Qed.

(** * The codec of goodbye *)

Definition goodbye_ok (p : Goodbye) : Prop := Forall is_u32 (bye_sources p) /\ zlen (bye_sources p) <= 31 /\ zlen (bye_reason p) <= 255.

Lemma zlen_words l : zlen (concat (map put_u32 l)) = 4 * zlen l.
Proof. induction l as [|x l IH]; [done|]. cbn [map concat]. zlia. Qed.
#[export] Hint Rewrite zlen_words : zlen.

#[export] Instance goodbye_codec : RtcpCodec Goodbye goodbye_ok.
Proof.
  split. intros p room (Hs & Hc & Hl) Hroom. cbn [marshal_size Goodbye_MarshalSize marshal_to Goodbye_MarshalTo] in *.
  assert (Hraw : raw_size p = 5 + 4 * zlen (bye_sources p) + zlen (bye_reason p)) by (cbn; unfold Goodbye_raw_size, RTCP_HEADER_LENGTH, SSRC_LENGTH; lia).
  pose proof (rtcp_padding_bound (raw_size p)). pose proof (rtcp_padding_aligned (raw_size p)) as Ha.
  unfold Goodbye_marshal_to. rewrite !ltb_false by (unfold COUNT_MAX, SDES_MAX_OCTET_COUNT; lia).
  eapply put_packet_frame; [reflexivity|done|reflexivity|zlia|unfold padded_size; zlia|by apply count_u8|done|]. intros h -> Hok Hlen.
  cbn [unmarshal Goodbye_Unmarshal]. unfold Goodbye_unmarshal, RTCP_HEADER_LENGTH, SSRC_LENGTH.
  set (buf := (_ ++ _) ++ put_padding _). assert (Hbuf : zlen (rtcp_header_bytes (packet_header p) ++ buf) = raw_size p + rtcp_padding_size (raw_size p)) by (unfold buf; zlia).
  rewrite Hbuf. rewrite rtcp_header_read by done. cbn [mbind outcome_bind packet_header Goodbye_trait rh_packet_type rh_count padded_header].
  rewrite bool_decide_true by done. cbn [negb]. rewrite (proj1 (count_u8 _ Hc)).
  rewrite (proj1 (no_padding _ Ha)). cbn [Z.eqb negb]. rewrite ltb_false by zlia.
  unfold buf. read_back. replace (Z.to_nat (zlen (bye_sources p))) with (length (bye_sources p)) by (unfold zlen; lia).
  rewrite (read_n_write _ is_u32 put_u32) by (try done; intros; by apply get_put_u32). cbn [mbind outcome_bind].
  rewrite (proj2 (Z.ltb_lt _ _)) by zlia. rewrite get_put_u8 by zlia. cbn [mbind outcome_bind]. rewrite ltb_false by zlia.
  rewrite copy_front by done. by destruct p.
Qed.

(** * Decoding is safe *)

Lemma post_report b : bytes_ok b -> post (unmarshal (E:=MediaError) (T:=ReceptionReport) b) (fun x => bytes_ok x.2).
Proof.
  intros Hb. cbn [unmarshal ReceptionReport_Unmarshal]. unfold ReceptionReport_unmarshal, RECEPTION_REPORT_LENGTH. post_step; [done|]. bool_lia.
  repeat buf_step. use_ok. done.
Qed.

Lemma post_read_reports n : forall offset len b, bytes_ok b -> post (read_reports n offset len b) (fun x => bytes_ok x.2).
Proof.
  induction n as [|n IH]; intros offset len b Hb; cbn [read_reports]; [done|]. post_step; [done|].
  eapply post_bind; [by apply post_report|]. intros [r b1] _ H1. cbn [snd] in *.
  eapply post_bind; [by apply IH|]. intros [rs b2] _ H2. done.
Qed.

#[export] Instance sender_report_safe : RtcpSafe SenderReport.
Proof.
  split. intros h body Hh Hb _ _. cbn [unmarshal SenderReport_Unmarshal]. unfold SenderReport_unmarshal, RTCP_HEADER_LENGTH, SR_HEADER_LENGTH.
  buf_step; [done|]. bool_lia. rewrite rtcp_header_read by done. cbn [mbind outcome_bind]. buf_step; [done|]. do 5 buf_step. use_ok.
  eapply post_bind; [by apply post_read_reports|]. intros [rs b] _ Hbs. cbn [snd] in *. buf_step. cbn [post snd]. apply nil_length_inv. unfold zlen in *. lia.
Qed.

#[export] Instance receiver_report_safe : RtcpSafe ReceiverReport.
Proof.
  split. intros h body Hh Hb _ _. cbn [unmarshal ReceiverReport_Unmarshal]. unfold ReceiverReport_unmarshal, RTCP_HEADER_LENGTH, SSRC_LENGTH.
  buf_step; [done|]. bool_lia. rewrite rtcp_header_read by done. cbn [mbind outcome_bind]. buf_step; [done|]. buf_step. use_ok.
  eapply post_bind; [by apply post_read_reports|]. intros [rs b] _ Hbs. cbn [snd] in *. buf_step. cbn [post snd]. apply nil_length_inv. unfold zlen in *. lia.
Qed.

#[export] Instance goodbye_safe : RtcpSafe Goodbye.
Proof.
  split. intros h body Hh Hb _ _. cbn [unmarshal Goodbye_Unmarshal]. unfold Goodbye_unmarshal, RTCP_HEADER_LENGTH, SSRC_LENGTH.
  rewrite rtcp_header_read by done. cbn [mbind outcome_bind]. do 3 (buf_step; [done|]). bool_lia. destruct Hh as [Hc _].
  eapply post_bind; [apply (post_read_n _ is_u32 4 _ body); [lia|apply post_get_u32|zlia]|]. intros [rs b] _ (L & _ & O). cbn [fst snd] in *. use_ok.
  buf_step; [|done]. bool_lia. buf_step. use_ok. buf_step; [done|]. bool_lia. buf_step. done.
Qed.
