(* ===== verification/RtcpSdes.v ===== *)
(** Source descriptions ([rtc-rtcp/src/source_description]): items, chunks and the packet. *)
From S2P Require Import Prelude Marshal Rtp Rtcp.

(** * Items *)

Definition SDES_SOURCE_LEN : Z := 4.
Definition SDES_TYPE_LEN : Z := 1.
Definition SDES_OCTET_COUNT_LEN : Z := 1.
Definition SDES_MAX_OCTET_COUNT : Z := 255.
Definition SDES_TEXT_OFFSET : Z := 2.

Inductive SdesType :=
| SdesEnd | SdesCname | SdesName | SdesEmail | SdesPhone | SdesLocation | SdesTool | SdesNote | SdesPrivate.
#[export] Instance SdesType_eq_dec : EqDecision SdesType.
Proof. solve_decision. Defined.

Definition SdesType_as_u8 (t : SdesType) : Z :=
  match t with
  | SdesEnd => 0 | SdesCname => 1 | SdesName => 2 | SdesEmail => 3 | SdesPhone => 4 | SdesLocation => 5
  | SdesTool => 6 | SdesNote => 7 | SdesPrivate => 8
  end.

Definition SdesType_from (b : Z) : SdesType :=
  if b =? 1 then SdesCname else if b =? 2 then SdesName else if b =? 3 then SdesEmail else if b =? 4 then SdesPhone
  else if b =? 5 then SdesLocation else if b =? 6 then SdesTool else if b =? 7 then SdesNote else if b =? 8 then SdesPrivate else SdesEnd.

Record SourceDescriptionItem := mkSourceDescriptionItem { sdes_type : SdesType; sdes_text : bytes }.

Definition SourceDescriptionItem_marshal_size (it : SourceDescriptionItem) : Z := SDES_TYPE_LEN + SDES_OCTET_COUNT_LEN + zlen (sdes_text it).

Definition SourceDescriptionItem_marshal_to (it : SourceDescriptionItem) (room : Z) : rtp_result (Z * bytes) :=
  if bool_decide (sdes_type it = SdesEnd) then Err SdesMissingType
  else if room <? SourceDescriptionItem_marshal_size it then Err BufferTooShort
  else if SDES_MAX_OCTET_COUNT <? zlen (sdes_text it) then Err SdesTextTooLong
  else Ok (SourceDescriptionItem_marshal_size it, put_u8 (SdesType_as_u8 (sdes_type it)) ++ put_u8 (zlen (sdes_text it)) ++ sdes_text it).

Definition SourceDescriptionItem_unmarshal (raw_packet : bytes) : rtp_result (SourceDescriptionItem * bytes) :=
  let raw_packet_len := zlen raw_packet in
  if raw_packet_len <? SDES_TYPE_LEN then Err PacketTooShort
  else
    '(t, buf) ← get_u8 raw_packet;
    let sdes_type := SdesType_from t in
    if bool_decide (sdes_type = SdesEnd) then Ok (mkSourceDescriptionItem sdes_type [], buf)
    else if raw_packet_len <? SDES_TYPE_LEN + SDES_OCTET_COUNT_LEN then Err PacketTooShort
    else
      '(octet_count, buf) ← get_u8 buf;
      if raw_packet_len <? SDES_TEXT_OFFSET + octet_count then Err PacketTooShort
      else '(text, buf) ← copy_to_bytes octet_count buf; Ok (mkSourceDescriptionItem sdes_type text, buf).

#[export] Instance SourceDescriptionItem_MarshalSize : MarshalSize SourceDescriptionItem := mkMarshalSize _ SourceDescriptionItem_marshal_size.
#[export] Instance SourceDescriptionItem_MarshalTo : MarshalTo MediaError SourceDescriptionItem := mkMarshalTo _ _ SourceDescriptionItem_marshal_to.
#[export] Instance SourceDescriptionItem_Unmarshal : Unmarshal MediaError SourceDescriptionItem := mkUnmarshal _ _ SourceDescriptionItem_unmarshal.

(** * Chunks *)

Record SourceDescriptionChunk := mkSourceDescriptionChunk { sdc_source : Z; sdc_items : list SourceDescriptionItem }.

Definition SourceDescriptionChunk_raw_size (c : SourceDescriptionChunk) : Z := SDES_SOURCE_LEN + zsum marshal_size (sdc_items c) + SDES_TYPE_LEN.
Definition SourceDescriptionChunk_marshal_size (c : SourceDescriptionChunk) : Z :=
  SourceDescriptionChunk_raw_size c + rtcp_padding_size (SourceDescriptionChunk_raw_size c).

Definition SourceDescriptionChunk_marshal_to (c : SourceDescriptionChunk) (room : Z) : rtp_result (Z * bytes) :=
  if room <? SourceDescriptionChunk_marshal_size c then Err BufferTooShort
  else
    '(_, items) ← write_each (sdc_items c) (room - SDES_SOURCE_LEN);
    Ok (SourceDescriptionChunk_marshal_size c,
        put_u32 (sdc_source c) ++ items ++ put_u8 (SdesType_as_u8 SdesEnd) ++ put_padding (SourceDescriptionChunk_raw_size c)).

(** [while offset < raw_packet_len]: every item takes at least one byte of the buffer. *)
Fixpoint read_items (fuel : nat) (offset raw_packet_len : Z) (buf : bytes) : rtp_result (list SourceDescriptionItem * bytes) :=
  if raw_packet_len <=? offset then Err PacketTooShort
  else
    match fuel with
    | O => Diverge
    | S fuel =>
        '(item, buf) ← unmarshal buf;
        if bool_decide (sdes_type item = SdesEnd) then
          let padding_len := rtcp_padding_size (offset + 1) in
          if padding_len <=? zlen buf then '(_, buf) ← copy_to_bytes padding_len buf; Ok ([], buf) else Err PacketTooShort
        else
          '(items, buf) ← read_items fuel (offset + marshal_size item) raw_packet_len buf;
          Ok (item :: items, buf)
    end.

Definition SourceDescriptionChunk_unmarshal (raw_packet : bytes) : rtp_result (SourceDescriptionChunk * bytes) :=
  let raw_packet_len := zlen raw_packet in
  if raw_packet_len <? SDES_SOURCE_LEN + SDES_TYPE_LEN then Err PacketTooShort
  else
    '(source, buf) ← get_u32 raw_packet;
    '(items, buf) ← read_items (length buf) SDES_SOURCE_LEN raw_packet_len buf;
    Ok (mkSourceDescriptionChunk source items, buf).

#[export] Instance SourceDescriptionChunk_MarshalSize : MarshalSize SourceDescriptionChunk := mkMarshalSize _ SourceDescriptionChunk_marshal_size.
#[export] Instance SourceDescriptionChunk_MarshalTo : MarshalTo MediaError SourceDescriptionChunk := mkMarshalTo _ _ SourceDescriptionChunk_marshal_to.
#[export] Instance SourceDescriptionChunk_Unmarshal : Unmarshal MediaError SourceDescriptionChunk := mkUnmarshal _ _ SourceDescriptionChunk_unmarshal.

(** * The packet *)

Record SourceDescription := mkSourceDescription { sdes_chunks : list SourceDescriptionChunk }.

Definition SourceDescription_raw_size (p : SourceDescription) : Z := RTCP_HEADER_LENGTH + zsum marshal_size (sdes_chunks p).

#[export] Instance SourceDescription_trait : RtcpTrait SourceDescription := mkRtcpTrait _
  (fun p => padded_header (SourceDescription_raw_size p) (zlen (sdes_chunks p) mod 256) PT_SourceDescription)
  (fun p => map sdc_source (sdes_chunks p))
  SourceDescription_raw_size.

Definition SourceDescription_marshal_to (p : SourceDescription) (room : Z) : rtp_result (Z * bytes) :=
  if COUNT_MAX <? zlen (sdes_chunks p) then Err TooManyChunks
  else if room <? padded_size p then Err BufferTooShort
  else put_packet (packet_header p) (raw_size p) (padded_size p) room ('(_, b) ← write_each (sdes_chunks p) (room - RTCP_HEADER_LENGTH); Ok b).

(** [while offset < raw_packet_len]: every chunk takes at least five bytes of the buffer. *)
Fixpoint read_chunks (fuel : nat) (offset raw_packet_len : Z) (buf : bytes) : rtp_result (list SourceDescriptionChunk * bytes) :=
  if raw_packet_len <=? offset then Ok ([], buf)
  else
    match fuel with
    | O => Diverge
    | S fuel =>
        '(chunk, buf) ← unmarshal buf;
        '(chunks, buf) ← read_chunks fuel (offset + marshal_size chunk) raw_packet_len buf;
        Ok (chunk :: chunks, buf)
    end.

Definition SourceDescription_unmarshal (raw_packet : bytes) : rtp_result (SourceDescription * bytes) :=
  let raw_packet_len := zlen raw_packet in
  '(h, buf) ← RtcpHeader_unmarshal raw_packet;
  if negb (bool_decide (rh_packet_type h = PT_SourceDescription)) then Err WrongType
  else
    '(chunks, buf) ← read_chunks (length buf) RTCP_HEADER_LENGTH raw_packet_len buf;
    if negb (zlen chunks =? rh_count h) then Err InvalidHeader
    else Ok (mkSourceDescription chunks, []).

#[export] Instance SourceDescription_MarshalSize : MarshalSize SourceDescription := mkMarshalSize _ padded_size.
#[export] Instance SourceDescription_MarshalTo : MarshalTo MediaError SourceDescription := mkMarshalTo _ _ SourceDescription_marshal_to.
#[export] Instance SourceDescription_Unmarshal : Unmarshal MediaError SourceDescription := mkUnmarshal _ _ SourceDescription_unmarshal.

(** * The codecs *)

Definition item_ok (it : SourceDescriptionItem) : Prop := sdes_type it <> SdesEnd /\ zlen (sdes_text it) <= 255.

#[export] Instance item_codec : Codec MediaError SourceDescriptionItem item_ok.
Proof.
  split. intros it room [Ht Hl] Hr. cbn [marshal_size marshal_to SourceDescriptionItem_MarshalSize SourceDescriptionItem_MarshalTo] in *.
  unfold SourceDescriptionItem_marshal_to. rewrite bool_decide_false by done. rewrite !ltb_false by (unfold SDES_MAX_OCTET_COUNT; lia).
  eexists. split; [done|]. split; [unfold SourceDescriptionItem_marshal_size, SDES_TYPE_LEN, SDES_OCTET_COUNT_LEN; zlia|]. intros r.
  assert (Hty : is_u8 (SdesType_as_u8 (sdes_type it)) /\ SdesType_from (SdesType_as_u8 (sdes_type it)) = sdes_type it) by (by destruct (sdes_type it)).
  cbn [unmarshal SourceDescriptionItem_Unmarshal]. unfold SourceDescriptionItem_unmarshal, SDES_TYPE_LEN, SDES_OCTET_COUNT_LEN, SDES_TEXT_OFFSET.
  rewrite ltb_false by zlia. destruct Hty as [Hu8 Hty]. read_back. rewrite Hty, bool_decide_false by done.
  rewrite ltb_false by zlia. rewrite get_put_u8 by zlia. cbn [mbind outcome_bind]. rewrite ltb_false by zlia. rewrite copy_front by done. by destruct it.
Qed.

Lemma item_size it : item_ok it -> 2 <= marshal_size it.
Proof. intros _. change (2 <= 2 + zlen (sdes_text it)). zlia. Qed.

Lemma read_end r : unmarshal (E:=MediaError) (put_u8 0 ++ r) = Ok (mkSourceDescriptionItem SdesEnd [], r).
Proof. cbn [unmarshal SourceDescriptionItem_Unmarshal]. unfold SourceDescriptionItem_unmarshal. by rewrite ltb_false by (unfold SDES_TYPE_LEN; zlia). Qed.

Lemma items_nonneg l : 0 <= zsum (marshal_size (T:=SourceDescriptionItem)) l.
Proof. apply zsum_nonneg. intros x. change (0 <= 2 + zlen (sdes_text x)). zlia. Qed.

Lemma items_written items : forall room, Forall item_ok items -> zsum marshal_size items <= room ->
  exists b, write_each (E:=MediaError) items room = Ok (zsum marshal_size items, b) /\ zlen b = zsum marshal_size items /\
    forall fuel offset len pad r, (length items < fuel)%nat -> offset + zsum marshal_size items < len ->
      zlen pad = rtcp_padding_size (offset + zsum marshal_size items + 1) -> read_items fuel offset len (b ++ put_u8 0 ++ pad ++ r) = Ok (items, r).
Proof.
  induction items as [|it items IH]; intros room Hok Hroom.
  - exists []. split; [done|]. split; [done|]. intros fuel offset len pad r Hf Ho Hp. cbn [zsum foldr] in *. destruct fuel as [|fuel]; [cbn in Hf; lia|].
    cbn [read_items]. rewrite (proj2 (Z.leb_gt _ _)) by lia. cbn [app].
    rewrite read_end. cbn [mbind outcome_bind sdes_type].
    rewrite bool_decide_true by done. rewrite Z.add_0_r in Hp. rewrite <- Hp. rewrite (proj2 (Z.leb_le _ _)) by zlia. by rewrite copy_front.
  - apply Forall_cons in Hok as [Hi Hok]. rewrite zsum_cons in *. pose proof (item_size it Hi).
    pose proof (items_nonneg items).
    destruct (codec_write (E:=MediaError) it room Hi) as (b & Hw & Hb & Hu); [lia|].
    destruct (IH (room - marshal_size it) Hok) as (bs & Hws & Hbs & Hus); [lia|].
    cbn [write_each]. rewrite Hw. cbn [mbind outcome_bind]. rewrite ltb_false by lia. rewrite Hws. cbn [mbind outcome_bind].
    rewrite Hb, Z.sub_diag. change (zeros 0) with (@nil Z). cbn [app]. eexists. split; [done|]. split; [rewrite zlen_app; lia|].
    intros fuel offset len pad r Hf Ho Hp. destruct fuel as [|fuel]; [cbn in Hf; lia|]. cbn [length] in Hf. cbn [read_items].
    rewrite (proj2 (Z.leb_gt _ _)) by lia. rewrite <- (assoc_L app), Hu. cbn [mbind outcome_bind]. rewrite bool_decide_false by apply Hi.
    rewrite Hus; [done|lia|lia|]. rewrite Hp. f_equal. lia.
Qed.

Definition chunk_ok (c : SourceDescriptionChunk) : Prop := is_u32 (sdc_source c) /\ Forall item_ok (sdc_items c).

Lemma length_items l : Forall item_ok l -> 2 * Z.of_nat (length l) <= zsum marshal_size l.
Proof. induction 1 as [|x l Hx Hl IH]; [done|]. rewrite zsum_cons. pose proof (item_size x Hx). cbn [length]. lia. Qed.

#[export] Instance sdes_chunk_codec : Codec MediaError SourceDescriptionChunk chunk_ok.
Proof.
  split. intros c room [Hs Hi] Hr. cbn [marshal_size marshal_to SourceDescriptionChunk_MarshalSize SourceDescriptionChunk_MarshalTo] in *.
  pose proof (rtcp_padding_bound (SourceDescriptionChunk_raw_size c)). pose proof (length_items _ Hi) as Hli.
  assert (Hraw : SourceDescriptionChunk_raw_size c = 5 + zsum marshal_size (sdc_items c)) by (unfold SourceDescriptionChunk_raw_size, SDES_SOURCE_LEN, SDES_TYPE_LEN; lia).
  destruct (items_written (sdc_items c) (room - SDES_SOURCE_LEN) Hi) as (b & Hw & Hb & Hu).
  { unfold SourceDescriptionChunk_marshal_size, SDES_SOURCE_LEN in *. lia. }
  unfold SourceDescriptionChunk_marshal_to. rewrite ltb_false by done. rewrite Hw. cbn [mbind outcome_bind]. eexists. split; [done|].
  split; [unfold SourceDescriptionChunk_marshal_size; zlia|]. intros r. cbn [unmarshal SourceDescriptionChunk_Unmarshal].
  unfold SourceDescriptionChunk_unmarshal, SDES_SOURCE_LEN, SDES_TYPE_LEN. rewrite ltb_false by zlia. read_back. cbn [SdesType_as_u8].
  rewrite Hu; [by destruct c| | |]; [rewrite !length_app; cbn; unfold zlen in Hb; lia|zlia|]. rewrite zlen_put_padding, Hraw. f_equal. lia.
Qed.

Lemma chunk_size c : 5 <= SourceDescriptionChunk_marshal_size c.
Proof.
  unfold SourceDescriptionChunk_marshal_size. pose proof (rtcp_padding_bound (SourceDescriptionChunk_raw_size c)).
  unfold SourceDescriptionChunk_raw_size, SDES_SOURCE_LEN, SDES_TYPE_LEN in *.
  pose proof (items_nonneg (sdc_items c)). lia.
Qed.

Lemma chunks_size l : 5 * zlen l <= zsum (marshal_size (T:=SourceDescriptionChunk)) l /\ zsum (marshal_size (T:=SourceDescriptionChunk)) l mod 4 = 0.
Proof.
  induction l as [|c l [IH1 IH2]]; [done|]. rewrite zsum_cons, zlen_cons. pose proof (chunk_size c).
  assert (SourceDescriptionChunk_marshal_size c mod 4 = 0) by apply rtcp_padding_aligned.
  change (marshal_size c) with (SourceDescriptionChunk_marshal_size c). split; [lia|mlia].
Qed.

Lemma read_chunks_all l : forall fuel offset len buf r, read_n unmarshal (length l) buf = Ok (l, r) -> (length l <= fuel)%nat ->
  offset + zsum marshal_size l = len -> read_chunks fuel offset len buf = Ok (l, r).
Proof.
  induction l as [|c l IH]; intros fuel offset len buf r Hrd Hf Hlen.
  - cbn in Hrd, Hlen. injection Hrd as ->. destruct fuel; cbn [read_chunks]; by rewrite (proj2 (Z.leb_le _ _)) by lia.
  - rewrite zsum_cons in Hlen. pose proof (chunk_size c). destruct (chunks_size l) as [Hl _]. zlen_pos.
    change (marshal_size c) with (SourceDescriptionChunk_marshal_size c) in Hlen. destruct fuel as [|fuel]; [cbn in Hf; lia|]. cbn [length] in Hf.
    cbn [read_chunks]. rewrite (proj2 (Z.leb_gt _ _)) by lia. cbn [length read_n] in Hrd. apply bind_Ok in Hrd as ([c' b1] & Hc & Hrd). rewrite Hc. cbn [mbind outcome_bind].
    apply bind_Ok in Hrd as ([l' b2] & Hl' & Hrd). injection Hrd as -> -> ->. rewrite (IH fuel _ len b1 r Hl'); [done|lia|].
    change (marshal_size c) with (SourceDescriptionChunk_marshal_size c). lia.
Qed.

Definition sdes_ok (p : SourceDescription) : Prop := Forall chunk_ok (sdes_chunks p) /\ zlen (sdes_chunks p) <= 31 /\ padded_size p <= 262144.

#[export] Instance sdes_codec : RtcpCodec SourceDescription sdes_ok.
Proof.
  split. intros p room (Hc & Hn & Hs) Hroom. cbn [marshal_size marshal_to SourceDescription_MarshalSize SourceDescription_MarshalTo] in *.
  destruct (chunks_size (sdes_chunks p)) as [Hsz Hal]. assert (Hraw : raw_size p = 4 + zsum marshal_size (sdes_chunks p)) by done.
  destruct (no_padding (raw_size p)) as [Hp Hpb]; [rewrite Hraw; clear -Hal; mlia|].
  destruct (write_each_codec (ok:=chunk_ok) (sdes_chunks p) (room - RTCP_HEADER_LENGTH) Hc) as (b & Hw & Hb & Hu).
  { unfold padded_size, RTCP_HEADER_LENGTH in *. lia. }
  unfold SourceDescription_marshal_to. rewrite !ltb_false by (unfold COUNT_MAX; lia).
  eapply put_packet_frame; [reflexivity|done|rewrite Hw; reflexivity|lia|done|by apply count_u8|done|]. intros h -> Hok Hlen.
  rewrite Hpb, app_nil_r in *. cbn [unmarshal SourceDescription_Unmarshal]. unfold SourceDescription_unmarshal, RTCP_HEADER_LENGTH.
  rewrite rtcp_header_read by done. cbn [mbind outcome_bind rh_packet_type packet_header SourceDescription_trait padded_header rh_count].
  rewrite bool_decide_true by done. cbn [negb]. erewrite read_chunks_all with (r:=[]) (l:=sdes_chunks p).
  - cbn [mbind outcome_bind]. rewrite (proj1 (count_u8 _ Hn)), Z.eqb_refl. by destruct p.
  - rewrite <- (app_nil_r b). apply Hu.
  - unfold zlen in *. lia.
  - zlia.
Qed.

(** * Decoding is safe *)

Lemma post_item b : bytes_ok b -> post (unmarshal (E:=MediaError) (T:=SourceDescriptionItem) b) (fun x => bytes_ok x.2 /\
  zlen x.2 = zlen b - (if bool_decide (sdes_type x.1 = SdesEnd) then 1 else marshal_size x.1)).
Proof.
  intros Hb. cbn [unmarshal SourceDescriptionItem_Unmarshal]. unfold SourceDescriptionItem_unmarshal, SDES_TYPE_LEN, SDES_OCTET_COUNT_LEN, SDES_TEXT_OFFSET.
  buf_step; [done|]. bool_lia. buf_step. use_ok. destruct (bool_decide (SdesType_from _ = SdesEnd)) eqn:Hend.
  { cbn [post fst snd sdes_type]. rewrite Hend. split; [done|lia]. }
  buf_step; [done|]. bool_lia. buf_step. use_ok. buf_step; [done|]. bool_lia. buf_step. use_ok. cbn [post fst snd sdes_type]. rewrite Hend.
  split; [done|]. cbn [marshal_size SourceDescriptionItem_MarshalSize]. unfold SourceDescriptionItem_marshal_size, SDES_TYPE_LEN, SDES_OCTET_COUNT_LEN.
  cbn [sdes_text]. lia.
Qed.

Lemma post_read_items fuel : forall offset len buf, bytes_ok buf -> (length buf <= fuel)%nat -> offset + zlen buf = len ->
  post (read_items fuel offset len buf) (fun x => bytes_ok x.2 /\
    let n := offset + zsum marshal_size x.1 + 1 in zlen x.2 = len - (n + rtcp_padding_size n)).
Proof.
  induction fuel as [|fuel IH]; intros offset len buf Hb Hf Hl; cbn [read_items]; buf_step; try done; bool_lia; [unfold zlen in *; lia|].
  eapply post_bind; [by apply post_item|]. intros [it b1] _ [Hb1 Hl1]. cbn [fst snd] in *. destruct (bool_decide (sdes_type it = SdesEnd)) eqn:Hend.
  - pose proof (rtcp_padding_bound (offset + 1)). buf_step; [|done]. bool_lia. buf_step. use_ok. cbn [post fst snd zsum foldr]. rewrite Z.add_0_r. split; [done|lia].
  - assert (2 <= marshal_size it) by (change (2 <= 2 + zlen (sdes_text it)); zlia).
    eapply post_bind; [apply (IH (offset + marshal_size it) len b1 Hb1); [unfold zlen in *; lia|lia]|].
    intros [its b2] _ [Hb2 Hl2]. cbn [post fst snd] in *. split; [done|]. rewrite zsum_cons. cbv zeta in *. rewrite Z.add_assoc. done.
Qed.

Lemma post_sdes_chunk b : bytes_ok b -> post (unmarshal (E:=MediaError) (T:=SourceDescriptionChunk) b) (fun x => bytes_ok x.2 /\ zlen x.2 = zlen b - marshal_size x.1).
Proof.
  intros Hb. cbn [unmarshal SourceDescriptionChunk_Unmarshal]. unfold SourceDescriptionChunk_unmarshal, SDES_SOURCE_LEN, SDES_TYPE_LEN.
  buf_step; [done|]. bool_lia. buf_step. use_ok. eapply post_bind; [apply post_read_items; [done|lia|lia]|].
  intros [its b2] _ [Hb2 Hl2]. cbn [post fst snd] in *. split; [done|exact Hl2].
Qed.

Lemma post_read_chunks fuel : forall offset len buf, bytes_ok buf -> (length buf <= fuel)%nat -> offset + zlen buf = len ->
  no_panic (read_chunks fuel offset len buf).
Proof.
  induction fuel as [|fuel IH]; intros offset len buf Hb Hf Hl; cbn [read_chunks]; unfold no_panic; buf_step; try done; bool_lia; [unfold zlen in *; lia|].
  eapply post_bind; [by apply post_sdes_chunk|]. intros [c b1] _ [Hb1 Hl1]. cbn [fst snd] in *. pose proof (chunk_size c).
  change (marshal_size c) with (SourceDescriptionChunk_marshal_size c) in *.
  eapply post_bind; [apply (IH _ len b1 Hb1); [unfold zlen in *; lia|lia]|]. by intros [cs b2] _ _.
Qed.

#[export] Instance sdes_safe : RtcpSafe SourceDescription.
Proof.
  split. intros h body Hh Hb _ _. cbn [unmarshal SourceDescription_Unmarshal]. unfold SourceDescription_unmarshal, RTCP_HEADER_LENGTH.
  rewrite rtcp_header_read by done. cbn [mbind outcome_bind]. buf_step; [done|].
  eapply post_bind; [apply post_read_chunks; [done|lia|zlia]|]. intros [cs b] _ _. by buf_step.
Qed.
