(* ===== verification/RtcpFeedback.v ===== *)
(** Feedback packets ([rtc-rtcp/src/transport_feedbacks/rapid_resynchronization_request],
    [payload_feedbacks/picture_loss_indication], [slice_loss_indication] and
    [full_intra_request]). *)
From S2P Require Import Prelude Marshal Rtp Rtcp.

Definition FORMAT_SLI : Z := 2.
Definition FORMAT_PLI : Z := 1.
Definition FORMAT_FIR : Z := 4.
Definition FORMAT_RRR : Z := 5.

(** The check of a feedback packet's type at the start of its decoder. *)
Definition wrong_type (h : RtcpHeader) (t : PacketType) (format : Z) : bool :=
  negb (bool_decide (rh_packet_type h = t)) || negb (rh_count h =? format).

(** * Rapid resynchronization request *)

Definition RRR_HEADER_LENGTH : Z := SSRC_LENGTH * 2.

Record RapidResynchronizationRequest := mkRapidResynchronizationRequest { rrr_sender_ssrc : Z; rrr_media_ssrc : Z }.

Definition rrr_raw_size (_ : RapidResynchronizationRequest) : Z := RTCP_HEADER_LENGTH + RRR_HEADER_LENGTH.

#[export] Instance rrr_trait : RtcpTrait RapidResynchronizationRequest := mkRtcpTrait _
  (fun p => padded_header (rrr_raw_size p) FORMAT_RRR PT_TransportSpecificFeedback) (fun p => [rrr_media_ssrc p]) rrr_raw_size.

Definition rrr_marshal_to (p : RapidResynchronizationRequest) (room : Z) : rtp_result (Z * bytes) :=
  if room <? padded_size p then Err BufferTooShort
  else put_packet (packet_header p) (raw_size p) (padded_size p) room (Ok (put_u32 (rrr_sender_ssrc p) ++ put_u32 (rrr_media_ssrc p))).

Definition rrr_unmarshal (raw_packet : bytes) : rtp_result (RapidResynchronizationRequest * bytes) :=
  if zlen raw_packet <? RTCP_HEADER_LENGTH + SSRC_LENGTH * 2 then Err PacketTooShort
  else
    '(h, buf) ← RtcpHeader_unmarshal raw_packet;
    if wrong_type h PT_TransportSpecificFeedback FORMAT_RRR then Err WrongType
    else
      '(sender_ssrc, buf) ← get_u32 buf;
      '(media_ssrc, buf) ← get_u32 buf;
      Ok (mkRapidResynchronizationRequest sender_ssrc media_ssrc, []).

#[export] Instance rrr_MarshalSize : MarshalSize RapidResynchronizationRequest := mkMarshalSize _ padded_size.
#[export] Instance rrr_MarshalTo : MarshalTo MediaError RapidResynchronizationRequest := mkMarshalTo _ _ rrr_marshal_to.
#[export] Instance rrr_Unmarshal : Unmarshal MediaError RapidResynchronizationRequest := mkUnmarshal _ _ rrr_unmarshal.

(** * Picture loss indication *)

Record PictureLossIndication := mkPictureLossIndication { pli_sender_ssrc : Z; pli_media_ssrc : Z }.

Definition pli_raw_size (_ : PictureLossIndication) : Z := RTCP_HEADER_LENGTH + SSRC_LENGTH * 2.

#[export] Instance pli_trait : RtcpTrait PictureLossIndication := mkRtcpTrait _
  (fun p => padded_header (pli_raw_size p) FORMAT_PLI PT_PayloadSpecificFeedback) (fun p => [pli_media_ssrc p]) pli_raw_size.

Definition pli_marshal_to (p : PictureLossIndication) (room : Z) : rtp_result (Z * bytes) :=
  if room <? padded_size p then Err BufferTooShort
  else put_packet (packet_header p) (raw_size p) (padded_size p) room (Ok (put_u32 (pli_sender_ssrc p) ++ put_u32 (pli_media_ssrc p))).

Definition pli_unmarshal (raw_packet : bytes) : rtp_result (PictureLossIndication * bytes) :=
  if zlen raw_packet <? RTCP_HEADER_LENGTH + SSRC_LENGTH * 2 then Err PacketTooShort
  else
    '(h, buf) ← RtcpHeader_unmarshal raw_packet;
    if wrong_type h PT_PayloadSpecificFeedback FORMAT_PLI then Err WrongType
    else
      '(sender_ssrc, buf) ← get_u32 buf;
      '(media_ssrc, buf) ← get_u32 buf;
      Ok (mkPictureLossIndication sender_ssrc media_ssrc, []).

#[export] Instance pli_MarshalSize : MarshalSize PictureLossIndication := mkMarshalSize _ padded_size.
#[export] Instance pli_MarshalTo : MarshalTo MediaError PictureLossIndication := mkMarshalTo _ _ pli_marshal_to.
#[export] Instance pli_Unmarshal : Unmarshal MediaError PictureLossIndication := mkUnmarshal _ _ pli_unmarshal.

(** * Slice loss indication *)

Definition SLI_LENGTH : Z := 2.
Definition SLI_OFFSET : Z := 8.

Record SliEntry := mkSliEntry { sli_first : Z; sli_number : Z; sli_picture : Z }.
Record SliceLossIndication := mkSliceLossIndication { sli_sender_ssrc : Z; sli_media_ssrc : Z; sli_entries : list SliEntry }.

Definition sli_raw_size (p : SliceLossIndication) : Z := RTCP_HEADER_LENGTH + SLI_OFFSET + zlen (sli_entries p) * 4.

#[export] Instance sli_trait : RtcpTrait SliceLossIndication := mkRtcpTrait _
  (fun p => padded_header (sli_raw_size p) FORMAT_SLI PT_TransportSpecificFeedback) (fun p => [sli_media_ssrc p]) sli_raw_size.

Definition put_sli_entry (s : SliEntry) : bytes :=
  put_u32 (Z.lor (Z.lor (Z.shiftl (Z.land (sli_first s) 8191) 19) (Z.shiftl (Z.land (sli_number s) 8191) 6)) (Z.land (sli_picture s) 63)).
Definition get_sli_entry (buf : bytes) : rtp_result (SliEntry * bytes) :=
  '(sli, buf) ← get_u32 buf;
  Ok (mkSliEntry (Z.land (Z.shiftr sli 19) 8191) (Z.land (Z.shiftr sli 6) 8191) (Z.land sli 63), buf).

(** [(self.sli_entries.len() + SLI_LENGTH) as u8 > u8::MAX]. *)
Definition sli_marshal_to (p : SliceLossIndication) (room : Z) : rtp_result (Z * bytes) :=
  if 255 <? (zlen (sli_entries p) + SLI_LENGTH) mod 256 then Err TooManyReports
  else if room <? padded_size p then Err BufferTooShort
  else put_packet (packet_header p) (raw_size p) (padded_size p) room
         (Ok (put_u32 (sli_sender_ssrc p) ++ put_u32 (sli_media_ssrc p) ++ concat (map put_sli_entry (sli_entries p)))).

Definition sli_unmarshal (raw_packet : bytes) : rtp_result (SliceLossIndication * bytes) :=
  if zlen raw_packet <? RTCP_HEADER_LENGTH + SLI_OFFSET then Err PacketTooShort
  else
    '(h, buf) ← RtcpHeader_unmarshal raw_packet;
    if zlen raw_packet <? RTCP_HEADER_LENGTH + 4 * rh_length h then Err PacketTooShort
    else if wrong_type h PT_TransportSpecificFeedback FORMAT_SLI then Err WrongType
    else
      '(sender_ssrc, buf) ← get_u32 buf;
      '(media_ssrc, buf) ← get_u32 buf;
      '(entries, buf) ← read_n get_sli_entry (Z.to_nat (rh_length h - SLI_OFFSET / 4)) buf;
      Ok (mkSliceLossIndication sender_ssrc media_ssrc entries, []).

#[export] Instance sli_MarshalSize : MarshalSize SliceLossIndication := mkMarshalSize _ padded_size.
#[export] Instance sli_MarshalTo : MarshalTo MediaError SliceLossIndication := mkMarshalTo _ _ sli_marshal_to.
#[export] Instance sli_Unmarshal : Unmarshal MediaError SliceLossIndication := mkUnmarshal _ _ sli_unmarshal.

(** * Full intra request *)

Definition FIR_OFFSET : Z := 8.
Definition FIR_MIN_OCTET_COUNT : Z := 20.

Record FirEntry := mkFirEntry { fir_ssrc : Z; fir_sequence_number : Z }.
Record FullIntraRequest := mkFullIntraRequest { fir_sender_ssrc : Z; fir_media_ssrc : Z; fir_entries : list FirEntry }.

Definition fir_raw_size (p : FullIntraRequest) : Z := RTCP_HEADER_LENGTH + FIR_OFFSET + zlen (fir_entries p) * 8.

#[export] Instance fir_trait : RtcpTrait FullIntraRequest := mkRtcpTrait _
  (fun p => padded_header (fir_raw_size p) FORMAT_FIR PT_PayloadSpecificFeedback) (fun p => map fir_ssrc (fir_entries p)) fir_raw_size.

Definition put_fir_entry (e : FirEntry) : bytes := put_u32 (fir_ssrc e) ++ put_u8 (fir_sequence_number e) ++ put_u8 0 ++ put_u16 0.

Definition fir_marshal_to (p : FullIntraRequest) (room : Z) : rtp_result (Z * bytes) :=
  if room <? padded_size p then Err BufferTooShort
  else put_packet (packet_header p) (raw_size p) (padded_size p) room
         (Ok (put_u32 (fir_sender_ssrc p) ++ put_u32 (fir_media_ssrc p) ++ concat (map put_fir_entry (fir_entries p)))).

Definition get_fir_entry (buf : bytes) : rtp_result (FirEntry * bytes) :=
  if zlen buf <? 8 then Err PacketTooShort
  else
    '(ssrc, buf) ← get_u32 buf;
    '(sequence_number, buf) ← get_u8 buf;
    '(_, buf) ← get_u8 buf;
    '(_, buf) ← get_u16 buf;
    Ok (mkFirEntry ssrc sequence_number, buf).

(** The loop over the entries runs [ceil((length * 4 - 8) / 8)] times; the product is a
    [u16]. *)
Definition fir_unmarshal `{OverflowChecks} (raw_packet : bytes) : rtp_result (FullIntraRequest * bytes) :=
  if zlen raw_packet <? FIR_MIN_OCTET_COUNT then Err PacketTooShort
  else
    '(h, buf) ← RtcpHeader_unmarshal raw_packet;
    if RTCP_HEADER_LENGTH + 4 * rh_length h <? FIR_MIN_OCTET_COUNT then Err InvalidHeader
    else if zlen raw_packet <? RTCP_HEADER_LENGTH + 4 * rh_length h then Err PacketTooShort
    else if wrong_type h PT_PayloadSpecificFeedback FORMAT_FIR then Err WrongType
    else
      '(sender_ssrc, buf) ← get_u32 buf;
      '(media_ssrc, buf) ← get_u32 buf;
      octets ← mul_ovf overflow_checks 65536 (rh_length h) 4;
      '(fir, buf) ← read_n get_fir_entry (Z.to_nat ((octets - FIR_OFFSET + 7) / 8)) buf;
      Ok (mkFullIntraRequest sender_ssrc media_ssrc fir, []).

#[export] Instance fir_MarshalSize : MarshalSize FullIntraRequest := mkMarshalSize _ padded_size.
#[export] Instance fir_MarshalTo : MarshalTo MediaError FullIntraRequest := mkMarshalTo _ _ fir_marshal_to.
#[export] Instance fir_Unmarshal `{OverflowChecks} : Unmarshal MediaError FullIntraRequest := mkUnmarshal _ _ fir_unmarshal.

(** * Codecs *)

Lemma right_type h t c : rh_packet_type h = t -> rh_count h = c -> wrong_type h t c = false.
Proof. unfold wrong_type. intros -> ->. rewrite bool_decide_true by done. by rewrite Z.eqb_refl. Qed.

Definition rrr_ok (p : RapidResynchronizationRequest) : Prop := is_u32 (rrr_sender_ssrc p) /\ is_u32 (rrr_media_ssrc p).
Definition pli_ok (p : PictureLossIndication) : Prop := is_u32 (pli_sender_ssrc p) /\ is_u32 (pli_media_ssrc p).

#[export] Instance rrr_codec : RtcpCodec RapidResynchronizationRequest rrr_ok.
Proof.
  split. intros p room [H1 H2] Hr. cbn [marshal_to rrr_MarshalTo]. unfold rrr_marshal_to. rewrite ltb_false by exact Hr.
  eapply put_packet_frame; [reflexivity|done|reflexivity|reflexivity|by vm_compute|done|done|]. intros h -> Hok Hlen.
  cbn [unmarshal rrr_Unmarshal]. unfold rrr_unmarshal. rewrite ltb_false by (unfold RTCP_HEADER_LENGTH, SSRC_LENGTH; zlia).
  rewrite rtcp_header_read by done. read_back. rewrite right_type by done. read_back. by destruct p.
Qed.

#[export] Instance pli_codec : RtcpCodec PictureLossIndication pli_ok.
Proof.
  split. intros p room [H1 H2] Hr. cbn [marshal_to pli_MarshalTo]. unfold pli_marshal_to. rewrite ltb_false by exact Hr.
  eapply put_packet_frame; [reflexivity|done|reflexivity|reflexivity|by vm_compute|done|done|]. intros h -> Hok Hlen.
  cbn [unmarshal pli_Unmarshal]. unfold pli_unmarshal. rewrite ltb_false by (unfold RTCP_HEADER_LENGTH, SSRC_LENGTH; zlia).
  rewrite rtcp_header_read by done. read_back. rewrite right_type by done. read_back. by destruct p.
Qed.

Definition sli_entry_ok (s : SliEntry) : Prop := 0 <= sli_first s < 8192 /\ 0 <= sli_number s < 8192 /\ 0 <= sli_picture s < 64.
Definition sli_ok (p : SliceLossIndication) : Prop :=
  is_u32 (sli_sender_ssrc p) /\ is_u32 (sli_media_ssrc p) /\ Forall sli_entry_ok (sli_entries p) /\ padded_size p <= 262144.

Lemma sli_word f n p : 0 <= f < 8192 -> 0 <= n < 8192 -> 0 <= p < 64 ->
  Z.lor (Z.lor (Z.shiftl (Z.land f 8191) 19) (Z.shiftl (Z.land n 8191) 6)) (Z.land p 63) = f * 524288 + n * 64 + p.
Proof.
  intros Hf Hn Hp. assert (M : forall x k, 0 <= k -> 0 <= x < 2 ^ k -> Z.land x (Z.ones k) = x) by (intros; rewrite Z.land_ones, Z.mod_small; lia).
  change 8191 with (Z.ones 13). change 63 with (Z.ones 6). rewrite (M f 13), (M n 13), (M p 6) by lia.
  rewrite Z.lor_comm, Z.lor_assoc, (Z.lor_comm p). rewrite (Z.lor_comm _ p), <- Z.lor_assoc, (Z.lor_comm (Z.shiftl f 19)), Z.lor_assoc.
  rewrite (lor_shift p n 6) by lia. rewrite lor_shift; lia.
Qed.

Lemma get_put_sli_entry s r : sli_entry_ok s -> get_sli_entry (put_sli_entry s ++ r) = Ok (s, r).
Proof.
  intros (Hf & Hn & Hp). unfold get_sli_entry, put_sli_entry. rewrite sli_word by done. rewrite get_put_u32 by (unfold is_u32; lia). cbn [mbind outcome_bind].
  rewrite !Z.shiftr_div_pow2 by lia. change 8191 with (Z.ones 13). change 63 with (Z.ones 6). rewrite !Z.land_ones by lia.
  change (2 ^ 19) with 524288. change (2 ^ 6) with 64. change (2 ^ 13) with 8192. destruct s as [f n p]. cbn [sli_first sli_number sli_picture] in *.
  do 3 f_equal; mlia.
Qed.

Lemma zlen_sli_entries l : zlen (concat (map put_sli_entry l)) = 4 * zlen l.
Proof. induction l as [|e l IH]; [done|]. cbn [map concat]. unfold put_sli_entry at 1. zlia. Qed.
#[export] Hint Rewrite zlen_sli_entries : zlen.

#[export] Instance sli_codec : RtcpCodec SliceLossIndication sli_ok.
Proof.
  split. intros p room (H1 & H2 & He & Hs) Hr. assert (Hraw : raw_size p = (3 + zlen (sli_entries p)) * 4) by (cbn; unfold sli_raw_size, RTCP_HEADER_LENGTH, SLI_OFFSET; lia).
  destruct (no_padding (raw_size p)) as [Hp Hpb]; [rewrite Hraw; clear; mlia|].
  cbn [marshal_to sli_MarshalTo]. unfold sli_marshal_to. rewrite (ltb_false 255) by (clear; mlia). rewrite ltb_false by exact Hr.
  eapply put_packet_frame; [reflexivity|done|reflexivity|zlia|done|done|done|]. intros h -> Hok Hlen. rewrite Hpb, app_nil_r in *.
  cbn [unmarshal sli_Unmarshal]. unfold sli_unmarshal, RTCP_HEADER_LENGTH. rewrite ltb_false by (unfold SLI_OFFSET; zlia).
  rewrite rtcp_header_read by done. cbn [mbind outcome_bind]. rewrite ltb_false by zlia. rewrite right_type by done. read_back.
  replace (Z.to_nat (rh_length (packet_header p) - SLI_OFFSET / 4)) with (length (sli_entries p))
    by (change (SLI_OFFSET / 4) with 2; revert Hlen; rewrite !zlen_app, zlen_sli_entries, !zlen_put_u32; unfold zlen; lia).
  rewrite <- (app_nil_r (concat _)). rewrite (read_n_write _ sli_entry_ok put_sli_entry) by (try done; intros; by apply get_put_sli_entry).
  read_back. by destruct p.
Qed.

Definition fir_entry_ok (e : FirEntry) : Prop := is_u32 (fir_ssrc e) /\ is_u8 (fir_sequence_number e).
Definition fir_ok (p : FullIntraRequest) : Prop :=
  is_u32 (fir_sender_ssrc p) /\ is_u32 (fir_media_ssrc p) /\ Forall fir_entry_ok (fir_entries p) /\ fir_entries p <> [] /\ padded_size p <= 65536.

Lemma get_put_fir_entry e r : fir_entry_ok e -> get_fir_entry (put_fir_entry e ++ r) = Ok (e, r).
Proof.
  intros [H1 H2]. unfold get_fir_entry, put_fir_entry. rewrite ltb_false by zlia. read_back. by destruct e.
Qed.

Lemma zlen_fir_entries l : zlen (concat (map put_fir_entry l)) = 8 * zlen l.
Proof. induction l as [|e l IH]; [done|]. cbn [map concat]. unfold put_fir_entry at 1. zlia. Qed.
#[export] Hint Rewrite zlen_fir_entries : zlen.

#[export] Instance fir_codec `{OverflowChecks} : RtcpCodec FullIntraRequest fir_ok.
Proof.
  split. intros p room (H1 & H2 & He & Hne & Hs) Hr.
  assert (Hraw : raw_size p = (3 + 2 * zlen (fir_entries p)) * 4) by (cbn; unfold fir_raw_size, RTCP_HEADER_LENGTH, FIR_OFFSET; lia).
  assert (1 <= zlen (fir_entries p)) by (destruct (fir_entries p); [done|zlia]).
  destruct (no_padding (raw_size p)) as [Hp Hpb]; [rewrite Hraw; clear; mlia|]. unfold padded_size in Hs.
  cbn [marshal_to fir_MarshalTo]. unfold fir_marshal_to. rewrite ltb_false by exact Hr.
  eapply put_packet_frame; [reflexivity|done|reflexivity|zlia|unfold padded_size; lia|done|done|]. intros h -> Hok Hlen. rewrite Hpb, app_nil_r in *.
  cbn [unmarshal fir_Unmarshal]. unfold fir_unmarshal, RTCP_HEADER_LENGTH, FIR_MIN_OCTET_COUNT. rewrite ltb_false by zlia.
  rewrite rtcp_header_read by done. cbn [mbind outcome_bind]. rewrite !ltb_false by zlia. rewrite right_type by done. read_back.
  assert (Hh : rh_length (packet_header p) = 2 + 2 * zlen (fir_entries p)) by (revert Hlen; rewrite !zlen_app, zlen_fir_entries, !zlen_put_u32; lia).
  rewrite Hh. unfold mul_ovf. rewrite (proj2 (Z.ltb_lt _ _)) by lia. cbn [mbind outcome_bind].
  replace (Z.to_nat _) with (length (fir_entries p)) by (unfold FIR_OFFSET, zlen; clear; mlia).
  rewrite <- (app_nil_r (concat _)). rewrite (read_n_write _ fir_entry_ok put_fir_entry) by (try done; intros; by apply get_put_fir_entry).
  read_back. by destruct p.
Qed.

(** * Decoding is safe *)

#[export] Instance rrr_safe : RtcpSafe RapidResynchronizationRequest.
Proof.
  split. intros h body Hh Hb _ _. cbn [unmarshal rrr_Unmarshal]. unfold rrr_unmarshal, RTCP_HEADER_LENGTH, SSRC_LENGTH.
  buf_step; [done|]. bool_lia. rewrite rtcp_header_read by done. cbn [mbind outcome_bind]. buf_step; [done|]. by repeat buf_step.
Qed.

#[export] Instance pli_safe : RtcpSafe PictureLossIndication.
Proof.
  split. intros h body Hh Hb _ _. cbn [unmarshal pli_Unmarshal]. unfold pli_unmarshal, RTCP_HEADER_LENGTH, SSRC_LENGTH.
  buf_step; [done|]. bool_lia. rewrite rtcp_header_read by done. cbn [mbind outcome_bind]. buf_step; [done|]. by repeat buf_step.
Qed.

#[export] Instance sli_safe : RtcpSafe SliceLossIndication.
Proof.
  split. intros h body Hh Hb Hl _. cbn [unmarshal sli_Unmarshal]. unfold sli_unmarshal, RTCP_HEADER_LENGTH, SLI_OFFSET.
  buf_step; [done|]. bool_lia. rewrite rtcp_header_read by done. cbn [mbind outcome_bind]. do 2 (buf_step; [done|]). do 2 buf_step. use_ok.
  eapply post_bind; [|by intros [? ?] _ _]. eapply (post_read_n _ (fun _ => True) 4); [lia| |change (8 / 4) with 2; zlia].
  intros buf Hbuf. unfold get_sli_entry. buf_step. cbn [post fst snd]. split; [lia|]. intros. use_ok. done.
Qed.

Lemma post_fir_entries n : forall buf, no_panic (read_n get_fir_entry n buf).
Proof.
  induction n as [|n IH]; intros buf; cbn [read_n]; [done|]. unfold no_panic in *. eapply post_bind with (P := fun _ => True).
  - unfold get_fir_entry. buf_step; [done|]. bool_lia. by repeat buf_step.
  - intros [e b] _ _. eapply post_bind; [apply IH|]. by intros [? ?] _ _.
Qed.

#[export] Instance fir_safe `{OverflowChecks} : RtcpSafe FullIntraRequest.
Proof.
  split. intros h body Hh Hb Hl Hlt. cbn [unmarshal fir_Unmarshal]. unfold fir_unmarshal, RTCP_HEADER_LENGTH, FIR_MIN_OCTET_COUNT.
  buf_step; [done|]. bool_lia. rewrite rtcp_header_read by done. cbn [mbind outcome_bind]. do 3 (buf_step; [done|]). do 2 buf_step.
  unfold mul_ovf. rewrite (proj2 (Z.ltb_lt _ _)) by lia. cbn [mbind outcome_bind]. eapply post_bind; [apply post_fir_entries|]. by intros [? ?] _ _.
Qed.

(** The guard of [SliceLossIndication::marshal_to] never fires: it compares a [u8] with
    [u8::MAX], so any number of entries is written. *)
Lemma sli_never_too_many p room : padded_size p <= room -> sli_marshal_to p room <> Err TooManyReports.
Proof.
  intros Hr. unfold sli_marshal_to. rewrite (ltb_false 255) by (clear; mlia). rewrite ltb_false by done. unfold put_packet, RtcpHeader_marshal_to.
  intros He. repeat case_match; by simplify_eq/=.
Qed.

(** The length of a full intra request is multiplied by four in 16 bits: a request of more
    than 65535 octets panics where overflow is checked. *)
Lemma fir_length_overflows : exists raw, bytes_ok raw /\ fir_unmarshal (H:=true) raw = Panic.
Proof.
  exists (rtcp_header_bytes (mkRtcpHeader false FORMAT_FIR PT_PayloadSpecificFeedback 16384) ++ zeros 65536).
  set (body := zeros 65536). assert (Hb : zlen body = 65536) by (unfold body; zlia). assert (Hok : bytes_ok body) by apply bytes_ok_zeros. clearbody body.
  split; [apply bytes_ok_app; split; [apply rtcp_header_bytes_ok|done]|]. unfold fir_unmarshal, RTCP_HEADER_LENGTH, FIR_MIN_OCTET_COUNT. rewrite ltb_false by zlia.
  rewrite rtcp_header_read by done. cbn [mbind outcome_bind rh_length]. rewrite !ltb_false by zlia. rewrite right_type by done.
  destruct (get_u32_split (E:=MediaError) body Hok) as (x & r & Er & _ & Hr & ->); [lia|]. cbn [mbind outcome_bind].
  destruct (get_u32_split (E:=MediaError) r Hr) as (y & s & _ & _ & _ & ->); [rewrite Er in Hb; zlia|]. done.
Qed.
