(* ===== verification/RtcpRemb.v ===== *)
(** Receiver estimated maximum bitrate ([rtc-rtcp/src/payload_feedbacks/
    receiver_estimated_maximum_bitrate]).  [f32] is IEEE 754 binary32 as the Standard
    Library specifies it. *)
From Stdlib Require Import SpecFloat.
From S2P Require Import Prelude Marshal Rtp Rtcp RtcpFeedback.

(** * Single precision numbers *)

Definition f32_div : spec_float -> spec_float -> spec_float := SFdiv 24 128.
Definition f32_ge (x y : spec_float) : bool := SFleb y x.
Definition f32_lt (x y : spec_float) : bool := SFltb x y.

(** [x.floor() as u32]: the cast saturates and takes NaN to 0. *)
Definition f32_floor_u32 (x : spec_float) : Z :=
  match x with
  | S754_finite false m e => Z.min 4294967295 (if 0 <=? e then Zpos m * 2 ^ e else Zpos m / 2 ^ (- e))
  | S754_infinity false => 4294967295
  | _ => 0
  end.

(** [f32::from_bits]. *)
Definition f32_from_bits (bits : Z) : spec_float :=
  let s := Z.testbit bits 31 in
  let e := Z.land (Z.shiftr bits 23) 255 in
  let m := Z.land bits 8388607 in
  if e =? 255 then (if m =? 0 then S754_infinity s else S754_nan)
  else if e =? 0 then (if m =? 0 then S754_zero s else S754_finite s (Z.to_pos m) (-149))
  else S754_finite s (Z.to_pos (m + 8388608)) (e - 150).

Definition f32_zero : spec_float := S754_zero false.
Definition f32_two : spec_float := S754_finite false 8388608 (-22).
Definition f32_thousand : spec_float := S754_finite false 16384000 (-14).

(** * The packet *)

Definition FORMAT_REMB : Z := 15.
Definition REMB_OFFSET : Z := 16.
Definition SSRC_ENTRY_OFFSET : Z := 20.
(** [b"REMB"]. *)
Definition UNIQUE_IDENTIFIER : bytes := [82; 69; 77; 66].
(** [0x3FFFFp+63]. *)
Definition BITRATE_MAX : spec_float := S754_finite false 16777152 57.
(** [(1 << 18) as f32]. *)
Definition MANTISSA_LIMIT : spec_float := S754_finite false 8388608 (-5).
Definition MANTISSA_MAX : Z := 8388607.

Record ReceiverEstimatedMaximumBitrate := mkReceiverEstimatedMaximumBitrate {
  remb_sender_ssrc : Z;
  remb_bitrate : spec_float;
  remb_ssrcs : list Z
}.

Definition remb_raw_size (p : ReceiverEstimatedMaximumBitrate) : Z := RTCP_HEADER_LENGTH + REMB_OFFSET + zlen (remb_ssrcs p) * 4.

#[export] Instance remb_trait : RtcpTrait ReceiverEstimatedMaximumBitrate := mkRtcpTrait _
  (fun p => padded_header (remb_raw_size p) FORMAT_REMB PT_PayloadSpecificFeedback) remb_ssrcs remb_raw_size.

(** [while bitrate >= (1 << 18) as f32 { bitrate /= 2.0; exp += 1; }]. *)
Fixpoint halve_bitrate (fuel : nat) (bitrate : spec_float) (exp : Z) : rtp_result (spec_float * Z) :=
  if f32_ge bitrate MANTISSA_LIMIT then
    match fuel with O => Diverge | S fuel => halve_bitrate fuel (f32_div bitrate f32_two) (exp + 1) end
  else Ok (bitrate, exp).

(** The three octets of the exponent and the mantissa.  A bitrate is at most [BITRATE_MAX],
    below [2^81], when it is halved. *)
Definition put_bitrate (bitrate : spec_float) : rtp_result bytes :=
  let bitrate := if f32_ge bitrate BITRATE_MAX then BITRATE_MAX else bitrate in
  if f32_lt bitrate f32_zero then Err InvalidBitrate
  else
    '(bitrate, exp) ← halve_bitrate 64 bitrate 0;
    if Z.shiftl 1 6 <=? exp then Err InvalidBitrate
    else
      let mantissa := f32_floor_u32 bitrate in
      Ok (put_u8 (Z.lor (Z.shiftl exp 2 mod 256) (Z.shiftr mantissa 16 mod 256)) ++ put_u8 (Z.shiftr mantissa 8) ++ put_u8 mantissa).

Definition remb_marshal_to (p : ReceiverEstimatedMaximumBitrate) (room : Z) : rtp_result (Z * bytes) :=
  if room <? padded_size p then Err BufferTooShort
  else put_packet (packet_header p) (raw_size p) (padded_size p) room (
    bitrate ← put_bitrate (remb_bitrate p);
    Ok (put_u32 (remb_sender_ssrc p) ++ put_u32 0 ++ UNIQUE_IDENTIFIER ++ put_u8 (zlen (remb_ssrcs p)) ++ bitrate ++
        concat (map put_u32 (remb_ssrcs p)))).

(** [while (mantissa & (MANTISSA_MAX + 1)) == 0 { exp -= 1; mantissa *= 2; }]. *)
Fixpoint normalise (fuel : nat) (exp mantissa : Z) : rtp_result (Z * Z) :=
  if Z.land mantissa (MANTISSA_MAX + 1) =? 0 then
    match fuel with O => Diverge | S fuel => normalise fuel (exp - 1) (mantissa * 2) end
  else Ok (exp, mantissa).

Definition get_bitrate (b17 b18 b19 : Z) : rtp_result spec_float :=
  let exp := Z.shiftr b17 2 + 127 + 23 in
  let mantissa := Z.lor (Z.lor (Z.shiftl (Z.land b17 3) 16) (Z.shiftl b18 8)) b19 in
  '(exp, mantissa) ← (if mantissa =? 0 then Ok (exp, mantissa) else normalise 24 exp mantissa);
  Ok (f32_from_bits (Z.lor (as_u32 (Z.shiftl exp 23)) (Z.land mantissa MANTISSA_MAX))).

Definition remb_unmarshal (raw_packet : bytes) : rtp_result (ReceiverEstimatedMaximumBitrate * bytes) :=
  let raw_packet_len := zlen raw_packet in
  if raw_packet_len <? SSRC_ENTRY_OFFSET then Err PacketTooShort
  else
    '(header, buf) ← RtcpHeader_unmarshal raw_packet;
    if wrong_type header PT_PayloadSpecificFeedback FORMAT_REMB then Err WrongType
    else
      '(sender_ssrc, buf) ← get_u32 buf;
      '(media_ssrc, buf) ← get_u32 buf;
      if negb (media_ssrc =? 0) then Err SsrcMustBeZero
      else
        '(u0, buf) ← get_u8 buf;
        '(u1, buf) ← get_u8 buf;
        '(u2, buf) ← get_u8 buf;
        '(u3, buf) ← get_u8 buf;
        if negb (bool_decide ([u0; u1; u2; u3] = UNIQUE_IDENTIFIER)) then Err MissingRembIdentifier
        else
          '(ssrcs_len, buf) ← get_u8 buf;
          if raw_packet_len <? SSRC_ENTRY_OFFSET + ssrcs_len * 4 then Err PacketTooShort
          else
            '(b17, buf) ← get_u8 buf;
            '(b18, buf) ← get_u8 buf;
            '(b19, buf) ← get_u8 buf;
            bitrate ← get_bitrate b17 b18 b19;
            '(ssrcs, buf) ← read_n get_u32 (Z.to_nat ssrcs_len) buf;
            Ok (mkReceiverEstimatedMaximumBitrate sender_ssrc bitrate ssrcs, []).

#[export] Instance remb_MarshalSize : MarshalSize ReceiverEstimatedMaximumBitrate := mkMarshalSize _ padded_size.
#[export] Instance remb_MarshalTo : MarshalTo MediaError ReceiverEstimatedMaximumBitrate := mkMarshalTo _ _ remb_marshal_to.
#[export] Instance remb_Unmarshal : Unmarshal MediaError ReceiverEstimatedMaximumBitrate := mkUnmarshal _ _ remb_unmarshal.

(** ** The unit [Display] prints a bitrate in *)

(** [BIT_UNITS], by their first letters. *)
Definition BIT_UNITS : list Z := [98; 75; 77; 71; 84; 80; 69].

(** [while bitrate >= 1000.0 && powers < BIT_UNITS.len()]; the loop runs at most seven times. *)
Fixpoint display_powers (n : nat) (bitrate : spec_float) (powers : Z) : spec_float * Z :=
  match n with
  | O => (bitrate, powers)
  | S n => if f32_ge bitrate f32_thousand then display_powers n (f32_div bitrate f32_thousand) (powers + 1) else (bitrate, powers)
  end.
(** [BIT_UNITS[powers]]. *)
Definition display_unit (p : ReceiverEstimatedMaximumBitrate) : rtp_result Z :=
  index BIT_UNITS (display_powers (length BIT_UNITS) (remb_bitrate p) 0).2.

(** * Halving a bitrate is exact *)

Lemma digits2_size m : digits2_pos m = Pos.size m.
Proof. by induction m; cbn; f_equal. Qed.

Lemma digits_24 m : 8388608 <= Zpos m < 16777216 -> Zdigits2 (Zpos m) = 24.
Proof.
  intros Hm. cbn [Zdigits2]. rewrite digits2_size. pose proof (Pos.size_gt m) as H1. pose proof (Pos.size_le m) as H2.
  assert (H1' : Zpos m < 2 ^ Zpos (Pos.size m)) by (rewrite <- Pos2Z.inj_pow; lia).
  assert (H2' : 2 ^ Zpos (Pos.size m) <= 2 * Zpos m) by (rewrite <- Pos2Z.inj_pow; lia).
  destruct (Z.lt_trichotomy (Zpos (Pos.size m)) 24) as [H|[H|H]]; [|lia|].
  - pose proof (Z.pow_le_mono_r 2 (Zpos (Pos.size m)) 23 ltac:(lia) ltac:(lia)). lia.
  - pose proof (Z.pow_le_mono_r 2 25 (Zpos (Pos.size m)) ltac:(lia) ltac:(lia)). lia.
Qed.

Lemma round_exact m e : 8388608 <= Zpos m < 16777216 -> -147 <= e <= 100 ->
  binary_round_aux 24 128 false (Zpos m~0) (e - 2) loc_Exact = S754_finite false m (e - 1).
Proof.
  intros Hm He. pose proof (digits_24 m Hm) as Hd. unfold binary_round_aux, shr_fexp.
  assert (Hd' : Zdigits2 (Zpos m~0) = 25) by (change (Zdigits2 (Zpos m~0)) with (Zpos (Pos.succ (digits2_pos m))); cbn [Zdigits2] in Hd; lia).
  rewrite Hd'. unfold fexp. change (emin 24 128) with (-149).
  replace (Z.max (25 + (e - 2) - 24) (-149) - (e - 2)) with 1 by lia. cbn [shr shr_record_of_loc SpecFloat.iter_pos shr_1 orb].
  cbn [shr_m loc_of_shr_record round_nearest_even]. rewrite Hd.
  replace (Z.max (24 + (e - 2 + 1) - 24) (-149) - (e - 2 + 1)) with 0 by lia. cbn [shr shr_record_of_loc shr_m].
  rewrite (proj2 (Z.leb_le _ _)) by lia. f_equal. lia.
Qed.

Lemma f32_halve m e : 8388608 <= Zpos m < 16777216 -> -147 <= e <= 100 -> f32_div (S754_finite false m e) f32_two = S754_finite false m (e - 1).
Proof.
  intros Hm He. pose proof (digits_24 m Hm) as Hd. unfold f32_div, f32_two, SFdiv, SFdiv_core_binary. rewrite Hd. change (Zdigits2 8388608) with 24.
  unfold fexp. change (emin 24 128) with (-149). cbv zeta.
  replace (Z.min (Z.max (24 + e - (24 + -22) - 24) (-149)) (e - -22)) with (e - 2) by lia.
  replace (e - -22 - (e - 2)) with 24 by lia.
  assert (Hq : Z.div_eucl (Z.shiftl (Zpos m) 24) 8388608 = (Zpos m~0, 0)).
  { pose proof (Z_div_mod (Z.shiftl (Zpos m) 24) 8388608 ltac:(lia)) as H. destruct (Z.div_eucl _ _) as [q r]. rewrite Z.shiftl_mul_pow2 in H by lia.
    change (2 ^ 24) with 16777216 in H. f_equal; lia. }
  rewrite Hq. change (new_location 8388608 0) with loc_Exact. cbn [xorb]. by apply round_exact.
Qed.

(** A number of 24 significant bits is at least [2^18] when its exponent is at least -5. *)
Lemma f32_above_limit m e : 8388608 <= Zpos m < 16777216 -> f32_ge (S754_finite false m e) MANTISSA_LIMIT = (-5 <=? e).
Proof.
  intros Hm. unfold f32_ge, SFleb, MANTISSA_LIMIT, SFcompare. destruct (Z.compare_spec (-5) e) as [H|H|H].
  - subst e. cbn [Z.leb]. change (PosDef.Pos.compare_cont Eq 8388608 m) with (Zpos 8388608 ?= Zpos m).
    destruct (Z.compare_spec (Zpos 8388608) (Zpos m)); [done..|]. exfalso. clear -H Hm. lia.
  - by rewrite (proj2 (Z.leb_le _ _)) by lia.
  - by rewrite (proj2 (Z.leb_gt _ _)) by lia.
Qed.

Lemma halve_run m : 8388608 <= Zpos m < 16777216 -> forall fuel e x, e <= 100 -> e + 6 <= Z.of_nat fuel ->
  halve_bitrate fuel (S754_finite false m e) x = Ok (S754_finite false m (Z.min e (-6)), x + Z.max 0 (e + 6)).
Proof.
  intros Hm. induction fuel as [|fuel IH]; intros e x He Hf; cbn [halve_bitrate]; rewrite f32_above_limit by done.
  - rewrite (proj2 (Z.leb_gt _ _)) by lia. f_equal; f_equal; [f_equal|]; lia.
  - destruct (Z.leb_spec (-5) e); [|f_equal; f_equal; [f_equal|]; lia]. rewrite f32_halve by lia. rewrite IH by lia. f_equal; f_equal; [f_equal|]; lia.
Qed.

(** * The codec *)

(** The bitrates an estimate can carry: an integer below [2^18] times a power of two of at
    most 63, as the number of 24 significant bits it is in [f32]. *)
Definition bitrate_ok (b : spec_float) : Prop :=
  exists m e, b = S754_finite false m e /\ 8388608 <= Zpos m < 16777216 /\ -23 <= e <= 57 /\ (2 ^ (Z.max 0 (e + 6) - e) | Zpos m).

Lemma normalise_run k : forall fuel x y, 0 <= k -> k < Z.of_nat fuel -> 8388608 <= y * 2 ^ k < 16777216 -> normalise fuel x y = Ok (x - k, y * 2 ^ k).
Proof.
  intros fuel x y Hk. revert fuel x y. pattern k. apply natlike_ind; [| |done]; clear k Hk.
  - intros fuel x y Hf Hy. rewrite Z.pow_0_r, Z.mul_1_r in *. assert (Hb : (Z.land y (MANTISSA_MAX + 1) =? 0) = false).
    { apply Z.eqb_neq. change (MANTISSA_MAX + 1) with (Z.shiftl (Z.ones 1) 23). intros H. apply (f_equal (fun z => Z.testbit z 23)) in H.
      rewrite Z.land_spec, Z.bits_0 in H. change (Z.testbit (Z.shiftl (Z.ones 1) 23) 23) with true in H. rewrite andb_true_r in H.
      apply Z.testbit_false in H; [|lia]. change (2 ^ 23) with 8388608 in H. mlia. }
    destruct fuel; [lia|]. cbn [normalise]. rewrite Hb. f_equal. f_equal; lia.
  - intros k Hk IH fuel x y Hf Hy. destruct fuel as [|fuel]; [lia|]. rewrite Z.pow_succ_r in * by lia.
    assert (Hp : 1 <= 2 ^ k) by (apply (Z.pow_le_mono_r 2 0 k); lia). assert (0 < y) by nia. assert (y < 8388608) by nia.
    cbn [normalise]. assert (Hb : Z.land y (MANTISSA_MAX + 1) = 0) by (change (MANTISSA_MAX + 1) with (Z.shiftl 1 23); apply land_low_high; [lia|change (2 ^ 23) with 8388608; lia]).
    rewrite Hb. cbn [Z.eqb]. rewrite (IH fuel (x - 1) (y * 2)) by nia. f_equal. f_equal; [lia|nia].
Qed.

Lemma from_bits_finite m e : 8388608 <= Zpos m < 16777216 -> -149 <= e <= 104 ->
  f32_from_bits (Z.lor (as_u32 (Z.shiftl (e + 150) 23)) (Z.land (Zpos m) MANTISSA_MAX)) = S754_finite false m e.
Proof.
  intros Hm He. change MANTISSA_MAX with (Z.ones 23). rewrite Z.land_ones by lia. rewrite Z.lor_comm.
  assert (Hs : as_u32 (Z.shiftl (e + 150) 23) = Z.shiftl (e + 150) 23) by (apply as_u32_id; rewrite Z.shiftl_mul_pow2 by lia; change (2 ^ 23) with 8388608; unfold is_u32; lia).
  rewrite Hs, lor_shift by (change (2 ^ 23) with 8388608; mlia). change (2 ^ 23) with 8388608. set (bits := _ + _).
  assert (Hbits : bits = (Zpos m - 8388608) + (e + 150) * 8388608) by (unfold bits; mlia). clearbody bits. unfold f32_from_bits.
  assert (Ht : Z.testbit bits 31 = false) by (apply Z.testbit_false; [lia|]; change (2 ^ 31) with 2147483648; mlia).
  assert (Hexp : Z.land (Z.shiftr bits 23) 255 = e + 150) by (rewrite land_255, Z.shiftr_div_pow2 by lia; change (2 ^ 23) with 8388608; mlia).
  assert (Hman : Z.land bits 8388607 = Zpos m - 8388608) by (change 8388607 with (Z.ones 23); rewrite Z.land_ones by lia; change (2 ^ 23) with 8388608; mlia).
  rewrite Ht, Hexp, Hman. rewrite !(proj2 (Z.eqb_neq _ _)) by lia. replace (Zpos m - 8388608 + 8388608) with (Zpos m) by lia. cbn [Z.to_pos]. f_equal. lia.
Qed.

(** The octets of an exponent of six bits and a mantissa of 18. *)
Lemma bitrate_octets x m : 0 <= x < 64 -> 0 <= m < 262144 ->
  let b17 := Z.lor (Z.shiftl x 2 mod 256) (Z.shiftr m 16 mod 256) in
  is_u8 b17 /\ Z.shiftr b17 2 = x /\
  Z.lor (Z.lor (Z.shiftl (Z.land b17 3) 16) (Z.shiftl (Z.shiftr m 8 mod 256) 8)) (m mod 256) = m.
Proof.
  intros Hx Hm b17. assert (Hb : b17 = m / 65536 + x * 4).
  { unfold b17. rewrite Z.shiftr_div_pow2 by lia. change (2 ^ 16) with 65536. rewrite (Z.mod_small (m / 65536)) by mlia.
    rewrite (Z.mod_small (Z.shiftl x 2)) by (rewrite Z.shiftl_mul_pow2 by lia; change (2 ^ 2) with 4; lia).
    rewrite Z.lor_comm, lor_shift by (change (2 ^ 2) with 4; mlia). done. }
  rewrite Hb. split; [unfold is_u8; mlia|]. rewrite !Z.shiftr_div_pow2 by lia. change (2 ^ 2) with 4. change (2 ^ 8) with 256. split; [mlia|].
  change 3 with (Z.ones 2). rewrite Z.land_ones by lia. change (2 ^ 2) with 4.
  rewrite Z.lor_comm, Z.lor_assoc, (Z.lor_comm (m mod 256)). rewrite <- Z.lor_assoc, (lor_shift (m mod 256) _ 8) by (change (2 ^ 8) with 256; mlia).
  change (2 ^ 8) with 256. rewrite Z.lor_comm, lor_shift by (change (2 ^ 16) with 65536; mlia). change (2 ^ 16) with 65536. mlia.
Qed.

Lemma bitrate_roundtrip b : bitrate_ok b -> exists x y z, put_bitrate b = Ok (put_u8 x ++ put_u8 y ++ put_u8 z) /\ is_u8 x /\
  get_bitrate x (y mod 256) (z mod 256) = Ok b.
Proof.
  intros (m & e & -> & Hm & He & Hdiv). unfold put_bitrate.
  assert (Hcap : (if f32_ge (S754_finite false m e) BITRATE_MAX then BITRATE_MAX else S754_finite false m e) = S754_finite false m e).
  { destruct (f32_ge _ _) eqn:Hge; [|done]. unfold f32_ge, SFleb, BITRATE_MAX, SFcompare in *. destruct (Z.compare_spec 57 e) as [H|H|H]; [|lia|done].
    subst e. change (2 ^ _) with 64 in Hdiv. destruct Hdiv as [q Hq]. f_equal. fold (Pos.compare 16777152 m) in Hge.
    destruct (Pos.compare_spec 16777152 m) as [|Hlt|]; [done| |done]. change (Zpos 16777152 < Zpos m) in Hlt. lia. }
  rewrite Hcap. change (f32_lt (S754_finite false m e) f32_zero) with false. cbv iota.
  rewrite (halve_run m Hm) by lia. cbn [mbind outcome_bind]. set (x := 0 + Z.max 0 (e + 6)). set (k := Z.max 0 (e + 6) - e) in *.
  assert (Hk : 6 <= k <= 23 /\ Z.min e (-6) = - k) by lia. destruct Hdiv as [q Hq].
  assert (Hp : 64 <= 2 ^ k) by (apply (Z.pow_le_mono_r 2 6 k); lia). assert (Hq' : 0 < q < 262144) by nia.
  assert (Hfl : f32_floor_u32 (S754_finite false m (Z.min e (-6))) = q).
  { cbn [f32_floor_u32]. rewrite (proj2 Hk), (proj2 (Z.leb_gt _ _)) by lia. rewrite Z.opp_involutive, Hq, Z.div_mul by lia. lia. }
  rewrite Hfl. rewrite (proj2 (Z.leb_gt _ _)) by (change (Z.shiftl 1 6) with 64; lia).
  eexists _, _, _. split; [done|]. destruct (bitrate_octets x q) as (H1 & H2 & H3); [lia..|]. split; [exact H1|].
  unfold get_bitrate. rewrite H2, H3. rewrite (proj2 (Z.eqb_neq q 0)) by lia. rewrite (normalise_run k) by (try lia; rewrite <- Hq; lia).
  cbn [mbind outcome_bind]. f_equal. rewrite <- Hq. replace (x + 127 + 23 - k) with (e + 150) by lia. apply from_bits_finite; lia.
Qed.

Definition remb_ok (p : ReceiverEstimatedMaximumBitrate) : Prop :=
  is_u32 (remb_sender_ssrc p) /\ bitrate_ok (remb_bitrate p) /\ Forall is_u32 (remb_ssrcs p) /\ zlen (remb_ssrcs p) <= 255.

Lemma zlen_ssrcs l : zlen (concat (map put_u32 l)) = 4 * zlen l.
Proof. induction l as [|x l IH]; [done|]. cbn [map concat]. zlia. Qed.

#[export] Instance remb_codec : RtcpCodec ReceiverEstimatedMaximumBitrate remb_ok.
Proof.
  split. intros p room (H1 & Hb & He & Hn) Hr.
  assert (Hraw : raw_size p = (5 + zlen (remb_ssrcs p)) * 4) by (cbn; unfold remb_raw_size, RTCP_HEADER_LENGTH, REMB_OFFSET; lia).
  destruct (no_padding (raw_size p)) as [Hp Hpb]; [rewrite Hraw; clear; mlia|].
  destruct (bitrate_roundtrip _ Hb) as (x & y & z & Hw & Hx & Hd).
  cbn [marshal_to remb_MarshalTo]. unfold remb_marshal_to. rewrite ltb_false by exact Hr.
  eapply put_packet_frame; [reflexivity|done|rewrite Hw; reflexivity| |unfold padded_size; zlen_pos; lia|done|done|].
  { rewrite Hraw, !zlen_app, zlen_ssrcs. change (zlen UNIQUE_IDENTIFIER) with 4. zlia. }
  intros h -> Hok Hlen. rewrite Hpb, app_nil_r in *. rewrite !zlen_app, zlen_ssrcs in Hlen. change (zlen UNIQUE_IDENTIFIER) with 4 in Hlen.
  cbn [unmarshal remb_Unmarshal]. unfold remb_unmarshal, SSRC_ENTRY_OFFSET. rewrite ltb_false by (rewrite !zlen_app, zlen_ssrcs; change (zlen UNIQUE_IDENTIFIER) with 4; zlia).
  rewrite rtcp_header_read by done. cbn [mbind outcome_bind]. rewrite right_type by done. read_back. cbn [Z.eqb negb].
  change (UNIQUE_IDENTIFIER ++ ?r) with (put_u8 82 ++ put_u8 69 ++ put_u8 77 ++ put_u8 66 ++ r). read_back.
  rewrite bool_decide_true by done. cbn [negb]. rewrite get_put_u8 by zlia. cbn [mbind outcome_bind].
  rewrite ltb_false by (rewrite !zlen_app, zlen_ssrcs; zlia). read_back.
  rewrite <- (put_u8_mod y), <- (put_u8_mod z). do 2 (rewrite get_put_u8 by (unfold is_u8; mlia); cbn [mbind outcome_bind]). rewrite Hd. cbn [mbind outcome_bind].
  replace (Z.to_nat (zlen (remb_ssrcs p))) with (length (remb_ssrcs p)) by (unfold zlen; lia). rewrite <- (app_nil_r (concat _)).
  rewrite (read_n_write _ is_u32 put_u32) by (try done; intros; by apply get_put_u32). read_back. by destruct p.
Qed.

(** * Decoding is safe *)

Lemma normalise_ends x y : 0 < y < 8388608 -> exists r, normalise 24 x y = Ok r.
Proof.
  intros Hy. pose proof (Z.log2_spec y ltac:(lia)) as [H1 H2]. pose proof (Z.log2_nonneg y).
  assert (H3 : Z.log2 y < 23) by (apply Z.log2_lt_pow2; [lia|]; change (2 ^ 23) with 8388608; lia).
  eexists. apply (normalise_run (23 - Z.log2 y)); [lia|lia|]. rewrite Z.pow_succ_r in H2 by done.
  assert (H4 : 2 ^ Z.log2 y * 2 ^ (23 - Z.log2 y) = 8388608) by (rewrite <- Z.pow_add_r by lia; by replace (Z.log2 y + (23 - Z.log2 y)) with 23 by lia).
  assert (0 < 2 ^ (23 - Z.log2 y)) by (apply Z.pow_pos_nonneg; lia). nia.
Qed.

Lemma post_get_bitrate x y z : is_u8 x -> is_u8 y -> is_u8 z -> no_panic (get_bitrate x y z).
Proof.
  intros Hx Hy Hz. unfold get_bitrate. set (m := Z.lor _ z). assert (Hm : 0 <= m < 8388608).
  { unfold m. change 3 with (Z.ones 2). rewrite Z.land_ones by lia. change (2 ^ 2) with 4. unfold is_u8 in *.
    rewrite Z.lor_comm, Z.lor_assoc, (Z.lor_comm z), <- Z.lor_assoc, (lor_shift z y 8) by (change (2 ^ 8) with 256; lia).
    change (2 ^ 8) with 256. rewrite Z.lor_comm, lor_shift by (change (2 ^ 16) with 65536; lia). change (2 ^ 16) with 65536. mlia. }
  destruct (Z.eqb_spec m 0) as [|Hne]; [done|]. destruct (normalise_ends (Z.shiftr x 2 + 127 + 23) m) as [[e q] ->]; [lia|]. done.
Qed.

#[export] Instance remb_safe : RtcpSafe ReceiverEstimatedMaximumBitrate.
Proof.
  split. intros h body Hh Hb _ _. cbn [unmarshal remb_Unmarshal]. unfold remb_unmarshal, SSRC_ENTRY_OFFSET.
  buf_step; [done|]. bool_lia. rewrite rtcp_header_read by done. cbn [mbind outcome_bind]. buf_step; [done|]. do 2 buf_step. buf_step; [done|].
  do 4 buf_step. buf_step; [done|]. buf_step. buf_step; [done|]. bool_lia. do 3 buf_step. use_ok.
  eapply post_bind; [by apply post_get_bitrate|]. intros b _ _.
  eapply post_bind; [|by intros [? ?] _ _]. apply (post_read_n _ is_u32 4); [lia|apply post_get_u32|]. unfold_ints. zlia.
Qed.

(** An estimate of zero is read back as 8388608 bits per second: the decoder gives a zero
    mantissa the exponent of a normal number. *)
Definition zero_estimate : bytes := [143; 206; 0; 5; 0; 0; 0; 1; 0; 0; 0; 0; 82; 69; 77; 66; 1; 0; 0; 0; 0; 0; 0; 2].
Lemma remb_zero_not_kept :
  marshal (E:=MediaError) (mkReceiverEstimatedMaximumBitrate 1 f32_zero [2]) = Ok zero_estimate /\
  unmarshal (E:=MediaError) zero_estimate = Ok (mkReceiverEstimatedMaximumBitrate 1 (S754_finite false 8388608 0) [2], []).
Proof. split; vm_compute; reflexivity. Qed.

(** Printing an estimate of [10^21] or more panics: the loop leaves an index one past the
    table of units.  A peer can send such an estimate. *)
Definition largest_estimate : bytes := [143; 206; 0; 4; 0; 0; 0; 1; 0; 0; 0; 0; 82; 69; 77; 66; 0; 255; 255; 255].
Lemma remb_display_panics :
  unmarshal (E:=MediaError) largest_estimate = Ok (mkReceiverEstimatedMaximumBitrate 1 BITRATE_MAX [], []) /\
  display_unit (mkReceiverEstimatedMaximumBitrate 1 BITRATE_MAX []) = Panic.
Proof. split; vm_compute; reflexivity. Qed.
