(* ===== verification/RtcpTcc.v ===== *)
(** Transport-wide congestion control feedback ([rtc-rtcp/src/transport_feedbacks/
    transport_layer_cc]): status chunks, receive deltas and the packet. *)
From S2P Require Import Prelude Marshal Rtp Rtcp RtcpFeedback.

(** * Symbols *)

Inductive StatusChunkTypeTcc := TccRunLengthChunk | TccStatusVectorChunk.
Inductive SymbolTypeTcc := PacketNotReceived | PacketReceivedSmallDelta | PacketReceivedLargeDelta | PacketReceivedWithoutDelta.
Inductive SymbolSizeTypeTcc := OneBit | TwoBit.
#[export] Instance StatusChunkTypeTcc_eq_dec : EqDecision StatusChunkTypeTcc.
Proof. solve_decision. Defined.
#[export] Instance SymbolTypeTcc_eq_dec : EqDecision SymbolTypeTcc.
Proof. solve_decision. Defined.
#[export] Instance SymbolSizeTypeTcc_eq_dec : EqDecision SymbolSizeTypeTcc.
Proof. solve_decision. Defined.

Definition SymbolTypeTcc_as_u16 (s : SymbolTypeTcc) : Z :=
  match s with PacketNotReceived => 0 | PacketReceivedSmallDelta => 1 | PacketReceivedLargeDelta => 2 | PacketReceivedWithoutDelta => 3 end.
Definition SymbolSizeTypeTcc_as_u16 (s : SymbolSizeTypeTcc) : Z := match s with OneBit => 0 | TwoBit => 1 end.

Definition SymbolSizeTypeTcc_from (val : Z) : SymbolSizeTypeTcc := if val =? 0 then OneBit else TwoBit.
Definition StatusChunkTypeTcc_from (val : Z) : StatusChunkTypeTcc := if val =? 0 then TccRunLengthChunk else TccStatusVectorChunk.
Definition SymbolTypeTcc_from (val : Z) : SymbolTypeTcc :=
  if val =? 0 then PacketNotReceived else if val =? 1 then PacketReceivedSmallDelta
  else if val =? 2 then PacketReceivedLargeDelta else PacketReceivedWithoutDelta.

(** * Status chunks *)

Definition PACKET_STATUS_CHUNK_LENGTH : Z := 2.
Definition TYPE_TCC_DELTA_SCALE_FACTOR : Z := 250.
Definition NUM_OF_BITS_OF_SYMBOL_SIZE (s : SymbolSizeTypeTcc) : Z := match s with OneBit => 1 | TwoBit => 2 end.

Record RunLengthChunk := mkRunLengthChunk { rl_type_tcc : StatusChunkTypeTcc; rl_packet_status_symbol : SymbolTypeTcc; rl_run_length : Z }.
Record StatusVectorChunk := mkStatusVectorChunk { sv_type_tcc : StatusChunkTypeTcc; sv_symbol_size : SymbolSizeTypeTcc; sv_symbol_list : list SymbolTypeTcc }.
#[export] Instance StatusVectorChunk_eq_dec : EqDecision StatusVectorChunk.
Proof. solve_decision. Defined.
Inductive PacketStatusChunk := PscRunLength (c : RunLengthChunk) | PscStatusVector (c : StatusVectorChunk).

(** [buf.put_u16] panics when the buffer is too short. *)
Definition put_chunk_word (dst room : Z) : rtp_result (Z * bytes) :=
  if room <? 2 then Panic else Ok (PACKET_STATUS_CHUNK_LENGTH, put_u16 dst).

Definition RunLengthChunk_marshal_to (c : RunLengthChunk) (room : Z) : rtp_result (Z * bytes) :=
  dst ← set_nbits_of_uint16 0 1 0 0;
  dst ← set_nbits_of_uint16 dst 2 1 (SymbolTypeTcc_as_u16 (rl_packet_status_symbol c));
  dst ← set_nbits_of_uint16 dst 13 3 (rl_run_length c);
  put_chunk_word dst room.

Definition RunLengthChunk_unmarshal (raw_packet : bytes) : rtp_result (RunLengthChunk * bytes) :=
  if zlen raw_packet <? PACKET_STATUS_CHUNK_LENGTH then Err PacketStatusChunkLength
  else
    '(b0, buf) ← get_u8 raw_packet;
    '(b1, buf) ← get_u8 buf;
    let packet_status_symbol := SymbolTypeTcc_from (get_nbits_from_byte b0 1 2) in
    let run_length := as_u16 (Z.shiftl (get_nbits_from_byte b0 3 5) 8) + b1 in
    Ok (mkRunLengthChunk TccRunLengthChunk packet_status_symbol run_length, buf).

(** [for (i, s) in self.symbol_list.iter().enumerate()]. *)
Fixpoint put_symbols (num_of_bits i dst : Z) (l : list SymbolTypeTcc) : rtp_result Z :=
  match l with
  | [] => Ok dst
  | s :: l =>
      let index := num_of_bits * i + 2 in
      dst ← set_nbits_of_uint16 dst num_of_bits index (SymbolTypeTcc_as_u16 s);
      put_symbols num_of_bits (i + 1) dst l
  end.

Definition StatusVectorChunk_marshal_to (c : StatusVectorChunk) (room : Z) : rtp_result (Z * bytes) :=
  dst ← set_nbits_of_uint16 0 1 0 1;
  dst ← set_nbits_of_uint16 dst 1 1 (SymbolSizeTypeTcc_as_u16 (sv_symbol_size c));
  dst ← put_symbols (NUM_OF_BITS_OF_SYMBOL_SIZE (sv_symbol_size c)) 0 dst (sv_symbol_list c);
  put_chunk_word dst room.

Definition StatusVectorChunk_unmarshal (raw_packet : bytes) : rtp_result (StatusVectorChunk * bytes) :=
  if zlen raw_packet <? PACKET_STATUS_CHUNK_LENGTH then Err PacketBeforeCname
  else
    '(b0, buf) ← get_u8 raw_packet;
    '(b1, buf) ← get_u8 buf;
    let symbol_size := SymbolSizeTypeTcc_from (get_nbits_from_byte b0 1 1) in
    let symbol_list :=
      match symbol_size with
      | OneBit => map (fun i => SymbolTypeTcc_from (get_nbits_from_byte b0 (2 + i) 1)) (seqZ 0 6) ++
                  map (fun i => SymbolTypeTcc_from (get_nbits_from_byte b1 i 1)) (seqZ 0 8)
      | TwoBit => map (fun i => SymbolTypeTcc_from (get_nbits_from_byte b0 (2 + i * 2) 2)) (seqZ 0 3) ++
                  map (fun i => SymbolTypeTcc_from (get_nbits_from_byte b1 (i * 2) 2)) (seqZ 0 4)
      end in
    Ok (mkStatusVectorChunk TccStatusVectorChunk symbol_size symbol_list, buf).

Definition PacketStatusChunk_marshal_to (c : PacketStatusChunk) (room : Z) : rtp_result (Z * bytes) :=
  match c with PscRunLength c => RunLengthChunk_marshal_to c room | PscStatusVector c => StatusVectorChunk_marshal_to c room end.

#[export] Instance PacketStatusChunk_MarshalSize : MarshalSize PacketStatusChunk := mkMarshalSize _ (fun _ => PACKET_STATUS_CHUNK_LENGTH).
#[export] Instance PacketStatusChunk_MarshalTo : MarshalTo MediaError PacketStatusChunk := mkMarshalTo _ _ PacketStatusChunk_marshal_to.

(** The chunk in [chunk_reader], by the first bit of its first octet. *)
Definition read_status_chunk (chunk_reader : bytes) : rtp_result PacketStatusChunk :=
  b0 ← index chunk_reader 0;
  match StatusChunkTypeTcc_from (get_nbits_from_byte b0 0 1) with
  | TccRunLengthChunk => '(c, _) ← RunLengthChunk_unmarshal chunk_reader; Ok (PscRunLength c)
  | TccStatusVectorChunk => '(c, _) ← StatusVectorChunk_unmarshal chunk_reader; Ok (PscStatusVector c)
  end.

(** * Receive deltas *)

Record RecvDelta := mkRecvDelta { type_tcc_packet : SymbolTypeTcc; rd_delta : Z }.

Definition RecvDelta_marshal_size (d : RecvDelta) : Z :=
  let delta := Z.quot (rd_delta d) TYPE_TCC_DELTA_SCALE_FACTOR in
  if bool_decide (type_tcc_packet d = PacketReceivedSmallDelta) && (0 <=? delta) && (delta <=? 255) then 1
  else if bool_decide (type_tcc_packet d = PacketReceivedLargeDelta) && (-32768 <=? delta) && (delta <=? 32767) then 2
  else 0.

Definition RecvDelta_marshal_to (d : RecvDelta) (room : Z) : rtp_result (Z * bytes) :=
  let delta := Z.quot (rd_delta d) TYPE_TCC_DELTA_SCALE_FACTOR in
  if bool_decide (type_tcc_packet d = PacketReceivedSmallDelta) && (0 <=? delta) && (delta <=? 255) && (1 <=? room) then Ok (1, put_u8 delta)
  else if bool_decide (type_tcc_packet d = PacketReceivedLargeDelta) && (-32768 <=? delta) && (delta <=? 32767) && (2 <=? room) then Ok (2, put_u16 delta)
  else Err DeltaExceedLimit.

(** [get_i16]. *)
Definition as_i16 (x : Z) : Z := if x <? 32768 then x else x - 65536.

Definition RecvDelta_unmarshal (raw_packet : bytes) : rtp_result (RecvDelta * bytes) :=
  let chunk_len := zlen raw_packet in
  if negb (chunk_len =? 1) && negb (chunk_len =? 2) then Err DeltaExceedLimit
  else if chunk_len =? 1 then
    '(x, buf) ← get_u8 raw_packet; Ok (mkRecvDelta PacketReceivedSmallDelta (TYPE_TCC_DELTA_SCALE_FACTOR * x), buf)
  else
    '(x, buf) ← get_u16 raw_packet; Ok (mkRecvDelta PacketReceivedLargeDelta (TYPE_TCC_DELTA_SCALE_FACTOR * as_i16 x), buf).

#[export] Instance RecvDelta_MarshalSize : MarshalSize RecvDelta := mkMarshalSize _ RecvDelta_marshal_size.
#[export] Instance RecvDelta_MarshalTo : MarshalTo MediaError RecvDelta := mkMarshalTo _ _ RecvDelta_marshal_to.

(** * The packet *)

Definition FORMAT_TCC : Z := 15.
Definition PACKET_CHUNK_OFFSET : Z := 16.

Record TransportLayerCc := mkTransportLayerCc {
  tcc_sender_ssrc : Z;
  tcc_media_ssrc : Z;
  base_sequence_number : Z;
  packet_status_count : Z;
  reference_time : Z;
  fb_pkt_count : Z;
  packet_chunks : list PacketStatusChunk;
  recv_deltas : list RecvDelta
}.

Definition tcc_raw_size (p : TransportLayerCc) : Z :=
  RTCP_HEADER_LENGTH + PACKET_CHUNK_OFFSET + zlen (packet_chunks p) * 2 +
  zsum (fun d => if bool_decide (type_tcc_packet d = PacketReceivedSmallDelta) then 1 else 2) (recv_deltas p).

#[export] Instance tcc_trait : RtcpTrait TransportLayerCc := mkRtcpTrait _
  (fun p => padded_header (tcc_raw_size p) FORMAT_TCC PT_TransportSpecificFeedback) (fun p => [tcc_media_ssrc p]) tcc_raw_size.

Definition tcc_marshal_to (p : TransportLayerCc) (room : Z) : rtp_result (Z * bytes) :=
  if room <? padded_size p then Err BufferTooShort
  else put_packet (packet_header p) (raw_size p) (padded_size p) room (
    let reference_time_and_fb_pkt_count := append_nbits_to_uint32 0 24 (reference_time p) in
    let reference_time_and_fb_pkt_count := append_nbits_to_uint32 reference_time_and_fb_pkt_count 8 (fb_pkt_count p) in
    let room := room - (RTCP_HEADER_LENGTH + PACKET_CHUNK_OFFSET) in
    '(n, chunks) ← write_each (packet_chunks p) room;
    '(_, deltas) ← write_each (recv_deltas p) (room - n);
    Ok (put_u32 (tcc_sender_ssrc p) ++ put_u32 (tcc_media_ssrc p) ++ put_u16 (base_sequence_number p) ++ put_u16 (packet_status_count p) ++
        put_u32 reference_time_and_fb_pkt_count ++ chunks ++ deltas)).

(** What a chunk adds when [left] packets have no status yet: the kinds of the deltas that
    follow for it, and how many packets it accounts for. *)
Definition chunk_deltas (left : Z) (c : PacketStatusChunk) : list SymbolTypeTcc * Z :=
  match c with
  | PscRunLength c =>
      let n := Z.min left (rl_run_length c) in
      let s := rl_packet_status_symbol c in
      (if bool_decide (s = PacketReceivedSmallDelta) || bool_decide (s = PacketReceivedLargeDelta) then replicate (Z.to_nat n) s else [], n)
  | PscStatusVector c =>
      (match sv_symbol_size c with
       | OneBit => filter (fun s => s = PacketReceivedSmallDelta) (sv_symbol_list c)
       | TwoBit => filter (fun s => s = PacketReceivedSmallDelta \/ s = PacketReceivedLargeDelta) (sv_symbol_list c)
       end, zlen (sv_symbol_list c))
  end.

(** [while processed_packet_num < packet_status_count]; every turn takes two octets. *)
Fixpoint read_status_chunks (fuel : nat) (count total_length pos processed : Z) (buf : bytes)
  : rtp_result (list PacketStatusChunk * list SymbolTypeTcc * Z * bytes) :=
  if count <=? processed then Ok ([], [], pos, buf)
  else if total_length <=? pos + PACKET_STATUS_CHUNK_LENGTH then Err PacketTooShort
  else
    match fuel with
    | O => Diverge
    | S fuel =>
        '(chunk_reader, buf) ← copy_to_bytes PACKET_STATUS_CHUNK_LENGTH buf;
        c ← read_status_chunk chunk_reader;
        let '(kinds, n) := chunk_deltas (count - processed) c in
        '(cs, ks, pos, buf) ← read_status_chunks fuel count total_length (pos + PACKET_STATUS_CHUNK_LENGTH) (Z.min 65535 (processed + n)) buf;
        Ok (c :: cs, kinds ++ ks, pos, buf)
    end.

(** [raw_packet.take(n)] handed to [RecvDelta::unmarshal]. *)
Definition take_delta (n : Z) (buf : bytes) : rtp_result (RecvDelta * bytes) :=
  '(d, _) ← RecvDelta_unmarshal (take (Z.to_nat n) buf); Ok (d, drop (Z.to_nat n) buf).

(** [for delta in &mut recv_deltas]. *)
Fixpoint read_deltas (kinds : list SymbolTypeTcc) (total_length pos : Z) (buf : bytes) : rtp_result (list RecvDelta * bytes) :=
  match kinds with
  | [] => Ok ([], buf)
  | k :: kinds =>
      if total_length <=? pos then Err PacketTooShort
      else
        let n := if bool_decide (k = PacketReceivedSmallDelta) then 1 else 2 in
        '(d, buf) ← take_delta n buf;
        '(ds, buf) ← read_deltas kinds total_length (pos + n) buf;
        Ok (d :: ds, buf)
  end.

Definition tcc_unmarshal `{OverflowChecks} (raw_packet : bytes) : rtp_result (TransportLayerCc * bytes) :=
  let raw_packet_len := zlen raw_packet in
  if raw_packet_len <? RTCP_HEADER_LENGTH + SSRC_LENGTH then Err PacketTooShort
  else
    '(h, buf) ← RtcpHeader_unmarshal raw_packet;
    words ← add_ovf overflow_checks 65536 (rh_length h) 1;
    let total_length := 4 * words in
    if total_length <? RTCP_HEADER_LENGTH + PACKET_CHUNK_OFFSET then Err PacketTooShort
    else if raw_packet_len <? total_length then Err PacketTooShort
    else if wrong_type h PT_TransportSpecificFeedback FORMAT_TCC then Err WrongType
    else
      '(sender_ssrc, buf) ← get_u32 buf;
      '(media_ssrc, buf) ← get_u32 buf;
      '(base_sequence_number, buf) ← get_u16 buf;
      '(packet_status_count, buf) ← get_u16 buf;
      '(t0, buf) ← get_u8 buf;
      '(t1, buf) ← get_u8 buf;
      '(t2, buf) ← get_u8 buf;
      let reference_time := get_24bits_from_bytes t0 t1 t2 in
      '(fb_pkt_count, buf) ← get_u8 buf;
      '(chunks, kinds, pos, buf) ← read_status_chunks (length buf) packet_status_count total_length (RTCP_HEADER_LENGTH + PACKET_CHUNK_OFFSET) 0 buf;
      '(deltas, buf) ← read_deltas kinds total_length pos buf;
      Ok (mkTransportLayerCc sender_ssrc media_ssrc base_sequence_number packet_status_count reference_time fb_pkt_count chunks deltas, []).

#[export] Instance tcc_MarshalSize : MarshalSize TransportLayerCc := mkMarshalSize _ padded_size.
#[export] Instance tcc_MarshalTo : MarshalTo MediaError TransportLayerCc := mkMarshalTo _ _ tcc_marshal_to.
#[export] Instance tcc_Unmarshal `{OverflowChecks} : Unmarshal MediaError TransportLayerCc := mkUnmarshal _ _ tcc_unmarshal.

(** * Status chunks are read back *)

Lemma byte_fields b : 0 <= b < 256 ->
  get_nbits_from_byte b 0 1 = b / 128 /\ get_nbits_from_byte b 1 2 = b / 32 mod 4 /\ get_nbits_from_byte b 3 5 = b mod 32.
Proof.
  intros Hb. assert (H : forall b, 0 <= b < 256 ->
    bool_decide (get_nbits_from_byte b 0 1 = b / 128 /\ get_nbits_from_byte b 1 2 = b / 32 mod 4 /\ get_nbits_from_byte b 3 5 = b mod 32) = true).
  { apply (bounded_forall 256). vm_compute. reflexivity. }
  exact (bool_decide_eq_true_1 _ (H b Hb)).
Qed.

Definition run_length_ok (c : RunLengthChunk) : Prop := rl_type_tcc c = TccRunLengthChunk /\ 0 <= rl_run_length c < 8192.

Lemma run_length_written c : run_length_ok c ->
  exists w, (forall room, 2 <= room -> RunLengthChunk_marshal_to c room = Ok (2, put_u16 w)) /\ read_status_chunk (put_u16 w) = Ok (PscRunLength c).
Proof.
  intros [Ht Hr]. destruct c as [t s r]. cbn [rl_type_tcc rl_run_length] in *. subst t.
  assert (Hs : 0 <= SymbolTypeTcc_as_u16 s <= 3 /\ SymbolTypeTcc_from (SymbolTypeTcc_as_u16 s) = s) by (by destruct s). destruct Hs as [Hs Hf].
  set (k := SymbolTypeTcc_as_u16 s) in *. exists (k * 8192 + r). split.
  - intros room Hroom. unfold RunLengthChunk_marshal_to. cbn [rl_packet_status_symbol rl_run_length]. fold k.
    change (set_nbits_of_uint16 0 1 0 0) with (Ok (E:=MediaError) (0 * 2 ^ (16 - 1))). cbn [mbind outcome_bind].
    rewrite set_nbits_add by (change (2 ^ (16 - 1)) with 32768; change (2 ^ 2) with 4; lia). cbn [mbind outcome_bind].
    change (0 * 2 ^ (16 - 1) + k * 2 ^ (16 - 2 - 1)) with (k * 2 ^ (16 - 3)).
    rewrite set_nbits_add by (change (2 ^ (16 - 3)) with 8192; change (2 ^ 13) with 8192; lia). cbn [mbind outcome_bind].
    change (2 ^ (16 - 3)) with 8192. change (2 ^ (16 - 13 - 3)) with 1. unfold put_chunk_word. rewrite ltb_false by done. by rewrite Z.mul_1_r.
  - destruct (byte_fields ((k * 8192 + r) / 256 mod 256)) as (F1 & F2 & F3); [mlia|].
    unfold read_status_chunk, put_u16. set (x := (k * 8192 + r) / 256 mod 256) in *. set (y := (k * 8192 + r) mod 256).
    assert (Hx : x = k * 32 + r / 256) by (subst x; mlia). assert (Hy : y = r mod 256) by (subst y; mlia). clearbody x y.
    change (index [x; y] 0) with (Ok (E:=MediaError) x). cbn [mbind outcome_bind]. rewrite F1. replace (x / 128) with 0 by mlia.
    change (StatusChunkTypeTcc_from 0) with TccRunLengthChunk. cbv iota. unfold RunLengthChunk_unmarshal.
    change (zlen [x; y] <? PACKET_STATUS_CHUNK_LENGTH) with false. cbn [get_u8 mbind outcome_bind]. rewrite F2, F3.
    replace (x / 32 mod 4) with k by mlia. rewrite Hf. do 3 f_equal. rewrite Z.shiftl_mul_pow2 by lia. change (2 ^ 8) with 256.
    rewrite as_u16_id by (unfold is_u16; mlia). mlia.
Qed.

(** Every list of [n] symbols out of [alphabet]. *)
Fixpoint all_lists {A} (alphabet : list A) (n : nat) : list (list A) :=
  match n with O => [[]] | S n => flat_map (fun l => map (fun a => a :: l) alphabet) (all_lists alphabet n) end.

Lemma in_all_lists {A} (alphabet : list A) l : Forall (fun a => In a alphabet) l -> In l (all_lists alphabet (length l)).
Proof.
  induction 1 as [|a l Ha Hl IH]; cbn [length all_lists]; [by left|]. apply in_flat_map. exists l. split; [done|]. by apply (in_map (fun a => a :: l)).
Qed.

Definition vector_symbols (s : SymbolSizeTypeTcc) : list SymbolTypeTcc :=
  match s with
  | OneBit => [PacketNotReceived; PacketReceivedSmallDelta]
  | TwoBit => [PacketNotReceived; PacketReceivedSmallDelta; PacketReceivedLargeDelta; PacketReceivedWithoutDelta]
  end.
Definition vector_length (s : SymbolSizeTypeTcc) : nat := match s with OneBit => 14 | TwoBit => 7 end.

Definition vector_ok (c : StatusVectorChunk) : Prop :=
  sv_type_tcc c = TccStatusVectorChunk /\ length (sv_symbol_list c) = vector_length (sv_symbol_size c) /\
  Forall (fun s => In s (vector_symbols (sv_symbol_size c))) (sv_symbol_list c).

Definition vector_word (c : StatusVectorChunk) : rtp_result Z :=
  dst ← set_nbits_of_uint16 0 1 0 1;
  dst ← set_nbits_of_uint16 dst 1 1 (SymbolSizeTypeTcc_as_u16 (sv_symbol_size c));
  put_symbols (NUM_OF_BITS_OF_SYMBOL_SIZE (sv_symbol_size c)) 0 dst (sv_symbol_list c).

Definition vector_kept (s : SymbolSizeTypeTcc) (l : list SymbolTypeTcc) : bool :=
  let c := mkStatusVectorChunk TccStatusVectorChunk s l in
  match vector_word c with
  | Ok w => match read_status_chunk (put_u16 w) with Ok (PscStatusVector c') => bool_decide (c' = c) | _ => false end
  | _ => false
  end.

Lemma vectors_kept s : forallb (vector_kept s) (all_lists (vector_symbols s) (vector_length s)) = true.
Proof. destruct s; vm_compute; reflexivity. Qed.

Lemma vector_written c : vector_ok c ->
  exists w, (forall room, 2 <= room -> StatusVectorChunk_marshal_to c room = Ok (2, put_u16 w)) /\ read_status_chunk (put_u16 w) = Ok (PscStatusVector c).
Proof.
  intros (Ht & Hl & Hs). pose proof (in_all_lists _ _ Hs) as Hin. rewrite Hl in Hin.
  pose proof (proj1 (forallb_forall _ _) (vectors_kept (sv_symbol_size c)) _ Hin) as Hk. unfold vector_kept in Hk.
  replace (mkStatusVectorChunk TccStatusVectorChunk (sv_symbol_size c) (sv_symbol_list c)) with c in Hk by (destruct c; cbn in *; congruence).
  destruct (vector_word c) as [w| | |] eqn:Hw; try done. exists w. split.
  - intros room Hroom. unfold StatusVectorChunk_marshal_to. unfold vector_word in Hw. apply bind_Ok in Hw as (d1 & -> & Hw). cbn [mbind outcome_bind].
    apply bind_Ok in Hw as (d2 & -> & Hw). cbn [mbind outcome_bind]. rewrite Hw. cbn [mbind outcome_bind]. unfold put_chunk_word. by rewrite ltb_false.
  - destruct (read_status_chunk (put_u16 w)) as [[c'|c']| | |]; try done. apply bool_decide_eq_true_1 in Hk. by subst c'.
Qed.

Definition status_chunk_ok (c : PacketStatusChunk) : Prop :=
  match c with PscRunLength c => run_length_ok c | PscStatusVector c => vector_ok c end.

Lemma status_chunk_written c : status_chunk_ok c ->
  exists w, (forall room, 2 <= room -> marshal_to (E:=MediaError) c room = Ok (2, put_u16 w)) /\ read_status_chunk (put_u16 w) = Ok c.
Proof. destruct c as [c|c]; [apply run_length_written|apply vector_written]. Qed.

(** ** The chunks of a packet *)

(** What the chunks of a packet say: the kinds of the deltas that follow, when the chunks
    account for [count] packets and the last one is needed for it. *)
Fixpoint status_kinds (count processed : Z) (l : list PacketStatusChunk) : option (list SymbolTypeTcc) :=
  match l with
  | [] => if count <=? processed then Some [] else None
  | c :: l =>
      if count <=? processed then None
      else
        let '(kinds, n) := chunk_deltas (count - processed) c in
        ks ← status_kinds count (Z.min 65535 (processed + n)) l;
        Some (kinds ++ ks)
  end.

(** The octets of chunks that are well formed. *)
Lemma chunks_written l : forall room, Forall status_chunk_ok l -> 2 * zlen l <= room ->
  exists b, write_each (E:=MediaError) l room = Ok (2 * zlen l, b) /\ zlen b = 2 * zlen l /\
    forall fuel count total pos processed kinds r, status_kinds count processed l = Some kinds -> (length l <= fuel)%nat ->
      (pos + 2 * zlen l < total \/ l = []) ->
      read_status_chunks fuel count total pos processed (b ++ r) = Ok (l, kinds, pos + 2 * zlen l, r).
Proof.
  induction l as [|c l IH]; intros room Hok Hroom.
  - exists []. split; [done|]. split; [done|]. intros fuel count total pos processed kinds r Hk _ _. cbn [status_kinds] in Hk.
    destruct (count <=? processed) eqn:Hc; [|done]. injection Hk as <-. change (2 * zlen []) with 0. rewrite Z.add_0_r. destruct fuel; cbn [read_status_chunks app]; by rewrite Hc.
  - apply Forall_cons in Hok as [Hc Hok]. rewrite zlen_cons in *. zlen_pos. destruct (status_chunk_written c Hc) as (w & Hw & Hr).
    destruct (IH (room - 2) Hok) as (b & Hws & Hb & Hus); [lia|].
    cbn [write_each]. rewrite Hw by lia. cbn [mbind outcome_bind]. rewrite ltb_false by lia. rewrite Hws. cbn [mbind outcome_bind].
    change (zeros (2 - zlen (put_u16 w))) with (@nil Z). cbn [app]. eexists. split; [f_equal; f_equal; lia|]. split; [zlia|].
    intros fuel count total pos processed kinds r Hk Hf Ht. cbn [status_kinds] in Hk. destruct (count <=? processed) eqn:Hcnt; [done|].
    destruct (chunk_deltas (count - processed) c) as [ks n] eqn:Hd. destruct (status_kinds count _ l) as [ks'|] eqn:Hks; [|done]. injection Hk as <-.
    destruct fuel as [|fuel]; [cbn in Hf; lia|]. cbn [read_status_chunks]. rewrite Hcnt. destruct Ht as [Ht|Ht]; [|done].
    rewrite (proj2 (Z.leb_gt _ _)) by (unfold PACKET_STATUS_CHUNK_LENGTH; lia). rewrite <- (assoc_L app), copy_front by done. cbn [mbind outcome_bind].
    rewrite Hr. cbn [mbind outcome_bind]. rewrite Hd. unfold PACKET_STATUS_CHUNK_LENGTH.
    rewrite (Hus fuel count total (pos + 2) _ ks' r Hks); [|cbn in Hf; lia|left; lia]. cbn [mbind outcome_bind]. do 2 f_equal. f_equal. lia.
Qed.

(** ** The deltas *)

Definition delta_size (d : RecvDelta) : Z := if bool_decide (type_tcc_packet d = PacketReceivedSmallDelta) then 1 else 2.

Definition delta_ok (d : RecvDelta) : Prop :=
  exists k, rd_delta d = 250 * k /\
    (type_tcc_packet d = PacketReceivedSmallDelta /\ 0 <= k <= 255 \/ type_tcc_packet d = PacketReceivedLargeDelta /\ -32768 <= k <= 32767).

Lemma delta_written d : delta_ok d ->
  exists b, (forall room, delta_size d <= room -> marshal_to (E:=MediaError) d room = Ok (delta_size d, b)) /\ zlen b = delta_size d /\
    forall r, take_delta (delta_size d) (b ++ r) = Ok (d, r).
Proof.
  destruct d as [t x]. intros (k & Hx & Ht). cbn [rd_delta type_tcc_packet] in *. subst x. unfold delta_size. cbn [type_tcc_packet].
  assert (Hq : Z.quot (250 * k) TYPE_TCC_DELTA_SCALE_FACTOR = k) by (unfold TYPE_TCC_DELTA_SCALE_FACTOR; rewrite Z.mul_comm, Z.quot_mul; lia).
  destruct Ht as [[-> Hk]|[-> Hk]]; rewrite ?bool_decide_true, ?bool_decide_false by done.
  - exists (put_u8 k). split; [|split; [done|]].
    + intros room Hr. cbn [marshal_to RecvDelta_MarshalTo]. unfold RecvDelta_marshal_to. cbn [rd_delta type_tcc_packet]. rewrite Hq, bool_decide_true by done.
      by rewrite !(proj2 (Z.leb_le _ _)) by lia.
    + intros r. unfold take_delta. rewrite (take_front (put_u8 k) r 1), (drop_front (put_u8 k) r 1) by done. unfold RecvDelta_unmarshal. cbn -[Z.mul Z.modulo].
      rewrite Z.mod_small by lia. done.
  - exists (put_u16 k). split; [|split; [done|]].
    + intros room Hr. cbn [marshal_to RecvDelta_MarshalTo]. unfold RecvDelta_marshal_to. cbn [rd_delta type_tcc_packet]. rewrite Hq.
      rewrite (bool_decide_false (PacketReceivedLargeDelta = _)) by done. cbn [andb]. rewrite bool_decide_true by done. by rewrite !(proj2 (Z.leb_le _ _)) by lia.
    + intros r. unfold take_delta. rewrite (take_front (put_u16 k) r 2), (drop_front (put_u16 k) r 2) by done. unfold RecvDelta_unmarshal.
      change (zlen (put_u16 k)) with 2. cbn [Z.eqb negb andb Pos.eqb]. cbn [get_u16 put_u16 mbind outcome_bind]. do 3 f_equal. unfold as_i16, TYPE_TCC_DELTA_SCALE_FACTOR.
      destruct (Z.ltb_spec (k / 256 mod 256 * 256 + k mod 256) 32768); mlia.
Qed.

Lemma deltas_written l : forall room, Forall delta_ok l -> zsum delta_size l <= room ->
  exists b, (exists n, write_each (E:=MediaError) l room = Ok (n, b)) /\ zlen b = zsum delta_size l /\
    forall total pos r, pos + zsum delta_size l <= total -> read_deltas (map type_tcc_packet l) total pos (b ++ r) = Ok (l, r).
Proof.
  induction l as [|d l IH]; intros room Hok Hroom.
  - exists []. split; [by eexists|]. done.
  - apply Forall_cons in Hok as [Hd Hok]. rewrite zsum_cons in *. destruct (delta_written d Hd) as (b & Hw & Hb & Hu).
    assert (Hpos : 0 < delta_size d) by (unfold delta_size; case_match; lia).
    assert (Hnn : 0 <= zsum delta_size l) by (apply zsum_nonneg; intros x; unfold delta_size; case_match; lia).
    destruct (IH (room - delta_size d) Hok) as (bs & [n Hws] & Hbs & Hus); [lia|].
    cbn [write_each]. rewrite Hw by lia. cbn [mbind outcome_bind]. rewrite ltb_false by lia. rewrite Hws. cbn [mbind outcome_bind].
    rewrite Hb, Z.sub_diag. change (zeros 0) with (@nil Z). cbn [app]. eexists. split; [by eexists|]. split; [zlia|].
    intros total pos r Ht. cbn [map read_deltas]. rewrite (proj2 (Z.leb_gt _ _)) by lia. fold (delta_size d). rewrite <- (assoc_L app), Hu. cbn [mbind outcome_bind].
    rewrite Hus by lia. done.
Qed.

(** ** The packet *)

Definition tcc_ok (p : TransportLayerCc) : Prop :=
  is_u32 (tcc_sender_ssrc p) /\ is_u32 (tcc_media_ssrc p) /\ is_u16 (base_sequence_number p) /\ is_u16 (packet_status_count p) /\
  0 <= reference_time p < 16777216 /\ is_u8 (fb_pkt_count p) /\
  Forall status_chunk_ok (packet_chunks p) /\ Forall delta_ok (recv_deltas p) /\
  status_kinds (packet_status_count p) 0 (packet_chunks p) = Some (map type_tcc_packet (recv_deltas p)) /\
  (20 + 2 * zlen (packet_chunks p) < padded_size p \/ packet_chunks p = []) /\ padded_size p < 262144.

Lemma reference_word t f : 0 <= t < 16777216 -> is_u8 f ->
  put_u32 (append_nbits_to_uint32 (append_nbits_to_uint32 0 24 t) 8 f) =
    put_u8 (t / 65536) ++ put_u8 (t / 256 mod 256) ++ put_u8 (t mod 256) ++ put_u8 f.
Proof.
  intros Ht Hf. unfold append_nbits_to_uint32. rewrite Z.shiftl_0_l. change (as_u32 0) with 0. rewrite Z.lor_0_l.
  change (Z.shiftr 4294967295 (32 - 24)) with (Z.ones 24). change (Z.shiftr 4294967295 (32 - 8)) with (Z.ones 8).
  unfold is_u8 in Hf. rewrite !Z.land_ones, (Z.mod_small t), (Z.mod_small f) by (try change (2 ^ 24) with 16777216; try change (2 ^ 8) with 256; lia).
  rewrite as_u32_id by (rewrite Z.shiftl_mul_pow2 by lia; change (2 ^ 8) with 256; unfold is_u32; lia).
  rewrite Z.lor_comm, lor_shift by (change (2 ^ 8) with 256; lia). change (2 ^ 8) with 256.
  unfold put_u32, put_u8. cbn [app]. repeat (apply f_equal2; [mlia|]). done.
Qed.

Lemma reference_read t : 0 <= t < 16777216 -> get_24bits_from_bytes (t / 65536) (t / 256 mod 256) (t mod 256) = t.
Proof. intros. unfold get_24bits_from_bytes. rewrite !Z.shiftl_mul_pow2 by lia. change (2 ^ 16) with 65536. change (2 ^ 8) with 256. mlia. Qed.

#[export] Instance tcc_codec `{OverflowChecks} : RtcpCodec TransportLayerCc tcc_ok.
Proof.
  split. intros p room (H1 & H2 & H3 & H4 & H5 & H6 & Hc & Hd & Hk & Hroom & Hs) Hr.
  assert (Hraw : raw_size p = 20 + 2 * zlen (packet_chunks p) + zsum delta_size (recv_deltas p)).
  { cbn. unfold tcc_raw_size, RTCP_HEADER_LENGTH, PACKET_CHUNK_OFFSET. fold delta_size. lia. }
  pose proof (rtcp_padding_bound (raw_size p)) as Hpb. change (padded_size p <= room) in Hr.
  assert (Hnn : 0 <= zsum delta_size (recv_deltas p)) by (apply zsum_nonneg; intros x; unfold delta_size; case_match; lia).
  destruct (chunks_written (packet_chunks p) (room - 20) Hc) as (bc & Hwc & Hbc & Huc); [unfold padded_size in *; lia|].
  destruct (deltas_written (recv_deltas p) (room - 20 - 2 * zlen (packet_chunks p)) Hd) as (bd & [n Hwd] & Hbd & Hud); [unfold padded_size in *; lia|].
  cbn [marshal_to tcc_MarshalTo]. unfold tcc_marshal_to. rewrite ltb_false by done. change (RTCP_HEADER_LENGTH + PACKET_CHUNK_OFFSET) with 20.
  eapply put_packet_frame; [reflexivity|done| |rewrite Hraw|lia|done|done|].
  { rewrite Hwc. cbn [mbind outcome_bind]. rewrite Hwd. cbn [mbind outcome_bind]. reflexivity. }
  { zlia. }
  intros h -> Hok Hlen. cbn [unmarshal tcc_Unmarshal]. unfold tcc_unmarshal. change (RTCP_HEADER_LENGTH + SSRC_LENGTH) with 8. change (RTCP_HEADER_LENGTH + PACKET_CHUNK_OFFSET) with 20.
  rewrite ltb_false by zlia. rewrite rtcp_header_read by done. cbn [mbind outcome_bind].
  assert (Hlen' : 4 * (rh_length (packet_header p) + 1) = padded_size p) by (unfold padded_size; zlia).
  rewrite add_ovf_Ok by lia. cbn [mbind outcome_bind]. rewrite Hlen'. rewrite !ltb_false by (unfold padded_size in *; zlia). rewrite right_type by done.
  rewrite reference_word by done. read_back. rewrite get_put_u8 by (unfold is_u8; mlia). read_back. do 2 (rewrite get_put_u8 by (unfold is_u8; mlia); read_back).
  rewrite reference_read by done.
  rewrite (Huc _ _ _ _ _ _ _ Hk); [|rewrite !length_app; unfold zlen in *; lia|done]. cbn [mbind outcome_bind].
  rewrite Hud by (unfold padded_size; lia). cbn [mbind outcome_bind]. by destruct p.
Qed.

(** * Decoding is safe *)

Lemma post_read_status_chunk b : zlen b = 2 -> no_panic (read_status_chunk b).
Proof.
  intros Hb. unfold read_status_chunk, no_panic. buf_step. case_match.
  - eapply post_bind with (P := fun _ => True); [|by intros [? ?] _ _]. unfold RunLengthChunk_unmarshal, PACKET_STATUS_CHUNK_LENGTH. buf_step; [done|]. by repeat buf_step.
  - eapply post_bind with (P := fun _ => True); [|by intros [? ?] _ _]. unfold StatusVectorChunk_unmarshal, PACKET_STATUS_CHUNK_LENGTH. buf_step; [done|]. by repeat buf_step.
Qed.

Lemma post_read_status_chunks fuel : forall count total pos processed buf, pos + zlen buf = total -> (length buf <= fuel)%nat ->
  no_panic (read_status_chunks fuel count total pos processed buf).
Proof.
  induction fuel as [|fuel IH]; intros count total pos processed buf Hp Hf; cbn [read_status_chunks]; unfold no_panic, PACKET_STATUS_CHUNK_LENGTH in *.
  all: buf_step; [done|]; buf_step; [done|]; bool_lia.
  { cbn [post]. unfold zlen in *. lia. }
  buf_step. eapply post_bind; [by apply post_read_status_chunk|]. intros c _ _. cbn beta. destruct (chunk_deltas (count - processed) c) as [ks n].
  eapply post_bind; [apply IH; [lia|unfold zlen in *; lia]|]. by intros [[[? ?] ?] ?] _ _.
Qed.

Lemma post_take_delta n buf : no_panic (take_delta n buf).
Proof.
  unfold take_delta, no_panic. eapply post_bind with (P := fun _ => True); [|by intros [? ?] _ _]. unfold RecvDelta_unmarshal.
  destruct (Z.eqb_spec (zlen (take (Z.to_nat n) buf)) 1) as [E1|_]; cbn [negb andb]; [by buf_step|].
  destruct (Z.eqb_spec (zlen (take (Z.to_nat n) buf)) 2) as [E2|_]; cbn [negb andb]; [by buf_step|done].
Qed.

Lemma post_read_deltas kinds : forall total pos buf, no_panic (read_deltas kinds total pos buf).
Proof.
  induction kinds as [|k kinds IH]; intros total pos buf; cbn [read_deltas]; [done|]. unfold no_panic in *. buf_step; [done|]. cbn zeta.
  eapply post_bind; [apply post_take_delta|]. intros [d b] _ _. eapply post_bind; [apply IH|]. by intros [? ?] _ _.
Qed.

#[export] Instance tcc_safe `{OverflowChecks} : RtcpSafe TransportLayerCc.
Proof.
  split. intros h body Hh Hb Hl Hlt. cbn [unmarshal tcc_Unmarshal]. unfold tcc_unmarshal. change (RTCP_HEADER_LENGTH + SSRC_LENGTH) with 8. change (RTCP_HEADER_LENGTH + PACKET_CHUNK_OFFSET) with 20.
  buf_step; [done|]. bool_lia. rewrite rtcp_header_read by done. cbn [mbind outcome_bind]. rewrite add_ovf_Ok by lia. cbn [mbind outcome_bind].
  do 3 (buf_step; [done|]). bool_lia. do 8 buf_step.
  eapply post_bind; [apply post_read_status_chunks; [zlia|lia]|]. intros [[[cs ks] pos] b] _ _. eapply post_bind; [apply post_read_deltas|]. by intros [? ?] _ _.
Qed.

(** * Feedback the decoder refuses or misreads *)

Definition lost_run (n : Z) : PacketStatusChunk := PscRunLength (mkRunLengthChunk TccRunLengthChunk PacketNotReceived n).

(** A packet whose chunks end it, because nothing was received, is not decoded: the loop asks
    for an octet after the last chunk. *)
Definition lost_feedback : TransportLayerCc := mkTransportLayerCc 1 2 3 2 4 5 [lost_run 1; lost_run 1] [].
Definition lost_octets : bytes := [143; 205; 0; 5; 0; 0; 0; 1; 0; 0; 0; 2; 0; 3; 0; 2; 0; 0; 4; 5; 0; 1; 0; 1].
Lemma tcc_lost_refused `{OverflowChecks} :
  marshal (E:=MediaError) lost_feedback = Ok lost_octets /\ unmarshal (E:=MediaError) (T:=TransportLayerCc) lost_octets = Err PacketTooShort.
Proof. by destruct H. Qed.

(** A large delta of which only one octet is in the packet is accepted as a small one. *)
Definition cut_octets : bytes := [143; 205; 0; 5; 0; 0; 0; 1; 0; 0; 0; 2; 0; 3; 0; 2; 0; 0; 4; 5; 216; 0; 7; 9].
Lemma tcc_cut_delta `{OverflowChecks} : exists p, unmarshal (E:=MediaError) cut_octets = Ok (p, []) /\
  recv_deltas p = [mkRecvDelta PacketReceivedSmallDelta 1750; mkRecvDelta PacketReceivedSmallDelta 2250] /\
  status_kinds (packet_status_count p) 0 (packet_chunks p) = Some [PacketReceivedSmallDelta; PacketReceivedLargeDelta].
Proof. eexists. destruct H; split; (vm_compute; reflexivity) || (split; vm_compute; reflexivity). Qed.
