(* ===== verification/RtcpCcfb.v ===== *)
(** Congestion control feedback of RFC 8888 ([rtc-rtcp/src/transport_feedbacks/
    cc_feedback_report]): metric blocks, report blocks with their two decoders, the packet. *)
From S2P Require Import Prelude Marshal Rtp Rtcp RtcpFeedback.

(** * Metric blocks *)

Definition REPORT_BLOCK_OFFSET : Z := RTCP_HEADER_LENGTH + SSRC_LENGTH.
Definition REPORT_TIMESTAMP_LENGTH : Z := 4.
Definition REPORT_BLOCK_HEADER_LENGTH : Z := 8.
Definition METRIC_BLOCK_LENGTH : Z := 2.
Definition MAX_METRIC_BLOCKS : Z := 16384.
Definition FORMAT_CCFB : Z := 11.

Inductive Ecn := NotEct | Ect1 | Ect0 | Ce.

Definition Ecn_as_u16 (e : Ecn) : Z := match e with NotEct => 0 | Ect1 => 1 | Ect0 => 2 | Ce => 3 end.
Definition Ecn_from_bits (value : Z) : Ecn :=
  let v := Z.land value 3 in
  if v =? 0 then NotEct else if v =? 1 then Ect1 else if v =? 2 then Ect0 else Ce.

Record CcFeedbackMetricBlock := mkCcFeedbackMetricBlock { received : bool; ecn : Ecn; arrival_time_offset : Z }.

Definition marshal_word (b : CcFeedbackMetricBlock) : rtp_result Z :=
  let received := if received b then 1 else 0 in
  word ← set_nbits_of_uint16 0 1 0 received;
  word ← set_nbits_of_uint16 word 2 1 (Ecn_as_u16 (ecn b));
  set_nbits_of_uint16 word 13 3 (arrival_time_offset b).

Definition unmarshal_word (word : Z) : CcFeedbackMetricBlock :=
  let received := negb (Z.land word 32768 =? 0) in
  if negb received then mkCcFeedbackMetricBlock false NotEct 0
  else mkCcFeedbackMetricBlock received (Ecn_from_bits (Z.shiftr word 13 mod 256)) (Z.land word 8191).

(** * Report blocks *)

Record CcFeedbackReportBlock := mkCcFeedbackReportBlock { cfb_media_ssrc : Z; begin_sequence : Z; metric_blocks : list CcFeedbackMetricBlock }.

Definition padded_count (count : Z) : Z := if count mod 2 =? 0 then count else count + 1.
Definition padded_metric_block_count (b : CcFeedbackReportBlock) : Z := padded_count (zlen (metric_blocks b)).
Definition CcFeedbackReportBlock_raw_size (b : CcFeedbackReportBlock) : Z :=
  REPORT_BLOCK_HEADER_LENGTH + METRIC_BLOCK_LENGTH * padded_metric_block_count b.

Fixpoint put_words (l : list CcFeedbackMetricBlock) : rtp_result bytes :=
  match l with [] => Ok [] | b :: l => w ← marshal_word b; r ← put_words l; Ok (put_u16 w ++ r) end.

(** The packet has checked that the buffer holds every block. *)
Definition CcFeedbackReportBlock_marshal_to (b : CcFeedbackReportBlock) : rtp_result bytes :=
  if MAX_METRIC_BLOCKS <? zlen (metric_blocks b) then Err TooManyReports
  else
    words ← put_words (metric_blocks b);
    Ok (put_u32 (cfb_media_ssrc b) ++ put_u16 (begin_sequence b) ++ put_u16 (zlen (metric_blocks b)) ++ words ++
        flat_map (fun _ => put_u16 0) (seqZ (zlen (metric_blocks b)) (padded_metric_block_count b - zlen (metric_blocks b)))).

(** [as_chunks::<2>]; a trailing octet is ignored. *)
Fixpoint decode_metric_words (words : bytes) : list CcFeedbackMetricBlock :=
  match words with
  | x :: y :: words => unmarshal_word (x * 256 + y) :: decode_metric_words words
  | _ => []
  end.

(** [raw_packet.chunk().len()]: how many of the octets that are left lie together. *)
Class Segmented := chunk_len : bytes -> Z.

Section segmented.
Context `{Segmented}.

Definition CcFeedbackReportBlock_unmarshal_from (raw_packet : bytes) (budget : Z) : rtp_result (CcFeedbackReportBlock * Z * bytes) :=
  if (budget <? REPORT_BLOCK_HEADER_LENGTH) || (zlen raw_packet <? REPORT_BLOCK_HEADER_LENGTH) then Err PacketTooShort
  else
    '(media_ssrc, buf) ← get_u32 raw_packet;
    '(begin_sequence, buf) ← get_u16 buf;
    '(num_reports, buf) ← get_u16 buf;
    let padded := padded_count num_reports in
    let consumed := REPORT_BLOCK_HEADER_LENGTH + METRIC_BLOCK_LENGTH * padded in
    if (budget <? consumed) || (zlen buf <? METRIC_BLOCK_LENGTH * padded) then Err PacketTooShort
    else
      let words_len := METRIC_BLOCK_LENGTH * num_reports in
      '(metric_blocks, buf) ← (
        if words_len <=? chunk_len buf then
          words ← slice buf 0 words_len;
          '(_, buf) ← copy_to_bytes (METRIC_BLOCK_LENGTH * padded) buf;
          Ok (decode_metric_words words, buf)
        else
          '(words, buf) ← read_n get_u16 (Z.to_nat num_reports) buf;
          if negb (padded =? num_reports) then '(_, buf) ← copy_to_bytes METRIC_BLOCK_LENGTH buf; Ok (map unmarshal_word words, buf)
          else Ok (map unmarshal_word words, buf));
      Ok (mkCcFeedbackReportBlock media_ssrc begin_sequence metric_blocks, consumed, buf).
End segmented.

(** * The packet *)

Record CcFeedbackReport := mkCcFeedbackReport { cfr_sender_ssrc : Z; report_blocks : list CcFeedbackReportBlock; report_timestamp : Z }.

Definition ccfb_raw_size (p : CcFeedbackReport) : Z :=
  let blocks := zsum CcFeedbackReportBlock_raw_size (report_blocks p) in
  REPORT_BLOCK_OFFSET + blocks + REPORT_TIMESTAMP_LENGTH.

#[export] Instance ccfb_trait : RtcpTrait CcFeedbackReport := mkRtcpTrait _
  (fun p => padded_header (ccfb_raw_size p) FORMAT_CCFB PT_TransportSpecificFeedback) (fun p => map cfb_media_ssrc (report_blocks p)) ccfb_raw_size.

Fixpoint put_blocks (l : list CcFeedbackReportBlock) : rtp_result bytes :=
  match l with [] => Ok [] | b :: l => x ← CcFeedbackReportBlock_marshal_to b; r ← put_blocks l; Ok (x ++ r) end.

Definition ccfb_marshal_to (p : CcFeedbackReport) (room : Z) : rtp_result (Z * bytes) :=
  if room <? padded_size p then Err BufferTooShort
  else put_packet (packet_header p) (raw_size p) (padded_size p) room (
    blocks ← put_blocks (report_blocks p);
    Ok (put_u32 (cfr_sender_ssrc p) ++ blocks ++ put_u32 (report_timestamp p))).

Section ccfb.
Context `{Segmented}.

(** [while remaining_blocks_len > 0]; every block takes at least eight octets of it. *)
Fixpoint read_report_blocks (fuel : nat) (remaining_blocks_len : Z) (buf : bytes) : rtp_result (list CcFeedbackReportBlock * bytes) :=
  if remaining_blocks_len <=? 0 then Ok ([], buf)
  else
    match fuel with
    | O => Diverge
    | S fuel =>
        '(block, consumed, buf) ← CcFeedbackReportBlock_unmarshal_from buf remaining_blocks_len;
        '(blocks, buf) ← read_report_blocks fuel (remaining_blocks_len - consumed) buf;
        Ok (block :: blocks, buf)
    end.

Definition ccfb_unmarshal (raw_packet : bytes) : rtp_result (CcFeedbackReport * bytes) :=
  let raw_packet_len := zlen raw_packet in
  if raw_packet_len <? REPORT_BLOCK_OFFSET + REPORT_TIMESTAMP_LENGTH then Err PacketTooShort
  else
    '(h, buf) ← RtcpHeader_unmarshal raw_packet;
    if wrong_type h PT_TransportSpecificFeedback FORMAT_CCFB then Err WrongType
    else
      let packet_len := 4 * (rh_length h + 1) in
      if (raw_packet_len <? packet_len) || (packet_len <? REPORT_BLOCK_OFFSET + REPORT_TIMESTAMP_LENGTH) then Err PacketTooShort
      else
        '(sender_ssrc, buf) ← get_u32 buf;
        let remaining_blocks_len := packet_len - REPORT_BLOCK_OFFSET - REPORT_TIMESTAMP_LENGTH in
        '(report_blocks, buf) ← read_report_blocks (length buf) remaining_blocks_len buf;
        '(report_timestamp, buf) ← get_u32 buf;
        Ok (mkCcFeedbackReport sender_ssrc report_blocks report_timestamp, buf).

#[export] Instance ccfb_Unmarshal : Unmarshal MediaError CcFeedbackReport := mkUnmarshal _ _ ccfb_unmarshal.
End ccfb.

#[export] Instance ccfb_MarshalSize : MarshalSize CcFeedbackReport := mkMarshalSize _ padded_size.
#[export] Instance ccfb_MarshalTo : MarshalTo MediaError CcFeedbackReport := mkMarshalTo _ _ ccfb_marshal_to.

(** * The two decoders of a block agree *)

Lemma decode_words_read n : forall b r, zlen b = 2 * Z.of_nat n -> exists l, read_n (E:=MediaError) get_u16 n (b ++ r) = Ok (l, r) /\ decode_metric_words b = map unmarshal_word l.
Proof.
  induction n as [|n IH]; intros b r Hb.
  - destruct b; [|zlia]. by exists [].
  - destruct b as [|x [|y b]]; [zlia..|]. rewrite !zlen_cons in Hb. destruct (IH b r) as (l & Hl & Hd); [lia|].
    exists (x * 256 + y :: l). cbn [read_n decode_metric_words map app get_u16 mbind outcome_bind]. rewrite Hl. cbn [mbind outcome_bind]. by rewrite Hd.
Qed.

Lemma padded_count_bound n : n <= padded_count n <= n + 1.
Proof. unfold padded_count. case_match; lia. Qed.

(** The block decoded from the chunk at the front of the buffer is the one decoded word by
    word, however the buffer is split. *)
Lemma block_segmentation (s1 s2 : Segmented) b budget : bytes_ok b ->
  CcFeedbackReportBlock_unmarshal_from (H:=s1) b budget = CcFeedbackReportBlock_unmarshal_from (H:=s2) b budget.
Proof.
  intros Hb. assert (H : forall s : Segmented, CcFeedbackReportBlock_unmarshal_from (H:=s) b budget = CcFeedbackReportBlock_unmarshal_from (H:=fun _ => -1) b budget).
  { intros s. unfold CcFeedbackReportBlock_unmarshal_from, REPORT_BLOCK_HEADER_LENGTH. destruct (budget <? 8); [done|]. cbn [orb].
    destruct (Z.ltb_spec (zlen b) 8) as [|H8]; [done|].
    destruct (get_u32_split (E:=MediaError) b Hb) as (x1 & b1 & E1 & _ & Hb1 & ->); [lia|]. cbn [mbind outcome_bind]. rewrite E1 in H8.
    destruct (get_u16_split (E:=MediaError) b1 Hb1) as (x2 & b2 & E2 & _ & Hb2 & ->); [zlia|]. cbn [mbind outcome_bind]. rewrite E2 in H8.
    destruct (get_u16_split (E:=MediaError) b2 Hb2) as (n & buf & E3 & Hn & Hbuf & ->); [zlia|]. cbn [mbind outcome_bind].
    destruct (_ || _) eqn:Hguard; [done|]. apply orb_false_iff in Hguard as [_ Hr]. apply Z.ltb_ge in Hr. unfold METRIC_BLOCK_LENGTH, chunk_len in *.
    pose proof (padded_count_bound n) as Hp. rewrite (proj2 (Z.leb_gt (2 * n) (-1))) by (unfold_ints; lia).
    destruct (2 * n <=? s buf); [|done]. rewrite slice_Ok by (unfold_ints; lia). cbn [mbind outcome_bind]. rewrite Z.sub_0_r, drop_0.
    destruct (decode_words_read (Z.to_nat n) (take (Z.to_nat (2 * n)) buf) (drop (Z.to_nat (2 * n)) buf)) as (l & Hl & Hd); [unfold_ints; zlia|].
    rewrite take_drop in Hl. rewrite Hl. cbn [mbind outcome_bind]. rewrite Hd. unfold copy_to_bytes. rewrite ltb_false by lia. cbn [mbind outcome_bind].
    destruct (Z.eqb_spec (padded_count n) n) as [-> |Hne]; cbn [negb]; [done|].
    rewrite ltb_false by (unfold_ints; zlia). cbn [mbind outcome_bind]. rewrite drop_drop. do 3 f_equal. unfold_ints. lia. }
  by rewrite (H s1), (H s2).
Qed.

(** * The codec *)

Definition metric_ok (b : CcFeedbackMetricBlock) : Prop :=
  0 <= arrival_time_offset b < 8192 /\ (received b = false -> ecn b = NotEct /\ arrival_time_offset b = 0).

Lemma metric_written b : metric_ok b -> exists w, marshal_word b = Ok w /\ is_u16 w /\ unmarshal_word w = b.
Proof.
  destruct b as [r e o]. intros [Ho Hr]. cbn [arrival_time_offset received ecn] in *.
  assert (He : 0 <= Ecn_as_u16 e <= 3) by (by destruct e). set (k := Ecn_as_u16 e) in *. set (x := if r then 1 else 0).
  assert (Hx : 0 <= x <= 1) by (unfold x; case_match; lia). exists (x * 32768 + k * 8192 + o). split; [|split].
  - unfold marshal_word. cbn [arrival_time_offset received ecn]. fold k x.
    change (set_nbits_of_uint16 0 1 0 x) with (set_nbits_of_uint16 (0 * 2 ^ (16 - 0)) 1 0 x).
    rewrite set_nbits_add by (change (2 ^ (16 - 0)) with 65536; change (2 ^ 1) with 2; lia). cbn [mbind outcome_bind].
    change (0 * 2 ^ (16 - 0) + x * 2 ^ (16 - 1 - 0)) with (x * 2 ^ (16 - 1)).
    rewrite set_nbits_add by (change (2 ^ (16 - 1)) with 32768; change (2 ^ 2) with 4; lia). cbn [mbind outcome_bind].
    change (2 ^ (16 - 2 - 1)) with 8192. change (2 ^ (16 - 1)) with 32768.
    replace (x * 32768 + k * 8192) with ((x * 4 + k) * 2 ^ (16 - 3)) by (change (2 ^ (16 - 3)) with 8192; lia).
    rewrite set_nbits_add by (change (2 ^ (16 - 3)) with 8192; change (2 ^ 13) with 8192; lia). f_equal.
    change (2 ^ (16 - 3)) with 8192. change (2 ^ (16 - 13 - 3)) with 1. lia.
  - unfold is_u16. lia.
  - unfold unmarshal_word. change 8191 with (Z.ones 13).
    replace (x * 32768 + k * 8192 + o) with ((k * 8192 + o) + x * 2 ^ 15) by (change (2 ^ 15) with 32768; lia).
    assert (Ht : (Z.land (k * 8192 + o + x * 2 ^ 15) 32768 =? 0) = negb r).
    { change 32768 with (Z.shiftl (Z.ones 1) 15). rewrite <- lor_shift by (try change (2 ^ 15) with 32768; lia). rewrite Z.land_lor_distr_l, (land_low_high (k * 8192 + o)) by (try change (2 ^ 15) with 32768; lia).
      rewrite Z.lor_0_l, <- Z.shiftl_land. unfold x. by destruct r. }
    rewrite Ht. unfold x. destruct r; cbn [negb]; [|destruct (Hr eq_refl) as [-> ->]; done].
    rewrite Z.shiftr_div_pow2, Z.land_ones by lia. change (2 ^ 13) with 8192. change (2 ^ 15) with 32768.
    replace ((k * 8192 + o + 1 * 32768) / 8192 mod 256) with (4 + k) by mlia. replace ((k * 8192 + o + 1 * 32768) mod 8192) with o by mlia.
    f_equal. unfold k. by destruct e.
Qed.

Lemma words_written l : Forall metric_ok l -> exists ws, put_words l = Ok (concat (map put_u16 ws)) /\ Forall is_u16 ws /\ map unmarshal_word ws = l.
Proof.
  induction 1 as [|b l Hb Hl (ws & Hw & Hu & Hm)]; [by exists []|]. destruct (metric_written b Hb) as (w & Hw' & Hw16 & Hd).
  exists (w :: ws). cbn [put_words]. rewrite Hw'. cbn [mbind outcome_bind]. rewrite Hw. split; [done|]. split; [by constructor|]. cbn [map]. by rewrite Hd, Hm.
Qed.

Lemma zlen_words16 ws : zlen (concat (map put_u16 ws)) = 2 * zlen ws.
Proof. induction ws as [|x l IH]; [done|]. cbn [map concat]. zlia. Qed.
#[export] Hint Rewrite zlen_words16 : zlen.

Definition block_ok (b : CcFeedbackReportBlock) : Prop :=
  is_u32 (cfb_media_ssrc b) /\ is_u16 (begin_sequence b) /\ Forall metric_ok (metric_blocks b) /\ zlen (metric_blocks b) <= 16384.

(** The alignment block. *)
Lemma alignment_block n : 0 <= n -> exists a, flat_map (fun _ => put_u16 0) (seqZ n (padded_count n - n)) = a /\ bytes_ok a /\ zlen a = 2 * (padded_count n - n).
Proof.
  intros Hn. eexists. split; [reflexivity|]. unfold padded_count. destruct (n mod 2 =? 0).
  - rewrite Z.sub_diag. split; [constructor|done].
  - replace (n + 1 - n) with 1 by lia. change (seqZ n 1) with [Z.of_nat 0 + n]. cbn [flat_map]. rewrite app_nil_r. split; [apply bytes_ok_put_u16|done].
Qed.

Lemma block_written b r : block_ok b -> bytes_ok r ->
  exists x, CcFeedbackReportBlock_marshal_to b = Ok x /\ bytes_ok x /\ zlen x = CcFeedbackReportBlock_raw_size b /\
    forall (s : Segmented) budget, CcFeedbackReportBlock_raw_size b <= budget ->
      CcFeedbackReportBlock_unmarshal_from (x ++ r) budget = Ok (b, CcFeedbackReportBlock_raw_size b, r).
Proof.
  intros (H1 & H2 & Hm & Hn) Hr. destruct (words_written _ Hm) as (ws & Hw & Hu & Hd). zlen_pos.
  assert (Hlen : zlen ws = zlen (metric_blocks b)) by (rewrite <- Hd; unfold zlen; by rewrite length_map).
  unfold CcFeedbackReportBlock_marshal_to. rewrite ltb_false by (unfold MAX_METRIC_BLOCKS; lia). rewrite Hw. cbn [mbind outcome_bind].
  destruct (alignment_block (zlen (metric_blocks b))) as (a & Ha & Hab & Hal); [lia|]. unfold padded_metric_block_count. rewrite Ha. eexists. split; [done|].
  assert (Hsize : CcFeedbackReportBlock_raw_size b = 8 + 2 * padded_count (zlen (metric_blocks b))) by done. pose proof (padded_count_bound (zlen (metric_blocks b))).
  assert (Hok : bytes_ok (concat (map put_u16 ws))) by (apply bytes_ok_concat_map, bytes_ok_put_u16).
  split; [rewrite !bytes_ok_app; split_and!; auto with post|]. split; [zlia|]. intros s budget Hbudget. rewrite (block_segmentation s (fun _ => -1)) by (rewrite !bytes_ok_app; split_and!; auto with post).
  unfold CcFeedbackReportBlock_unmarshal_from, REPORT_BLOCK_HEADER_LENGTH, METRIC_BLOCK_LENGTH. rewrite !ltb_false by zlia. cbn [orb]. read_back.
  rewrite !ltb_false by zlia. cbn [orb]. unfold chunk_len. rewrite (proj2 (Z.leb_gt _ _)) by lia. rewrite <- Hlen.
  replace (Z.to_nat (zlen ws)) with (length ws) by (unfold zlen; lia). rewrite (read_n_write _ is_u16 put_u16) by (try done; intros; by apply get_put_u16).
  cbn [mbind outcome_bind]. rewrite Hlen in *. rewrite Hd. replace (8 + 2 * padded_count (zlen (metric_blocks b))) with (CcFeedbackReportBlock_raw_size b) by done.
  destruct (Z.eqb_spec (padded_count (zlen (metric_blocks b))) (zlen (metric_blocks b))) as [He|He]; cbn [negb].
  - destruct a; [|zlia]. cbn [app mbind outcome_bind]. by destruct b.
  - rewrite copy_front by zlia. cbn [mbind outcome_bind]. by destruct b.
Qed.

Lemma block_size b : 8 <= CcFeedbackReportBlock_raw_size b /\ CcFeedbackReportBlock_raw_size b mod 4 = 0.
Proof.
  change (8 <= 8 + 2 * padded_count (zlen (metric_blocks b)) /\ (8 + 2 * padded_count (zlen (metric_blocks b))) mod 4 = 0).
  zlen_pos. unfold padded_count. destruct (Z.eqb_spec (zlen (metric_blocks b) mod 2) 0); mlia.
Qed.

Lemma blocks_size l : 8 * zlen l <= zsum CcFeedbackReportBlock_raw_size l /\ zsum CcFeedbackReportBlock_raw_size l mod 4 = 0.
Proof.
  induction l as [|b l [IH1 IH2]]; [done|]. destruct (block_size b). rewrite zsum_cons, zlen_cons. split; [lia|]. clear IH1. mlia.
Qed.

Lemma blocks_written l r : Forall block_ok l -> bytes_ok r ->
  exists x, put_blocks l = Ok x /\ bytes_ok x /\ zlen x = zsum CcFeedbackReportBlock_raw_size l /\
    forall (s : Segmented) fuel, (length l <= fuel)%nat -> read_report_blocks fuel (zsum CcFeedbackReportBlock_raw_size l) (x ++ r) = Ok (l, r).
Proof.
  intros Hl Hr. induction Hl as [|b l Hb Hl (x & Hx & Hxo & Hxl & Hu)].
  - exists []. split; [done|]. split; [constructor|]. split; [done|]. by intros s [|fuel] _.
  - destruct (block_written b (x ++ r) Hb) as (y & Hy & Hyo & Hyl & Hyu); [by apply bytes_ok_app|]. exists (y ++ x). cbn [put_blocks]. rewrite Hy. cbn [mbind outcome_bind]. rewrite Hx.
    split; [done|]. split; [by apply bytes_ok_app|]. split; [rewrite zsum_cons; zlia|]. intros s fuel Hf. destruct fuel as [|fuel]; [cbn in Hf; lia|].
    destruct (block_size b), (blocks_size l). zlen_pos. rewrite zsum_cons. cbn [read_report_blocks]. rewrite (proj2 (Z.leb_gt _ _)) by lia.
    rewrite <- (assoc_L app), Hyu by lia. cbn [mbind outcome_bind]. replace (_ + _ - _) with (zsum CcFeedbackReportBlock_raw_size l) by lia.
    rewrite Hu by (cbn in Hf; lia). done.
Qed.

Definition ccfb_ok (p : CcFeedbackReport) : Prop :=
  is_u32 (cfr_sender_ssrc p) /\ is_u32 (report_timestamp p) /\ Forall block_ok (report_blocks p) /\ padded_size p <= 262144.

#[export] Instance ccfb_codec `{Segmented} : RtcpCodec CcFeedbackReport ccfb_ok.
Proof.
  split. intros p room (H1 & H2 & Hb & Hs) Hr. destruct (blocks_size (report_blocks p)) as [Hsz Hal]. zlen_pos.
  assert (Hraw : raw_size p = 12 + zsum CcFeedbackReportBlock_raw_size (report_blocks p)).
  { cbn. unfold ccfb_raw_size, REPORT_BLOCK_OFFSET, REPORT_TIMESTAMP_LENGTH, RTCP_HEADER_LENGTH, SSRC_LENGTH. lia. }
  destruct (no_padding (raw_size p)) as [Hp Hpb]; [rewrite Hraw; clear -Hal; mlia|].
  destruct (blocks_written (report_blocks p) (put_u32 (report_timestamp p)) Hb (bytes_ok_put_u32 _)) as (x & Hx & _ & Hxl & Hu).
  cbn [marshal_to ccfb_MarshalTo]. unfold ccfb_marshal_to. rewrite ltb_false by exact Hr.
  eapply put_packet_frame; [reflexivity|done|rewrite Hx; reflexivity|zlia|done|done|done|]. intros h -> Hok Hlen. rewrite Hpb, app_nil_r in *.
  cbn [unmarshal ccfb_Unmarshal]. unfold ccfb_unmarshal. change (REPORT_BLOCK_OFFSET + REPORT_TIMESTAMP_LENGTH) with 12. rewrite ltb_false by zlia.
  rewrite rtcp_header_read by done. cbn [mbind outcome_bind]. rewrite right_type by done. rewrite !ltb_false by zlia. cbn [orb]. read_back.
  replace (4 * (rh_length (packet_header p) + 1) - REPORT_BLOCK_OFFSET - REPORT_TIMESTAMP_LENGTH) with (zsum CcFeedbackReportBlock_raw_size (report_blocks p))
    by (change REPORT_BLOCK_OFFSET with 8; change REPORT_TIMESTAMP_LENGTH with 4; revert Hlen; rewrite !zlen_app, !zlen_put_u32; lia).
  rewrite Hu by (rewrite length_app; unfold zlen in *; lia). cbn [mbind outcome_bind]. rewrite <- (app_nil_r (put_u32 _)). read_back. by destruct p.
Qed.

(** * Decoding is safe *)

Lemma post_block `{Segmented} b budget : bytes_ok b ->
  post (CcFeedbackReportBlock_unmarshal_from b budget) (fun x => bytes_ok x.2 /\ 8 <= x.1.2 <= budget /\ zlen x.2 = zlen b - x.1.2).
Proof.
  intros Hb. rewrite (block_segmentation H (fun _ => -1)) by done. unfold CcFeedbackReportBlock_unmarshal_from, REPORT_BLOCK_HEADER_LENGTH, METRIC_BLOCK_LENGTH.
  apply post_if; intros Hg; [done|]. apply orb_false_iff in Hg as [Hg1 Hg2]. bool_lia. do 3 buf_step. use_ok. rename z1 into n.
  apply post_if; intros Hg; [done|]. apply orb_false_iff in Hg as [Hg3 Hg4]. bool_lia. pose proof (padded_count_bound n). unfold chunk_len.
  rewrite (proj2 (Z.leb_gt _ _)) by (unfold_ints; lia).
  eapply post_bind with (P := fun x => bytes_ok x.2 /\ zlen x.2 = zlen b - (8 + 2 * padded_count n)).
  - eapply post_bind; [apply (post_read_n _ is_u16 2); [lia|apply post_get_u16|unfold_ints; lia]|]. intros [ws r] _ (Hr & _ & Hok). cbn [fst snd] in *. use_ok.
    destruct (Z.eqb_spec (padded_count n) n); cbn [negb]; [cbn [post fst snd]; split; [done|unfold_ints; lia]|].
    buf_step. use_ok. cbn [post fst snd]. split; [done|unfold_ints; lia].
  - intros [ms r] _ [Hro Hrl]. cbn [post fst snd] in *. split; [done|]. unfold_ints. lia.
Qed.

Lemma post_read_report_blocks `{Segmented} fuel : forall left b, bytes_ok b -> left <= zlen b -> 0 <= left -> (length b <= fuel)%nat ->
  post (read_report_blocks fuel left b) (fun x => bytes_ok x.2 /\ zlen x.2 = zlen b - left).
Proof.
  induction fuel as [|fuel IH]; intros left b Hb Hl H0 Hf; cbn [read_report_blocks]; apply post_if; intros Hg; bool_lia;
    try (cbn [post fst snd]; split; [done|lia]).
  { cbn [post]. unfold zlen in *. lia. }
  eapply post_bind; [by apply post_block|]. intros [[blk n] r] _ (Hr & Hn & Hlr). cbn [fst snd] in *.
  eapply post_bind; [apply IH; [done|lia|lia|unfold zlen in *; lia]|]. intros [bs r'] _ [Hr' Hl']. cbn [post fst snd] in *. split; [done|lia].
Qed.

#[export] Instance ccfb_safe `{Segmented} : RtcpSafe CcFeedbackReport.
Proof.
  split. intros h body Hh Hb Hl _. cbn [unmarshal ccfb_Unmarshal]. unfold ccfb_unmarshal. change (REPORT_BLOCK_OFFSET + REPORT_TIMESTAMP_LENGTH) with 12.
  buf_step; [done|]. bool_lia. rewrite rtcp_header_read by done. cbn [mbind outcome_bind]. buf_step; [done|].
  apply post_if; intros Hg; [done|]. apply orb_false_iff in Hg as [Hg1 Hg2]. bool_lia. buf_step. use_ok.
  change REPORT_BLOCK_OFFSET with 8. change REPORT_TIMESTAMP_LENGTH with 4.
  eapply post_bind; [apply post_read_report_blocks; [done|zlia|zlia|lia]|]. intros [bs r] _ [Hr Hlr]. cbn [fst snd] in *.
  buf_step. cbn [post snd]. apply nil_length_inv. unfold zlen in *. lia.
Qed.

(** * Segmentation of the buffer *)

Lemma read_report_blocks_segmentation (s1 s2 : Segmented) fuel : forall n b, bytes_ok b ->
  read_report_blocks (H:=s1) fuel n b = read_report_blocks (H:=s2) fuel n b.
Proof.
  induction fuel as [|fuel IH]; intros n b Hb; [done|]. cbn [read_report_blocks]. rewrite (block_segmentation s1 s2) by done. pose proof (post_block (H:=s2) b n Hb) as Hp.
  destruct (n <=? 0); [done|]. destruct (CcFeedbackReportBlock_unmarshal_from b n) as [[[blk k] r]| | |]; [|done..]. cbn [mbind outcome_bind]. destruct Hp as [Hr _]. by rewrite IH.
Qed.

(** C33: However the network stack splits the buffer, a report decodes to the same result, error
    included: the bulk path over one chunk and the path word by word agree. *)
Theorem ccfb_segmentation (s1 s2 : Segmented) raw : bytes_ok raw -> ccfb_unmarshal (H:=s1) raw = ccfb_unmarshal (H:=s2) raw.
Proof.
  intros Hraw. unfold ccfb_unmarshal. destruct (zlen raw <? _); [done|]. destruct (RtcpHeader_unmarshal raw) as [[h buf]| | |] eqn:Eh; [|done..]. cbn [mbind outcome_bind].
  assert (Hbuf : bytes_ok buf).
  { unfold RtcpHeader_unmarshal in Eh. destruct (_ <? _); [done|]. destruct raw as [|x0 [|x1 [|x2 [|x3 raw]]]]; cbn [get_u8 get_u16 mbind outcome_bind] in Eh; try done;
      destruct (negb _); try done; cbn [get_u8 get_u16 mbind outcome_bind] in Eh; try done. injection Eh as _ <-. by do 4 apply Forall_inv_tail in Hraw. }
  destruct (wrong_type _ _ _); [done|]. destruct (_ || _); [done|]. destruct buf as [|x0 [|x1 [|x2 [|x3 buf]]]]; try done. cbn [get_u32 mbind outcome_bind].
  rewrite (read_report_blocks_segmentation s1 s2); [done|]. by do 4 apply Forall_inv_tail in Hbuf.
Qed.

(** A report of one block with three metric words, read from one chunk and from a buffer that
    is split. *)
Definition segmented_octets : bytes := [139; 205; 0; 6; 0; 0; 0; 1; 0; 0; 0; 2; 0; 9; 0; 3; 128; 5; 0; 0; 192; 7; 0; 0; 0; 0; 0; 8].
Lemma ccfb_segmentation_witness :
  ccfb_unmarshal (H:=zlen) segmented_octets = ccfb_unmarshal (H:=fun _ => 1) segmented_octets /\
  ccfb_unmarshal (H:=fun _ => 1) segmented_octets =
    Ok (mkCcFeedbackReport 1 [mkCcFeedbackReportBlock 2 9 (map unmarshal_word [32773; 0; 49159])] 8, []).
Proof. split; [|by vm_compute]. apply (ccfb_segmentation zlen (fun _ => 1)). repeat constructor; done. Defined.
