(* ===== verification/RtcpXr.v ===== *)
(** Extended reports of RFC 3611 ([rtc-rtcp/src/extended_report]): the block header, the seven
    kinds of blocks and the packet. *)
From S2P Require Import Prelude Marshal Rtp Rtcp.

(** * The block header *)

Definition XR_HEADER_LENGTH : Z := 4.

Inductive BlockType := BtUnknown | BtLossRLE | BtDuplicateRLE | BtPacketReceiptTimes | BtReceiverReferenceTime | BtDLRR | BtStatisticsSummary | BtVoIPMetrics.
#[export] Instance BlockType_eq_dec : EqDecision BlockType.
Proof. solve_decision. Defined.

Definition BlockType_as_u8 (t : BlockType) : Z :=
  match t with
  | BtUnknown => 0 | BtLossRLE => 1 | BtDuplicateRLE => 2 | BtPacketReceiptTimes => 3 | BtReceiverReferenceTime => 4
  | BtDLRR => 5 | BtStatisticsSummary => 6 | BtVoIPMetrics => 7
  end.
Definition BlockType_from (v : Z) : BlockType :=
  if v =? 1 then BtLossRLE else if v =? 2 then BtDuplicateRLE else if v =? 3 then BtPacketReceiptTimes
  else if v =? 4 then BtReceiverReferenceTime else if v =? 5 then BtDLRR else if v =? 6 then BtStatisticsSummary
  else if v =? 7 then BtVoIPMetrics else BtUnknown.

Record XRHeader := mkXRHeader { block_type : BlockType; type_specific : Z; block_length : Z }.

Definition XRHeader_marshal_to (h : XRHeader) (room : Z) : rtp_result (Z * bytes) :=
  if room <? XR_HEADER_LENGTH then Err BufferTooShort
  else Ok (XR_HEADER_LENGTH, put_u8 (BlockType_as_u8 (block_type h)) ++ put_u8 (type_specific h) ++ put_u16 (block_length h)).

Definition XRHeader_unmarshal (raw_packet : bytes) : rtp_result (XRHeader * bytes) :=
  if zlen raw_packet <? XR_HEADER_LENGTH then Err PacketTooShort
  else
    '(t, buf) ← get_u8 raw_packet;
    '(type_specific, buf) ← get_u8 buf;
    '(block_length, buf) ← get_u16 buf;
    Ok (mkXRHeader (BlockType_from t) type_specific block_length, buf).

(** The start every block's decoder shares: the header and its length in octets
    ([checked_mul(4)]). *)
Definition read_block_header (raw_packet : bytes) : rtp_result (XRHeader * Z * bytes) :=
  if zlen raw_packet <? XR_HEADER_LENGTH then Err PacketTooShort
  else
    '(h, buf) ← XRHeader_unmarshal raw_packet;
    if 65535 <? block_length h * 4 then Err InvalidBlockSize else Ok (h, block_length h * 4, buf).

(** What every block's [marshal_to] shares. *)
Definition put_block (h : XRHeader) (raw room : Z) (body : bytes) : rtp_result (Z * bytes) :=
  if room <? raw then Err BufferTooShort
  else '(_, hb) ← XRHeader_marshal_to h room; Ok (raw, hb ++ body).

(** [(self.raw_size() / 4 - 1) as u16]. *)
Definition block_words (raw : Z) : Z := as_u16 (raw / 4 - 1).

(** * Run length encoded reports *)

Definition RLE_REPORT_BLOCK_MIN_LENGTH : Z := 8.

Inductive ChunkType := CtRunLength | CtBitVector | CtTerminatingNull.
#[export] Instance ChunkType_eq_dec : EqDecision ChunkType.
Proof. solve_decision. Defined.

Definition chunk_type (c : Z) : ChunkType := if c =? 0 then CtTerminatingNull else if Z.shiftr c 15 =? 0 then CtRunLength else CtBitVector.
Definition run_type (c : Z) : rtp_result Z :=
  if bool_decide (chunk_type c = CtRunLength) then Ok (Z.land (Z.shiftr c 14 mod 256) 1) else Err WrongChunkType.
Definition chunk_value (c : Z) : Z :=
  match chunk_type c with CtRunLength => Z.land c 16383 | CtBitVector => Z.land c 32767 | CtTerminatingNull => 0 end.

(** [LossRLEReportBlock] and [DuplicateRLEReportBlock]; a chunk is its word. *)
Record RLEReportBlock := mkRLEReportBlock { is_loss_rle : bool; rle_t : Z; rle_ssrc : Z; rle_begin_seq : Z; rle_end_seq : Z; rle_chunks : list Z }.

Definition rle_raw_size (b : RLEReportBlock) : Z := XR_HEADER_LENGTH + RLE_REPORT_BLOCK_MIN_LENGTH + zlen (rle_chunks b) * 2.
Definition rle_xr_header (b : RLEReportBlock) : XRHeader :=
  mkXRHeader (if is_loss_rle b then BtLossRLE else BtDuplicateRLE) (Z.land (rle_t b) 15) (block_words (rle_raw_size b)).
Definition rle_marshal_to (b : RLEReportBlock) (room : Z) : rtp_result (Z * bytes) :=
  put_block (rle_xr_header b) (rle_raw_size b) room
    (put_u32 (rle_ssrc b) ++ put_u16 (rle_begin_seq b) ++ put_u16 (rle_end_seq b) ++ concat (map put_u16 (rle_chunks b))).
Definition rle_unmarshal (raw_packet : bytes) : rtp_result (RLEReportBlock * bytes) :=
  '(h, block_length, buf) ← read_block_header raw_packet;
  if (block_length <? RLE_REPORT_BLOCK_MIN_LENGTH) || negb ((block_length - RLE_REPORT_BLOCK_MIN_LENGTH) mod 2 =? 0) || (zlen buf <? block_length)
  then Err PacketTooShort
  else
    let is_loss_rle := bool_decide (block_type h = BtLossRLE) in
    let t := Z.land (type_specific h) 15 in
    '(ssrc, buf) ← get_u32 buf;
    '(begin_seq, buf) ← get_u16 buf;
    '(end_seq, buf) ← get_u16 buf;
    let remaining := block_length - RLE_REPORT_BLOCK_MIN_LENGTH in
    '(chunks, buf) ← read_n get_u16 (Z.to_nat (remaining / 2)) buf;
    Ok (mkRLEReportBlock is_loss_rle t ssrc begin_seq end_seq chunks, buf).

(** * Packet receipt times *)

Definition PRT_REPORT_BLOCK_MIN_LENGTH : Z := 8.

Record PacketReceiptTimesReportBlock := mkPacketReceiptTimesReportBlock { prt_t : Z; prt_ssrc : Z; prt_begin_seq : Z; prt_end_seq : Z; receipt_time : list Z }.

Definition prt_raw_size (b : PacketReceiptTimesReportBlock) : Z := XR_HEADER_LENGTH + PRT_REPORT_BLOCK_MIN_LENGTH + zlen (receipt_time b) * 4.
Definition prt_xr_header (b : PacketReceiptTimesReportBlock) : XRHeader :=
  mkXRHeader BtPacketReceiptTimes (Z.land (prt_t b) 15) (block_words (prt_raw_size b)).
Definition prt_marshal_to (b : PacketReceiptTimesReportBlock) (room : Z) : rtp_result (Z * bytes) :=
  put_block (prt_xr_header b) (prt_raw_size b) room
    (put_u32 (prt_ssrc b) ++ put_u16 (prt_begin_seq b) ++ put_u16 (prt_end_seq b) ++ concat (map put_u32 (receipt_time b))).
Definition prt_unmarshal (raw_packet : bytes) : rtp_result (PacketReceiptTimesReportBlock * bytes) :=
  '(h, block_length, buf) ← read_block_header raw_packet;
  if (block_length <? PRT_REPORT_BLOCK_MIN_LENGTH) || negb ((block_length - PRT_REPORT_BLOCK_MIN_LENGTH) mod 4 =? 0) || (zlen buf <? block_length)
  then Err PacketTooShort
  else
    let t := Z.land (type_specific h) 15 in
    '(ssrc, buf) ← get_u32 buf;
    '(begin_seq, buf) ← get_u16 buf;
    '(end_seq, buf) ← get_u16 buf;
    let remaining := block_length - PRT_REPORT_BLOCK_MIN_LENGTH in
    '(receipt_time, buf) ← read_n get_u32 (Z.to_nat (remaining / 4)) buf;
    Ok (mkPacketReceiptTimesReportBlock t ssrc begin_seq end_seq receipt_time, buf).

(** * Receiver reference time *)

Definition RRT_REPORT_BLOCK_LENGTH : Z := 8.

Record ReceiverReferenceTimeReportBlock := mkReceiverReferenceTimeReportBlock { ntp_timestamp : Z }.

Definition rrt_raw_size (_ : ReceiverReferenceTimeReportBlock) : Z := XR_HEADER_LENGTH + RRT_REPORT_BLOCK_LENGTH.
Definition rrt_xr_header (b : ReceiverReferenceTimeReportBlock) : XRHeader := mkXRHeader BtReceiverReferenceTime 0 (block_words (rrt_raw_size b)).
Definition rrt_marshal_to (b : ReceiverReferenceTimeReportBlock) (room : Z) : rtp_result (Z * bytes) :=
  put_block (rrt_xr_header b) (rrt_raw_size b) room (put_u64 (ntp_timestamp b)).
Definition rrt_unmarshal (raw_packet : bytes) : rtp_result (ReceiverReferenceTimeReportBlock * bytes) :=
  '(h, block_length, buf) ← read_block_header raw_packet;
  if negb (block_length =? RRT_REPORT_BLOCK_LENGTH) || (zlen buf <? block_length) then Err PacketTooShort
  else '(ntp_timestamp, buf) ← get_u64 buf; Ok (mkReceiverReferenceTimeReportBlock ntp_timestamp, buf).

(** * Delay since the last receiver report *)

Definition DLRR_REPORT_LENGTH : Z := 12.

Record DLRRReport := mkDLRRReport { dlrr_ssrc : Z; last_rr : Z; dlrr : Z }.
Record DLRRReportBlock := mkDLRRReportBlock { dlrr_reports : list DLRRReport }.

Definition put_dlrr (r : DLRRReport) : bytes := put_u32 (dlrr_ssrc r) ++ put_u32 (last_rr r) ++ put_u32 (dlrr r).
Definition get_dlrr (buf : bytes) : rtp_result (DLRRReport * bytes) :=
  '(ssrc, buf) ← get_u32 buf; '(last_rr, buf) ← get_u32 buf; '(dlrr, buf) ← get_u32 buf; Ok (mkDLRRReport ssrc last_rr dlrr, buf).

Definition dlrr_raw_size (b : DLRRReportBlock) : Z := XR_HEADER_LENGTH + zlen (dlrr_reports b) * 4 * 3.
Definition dlrr_xr_header (b : DLRRReportBlock) : XRHeader := mkXRHeader BtDLRR 0 (block_words (dlrr_raw_size b)).
Definition dlrr_marshal_to (b : DLRRReportBlock) (room : Z) : rtp_result (Z * bytes) :=
  put_block (dlrr_xr_header b) (dlrr_raw_size b) room (concat (map put_dlrr (dlrr_reports b))).
(** [while offset < block_length], in steps of twelve octets. *)
Definition dlrr_unmarshal (raw_packet : bytes) : rtp_result (DLRRReportBlock * bytes) :=
  '(h, block_length, buf) ← read_block_header raw_packet;
  if negb (block_length mod DLRR_REPORT_LENGTH =? 0) || (zlen buf <? block_length) then Err PacketTooShort
  else '(reports, buf) ← read_n get_dlrr (Z.to_nat (block_length / DLRR_REPORT_LENGTH)) buf; Ok (mkDLRRReportBlock reports, buf).

(** * Unknown blocks *)

Record UnknownReportBlock := mkUnknownReportBlock { unknown_bytes : bytes }.

Definition unknown_raw_size (b : UnknownReportBlock) : Z := XR_HEADER_LENGTH + zlen (unknown_bytes b).
Definition unknown_xr_header (b : UnknownReportBlock) : XRHeader := mkXRHeader BtUnknown 0 (block_words (unknown_raw_size b)).
Definition unknown_marshal_to (b : UnknownReportBlock) (room : Z) : rtp_result (Z * bytes) :=
  put_block (unknown_xr_header b) (unknown_raw_size b) room (unknown_bytes b).
Definition unknown_unmarshal (raw_packet : bytes) : rtp_result (UnknownReportBlock * bytes) :=
  '(h, block_length, buf) ← read_block_header raw_packet;
  if zlen buf <? block_length then Err PacketTooShort
  else '(b, buf) ← copy_to_bytes block_length buf; Ok (mkUnknownReportBlock b, buf).

(** * Statistics summary *)

Definition SSR_REPORT_BLOCK_LENGTH : Z := 4 + 2 * 2 + 4 * 6 + 4.

Inductive TTLorHopLimitType := TtlMissing | TtlIPv4 | TtlIPv6.
Definition TTLorHopLimitType_as_u8 (t : TTLorHopLimitType) : Z := match t with TtlMissing => 0 | TtlIPv4 => 1 | TtlIPv6 => 2 end.
Definition TTLorHopLimitType_from (v : Z) : TTLorHopLimitType := if v =? 1 then TtlIPv4 else if v =? 2 then TtlIPv6 else TtlMissing.

Record StatisticsSummaryReportBlock := mkStatisticsSummaryReportBlock {
  loss_reports : bool;
  duplicate_reports : bool;
  jitter_reports : bool;
  ttl_or_hop_limit : TTLorHopLimitType;
  ssr_ssrc : Z;
  ssr_begin_seq : Z;
  ssr_end_seq : Z;
  ssr_lost_packets : Z;
  dup_packets : Z;
  min_jitter : Z;
  max_jitter : Z;
  mean_jitter : Z;
  dev_jitter : Z;
  min_ttl_or_hl : Z;
  max_ttl_or_hl : Z;
  mean_ttl_or_hl : Z;
  dev_ttl_or_hl : Z
}.

Definition ssr_raw_size (_ : StatisticsSummaryReportBlock) : Z := XR_HEADER_LENGTH + SSR_REPORT_BLOCK_LENGTH.
Definition ssr_type_specific (b : StatisticsSummaryReportBlock) : Z :=
  let x := 0 in
  let x := if loss_reports b then Z.lor x 128 else x in
  let x := if duplicate_reports b then Z.lor x 64 else x in
  let x := if jitter_reports b then Z.lor x 32 else x in
  Z.lor x (Z.shiftl (Z.land (TTLorHopLimitType_as_u8 (ttl_or_hop_limit b)) 3) 3).
Definition ssr_xr_header (b : StatisticsSummaryReportBlock) : XRHeader :=
  mkXRHeader BtStatisticsSummary (ssr_type_specific b) (block_words (ssr_raw_size b)).
Definition ssr_marshal_to (b : StatisticsSummaryReportBlock) (room : Z) : rtp_result (Z * bytes) :=
  put_block (ssr_xr_header b) (ssr_raw_size b) room
    (put_u32 (ssr_ssrc b) ++ put_u16 (ssr_begin_seq b) ++ put_u16 (ssr_end_seq b) ++ put_u32 (ssr_lost_packets b) ++ put_u32 (dup_packets b) ++
     put_u32 (min_jitter b) ++ put_u32 (max_jitter b) ++ put_u32 (mean_jitter b) ++ put_u32 (dev_jitter b) ++
     put_u8 (min_ttl_or_hl b) ++ put_u8 (max_ttl_or_hl b) ++ put_u8 (mean_ttl_or_hl b) ++ put_u8 (dev_ttl_or_hl b)).
Definition ssr_unmarshal (raw_packet : bytes) : rtp_result (StatisticsSummaryReportBlock * bytes) :=
  '(h, block_length, buf) ← read_block_header raw_packet;
  if negb (block_length =? SSR_REPORT_BLOCK_LENGTH) || (zlen buf <? block_length) then Err PacketTooShort
  else
    let loss_reports := negb (Z.land (type_specific h) 128 =? 0) in
    let duplicate_reports := negb (Z.land (type_specific h) 64 =? 0) in
    let jitter_reports := negb (Z.land (type_specific h) 32 =? 0) in
    let ttl_or_hop_limit := TTLorHopLimitType_from (Z.shiftr (Z.land (type_specific h) 24) 3) in
    '(ssrc, buf) ← get_u32 buf;
    '(begin_seq, buf) ← get_u16 buf;
    '(end_seq, buf) ← get_u16 buf;
    '(lost_packets, buf) ← get_u32 buf;
    '(dup_packets, buf) ← get_u32 buf;
    '(min_jitter, buf) ← get_u32 buf;
    '(max_jitter, buf) ← get_u32 buf;
    '(mean_jitter, buf) ← get_u32 buf;
    '(dev_jitter, buf) ← get_u32 buf;
    '(min_ttl_or_hl, buf) ← get_u8 buf;
    '(max_ttl_or_hl, buf) ← get_u8 buf;
    '(mean_ttl_or_hl, buf) ← get_u8 buf;
    '(dev_ttl_or_hl, buf) ← get_u8 buf;
    Ok (mkStatisticsSummaryReportBlock loss_reports duplicate_reports jitter_reports ttl_or_hop_limit ssrc begin_seq end_seq lost_packets
          dup_packets min_jitter max_jitter mean_jitter dev_jitter min_ttl_or_hl max_ttl_or_hl mean_ttl_or_hl dev_ttl_or_hl, buf).

(** * VoIP metrics *)

Definition VM_REPORT_BLOCK_LENGTH : Z := 4 + 4 + 2 * 4 + 10 + 2 * 3.

Record VoIPMetricsReportBlock := mkVoIPMetricsReportBlock {
  vm_ssrc : Z;
  loss_rate : Z;
  discard_rate : Z;
  burst_density : Z;
  gap_density : Z;
  burst_duration : Z;
  gap_duration : Z;
  round_trip_delay : Z;
  end_system_delay : Z;
  signal_level : Z;
  noise_level : Z;
  rerl : Z;
  gmin : Z;
  rfactor : Z;
  ext_rfactor : Z;
  mos_lq : Z;
  mos_cq : Z;
  rx_config : Z;
  vm_reserved : Z;
  jb_nominal : Z;
  jb_maximum : Z;
  jb_abs_max : Z
}.

Definition vm_raw_size (_ : VoIPMetricsReportBlock) : Z := XR_HEADER_LENGTH + VM_REPORT_BLOCK_LENGTH.
Definition vm_xr_header (b : VoIPMetricsReportBlock) : XRHeader := mkXRHeader BtVoIPMetrics 0 (block_words (vm_raw_size b)).
Definition vm_marshal_to (b : VoIPMetricsReportBlock) (room : Z) : rtp_result (Z * bytes) :=
  put_block (vm_xr_header b) (vm_raw_size b) room
    (put_u32 (vm_ssrc b) ++ put_u8 (loss_rate b) ++ put_u8 (discard_rate b) ++ put_u8 (burst_density b) ++ put_u8 (gap_density b) ++
     put_u16 (burst_duration b) ++ put_u16 (gap_duration b) ++ put_u16 (round_trip_delay b) ++ put_u16 (end_system_delay b) ++
     put_u8 (signal_level b) ++ put_u8 (noise_level b) ++ put_u8 (rerl b) ++ put_u8 (gmin b) ++ put_u8 (rfactor b) ++ put_u8 (ext_rfactor b) ++
     put_u8 (mos_lq b) ++ put_u8 (mos_cq b) ++ put_u8 (rx_config b) ++ put_u8 (vm_reserved b) ++
     put_u16 (jb_nominal b) ++ put_u16 (jb_maximum b) ++ put_u16 (jb_abs_max b)).
Definition vm_unmarshal (raw_packet : bytes) : rtp_result (VoIPMetricsReportBlock * bytes) :=
  '(h, block_length, buf) ← read_block_header raw_packet;
  if negb (block_length =? VM_REPORT_BLOCK_LENGTH) || (zlen buf <? block_length) then Err PacketTooShort
  else
    '(ssrc, buf) ← get_u32 buf;
    '(loss_rate, buf) ← get_u8 buf;
    '(discard_rate, buf) ← get_u8 buf;
    '(burst_density, buf) ← get_u8 buf;
    '(gap_density, buf) ← get_u8 buf;
    '(burst_duration, buf) ← get_u16 buf;
    '(gap_duration, buf) ← get_u16 buf;
    '(round_trip_delay, buf) ← get_u16 buf;
    '(end_system_delay, buf) ← get_u16 buf;
    '(signal_level, buf) ← get_u8 buf;
    '(noise_level, buf) ← get_u8 buf;
    '(rerl, buf) ← get_u8 buf;
    '(gmin, buf) ← get_u8 buf;
    '(rfactor, buf) ← get_u8 buf;
    '(ext_rfactor, buf) ← get_u8 buf;
    '(mos_lq, buf) ← get_u8 buf;
    '(mos_cq, buf) ← get_u8 buf;
    '(rx_config, buf) ← get_u8 buf;
    '(reserved, buf) ← get_u8 buf;
    '(jb_nominal, buf) ← get_u16 buf;
    '(jb_maximum, buf) ← get_u16 buf;
    '(jb_abs_max, buf) ← get_u16 buf;
    Ok (mkVoIPMetricsReportBlock ssrc loss_rate discard_rate burst_density gap_density burst_duration gap_duration round_trip_delay end_system_delay
          signal_level noise_level rerl gmin rfactor ext_rfactor mos_lq mos_cq rx_config reserved jb_nominal jb_maximum jb_abs_max, buf).

(** * The packet *)

(** [Box<dyn Packet>] of the blocks above. *)
Inductive XrBlock :=
| XrRle (b : RLEReportBlock)
| XrPrt (b : PacketReceiptTimesReportBlock)
| XrRrt (b : ReceiverReferenceTimeReportBlock)
| XrDlrr (b : DLRRReportBlock)
| XrSsr (b : StatisticsSummaryReportBlock)
| XrVm (b : VoIPMetricsReportBlock)
| XrUnknown (b : UnknownReportBlock).

Definition xr_block_size (x : XrBlock) : Z :=
  match x with
  | XrRle b => rle_raw_size b | XrPrt b => prt_raw_size b | XrRrt b => rrt_raw_size b | XrDlrr b => dlrr_raw_size b
  | XrSsr b => ssr_raw_size b | XrVm b => vm_raw_size b | XrUnknown b => unknown_raw_size b
  end.
Definition xr_block_marshal_to (x : XrBlock) (room : Z) : rtp_result (Z * bytes) :=
  match x with
  | XrRle b => rle_marshal_to b room | XrPrt b => prt_marshal_to b room | XrRrt b => rrt_marshal_to b room | XrDlrr b => dlrr_marshal_to b room
  | XrSsr b => ssr_marshal_to b room | XrVm b => vm_marshal_to b room | XrUnknown b => unknown_marshal_to b room
  end.
Definition xr_block_ssrc (x : XrBlock) : list Z :=
  match x with
  | XrRle b => [rle_ssrc b] | XrPrt b => [prt_ssrc b] | XrRrt b => [] | XrDlrr b => map dlrr_ssrc (dlrr_reports b)
  | XrSsr b => [ssr_ssrc b] | XrVm b => [vm_ssrc b] | XrUnknown b => []
  end.
(** The block at the front of the buffer, by its first octet ([raw_packet.chunk()[0]]). *)
Definition xr_block_unmarshal (raw_packet : bytes) : rtp_result (XrBlock * bytes) :=
  t ← index raw_packet 0;
  match BlockType_from t with
  | BtLossRLE | BtDuplicateRLE => '(b, buf) ← rle_unmarshal raw_packet; Ok (XrRle b, buf)
  | BtPacketReceiptTimes => '(b, buf) ← prt_unmarshal raw_packet; Ok (XrPrt b, buf)
  | BtReceiverReferenceTime => '(b, buf) ← rrt_unmarshal raw_packet; Ok (XrRrt b, buf)
  | BtDLRR => '(b, buf) ← dlrr_unmarshal raw_packet; Ok (XrDlrr b, buf)
  | BtStatisticsSummary => '(b, buf) ← ssr_unmarshal raw_packet; Ok (XrSsr b, buf)
  | BtVoIPMetrics => '(b, buf) ← vm_unmarshal raw_packet; Ok (XrVm b, buf)
  | BtUnknown => '(b, buf) ← unknown_unmarshal raw_packet; Ok (XrUnknown b, buf)
  end.

#[export] Instance XrBlock_MarshalSize : MarshalSize XrBlock := mkMarshalSize _ xr_block_size.
#[export] Instance XrBlock_MarshalTo : MarshalTo MediaError XrBlock := mkMarshalTo _ _ xr_block_marshal_to.
#[export] Instance XrBlock_Unmarshal : Unmarshal MediaError XrBlock := mkUnmarshal _ _ xr_block_unmarshal.

Record ExtendedReport := mkExtendedReport { xr_sender_ssrc : Z; xr_reports : list XrBlock }.

Definition xr_raw_size (p : ExtendedReport) : Z := RTCP_HEADER_LENGTH + SSRC_LENGTH + zsum marshal_size (xr_reports p).

#[export] Instance xr_trait : RtcpTrait ExtendedReport := mkRtcpTrait _
  (fun p => padded_header (xr_raw_size p) 0 PT_ExtendedReport) (fun p => flat_map xr_block_ssrc (xr_reports p)) xr_raw_size.

Definition xr_marshal_to (p : ExtendedReport) (room : Z) : rtp_result (Z * bytes) :=
  if room <? padded_size p then Err BufferTooShort
  else put_packet (packet_header p) (raw_size p) (padded_size p) room (
    '(_, reports) ← write_each (xr_reports p) (room - (RTCP_HEADER_LENGTH + SSRC_LENGTH));
    Ok (put_u32 (xr_sender_ssrc p) ++ reports)).

(** [while raw_packet.remaining() > 0]; every block takes at least four octets. *)
Fixpoint read_xr_blocks (fuel : nat) (offset raw_packet_len : Z) (buf : bytes) : rtp_result (list XrBlock) :=
  if zlen buf <=? 0 then Ok []
  else if raw_packet_len <? offset + XR_HEADER_LENGTH then Err PacketTooShort
  else
    match fuel with
    | O => Diverge
    | S fuel =>
        '(report, buf) ← unmarshal buf;
        reports ← read_xr_blocks fuel (offset + marshal_size report) raw_packet_len buf;
        Ok (report :: reports)
    end.

Definition xr_unmarshal (raw_packet : bytes) : rtp_result (ExtendedReport * bytes) :=
  let raw_packet_len := zlen raw_packet in
  if raw_packet_len <? RTCP_HEADER_LENGTH + SSRC_LENGTH then Err PacketTooShort
  else
    '(header, buf) ← RtcpHeader_unmarshal raw_packet;
    if negb (bool_decide (rh_packet_type header = PT_ExtendedReport)) then Err WrongType
    else
      '(sender_ssrc, buf) ← get_u32 buf;
      reports ← read_xr_blocks (length buf) (RTCP_HEADER_LENGTH + SSRC_LENGTH) raw_packet_len buf;
      Ok (mkExtendedReport sender_ssrc reports, []).

#[export] Instance xr_MarshalSize : MarshalSize ExtendedReport := mkMarshalSize _ padded_size.
#[export] Instance xr_MarshalTo : MarshalTo MediaError ExtendedReport := mkMarshalTo _ _ xr_marshal_to.
#[export] Instance xr_Unmarshal : Unmarshal MediaError ExtendedReport := mkUnmarshal _ _ xr_unmarshal.

(** * The codec of a block *)

(** The octets of a block: its header, which announces the body, and the body. *)
Lemma block_frame t ts raw body room : is_u8 ts -> raw = 4 + zlen body -> zlen body mod 4 = 0 -> zlen body <= 65535 -> raw <= room ->
  let h := mkXRHeader t ts (block_words raw) in
  exists b, put_block h raw room body = Ok (raw, b) /\ zlen b = raw /\
    forall r, index (E:=MediaError) (b ++ r) 0 = Ok (BlockType_as_u8 t) /\ read_block_header (b ++ r) = Ok (h, zlen body, body ++ r).
Proof.
  intros Hts Hraw Hal Hmax Hroom h. zlen_pos. unfold put_block, XRHeader_marshal_to, XR_HEADER_LENGTH. rewrite !ltb_false by lia. cbn [mbind outcome_bind].
  eexists. split; [done|]. split; [zlia|]. intros r.
  assert (Ht : is_u8 (BlockType_as_u8 t) /\ BlockType_from (BlockType_as_u8 t) = t) by (by destruct t). destruct Ht as [Ht1 Ht2].
  assert (Hw : block_words raw = zlen body / 4) by (unfold block_words; rewrite as_u16_id; unfold is_u16; rewrite ?Hraw; mlia). split.
  - rewrite <- !(assoc_L app). unfold index. cbn [block_type h]. rewrite (proj2 (Z.ltb_lt _ _)) by zlia.
    change (put_u8 (BlockType_as_u8 t)) with [BlockType_as_u8 t mod 256]. unfold is_u8 in Ht1. by rewrite (Z.mod_small (BlockType_as_u8 t)) by lia.
  - unfold read_block_header, XRHeader_unmarshal, XR_HEADER_LENGTH, h. cbn [block_type type_specific block_length]. rewrite ltb_false by zlia. rewrite Hw.
    read_back. rewrite get_put_u16 by (unfold is_u16; mlia). cbn [mbind outcome_bind block_length].
    rewrite ltb_false by mlia. rewrite Ht2. do 3 f_equal. mlia.
Qed.

Lemma land_15 t : 0 <= t < 16 -> Z.land t 15 = t.
Proof. intros. change 15 with (Z.ones 4). by rewrite Z.land_ones, Z.mod_small by lia. Qed.

Lemma zlen_u16s l : zlen (concat (map put_u16 l)) = 2 * zlen l.
Proof. induction l as [|x l IH]; [done|]. cbn [map concat]. zlia. Qed.
Lemma zlen_u32s l : zlen (concat (map put_u32 l)) = 4 * zlen l.
Proof. induction l as [|x l IH]; [done|]. cbn [map concat]. zlia. Qed.
Lemma zlen_dlrrs l : zlen (concat (map put_dlrr l)) = 12 * zlen l.
Proof. induction l as [|x l IH]; [done|]. cbn [map concat]. unfold put_dlrr at 1. zlia. Qed.
#[local] Hint Rewrite zlen_u16s zlen_u32s zlen_dlrrs : zlen.

Definition rle_ok (b : RLEReportBlock) : Prop :=
  0 <= rle_t b < 16 /\ is_u32 (rle_ssrc b) /\ is_u16 (rle_begin_seq b) /\ is_u16 (rle_end_seq b) /\ Forall is_u16 (rle_chunks b) /\
  zlen (rle_chunks b) mod 2 = 0 /\ zlen (rle_chunks b) <= 32760.

(** A block codec, stated for the sum of the blocks. *)
Definition kept (x : XrBlock) : Prop := forall room, xr_block_size x <= room ->
  exists b, xr_block_marshal_to x room = Ok (xr_block_size x, b) /\ zlen b = xr_block_size x /\ forall r, xr_block_unmarshal (b ++ r) = Ok (x, r).

Lemma rle_kept b : rle_ok b -> kept (XrRle b).
Proof.
  intros (Ht & H1 & H2 & H3 & Hc & Hev & Hmax) room Hr. cbn [xr_block_size xr_block_marshal_to] in *. unfold rle_marshal_to.
  set (body := _ ++ _ ++ _ ++ _). assert (Hlen : zlen body = 8 + 2 * zlen (rle_chunks b)) by (unfold body; zlia). zlen_pos.
  destruct (block_frame (if is_loss_rle b then BtLossRLE else BtDuplicateRLE) (Z.land (rle_t b) 15) (rle_raw_size b) body room) as (x & Hx & Hl & Hd);
    [rewrite land_15 by done; unfold is_u8; clear -Ht; lia|unfold rle_raw_size, XR_HEADER_LENGTH, RLE_REPORT_BLOCK_MIN_LENGTH; lia|rewrite Hlen; clear -Hev; mlia|lia|done|].
  exists x. split; [exact Hx|]. split; [done|]. intros r. destruct (Hd r) as [Hi Hb]. unfold xr_block_unmarshal. rewrite Hi. cbn [mbind outcome_bind].
  assert (Hu : rle_unmarshal (x ++ r) = Ok (b, r)); [|destruct (is_loss_rle b); cbn; by rewrite Hu].
  unfold rle_unmarshal, RLE_REPORT_BLOCK_MIN_LENGTH. rewrite Hb. cbn [mbind outcome_bind block_type type_specific].
  rewrite !ltb_false by zlia. rewrite (proj2 (Z.eqb_eq _ 0)) by (rewrite Hlen; clear -Hev; mlia). cbn [orb negb]. unfold body. read_back.
  replace (Z.to_nat _) with (length (rle_chunks b)) by (fold body; rewrite Hlen; unfold zlen; clear; mlia).
  rewrite (read_n_write _ is_u16 put_u16) by (try done; intros; by apply get_put_u16). cbn [mbind outcome_bind].
  rewrite land_15, land_15 by (rewrite ?land_15; done). destruct b as [[] t s bs es cs]; done.
Qed.

Definition prt_ok (b : PacketReceiptTimesReportBlock) : Prop :=
  0 <= prt_t b < 16 /\ is_u32 (prt_ssrc b) /\ is_u16 (prt_begin_seq b) /\ is_u16 (prt_end_seq b) /\ Forall is_u32 (receipt_time b) /\ zlen (receipt_time b) <= 16380.

Lemma prt_kept b : prt_ok b -> kept (XrPrt b).
Proof.
  intros (Ht & H1 & H2 & H3 & Hc & Hmax) room Hr. cbn [xr_block_size xr_block_marshal_to] in *. unfold prt_marshal_to.
  set (body := _ ++ _ ++ _ ++ _). assert (Hlen : zlen body = 8 + 4 * zlen (receipt_time b)) by (unfold body; zlia). zlen_pos.
  destruct (block_frame BtPacketReceiptTimes (Z.land (prt_t b) 15) (prt_raw_size b) body room) as (x & Hx & Hl & Hd);
    [rewrite land_15 by done; unfold is_u8; clear -Ht; lia|unfold prt_raw_size, XR_HEADER_LENGTH, PRT_REPORT_BLOCK_MIN_LENGTH; lia|rewrite Hlen; clear; mlia|lia|done|].
  exists x. split; [exact Hx|]. split; [done|]. intros r. destruct (Hd r) as [Hi Hb]. unfold xr_block_unmarshal. rewrite Hi. cbn [mbind outcome_bind BlockType_as_u8 BlockType_from Z.eqb Pos.eqb].
  unfold prt_unmarshal, PRT_REPORT_BLOCK_MIN_LENGTH. rewrite Hb. cbn [mbind outcome_bind type_specific].
  rewrite !ltb_false by zlia. rewrite (proj2 (Z.eqb_eq _ 0)) by (rewrite Hlen; clear; mlia). cbn [orb negb]. unfold body. read_back.
  replace (Z.to_nat _) with (length (receipt_time b)) by (fold body; rewrite Hlen; unfold zlen; clear; mlia).
  rewrite (read_n_write _ is_u32 put_u32) by (try done; intros; by apply get_put_u32). cbn [mbind outcome_bind].
  rewrite land_15, land_15 by (rewrite ?land_15; done). by destruct b.
Qed.

Definition rrt_ok (b : ReceiverReferenceTimeReportBlock) : Prop := is_u64 (ntp_timestamp b).

Lemma rrt_kept b : rrt_ok b -> kept (XrRrt b).
Proof.
  intros H1 room Hr. cbn [xr_block_size xr_block_marshal_to] in *. unfold rrt_marshal_to.
  destruct (block_frame BtReceiverReferenceTime 0 (rrt_raw_size b) (put_u64 (ntp_timestamp b)) room) as (x & Hx & Hl & Hd); try done.
  exists x. split; [exact Hx|]. split; [done|]. intros r. destruct (Hd r) as [Hi Hb]. unfold xr_block_unmarshal. rewrite Hi. cbn [mbind outcome_bind BlockType_as_u8 BlockType_from Z.eqb Pos.eqb].
  unfold rrt_unmarshal. rewrite Hb. cbn [mbind outcome_bind]. rewrite ltb_false by zlia. change (zlen (put_u64 _) =? RRT_REPORT_BLOCK_LENGTH) with true. cbn [negb orb].
  rewrite get_put_u64 by done. cbn [mbind outcome_bind]. by destruct b.
Qed.

Definition dlrr_report_ok (r : DLRRReport) : Prop := is_u32 (dlrr_ssrc r) /\ is_u32 (last_rr r) /\ is_u32 (dlrr r).
Definition dlrr_ok (b : DLRRReportBlock) : Prop := Forall dlrr_report_ok (dlrr_reports b) /\ zlen (dlrr_reports b) <= 5461.

Lemma get_put_dlrr x r : dlrr_report_ok x -> get_dlrr (put_dlrr x ++ r) = Ok (x, r).
Proof. intros (H1 & H2 & H3). unfold get_dlrr, put_dlrr. read_back. by destruct x. Qed.

Lemma dlrr_kept b : dlrr_ok b -> kept (XrDlrr b).
Proof.
  intros [Hc Hmax] room Hr. cbn [xr_block_size xr_block_marshal_to] in *. unfold dlrr_marshal_to.
  set (body := concat _). assert (Hlen : zlen body = 12 * zlen (dlrr_reports b)) by (unfold body; zlia). zlen_pos.
  destruct (block_frame BtDLRR 0 (dlrr_raw_size b) body room) as (x & Hx & Hl & Hd);
    [done|unfold dlrr_raw_size, XR_HEADER_LENGTH; lia|rewrite Hlen; clear; mlia|lia|done|].
  exists x. split; [exact Hx|]. split; [done|]. intros r. destruct (Hd r) as [Hi Hb]. unfold xr_block_unmarshal. rewrite Hi. cbn [mbind outcome_bind BlockType_as_u8 BlockType_from Z.eqb Pos.eqb].
  unfold dlrr_unmarshal, DLRR_REPORT_LENGTH. rewrite Hb. cbn [mbind outcome_bind]. rewrite ltb_false by zlia.
  rewrite (proj2 (Z.eqb_eq _ 0)) by (rewrite Hlen; clear; mlia). cbn [orb negb].
  replace (Z.to_nat _) with (length (dlrr_reports b)) by (rewrite Hlen; unfold zlen; clear; mlia). unfold body.
  rewrite (read_n_write _ dlrr_report_ok put_dlrr) by (try done; intros; by apply get_put_dlrr). cbn [mbind outcome_bind]. by destruct b.
Qed.

Definition unknown_ok (b : UnknownReportBlock) : Prop := zlen (unknown_bytes b) mod 4 = 0 /\ zlen (unknown_bytes b) <= 65535.

Lemma unknown_kept b : unknown_ok b -> kept (XrUnknown b).
Proof.
  intros [Hal Hmax] room Hr. cbn [xr_block_size xr_block_marshal_to] in *. unfold unknown_marshal_to.
  destruct (block_frame BtUnknown 0 (unknown_raw_size b) (unknown_bytes b) room) as (x & Hx & Hl & Hd); try done.
  exists x. split; [exact Hx|]. split; [done|]. intros r. destruct (Hd r) as [Hi Hb]. unfold xr_block_unmarshal. rewrite Hi. cbn [mbind outcome_bind BlockType_as_u8 BlockType_from Z.eqb Pos.eqb].
  unfold unknown_unmarshal. rewrite Hb. cbn [mbind outcome_bind]. rewrite ltb_false by zlia. rewrite copy_front by done. cbn [mbind outcome_bind]. by destruct b.
Qed.

Definition ssr_ok (b : StatisticsSummaryReportBlock) : Prop :=
  is_u32 (ssr_ssrc b) /\ is_u16 (ssr_begin_seq b) /\ is_u16 (ssr_end_seq b) /\ is_u32 (ssr_lost_packets b) /\ is_u32 (dup_packets b) /\
  is_u32 (min_jitter b) /\ is_u32 (max_jitter b) /\ is_u32 (mean_jitter b) /\ is_u32 (dev_jitter b) /\
  is_u8 (min_ttl_or_hl b) /\ is_u8 (max_ttl_or_hl b) /\ is_u8 (mean_ttl_or_hl b) /\ is_u8 (dev_ttl_or_hl b).

Lemma ssr_flags b : is_u8 (ssr_type_specific b) /\
  negb (Z.land (ssr_type_specific b) 128 =? 0) = loss_reports b /\ negb (Z.land (ssr_type_specific b) 64 =? 0) = duplicate_reports b /\
  negb (Z.land (ssr_type_specific b) 32 =? 0) = jitter_reports b /\ TTLorHopLimitType_from (Z.shiftr (Z.land (ssr_type_specific b) 24) 3) = ttl_or_hop_limit b.
Proof. unfold ssr_type_specific. by destruct (loss_reports b), (duplicate_reports b), (jitter_reports b), (ttl_or_hop_limit b). Qed.

Lemma ssr_kept b : ssr_ok b -> kept (XrSsr b).
Proof.
  intros (H1 & H2 & H3 & H4 & H5 & H6 & H7 & H8 & H9 & H10 & H11 & H12 & H13) room Hr. cbn [xr_block_size xr_block_marshal_to] in *. unfold ssr_marshal_to.
  destruct (ssr_flags b) as (F0 & F1 & F2 & F3 & F4). set (body := _ ++ _).
  destruct (block_frame BtStatisticsSummary (ssr_type_specific b) (ssr_raw_size b) body room) as (x & Hx & Hl & Hd); try done.
  exists x. split; [exact Hx|]. split; [done|]. intros r. destruct (Hd r) as [Hi Hb]. unfold xr_block_unmarshal. rewrite Hi. cbn [mbind outcome_bind BlockType_as_u8 BlockType_from Z.eqb Pos.eqb].
  unfold ssr_unmarshal. rewrite Hb. cbn [mbind outcome_bind type_specific]. rewrite ltb_false by zlia. change (zlen body =? SSR_REPORT_BLOCK_LENGTH) with true. cbn [negb orb].
  unfold body. read_back. rewrite F1, F2, F3, F4. by destruct b.
Qed.

Definition vm_ok (b : VoIPMetricsReportBlock) : Prop :=
  is_u32 (vm_ssrc b) /\ is_u8 (loss_rate b) /\ is_u8 (discard_rate b) /\ is_u8 (burst_density b) /\ is_u8 (gap_density b) /\
  is_u16 (burst_duration b) /\ is_u16 (gap_duration b) /\ is_u16 (round_trip_delay b) /\ is_u16 (end_system_delay b) /\
  is_u8 (signal_level b) /\ is_u8 (noise_level b) /\ is_u8 (rerl b) /\ is_u8 (gmin b) /\ is_u8 (rfactor b) /\ is_u8 (ext_rfactor b) /\
  is_u8 (mos_lq b) /\ is_u8 (mos_cq b) /\ is_u8 (rx_config b) /\ is_u8 (vm_reserved b) /\
  is_u16 (jb_nominal b) /\ is_u16 (jb_maximum b) /\ is_u16 (jb_abs_max b).

Lemma vm_kept b : vm_ok b -> kept (XrVm b).
Proof.
  intros Hok room Hr. cbn [xr_block_size xr_block_marshal_to] in *. unfold vm_marshal_to. set (body := _ ++ _).
  destruct (block_frame BtVoIPMetrics 0 (vm_raw_size b) body room) as (x & Hx & Hl & Hd); try done.
  exists x. split; [exact Hx|]. split; [done|]. intros r. destruct (Hd r) as [Hi Hb]. unfold xr_block_unmarshal. rewrite Hi. cbn [mbind outcome_bind BlockType_as_u8 BlockType_from Z.eqb Pos.eqb].
  unfold vm_unmarshal. rewrite Hb. cbn [mbind outcome_bind type_specific]. rewrite ltb_false by zlia. change (zlen body =? VM_REPORT_BLOCK_LENGTH) with true. cbn [negb orb].
  unfold body. unfold vm_ok in Hok. use_ok. read_back. by destruct b.
Qed.

Definition xr_block_ok (x : XrBlock) : Prop :=
  match x with
  | XrRle b => rle_ok b | XrPrt b => prt_ok b | XrRrt b => rrt_ok b | XrDlrr b => dlrr_ok b
  | XrSsr b => ssr_ok b | XrVm b => vm_ok b | XrUnknown b => unknown_ok b
  end.

#[export] Instance xr_block_codec : Codec MediaError XrBlock xr_block_ok.
Proof.
  split. intros x room Hx. destruct x;
    [by apply rle_kept|by apply prt_kept|by apply rrt_kept|by apply dlrr_kept|by apply ssr_kept|by apply vm_kept|by apply unknown_kept].
Qed.

Lemma xr_block_size_pos x : 4 <= xr_block_size x.
Proof.
  destruct x; cbn [xr_block_size];
    unfold rle_raw_size, prt_raw_size, rrt_raw_size, dlrr_raw_size, ssr_raw_size, vm_raw_size, unknown_raw_size, XR_HEADER_LENGTH,
      RLE_REPORT_BLOCK_MIN_LENGTH, PRT_REPORT_BLOCK_MIN_LENGTH, RRT_REPORT_BLOCK_LENGTH, SSR_REPORT_BLOCK_LENGTH, VM_REPORT_BLOCK_LENGTH; zlen_pos; lia.
Qed.

Lemma xr_blocks_size l : 4 * zlen l <= zsum (marshal_size (T:=XrBlock)) l.
Proof. induction l as [|x l IH]; [done|]. rewrite zsum_cons, zlen_cons. pose proof (xr_block_size_pos x). change (marshal_size x) with (xr_block_size x). lia. Qed.

Lemma xr_block_aligned x : xr_block_ok x -> xr_block_size x mod 4 = 0.
Proof.
  destruct x as [b|b|b|b|b|b|b]; cbn [xr_block_size xr_block_ok]; try done.
  - intros (_ & _ & _ & _ & _ & He & _). unfold rle_raw_size, XR_HEADER_LENGTH, RLE_REPORT_BLOCK_MIN_LENGTH. mlia.
  - intros _. unfold prt_raw_size, XR_HEADER_LENGTH, PRT_REPORT_BLOCK_MIN_LENGTH. mlia.
  - intros _. unfold dlrr_raw_size, XR_HEADER_LENGTH. mlia.
  - intros [Ha _]. unfold unknown_raw_size, XR_HEADER_LENGTH. mlia.
Qed.

Lemma xr_blocks_aligned l : Forall xr_block_ok l -> zsum (marshal_size (T:=XrBlock)) l mod 4 = 0.
Proof.
  induction 1 as [|x l Hx Hl IH]; [done|]. rewrite zsum_cons. pose proof (xr_block_aligned x Hx) as Ha. change (marshal_size x) with (xr_block_size x).
  clear -IH Ha. mlia.
Qed.

Lemma xr_blocks_written l : forall room, Forall xr_block_ok l -> zsum marshal_size l <= room ->
  exists b, (exists n, write_each (E:=MediaError) l room = Ok (n, b)) /\ zlen b = zsum marshal_size l /\
    forall fuel offset len, (length l <= fuel)%nat -> offset + zsum marshal_size l = len -> read_xr_blocks fuel offset len b = Ok l.
Proof.
  induction l as [|x l IH]; intros room Hok Hroom.
  - exists []. split; [by eexists|]. split; [done|]. by intros [|fuel].
  - apply Forall_cons in Hok as [Hx Hok]. rewrite zsum_cons in *. pose proof (xr_block_size_pos x). pose proof (xr_blocks_size l). zlen_pos.
    destruct (codec_write (E:=MediaError) x room Hx) as (b & Hw & Hb & Hu); [lia|].
    destruct (IH (room - marshal_size x) Hok) as (bs & [n Hws] & Hbs & Hus); [lia|].
    cbn [write_each]. rewrite Hw. cbn [mbind outcome_bind]. rewrite ltb_false by lia. rewrite Hws. cbn [mbind outcome_bind].
    rewrite Hb, Z.sub_diag. change (zeros 0) with (@nil Z). cbn [app]. eexists. split; [by eexists|]. split; [rewrite zlen_app; lia|].
    intros fuel offset len Hf Hlen. destruct fuel as [|fuel]; [cbn in Hf; lia|]. cbn [length] in Hf. change (marshal_size x) with (xr_block_size x) in *.
    cbn [read_xr_blocks]. rewrite (proj2 (Z.leb_gt _ _)) by (rewrite zlen_app; lia). rewrite ltb_false by (unfold XR_HEADER_LENGTH; lia).
    rewrite Hu. cbn [mbind outcome_bind]. change (marshal_size x) with (xr_block_size x). rewrite Hus by lia. done.
Qed.

Definition xr_ok (p : ExtendedReport) : Prop := is_u32 (xr_sender_ssrc p) /\ Forall xr_block_ok (xr_reports p) /\ padded_size p <= 262144.

#[export] Instance xr_codec : RtcpCodec ExtendedReport xr_ok.
Proof.
  split. intros p room (H1 & Hb & Hs) Hr. pose proof (xr_blocks_size (xr_reports p)) as Hsz. pose proof (xr_blocks_aligned _ Hb) as Hal. zlen_pos.
  assert (Hraw : raw_size p = 8 + zsum marshal_size (xr_reports p)) by done.
  destruct (no_padding (raw_size p)) as [Hp Hpb]; [rewrite Hraw; clear -Hal; mlia|]. change (padded_size p <= room) in Hr.
  destruct (xr_blocks_written (xr_reports p) (room - 8) Hb) as (b & [n Hw] & Hbl & Hu); [unfold padded_size in *; lia|].
  cbn [marshal_to xr_MarshalTo]. unfold xr_marshal_to. rewrite ltb_false by done. change (RTCP_HEADER_LENGTH + SSRC_LENGTH) with 8.
  eapply put_packet_frame; [reflexivity|done|rewrite Hw; reflexivity|zlia|done|done|done|]. intros h -> Hok Hlen. rewrite Hpb, app_nil_r in *.
  cbn [unmarshal xr_Unmarshal]. unfold xr_unmarshal. change (RTCP_HEADER_LENGTH + SSRC_LENGTH) with 8. rewrite ltb_false by zlia.
  rewrite rtcp_header_read by done. cbn [mbind outcome_bind]. rewrite bool_decide_true by done. cbn [negb]. read_back.
  rewrite Hu; [by destruct p|unfold zlen in *; lia|zlia].
Qed.

(** * Decoding is safe *)

Lemma post_block_header b : bytes_ok b -> post (read_block_header b) (fun x => bytes_ok x.2 /\ 0 <= x.1.2 <= 65535 /\ x.1.2 mod 4 = 0 /\ zlen x.2 = zlen b - 4).
Proof.
  intros Hb. unfold read_block_header, XRHeader_unmarshal, XR_HEADER_LENGTH. buf_step; [done|]. bool_lia. rewrite ltb_false by done.
  eapply post_bind with (P := fun x => bytes_ok x.2 /\ is_u16 (block_length x.1) /\ zlen x.2 = zlen b - 4).
  - do 3 buf_step. use_ok. cbn [post fst snd block_length]. split_and!; try done. lia.
  - intros [h r] _ (Hr & Hl & Hz). cbn [fst snd] in *. buf_step; [done|]. bool_lia. cbn [post fst snd]. unfold is_u16 in *. split_and!; try done; mlia.
Qed.

(** A block's decoder takes the block its header announces. *)
Definition takes_block {T} (size : T -> Z) (m : rtp_result (T * bytes)) (b : bytes) : Prop :=
  post m (fun x => bytes_ok x.2 /\ zlen x.2 = zlen b - size x.1).

Lemma rle_takes b : bytes_ok b -> takes_block rle_raw_size (rle_unmarshal b) b.
Proof.
  intros Hb. unfold takes_block, rle_unmarshal, RLE_REPORT_BLOCK_MIN_LENGTH. eapply post_bind; [by apply post_block_header|]. intros [[h n] r] _ (Hr & Hn & Ha & Hl). cbn [fst snd] in *.
  apply post_if; intros Hg; [done|]. apply orb_false_iff in Hg as [[Hg1 Hg2]%orb_false_iff Hg3]. bool_lia. apply negb_false_iff, Z.eqb_eq in Hg2. do 3 buf_step. use_ok.
  eapply post_bind; [apply (post_read_n _ is_u16 2); [lia|apply post_get_u16|mlia]|]. intros [cs r'] _ (Hr' & Hlen & Hok). cbn [post fst snd] in *. use_ok.
  split; [done|]. unfold rle_raw_size, XR_HEADER_LENGTH, RLE_REPORT_BLOCK_MIN_LENGTH, zlen in *. cbn [rle_chunks]. rewrite Hlen. mlia.
Qed.

Lemma prt_takes b : bytes_ok b -> takes_block prt_raw_size (prt_unmarshal b) b.
Proof.
  intros Hb. unfold takes_block, prt_unmarshal, PRT_REPORT_BLOCK_MIN_LENGTH. eapply post_bind; [by apply post_block_header|]. intros [[h n] r] _ (Hr & Hn & Ha & Hl). cbn [fst snd] in *.
  apply post_if; intros Hg; [done|]. apply orb_false_iff in Hg as [[Hg1 Hg2]%orb_false_iff Hg3]. bool_lia. apply negb_false_iff, Z.eqb_eq in Hg2. do 3 buf_step. use_ok.
  eapply post_bind; [apply (post_read_n _ is_u32 4); [lia|apply post_get_u32|mlia]|]. intros [cs r'] _ (Hr' & Hlen & Hok). cbn [post fst snd] in *. use_ok.
  split; [done|]. unfold prt_raw_size, XR_HEADER_LENGTH, PRT_REPORT_BLOCK_MIN_LENGTH, zlen in *. cbn [receipt_time]. rewrite Hlen. mlia.
Qed.

Lemma dlrr_takes b : bytes_ok b -> takes_block dlrr_raw_size (dlrr_unmarshal b) b.
Proof.
  intros Hb. unfold takes_block, dlrr_unmarshal, DLRR_REPORT_LENGTH. eapply post_bind; [by apply post_block_header|]. intros [[h n] r] _ (Hr & Hn & Ha & Hl). cbn [fst snd] in *.
  apply post_if; intros Hg; [done|]. apply orb_false_iff in Hg as [Hg1 Hg2]. bool_lia. apply negb_false_iff, Z.eqb_eq in Hg1.
  eapply post_bind; [apply (post_read_n _ dlrr_report_ok 12); [lia| |mlia]|].
  { intros l Hll. unfold get_dlrr. do 3 buf_step. cbn [post fst snd]. split; [lia|]. intros. use_ok. done. }
  intros [cs r'] _ (Hr' & Hlen & Hok). cbn [post fst snd] in *. use_ok. split; [done|]. unfold dlrr_raw_size, XR_HEADER_LENGTH, zlen in *. cbn [dlrr_reports]. rewrite Hlen. mlia.
Qed.

Lemma rrt_takes b : bytes_ok b -> takes_block rrt_raw_size (rrt_unmarshal b) b.
Proof.
  intros Hb. unfold takes_block, rrt_unmarshal. eapply post_bind; [by apply post_block_header|]. intros [[h n] r] _ (Hr & Hn & Ha & Hl). cbn [fst snd] in *.
  apply post_if; intros Hg; [done|]. apply orb_false_iff in Hg as [Hg1 Hg2]. bool_lia. apply negb_false_iff, Z.eqb_eq in Hg1. unfold RRT_REPORT_BLOCK_LENGTH in *.
  buf_step. use_ok. cbn [post fst snd]. split; [done|]. change (rrt_raw_size _) with 12. lia.
Qed.

Lemma ssr_takes b : bytes_ok b -> takes_block ssr_raw_size (ssr_unmarshal b) b.
Proof.
  intros Hb. unfold takes_block, ssr_unmarshal. eapply post_bind; [by apply post_block_header|]. intros [[h n] r] _ (Hr & Hn & Ha & Hl). cbn [fst snd] in *.
  apply post_if; intros Hg; [done|]. apply orb_false_iff in Hg as [Hg1 Hg2]. bool_lia. apply negb_false_iff, Z.eqb_eq in Hg1. unfold SSR_REPORT_BLOCK_LENGTH in *.
  do 13 buf_step. use_ok. cbn [post fst snd]. split; [done|]. change (ssr_raw_size _) with 40. lia.
Qed.

Lemma vm_takes b : bytes_ok b -> takes_block vm_raw_size (vm_unmarshal b) b.
Proof.
  intros Hb. unfold takes_block, vm_unmarshal. eapply post_bind; [by apply post_block_header|]. intros [[h n] r] _ (Hr & Hn & Ha & Hl). cbn [fst snd] in *.
  apply post_if; intros Hg; [done|]. apply orb_false_iff in Hg as [Hg1 Hg2]. bool_lia. apply negb_false_iff, Z.eqb_eq in Hg1. unfold VM_REPORT_BLOCK_LENGTH in *.
  do 22 buf_step. use_ok. cbn [post fst snd]. split; [done|]. change (vm_raw_size _) with 36. lia.
Qed.

Lemma unknown_takes b : bytes_ok b -> takes_block unknown_raw_size (unknown_unmarshal b) b.
Proof.
  intros Hb. unfold takes_block, unknown_unmarshal. eapply post_bind; [by apply post_block_header|]. intros [[h n] r] _ (Hr & Hn & Ha & Hl). cbn [fst snd] in *.
  buf_step; [done|]. bool_lia. buf_step. use_ok. cbn [post fst snd]. split; [done|]. unfold unknown_raw_size, XR_HEADER_LENGTH. cbn [unknown_bytes]. lia.
Qed.

Lemma post_xr_block b : bytes_ok b -> 0 < zlen b -> takes_block xr_block_size (xr_block_unmarshal b) b.
Proof.
  intros Hb Hl. unfold takes_block, xr_block_unmarshal. buf_step.
  destruct (BlockType_from _); (eapply post_bind;
    [first [by apply rle_takes|by apply prt_takes|by apply rrt_takes|by apply dlrr_takes|by apply ssr_takes|by apply vm_takes|by apply unknown_takes]|]); by intros [x r] _ Hx.
Qed.

Lemma post_read_xr_blocks fuel : forall offset len b, bytes_ok b -> (length b <= fuel)%nat -> no_panic (read_xr_blocks fuel offset len b).
Proof.
  induction fuel as [|fuel IH]; intros offset len b Hb Hf; cbn [read_xr_blocks]; unfold no_panic in *; buf_step; try done; bool_lia; buf_step; try done.
  { cbn [post]. unfold zlen in *. lia. }
  eapply post_bind; [apply (post_xr_block b Hb); lia|]. intros [x r] _ [Hr Hl]. cbn [fst snd] in *. pose proof (xr_block_size_pos x).
  eapply post_bind; [apply IH; [done|unfold zlen in *; lia]|]. done.
Qed.

#[export] Instance xr_safe : RtcpSafe ExtendedReport.
Proof.
  split. intros h body Hh Hb _ _. cbn [unmarshal xr_Unmarshal]. unfold xr_unmarshal. change (RTCP_HEADER_LENGTH + SSRC_LENGTH) with 8.
  buf_step; [done|]. bool_lia. rewrite rtcp_header_read by done. cbn [mbind outcome_bind]. buf_step; [done|]. buf_step. use_ok.
  eapply post_bind; [apply post_read_xr_blocks; [done|lia]|]. done.
Qed.
