(* ===== verification/RtcpDatagram.v ===== *)
(** Datagrams of RTCP packets ([rtc-rtcp/src/packet.rs], [raw_packet.rs],
    [compound_packet/mod.rs]): packets of any type, writing and reading a datagram, and
    compound packets. *)
From S2P Require Import Prelude Marshal Rtp Rtcp RtcpNack RtcpReports RtcpSdes RtcpFeedback RtcpRemb RtcpTcc RtcpCcfb RtcpXr.

(** * Raw packets *)

Record RawPacket := mkRawPacket { raw_bytes : bytes }.

Definition RtcpHeader_default : RtcpHeader := mkRtcpHeader false 0 PT_Unsupported 0.

(** [Header::unmarshal(..).unwrap_or_default()]. *)
#[export] Instance raw_trait : RtcpTrait RawPacket := mkRtcpTrait _
  (fun p => match RtcpHeader_unmarshal (raw_bytes p) with Ok (h, _) => h | _ => RtcpHeader_default end) (fun _ => []) (fun p => zlen (raw_bytes p)).

(** [buf.put] and [put_padding] panic when the buffer is too short. *)
Definition raw_marshal_to (p : RawPacket) (room : Z) : rtp_result (Z * bytes) :=
  '(h, _) ← RtcpHeader_unmarshal (raw_bytes p);
  let b := raw_bytes p ++ if rh_padding h then put_padding (raw_size p) else [] in
  if room <? zlen b then Panic else Ok (padded_size p, b).

Definition raw_unmarshal (raw_packet : bytes) : rtp_result (RawPacket * bytes) :=
  if zlen raw_packet <? RTCP_HEADER_LENGTH then Err PacketTooShort
  else
    '(h, buf) ← RtcpHeader_unmarshal raw_packet;
    raw_hdr ← marshal h;
    '(raw_body, buf) ← copy_to_bytes (zlen buf) buf;
    Ok (mkRawPacket (raw_hdr ++ raw_body), buf).

#[export] Instance raw_MarshalSize : MarshalSize RawPacket := mkMarshalSize _ padded_size.
#[export] Instance raw_MarshalTo : MarshalTo MediaError RawPacket := mkMarshalTo _ _ raw_marshal_to.
#[export] Instance raw_Unmarshal : Unmarshal MediaError RawPacket := mkUnmarshal _ _ raw_unmarshal.

(** * Packets of any type *)

(** [Box<dyn Packet>], by the types that stand in a datagram. *)
Inductive AnyPacket :=
| PkSenderReport (p : SenderReport)
| PkReceiverReport (p : ReceiverReport)
| PkSourceDescription (p : SourceDescription)
| PkGoodbye (p : Goodbye)
| PkTransportLayerNack (p : TransportLayerNack)
| PkRapidResynchronizationRequest (p : RapidResynchronizationRequest)
| PkTransportLayerCc (p : TransportLayerCc)
| PkCcFeedbackReport (p : CcFeedbackReport)
| PkPictureLossIndication (p : PictureLossIndication)
| PkSliceLossIndication (p : SliceLossIndication)
| PkReceiverEstimatedMaximumBitrate (p : ReceiverEstimatedMaximumBitrate)
| PkFullIntraRequest (p : FullIntraRequest)
| PkExtendedReport (p : ExtendedReport)
| PkRawPacket (p : RawPacket).

(** A method of the trait at the type in the box. *)
Definition on_packet {R} (f : forall T, RtcpTrait T -> MarshalSize T -> MarshalTo MediaError T -> T -> R) (p : AnyPacket) : R :=
  match p with
  | PkSenderReport p => f _ _ _ _ p
  | PkReceiverReport p => f _ _ _ _ p
  | PkSourceDescription p => f _ _ _ _ p
  | PkGoodbye p => f _ _ _ _ p
  | PkTransportLayerNack p => f _ _ _ _ p
  | PkRapidResynchronizationRequest p => f _ _ _ _ p
  | PkTransportLayerCc p => f _ _ _ _ p
  | PkCcFeedbackReport p => f _ _ _ _ p
  | PkPictureLossIndication p => f _ _ _ _ p
  | PkSliceLossIndication p => f _ _ _ _ p
  | PkReceiverEstimatedMaximumBitrate p => f _ _ _ _ p
  | PkFullIntraRequest p => f _ _ _ _ p
  | PkExtendedReport p => f _ _ _ _ p
  | PkRawPacket p => f _ _ _ _ p
  end.

#[export] Instance any_trait : RtcpTrait AnyPacket := mkRtcpTrait _
  (on_packet (fun T _ _ _ => packet_header)) (on_packet (fun T _ _ _ => destination_ssrc)) (on_packet (fun T _ _ _ => raw_size)).
#[export] Instance any_MarshalSize : MarshalSize AnyPacket := mkMarshalSize _ (on_packet (fun T _ _ _ => marshal_size)).
#[export] Instance any_MarshalTo : MarshalTo MediaError AnyPacket := mkMarshalTo _ _ (on_packet (fun T _ _ _ => marshal_to)).

(** * Datagrams *)

(** [marshal]: one buffer of the total size, the packets one after the other. *)
Definition marshal_packets (packets : list AnyPacket) : rtp_result bytes :=
  let total := zsum marshal_size packets in
  '(_, out) ← write_each packets total;
  Ok (out ++ zeros (total - zlen out)).

Section datagram.
Context `{OverflowChecks, Segmented}.

(** [Box::new(T::unmarshal(&mut in_packet)?)]. *)
Definition boxed_packet {T} `{Unmarshal MediaError T} (box : T -> AnyPacket) (in_packet : bytes) : rtp_result (AnyPacket * bytes) :=
  '(p, rest) ← unmarshal in_packet; Ok (box p, rest).

(** The [match] on the type and the format of the header. *)
Definition dispatch (h : RtcpHeader) : bytes -> rtp_result (AnyPacket * bytes) :=
  match rh_packet_type h with
  | PT_SenderReport => boxed_packet PkSenderReport
  | PT_ReceiverReport => boxed_packet PkReceiverReport
  | PT_SourceDescription => boxed_packet PkSourceDescription
  | PT_Goodbye => boxed_packet PkGoodbye
  | PT_TransportSpecificFeedback =>
      if rh_count h =? FORMAT_TLN then boxed_packet PkTransportLayerNack
      else if rh_count h =? FORMAT_RRR then boxed_packet PkRapidResynchronizationRequest
      else if rh_count h =? FORMAT_TCC then boxed_packet PkTransportLayerCc
      else if rh_count h =? FORMAT_CCFB then boxed_packet PkCcFeedbackReport
      else boxed_packet PkRawPacket
  | PT_PayloadSpecificFeedback =>
      if rh_count h =? FORMAT_PLI then boxed_packet PkPictureLossIndication
      else if rh_count h =? FORMAT_SLI then boxed_packet PkSliceLossIndication
      else if rh_count h =? FORMAT_REMB then boxed_packet PkReceiverEstimatedMaximumBitrate
      else if rh_count h =? FORMAT_FIR then boxed_packet PkFullIntraRequest
      else boxed_packet PkRawPacket
  | PT_ExtendedReport => boxed_packet PkExtendedReport
  | PT_Unsupported | PT_ApplicationDefined => boxed_packet PkRawPacket
  end.

(** What a decoder leaves of [in_packet] stays in [raw_data]. *)
Definition unmarshaller (raw_data : bytes) : rtp_result (AnyPacket * bytes) :=
  '(h, buf) ← RtcpHeader_unmarshal raw_data;
  let length := rh_length h * 4 in
  if zlen buf <? length then Err PacketTooShort
  else
    '(_, header_buf) ← RtcpHeader_marshal_to h RTCP_HEADER_LENGTH;
    let in_packet := header_buf ++ take (Z.to_nat length) buf in
    '(p, rest) ← dispatch h in_packet;
    Ok (p, rest ++ drop (Z.to_nat length) buf).

(** [while raw_data.has_remaining()]; every packet takes at least its header. *)
Fixpoint read_packets (fuel : nat) (raw_data : bytes) : rtp_result (list AnyPacket) :=
  match raw_data with
  | [] => Ok []
  | _ =>
      match fuel with
      | O => Diverge
      | S fuel => '(p, raw_data) ← unmarshaller raw_data; ps ← read_packets fuel raw_data; Ok (p :: ps)
      end
  end.

Definition unmarshal_packets (raw_data : bytes) : rtp_result (list AnyPacket) :=
  packets ← read_packets (length raw_data) raw_data;
  match packets with [] => Err InvalidHeader | _ => Ok packets end.
End datagram.

(** * Compound packets *)

Record CompoundPacket := mkCompoundPacket { compound : list AnyPacket }.




#[export] Instance compound_trait : RtcpTrait CompoundPacket := mkRtcpTrait _
  (fun _ => RtcpHeader_default) (fun c => match compound c with [] => [] | p :: _ => destination_ssrc p end) (fun c => zsum marshal_size (compound c)).




(** * Reading back what was written *)

(** A raw packet that [dispatch] leaves raw: whole, with the header it was read with. *)
Definition raw_kind (h : RtcpHeader) : Prop :=
  match rh_packet_type h with
  | PT_Unsupported | PT_ApplicationDefined => True
  | PT_TransportSpecificFeedback => rh_count h <> FORMAT_TLN /\ rh_count h <> FORMAT_RRR /\ rh_count h <> FORMAT_TCC /\ rh_count h <> FORMAT_CCFB
  | PT_PayloadSpecificFeedback => rh_count h <> FORMAT_PLI /\ rh_count h <> FORMAT_SLI /\ rh_count h <> FORMAT_REMB /\ rh_count h <> FORMAT_FIR
  | _ => False
  end.
Definition raw_ok (p : RawPacket) : Prop :=
  bytes_ok (raw_bytes p) /\ exists h body, RtcpHeader_unmarshal (raw_bytes p) = Ok (h, body) /\ zlen body = 4 * rh_length h /\ raw_kind h.

(** The packets that can be written: for every type its fields in range. *)
Definition packet_ok (p : AnyPacket) : Prop :=
  match p with
  | PkSenderReport p => sender_report_ok p
  | PkReceiverReport p => receiver_report_ok p
  | PkSourceDescription p => sdes_ok p
  | PkGoodbye p => goodbye_ok p
  | PkTransportLayerNack p => tln_ok p
  | PkRapidResynchronizationRequest p => rrr_ok p
  | PkTransportLayerCc p => tcc_ok p
  | PkCcFeedbackReport p => ccfb_ok p
  | PkPictureLossIndication p => pli_ok p
  | PkSliceLossIndication p => sli_ok p
  | PkReceiverEstimatedMaximumBitrate p => remb_ok p
  | PkFullIntraRequest p => fir_ok p
  | PkExtendedReport p => xr_ok p
  | PkRawPacket p => raw_ok p
  end.

(** What the reader gets for a packet: the packet, but the padding of a report ends up in
    its profile extensions, a slice loss indication is a raw packet of its octets, and a raw
    packet of a type that is not known has lost it, its type octet is 0. *)
Definition comes_back (p : AnyPacket) : AnyPacket :=
  match p with
  | PkSenderReport p => PkSenderReport (mkSenderReport (sr_ssrc p) (sr_ntp_time p) (sr_rtp_time p) (sr_packet_count p) (sr_octet_count p) (sr_reports p)
      (sr_profile_extensions p ++ put_padding (raw_size p)))
  | PkReceiverReport p => PkReceiverReport (mkReceiverReport (rr_ssrc p) (rr_reports p) (rr_profile_extensions p ++ put_padding (raw_size p)))
  | PkSliceLossIndication p => PkRawPacket (mkRawPacket (match marshal (E:=MediaError) p with Ok b => b | _ => [] end))
  | PkRawPacket p => PkRawPacket (mkRawPacket (match raw_bytes p with b0 :: t :: r => b0 :: PacketType_as_u8 (PacketType_from t) :: r | b => b end))
  | p => p
  end.





Lemma copy_all b : copy_to_bytes (E:=MediaError) (zlen b) b = Ok (b, []).
Proof. rewrite <- (copy_front (zlen b) b []) by done. by rewrite app_nil_r. Qed.

Lemma raw_read h body : rtcp_header_ok h -> raw_unmarshal (rtcp_header_bytes h ++ body) = Ok (mkRawPacket (rtcp_header_bytes h ++ body), []).
Proof.
  intros Hh. unfold raw_unmarshal, RTCP_HEADER_LENGTH. rewrite ltb_false by zlia. rewrite rtcp_header_read by done. cbn [mbind outcome_bind].
  unfold marshal. change (marshal_size h) with 4. change (marshal_to h 4) with (RtcpHeader_marshal_to h 4). rewrite rtcp_header_write by done. cbn [mbind outcome_bind].
  change (negb (4 =? 4)) with false. cbv iota. rewrite copy_all. cbn [mbind outcome_bind].
  change (zeros (4 - zlen (rtcp_header_bytes h))) with (@nil Z). by rewrite app_nil_r.
Qed.

Section written.
Context `{OverflowChecks, Segmented}.

(** A packet in a datagram: four octets read as a header, a body of the length announced, and
    [dispatch] to what comes back. *)
Definition framed (p : AnyPacket) (room : Z) : Prop :=
  exists x h body, marshal_to (E:=MediaError) p room = Ok (marshal_size p, x ++ body) /\ (forall r, RtcpHeader_unmarshal (x ++ r) = Ok (h, r)) /\ zlen x = 4 /\
    rtcp_header_ok h /\ zlen body = 4 * rh_length h /\ marshal_size p = 4 + zlen body /\ dispatch h (rtcp_header_bytes h ++ body) = Ok (comes_back p, []).

Lemma frame_written (p : AnyPacket) h body room : marshal_to (E:=MediaError) p room = Ok (marshal_size p, rtcp_header_bytes h ++ body) ->
  rtcp_header_ok h -> zlen body = 4 * rh_length h -> marshal_size p = 4 + zlen body -> dispatch h (rtcp_header_bytes h ++ body) = Ok (comes_back p, []) -> framed p room.
Proof using Type. intros Hm Hh Hl Hz Hd. exists (rtcp_header_bytes h), h, body. split_and!; try done. intros r. by apply rtcp_header_read. Qed.

Lemma frame_codec {T} `{RtcpCodec T ok} (p : T) (box : T -> AnyPacket) room : ok p -> marshal_size p <= room ->
  marshal_size (box p) = marshal_size p -> marshal_to (E:=MediaError) (box p) room = marshal_to p room -> dispatch (packet_header p) = boxed_packet box ->
  comes_back (box p) = box p -> framed (box p) room.
Proof using Type.
  intros Hp Hr Hs Hm Hd Hb. destruct (rtcp_write p room Hp Hr) as (body & Hw & Hh & Hl & Hz & Hu). apply (frame_written (box p) (packet_header p) body).
  - by rewrite Hs, Hm.
  - done.
  - done.
  - by rewrite Hs.
  - rewrite Hd, Hb. unfold boxed_packet. by rewrite Hu.
Qed.

Lemma sli_framed p room : sli_ok p -> marshal_size p <= room -> framed (PkSliceLossIndication p) room.
Proof using Type.
  intros Hp Hr. destruct (rtcp_write p room Hp Hr) as (body & Hw & Hh & Hl & Hz & _).
  assert (Hroom : marshal_to (E:=MediaError) p (marshal_size p) = marshal_to p room).
  { cbn [marshal_to sli_MarshalTo]. unfold sli_marshal_to, put_packet. change (marshal_size p) with (padded_size p) in *. zlen_pos.
    rewrite !(ltb_false _ (padded_size p)) by lia. by rewrite !rtcp_header_write by (done || lia). }
  apply (frame_written _ (packet_header p) body); try done. change (dispatch (packet_header p)) with (boxed_packet PkRawPacket). unfold boxed_packet.
  cbn [unmarshal raw_Unmarshal]. rewrite raw_read by done. cbn [mbind outcome_bind comes_back].
  unfold marshal. rewrite Hroom, Hw. cbn [mbind outcome_bind]. rewrite Z.eqb_refl. cbn [negb].
  by rewrite zlen_app, zlen_rtcp_header_bytes, Hz, Z.sub_diag, app_nil_r.
Qed.

(** The first octet of a header, read and written again. *)
Lemma rtcp_b0_again b0 : is_u8 b0 -> Z.land (Z.shiftr b0 VERSION_SHIFT) VERSION_MASK = RTP_VERSION ->
  Z.lor (Z.lor (Z.shiftl RTP_VERSION VERSION_SHIFT mod 256) (Z.shiftl (if 0 <? Z.land (Z.shiftr b0 PADDING_SHIFT) PADDING_MASK then 1 else 0) PADDING_SHIFT))
    (Z.shiftl (Z.land (Z.shiftr b0 COUNT_SHIFT) COUNT_MASK) COUNT_SHIFT) mod 256 = b0.
Proof using Type.
  intros Hb Hv. assert (Ha : forall b0, 0 <= b0 < 256 -> negb (Z.land (Z.shiftr b0 VERSION_SHIFT) VERSION_MASK =? RTP_VERSION) ||
    (Z.lor (Z.lor (Z.shiftl RTP_VERSION VERSION_SHIFT mod 256) (Z.shiftl (if 0 <? Z.land (Z.shiftr b0 PADDING_SHIFT) PADDING_MASK then 1 else 0) PADDING_SHIFT))
      (Z.shiftl (Z.land (Z.shiftr b0 COUNT_SHIFT) COUNT_MASK) COUNT_SHIFT) mod 256 =? b0) = true).
  { apply (bounded_forall 256). vm_compute. reflexivity. }
  specialize (Ha b0 Hb). rewrite Hv, Z.eqb_refl in Ha. by apply Z.eqb_eq.
Qed.

Lemma raw_header_again x h body : bytes_ok x -> zlen x = 4 -> RtcpHeader_unmarshal (x ++ body) = Ok (h, body) ->
  rtcp_header_bytes h ++ body = match x ++ body with b0 :: t :: r => b0 :: PacketType_as_u8 (PacketType_from t) :: r | b => b end.
Proof using Type.
  destruct x as [|b0 [|t [|n1 [|n2 [|]]]]]; try (by intros _ Hz; exfalso; revert Hz; zlia). intros Hb _.
  unfold RtcpHeader_unmarshal, RTCP_HEADER_LENGTH. rewrite ltb_false by zlia. cbn [app get_u8 get_u16 mbind outcome_bind].
  destruct (negb _) eqn:Hv; [done|]. cbn [mbind outcome_bind]. intros E. injection E as <-. apply negb_false_iff, Z.eqb_eq in Hv.
  repeat (apply Forall_cons in Hb as [? Hb]). unfold rtcp_header_bytes. cbn [rh_padding rh_count rh_packet_type rh_length].
  unfold put_u8. rewrite rtcp_b0_again by done. unfold put_u16. cbn [app]. unfold_ints. f_equal. f_equal; [|f_equal; [mlia|f_equal; mlia]].
  unfold PacketType_from. repeat case_match; done.
Qed.

Lemma header_local raw h buf : RtcpHeader_unmarshal raw = Ok (h, buf) ->
  exists x, raw = x ++ buf /\ zlen x = 4 /\ forall buf', RtcpHeader_unmarshal (x ++ buf') = Ok (h, buf').
Proof using Type.
  unfold RtcpHeader_unmarshal, RTCP_HEADER_LENGTH. destruct (Z.ltb_spec (zlen raw) 4) as [|Hl]; [done|]. intros E.
  destruct raw as [|x0 [|x1 [|x2 [|x3 raw]]]]; [by (revert Hl; zlia)..|]. exists [x0; x1; x2; x3].
  cbn [get_u8 get_u16 mbind outcome_bind] in E. destruct (negb _) eqn:Hv; [done|]. cbn [mbind outcome_bind] in E. injection E as <- <-.
  split; [done|]. split; [done|]. intros buf'. cbn [app]. rewrite ltb_false by zlia. cbn [get_u8 get_u16 mbind outcome_bind]. by rewrite Hv.
Qed.

Lemma dispatch_raw h : raw_kind h -> dispatch h = boxed_packet PkRawPacket.
Proof using Type.
  intros Hk. unfold dispatch. unfold raw_kind in Hk. destruct (rh_packet_type h); try done;
    destruct Hk as (?%Z.eqb_neq & ?%Z.eqb_neq & ?%Z.eqb_neq & ?%Z.eqb_neq); by repeat match goal with E : (_ =? _) = false |- _ => rewrite E; clear E end.
Qed.

Lemma raw_framed p room : raw_ok p -> padded_size p <= room -> framed (PkRawPacket p) room.
Proof using Type.
  intros (Hbytes & h & body & Hu & Hl & Hk) Hr. pose proof (post_Ok _ _ _ (post_RtcpHeader_unmarshal _ Hbytes) Hu) as (Hh & _ & _). cbn [fst] in Hh.
  destruct (header_local _ _ _ Hu) as (x & Hb & Hx & Hloc). exists x, h, body.
  assert (Hsz : raw_size p = 4 + zlen body) by (cbn; rewrite Hb; zlia). destruct (no_padding (raw_size p)) as [Hp Hpb]; [rewrite Hsz, Hl; mlia|].
  change (marshal_size (PkRawPacket p)) with (padded_size p). change (marshal_to (PkRawPacket p) room) with (raw_marshal_to p room).
  unfold padded_size in *. rewrite Hp in *. split_and!; try done; [|lia|].
  - unfold raw_marshal_to. rewrite Hu. cbn [mbind outcome_bind]. rewrite Hpb. replace (if rh_padding h then [] else []) with (@nil Z) by (by destruct (rh_padding h)).
    rewrite app_nil_r. rewrite ltb_false by (change (zlen (raw_bytes p)) with (raw_size p); lia). unfold padded_size. by rewrite Hp, Hb.
  - rewrite (dispatch_raw h Hk). unfold boxed_packet. cbn [unmarshal raw_Unmarshal]. rewrite raw_read by done. cbn [mbind outcome_bind comes_back].
    rewrite Hb in Hbytes |- *. apply bytes_ok_app in Hbytes as [Hbx _]. by rewrite (raw_header_again x h body Hbx Hx (Hloc body)).
Qed.

Lemma sender_report_framed p room : sender_report_ok p -> padded_size p <= room -> framed (PkSenderReport p) room.
Proof using Type.
  intros Hp Hr. destruct (sender_report_written p room Hp Hr) as (body & Hw & Hh & Hl & Hz & Hu). apply (frame_written _ (packet_header p) body); try done.
  change (dispatch (packet_header p)) with (boxed_packet PkSenderReport). unfold boxed_packet. by rewrite Hu.
Qed.
Lemma receiver_report_framed p room : receiver_report_ok p -> padded_size p <= room -> framed (PkReceiverReport p) room.
Proof using Type.
  intros Hp Hr. destruct (receiver_report_written p room Hp Hr) as (body & Hw & Hh & Hl & Hz & Hu). apply (frame_written _ (packet_header p) body); try done.
  change (dispatch (packet_header p)) with (boxed_packet PkReceiverReport). unfold boxed_packet. by rewrite Hu.
Qed.

Lemma packet_framed p room : packet_ok p -> marshal_size p <= room -> framed p room.
Proof using Type.
  intros Hp Hr. destruct p; cbn [packet_ok] in Hp;
    first [by apply sender_report_framed | by apply receiver_report_framed | by apply sli_framed | by apply raw_framed
          | eapply frame_codec; [exact Hp|exact Hr|reflexivity|reflexivity|reflexivity|reflexivity]].
Qed.
End written.

Section datagrams.
Context `{OverflowChecks, Segmented}.

Lemma unmarshaller_frame x h body r : (forall r, RtcpHeader_unmarshal (x ++ r) = Ok (h, r)) -> rtcp_header_ok h -> zlen body = 4 * rh_length h ->
  unmarshaller (x ++ body ++ r) = '(p, rest) ← dispatch h (rtcp_header_bytes h ++ body); Ok (p, rest ++ r).
Proof using Type.
  intros Hx Hh Hl. unfold unmarshaller. rewrite Hx. cbn [mbind outcome_bind]. rewrite ltb_false by zlia.
  rewrite rtcp_header_write by done. cbn [mbind outcome_bind]. by rewrite take_front, drop_front by lia.
Qed.

Lemma packets_written l : forall room, Forall packet_ok l -> zsum marshal_size l <= room ->
  exists b, write_each (E:=MediaError) l room = Ok (zsum marshal_size l, b) /\ zlen b = zsum marshal_size l /\ 4 * zlen l <= zlen b /\
    forall fuel, (length l <= fuel)%nat -> read_packets fuel b = Ok (map comes_back l).
Proof using Type.
  induction l as [|p l IH]; intros room Hok Hroom; [exists []; split_and!; [done|done|done|by intros [|]]|].
  apply Forall_cons in Hok as [Hp Hok]. rewrite zsum_cons in *.
  assert (Hnn : 0 <= zsum (marshal_size (T:=AnyPacket)) l).
  { clear IH Hroom. induction Hok as [|q l Hq Hl IHl]; [done|]. rewrite zsum_cons. destruct (packet_framed q _ Hq (Z.le_refl _)) as (x & h & body & _ & _ & _ & _ & _ & Hz & _). zlen_pos. lia. }
  destruct (packet_framed p room Hp) as (x & h & body & Hw & Hx & Hx4 & Hh & Hl & Hz & Hd); [lia|].
  destruct (IH (room - marshal_size p) Hok) as (bs & Hws & Hbs & Hbl & Hus); [lia|].
  cbn [write_each]. rewrite Hw. cbn [mbind outcome_bind]. rewrite ltb_false by lia. rewrite Hws. cbn [mbind outcome_bind].
  replace (zeros (marshal_size p - zlen (x ++ body))) with (@nil Z) by (rewrite Hz, zlen_app, Hx4, Z.sub_diag; done). cbn [app].
  eexists. split; [done|]. split; [rewrite !zlen_app; lia|]. zlen_pos. split; [rewrite zlen_cons, !zlen_app; lia|].
  intros fuel Hf. destruct fuel as [|fuel]; [cbn in Hf; lia|]. rewrite <- (assoc_L app). cbn [read_packets map].
  destruct (x ++ body ++ bs) eqn:Hne; [exfalso; apply app_eq_nil in Hne as [-> _]; discriminate Hx4|]. rewrite <- Hne.
  rewrite (unmarshaller_frame x h) by done. rewrite Hd. cbn [mbind outcome_bind app]. by rewrite Hus by (cbn in Hf; lia).
Qed.

(** * Decoding is safe and exact *)

#[local] Instance raw_safe : RtcpSafe RawPacket.
Proof using Type. split. intros h body Hh _ _ _. cbn [unmarshal raw_Unmarshal]. by rewrite raw_read. Qed.

Lemma boxed_safe {T} `{RtcpSafe T} (box : T -> AnyPacket) h body : rtcp_header_ok h -> bytes_ok body -> zlen body = 4 * rh_length h -> zlen body < 65536 ->
  post (boxed_packet box (rtcp_header_bytes h ++ body)) (fun x => x.2 = []).
Proof using Type. intros. unfold boxed_packet. eapply post_bind; [by apply rtcp_safe|]. by intros [p r] _ Hr. Qed.

Lemma dispatch_safe h body : rtcp_header_ok h -> bytes_ok body -> zlen body = 4 * rh_length h -> zlen body < 65536 ->
  post (dispatch h (rtcp_header_bytes h ++ body)) (fun x => x.2 = []).
Proof using Type. intros. unfold dispatch. repeat case_match; by apply boxed_safe. Qed.

(** A packet by itself: a header, as many octets as it announces, which decode to the packet
    and are read to the end. *)
Definition packet_frame (f : bytes) (p : AnyPacket) : Prop :=
  exists h body, RtcpHeader_unmarshal f = Ok (h, body) /\ zlen body = 4 * rh_length h /\ dispatch h (rtcp_header_bytes h ++ body) = Ok (p, []).

Lemma unmarshaller_exact raw : bytes_ok raw -> zlen raw < 65536 ->
  post (unmarshaller raw) (fun x => exists f, raw = f ++ x.2 /\ packet_frame f x.1 /\ 4 <= zlen f).
Proof using Type.
  intros Hb Hl. unfold unmarshaller. eapply post_bind; [by apply post_RtcpHeader_unmarshal|]. intros [h buf] Hu (Hh & Hsuf & Hz). cbn [fst snd] in *.
  destruct (header_local _ _ _ Hu) as (x & -> & Hx & Hloc). apply bytes_ok_app in Hb as [_ Hb]. buf_step; [done|]. bool_lia. rewrite rtcp_header_write by done. cbn [mbind outcome_bind].
  destruct Hh as [Hc Hlen]. set (body := take (Z.to_nat (rh_length h * 4)) buf). assert (Hbody : zlen body = 4 * rh_length h) by (unfold body; unfold is_u16 in Hlen; zlia).
  eapply post_bind; [apply (dispatch_safe h body); [done|by apply Forall_take|done|zlia]|]. intros [p rest] Hd Hr. cbn [post fst snd] in *. subst rest. cbn [app].
  exists (x ++ body). split; [unfold body; by rewrite <- (assoc_L app), take_drop|]. split; [|zlia]. exists h, body. by rewrite Hloc.
Qed.

Lemma unmarshaller_of_frame f p r : bytes_ok f -> packet_frame f p -> unmarshaller (f ++ r) = Ok (p, r) /\ 4 <= zlen f.
Proof using Type.
  intros Hf (h & body & Hu & Hl & Hd). pose proof (post_Ok _ _ _ (post_RtcpHeader_unmarshal f Hf) Hu) as (Hh & _ & Hz). cbn [fst snd] in *.
  destruct (header_local _ _ _ Hu) as (x & -> & Hx & Hloc). split; [|zlia]. rewrite <- (assoc_L app). unfold unmarshaller. rewrite Hloc. cbn [mbind outcome_bind].
  rewrite ltb_false by zlia. rewrite rtcp_header_write by done. cbn [mbind outcome_bind]. rewrite take_front, drop_front by lia. by rewrite Hd.
Qed.

Lemma read_packets_exact fuel : forall raw, bytes_ok raw -> zlen raw < 65536 -> (length raw <= fuel)%nat ->
  post (read_packets fuel raw) (fun ps => exists fs, raw = concat fs /\ Forall2 packet_frame fs ps).
Proof using Type.
  induction fuel as [|fuel IH]; intros raw Hb Hl Hf; destruct raw as [|x raw]; cbn [read_packets]; try (by exists []; split; [|constructor]).
  { cbn in Hf. lia. }
  remember (x :: raw) as b. clear Heqb. eapply post_bind; [by apply unmarshaller_exact|]. intros [p r] _ (f & -> & Hfr & Hfl). cbn [fst snd] in *.
  apply bytes_ok_app in Hb as [Hbf Hbr]. eapply post_bind; [apply (IH r Hbr); unfold zlen in *; rewrite length_app in *; lia|].
  intros ps _ (fs & -> & Hfs). exists (f :: fs). split; [done|by constructor].
Qed.

Lemma read_packets_frames fs ps : Forall2 packet_frame fs ps -> bytes_ok (concat fs) -> forall fuel, (length (concat fs) <= fuel)%nat -> read_packets fuel (concat fs) = Ok ps.
Proof using Type.
  induction 1 as [|f p fs ps Hf Hfs IH]; intros Hb fuel Hl; [by destruct fuel|]. cbn [concat] in *. apply bytes_ok_app in Hb as [Hbf Hbr].
  destruct (unmarshaller_of_frame f p (concat fs) Hbf Hf) as [Hu H4]. rewrite length_app in Hl. destruct fuel as [|fuel]; [unfold zlen in H4; lia|].
  cbn [read_packets]. destruct (f ++ concat fs) eqn:He; [exfalso; apply app_eq_nil in He as [-> _]; revert H4; zlia|]. rewrite Hu. cbn [mbind outcome_bind].
  rewrite IH; [done|done|unfold zlen in H4; lia].
Qed.
End datagrams.


(** C20: Reading a datagram of less than 65536 octets ends without a panic whatever it holds,
    and it is accepted exactly when
    it is a sequence of packets each of which decodes by itself: how one packet is read does
    not depend on the others. *)
Theorem rtcp_unmarshal_exact (oc : OverflowChecks) (seg : Segmented) raw : bytes_ok raw -> zlen raw < 65536 ->
  no_panic (unmarshal_packets raw) /\
  forall ps, unmarshal_packets raw = Ok ps <-> ps <> [] /\ exists fs, raw = concat fs /\ Forall2 packet_frame fs ps.
Proof.
  intros Hb Hl. pose proof (read_packets_exact (length raw) raw Hb Hl (le_n _)) as Hp. split.
  - unfold unmarshal_packets, no_panic. eapply post_bind; [exact Hp|]. intros ps _ _. by destruct ps.
  - intros ps. unfold unmarshal_packets. split.
    + intros (ps' & Hr & He)%bind_Ok. pose proof (post_Ok _ _ _ Hp Hr) as Hfs. destruct ps'; [done|]. injection He as <-. done.
    + intros [Hne (fs & -> & Hfs)]. rewrite (read_packets_frames fs ps Hfs Hb) by done. cbn [mbind outcome_bind]. by destruct ps.
Qed.

(** ** Compound packets *)






(** * Packets that do not come back *)

(** A slice loss indication is written as transport feedback and read as payload feedback: a
    receiver gets a raw packet. *)
Lemma sli_comes_back_raw (oc : OverflowChecks) (seg : Segmented) p : sli_ok p ->
  exists b q, marshal_packets [PkSliceLossIndication p] = Ok b /\ unmarshal_packets b = Ok [PkRawPacket q].
Proof.
  intros Hp. destruct (packets_written [PkSliceLossIndication p] _ ltac:(by constructor) (Z.le_refl _)) as (b & Hw & Hl & H4 & Hu).
  eexists b, _. unfold marshal_packets. rewrite Hw. cbn [mbind outcome_bind]. rewrite Hl, Z.sub_diag, app_nil_r. split; [done|].
  unfold unmarshal_packets. rewrite Hu by (unfold zlen in *; cbn in *; lia). done.
Qed.

(** A slice loss indication as other implementations send it, payload feedback of format 2,
    makes the whole datagram fail. *)
Lemma sli_datagram_refused (oc : OverflowChecks) (seg : Segmented) h body r : rtcp_header_ok h -> zlen body = 4 * rh_length h -> 2 <= rh_length h ->
  rh_packet_type h = PT_PayloadSpecificFeedback -> rh_count h = FORMAT_SLI -> unmarshal_packets (rtcp_header_bytes h ++ body ++ r) = Err WrongType.
Proof.
  intros Hh Hl H2 Ht Hc. assert (Hu : unmarshaller (rtcp_header_bytes h ++ body ++ r) = Err WrongType).
  { rewrite (unmarshaller_frame (rtcp_header_bytes h) h) by (done || intros; by apply rtcp_header_read). unfold dispatch. rewrite Ht, Hc. change (FORMAT_SLI =? FORMAT_PLI) with false. change (FORMAT_SLI =? FORMAT_SLI) with true. cbv iota.
    unfold boxed_packet. cbn [unmarshal sli_Unmarshal]. unfold sli_unmarshal, RTCP_HEADER_LENGTH, SLI_OFFSET. rewrite ltb_false by zlia. rewrite rtcp_header_read by done. cbn [mbind outcome_bind].
    rewrite ltb_false by zlia. unfold wrong_type. by rewrite Ht, bool_decide_false. }
  unfold unmarshal_packets. set (raw := rtcp_header_bytes h ++ body ++ r) in *. assert (Hn : raw <> []) by done. destruct raw; [done|]. cbn [read_packets length]. by rewrite Hu.
Qed.

(** The type of a packet of an unknown type is lost: the raw packet holds type 0. *)
Lemma unknown_type_lost : unmarshal_packets (H:=true) (H0:=zlen) [128; 208; 0; 1; 1; 2; 3; 4] = Ok [PkRawPacket (mkRawPacket [128; 0; 0; 1; 1; 2; 3; 4])].
Proof. vm_compute. reflexivity. Qed.

(** A loss report of an odd number of chunks announces one chunk less than it holds, and what
    is written is not read. *)
Definition odd_loss : XrBlock := XrRle (mkRLEReportBlock true 0 9 1 30 [16400; 16401; 1]).
Definition odd_loss_octets : bytes := [160; 207; 0; 6; 0; 0; 0; 5; 1; 0; 0; 3; 0; 0; 0; 9; 0; 1; 0; 30; 64; 16; 64; 17; 0; 1; 0; 2].
Lemma xr_odd_chunks_refused : marshal_packets [PkExtendedReport (mkExtendedReport 5 [odd_loss])] = Ok odd_loss_octets /\
  unmarshal_packets (H:=true) (H0:=zlen) odd_loss_octets = Err PacketTooShort.
Proof. by vm_compute. Qed.

(** * Witnesses *)

Definition sample_report : ReceiverReport := mkReceiverReport 1 [mkReceptionReport 2 5 7 900 3 0 0] [].
Definition sample_names : SourceDescription := mkSourceDescription [mkSourceDescriptionChunk 1 [mkSourceDescriptionItem SdesCname [97; 98]]].
Definition sample_packets : list AnyPacket :=
  [PkReceiverReport sample_report; PkSourceDescription sample_names; PkPictureLossIndication (mkPictureLossIndication 1 2)].
Definition sample_datagram : bytes :=
  [129; 201; 0; 7; 0; 0; 0; 1; 0; 0; 0; 2; 5; 0; 0; 7; 0; 0; 3; 132; 0; 0; 0; 3; 0; 0; 0; 0; 0; 0; 0; 0;
   129; 202; 0; 3; 0; 0; 0; 1; 1; 2; 97; 98; 0; 0; 0; 3; 129; 206; 0; 2; 0; 0; 0; 1; 0; 0; 0; 2].



(** The same packets as a datagram, and one cut short. *)
Lemma rtcp_unmarshal_exact_witness :
  (exists fs, sample_datagram = concat fs /\ Forall2 (packet_frame (H:=true) (H0:=zlen)) fs sample_packets) /\
  unmarshal_packets (H:=true) (H0:=zlen) (take 59 sample_datagram) = Err PacketTooShort.
Proof.
  split; [|by vm_compute]. refine (proj2 (proj1 (proj2 (rtcp_unmarshal_exact true zlen sample_datagram _ _) sample_packets) _)); [repeat constructor; done|done|by vm_compute].
Defined.

