(* ===== verification/Transport.v ===== *)
(** Transport contexts ([rtc-shared/src/transport.rs]): addresses, the transport protocol,
    congestion notification, and messages tagged with the time and the path they take. *)
From S2P Require Import Prelude.

(** [std::net::IpAddr] by its octets. *)
Inductive IpAddr := IpV4 (octets : bytes) | IpV6 (octets : bytes).
Record SocketAddr := mkSocketAddr { sa_ip : IpAddr; sa_port : Z }.
Definition octets (ip : IpAddr) : bytes := match ip with IpV4 o | IpV6 o => o end.
Definition ip_ok (ip : IpAddr) : Prop :=
  bytes_ok (octets ip) /\ zlen (octets ip) = match ip with IpV4 _ => 4 | IpV6 _ => 16 end.

Inductive EcnCodepoint := Ect0 | Ect1 | Ce.
Definition EcnCodepoint_from_bits (x : Z) : option EcnCodepoint :=
  match Z.land x 3 with 2 => Some Ect0 | 1 => Some Ect1 | 3 => Some Ce | _ => None end.

Inductive TransportProtocol := UDP | TCP.
Record TransportContext := mkTransportContext {
  local_addr : SocketAddr;
  peer_addr : SocketAddr;
  transport_protocol : TransportProtocol;
  ecn : option EcnCodepoint
}.
Definition TransportContext_default : TransportContext :=
  mkTransportContext (mkSocketAddr (IpV4 [127; 0; 0; 1]) 0) (mkSocketAddr (IpV4 [127; 0; 0; 1]) 65535) UDP None.

(** A message with the instant it was received or is sent at. *)
Record TransportMessage (T : Type) := mkTransportMessage { tm_now : Z; tm_transport : TransportContext; tm_message : T }.
Arguments mkTransportMessage {T}.
Arguments tm_now {T}.
Arguments tm_transport {T}.
Arguments tm_message {T}.

Record FourTuple := mkFourTuple { ft_local_addr : SocketAddr; ft_peer_addr : SocketAddr }.
Definition FourTuple_from (c : TransportContext) : FourTuple := mkFourTuple (local_addr c) (peer_addr c).

#[export] Instance IpAddr_eq_dec : EqDecision IpAddr. Proof. solve_decision. Defined.
#[export] Instance SocketAddr_eq_dec : EqDecision SocketAddr. Proof. solve_decision. Defined.
#[export] Instance TransportProtocol_eq_dec : EqDecision TransportProtocol. Proof. solve_decision. Defined.
#[export] Instance FourTuple_eq_dec : EqDecision FourTuple. Proof. solve_decision. Defined.
