(* ===== verification/NetText.v ===== *)
(** The text of numbers and addresses, as the standard library writes and reads it: decimal
    integers ([Display], [FromStr]), [IpAddr] ([core::net::parser] and [Display]), and words
    separated by white space.  Rust strings are their UTF-8 bytes.  Proved: every number and
    every address is read back from its text. *)
From stdpp Require Import strings.
From S2P Require Import Prelude Transport.

(** A string literal. *)
Definition str (s : string) : bytes := (fun a => Z.of_nat (Ascii.nat_of_ascii a)) <$> String.list_ascii_of_string s.

(** * Integers *)

Definition digit_char (d : Z) : Z := if d <? 10 then 48 + d else 87 + d.
(** [char::to_digit]. *)
Definition to_digit (radix c : Z) : option Z :=
  let d := if (48 <=? c) && (c <=? 57) then Some (c - 48)
           else if (97 <=? c) && (c <=? 122) then Some (c - 87)
           else if (65 <=? c) && (c <=? 90) then Some (c - 55) else None in
  match d with Some d => if d <? radix then Some d else None | None => None end.

Fixpoint digits (fuel : nat) (radix n : Z) (acc : bytes) : bytes :=
  match fuel with
  | O => acc
  | S fuel =>
      let acc := digit_char (n mod radix) :: acc in
      if n / radix =? 0 then acc else digits fuel radix (n / radix) acc
  end.
(** [{}] of an unsigned integer of at most 64 bits, [{:x}] of a [u16]. *)
Definition display (n : Z) : bytes := digits 20 10 n [].
Definition display_hex (n : Z) : bytes := digits 4 16 n [].

Fixpoint parse_digits (max acc : Z) (s : bytes) : option Z :=
  match s with
  | [] => Some acc
  | c :: s =>
      match to_digit 10 c with
      | Some d => if acc * 10 + d <=? max then parse_digits max (acc * 10 + d) s else None
      | None => None
      end
  end.
(** [str::parse] of an unsigned integer with largest value [max]. *)
Definition parse_uint (max : Z) (s : bytes) : option Z :=
  match s with
  | [] => None
  | [43] => None
  | 43 :: s => parse_digits max 0 s
  | s => parse_digits max 0 s
  end.

(** * Addresses *)

Definition ipv4_text (o : bytes) : bytes :=
  match o with [a; b; c; d] => display a ++ [46] ++ display b ++ [46] ++ display c ++ [46] ++ display d | _ => [] end.

Fixpoint segments (o : bytes) : list Z := match o with a :: b :: o => a * 256 + b :: segments o | _ => [] end.
Fixpoint fmt_subslice (chunk : list Z) : bytes :=
  match chunk with
  | [] => []
  | [x] => display_hex x
  | x :: tail => display_hex x ++ [58] ++ fmt_subslice tail
  end.
(** The longest run of zero segments, the first of them: its start and length. *)
Record Span := mkSpan { sp_start : nat; sp_len : nat }.
Fixpoint zero_span (i : nat) (l : list Z) (longest current : Span) : Span :=
  match l with
  | [] => longest
  | x :: l =>
      if x =? 0 then
        let current := mkSpan (if (sp_len current =? 0)%nat then i else sp_start current) (S (sp_len current)) in
        zero_span (S i) l (if (sp_len longest <? sp_len current)%nat then current else longest) current
      else zero_span (S i) l longest (mkSpan 0 0)
  end.
Definition ipv6_text (o : bytes) : bytes :=
  let s := segments o in
  if bool_decide (take 12 o = zeros 10 ++ [255; 255]) then str "::ffff:" ++ ipv4_text (drop 12 o)
  else
    let zeroes := zero_span 0 s (mkSpan 0 0) (mkSpan 0 0) in
    if (1 <? sp_len zeroes)%nat
    then fmt_subslice (take (sp_start zeroes) s) ++ [58; 58] ++ fmt_subslice (drop (sp_start zeroes + sp_len zeroes) s)
    else fmt_subslice s.
(** [IpAddr::to_string]. *)
Definition ip_to_string (ip : IpAddr) : bytes := match ip with IpV4 o => ipv4_text o | IpV6 o => ipv6_text o end.

(** A parser takes the bytes left and gives back a value and the bytes after it; a failure
    leaves the input where it was. *)
Fixpoint read_digits (radix max_digits : Z) (s : bytes) (result count : Z) : option (Z * Z * bytes) :=
  match s with
  | c :: s' =>
      match to_digit radix c with
      | Some d => if max_digits <? count + 1 then None else read_digits radix max_digits s' (result * radix + d) (count + 1)
      | None => Some (result, count, s)
      end
  | [] => Some (result, count, [])
  end.
Definition read_number (radix max_digits : Z) (allow_zero_prefix : bool) (limit : Z) (s : bytes) : option (Z * bytes) :=
  '(result, count, rest) ← read_digits radix max_digits s 0 0;
  if count =? 0 then None
  else if negb allow_zero_prefix && match s with 48 :: _ => true | _ => false end && (1 <? count) then None
  else if result <=? limit then Some (result, rest) else None.
Definition read_separator {A} (sep : Z) (first : bool) (inner : bytes -> option (A * bytes)) (s : bytes) : option (A * bytes) :=
  if first then inner s else match s with c :: s => if c =? sep then inner s else None | [] => None end.

Definition read_octet (first : bool) (s : bytes) : option (Z * bytes) := read_separator 46 first (read_number 10 3 false 255) s.
Definition read_ipv4_addr (s : bytes) : option (bytes * bytes) :=
  '(a, s) ← read_octet true s;
  '(b, s) ← read_octet false s;
  '(c, s) ← read_octet false s;
  '(d, s) ← read_octet false s;
  Some ([a; b; c; d], s).

(** [read_groups] with [limit] groups left to read, the first of all or not: the groups,
    whether an embedded IPv4 address ended them, and the bytes left. *)
Fixpoint read_groups (limit : nat) (first : bool) (s : bytes) : list Z * bool * bytes :=
  match limit with
  | O => ([], false, s)
  | S limit' =>
      match (if (0 <? limit')%nat then read_separator 58 first read_ipv4_addr s else None) with
      | Some (o, s) => (segments o, true, s)
      | None =>
          match read_separator 58 first (read_number 16 4 true 65535) s with
          | Some (g, s) => let '(gs, v4, s) := read_groups limit' false s in (g :: gs, v4, s)
          | None => ([], false, s)
          end
      end
  end.
Definition segment_octets (gs : list Z) : bytes := flat_map (fun g => [g / 256; g mod 256]) gs.
Definition read_ipv6_addr (s : bytes) : option (bytes * bytes) :=
  let '(head, head_ipv4, s) := read_groups 8 true s in
  if (length head =? 8)%nat then Some (segment_octets head, s)
  else if head_ipv4 then None
  else
    match s with
    | 58 :: 58 :: s =>
        let limit := (8 - (length head + 1))%nat in
        let '(tail, _, s) := read_groups limit true s in
        Some (segment_octets (head ++ replicate (8 - length head - length tail) 0 ++ tail), s)
    | _ => None
    end.
(** [str::parse::<IpAddr>]. *)
Definition parse_ip (s : bytes) : option IpAddr :=
  let r := match read_ipv4_addr s with
           | Some (o, s) => Some (IpV4 o, s)
           | None => match read_ipv6_addr s with Some (o, s) => Some (IpV6 o, s) | None => None end
           end in
  match r with Some (ip, []) => Some ip | _ => None end.

(** * Words *)

(** How many bytes of [s] are one white space character ([char::is_whitespace]). *)
Definition whitespace (s : bytes) : nat :=
  match s with
  | 194 :: (133 | 160) :: _ => 2
  | 225 :: 154 :: 128 :: _ => 3
  | 226 :: 128 :: c :: _ => if ((128 <=? c) && (c <=? 138)) || (c =? 168) || (c =? 169) || (c =? 175) then 3 else 0
  | 226 :: 129 :: 159 :: _ => 3
  | 227 :: 128 :: 128 :: _ => 3
  | c :: _ => if ((9 <=? c) && (c <=? 13)) || (c =? 32) then 1 else 0
  | [] => 0
  end.
(** [str::split_whitespace], the bytes of the current word in [word]; [skip] bytes of a white
    space character are still to be passed over. *)
Fixpoint split_words (s word : bytes) (skip : nat) : list bytes :=
  let flush := match word with [] => [] | _ => [word] end in
  match s with
  | [] => flush
  | c :: r =>
      match skip with
      | S skip => split_words r [] skip
      | O =>
          match whitespace s with
          | O => split_words r (word ++ [c]) 0
          | S n => flush ++ split_words r [] n
          end
      end
  end.
Definition split_whitespace (s : bytes) : list bytes := split_words s [] 0.

Definition to_ascii_lowercase (s : bytes) : bytes := map (fun c => if (65 <=? c) && (c <=? 90) then c + 32 else c) s.
Definition starts_with (s p : bytes) : bool := bool_decide (take (length p) s = p).
Definition ends_with (s p : bytes) : bool := bool_decide ((length p <= length s)%nat /\ drop (length s - length p) s = p).

(** * Reading back integers *)

Definition dval (radix r : Z) (s : bytes) : Z := foldl (fun r c => r * radix + default 0 (to_digit radix c)) r s.
Definition is_digit (radix c : Z) : Prop := is_Some (to_digit radix c).

Lemma to_digit_char radix d : 2 <= radix <= 36 -> 0 <= d < radix -> to_digit radix (digit_char d) = Some d.
Proof.
  intros Hr Hd. unfold to_digit, digit_char. destruct (Z.ltb_spec d 10).
  - rewrite (proj2 (Z.leb_le 48 _)), (proj2 (Z.leb_le _ 57)) by lia. cbn [andb]. replace (48 + d - 48) with d by lia. by rewrite (proj2 (Z.ltb_lt d radix)) by lia.
  - rewrite (proj2 (Z.leb_gt _ 57)), andb_false_r by lia. rewrite (proj2 (Z.leb_le 97 _)), (proj2 (Z.leb_le _ 122)) by lia. cbn [andb].
    replace (87 + d - 87) with d by lia. by rewrite (proj2 (Z.ltb_lt d radix)) by lia.
Qed.

Lemma digits_S fuel radix n acc :
  digits (S fuel) radix n acc = if n / radix =? 0 then digit_char (n mod radix) :: acc else digits fuel radix (n / radix) (digit_char (n mod radix) :: acc).
Proof. done. Qed.

Lemma digits_spec radix : 2 <= radix <= 36 -> forall fuel n acc, 0 <= n < radix ^ Z.of_nat (S fuel) ->
  exists ds, digits (S fuel) radix n acc = ds ++ acc /\ Forall (is_digit radix) ds /\ ds <> [] /\ (length ds <= S fuel)%nat /\
    dval radix 0 ds = n /\ (ds = [48] \/ head ds <> Some 48).
Proof.
  intros Hr fuel. induction fuel as [|fuel IH]; intros n acc Hn.
  - assert (Hn' : 0 <= n < radix) by (change (Z.of_nat 1) with 1 in Hn; lia). cbn [digits]. rewrite Z.mod_small, Z.div_small by lia. cbn [Z.eqb].
    exists [digit_char n]. split_and!; [done| |done|done|cbn; by rewrite to_digit_char by lia|].
    + constructor; [|constructor]. eexists. by apply to_digit_char.
    + unfold digit_char. destruct (Z.ltb_spec n 10); cbn; [|right; intros [=]; lia]. destruct (Z.eq_dec n 0) as [->|]; [by left|right; intros [=]; lia].
  - rewrite digits_S. pose proof (Z.div_mod n radix ltac:(lia)) as Hd. pose proof (Z.mod_pos_bound n radix ltac:(lia)) as Hm.
    assert (Hc : is_digit radix (digit_char (n mod radix))) by (eexists; by apply to_digit_char).
    destruct (Z.eqb_spec (n / radix) 0) as [E|E].
    + assert (Hn' : n = n mod radix) by (rewrite E in Hd; lia). exists [digit_char (n mod radix)].
      split_and!; [done|by constructor|done|cbn; lia|cbn; rewrite to_digit_char by lia; cbn; lia|].
      unfold digit_char. destruct (Z.ltb_spec (n mod radix) 10); cbn; [|right; intros [=]; lia].
      destruct (Z.eq_dec (n mod radix) 0) as [->|]; [by left|right; intros [=]; lia].
    + assert (Hq : 0 <= n / radix < radix ^ Z.of_nat (S fuel)).
      { split; [apply Z.div_pos; lia|]. apply Z.div_lt_upper_bound; [lia|]. replace (Z.of_nat (S (S fuel))) with (1 + Z.of_nat (S fuel)) in Hn by lia.
        rewrite Z.pow_add_r in Hn by lia. lia. }
      destruct (IH (n / radix) (digit_char (n mod radix) :: acc) Hq) as (ds & -> & Hf & Hne & Hl & Hv & Hz).
      exists (ds ++ [digit_char (n mod radix)]). split_and!.
      * by rewrite <- app_assoc.
      * apply Forall_app. split; [done|by constructor].
      * by destruct ds.
      * rewrite length_app. cbn. lia.
      * unfold dval in *. rewrite foldl_app, Hv. cbn. rewrite to_digit_char by lia. cbn. lia.
      * right. destruct Hz as [->|Hz]; [|by destruct ds]. exfalso. apply E. rewrite <- Hv. unfold dval. cbn [foldl]. change 48 with (digit_char 0). rewrite to_digit_char by lia. done.
Qed.

Lemma dval_app radix r s1 s2 : dval radix r (s1 ++ s2) = dval radix (dval radix r s1) s2.
Proof. apply foldl_app. Qed.

Lemma to_digit_range radix c d : to_digit radix c = Some d -> 0 <= d < radix.
Proof.
  unfold to_digit. intros H. repeat case_match; simplify_eq; rewrite ?andb_true_iff, ?Z.leb_le, ?Z.ltb_lt in *; lia.
Qed.

Lemma dval_mono s r : 0 <= r -> r <= dval 10 r s.
Proof.
  revert r. induction s as [|c s IH]; intros r Hr; cbn; [lia|]. destruct (to_digit 10 c) as [d|] eqn:E; cbn.
  - apply to_digit_range in E. etrans; [|apply IH]; lia.
  - etrans; [|apply IH]; lia.
Qed.

Lemma parse_digits_run max s r : Forall (is_digit 10) s -> 0 <= r -> dval 10 r s <= max -> parse_digits max r s = Some (dval 10 r s).
Proof.
  revert r. induction s as [|c s IH]; intros r Hf Hr Hm; [done|]. apply Forall_cons in Hf as [[d Hd] Hf]. pose proof (to_digit_range _ _ _ Hd).
  cbn in *. rewrite Hd in *. cbn in *. pose proof (dval_mono s (r * 10 + d) ltac:(lia)). unfold dval in *.
  rewrite (proj2 (Z.leb_le _ max)) by lia. apply IH; [done|lia|done].
Qed.

(** An integer is parsed from its text. *)
Lemma parse_display n max : 0 <= n <= max -> max < 10 ^ 20 -> parse_uint max (display n) = Some n.
Proof.
  intros Hn Hm. destruct (digits_spec 10 ltac:(lia) 19 n [] ltac:(change (Z.of_nat 20) with 20; lia)) as (ds & Hd & Hf & Hne & _ & Hv & _).
  unfold display, parse_uint. rewrite Hd, app_nil_r. destruct ds as [|c ds]; [done|]. rewrite <- Hv.
  assert (Hc : c <> 43) by (intros ->; apply Forall_inv in Hf as [? ?]; done).
  assert (Hp : parse_digits max 0 (c :: ds) = Some (dval 10 0 (c :: ds))) by (apply parse_digits_run; [done|lia|rewrite Hv; lia]). rewrite <- Hp.
  clear -Hc. destruct c as [|p|p]; [by destruct ds| |by destruct ds]. do 6 (destruct p as [p|p|]; try by destruct ds). 
Qed.

(** * Reading back addresses *)

(** The text that follows does not go on with a digit. *)
Definition stops (radix : Z) (s : bytes) : Prop := match s with [] => True | c :: _ => to_digit radix c = None end.

Lemma read_digits_run radix max_digits s rest r count : Forall (is_digit radix) s -> stops radix rest -> count + zlen s <= max_digits ->
  read_digits radix max_digits (s ++ rest) r count = Some (dval radix r s, count + zlen s, rest).
Proof.
  revert r count. induction s as [|c s IH]; intros r count Hf Hs Hm; cbn [app].
  - unfold zlen. cbn. rewrite Z.add_0_r. destruct rest as [|c rest]; [done|]. cbn in Hs. cbn. by rewrite Hs.
  - apply Forall_cons in Hf as [[d Hd] Hf]. rewrite zlen_cons in *. pose proof (zlen_nonneg s). cbn [read_digits]. rewrite Hd.
    rewrite (proj2 (Z.ltb_ge max_digits _)) by lia. rewrite IH by (done || lia). unfold dval. cbn. rewrite Hd. cbn. do 3 f_equal. lia.
Qed.

Lemma read_number_run radix k zero limit n rest : 2 <= radix <= 36 -> 0 <= n <= limit -> limit < radix ^ Z.of_nat (S k) -> stops radix rest ->
  read_number radix (Z.of_nat (S k)) zero limit (digits (S k) radix n [] ++ rest) = Some (n, rest).
Proof.
  intros Hr Hn Hl Hs. destruct (digits_spec radix Hr k n [] ltac:(lia)) as (ds & -> & Hf & Hne & Hlen & Hv & Hz). rewrite app_nil_r.
  unfold read_number. rewrite read_digits_run by (done || (unfold zlen; lia)). cbn [mbind option_bind]. rewrite Hv, Z.add_0_l.
  rewrite (proj2 (Z.eqb_neq (zlen ds) 0)) by (destruct ds; [done|rewrite zlen_cons; pose proof (zlen_nonneg ds); lia]).
  replace (negb zero && _ && _) with false; [by rewrite (proj2 (Z.leb_le n limit)) by lia|]. symmetry. destruct zero; [done|]. cbn [negb andb].
  destruct Hz as [->|Hz]; [apply andb_false_r|]. destruct ds as [|c ds]; [done|]. cbn in Hz. cbn [app]. apply andb_false_intro1.
  destruct c as [|p|p]; [done| |done]. do 6 (destruct p as [p|p|]; try done).
Qed.

Lemma display_three n : 0 <= n <= 255 -> display n = digits 3 10 n [].
Proof.
  intros Hn. apply (bool_decide_eq_true_1 (display n = digits 3 10 n [])). revert n Hn.
  assert (H : forall n, 0 <= n < Z.of_nat 256 -> bool_decide (display n = digits 3 10 n []) = true) by (apply bounded_forall; vm_compute; reflexivity).
  intros n Hn. apply H. lia.
Qed.

Lemma read_octet_first n rest : 0 <= n <= 255 -> stops 10 rest -> read_octet true (display n ++ rest) = Some (n, rest).
Proof. intros Hn Hs. unfold read_octet, read_separator. rewrite display_three by done. apply (read_number_run 10 2 false 255); done || lia. Qed.
Lemma read_octet_next n rest : 0 <= n <= 255 -> stops 10 rest -> read_octet false ([46] ++ display n ++ rest) = Some (n, rest).
Proof. apply read_octet_first. Qed.

Lemma read_ipv4_run o rest : bytes_ok o -> zlen o = 4 -> stops 10 rest -> read_ipv4_addr (ipv4_text o ++ rest) = Some (o, rest).
Proof.
  intros Hb Hl Hs. destruct o as [|a [|b [|c [|d [|]]]]]; try (unfold zlen in Hl; cbn in Hl; lia). unfold bytes_ok in Hb. rewrite !Forall_cons in Hb. destruct Hb as (Ha & Hb & Hc & Hd & _).
  unfold is_u8 in *. unfold ipv4_text, read_ipv4_addr. rewrite <- !(assoc_L app).
  rewrite read_octet_first by (done || lia). cbn [mbind option_bind]. do 3 (rewrite read_octet_next by (done || lia); cbn [mbind option_bind]). done.
Qed.

(** Text that is not a dotted address: its decimal digits do not end in a dot. *)
Lemma read_ipv4_none s : (forall r c rest, read_digits 10 3 s 0 0 = Some (r, c, rest) -> c <> 0 -> head rest <> Some 46) -> read_ipv4_addr s = None.
Proof.
  intros H. unfold read_ipv4_addr. change (read_octet true s) with (read_number 10 3 false 255 s). unfold read_number.
  destruct (read_digits 10 3 s 0 0) as [[[r c] rest]|] eqn:E; [|done]. cbn [mbind option_bind]. destruct (Z.eqb_spec c 0) as [|Hc]; [done|].
  destruct (negb false && _ && _); [done|]. destruct (r <=? 255); [|done]. specialize (H _ _ _ eq_refl Hc).
  assert (Hn : read_octet false rest = None); [|cbn [mbind option_bind]; by rewrite Hn]. destruct rest as [|x rest]; [done|]. cbn in H. unfold read_octet, read_separator. by rewrite (proj2 (Z.eqb_neq x 46)) by congruence.
Qed.

Lemma read_digits_rest radix m s : forall r c r' c' rest, read_digits radix m s r c = Some (r', c', rest) -> exists p, s = p ++ rest /\ Forall (is_digit radix) p.
Proof.
  induction s as [|x s IH]; intros r c r' c' rest; cbn; [intros [= _ _ <-]; by exists []|].
  destruct (to_digit radix x) as [d|] eqn:E; [|intros [= _ _ <-]; by exists []]. destruct (m <? c + 1); [done|].
  intros (p & -> & Hp)%IH. exists (x :: p). split; [done|]. constructor; [by exists d|done].
Qed.

Lemma digit_16_10 c : to_digit 16 c = None -> to_digit 10 c = None.
Proof. unfold to_digit. intros H. repeat case_match; simplify_eq; rewrite ?Z.ltb_lt, ?Z.ltb_ge in *; done || lia. Qed.
Lemma digit_10_16 c : is_digit 10 c -> is_digit 16 c.
Proof. intros [d Hd]. unfold is_digit. destruct (to_digit 16 c) eqn:E; [done|]. apply digit_16_10 in E. congruence. Qed.

Lemma read_ipv4_hex ds rest : Forall (is_digit 16) ds -> stops 16 rest -> head rest <> Some 46 -> read_ipv4_addr (ds ++ rest) = None.
Proof.
  intros Hf Hs Hh. apply read_ipv4_none. intros r c rest' (p & Hp & Hpf)%read_digits_rest _ Hd.
  apply app_eq_inv in Hp as [(k & -> & ->)|(k & -> & ->)].
  - destruct k as [|x k]; [done|]. cbn in Hd. injection Hd as ->. apply Forall_app in Hf as [_ [[? ?] _]%Forall_cons]. done.
  - destruct k as [|x k]; [done|]. cbn in Hs. apply Forall_app in Hpf as [_ [Hx _]%Forall_cons]. apply digit_10_16 in Hx as [? ?]. congruence.
Qed.

Lemma display_hex_digits g : 0 <= g <= 65535 -> Forall (is_digit 16) (display_hex g).
Proof. intros Hg. destruct (digits_spec 16 ltac:(lia) 3 g [] ltac:(change (16 ^ Z.of_nat 4) with 65536; lia)) as (ds & Hd & Hf & _). unfold display_hex. by rewrite Hd, app_nil_r. Qed.
Lemma read_hex g rest : 0 <= g <= 65535 -> stops 16 rest -> read_number 16 4 true 65535 (display_hex g ++ rest) = Some (g, rest).
Proof. intros Hg Hs. apply (read_number_run 16 3 true 65535); [lia|lia|done|done]. Qed.

(** Where the groups of an address end: at the end of the text or at [::]. *)
Definition group_end (rest : bytes) : Prop := rest = [] \/ exists r, rest = 58 :: 58 :: r.
Definition more_groups (gs : list Z) : bytes := flat_map (fun g => 58 :: display_hex g) gs.

Lemma more_groups_stop gs rest : group_end rest -> stops 16 (more_groups gs ++ rest) /\ head (more_groups gs ++ rest) <> Some 46.
Proof. intros [->|[r ->]]; destruct gs; done. Qed.

Lemma fmt_subslice_cons g gs : fmt_subslice (g :: gs) = display_hex g ++ more_groups gs.
Proof.
  revert g. induction gs as [|h gs IH]; intros g; [unfold more_groups; cbn; by rewrite app_nil_r|].
  change (fmt_subslice (g :: h :: gs)) with (display_hex g ++ [58] ++ fmt_subslice (h :: gs)). by rewrite IH.
Qed.

Lemma read_groups_next gs : forall limit rest, Forall (fun g => 0 <= g <= 65535) gs -> (length gs <= limit)%nat -> group_end rest ->
  read_groups limit false (more_groups gs ++ rest) = (gs, false, rest).
Proof.
  induction gs as [|g gs IH]; intros limit rest Hg Hl He.
  - unfold more_groups. cbn [flat_map app]. destruct limit as [|limit]; [done|]. cbn [read_groups]. destruct He as [->|[r ->]]; [by destruct limit|].
    destruct limit; done.
  - apply Forall_cons in Hg as [Hg Hgs]. cbn in Hl. destruct limit as [|limit]; [lia|]. destruct (more_groups_stop gs rest He) as [Hs Hh].
    unfold more_groups. cbn [flat_map]. rewrite <- (assoc_L app). fold (more_groups gs). cbn [read_groups app]. unfold read_separator. rewrite Z.eqb_refl.
    rewrite read_ipv4_hex by (try apply display_hex_digits; done). replace (if (0 <? limit)%nat then _ else None) with (@None (bytes * bytes)) by (by destruct limit).
    rewrite read_hex by done. by rewrite IH by (done || lia).
Qed.

Lemma read_groups_first gs limit rest : Forall (fun g => 0 <= g <= 65535) gs -> (length gs <= limit)%nat -> group_end rest ->
  read_groups limit true (fmt_subslice gs ++ rest) = (gs, false, rest).
Proof.
  intros Hg Hl He. destruct gs as [|g gs].
  - cbn [fmt_subslice app]. destruct limit as [|limit]; [done|]. cbn [read_groups]. destruct He as [->|[r ->]]; by destruct limit.
  - apply Forall_cons in Hg as [Hg Hgs]. cbn in Hl. destruct limit as [|limit]; [lia|]. destruct (more_groups_stop gs rest He) as [Hs Hh].
    rewrite fmt_subslice_cons, <- (assoc_L app). cbn [read_groups]. unfold read_separator.
    rewrite read_ipv4_hex by (try apply display_hex_digits; done). replace (if (0 <? limit)%nat then _ else None) with (@None (bytes * bytes)) by (by destruct limit).
    rewrite read_hex by done. by rewrite read_groups_next by (done || lia).
Qed.

Lemma fmt_no_ipv4 gs rest : Forall (fun g => 0 <= g <= 65535) gs -> group_end rest -> read_ipv4_addr (fmt_subslice gs ++ rest) = None.
Proof.
  intros Hg He. destruct gs as [|g gs]; [by destruct He as [->|[r ->]]|]. apply Forall_cons in Hg as [Hg Hgs]. rewrite fmt_subslice_cons, <- (assoc_L app).
  destruct (more_groups_stop gs rest He). apply read_ipv4_hex; [by apply display_hex_digits|done|done].
Qed.

Lemma segments_octets o : bytes_ok o -> (exists n, length o = (2 * n)%nat) -> segment_octets (segments o) = o /\ Forall (fun g => 0 <= g <= 65535) (segments o) /\
  length o = (2 * length (segments o))%nat.
Proof.
  intros Hb [n Hn]. revert o Hb Hn. induction n as [|n IH]; intros o Hb Hn; [by destruct o|]. destruct o as [|a [|b o]]; [cbn in Hn; lia..|].
  unfold bytes_ok in Hb. rewrite !Forall_cons in Hb. destruct Hb as (Ha & Hb & Ho). cbn [length] in Hn. destruct (IH o Ho ltac:(lia)) as (E & Hf & Hl). unfold is_u8 in *. cbn [segments length].
  unfold segment_octets in *. cbn [flat_map]. rewrite E. split_and!; [|constructor; [lia|done]|lia]. cbn [app]. f_equal; [|f_equal]; mlia.
Qed.

Lemma read_groups_S limit first s : read_groups (S limit) first s =
  match (if (0 <? limit)%nat then read_separator 58 first read_ipv4_addr s else None) with
  | Some (o, r) => (segments o, true, r)
  | None =>
      match read_separator 58 first (read_number 16 4 true 65535) s with
      | Some (g, r) => let '(gs, v4, r) := read_groups limit false r in (g :: gs, v4, r)
      | None => ([], false, s)
      end
  end.
Proof. done. Qed.

(** [z] is a run of zeros of [l] that ends by position [e]. *)
Definition zero_run (l : list Z) (e : nat) (z : Span) : Prop :=
  (sp_start z + sp_len z <= e)%nat /\ forall j, (sp_start z <= j < sp_start z + sp_len z)%nat -> l !! j = Some 0.

Lemma zero_span_run l rest : forall pre longest current, l = pre ++ rest -> zero_run l (length pre) longest -> zero_run l (length pre) current ->
  (sp_len current <> 0%nat -> sp_start current + sp_len current = length pre)%nat -> zero_run l (length l) (zero_span (length pre) rest longest current).
Proof.
  induction rest as [|x rest IH]; intros pre longest current Hl Hlo Hcu He; cbn [zero_span]; [by rewrite Hl, app_nil_r in *|].
  replace (S (length pre)) with (length (pre ++ [x])) by (rewrite length_app; cbn; lia).
  assert (Hl' : l = (pre ++ [x]) ++ rest) by (by rewrite <- app_assoc). assert (Hx : l !! length pre = Some x) by (rewrite Hl; by apply list_lookup_middle).
  assert (Hlen : length (pre ++ [x]) = S (length pre)) by (rewrite length_app; cbn; lia).
  assert (Hmono : zero_run l (length (pre ++ [x])) longest) by (destruct Hlo; split; [lia|done]).
  destruct (Z.eqb_spec x 0) as [->|].
  - set (cur := mkSpan _ _). assert (Hc : zero_run l (length (pre ++ [0])) cur /\ (sp_start cur + sp_len cur = length (pre ++ [0%Z]))%nat).
    { unfold cur. destruct (Nat.eqb_spec (sp_len current) 0) as [E|E]; cbn [sp_start sp_len].
      - rewrite E. split; [split; cbn [sp_start sp_len]|]; [lia| |lia]. intros j Hj. replace j with (length pre) by lia. done.
      - specialize (He E). destruct Hcu as [Hcu1 Hcu2]. split; [split; cbn [sp_start sp_len]|]; [lia| |lia]. intros j Hj.
        destruct (decide (j = length pre)) as [->|]; [done|]. apply Hcu2. lia. }
    destruct Hc as [Hc Hce]. apply IH; [done|by case_match|done|done].
  - apply IH; [done|done|split; cbn; [lia|intros; lia]|done].
Qed.

Lemma zero_run_split l z : zero_run l (length l) z -> l = take (sp_start z) l ++ replicate (sp_len z) 0 ++ drop (sp_start z + sp_len z) l.
Proof.
  intros [He Hz]. rewrite <- (take_drop (sp_start z) l) at 1. f_equal. rewrite <- (take_drop (sp_len z) (drop (sp_start z) l)). rewrite drop_drop. f_equal.
  apply list_eq. intros i. destruct (decide (i < sp_len z)%nat).
  - rewrite lookup_take_lt, lookup_drop, Hz, lookup_replicate_2 by lia. done.
  - rewrite !lookup_ge_None_2; [done|rewrite length_replicate; lia|rewrite length_take, length_drop; lia].
Qed.

Lemma read_mapped o : bytes_ok o -> zlen o = 4 -> read_ipv6_addr (str "::ffff:" ++ ipv4_text o) = Some (zeros 10 ++ [255; 255] ++ o, []).
Proof.
  intros Hb Hl. unfold read_ipv6_addr. change (str "::ffff:" ++ ipv4_text o) with (58 :: 58 :: display_hex 65535 ++ 58 :: ipv4_text o).
  change (58 :: 58 :: display_hex 65535 ++ 58 :: ipv4_text o) with (fmt_subslice [] ++ 58 :: 58 :: display_hex 65535 ++ 58 :: ipv4_text o).
  rewrite read_groups_first by (apply Forall_nil_2 || (cbn; lia) || (right; by eexists)). cbn [length Nat.eqb fmt_subslice app Nat.sub Nat.add].
  assert (Hg : read_groups 7 true (display_hex 65535 ++ 58 :: ipv4_text o) = (65535 :: segments o, true, [])).
  { rewrite read_groups_S. change (0 <? 6)%nat with true. unfold read_separator at 1 2.
    rewrite read_ipv4_hex by (try apply display_hex_digits; done || lia). rewrite read_hex by done || lia.
    rewrite read_groups_S. change (0 <? 5)%nat with true. unfold read_separator at 1. rewrite Z.eqb_refl.
    rewrite <- (app_nil_r (ipv4_text o)). by rewrite read_ipv4_run. }
  rewrite Hg. destruct (segments_octets o Hb) as (Ho & _ & Hlo); [exists 2%nat; unfold zlen in Hl; lia|]. assert (Hls : length (segments o) = 2%nat) by (unfold zlen in Hl; lia).
  cbn [length]. rewrite Hls. f_equal. f_equal. unfold segment_octets in *. rewrite flat_map_app. cbn [flat_map]. by rewrite Ho.
Qed.

(** Every address is parsed from its text. *)
Lemma parse_ip_to_string ip : ip_ok ip -> parse_ip (ip_to_string ip) = Some ip.
Proof.
  intros [Hb Hl]. unfold parse_ip. destruct ip as [o|o]; cbn [octets ip_to_string] in *.
  - rewrite <- (app_nil_r (ipv4_text o)). by rewrite read_ipv4_run.
  - destruct (segments_octets o Hb) as (Ho & Hf & Hlo); [exists 8%nat; unfold zlen in Hl; lia|]. assert (Hls : length (segments o) = 8%nat) by (unfold zlen in Hl; lia).
    unfold ipv6_text. case_bool_decide as Hm.
    + assert (Hd : bytes_ok (drop 12 o) /\ zlen (drop 12 o) = 4) by (split; [by apply Forall_drop|unfold zlen in *; rewrite length_drop; lia]). destruct Hd.
      change (read_ipv4_addr (str "::ffff:" ++ ipv4_text (drop 12 o))) with (@None (bytes * bytes)). cbv iota.
      rewrite read_mapped by done. do 2 f_equal. rewrite (assoc_L app), <- Hm. apply take_drop.
    + pose proof (zero_span_run (segments o) (segments o) [] (mkSpan 0 0) (mkSpan 0 0) eq_refl) as Hz. cbn [length] in Hz.
      set (z := zero_span 0 (segments o) (mkSpan 0 0) (mkSpan 0 0)) in *. assert (Hrun : zero_run (segments o) (length (segments o)) z).
      { apply Hz; try done; split; cbn; try lia; intros; lia. } clear Hz.
      destruct (Nat.ltb_spec 1 (sp_len z)) as [H1|H1].
      * pose proof (zero_run_split _ _ Hrun) as Hs. set (hd := take (sp_start z) (segments o)) in *. set (tl := drop (sp_start z + sp_len z) (segments o)) in *.
        assert (Hlh : length hd = sp_start z) by (unfold hd; rewrite length_take; destruct Hrun; lia).
        assert (Hlt : (length tl = 8 - sp_start z - sp_len z)%nat) by (unfold tl; rewrite length_drop; lia). destruct Hrun as [Hrun _].
        assert (Hfh : Forall (fun g => 0 <= g <= 65535) hd) by (by apply Forall_take). assert (Hft : Forall (fun g => 0 <= g <= 65535) tl) by (by apply Forall_drop).
        change ([58; 58] ++ fmt_subslice tl) with (58 :: 58 :: fmt_subslice tl).
        assert (He : group_end (58 :: 58 :: fmt_subslice tl)) by (right; by eexists). rewrite fmt_no_ipv4 by done.
        unfold read_ipv6_addr. rewrite read_groups_first by (done || lia). rewrite (proj2 (Nat.eqb_neq (length hd) 8)) by lia.
        rewrite <- (app_nil_r (fmt_subslice tl)). rewrite read_groups_first by (done || lia || by left).
        replace (8 - length hd - length tl)%nat with (sp_len z) by lia. by rewrite <- Hs, Ho.
      * assert (He : group_end []) by (by left). rewrite <- (app_nil_r (fmt_subslice (segments o))). rewrite fmt_no_ipv4 by done.
        unfold read_ipv6_addr. rewrite read_groups_first by (done || lia). by rewrite Hls, Ho.
Qed.

(** * Words of printable characters *)

Definition printable (c : Z) : Prop := 33 <= c <= 126.
Definition word_ok (w : bytes) : Prop := w <> [] /\ Forall printable w.

Lemma whitespace_printable c r : printable c -> whitespace (c :: r) = 0%nat.
Proof.
  intros Hc. assert (H : c ∈ seqZ 33 94) by (apply elem_of_seqZ; unfold printable in Hc; lia). clear Hc.
  let l := eval vm_compute in (seqZ 33 94) in change (seqZ 33 94) with l in H.
  repeat (apply elem_of_cons in H as [->|H]; [reflexivity|]). by apply not_elem_of_nil in H.
Qed.

Lemma split_words_printable w : forall s acc, Forall printable w -> split_words (w ++ s) acc 0 = split_words s (acc ++ w) 0.
Proof.
  induction w as [|c w IH]; intros s acc Hw; [by rewrite app_nil_r|]. apply Forall_cons in Hw as [Hc Hw]. cbn [app].
  assert (E : split_words (c :: w ++ s) acc 0 = split_words (w ++ s) (acc ++ [c]) 0) by (cbn [split_words]; by rewrite whitespace_printable).
  rewrite E, IH by done. by rewrite <- (assoc_L app).
Qed.
Lemma split_word w s : word_ok w -> split_words (w ++ [32] ++ s) [] 0 = w :: split_words s [] 0.
Proof. intros [Hn Hw]. rewrite split_words_printable by done. cbn [app]. destruct w; done. Qed.
Lemma split_word_end w : word_ok w -> split_words w [] 0 = [w].
Proof. intros [Hn Hw]. rewrite <- (app_nil_r w) at 1. rewrite split_words_printable by done. by destruct w. Qed.

Lemma digit_printable radix c : is_digit radix c -> printable c.
Proof.
  intros [d Hd]. unfold to_digit in Hd. unfold printable. repeat case_match; simplify_eq; rewrite ?andb_true_iff, ?Z.leb_le in *; lia.
Qed.
Lemma display_word n : 0 <= n < 10 ^ 20 -> word_ok (display n).
Proof.
  intros Hn. destruct (digits_spec 10 ltac:(lia) 19 n [] ltac:(change (Z.of_nat 20) with 20; lia)) as (ds & Hd & Hf & Hne & _). unfold display. rewrite Hd, app_nil_r.
  split; [done|]. eapply Forall_impl; [exact Hf|]. apply digit_printable.
Qed.
