(* ===== verification/Interceptor.v ===== *)
(** The interceptor framework ([rtc-interceptor]: [packet.rs], [stream_info.rs], [lib.rs],
    [chain.rs], [noop.rs], [registry.rs]): tagged packets, the [Interceptor] trait as a
    class, the chain that walks a list of interceptors over a belt, and the terminus of
    the inbound control traffic. *)
From S2P Require Import Prelude Transport Marshal Rtp RtcpNack.

(** * Packets *)

(** [dyn rtcp::Packet]: the interceptors here look for generic NACKs by [downcast_ref];
    [other] stands for a packet of any other type. *)
Class RtcpTypes := other_rtcp : Type.
Inductive RtcpPacket `{RtcpTypes} := RtcpTransportLayerNack (nack : TransportLayerNack) | RtcpOther (other : other_rtcp).

Section packets.
Context `{RtcpTypes}.

Inductive MediaPacket := MpRtp (p : Packet) | MpRtcp (l : list RtcpPacket).

(** A bitrate is the bit pattern of its [f64]; an application's object is known by its address. *)
Inductive Attribute :=
| RecoveredByFec
| Retransmission
| DeliverToApplication
| TargetBitrateChanged (bits_per_second : Z)
| Custom (value : Z).

(** [std::mem::discriminant]. *)
Definition attribute_discriminant (a : Attribute) : Z :=
  match a with RecoveredByFec => 0 | Retransmission => 1 | DeliverToApplication => 2 | TargetBitrateChanged _ => 3 | Custom _ => 4 end.

Record AttributedPacket := mkAttributedPacket { attributes : list Attribute; packet : MediaPacket }.
#[export] Instance AttributedPacket_eta : Eta AttributedPacket := fun p => mkAttributedPacket (attributes p) (packet p).

Definition AttributedPacket_new (p : MediaPacket) : AttributedPacket := mkAttributedPacket [] p.
Definition AttributedPacket_with (self : AttributedPacket) (a : Attribute) : AttributedPacket := self <| attributes ::= fun l => l ++ [a] |>.
Definition AttributedPacket_has (self : AttributedPacket) (a : Attribute) : bool :=
  existsb (fun held => attribute_discriminant held =? attribute_discriminant a) (attributes self).
Definition AttributedPacket_get (self : AttributedPacket) (a : Attribute) : option Attribute :=
  List.find (fun held => attribute_discriminant held =? attribute_discriminant a) (attributes self).

(** [TransportMessage<AttributedPacket>]. *)
Record TaggedPacket := mkTaggedPacket { tp_now : Z; tp_transport : TransportContext; tp_message : AttributedPacket }.
End packets.

(** * Streams *)

Record RTCPFeedback := mkRTCPFeedback { fb_typ : string; fb_parameter : string }.

(** The fields of [StreamInfo] that the interceptors here read. *)
Record StreamInfo := mkStreamInfo {
  si_ssrc : Z;
  si_ssrc_rtx : option Z;
  si_payload_type_rtx : option Z;
  si_rtcp_feedback : list RTCPFeedback
}.

Definition stream_supports_nack (info : StreamInfo) : bool :=
  existsb (fun fb => bool_decide (fb_typ fb = "nack"%string) && bool_decide (fb_parameter fb = ""%string)) (si_rtcp_feedback info).

(** * The trait *)

(** [Interceptor] with the methods of [Protocol] it uses.  A handler that fails returns
    the error with the state it leaves. *)
Class Interceptor `{RtcpTypes} (T : Type) := mkInterceptor {
  handle_read : TaggedPacket -> stm T MediaError unit;
  poll_read : T -> option TaggedPacket * T;
  handle_write : TaggedPacket -> stm T MediaError unit;
  poll_write : T -> option TaggedPacket * T;
  handle_timeout : Z -> stm T MediaError unit;
  poll_timeout : T -> option Z * T;
  bind_local_stream : StreamInfo -> T -> T;
  unbind_local_stream : StreamInfo -> T -> T;
  bind_remote_stream : StreamInfo -> T -> T;
  unbind_remote_stream : StreamInfo -> T -> T
}.

(** [Box<dyn Interceptor>]. *)
Record BoxedInterceptor `{RtcpTypes} := Box { bx_type : Type; bx_impl : Interceptor bx_type; bx_state : bx_type }.
Arguments Box {_ _} {_} _.

(** * The chain *)

Section chain.
Context `{RtcpTypes}.

(** The two directions: which pair of methods a walk uses. *)
Record direction := mkDirection {
  dir_handle : BoxedInterceptor -> TaggedPacket -> outcome MediaError unit * BoxedInterceptor;
  dir_poll : BoxedInterceptor -> option TaggedPacket * BoxedInterceptor
}.
Definition boxed {A} (b : BoxedInterceptor) (r : A * bx_type b) : A * BoxedInterceptor := (r.1, Box (bx_impl := bx_impl b) r.2).
Definition read_direction : direction :=
  mkDirection (fun b m => boxed b (handle_read (Interceptor := bx_impl b) m (bx_state b))) (fun b => boxed b (poll_read (Interceptor := bx_impl b) (bx_state b))).
Definition write_direction : direction :=
  mkDirection (fun b m => boxed b (handle_write (Interceptor := bx_impl b) m (bx_state b))) (fun b => boxed b (poll_write (Interceptor := bx_impl b) (bx_state b))).

(** [while let Some(next) = belt.pop_front()]; an error is only logged. *)
Fixpoint feed (d : direction) (belt : list TaggedPacket) (i : BoxedInterceptor) : outcome MediaError BoxedInterceptor :=
  match belt with
  | [] => Ok i
  | next :: belt =>
      let '(r, i) := dir_handle d i next in
      match r with Ok _ | Err _ => feed d belt i | Panic => Panic | Diverge => Diverge end
  end.

(** [while let Some(next) = poll(..)]; the fuel bounds what one interceptor has ready. *)
Fixpoint drain (fuel : nat) (d : direction) (i : BoxedInterceptor) : outcome MediaError (list TaggedPacket * BoxedInterceptor) :=
  let '(o, i) := dir_poll d i in
  match o with
  | None => Ok ([], i)
  | Some next => match fuel with O => Diverge | S fuel => '(l, i) ← drain fuel d i; Ok (next :: l, i) end
  end.

Fixpoint walk (fuel : nat) (d : direction) (interceptors : list BoxedInterceptor) (belt : list TaggedPacket)
  : outcome MediaError (list BoxedInterceptor * list TaggedPacket) :=
  match interceptors with
  | [] => Ok ([], belt)
  | i :: rest =>
      i ← feed d belt i;
      '(belt, i) ← drain fuel d i;
      '(rest, belt) ← walk fuel d rest belt;
      Ok (i :: rest, belt)
  end.

Record Chain := mkChain {
  ch_interceptors : list BoxedInterceptor;
  ch_read_outs : list TaggedPacket;
  ch_write_outs : list TaggedPacket
}.

Definition Chain_new (interceptors : list BoxedInterceptor) : Chain := mkChain interceptors [] [].

(** The belt is empty outside a walk, so a walk starts from the message alone. *)
Definition walk_read (fuel : nat) (self : Chain) (msg : option TaggedPacket) : outcome MediaError Chain :=
  '(items, belt) ← walk fuel read_direction (ch_interceptors self) (option_list msg);
  Ok (mkChain items (ch_read_outs self ++ belt) (ch_write_outs self)).

(** The write direction walks the list in reverse. *)
Definition walk_write (fuel : nat) (self : Chain) (msg : option TaggedPacket) : outcome MediaError Chain :=
  '(items, belt) ← walk fuel write_direction (rev (ch_interceptors self)) (option_list msg);
  Ok (mkChain (rev items) (ch_read_outs self) (ch_write_outs self ++ belt)).

Definition Chain_handle_read fuel (self : Chain) (msg : TaggedPacket) : outcome MediaError Chain := walk_read fuel self (Some msg).
Definition Chain_handle_write fuel (self : Chain) (msg : TaggedPacket) : outcome MediaError Chain := walk_write fuel self (Some msg).

Definition Chain_poll_read fuel (self : Chain) : outcome MediaError (option TaggedPacket * Chain) :=
  self ← (match ch_read_outs self with [] => walk_read fuel self None | _ => Ok self end);
  Ok (head (ch_read_outs self), mkChain (ch_interceptors self) (tail (ch_read_outs self)) (ch_write_outs self)).

Definition Chain_poll_write fuel (self : Chain) : outcome MediaError (option TaggedPacket * Chain) :=
  self ← (match ch_write_outs self with [] => walk_write fuel self None | _ => Ok self end);
  Ok (head (ch_write_outs self), mkChain (ch_interceptors self) (ch_read_outs self) (tail (ch_write_outs self))).

(** The loop of [handle_timeout]: the first error ends it. *)
Fixpoint timeouts (now : Z) (l : list BoxedInterceptor) : outcome MediaError unit * list BoxedInterceptor :=
  match l with
  | [] => (Ok tt, [])
  | i :: rest =>
      let '(r, i') := boxed i (handle_timeout (Interceptor := bx_impl i) now (bx_state i)) in
      match r with
      | Ok _ => let '(r, rest) := timeouts now rest in (r, i' :: rest)
      | r => (r, i' :: rest)
      end
  end.
Definition Chain_handle_timeout (self : Chain) (now : Z) : outcome MediaError unit * Chain :=
  let '(r, items) := timeouts now (ch_interceptors self) in (r, mkChain items (ch_read_outs self) (ch_write_outs self)).

Definition opt_min (a b : option Z) : option Z :=
  match a, b with Some x, Some y => Some (Z.min x y) | Some x, None => Some x | None, y => y end.
Fixpoint poll_timeouts (l : list BoxedInterceptor) : option Z * list BoxedInterceptor :=
  match l with
  | [] => (None, [])
  | i :: rest =>
      let '(t, i') := boxed i (poll_timeout (Interceptor := bx_impl i) (bx_state i)) in
      let '(u, rest) := poll_timeouts rest in (opt_min t u, i' :: rest)
  end.
Definition Chain_poll_timeout (self : Chain) : option Z * Chain :=
  let '(t, items) := poll_timeouts (ch_interceptors self) in (t, mkChain items (ch_read_outs self) (ch_write_outs self)).

Definition on_all (f : forall b : BoxedInterceptor, bx_type b) (self : Chain) : Chain :=
  mkChain (map (fun b => Box (bx_impl := bx_impl b) (f b)) (ch_interceptors self)) (ch_read_outs self) (ch_write_outs self).
Definition Chain_bind_local_stream (info : StreamInfo) : Chain -> Chain := on_all (fun b => bind_local_stream (Interceptor := bx_impl b) info (bx_state b)).
Definition Chain_unbind_local_stream (info : StreamInfo) : Chain -> Chain := on_all (fun b => unbind_local_stream (Interceptor := bx_impl b) info (bx_state b)).
Definition Chain_bind_remote_stream (info : StreamInfo) : Chain -> Chain := on_all (fun b => bind_remote_stream (Interceptor := bx_impl b) info (bx_state b)).
Definition Chain_unbind_remote_stream (info : StreamInfo) : Chain -> Chain := on_all (fun b => unbind_remote_stream (Interceptor := bx_impl b) info (bx_state b)).

(** * The terminus *)

Record NoopInterceptor := mkNoopInterceptor { no_read_queue : list TaggedPacket; no_write_queue : list TaggedPacket }.
#[export] Instance NoopInterceptor_eta : Eta NoopInterceptor := fun n => mkNoopInterceptor (no_read_queue n) (no_write_queue n).

Definition Noop_handle_read (msg : TaggedPacket) (self : NoopInterceptor) : outcome MediaError unit * NoopInterceptor :=
  match packet (tp_message msg) with
  | MpRtp _ => (Ok tt, self <| no_read_queue ::= fun q => q ++ [msg] |>)
  | MpRtcp _ =>
      if AttributedPacket_has (tp_message msg) DeliverToApplication then (Ok tt, self <| no_read_queue ::= fun q => q ++ [msg] |>)
      else if negb (bool_decide (attributes (tp_message msg) = [])) then
        let msg := mkTaggedPacket (tp_now msg) (tp_transport msg) (mkAttributedPacket (attributes (tp_message msg)) (MpRtcp [])) in
        (Ok tt, self <| no_read_queue ::= fun q => q ++ [msg] |>)
      else (Ok tt, self)
  end.

(** [VecDeque::pop_front] on a queue of the state. *)
Definition pop_queue {T} (q : list TaggedPacket) (set : list TaggedPacket -> T) (self : T) : option TaggedPacket * T :=
  match q with [] => (None, self) | m :: r => (Some m, set r) end.

#[export] Instance Noop_Interceptor : Interceptor NoopInterceptor := {|
  handle_read := Noop_handle_read;
  poll_read := fun self => pop_queue (no_read_queue self) (fun q => self <| no_read_queue := q |>) self;
  handle_write := fun msg self => (Ok tt, self <| no_write_queue ::= fun q => q ++ [msg] |>);
  poll_write := fun self => pop_queue (no_write_queue self) (fun q => self <| no_write_queue := q |>) self;
  handle_timeout := fun _ self => (Ok tt, self);
  poll_timeout := fun self => (None, self);
  bind_local_stream := fun _ self => self;
  unbind_local_stream := fun _ self => self;
  bind_remote_stream := fun _ self => self;
  unbind_remote_stream := fun _ self => self
|}.

(** * The registry *)

(** [BTreeMap<Slot, BoxedInterceptor>], ordered by the position of the slot. *)
Definition Registry := list (Z * BoxedInterceptor).

Fixpoint Registry_with (slot : Z) (i : BoxedInterceptor) (r : Registry) : Registry :=
  match r with
  | [] => [(slot, i)]
  | (s, j) :: rest =>
      if slot <? s then (slot, i) :: r
      else if slot =? s then (slot, i) :: rest
      else (s, j) :: Registry_with slot i rest
  end.

Definition Registry_build (r : Registry) : Chain := Chain_new (map snd r ++ [Box (mkNoopInterceptor [] [])]).
End chain.

Inductive Slot :=
| SlotCongestionControl | SlotTwccSender | SlotPacer | SlotNackResponder | SlotFecEncoder | SlotFecDecoder | SlotNackGenerator
| SlotTwccReceiver | SlotRfc8888 | SlotReceiverReport | SlotSenderReport | SlotIntervalPli | SlotJitterBuffer | SlotCustom (position : Z).

Definition Slot_slot (s : Slot) : Z :=
  match s with
  | SlotCongestionControl => 1000
  | SlotTwccSender => 2000
  | SlotPacer => 3000
  | SlotNackResponder => 4000
  | SlotFecEncoder => 5000
  | SlotFecDecoder => 6000
  | SlotNackGenerator => 7000
  | SlotTwccReceiver => 8000
  | SlotRfc8888 => 9000
  | SlotReceiverReport => 10000
  | SlotSenderReport => 11000
  | SlotIntervalPli => 12000
  | SlotJitterBuffer => 13000
  | SlotCustom position => position
  end.

(** * Walks *)

Section walks.
Context `{RtcpTypes}.

(** An interceptor that hands out its queue empties it. *)
Lemma drain_queue (mk : list TaggedPacket -> BoxedInterceptor) d fuel q :
  (forall q, dir_poll d (mk q) = match q with [] => (None, mk []) | m :: r => (Some m, mk r) end) -> (length q <= fuel)%nat ->
  drain fuel d (mk q) = Ok (q, mk []).
Proof.
  intros Hp. revert fuel. induction q as [|m q IH]; intros fuel Hf; destruct fuel as [|fuel]; cbn [drain]; rewrite Hp; cbn [length] in Hf; try done; [lia|].
  cbn [drain] in IH. rewrite IH by lia. done.
Qed.

(** Nothing bypasses an interceptor: a walk over two runs of interceptors hands what comes
    out of the first, what was generated there included, to the second. *)
Lemma walk_app fuel d l1 l2 belt :
  walk fuel d (l1 ++ l2) belt = ('(l1', belt1) ← walk fuel d l1 belt; '(l2', belt2) ← walk fuel d l2 belt1; Ok (l1' ++ l2', belt2)).
Proof.
  revert belt. induction l1 as [|i l1 IH]; intros belt; cbn [app walk].
  - cbn [mbind outcome_bind]. by destruct (walk fuel d l2 belt) as [[l2' b]| | |].
  - destruct (feed d belt i) as [i1| | |]; cbn [mbind outcome_bind]; [|done..]. destruct (drain fuel d i1) as [[out i2]| | |]; cbn [mbind outcome_bind]; [|done..].
    rewrite IH. destruct (walk fuel d l1 out) as [[l1' b1]| | |]; cbn [mbind outcome_bind]; [|done..].
    by destruct (walk fuel d l2 b1) as [[l2' b2]| | |].
Qed.

Lemma walk_one fuel d i belt : walk fuel d [i] belt = (i ← feed d belt i; '(belt, i) ← drain fuel d i; Ok ([i], belt)).
Proof. reflexivity. Qed.

(** The terminus. *)
Definition noop : BoxedInterceptor := Box (mkNoopInterceptor [] []).

Lemma noop_write fuel belt : (length belt <= fuel)%nat -> walk fuel write_direction [noop] belt = Ok ([noop], belt).
Proof.
  intros Hf. cbn [walk]. assert (Hfeed : forall q, feed write_direction belt (Box (mkNoopInterceptor [] q)) = Ok (Box (mkNoopInterceptor [] (q ++ belt)))).
  { clear. induction belt as [|m belt IH]; intros q; [by rewrite app_nil_r|].
    change (feed write_direction (m :: belt) (Box (mkNoopInterceptor [] q))) with (feed write_direction belt (Box (mkNoopInterceptor [] (q ++ [m])))).
    rewrite (IH (q ++ [m])). by rewrite <- (assoc_L app). }
  unfold noop. rewrite Hfeed. cbn [mbind outcome_bind app].
  rewrite (drain_queue (fun q => Box (mkNoopInterceptor [] q)) write_direction fuel belt); [done|by intros []|done].
Qed.

(** What the terminus lets through of one inbound packet. *)
Definition let_through (m : TaggedPacket) : list TaggedPacket :=
  match packet (tp_message m) with
  | MpRtp _ => [m]
  | MpRtcp _ =>
      if AttributedPacket_has (tp_message m) DeliverToApplication then [m]
      else match attributes (tp_message m) with
           | [] => []
           | a => [mkTaggedPacket (tp_now m) (tp_transport m) (mkAttributedPacket a (MpRtcp []))]
           end
  end.

Lemma noop_read fuel belt : (length (flat_map let_through belt) <= fuel)%nat ->
  walk fuel read_direction [noop] belt = Ok ([noop], flat_map let_through belt).
Proof.
  intros Hf. cbn [walk]. assert (Hfeed : forall q, feed read_direction belt (Box (mkNoopInterceptor q [])) = Ok (Box (mkNoopInterceptor (q ++ flat_map let_through belt) []))).
  { clear. induction belt as [|m belt IH]; intros q; [cbn; by rewrite app_nil_r|]. cbn [flat_map].
    assert (Hm : exists l, let_through m = l /\ Noop_handle_read m (mkNoopInterceptor q []) = (Ok tt, mkNoopInterceptor (q ++ l) [])).
    { unfold let_through, Noop_handle_read. destruct (packet (tp_message m)); [by eexists|]. destruct (AttributedPacket_has _ _); [by eexists|].
      destruct (attributes (tp_message m)) as [|a r]; [exists []; by rewrite app_nil_r|]. by eexists. }
    destruct Hm as (l & -> & Hh). cbn [feed]. unfold dir_handle, read_direction, boxed. cbn [bx_impl bx_state handle_read Noop_Interceptor].
    rewrite Hh. cbn [fst snd]. change (feed read_direction belt (Box (mkNoopInterceptor (q ++ l) [])) = Ok (Box (mkNoopInterceptor (q ++ l ++ flat_map let_through belt) []))).
    rewrite IH. by rewrite (assoc_L app). }
  unfold noop. rewrite Hfeed. cbn [mbind outcome_bind app].
  rewrite (drain_queue (fun q => Box (mkNoopInterceptor q [])) read_direction fuel (flat_map let_through belt)); [done|by intros []|done].
Qed.
End walks.
