(* ===== verification/Nack.v ===== *)
(** The NACK interceptors ([rtc-interceptor/src/nack]): the generator, which asks for the
    RTP packets its receive logs miss, and the responder, which keeps the packets sent
    and retransmits the ones asked for; and the theorem that the two together repair the
    losses of a stream. *)
From S2P Require Import Prelude Marshal Rtp Bitmap ReceiveLog SendBuffer Rtcp RtcpNack Transport Interceptor.

(** * The generator *)

Section generator.
Context `{RtcpTypes, DebugAssertions}.

Record NackGenerator := mkNackGenerator {
  ng_size : Z;
  ng_interval : Z;
  ng_skip_last_n : Z;
  ng_max_nacks_per_packet : Z;
  ng_next_timeout : option Z;
  ng_sender_ssrc : Z;
  ng_receive_logs : gmap Z ReceiveLog;
  ng_nack_counts : gmap Z (gmap Z Z);
  ng_write_queue : list TaggedPacket;
  ng_read_queue : list TaggedPacket
}.
#[export] Instance NackGenerator_eta : Eta NackGenerator := fun g =>
  mkNackGenerator (ng_size g) (ng_interval g) (ng_skip_last_n g) (ng_max_nacks_per_packet g) (ng_next_timeout g) (ng_sender_ssrc g)
    (ng_receive_logs g) (ng_nack_counts g) (ng_write_queue g) (ng_read_queue g).

(** [sender_ssrc] is drawn at random. *)
Definition NackGenerator_new (size interval skip_last_n max_nacks_per_packet sender_ssrc : Z) : NackGenerator :=
  mkNackGenerator size interval skip_last_n max_nacks_per_packet None sender_ssrc ∅ ∅ [] [].

(** [HashMap::retain]. *)
Definition retain (f : Z -> outcome MediaError bool) (m : gmap Z Z) : outcome MediaError (gmap Z Z) :=
  foldM (fun kv acc => keep ← f kv.1; Ok (if keep : bool then acc else delete kv.1 acc)) (map_to_list m) m.

(** The [filter] that counts the requests of each number. *)
Fixpoint count_requests (max : Z) (missing : list Z) (counts : gmap Z Z) : list Z * gmap Z Z :=
  match missing with
  | [] => ([], counts)
  | seq :: rest =>
      let count := default 0 (counts !! seq) in
      if count <? max then
        let '(l, counts) := count_requests max rest (<[seq := count + 1]> counts) in (seq :: l, counts)
      else count_requests max rest (<[seq := count]> counts)
  end.

(** One turn of the loop of [generate_nacks]. *)
Definition generate_for (now : Z) (ssrc : Z) (receive_log : ReceiveLog) (self : NackGenerator) : outcome MediaError NackGenerator :=
  missing ← missing_seq_numbers receive_log (ng_skip_last_n self);
  if bool_decide (missing = []) then Ok (self <| ng_nack_counts ::= delete ssrc |>)
  else
    '(filtered, self) ←
      (if 0 <? ng_max_nacks_per_packet self then
         let nack_count := default ∅ (ng_nack_counts self !! ssrc) in
         nack_count ← retain (fun seq => is_missing receive_log seq (ng_skip_last_n self)) nack_count;
         let '(filtered, nack_count) := count_requests (ng_max_nacks_per_packet self) missing nack_count in
         Ok (filtered, self <| ng_nack_counts ::= <[ssrc := nack_count]> |>)
       else Ok (missing, self));
    if bool_decide (filtered = []) then Ok self
    else
      let nack := mkTransportLayerNack (ng_sender_ssrc self) ssrc (nack_pairs_from_sequence_numbers filtered) in
      Ok (self <| ng_write_queue ::= fun q =>
            q ++ [mkTaggedPacket now TransportContext_default (AttributedPacket_new (MpRtcp [RtcpTransportLayerNack nack]))] |>).

(** The order in which a [HashMap] is iterated is not specified. *)
Class HashOrder := hash_order : gmap Z ReceiveLog -> list (Z * ReceiveLog).
Context `{HashOrder}.

Definition generate_nacks (now : Z) (self : NackGenerator) : outcome MediaError NackGenerator :=
  foldM (fun kv self => generate_for now kv.1 kv.2 self) (hash_order (ng_receive_logs self)) self.

Definition NackGenerator_handle_read (msg : TaggedPacket) (self : NackGenerator) : outcome MediaError NackGenerator :=
  self ← (match packet (tp_message msg) with
          | MpRtp rtp_packet =>
              match ng_receive_logs self !! ssrc (header rtp_packet) with
              | Some receive_log =>
                  receive_log ← ReceiveLog_add receive_log (sequence_number (header rtp_packet));
                  let self := self <| ng_receive_logs ::= <[ssrc (header rtp_packet) := receive_log]> |> in
                  Ok (match ng_next_timeout self with
                      | None => self <| ng_next_timeout := Some (tp_now msg + ng_interval self) |>
                      | Some _ => self
                      end)
              | None => Ok self
              end
          | MpRtcp _ => Ok self
          end);
  Ok (self <| ng_read_queue ::= fun q => q ++ [msg] |>).

Definition NackGenerator_handle_timeout (now : Z) (self : NackGenerator) : outcome MediaError NackGenerator :=
  match ng_next_timeout self with
  | Some next_timeout =>
      if next_timeout <=? now then generate_nacks now (self <| ng_next_timeout := Some (now + ng_interval self) |>) else Ok self
  | None => Ok self
  end.

Definition NackGenerator_bind_remote_stream (info : StreamInfo) (self : NackGenerator) : NackGenerator :=
  if stream_supports_nack info then
    match ReceiveLog_new (ng_size self) with
    | Some receive_log => self <| ng_receive_logs ::= <[si_ssrc info := receive_log]> |>
    | None => self
    end
  else self.

Definition NackGenerator_unbind_remote_stream (info : StreamInfo) (self : NackGenerator) : NackGenerator :=
  self <| ng_receive_logs ::= delete (si_ssrc info) |> <| ng_nack_counts ::= delete (si_ssrc info) |>.

(** A method that mutates [self] and returns [Ok(())] where it does not panic. *)
Definition method {T} (f : T -> outcome MediaError T) : stm T MediaError unit :=
  fun self => match f self with Ok self => (Ok tt, self) | Err e => (Err e, self) | Panic => (Panic, self) | Diverge => (Diverge, self) end.

#[export] Instance NackGenerator_Interceptor : Interceptor NackGenerator := {|
  handle_read := fun msg => method (NackGenerator_handle_read msg);
  poll_read := fun self => pop_queue (ng_read_queue self) (fun q => self <| ng_read_queue := q |>) self;
  handle_write := fun msg self => (Ok tt, self <| ng_write_queue ::= fun q => q ++ [msg] |>);
  poll_write := fun self => pop_queue (ng_write_queue self) (fun q => self <| ng_write_queue := q |>) self;
  handle_timeout := fun now => method (NackGenerator_handle_timeout now);
  poll_timeout := fun self => (ng_next_timeout self, self);
  bind_local_stream := fun _ self => self;
  unbind_local_stream := fun _ self => self;
  bind_remote_stream := NackGenerator_bind_remote_stream;
  unbind_remote_stream := NackGenerator_unbind_remote_stream
|}.
End generator.

(** * The responder *)

Section responder.
Context `{RtcpTypes, OverflowChecks}.

Definition DEFAULT_MAX_AGE : Z := 3000000000.

Record LocalStream := mkLocalStream {
  ls_send_buffer : SendBuffer;
  ls_ssrc_rtx : option Z;
  ls_payload_type_rtx : option Z;
  ls_rtx_sequence_number : Z
}.
#[export] Instance LocalStream_eta : Eta LocalStream := fun s =>
  mkLocalStream (ls_send_buffer s) (ls_ssrc_rtx s) (ls_payload_type_rtx s) (ls_rtx_sequence_number s).

Record NackResponder := mkNackResponder {
  nr_size : Z;
  nr_limits : HistoryLimits;
  nr_streams : gmap Z LocalStream;
  nr_write_queue : list TaggedPacket;
  nr_read_queue : list TaggedPacket
}.
#[export] Instance NackResponder_eta : Eta NackResponder := fun r =>
  mkNackResponder (nr_size r) (nr_limits r) (nr_streams r) (nr_write_queue r) (nr_read_queue r).

Definition NackResponder_new (size : Z) (limits : HistoryLimits) : NackResponder := mkNackResponder size limits ∅ [] [].

(** The packet that answers a request for [original_packet]. *)
Definition retransmission_of (stream : LocalStream) (original_packet : Packet) : Packet * LocalStream :=
  match ls_ssrc_rtx stream, ls_payload_type_rtx stream with
  | Some ssrc_rtx, Some pt_rtx =>
      let h := header original_packet in
      (mkPacket (mkHeader 2 false false (marker h) pt_rtx (ls_rtx_sequence_number stream) (timestamp h) ssrc_rtx [] 0 [] 0)
                (put_u16 (sequence_number h) ++ payload original_packet),
       stream <| ls_rtx_sequence_number ::= fun n => wrapping_add n 1 |>)
  | _, _ => (original_packet, stream)
  end.

(** The loop of [handle_nack] over the numbers asked for. *)
Fixpoint retransmit (now : Z) (seqs : list Z) (stream : LocalStream) (queue : list TaggedPacket)
  : outcome MediaError (LocalStream * list TaggedPacket) :=
  match seqs with
  | [] => Ok (stream, queue)
  | seq :: rest =>
      found ← SendBuffer_get (ls_send_buffer stream) seq now;
      match found with
      | None => retransmit now rest stream queue
      | Some original_packet =>
          let '(p, stream) := retransmission_of stream original_packet in
          retransmit now rest stream (queue ++
            [mkTaggedPacket now TransportContext_default (AttributedPacket_with (AttributedPacket_new (MpRtp p)) Retransmission)])
      end
  end.

Definition handle_nack (now : Z) (nack : TransportLayerNack) (self : NackResponder) : outcome MediaError NackResponder :=
  match nr_streams self !! tln_media_ssrc nack with
  | None => Ok self
  | Some stream =>
      seqs ← nack_seqs (tln_nacks nack);
      '(stream, queue) ← retransmit now seqs stream (nr_write_queue self);
      Ok (self <| nr_streams ::= <[tln_media_ssrc nack := stream]> |> <| nr_write_queue := queue |>)
  end.

Definition NackResponder_handle_read (msg : TaggedPacket) (self : NackResponder) : outcome MediaError NackResponder :=
  self ← (match packet (tp_message msg) with
          | MpRtcp rtcp_packets =>
              foldM (fun p self => match p with RtcpTransportLayerNack nack => handle_nack (tp_now msg) nack self | RtcpOther _ => Ok self end)
                rtcp_packets self
          | MpRtp _ => Ok self
          end);
  Ok (self <| nr_read_queue ::= fun q => q ++ [msg] |>).

Definition NackResponder_handle_write (msg : TaggedPacket) (self : NackResponder) : outcome MediaError NackResponder :=
  self ← (match packet (tp_message msg) with
          | MpRtp rtp_packet =>
              match nr_streams self !! ssrc (header rtp_packet) with
              | Some stream =>
                  send_buffer ← SendBuffer_add (ls_send_buffer stream) rtp_packet (tp_now msg);
                  Ok (self <| nr_streams ::= <[ssrc (header rtp_packet) := stream <| ls_send_buffer := send_buffer |>]> |>)
              | None => Ok self
              end
          | MpRtcp _ => Ok self
          end);
  Ok (self <| nr_write_queue ::= fun q => q ++ [msg] |>).

(** Each stream on its own; the streams do not depend on each other. *)
Definition NackResponder_handle_timeout (now : Z) (self : NackResponder) : outcome MediaError NackResponder :=
  streams ← foldM (fun kv streams =>
      match expires_at (ls_send_buffer kv.2) with
      | Some t => if t <=? now then send_buffer ← expire (ls_send_buffer kv.2) now; Ok (<[kv.1 := kv.2 <| ls_send_buffer := send_buffer |>]> streams)
                  else Ok streams
      | None => Ok streams
      end) (map_to_list (nr_streams self)) (nr_streams self);
  Ok (self <| nr_streams := streams |>).

Definition NackResponder_poll_timeout (self : NackResponder) : option Z :=
  foldr (fun kv acc => opt_min (expires_at (ls_send_buffer kv.2)) acc) None (map_to_list (nr_streams self)).

Definition NackResponder_bind_local_stream (info : StreamInfo) (self : NackResponder) : NackResponder :=
  if stream_supports_nack info then
    match with_limits (nr_size self) (nr_limits self) with
    | Some send_buffer => self <| nr_streams ::= <[si_ssrc info := mkLocalStream send_buffer (si_ssrc_rtx info) (si_payload_type_rtx info) 0]> |>
    | None => self
    end
  else self.

Definition NackResponder_unbind_local_stream (info : StreamInfo) (self : NackResponder) : NackResponder :=
  self <| nr_streams ::= delete (si_ssrc info) |>.

#[export] Instance NackResponder_Interceptor : Interceptor NackResponder := {|
  handle_read := fun msg => method (NackResponder_handle_read msg);
  poll_read := fun self => pop_queue (nr_read_queue self) (fun q => self <| nr_read_queue := q |>) self;
  handle_write := fun msg => method (NackResponder_handle_write msg);
  poll_write := fun self => pop_queue (nr_write_queue self) (fun q => self <| nr_write_queue := q |>) self;
  handle_timeout := fun now => method (NackResponder_handle_timeout now);
  poll_timeout := fun self => (NackResponder_poll_timeout self, self);
  bind_local_stream := NackResponder_bind_local_stream;
  unbind_local_stream := NackResponder_unbind_local_stream;
  bind_remote_stream := fun _ self => self;
  unbind_remote_stream := fun _ self => self
|}.
End responder.

(** * Retransmission *)

Definition media_message `{RtcpTypes} (now : Z) (p : Packet) : TaggedPacket :=
  mkTaggedPacket now TransportContext_default (AttributedPacket_new (MpRtp p)).
Definition answer_message `{RtcpTypes} (now : Z) (p : Packet) : TaggedPacket :=
  mkTaggedPacket now TransportContext_default (AttributedPacket_with (AttributedPacket_new (MpRtp p)) Retransmission).

(** The packets a stream sends for a list of packets asked for. *)
Fixpoint answers (stream : LocalStream) (l : list Packet) : list Packet :=
  match l with [] => [] | p :: l => let '(q, stream) := retransmission_of stream p in q :: answers stream l end.

Lemma retransmission_buffer stream p : ls_send_buffer (retransmission_of stream p).2 = ls_send_buffer stream.
Proof. unfold retransmission_of. by destruct (ls_ssrc_rtx stream), (ls_payload_type_rtx stream). Qed.

Section retransmit.
Context `{RtcpTypes, OverflowChecks}.

Lemma retransmit_Ok now seqs g stream q : (forall seq, seq ∈ seqs -> SendBuffer_get (E:=MediaError) (ls_send_buffer stream) seq now = Ok (g seq)) ->
  exists stream', retransmit now seqs stream q = Ok (stream', q ++ (answer_message now <$> answers stream (omap g seqs))).
Proof.
  revert stream q. induction seqs as [|seq seqs IH]; intros stream q Hg; [exists stream; by rewrite app_nil_r|].
  cbn [retransmit]. rewrite Hg by (by left). cbn [mbind outcome_bind]. cbn [omap list_omap]. destruct (g seq) as [p|].
  - pose proof (retransmission_buffer stream p) as Hb. cbn [answers]. destruct (retransmission_of stream p) as [p' stream1]. cbn [snd] in Hb.
    destruct (IH stream1 (q ++ [answer_message now p'])) as (stream' & E1); [intros; rewrite Hb; apply Hg; by right|]. exists stream'.
    unfold answer_message in E1 at 1. rewrite E1. by rewrite <- (assoc_L app).
  - apply IH. intros. apply Hg. by right.
Qed.

(** A request for a stream, seen by the responder. *)
Lemma handle_nack_Ok now nack self stream seqs g : nr_streams self !! tln_media_ssrc nack = Some stream ->
  nack_seqs (E:=MediaError) (tln_nacks nack) = Ok seqs ->
  (forall seq, seq ∈ seqs -> SendBuffer_get (E:=MediaError) (ls_send_buffer stream) seq now = Ok (g seq)) ->
  exists stream', handle_nack now nack self = Ok (self <| nr_streams ::= <[tln_media_ssrc nack := stream']> |>
    <| nr_write_queue ::= fun q => q ++ (answer_message now <$> answers stream (omap g seqs)) |>).
Proof.
  intros Hs Hq Hg. unfold handle_nack. rewrite Hs, Hq. cbn [mbind outcome_bind].
  destruct (retransmit_Ok now seqs g stream (nr_write_queue self) Hg) as (stream' & ->). cbn [mbind outcome_bind]. by exists stream'.
Qed.
End retransmit.

(** * The chains of the two ends *)

Section ends.
Context `{RtcpTypes, DebugAssertions, OverflowChecks, HashOrder} (fuel : nat).

Definition sender_end (r : NackResponder) (ro wo : list TaggedPacket) : Chain := mkChain [Box r; noop] ro wo.
Definition receiver_end (g : NackGenerator) (ro wo : list TaggedPacket) : Chain := mkChain [Box g; noop] ro wo.

Lemma sender_registry size limits : Registry_build (Registry_with (Slot_slot SlotNackResponder) (Box (NackResponder_new size limits)) []) = sender_end (NackResponder_new size limits) [] [].
Proof. reflexivity. Qed.
Lemma receiver_registry size interval skip max ss :
  Registry_build (Registry_with (Slot_slot SlotNackGenerator) (Box (NackGenerator_new size interval skip max ss)) []) = receiver_end (NackGenerator_new size interval skip max ss) [] [].
Proof. reflexivity. Qed.

Lemma method_feed {T} `{Interceptor T} (d : direction) (f : TaggedPacket -> T -> outcome MediaError T) m t t' :
  (forall m t, dir_handle d (Box t) m = boxed (Box t) (method (f m) t)) -> f m t = Ok t' -> feed d [m] (Box t) = Ok (Box t').
Proof. intros Hd Hf. cbn [feed]. rewrite Hd. unfold boxed, method. cbn [bx_state]. by rewrite Hf. Qed.

(** One packet of the application on its way out. *)
Lemma sender_write r r' ro wo m : (1 <= fuel)%nat -> nr_write_queue r' = [m] ->
  NackResponder_handle_write m r = Ok r' ->
  Chain_handle_write fuel (sender_end r ro wo) m = Ok (sender_end (r' <| nr_write_queue := [] |>) ro (wo ++ [m])).
Proof.
  intros Hf Hq Hh. unfold Chain_handle_write, walk_write, sender_end. change (option_list (Some m)) with [m]. cbn [ch_interceptors rev app].
  change [noop; Box r] with ([noop] ++ [Box r]). rewrite walk_app, noop_write by (cbn; lia). cbn [mbind outcome_bind]. cbn [walk].
  rewrite (method_feed write_direction NackResponder_handle_write m r r' ltac:(done) Hh). cbn [mbind outcome_bind].
  replace (Box r') with (Box (r' <| nr_write_queue := [m] |>)) by (rewrite <- Hq; by destruct r').
  rewrite (drain_queue (fun q => Box (r' <| nr_write_queue := q |>)) write_direction fuel [m]); [done|by intros []|done].
Qed.

(** One inbound packet at the sender: requests end at the terminus. *)
Lemma sender_read r r' ro wo m : (1 <= fuel)%nat -> nr_read_queue r' = [m] -> NackResponder_handle_read m r = Ok r' ->
  Chain_handle_read fuel (sender_end r ro wo) m = Ok (sender_end (r' <| nr_read_queue := [] |>) (ro ++ let_through m) wo).
Proof.
  intros Hf Hq Hh. unfold Chain_handle_read, walk_read, sender_end. change (option_list (Some m)) with [m]. cbn [ch_interceptors].
  change [Box r; noop] with ([Box r] ++ [noop]). rewrite walk_app, (walk_one _ _ (Box r)).
  rewrite (method_feed read_direction NackResponder_handle_read m r r' ltac:(done) Hh). cbn [mbind outcome_bind].
  replace (Box r') with (Box (r' <| nr_read_queue := [m] |>)) by (rewrite <- Hq; by destruct r').
  rewrite (drain_queue (fun q => Box (r' <| nr_read_queue := q |>)) read_direction fuel [m]); [|by intros []|done]. cbn [mbind outcome_bind].
  assert (Hl : (length (flat_map let_through [m]) <= fuel)%nat).
  { cbn [flat_map]. rewrite app_nil_r. unfold let_through. destruct (packet _); [done|]. destruct (AttributedPacket_has _ _); [done|]. destruct (attributes _); cbn; lia. }
  rewrite (noop_read fuel [m] Hl). cbn [mbind outcome_bind flat_map]. by rewrite app_nil_r.
Qed.

(** What the responder has queued goes out. *)
Lemma sender_flush r ro : (length (nr_write_queue r) <= fuel)%nat ->
  walk_write fuel (sender_end r ro []) None = Ok (sender_end (r <| nr_write_queue := [] |>) ro (nr_write_queue r)).
Proof.
  intros Hf. unfold walk_write, sender_end. change (option_list (@None TaggedPacket)) with (@nil TaggedPacket). cbn [ch_interceptors rev app]. change [noop; Box r] with ([noop] ++ [Box r]).
  rewrite walk_app, noop_write by (cbn; lia). cbn [mbind outcome_bind walk feed].
  replace (Box r) with (Box (r <| nr_write_queue := nr_write_queue r |>)) by (by destruct r).
  rewrite (drain_queue (fun q => Box (r <| nr_write_queue := q |>)) write_direction fuel (nr_write_queue r)); [done|by intros []|done].
Qed.

(** One packet of the network on its way to the application. *)
Lemma receiver_read g g' ro wo t p : (1 <= fuel)%nat -> ng_read_queue g' = [media_message t p] -> NackGenerator_handle_read (media_message t p) g = Ok g' ->
  Chain_handle_read fuel (receiver_end g ro wo) (media_message t p) = Ok (receiver_end (g' <| ng_read_queue := [] |>) (ro ++ [media_message t p]) wo).
Proof.
  intros Hf Hq Hh. set (m := media_message t p) in *. unfold Chain_handle_read, walk_read, receiver_end. change (option_list (Some m)) with [m]. cbn [ch_interceptors].
  change [Box g; noop] with ([Box g] ++ [noop]). rewrite walk_app, (walk_one _ _ (Box g)).
  rewrite (method_feed read_direction NackGenerator_handle_read m g g' ltac:(done) Hh). cbn [mbind outcome_bind].
  replace (Box g') with (Box (g' <| ng_read_queue := [m] |>)) by (rewrite <- Hq; by destruct g').
  rewrite (drain_queue (fun q => Box (g' <| ng_read_queue := q |>)) read_direction fuel [m]); [|by intros []|done]. cbn [mbind outcome_bind].
  by rewrite (noop_read fuel [m] Hf).
Qed.

(** The generated requests go out. *)
Lemma receiver_poll g ro : (length (ng_write_queue g) <= fuel)%nat ->
  Chain_poll_write fuel (receiver_end g ro []) = Ok (head (ng_write_queue g), receiver_end (g <| ng_write_queue := [] |>) ro (tail (ng_write_queue g))).
Proof.
  intros Hf. unfold Chain_poll_write, walk_write, receiver_end. change (option_list (@None TaggedPacket)) with (@nil TaggedPacket). cbn [ch_write_outs ch_interceptors rev app]. change [noop; Box g] with ([noop] ++ [Box g]).
  rewrite walk_app, noop_write by (cbn; lia). cbn [mbind outcome_bind walk feed].
  replace (Box g) with (Box (g <| ng_write_queue := ng_write_queue g |>)) by (by destruct g).
  rewrite (drain_queue (fun q => Box (g <| ng_write_queue := q |>)) write_direction fuel (ng_write_queue g)); [done|by intros []|done].
Qed.
End ends.

(** * Repair *)

Section repair.
Context `{RtcpTypes, DebugAssertions, OverflowChecks, HashOrder} (fuel : nat).
Context (ssr : Z) (Hfuel : (1 <= fuel)%nat) (Horder : forall m, hash_order m ≡ₚ map_to_list m).

(** The responder of a sender with one stream, and the generator of its receiver. *)
Definition responder_with (size : Z) (limits : HistoryLimits) (stream : LocalStream) (wq : list TaggedPacket) : NackResponder :=
  mkNackResponder size limits {[ssr := stream]} wq [].
Definition generator_with (size interval skip ss : Z) (log : ReceiveLog) (next : option Z) (wq : list TaggedPacket) : NackGenerator :=
  mkNackGenerator size interval skip 0 next ss {[ssr := log]} ∅ wq [].

Definition messages (l : list Sent) : list TaggedPacket := (fun s => media_message (st_time s) (st_packet s)) <$> l.

Definition send_all (l : list Sent) (c : Chain) : outcome MediaError Chain := foldM (fun m c => Chain_handle_write fuel c m) (messages l) c.
Definition receive_all (l : list Sent) (c : Chain) : outcome MediaError Chain := foldM (fun m c => Chain_handle_read fuel c m) (messages l) c.

Lemma send_all_Ok size limits rtx pt n l sb sb' ro wo : (forall s, s ∈ l -> ssrc (header (st_packet s)) = ssr) ->
  foldM (fun s sb => SendBuffer_add (E:=MediaError) sb (st_packet s) (st_time s)) l sb = Ok sb' ->
  send_all l (sender_end (responder_with size limits (mkLocalStream sb rtx pt n) []) ro wo) =
    Ok (sender_end (responder_with size limits (mkLocalStream sb' rtx pt n) []) ro (wo ++ messages l)).
Proof using Hfuel.
  revert sb wo. induction l as [|s l IH]; intros sb wo Hs E1; [injection E1 as <-; unfold send_all; cbn; by rewrite app_nil_r|].
  cbn [foldM] in E1. destruct (SendBuffer_add sb (st_packet s) (st_time s)) as [sb1| | |] eqn:Ea; [|done..]. cbn [mbind outcome_bind] in E1.
  unfold send_all. cbn [messages fmap list_fmap foldM].
  rewrite (sender_write fuel _ (responder_with size limits (mkLocalStream sb1 rtx pt n) [media_message (st_time s) (st_packet s)])); [|done..|].
  - cbn [mbind outcome_bind]. fold (messages l). fold (send_all l).
    change (send_all l (sender_end (responder_with size limits (mkLocalStream sb1 rtx pt n) []) ro (wo ++ [media_message (st_time s) (st_packet s)])) =
      Ok (sender_end (responder_with size limits (mkLocalStream sb' rtx pt n) []) ro (wo ++ media_message (st_time s) (st_packet s) :: messages l))).
    rewrite (IH sb1); [by rewrite <- (assoc_L app)|intros; apply Hs; by right|done].
  - unfold NackResponder_handle_write. cbn [packet tp_message media_message AttributedPacket_new nr_streams responder_with tp_now].
    rewrite Hs by (by left). rewrite lookup_singleton_eq. cbn [ls_send_buffer]. rewrite Ea. cbn [mbind outcome_bind].
    transitivity (Ok (E:=MediaError) (mkNackResponder size limits (<[ssr := mkLocalStream sb1 rtx pt n]> {[ssr := mkLocalStream sb rtx pt n]})
      [media_message (st_time s) (st_packet s)] [])); [done|]. by rewrite insert_singleton_eq.
Qed.

(** The timer is armed by the first packet. *)
Definition armed (next : option Z) (interval : Z) (l : list Sent) : option Z :=
  match next, l with Some t, _ => Some t | None, [] => None | None, s :: _ => Some (st_time s + interval) end.

Lemma receive_all_Ok size interval skip ss l log log' next ro wo :
  (forall s, s ∈ l -> ssrc (header (st_packet s)) = ssr /\ sequence_number (header (st_packet s)) = st_seq s mod 65536) ->
  foldM (fun e rl => ReceiveLog_add (E:=MediaError) rl (e mod 65536)) (st_seq <$> l) log = Ok log' ->
  receive_all l (receiver_end (generator_with size interval skip ss log next []) ro wo) =
    Ok (receiver_end (generator_with size interval skip ss log' (armed next interval l) []) (ro ++ messages l) wo).
Proof using Hfuel.
  revert log next ro. induction l as [|s l IH]; intros log next ro Hs E1; [injection E1 as <-; unfold receive_all; cbn; rewrite app_nil_r; by destruct next|].
  cbn [fmap list_fmap foldM] in E1. destruct (ReceiveLog_add log (st_seq s mod 65536)) as [log1| | |] eqn:Ea; [|done..]. cbn [mbind outcome_bind] in E1.
  unfold receive_all. cbn [messages fmap list_fmap foldM]. set (next1 := armed next interval (s :: l)).
  rewrite (receiver_read fuel _ (generator_with size interval skip ss log1 next1 [] <| ng_read_queue := [media_message (st_time s) (st_packet s)] |>)); [|done..|];
    set (m := media_message (st_time s) (st_packet s)).
  - cbn [mbind outcome_bind]. fold (messages l). fold (receive_all l).
    change (receive_all l (receiver_end (generator_with size interval skip ss log1 next1 []) (ro ++ [m]) wo) =
      Ok (receiver_end (generator_with size interval skip ss log' next1 []) (ro ++ m :: messages l) wo)).
    rewrite (IH log1); [|intros; apply Hs; by right|done]. rewrite <- (assoc_L app). unfold next1. by destruct next.
  - destruct (Hs s ltac:(by left)) as [Hss Hsq]. unfold NackGenerator_handle_read, m. cbn [packet tp_message media_message AttributedPacket_new ng_receive_logs generator_with tp_now].
    rewrite Hss, lookup_singleton_eq, Hsq, Ea. cbn [mbind outcome_bind]. 
    transitivity (Ok (E:=MediaError) (mkNackGenerator size interval skip 0 next1 ss (<[ssr := log1]> {[ssr := log]}) ∅ [] [m]));
      [unfold next1; by destruct next|]. by rewrite insert_singleton_eq.
Qed.

Definition request (now ss : Z) (seqs : list Z) : TaggedPacket :=
  mkTaggedPacket now TransportContext_default (AttributedPacket_new
    (MpRtcp [RtcpTransportLayerNack (mkTransportLayerNack ss ssr (nack_pairs_from_sequence_numbers seqs))])).

(** The timer fires: one request for what is missing. *)
Lemma receiver_timeout size interval skip ss log t now ro wo missing : t <= now ->
  missing_seq_numbers (E:=MediaError) log skip = Ok missing ->
  Chain_handle_timeout (receiver_end (generator_with size interval skip ss log (Some t) []) ro wo) now =
    (Ok tt, receiver_end (generator_with size interval skip ss log (Some (now + interval))
       (match missing with [] => [] | _ => [request now ss missing] end)) ro wo).
Proof using Horder.
  clear Hfuel fuel. intros Ht Hm. unfold Chain_handle_timeout, receiver_end. cbn [ch_interceptors timeouts]. unfold boxed at 1. cbn [bx_impl bx_state handle_timeout NackGenerator_Interceptor].
  assert (Hh : NackGenerator_handle_timeout now (generator_with size interval skip ss log (Some t) []) =
    Ok (generator_with size interval skip ss log (Some (now + interval)) (match missing with [] => [] | _ => [request now ss missing] end))).
  { unfold NackGenerator_handle_timeout. cbn [ng_next_timeout generator_with]. rewrite (proj2 (Z.leb_le _ _)) by lia.
    change (generator_with size interval skip ss log (Some t) [] <| ng_next_timeout := Some (now + ng_interval (generator_with size interval skip ss log (Some t) [])) |>)
      with (generator_with size interval skip ss log (Some (now + interval)) []). unfold generate_nacks. cbn [ng_receive_logs generator_with].
    assert (Ho : hash_order ({[ssr := log]} : gmap Z ReceiveLog) = [(ssr, log)]).
    { apply Permutation_singleton_r. rewrite Horder. by rewrite map_to_list_singleton. }
    rewrite Ho. cbn [foldM fst snd]. unfold generate_for. cbn [ng_skip_last_n over generator_with]. rewrite Hm. cbn [mbind outcome_bind].
    destruct missing as [|x missing].
    { transitivity (Ok (E:=MediaError) (mkNackGenerator size interval skip 0 (Some (now + interval)) ss {[ssr := log]} (delete ssr ∅) [] [])); [done|]. by rewrite delete_empty. }
    rewrite bool_decide_false by done. cbn. done. }
  unfold method. rewrite Hh. reflexivity.
Qed.
End repair.

(** ** Both ends together *)

Lemma length_answers stream l : length (answers stream l) = length l.
Proof. revert stream. induction l as [|p l IH]; intros stream; [done|]. cbn [answers]. destruct (retransmission_of stream p). cbn. by rewrite IH. Qed.

(** The buffer itself does not matter to the answers, only how the stream retransmits. *)
Lemma answers_buffer sb sb' rtx pt n l : answers (mkLocalStream sb rtx pt n) l = answers (mkLocalStream sb' rtx pt n) l.
Proof.
  revert n. induction l as [|p l IH]; intros n; [done|]. cbn [answers]. unfold retransmission_of. cbn [ls_ssrc_rtx ls_payload_type_rtx].
  destruct rtx, pt; cbn; rewrite ?IH; try done. f_equal. apply IH.
Qed.

(** A packet on a retransmission stream (RFC 4588): its own SSRC, payload type and number,
    with the number of the original before the payload. *)
Definition rtx_packet (ssrc_rtx pt_rtx seq : Z) (p : Packet) : Packet :=
  mkPacket (mkHeader 2 false false (marker (header p)) pt_rtx seq (timestamp (header p)) ssrc_rtx [] 0 [] 0)
    ([sequence_number (header p) / 256 mod 256; sequence_number (header p) mod 256] ++ payload p).

(** What a new stream sends for a list of packets asked for: numbered from zero on the
    retransmission stream if there is one, and the packets themselves otherwise. *)
Definition retransmissions (info : StreamInfo) (l : list Packet) : list Packet :=
  match si_ssrc_rtx info, si_payload_type_rtx info with
  | Some ssrc_rtx, Some pt_rtx => imap (fun i p => rtx_packet ssrc_rtx pt_rtx (Z.of_nat i mod 65536) p) l
  | _, _ => l
  end.

Lemma answers_from info sb n l : is_u16 n -> answers (mkLocalStream sb (si_ssrc_rtx info) (si_payload_type_rtx info) n) l =
  match si_ssrc_rtx info, si_payload_type_rtx info with
  | Some ssrc_rtx, Some pt_rtx => imap (fun i p => rtx_packet ssrc_rtx pt_rtx ((n + Z.of_nat i) mod 65536) p) l
  | _, _ => l
  end.
Proof.
  revert n. induction l as [|p l IH]; intros n Hn; [by destruct (si_ssrc_rtx info), (si_payload_type_rtx info)|].
  cbn [answers]. unfold retransmission_of. cbn [ls_ssrc_rtx ls_payload_type_rtx ls_rtx_sequence_number].
  destruct (si_ssrc_rtx info) as [s|], (si_payload_type_rtx info) as [t|]; [|by rewrite IH..].
  rewrite imap_cons, Z.add_0_r, Z.mod_small by (unfold is_u16 in Hn; lia). f_equal.
  cbn [over ls_send_buffer ls_ssrc_rtx ls_payload_type_rtx ls_rtx_sequence_number]. etransitivity; [apply (IH (wrapping_add n 1)), as_u16_range|].
  apply imap_ext. intros i x _. cbn. f_equal. unfold wrapping_add, as_u16. rewrite Zplus_mod_idemp_l. f_equal. lia.
Qed.

Lemma answers_retransmissions info sb l : answers (mkLocalStream sb (si_ssrc_rtx info) (si_payload_type_rtx info) 0) l = retransmissions info l.
Proof. by rewrite answers_from by done. Qed.

Lemma omap_fmap {A B C} (f : A -> B) (g : B -> option C) (l : list A) : omap g (f <$> l) = omap (fun x => g (f x)) l.
Proof. induction l as [|x l IH]; [done|]. cbn. by rewrite <- IH. Qed.

Lemma omap_same {A B} (f g : A -> option B) (l : list A) : (forall x, x ∈ l -> f x = g x) -> omap f l = omap g l.
Proof. induction l as [|x l IH]; intros Hx; [done|]. cbn. rewrite Hx by (by left). destruct (g x); rewrite IH; try done; intros; apply Hx; by right. Qed.

Lemma length_omap {A B} (f : A -> option B) (l : list A) : (length (omap f l) <= length l)%nat.
Proof. induction l as [|x l IH]; [done|]. cbn. destruct (f x); cbn; change (list_omap A B f l) with (omap f l); lia. Qed.

Lemma retained_perm h h' limits size newest now e : h ≡ₚ h' -> NoDup (st_seq <$> h) -> retained h limits size newest now e = retained h' limits size newest now e.
Proof.
  intros Hp Hnd. unfold retained. assert (Hnd' : NoDup (st_seq <$> h')) by (by rewrite <- Hp).
  destruct (List.find _ h) as [s|] eqn:F.
  - apply find_some in F as [Hs Es]. apply list_elem_of_In in Hs. apply Z.eqb_eq in Es. subst e. by rewrite (find_unique h' s Hnd') by (by rewrite <- Hp).
  - destruct (List.find _ h') as [s|] eqn:F'; [|done]. apply find_some in F' as [Hs Es]. exfalso. pose proof (find_none _ _ F s) as Hn.
    cbn in Hn. rewrite Hn in Es; [done|]. apply list_elem_of_In. rewrite Hp. by apply list_elem_of_In.
Qed.

Lemma lost_ascending size first newest skip h : ascending id (lost size first newest skip h).
Proof.
  unfold lost. cbv zeta. generalize (Z.max first (newest - size + 1)). intros a. generalize (newest - skip - a + 1). intros n.
  destruct (Z.le_gt_cases n 0) as [Hn|Hn]; [rewrite seqZ_nil by lia; constructor|]. assert (Hn' : 0 <= n) by lia. clear Hn. revert a. pattern n.
  apply natlike_ind; [constructor| |done]. clear n Hn'. intros n Hn IH a. rewrite seqZ_cons, filter_cons by lia. rewrite Z.pred_succ.
  case_decide; [|apply IH]. apply ascending_cons. split; [apply IH|]. intros y [_ Hy%elem_of_seqZ]%list_elem_of_filter. unfold id. lia.
Qed.

Lemma lost_range size first newest skip h e : e ∈ lost size first newest skip h -> newest - size < e <= newest - skip.
Proof. unfold lost. cbv zeta. intros [_ Hy%elem_of_seqZ]%list_elem_of_filter. lia. Qed.

Lemma length_lost size first newest skip h : 0 <= size -> 0 <= skip -> (length (lost size first newest skip h) <= Z.to_nat size)%nat.
Proof. intros. unfold lost. cbv zeta. etrans; [apply length_filter|]. rewrite length_seqZ. lia. Qed.

Lemma length_nack_pairs l : (length (nack_pairs_from_sequence_numbers l) <= length l)%nat /\ (l <> [] -> 1 <= length (nack_pairs_from_sequence_numbers l))%nat.
Proof.
  destruct l as [|s r]; [done|]. unfold nack_pairs_from_sequence_numbers. destruct (foldl _ _ r) as [pairs p] eqn:F. rewrite length_app. cbn [length].
  split; [|lia]. assert (Hl : forall r ps q, (length (foldl nack_pairs_step (ps, q) r).1 <= length ps + length r)%nat).
  { clear. induction r as [|x r IH]; intros ps q; cbn [foldl length]; [cbn; lia|]. unfold nack_pairs_step at 2.
    destruct (x =? packet_id q); [etrans; [apply IH|]; lia|]. destruct (_ || _); (etrans; [apply IH|]); [rewrite length_app; cbn [length]; lia|lia]. }
  specialize (Hl r [] (NackPair_new s)). rewrite F in Hl. cbn [fst length] in Hl. lia.
Qed.

Section end_to_end.
Context `{RtcpTypes, DebugAssertions, OverflowChecks, HashOrder}.

(** The chains an application builds for one stream. *)
Definition sender_start (info : StreamInfo) (size : Z) (limits : HistoryLimits) : Chain :=
  Chain_bind_local_stream info (Registry_build (Registry_with (Slot_slot SlotNackResponder) (Box (NackResponder_new size limits)) [])).
Definition receiver_start (info : StreamInfo) (size interval skip ss : Z) : Chain :=
  Chain_bind_remote_stream info (Registry_build (Registry_with (Slot_slot SlotNackGenerator) (Box (NackGenerator_new size interval skip 0 ss)) [])).

Lemma sender_start_Ok info size limits sb : stream_supports_nack info = true -> with_limits size limits = Some sb ->
  sender_start info size limits = sender_end (responder_with (si_ssrc info) size limits (mkLocalStream sb (si_ssrc_rtx info) (si_payload_type_rtx info) 0) []) [] [].
Proof.
  intros Hn Hs. unfold sender_start. rewrite sender_registry. unfold Chain_bind_local_stream, on_all, sender_end. cbn [ch_interceptors map ch_read_outs ch_write_outs].
  f_equal. f_equal. cbn [bx_impl bx_state bind_local_stream NackResponder_Interceptor]. unfold NackResponder_bind_local_stream. rewrite Hn.
  cbn [nr_size nr_limits NackResponder_new]. by rewrite Hs.
Qed.

Lemma receiver_start_Ok info size interval skip ss log : stream_supports_nack info = true -> ReceiveLog_new size = Some log ->
  receiver_start info size interval skip ss = receiver_end (generator_with (si_ssrc info) size interval skip ss log None []) [] [].
Proof.
  intros Hn Hs. unfold receiver_start. rewrite receiver_registry. unfold Chain_bind_remote_stream, on_all, receiver_end. cbn [ch_interceptors map ch_read_outs ch_write_outs].
  f_equal. f_equal. cbn [bx_impl bx_state bind_remote_stream NackGenerator_Interceptor]. unfold NackGenerator_bind_remote_stream. rewrite Hn.
  cbn [ng_size NackGenerator_new]. by rewrite Hs.
Qed.

(** What the application's packets and the losses must satisfy. *)
Record nack_scenario (info : StreamInfo) (size_s size_r : Z) (limits : HistoryLimits) (skip ss : Z) (s0 : Sent) (l : list Sent) (r0 : Sent) (rs : list Sent) : Prop := {
  sc_info : stream_supports_nack info = true /\ is_u32 (si_ssrc info) /\ is_u32 ss;
  sc_sizes : is_Some (with_limits size_s limits) /\ is_Some (ReceiveLog_new size_r) /\ size_r <= 16384 /\ 0 <= skip <= 32768;
  sc_limits : age_ok limits /\ payload_bytes (s0 :: l) <= max_bytes limits;
  sc_sent : sendable s0 /\ sent_in_order (st_time s0) size_s (st_seq s0) (st_time s0) l /\ NoDup (st_seq <$> s0 :: l);
  sc_ssrc : forall s, s ∈ s0 :: l -> ssrc (header (st_packet s)) = si_ssrc info /\ sequence_number (header (st_packet s)) = st_seq s mod 65536;
  sc_received : forall r, r ∈ r0 :: rs -> exists s, s ∈ s0 :: l /\ st_seq s = st_seq r /\ st_packet s = st_packet r;
  sc_trackable : trackable size_r (st_seq r0) (st_seq <$> rs)
}.

(** The sender's side of an exchange, after the request for [missing]. *)
Lemma sender_answers fuel info size limits sb k t0 h newest last rtx pt n now ss missing :
  (1 <= fuel)%nat -> (length missing <= fuel)%nat ->
  age_ok limits -> history_ok k limits t0 h newest last sb -> NoDup (st_seq <$> h) -> last <= now < t0 + USIZE ->
  ascending id missing -> (forall x y, x ∈ missing -> y ∈ missing -> y < x + 65536) -> (forall e, e ∈ missing -> newest - 32768 < e <= newest + 32768) ->
  exists sender2 sender3,
    Chain_handle_read fuel (sender_end (responder_with (si_ssrc info) size limits (mkLocalStream sb rtx pt n) []) [] [])
      (request (si_ssrc info) now ss ((fun e => e mod 65536) <$> missing)) = Ok sender2 /\ ch_read_outs sender2 = [] /\
    walk_write fuel sender2 None = Ok sender3 /\
    ch_write_outs sender3 = answer_message now <$> answers (mkLocalStream sb rtx pt n) (omap (retained h limits (2 ^ k) newest now) missing).
Proof.
  intros Hf Hlen Hage Hh Hnd Hnow Hasc Hspan Hrange. set (stream := mkLocalStream sb rtx pt n). set (seqs := (fun e => e mod 65536) <$> missing).
  set (m := request _ _ _ _). set (nack := mkTransportLayerNack ss (si_ssrc info) (nack_pairs_from_sequence_numbers seqs)).
  set (g := fun seq => match SendBuffer_get (E:=MediaError) sb seq now with Ok r => r | _ => None end).
  assert (Hget : forall e, e ∈ missing -> SendBuffer_get (E:=MediaError) sb (e mod 65536) now = Ok (retained h limits (2 ^ k) newest now e)).
  { intros e He. by apply (history_get (E:=MediaError) k limits t0 h newest last sb now e Hage Hh Hnd Hnow), Hrange. }
  assert (Hu : Forall is_u16 seqs) by (apply Forall_forall; intros x (y & -> & _)%list_elem_of_fmap; apply as_u16_range).
  destruct (handle_nack_Ok now nack (responder_with (si_ssrc info) size limits stream []) stream seqs g) as (stream' & Hn).
  { apply lookup_singleton_eq. }
  { cbn [nack tln_nacks]. rewrite (nack_seqs_Ok _ (proj1 (nack_pairs_ok seqs Hu))). f_equal. by apply nack_pairs_ascending. }
  { intros seq (e & -> & He)%list_elem_of_fmap. cbn [ls_send_buffer stream]. unfold g. by rewrite (Hget e He). }
  assert (Hom : omap g seqs = omap (retained h limits (2 ^ k) newest now) missing).
  { unfold seqs. rewrite omap_fmap. apply omap_same. intros e He. unfold g. by rewrite (Hget e He). }
  rewrite Hom in Hn. set (out := answer_message now <$> answers stream _) in *.
  set (r1 := responder_with (si_ssrc info) size limits stream [] <| nr_streams ::= <[tln_media_ssrc nack := stream']> |> <| nr_write_queue ::= fun q => q ++ out |>).
  assert (Hr : NackResponder_handle_read m (responder_with (si_ssrc info) size limits stream []) = Ok (r1 <| nr_read_queue := [m] |>)).
  { unfold NackResponder_handle_read, m, request. cbn [packet tp_message AttributedPacket_new tp_now foldM]. fold nack. rewrite Hn. cbn [mbind outcome_bind]. done. }
  eexists _, _. split; [by apply (sender_read fuel _ (r1 <| nr_read_queue := [m] |>) [] [] m Hf)|]. split; [done|].
  split; [apply sender_flush; change (length out <= fuel)%nat; unfold out; rewrite length_fmap, length_answers; pose proof (length_omap (retained h limits (2 ^ k) newest now) missing); lia|].
  done.
Qed.
End end_to_end.

(** C4: One stream that has negotiated NACK from end to end, through the chains the registry
    builds, with no limit of requests per packet.  The application
    sends packets under distinct sequence numbers, extended past the wrap, none older than
    the sender's window and no jump of half the number space, at times that do not go back;
    all payloads together fit the sender's byte limit (by default there is none), as with a
    smaller limit packets are dropped earlier.  Any of them get lost, and the rest arrive in
    any order in which none is older than the receiver's log or jumps half the number space.
    The log keeps at most 16384 numbers (a log of the documented size 32768 reports
    nothing), skips at most 32768, and the newest packet sent is less than 32768 - [size_r]
    numbers ahead of the newest received.  Then every packet sent reaches the wire and every
    packet received reaches the application, in order; when the timer fires the receiver
    emits exactly one request, for the numbers missing from its log but the last [skip], and
    none if nothing is missing, whose pairs survive the wire format (up to 253 packets
    missing); given that request, the sender emits, tagged as retransmissions, exactly the
    missing packets that are still in its window and not aged out, in the order of their
    numbers (as RTX packets where the stream has an RTX SSRC), and passes nothing of it to
    the application. *)
Theorem nack_repairs_loss (da oc : bool) (other : RtcpTypes) (order : HashOrder) fuel info size_s size_r limits interval skip ss s0 l r0 rs now_r now_s :
  (forall m, order m ≡ₚ map_to_list m) -> (Z.to_nat size_r < fuel)%nat ->
  nack_scenario info size_s size_r limits skip ss s0 l r0 rs ->
  let _ : DebugAssertions := da in
  let _ : OverflowChecks := oc in
  let newest_s := foldl (fun n s => Z.max n (st_seq s)) (st_seq s0) l in
  let newest_r := foldl Z.max (st_seq r0) (st_seq <$> rs) in
  let missing := lost size_r (st_seq r0) newest_r skip (st_seq <$> r0 :: rs) in
  st_time r0 + interval <= now_r -> List.last (st_time <$> l) (st_time s0) <= now_s < st_time s0 + USIZE ->
  newest_r <= newest_s < newest_r + 32768 - size_r ->
  exists sender1 receiver1 receiver2 receiver3,
    send_all fuel (s0 :: l) (sender_start info size_s limits) = Ok sender1 /\ ch_write_outs sender1 = messages (s0 :: l) /\
    receive_all fuel (r0 :: rs) (receiver_start info size_r interval skip ss) = Ok receiver1 /\ ch_read_outs receiver1 = messages (r0 :: rs) /\
    Chain_handle_timeout receiver1 now_r = (Ok tt, receiver2) /\
    let nack := mkTransportLayerNack ss (si_ssrc info) (nack_pairs_from_sequence_numbers ((fun e => e mod 65536) <$> missing)) in
    let message now := mkTaggedPacket now TransportContext_default (AttributedPacket_new (MpRtcp [RtcpTransportLayerNack nack])) in
    Chain_poll_write fuel receiver2 = Ok (if bool_decide (missing = []) then None else Some (message now_r), receiver3) /\
    (missing <> [] -> zlen missing <= 253 -> exists b, marshal (E:=MediaError) nack = Ok b /\ unmarshal (E:=MediaError) b = Ok (nack, [])) /\
    exists sender2 sender3,
      Chain_handle_read fuel (mkChain (ch_interceptors sender1) [] []) (message now_s) = Ok sender2 /\ ch_read_outs sender2 = [] /\
      walk_write fuel sender2 None = Ok sender3 /\
      ch_write_outs sender3 = answer_message now_s <$>
        retransmissions info (omap (retained (s0 :: l) limits size_s newest_s now_s) missing).
Proof.
  intros Horder Hfuel Sc DA OC newest_s newest_r missing Ht Hnow Hnew.
  destruct Sc as [(Hn & Hss & Hs2) ((sb & Hsb) & (log & Hlog) & Hsz & Hsk) (Hage & Hby) (Hs0 & Hin & Hnd) Hssrc Hrcv Htr].
  destruct (history_run (E:=MediaError) _ _ _ _ _ Hsb Hage Hs0 Hin Hnd Hby) as (k & sb' & Hk & E1 & Hh).
  destruct (add_first (E:=MediaError) _ _ (st_seq r0) Hlog) as (kr & log1 & Hkr & E2 & L1). rewrite Hkr in Htr.
  destruct (add_all (E:=MediaError) _ _ _ _ _ _ _ L1 Htr) as (log' & lc & E3 & L2). rewrite <- Hkr in Htr.
  assert (Hperm : rev l ++ [s0] ≡ₚ s0 :: l) by (rewrite <- Permutation_rev; apply Permutation_app_comm).
  assert (Hmiss : missing_seq_numbers (E:=MediaError) log' skip = Ok ((fun e => e mod 65536) <$> missing)).
  { unfold missing. rewrite Hkr. apply (missing_seq_numbers_Ok _ _ _ _ _ _ L2 skip Hsk). pose proof (lo_range _ _ _ _ _ _ L2). lia. }
  pose proof (size_bounds kr (lo_k _ _ _ _ _ _ L2)) as Hb. rewrite <- Hkr in Hb.
  assert (Hrs : forall r, r ∈ r0 :: rs -> ssrc (header (st_packet r)) = si_ssrc info /\ sequence_number (header (st_packet r)) = st_seq r mod 65536).
  { intros r Hr. destruct (Hrcv r Hr) as (s & Hs & Hq & Hp). rewrite <- Hp, <- Hq. by apply Hssrc. }
  assert (E4 : foldM (fun e rl => ReceiveLog_add (E:=MediaError) rl (e mod 65536)) (st_seq <$> r0 :: rs) log = Ok log').
  { cbn [fmap list_fmap foldM]. rewrite E2. exact E3. }
  pose proof (send_all_Ok fuel (si_ssrc info) ltac:(lia) size_s limits (si_ssrc_rtx info) (si_payload_type_rtx info) 0 (s0 :: l) sb sb' [] []
    (fun s Hs => proj1 (Hssrc s Hs)) E1) as Sd.
  pose proof (receive_all_Ok fuel (si_ssrc info) ltac:(lia) size_r interval skip ss (r0 :: rs) log log' None [] [] Hrs E4) as Rv.
  assert (Hlen : (length missing <= fuel)%nat) by (pose proof (length_lost size_r (st_seq r0) newest_r skip (st_seq <$> r0 :: rs)); unfold missing; lia).
  assert (Hrange : forall e, e ∈ missing -> newest_r - size_r < e <= newest_r) by (intros e He%lost_range; lia).
  eexists _, _, _, _. rewrite (sender_start_Ok info size_s limits sb Hn Hsb), (receiver_start_Ok info size_r interval skip ss log Hn Hlog).
  split; [exact Sd|]. split; [done|]. split; [exact Rv|]. split; [done|].
  split; [by apply (receiver_timeout (si_ssrc info) Horder size_r interval skip ss log' _ now_r _ _ _ Ht Hmiss)|]. cbv zeta.
  split; [|split].
  - erewrite receiver_poll; [|cbn; destruct (_ <$> missing); cbn; lia]. cbn [ng_write_queue generator_with].
    f_equal. f_equal. by destruct missing.
  - intros Hne H253. destruct (closed_marshal (E:=MediaError) (ok:=tln_ok) (mkTransportLayerNack ss (si_ssrc info) (nack_pairs_from_sequence_numbers ((fun e => e mod 65536) <$> missing)))) as (b & Eb & _ & Ub); [|by exists b].
    assert (Hu : Forall is_u16 ((fun e => e mod 65536) <$> missing)) by (apply Forall_forall; intros x (y & -> & _)%list_elem_of_fmap; apply as_u16_range).
    destruct (length_nack_pairs ((fun e => e mod 65536) <$> missing)) as [Hl1 Hl2]. rewrite length_fmap in Hl1.
    split; [done|]. split; [done|]. split; [apply (nack_pairs_ok _ Hu)|]. unfold zlen in *. cbn [tln_nacks]. split; [|lia].
    assert (Hn0 : (fun e => e mod 65536) <$> missing <> []) by (by destruct missing). specialize (Hl2 Hn0). lia.
  - destruct (sender_answers fuel info size_s limits sb' k (st_time s0) _ newest_s _ (si_ssrc_rtx info) (si_payload_type_rtx info) 0 now_s ss missing
      ltac:(lia) Hlen Hage Hh ltac:(by rewrite Hperm) Hnow (lost_ascending _ _ _ _ _)) as (sender2 & sender3 & A1 & A2 & A3 & A4).
    { intros x y Hx%Hrange Hy%Hrange. lia. }
    { intros e He%Hrange. lia. }
    exists sender2, sender3. split; [exact A1|]. split; [done|]. split; [done|]. rewrite A4, Hk, answers_retransmissions. f_equal. f_equal.
    apply omap_same. intros e _. apply retained_perm; [done|by rewrite Hperm].
Qed.

(** ** Five packets across the wrap, of which the second and the fourth are lost, with a
    retransmission stream. *)
Definition example_info : StreamInfo := mkStreamInfo 7 (Some 8) (Some 97) [mkRTCPFeedback "nack" ""].
Definition example_sent (e t : Z) : Sent := mkSent e (example_packet (e mod 65536) [e mod 256]) t.

Lemma nack_repairs_loss_witness :
  let _ : OverflowChecks := true in
  exists sender1 sender2 sender3,
    send_all (H:=Empty_set) 65 (example_sent 65534 0 :: map (fun e => example_sent e (e - 65534)) [65535; 65536; 65537; 65538])
      (sender_start (H:=Empty_set) example_info 8 (mkHistoryLimits 1000 (Some 1000))) = Ok sender1 /\
    Chain_handle_read (H:=Empty_set) 65 (mkChain (ch_interceptors sender1) [] []) (request (H:=Empty_set) 7 500 9 [65535; 1]) = Ok sender2 /\
    walk_write 65 sender2 None = Ok sender3 /\
    ch_write_outs sender3 = (fun p => answer_message (H:=Empty_set) 500 p) <$>
      [mkPacket (mkHeader 2 false false false 97 0 3000 8 [] 0 [] 0) [255; 255; 255]; mkPacket (mkHeader 2 false false false 97 1 3000 8 [] 0 [] 0) [0; 1; 1]].
Proof.
  intros OC. destruct (nack_repairs_loss true true Empty_set (fun m => map_to_list m) 65 example_info 8 64 (mkHistoryLimits 1000 (Some 1000)) 100 0 9
    (example_sent 65534 0) (map (fun e => example_sent e (e - 65534)) [65535; 65536; 65537; 65538])
    (example_sent 65534 10) [example_sent 65538 12; example_sent 65536 13] 200 500) as (sender1 & receiver1 & receiver2 & receiver3 & R).
  - reflexivity.
  - vm_compute. lia.
  - split.
    + split_and!; vm_compute; repeat split; congruence.
    + split_and!; [eexists; reflexivity..|vm_compute; congruence|vm_compute; congruence|vm_compute; congruence].
    + split; [intros age [= <-]; split; vm_compute; congruence|vm_compute; congruence].
    + split; [split; vm_compute; reflexivity|]. split; [|apply (bool_decide_eq_true_1 _); vm_compute; reflexivity].
      cbn [map sent_in_order]. unfold sendable. split_and!; first [exact I | vm_compute; repeat split; congruence].
    + intros s Hs. assert (Hl : Forall (fun s => ssrc (header (st_packet s)) = si_ssrc example_info /\ sequence_number (header (st_packet s)) = st_seq s mod 65536)
        (example_sent 65534 0 :: map (fun e => example_sent e (e - 65534)) [65535; 65536; 65537; 65538])).
      { repeat (constructor; [split; vm_compute; reflexivity|]). constructor. }
      exact (proj1 (Forall_forall _ _) Hl s Hs).
    + assert (Hl : Forall (fun r => exists s, s ∈ example_sent 65534 0 :: map (fun e => example_sent e (e - 65534)) [65535; 65536; 65537; 65538] /\
        st_seq s = st_seq r /\ st_packet s = st_packet r) [example_sent 65534 10; example_sent 65538 12; example_sent 65536 13]).
      { apply Forall_cons. split; [|apply Forall_cons; split; [|apply Forall_singleton]].
        - exists (example_sent 65534 0). split; [left|split; reflexivity].
        - exists (example_sent 65538 4). split; [do 4 right; left|split; reflexivity].
        - exists (example_sent 65536 2). split; [do 2 right; left|split; reflexivity]. }
      intros r Hr. exact (proj1 (Forall_forall _ _) Hl r Hr).
    + cbn [trackable fmap list_fmap]. split_and!; first [exact I | vm_compute; repeat split; congruence].
  - vm_compute. congruence.
  - vm_compute. split; congruence.
  - vm_compute. split; congruence.
  - cbv zeta in R. destruct R as (A1 & _ & _ & _ & _ & _ & _ & sender2 & sender3 & A2 & _ & A3 & A4).
    exists sender1, sender2, sender3. split; [exact A1|]. split; [exact A2|]. split; [exact A3|]. refine (eq_trans A4 _). vm_compute. reflexivity.
Defined.

(** * The limit on requests *)

Section limit.
Context `{RtcpTypes, DebugAssertions}.

Lemma count_requests_spec max missing counts : NoDup missing ->
  let '(filtered, counts') := count_requests max missing counts in
  (forall seq, seq ∈ filtered <-> seq ∈ missing /\ default 0 (counts !! seq) < max) /\
  forall seq, default 0 (counts' !! seq) = if bool_decide (seq ∈ missing /\ default 0 (counts !! seq) < max) then default 0 (counts !! seq) + 1 else default 0 (counts !! seq).
Proof.
  intros Hnd. revert counts. induction Hnd as [|s missing Hs Hnd IH]; intros counts; cbn [count_requests].
  - split; [set_solver|]. intros seq. by rewrite bool_decide_false by set_solver.
  - destruct (Z.ltb_spec (default 0 (counts !! s)) max) as [Hlt|Hge].
    + specialize (IH (<[s := default 0 (counts !! s) + 1]> counts)). destruct (count_requests max missing _) as [filtered counts']. destruct IH as [I1 I2]. split.
      * intros seq. rewrite !elem_of_cons, I1. destruct (decide (seq = s)) as [->|Hne]; [rewrite lookup_insert_eq; cbn; tauto|].
        rewrite lookup_insert_ne by done. tauto.
      * intros seq. rewrite I2. destruct (decide (seq = s)) as [->|Hne].
        -- rewrite lookup_insert_eq, bool_decide_false by tauto. rewrite bool_decide_true by (split; [by left|done]). done.
        -- rewrite lookup_insert_ne by done. erewrite bool_decide_ext; [done|]. rewrite elem_of_cons. tauto.
    + specialize (IH (<[s := default 0 (counts !! s)]> counts)). destruct (count_requests max missing _) as [filtered counts']. destruct IH as [I1 I2]. split.
      * intros seq. rewrite I1, elem_of_cons. destruct (decide (seq = s)) as [->|Hne]; [rewrite lookup_insert_eq; cbn; intuition lia|].
        rewrite lookup_insert_ne by done. tauto.
      * intros seq. rewrite I2. destruct (decide (seq = s)) as [->|Hne].
        -- rewrite lookup_insert_eq, bool_decide_false by tauto. rewrite bool_decide_false by (cbn; lia). done.
        -- rewrite lookup_insert_ne by done. erewrite bool_decide_ext; [done|]. rewrite elem_of_cons. tauto.
Qed.

(** Forgetting the counts of what is no longer missing keeps the others. *)
Lemma retain_loop (f : Z -> outcome MediaError bool) (l : list (Z * Z)) acc : (forall k, k ∈ l.*1 -> exists b, f k = Ok b) ->
  exists m', foldM (fun (kv : Z * Z) (acc : gmap Z Z) => keep ← f kv.1; Ok (if (keep : bool) then acc else delete kv.1 acc)) l acc = Ok m' /\
    (forall k, f k = Ok true -> m' !! k = acc !! k) /\ (forall k, k ∈ l.*1 -> f k = Ok false -> m' !! k = None) /\ m' ⊆ acc.
Proof.
  revert acc. induction l as [|[k v] l IH]; intros acc Hf; [exists acc; split_and!; set_solver|]. cbn [foldM fst].
  destruct (Hf k ltac:(by left)) as [b Hb]. rewrite Hb. cbn [mbind outcome_bind].
  destruct (IH (if b then acc else delete k acc) ltac:(intros; apply Hf; by right)) as (m' & E & Hk & Hd & Hm). exists m'. split; [done|]. split_and!.
  - intros k' Hk'. rewrite (Hk k' Hk'). destruct b; [done|]. rewrite lookup_delete_ne; [done|]. intros ->. congruence.
  - intros k' Hin Hk'. cbn in Hin. apply elem_of_cons in Hin as [->|Hin]; [|by apply Hd]. rewrite Hb in Hk'. injection Hk' as ->.
    eapply lookup_weaken_None; [|exact Hm]. apply lookup_delete_eq.
  - etrans; [exact Hm|]. destruct b; [done|]. apply delete_subseteq.
Qed.

Lemma count_requests_keys max missing counts k : is_Some ((count_requests max missing counts).2 !! k) -> is_Some (counts !! k) \/ k ∈ missing.
Proof.
  revert counts. induction missing as [|s missing IH]; intros counts; [by left|]. cbn [count_requests].
  assert (Hk : forall v, is_Some (<[s := v]> counts !! k) -> is_Some (counts !! k) \/ k ∈ s :: missing).
  { intros v. destruct (decide (k = s)) as [->|Hne]; [set_solver|]. rewrite lookup_insert_ne by done. by left. }
  destruct (default 0 (counts !! s) <? max);
    match goal with |- context [count_requests max missing ?c] => specialize (IH c); destruct (count_requests max missing c) end;
    cbn [snd] in *; intros Hs; (destruct (IH Hs); [by eapply Hk|set_solver]).
Qed.

(** What [receive_log_exact] says of a log, at one number of packets to skip. *)
Definition tracks (skip : Z) (log : ReceiveLog) (missing : list Z) : Prop :=
  missing_seq_numbers (E:=MediaError) log skip = Ok missing /\ NoDup missing /\ Forall is_u16 missing /\
  forall seq, is_u16 seq -> is_missing (E:=MediaError) log seq skip = Ok (bool_decide (seq ∈ missing)).

Lemma log_ok_tracks k h first newest last log skip : log_ok k h first newest last log -> k <= 14 -> 0 <= skip <= 32768 ->
  tracks skip log ((fun e => e mod 65536) <$> lost (2 ^ k) first newest skip h).
Proof.
  intros L Hk Hs. pose proof (lo_range _ _ _ _ _ _ L). pose proof (lo_k _ _ _ _ _ _ L). assert (2 ^ k <= 2 ^ 14) by (apply Z.pow_le_mono_r; lia).
  split; [apply (missing_seq_numbers_Ok _ _ _ _ _ _ L); lia|]. split; [|split].
  - apply NoDup_fmap_2_strong.
    + intros x y Hx%lost_range Hy%lost_range E. pose proof (Z.div_mod x 65536). pose proof (Z.div_mod y 65536). lia.
    + unfold lost. apply NoDup_filter, NoDup_seqZ.
  - apply Forall_forall. intros x (y & -> & _)%list_elem_of_fmap. apply as_u16_range.
  - intros seq Hu. apply (is_missing_Ok _ _ _ _ _ _ L); [done|lia|done].
Qed.

(** The packet asks for [seq]. *)
Definition asks (seq : Z) (msg : TaggedPacket) : bool :=
  match packet (tp_message msg) with
  | MpRtcp [RtcpTransportLayerNack nack] => match nack_seqs (E:=MediaError) (tln_nacks nack) with Ok seqs => bool_decide (seq ∈ seqs) | _ => false end
  | _ => false
  end.

Definition counted (ssr seq : Z) (g : NackGenerator) : Z := default 0 (default ∅ (ng_nack_counts g !! ssr) !! seq).
Definition counts_ok (ssr : Z) (g : NackGenerator) : Prop := forall k, is_Some (default ∅ (ng_nack_counts g !! ssr) !! k) -> is_u16 k.

Lemma asks_request now ss ssr filtered seq : Forall is_u16 filtered ->
  asks seq (mkTaggedPacket now TransportContext_default (AttributedPacket_new (MpRtcp [RtcpTransportLayerNack
    (mkTransportLayerNack ss ssr (nack_pairs_from_sequence_numbers filtered))]))) = bool_decide (seq ∈ filtered).
Proof.
  intros Hu. destruct (nack_pairs_ok _ Hu) as [Hp Hx]. unfold asks. cbn [tp_message packet AttributedPacket_new tln_nacks].
  rewrite (nack_seqs_Ok _ Hp). by apply bool_decide_ext.
Qed.

(** One round, for any number. *)
Lemma generate_for_round now ssr log missing seq g : 0 < ng_max_nacks_per_packet g -> counts_ok ssr g -> tracks (ng_skip_last_n g) log missing ->
  let again := bool_decide (seq ∈ missing /\ counted ssr seq g < ng_max_nacks_per_packet g) in
  exists counts out, generate_for now ssr log g = Ok (g <| ng_nack_counts := counts |> <| ng_write_queue ::= fun q => q ++ out |>) /\
    (forall k, is_Some (default ∅ (counts !! ssr) !! k) -> is_u16 k) /\
    default 0 (default ∅ (counts !! ssr) !! seq) = (if bool_decide (seq ∈ missing) then counted ssr seq g + Z.b2z again else 0) /\
    length (filter (asks seq) out) = Nat.b2n again.
Proof.
  intros Hmax Hc (Hm & Hnd & Hu & His) again. unfold generate_for. rewrite Hm. cbn [mbind outcome_bind].
  destruct (decide (missing = [])) as [->|Hmi].
  { rewrite bool_decide_true by done. exists (delete ssr (ng_nack_counts g)), []. split; [f_equal; destruct g; unfold over; cbn; by rewrite app_nil_r|].
    unfold again. rewrite lookup_delete_eq, !bool_decide_false by set_solver. split; [by intros k [? ?]|done]. }
  rewrite bool_decide_false by done.
  rewrite (proj2 (Z.ltb_lt _ _)) by done. cbv zeta. unfold counts_ok, counted in *. set (counts := default ∅ (ng_nack_counts g !! ssr)) in *.
  destruct (retain_loop (fun s => is_missing log s (ng_skip_last_n g)) (map_to_list counts) counts) as (counts1 & Er & Hk & Hd & Hsub).
  { intros k ((k', v) & -> & Hkv%elem_of_map_to_list)%list_elem_of_fmap. eexists. apply His, Hc. by exists v. }
  unfold retain. rewrite Er. cbn [mbind outcome_bind].
  pose proof (count_requests_spec (ng_max_nacks_per_packet g) missing counts1 Hnd) as Hspec. pose proof (count_requests_keys (ng_max_nacks_per_packet g) missing counts1) as Hkeys.
  destruct (count_requests _ missing counts1) as [filtered counts2]. destruct Hspec as [Hf Hcnt]. cbn [mbind outcome_bind].
  assert (Hfu : Forall is_u16 filtered) by (apply Forall_forall; intros x [Hx _]%Hf; rewrite Forall_forall in Hu; by apply Hu).
  assert (Hseq : default 0 (counts1 !! seq) = if bool_decide (seq ∈ missing) then default 0 (counts !! seq) else 0).
  { case_bool_decide as Hin.
    - f_equal. apply Hk. rewrite His by (rewrite Forall_forall in Hu; by apply Hu). by rewrite bool_decide_true.
    - destruct (counts !! seq) as [v|] eqn:Hv; [|by rewrite (lookup_weaken_None _ _ _ Hv Hsub)]. rewrite Hd; [done| |].
      + apply list_elem_of_fmap. exists (seq, v). split; [done|by apply elem_of_map_to_list].
      + rewrite His by (apply Hc; by exists v). by rewrite bool_decide_false. }
  assert (Hag : again = bool_decide (seq ∈ filtered)).
  { apply bool_decide_ext. rewrite Hf, Hseq. case_bool_decide; tauto. }
  assert (Hc2 : default 0 (counts2 !! seq) = if bool_decide (seq ∈ missing) then default 0 (counts !! seq) + Z.b2z again else 0).
  { rewrite Hcnt, Hag, (bool_decide_ext _ _ (Hf seq)), Hseq. repeat case_bool_decide; cbn; try lia; tauto. }
  assert (Hk2 : forall k, is_Some (counts2 !! k) -> is_u16 k).
  { intros k [[v Hv]|Hk']%Hkeys; [apply Hc; exists v; by eapply lookup_weaken|rewrite Forall_forall in Hu; by apply Hu]. }
  exists (<[ssr := counts2]> (ng_nack_counts g)). rewrite lookup_insert_eq. cbn [default from_option id].
  destruct (decide (filtered = [])) as [->|Hne].
  - exists []. rewrite bool_decide_true by done. split; [f_equal; destruct g; unfold over; cbn; by rewrite app_nil_r|]. split; [done|]. split; [done|].
    by rewrite Hag, bool_decide_false by set_solver.
  - eexists. rewrite bool_decide_false by done. split; [reflexivity|]. split; [done|]. split; [done|].
    rewrite filter_cons, filter_nil, asks_request by done. rewrite Hag.
    destruct (bool_decide (seq ∈ filtered)); [rewrite decide_True by done|rewrite decide_False by (intros [])]; done.
Qed.


(** ** Runs of a generator with one stream *)

(** A packet of the stream arrives, under its extended number; the driver calls
    [handle_timeout]; the next request is taken. *)
Inductive NackStep :=
| Arrive (t e : Z) (p : Packet)
| Fire (now : Z)
| Take.

Context `{HashOrder}.

Definition nack_step (st : NackStep) (w : NackGenerator * list TaggedPacket) : outcome MediaError (NackGenerator * list TaggedPacket) :=
  match st with
  | Arrive t e p => g ← NackGenerator_handle_read (media_message t p) w.1; Ok (g, w.2)
  | Fire now => g ← NackGenerator_handle_timeout now w.1; Ok (g, w.2)
  | Take => let '(m, g) := poll_write w.1 in Ok (g, w.2 ++ option_list m)
  end.

(** The requests for [seq], those taken and those waiting. *)
Definition requests (seq : Z) (w : NackGenerator * list TaggedPacket) : Z := Z.of_nat (length (filter (asks seq) (w.2 ++ ng_write_queue w.1))).

(** The numbers missing after the numbers [h] have arrived. *)
Definition missing_after (size skip : Z) (h : list Z) : list Z :=
  match h with [] => [] | e0 :: es => lost size e0 (foldl Z.max e0 es) skip h end.

Definition due (deadline : option Z) (now : Z) : bool := match deadline with Some d => d <=? now | None => false end.

(** Whether [seq] is missing, at each time the timer is due: the first packet starts it,
    and from then on it is due [interval] after it last was. *)
Fixpoint missed (size interval skip seq : Z) (h : list Z) (deadline : option Z) (l : list NackStep) : list bool :=
  match l with
  | [] => []
  | Arrive t e _ :: l => missed size interval skip seq (h ++ [e]) (Some (default (t + interval) deadline)) l
  | Fire now :: l =>
      if due deadline now then
        bool_decide (seq ∈ (fun e => e mod 65536) <$> missing_after size skip h) :: missed size interval skip seq h (Some (now + interval)) l
      else missed size interval skip seq h deadline l
  | Take :: l => missed size interval skip seq h deadline l
  end.

(** The requests a limit allows: each time the number is missing, but no more than [max]
    times in a row; [n] of them have been made. *)
Fixpoint allowance (max n : Z) (l : list bool) : Z :=
  match l with
  | [] => 0
  | true :: l => if n <? max then 1 + allowance max (n + 1) l else allowance max n l
  | false :: l => allowance max 0 l
  end.

Definition step_ok (ssr : Z) (st : NackStep) : Prop :=
  match st with Arrive _ e p => ssrc (header p) = ssr /\ sequence_number (header p) = e mod 65536 | _ => True end.
Definition arrivals (l : list NackStep) : list Z := omap (fun st => match st with Arrive _ e _ => Some e | _ => None end) l.
Definition history_trackable (size : Z) (h : list Z) : Prop := match h with [] => True | e0 :: es => trackable size e0 es end.

(** The log after the numbers [h]. *)
Definition log_for (size : Z) (h : list Z) (log : ReceiveLog) : Prop :=
  match h with
  | [] => ReceiveLog_new size = Some log
  | e0 :: es => exists k last, size = 2 ^ k /\ log_ok k h e0 (foldl Z.max e0 es) last log
  end.

Lemma trackable_app size newest a b : trackable size newest (a ++ b) -> trackable size newest a /\ trackable size (foldl Z.max newest a) b.
Proof. revert newest. induction a as [|x a IH]; intros newest; [done|]. cbn. intros [Hx Ht]. apply IH in Ht. tauto. Qed.

Lemma log_for_add size h log e : log_for size h log -> history_trackable size (h ++ [e]) ->
  exists log', ReceiveLog_add (E:=MediaError) log (e mod 65536) = Ok log' /\ log_for size (h ++ [e]) log'.
Proof.
  destruct h as [|e0 es]; cbn [log_for app history_trackable].
  - intros Hn _. destruct (add_first (E:=MediaError) size log e Hn) as (k & log' & Hk & E & L). exists log'. split; [done|]. by exists k, e.
  - intros (k & last & Hk & L) Ht. apply trackable_app in Ht as [_ Ht]. rewrite Hk in Ht.
    destruct (add_all (E:=MediaError) _ _ _ _ _ _ [e] L Ht) as (log' & last' & E & L'). cbn [foldM] in E.
    destruct (ReceiveLog_add log (e mod 65536)) as [log1| | |]; [|done..]. injection E as ->. exists log'. split; [done|]. exists k, last'.
    split; [done|]. by rewrite foldl_app.
Qed.

Lemma log_for_tracks size h log skip : log_for size h log -> h <> [] -> size <= 16384 -> 0 <= skip <= 32768 ->
  tracks skip log ((fun e => e mod 65536) <$> missing_after size skip h).
Proof.
  destruct h as [|e0 es]; [done|]. intros (k & last & -> & L) _ Hs Hsk. cbn [missing_after]. apply (log_ok_tracks _ _ _ _ last _ _ L); [|done].
  pose proof (lo_k _ _ _ _ _ _ L). apply (Z.pow_le_mono_r_iff 2); lia.
Qed.

Section runs.
Context (ssr size interval skip max ss seq : Z).
Context (Horder : forall m, hash_order m ≡ₚ map_to_list m) (Hsize : size <= 16384) (Hskip : 0 <= skip <= 32768) (Hmax : 0 < max).

(** Where the generator is, after the numbers [h]. *)
Record generator_at (h : list Z) (deadline : option Z) (n : Z) (g : NackGenerator) : Prop := mkGeneratorAt {
  ga_settings : ng_interval g = interval /\ ng_skip_last_n g = skip /\ ng_max_nacks_per_packet g = max;
  ga_deadline : ng_next_timeout g = deadline /\ (is_Some deadline -> h <> []);
  ga_log : exists log, ng_receive_logs g = {[ssr := log]} /\ log_for size h log;
  ga_counts : counts_ok ssr g /\ counted ssr seq g = n
}.

Lemma arrive_at h deadline n g t e p : generator_at h deadline n g -> step_ok ssr (Arrive t e p) -> history_trackable size (h ++ [e]) ->
  exists g', NackGenerator_handle_read (media_message t p) g = Ok g' /\ ng_write_queue g' = ng_write_queue g /\
    generator_at (h ++ [e]) (Some (default (t + interval) deadline)) n g'.
Proof using Type.
  intros [(S1 & S2 & S3) (D1 & D2) (log & L1 & L2) (C1 & C2)] [Hss Hsq] Ht.
  destruct (log_for_add size h log e L2 Ht) as (log' & E & L'). unfold NackGenerator_handle_read. cbn [packet tp_message media_message AttributedPacket_new tp_now].
  rewrite L1, Hss, lookup_singleton_eq, Hsq, E. cbn [mbind outcome_bind]. eexists. split; [reflexivity|].
  destruct g; cbn in *; subst. destruct deadline; unfold over; cbn; (split; [done|]);
    (split; cbn; [done|split; [done|intros _ Hn; by apply app_eq_nil in Hn as [_ ?]]|exists log'; split; [by rewrite insert_singleton_eq|done]|done]).
Qed.

Lemma fire_due h deadline n g now : generator_at h deadline n g -> due deadline now = true ->
  let m := bool_decide (seq ∈ (fun e => e mod 65536) <$> missing_after size skip h) in
  exists g' out, NackGenerator_handle_timeout now g = Ok g' /\ ng_write_queue g' = ng_write_queue g ++ out /\
    length (filter (asks seq) out) = Nat.b2n (m && (n <? max)) /\
    generator_at h (Some (now + interval)) (if m then (if n <? max then n + 1 else n) else 0) g'.
Proof using Horder Hsize Hskip Hmax.
  intros [(S1 & S2 & S3) (D1 & D2) (log & L1 & L2) (C1 & C2)] Hd m. unfold due in Hd. destruct deadline as [d|]; [|done].
  assert (Hh : h <> []) by (apply D2; by exists d).
  unfold NackGenerator_handle_timeout. rewrite D1, Hd. unfold generate_nacks.
  set (g1 := g <| ng_next_timeout := Some (now + ng_interval g) |>). change (ng_receive_logs g1) with (ng_receive_logs g). rewrite L1.
  assert (Ho : hash_order ({[ssr := log]} : gmap Z ReceiveLog) = [(ssr, log)]).
  { apply Permutation_singleton_r. rewrite Horder. by rewrite map_to_list_singleton. }
  rewrite Ho. cbn [foldM fst snd].
  pose proof (log_for_tracks size h log skip L2 Hh Hsize Hskip) as Ht.
  destruct (generate_for_round now ssr log _ seq g1 ltac:(change (0 < ng_max_nacks_per_packet g); lia) C1 ltac:(change (ng_skip_last_n g1) with (ng_skip_last_n g); rewrite S2; exact Ht))
    as (counts & out & E & K1 & K2 & K3).
  rewrite E. cbn [mbind outcome_bind]. eexists _, out. split; [done|]. split; [done|].
  change (counted ssr seq g1) with (counted ssr seq g) in *. change (ng_max_nacks_per_packet g1) with (ng_max_nacks_per_packet g) in *. rewrite C2, S3 in *. fold m in K2.
  assert (Hb : bool_decide (seq ∈ (fun e => e mod 65536) <$> missing_after size skip h /\ n < max) = m && (n <? max)).
  { unfold m. destruct (Z.ltb_spec n max); repeat case_bool_decide; cbn; tauto || lia. }
  rewrite Hb in K2, K3. split; [done|]. split; [done|split; [cbn; by rewrite S1|done]|by exists log|].
  split; [exact K1|]. unfold counted. change (ng_nack_counts (g1 <| ng_nack_counts := counts |> <| ng_write_queue ::= fun q => q ++ out |>)) with counts.
  rewrite K2. destruct m; [|done]. cbn. destruct (n <? max); cbn; lia.
Qed.

Lemma fire_early h deadline n g now : generator_at h deadline n g -> due deadline now = false -> NackGenerator_handle_timeout now g = Ok g.
Proof using Type.
  intros [_ (D1 & _) _ _] Hd. unfold NackGenerator_handle_timeout, due in *. rewrite D1. destruct deadline; [by rewrite Hd|done].
Qed.

Lemma take_at h deadline n w : generator_at h deadline n w.1 ->
  exists w', nack_step Take w = Ok w' /\ requests seq w' = requests seq w /\ generator_at h deadline n w'.1.
Proof using Type.
  destruct w as [g out]. intros G. cbn [nack_step poll_write NackGenerator_Interceptor fst snd]. unfold pop_queue.
  destruct (ng_write_queue g) as [|m q] eqn:Eq.
  - exists (g, out). cbn [option_list]. by rewrite app_nil_r.
  - eexists. split; [reflexivity|]. unfold requests. cbn [fst snd option_list]. split.
    + change (ng_write_queue (g <| ng_write_queue := q |>)) with q. by rewrite Eq, <- (assoc_L app).
    + destruct G as [? ? ? ?]. by split.
Qed.

Lemma run_requests l : forall h deadline n w, generator_at h deadline n w.1 -> Forall (step_ok ssr) l -> history_trackable size (h ++ arrivals l) ->
  exists w', foldM nack_step l w = Ok w' /\ requests seq w' = requests seq w + allowance max n (missed size interval skip seq h deadline l).
Proof using Horder Hsize Hskip Hmax.
  induction l as [|st l IH]; intros h deadline n w G Hl Ht; [exists w; split; [done|cbn; lia]|].
  apply Forall_cons in Hl as [Hst Hl]. cbn [foldM]. destruct st as [t e p|now|]; cbn [missed].
  - change (arrivals (Arrive t e p :: l)) with (e :: arrivals l) in Ht. rewrite cons_middle, (assoc_L app) in Ht.
    assert (Ht1 : history_trackable size (h ++ [e])).
    { destruct h as [|e0 es]; [done|]. cbn [app history_trackable] in *. by apply trackable_app in Ht as [? _]. }
    destruct (arrive_at h deadline n w.1 t e p G Hst Ht1) as (g' & E & Hq & G'). cbn [nack_step]. rewrite E. cbn [mbind outcome_bind].
    destruct (IH _ _ n (g', w.2) G' Hl Ht) as (w' & E' & R). exists w'. split; [done|]. rewrite R. unfold requests. cbn [fst snd]. by rewrite Hq.
  - cbn [nack_step]. destruct (due deadline now) eqn:Hd.
    + destruct (fire_due h deadline n w.1 now G Hd) as (g' & out & E & Hq & Hout & G'). rewrite E. cbn [mbind outcome_bind].
      destruct (IH _ _ _ (g', w.2) G' Hl Ht) as (w' & E' & R). exists w'. split; [done|]. rewrite R. unfold requests. cbn [fst snd].
      rewrite Hq, (assoc_L app), !filter_app, !length_app, Hout. cbn [allowance].
      destruct (bool_decide _); [destruct (n <? max)|]; cbn [andb Nat.b2n]; lia.
    + rewrite (fire_early h deadline n w.1 now G Hd). cbn [mbind outcome_bind]. destruct w as [g out]. by apply IH.
  - destruct (take_at h deadline n w G) as (w1 & -> & R1 & G1). cbn [mbind outcome_bind]. rewrite <- R1. by apply IH.
Qed.
End runs.

Lemma allowance_always max n l : 0 <= n <= max -> Forall (eq true) l -> allowance max n l = Z.min (zlen l) (max - n).
Proof using Type.
  intros Hn Hl. revert n Hn. induction Hl as [|b l <- _ IH]; intros n Hn; [change (zlen []) with 0; cbn; lia|]. cbn [allowance]. rewrite zlen_cons.
  pose proof (zlen_nonneg l). destruct (Z.ltb_spec n max); rewrite IH; lia.
Qed.
End limit.

(** C35: The limit of requests per packet.  A generator with a limit is bound to a stream; its
    log keeps at most 16384 numbers and it skips at most the last 32768.  Then in every run,
    in which packets of the stream arrive (none older than the log, no jump of half the
    number space), [handle_timeout] is called and requests are taken, in any order and at
    any times, nothing fails, and the NACK packets that ask for a number are as many as the
    limit allows: one each time the timer is due and the number is missing, but no more than
    [max] while it stays missing.  So a number that is missing each time the timer is due is
    asked for exactly that often, or [max] times if that is fewer. *)
Theorem nack_requests_limited (da : bool) (other : RtcpTypes) (order : HashOrder) info size interval skip max ss seq (l : list NackStep) :
  let _ : DebugAssertions := da in
  (forall m, order m ≡ₚ map_to_list m) -> stream_supports_nack info = true -> is_Some (ReceiveLog_new size) -> size <= 16384 ->
  0 <= skip <= 32768 -> 0 < max -> Forall (step_ok (si_ssrc info)) l -> history_trackable size (arrivals l) ->
  exists w, foldM nack_step l (NackGenerator_bind_remote_stream info (NackGenerator_new size interval skip max ss), []) = Ok w /\
    let m := missed size interval skip seq [] None l in
    requests seq w = allowance max 0 m /\
    (Forall (eq true) m -> requests seq w = Z.min (zlen m) max).
Proof.
  intros DA Horder Hn [log Hlog] Hsize Hskip Hmax Hl Ht.
  destruct (run_requests (si_ssrc info) size interval skip max seq Horder Hsize Hskip Hmax l [] None 0
    (NackGenerator_bind_remote_stream info (NackGenerator_new size interval skip max ss), [])) as (w & E & R); [|done|done|].
  - unfold NackGenerator_bind_remote_stream. rewrite Hn. cbn [ng_size NackGenerator_new]. rewrite Hlog. cbn.
    split; [done|split; [done|by intros [? ?]]|by exists log|]. split; [by intros k [? ?]|done].
  - assert (R0 : requests seq (NackGenerator_bind_remote_stream info (NackGenerator_new size interval skip max ss), []) = 0).
    { unfold NackGenerator_bind_remote_stream. rewrite Hn. cbn [ng_size NackGenerator_new]. by rewrite Hlog. }
    exists w. split; [exact E|]. rewrite R, R0. cbv zeta. split; [lia|]. intros Hm.
    by rewrite (allowance_always max 0 _ ltac:(lia) Hm), Z.sub_0_r.
Qed.

(** Packets 1 and 3 arrive, and 2 after the timer was due three times; with a limit of two
    it is asked for twice. *)
Definition example_media (seq : Z) : Packet := mkPacket (mkHeader 2 false false false 96 seq 0 7 [] 0 [] 0) [].
Definition example_steps : list NackStep :=
  [Arrive 0 1 (example_media 1); Arrive 5 3 (example_media 3); Fire 10; Take; Fire 12; Fire 20; Fire 30; Arrive 31 2 (example_media 2); Fire 40].

Lemma nack_requests_limited_witness :
  exists w, foldM (nack_step (H:=Empty_set) (H0:=true) (H1:=fun m => map_to_list m)) example_steps
      (NackGenerator_bind_remote_stream (H:=Empty_set) example_info (NackGenerator_new (H:=Empty_set) 64 10 0 2 9), []) = Ok w /\
    requests (H:=Empty_set) 2 w = 2 /\ missed 64 10 0 2 [] None example_steps = [true; true; true; false].
Proof.
  destruct (nack_requests_limited true Empty_set (fun m => map_to_list m) example_info 64 10 0 2 9 2 example_steps) as (w & E & R & _);
    [done|done|by eexists|lia|lia|lia|repeat constructor; done|cbn; lia|].
  exists w. split; [exact E|]. split; [|by vm_compute]. rewrite R. by vm_compute.
Defined.
