(* ===== verification/Crypto.v ===== *)
(** The cryptographic operations of [rtc-crypto]: the algorithms, the errors, the keyed
    objects of its traits as records of functions, and the laws the protocols that use
    them rely on.  The primitives themselves (AES, HMAC, GCM) come from third-party
    crates and are parameters; [verify_mac] is the providers' own code over [sign]. *)
From S2P Require Import Prelude.

(** * The cryptographic operations ([rtc-crypto/src/traits.rs], [algorithm.rs]) *)

Inductive HmacAlgorithm := HmacSha1 | HmacSha256.
Inductive AeadAlgorithm := Aes128Gcm | Aes256Gcm | Aes128Ccm | Aes128Ccm8 | ChaCha20Poly1305.
Inductive StreamCipherAlgorithm := Aes128Ctr | Aes256Ctr.
Inductive BlockCipherAlgorithm := Aes128 | Aes256.
(** The algorithms the SRTP profiles ask for; [CryptoAlgorithm] has others. *)
Inductive CryptoAlgorithm :=
| Hmac (a : HmacAlgorithm)
| Aead (a : AeadAlgorithm)
| StreamCipher_ (a : StreamCipherAlgorithm)
| BlockCipher (a : BlockCipherAlgorithm).

Inductive CryptoError :=
| UnsupportedAlgorithm (a : CryptoAlgorithm)
| InvalidKeyLength (expected actual : Z)
| InvalidNonceLength (expected actual : Z)
| InvalidTagLength (expected actual : Z)
| AuthenticationFailed
| OutputTooSmall (required actual : Z).
Abbreviation crypto_result A := (outcome CryptoError A).

Definition HmacAlgorithm_output_len (a : HmacAlgorithm) : Z := match a with HmacSha1 => 20 | HmacSha256 => 32 end.

(** A keyed object is the functions it computes with its key; buffers changed in place
    are returned, and an output buffer is given by its length. *)
Record Mac := mkMac { sign : list bytes -> Z -> crypto_result bytes }.
Record StreamCipher := mkStreamCipher { apply_keystream : bytes -> bytes -> crypto_result bytes }.
Record AeadCipher := mkAeadCipher {
  tag_len : Z;
  seal_in_place : bytes -> bytes -> bytes -> Z -> crypto_result (bytes * bytes);
  open_in_place : bytes -> bytes -> bytes -> bytes -> crypto_result bytes
}.
Record RTCCrypto := mkRTCCrypto {
  supports : CryptoAlgorithm -> bool;
  block_encrypt : BlockCipherAlgorithm -> bytes -> bytes -> crypto_result bytes;
  new_hmac : HmacAlgorithm -> bytes -> crypto_result Mac;
  new_stream_cipher : StreamCipherAlgorithm -> bytes -> crypto_result StreamCipher;
  new_aead : AeadAlgorithm -> bytes -> crypto_result AeadCipher
}.

(** * Comparing tags ([lib.rs], [common.rs], [providers/ring.rs]) *)

Definition constant_time_eq (left right : bytes) : bool := (zlen left =? zlen right) && bool_decide (left = right).

Definition check_tag_len (expected actual : Z) : crypto_result unit :=
  if expected =? actual then Ok tt else Err (InvalidTagLength expected actual).
(** [RingHmac::verify] with the key's output length. *)
Definition verify_mac (m : Mac) (output_len : Z) (input : list bytes) (expected : bytes) : crypto_result unit :=
  _ ← check_tag_len output_len (zlen expected);
  actual ← sign m input output_len;
  if constant_time_eq actual expected then Ok tt else Err AuthenticationFailed.

(** * What the protocols rely on *)

Class StreamLaws (s : StreamCipher) : Prop := mkStreamLaws {
  keystream_total : forall iv d, zlen iv = 16 -> exists d', apply_keystream s iv d = Ok d' /\ zlen d' = zlen d /\
    apply_keystream s iv d' = Ok d /\ (bytes_ok d -> bytes_ok d')
}.

Class MacLaws (m : Mac) : Prop := mkMacLaws {
  sign_total : forall parts, exists t, sign m parts 20 = Ok t /\ zlen t = 20 /\ bytes_ok t
}.

(** Keying succeeds. *)
Class HmacLaws (c : RTCCrypto) : Prop := hmac_ok : forall key, exists m, new_hmac c HmacSha1 key = Ok m /\ MacLaws m.

(** Opening succeeds exactly on what sealing produces. *)
Class AeadLaws (a : AeadCipher) : Prop := mkAeadLaws {
  aead_tag : tag_len a = 16;
  seal_total : forall nonce aad pt, zlen nonce = 12 -> exists ct tag, seal_in_place a nonce aad pt 16 = Ok (ct, tag) /\
    zlen ct = zlen pt /\ zlen tag = 16 /\ (bytes_ok pt -> bytes_ok ct /\ bytes_ok tag);
  open_exact : forall nonce aad ct tag pt, zlen nonce = 12 -> zlen tag = 16 ->
    open_in_place a nonce aad ct tag = Ok pt <-> seal_in_place a nonce aad pt 16 = Ok (ct, tag);
  open_safe : forall nonce aad ct tag, zlen nonce = 12 -> zlen tag = 16 -> post (open_in_place a nonce aad ct tag) (fun _ => True)
}.

Lemma tags_equal_spec l r : constant_time_eq l r = true <-> l = r.
Proof. unfold constant_time_eq. rewrite andb_true_iff, Z.eqb_eq, bool_decide_eq_true. naive_solver. Qed.

(** Verifying succeeds exactly on the tag that signing gives; otherwise it fails with one
    of two errors. *)
Lemma verify_mac_spec m input expected :
  MacLaws m ->
  (verify_mac m 20 input expected = Ok tt /\ sign m input 20 = Ok expected) \/
  (sign m input 20 <> Ok expected /\ (verify_mac m 20 input expected = Err AuthenticationFailed \/
    verify_mac m 20 input expected = Err (InvalidTagLength 20 (zlen expected)))).
Proof.
  intros Hm. destruct (sign_total input) as (t & Hs & Hl & _). unfold verify_mac, check_tag_len. rewrite Hs.
  destruct (Z.eqb_spec 20 (zlen expected)); cbn.
  - destruct (constant_time_eq t expected) eqn:E.
    + apply tags_equal_spec in E as ->. by left.
    + right. split; [|by left]. intros [= ->]. rewrite (proj2 (tags_equal_spec _ _)) in E; done.
  - right. split; [|by right]. intros [= ->]. lia.
Qed.
