(* ===== verification/SrtpCipher.v ===== *)
(** The SRTP ciphers ([rtc-srtp/src/cipher], [key_derivation.rs],
    [protection_profile.rs]) over the cryptographic operations of [rtc-crypto]'s traits,
    which are parameters with their laws: the key derivations, the initialization
    vectors, AES-CM with HMAC-SHA1 and AES-GCM.  Proved: both ciphers keep the laws of
    the [Cipher] interface, and the initialization vectors are distinct. *)
From S2P Require Import Prelude Crypto Marshal Rtp Rtcp.

(** [.map_err(crypto_error)?]. *)
Definition crypto_error {A} (m : crypto_result A) : rtp_result A :=
  match m with Ok x => Ok x | Err _ => Err CryptoErr | Panic => Panic | Diverge => Diverge end.
(** [.map_err(|_| e)?]. *)
Definition or_error {A} (e : MediaError) (m : crypto_result A) : rtp_result A :=
  match m with Ok x => Ok x | Err _ => Err e | Panic => Panic | Diverge => Diverge end.

(** * Protection profiles *)

Inductive ProtectionProfile :=
| Aes128CmHmacSha1_80 | Aes128CmHmacSha1_32 | Aes256CmHmacSha1_80 | Aes256CmHmacSha1_32 | AeadAes128Gcm | AeadAes256Gcm.

Definition required_crypto_algorithms (p : ProtectionProfile) : list CryptoAlgorithm :=
  match p with
  | Aes128CmHmacSha1_32 | Aes128CmHmacSha1_80 => [BlockCipher Aes128; StreamCipher_ Aes128Ctr; Hmac HmacSha1]
  | Aes256CmHmacSha1_32 | Aes256CmHmacSha1_80 => [BlockCipher Aes256; StreamCipher_ Aes256Ctr; Hmac HmacSha1]
  | AeadAes128Gcm => [BlockCipher Aes128; Aead Aes128Gcm]
  | AeadAes256Gcm => [BlockCipher Aes256; Aead Aes256Gcm]
  end.

Fixpoint ensure_supported (crypto : RTCCrypto) (l : list CryptoAlgorithm) : rtp_result unit :=
  match l with
  | [] => Ok tt
  | a :: l => if negb (supports crypto a) then Err CryptoErr else ensure_supported crypto l
  end.
Definition ensure_crypto_supported (p : ProtectionProfile) (crypto : RTCCrypto) : rtp_result unit :=
  ensure_supported crypto (required_crypto_algorithms p).

Definition key_len (p : ProtectionProfile) : Z :=
  match p with
  | Aes128CmHmacSha1_32 | Aes128CmHmacSha1_80 | AeadAes128Gcm => 16
  | Aes256CmHmacSha1_32 | Aes256CmHmacSha1_80 => 32
  | AeadAes256Gcm => 32
  end.
Definition salt_len (p : ProtectionProfile) : Z :=
  match p with
  | Aes128CmHmacSha1_32 | Aes128CmHmacSha1_80 | Aes256CmHmacSha1_32 | Aes256CmHmacSha1_80 => 14
  | AeadAes128Gcm | AeadAes256Gcm => 12
  end.
Definition profile_rtp_auth_tag_len (p : ProtectionProfile) : Z :=
  match p with
  | Aes128CmHmacSha1_80 | Aes256CmHmacSha1_80 => 10
  | Aes128CmHmacSha1_32 | Aes256CmHmacSha1_32 => 4
  | AeadAes128Gcm | AeadAes256Gcm => 0
  end.
Definition profile_rtcp_auth_tag_len (p : ProtectionProfile) : Z :=
  match p with
  | Aes128CmHmacSha1_80 | Aes128CmHmacSha1_32 | Aes256CmHmacSha1_80 | Aes256CmHmacSha1_32 => 10
  | AeadAes128Gcm | AeadAes256Gcm => 0
  end.
Definition profile_aead_auth_tag_len (p : ProtectionProfile) : Z :=
  match p with
  | Aes128CmHmacSha1_80 | Aes128CmHmacSha1_32 | Aes256CmHmacSha1_80 | Aes256CmHmacSha1_32 => 0
  | AeadAes128Gcm | AeadAes256Gcm => 16
  end.
Definition auth_key_len (p : ProtectionProfile) : Z :=
  match p with
  | Aes128CmHmacSha1_80 | Aes128CmHmacSha1_32 | Aes256CmHmacSha1_80 | Aes256CmHmacSha1_32 => 20
  | AeadAes128Gcm | AeadAes256Gcm => 0
  end.

(** * Key derivation *)

Definition LABEL_SRTP_ENCRYPTION : Z := 0.
Definition LABEL_SRTP_AUTHENTICATION_TAG : Z := 1.
Definition LABEL_SRTP_SALT : Z := 2.
Definition LABEL_SRTCP_ENCRYPTION : Z := 3.
Definition LABEL_SRTCP_AUTHENTICATION_TAG : Z := 4.
Definition LABEL_SRTCP_SALT : Z := 5.
Definition SRTCP_INDEX_SIZE : Z := 4.

(** [for i in 0..salt.len() { c[i] ^= salt[i] }] for a salt that is not longer. *)
Fixpoint xor_salt (c salt : bytes) : bytes :=
  match c, salt with
  | x :: c, s :: salt => Z.lxor x s :: xor_salt c salt
  | _, _ => c
  end.

(** The loop over the output blocks: [k] more blocks from the one numbered [i] on. *)
Fixpoint kdf_blocks (enc : bytes -> crypto_result bytes) (step : Z) (k : nat) (i : Z) (prf_in out : bytes) : rtp_result bytes :=
  match k with
  | O => Ok out
  | S k =>
      prf_in ← splice prf_in (step - 2) [Z.land (Z.shiftr i 8) 255; Z.land i 255];
      out ← splice out (i * step) prf_in;
      block ← slice out (i * step) (i * step + 16);
      block ← crypto_error (enc block);
      out ← splice out (i * step) block;
      kdf_blocks enc step k (i + 1) prf_in out
  end.

(** [(0..out_len).step_by(step)] has this many elements. *)
Definition kdf_count (out_len step : Z) : nat := Z.to_nat (div_ceil out_len step).

Definition aes_cm_key_derivation (crypto : RTCCrypto) (label : Z) (master_key master_salt : bytes) (index_over_kdr out_len : Z)
  : rtp_result bytes :=
  if negb (index_over_kdr =? 0) then Err UnsupportedIndexOverKdr
  else
    let n_master_key := zlen master_key in
    prf_in ← splice (zeros n_master_key) 0 master_salt;
    b ← index prf_in 7;
    prf_in ← splice prf_in 7 [Z.lxor b label];
    let out := zeros ((out_len + n_master_key) / n_master_key * n_master_key) in
    out ← kdf_blocks (block_encrypt crypto Aes128 master_key) n_master_key (kdf_count out_len n_master_key) 0 prf_in out;
    slice out 0 out_len.

Definition AES_256_BS : Z := 16.
Definition aes_256_cm_key_derivation (crypto : RTCCrypto) (label : Z) (master_key master_salt : bytes) (index_over_kdr out_len : Z)
  : rtp_result bytes :=
  if negb (index_over_kdr =? 0) then Err UnsupportedIndexOverKdr
  else if negb (zlen master_key =? 32) then Err InvalidMasterKeyLength
  else if 14 <? zlen master_salt then Err InvalidMasterSaltLength
  else if 32 <? out_len then Err UnsupportedOutLength
  else
    let prf_in := xor_salt (zeros 7 ++ [label] ++ put_u32 index_over_kdr ++ zeros 4) master_salt in
    let out := zeros ((out_len + AES_256_BS) / AES_256_BS * AES_256_BS) in
    out ← kdf_blocks (block_encrypt crypto Aes256 master_key) AES_256_BS (kdf_count out_len AES_256_BS) 0 prf_in out;
    slice out 0 out_len.

Definition generate_counter (sequence_number rollover_counter ssrc : Z) (session_salt : bytes) : rtp_result bytes :=
  if 16 <? zlen session_salt then Panic
  else Ok (xor_salt (zeros 4 ++ put_u32 ssrc ++ put_u32 rollover_counter ++ put_u32 (Z.shiftl sequence_number 16)) session_salt).

(** * The interface of a cipher *)

Record Cipher := mkCipher {
  rtp_auth_tag_len : Z;
  rtcp_auth_tag_len : Z;
  aead_auth_tag_len : Z;
  get_rtcp_index : bytes -> rtp_result Z;
  encrypt_rtp_in_place : bytes -> Header -> Z -> rtp_result bytes;
  decrypt_rtp_in_place : bytes -> Header -> Z -> rtp_result bytes;
  cipher_encrypt_rtcp : bytes -> Z -> Z -> rtp_result bytes;
  cipher_decrypt_rtcp : bytes -> Z -> Z -> rtp_result bytes
}.

(** The provided methods: a copy of the packet, changed in place. *)
Definition cipher_encrypt_rtp (c : Cipher) (payload : bytes) (h : Header) (roc : Z) : rtp_result bytes :=
  encrypt_rtp_in_place c payload h roc.
Definition cipher_decrypt_rtp (c : Cipher) (payload : bytes) (h : Header) (roc : Z) : rtp_result bytes :=
  decrypt_rtp_in_place c payload h roc.

(** * AES counter mode with HMAC-SHA1 *)

Record CipherAesCmHmacSha1 := mkCipherAesCmHmacSha1 {
  cm_profile : ProtectionProfile;
  cm_srtp_session_salt : bytes;
  cm_srtp_session_auth : Mac;
  cm_srtcp_session_salt : bytes;
  cm_srtcp_session_auth : Mac;
  cm_srtp_cipher : StreamCipher;
  cm_srtcp_cipher : StreamCipher
}.

Definition CipherAesCmHmacSha1_new (profile : ProtectionProfile) (master_key master_salt : bytes) (crypto : RTCCrypto)
  : rtp_result CipherAesCmHmacSha1 :=
  '(kdf, algorithm) ← match profile with
    | Aes128CmHmacSha1_32 | Aes128CmHmacSha1_80 => Ok (aes_cm_key_derivation, Aes128Ctr)
    | Aes256CmHmacSha1_80 | Aes256CmHmacSha1_32 => Ok (aes_256_cm_key_derivation, Aes256Ctr)
    | _ => Err NoAesProfile
    end;
  srtp_session_key ← kdf crypto LABEL_SRTP_ENCRYPTION master_key master_salt 0 (zlen master_key);
  srtcp_session_key ← kdf crypto LABEL_SRTCP_ENCRYPTION master_key master_salt 0 (zlen master_key);
  srtp_cipher ← crypto_error (new_stream_cipher crypto algorithm srtp_session_key);
  srtcp_cipher ← crypto_error (new_stream_cipher crypto algorithm srtcp_session_key);
  srtp_session_salt ← kdf crypto LABEL_SRTP_SALT master_key master_salt 0 (zlen master_salt);
  srtcp_session_salt ← kdf crypto LABEL_SRTCP_SALT master_key master_salt 0 (zlen master_salt);
  let auth_key_len := auth_key_len profile in
  srtp_session_auth ← kdf crypto LABEL_SRTP_AUTHENTICATION_TAG master_key master_salt 0 auth_key_len;
  srtcp_session_auth ← kdf crypto LABEL_SRTCP_AUTHENTICATION_TAG master_key master_salt 0 auth_key_len;
  srtp_session_auth ← crypto_error (new_hmac crypto HmacSha1 srtp_session_auth);
  srtcp_session_auth ← crypto_error (new_hmac crypto HmacSha1 srtcp_session_auth);
  Ok (mkCipherAesCmHmacSha1 profile srtp_session_salt srtp_session_auth srtcp_session_salt srtcp_session_auth srtp_cipher srtcp_cipher).

Definition generate_srtp_auth_tag (c : CipherAesCmHmacSha1) (buf : bytes) (roc : Z) : rtp_result bytes :=
  crypto_error (sign (cm_srtp_session_auth c) [buf; put_u32 roc] 20).
Definition generate_srtcp_auth_tag (c : CipherAesCmHmacSha1) (buf : bytes) : rtp_result bytes :=
  crypto_error (sign (cm_srtcp_session_auth c) [buf] 20).

(** [cipher.apply_keystream(&counter, &mut packet[off..])]. *)
Definition keystream_from (s : StreamCipher) (counter packet : bytes) (off : Z) : rtp_result bytes :=
  rest ← slice packet off (zlen packet);
  rest ← crypto_error (apply_keystream s counter rest);
  Ok (take (Z.to_nat off) packet ++ rest).

Definition cm_get_rtcp_index (c : CipherAesCmHmacSha1) (input : bytes) : rtp_result Z :=
  let tail_offset := zlen input - (profile_rtcp_auth_tag_len (cm_profile c) + SRTCP_INDEX_SIZE) in
  w ← slice input tail_offset (tail_offset + SRTCP_INDEX_SIZE);
  '(v, _) ← get_u32 w;
  Ok (Z.land v 2147483647).

Definition cm_encrypt_rtp_in_place (c : CipherAesCmHmacSha1) (packet : bytes) (h : Header) (roc : Z) : rtp_result bytes :=
  let header_len := Header_size h in
  if zlen packet <? header_len then Err ErrTooShortRtp
  else
    counter ← generate_counter (sequence_number h) roc (ssrc h) (cm_srtp_session_salt c);
    packet ← keystream_from (cm_srtp_cipher c) counter packet header_len;
    full_auth_tag ← generate_srtp_auth_tag c packet roc;
    auth_tag ← slice full_auth_tag 0 (profile_rtp_auth_tag_len (cm_profile c));
    Ok (packet ++ auth_tag).

Definition cm_decrypt_rtp_in_place (c : CipherAesCmHmacSha1) (packet : bytes) (h : Header) (roc : Z) : rtp_result bytes :=
  let encrypted_len := zlen packet in
  let tag_len := profile_rtp_auth_tag_len (cm_profile c) in
  if encrypted_len <? tag_len then Err (SrtpTooSmall encrypted_len tag_len)
  else
    let tag_offset := encrypted_len - tag_len in
    let cipher_text := take (Z.to_nat tag_offset) packet in
    let actual_tag := drop (Z.to_nat tag_offset) packet in
    full_expected_tag ← generate_srtp_auth_tag c cipher_text roc;
    expected_tag ← slice full_expected_tag 0 tag_len;
    if negb (constant_time_eq actual_tag expected_tag) then Err RtpFailedToVerifyAuthTag
    else
      counter ← generate_counter (sequence_number h) roc (ssrc h) (cm_srtp_session_salt c);
      let header_len := Header_size h in
      if zlen cipher_text <? header_len then Err ErrTooShortRtp
      else keystream_from (cm_srtp_cipher c) counter cipher_text header_len.

Definition cm_encrypt_rtcp (c : CipherAesCmHmacSha1) (decrypted : bytes) (srtcp_index ssrc : Z) : rtp_result bytes :=
  counter ← generate_counter (Z.land srtcp_index 65535) (as_u32 (Z.shiftr srtcp_index 16)) ssrc (cm_srtcp_session_salt c);
  writer ← keystream_from (cm_srtcp_cipher c) counter decrypted (RTCP_HEADER_LENGTH + SSRC_LENGTH);
  let writer := writer ++ put_u32 (Z.lor (as_u32 srtcp_index) 2147483648) in
  full_auth_tag ← generate_srtcp_auth_tag c writer;
  auth_tag ← slice full_auth_tag 0 (profile_rtcp_auth_tag_len (cm_profile c));
  Ok (writer ++ auth_tag).

Definition cm_decrypt_rtcp (c : CipherAesCmHmacSha1) (encrypted : bytes) (srtcp_index ssrc : Z) : rtp_result bytes :=
  let encrypted_len := zlen encrypted in
  let tag_len := profile_rtcp_auth_tag_len (cm_profile c) in
  if encrypted_len <? tag_len + SRTCP_INDEX_SIZE then Err (SrtcpTooSmall encrypted_len (tag_len + SRTCP_INDEX_SIZE))
  else
    let tail_offset := encrypted_len - (tag_len + SRTCP_INDEX_SIZE) in
    if tail_offset <? 8 then Err ErrTooShortRtcp
    else
      let writer := take (Z.to_nat tail_offset) encrypted in
      e ← index encrypted tail_offset;
      if Z.shiftr e 7 =? 0 then Ok writer
      else
        let actual_tag := drop (Z.to_nat (encrypted_len - tag_len)) encrypted in
        if negb (zlen actual_tag =? tag_len) then Err (RtcpInvalidLengthAuthTag (zlen actual_tag) tag_len)
        else
          let cipher_text := take (Z.to_nat (encrypted_len - tag_len)) encrypted in
          full_expected_tag ← generate_srtcp_auth_tag c cipher_text;
          expected_tag ← slice full_expected_tag 0 tag_len;
          if negb (constant_time_eq actual_tag expected_tag) then Err RtcpFailedToVerifyAuthTag
          else
            counter ← generate_counter (Z.land srtcp_index 65535) (as_u32 (Z.shiftr srtcp_index 16)) ssrc (cm_srtcp_session_salt c);
            keystream_from (cm_srtcp_cipher c) counter writer (RTCP_HEADER_LENGTH + SSRC_LENGTH).

Definition cm_cipher (c : CipherAesCmHmacSha1) : Cipher :=
  mkCipher (profile_rtp_auth_tag_len (cm_profile c)) (profile_rtcp_auth_tag_len (cm_profile c)) (profile_aead_auth_tag_len (cm_profile c))
    (cm_get_rtcp_index c) (cm_encrypt_rtp_in_place c) (cm_decrypt_rtp_in_place c) (cm_encrypt_rtcp c) (cm_decrypt_rtcp c).

(** * AES-GCM *)

Definition CIPHER_AEAD_AES_GCM_AUTH_TAG_LEN : Z := 16.
Definition RTCP_ENCRYPTION_FLAG : Z := 128.

Record CipherAeadAesGcm := mkCipherAeadAesGcm {
  gcm_profile : ProtectionProfile;
  gcm_srtp_cipher : AeadCipher;
  gcm_srtcp_cipher : AeadCipher;
  gcm_srtp_session_salt : bytes;
  gcm_srtcp_session_salt : bytes
}.

Definition gcm_build_cipher (crypto : RTCCrypto) (algorithm : AeadAlgorithm)
    (kdf : RTCCrypto -> Z -> bytes -> bytes -> Z -> Z -> rtp_result bytes) (master_key master_salt : bytes) (label : Z)
  : rtp_result AeadCipher :=
  session_key ← kdf crypto label master_key master_salt 0 (zlen master_key);
  cipher ← crypto_error (new_aead crypto algorithm session_key);
  if negb (tag_len cipher =? CIPHER_AEAD_AES_GCM_AUTH_TAG_LEN) then Err CryptoErr else Ok cipher.

Definition CipherAeadAesGcm_new (profile : ProtectionProfile) (master_key master_salt : bytes) (crypto : RTCCrypto)
  : rtp_result CipherAeadAesGcm :=
  '(algorithm, kdf) ← match profile with
    | AeadAes128Gcm => Ok (Aes128Gcm, aes_cm_key_derivation)
    | AeadAes256Gcm => Ok (Aes256Gcm, aes_256_cm_key_derivation)
    | _ => Panic
    end;
  if negb (profile_aead_auth_tag_len profile =? CIPHER_AEAD_AES_GCM_AUTH_TAG_LEN) then Panic
  else if negb (salt_len profile =? zlen master_salt) then Panic
  else
    srtp_cipher ← gcm_build_cipher crypto algorithm kdf master_key master_salt LABEL_SRTP_ENCRYPTION;
    srtcp_cipher ← gcm_build_cipher crypto algorithm kdf master_key master_salt LABEL_SRTCP_ENCRYPTION;
    srtp_session_salt ← kdf crypto LABEL_SRTP_SALT master_key master_salt 0 (zlen master_salt);
    srtcp_session_salt ← kdf crypto LABEL_SRTCP_SALT master_key master_salt 0 (zlen master_salt);
    Ok (mkCipherAeadAesGcm profile srtp_cipher srtcp_cipher srtp_session_salt srtcp_session_salt).

(** [for (i, v) in iv.iter_mut().enumerate() { *v ^= salt[i] }]. *)
Definition salt_iv (iv salt : bytes) : rtp_result bytes := if zlen salt <? zlen iv then Panic else Ok (xor_salt iv salt).

Definition rtp_initialization_vector (c : CipherAeadAesGcm) (h : Header) (roc : Z) : rtp_result bytes :=
  salt_iv (zeros 2 ++ put_u32 (ssrc h) ++ put_u32 roc ++ put_u16 (sequence_number h)) (gcm_srtp_session_salt c).
Definition rtcp_initialization_vector (c : CipherAeadAesGcm) (srtcp_index ssrc : Z) : rtp_result bytes :=
  salt_iv (zeros 2 ++ put_u32 ssrc ++ zeros 2 ++ put_u32 (as_u32 srtcp_index)) (gcm_srtcp_session_salt c).

(** [aad[8] |= RTCP_ENCRYPTION_FLAG]. *)
Definition set_encryption_flag (w : bytes) : bytes :=
  match w with [] => [] | b :: w => Z.lor b RTCP_ENCRYPTION_FLAG :: w end.
Definition rtcp_additional_authenticated_data (rtcp_packet : bytes) (srtcp_index : Z) : rtp_result bytes :=
  a ← slice rtcp_packet 0 8;
  Ok (a ++ set_encryption_flag (put_u32 (as_u32 srtcp_index))).

Definition gcm_encrypt_rtp_in_place (c : CipherAeadAesGcm) (packet : bytes) (h : Header) (roc : Z) : rtp_result bytes :=
  let header_len := Header_size h in
  if zlen packet <? header_len then Err ErrTooShortRtp
  else
    nonce ← rtp_initialization_vector c h roc;
    let aad := take (Z.to_nat header_len) packet in
    '(ciphertext, tag) ← crypto_error (seal_in_place (gcm_srtp_cipher c) nonce aad (drop (Z.to_nat header_len) packet)
                                        CIPHER_AEAD_AES_GCM_AUTH_TAG_LEN);
    Ok (aad ++ ciphertext ++ tag).

Definition gcm_decrypt_rtp_in_place (c : CipherAeadAesGcm) (packet : bytes) (h : Header) (roc : Z) : rtp_result bytes :=
  let tag_len := profile_aead_auth_tag_len (gcm_profile c) in
  if zlen packet <? tag_len then Err ErrFailedToVerifyAuthTag
  else
    let payload_offset := Header_size h in
    if zlen packet <? payload_offset + tag_len then Err ErrFailedToVerifyAuthTag
    else
      nonce ← rtp_initialization_vector c h roc;
      let tag_offset := zlen packet - tag_len in
      let body := take (Z.to_nat tag_offset) packet in
      let tag := drop (Z.to_nat tag_offset) packet in
      let aad := take (Z.to_nat payload_offset) body in
      plaintext ← or_error ErrFailedToVerifyAuthTag
                    (open_in_place (gcm_srtp_cipher c) nonce aad (drop (Z.to_nat payload_offset) body) tag);
      Ok (aad ++ plaintext).

Definition gcm_encrypt_rtcp (c : CipherAeadAesGcm) (decrypted : bytes) (srtcp_index ssrc : Z) : rtp_result bytes :=
  iv ← rtcp_initialization_vector c srtcp_index ssrc;
  aad ← rtcp_additional_authenticated_data decrypted srtcp_index;
  '(ciphertext, tag) ← crypto_error (seal_in_place (gcm_srtcp_cipher c) iv aad (drop 8 decrypted) CIPHER_AEAD_AES_GCM_AUTH_TAG_LEN);
  Ok (take 8 decrypted ++ ciphertext ++ tag ++ drop 8 aad).

Definition gcm_decrypt_rtcp (c : CipherAeadAesGcm) (encrypted : bytes) (srtcp_index ssrc : Z) : rtp_result bytes :=
  let tag_len := profile_aead_auth_tag_len (gcm_profile c) in
  if zlen encrypted <? tag_len + SRTCP_INDEX_SIZE then Err ErrFailedToVerifyAuthTag
  else
    nonce ← rtcp_initialization_vector c srtcp_index ssrc;
    aad ← rtcp_additional_authenticated_data encrypted srtcp_index;
    let tag_start := zlen encrypted - SRTCP_INDEX_SIZE - tag_len in
    if tag_start <? 8 then Err ErrFailedToVerifyAuthTag
    else
      tag ← slice encrypted tag_start (tag_start + tag_len);
      let writer := take (Z.to_nat tag_start) encrypted in
      plaintext ← or_error ErrFailedToVerifyAuthTag (open_in_place (gcm_srtcp_cipher c) nonce aad (drop 8 writer) tag);
      Ok (take 8 writer ++ plaintext).

Definition gcm_get_rtcp_index (input : bytes) : rtp_result Z :=
  let pos := zlen input - 4 in
  w ← slice input pos (zlen input);
  '(v, _) ← get_u32 w;
  Ok (Z.land v 2147483647).

Definition gcm_cipher (c : CipherAeadAesGcm) : Cipher :=
  mkCipher (profile_rtp_auth_tag_len (gcm_profile c)) (profile_rtcp_auth_tag_len (gcm_profile c)) (profile_aead_auth_tag_len (gcm_profile c))
    gcm_get_rtcp_index (gcm_encrypt_rtp_in_place c) (gcm_decrypt_rtp_in_place c) (gcm_encrypt_rtcp c) (gcm_decrypt_rtcp c).

(** * What the ciphers rely on *)

Definition block_key_len (a : BlockCipherAlgorithm) : Z := match a with Aes128 => 16 | Aes256 => 32 end.
Definition stream_key_len (a : StreamCipherAlgorithm) : Z := match a with Aes128Ctr => 16 | Aes256Ctr => 32 end.

Class CryptoLaws (c : RTCCrypto) : Prop := mkCryptoLaws {
  supports_profiles : forall p a, a ∈ required_crypto_algorithms p -> supports c a = true;
  block_total : forall a key b, zlen key = block_key_len a -> zlen b = 16 ->
    exists b', block_encrypt c a key b = Ok b' /\ zlen b' = 16 /\ bytes_ok b';
  hmac_total : forall key, exists m, new_hmac c HmacSha1 key = Ok m /\ MacLaws m;
  stream_total : forall a key, zlen key = stream_key_len a -> exists s, new_stream_cipher c a key = Ok s /\ StreamLaws s;
  aead_total : forall a key n, (a, n) ∈ [(Aes128Gcm, 16); (Aes256Gcm, 32)] -> zlen key = n ->
    exists x, new_aead c a key = Ok x /\ AeadLaws x
}.

(** What a cipher promises to the contexts that use it: encrypting succeeds, keeps the
    header and adds the tags; decrypting succeeds exactly on what encrypting produces;
    nothing panics on a packet of the least size. *)
Class CipherLaws (c : Cipher) : Prop := mkCipherLaws {
  tags_nonneg : 0 <= rtp_auth_tag_len c /\ 0 <= rtcp_auth_tag_len c /\ 0 <= aead_auth_tag_len c;
  rtp_encrypt_total : forall pkt h roc, 0 <= Header_size h <= zlen pkt ->
    exists ct, encrypt_rtp_in_place c pkt h roc = Ok ct /\ zlen ct = zlen pkt + rtp_auth_tag_len c + aead_auth_tag_len c /\
      take (Z.to_nat (Header_size h)) ct = take (Z.to_nat (Header_size h)) pkt /\ (bytes_ok pkt -> bytes_ok ct);
  rtp_decrypt_exact : forall ct pkt h roc, 0 <= Header_size h ->
    decrypt_rtp_in_place c ct h roc = Ok pkt <-> (Header_size h <= zlen pkt /\ encrypt_rtp_in_place c pkt h roc = Ok ct);
  rtp_decrypt_safe : forall ct h roc, 0 <= Header_size h -> post (decrypt_rtp_in_place c ct h roc) (fun _ => True);
  rtcp_total : forall pkt idx ssrc, 8 <= zlen pkt -> 0 <= idx < 2147483648 ->
    exists ct, cipher_encrypt_rtcp c pkt idx ssrc = Ok ct /\
      zlen ct = zlen pkt + SRTCP_INDEX_SIZE + rtcp_auth_tag_len c + aead_auth_tag_len c /\
      take 8 ct = take 8 pkt /\ get_rtcp_index c ct = Ok idx /\ cipher_decrypt_rtcp c ct idx ssrc = Ok pkt /\
      (bytes_ok pkt -> bytes_ok ct);
  rtcp_index_safe : forall ct, bytes_ok ct -> 8 + SRTCP_INDEX_SIZE + rtcp_auth_tag_len c + aead_auth_tag_len c <= zlen ct ->
    post (get_rtcp_index c ct) (fun i => 0 <= i < 2147483648);
  rtcp_decrypt_safe : forall ct idx ssrc, post (cipher_decrypt_rtcp c ct idx ssrc) (fun _ => True)
}.

(** * Initialization vectors *)

Lemma zlen_xor_salt c salt : zlen (xor_salt c salt) = zlen c.
Proof. revert salt. induction c as [|x c IH]; intros [|s salt]; cbn [xor_salt]; [done..|]. by rewrite !zlen_cons, IH. Qed.
#[export] Hint Rewrite zlen_xor_salt : zlen.

Lemma xor_salt_inj c d salt : xor_salt c salt = xor_salt d salt -> zlen c = zlen d -> c = d.
Proof.
  revert d salt. induction c as [|x c IH]; intros [|y d] salt H Hl; autorewrite with zlen in Hl; zlen_pos; try lia; [done|].
  destruct salt as [|s salt]; [done|]. injection H as Hx H. f_equal.
  - apply (f_equal (fun z => Z.lxor z s)) in Hx. rewrite !Z.lxor_assoc, !Z.lxor_nilpotent, !Z.lxor_0_r in Hx. done.
  - apply (IH d salt H). lia.
Qed.

Lemma generate_counter_Ok seq roc ssrc salt : zlen salt <= 16 ->
  exists iv, generate_counter seq roc ssrc salt = Ok iv /\ zlen iv = 16.
Proof. intros. unfold generate_counter. rewrite (proj2 (Z.ltb_ge _ _)) by lia. eexists. split; [done|]. by rewrite zlen_xor_salt. Qed.

Lemma salt_iv_Ok iv salt : zlen iv <= zlen salt -> salt_iv iv salt = Ok (xor_salt iv salt).
Proof. intros. unfold salt_iv. by rewrite (proj2 (Z.ltb_ge _ _)) by lia. Qed.

Lemma put_u32_inj x y : is_u32 x -> is_u32 y -> put_u32 x = put_u32 y -> x = y.
Proof.
  intros Hx Hy H. pose proof (get_put_u32 (E:=unit) x [] Hx) as H1. rewrite H in H1.
  rewrite (get_put_u32 (E:=unit) y [] Hy) in H1. congruence.
Qed.

(** Four fixed-width fields one after the other. *)
Lemma app4_inj {A} (p a b c a' b' c' : list A) : length a = length a' -> length b = length b' ->
  p ++ a ++ b ++ c = p ++ a' ++ b' ++ c' -> a = a' /\ b = b' /\ c = c'.
Proof. intros Ha Hb H. apply app_inv_head in H. apply app_inj_1 in H as [-> H]; [|done]. apply app_inj_1 in H as [-> H]; done. Qed.

(** The word of the SRTCP index with the encryption flag. *)
Lemma esrtcp_word idx : 0 <= idx < 2147483648 -> Z.lor (as_u32 idx) 2147483648 = idx + 2147483648.
Proof.
  intros H. unfold as_u32. rewrite Z.mod_small by lia.
  assert (Hl : Z.land idx (2 ^ 31) = 0).
  { apply Z.bits_inj'. intros n Hn. rewrite Z.land_spec, Z.bits_0, Z.pow2_bits_eqb by lia.
    destruct (Z.eqb_spec 31 n) as [<-|]; [|by rewrite andb_false_r].
    replace (Z.testbit idx 31) with false; [done|]. symmetry. apply Z.testbit_false; [lia|]. rewrite Z.div_small by lia. done. }
  change 2147483648 with (2 ^ 31). rewrite <- Z.lxor_lor by done. symmetry. by apply Z.add_nocarry_lxor.
Qed.
Lemma esrtcp_index idx : 0 <= idx < 2147483648 -> Z.land (idx + 2147483648) 2147483647 = idx.
Proof.
  intros H. change 2147483647 with (Z.ones 31). rewrite Z.land_ones by lia. change (2 ^ 31) with 2147483648. mlia.
Qed.
Lemma put_esrtcp idx : 0 <= idx < 2147483648 ->
  exists b w, put_u32 (idx + 2147483648) = b :: w /\ zlen w = 3 /\ 128 <= b < 256.
Proof. intros H. do 2 eexists. split; [reflexivity|]. split; [done|]. mlia. Qed.
Lemma land_index_bound v : 0 <= Z.land v 2147483647 < 2147483648.
Proof. exact (land_bound v 31 ltac:(lia)). Qed.

(** * AES-CM keeps the laws *)

Lemma split_front {A} (l : list A) n : 0 <= n <= zlen l ->
  exists a b, l = a ++ b /\ zlen a = n /\ take (Z.to_nat n) l = a /\ drop (Z.to_nat n) l = b.
Proof.
  intros. exists (take (Z.to_nat n) l), (drop (Z.to_nat n) l). split; [by rewrite take_drop|]. split; [zlia|done].
Qed.
Definition cm_profile_ok (p : ProtectionProfile) : Prop :=
  profile_aead_auth_tag_len p = 0 /\ 0 <= profile_rtp_auth_tag_len p <= 20 /\ profile_rtcp_auth_tag_len p = 10.

Record cm_ok (c : CipherAesCmHmacSha1) : Prop := mk_cm_ok {
  cm_profile_cm : cm_profile_ok (cm_profile c);
  cm_salt_len : zlen (cm_srtp_session_salt c) <= 16 /\ zlen (cm_srtcp_session_salt c) <= 16;
  cm_auth_laws : MacLaws (cm_srtp_session_auth c) /\ MacLaws (cm_srtcp_session_auth c);
  cm_cipher_laws : StreamLaws (cm_srtp_cipher c) /\ StreamLaws (cm_srtcp_cipher c)
}.

Lemma keystream_from_app `{StreamLaws s} iv a b : zlen iv = 16 ->
  exists b', keystream_from s iv (a ++ b) (zlen a) = Ok (a ++ b') /\ zlen b' = zlen b /\
    keystream_from s iv (a ++ b') (zlen a) = Ok (a ++ b) /\ (bytes_ok b -> bytes_ok b').
Proof.
  intros Hiv. destruct (keystream_total iv b Hiv) as (b' & E1 & L & E2 & K). exists b'. unfold keystream_from.
  rewrite (slice_app_eq _ a b []), (slice_app_eq _ a b' []) by (rewrite ?app_nil_r, ?zlen_app; done). cbn [mbind outcome_bind].
  rewrite E1, E2. cbn. rewrite !take_front by done. done.
Qed.

Section cm.
Context (c : CipherAesCmHmacSha1) (Hc : cm_ok c).

Lemma cm_tag buf roc : exists t, generate_srtp_auth_tag c buf roc = Ok t /\ zlen t = 20 /\ bytes_ok t.
Proof using Hc.
  destruct (cm_auth_laws c Hc) as [H _]. destruct (sign_total [buf; put_u32 roc]) as (t & E & ? & ?).
  exists t. unfold generate_srtp_auth_tag. by rewrite E.
Qed.
Lemma cm_rtcp_tag buf : exists t, generate_srtcp_auth_tag c buf = Ok t /\ zlen t = 20 /\ bytes_ok t.
Proof using Hc.
  destruct (cm_auth_laws c Hc) as [_ H]. destruct (sign_total [buf]) as (t & E & ? & ?).
  exists t. unfold generate_srtcp_auth_tag. by rewrite E.
Qed.

(** The packet as header and payload, the encrypted payload and the tag. *)
Lemma cm_encrypt_shape a b h roc : zlen a = Header_size h -> exists b' t,
  cm_encrypt_rtp_in_place c (a ++ b) h roc = Ok ((a ++ b') ++ t) /\ zlen b' = zlen b /\
  zlen t = profile_rtp_auth_tag_len (cm_profile c) /\ cm_decrypt_rtp_in_place c ((a ++ b') ++ t) h roc = Ok (a ++ b) /\
  (bytes_ok b -> bytes_ok b') /\ bytes_ok t.
Proof using Hc.
  intros Ha. destruct (cm_profile_cm c Hc) as (_ & Ht & _). destruct (cm_salt_len c Hc) as [Hs _].
  destruct (cm_cipher_laws c Hc) as [HS _].
  destruct (generate_counter_Ok (sequence_number h) roc (ssrc h) _ Hs) as (iv & Ei & Hi).
  destruct (keystream_from_app (s:=cm_srtp_cipher c) iv a b Hi) as (b' & E1 & L & E2 & K).
  destruct (cm_tag (a ++ b') roc) as (t & Et & Lt & Kt).
  exists b', (take (Z.to_nat (profile_rtp_auth_tag_len (cm_profile c))) t).
  assert (Es : slice (E:=MediaError) t 0 (profile_rtp_auth_tag_len (cm_profile c)) = Ok (take (Z.to_nat (profile_rtp_auth_tag_len (cm_profile c))) t)).
  { rewrite slice_Ok by lia. by rewrite Z.sub_0_r. }
  assert (Ll : zlen (take (Z.to_nat (profile_rtp_auth_tag_len (cm_profile c))) t) = profile_rtp_auth_tag_len (cm_profile c)) by zlia.
  set (tt := take _ t) in *. split; [|split; [done|split; [done|split; [|split; [done|by apply Forall_take]]]]].
  - unfold cm_encrypt_rtp_in_place. rewrite (proj2 (Z.ltb_ge _ _)) by zlia. rewrite Ei. cbn [mbind outcome_bind].
    rewrite <- Ha, E1. cbn [mbind outcome_bind]. rewrite Et. cbn [mbind outcome_bind]. by rewrite Es.
  - unfold cm_decrypt_rtp_in_place. rewrite (proj2 (Z.ltb_ge _ _)) by zlia.
    rewrite take_front, drop_front by zlia. rewrite Et. cbn [mbind outcome_bind]. rewrite Es. cbn [mbind outcome_bind].
    unfold constant_time_eq. rewrite Z.eqb_refl, bool_decide_eq_true_2 by done. cbn [negb andb]. rewrite Ei. cbn [mbind outcome_bind].
    rewrite (proj2 (Z.ltb_ge _ _)) by zlia. by rewrite <- Ha.
Qed.

Lemma cm_decrypt_only ct pkt h roc : 0 <= Header_size h -> cm_decrypt_rtp_in_place c ct h roc = Ok pkt ->
  exists a b, pkt = a ++ b /\ zlen a = Header_size h /\ cm_encrypt_rtp_in_place c pkt h roc = Ok ct.
Proof using Hc.
  intros Hh. destruct (cm_profile_cm c Hc) as (_ & Ht & _). unfold cm_decrypt_rtp_in_place.
  destruct (Z.ltb_spec (zlen ct) (profile_rtp_auth_tag_len (cm_profile c))); [done|].
  destruct (split_front ct (zlen ct - profile_rtp_auth_tag_len (cm_profile c))) as (body & tag & Ec & Lb & -> & ->); [lia|].
  destruct (cm_tag body roc) as (t & Et & Lt & _). rewrite Et. cbn [mbind outcome_bind].
  rewrite slice_Ok by lia. cbn [mbind outcome_bind]. unfold constant_time_eq.
  destruct (_ && _) eqn:Eq; [|done]. apply andb_true_iff in Eq as [_ Eq]. apply bool_decide_eq_true in Eq. cbn [negb].
  destruct (cm_salt_len c Hc) as [Hs _].
  destruct (generate_counter_Ok (sequence_number h) roc (ssrc h) _ Hs) as (iv & Ei & Hi). rewrite Ei. cbn [mbind outcome_bind].
  destruct (Z.ltb_spec (zlen body) (Header_size h)); [done|].
  destruct (split_front body (Header_size h)) as (a & b & -> & La & _); [lia|].
  destruct (cm_cipher_laws c Hc) as [HS _]. destruct (keystream_from_app (s:=cm_srtp_cipher c) iv a b Hi) as (b' & E1 & L & E2 & _).
  rewrite <- La, E1. intros [= <-]. exists a, b'. split; [done|]. split; [done|].
  unfold cm_encrypt_rtp_in_place. rewrite (proj2 (Z.ltb_ge _ _)) by zlia. rewrite Ei. cbn [mbind outcome_bind].
  rewrite <- La, E2. cbn [mbind outcome_bind]. rewrite Et. cbn [mbind outcome_bind]. rewrite slice_Ok by lia. cbn [mbind outcome_bind].
  by rewrite <- Eq, Ec.
Qed.

Lemma cm_rtcp_shape a b idx ssrc : zlen a = 8 -> 0 <= idx < 2147483648 -> exists b' t,
  let ct := (a ++ b') ++ put_u32 (idx + 2147483648) ++ t in
  cm_encrypt_rtcp c (a ++ b) idx ssrc = Ok ct /\ zlen b' = zlen b /\ zlen t = 10 /\
  cm_get_rtcp_index c ct = Ok idx /\ cm_decrypt_rtcp c ct idx ssrc = Ok (a ++ b) /\ (bytes_ok b -> bytes_ok b') /\ bytes_ok t.
Proof using Hc.
  intros Ha Hi. destruct (cm_profile_cm c Hc) as (_ & _ & Ht). destruct (cm_salt_len c Hc) as [_ Hs].
  destruct (cm_cipher_laws c Hc) as [_ HS].
  destruct (generate_counter_Ok (Z.land idx 65535) (as_u32 (Z.shiftr idx 16)) ssrc _ Hs) as (iv & Ei & Hv).
  destruct (keystream_from_app (s:=cm_srtcp_cipher c) iv a b Hv) as (b' & E1 & L & E2 & K).
  destruct (cm_rtcp_tag ((a ++ b') ++ put_u32 (idx + 2147483648))) as (t & Et & Lt & Kt).
  assert (Es : slice (E:=MediaError) t 0 10 = Ok (take 10 t)) by (by rewrite slice_Ok by lia).
  assert (Ll : zlen (take 10 t) = 10) by zlia.
  exists b', (take 10 t). cbv zeta. set (tt := take 10 t) in *.
  split; [|split; [done|split; [done|split; [|split; [|split; [done|by apply Forall_take]]]]]].
  - unfold cm_encrypt_rtcp. rewrite Ei. cbn [mbind outcome_bind]. change (RTCP_HEADER_LENGTH + SSRC_LENGTH) with 8. rewrite <- Ha, E1.
    cbn [mbind outcome_bind]. rewrite esrtcp_word, Et by done. cbn [mbind outcome_bind]. rewrite Ht, Es. cbn [mbind outcome_bind].
    by rewrite <- (assoc_L app).
  - unfold cm_get_rtcp_index. rewrite Ht. change SRTCP_INDEX_SIZE with 4.
    rewrite (slice_app_eq _ (a ++ b') (put_u32 (idx + 2147483648)) tt) by first [done|zlia]. cbn [mbind outcome_bind].
    rewrite <- (app_nil_r (put_u32 _)), get_put_u32 by (unfold_ints; lia). cbn [mbind outcome_bind]. by rewrite esrtcp_index.
  - unfold cm_decrypt_rtcp. rewrite Ht. change SRTCP_INDEX_SIZE with 4. rewrite !(proj2 (Z.ltb_ge _ _)) by zlia.
    rewrite (take_front (a ++ b')) by zlia.
    destruct (put_esrtcp idx Hi) as (x & w & Ew & Lw & Hx).
    assert (En : index (E:=MediaError) ((a ++ b') ++ put_u32 (idx + 2147483648) ++ tt)
                   (zlen ((a ++ b') ++ put_u32 (idx + 2147483648) ++ tt) - (10 + 4)) = Ok x).
    { unfold index. rewrite (proj2 (Z.leb_le _ _)), (proj2 (Z.ltb_lt _ _)) by zlia. cbn [andb]. f_equal.
      replace (Z.to_nat _) with (length (a ++ b') + 0)%nat by (autorewrite with zlen; rewrite Ll; unfold zlen; rewrite length_app; lia).
      rewrite app_nth2_plus, Ew. done. }
    rewrite En. cbn [mbind outcome_bind]. rewrite Z.shiftr_div_pow2 by lia. change (2 ^ 7) with 128.
    rewrite (proj2 (Z.eqb_neq _ _)) by mlia.
    rewrite (assoc_L app). rewrite (take_front ((a ++ b') ++ _)), (drop_front ((a ++ b') ++ _)) by zlia.
    rewrite Ll. cbn [negb Z.eqb Pos.eqb]. rewrite Et. cbn [mbind outcome_bind]. rewrite Es. cbn [mbind outcome_bind].
    unfold constant_time_eq. rewrite Z.eqb_refl, bool_decide_eq_true_2 by done. cbn [negb andb]. rewrite Ei. cbn [mbind outcome_bind].
    change (RTCP_HEADER_LENGTH + SSRC_LENGTH) with 8. by rewrite <- Ha.
Qed.

Lemma cm_rtp_safe ct h roc : 0 <= Header_size h -> post (cm_decrypt_rtp_in_place c ct h roc) (fun _ => True).
Proof using Hc.
  intros Hh. destruct (cm_profile_cm c Hc) as (_ & Ht & _). unfold cm_decrypt_rtp_in_place.
  destruct (Z.ltb_spec (zlen ct) (profile_rtp_auth_tag_len (cm_profile c))); [done|].
  destruct (cm_tag (take (Z.to_nat (zlen ct - profile_rtp_auth_tag_len (cm_profile c))) ct) roc) as (t & -> & Lt & _). cbn [mbind outcome_bind].
  rewrite slice_Ok by lia. cbn [mbind outcome_bind]. destruct (negb _); [done|]. destruct (cm_salt_len c Hc) as [Hs _].
  destruct (generate_counter_Ok (sequence_number h) roc (ssrc h) _ Hs) as (iv & -> & Hi). cbn [mbind outcome_bind].
  set (body := take _ ct). destruct (Z.ltb_spec (zlen body) (Header_size h)); [done|].
  destruct (split_front body (Header_size h)) as (a & b & -> & La & _); [lia|].
  destruct (cm_cipher_laws c Hc) as [HS _]. destruct (keystream_from_app (s:=cm_srtp_cipher c) iv a b Hi) as (b' & E1 & _).
  by rewrite <- La, E1.
Qed.

Lemma cm_rtcp_safe ct idx ssrc : post (cm_decrypt_rtcp c ct idx ssrc) (fun _ => True).
Proof using Hc.
  destruct (cm_profile_cm c Hc) as (_ & _ & Ht). unfold cm_decrypt_rtcp. rewrite Ht. change SRTCP_INDEX_SIZE with 4.
  destruct (Z.ltb_spec (zlen ct) (10 + 4)); [done|]. destruct (Z.ltb_spec (zlen ct - (10 + 4)) 8); [done|].
  eapply post_bind; [apply post_index; lia|]. intros e _ _. destruct (_ =? 0); [done|]. destruct (negb _); [done|].
  destruct (cm_rtcp_tag (take (Z.to_nat (zlen ct - 10)) ct)) as (t & -> & Lt & _). cbn [mbind outcome_bind].
  rewrite slice_Ok by lia. cbn [mbind outcome_bind]. destruct (negb _); [done|]. destruct (cm_salt_len c Hc) as [_ Hs].
  destruct (generate_counter_Ok (Z.land idx 65535) (as_u32 (Z.shiftr idx 16)) ssrc _ Hs) as (iv & -> & Hi). cbn [mbind outcome_bind].
  destruct (split_front (take (Z.to_nat (zlen ct - (10 + 4))) ct) 8) as (a & b & -> & La & _); [zlia|].
  destruct (cm_cipher_laws c Hc) as [_ HS]. destruct (keystream_from_app (s:=cm_srtcp_cipher c) iv a b Hi) as (b' & E1 & _).
  change (RTCP_HEADER_LENGTH + SSRC_LENGTH) with 8. by rewrite <- La, E1.
Qed.
End cm.

#[export] Instance cm_cipher_CipherLaws c : cm_ok c -> CipherLaws (cm_cipher c).
Proof.
  intros Hc. destruct (cm_profile_cm c Hc) as (Ha & Ht & Hr). split; cbn.
  - rewrite Ha, Hr. lia.
  - intros pkt h roc Hh. destruct (split_front pkt (Header_size h)) as (a & b & -> & La & -> & _); [lia|].
    destruct (cm_encrypt_shape c Hc a b h roc La) as (b' & t & E & Lb & Lt & _ & K & Kt). eexists. split; [exact E|].
    split; [zlia|]. rewrite <- (assoc_L app), take_front by lia. split; [done|]. rewrite !bytes_ok_app. naive_solver.
  - intros ct pkt h roc Hh. split.
    + intros E. destruct (cm_decrypt_only c Hc ct pkt h roc Hh E) as (a & b & -> & La & E'). split; [zlia|done].
    + intros [Hl E]. destruct (split_front pkt (Header_size h)) as (a & b & -> & La & _); [lia|].
      destruct (cm_encrypt_shape c Hc a b h roc La) as (b' & t & E' & _ & _ & D & _). rewrite E in E'. by injection E' as ->.
  - apply cm_rtp_safe, Hc.
  - intros pkt idx ssrc Hl Hi. destruct (split_front pkt 8) as (a & b & -> & La & Ea & _); [lia|].
    destruct (cm_rtcp_shape c Hc a b idx ssrc La Hi) as (b' & t & E & Lb & Lt & Gi & D & K & Kt). eexists. split; [exact E|].
    split; [unfold SRTCP_INDEX_SIZE; zlia|]. split; [|split; [exact Gi|split; [exact D|]]].
    + change 8%nat with (Z.to_nat 8). rewrite <- !(assoc_L app), !take_front by lia. done.
    + rewrite !bytes_ok_app. intros [??]. eauto with post.
  - intros ct Hok Hl. unfold cm_get_rtcp_index. rewrite Hr in *. unfold SRTCP_INDEX_SIZE in *.
    eapply post_bind; [apply post_slice; lia|]. intros w _ [Lw _]. eapply post_bind; [apply post_get_u32; lia|].
    intros [v r] _ _. cbn. apply land_index_bound.
  - apply cm_rtcp_safe, Hc.
Qed.

(** * AES-GCM keeps the laws *)

Record gcm_ok (c : CipherAeadAesGcm) : Prop := mk_gcm_ok {
  gcm_profile_gcm : profile_aead_auth_tag_len (gcm_profile c) = 16 /\ profile_rtp_auth_tag_len (gcm_profile c) = 0 /\
                    profile_rtcp_auth_tag_len (gcm_profile c) = 0;
  gcm_salt_len : 12 <= zlen (gcm_srtp_session_salt c) /\ 12 <= zlen (gcm_srtcp_session_salt c);
  gcm_laws : AeadLaws (gcm_srtp_cipher c) /\ AeadLaws (gcm_srtcp_cipher c)
}.

Section gcm.
Context (c : CipherAeadAesGcm) (Hc : gcm_ok c).

Lemma gcm_rtp_iv h roc : exists iv, rtp_initialization_vector c h roc = Ok iv /\ zlen iv = 12.
Proof using Hc.
  destruct (gcm_salt_len c Hc) as [H _]. unfold rtp_initialization_vector. rewrite salt_iv_Ok by (autorewrite with zlen; lia).
  eexists. split; [done|]. by autorewrite with zlen.
Qed.
Lemma gcm_rtcp_iv idx ssrc : exists iv, rtcp_initialization_vector c idx ssrc = Ok iv /\ zlen iv = 12.
Proof using Hc.
  destruct (gcm_salt_len c Hc) as [_ H]. unfold rtcp_initialization_vector. rewrite salt_iv_Ok by (autorewrite with zlen; lia).
  eexists. split; [done|]. by autorewrite with zlen.
Qed.

Lemma gcm_encrypt_shape a b h roc : zlen a = Header_size h -> exists b' t,
  gcm_encrypt_rtp_in_place c (a ++ b) h roc = Ok (a ++ b' ++ t) /\ zlen b' = zlen b /\ zlen t = 16 /\
  gcm_decrypt_rtp_in_place c (a ++ b' ++ t) h roc = Ok (a ++ b) /\ (bytes_ok b -> bytes_ok b' /\ bytes_ok t).
Proof using Hc.
  intros Ha. destruct (gcm_profile_gcm c Hc) as (Ht & _). destruct (gcm_laws c Hc) as [HA _].
  destruct (gcm_rtp_iv h roc) as (iv & Ei & Hi). destruct (seal_total iv a b Hi) as (b' & t & Es & Lb & Lt & K).
  exists b', t. split; [|split; [done|split; [done|split; [|done]]]].
  - unfold gcm_encrypt_rtp_in_place. rewrite (proj2 (Z.ltb_ge _ _)) by zlia. rewrite Ei. cbn [mbind outcome_bind].
    rewrite take_front, drop_front by lia. change CIPHER_AEAD_AES_GCM_AUTH_TAG_LEN with 16. by rewrite Es.
  - unfold gcm_decrypt_rtp_in_place. rewrite Ht. rewrite !(proj2 (Z.ltb_ge _ _)) by zlia. rewrite Ei. cbn [mbind outcome_bind].
    rewrite (assoc_L app), (take_front (a ++ b')), (drop_front (a ++ b')) by zlia. rewrite take_front, drop_front by lia.
    by rewrite (proj2 (open_exact iv a b' t b Hi Lt) Es).
Qed.

Lemma gcm_decrypt_only ct pkt h roc : 0 <= Header_size h -> gcm_decrypt_rtp_in_place c ct h roc = Ok pkt ->
  exists a b, pkt = a ++ b /\ zlen a = Header_size h /\ gcm_encrypt_rtp_in_place c pkt h roc = Ok ct.
Proof using Hc.
  intros Hh. destruct (gcm_profile_gcm c Hc) as (Ht & _). unfold gcm_decrypt_rtp_in_place. rewrite Ht.
  destruct (Z.ltb_spec (zlen ct) 16); [done|]. destruct (Z.ltb_spec (zlen ct) (Header_size h + 16)); [done|].
  destruct (gcm_rtp_iv h roc) as (iv & Ei & Hi). rewrite Ei. cbn [mbind outcome_bind].
  destruct (split_front ct (zlen ct - 16)) as (body & t & Ec & Lb & -> & ->); [lia|].
  assert (Lt : zlen t = 16) by (rewrite Ec in Lb; zlia).
  destruct (split_front body (Header_size h)) as (a & b & -> & La & -> & ->); [lia|].
  destruct (gcm_laws c Hc) as [HA _]. destruct (open_in_place _ iv a b t) as [p| | |] eqn:Eo; try done.
  intros [= <-]. apply (open_exact iv a b t p Hi Lt) in Eo. exists a, p. split; [done|]. split; [done|].
  unfold gcm_encrypt_rtp_in_place. rewrite (proj2 (Z.ltb_ge _ _)) by zlia. rewrite Ei. cbn [mbind outcome_bind].
  rewrite take_front, drop_front by lia. change CIPHER_AEAD_AES_GCM_AUTH_TAG_LEN with 16. rewrite Eo. cbn [mbind outcome_bind crypto_error].
  by rewrite Ec, <- (assoc_L app).
Qed.

(** The additional data: the first eight bytes and the word with the flag. *)
Lemma gcm_aad a r idx : zlen a = 8 -> 0 <= idx < 2147483648 ->
  rtcp_additional_authenticated_data (a ++ r) idx = Ok (a ++ put_u32 (idx + 2147483648)).
Proof using Type.
  intros Ha Hi. unfold rtcp_additional_authenticated_data. rewrite (slice_app_eq (a ++ r) [] a r) by first [done|zlia]. cbn [mbind outcome_bind].
  do 2 f_equal. unfold as_u32. rewrite Z.mod_small by lia. unfold put_u32, set_encryption_flag, RTCP_ENCRYPTION_FLAG.
  f_equal; [|f_equal; [mlia|f_equal; [mlia|f_equal; mlia]]].
  assert (Hb : forall b, 0 <= b < 128 -> Z.lor b 128 = b + 128).
  { intros b Hb. apply Z.eqb_eq. revert b Hb. apply (bounded_forall 128). vm_compute. reflexivity. }
  rewrite Hb by mlia. mlia.
Qed.

Lemma gcm_rtcp_shape a b idx ssrc : zlen a = 8 -> 0 <= idx < 2147483648 -> exists b' t,
  let ct := a ++ b' ++ t ++ put_u32 (idx + 2147483648) in
  gcm_encrypt_rtcp c (a ++ b) idx ssrc = Ok ct /\ zlen b' = zlen b /\ zlen t = 16 /\
  gcm_get_rtcp_index ct = Ok idx /\ gcm_decrypt_rtcp c ct idx ssrc = Ok (a ++ b) /\ (bytes_ok b -> bytes_ok b' /\ bytes_ok t).
Proof using Hc.
  intros Ha Hi. destruct (gcm_profile_gcm c Hc) as (Ht & _). destruct (gcm_laws c Hc) as [_ HA].
  destruct (gcm_rtcp_iv idx ssrc) as (iv & Ei & Hv).
  destruct (seal_total iv (a ++ put_u32 (idx + 2147483648)) b Hv) as (b' & t & Es & Lb & Lt & K).
  exists b', t. cbv zeta. split; [|split; [done|split; [done|split; [|split; [|done]]]]].
  - unfold gcm_encrypt_rtcp. rewrite Ei. cbn [mbind outcome_bind]. rewrite gcm_aad by done. cbn [mbind outcome_bind].
    change 8%nat with (Z.to_nat 8). rewrite take_front, !drop_front by lia. change CIPHER_AEAD_AES_GCM_AUTH_TAG_LEN with 16. by rewrite Es.
  - unfold gcm_get_rtcp_index. rewrite (slice_app_eq _ (a ++ b' ++ t) (put_u32 (idx + 2147483648)) []) by first [zlia|by rewrite app_nil_r, <- !(assoc_L app)].
    cbn [mbind outcome_bind]. rewrite <- (app_nil_r (put_u32 _)), get_put_u32 by (unfold_ints; lia). cbn [mbind outcome_bind]. by rewrite esrtcp_index.
  - unfold gcm_decrypt_rtcp. rewrite Ht. change SRTCP_INDEX_SIZE with 4. rewrite (proj2 (Z.ltb_ge _ _)) by zlia. rewrite Ei. cbn [mbind outcome_bind].
    rewrite gcm_aad by done. cbn [mbind outcome_bind]. rewrite (proj2 (Z.ltb_ge _ _)) by zlia.
    rewrite (slice_app_eq _ (a ++ b') t (put_u32 (idx + 2147483648))) by first [zlia|by rewrite <- !(assoc_L app)]. cbn [mbind outcome_bind].
    rewrite (assoc_L app a), (take_front (a ++ b')) by zlia. change 8%nat with (Z.to_nat 8). rewrite take_front, drop_front by lia.
    by rewrite (proj2 (open_exact iv _ b' t b Hv Lt) Es).
Qed.

Lemma gcm_rtp_safe ct h roc : 0 <= Header_size h -> post (gcm_decrypt_rtp_in_place c ct h roc) (fun _ => True).
Proof using Hc.
  intros Hh. destruct (gcm_profile_gcm c Hc) as (Ht & _). unfold gcm_decrypt_rtp_in_place. rewrite Ht.
  destruct (Z.ltb_spec (zlen ct) 16); [done|]. destruct (Z.ltb_spec (zlen ct) (Header_size h + 16)); [done|].
  destruct (gcm_rtp_iv h roc) as (iv & -> & Hi). cbn [mbind outcome_bind]. destruct (gcm_laws c Hc) as [HA _].
  match goal with |- context [open_in_place ?x ?n ?a ?b ?t] => pose proof (open_safe (a:=x) n a b t Hi ltac:(zlia)) as Hs end.
  by destruct (open_in_place _ _ _ _ _); cbn in *.
Qed.

Lemma gcm_rtcp_safe ct idx ssrc : post (gcm_decrypt_rtcp c ct idx ssrc) (fun _ => True).
Proof using Hc.
  destruct (gcm_profile_gcm c Hc) as (Ht & _). unfold gcm_decrypt_rtcp. rewrite Ht. change SRTCP_INDEX_SIZE with 4.
  destruct (Z.ltb_spec (zlen ct) (16 + 4)); [done|]. destruct (gcm_rtcp_iv idx ssrc) as (iv & -> & Hi). cbn [mbind outcome_bind].
  unfold rtcp_additional_authenticated_data. rewrite (slice_Ok ct 0 8) by lia. cbn [mbind outcome_bind].
  destruct (Z.ltb_spec (zlen ct - 4 - 16) 8); [done|].
  eapply post_bind; [apply post_slice; lia|]. intros t _ [Lt _]. destruct (gcm_laws c Hc) as [_ HA].
  match goal with |- context [open_in_place ?x ?n ?a ?b ?t] => pose proof (open_safe (a:=x) n a b t Hi ltac:(lia)) as Hs end.
  by destruct (open_in_place _ _ _ _ _); cbn in *.
Qed.
End gcm.

#[export] Instance gcm_cipher_CipherLaws c : gcm_ok c -> CipherLaws (gcm_cipher c).
Proof.
  intros Hc. destruct (gcm_profile_gcm c Hc) as (Ht & Ha & Hr). split; cbn.
  - lia.
  - intros pkt h roc Hh. destruct (split_front pkt (Header_size h)) as (a & b & -> & La & -> & _); [lia|].
    destruct (gcm_encrypt_shape c Hc a b h roc La) as (b' & t & E & Lb & Lt & _ & K). eexists. split; [exact E|].
    split; [zlia|]. rewrite take_front by lia. split; [done|]. rewrite !bytes_ok_app. naive_solver.
  - intros ct pkt h roc Hh. split.
    + intros E. destruct (gcm_decrypt_only c Hc ct pkt h roc Hh E) as (a & b & -> & La & E'). split; [zlia|done].
    + intros [Hl E]. destruct (split_front pkt (Header_size h)) as (a & b & -> & La & _); [lia|].
      destruct (gcm_encrypt_shape c Hc a b h roc La) as (b' & t & E' & _ & _ & D & _). rewrite E in E'. by injection E' as ->.
  - apply gcm_rtp_safe, Hc.
  - intros pkt idx ssrc Hl Hi. destruct (split_front pkt 8) as (a & b & -> & La & _); [lia|].
    destruct (gcm_rtcp_shape c Hc a b idx ssrc La Hi) as (b' & t & E & Lb & Lt & Gi & D & K). eexists. split; [exact E|].
    split; [unfold SRTCP_INDEX_SIZE; zlia|]. split; [|split; [exact Gi|split; [exact D|]]].
    + change 8%nat with (Z.to_nat 8). rewrite !take_front by lia. done.
    + rewrite !bytes_ok_app. intros [? []%K]. eauto with post.
  - intros ct Hok Hl. unfold gcm_get_rtcp_index. unfold SRTCP_INDEX_SIZE in *.
    eapply post_bind; [apply post_slice; lia|]. intros w _ [Lw _]. eapply post_bind; [apply post_get_u32; lia|].
    intros [v r] _ _. cbn. apply land_index_bound.
  - apply gcm_rtcp_safe, Hc.
Qed.

(** * The key derivation function of RFC 3711 *)

(** The input block [x * 2^16 + i] with [x] the master salt and the label. *)
Definition prf_input (label : Z) (salt : bytes) (i : Z) : bytes :=
  xor_salt (zeros 7 ++ [label] ++ zeros 6) salt ++ [Z.land (Z.shiftr i 8) 255; Z.land i 255].

(** What the block cipher gives for a block it accepts. *)
Definition block_of (m : crypto_result bytes) : bytes := match m with Ok b => b | _ => [] end.

(** The first [k] output blocks from the one numbered [i] on. *)
Definition prf_blocks (enc : bytes -> crypto_result bytes) (label : Z) (salt : bytes) (i : Z) (k : nat) : bytes :=
  concat (map (fun j => block_of (enc (prf_input label salt (i + Z.of_nat j)))) (seq 0 k)).

(** Pseudo-random function: the first [n] bytes of the output blocks. *)
Definition srtp_prf (crypto : RTCCrypto) (a : BlockCipherAlgorithm) (key : bytes) (label : Z) (salt : bytes) (n : Z) : bytes :=
  take (Z.to_nat n) (prf_blocks (block_encrypt crypto a key) label salt 0 (kdf_count n 16)).

Section kdf.
Context (enc : bytes -> crypto_result bytes).
Context (Henc : forall b, zlen b = 16 -> exists b', enc b = Ok b' /\ zlen b' = 16 /\ bytes_ok b').

Lemma prf_blocks_S label salt i k :
  prf_blocks enc label salt i (S k) = block_of (enc (prf_input label salt i)) ++ prf_blocks enc label salt (i + 1) k.
Proof using Type.
  unfold prf_blocks. cbn [seq map concat]. rewrite Z.add_0_r. f_equal. rewrite <- seq_shift, map_map.
  f_equal. apply map_ext. intros j. do 3 f_equal. lia.
Qed.

Lemma prf_blocks_len label salt i k : zlen (prf_blocks enc label salt i k) = 16 * Z.of_nat k /\ bytes_ok (prf_blocks enc label salt i k).
Proof using Henc.
  revert i. induction k as [|k IH]; intros i; [split; [done|constructor]|]. rewrite prf_blocks_S. destruct (IH (i + 1)) as [L K].
  destruct (Henc (prf_input label salt i)) as (b & -> & Lb & Kb); [by unfold prf_input; autorewrite with zlen|].
  cbn [block_of]. rewrite bytes_ok_app. split; [zlia|done].
Qed.

Lemma kdf_blocks_spec label salt k : forall i t o1 o2, zlen t = 2 -> zlen o1 = i * 16 -> 16 * Z.of_nat k <= zlen o2 -> 0 <= i ->
  exists r, kdf_blocks enc 16 k i (xor_salt (zeros 7 ++ [label] ++ zeros 6) salt ++ t) (o1 ++ o2) =
    Ok (o1 ++ prf_blocks enc label salt i k ++ r) /\ zlen r = zlen o2 - 16 * Z.of_nat k.
Proof using Henc.
  induction k as [|k IH]; intros i t o1 o2 Ht Ho Hl Hi; [exists o2; split; [done|zlia]|]. cbn [kdf_blocks].
  set (p := xor_salt (zeros 7 ++ [label] ++ zeros 6) salt).
  assert (Lp : zlen p = 14) by (unfold p; by autorewrite with zlen).
  replace (16 - 2) with (zlen p) by lia. rewrite <- (app_nil_r t), splice_app by done. cbn [mbind outcome_bind]. rewrite app_nil_r.
  change (p ++ [Z.land (Z.shiftr i 8) 255; Z.land i 255]) with (prf_input label salt i). set (x := prf_input label salt i).
  assert (Lx : zlen x = 16) by (unfold x, prf_input; by autorewrite with zlen).
  destruct (split_front o2 16) as (w & o3 & -> & Lw & _); [lia|]. rewrite <- Ho.
  rewrite splice_app by lia. cbn [mbind outcome_bind]. rewrite (slice_app_eq _ o1 x o3) by first [done|lia]. cbn [mbind outcome_bind].
  destruct (Henc x Lx) as (y & Ey & Ly & _). rewrite Ey. cbn [crypto_error mbind outcome_bind]. rewrite splice_app by lia. cbn [mbind outcome_bind].
  rewrite (assoc_L app o1 y o3). unfold x, prf_input. fold p.
  destruct (IH (i + 1) [Z.land (Z.shiftr i 8) 255; Z.land i 255] (o1 ++ y) o3) as (r & Er & Lr); [done|zlia|zlia|lia|].
  fold p in Er. rewrite Er. exists r. rewrite prf_blocks_S. fold x. rewrite Ey. cbn [block_of]. split; [by rewrite <- !(assoc_L app)|zlia].
Qed.

Lemma kdf_spec label salt n : 0 <= n ->
  (out ← kdf_blocks enc 16 (kdf_count n 16) 0 (xor_salt (zeros 7 ++ [label] ++ zeros 6) salt ++ zeros 2) (zeros ((n + 16) / 16 * 16));
   slice out 0 n) = Ok (take (Z.to_nat n) (prf_blocks enc label salt 0 (kdf_count n 16))).
Proof using Henc.
  intros Hn. assert (Hk : 16 * Z.of_nat (kdf_count n 16) <= (n + 16) / 16 * 16 /\ n <= 16 * Z.of_nat (kdf_count n 16)).
  { unfold kdf_count, div_ceil. rewrite Z2Nat.id by mlia. mlia. }
  destruct (kdf_blocks_spec label salt (kdf_count n 16) 0 (zeros 2) [] (zeros ((n + 16) / 16 * 16))) as (r & E & L); [done|done|zlia|lia|].
  rewrite !app_nil_l in E. rewrite E. cbn [mbind outcome_bind]. destruct (prf_blocks_len label salt 0 (kdf_count n 16)) as [Lb _].
  rewrite slice_Ok by zlia. f_equal. rewrite Z.sub_0_r, drop_0, take_app_le by (unfold zlen in Lb; lia). done.
Qed.
End kdf.

Lemma aes_cm_prf_in label salt : zlen salt <= 14 ->
  (p ← splice (E:=MediaError) (zeros 16) 0 salt; b ← index p 7; splice p 7 [Z.lxor b label]) =
  Ok (xor_salt (zeros 7 ++ [label] ++ zeros 6) salt ++ zeros 2).
Proof.
  intros H. do 15 (destruct salt as [|? salt]; [first [done|cbv -[Z.lxor]; by rewrite (Z.lxor_comm label)]|]). zlia.
Qed.

Lemma aes_cm_key_derivation_spec `{CryptoLaws crypto} label key salt n : zlen key = 16 -> zlen salt <= 14 -> 0 <= n ->
  aes_cm_key_derivation crypto label key salt 0 n = Ok (srtp_prf crypto Aes128 key label salt n).
Proof.
  intros Hk Hs Hn. unfold aes_cm_key_derivation. cbn [negb Z.eqb]. rewrite Hk. unfold srtp_prf.
  rewrite <- (kdf_spec _ (fun b Hb => block_total Aes128 key b Hk Hb) label salt n Hn).
  pose proof (aes_cm_prf_in label salt Hs) as E.
  destruct (splice (zeros 16) 0 salt) as [p| | |]; [|done..]. cbn [mbind outcome_bind] in E |- *.
  destruct (index p 7) as [b| | |]; [|done..]. cbn [mbind outcome_bind] in E |- *. by rewrite E.
Qed.

Lemma aes_256_cm_key_derivation_spec `{CryptoLaws crypto} label key salt n : zlen key = 32 -> zlen salt <= 14 -> 0 <= n <= 32 ->
  aes_256_cm_key_derivation crypto label key salt 0 n = Ok (srtp_prf crypto Aes256 key label salt n).
Proof.
  intros Hk Hs Hn. unfold aes_256_cm_key_derivation. cbn [negb Z.eqb]. rewrite Hk. cbn [negb Z.eqb Pos.eqb].
  rewrite !(proj2 (Z.ltb_ge _ _)) by lia. unfold srtp_prf.
  rewrite <- (kdf_spec _ (fun b Hb => block_total Aes256 key b Hk Hb) label salt n ltac:(lia)).
  change AES_256_BS with 16. replace (xor_salt (zeros 7 ++ [label] ++ put_u32 0 ++ zeros 4) salt) with
    (xor_salt (zeros 7 ++ [label] ++ zeros 6) salt ++ zeros 2); [done|].
  do 15 (destruct salt as [|? salt]; [done|]). zlia.
Qed.

Lemma srtp_prf_len `{CryptoLaws crypto} a key label salt n : zlen key = block_key_len a -> 0 <= n ->
  zlen (srtp_prf crypto a key label salt n) = n /\ bytes_ok (srtp_prf crypto a key label salt n).
Proof.
  intros Hk Hn. unfold srtp_prf. destruct (prf_blocks_len (block_encrypt crypto a key) (fun b Hb => block_total a key b Hk Hb) label salt 0 (kdf_count n 16)) as [L K].
  split; [|by apply Forall_take]. rewrite zlen_take, L. unfold kdf_count, div_ceil. rewrite Z2Nat.id by mlia. mlia.
Qed.

(** * Building a cipher *)

Definition is_cm (p : ProtectionProfile) : bool := match p with AeadAes128Gcm | AeadAes256Gcm => false | _ => true end.

(** The block cipher of the profile, and the keys derived with it. *)
Definition profile_block (p : ProtectionProfile) : BlockCipherAlgorithm := if key_len p =? 16 then Aes128 else Aes256.
Definition profile_prf (crypto : RTCCrypto) (p : ProtectionProfile) (key salt : bytes) (label n : Z) : bytes :=
  srtp_prf crypto (profile_block p) key label salt n.

Section build.
Context (crypto : RTCCrypto) `{!CryptoLaws crypto} (key salt : bytes) (p : ProtectionProfile).
Context (Hkey : zlen key = key_len p) (Hsalt : zlen salt = salt_len p).


Lemma profile_prf_len label n : 0 <= n -> zlen (profile_prf crypto p key salt label n) = n /\ bytes_ok (profile_prf crypto p key salt label n).
Proof using Hkey CryptoLaws0. apply srtp_prf_len. unfold profile_block. clear Hsalt. rewrite Hkey. by destruct p. Qed.

Lemma cm_new_ok : is_cm p = true -> exists c, CipherAesCmHmacSha1_new p key salt crypto = Ok c /\ cm_ok c /\
  cm_profile c = p /\ cm_srtp_session_salt c = profile_prf crypto p key salt LABEL_SRTP_SALT (zlen salt).
Proof using Hkey Hsalt CryptoLaws0.
  intros Hcm. set (sa := match p with Aes128CmHmacSha1_32 | Aes128CmHmacSha1_80 => Aes128Ctr | _ => Aes256Ctr end).
  assert (Hk : forall label, zlen (profile_prf crypto p key salt label (zlen key)) = stream_key_len sa).
  { intros. rewrite (proj1 (profile_prf_len label (zlen key) (zlen_nonneg _))), Hkey. by destruct p; try discriminate Hcm. }
  destruct (stream_total sa _ (Hk LABEL_SRTP_ENCRYPTION)) as (s1 & E1 & L1).
  destruct (stream_total sa _ (Hk LABEL_SRTCP_ENCRYPTION)) as (s2 & E2 & L2).
  destruct (hmac_total (profile_prf crypto p key salt LABEL_SRTP_AUTHENTICATION_TAG 20)) as (m1 & M1 & K1).
  destruct (hmac_total (profile_prf crypto p key salt LABEL_SRTCP_AUTHENTICATION_TAG 20)) as (m2 & M2 & K2).
  pose proof (profile_prf_len LABEL_SRTP_SALT (zlen salt) (zlen_nonneg _)) as [S1 _].
  pose proof (profile_prf_len LABEL_SRTCP_SALT (zlen salt) (zlen_nonneg _)) as [S2 _].
  exists (mkCipherAesCmHmacSha1 p (profile_prf crypto p key salt LABEL_SRTP_SALT (zlen salt)) m1 (profile_prf crypto p key salt LABEL_SRTCP_SALT (zlen salt)) m2 s1 s2).
  split; [|split; [|done]].
  - subst sa. unfold CipherAesCmHmacSha1_new, profile_prf, profile_block in *.
    destruct p; try discriminate Hcm; cbn [mbind outcome_bind key_len salt_len auth_key_len Z.eqb Pos.eqb] in *;
      rewrite ?aes_cm_key_derivation_spec, ?aes_256_cm_key_derivation_spec by lia; cbn [mbind outcome_bind];
      rewrite E1, E2; cbn [mbind outcome_bind crypto_error]; rewrite M1, M2; done.
  - split; cbn; [by destruct p; try discriminate Hcm|split; rewrite ?S1, ?S2, Hsalt; by destruct p|done|done].
Qed.

Lemma gcm_new_ok : is_cm p = false -> exists c, CipherAeadAesGcm_new p key salt crypto = Ok c /\ gcm_ok c /\
  gcm_profile c = p /\ gcm_srtp_session_salt c = profile_prf crypto p key salt LABEL_SRTP_SALT (zlen salt).
Proof using Hkey Hsalt CryptoLaws0.
  intros Hcm. set (aa := match p with AeadAes128Gcm => Aes128Gcm | _ => Aes256Gcm end).
  assert (Hk : forall label, exists x, new_aead crypto aa (profile_prf crypto p key salt label (zlen key)) = Ok x /\ AeadLaws x).
  { intros. apply (aead_total aa _ (key_len p)); [|rewrite (proj1 (profile_prf_len label (zlen key) (zlen_nonneg _))); done].
    destruct p; try discriminate Hcm; set_solver. }
  destruct (Hk LABEL_SRTP_ENCRYPTION) as (x1 & E1 & L1). destruct (Hk LABEL_SRTCP_ENCRYPTION) as (x2 & E2 & L2).
  pose proof (profile_prf_len LABEL_SRTP_SALT (zlen salt) (zlen_nonneg _)) as [S1 _].
  pose proof (profile_prf_len LABEL_SRTCP_SALT (zlen salt) (zlen_nonneg _)) as [S2 _].
  exists (mkCipherAeadAesGcm p x1 x2 (profile_prf crypto p key salt LABEL_SRTP_SALT (zlen salt)) (profile_prf crypto p key salt LABEL_SRTCP_SALT (zlen salt))).
  split; [|split; [|done]].
  - subst aa. unfold CipherAeadAesGcm_new, gcm_build_cipher, profile_prf, profile_block in *. rewrite Hsalt.
    destruct p; try discriminate Hcm; cbn [mbind outcome_bind key_len salt_len Z.eqb Pos.eqb negb profile_aead_auth_tag_len CIPHER_AEAD_AES_GCM_AUTH_TAG_LEN] in *;
      rewrite ?aes_cm_key_derivation_spec, ?aes_256_cm_key_derivation_spec by lia; cbn [mbind outcome_bind];
      rewrite E1, E2; cbn [mbind outcome_bind crypto_error]; rewrite !aead_tag; cbn [mbind outcome_bind negb Z.eqb Pos.eqb CIPHER_AEAD_AES_GCM_AUTH_TAG_LEN]; done.
  - split; cbn; [by destruct p; try discriminate Hcm|split; rewrite ?S1, ?S2, Hsalt; by destruct p; try discriminate Hcm|done].
Qed.
End build.

(** * Properties *)

(** Both key derivations compute the pseudo-random function of RFC 3711: for a master
    key of the right length and a salt of at most 14 bytes the derived key is the first
    [n] bytes of the block cipher's output on the blocks made of salt, label and block
    number, and nothing panics. *)
Theorem srtp_kdf_rfc3711 crypto label key salt n : CryptoLaws crypto -> zlen salt <= 14 -> 0 <= n <= 32 ->
  (zlen key = 16 -> aes_cm_key_derivation crypto label key salt 0 n = Ok (srtp_prf crypto Aes128 key label salt n)) /\
  (zlen key = 32 -> aes_256_cm_key_derivation crypto label key salt 0 n = Ok (srtp_prf crypto Aes256 key label salt n)) /\
  (zlen key = 16 \/ zlen key = 32 ->
   zlen (srtp_prf crypto (if zlen key =? 16 then Aes128 else Aes256) key label salt n) = n).
Proof.
  intros HC Hs Hn. split; [intros; apply aes_cm_key_derivation_spec; lia|]. split; [intros; apply aes_256_cm_key_derivation_spec; lia|].
  intros [Hk|Hk]; rewrite Hk; cbn [Z.eqb Pos.eqb]; apply srtp_prf_len; done || lia.
Qed.

(** A provider for examples: block and stream ciphers that add the key's first byte, a
    tag that is a checksum. *)
Definition toy_byte (key : bytes) : Z := nth 0 key 0 mod 256.
Definition toy_stream (key iv d : bytes) : crypto_result bytes :=
  if negb (zlen iv =? 16) then Err (InvalidNonceLength 16 (zlen iv)) else Ok (map (fun x => Z.lxor x (toy_byte key)) d).
Definition toy_tag (key : bytes) (parts : list bytes) (n : Z) : bytes :=
  put_u32 (zsum (fun x => x + 1) (concat parts) + toy_byte key) ++ zeros (n - 4).
Definition toy_seal (key nonce aad pt : bytes) (n : Z) : crypto_result (bytes * bytes) :=
  if negb (zlen nonce =? 12) then Err (InvalidNonceLength 12 (zlen nonce)) else Ok (pt, toy_tag key [nonce; aad; pt] n).
Definition toy_open (key nonce aad ct tag : bytes) : crypto_result bytes :=
  if negb (zlen nonce =? 12) then Err (InvalidNonceLength 12 (zlen nonce))
  else if bool_decide (tag = toy_tag key [nonce; aad; ct] 16) then Ok ct else Err AuthenticationFailed.
Definition toy_crypto : RTCCrypto :=
  mkRTCCrypto (fun _ => true) (fun _ key b => Ok (map (fun x => x mod 256) b))
    (fun _ key => Ok (mkMac (fun parts n => Ok (toy_tag key parts n))))
    (fun _ key => Ok (mkStreamCipher (toy_stream key)))
    (fun _ key => Ok (mkAeadCipher 16 (toy_seal key) (toy_open key))).

Lemma toy_tag_len key parts n : 4 <= n -> zlen (toy_tag key parts n) = n /\ bytes_ok (toy_tag key parts n).
Proof. intros. unfold toy_tag. rewrite bytes_ok_app. split; [zlia|]. auto with post. Qed.

Lemma lxor_u8 x y : is_u8 x -> is_u8 y -> is_u8 (Z.lxor x y).
Proof.
  unfold_ints. intros Hx Hy. assert (0 <= Z.lxor x y) by (apply Z.lxor_nonneg; lia). split; [done|].
  destruct (Z.eq_dec (Z.lxor x y) 0) as [->|]; [lia|]. change 256 with (2 ^ 8). apply Z.log2_lt_pow2; [lia|].
  assert (forall z, 0 <= z < 256 -> Z.log2 z < 8).
  { intros z Hz. destruct (Z.eq_dec z 0) as [->|]; [done|]. apply Z.log2_lt_pow2; lia. }
  pose proof (Z.log2_lxor x y ltac:(lia) ltac:(lia)). pose proof (H0 x Hx). pose proof (H0 y Hy). lia.
Qed.

Lemma toy_stream_laws key : StreamLaws (mkStreamCipher (toy_stream key)).
Proof.
  split. intros iv d Hiv. cbn. unfold toy_stream. rewrite Hiv. cbn [negb Z.eqb Pos.eqb]. eexists. split; [done|].
  split; [by rewrite zlen_map|]. split.
  - f_equal. rewrite map_map. etrans; [|apply map_id]. apply map_ext. intros x. by rewrite Z.lxor_assoc, Z.lxor_nilpotent, Z.lxor_0_r.
  - intros Hd. apply List.Forall_map. eapply Forall_impl; [exact Hd|]. intros x Hx. apply lxor_u8; [done|]. unfold toy_byte. unfold_ints. mlia.
Qed.

Lemma toy_aead_laws key : AeadLaws (mkAeadCipher 16 (toy_seal key) (toy_open key)).
Proof.
  split; cbn; unfold toy_seal, toy_open.
  - done.
  - intros nonce aad pt Hn. rewrite Hn. cbn [negb Z.eqb Pos.eqb]. do 2 eexists. split; [done|]. split; [done|].
    destruct (toy_tag_len key [nonce; aad; pt] 16 ltac:(lia)) as [??]. auto.
  - intros nonce aad ct tag pt Hn Ht. rewrite Hn. cbn [negb Z.eqb Pos.eqb]. case_bool_decide; split; intros; simplify_eq; done.
  - intros nonce aad ct tag Hn Ht. rewrite Hn. cbn [negb Z.eqb Pos.eqb]. by case_bool_decide.
Qed.

#[export] Instance toy_crypto_laws : CryptoLaws toy_crypto.
Proof.
  split; cbn.
  - done.
  - intros a key b _ Hb. eexists. split; [done|]. split; [by rewrite zlen_map|]. apply List.Forall_map.
    apply Forall_forall. intros. unfold_ints. mlia.
  - intros key. eexists. split; [done|]. split. intros parts. eexists. split; [done|]. apply toy_tag_len. lia.
  - intros a key _. eexists. split; [done|]. apply toy_stream_laws.
  - intros a key n _ _. eexists. split; [done|]. apply toy_aead_laws.
Qed.

Lemma srtp_kdf_rfc3711_witness :
  aes_cm_key_derivation toy_crypto LABEL_SRTP_SALT (replicate 16 7) (replicate 14 9) 0 14 =
    Ok (srtp_prf toy_crypto Aes128 (replicate 16 7) LABEL_SRTP_SALT (replicate 14 9) 14) /\
  srtp_prf toy_crypto Aes128 (replicate 16 7) LABEL_SRTP_SALT (replicate 14 9) 14 = replicate 7 9 ++ [11] ++ replicate 6 9.
Proof.
  split; [|vm_compute; reflexivity].
  exact (proj1 (srtp_kdf_rfc3711 toy_crypto LABEL_SRTP_SALT (replicate 16 7) (replicate 14 9) 14 toy_crypto_laws
    ltac:(vm_compute; discriminate) ltac:(lia)) ltac:(reflexivity)).
Defined.

Lemma Ok_inj {E A} (x y : A) : Ok (E:=E) x = Ok y -> x = y.
Proof. by intros [= ->]. Qed.

Lemma shiftl16_u32 s : is_u16 s -> is_u32 (Z.shiftl s 16) /\ Z.shiftl s 16 = s * 65536.
Proof. unfold_ints. rewrite Z.shiftl_mul_pow2 by lia. change (2 ^ 16) with 65536. lia. Qed.

Lemma counter_fields_inj seq roc ssrc seq' roc' ssrc' salt : is_u16 seq -> is_u32 roc -> is_u32 ssrc -> is_u16 seq' -> is_u32 roc' -> is_u32 ssrc' ->
  zlen salt <= 16 -> generate_counter seq roc ssrc salt = generate_counter seq' roc' ssrc' salt ->
  seq = seq' /\ roc = roc' /\ ssrc = ssrc'.
Proof.
  intros H1 H2 H3 H4 H5 H6 Hs. unfold generate_counter. rewrite (proj2 (Z.ltb_ge _ _)) by lia. intros H%Ok_inj.
  destruct (shiftl16_u32 seq H1) as [U1 E1]. destruct (shiftl16_u32 seq' H4) as [U2 E2].
  apply xor_salt_inj in H; [|done]. apply app4_inj in H as (A & B & C); [|done..].
  apply put_u32_inj in A, B, C; try done. lia.
Qed.

Lemma counter_low_zero seq roc ssrc salt : is_u16 seq -> zlen salt <= 14 ->
  exists p, generate_counter seq roc ssrc salt = Ok (p ++ [0; 0]) /\ zlen p = 14.
Proof.
  intros Hq Hs. unfold generate_counter. rewrite (proj2 (Z.ltb_ge _ _)) by lia.
  destruct (shiftl16_u32 seq Hq) as [_ ->]. set (q := zeros 4 ++ put_u32 ssrc ++ put_u32 roc ++ [seq / 256 mod 256; seq mod 256]).
  replace (zeros 4 ++ put_u32 ssrc ++ put_u32 roc ++ put_u32 (seq * 65536)) with (q ++ [0; 0]).
  2:{ unfold q. rewrite <- !(assoc_L app). do 3 f_equal. unfold put_u32. cbn [app]. f_equal; [mlia|]. f_equal; [mlia|]. f_equal; [mlia|]. f_equal. mlia. }
  assert (Hq' : zlen q = 14) by done. clearbody q. exists (xor_salt q salt). split; [|by rewrite zlen_xor_salt]. f_equal.
  assert (Hle : zlen salt <= zlen q) by lia. clear -Hle. revert salt Hle. induction q as [|x q IH]; intros [|s salt] Hle; cbn [app xor_salt]; try done.
  - f_equal. apply IH. zlia.
Qed.

Lemma gcm_iv_fields a b c a' b' c' (salt : bytes) : zlen a = zlen a' -> zlen b = zlen b' -> zlen c = zlen c' ->
  2 + zlen a + zlen b + zlen c <= zlen salt ->
  salt_iv (zeros 2 ++ a ++ b ++ c) salt = salt_iv (zeros 2 ++ a' ++ b' ++ c') salt -> a = a' /\ b = b' /\ c = c'.
Proof.
  intros Ha Hb Hc Hs. rewrite !salt_iv_Ok by zlia. intros H%Ok_inj. apply xor_salt_inj in H; [|zlia].
  apply app4_inj in H; [done|unfold zlen in *; lia..].
Qed.

(** C37: The initialization vectors are injective under one session salt: the AES-CM
    counter (with a salt of at most 14 bytes) and the AES-GCM nonce of an SRTP packet
    determine its SSRC, rollover counter and sequence number, those of an SRTCP packet its
    SSRC and 31-bit index; and the last two bytes of an SRTP packet's AES-CM counter are
    zero, so the 65536 counter blocks from it on are disjoint from those of any packet that
    differs in SSRC, rollover counter or sequence number.  This is about the functions that
    compute the vectors, not about which numbers a session uses: SRTCP restarts its index at
    0 after 2^31 - 1 with the same key and then repeats them. *)
Theorem srtp_iv_unique (salt : bytes) (g : CipherAeadAesGcm) h h' roc roc' idx idx' s s' :
  zlen salt <= 14 -> gcm_ok g -> fields_ok h -> fields_ok h' -> is_u32 roc -> is_u32 roc' ->
  0 <= idx < 2147483648 -> 0 <= idx' < 2147483648 -> is_u32 s -> is_u32 s' ->
  let key h roc := (ssrc h, roc, sequence_number h) in
  (exists p, generate_counter (sequence_number h) roc (ssrc h) salt = Ok (p ++ [0; 0]) /\ zlen p = 14) /\
  (generate_counter (sequence_number h) roc (ssrc h) salt = generate_counter (sequence_number h') roc' (ssrc h') salt ->
    key h roc = key h' roc') /\
  (rtp_initialization_vector g h roc = rtp_initialization_vector g h' roc' -> key h roc = key h' roc') /\
  (generate_counter (Z.land idx 65535) (as_u32 (Z.shiftr idx 16)) s salt =
     generate_counter (Z.land idx' 65535) (as_u32 (Z.shiftr idx' 16)) s' salt -> (s, idx) = (s', idx')) /\
  (rtcp_initialization_vector g idx s = rtcp_initialization_vector g idx' s' -> (s, idx) = (s', idx')).
Proof.
  intros Hs Hg Hh Hh' Hr Hr' Hi Hi' Hu Hu' key. destruct (gcm_salt_len g Hg) as [L1 L2].
  unfold fields_ok in *. assert (is_u16 (sequence_number h) /\ is_u16 (sequence_number h') /\ is_u32 (ssrc h) /\ is_u32 (ssrc h')) as (A & B & C & D) by tauto.
  split; [by apply counter_low_zero|]. split_and!.
  - intros E. apply counter_fields_inj in E as (E1 & E2 & E3); try done; [|lia]. unfold key. congruence.
  - intros E. apply gcm_iv_fields in E as (E1 & E2 & E3); try done. apply put_u32_inj in E1, E2; try done. apply put_u16_inj in E3; try done.
    unfold key. congruence.
  - assert (Hd : forall x, 0 <= x < 2147483648 -> Z.land x 65535 = x mod 65536 /\ as_u32 (Z.shiftr x 16) = x / 65536).
    { intros x Hx. change 65535 with (Z.ones 16). rewrite Z.land_ones, Z.shiftr_div_pow2 by lia. change (2 ^ 16) with 65536.
      unfold as_u32. rewrite (Z.mod_small (x / 65536)) by mlia. done. }
    destruct (Hd idx Hi) as [-> ->], (Hd idx' Hi') as [-> ->]. intros E. apply counter_fields_inj in E as (E1 & E2 & E3);
      try (unfold_ints; mlia). f_equal; [done|]. mlia.
  - unfold rtcp_initialization_vector. intros E. apply gcm_iv_fields in E as (E1 & _ & E3); try done.
    apply put_u32_inj in E1, E3; try done; unfold as_u32 in *; rewrite ?Z.mod_small in *; unfold_ints; try lia. congruence.
Qed.

Definition gcm_example : CipherAeadAesGcm :=
  let a := mkAeadCipher 16 (toy_seal [3]) (toy_open [3]) in mkCipherAeadAesGcm AeadAes128Gcm a a (replicate 12 5) (replicate 12 6).
Lemma gcm_example_ok : gcm_ok gcm_example.
Proof. split; [done|done|split; apply toy_aead_laws]. Qed.

Lemma fields_ok_example n : is_u16 n -> fields_ok (header_example <| sequence_number := n |>).
Proof. intros. unfold fields_ok. cbn. split_and!; try done; unfold_ints; zlia. Qed.

Lemma srtp_iv_unique_witness :
  generate_counter 7 0 2 (replicate 14 9) <> generate_counter 8 0 2 (replicate 14 9) /\
  rtp_initialization_vector gcm_example (header_example <| sequence_number := 7 |>) 0 <>
    rtp_initialization_vector gcm_example (header_example <| sequence_number := 8 |>) 0.
Proof.
  destruct (srtp_iv_unique (replicate 14 9) gcm_example (header_example <| sequence_number := 7 |>) (header_example <| sequence_number := 8 |>)
    0 0 1 2 3 4) as (_ & H1 & H2 & _);
    [vm_compute; discriminate|apply gcm_example_ok|apply fields_ok_example; unfold_ints; lia..|
     unfold_ints; lia|unfold_ints; lia|lia|lia|unfold_ints; lia|unfold_ints; lia|].
  split; [intros E; assert (E' := H1 E)|intros E; assert (E' := H2 E)]; vm_compute in E'; congruence.
Defined.

(** * What the code does with unencrypted SRTCP *)

(** An SRTCP packet without the encryption flag is returned without a look at its tag. *)
Lemma unencrypted_srtcp_not_authenticated c body e w tag idx ssrc : cm_ok c -> 8 <= zlen body -> zlen w = 3 -> zlen tag = 10 ->
  0 <= e < 128 -> cm_decrypt_rtcp c (body ++ e :: w ++ tag) idx ssrc = Ok body.
Proof.
  intros Hc Hb Hw Ht He. destruct (cm_profile_cm c Hc) as (_ & _ & Hp). unfold cm_decrypt_rtcp. rewrite Hp. change SRTCP_INDEX_SIZE with 4.
  rewrite !(proj2 (Z.ltb_ge _ _)) by zlia. rewrite take_front by zlia.
  assert (En : index (E:=MediaError) (body ++ e :: w ++ tag) (zlen (body ++ e :: w ++ tag) - (10 + 4)) = Ok e).
  { unfold index. rewrite (proj2 (Z.leb_le _ _)), (proj2 (Z.ltb_lt _ _)) by zlia. cbn [andb]. f_equal.
    replace (Z.to_nat _) with (length body + 0)%nat by (autorewrite with zlen; rewrite Hw, Ht; unfold zlen; lia).
    by rewrite app_nth2_plus. }
  rewrite En. cbn [mbind outcome_bind]. rewrite Z.shiftr_div_pow2 by lia. rewrite Z.div_small by lia. done.
Qed.
