(* ===== verification/Srtp.v ===== *)
(** SRTP contexts ([rtc-srtp/src/context], [option.rs], [config.rs]): the rollover counter
    and the replay state of each synchronization source, protecting and unprotecting RTP
    and RTCP packets, and the keys from the DTLS exporter.  The cipher is used through the
    laws of [CipherLaws].  Proved: the rollover counter is estimated rightly, a session
    delivers every packet once and nothing forged, and RTCP packets come back. *)
From S2P Require Import Prelude Replay Marshal Rtp Rtcp Crypto SrtpCipher.

(** * Replay detectors of a context *)

(** [Box<dyn ReplayDetector>]: the two implementations the factories create. *)
Inductive Detector := Wrapped (d : WrappedSlidingWindowDetector) | NoOp.

Definition detector_check (d : Detector) (seq : Z) : bool * Detector :=
  match d with
  | Wrapped d => let '(ok, d) := WrappedSlidingWindowDetector_check d seq in (ok, Wrapped d)
  | NoOp => (true, NoOp)
  end.
Definition detector_accept (d : Detector) : rtp_result Detector :=
  match d with
  | Wrapped d => match WrappedSlidingWindowDetector_accept d with Ok d => Ok (Wrapped d) | _ => Panic end
  | NoOp => Ok NoOp
  end.

(** A factory is the detector it makes for a new source. *)
Abbreviation ContextOption := Detector.
Definition MAX_SEQUENCE_NUMBER : Z := 65535.
Definition MAX_SRTCP_INDEX : Z := 2147483647.
Definition srtp_replay_protection (window_size : Z) : ContextOption := Wrapped (WrappedSlidingWindowDetector_new window_size MAX_SEQUENCE_NUMBER).
Definition srtcp_replay_protection (window_size : Z) : ContextOption := Wrapped (WrappedSlidingWindowDetector_new window_size MAX_SRTCP_INDEX).
Definition srtp_no_replay_protection : ContextOption := NoOp.
Definition srtcp_no_replay_protection : ContextOption := NoOp.

(** * State per source *)

Definition MAX_ROC : Z := 4294967295.
Definition SEQ_NUM_MEDIAN : Z := 32768.
Definition SEQ_NUM_MAX : Z := 65535.

Record SrtpSsrcState := mkSrtpSsrcState {
  st_ssrc : Z;
  st_index : Z;
  st_rollover_has_processed : bool;
  st_replay_detector : option Detector
}.
#[export] Instance SrtpSsrcState_eta : Eta SrtpSsrcState := fun s =>
  mkSrtpSsrcState (st_ssrc s) (st_index s) (st_rollover_has_processed s) (st_replay_detector s).

Record SrtcpSsrcState := mkSrtcpSsrcState { ct_srtcp_index : Z; ct_ssrc : Z; ct_replay_detector : option Detector }.
#[export] Instance SrtcpSsrcState_eta : Eta SrtcpSsrcState := fun s =>
  mkSrtcpSsrcState (ct_srtcp_index s) (ct_ssrc s) (ct_replay_detector s).

(** The guessed rollover counter, the distance to the local index, and whether the
    counter ran over. *)
Definition next_rollover_count (s : SrtpSsrcState) (sequence_number : Z) : Z * Z * bool :=
  let local_roc := as_u32 (Z.shiftr (st_index s) 16) in
  let local_seq := as_u16 (st_index s) in
  let '(guess_roc, diff) :=
    if st_rollover_has_processed s then
      let seq := sequence_number - local_seq in
      if SEQ_NUM_MEDIAN <? st_index s then
        if local_seq <? SEQ_NUM_MEDIAN then
          if SEQ_NUM_MEDIAN <? seq then (as_u32 (local_roc - 1), seq - (SEQ_NUM_MAX + 1)) else (local_roc, seq)
        else if sequence_number <? local_seq - SEQ_NUM_MEDIAN then (as_u32 (local_roc + 1), seq + (SEQ_NUM_MAX + 1))
        else (local_roc, seq)
      else (local_roc, seq)
    else (local_roc, 0) in
  (guess_roc, diff, (guess_roc =? 0) && (local_roc =? MAX_ROC)).

Definition update_rollover_count (s : SrtpSsrcState) (sequence_number diff : Z) : SrtpSsrcState :=
  if negb (st_rollover_has_processed s)
  then s <| st_index := Z.lor (st_index s) sequence_number |> <| st_rollover_has_processed := true |>
  else s <| st_index := as_u64 (st_index s + diff) |>.

(** * Contexts *)

Record Context := mkContext {
  cx_cipher : Cipher;
  srtp_ssrc_states : gmap Z SrtpSsrcState;
  srtcp_ssrc_states : gmap Z SrtcpSsrcState;
  new_srtp_replay_detector : ContextOption;
  new_srtcp_replay_detector : ContextOption
}.
#[export] Instance Context_eta : Eta Context := fun c =>
  mkContext (cx_cipher c) (srtp_ssrc_states c) (srtcp_ssrc_states c) (new_srtp_replay_detector c) (new_srtcp_replay_detector c).

Definition Context_new (master_key master_salt : bytes) (profile : ProtectionProfile)
    (srtp_ctx_opt srtcp_ctx_opt : option ContextOption) (crypto : RTCCrypto) : rtp_result Context :=
  if negb (zlen master_key =? key_len profile) then Err (SrtpMasterKeyLength (key_len profile) (zlen master_key))
  else if negb (zlen master_salt =? salt_len profile) then Err (SrtpSaltLength (salt_len profile) (zlen master_salt))
  else
    ensure_crypto_supported profile crypto;;
    cipher ← match profile with
      | Aes128CmHmacSha1_32 | Aes128CmHmacSha1_80 | Aes256CmHmacSha1_80 | Aes256CmHmacSha1_32 =>
          c ← CipherAesCmHmacSha1_new profile master_key master_salt crypto; Ok (cm_cipher c)
      | AeadAes128Gcm | AeadAes256Gcm => c ← CipherAeadAesGcm_new profile master_key master_salt crypto; Ok (gcm_cipher c)
      end;
    Ok (mkContext cipher ∅ ∅ (default srtp_no_replay_protection srtp_ctx_opt) (default srtcp_no_replay_protection srtcp_ctx_opt)).

Definition fresh_srtp_state (c : Context) (ssrc : Z) : SrtpSsrcState := mkSrtpSsrcState ssrc 0 false (Some (new_srtp_replay_detector c)).
Definition fresh_srtcp_state (c : Context) (ssrc : Z) : SrtcpSsrcState := mkSrtcpSsrcState 0 ssrc (Some (new_srtcp_replay_detector c)).

Definition put_srtp (c : Context) (ssrc : Z) (s : SrtpSsrcState) : Context := c <| srtp_ssrc_states ::= <[ssrc := s]> |>.
Definition put_srtcp (c : Context) (ssrc : Z) (s : SrtcpSsrcState) : Context := c <| srtcp_ssrc_states ::= <[ssrc := s]> |>.

(** [entry(ssrc).or_insert_with(..)]: the state and the context that holds it. *)
Definition get_srtp_ssrc_state (c : Context) (ssrc : Z) : SrtpSsrcState * Context :=
  match srtp_ssrc_states c !! ssrc with
  | Some s => (s, c)
  | None => let s := fresh_srtp_state c ssrc in (s, put_srtp c ssrc s)
  end.
Definition get_srtcp_ssrc_state (c : Context) (ssrc : Z) : SrtcpSsrcState * Context :=
  match srtcp_ssrc_states c !! ssrc with
  | Some s => (s, c)
  | None => let s := fresh_srtcp_state c ssrc in (s, put_srtcp c ssrc s)
  end.

Definition get_roc (c : Context) (ssrc : Z) : option Z := (fun s => as_u32 (Z.shiftr (st_index s) 16)) <$> srtp_ssrc_states c !! ssrc.
Definition set_roc (c : Context) (ssrc roc : Z) : Context :=
  let '(s, c) := get_srtp_ssrc_state c ssrc in
  put_srtp c ssrc (s <| st_index := Z.shiftl roc 16 |> <| st_rollover_has_processed := false |>).
Definition get_index (c : Context) (ssrc : Z) : option Z := ct_srtcp_index <$> srtcp_ssrc_states c !! ssrc.
Definition set_index (c : Context) (ssrc index : Z) : Context :=
  let '(s, c) := get_srtcp_ssrc_state c ssrc in put_srtcp c ssrc (s <| ct_srtcp_index := index mod (MAX_SRTCP_INDEX + 1) |>).

(** [if let Some(d) = &mut state.replay_detector && !d.check(n)], and [d.accept()]. *)
Definition check_replay (d : option Detector) (n : Z) : bool * option Detector :=
  match d with Some d => let '(ok, d) := detector_check d n in (ok, Some d) | None => (true, None) end.
Definition accept_replay (d : option Detector) : rtp_result (option Detector) :=
  match d with Some d => d ← detector_accept d; Ok (Some d) | None => Ok None end.

(** * SRTP *)

(** The state of a known source is changed in place; that of an unknown one is kept only
    when the packet authenticates. *)
Definition decrypt_rtp_under_state {T} (h : Header) (decrypt : Cipher -> Z -> rtp_result T) (c : Context) : rtp_result T * Context :=
  let known := srtp_ssrc_states c !! ssrc h in
  let state := default (fresh_srtp_state c (ssrc h)) known in
  let '(roc, diff, _) := next_rollover_count state (sequence_number h) in
  let '(ok, d) := check_replay (st_replay_detector state) (sequence_number h) in
  let state := state <| st_replay_detector := d |> in
  let c := match known with Some _ => put_srtp c (ssrc h) state | None => c end in
  if negb ok then (Err (SrtpSsrcDuplicated (ssrc h) (sequence_number h)), c)
  else
    match decrypt (cx_cipher c) roc with
    | Ok decrypted =>
        match accept_replay (st_replay_detector state) with
        | Ok d =>
            let state := update_rollover_count (state <| st_replay_detector := d |>) (sequence_number h) diff in
            (Ok decrypted, put_srtp c (ssrc h) state)
        | Err e => (Err e, c) | Panic => (Panic, c) | Diverge => (Diverge, c)
        end
    | Err e => (Err e, c) | Panic => (Panic, c) | Diverge => (Diverge, c)
    end.

Definition decrypt_rtp_with_header (encrypted : bytes) (h : Header) (c : Context) : rtp_result bytes * Context :=
  if zlen encrypted <? Header_size h + rtp_auth_tag_len (cx_cipher c) then (Err ErrTooShortRtp, c)
  else decrypt_rtp_under_state h (fun cipher roc => cipher_decrypt_rtp cipher encrypted h roc) c.

Definition decrypt_rtp (encrypted : bytes) (c : Context) : rtp_result bytes * Context :=
  match Header_unmarshal encrypted with
  | Ok (h, _) => decrypt_rtp_with_header encrypted h c
  | Err e => (Err e, c) | Panic => (Panic, c) | Diverge => (Diverge, c)
  end.

(** What follows decryption in place: the header is skipped and the padding removed. *)
Definition payload_of (h : Header) (payload_offset : Z) (decrypted : bytes) : rtp_result Packet :=
  if zlen decrypted <? payload_offset then Err ErrShortPacket
  else
    let payload := drop (Z.to_nat payload_offset) decrypted in
    if padding h then p ← strip_padding payload; Ok (mkPacket h p) else Ok (mkPacket h payload).

Definition decrypt_rtp_packet (encrypted : bytes) (c : Context) : rtp_result Packet * Context :=
  match Header_unmarshal encrypted with
  | Ok (h, buf) =>
      let payload_offset := zlen encrypted - zlen buf in
      if zlen encrypted <? Header_size h + rtp_auth_tag_len (cx_cipher c) then (Err ErrTooShortRtp, c)
      else
        let '(r, c) := decrypt_rtp_under_state h (fun cipher roc => decrypt_rtp_in_place cipher encrypted h roc) c in
        (decrypted ← r; payload_of h payload_offset decrypted, c)
  | Err e => (Err e, c) | Panic => (Panic, c) | Diverge => (Diverge, c)
  end.

Definition encrypt_rtp_under_state {T} (h : Header) (encrypt : Cipher -> Z -> rtp_result T) (c : Context) : rtp_result T * Context :=
  let '(s, c) := get_srtp_ssrc_state c (ssrc h) in
  let '(roc, diff, ovf) := next_rollover_count s (sequence_number h) in
  if ovf : bool then (Err ErrExceededMaxPackets, c)
  else
    match encrypt (cx_cipher c) roc with
    | Ok encrypted =>
        let '(s, c) := get_srtp_ssrc_state c (ssrc h) in
        (Ok encrypted, put_srtp c (ssrc h) (update_rollover_count s (sequence_number h) diff))
    | Err e => (Err e, c) | Panic => (Panic, c) | Diverge => (Diverge, c)
    end.

Definition encrypt_rtp_with_header (plaintext : bytes) (h : Header) (c : Context) : rtp_result bytes * Context :=
  encrypt_rtp_under_state h (fun cipher roc => cipher_encrypt_rtp cipher plaintext h roc) c.

Definition encrypt_rtp (plaintext : bytes) (c : Context) : rtp_result bytes * Context :=
  match Header_unmarshal plaintext with
  | Ok (h, _) => encrypt_rtp_with_header plaintext h c
  | Err e => (Err e, c) | Panic => (Panic, c) | Diverge => (Diverge, c)
  end.

Definition encrypt_rtp_packet `{OverflowChecks} (packet : Packet) (c : Context) : rtp_result bytes * Context :=
  match marshal packet with
  | Ok buf => encrypt_rtp_under_state (header packet) (fun cipher roc => encrypt_rtp_in_place cipher buf (header packet) roc) c
  | Err e => (Err e, c) | Panic => (Panic, c) | Diverge => (Diverge, c)
  end.

(** * SRTCP *)

(** [u32::from_be_bytes] of bytes 4 to 8. *)
Definition rtcp_ssrc (packet : bytes) : rtp_result Z := w ← slice packet 4 8; '(v, _) ← get_u32 w; Ok v.

(** The replay state around the cipher, as for SRTP. *)
Definition decrypt_rtcp_under_state (encrypted : bytes) (index ssrc : Z) (c : Context) : rtp_result bytes * Context :=
  let known := srtcp_ssrc_states c !! ssrc in
  let state := default (fresh_srtcp_state c ssrc) known in
  let '(ok, d) := check_replay (ct_replay_detector state) index in
  let state := state <| ct_replay_detector := d |> in
  let c := match known with Some _ => put_srtcp c ssrc state | None => c end in
  if negb ok then (Err (SrtcpSsrcDuplicated ssrc index), c)
  else
    match cipher_decrypt_rtcp (cx_cipher c) encrypted index ssrc with
    | Ok dst =>
        match accept_replay (ct_replay_detector state) with
        | Ok d => (Ok dst, put_srtcp c ssrc (state <| ct_replay_detector := d |>))
        | Err e => (Err e, c) | Panic => (Panic, c) | Diverge => (Diverge, c)
        end
    | Err e => (Err e, c) | Panic => (Panic, c) | Diverge => (Diverge, c)
    end.

Definition decrypt_rtcp (encrypted : bytes) (c : Context) : rtp_result bytes * Context :=
  let min_len := 8 + SRTCP_INDEX_SIZE + rtcp_auth_tag_len (cx_cipher c) + aead_auth_tag_len (cx_cipher c) in
  if zlen encrypted <? min_len then (Err ErrTooShortRtcp, c)
  else
    match (RtcpHeader_unmarshal encrypted;; index ← get_rtcp_index (cx_cipher c) encrypted; ssrc ← rtcp_ssrc encrypted; Ok (index, ssrc)) with
    | Ok (index, ssrc) => decrypt_rtcp_under_state encrypted index ssrc c
    | Err e => (Err e, c) | Panic => (Panic, c) | Diverge => (Diverge, c)
    end.

Definition encrypt_rtcp (decrypted : bytes) (c : Context) : rtp_result bytes * Context :=
  if zlen decrypted <? 8 then (Err ErrTooShortRtcp, c)
  else
    match (RtcpHeader_unmarshal decrypted;; rtcp_ssrc decrypted) with
    | Ok ssrc =>
        let '(s, c) := get_srtcp_ssrc_state c ssrc in
        let index := ct_srtcp_index s + 1 in
        let index := if MAX_SRTCP_INDEX <? index then 0 else index in
        let c := put_srtcp c ssrc (s <| ct_srtcp_index := index |>) in
        (cipher_encrypt_rtcp (cx_cipher c) decrypted index ssrc, c)
    | Err e => (Err e, c) | Panic => (Panic, c) | Diverge => (Diverge, c)
    end.

(** * Keys from the DTLS exporter *)

Record SessionKeys := mkSessionKeys {
  local_master_key : bytes; local_master_salt : bytes; remote_master_key : bytes; remote_master_salt : bytes
}.
Definition keying_material_len (profile : ProtectionProfile) : Z := key_len profile * 2 + salt_len profile * 2.

Definition set_session_keys_from_keying_material (profile : ProtectionProfile) (keying_material : bytes) (is_client : bool)
  : rtp_result SessionKeys :=
  let expected := keying_material_len profile in
  if negb (zlen keying_material =? expected) then Err (KeyingMaterialLength expected (zlen keying_material))
  else
    let key_len := key_len profile in
    let salt_len := salt_len profile in
    client_write_key ← slice keying_material 0 key_len;
    server_write_key ← slice keying_material key_len (key_len + key_len);
    client_write_salt ← slice keying_material (key_len + key_len) (key_len + key_len + salt_len);
    server_write_salt ← slice keying_material (key_len + key_len + salt_len) (key_len + key_len + salt_len + salt_len);
    Ok (if is_client then mkSessionKeys client_write_key client_write_salt server_write_key server_write_salt
        else mkSessionKeys server_write_key server_write_salt client_write_key client_write_salt).

(** * The rollover counter *)

(** A source whose last packet had the extended index [i]. *)
Definition at_index (s : SrtpSsrcState) (i : Z) : Prop := st_rollover_has_processed s = true /\ st_index s = i.

Definition MAX_INDEX : Z := 281474976710656.

Lemma next_rollover_spec s i e : at_index s i -> 0 <= i < MAX_INDEX -> 0 <= e -> -32768 < e - i < 32768 ->
  next_rollover_count s (e mod 65536) = (as_u32 (e / 65536), e - i, MAX_INDEX <=? e).
Proof.
  intros [Hp Hx] Hi He Hd. unfold MAX_INDEX in *. unfold next_rollover_count, SEQ_NUM_MEDIAN, SEQ_NUM_MAX, MAX_ROC. rewrite Hp, Hx.
  rewrite Z.shiftr_div_pow2 by lia. change (2 ^ 16) with 65536. unfold as_u32, as_u16.
  assert (Hr : (i / 65536) mod 4294967296 = i / 65536) by (apply Z.mod_small; mlia). rewrite Hr.
  pose proof (Z.div_mod i 65536 ltac:(lia)). pose proof (Z.mod_pos_bound i 65536 ltac:(lia)).
  pose proof (Z.div_mod e 65536 ltac:(lia)). pose proof (Z.mod_pos_bound e 65536 ltac:(lia)).
  set (qi := i / 65536) in *. set (ri := i mod 65536) in *. set (qe := e / 65536) in *. set (re := e mod 65536) in *.
  assert (qe = qi \/ qe = qi - 1 \/ qe = qi + 1) as Hq by lia.
  destruct (Z.ltb_spec 32768 i); [destruct (Z.ltb_spec ri 32768); [destruct (Z.ltb_spec 32768 (re - ri))|destruct (Z.ltb_spec re (ri - 32768))]|];
    destruct Hq as [Hq|[Hq|Hq]]; try lia; (f_equal; [f_equal; [rewrite Hq; try done; symmetry; exact Hr|lia]|]);
    destruct (Z.leb_spec 281474976710656 e), (Z.eqb_spec qi 4294967295); rewrite ?andb_false_r; try done; try lia;
    match goal with |- (?a =? 0) && _ = _ => destruct (Z.eqb_spec a 0) end; try done; mlia.
Qed.

Lemma update_rollover_spec s i e d : at_index s i -> 0 <= e < MAX_INDEX ->
  at_index (update_rollover_count (s <| st_replay_detector := d |>) (e mod 65536) (e - i)) e /\
  st_replay_detector (update_rollover_count (s <| st_replay_detector := d |>) (e mod 65536) (e - i)) = d.
Proof.
  intros [Hp Hx] He. unfold MAX_INDEX in He. unfold update_rollover_count. change (st_rollover_has_processed (s <| st_replay_detector := d |>)) with (st_rollover_has_processed s).
  rewrite Hp. cbn [negb]. split; [|done]. split; [exact Hp|].
  change (as_u64 (st_index s + (e - i)) = e). rewrite Hx. unfold as_u64. rewrite Z.mod_small by lia. lia.
Qed.

(** * The replay window of a source *)

Section window.
Context (w max : Z) (Hw : 0 < w < max / 2) (Hmax : max < 4611686018427387904) (Hmod : w mod 64 <= 32).

(** The source has delivered [H], the highest number being [latest]. *)
Definition window_at (d : option Detector) (latest : Z) (H : list Z) : Prop :=
  exists x, d = Some (Wrapped x) /\ wr_rel w max latest x H.

Definition new_here (latest : Z) (H : list Z) (e : Z) : bool := bool_decide (latest < e \/ (latest - e < w /\ e ∉ H)).

Lemma receive_split x e ok x' : wr_receive x e = Ok (ok, x') ->
  exists x1, WrappedSlidingWindowDetector_check x e = (ok, x1) /\
    (if ok then WrappedSlidingWindowDetector_accept x1 = Ok x' else x1 = x').
Proof using Type.
  unfold wr_receive. destruct (WrappedSlidingWindowDetector_check x e) as [b x1]. destruct b.
  - destruct (WrappedSlidingWindowDetector_accept x1) eqn:E; cbn; try done. intros [= <- <-]. by exists x1.
  - intros [= <- <-]. by exists x1.
Qed.

(** A check of a detector in use changes nothing the window depends on. *)
Lemma check_keeps latest x H e : wr_rel w max latest x H -> wr_rel w max latest (WrappedSlidingWindowDetector_check x e).2 H.
Proof using Type.
  intros (A & B & C & D & F). unfold WrappedSlidingWindowDetector_check. cbn [wr_set wr_max_seq wr_init]. rewrite D. cbn [negb].
  destruct (e >? wr_max_seq x); [by split_and!|]. destruct (_ >=? _); [by split_and!|]. destruct (_ && _); by split_and!.
Qed.

Lemma window_check d latest H e : window_at d latest H -> - (max / 2) < latest - e <= max / 2 ->
  exists d1, check_replay d (e mod (max + 1)) = (new_here latest H e, d1) /\ window_at d1 latest H /\
    (new_here latest H e = true -> exists d2, accept_replay d1 = Ok d2 /\ window_at d2 (Z.max latest e) (e :: H)).
Proof using Hw Hmax Hmod.
  intros (x & -> & Hr) He. destruct (wr_receive_spec w max Hw Hmax Hmod latest x H e Hr He) as (x2 & E & Hr2).
  apply receive_split in E as (x1 & E1 & E2). unfold new_here. exists (Some (Wrapped x1)). split; [|split].
  - cbn. rewrite E1. done.
  - exists x1. split; [done|]. pose proof (check_keeps latest x H (e mod (max + 1)) Hr) as K. rewrite E1 in K. exact K.
  - intros Hok. rewrite Hok in E2, Hr2. cbn. rewrite E2. cbn. eexists. split; [done|]. by exists x2.
Qed.

Lemma window_first e : exists d1 d2,
  check_replay (Some (Wrapped (WrappedSlidingWindowDetector_new w max))) (e mod (max + 1)) = (true, d1) /\
  accept_replay d1 = Ok d2 /\ window_at d2 e [e].
Proof using Hw Hmax Hmod.
  destruct (wr_first w max Hw Hmax Hmod e) as (x2 & E & Hr). apply receive_split in E as (x1 & E1 & E2).
  exists (Some (Wrapped x1)), (Some (Wrapped x2)). cbn. rewrite E1, E2. split; [done|]. split; [done|]. by exists x2.
Qed.
End window.

(** * A receiving source *)

Section receiver.
Context (w : Z) (Hw : 0 < w < 32767) (Hmod : w mod 64 <= 32) (s : Z).

(** The receiver's view of source [s]: nothing yet, or the highest index and the indices
    delivered. *)
Definition View : Type := option (Z * list Z).

Definition receiving (v : View) (c : Context) : Prop :=
  new_srtp_replay_detector c = srtp_replay_protection w /\
  match v with
  | None => srtp_ssrc_states c !! s = None
  | Some (latest, H) => 0 <= latest < MAX_INDEX /\ exists st i, srtp_ssrc_states c !! s = Some st /\ at_index st i /\ 0 <= i /\
      latest - w < i <= latest /\ window_at w 65535 (st_replay_detector st) latest H
  end.

(** The index is one the receiver can place: the first packet before the first rollover,
    the others within half the range, less the window, of the highest. *)
Definition placed (v : View) (e : Z) : Prop :=
  0 <= e < MAX_INDEX /\ match v with None => e < 65536 | Some (latest, _) => w - 32768 < e - latest < 32768 - w end.

Definition is_new (v : View) (e : Z) : bool := match v with None => true | Some (latest, H) => new_here w latest H e end.
Definition deliver (v : View) (e : Z) : View :=
  Some (match v with None => (e, [e]) | Some (latest, H) => (Z.max latest e, e :: H) end).

Lemma decrypt_under_state_spec {T} v c h e (f : Cipher -> Z -> rtp_result T) :
  receiving v c -> placed v e -> ssrc h = s -> sequence_number h = e mod 65536 ->
  exists c', cx_cipher c' = cx_cipher c /\
    if is_new v e then
      match f (cx_cipher c) (e / 65536) with
      | Ok x => decrypt_rtp_under_state h f c = (Ok x, c') /\ receiving (deliver v e) c'
      | r => decrypt_rtp_under_state h f c = (r, c') /\ receiving v c'
      end
    else decrypt_rtp_under_state h f c = (Err (SrtpSsrcDuplicated s (e mod 65536)), c') /\ receiving v c'.
Proof using Hw Hmod.
  intros [Hd Hv] [He Hp] Hs Hq. unfold decrypt_rtp_under_state. rewrite Hs, Hq. destruct v as [[latest H]|].
  - destruct Hv as (HL & st & i & Hst & Hi & Hi0 & Hil & Hwin). rewrite Hst. cbn [default from_option id].
    rewrite (next_rollover_spec st i e) by (unfold MAX_INDEX in *; done || lia).
    replace (as_u32 (e / 65536)) with (e / 65536) by (unfold as_u32, MAX_INDEX in *; rewrite Z.mod_small; mlia).
    destruct (window_check w 65535 ltac:(done) ltac:(done) Hmod _ latest H e Hwin) as (d1 & E1 & W1 & Hacc); [change (65535 / 2) with 32767; lia|].
    change (65535 + 1) with 65536 in E1. rewrite E1. cbn [is_new].
    assert (Hk : forall st' i', at_index st' i' -> 0 <= i' -> latest - w < i' <= latest -> window_at w 65535 (st_replay_detector st') latest H ->
      receiving (Some (latest, H)) (put_srtp c s st')).
    { intros. split; [exact Hd|]. split; [done|]. exists st', i'. split; [apply lookup_insert_eq|done]. }
    destruct (new_here w latest H e) eqn:En; cbn [negb].
    + change (cx_cipher (put_srtp c s (st <| st_replay_detector := d1 |>))) with (cx_cipher c).
      destruct (f (cx_cipher c) (e / 65536)) as [x| | |].
      * destruct (Hacc eq_refl) as (d2 & E2 & W2). change (st_replay_detector (st <| st_replay_detector := d1 |>)) with d1. rewrite E2.
        destruct (update_rollover_spec (st <| st_replay_detector := d1 |>) i e d2 Hi He) as [A B].
        set (st2 := update_rollover_count _ _ _) in A, B |- *. clearbody st2.
        eexists. split; [|split; [reflexivity|]]; [done|]. split; [exact Hd|].
        unfold new_here in En. apply bool_decide_eq_true in En. split; [lia|].
        exists st2, e. split; [apply lookup_insert_eq|]. split; [exact A|]. rewrite B. split; [lia|]. split; [lia|done].
      * eexists. split; [|split; [reflexivity|]]; [done|]. by apply (Hk _ i).
      * eexists. split; [|split; [reflexivity|]]; [done|]. by apply (Hk _ i).
      * eexists. split; [|split; [reflexivity|]]; [done|]. by apply (Hk _ i).
    + eexists. split; [|split; [reflexivity|]]; [done|]. by apply (Hk _ i).
  - rewrite Hv. cbn [default from_option id is_new]. unfold fresh_srtp_state. rewrite Hd.
    destruct (window_first w 65535 ltac:(done) ltac:(done) Hmod e) as (d1 & d2 & E1 & E2 & W).
    change (65535 + 1) with 65536 in E1. unfold srtp_replay_protection, MAX_SEQUENCE_NUMBER.
    assert (Hn : next_rollover_count (mkSrtpSsrcState s 0 false (Some (Wrapped (WrappedSlidingWindowDetector_new w 65535)))) (e mod 65536) = (0, 0, false)) by done.
    rewrite Hn. cbn [st_replay_detector]. rewrite E1. cbn [negb]. rewrite Z.div_small by lia.
    destruct (f (cx_cipher c) 0) as [x| | |]; [|exists c; by split..].
    change (st_replay_detector (_ <| st_replay_detector := d1 |>)) with d1. rewrite E2.
    eexists. split; [|split; [reflexivity|]]; [done|]. split; [exact Hd|]. split; [lia|].
    eexists _, e. split; [apply lookup_insert_eq|]. split; [|split; [lia|split; [lia|exact W]]].
    split; [done|]. change (Z.lor 0 (e mod 65536) = e). rewrite Z.lor_0_l. apply Z.mod_small. lia.
Qed.

Lemma receiving_other v c s' st : s' <> s -> receiving v c -> receiving v (put_srtp c s' st).
Proof using Type.
  intros Hn [Hd Hv]. split; [exact Hd|]. destruct v as [[latest H]|]; cbn.
  - destruct Hv as (HL & st0 & i & Hst & R). split; [done|]. exists st0, i. split; [|done]. change (<[s' := st]> (srtp_ssrc_states c) !! s = Some st0).
    by rewrite lookup_insert_ne.
  - change (<[s' := st]> (srtp_ssrc_states c) !! s = None). by rewrite lookup_insert_ne.
Qed.

(** A packet that does not authenticate is an error and changes nothing the receiver
    remembers. *)
Lemma decrypt_under_state_fails {T} v c h (f : Cipher -> Z -> rtp_result T) :
  receiving v c -> (forall roc, exists err, f (cx_cipher c) roc = Err err) ->
  exists err c', decrypt_rtp_under_state h f c = (Err err, c') /\ cx_cipher c' = cx_cipher c /\ receiving v c'.
Proof using Type.
  intros Hr Hf. unfold decrypt_rtp_under_state. destruct (next_rollover_count _ _) as [[roc diff] ovf].
  destruct (check_replay _ _) as [ok d] eqn:Ec.
  assert (Hk : forall c', cx_cipher c' = cx_cipher c -> receiving v c' ->
    exists err c'', (if negb ok then (Err (SrtpSsrcDuplicated (ssrc h) (sequence_number h)), c')
      else match f (cx_cipher c') roc with
           | Ok x => match accept_replay (st_replay_detector (default (fresh_srtp_state c (ssrc h)) (srtp_ssrc_states c !! ssrc h) <| st_replay_detector := d |>)) with
                     | Ok d0 => (Ok x, put_srtp c' (ssrc h) (update_rollover_count
                         (default (fresh_srtp_state c (ssrc h)) (srtp_ssrc_states c !! ssrc h) <| st_replay_detector := d |> <| st_replay_detector := d0 |>)
                         (sequence_number h) diff))
                     | Err e => (Err e, c') | Panic => (Panic, c') | Diverge => (Diverge, c')
                     end
           | Err e => (Err e, c') | Panic => (Panic, c') | Diverge => (Diverge, c')
           end) = (Err err, c'') /\ cx_cipher c'' = cx_cipher c /\ receiving v c'').
  { intros c' Hc' Hv'. destruct (negb ok); [by do 2 eexists|]. rewrite Hc'. destruct (Hf roc) as [err ->]. by do 2 eexists. }
  apply Hk.
  - by destruct (srtp_ssrc_states c !! ssrc h).
  - destruct (srtp_ssrc_states c !! ssrc h) as [st|] eqn:Es; [|done]. cbn [default from_option id] in Ec.
    destruct (decide (ssrc h = s)) as [E|E]; [|by apply receiving_other]. rewrite E in *.
    destruct Hr as [Hd Hv]. destruct v as [[latest H]|]; [|congruence]. destruct Hv as (HL & st0 & i & Hst & Hi & Hi0 & Hil & x & Hx & Hw').
    assert (st0 = st) as -> by congruence. split; [exact Hd|]. split; [done|]. exists (st <| st_replay_detector := d |>), i.
    split; [apply lookup_insert_eq|]. split; [exact Hi|]. split; [done|]. split; [done|]. rewrite Hx in Ec. cbn in Ec.
    pose proof (check_keeps w 65535 latest x H (sequence_number h) Hw') as K.
    destruct (WrappedSlidingWindowDetector_check x (sequence_number h)) as [b x1]. injection Ec as <- <-. exists x1. done.
Qed.
End receiver.

(** * A session *)

Section session.
Context `{OverflowChecks} (ci : Cipher) `{!CipherLaws ci} (s : Z).

(** A packet of source [s] with the extended index [e], and its protected bytes. *)
Definition packet_at (p : Packet) (e : Z) : Prop := packet_ok p /\ ssrc (header p) = s /\ sequence_number (header p) = e mod 65536.
Definition sealed (p : Packet) (e : Z) (b : bytes) : Prop :=
  exists buf, marshal p = Ok buf /\ encrypt_rtp_in_place ci buf (header p) (e / 65536) = Ok b.
(** Bytes the cipher makes of no packet with the header they show. *)
Definition forged (b : bytes) : Prop :=
  bytes_ok b /\ forall h r pkt roc, Header_unmarshal b = Ok (h, r) -> encrypt_rtp_in_place ci pkt h roc <> Ok b.

Lemma packet_marshal p : packet_ok p -> exists hb, marshal (E:=MediaError) p = Ok (hb ++ packet_tail p) /\
  zlen hb = Header_size (header p) /\ (forall r, Header_unmarshal (hb ++ r) = Ok (header p, r)).
Proof using Type.
  intros Hp. destruct (packet_write p (Packet_size p) Hp (Z.le_refl _)) as (hb & E & Lh & L & U). exists hb. split; [|done].
  unfold marshal. cbn [marshal_size marshal_to Packet_MarshalSize Packet_MarshalTo]. rewrite E. cbn [mbind outcome_bind].
  rewrite Z.eqb_refl. cbn [negb]. rewrite L, Z.sub_diag. by rewrite app_nil_r.
Qed.

Lemma payload_of_packet p hb : zlen hb = Header_size (header p) -> payload_of (header p) (zlen hb) (hb ++ packet_tail p) = Ok p.
Proof using Type.
  intros Hl. unfold payload_of. rewrite (proj2 (Z.ltb_ge _ _)) by zlia. rewrite drop_front by done.
  pose proof (strip_packet_tail p) as Hs. destruct (padding (header p)); [rewrite Hs|injection Hs as ->]; by destruct p.
Qed.

(** The protected bytes begin with the header and open to the packet. *)
Lemma sealed_shape p e b : packet_ok p -> sealed p e b -> exists hb r, b = hb ++ r /\ Header_unmarshal b = Ok (header p, r) /\
  zlen hb = Header_size (header p) /\ Header_size (header p) + rtp_auth_tag_len ci <= zlen b /\
  decrypt_rtp_in_place ci b (header p) (e / 65536) = Ok (hb ++ packet_tail p).
Proof using CipherLaws0.
  intros Hp (buf & Em & Ee). destruct (packet_marshal p Hp) as (hb & Em' & Lh & U). rewrite Em in Em'. apply Ok_inj in Em' as ->.
  destruct tags_nonneg as (T1 & T2 & T3).
  destruct (rtp_encrypt_total (hb ++ packet_tail p) (header p) (e / 65536)) as (ct & Ec & Lc & Tc & _); [zlia|].
  rewrite Ee in Ec. apply Ok_inj in Ec as ->. rewrite (take_front hb) in Tc by lia.
  exists hb, (drop (Z.to_nat (Header_size (header p))) ct). rewrite <- Tc at 1. rewrite take_drop. split; [done|].
  split; [rewrite <- (take_drop (Z.to_nat (Header_size (header p))) ct) at 1; rewrite Tc; apply U|]. split; [done|]. split; [zlia|].
  apply rtp_decrypt_exact; [zlia|]. split; [zlia|done].
Qed.

Lemma decrypt_genuine w v c p e b : 0 < w < 32767 -> w mod 64 <= 32 -> packet_at p e -> sealed p e b ->
  cx_cipher c = ci -> receiving w s v c -> placed w v e -> exists c', cx_cipher c' = ci /\
  if is_new w v e then decrypt_rtp_packet b c = (Ok p, c') /\ receiving w s (deliver v e) c'
  else decrypt_rtp_packet b c = (Err (SrtpSsrcDuplicated s (e mod 65536)), c') /\ receiving w s v c'.
Proof using CipherLaws0.
  intros Hw Hmod (Hp & Hs & Hq) Hb Hc Hr Hpl. destruct (sealed_shape p e b Hp Hb) as (hb & r & Eb & Eu & Lh & Ll & Ed).
  destruct (decrypt_under_state_spec w Hw Hmod s v c (header p) e
    (fun cipher roc => decrypt_rtp_in_place cipher b (header p) roc) Hr Hpl Hs Hq) as (c' & Ec' & Hres).
  exists c'. split; [by rewrite Ec'|]. unfold decrypt_rtp_packet. rewrite Eu, Hc. rewrite (proj2 (Z.ltb_ge _ _)) by lia.
  rewrite Hc, Ed in Hres. destruct (is_new w v e); destruct Hres as [-> Hv]; split; try done. f_equal.
  cbn [mbind outcome_bind]. replace (zlen b - zlen r) with (zlen hb) by (rewrite Eb; zlia). by apply payload_of_packet.
Qed.

Lemma decrypt_forged w v c b : forged b -> cx_cipher c = ci -> receiving w s v c ->
  exists err c', decrypt_rtp_packet b c = (Err err, c') /\ cx_cipher c' = ci /\ receiving w s v c'.
Proof using CipherLaws0.
  intros [Hok Hf] Hc Hr. unfold decrypt_rtp_packet. pose proof (post_Header_unmarshal b Hok) as Hp.
  destruct (Header_unmarshal b) as [[h r]|err| |] eqn:Eu; try done; [|by do 2 eexists].
  destruct (_ <? _); [by do 2 eexists|]. assert (Hh : 0 <= Header_size h) by (eapply Header_size_nonneg, Header_unmarshal_pad, Eu).
  destruct (decrypt_under_state_fails w s v c h (fun cipher roc => decrypt_rtp_in_place cipher b h roc) Hr) as (err & c' & E & Ec & Hv).
  { intros roc. rewrite Hc. pose proof (rtp_decrypt_safe b h roc Hh) as Hs. destruct (decrypt_rtp_in_place ci b h roc) as [pkt|err| |] eqn:Ed; try done.
    - apply rtp_decrypt_exact in Ed as [_ Ed]; [|done]. by destruct (Hf h r pkt roc eq_refl).
    - by exists err. }
  rewrite E. cbn. do 2 eexists. split; [done|]. split; [congruence|done].
Qed.

(** The sender's side: the index of the last packet, if any. *)
Definition sending (i : option Z) (c : Context) : Prop :=
  cx_cipher c = ci /\
  match i with
  | None => srtp_ssrc_states c !! s = None
  | Some i => 0 <= i < MAX_INDEX /\ exists st, srtp_ssrc_states c !! s = Some st /\ at_index st i
  end.
(** The next packet's index: the first has no rollover yet, the others are less than half
    the range away. *)
Definition follows (i : option Z) (e : Z) : Prop :=
  0 <= e < MAX_INDEX /\ match i with None => e < 65536 | Some i => -32768 < e - i < 32768 end.

Lemma encrypt_packet i c p e : packet_at p e -> sending i c -> follows i e ->
  exists b c', encrypt_rtp_packet p c = (Ok b, c') /\ sealed p e b /\ sending (Some e) c'.
Proof using CipherLaws0.
  intros (Hp & Hs & Hq) [Hc Hi] [He Hf]. destruct (packet_marshal p Hp) as (hb & Em & Lh & _).
  destruct (rtp_encrypt_total (hb ++ packet_tail p) (header p) (e / 65536)) as (b & Eb & _); [zlia|].
  assert (Hb : sealed p e b) by (by eexists). unfold encrypt_rtp_packet. rewrite Em. unfold encrypt_rtp_under_state, get_srtp_ssrc_state. rewrite Hs, Hq.
  destruct i as [i|].
  - destruct Hi as (Hi & st & Est & Hat). rewrite Est. rewrite (next_rollover_spec st i e) by (unfold MAX_INDEX in *; done || lia).
    rewrite (proj2 (Z.leb_gt _ _)) by lia. replace (as_u32 (e / 65536)) with (e / 65536) by (unfold as_u32, MAX_INDEX in *; rewrite Z.mod_small; mlia).
    rewrite Hc, Eb, Est. do 2 eexists. split; [done|]. split; [done|]. split; [exact Hc|]. split; [done|].
    eexists. split; [apply lookup_insert_eq|]. destruct (update_rollover_spec st i e (st_replay_detector st) Hat He) as [A _]. by destruct st.
  - rewrite Hi. set (st := fresh_srtp_state c s). assert (Hn : next_rollover_count st (e mod 65536) = (0, 0, false)) by done. rewrite Hn.
    change (cx_cipher (put_srtp c s st)) with (cx_cipher c). rewrite Hc. rewrite <- (Z.div_small e 65536) by lia. rewrite Eb.
    assert (El : srtp_ssrc_states (put_srtp c s st) !! s = Some st) by apply lookup_insert_eq. rewrite El.
    do 2 eexists. split; [done|]. split; [done|]. split; [exact Hc|]. split; [done|]. eexists. split; [apply lookup_insert_eq|].
    split; [done|]. change (Z.lor 0 (e mod 65536) = e). rewrite Z.lor_0_l. apply Z.mod_small. lia.
Qed.
End session.

(** Protecting packets one after the other. *)
Fixpoint send_all `{OverflowChecks} (ps : list Packet) (c : Context) : list (rtp_result bytes) * Context :=
  match ps with
  | [] => ([], c)
  | p :: ps => let '(r, c) := encrypt_rtp_packet p c in let '(rs, c) := send_all ps c in (r :: rs, c)
  end.

Fixpoint numbered (i : option Z) (es : list Z) : Prop :=
  match es with [] => True | e :: es => follows i e /\ numbered (Some e) es end.

(** What arrives: a packet of the sender by its place, any number of times and in any
    order, or bytes from someone else. *)
Inductive Arrival := Genuine (k : nat) | Forged (b : bytes).
Definition wire (bs : list bytes) (a : Arrival) : bytes := match a with Genuine k => nth k bs [] | Forged b => b end.

Fixpoint receive_all (bs : list bytes) (arr : list Arrival) (c : Context) : list (rtp_result Packet) :=
  match arr with
  | [] => []
  | a :: arr => let '(r, c) := decrypt_rtp_packet (wire bs a) c in r :: receive_all bs arr c
  end.

Section arrivals.
Context (ci : Cipher) (w s : Z) (ps : list Packet) (es : list Z).

Definition view_after (v : View) (e : Z) : View := if is_new w v e then deliver v e else v.

Fixpoint well_placed (v : View) (arr : list Arrival) : Prop :=
  match arr with
  | [] => True
  | Genuine k :: arr => exists e, es !! k = Some e /\ placed w v e /\ well_placed (view_after v e) arr
  | Forged b :: arr => forged ci b /\ well_placed v arr
  end.

(** What each arrival is to give: a new packet itself, a repeated or too old one the
    error, a forged one some error. *)
Fixpoint outcomes (v : View) (arr : list Arrival) (rs : list (rtp_result Packet)) : Prop :=
  match arr, rs with
  | [], [] => True
  | Genuine k :: arr, r :: rs => exists p e, ps !! k = Some p /\ es !! k = Some e /\
      r = (if is_new w v e then Ok p else Err (SrtpSsrcDuplicated s (e mod 65536))) /\ outcomes (view_after v e) arr rs
  | Forged _ :: arr, r :: rs => (exists err, r = Err err) /\ outcomes v arr rs
  | _, _ => False
  end.

(** The indices delivered, in order. *)
Fixpoint delivered (v : View) (arr : list Arrival) : list Z :=
  match arr with
  | [] => []
  | Genuine k :: arr =>
      match es !! k with
      | Some e => (if is_new w v e then [e] else []) ++ delivered (view_after v e) arr
      | None => delivered v arr
      end
  | Forged _ :: arr => delivered v arr
  end.

Definition view_list (v : View) : list Z := match v with None => [] | Some (_, H) => H end.
Definition view_ok (v : View) : Prop := match v with None => True | Some (latest, H) => forall e, e ∈ H -> e <= latest end.

Lemma is_new_fresh v e : view_ok v -> is_new w v e = true -> e ∉ view_list v.
Proof using Type.
  destruct v as [[latest H]|]; cbn; [|set_solver]. unfold new_here. intros Hv [Hn|[_ Hn]]%bool_decide_eq_true He; [|done].
  apply Hv in He. lia.
Qed.
Lemma view_ok_deliver v e : view_ok v -> view_ok (deliver v e).
Proof using Type.
  destruct v as [[latest H]|]; cbn; intros Hv x; [intros [->|Hx%Hv]%elem_of_cons; lia|]. intros ->%list_elem_of_singleton. done.
Qed.
Lemma view_list_deliver v e : view_list (deliver v e) = e :: view_list v.
Proof using Type. by destruct v as [[latest H]|]. Qed.

Lemma delivered_once arr : forall v, view_ok v -> NoDup (delivered v arr) /\ forall e, e ∈ delivered v arr -> e ∉ view_list v.
Proof using Type.
  induction arr as [|[k|b] arr IH]; intros v Hv; cbn [delivered]; [split; [constructor|set_solver]| |by apply IH].
  destruct (es !! k) as [e|]; [|by apply IH]. unfold view_after. destruct (is_new w v e) eqn:En; [|by apply IH].
  destruct (IH (deliver v e) (view_ok_deliver v e Hv)) as [Hn Hin]. rewrite view_list_deliver in Hin.
  assert (He := is_new_fresh v e Hv En). split.
  - cbn [app]. constructor; [|done]. intros Hc%Hin. set_solver.
  - intros x [->|Hx%Hin]%elem_of_cons; [done|]. set_solver.
Qed.
End arrivals.

Section run.
Context `{OverflowChecks} (ci : Cipher) `{!CipherLaws ci} (w s : Z) (Hw : 0 < w < 32767) (Hmod : w mod 64 <= 32).

Lemma send_all_spec ps es : forall i c, Forall2 (packet_at s) ps es -> sending ci s i c -> numbered i es ->
  exists bs c', send_all ps c = (map Ok bs, c') /\ Forall2 (fun pe b => sealed ci pe.1 pe.2 b) (zip ps es) bs.
Proof using CipherLaws0.
  intros i c Hps. revert i c. induction Hps as [|p e ps es Hp _ IH]; intros i c Hc Hn; cbn [send_all].
  { exists [], c. split; [done|constructor]. }
  destruct Hn as [Hf Hn]. destruct (encrypt_packet ci s i c p e Hp Hc Hf) as (b & c1 & -> & Hb & Hc1).
  destruct (IH (Some e) c1 Hc1 Hn) as (bs & c2 & -> & Hbs). exists (b :: bs), c2. split; [done|]. by constructor.
Qed.

Lemma receive_all_spec ps es bs arr : Forall2 (packet_at s) ps es -> Forall2 (fun pe b => sealed ci pe.1 pe.2 b) (zip ps es) bs ->
  forall v c, cx_cipher c = ci -> receiving w s v c -> well_placed ci w es v arr -> outcomes w s ps es v arr (receive_all bs arr c).
Proof using CipherLaws0 Hw Hmod.
  intros Hps Hbs. induction arr as [|[k|b] arr IH]; intros v c Hc Hr Hwp; cbn [receive_all well_placed outcomes] in *; [done| |].
  - destruct Hwp as (e & Ee & Hpl & Hwp). destruct (Forall2_lookup_r _ _ _ _ _ Hps Ee) as (p & Ep & Hp).
    assert (Ez : zip ps es !! k = Some (p, e)) by (apply lookup_zip_with_Some; eauto).
    destruct (Forall2_lookup_l _ _ _ _ _ Hbs Ez) as (b & Eb & Hb). cbn [wire fst snd] in *. erewrite nth_lookup_Some by exact Eb.
    destruct (decrypt_genuine ci s w v c p e b Hw Hmod Hp Hb Hc Hr Hpl) as (c' & Hc' & Hres).
    unfold view_after in *. destruct (is_new w v e) eqn:En; destruct Hres as [-> Hv]; exists p, e; rewrite En; (split; [done|]); (split; [done|]);
      (split; [done|]); by apply IH.
  - destruct Hwp as [Hf Hwp]. cbn [wire]. destruct (decrypt_forged ci s w v c b Hf Hc Hr) as (err & c' & -> & Hc' & Hv).
    split; [by exists err|]. by apply IH.
Qed.
End run.

(** * Creating contexts *)

Lemma ensure_supported_ok crypto l : (forall a, a ∈ l -> supports crypto a = true) -> ensure_supported crypto l = Ok tt.
Proof.
  induction l as [|a l IH]; intros Ha; [done|]. cbn. rewrite (Ha a) by left. cbn. apply IH. intros. apply Ha. by right.
Qed.

Lemma Context_new_ok crypto key salt profile : CryptoLaws crypto -> zlen key = key_len profile -> zlen salt = salt_len profile ->
  exists ci, CipherLaws ci /\ forall o o',
    Context_new key salt profile o o' crypto = Ok (mkContext ci ∅ ∅ (default srtp_no_replay_protection o) (default srtcp_no_replay_protection o')).
Proof.
  intros HC Hk Hs. unfold Context_new. rewrite Hk, Hs, !Z.eqb_refl. cbn [negb].
  unfold ensure_crypto_supported. rewrite (ensure_supported_ok crypto) by apply supports_profiles. cbn [mbind outcome_bind].
  destruct (is_cm profile) eqn:Ecm.
  - destruct (cm_new_ok crypto key salt profile Hk Hs Ecm) as (c & E & Hc & _). exists (cm_cipher c). split; [exact (cm_cipher_CipherLaws c Hc)|].
    intros. destruct profile; try discriminate Ecm; rewrite E; done.
  - destruct (gcm_new_ok crypto key salt profile Hk Hs Ecm) as (c & E & Hc & _). exists (gcm_cipher c). split; [exact (gcm_cipher_CipherLaws c Hc)|].
    intros. destruct profile; try discriminate Ecm; rewrite E; done.
Qed.

(** * Properties *)

(** C9: An SRTP session delivers every packet once and nothing forged, for packets the
    receiver can place.  For every profile, and primitives that satisfy their laws, two contexts made from the same keys exist, and
    the sender protects every packet (the extended indices advancing by less than half the
    sequence number range).  Any sequence of these packets, reordered, lost or repeated
    across rollovers of the sequence number, mixed with bytes the key's owner did not
    protect, reaches a receiver with a replay window of [w] < 32767 numbers, subject to two
    conditions.  [w mod 64] is at most 32: for other windows the mask of the detector is too
    narrow and it admits repeats.  And every packet arrives while its index is less than
    32768 - [w] away from the highest delivered, in both directions, the first before the
    first rollover: what arrives half the range behind the highest is taken for new by the
    detector and delivered again.  Then each packet that is new and inside the window comes
    out as the sender gave it, a repeated or too old one is reported as duplicate, forged
    bytes are an error, and no index is delivered twice. *)
Theorem srtp_session `{OverflowChecks} crypto key salt profile w s ps es :
  CryptoLaws crypto -> zlen key = key_len profile -> zlen salt = salt_len profile -> 0 < w < 32767 -> w mod 64 <= 32 ->
  Forall2 (packet_at s) ps es -> numbered None es ->
  exists cs cr bs, Context_new key salt profile None None crypto = Ok cs /\
    Context_new key salt profile (Some (srtp_replay_protection w)) None crypto = Ok cr /\
    (send_all ps cs).1 = map Ok bs /\
    forall arr, well_placed (cx_cipher cr) w es None arr ->
      outcomes w s ps es None arr (receive_all bs arr cr) /\ NoDup (delivered w es None arr).
Proof.
  intros HC Hk Hs Hw Hm Hps Hn. destruct (Context_new_ok crypto key salt profile HC Hk Hs) as (ci & Hci & Enew). rewrite !Enew.
  destruct (send_all_spec ci s ps es None (mkContext ci ∅ ∅ srtp_no_replay_protection srtcp_no_replay_protection)) as (bs & c' & E & Hbs);
    [done|split; done|done|].
  do 3 eexists. split; [reflexivity|]. split; [reflexivity|]. split; [exact (f_equal fst E)|]. intros arr Hwp. split.
  - eapply (receive_all_spec ci w s Hw Hm); done.
  - by apply delivered_once.
Qed.

Definition rtp_example (seq : Z) : Packet := mkPacket (mkHeader 2 false false false 96 seq 1 99 [] 0 [] 0) [seq mod 256; 7].
Lemma rtp_example_at e : packet_at 99 (rtp_example (e mod 65536)) e.
Proof.
  split; [|done]. unfold packet_ok, header_ok. cbn. unfold_ints. split_and!; try lia; try done; try mlia; try constructor.
Qed.

Lemma srtp_session_witness :
  let es := [65534; 65535; 65536; 65537] in
  let ps := map (fun e => rtp_example (e mod 65536)) es in
  let arr := [Genuine 0; Genuine 2; Forged [1; 2; 3]; Genuine 1; Genuine 2; Genuine 3] in
  exists cs cr bs, Context_new (replicate 16 7) (replicate 14 9) Aes128CmHmacSha1_80 None None toy_crypto = Ok cs /\
    Context_new (replicate 16 7) (replicate 14 9) Aes128CmHmacSha1_80 (Some (srtp_replay_protection 64)) None toy_crypto = Ok cr /\
    (@send_all true ps cs).1 = map Ok bs /\ outcomes 64 99 ps es None arr (receive_all bs arr cr) /\
    delivered 64 es None arr = [65534; 65536; 65535; 65537].
Proof.
  intros es ps arr.
  destruct (@srtp_session true toy_crypto (replicate 16 7) (replicate 14 9) Aes128CmHmacSha1_80 64 99 ps es) as (cs & cr & bs & E1 & E2 & E3 & Hr);
    [apply toy_crypto_laws|reflexivity|reflexivity|lia|vm_compute; discriminate|
     repeat (constructor; [apply rtp_example_at|]); constructor|vm_compute; repeat split; congruence|].
  exists cs, cr, bs. split; [exact E1|]. split; [exact E2|]. split; [exact E3|]. split; [|vm_compute; reflexivity].
  apply Hr. cbn [well_placed arr].
  exists 65534; split; [reflexivity|]; split; [vm_compute; repeat split; congruence|].
  exists 65536; split; [reflexivity|]; split; [vm_compute; repeat split; congruence|].
  split; [split; [repeat constructor; lia|intros h r pkt roc Eh; vm_compute in Eh; discriminate Eh]|].
  exists 65535; split; [reflexivity|]; split; [vm_compute; repeat split; congruence|].
  exists 65536; split; [reflexivity|]; split; [vm_compute; repeat split; congruence|].
  exists 65537; split; [reflexivity|]; split; [vm_compute; repeat split; congruence|]. exact I.
Defined.

(** The rollover counter is estimated rightly.  For a source whose last packet had
    the extended index [i], a packet with index [e] less than half the sequence number
    range away is given the rollover counter of [e] and leaves the source at [e]; the
    overflow is reported exactly when [e] would need a 33rd bit of the counter; the first
    packet of a source starts at its own sequence number. *)
Theorem rollover_estimated s i e d : 0 <= e ->
  (at_index s i -> 0 <= i < MAX_INDEX -> -32768 < e - i < 32768 ->
   let '(roc, diff, ovf) := next_rollover_count s (e mod 65536) in
   ovf = (MAX_INDEX <=? e) /\
   (e < MAX_INDEX -> roc = e / 65536 /\ at_index (update_rollover_count (s <| st_replay_detector := d |>) (e mod 65536) diff) e)) /\
  (st_rollover_has_processed s = false -> st_index s = 0 -> e < 65536 ->
   let '(roc, diff, ovf) := next_rollover_count s e in
   roc = 0 /\ ovf = false /\ at_index (update_rollover_count s e diff) e).
Proof.
  intros He. split.
  - intros Hs Hi Hd. rewrite (next_rollover_spec s i e) by done. split; [done|]. intros Hm. unfold MAX_INDEX in *.
    split; [unfold as_u32; apply Z.mod_small; mlia|]. by apply update_rollover_spec.
  - intros Hp Hi Hm. unfold next_rollover_count, update_rollover_count. rewrite Hp, Hi. split; [done|]. split; [done|]. split; [done|].
    change (Z.lor 0 e = e). apply Z.lor_0_l.
Qed.

Lemma rollover_estimated_witness :
  let s := mkSrtpSsrcState 99 65535 true None in
  next_rollover_count s (65537 mod 65536) = (1, 2, false) /\
  at_index (update_rollover_count (s <| st_replay_detector := None |>) (65537 mod 65536) 2) 65537.
Proof.
  intros s. split; [vm_compute; reflexivity|].
  destruct (rollover_estimated s 65535 65537 None ltac:(lia)) as [H _].
  specialize (H ltac:(split; reflexivity) ltac:(unfold MAX_INDEX; lia) ltac:(lia)).
  assert (E : next_rollover_count s (65537 mod 65536) = (1, 2, false)) by (vm_compute; reflexivity). rewrite E in H.
  destruct H as [_ H]. apply H. unfold MAX_INDEX. lia.
Defined.

(** * Replay at half the range *)

(** The detector takes a packet exactly half the range behind the highest for one ahead,
    while the rollover counter keeps it in the same turn: it is accepted again, and after
    it everything that followed. *)
Definition example_session (es : list Z) (arr : list Arrival) : rtp_result (list (rtp_result Packet)) :=
  cs ← Context_new (replicate 16 7) (replicate 14 9) Aes128CmHmacSha1_80 None None toy_crypto;
  cr ← Context_new (replicate 16 7) (replicate 14 9) Aes128CmHmacSha1_80 (Some (srtp_replay_protection 64)) None toy_crypto;
  let bs := map (fun r => match r with Ok b => b | _ => [] end) (@send_all true (map rtp_example es) cs).1 in
  Ok (receive_all bs arr cr).

Lemma replay_at_half_range :
  example_session [22; 20022; 32790] [Genuine 0; Genuine 1; Genuine 2; Genuine 0; Genuine 1; Genuine 2] =
    Ok (map (fun e => Ok (rtp_example e)) [22; 20022; 32790; 22; 20022; 32790]).
Proof. vm_compute. reflexivity. Qed.

(** * In place and by copy *)

Lemma under_state_ok {T} h (f : Cipher -> Z -> rtp_result T) c x c' : decrypt_rtp_under_state h f c = (Ok x, c') ->
  exists roc, f (cx_cipher c) roc = Ok x.
Proof.
  unfold decrypt_rtp_under_state. destruct (next_rollover_count _ _) as [[roc diff] ovf]. destruct (check_replay _ _) as [ok d].
  destruct (negb ok); [done|]. set (c1 := match srtp_ssrc_states c !! ssrc h with Some _ => _ | None => _ end).
  assert (Hc : cx_cipher c1 = cx_cipher c) by (unfold c1; by destruct (srtp_ssrc_states c !! ssrc h)). rewrite Hc. clearbody c1.
  destruct (f (cx_cipher c) roc) as [y| | |] eqn:E; try done. intros Hx. exists roc. rewrite E. f_equal.
  destruct (accept_replay _); congruence.
Qed.

Lemma decrypted_header ci `{!CipherLaws ci} b d h roc hb r : b = hb ++ r -> zlen hb = Header_size h ->
  decrypt_rtp_in_place ci b h roc = Ok d -> exists t, d = hb ++ t.
Proof.
  intros -> Hl Hd. apply rtp_decrypt_exact in Hd as [Hs He]; [|zlia].
  destruct (rtp_encrypt_total d h roc) as (ct & E & _ & Ht & _); [zlia|]. rewrite He in E. apply Ok_inj in E as <-.
  rewrite (take_front hb) in Ht by lia. exists (drop (Z.to_nat (Header_size h)) d). rewrite Ht. by rewrite take_drop.
Qed.

(** Decrypting in place is decrypting by copy followed by parsing.  For bytes that begin
    with a header in its canonical encoding, [decrypt_rtp_packet] gives the result, the
    error and the state that [decrypt_rtp] followed by [Packet::unmarshal] gives. *)
Theorem decrypt_in_place_equivalent `{OverflowChecks} c h hb r :
  CipherLaws (cx_cipher c) -> header_ok h -> Header_marshal_to h (Header_size h) = Ok (Header_size h, hb) ->
  decrypt_rtp_packet (hb ++ r) c =
    (let '(x, c') := decrypt_rtp (hb ++ r) c in (d ← x; '(p, _) ← Packet_unmarshal d; Ok p, c')).
Proof.
  intros HC Hh Hm. destruct (codec_write (E:=MediaError) h (Header_size h) Hh) as (b & Hw & Hl & Hr);
    [change (Header_size h <= Header_size h); lia|].
  cbn [marshal_size marshal_to unmarshal Header_MarshalSize Header_MarshalTo Header_Unmarshal] in Hw, Hl, Hr.
  rewrite Hm in Hw. apply Ok_inj in Hw as [= <-]. unfold decrypt_rtp_packet, decrypt_rtp, decrypt_rtp_with_header. rewrite Hr.
  destruct (zlen (hb ++ r) <? _); [done|]. unfold cipher_decrypt_rtp.
  destruct (decrypt_rtp_under_state h _ c) as [x c'] eqn:Eu. f_equal. destruct x as [d| | |]; [|done..].
  destruct (under_state_ok _ _ _ _ _ Eu) as [roc Hd].
  destruct (decrypted_header (cx_cipher c) (hb ++ r) d h roc hb r eq_refl Hl Hd) as [t ->]. cbn [mbind outcome_bind].
  unfold payload_of, Packet_unmarshal. rewrite Hr. cbn [mbind outcome_bind].
  replace (zlen (hb ++ r) - zlen r) with (zlen hb) by zlia. rewrite (proj2 (Z.ltb_ge _ _)) by zlia. rewrite drop_front by done.
  destruct (padding h); [|done]. by destruct (strip_padding t).
Qed.

Definition header_bytes : bytes := match @Header_marshal_to true (header (rtp_example 5)) 12 with Ok (_, b) => b | _ => [] end.

Lemma decrypt_in_place_equivalent_witness :
  let c := mkContext (gcm_cipher gcm_example) ∅ ∅ NoOp NoOp in
  let b := header_bytes ++ replicate 20 1 in
  zlen header_bytes = 12 /\
  decrypt_rtp_packet b c = (let '(x, c') := decrypt_rtp b c in (d ← x; '(p, _) ← Packet_unmarshal d; Ok p, c')).
Proof.
  intros c b. split; [vm_compute; reflexivity|].
  apply (@decrypt_in_place_equivalent true c (header (rtp_example 5)) header_bytes (replicate 20 1));
    [exact (gcm_cipher_CipherLaws _ gcm_example_ok)|exact (proj1 (rtp_example_at 5))|vm_compute; reflexivity].
Defined.

(** * SRTCP sessions *)

Section rtcp.
Context (ci : Cipher) `{!CipherLaws ci} (w s : Z) (Hw : 0 < w < 1073741823) (Hmod : w mod 64 <= 32).

(** An RTCP packet of source [s]: a header that parses and the source after it. *)
Definition rtcp_packet (p : bytes) : Prop := 8 <= zlen p /\ (exists x, RtcpHeader_unmarshal p = Ok x) /\ rtcp_ssrc p = Ok s.

Lemma rtcp_front p q : 8 <= zlen p -> 8 <= zlen q -> take 8 q = take 8 p -> rtcp_ssrc q = rtcp_ssrc p /\
  ((exists x, RtcpHeader_unmarshal p = Ok x) -> exists x, RtcpHeader_unmarshal q = Ok x).
Proof using Type.
  intros Hp Hq. do 8 (destruct p as [|? p]; [zlia|]). do 8 (destruct q as [|? q]; [zlia|]). cbn [take]. intros [= -> -> -> -> -> -> -> ->].
  unfold rtcp_ssrc. rewrite !slice_Ok by lia. split; [done|]. unfold RtcpHeader_unmarshal, RTCP_HEADER_LENGTH. rewrite !(proj2 (Z.ltb_ge _ _)) by lia.
  cbn [get_u8 get_u16 mbind outcome_bind]. destruct (negb _); [intros [x Hx]; done|]. by eexists.
Qed.

Definition rtcp_sealed (p : bytes) (n : Z) (ct : bytes) : Prop := cipher_encrypt_rtcp ci p n s = Ok ct /\ 0 <= n < 2147483648.

Definition rtcp_receiving (v : View) (c : Context) : Prop :=
  cx_cipher c = ci /\ new_srtcp_replay_detector c = srtcp_replay_protection w /\
  match v with
  | None => srtcp_ssrc_states c !! s = None
  | Some (latest, H) => exists st, srtcp_ssrc_states c !! s = Some st /\ window_at w MAX_SRTCP_INDEX (ct_replay_detector st) latest H
  end.

Lemma decrypt_rtcp_spec v c p n ct : rtcp_packet p -> rtcp_sealed p n ct -> rtcp_receiving v c ->
  (match v with None => True | Some (latest, _) => -1073741823 < latest - n <= 1073741823 end) ->
  exists c', if is_new w v n then decrypt_rtcp ct c = (Ok p, c') /\ rtcp_receiving (deliver v n) c'
             else decrypt_rtcp ct c = (Err (SrtcpSsrcDuplicated s n), c') /\ rtcp_receiving v c'.
Proof using CipherLaws0 Hw Hmod.
  intros (Hl & Hh & Hs) [Ee Hn] (Hc & Hd & Hv) Hp.
  destruct (rtcp_total p n s Hl Hn) as (ct' & E & Lc & Tc & Gi & Dc & _). rewrite Ee in E. apply Ok_inj in E as <-.
  destruct tags_nonneg as (T1 & T2 & T3). unfold SRTCP_INDEX_SIZE in Lc.
  destruct (rtcp_front p ct Hl ltac:(lia) Tc) as [Es Eh]. destruct (Eh Hh) as [x Ex].
  unfold decrypt_rtcp. rewrite Hc. unfold SRTCP_INDEX_SIZE. rewrite (proj2 (Z.ltb_ge _ _)) by lia. rewrite Ex. cbn [mbind outcome_bind]. rewrite Gi.
  cbn [mbind outcome_bind]. rewrite Es, Hs. cbn [mbind outcome_bind]. unfold decrypt_rtcp_under_state.
  assert (Hnm : n mod (MAX_SRTCP_INDEX + 1) = n) by (unfold MAX_SRTCP_INDEX; apply Z.mod_small; lia).
  destruct v as [[latest H]|].
  - destruct Hv as (st & Est & Hwin). rewrite Est. cbn [default from_option id].
    destruct (window_check w MAX_SRTCP_INDEX ltac:(done) ltac:(done) Hmod _ latest H n Hwin) as (d1 & E1 & W1 & Hacc);
      [change (MAX_SRTCP_INDEX / 2) with 1073741823; lia|]. rewrite Hnm in E1. rewrite E1. cbn [is_new].
    destruct (new_here w latest H n) eqn:En; cbn [negb].
    + change (cx_cipher (put_srtcp c s (st <| ct_replay_detector := d1 |>))) with (cx_cipher c). rewrite Hc, Dc.
      change (ct_replay_detector (st <| ct_replay_detector := d1 |>)) with d1. destruct (Hacc eq_refl) as (d2 & -> & W2).
      eexists. split; [reflexivity|]. split; [exact Hc|]. split; [exact Hd|]. eexists. split; [apply lookup_insert_eq|exact W2].
    + eexists. split; [reflexivity|]. split; [exact Hc|]. split; [exact Hd|]. eexists. split; [apply lookup_insert_eq|exact W1].
  - rewrite Hv. cbn [default from_option id is_new]. unfold fresh_srtcp_state. rewrite Hd. cbn [ct_replay_detector].
    destruct (window_first w MAX_SRTCP_INDEX ltac:(done) ltac:(done) Hmod n) as (d1 & d2 & E1 & E2 & W). rewrite Hnm in E1.
    unfold srtcp_replay_protection. rewrite E1. cbn [negb]. rewrite Hc, Dc.
    change (ct_replay_detector (_ <| ct_replay_detector := d1 |>)) with d1. rewrite E2.
    eexists. split; [reflexivity|]. split; [exact Hc|]. split; [exact Hd|]. eexists. split; [apply lookup_insert_eq|exact W].
Qed.

(** The sender numbers its packets from one on. *)
Definition rtcp_sending (n : Z) (c : Context) : Prop :=
  cx_cipher c = ci /\ 0 <= n < MAX_SRTCP_INDEX /\
  match srtcp_ssrc_states c !! s with None => n = 0 | Some st => ct_srtcp_index st = n end.

Lemma encrypt_rtcp_spec n c p : rtcp_packet p -> rtcp_sending n c -> n + 1 < MAX_SRTCP_INDEX ->
  exists ct c', encrypt_rtcp p c = (Ok ct, c') /\ rtcp_sealed p (n + 1) ct /\ rtcp_sending (n + 1) c'.
Proof using CipherLaws0.
  intros (Hl & [x Hh] & Hs) (Hc & Hn & Hst) Hm. unfold MAX_SRTCP_INDEX in *.
  destruct (rtcp_total p (n + 1) s Hl ltac:(lia)) as (ct & E & _). unfold encrypt_rtcp. rewrite (proj2 (Z.ltb_ge _ _)) by lia.
  rewrite Hh. cbn [mbind outcome_bind]. rewrite Hs. unfold get_srtcp_ssrc_state, MAX_SRTCP_INDEX.
  assert (Hfin : forall st c1, ct_srtcp_index st = n -> cx_cipher c1 = ci -> exists ct0 c',
    (let index := ct_srtcp_index st + 1 in let index := if 2147483647 <? index then 0 else index in
     let c2 := put_srtcp c1 s (st <| ct_srtcp_index := index |>) in (cipher_encrypt_rtcp (cx_cipher c2) p index s, c2)) = (Ok ct0, c') /\
    rtcp_sealed p (n + 1) ct0 /\ rtcp_sending (n + 1) c').
  { intros st c1 Hi Hc1. rewrite Hi. cbv zeta. rewrite (proj2 (Z.ltb_ge _ _)) by lia.
    change (cx_cipher (put_srtcp c1 s (st <| ct_srtcp_index := n + 1 |>))) with (cx_cipher c1). rewrite Hc1, E.
    do 2 eexists. split; [reflexivity|]. split; [split; [done|lia]|]. split; [exact Hc1|]. split; [unfold MAX_SRTCP_INDEX; lia|].
    assert (El : srtcp_ssrc_states (put_srtcp c1 s (st <| ct_srtcp_index := n + 1 |>)) !! s = Some (st <| ct_srtcp_index := n + 1 |>)) by apply lookup_insert_eq.
    by rewrite El. }
  destruct (srtcp_ssrc_states c !! s) as [st|]; apply Hfin; done.
Qed.
End rtcp.

Fixpoint rtcp_send_all (ps : list bytes) (c : Context) : list (rtp_result bytes) * Context :=
  match ps with
  | [] => ([], c)
  | p :: ps => let '(r, c) := encrypt_rtcp p c in let '(rs, c) := rtcp_send_all ps c in (r :: rs, c)
  end.
Fixpoint rtcp_receive_all (bs : list bytes) (arr : list nat) (c : Context) : list (rtp_result bytes) :=
  match arr with
  | [] => []
  | k :: arr => let '(r, c) := decrypt_rtcp (nth k bs []) c in r :: rtcp_receive_all bs arr c
  end.

(** The packet at place [k] has index [k + 1]. *)
Definition rtcp_number (k : nat) : Z := Z.of_nat k + 1.
Fixpoint rtcp_outcomes (w s : Z) (ps : list bytes) (v : View) (arr : list nat) : list (rtp_result bytes) :=
  match arr with
  | [] => []
  | k :: arr => let e := rtcp_number k in
      (if is_new w v e then Ok (nth k ps []) else Err (SrtcpSsrcDuplicated s e)) :: rtcp_outcomes w s ps (view_after w v e) arr
  end.

Section rtcp_run.
Context (ci : Cipher) `{!CipherLaws ci} (w s : Z) (Hw : 0 < w < 1073741823) (Hmod : w mod 64 <= 32).

Lemma rtcp_send_all_spec ps : forall n c, Forall (rtcp_packet s) ps -> rtcp_sending ci s n c -> n + zlen ps < MAX_SRTCP_INDEX ->
  exists bs c', rtcp_send_all ps c = (map Ok bs, c') /\ length bs = length ps /\
    forall k p, ps !! k = Some p -> rtcp_sealed ci s p (n + rtcp_number k) (nth k bs []).
Proof using CipherLaws0.
  induction ps as [|p ps IH]; intros n c Hps Hc Hn; cbn [rtcp_send_all].
  { exists [], c. split; [done|]. split; [done|]. intros k p Hk. done. }
  apply Forall_cons in Hps as [Hp Hps]. autorewrite with zlen in Hn. zlen_pos.
  destruct (encrypt_rtcp_spec ci s n c p Hp Hc ltac:(lia)) as (b & c1 & -> & Hb & Hc1).
  destruct (IH (n + 1) c1 Hps Hc1 ltac:(lia)) as (bs & c2 & -> & Hl & Hbs). exists (b :: bs), c2. split; [done|]. split; [cbn; lia|].
  intros [|k] q Hk; cbn in Hk |- *; [injection Hk as <-; exact Hb|]. specialize (Hbs k q Hk).
  unfold rtcp_number in *. by replace (n + (Z.of_nat (S k) + 1)) with (n + 1 + (Z.of_nat k + 1)) by lia.
Qed.

(** Every index seen so far is one of the [m] packets. *)
Definition view_within (m : Z) (v : View) : Prop := match v with None => True | Some (latest, _) => 0 <= latest <= m end.

Lemma rtcp_receive_all_spec ps bs arr : Forall (rtcp_packet s) ps -> zlen ps < 1073741823 ->
  (forall k p, ps !! k = Some p -> rtcp_sealed ci s p (rtcp_number k) (nth k bs [])) ->
  Forall (fun k => k < length ps)%nat arr -> forall v c, rtcp_receiving ci w s v c -> view_within (zlen ps) v ->
  rtcp_receive_all bs arr c = rtcp_outcomes w s ps v arr.
Proof using CipherLaws0 Hw Hmod.
  intros Hps Hl Hbs. induction 1 as [|k arr Hk _ IH]; intros v c Hc Hv; cbn [rtcp_receive_all rtcp_outcomes]; [done|].
  destruct (lookup_lt_is_Some_2 ps k Hk) as [p Hp]. rewrite Forall_lookup in Hps. pose proof (Hps k p Hp) as Hpk.
  assert (Hn : 1 <= rtcp_number k <= zlen ps) by (unfold rtcp_number, zlen; lia).
  destruct (decrypt_rtcp_spec ci w s Hw Hmod v c p (rtcp_number k) (nth k bs []) Hpk (Hbs k p Hp) Hc) as (c' & Hres).
  { destruct v as [[latest H]|]; [|done]. cbn in Hv. lia. }
  unfold view_after. rewrite (nth_lookup_Some ps k [] p Hp). destruct (is_new w v (rtcp_number k)); destruct Hres as [-> Hc']; f_equal.
  - apply IH; [done|]. destruct v as [[latest H]|]; cbn in *; lia.
  - by apply IH.
Qed.
End rtcp_run.

(** Client and server take the same keys from the exporter, the other way round. *)
Lemma session_keys_agree profile m : zlen m = keying_material_len profile -> exists k,
  set_session_keys_from_keying_material profile m true = Ok k /\
  set_session_keys_from_keying_material profile m false =
    Ok (mkSessionKeys (remote_master_key k) (remote_master_salt k) (local_master_key k) (local_master_salt k)) /\
  zlen (local_master_key k) = key_len profile /\ zlen (local_master_salt k) = salt_len profile /\
  zlen (remote_master_key k) = key_len profile /\ zlen (remote_master_salt k) = salt_len profile.
Proof.
  intros Hm. unfold set_session_keys_from_keying_material. rewrite Hm, Z.eqb_refl. cbn [negb]. unfold keying_material_len in Hm.
  assert (0 < key_len profile /\ 0 < salt_len profile) as [Hk Hs] by (by destruct profile).
  rewrite !slice_Ok by lia. cbn [mbind outcome_bind]. eexists. split; [reflexivity|]. split; [reflexivity|].
  cbn [local_master_key local_master_salt remote_master_key remote_master_salt]. split_and!; zlia.
Qed.

(** C36: An SRTCP session from the DTLS keys on, for primitives that satisfy their laws.
    Client and server split the exported
    keying material into matching keys; the client's context protects fewer than 2^30 - 1
    RTCP packets of a source, numbering them from one.  The server has a replay window of
    [w] < 2^30 - 1 numbers with [w mod 64] at most 32 (for other windows the mask of the
    detector is too narrow and it admits repeats).  Whatever sequence of these packets
    arrives at the server, with repetitions and in any order, each packet new and inside the
    window comes out as sent and every other one is reported as duplicate. *)
Theorem srtcp_session crypto m profile w s ps :
  CryptoLaws crypto -> zlen m = keying_material_len profile -> 0 < w < 1073741823 -> w mod 64 <= 32 ->
  Forall (rtcp_packet s) ps -> zlen ps < 1073741823 ->
  exists client server cs cr bs, set_session_keys_from_keying_material profile m true = Ok client /\
    set_session_keys_from_keying_material profile m false = Ok server /\
    Context_new (local_master_key client) (local_master_salt client) profile None None crypto = Ok cs /\
    Context_new (remote_master_key server) (remote_master_salt server) profile None (Some (srtcp_replay_protection w)) crypto = Ok cr /\
    (rtcp_send_all ps cs).1 = map Ok bs /\
    forall arr, Forall (fun k => k < length ps)%nat arr -> rtcp_receive_all bs arr cr = rtcp_outcomes w s ps None arr.
Proof.
  intros HC Hm Hw Hmod Hps Hl. destruct (session_keys_agree profile m Hm) as (k & E1 & E2 & L1 & L2 & _).
  destruct (Context_new_ok crypto _ _ profile HC L1 L2) as (ci & Hci & Enew).
  destruct (rtcp_send_all_spec ci s ps 0 (mkContext ci ∅ ∅ srtp_no_replay_protection srtcp_no_replay_protection)) as (bs & c' & E & Hlen & Hbs);
    [done|split; [done|split; [unfold MAX_SRTCP_INDEX; lia|done]]|unfold MAX_SRTCP_INDEX; lia|].
  do 5 eexists. split; [exact E1|]. split; [exact E2|]. split; [apply Enew|]. split; [apply Enew|]. split; [exact (f_equal fst E)|].
  intros arr Harr. apply (rtcp_receive_all_spec ci w s Hw Hmod ps bs arr Hps Hl); [|done| |done].
  - intros i p Hp. exact (Hbs i p Hp).
  - split; [done|]. split; [done|]. done.
Qed.

Definition rtcp_example (n : Z) : bytes := [128; 201; 0; 1; 0; 0; 0; 99; n].
Lemma srtcp_session_witness :
  exists bs cs cr, rtcp_send_all (map rtcp_example [1; 2; 3]) cs = (map Ok bs, (rtcp_send_all (map rtcp_example [1; 2; 3]) cs).2) /\
    rtcp_receive_all bs [0; 2; 0; 1]%nat cr =
      [Ok (rtcp_example 1); Ok (rtcp_example 3); Err (SrtcpSsrcDuplicated 99 1); Ok (rtcp_example 2)].
Proof.
  destruct (srtcp_session toy_crypto (map Z.of_nat (seq 0 60)) Aes128CmHmacSha1_80 64 99 (map rtcp_example [1; 2; 3]))
    as (client & server & cs & cr & bs & _ & _ & _ & _ & E & Hr);
    [apply toy_crypto_laws|reflexivity|lia|vm_compute; discriminate|
     repeat (constructor; [split; [vm_compute; discriminate|split; [eexists; vm_compute; reflexivity|vm_compute; reflexivity]]|]); constructor|
     vm_compute; reflexivity|].
  exists bs, cs, cr. split; [rewrite <- E; by destruct (rtcp_send_all _ cs)|].
  rewrite Hr by (repeat constructor). vm_compute. reflexivity.
Defined.
