(* ===== verification/Stun.v ===== *)
(** STUN messages ([rtc-stun]: [message.rs], [attributes.rs], [checks.rs]): the type field,
    the message with its encoded bytes, every operation that writes into it, and the
    decoder.  Proved: the operations keep the parsed fields and the encoded bytes equal,
    decoding accepts exactly the wire format of RFC 5389 and always returns, and what is
    built is what is decoded. *)
From S2P Require Import Prelude.

(** The errors of [shared::error] that this crate and [rtc-ice] return; [Error::Other] by what
    its text reports. *)
Inductive StunError :=
| ErrUnexpectedHeaderEof
| OtherInvalidCookie (cookie : Z)
| OtherShortMessage (len full_size : Z)
| OtherShortAttribute (len header_size : Z)
| OtherShortValue (len value_size typ : Z)
| ErrAttributeNotFound
| ErrUnexpectedEof
| OtherBadFamily (family : Z)
| OtherUnsupportedAttrType (typ : Z)
| ErrAttributeSizeInvalid
| ErrAttributeSizeOverflow
| ErrFingerprintMismatch
| ErrFingerprintBeforeIntegrity
| ErrIntegrityMismatch
| ErrBadUnknownAttrsSize
| ErrNoDefaultReason
| StunUtf8
| StunCrypto
| ErrAgentClosed
| ErrTransactionExists
| ErrTransactionNotExists
| ErrClientClosed
| ErrDetermineNetworkType
| ErrAddressParseFailed
| IceParseInt
| OtherParseRelatedAddr
| OtherParseType
| OtherUnknownCandidateType
| OtherTooShortIceCandidate
| OtherMismatchUsername
| ErrUnhandledStunpacket
| ErrUnexpectedStunrequestMessage
| ErrNonStunmessage
| ErrPasswordEmpty
| ErrRemoteUfragEmpty
| ErrRemotePwdEmpty
| ErrLocalUfragInsufficientBits
| ErrLocalPwdInsufficientBits
| ErrInvalidMulticastDnshostName
| ErrLiteUsingNonHostCandidates
| ErrUselessUrlsProvided
| IceMdns.
Abbreviation stun_result A := (outcome StunError A).

(** * The type field *)

Definition MAGIC_COOKIE : Z := 554869826.
Definition ATTRIBUTE_HEADER_SIZE : Z := 4.
Definition MESSAGE_HEADER_SIZE : Z := 20.
Definition TRANSACTION_ID_SIZE : Z := 12.
Definition DEFAULT_RAW_CAPACITY : Z := 120.

Record StunMessageType := mkMessageType { mt_method : Z; mt_class : Z }.
#[export] Instance MessageType_eq_dec : EqDecision StunMessageType. Proof. solve_decision. Defined.

Definition CLASS_REQUEST : Z := 0.
Definition CLASS_INDICATION : Z := 1.
Definition CLASS_SUCCESS_RESPONSE : Z := 2.
Definition CLASS_ERROR_RESPONSE : Z := 3.
Definition METHOD_BINDING : Z := 1.
Definition BINDING_REQUEST : StunMessageType := mkMessageType METHOD_BINDING CLASS_REQUEST.
Definition BINDING_SUCCESS : StunMessageType := mkMessageType METHOD_BINDING CLASS_SUCCESS_RESPONSE.
Definition BINDING_ERROR : StunMessageType := mkMessageType METHOD_BINDING CLASS_ERROR_RESPONSE.

Definition METHOD_ABITS : Z := 15.
Definition METHOD_BBITS : Z := 112.
Definition METHOD_DBITS : Z := 3968.
Definition METHOD_BSHIFT : Z := 1.
Definition METHOD_DSHIFT : Z := 2.
Definition C0BIT : Z := 1.
Definition C1BIT : Z := 2.
Definition CLASS_C0SHIFT : Z := 4.
Definition CLASS_C1SHIFT : Z := 7.

Definition MessageType_value (t : StunMessageType) : Z :=
  let a := Z.land (mt_method t) METHOD_ABITS in
  let b := Z.land (mt_method t) METHOD_BBITS in
  let d := Z.land (mt_method t) METHOD_DBITS in
  let method := a + Z.shiftl b METHOD_BSHIFT + Z.shiftl d METHOD_DSHIFT in
  let c0 := Z.shiftl (Z.land (mt_class t) C0BIT) CLASS_C0SHIFT in
  let c1 := Z.shiftl (Z.land (mt_class t) C1BIT) CLASS_C1SHIFT in
  method + (c0 + c1).

Definition MessageType_read_value (value : Z) : StunMessageType :=
  let c0 := Z.land (Z.shiftr value CLASS_C0SHIFT) C0BIT in
  let c1 := Z.land (Z.shiftr value CLASS_C1SHIFT) C1BIT in
  let a := Z.land value METHOD_ABITS in
  let b := Z.land (Z.shiftr value METHOD_BSHIFT) METHOD_BBITS in
  let d := Z.land (Z.shiftr value METHOD_DSHIFT) METHOD_DBITS in
  mkMessageType (a + b + d) (c0 + c1).

(** * Attributes *)

Definition ATTR_MAPPED_ADDRESS : Z := 1.
Definition ATTR_USERNAME : Z := 6.
Definition ATTR_MESSAGE_INTEGRITY : Z := 8.
Definition ATTR_ERROR_CODE : Z := 9.
Definition ATTR_UNKNOWN_ATTRIBUTES : Z := 10.
Definition ATTR_REALM : Z := 20.
Definition ATTR_NONCE : Z := 21.
Definition ATTR_XORMAPPED_ADDRESS : Z := 32.
Definition ATTR_PRIORITY : Z := 36.
Definition ATTR_USE_CANDIDATE : Z := 37.
Definition ATTR_SOFTWARE : Z := 32802.
Definition ATTR_FINGERPRINT : Z := 32808.
Definition ATTR_ICE_CONTROLLED : Z := 32809.
Definition ATTR_ICE_CONTROLLING : Z := 32810.

Definition AttrType_required (t : Z) : bool := t <=? 32767.
Definition AttrType_optional (t : Z) : bool := 32768 <=? t.

Record RawAttribute := mkRawAttribute { ra_typ : Z; ra_length : Z; ra_value : bytes }.
#[export] Instance RawAttribute_eq_dec : EqDecision RawAttribute. Proof. solve_decision. Defined.

#[export] Instance eta_raw_attribute : Eta RawAttribute := fun r => mkRawAttribute (ra_typ r) (ra_length r) (ra_value r).
Definition PADDING : Z := 4.
Definition nearest_padded_value_length (l : Z) : Z :=
  let n := PADDING * (l / PADDING) in
  if n <? l then n + PADDING else n.

Definition compat_attr_type (val : Z) : Z := if val =? 32800 then ATTR_XORMAPPED_ADDRESS else val.

(** [Attributes::get]: the first attribute of the type, and whether there is one. *)
Fixpoint Attributes_get (l : list RawAttribute) (t : Z) : RawAttribute * bool :=
  match l with
  | [] => (mkRawAttribute 0 0 [], false)
  | candidate :: l => if ra_typ candidate =? t then (candidate, true) else Attributes_get l t
  end.

Definition check_size (got expected : Z) : stun_result unit :=
  if got =? expected then Ok tt else Err ErrAttributeSizeInvalid.
Definition check_fingerprint (got expected : Z) : stun_result unit :=
  if got =? expected then Ok tt else Err ErrFingerprintMismatch.
Definition check_overflow (got max : Z) : stun_result unit :=
  if got <=? max then Ok tt else Err ErrAttributeSizeOverflow.

(** * Messages *)

Record StunMessage := mkMessage {
  m_typ : StunMessageType;
  m_length : Z;
  m_transaction_id : bytes;
  m_attributes : list RawAttribute;
  m_raw : bytes
}.
#[export] Instance eta_message : Eta StunMessage := fun r => mkMessage (m_typ r) (m_length r) (m_transaction_id r) (m_attributes r) (m_raw r).
Abbreviation msg A := (stm StunMessage StunError A).

Definition Message_default : StunMessage := mkMessage (mkMessageType 0 0) 0 (zeros TRANSACTION_ID_SIZE) [] [].
Definition Message_new : StunMessage := Message_default <| m_raw := zeros MESSAGE_HEADER_SIZE |>.

(** [PartialEq for Message]: the encoded bytes are left out. *)
Definition Message_eq (a b : StunMessage) : bool :=
  bool_decide (m_typ a = m_typ b) && bool_decide (m_transaction_id a = m_transaction_id b)
  && (m_length a =? m_length b) && bool_decide (m_attributes a = m_attributes b).

Definition is_stun_message (b : bytes) : bool :=
  (MESSAGE_HEADER_SIZE <=? zlen b) &&
  match drop 4 b with b4 :: b5 :: b6 :: b7 :: _ => b4 * 16777216 + b5 * 65536 + b6 * 256 + b7 =? MAGIC_COOKIE | _ => false end.

Definition reset (m : StunMessage) : StunMessage := m <| m_raw := [] |> <| m_length := 0 |> <| m_attributes := [] |>.

Definition grow (n : Z) (resize : bool) (m : StunMessage) : StunMessage :=
  if n <=? zlen (m_raw m) then (if resize then m <| m_raw ::= take (Z.to_nat n) |> else m)
  else m <| m_raw := m_raw m ++ zeros (n - zlen (m_raw m)) |>.

(** [self.raw[a..a + v.len()].copy_from_slice(v)]. *)
Definition write_at (a : Z) (v : bytes) : msg unit :=
  m ← gets id;
  raw ← lift (splice (m_raw m) a v);
  modify (fun m => m <| m_raw := raw |>).

Definition write_length : msg unit :=
  _ ← modify (grow 4 false);
  m ← gets id;
  write_at 2 (put_u16 (as_u16 (m_length m))).

Definition write_type : msg unit :=
  _ ← modify (grow 2 false);
  m ← gets id;
  write_at 0 (put_u16 (MessageType_value (m_typ m))).

Definition write_transaction_id : msg unit :=
  m ← gets id;
  write_at 8 (m_transaction_id m).

Definition write_header : msg unit :=
  _ ← modify (grow MESSAGE_HEADER_SIZE false);
  _ ← write_type;
  _ ← write_length;
  _ ← write_at 4 (put_u32 MAGIC_COOKIE);
  write_transaction_id.

Definition set_type (t : StunMessageType) : msg unit :=
  _ ← modify (fun m => m <| m_typ := t |>);
  write_type.

Definition set_transaction_id (id : bytes) : msg unit :=
  _ ← modify (fun m => m <| m_transaction_id := id |>);
  write_transaction_id.

(** Encoding type, length and value in the allocated buffer. *)
Definition write_attribute (first t : Z) (v : bytes) : msg unit :=
  _ ← write_at first (put_u16 t);
  _ ← write_at (first + 2) (put_u16 (as_u16 (zlen v)));
  write_at (first + ATTRIBUTE_HEADER_SIZE) v.

Section add.
Context `{OverflowChecks}.

(** [self.length += n as u32]. *)
Definition grow_length (n : Z) : msg unit :=
  m ← gets id;
  l ← lift (add_ovf overflow_checks U32 (m_length m) (as_u32 n));
  modify (fun m => m <| m_length := l |>).

(** Padding the value of length [n] that ends at [last]. *)
Definition pad_value (last n : Z) : msg unit :=
  let bytes_to_add := nearest_padded_value_length n - n in
  _ ← modify (grow (last + bytes_to_add) true);
  _ ← write_at last (zeros bytes_to_add);
  grow_length bytes_to_add.

Definition add (t : Z) (v : bytes) : msg unit :=
  let alloc_size := ATTRIBUTE_HEADER_SIZE + zlen v in
  m ← gets id;
  let first := MESSAGE_HEADER_SIZE + m_length m in
  let last := first + alloc_size in
  _ ← modify (grow last true);
  _ ← grow_length alloc_size;
  _ ← write_attribute first t v;
  let attr := mkRawAttribute t (as_u16 (zlen v)) v in
  _ ← (if ra_length attr mod PADDING =? 0 then mret tt else pad_value last (zlen v));
  _ ← modify (fun m => m <| m_attributes ::= fun l => l ++ [attr] |>);
  write_length.

Definition write_attributes : msg unit :=
  m ← gets id;
  let attributes := m_attributes m in
  _ ← modify (fun m => m <| m_attributes := [] |>);
  _ ← for_each (fun a => add (ra_typ a) (ra_value a)) attributes;
  modify (fun m => m <| m_attributes := attributes |>).

Definition encode : msg unit :=
  _ ← modify (fun m => m <| m_raw := [] |>);
  _ ← write_header;
  _ ← modify (fun m => m <| m_length := 0 |>);
  write_attributes.
End add.

(** The loop of [decode]; each round reads one attribute and pushes it. *)
Fixpoint decode_attributes (fuel : nat) (offset size : Z) (b : bytes) : msg unit :=
  match fuel with
  | O => lift Diverge
  | S fuel =>
      if offset <? size then
        if zlen b <? ATTRIBUTE_HEADER_SIZE then throw (OtherShortAttribute (zlen b) ATTRIBUTE_HEADER_SIZE)
        else
          '(t, b1) ← lift (get_u16 b);
          '(a_l, b) ← lift (get_u16 b1);
          let typ := compat_attr_type t in
          let a_buff_l := nearest_padded_value_length a_l in
          if zlen b <? a_buff_l then throw (OtherShortValue (zlen b) a_buff_l typ)
          else
            value ← lift (slice b 0 a_l);
            _ ← modify (fun m => m <| m_attributes ::= fun l => l ++ [mkRawAttribute typ a_l value] |>);
            decode_attributes fuel (offset + ATTRIBUTE_HEADER_SIZE + a_buff_l) size (drop (Z.to_nat a_buff_l) b)
      else mret tt
  end.

Definition decode : msg unit :=
  m ← gets id;
  let buf := m_raw m in
  if zlen buf <? MESSAGE_HEADER_SIZE then throw ErrUnexpectedHeaderEof
  else
    '(t, b) ← lift (get_u16 buf);
    '(size, b) ← lift (get_u16 b);
    '(cookie, _) ← lift (get_u32 b);
    let full_size := MESSAGE_HEADER_SIZE + size in
    if negb (cookie =? MAGIC_COOKIE) then throw (OtherInvalidCookie cookie)
    else if zlen buf <? full_size then throw (OtherShortMessage (zlen buf) full_size)
    else
      id ← lift (slice buf 8 MESSAGE_HEADER_SIZE);
      _ ← modify (fun m => m <| m_typ := MessageType_read_value t |> <| m_length := size |>
                             <| m_transaction_id := id |> <| m_attributes := [] |>);
      b ← lift (slice buf MESSAGE_HEADER_SIZE full_size);
      decode_attributes (S (Z.to_nat size)) 0 size b.

(** [unmarshal_binary]; [write] and [clone_to] do the same. *)
Definition unmarshal_binary (data : bytes) : msg unit :=
  _ ← modify (fun m => m <| m_raw := data |>);
  decode.
Definition Message_write (t_buf : bytes) : msg Z :=
  _ ← unmarshal_binary t_buf;
  mret (zlen t_buf).
Definition clone_to (m : StunMessage) : msg unit := unmarshal_binary (m_raw m).

(** [read_from] from a reader that has [data] to give: one [read] into a buffer of
    [DEFAULT_RAW_CAPACITY] bytes. *)
Definition read_from (data : bytes) : msg Z :=
  let t_buf := take (Z.to_nat DEFAULT_RAW_CAPACITY) data in
  _ ← modify (fun m => m <| m_raw := t_buf |>);
  _ ← decode;
  mret (zlen t_buf).

Definition contains (m : StunMessage) (t : Z) : bool := existsb (fun a => ra_typ a =? t) (m_attributes m).
Definition Message_get (m : StunMessage) (t : Z) : stun_result bytes :=
  let '(v, ok) := Attributes_get (m_attributes m) t in
  if ok then Ok (ra_value v) else Err ErrAttributeNotFound.

(** [build] with what each setter does to the message. *)
Definition build (setters : list (msg unit)) : msg unit :=
  _ ← modify reset;
  _ ← write_header;
  for_each id setters.

(** * The type field is a bijection *)

Definition type_ok (t : StunMessageType) : Prop := 0 <= mt_method t < 4096 /\ 0 <= mt_class t < 4.

(** Powers of two with a constant exponent, evaluated. *)
Ltac pow_const := repeat match goal with |- context [2 ^ ?k] => let v := eval vm_compute in (2 ^ k) in change (2 ^ k) with v end.

(** A mask of [w] bits from bit [k] on picks a field. *)
Lemma land_field m k w : 0 <= k -> 0 <= w -> Z.land m (Z.shiftl (Z.ones w) k) = (m / 2 ^ k) mod 2 ^ w * 2 ^ k.
Proof.
  intros Hk Hw. rewrite <- Z.land_ones, <- Z.shiftr_div_pow2, <- Z.shiftl_mul_pow2 by lia. apply Z.bits_inj'. intros n Hn.
  rewrite Z.land_spec, !Z.shiftl_spec by lia. destruct (Z.lt_ge_cases n k).
  - rewrite !(Z.testbit_neg_r _ (n - k)) by lia. apply andb_false_r.
  - rewrite Z.land_spec, Z.shiftr_spec by lia. do 2 f_equal. lia.
Qed.

Lemma MessageType_value_fields t :
  let me := mt_method t in let c := mt_class t in
  MessageType_value t = me mod 16 + (me / 16) mod 8 * 32 + (me / 128) mod 32 * 512 + (c mod 2 * 16 + (c / 2) mod 2 * 256).
Proof.
  unfold MessageType_value. cbn zeta.
  change METHOD_ABITS with (Z.shiftl (Z.ones 4) 0). change METHOD_BBITS with (Z.shiftl (Z.ones 3) 4).
  change METHOD_DBITS with (Z.shiftl (Z.ones 5) 7). change C0BIT with (Z.shiftl (Z.ones 1) 0). change C1BIT with (Z.shiftl (Z.ones 1) 1).
  rewrite !land_field by lia. unfold METHOD_BSHIFT, METHOD_DSHIFT, CLASS_C0SHIFT, CLASS_C1SHIFT.
  rewrite !Z.shiftl_mul_pow2 by lia. pow_const. rewrite ?Z.div_1_r. lia.
Qed.

Lemma MessageType_read_value_fields v :
  MessageType_read_value v =
    mkMessageType (v mod 16 + (v / 32) mod 8 * 16 + (v / 512) mod 32 * 128) ((v / 16) mod 2 + (v / 256) mod 2 * 2).
Proof.
  unfold MessageType_read_value.
  change METHOD_ABITS with (Z.shiftl (Z.ones 4) 0). change METHOD_BBITS with (Z.shiftl (Z.ones 3) 4).
  change METHOD_DBITS with (Z.shiftl (Z.ones 5) 7). change C0BIT with (Z.shiftl (Z.ones 1) 0). change C1BIT with (Z.shiftl (Z.ones 1) 1).
  rewrite !land_field by lia. unfold METHOD_BSHIFT, METHOD_DSHIFT, CLASS_C0SHIFT, CLASS_C1SHIFT.
  rewrite !Z.shiftr_div_pow2 by lia. pow_const. rewrite ?Z.div_1_r. f_equal; mlia.
Qed.

Lemma read_value_value t : type_ok t -> MessageType_read_value (MessageType_value t) = t.
Proof.
  intros [Hm Hc]. rewrite MessageType_read_value_fields, MessageType_value_fields. destruct t as [me c]. cbn in *. f_equal; mlia.
Qed.

(** The two most significant bits, zero in STUN, are not kept. *)
Lemma value_read_value v : is_u16 v -> MessageType_value (MessageType_read_value v) = v mod 16384 /\ type_ok (MessageType_read_value v).
Proof.
  intros Hv. unfold is_u16, type_ok in *. rewrite MessageType_value_fields, MessageType_read_value_fields. cbn. split; [mlia|]. mlia.
Qed.

Lemma value_u16 t : is_u16 (MessageType_value t).
Proof. rewrite MessageType_value_fields. unfold is_u16. cbn. mlia. Qed.

(** * The bytes of a message *)

Definition padding_of (n : Z) : Z := nearest_padded_value_length n - n.
Definition attr_bytes (a : RawAttribute) : bytes :=
  put_u16 (ra_typ a) ++ put_u16 (zlen (ra_value a)) ++ ra_value a ++ zeros (padding_of (zlen (ra_value a))).
Definition body_bytes (l : list RawAttribute) : bytes := concat (map attr_bytes l).
Definition header_bytes (m : StunMessage) : bytes :=
  put_u16 (MessageType_value (m_typ m)) ++ put_u16 (m_length m) ++ put_u32 MAGIC_COOKIE ++ m_transaction_id m.

Definition wire (m : StunMessage) : bytes := header_bytes m ++ body_bytes (m_attributes m).
(** The message with its bytes made from its fields. *)
Definition refresh (m : StunMessage) : StunMessage := m <| m_raw := wire m |>.
(** The message with one more attribute. *)
Definition attribute (t : Z) (v : bytes) : RawAttribute := mkRawAttribute t (zlen v) v.
Definition attach (a : RawAttribute) (m : StunMessage) : StunMessage :=
  refresh (m <| m_length := m_length m + zlen (attr_bytes a) |> <| m_attributes ::= fun l => l ++ [a] |>).

(** The parsed fields and the encoded bytes of a message agree. *)
Record Encoded (m : StunMessage) : Prop := mkEncoded {
  enc_raw : m_raw m = wire m;
  enc_length : m_length m = zlen (body_bytes (m_attributes m));
  enc_fits : m_length m < 65536;
  enc_typ : type_ok (m_typ m);
  enc_id : zlen (m_transaction_id m) = 12 /\ bytes_ok (m_transaction_id m);
  enc_attrs : Forall (fun a => is_u16 (ra_typ a) /\ bytes_ok (ra_value a) /\ ra_length a = zlen (ra_value a)) (m_attributes m)
}.

Lemma padding_spec n : 0 <= n -> 0 <= padding_of n < 4 /\ (n + padding_of n) mod 4 = 0 /\ (n mod 4 = 0 -> padding_of n = 0).
Proof. intros. unfold padding_of, nearest_padded_value_length, PADDING. case_match; mlia. Qed.
Lemma nearest_padding n : nearest_padded_value_length n = n + padding_of n.
Proof. unfold padding_of. lia. Qed.

Lemma zlen_attr_bytes a : zlen (attr_bytes a) = 4 + nearest_padded_value_length (zlen (ra_value a)).
Proof.
  unfold attr_bytes. destruct (padding_spec (zlen (ra_value a))) as (? & _); [zlia|].
  rewrite nearest_padding. autorewrite with zlen. lia.
Qed.

Lemma body_bytes_app l l' : body_bytes (l ++ l') = body_bytes l ++ body_bytes l'.
Proof. unfold body_bytes. by rewrite map_app, concat_app. Qed.
Lemma body_bytes_one a : body_bytes [a] = attr_bytes a.
Proof. apply app_nil_r. Qed.

(** ** Writing into the bytes *)

Lemma write_at_run m a b b' c n : m_raw m = a ++ b ++ c -> n = zlen a -> zlen b' = zlen b ->
  write_at n b' m = (Ok tt, m <| m_raw := a ++ b' ++ c |>).
Proof. intros Hr -> Hl. unfold write_at. stm_step. rewrite Hr, (bind_lift _ _ _ (a ++ b' ++ c)) by (by apply splice_app). done. Qed.

Lemma grow_id n m : n <= zlen (m_raw m) -> grow n false m = m.
Proof. intros. unfold grow. by rewrite (proj2 (Z.leb_le n _)). Qed.
Lemma grow_extend n r m : zlen (m_raw m) <= n -> grow n r m = m <| m_raw := m_raw m ++ zeros (n - zlen (m_raw m)) |>.
Proof.
  intros. unfold grow. destruct (Z.leb_spec n (zlen (m_raw m))); [|done]. assert (n = zlen (m_raw m)) as -> by lia.
  rewrite Z.sub_diag. cbn -[take zlen]. rewrite app_nil_r. destruct r, m; [|done]. unfold over. cbn -[take zlen]. rewrite take_ge; [done|]. unfold zlen. lia.
Qed.

Lemma write_length_run m x y z : m_raw m = x ++ y ++ z -> zlen x = 2 -> zlen y = 2 ->
  write_length m = (Ok tt, m <| m_raw := x ++ put_u16 (as_u16 (m_length m)) ++ z |>).
Proof.
  intros Hr Hx Hy. unfold write_length. stm_step. rewrite grow_id by (rewrite Hr; zlia).
  stm_step. by apply (write_at_run _ x y _ z).
Qed.

Lemma write_type_run m y z : m_raw m = y ++ z -> zlen y = 2 ->
  write_type m = (Ok tt, m <| m_raw := put_u16 (MessageType_value (m_typ m)) ++ z |>).
Proof.
  intros Hr Hy. unfold write_type. stm_step. rewrite grow_id by (rewrite Hr; zlia).
  stm_step. by apply (write_at_run _ [] y _ z).
Qed.

Lemma write_transaction_id_run m x y z : m_raw m = x ++ y ++ z -> zlen x = 8 -> zlen y = 12 -> zlen (m_transaction_id m) = 12 ->
  write_transaction_id m = (Ok tt, m <| m_raw := x ++ m_transaction_id m ++ z |>).
Proof. intros Hr Hx Hy Hid. unfold write_transaction_id. stm_step. apply (write_at_run _ x y); [done|lia|lia]. Qed.

Section adding.
Context `{OverflowChecks}.

Lemma grow_length_run n m : 0 <= n -> 0 <= m_length m -> m_length m + n < U32 ->
  grow_length n m = (Ok tt, m <| m_length := m_length m + n |>).
Proof using Type.
  intros H0 Hl Hn. unfold grow_length. stm_step.
  rewrite (bind_lift _ _ _ (m_length m + n)); [done|]. unfold U32 in Hn.
  rewrite as_u32_id by (unfold is_u32; lia). by apply add_ovf_Ok.
Qed.

Lemma pad_value_run m n last : 0 <= n -> last = zlen (m_raw m) -> 0 <= m_length m -> m_length m + 4 < U32 ->
  pad_value last n m = (Ok tt, m <| m_raw := m_raw m ++ zeros (padding_of n) |> <| m_length := m_length m + padding_of n |>).
Proof using Type.
  intros Hn -> H0 Hl. destruct (padding_spec n Hn) as (Hp & _). unfold pad_value. fold (padding_of n). cbv zeta. stm_step.
  rewrite grow_extend by zlia. replace (zlen (m_raw m) + padding_of n - zlen (m_raw m)) with (padding_of n) by lia.
  erewrite bind_run; [|apply (write_at_run _ (m_raw m) (zeros (padding_of n)) _ []); [|done..]; cbn; by rewrite app_nil_r].
  rewrite app_nil_r, grow_length_run by (cbn; lia). done.
Qed.

Lemma write_attribute_run m t v first P : m_raw m = P ++ zeros (4 + zlen v) -> first = zlen P -> zlen v < 65536 ->
  write_attribute first t v m = (Ok tt, m <| m_raw := P ++ put_u16 t ++ put_u16 (zlen v) ++ v |>).
Proof using Type.
  intros Hr -> Hv. unfold write_attribute, ATTRIBUTE_HEADER_SIZE. set (n := zlen v) in *. assert (0 <= n) by apply zlen_nonneg.
  rewrite (as_u16_id n) by (unfold is_u16; lia).
  replace (zeros (4 + n)) with (zeros 2 ++ zeros 2 ++ zeros n) in Hr by (unfold zeros; rewrite <- !replicate_add; f_equal; lia).
  erewrite bind_run; [|apply (write_at_run _ P (zeros 2) _ (zeros 2 ++ zeros n)); done].
  erewrite bind_run; [|apply (write_at_run _ (P ++ put_u16 t) (zeros 2) _ (zeros n)); [|zlia|done]; cbn -[put_u16]; by rewrite <- !app_assoc].
  rewrite (write_at_run _ (P ++ put_u16 t ++ put_u16 n) (zeros n) _ []); [|cbn -[put_u16]; by rewrite <- !app_assoc, ?app_nil_r|zlia|rewrite zlen_zeros; fold n; lia].
  rewrite <- !app_assoc, app_nil_r. done.
Qed.

(** [add] puts the attribute after the others and the new length in the header, whatever
    the header's length field was. *)
Lemma add_run m t v x y z B :
  m_raw m = x ++ y ++ z ++ B -> zlen x = 2 -> zlen y = 2 -> zlen z = 16 -> m_length m = zlen B ->
  let a := attribute t v in
  let l := m_length m + zlen (attr_bytes a) in l < 65536 ->
  add t v m = (Ok tt, m <| m_length := l |> <| m_attributes ::= fun l => l ++ [a] |> <| m_raw := x ++ put_u16 l ++ z ++ B ++ attr_bytes a |>).
Proof using Type.
  intros Hr Hx Hy Hz HB a l Hl. subst l. rewrite zlen_attr_bytes in *. cbn [ra_value a attribute] in *.
  destruct (padding_spec (zlen v)) as (Hp & Hp4 & Hp0); [zlia|]. rewrite nearest_padding in *.
  set (n := zlen v) in *. assert (0 <= n) by apply zlen_nonneg. assert (0 <= zlen B) by apply zlen_nonneg.
  unfold add. fold n. rewrite (as_u16_id n) by (unfold is_u16; lia). cbn [ra_length]. stm_step.
  unfold MESSAGE_HEADER_SIZE, ATTRIBUTE_HEADER_SIZE.
  stm_step. rewrite grow_extend by (rewrite Hr; zlia).
  replace (20 + m_length m + (4 + n) - zlen (m_raw m)) with (4 + n) by (rewrite Hr; zlia). rewrite Hr.
  erewrite bind_run; [|apply grow_length_run; cbn; unfold U32; lia].
  erewrite bind_run; [|apply (write_attribute_run _ _ _ _ (x ++ y ++ z ++ B)); [done|zlia|fold n; lia]]. fold n.
  erewrite bind_run.
  2: { instantiate (1 := m <| m_length := m_length m + (4 + (n + padding_of n)) |>
         <| m_raw := x ++ y ++ z ++ B ++ attr_bytes a |>). instantiate (1 := tt).
       unfold attr_bytes. cbn [ra_typ ra_value a attribute]. fold n. unfold PADDING. destruct (Z.eqb_spec (n mod 4) 0) as [E|E].
       - rewrite (Hp0 E), Z.add_0_r, app_nil_r. rewrite <- !app_assoc. done.
       - rewrite pad_value_run by (cbn -[put_u16]; unfold U32; zlia). rewrite <- !app_assoc. cbn -[put_u16].
         replace (m_length m + (4 + n) + padding_of n) with (m_length m + (4 + (n + padding_of n))) by lia. rewrite <- !app_assoc. done. }
  stm_step. erewrite write_length_run by done. cbn -[put_u16].
  rewrite as_u16_id by (unfold is_u16; lia). done.
Qed.
End adding.

(** ** The operations keep fields and bytes equal *)

Lemma put_as_u16 x : put_u16 (as_u16 x) = put_u16 x.
Proof. unfold put_u16, as_u16. f_equal; [|f_equal]; mlia. Qed.

Lemma write_header_run m : m_raw m = [] -> zlen (m_transaction_id m) = 12 ->
  write_header m = (Ok tt, m <| m_raw := header_bytes m |>).
Proof.
  intros Hr Hid. unfold write_header. stm_step. rewrite grow_extend by (rewrite Hr; done). rewrite Hr.
  change (zeros (MESSAGE_HEADER_SIZE - zlen [])) with (zeros 2 ++ zeros 2 ++ zeros 4 ++ zeros 12). cbn [app].
  erewrite bind_run; [|by apply (write_type_run _ (zeros 2) (zeros 2 ++ zeros 4 ++ zeros 12))].
  erewrite bind_run; [|by apply (write_length_run _ (put_u16 (MessageType_value (m_typ m))) (zeros 2) (zeros 4 ++ zeros 12))].
  cbn [m_length]. rewrite put_as_u16.
  erewrite bind_run; [|by apply (write_at_run _ (put_u16 (MessageType_value (m_typ m)) ++ put_u16 (m_length m)) (zeros 4) _ (zeros 12))].
  rewrite (write_transaction_id_run _ (put_u16 (MessageType_value (m_typ m)) ++ put_u16 (m_length m) ++ put_u32 MAGIC_COOKIE) (zeros 12) []) by done.
  unfold header_bytes. rewrite app_nil_r, <- !app_assoc. done.
Qed.

Lemma Encoded_split m : Encoded m ->
  m_raw m = put_u16 (MessageType_value (m_typ m)) ++ put_u16 (m_length m) ++ (put_u32 MAGIC_COOKIE ++ m_transaction_id m) ++ body_bytes (m_attributes m).
Proof. intros E. rewrite (enc_raw _ E). unfold wire, header_bytes. by rewrite <- !app_assoc. Qed.

Lemma Encoded_reset m : type_ok (m_typ m) -> zlen (m_transaction_id m) = 12 /\ bytes_ok (m_transaction_id m) ->
  write_header (reset m) = (Ok tt, refresh (reset m)) /\ Encoded (refresh (reset m)).
Proof.
  intros Ht Hid. split.
  - rewrite write_header_run; [|done|apply Hid]. unfold refresh, wire. cbn [m_attributes].
    change (body_bytes (m_attributes (reset m))) with (@nil Z). by rewrite app_nil_r.
  - by constructor.
Qed.

Lemma set_type_run t m : Encoded m -> type_ok t ->
  set_type t m = (Ok tt, refresh (m <| m_typ := t |>)) /\ Encoded (refresh (m <| m_typ := t |>)).
Proof.
  intros E Ht. split; [|destruct E; by constructor].
  unfold set_type. stm_step. erewrite write_type_run; [|cbn; by rewrite (Encoded_split _ E)|done].
  unfold refresh, wire, header_bytes. cbn -[put_u16 put_u32]. by rewrite <- !app_assoc.
Qed.

Lemma set_transaction_id_run id m : Encoded m -> zlen id = 12 -> bytes_ok id ->
  set_transaction_id id m = (Ok tt, refresh (m <| m_transaction_id := id |>)) /\ Encoded (refresh (m <| m_transaction_id := id |>)).
Proof.
  intros E Hid Hok. split; [|destruct E; by constructor].
  unfold set_transaction_id. stm_step.
  erewrite (write_transaction_id_run _ (put_u16 (MessageType_value (m_typ m)) ++ put_u16 (m_length m) ++ put_u32 MAGIC_COOKIE) (m_transaction_id m));
    [|cbn -[put_u16 put_u32]; rewrite (Encoded_split _ E); by rewrite <- !app_assoc|done|apply E|done].
  unfold refresh, wire, header_bytes. cbn -[put_u16 put_u32]. by rewrite <- !app_assoc.
Qed.

Lemma Encoded_attach m a : Encoded m -> is_u16 (ra_typ a) -> bytes_ok (ra_value a) -> ra_length a = zlen (ra_value a) ->
  m_length m + zlen (attr_bytes a) < 65536 -> Encoded (attach a m).
Proof.
  intros [Hr Hl Hf Ht Hid Ha] Hu Hb Hla Hlen. constructor; cbn -[put_u16 body_bytes attr_bytes]; try done.
  - by rewrite body_bytes_app, body_bytes_one, zlen_app, Hl.
  - apply Forall_app. split; [done|]. by rewrite Forall_singleton.
Qed.

Lemma add_Encoded `{OverflowChecks} t v m : Encoded m -> m_length m + zlen (attr_bytes (attribute t v)) < 65536 ->
  add t v m = (Ok tt, attach (attribute t v) m).
Proof.
  intros E Hl. erewrite (add_run m t v _ _ _ _ (Encoded_split _ E)); try done.
  - unfold attach, refresh, wire, header_bytes. cbn -[put_u16 put_u32 body_bytes attr_bytes]. rewrite body_bytes_app, body_bytes_one, <- !app_assoc. done.
  - rewrite zlen_app, zlen_put_u32. destruct (enc_id _ E). lia.
  - apply E.
Qed.

(** * Decoding *)

(** The layout of the attributes as the decoder reads them: each has a type, the length of its value, the
    value, and padding of any content up to the next multiple of four bytes. *)
Inductive attributes_wire : list RawAttribute -> bytes -> Prop :=
| wire_nil : attributes_wire [] []
| wire_cons t v pad l rest :
    is_u16 t -> bytes_ok v -> zlen v < 65536 -> zlen pad = padding_of (zlen v) -> attributes_wire l rest ->
    attributes_wire (mkRawAttribute (compat_attr_type t) (zlen v) v :: l) (put_u16 t ++ put_u16 (zlen v) ++ v ++ pad ++ rest).

(** The layout the decoder accepts: a header with any type, attributes, and bytes that are
    not looked at. *)
Definition accepted_layout (raw : bytes) (t : Z) (id : bytes) (l : list RawAttribute) (body : bytes) : Prop :=
  exists rest, raw = put_u16 t ++ put_u16 (zlen body) ++ put_u32 MAGIC_COOKIE ++ id ++ body ++ rest /\
    is_u16 t /\ zlen body < 65536 /\ zlen id = 12 /\ attributes_wire l body.

(** What a state and a result of the decoder's loop say. *)
Definition pushed (l : list RawAttribute) (m : StunMessage) : StunMessage := m <| m_attributes ::= fun l0 => l0 ++ l |>.

Lemma pushed_pushed l l' m : pushed l' (pushed l m) = pushed (l ++ l') m.
Proof. unfold pushed, over. cbn. by rewrite <- app_assoc. Qed.
Lemma pushed_nil m : pushed [] m = m.
Proof. destruct m. unfold pushed, over. cbn. by rewrite app_nil_r. Qed.

Lemma attributes_wire_bytes l b : attributes_wire l b -> 0 <= zlen b /\ zlen b mod 4 = 0.
Proof.
  induction 1 as [|t v pad l rest Ht Hv Hl Hp Hw IH]; [done|]. autorewrite with zlen. zlen_pos.
  destruct (padding_spec (zlen v)) as (? & ? & ?); [lia|]. split; [lia|]. mlia.
Qed.

(** The loop accepts everything in the format, with fuel above the number of attributes. *)
Lemma decode_attributes_complete l b : attributes_wire l b -> forall fuel offset size m,
  size = offset + zlen b -> (zlen b < Z.of_nat fuel) ->
  decode_attributes fuel offset size b m = (Ok tt, pushed l m).
Proof.
  induction 1 as [|t v pad l rest Ht Hv Hl Hp Hw IH]; intros fuel offset size m Hs Hf.
  - destruct fuel; [zlia|]. cbn [decode_attributes]. rewrite (proj2 (Z.ltb_ge offset size)) by zlia.
    by rewrite pushed_nil.
  - destruct fuel; [zlia|]. autorewrite with zlen in Hs, Hf. pose proof (zlen_nonneg v). pose proof (zlen_nonneg rest).
    cbn [decode_attributes]. unfold ATTRIBUTE_HEADER_SIZE. rewrite (proj2 (Z.ltb_lt offset size)) by zlia.
    rewrite (proj2 (Z.ltb_ge (zlen _) 4)) by zlia.
    erewrite bind_lift by (by apply get_put_u16). cbn beta iota zeta.
    erewrite bind_lift by (apply get_put_u16; unfold is_u16; lia). cbn beta iota zeta.
    rewrite nearest_padding. rewrite (proj2 (Z.ltb_ge (zlen _) (zlen v + _))) by zlia.
    erewrite bind_lift by (by apply (slice_app_eq _ [] v (pad ++ rest))).
    stm_step. rewrite (assoc_L app v pad rest), drop_front by zlia.
    rewrite IH by zlia. fold (pushed [mkRawAttribute (compat_attr_type t) (zlen v) v] m). by rewrite pushed_pushed.
Qed.

(** The loop always ends, and what it accepts is in the format. *)
Lemma decode_attributes_sound fuel : forall b offset size m, bytes_ok b -> size = offset + zlen b -> zlen b < Z.of_nat fuel ->
  exists r l, decode_attributes fuel offset size b m = (r, pushed l m) /\
    ((r = Ok tt /\ attributes_wire l b) \/ exists e, r = Err e).
Proof.
  induction fuel as [|fuel IH]; intros b offset size m Hb Hs Hf; [zlia|]. cbn [decode_attributes]. unfold ATTRIBUTE_HEADER_SIZE.
  destruct (Z.ltb_spec offset size) as [Ho|Ho].
  2: { exists (Ok tt), []. rewrite pushed_nil. split; [done|]. left. destruct b; [split; [done|constructor]|zlia]. }
  destruct (Z.ltb_spec (zlen b) 4); [exists (Err (OtherShortAttribute (zlen b) 4)), []; rewrite pushed_nil; eauto|].
  destruct (get_u16_split (E:=StunError) b) as (t & b1 & -> & Ht & Hb1 & Hg); [done|lia|].
  rewrite (bind_lift _ _ _ _ Hg). cbn beta iota zeta. autorewrite with zlen in *.
  destruct (get_u16_split (E:=StunError) b1) as (n & b2 & -> & Hn & Hb2 & Hg1); [done|lia|].
  rewrite (bind_lift _ _ _ _ Hg1). cbn beta iota zeta. autorewrite with zlen in *. rewrite nearest_padding.
  destruct (padding_spec n) as (Hp & _); [unfold is_u16 in Hn; lia|]. unfold is_u16 in Hn.
  destruct (Z.ltb_spec (zlen b2) (n + padding_of n)); [eexists (Err _), []; rewrite pushed_nil; eauto|].
  set (v := take (Z.to_nat n) b2). rewrite (bind_lift _ _ _ v) by (rewrite slice_Ok by lia; unfold v; by rewrite Z.sub_0_r).
  stm_step. assert (zlen v = n) as Hv by (unfold v; rewrite zlen_take; lia).
  set (pad := take (Z.to_nat (padding_of n)) (drop (Z.to_nat n) b2)).
  set (rest := drop (Z.to_nat (n + padding_of n)) b2).
  assert (b2 = v ++ pad ++ rest) as Hsplit.
  { unfold v, pad, rest. rewrite Z2Nat.inj_add by lia. by rewrite <- drop_drop, !take_drop. }
  assert (bytes_ok v /\ bytes_ok rest) as [Hbv Hbr].
  { rewrite Hsplit in Hb2. by apply bytes_ok_app in Hb2 as [? [? ?]%bytes_ok_app]. }
  assert (zlen rest = zlen b2 - (n + padding_of n)) as Hrest by (unfold rest; rewrite zlen_drop; lia).
  assert (zlen pad = padding_of n) as Hpad by (unfold pad; rewrite zlen_take, zlen_drop; lia).
  set (m1 := over m_attributes _ m). clearbody v pad rest.
  destruct (IH rest (offset + 4 + (n + padding_of n)) size m1) as (r & l & -> & Hr); [done|lia|lia|].
  exists r, (mkRawAttribute (compat_attr_type t) n v :: l). split; [unfold m1; fold (pushed [mkRawAttribute (compat_attr_type t) n v] m); by rewrite pushed_pushed|].
  destruct Hr as [[-> Hw]|[e ->]]; [left|right; eauto]. split; [done|]. rewrite Hsplit, <- Hv.
  apply wire_cons; [done..|lia|by rewrite Hv|done].
Qed.

Definition decoded (raw : bytes) (t : Z) (id : bytes) (l : list RawAttribute) (body : bytes) : StunMessage :=
  mkMessage (MessageType_read_value t) (zlen body) id l raw.

Lemma decode_complete m t id l body : accepted_layout (m_raw m) t id l body ->
  decode m = (Ok tt, decoded (m_raw m) t id l body).
Proof.
  intros (rest & Hr & Ht & Hb & Hid & Hw). unfold decode. stm_step. pose proof (zlen_nonneg body). pose proof (zlen_nonneg rest).
  assert (zlen (m_raw m) = 20 + zlen body + zlen rest) as Hz by (rewrite Hr; zlia).
  unfold MESSAGE_HEADER_SIZE. rewrite (proj2 (Z.ltb_ge (zlen (m_raw m)) 20)) by lia.
  erewrite bind_lift by (rewrite Hr; by apply get_put_u16). cbn beta iota zeta.
  erewrite bind_lift by (apply get_put_u16; unfold is_u16; lia). cbn beta iota zeta.
  erewrite bind_lift by (by apply get_put_u32). cbn beta iota zeta. rewrite Z.eqb_refl. cbn [negb].
  rewrite (proj2 (Z.ltb_ge (zlen (m_raw m)) _)) by lia.
  erewrite bind_lift by (apply (slice_app_eq _ (put_u16 t ++ put_u16 (zlen body) ++ put_u32 MAGIC_COOKIE) id (body ++ rest));
    [by rewrite Hr, <- !app_assoc|done|zlia]).
  stm_step.
  erewrite bind_lift by (apply (slice_app_eq _ (put_u16 t ++ put_u16 (zlen body) ++ put_u32 MAGIC_COOKIE ++ id) body rest);
    [by rewrite Hr, <- !app_assoc|zlia|zlia]).
  erewrite (decode_attributes_complete l body Hw) by lia. done.
Qed.

Lemma decode_sound m : bytes_ok (m_raw m) ->
  exists r m', decode m = (r, m') /\ m_raw m' = m_raw m /\
    ((r = Ok tt /\ exists t id l body, accepted_layout (m_raw m) t id l body /\ m' = decoded (m_raw m) t id l body) \/ exists e, r = Err e).
Proof.
  intros Hb. unfold decode. stm_step. unfold MESSAGE_HEADER_SIZE.
  destruct (Z.ltb_spec (zlen (m_raw m)) 20); [eexists (Err _), m; split_and!; eauto|].
  destruct (get_u16_split (E:=StunError) (m_raw m)) as (t & b1 & E1 & Ht & Hb1 & Hg1); [done|lia|].
  rewrite (bind_lift _ _ _ _ Hg1). cbn beta iota zeta. assert (18 <= zlen b1) by (rewrite E1 in *; zlia).
  destruct (get_u16_split (E:=StunError) b1) as (n & b2 & E2 & Hn & Hb2 & Hg2); [done|lia|].
  rewrite (bind_lift _ _ _ _ Hg2). cbn beta iota zeta. assert (16 <= zlen b2) by (rewrite E2 in *; zlia).
  destruct (get_u32_split (E:=StunError) b2) as (c & b3 & E3 & Hc & Hb3 & Hg3); [done|lia|].
  rewrite (bind_lift _ _ _ _ Hg3). cbn beta iota zeta. unfold is_u16 in Hn.
  destruct (Z.eqb_spec c MAGIC_COOKIE) as [->|]; cbn [negb]; [|eexists (Err _), m; split_and!; eauto].
  destruct (Z.ltb_spec (zlen (m_raw m)) (20 + n)); [eexists (Err _), m; split_and!; eauto|].
  set (id := take 12 b3). set (body := take (Z.to_nat n) (drop 12 b3)). set (rest := drop (Z.to_nat n) (drop 12 b3)).
  assert (b3 = id ++ body ++ rest) as E4 by (unfold id, body, rest; by rewrite !take_drop).
  assert (zlen (m_raw m) = 8 + zlen b3) as Hz by (rewrite E1, E2, E3; zlia).
  assert (zlen id = 12) as Hid by (unfold id; rewrite zlen_take; lia).
  assert (zlen body = n) as Hbody by (unfold body; rewrite zlen_take, zlen_drop; lia).
  assert (bytes_ok body) as Hbb. { rewrite E4 in Hb3. by apply bytes_ok_app in Hb3 as [_ [? _]%bytes_ok_app]. }
  clearbody id body rest. subst b1 b2 b3.
  erewrite bind_lift by (apply (slice_app_eq _ (put_u16 t ++ put_u16 n ++ put_u32 MAGIC_COOKIE) id (body ++ rest));
    [by rewrite E1, <- !app_assoc|done|zlia]).
  stm_step.
  erewrite bind_lift by (apply (slice_app_eq _ (put_u16 t ++ put_u16 n ++ put_u32 MAGIC_COOKIE ++ id) body rest);
    [by rewrite E1, <- !app_assoc|zlia|zlia]).
  match goal with |- context [decode_attributes ?f 0 n body ?s] =>
    destruct (decode_attributes_sound f body 0 n s) as (r & l & -> & Hr); [done|lia|lia|] end.
  exists r. eexists. split; [done|]. split; [done|]. destruct Hr as [[-> Hw]|He]; [left|by right]. split; [done|].
  exists t, id, l, body. split; [exists rest|].
  - split_and!; [|done|lia|done|done]. by rewrite Hbody.
  - unfold decoded. by rewrite Hbody.
Qed.

(** Decoding any bytes returns: either the bytes are in the format and the fields are
    read from them, or an error is returned and the bytes are in no way in the format. *)
Lemma decode_spec m : bytes_ok (m_raw m) ->
  exists r m', decode m = (r, m') /\ m_raw m' = m_raw m /\
    ((r = Ok tt /\ exists t id l body, accepted_layout (m_raw m) t id l body /\ m' = decoded (m_raw m) t id l body) \/
     ((exists e, r = Err e) /\ forall t id l body, ~ accepted_layout (m_raw m) t id l body)).
Proof.
  intros Hb. destruct (decode_sound m Hb) as (r & m' & E & Hr & H). exists r, m'. split_and!; [done..|].
  destruct H as [H|[e ->]]; [by left|right]. split; [eauto|]. intros t id l body Hw. by rewrite (decode_complete _ _ _ _ _ Hw) in E.
Qed.

(** ** What is encoded is decoded *)

Definition compat (a : RawAttribute) : RawAttribute := a <| ra_typ ::= compat_attr_type |>.

Lemma body_bytes_wire l : Forall (fun a => is_u16 (ra_typ a) /\ bytes_ok (ra_value a) /\ ra_length a = zlen (ra_value a)) l ->
  zlen (body_bytes l) < 65536 -> attributes_wire (map compat l) (body_bytes l).
Proof.
  induction 1 as [|a l (Ht & Hb & Hl) Hf IH]; intros Hz; [constructor|]. change (body_bytes (a :: l)) with (attr_bytes a ++ body_bytes l) in *.
  rewrite zlen_app, zlen_attr_bytes, nearest_padding in Hz. destruct (padding_spec (zlen (ra_value a))) as (? & _); [zlia|].
  pose proof (zlen_nonneg (body_bytes l)). pose proof (zlen_nonneg (ra_value a)).
  unfold attr_bytes. rewrite <- !app_assoc. cbn [map]. replace (compat a) with (mkRawAttribute (compat_attr_type (ra_typ a)) (zlen (ra_value a)) (ra_value a))
    by (destruct a; cbn in *; by subst).
  apply wire_cons; [done|done|lia|rewrite zlen_zeros; lia|apply IH; lia].
Qed.

Lemma Encoded_wire m : Encoded m ->
  accepted_layout (m_raw m) (MessageType_value (m_typ m)) (m_transaction_id m) (map compat (m_attributes m)) (body_bytes (m_attributes m)).
Proof.
  intros [Hr Hl Hf Ht [Hid Hidb] Ha]. exists []. split_and!; [|apply value_u16|lia|done|apply body_bytes_wire; [done|lia]].
  rewrite Hr. unfold wire, header_bytes. rewrite Hl, app_nil_r, <- !app_assoc. done.
Qed.

(** The decoder's result on the bytes of a message is the message, with the old type of
    XOR-MAPPED-ADDRESS read as the new one. *)
Lemma decode_Encoded m m0 : Encoded m -> m_raw m0 = m_raw m ->
  decode m0 = (Ok tt, m <| m_attributes ::= map compat |>).
Proof.
  intros E Hr. pose proof (Encoded_wire _ E) as Hw. rewrite <- Hr in Hw. rewrite (decode_complete _ _ _ _ _ Hw). unfold decoded.
  destruct E as [Hraw Hl Hf Ht Hid Ha]. rewrite read_value_value, <- Hl, Hr by done. by destruct m.
Qed.

(** ** Encoding again *)

Lemma add_all_run `{OverflowChecks} l : forall m x y z B,
  m_raw m = x ++ y ++ z ++ B -> zlen x = 2 -> zlen y = 2 -> zlen z = 16 -> m_length m = zlen B ->
  m_length m + zlen (body_bytes l) < 65536 ->
  for_each (fun a => add (ra_typ a) (ra_value a)) l m =
    (Ok tt, m <| m_length := m_length m + zlen (body_bytes l) |>
              <| m_attributes ::= fun l0 => l0 ++ map (fun a => attribute (ra_typ a) (ra_value a)) l |>
              <| m_raw := x ++ (match l with [] => y | _ => put_u16 (m_length m + zlen (body_bytes l)) end) ++ z ++ B ++ body_bytes l |>).
Proof.
  induction l as [|a l IH]; intros m x y z B Hr Hx Hy Hz HB Hl.
  - destruct m. unfold over. cbn in *. by rewrite Z.add_0_r, !app_nil_r, <- Hr.
  - change (body_bytes (a :: l)) with (attr_bytes (attribute (ra_typ a) (ra_value a)) ++ body_bytes l) in *.
    rewrite zlen_app in *. pose proof (zlen_nonneg (body_bytes l)). set (a' := attribute (ra_typ a) (ra_value a)) in *. cbn [for_each].
    erewrite bind_run; [|apply (add_run m _ _ x y z B); [done..|fold a'; lia]]. fold a'.
    erewrite (IH _ x (put_u16 (m_length m + zlen (attr_bytes a'))) z (B ++ attr_bytes a'));
      [|done..|cbn -[attr_bytes]; rewrite zlen_app; lia|cbn -[attr_bytes body_bytes]; lia].
    f_equal. unfold over. cbn -[attr_bytes body_bytes put_u16]. rewrite !Z.add_assoc, <- !app_assoc. f_equal.
    destruct l; [|done]. cbn [body_bytes map concat]. by rewrite zlen_nil, Z.add_0_r.
Qed.

(** [encode] writes the fields anew, for a message that has attributes. *)
Lemma encode_run `{OverflowChecks} m : zlen (m_transaction_id m) = 12 -> m_attributes m <> [] ->
  zlen (body_bytes (m_attributes m)) < 65536 ->
  encode m = (Ok tt, refresh (m <| m_length := zlen (body_bytes (m_attributes m)) |>)).
Proof.
  intros Hid Hne Hl. unfold encode, write_attributes. stm_step.
  erewrite bind_run; [|by apply write_header_run]. stm_step. stm_step. stm_step.
  erewrite bind_run; [|apply (add_all_run _ _ (put_u16 (MessageType_value (m_typ m))) (put_u16 (m_length m)) (put_u32 MAGIC_COOKIE ++ m_transaction_id m) []);
    [cbn -[put_u16 put_u32]; by rewrite app_nil_r|done..|rewrite zlen_app, zlen_put_u32; lia|done|done]].
  cbn [m_attributes over]. destruct m as [ty ln id at_ raw]. unfold modify, refresh, over, wire, header_bytes. cbn -[put_u16 put_u32 body_bytes] in *.
  destruct at_; [done|]. by rewrite <- !app_assoc.
Qed.

(** Without attributes it keeps the old length in the header: the bytes announce
    attributes that are not there, and decoding them fails. *)
Lemma encode_empty_keeps_length `{OverflowChecks} m m0 : zlen (m_transaction_id m) = 12 -> m_attributes m = [] ->
  0 < m_length m < 65536 ->
  exists m', encode m = (Ok tt, m') /\ m_length m' = 0 /\ m_raw m' = header_bytes m /\
    (unmarshal_binary (m_raw m') m0).1 = Err (OtherShortMessage 20 (20 + m_length m)).
Proof.
  intros Hid Ha Hl. exists (m <| m_raw := header_bytes m |> <| m_length := 0 |>). split.
  - unfold encode, write_attributes. stm_step. erewrite bind_run; [|by apply write_header_run].
    stm_step. stm_step. stm_step. destruct m as [ty ln id at_ raw]. cbn in Ha. subst at_. done.
  - split; [done|]. split; [done|]. unfold unmarshal_binary. stm_step. unfold decode. stm_step.
    unfold header_bytes, MESSAGE_HEADER_SIZE. cbn [m_raw over].
    rewrite (proj2 (Z.ltb_ge (zlen _) 20)) by zlia. erewrite bind_lift by (apply get_put_u16, value_u16). cbn beta iota zeta.
    erewrite bind_lift by (apply get_put_u16; unfold is_u16; lia). cbn beta iota zeta.
    erewrite bind_lift by (by apply get_put_u32). cbn beta iota zeta. rewrite Z.eqb_refl. cbn [negb].
    rewrite (proj2 (Z.ltb_lt (zlen _) (20 + _))) by zlia. cbn [fst throw]. do 2 f_equal. zlia.
Qed.

(** ** The format of RFC 5389 *)

(** Attributes (section 15): type, length of the value, the value, and padding of any content
    up to the next multiple of four bytes. *)
Inductive rfc5389_attributes : list RawAttribute -> bytes -> Prop :=
| rfc_nil : rfc5389_attributes [] []
| rfc_cons t v pad l rest :
    is_u16 t -> bytes_ok v -> zlen v < 65536 -> zlen pad = padding_of (zlen v) -> rfc5389_attributes l rest ->
    rfc5389_attributes (mkRawAttribute t (zlen v) v :: l) (put_u16 t ++ put_u16 (zlen v) ++ v ++ pad ++ rest).

(** Messages (section 6): two zero bits and the type, the length of the attributes, the magic
    cookie, the transaction id and the attributes, and nothing after them. *)
Definition rfc5389_message (b : bytes) (ty : StunMessageType) (id : bytes) (l : list RawAttribute) : Prop :=
  exists body, b = put_u16 (MessageType_value ty) ++ put_u16 (zlen body) ++ put_u32 MAGIC_COOKIE ++ id ++ body /\
    type_ok ty /\ zlen id = 12 /\ zlen body < 65536 /\ rfc5389_attributes l body.

(** The bytes with the two bits [x] in place of the two zero bits. *)
Definition with_top_bits (x : Z) (b : bytes) : bytes := match b with [] => [] | b0 :: b => (x * 64 + b0) :: b end.

Lemma rfc5389_attributes_wire l b : rfc5389_attributes l b -> attributes_wire (map compat l) b.
Proof. induction 1 as [|t v pad l rest]; [constructor|]. by apply (wire_cons t v pad (map compat l) rest). Qed.
Lemma attributes_wire_rfc5389 l b : attributes_wire l b -> exists l', rfc5389_attributes l' b /\ l = map compat l'.
Proof.
  induction 1 as [|t v pad l rest Ht Hv Hl Hp _ (l' & Hw & ->)]; [exists []; split; [constructor|done]|].
  exists (mkRawAttribute t (zlen v) v :: l'). split; [by constructor|done].
Qed.

Lemma rfc5389_attributes_inv l b : rfc5389_attributes l b -> l = [] /\ b = [] \/
  exists t v pad l1 rest, l = mkRawAttribute t (zlen v) v :: l1 /\ b = put_u16 t ++ put_u16 (zlen v) ++ v ++ pad ++ rest /\
    is_u16 t /\ zlen v < 65536 /\ zlen pad = padding_of (zlen v) /\ rfc5389_attributes l1 rest.
Proof. intros H. destruct H as [|t v pad l rest]; [by left|]. right. by exists t, v, pad, l, rest. Qed.

Lemma rfc5389_attributes_fun l l' b : rfc5389_attributes l b -> rfc5389_attributes l' b -> l = l'.
Proof.
  intros H. revert l'. induction H as [|t v pad l rest Ht Hv Hl Hp _ IH]; intros l' H'; apply rfc5389_attributes_inv in H'.
  - destruct H' as [[-> _]|(t & v & pad & l1 & rest & _ & Eb & _)]; [done|discriminate Eb].
  - destruct H' as [[_ Eb]|(t' & v' & pad' & l1 & rest' & -> & Eb & Ht' & Hl' & Hp' & Hw')]; [discriminate Eb|].
    pose proof (zlen_nonneg v). pose proof (zlen_nonneg v').
    apply app_inj_1 in Eb as [Et Eb]; [|done]. apply app_inj_1 in Eb as [En Eb]; [|done].
    apply put_u16_inj in Et; [|done..]. apply put_u16_inj in En; [|unfold is_u16; lia..].
    apply app_inj_1 in Eb as [Ev Eb]; [|unfold zlen in *; lia]. subst.
    apply app_inj_1 in Eb as [_ Eb]; [|unfold zlen in *; lia]. subst. f_equal. by apply IH.
Qed.

Lemma value_range ty : type_ok ty -> 0 <= MessageType_value ty < 16384.
Proof. intros Ht. destruct (value_read_value _ (value_u16 ty)) as [Hm _]. rewrite read_value_value in Hm by done. mlia. Qed.

Lemma top_bits_bytes x ty tl : 0 <= x < 4 -> type_ok ty ->
  with_top_bits x (put_u16 (MessageType_value ty) ++ tl) = put_u16 (x * 16384 + MessageType_value ty) ++ tl.
Proof.
  intros Hx Ht. pose proof (value_range ty Ht).
  unfold put_u16. cbn. f_equal; [mlia|]. f_equal. mlia.
Qed.

(** The layout the decoder accepts is the format, but for the two bits and what follows. *)
Lemma accepted_layout_rfc5389 data t id l body : accepted_layout data t id l body ->
  exists x b rest ty l', 0 <= x < 4 /\ rfc5389_message b ty id l' /\ data = with_top_bits x b ++ rest /\
    MessageType_read_value t = ty /\ l = map compat l' /\ zlen b = 20 + zlen body.
Proof.
  intros (rest & -> & Ht & Hb & Hid & Hw). apply attributes_wire_rfc5389 in Hw as (l' & Hw & ->).
  destruct (value_read_value t Ht) as [Hv Hok]. set (ty := MessageType_read_value t) in *.
  exists (t / 16384), (put_u16 (MessageType_value ty) ++ put_u16 (zlen body) ++ put_u32 MAGIC_COOKIE ++ id ++ body), rest, ty, l'.
  split; [unfold is_u16 in Ht; mlia|]. split; [by exists body|]. split; [|split; [done|split; [done|zlia]]].
  rewrite top_bits_bytes by (done || unfold is_u16 in Ht; mlia). rewrite Hv, <- !app_assoc. do 2 f_equal. unfold is_u16 in Ht. mlia.
Qed.

Lemma rfc5389_accepted x b rest ty id l : 0 <= x < 4 -> rfc5389_message b ty id l ->
  accepted_layout (with_top_bits x b ++ rest) (x * 16384 + MessageType_value ty) id (map compat l) (drop 20 b).
Proof.
  intros Hx (body & -> & Ht & Hid & Hb & Hw).
  assert (drop 20 (put_u16 (MessageType_value ty) ++ put_u16 (zlen body) ++ put_u32 MAGIC_COOKIE ++ id ++ body) = body) as ->.
  { rewrite !(assoc_L app). apply drop_app_length'. rewrite !length_app. change (20 = 2 + 2 + 4 + length id)%nat. unfold zlen in Hid. lia. }
  exists rest. rewrite top_bits_bytes by done. split; [by rewrite <- !app_assoc|]. split; [|split; [done|split; [done|by apply rfc5389_attributes_wire]]].
  pose proof (value_range ty Ht). unfold is_u16. lia.
Qed.

(** Bytes are in the format, but for the two bits and what follows, in at most one way. *)
Lemma rfc5389_unique x b rest ty id l x' b' rest' ty' id' l' :
  0 <= x < 4 -> 0 <= x' < 4 -> rfc5389_message b ty id l -> rfc5389_message b' ty' id' l' ->
  with_top_bits x b ++ rest = with_top_bits x' b' ++ rest' -> (x, b, rest, ty, id, l) = (x', b', rest', ty', id', l').
Proof.
  intros Hx Hx' (body & -> & Ht & Hid & Hb & Hw) (body' & -> & Ht' & Hid' & Hb' & Hw'). rewrite !top_bits_bytes by done. rewrite <- !app_assoc.
  pose proof (zlen_nonneg body). pose proof (zlen_nonneg body').
  pose proof (value_range _ Ht). pose proof (value_range _ Ht').
  intros E. apply app_inj_1 in E as [E1 E]; [|done]. apply put_u16_inj in E1; [|unfold is_u16; lia..].
  assert (x = x' /\ ty = ty') as [<- <-].
  { split; [lia|]. rewrite <- (read_value_value ty Ht), <- (read_value_value ty' Ht'). f_equal. lia. }
  apply app_inj_1 in E as [E2 E]; [|done]. apply put_u16_inj in E2; [|unfold is_u16; lia..]. apply app_inj_1 in E as [_ E]; [|done].
  apply app_inj_1 in E as [-> E]; [|unfold zlen in *; lia]. apply app_inj_1 in E as [-> ->]; [|unfold zlen in *; lia].
  by rewrite (rfc5389_attributes_fun l l' body' Hw Hw').
Qed.

(** C14: The STUN decoder accepts exactly the messages of RFC 5389, except that it does not
    look at the two most significant bits of the type, which the RFC has zero, nor at bytes
    after the attributes.  On any bytes and into any message it returns.  Either the bytes
    are a message of the RFC with any two bits [x] in that place, followed by any [rest], in
    one way only, and the type, transaction id and attributes are those of that message,
    the old type number of XOR-MAPPED-ADDRESS read as the new one; or they are that in no
    way, and the result is an error. *)
Theorem stun_decode_exact (data : bytes) (m0 : StunMessage) : bytes_ok data ->
  exists r m, unmarshal_binary data m0 = (r, m) /\ m_raw m = data /\
    ((r = Ok tt /\ exists x b rest ty id l, 0 <= x < 4 /\ rfc5389_message b ty id l /\ data = with_top_bits x b ++ rest /\
        m = mkMessage ty (zlen b - 20) id (map compat l) data /\
        forall x' b' rest' ty' id' l', 0 <= x' < 4 -> rfc5389_message b' ty' id' l' -> data = with_top_bits x' b' ++ rest' ->
          (x', b', rest', ty', id', l') = (x, b, rest, ty, id, l)) \/
     ((exists e, r = Err e) /\ forall x b rest ty id l, 0 <= x < 4 -> rfc5389_message b ty id l -> data <> with_top_bits x b ++ rest)).
Proof.
  intros Hb. unfold unmarshal_binary. stm_step.
  assert (bytes_ok (m_raw (m0 <| m_raw := data |>))) as Hb' by exact Hb. destruct (decode_spec _ Hb') as (r & m & E & Hr & Hd).
  exists r, m. split; [exact E|]. split; [exact Hr|]. destruct Hd as [(-> & t & id & l & body & Hw & ->)|[He Hn]]; [left|right]; (split; [done|]).
  - destruct (accepted_layout_rfc5389 _ _ _ _ _ Hw) as (x & b & rest & ty & l' & Hx & Hm & Hdata & Hty & -> & Hlen).
    change (data = with_top_bits x b ++ rest) in Hdata. exists x, b, rest, ty, id, l'. do 3 (split; [done|]). split.
    + unfold decoded. change (m_raw (m0 <| m_raw := data |>)) with data. rewrite Hty. f_equal. lia.
    + intros x' b' rest' ty' id' l1 Hx' Hm' Hdata'. rewrite Hdata in Hdata'. symmetry. by eapply rfc5389_unique.
  - intros x b rest ty id l Hx Hm Hdata. eapply Hn. change (m_raw (m0 <| m_raw := data |>)) with data. rewrite Hdata. by apply rfc5389_accepted.
Qed.

Lemma stun_decode_exact_witness :
  let data := put_u16 257 ++ put_u16 8 ++ put_u32 MAGIC_COOKIE ++ zeros 12 ++ put_u16 32802 ++ put_u16 3 ++ [114; 116; 99; 0] in
  exists m x b rest ty id l, unmarshal_binary data Message_new = (Ok tt, m) /\
    0 <= x < 4 /\ rfc5389_message b ty id l /\ data = with_top_bits x b ++ rest /\ m = mkMessage ty (zlen b - 20) id (map compat l) data.
Proof.
  intros data. assert (bytes_ok data) as Hb by (vm_compute; repeat constructor; discriminate).
  destruct (stun_decode_exact data Message_new Hb) as (r & m & E & _ & [(-> & x & b & rest & ty & id & l & H1 & H2 & H3 & H4 & _)|[[e ->] _]]).
  - by exists m, x, b, rest, ty, id, l.
  - exfalso. vm_compute in E. discriminate E.
Defined.
