(* ===== verification/StunAttributes.v ===== *)
(** The attributes of STUN messages ([rtc-stun]: [addr.rs], [xoraddr.rs], [textattrs.rs],
    [uattrs.rs], [error_code.rs], [integrity.rs], [fingerprint.rs]) and the setters that
    [Message::build] applies.  Proved: every getter returns what its setter stored, a
    built message is decoded to itself, the integrity check accepts exactly the tag of
    the bytes before the attribute, and a message built with both protections passes
    both checks at the receiver. *)
From stdpp Require Import strings.
From S2P Require Import Prelude Transport Crypto Marshal Stun.

(** * Addresses *)

Definition FAMILY_IPV4 : Z := 1.
Definition FAMILY_IPV6 : Z := 2.
Definition IPV4LEN : Z := 4.
Definition IPV6LEN : Z := 16.

(** [MappedAddress] and [XorMappedAddress] have the same fields. *)
Record Address := mkAddress { a_ip : IpAddr; a_port : Z }.

(** [u16::from_be_bytes([v[i], v[i + 1]])]. *)
Definition be_u16_at (v : bytes) (i : Z) : stun_result Z :=
  hi ← index v i;
  lo ← index v (i + 1);
  Ok (hi * 256 + lo).

(** [dst[i] = a[i] ^ b[i]] for every [i] below the three lengths. *)
Fixpoint xor_into (dst a b : bytes) : bytes :=
  match dst, a, b with
  | _ :: dst, x :: a, y :: b => Z.lxor x y :: xor_into dst a b
  | _, _, _ => dst
  end.
Definition safe_xor_bytes (dst a b : bytes) : bytes * Z :=
  let n := zlen a in
  let n := if zlen b <? n then zlen b else n in
  let n := if zlen dst <? n then zlen dst else n in
  (xor_into dst a b, n).
Definition xor_bytes (dst a b : bytes) : bytes * Z := safe_xor_bytes dst a b.

Definition MappedAddress_get_from_as (m : StunMessage) (t : Z) : stun_result Address :=
  v ← Message_get m t;
  if zlen v <=? 4 then Err ErrUnexpectedEof
  else
    family ← be_u16_at v 0;
    if negb (family =? FAMILY_IPV6) && negb (family =? FAMILY_IPV4) then Err (OtherBadFamily family)
    else
      port ← be_u16_at v 2;
      let n := if family =? FAMILY_IPV6 then IPV6LEN else IPV4LEN in
      let l := Z.min n (zlen (drop 4 v)) in
      o ← slice v 4 (4 + l);
      ip ← splice (zeros n) 0 o;
      Ok (mkAddress (if family =? FAMILY_IPV6 then IpV6 ip else IpV4 ip) port).

Definition XorMappedAddress_get_from_as (m : StunMessage) (t : Z) : stun_result Address :=
  v ← Message_get m t;
  if zlen v <=? 4 then Err ErrUnexpectedEof
  else
    family ← be_u16_at v 0;
    if negb (family =? FAMILY_IPV6) && negb (family =? FAMILY_IPV4) then Err (OtherBadFamily family)
    else
      _ ← check_overflow (zlen (drop 4 v)) (if family =? FAMILY_IPV4 then IPV4LEN else IPV6LEN);
      port ← be_u16_at v 2;
      let port := Z.lxor port (Z.shiftr MAGIC_COOKIE 16) in
      xor_value ← splice (zeros (4 + TRANSACTION_ID_SIZE)) 0 (put_u32 MAGIC_COOKIE);
      xor_value ← splice xor_value 4 (m_transaction_id m);
      Ok (mkAddress (if family =? FAMILY_IPV6 then IpV6 (xor_bytes (zeros IPV6LEN) (drop 4 v) xor_value).1
                     else IpV4 (xor_bytes (zeros IPV4LEN) (drop 4 v) xor_value).1) port).

Section setters.
Context `{OverflowChecks}.

Definition MappedAddress_add_to_as (a : Address) (t : Z) : msg unit :=
  let family := match a_ip a with IpV4 _ => FAMILY_IPV4 | IpV6 _ => FAMILY_IPV6 end in
  value ← lift (splice (zeros 4) 0 (put_u16 family));
  value ← lift (splice value 2 (put_u16 (a_port a)));
  add t (value ++ octets (a_ip a)).

Definition XorMappedAddress_add_to_as (a : Address) (t : Z) : msg unit :=
  let '(family, ip_len, ip) :=
    match a_ip a with IpV4 o => (FAMILY_IPV4, IPV4LEN, o) | IpV6 o => (FAMILY_IPV6, IPV6LEN, o) end in
  m ← gets id;
  let value := zeros (32 + 128) in
  let xor_value := zeros IPV6LEN in
  xor_value ← lift (splice xor_value 4 (m_transaction_id m));
  xor_value ← lift (splice xor_value 0 (put_u32 MAGIC_COOKIE));
  value ← lift (splice value 0 (put_u16 family));
  value ← lift (splice value 2 (put_u16 (Z.lxor (a_port a) (as_u16 (Z.shiftr MAGIC_COOKIE 16)))));
  dst ← lift (slice value 4 (4 + ip_len));
  value ← lift (splice value 4 (xor_bytes dst ip xor_value).1);
  v ← lift (slice value 0 (4 + ip_len));
  add t v.

(** * Text *)

Definition MAX_USERNAME_B : Z := 513.
Definition MAX_REALM_B : Z := 763.
Definition MAX_SOFTWARE_B : Z := 763.
Definition MAX_NONCE_B : Z := 763.

(** A [String] is its UTF-8 bytes. *)
Record TextAttribute := mkTextAttribute { ta_attr : Z; ta_text : bytes }.

Definition text_max_len (attr : Z) : option Z :=
  if attr =? ATTR_USERNAME then Some MAX_USERNAME_B
  else if attr =? ATTR_REALM then Some MAX_REALM_B
  else if attr =? ATTR_SOFTWARE then Some MAX_SOFTWARE_B
  else if attr =? ATTR_NONCE then Some MAX_NONCE_B
  else None.

Definition TextAttribute_add_to (a : TextAttribute) : msg unit :=
  match text_max_len (ta_attr a) with
  | None => throw (OtherUnsupportedAttrType (ta_attr a))
  | Some max_len =>
      _ ← lift (check_overflow (zlen (ta_text a)) max_len);
      add (ta_attr a) (ta_text a)
  end.

(** * Unknown attributes *)

Definition ATTR_TYPE_SIZE : Z := 2.
Definition UnknownAttributes_add_to (l : list Z) : msg unit :=
  add ATTR_UNKNOWN_ATTRIBUTES (concat (map put_u16 l)).

(** * Error codes *)

Definition ERROR_CODE_REASON_START : Z := 4.
Definition ERROR_CODE_REASON_MAX_B : Z := 763.
Definition ERROR_CODE_MODULO : Z := 100.
Record ErrorCodeAttribute := mkErrorCodeAttribute { ec_code : Z; ec_reason : bytes }.

Definition ErrorCodeAttribute_add_to (a : ErrorCodeAttribute) : msg unit :=
  _ ← lift (check_overflow (zlen (ec_reason a) + ERROR_CODE_REASON_START) (ERROR_CODE_REASON_MAX_B + ERROR_CODE_REASON_START));
  let number := (ec_code a mod ERROR_CODE_MODULO) mod 256 in
  let class := (ec_code a / ERROR_CODE_MODULO) mod 256 in
  add ATTR_ERROR_CODE ([0; 0] ++ [class] ++ [number] ++ ec_reason a).

Definition reason_bytes (s : string) : bytes := (fun a => Z.of_nat (Ascii.nat_of_ascii a)) <$> String.list_ascii_of_string s.
Definition ERROR_REASONS : list (Z * string) :=
  [(300, "Try Alternate"); (400, "Bad Request"); (401, "Unauthorized"); (420, "Unknown Attribute"); (438, "Stale Nonce");
   (500, "Server Error"); (487, "Role Conflict"); (403, "Forbidden"); (437, "Allocation Mismatch"); (441, "Wrong Credentials");
   (442, "Unsupported Transport Protocol"); (486, "Allocation Quota Reached"); (508, "Insufficient Capacity");
   (446, "Connection Already Exists"); (447, "Connection Timeout or Failure"); (440, "Address Family not Supported");
   (443, "Peer Address Family Mismatch")]%string.

Definition ErrorCode_add_to (code : Z) : msg unit :=
  match find (fun e => e.1 =? code) ERROR_REASONS with
  | Some (_, reason) => ErrorCodeAttribute_add_to (mkErrorCodeAttribute code (reason_bytes reason))
  | None => throw ErrNoDefaultReason
  end.

(** * Message integrity *)

Definition MESSAGE_INTEGRITY_SIZE : Z := 20.

(** [.map_err(crypto_error)?]. *)
Definition stun_crypto {A} (r : crypto_result A) : stun_result A :=
  match r with Ok x => Ok x | Err _ => Err StunCrypto | Panic => Panic | Diverge => Diverge end.

Definition MessageIntegrity_add_to (crypto : RTCCrypto) (key : bytes) : msg unit :=
  m ← gets id;
  if existsb (fun a => ra_typ a =? ATTR_FINGERPRINT) (m_attributes m) then throw ErrFingerprintBeforeIntegrity
  else
    let length := m_length m in
    _ ← grow_length (MESSAGE_INTEGRITY_SIZE + ATTRIBUTE_HEADER_SIZE);
    _ ← write_length;
    m ← gets id;
    let result := mac ← new_hmac crypto HmacSha1 key; sign mac [m_raw m] MESSAGE_INTEGRITY_SIZE in
    _ ← modify (fun m => m <| m_length := length |>);
    _ ← write_length;
    value ← lift (stun_crypto result);
    add ATTR_MESSAGE_INTEGRITY value.

(** The bytes of the attributes after the first MESSAGE-INTEGRITY. *)
Definition reduce (acc : bool * Z) (a : RawAttribute) : bool * Z :=
  let '(after_integrity, size_reduced) := acc in
  (after_integrity || (ra_typ a =? ATTR_MESSAGE_INTEGRITY),
   if after_integrity then size_reduced + nearest_padded_value_length (ra_length a) + ATTRIBUTE_HEADER_SIZE else size_reduced).
Definition size_reduced (l : list RawAttribute) : Z := (foldl reduce (false, 0) l).2.

(** The errors of the last [match]. *)
Definition integrity_result (r : crypto_result unit) : stun_result unit :=
  match r with
  | Ok _ => Ok tt
  | Err AuthenticationFailed | Err (InvalidTagLength _ _) => Err ErrIntegrityMismatch
  | Err _ => Err StunCrypto
  | Panic => Panic
  | Diverge => Diverge
  end.

Definition MessageIntegrity_check (crypto : RTCCrypto) (key : bytes) : msg unit :=
  m ← gets id;
  v ← lift (Message_get m ATTR_MESSAGE_INTEGRITY);
  let length := m_length m in
  l ← lift (sub_ovf overflow_checks U32 length (as_u32 (size_reduced (m_attributes m))));
  _ ← modify (fun m => m <| m_length := l |>);
  _ ← write_length;
  m ← gets id;
  start_of_hmac ← lift (sub_ovf overflow_checks USIZE (MESSAGE_HEADER_SIZE + m_length m) (ATTRIBUTE_HEADER_SIZE + MESSAGE_INTEGRITY_SIZE));
  b ← lift (slice (m_raw m) 0 start_of_hmac);
  let result := mac ← new_hmac crypto HmacSha1 key; verify_mac mac MESSAGE_INTEGRITY_SIZE [b] v in
  _ ← modify (fun m => m <| m_length := length |>);
  _ ← write_length;
  lift (integrity_result result).

(** [crypto.hash(HashAlgorithm::Md5, ..)] is the argument [md5]. *)
Definition long_term_integrity_key (md5 : bytes -> crypto_result bytes) (username realm password : bytes) : stun_result bytes :=
  let credentials := username ++ [58] ++ realm ++ [58] ++ password in
  key ← stun_crypto (md5 credentials);
  if negb (zlen key =? 16) then Err StunCrypto else Ok key.

(** * Fingerprint *)

Definition FINGERPRINT_XOR_VALUE : Z := 1398035790.
Definition FINGERPRINT_SIZE : Z := 4.

(** [crc_fast::checksum(CrcAlgorithm::Crc32IsoHdlc, b)] is the argument [crc]. *)
Definition fingerprint_value (crc : bytes -> Z) (b : bytes) : Z := Z.lxor (as_u32 (crc b)) FINGERPRINT_XOR_VALUE.

Definition Fingerprint_add_to (crc : bytes -> Z) : msg unit :=
  m ← gets id;
  let l := m_length m in
  _ ← grow_length (FINGERPRINT_SIZE + ATTRIBUTE_HEADER_SIZE);
  _ ← write_length;
  m ← gets id;
  let val := fingerprint_value crc (m_raw m) in
  _ ← modify (fun m => m <| m_length := l |>);
  add ATTR_FINGERPRINT (put_u32 val).

Definition Fingerprint_check (crc : bytes -> Z) (m : StunMessage) : stun_result unit :=
  b ← Message_get m ATTR_FINGERPRINT;
  _ ← check_size (zlen b) FINGERPRINT_SIZE;
  '(val, _) ← get_u32 b;
  attr_start ← sub_ovf overflow_checks USIZE (zlen (m_raw m)) (FINGERPRINT_SIZE + ATTRIBUTE_HEADER_SIZE);
  b ← slice (m_raw m) 0 attr_start;
  check_fingerprint val (fingerprint_value crc b).

(** * Setters *)

(** [dyn Setter]: what [build] can be given; a message sets its transaction id. *)
Inductive Setting :=
| SetType (t : StunMessageType)
| SetTransactionId (id : bytes)
| SetMessage (m : StunMessage)
| SetRaw (a : RawAttribute)
| SetMapped (a : Address)
| SetXorMapped (a : Address)
| SetText (a : TextAttribute)
| SetUnknown (l : list Z)
| SetErrorCodeAttribute (a : ErrorCodeAttribute)
| SetErrorCode (code : Z)
| SetIntegrity (key : bytes)
| SetFingerprint.

Context (crypto : RTCCrypto) (crc : bytes -> Z).

Definition add_to (s : Setting) : msg unit :=
  match s with
  | SetType t => set_type t
  | SetTransactionId id => set_transaction_id id
  | SetMessage m => set_transaction_id (m_transaction_id m)
  | SetRaw a => add (ra_typ a) (ra_value a)
  | SetMapped a => MappedAddress_add_to_as a ATTR_MAPPED_ADDRESS
  | SetXorMapped a => XorMappedAddress_add_to_as a ATTR_XORMAPPED_ADDRESS
  | SetText a => TextAttribute_add_to a
  | SetUnknown l => UnknownAttributes_add_to l
  | SetErrorCodeAttribute a => ErrorCodeAttribute_add_to a
  | SetErrorCode code => ErrorCode_add_to code
  | SetIntegrity key => MessageIntegrity_add_to crypto key
  | SetFingerprint => Fingerprint_add_to crc
  end.
Definition build_message (settings : list Setting) : msg unit := build (map add_to settings).
End setters.

(** * Getters *)

Definition TextAttribute_get_from_as (m : StunMessage) (attr : Z) : stun_result TextAttribute :=
  match text_max_len attr with
  | None => Err (OtherUnsupportedAttrType attr)
  | Some _ =>
      a ← Message_get m attr;
      if utf8_valid a then Ok (mkTextAttribute attr a) else Err StunUtf8
  end.

Fixpoint read_attr_types (fuel : nat) (v : bytes) (first : Z) : stun_result (list Z) :=
  match fuel with
  | O => Diverge
  | S fuel =>
      if first <? zlen v then
        t ← be_u16_at v first;
        l ← read_attr_types fuel v (first + ATTR_TYPE_SIZE);
        Ok (t :: l)
      else Ok []
  end.
Definition UnknownAttributes_get_from (m : StunMessage) : stun_result (list Z) :=
  v ← Message_get m ATTR_UNKNOWN_ATTRIBUTES;
  if negb (zlen v mod ATTR_TYPE_SIZE =? 0) then Err ErrBadUnknownAttrsSize
  else read_attr_types (S (length v)) v 0.

Definition ErrorCodeAttribute_get_from `{OverflowChecks} (m : StunMessage) : stun_result ErrorCodeAttribute :=
  v ← Message_get m ATTR_ERROR_CODE;
  if zlen v <? ERROR_CODE_REASON_START then Err ErrUnexpectedEof
  else
    class ← index v 2;
    number ← index v 3;
    c ← mul_ovf overflow_checks 65536 class ERROR_CODE_MODULO;
    code ← add_ovf overflow_checks 65536 c number;
    Ok (mkErrorCodeAttribute code (drop (Z.to_nat ERROR_CODE_REASON_START) v)).

(** * What a setter stores *)

Definition address_ok (a : Address) : Prop := ip_ok (a_ip a) /\ is_u16 (a_port a).
Definition family_of (ip : IpAddr) : Z := match ip with IpV4 _ => FAMILY_IPV4 | IpV6 _ => FAMILY_IPV6 end.
Definition mapped_value (a : Address) : bytes := put_u16 (family_of (a_ip a)) ++ put_u16 (a_port a) ++ octets (a_ip a).
(** Port and address are combined with the cookie and the transaction id. *)
Definition xor_mapped_value (a : Address) (id : bytes) : bytes :=
  put_u16 (family_of (a_ip a)) ++ put_u16 (Z.lxor (a_port a) 8466) ++
  zip_with Z.lxor (octets (a_ip a)) (put_u32 MAGIC_COOKIE ++ id).

(** A list of known length, element by element. *)
Ltac explode l H := unfold zlen in H; repeat (destruct l as [|? l]; cbn [length] in H; try lia).

Lemma MappedAddress_add_to_run `{OverflowChecks} a t m : ip_ok (a_ip a) ->
  MappedAddress_add_to_as a t m = add t (mapped_value a) m.
Proof. intros [_ Hl]. destruct a as [[o|o] p]; cbn in Hl; explode o Hl; reflexivity. Qed.

Lemma XorMappedAddress_add_to_run `{OverflowChecks} a t m : ip_ok (a_ip a) -> zlen (m_transaction_id m) = 12 ->
  XorMappedAddress_add_to_as a t m = add t (xor_mapped_value a (m_transaction_id m)) m.
Proof.
  intros [_ Hl] Hid. destruct m as [ty ln id at_ raw]. cbn [m_transaction_id] in *. explode id Hid.
  destruct a as [[o|o] p]; cbn in Hl; explode o Hl; reflexivity.
Qed.

Lemma zlen_mapped_value a : ip_ok (a_ip a) -> zlen (mapped_value a) = 4 + zlen (octets (a_ip a)).
Proof. intros _. unfold mapped_value. zlia. Qed.
Lemma zlen_xor_mapped_value a id : ip_ok (a_ip a) -> zlen id = 12 -> zlen (xor_mapped_value a id) = 4 + zlen (octets (a_ip a)).
Proof.
  intros [_ Hl] Hid. unfold xor_mapped_value. autorewrite with zlen. unfold zlen in *. rewrite length_zip_with, length_app.
  cbn [length put_u32]. destruct (a_ip a); cbn in *; lia.
Qed.

Lemma lxor_bound n a b : 0 < n -> 0 <= a < 2 ^ n -> 0 <= b < 2 ^ n -> 0 <= Z.lxor a b < 2 ^ n.
Proof.
  intros Hn Ha Hb. assert (0 <= Z.lxor a b) by (apply Z.lxor_nonneg; lia). split; [done|].
  destruct (Z.eq_dec (Z.lxor a b) 0) as [->|]; [lia|]. apply Z.log2_lt_pow2; [lia|].
  pose proof (Z.log2_lxor a b ltac:(lia) ltac:(lia)).
  assert (forall x, 0 <= x < 2 ^ n -> Z.log2 x < n) as Hlog.
  { intros x Hx. destruct (Z.eq_dec x 0) as [->|]; [done|]. apply Z.log2_lt_pow2; lia. }
  pose proof (Hlog a Ha). pose proof (Hlog b Hb). lia.
Qed.
Lemma lxor_lxor x y : Z.lxor (Z.lxor x y) y = x.
Proof. by rewrite Z.lxor_assoc, Z.lxor_nilpotent, Z.lxor_0_r. Qed.

Lemma bytes_ok_xor a b : bytes_ok a -> bytes_ok b -> bytes_ok (zip_with Z.lxor a b).
Proof.
  revert b. induction a as [|x a IH]; intros [|y b]; cbn; try (intros; constructor; fail).
  intros [Hx Ha]%Forall_cons [Hy Hb]%Forall_cons. constructor; [|by apply IH]. apply (lxor_bound 8); unfold is_u8 in *; lia.
Qed.

Lemma be_u16_at_app l1 x l2 i : is_u16 x -> i = zlen l1 -> be_u16_at (l1 ++ put_u16 x ++ l2) i = Ok x.
Proof.
  intros Hx ->. unfold be_u16_at, index. rewrite !(proj2 (Z.leb_le 0 _)), !(proj2 (Z.ltb_lt _ (zlen _))) by zlia. cbn [andb].
  unfold zlen. rewrite Nat2Z.id. replace (Z.to_nat (Z.of_nat (length l1) + 1)) with (length l1 + 1)%nat by lia.
  rewrite (app_nth2_plus l1), (app_nth2 l1), Nat.sub_diag by lia. cbn. f_equal. unfold is_u16 in Hx. mlia.
Qed.

Lemma be_u16_at_0 x l : is_u16 x -> be_u16_at (put_u16 x ++ l) 0 = Ok x.
Proof. intros. by apply (be_u16_at_app []). Qed.
Lemma be_u16_at_2 x y l : is_u16 y -> be_u16_at (put_u16 x ++ put_u16 y ++ l) 2 = Ok y.
Proof. intros. by apply (be_u16_at_app (put_u16 x)). Qed.
Lemma family_u16 ip : is_u16 (family_of ip).
Proof. by destruct ip. Qed.

(** Getting an address that is stored gives the address. *)
Lemma MappedAddress_get a m t : address_ok a -> Message_get m t = Ok (mapped_value a) -> MappedAddress_get_from_as m t = Ok a.
Proof.
  intros [[Hb Hl] Hp] Hg. unfold MappedAddress_get_from_as. rewrite Hg. cbn [mbind outcome_bind].
  pose proof (zlen_mapped_value a (conj Hb Hl)) as Hz. rewrite (proj2 (Z.leb_gt (zlen _) 4)) by (destruct (a_ip a); cbn in *; lia).
  unfold mapped_value. rewrite be_u16_at_0, be_u16_at_2 by (done || apply family_u16).
  destruct a as [[o|o] p]; cbn in Hl; cbn [family_of a_ip a_port octets mbind outcome_bind]; explode o Hl; reflexivity.
Qed.

Lemma xor_into_xor dst v mask : length dst = length v -> (length v <= length mask)%nat -> xor_into dst v mask = zip_with Z.lxor v mask.
Proof.
  revert v mask. induction dst as [|d dst IH]; intros [|x v] [|y mask]; cbn; intros H1 H2; try lia; [done..|].
  f_equal. apply IH; lia.
Qed.
Lemma xor_xor v mask : (length v <= length mask)%nat -> zip_with Z.lxor (zip_with Z.lxor v mask) mask = v.
Proof. revert mask. induction v as [|x v IH]; intros [|y mask]; cbn; intros; try lia; [done..|]. rewrite lxor_lxor, IH by lia. done. Qed.

Lemma mask_run id : zlen id = 12 -> splice (E:=StunError) (put_u32 MAGIC_COOKIE ++ zeros 12) 4 id = Ok (put_u32 MAGIC_COOKIE ++ id).
Proof. intros Hid. explode id Hid. reflexivity. Qed.

Lemma XorMappedAddress_get a m t : address_ok a -> zlen (m_transaction_id m) = 12 ->
  Message_get m t = Ok (xor_mapped_value a (m_transaction_id m)) -> XorMappedAddress_get_from_as m t = Ok a.
Proof.
  intros [[Hb Hl] Hp] Hid Hg. unfold XorMappedAddress_get_from_as. rewrite Hg. cbn [mbind outcome_bind].
  pose proof (zlen_xor_mapped_value a _ (conj Hb Hl) Hid) as Hz. rewrite (proj2 (Z.leb_gt (zlen _) 4)) by (destruct (a_ip a); cbn in *; lia).
  assert (is_u16 (Z.lxor (a_port a) 8466)) by (apply (lxor_bound 16); unfold is_u16 in Hp; lia).
  unfold xor_mapped_value in *. rewrite be_u16_at_0, be_u16_at_2 by (done || apply family_u16).
  set (mask := put_u32 MAGIC_COOKIE ++ m_transaction_id m) in *. set (x := zip_with Z.lxor (octets (a_ip a)) mask) in *.
  change (drop 4 (put_u16 (family_of (a_ip a)) ++ put_u16 (Z.lxor (a_port a) 8466) ++ x)) with x.
  autorewrite with zlen in Hz. assert (zlen x = zlen (octets (a_ip a))) as Hx by lia.
  assert (length mask = 16%nat) as Hm by (unfold mask; rewrite length_app; unfold zlen in Hid; cbn [length put_u32]; lia).
  assert (zip_with Z.lxor x mask = octets (a_ip a)) as Hxx. { apply xor_xor. rewrite Hm. unfold zlen in Hl. destruct (a_ip a); cbn in *; lia. }
  change (splice (zeros (4 + TRANSACTION_ID_SIZE)) 0 (put_u32 MAGIC_COOKIE)) with
    (Ok (E:=StunError) (put_u32 MAGIC_COOKIE ++ zeros 12)). cbn [mbind outcome_bind]. rewrite mask_run by done. fold mask.
  change (Z.shiftr MAGIC_COOKIE 16) with 8466. rewrite lxor_lxor. unfold check_overflow, xor_bytes, safe_xor_bytes. cbn [fst].
  clearbody x mask. unfold zlen in Hx, Hl. destruct a as [[o|o] p]; cbn [a_ip octets family_of a_port] in *;
    unfold FAMILY_IPV4, FAMILY_IPV6, IPV4LEN, IPV6LEN in *.
  - cbn [mbind outcome_bind Z.eqb Pos.eqb negb andb]. rewrite (proj2 (Z.leb_le (zlen x) _)) by (unfold zlen; lia).
    cbn [mbind outcome_bind]. rewrite xor_into_xor, Hxx; [done|change (length (zeros 4)) with 4%nat; lia|lia].
  - cbn [mbind outcome_bind Z.eqb Pos.eqb negb andb]. rewrite (proj2 (Z.leb_le (zlen x) _)) by (unfold zlen; lia).
    cbn [mbind outcome_bind]. rewrite xor_into_xor, Hxx; [done|change (length (zeros 16)) with 16%nat; lia|lia].
Qed.

Lemma TextAttribute_get a m : text_max_len (ta_attr a) <> None -> utf8_valid (ta_text a) = true ->
  Message_get m (ta_attr a) = Ok (ta_text a) -> TextAttribute_get_from_as m (ta_attr a) = Ok a.
Proof.
  intros Hm Hu Hg. unfold TextAttribute_get_from_as. destruct (text_max_len _); [|done]. rewrite Hg. cbn [mbind outcome_bind].
  rewrite Hu. by destruct a.
Qed.

Lemma zlen_types l : zlen (concat (map put_u16 l)) = 2 * zlen l.
Proof. induction l; cbn [map concat]; [done|]. autorewrite with zlen. lia. Qed.

Lemma read_attr_types_run l : Forall is_u16 l -> forall fuel pre, (length l < fuel)%nat ->
  read_attr_types fuel (pre ++ concat (map put_u16 l)) (zlen pre) = Ok l.
Proof.
  induction 1 as [|x l Hx Hl IH]; intros [|fuel] pre Hf; cbn [length] in Hf; try lia; cbn [read_attr_types map concat].
  - rewrite (proj2 (Z.ltb_ge _ _)) by zlia. done.
  - rewrite (proj2 (Z.ltb_lt (zlen pre) _)) by (pose proof (zlen_types l); zlia).
    rewrite be_u16_at_app by done. cbn [mbind outcome_bind].
    rewrite (assoc_L app pre). replace (zlen pre + ATTR_TYPE_SIZE) with (zlen (pre ++ put_u16 x)) by (unfold ATTR_TYPE_SIZE; zlia).
    rewrite IH by lia. done.
Qed.

Lemma UnknownAttributes_get l m : Forall is_u16 l -> Message_get m ATTR_UNKNOWN_ATTRIBUTES = Ok (concat (map put_u16 l)) ->
  UnknownAttributes_get_from m = Ok l.
Proof.
  intros Hl Hg. unfold UnknownAttributes_get_from. rewrite Hg. cbn [mbind outcome_bind]. rewrite zlen_types. unfold ATTR_TYPE_SIZE.
  replace (2 * zlen l mod 2) with 0 by mlia. cbn [Z.eqb negb]. apply (read_attr_types_run l Hl _ []).
  pose proof (zlen_types l). unfold zlen in *. lia.
Qed.

Definition error_code_value (a : ErrorCodeAttribute) : bytes :=
  [0; 0; (ec_code a / 100) mod 256; (ec_code a mod 100) mod 256] ++ ec_reason a.
Lemma ErrorCodeAttribute_get `{OverflowChecks} a m : 0 <= ec_code a < 25600 -> Message_get m ATTR_ERROR_CODE = Ok (error_code_value a) ->
  ErrorCodeAttribute_get_from m = Ok a.
Proof.
  intros Hc Hg. unfold ErrorCodeAttribute_get_from. rewrite Hg. cbn [mbind outcome_bind]. unfold error_code_value, ERROR_CODE_REASON_START.
  rewrite (proj2 (Z.ltb_ge (zlen _) 4)) by zlia.
  assert (forall x y, index (E:=StunError) ([0; 0; x; y] ++ ec_reason a) 2 = Ok x /\ index (E:=StunError) ([0; 0; x; y] ++ ec_reason a) 3 = Ok y) as Hi.
  { intros. unfold index. rewrite !(proj2 (Z.ltb_lt _ (zlen _))) by zlia. done. }
  rewrite (proj1 (Hi _ _)), (proj2 (Hi _ _)). cbn [mbind outcome_bind].
  unfold mul_ovf, add_ovf, ERROR_CODE_MODULO. rewrite (proj2 (Z.ltb_lt (_ * 100) 65536)) by mlia. cbn [mbind outcome_bind].
  rewrite (proj2 (Z.ltb_lt (_ + _) 65536)) by mlia. cbn [mbind outcome_bind]. destruct a as [c r]. cbn [ec_code ec_reason] in *.
  do 2 f_equal. mlia.
Qed.

(** * What [build] makes *)

Section building.
Context `{OverflowChecks} (crypto : RTCCrypto) (crc : bytes -> Z).

Definition text_value (a : TextAttribute) : stun_result bytes :=
  match text_max_len (ta_attr a) with
  | None => Err (OtherUnsupportedAttrType (ta_attr a))
  | Some max_len => if zlen (ta_text a) <=? max_len then Ok (ta_text a) else Err ErrAttributeSizeOverflow
  end.
Definition error_value (a : ErrorCodeAttribute) : stun_result bytes :=
  if zlen (ec_reason a) <=? 763 then Ok (error_code_value a) else Err ErrAttributeSizeOverflow.

(** The bytes of the message when [n] more bytes of attributes are announced. *)
Definition announcing (n : Z) (m : StunMessage) : bytes := header_bytes (m <| m_length ::= fun l => l + n |>) ++ body_bytes (m_attributes m).

(** The attribute a setter adds to the message. *)
Definition setting_attribute (s : Setting) (m : StunMessage) : stun_result (Z * bytes) :=
  match s with
  | SetType _ | SetTransactionId _ | SetMessage _ => Panic
  | SetRaw a => Ok (ra_typ a, ra_value a)
  | SetMapped a => Ok (ATTR_MAPPED_ADDRESS, mapped_value a)
  | SetXorMapped a => Ok (ATTR_XORMAPPED_ADDRESS, xor_mapped_value a (m_transaction_id m))
  | SetText a => v ← text_value a; Ok (ta_attr a, v)
  | SetUnknown l => Ok (ATTR_UNKNOWN_ATTRIBUTES, concat (map put_u16 l))
  | SetErrorCodeAttribute a => v ← error_value a; Ok (ATTR_ERROR_CODE, v)
  | SetErrorCode code =>
      match find (fun e => e.1 =? code) ERROR_REASONS with
      | Some (_, reason) => v ← error_value (mkErrorCodeAttribute code (reason_bytes reason)); Ok (ATTR_ERROR_CODE, v)
      | None => Err ErrNoDefaultReason
      end
  | SetIntegrity key =>
      if existsb (fun a => ra_typ a =? ATTR_FINGERPRINT) (m_attributes m) then Err ErrFingerprintBeforeIntegrity
      else v ← stun_crypto (mac ← new_hmac crypto HmacSha1 key; sign mac [announcing 24 m] 20); Ok (ATTR_MESSAGE_INTEGRITY, v)
  | SetFingerprint => Ok (ATTR_FINGERPRINT, put_u32 (fingerprint_value crc (announcing 8 m)))
  end.

(** The message after a setter. *)
Definition apply_setting (s : Setting) (m : StunMessage) : stun_result StunMessage :=
  match s with
  | SetType t => Ok (refresh (m <| m_typ := t |>))
  | SetTransactionId id => Ok (refresh (m <| m_transaction_id := id |>))
  | SetMessage m0 => Ok (refresh (m <| m_transaction_id := m_transaction_id m0 |>))
  | _ => '(t, v) ← setting_attribute s m; Ok (attach (attribute t v) m)
  end.
Fixpoint apply_settings (l : list Setting) (m : StunMessage) : stun_result StunMessage :=
  match l with [] => Ok m | s :: l => m' ← apply_setting s m; apply_settings l m' end.

Definition setting_ok (s : Setting) : Prop :=
  match s with
  | SetType t => type_ok t
  | SetTransactionId id => zlen id = 12 /\ bytes_ok id
  | SetMessage m => zlen (m_transaction_id m) = 12 /\ bytes_ok (m_transaction_id m)
  | SetRaw a => is_u16 (ra_typ a) /\ bytes_ok (ra_value a)
  | SetMapped a | SetXorMapped a => address_ok a
  | SetText a => bytes_ok (ta_text a)
  | SetUnknown l => Forall is_u16 l
  | SetErrorCodeAttribute a => bytes_ok (ec_reason a)
  | SetErrorCode _ | SetIntegrity _ | SetFingerprint => True
  end.

Definition value_size (n : Z) : Z := 4 + nearest_padded_value_length n.
(** The bytes a setter adds. *)
Definition setting_size (s : Setting) : Z :=
  match s with
  | SetType _ | SetTransactionId _ | SetMessage _ => 0
  | SetRaw a => value_size (zlen (ra_value a))
  | SetMapped a | SetXorMapped a => value_size (4 + zlen (octets (a_ip a)))
  | SetText a => value_size (zlen (ta_text a))
  | SetUnknown l => value_size (2 * zlen l)
  | SetErrorCodeAttribute a => value_size (4 + zlen (ec_reason a))
  | SetErrorCode code =>
      match find (fun e => e.1 =? code) ERROR_REASONS with Some (_, reason) => value_size (4 + zlen (reason_bytes reason)) | None => 0 end
  | SetIntegrity _ => 24
  | SetFingerprint => 8
  end.

Lemma value_size_pos n : 0 <= n -> 4 <= value_size n.
Proof using Type. intros. unfold value_size. rewrite nearest_padding. destruct (padding_spec n); lia. Qed.
Lemma setting_size_pos s : 0 <= setting_size s.
Proof using Type.
  destruct s; cbn [setting_size]; try lia; try (match goal with |- 0 <= value_size ?n => pose proof (value_size_pos n ltac:(zlia)); lia end).
  case_match; [|done]. case_match. match goal with |- 0 <= value_size ?n => pose proof (value_size_pos n ltac:(zlia)); lia end.
Qed.

Lemma zlen_announced n m : Encoded m -> write_length (m <| m_length := m_length m + n |>) =
  (Ok tt, m <| m_length := m_length m + n |> <| m_raw := announcing n m |>).
Proof using Type.
  intros E. erewrite write_length_run; [|cbn; by rewrite (Encoded_split _ E)|done..]. rewrite put_as_u16.
  unfold announcing, header_bytes. cbn -[put_u16 put_u32]. by rewrite <- !app_assoc.
Qed.
Lemma restored_length n m : Encoded m ->
  write_length (m <| m_raw := announcing n m |>) = (Ok tt, m).
Proof using Type.
  intros E. erewrite (write_length_run _ (put_u16 (MessageType_value (m_typ m))) (put_u16 (m_length m + n)) ((put_u32 MAGIC_COOKIE ++ m_transaction_id m) ++ body_bytes (m_attributes m)));
    [|unfold announcing, header_bytes; cbn -[put_u16 put_u32]; by rewrite <- !app_assoc|done..].
  rewrite put_as_u16. pose proof (Encoded_split _ E) as Hs. destruct m. cbn -[put_u16 put_u32] in *. rewrite Hs. done.
Qed.

Lemma add_announced n t v m : Encoded m -> m_length m + zlen (attr_bytes (attribute t v)) < 65536 ->
  add t v (m <| m_raw := announcing n m |>) = (Ok tt, attach (attribute t v) m).
Proof using Type.
  intros E Hl. erewrite (add_run _ t v (put_u16 (MessageType_value (m_typ m))) (put_u16 (m_length m + n)) (put_u32 MAGIC_COOKIE ++ m_transaction_id m) (body_bytes (m_attributes m)));
    [|unfold announcing, header_bytes; cbn -[put_u16 put_u32]; by rewrite <- !app_assoc|done|done|rewrite zlen_app, zlen_put_u32; destruct (enc_id _ E); lia|apply E|done].
  unfold attach, refresh, wire, header_bytes. cbn -[put_u16 put_u32 body_bytes attr_bytes]. rewrite body_bytes_app, body_bytes_one, <- !app_assoc. done.
Qed.

Context `{HmacLaws crypto}.

Lemma signed_ok key l : exists v, (mac ← new_hmac crypto HmacSha1 key; sign mac l 20) = Ok v /\ zlen v = 20 /\ bytes_ok v.
Proof using All. destruct (hmac_ok key) as (mac & -> & Hm). cbn [mbind outcome_bind]. apply sign_total. Qed.

Lemma error_value_ok a v : error_value a = Ok v -> bytes_ok (ec_reason a) -> bytes_ok v /\ zlen v = 4 + zlen (ec_reason a).
Proof using Type.
  unfold error_value. case_match; [|done]. intros [= <-] Hb. split; [|unfold error_code_value; zlia]. unfold error_code_value.
  apply bytes_ok_app. split; [|done]. repeat constructor; unfold is_u8; mlia.
Qed.
Lemma reason_bytes_ok s : bytes_ok (reason_bytes s).
Proof using Type.
  unfold reason_bytes, bytes_ok. apply Forall_fmap, Forall_forall. intros a _. cbn. pose proof (Ascii.nat_ascii_bounded a). unfold is_u8. lia.
Qed.

Lemma setting_attribute_ok s m t v : setting_attribute s m = Ok (t, v) -> setting_ok s ->
  zlen (m_transaction_id m) = 12 /\ bytes_ok (m_transaction_id m) ->
  is_u16 t /\ bytes_ok v /\ zlen (attr_bytes (attribute t v)) = setting_size s.
Proof using All.
  intros Hs Hok [Hid Hidb]. rewrite zlen_attr_bytes. cbn [attribute ra_value]. fold (value_size (zlen v)).
  destruct s; cbn [setting_attribute setting_ok setting_size] in *; try done.
  - injection Hs as <- <-. by destruct Hok.
  - injection Hs as <- <-. destruct Hok as [Hip Hp]. rewrite zlen_mapped_value by done. split_and!; [done| |done].
    unfold mapped_value. rewrite !bytes_ok_app. split_and!; try apply bytes_ok_put_u16. apply Hip.
  - injection Hs as <- <-. destruct Hok as [Hip Hp]. rewrite zlen_xor_mapped_value by done. split_and!; [done| |done].
    unfold xor_mapped_value. rewrite !bytes_ok_app. split_and!; try apply bytes_ok_put_u16.
    apply bytes_ok_xor; [apply Hip|]. apply bytes_ok_app. split; [apply bytes_ok_put_u32|done].
  - unfold text_value in Hs. destruct (text_max_len (ta_attr a)) eqn:E; [|done]. destruct (zlen (ta_text a) <=? z); [|done].
    injection Hs as <- <-. split_and!; [|done|done]. unfold text_max_len in E.
    repeat (case_match; [match goal with X : (_ =? _) = true |- _ => apply Z.eqb_eq in X as -> end; done|]). done.
  - injection Hs as <- <-. rewrite zlen_types. split_and!; [done| |done]. apply bytes_ok_concat_map. intros. apply bytes_ok_put_u16.
  - destruct (error_value a) as [w| | |] eqn:E; [|done..]. injection Hs as <- <-. destruct (error_value_ok _ _ E) as [? ->]; done.
  - destruct (find _ _) as [[c r]|]; [|done]. destruct (error_value _) as [w| | |] eqn:E; [|done..]. injection Hs as <- <-.
    destruct (error_value_ok _ _ E (reason_bytes_ok r)) as [? ->]. done.
  - case_match; [done|]. destruct (signed_ok key [announcing 24 m]) as (w & Hw & Hl & Hb). rewrite Hw in Hs. injection Hs as <- <-.
    by rewrite Hl.
  - injection Hs as <- <-. split_and!; [done|apply bytes_ok_put_u32|done].
Qed.

(** The setters that check a length before they add. *)
Lemma TextAttribute_add_to_run a m :
  TextAttribute_add_to a m = match text_value a with Ok v => add (ta_attr a) v m | r => (_ ← r; Ok tt, m) end.
Proof using Type.
  unfold TextAttribute_add_to, text_value, check_overflow. destruct (text_max_len (ta_attr a)); [|done].
  by destruct (zlen (ta_text a) <=? z).
Qed.
Lemma ErrorCodeAttribute_add_to_run a m :
  ErrorCodeAttribute_add_to a m = match error_value a with Ok v => add ATTR_ERROR_CODE v m | r => (_ ← r; Ok tt, m) end.
Proof using Type.
  unfold ErrorCodeAttribute_add_to, error_value, check_overflow, ERROR_CODE_REASON_START, ERROR_CODE_REASON_MAX_B.
  destruct (Z.leb_spec (zlen (ec_reason a)) 763).
  - rewrite (proj2 (Z.leb_le (zlen (ec_reason a) + 4) _)) by lia. done.
  - rewrite (proj2 (Z.leb_gt (zlen (ec_reason a) + 4) _)) by lia. done.
Qed.

Lemma MessageIntegrity_add_to_run key m : Encoded m -> m_length m + 24 < 65536 ->
  MessageIntegrity_add_to crypto key m =
    match setting_attribute (SetIntegrity key) m with Ok (t, v) => add t v m | r => (_ ← r; Ok tt, m) end.
Proof using Type.
  intros E Hl. cbn [setting_attribute]. unfold MessageIntegrity_add_to. stm_step. case_match; [done|].
  pose proof (zlen_nonneg (body_bytes (m_attributes m))). rewrite <- (enc_length _ E) in *.
  erewrite bind_run; [|apply grow_length_run; unfold MESSAGE_INTEGRITY_SIZE, ATTRIBUTE_HEADER_SIZE, U32; lia].
  erewrite bind_run; [|by apply zlen_announced]. stm_step. stm_step.
  change (MESSAGE_INTEGRITY_SIZE + ATTRIBUTE_HEADER_SIZE) with 24.
  replace (m <| m_length := m_length m + 24 |> <| m_raw := announcing 24 m |> <| m_length := m_length m |>)
    with (m <| m_raw := announcing 24 m |>) by (by destruct m).
  erewrite bind_run; [|by apply restored_length]. cbn [m_raw over].
  change (m_raw (m <| m_length := m_length m + 24 |> <| m_raw := announcing 24 m |>)) with (announcing 24 m).
  unfold MESSAGE_INTEGRITY_SIZE. by destruct (stun_crypto _).
Qed.

Lemma Fingerprint_add_to_run m : Encoded m -> m_length m + 8 < 65536 ->
  Fingerprint_add_to crc m = (Ok tt, attach (attribute ATTR_FINGERPRINT (put_u32 (fingerprint_value crc (announcing 8 m)))) m).
Proof using Type.
  intros E Hl. unfold Fingerprint_add_to. stm_step.
  pose proof (zlen_nonneg (body_bytes (m_attributes m))). rewrite <- (enc_length _ E) in *.
  erewrite bind_run; [|apply grow_length_run; unfold FINGERPRINT_SIZE, ATTRIBUTE_HEADER_SIZE, U32; lia].
  erewrite bind_run; [|by apply zlen_announced]. stm_step. stm_step.
  change (FINGERPRINT_SIZE + ATTRIBUTE_HEADER_SIZE) with 8.
  replace (m <| m_length := m_length m + 8 |> <| m_raw := announcing 8 m |> <| m_length := m_length m |>)
    with (m <| m_raw := announcing 8 m |>) by (by destruct m).
  by apply add_announced.
Qed.

(** What [add_to] does to an encoded message: exactly what the specification says; when
    it fails the message is as before. *)
Lemma add_to_run s m : Encoded m -> setting_ok s -> m_length m + setting_size s < 65536 ->
  match apply_setting s m with
  | Ok m' => add_to crypto crc s m = (Ok tt, m') /\ Encoded m' /\ m_length m' = m_length m + setting_size s
  | r => add_to crypto crc s m = (_ ← r; Ok tt, m)
  end.
Proof using All.
  intros E Hok Hl.
  assert (forall t v, setting_attribute s m = Ok (t, v) ->
    add t v m = (Ok tt, attach (attribute t v) m) /\ Encoded (attach (attribute t v) m) /\
    m_length (attach (attribute t v) m) = m_length m + setting_size s) as Hadd.
  { intros t v Hs. destruct (setting_attribute_ok _ _ _ _ Hs Hok (enc_id _ E)) as (Ht & Hv & Hz).
    rewrite <- Hz in Hl. split_and!; [by apply add_Encoded|by apply Encoded_attach|]. cbn -[attr_bytes]. by rewrite Hz. }
  destruct s; cbn [apply_setting add_to setting_attribute setting_ok setting_size] in *.
  - destruct (set_type_run t m E Hok) as [-> ?]. split_and!; [done..|cbn; lia].
  - destruct (set_transaction_id_run id m E) as [-> ?]; [apply Hok..|]. split_and!; [done..|cbn; lia].
  - destruct (set_transaction_id_run (m_transaction_id m0) m E) as [-> ?]; [apply Hok..|]. split_and!; [done..|cbn; lia].
  - by apply Hadd.
  - rewrite MappedAddress_add_to_run by apply Hok. by apply Hadd.
  - rewrite XorMappedAddress_add_to_run; [|apply Hok|apply E]. by apply Hadd.
  - rewrite TextAttribute_add_to_run. destruct (text_value a); cbn in *; [by apply Hadd|done..].
  - by apply Hadd.
  - rewrite ErrorCodeAttribute_add_to_run. destruct (error_value a); cbn in *; [by apply Hadd|done..].
  - unfold ErrorCode_add_to. destruct (find _ _) as [[c r]|]; [|done]. rewrite ErrorCodeAttribute_add_to_run.
    destruct (error_value _); cbn in *; [by apply Hadd|done..].
  - rewrite MessageIntegrity_add_to_run by done. cbn [setting_attribute]. case_match; [done|].
    destruct (stun_crypto _); cbn in *; [by apply Hadd|done..].
  - rewrite Fingerprint_add_to_run by done. cbn [mbind outcome_bind]. split; [done|]. by apply Hadd.
Qed.

(** [build] from any message makes what the specification makes from the empty one. *)
Lemma for_each_settings l : forall m, Encoded m -> Forall setting_ok l -> m_length m + zsum setting_size l < 65536 ->
  match apply_settings l m with
  | Ok m' => for_each id (map (add_to crypto crc) l) m = (Ok tt, m') /\ Encoded m' /\ m_length m' = m_length m + zsum setting_size l
  | r => (for_each id (map (add_to crypto crc) l) m).1 = (_ ← r; Ok tt)
  end.
Proof using All.
  induction l as [|s l IH]; intros m E Hok Hl; [split_and!; [done..|cbn; lia]|].
  apply Forall_cons in Hok as [Hs Hok]. rewrite zsum_cons in *.
  assert (0 <= zsum setting_size l) by (apply zsum_nonneg; intros; apply setting_size_pos).
  pose proof (add_to_run s m E Hs ltac:(lia)) as Hrun. cbn [apply_settings map for_each]. change (id (add_to crypto crc s)) with (add_to crypto crc s).
  destruct (apply_setting s m) as [m1| | |]; cbn [mbind outcome_bind] in *.
  - destruct Hrun as (Hrun & E1 & Hl1). rewrite (bind_run _ _ _ _ _ Hrun).
    specialize (IH m1 E1 Hok ltac:(lia)). destruct (apply_settings l m1); try done.
    destruct IH as (? & ? & ?). split_and!; [done..|lia].
  - unfold mbind, stm_bind. by rewrite Hrun.
  - unfold mbind, stm_bind. by rewrite Hrun.
  - unfold mbind, stm_bind. by rewrite Hrun.
Qed.

Lemma build_run l m0 : type_ok (m_typ m0) -> zlen (m_transaction_id m0) = 12 /\ bytes_ok (m_transaction_id m0) ->
  Forall setting_ok l -> zsum setting_size l < 65536 ->
  match apply_settings l (refresh (reset m0)) with
  | Ok m => build_message crypto crc l m0 = (Ok tt, m) /\ Encoded m /\ m_length m = zsum setting_size l
  | r => (build_message crypto crc l m0).1 = (_ ← r; Ok tt)
  end.
Proof using All.
  intros Ht Hid Hok Hl. destruct (Encoded_reset m0 Ht Hid) as [Hw E]. unfold build_message, build. stm_step.
  rewrite (bind_run _ _ _ _ _ Hw). apply (for_each_settings l _ E Hok). cbn. done.
Qed.
End building.

(** * What the integrity check covers *)

Definition attr_wire_size (a : RawAttribute) : Z := value_size (ra_length a).

Lemma attributes_wire_size l b : attributes_wire l b -> zlen b = zsum attr_wire_size l.
Proof.
  induction 1 as [|t v pad l rest Ht Hv Hl Hp Hw IH]; [done|]. rewrite zsum_cons, <- IH. unfold attr_wire_size, value_size. cbn [ra_length].
  rewrite nearest_padding. autorewrite with zlen. lia.
Qed.
Lemma attributes_wire_app_inv l1 l2 : forall b, attributes_wire (l1 ++ l2) b ->
  exists b1 b2, b = b1 ++ b2 /\ attributes_wire l1 b1 /\ attributes_wire l2 b2.
Proof.
  induction l1 as [|a l1 IH]; cbn; intros b Hw; [by exists [], b; split_and!; [|constructor|]|].
  inversion Hw as [|t v pad l rest Ht Hv Hl Hp Hr]; subst. destruct (IH _ Hr) as (b1 & b2 & -> & H1 & H2).
  eexists (put_u16 t ++ put_u16 (zlen v) ++ v ++ pad ++ b1), b2. split_and!; [by rewrite <- !app_assoc|by constructor|done].
Qed.
Lemma attributes_wire_app l1 l2 b1 b2 : attributes_wire l1 b1 -> attributes_wire l2 b2 -> attributes_wire (l1 ++ l2) (b1 ++ b2).
Proof. induction 1; intros; [done|]. cbn [app]. rewrite <- !app_assoc. constructor; auto. Qed.

Lemma Attributes_get_first l1 a l2 t : Forall (fun a => ra_typ a <> t) l1 -> ra_typ a = t -> Attributes_get (l1 ++ a :: l2) t = (a, true).
Proof.
  induction 1 as [|b l1 Hb _ IH]; intros Ht; cbn; [by rewrite Ht, Z.eqb_refl|]. rewrite (proj2 (Z.eqb_neq _ _) Hb). auto.
Qed.
Lemma Attributes_get_split l t : (exists a l1 l2, l = l1 ++ a :: l2 /\ Forall (fun a => ra_typ a <> t) l1 /\ ra_typ a = t) \/
  (Forall (fun a => ra_typ a <> t) l /\ (Attributes_get l t).2 = false).
Proof.
  induction l as [|b l IH]; [by right|]. destruct (Z.eq_dec (ra_typ b) t) as [E|E]; [left; by exists b, [], l|].
  destruct IH as [(a & l1 & l2 & -> & Hf & Ha)|[Hf Hg]].
  - left. exists a, (b :: l1), l2. split_and!; [done|by constructor|done].
  - right. split; [by constructor|]. cbn. by rewrite (proj2 (Z.eqb_neq _ _) E).
Qed.

Lemma size_reduced_split l1 a l2 : Forall (fun a => ra_typ a <> ATTR_MESSAGE_INTEGRITY) l1 -> ra_typ a = ATTR_MESSAGE_INTEGRITY ->
  size_reduced (l1 ++ a :: l2) = zsum attr_wire_size l2.
Proof.
  intros Hf Ha. unfold size_reduced. rewrite foldl_app.
  assert (foldl reduce (false, 0) l1 = (false, 0)) as ->.
  { induction Hf as [|b l1 Hb _ IH]; [done|]. cbn [foldl reduce]. by rewrite (proj2 (Z.eqb_neq _ _) Hb). }
  cbn [foldl reduce]. rewrite Ha, Z.eqb_refl. cbn [orb].
  assert (forall n, (foldl reduce (true, n) l2).2 = n + zsum attr_wire_size l2) as Hgen; [|by rewrite Hgen].
  induction l2 as [|b l2 IH]; intros n; cbn [foldl]; [cbn; lia|]. cbn [reduce orb]. rewrite IH, zsum_cons.
  unfold attr_wire_size, value_size, ATTRIBUTE_HEADER_SIZE. lia.
Qed.

(** The text of RFC 5389, section 15.4: the message up to the attribute, its header
    announcing the attributes up to and including it. *)
Definition integrity_text (t : Z) (id before : bytes) (n : Z) : bytes :=
  put_u16 t ++ put_u16 n ++ put_u32 MAGIC_COOKIE ++ id ++ before.
Definition hmac_sha1 (crypto : RTCCrypto) (key text : bytes) : crypto_result bytes :=
  mac ← new_hmac crypto HmacSha1 key; sign mac [text] 20.
Definition verdict (r : crypto_result bytes) (v : bytes) : stun_result unit :=
  match r with Ok tag => if bool_decide (tag = v) then Ok tt else Err ErrIntegrityMismatch | _ => Err ErrIntegrityMismatch end.

Section integrity.
Context `{OverflowChecks} (crypto : RTCCrypto) `{HmacLaws crypto}.

Lemma integrity_result_verdict key text v :
  integrity_result (mac ← new_hmac crypto HmacSha1 key; verify_mac mac 20 [text] v) = verdict (hmac_sha1 crypto key text) v.
Proof using All.
  unfold hmac_sha1. destruct (hmac_ok key) as (mac & -> & Hm). cbn [mbind outcome_bind].
  destruct (sign_total (m:=mac) [text]) as (t & Ht & _). destruct (verify_mac_spec mac [text] v Hm) as [[-> ->]|[Hn Hv]].
  - cbn. by rewrite bool_decide_true.
  - rewrite Ht in *. cbn. rewrite bool_decide_false by congruence. by destruct Hv as [-> | ->].
Qed.

Lemma verdict_length key text v : zlen v <> 20 -> verdict (hmac_sha1 crypto key text) v = Err ErrIntegrityMismatch.
Proof using All.
  intros Hv. unfold hmac_sha1. destruct (hmac_ok key) as (mac & -> & Hm). cbn [mbind outcome_bind].
  destruct (sign_total (m:=mac) [text]) as (t & Ht & Hl & _). rewrite Ht. cbn. rewrite bool_decide_false; [done|]. intros ->. done.
Qed.

(** The check of a message as decoded, its body split at the first MESSAGE-INTEGRITY: it
    compares the attribute with the HMAC of the text before it, and leaves the message
    as it was. *)
Lemma MessageIntegrity_check_run key t id l1 a l2 b1 b2 rest m :
  m_raw m = put_u16 t ++ put_u16 (zlen (b1 ++ b2)) ++ put_u32 MAGIC_COOKIE ++ id ++ (b1 ++ b2) ++ rest ->
  m_length m = zlen (b1 ++ b2) -> m_attributes m = l1 ++ a :: l2 ->
  zlen id = 12 -> attributes_wire l1 b1 -> attributes_wire (a :: l2) b2 -> zlen (b1 ++ b2) < 65536 ->
  Forall (fun a => ra_typ a <> ATTR_MESSAGE_INTEGRITY) l1 -> ra_typ a = ATTR_MESSAGE_INTEGRITY ->
  MessageIntegrity_check crypto key m = (verdict (hmac_sha1 crypto key (integrity_text t id b1 (zlen b1 + attr_wire_size a))) (ra_value a), m).
Proof using All.
  intros Hraw Hml Hma Hid Hw1 Hw2 Hlen Hf Ha. unfold MessageIntegrity_check. stm_step.
  unfold Message_get. rewrite Hma, Attributes_get_first by done.
  erewrite bind_lift by done. rewrite size_reduced_split by done.
  pose proof (attributes_wire_size _ _ Hw1) as Hz1. pose proof (attributes_wire_size _ _ Hw2) as Hz2. rewrite zsum_cons in Hz2.
  assert (0 <= zsum attr_wire_size l2) as Hp2.
  { inversion Hw2 as [|? ? ? ? ? ? ? ? ? Hwr]; subst. rewrite <- (attributes_wire_size _ _ Hwr). apply zlen_nonneg. }
  pose proof (zlen_nonneg b1). pose proof (zlen_nonneg rest). rewrite zlen_app in *. set (n := zlen b1 + attr_wire_size a).
  assert (4 <= attr_wire_size a).
  { inversion Hw2; subst. unfold attr_wire_size. cbn [ra_length]. apply value_size_pos, zlen_nonneg. }
  rewrite as_u32_id by (unfold is_u32; lia).
  erewrite bind_lift by (apply sub_ovf_Ok; lia). stm_step. replace (m_length m - zsum attr_wire_size l2) with n by lia.
  set (tail := (put_u32 MAGIC_COOKIE ++ id) ++ (b1 ++ b2) ++ rest).
  erewrite bind_run; [|apply (write_length_run _ (put_u16 t) (put_u16 (zlen b1 + zlen b2)) tail); [|done..]; cbn -[put_u16 put_u32]; rewrite Hraw; unfold tail; by rewrite <- !app_assoc].
  cbn [m_length over]. stm_step. cbn [m_length m_raw over]. unfold MESSAGE_HEADER_SIZE, ATTRIBUTE_HEADER_SIZE, MESSAGE_INTEGRITY_SIZE.
  erewrite bind_lift by (apply sub_ovf_Ok; cbn; lia).
  set (start := 20 + n - (4 + 20)). set (raw' := put_u16 t ++ put_u16 (as_u16 n) ++ tail).
  assert (zlen raw' = 20 + zlen b1 + zlen b2 + zlen rest) as Hz by (unfold raw', tail; zlia).
  rewrite (bind_lift _ _ _ (take (Z.to_nat start) raw')) by (rewrite slice_Ok by lia; by rewrite Z.sub_0_r). stm_step.
  erewrite bind_run; [|by apply (write_length_run _ (put_u16 t) (put_u16 (as_u16 n)) tail)].
  change (m_length (m <| m_length := n |> <| m_raw := raw' |> <| m_length := m_length m |>)) with (m_length m).
  rewrite put_as_u16, Hml. replace (put_u16 t ++ put_u16 (zlen b1 + zlen b2) ++ tail) with (m_raw m)
    by (rewrite Hraw; unfold tail; by rewrite <- !app_assoc).
  replace (m <| m_length := n |> <| m_raw := raw' |> <| m_length := zlen b1 + zlen b2 |> <| m_raw := m_raw m |>) with m
    by (destruct m; cbn in *; by rewrite Hml).
  unfold lift. f_equal. rewrite integrity_result_verdict.
  assert (ra_length a = zlen (ra_value a)) as Hla by (by inversion Hw2; subst).
  destruct (Z.eq_dec (zlen (ra_value a)) 20) as [E|E]; [|by rewrite !verdict_length]. do 2 f_equal.
  assert (attr_wire_size a = 24) as Hws by (unfold attr_wire_size; by rewrite Hla, E).
  unfold raw', tail, integrity_text. rewrite put_as_u16.
  replace (put_u16 t ++ put_u16 n ++ (put_u32 MAGIC_COOKIE ++ id) ++ (b1 ++ b2) ++ rest)
    with ((put_u16 t ++ put_u16 n ++ put_u32 MAGIC_COOKIE ++ id ++ b1) ++ b2 ++ rest) by (by rewrite <- !app_assoc).
  apply take_front. unfold start, n. zlia.
Qed.
End integrity.

(** * A protected message at its receiver *)

Section protected.
Context `{OverflowChecks} (crypto : RTCCrypto) (crc : bytes -> Z) `{HmacLaws crypto}.

Definition protection (t : Z) : Prop := t = ATTR_MESSAGE_INTEGRITY \/ t = ATTR_FINGERPRINT.
(** Setters of other attributes than the two that protect the message. *)
Definition unprotected (s : Setting) : Prop :=
  match s with SetIntegrity _ | SetFingerprint => False | SetRaw a => ~ protection (ra_typ a) | _ => True end.

Lemma text_type_unprotected a n : text_max_len a = Some n -> ~ protection a.
Proof using Type.
  unfold text_max_len. intros Hm.
  repeat (case_match; [match goal with X : (_ =? _) = true |- _ => apply Z.eqb_eq in X as -> end; intros [?|?]; done|]). done.
Qed.

Lemma setting_attribute_type s m t v : setting_attribute crypto crc s m = Ok (t, v) -> unprotected s -> ~ protection t.
Proof using Type.
  destruct s; cbn [setting_attribute unprotected]; try done.
  all: repeat match goal with
       | |- context [text_value ?a] => unfold text_value; destruct (text_max_len (ta_attr a)) eqn:?
       | |- context [if ?b then _ else _] => destruct b
       | |- context [find ?f ?l] => destruct (find f l) as [[? ?]|]
       | |- context [error_value ?a] => destruct (error_value a)
       end; intros Hs; cbn in Hs; try discriminate; injection Hs as <- <-; intros Hu; try done; try (intros [?|?]; done).
  by eapply text_type_unprotected.
Qed.

Lemma apply_settings_app l l' m : apply_settings crypto crc (l ++ l') m = m1 ← apply_settings crypto crc l m; apply_settings crypto crc l' m1.
Proof using Type. revert m. induction l as [|s l IH]; intros m; cbn; [done|]. destruct (apply_setting crypto crc s m); cbn; auto. Qed.

(** What one setter does to the attributes and the transaction id. *)
Lemma apply_setting_effect s m m' : apply_setting crypto crc s m = Ok m' ->
  (m_attributes m' = m_attributes m \/
   exists t v, setting_attribute crypto crc s m = Ok (t, v) /\ m_attributes m' = m_attributes m ++ [attribute t v]) /\
  (match s with SetTransactionId _ | SetMessage _ => True | _ => m_transaction_id m' = m_transaction_id m end).
Proof using Type.
  unfold apply_setting. destruct s; try (by intros [= <-]; split; [left|]).
  all: destruct (setting_attribute _ _ _ _) as [[t v]| | |]; cbn; try discriminate; intros [= <-]; split; [right; by exists t, v|done].
Qed.

Lemma apply_settings_types (P : Z -> Prop) l :
  Forall (fun s => forall m t v, setting_attribute crypto crc s m = Ok (t, v) -> P t) l -> forall m m', apply_settings crypto crc l m = Ok m' ->
  Forall (fun a => P (ra_typ a)) (m_attributes m) -> Forall (fun a => P (ra_typ a)) (m_attributes m').
Proof using Type.
  induction 1 as [|s l Hs _ IH]; cbn [apply_settings]; intros m m' Ha Hm; [by injection Ha as <-|].
  destruct (apply_setting crypto crc s m) as [m1| | |] eqn:E; cbn in Ha; try discriminate. apply (IH m1 m' Ha).
  destruct (apply_setting_effect _ _ _ E) as [[->|(t & v & Hv & ->)] _]; [done|].
  apply Forall_app. split; [done|]. rewrite Forall_singleton. by eapply Hs.
Qed.
Lemma apply_settings_unprotected l m m' : apply_settings crypto crc l m = Ok m' -> Forall unprotected l ->
  Forall (fun a => ~ protection (ra_typ a)) (m_attributes m) -> Forall (fun a => ~ protection (ra_typ a)) (m_attributes m').
Proof using Type.
  intros Hs Hu. eapply (apply_settings_types (fun t => ~ protection t)); [|done]. eapply Forall_impl; [exact Hu|].
  intros s Hs' mm t v Hv. by eapply setting_attribute_type.
Qed.

(** Setters that leave the transaction id, and setters of other attributes than
    XOR-MAPPED-ADDRESS. *)
Definition keeps_id (s : Setting) : Prop := match s with SetTransactionId _ | SetMessage _ => False | _ => True end.
Definition xor_free (s : Setting) : Prop :=
  match s with SetXorMapped _ => False | SetRaw a => compat_attr_type (ra_typ a) <> ATTR_XORMAPPED_ADDRESS | _ => True end.

Lemma apply_settings_extend l : forall m m', apply_settings crypto crc l m = Ok m' ->
  (exists extra, m_attributes m' = m_attributes m ++ extra) /\ (Forall keeps_id l -> m_transaction_id m' = m_transaction_id m).
Proof using Type.
  induction l as [|s l IH]; cbn [apply_settings]; intros m m' Ha; [injection Ha as <-; split; [exists []; by rewrite app_nil_r|done]|].
  destruct (apply_setting crypto crc s m) as [m1| | |] eqn:E; cbn in Ha; try discriminate.
  destruct (apply_setting_effect _ _ _ E) as [He Hid]. destruct (IH _ _ Ha) as [[extra ->] Hid']. split.
  - destruct He as [->|(t & v & _ & ->)]; [by eexists|]. exists ([attribute t v] ++ extra). by rewrite app_assoc.
  - intros [Hs Hl]%Forall_cons. rewrite Hid' by done. by destruct s.
Qed.

Lemma setting_attribute_xor_free s m t v : setting_attribute crypto crc s m = Ok (t, v) -> xor_free s ->
  compat_attr_type t <> ATTR_XORMAPPED_ADDRESS.
Proof using Type.
  destruct s; cbn [setting_attribute xor_free]; try done.
  all: repeat match goal with
       | |- context [text_value ?a] => unfold text_value, text_max_len
       | |- context [if ?x =? ?y then _ else _] => destruct (Z.eqb_spec x y) as [->|]
       | |- context [if ?b then _ else _] => destruct b
       | |- context [find ?f ?l] => destruct (find f l) as [[? ?]|]
       | |- context [error_value ?a] => destruct (error_value a)
       | |- context [stun_crypto ?r] => destruct (stun_crypto r)
       end; intros Hs; cbn in Hs; try discriminate; injection Hs as <- <-; intros Hu; try done.
Qed.

(** The address stored by the first setter of its type is what the receiver reads. *)
Lemma apply_settings_xor_mapped l1 a l2 m m' : apply_settings crypto crc (l1 ++ SetXorMapped a :: l2) m = Ok m' -> m_attributes m = [] ->
  Forall xor_free l1 -> Forall keeps_id l2 -> address_ok a -> zlen (m_transaction_id m') = 12 ->
  XorMappedAddress_get_from_as (m' <| m_attributes ::= map compat |>) ATTR_XORMAPPED_ADDRESS = Ok a.
Proof using Type.
  intros Hs Hm Hf Hk Ha Hid. rewrite apply_settings_app in Hs.
  destruct (apply_settings crypto crc l1 m) as [m1| | |] eqn:E1; cbn [mbind outcome_bind] in Hs; try discriminate.
  cbn [apply_settings apply_setting setting_attribute mbind outcome_bind] in Hs.
  set (x := attribute ATTR_XORMAPPED_ADDRESS _) in Hs. destruct (apply_settings_extend _ _ _ Hs) as [[extra Hext] Hids].
  specialize (Hids Hk). cbn in Hids, Hext.
  assert (Forall (fun b => compat_attr_type (ra_typ b) <> ATTR_XORMAPPED_ADDRESS) (m_attributes m1)) as Hx.
  { eapply (apply_settings_types (fun t => compat_attr_type t <> ATTR_XORMAPPED_ADDRESS)); [|exact E1|by rewrite Hm].
    eapply Forall_impl; [exact Hf|]. intros s Hs' mm t v Hv. by eapply setting_attribute_xor_free. }
  apply XorMappedAddress_get; [done|done|]. unfold Message_get. cbn [m_attributes over m_transaction_id]. rewrite Hext, Hids, !map_app, <- app_assoc.
  cbn [map app]. rewrite Attributes_get_first; [done| |done]. apply Forall_fmap. by eapply Forall_impl; [exact Hx|].
Qed.

Lemma compat_unprotected l : Forall (fun a => ~ protection (ra_typ a)) l -> Forall (fun a => ~ protection (ra_typ a)) (map compat l).
Proof using Type.
  intros Hl. apply Forall_fmap. eapply Forall_impl; [exact Hl|]. intros [t n v] Ht. cbn. unfold compat_attr_type. case_match; [|done].
  intros [?|?]; done.
Qed.


Lemma announcing_text n m : announcing n m = integrity_text (MessageType_value (m_typ m)) (m_transaction_id m) (body_bytes (m_attributes m)) (m_length m + n).
Proof using Type. unfold announcing, header_bytes, integrity_text. cbn -[put_u16 put_u32]. by rewrite <- !app_assoc. Qed.

Lemma fingerprint_value_u32 b : is_u32 (fingerprint_value crc b).
Proof using Type.
  unfold fingerprint_value. pose proof (as_u32_range (crc b)) as Hr. apply (lxor_bound 32); unfold is_u32, FINGERPRINT_XOR_VALUE in *; lia.
Qed.

(** The message after the two setters that protect it. *)
Lemma apply_protections key m m2 : apply_settings crypto crc [SetIntegrity key; SetFingerprint] m = Ok m2 ->
  exists tag m1, hmac_sha1 crypto key (announcing 24 m) = Ok tag /\ zlen tag = 20 /\ bytes_ok tag /\
    m1 = attach (attribute ATTR_MESSAGE_INTEGRITY tag) m /\
    m2 = attach (attribute ATTR_FINGERPRINT (put_u32 (fingerprint_value crc (announcing 8 m1)))) m1.
Proof using All.
  cbn [apply_settings apply_setting setting_attribute]. case_match; [done|].
  destruct (signed_ok crypto crc key [announcing 24 m]) as (tag & Htag & Hl & Hb). rewrite Htag. cbn. intros [= <-].
  exists tag. eexists. by split_and!.
Qed.

Lemma Fingerprint_check_run m l a b val : m_attributes m = l ++ [a] -> a = attribute ATTR_FINGERPRINT (put_u32 val) ->
  Forall (fun a => ra_typ a <> ATTR_FINGERPRINT) l -> is_u32 val -> m_raw m = b ++ attr_bytes a ->
  Fingerprint_check crc m = check_fingerprint val (fingerprint_value crc b).
Proof using Type.
  intros Hma -> Hf Hv Hr. unfold Fingerprint_check, Message_get. rewrite Hma, Attributes_get_first by done.
  cbn [mbind outcome_bind attribute ra_value]. unfold check_size, FINGERPRINT_SIZE, ATTRIBUTE_HEADER_SIZE. rewrite zlen_put_u32. cbn [Z.eqb Pos.eqb mbind outcome_bind].
  rewrite <- (app_nil_r (put_u32 val)), get_put_u32 by done. cbn [mbind outcome_bind].
  assert (zlen (m_raw m) = zlen b + 8) as Hz by (rewrite Hr, zlen_app, zlen_attr_bytes; done). pose proof (zlen_nonneg b).
  rewrite sub_ovf_Ok by lia. cbn [mbind outcome_bind]. rewrite slice_Ok by lia. cbn [mbind outcome_bind].
  change (drop (Z.to_nat 0) (m_raw m)) with (m_raw m). rewrite Hz, Hr, take_front by lia. done.
Qed.

(** The layout of a protected message. *)
Lemma protected_layout key m m2 : Encoded m -> m_length m + 32 < 65536 ->
  apply_settings crypto crc [SetIntegrity key; SetFingerprint] m = Ok m2 ->
  exists tag b val, let mi := attribute ATTR_MESSAGE_INTEGRITY tag in let fp := attribute ATTR_FINGERPRINT (put_u32 val) in
    hmac_sha1 crypto key (announcing 24 m) = Ok tag /\ zlen tag = 20 /\ val = fingerprint_value crc b /\
    Encoded m2 /\ m_attributes m2 = m_attributes m ++ [mi; fp] /\ m_raw m2 = b ++ attr_bytes fp /\
    m_typ m2 = m_typ m /\ m_transaction_id m2 = m_transaction_id m.
Proof using All.
  intros E Hl Hs. destruct (apply_protections _ _ _ Hs) as (tag & m1 & Htag & Htl & Htb & Hm1 & Hm2). cbv zeta.
  exists tag, (announcing 8 m1), (fingerprint_value crc (announcing 8 m1)).
  set (mi := attribute ATTR_MESSAGE_INTEGRITY tag) in *. set (val := fingerprint_value crc (announcing 8 m1)) in *.
  set (fp := attribute ATTR_FINGERPRINT (put_u32 val)) in *.
  assert (zlen (attr_bytes mi) = 24) as Hmi by (rewrite zlen_attr_bytes; cbn [ra_value mi attribute]; by rewrite Htl).
  assert (zlen (attr_bytes fp) = 8) as Hfp by (by rewrite zlen_attr_bytes).
  assert (Encoded m1) as E1 by (subst m1; apply Encoded_attach; [done..|lia]).
  assert (m_length m1 = m_length m + 24) as Hl1 by (subst m1; cbn -[attr_bytes]; lia).
  assert (Encoded m2) as E2 by (subst m2; apply Encoded_attach; [done|done|apply bytes_ok_put_u32|done|lia]).
  assert (m_attributes m2 = m_attributes m ++ [mi; fp]) as Ha by (subst m2 m1; cbn; by rewrite <- app_assoc).
  split_and!; try done; [|by subst m2 m1|by subst m2 m1].
  rewrite (enc_raw _ E2). unfold wire. rewrite Ha, (app_assoc _ [mi] [fp]), body_bytes_app, body_bytes_one, (assoc_L app). f_equal.
  unfold announcing, header_bytes. subst m2 m1. cbn -[put_u16 put_u32 attr_bytes body_bytes]. by rewrite Hfp.
Qed.

(** As decoded, it passes both checks. *)
Lemma protected_accepted key m m2 : Encoded m -> m_length m + 32 < 65536 -> Forall (fun a => ~ protection (ra_typ a)) (m_attributes m) ->
  apply_settings crypto crc [SetIntegrity key; SetFingerprint] m = Ok m2 ->
  let m' := m2 <| m_attributes ::= map compat |> in
  MessageIntegrity_check crypto key m' = (Ok tt, m') /\ Fingerprint_check crc m' = Ok tt.
Proof using All.
  intros E Hl Hu Hs. destruct (protected_layout _ _ _ E Hl Hs) as (tag & b & val & Htag & Htl & Hval & E2 & Ha & Hr2 & Hty & Hid). cbv zeta.
  set (mi := attribute ATTR_MESSAGE_INTEGRITY tag) in *. set (fp := attribute ATTR_FINGERPRINT (put_u32 val)) in *.
  assert (Hc := compat_unprotected _ Hu).
  pose proof (enc_length _ E) as Hlen. pose proof (enc_length _ E2) as Hlen2. rewrite Ha, body_bytes_app in Hlen2.
  split.
  - rewrite (MessageIntegrity_check_run crypto key (MessageType_value (m_typ m)) (m_transaction_id m) (map compat (m_attributes m)) mi [fp]
      (body_bytes (m_attributes m)) (body_bytes [mi; fp]) []); cbn [m_raw m_length m_attributes over].
    + f_equal. replace (attr_wire_size mi) with 24 by (unfold attr_wire_size; cbn [mi attribute ra_length]; by rewrite Htl).
      rewrite <- Hlen, <- announcing_text, Htag. cbn. by rewrite bool_decide_true.
    + change (m_raw (m2 <| m_attributes ::= map compat |>)) with (m_raw m2). rewrite (Encoded_split _ E2), Ha, body_bytes_app, Hty, Hid, Hlen2, app_nil_r, <- !app_assoc. done.
    + done.
    + cbn. rewrite Ha. unfold compat at 1. by rewrite map_app.
    + apply E.
    + apply body_bytes_wire; [apply E|rewrite <- Hlen; lia].
    + apply (body_bytes_wire [mi; fp]). { apply Forall_app with (l1 := m_attributes m). rewrite <- Ha. apply E2. }
      pose proof (enc_fits _ E2). rewrite Hlen2, zlen_app in *. pose proof (zlen_nonneg (body_bytes (m_attributes m))). lia.
    + rewrite <- Hlen2. apply E2.
    + eapply Forall_impl; [exact Hc|]. intros x Hx Hx'. apply Hx. by left.
    + done.
  - rewrite (Fingerprint_check_run _ (map compat (m_attributes m) ++ [mi]) fp b val).
    + unfold check_fingerprint. by rewrite Hval, Z.eqb_refl.
    + cbn. rewrite Ha, map_app. cbn. by rewrite <- app_assoc.
    + done.
    + apply Forall_app. split; [|by rewrite Forall_singleton]. eapply Forall_impl; [exact Hc|]. intros x Hx Hx'. apply Hx. by right.
    + rewrite Hval. apply fingerprint_value_u32.
    + done.
Qed.
End protected.

(** * Properties *)


(** C16: On any datagram that decodes, the check of MESSAGE-INTEGRITY either finds no such
    attribute, or accepts exactly when the attribute is the HMAC-SHA1, under the key, of
    the text of RFC 5389: the bytes before the attribute with the header announcing the
    attributes up to and including it.  It neither panics nor changes the message. *)
Theorem stun_integrity_exact `{OverflowChecks} crypto `{HmacLaws crypto} (key data : bytes) (m0 m : StunMessage) :
  bytes_ok data -> unmarshal_binary data m0 = (Ok tt, m) ->
  (MessageIntegrity_check crypto key m = (Err ErrAttributeNotFound, m) /\ contains m ATTR_MESSAGE_INTEGRITY = false) \/
  exists t n id before after l1 a l2, data = put_u16 t ++ put_u16 n ++ put_u32 MAGIC_COOKIE ++ id ++ before ++ after /\
    m_attributes m = l1 ++ a :: l2 /\ attributes_wire l1 before /\ contains (m <| m_attributes := l1 |>) ATTR_MESSAGE_INTEGRITY = false /\
    ra_typ a = ATTR_MESSAGE_INTEGRITY /\
    MessageIntegrity_check crypto key m = (verdict (hmac_sha1 crypto key (integrity_text t id before (zlen before + attr_wire_size a))) (ra_value a), m).
Proof.
  intros Hb Hu. unfold unmarshal_binary in Hu. rewrite bind_modify in Hu.
  assert (forall l t m', m_attributes m' = l -> Forall (fun a => ra_typ a <> t) l -> contains m' t = false) as Hcont.
  { intros l t m' <- Hf. unfold contains. apply not_true_is_false. rewrite existsb_exists. intros (x & Hx & Ht).
    rewrite Forall_forall in Hf. apply list_elem_of_In in Hx. specialize (Hf x Hx). lia. }
  assert (bytes_ok (m_raw (m0 <| m_raw := data |>))) as Hb' by exact Hb.
  destruct (decode_sound _ Hb') as (r & m' & Hd & Hraw & H1).
  destruct (Attributes_get_split (m_attributes m) ATTR_MESSAGE_INTEGRITY) as [(a & l1 & l2 & Hma & Hf & Ha)|[Hf Hg]].
  - right. rewrite Hd in Hu. injection Hu as -> ->. destruct H1 as [(_ & t & id & l & body & (rest & Hr & Ht & Hbody & Hid & Hw) & Hm)|[e He]]; [|done].
    cbn in Hr, Hm. assert (m_attributes m = l) as Hl by (by rewrite Hm). rewrite Hma in Hl. subst l.
    destruct (attributes_wire_app_inv _ _ _ Hw) as (b1 & b2 & -> & Hw1 & Hw2).
    exists t, (zlen (b1 ++ b2)), id, b1, (b2 ++ rest), l1, a, l2. split_and!; [by rewrite Hr, <- !app_assoc|done|done|by eapply Hcont|done|].
    apply (MessageIntegrity_check_run crypto key t id l1 a l2 b1 b2 rest); try done; [by rewrite Hraw|by rewrite Hm].
  - left. split; [|by eapply Hcont]. unfold MessageIntegrity_check. stm_step. unfold Message_get.
    destruct (Attributes_get _ _) as [x ok]. cbn in Hg. by subst ok.
Qed.

(** C15: A message built with any attributes and then MESSAGE-INTEGRITY and FINGERPRINT is
    decoded by its receiver, passes the integrity check under the same key and the
    fingerprint check, and an XOR-MAPPED-ADDRESS that was the first of its type among the
    attributes, and after which the transaction id was not changed, is read back.  The
    attributes are in range, do not themselves protect the message, and fit in 65536 bytes
    with the two. *)
Theorem stun_protected_accepted `{OverflowChecks} crypto crc `{HmacLaws crypto} (key : bytes) (l : list Setting) (m0 m1 m2 : StunMessage) :
  type_ok (m_typ m0) -> zlen (m_transaction_id m0) = 12 -> bytes_ok (m_transaction_id m0) ->
  Forall setting_ok l -> Forall unprotected l -> zsum setting_size l + 32 < 65536 ->
  build_message crypto crc (l ++ [SetIntegrity key; SetFingerprint]) m0 = (Ok tt, m2) ->
  exists m, unmarshal_binary (m_raw m2) m1 = (Ok tt, m) /\ MessageIntegrity_check crypto key m = (Ok tt, m) /\ Fingerprint_check crc m = Ok tt /\
    m_typ m = m_typ m2 /\ m_transaction_id m = m_transaction_id m2 /\
    (forall l1 a l2, l = l1 ++ SetXorMapped a :: l2 -> Forall xor_free l1 -> Forall keeps_id l2 ->
       XorMappedAddress_get_from_as m ATTR_XORMAPPED_ADDRESS = Ok a).
Proof.
  intros Ht Hid Hidb Hok Hu Hl Hb. set (l' := l ++ _) in *.
  assert (zsum setting_size l' = zsum setting_size l + 32) as Hz by (unfold l'; rewrite zsum_app; done).
  pose proof (build_run crypto crc l' m0 Ht (conj Hid Hidb) ltac:(apply Forall_app; split; [done|by repeat constructor]) ltac:(lia)) as Hr.
  unfold l' in Hr at 1. rewrite apply_settings_app in Hr.
  pose proof (build_run crypto crc l m0 Ht (conj Hid Hidb) Hok ltac:(lia)) as Hr1.
  destruct (apply_settings crypto crc l (refresh (reset m0))) as [ma| | |] eqn:Ha; cbn [mbind outcome_bind] in Hr; [|by rewrite Hb in Hr..].
  destruct Hr1 as (_ & Ea & Hla). destruct (apply_settings crypto crc [SetIntegrity key; SetFingerprint] ma) as [mb| | |] eqn:Hp; [|by rewrite Hb in Hr..].
  destruct Hr as (Hb' & Eb & _). rewrite Hb in Hb'. injection Hb' as <-.
  exists (m2 <| m_attributes ::= map compat |>). split; [unfold unmarshal_binary; stm_step; by apply decode_Encoded|].
  destruct (protected_accepted crypto crc key ma m2 Ea ltac:(lia)) as [? ?]; [by eapply apply_settings_unprotected|done|].
  split_and!; [done..|]. intros l1 a l2 -> Hx Hk.
  apply (apply_settings_xor_mapped crypto crc l1 a (l2 ++ [SetIntegrity key; SetFingerprint]) (refresh (reset m0))); [|done|done| | |apply Eb].
  - change (SetXorMapped a :: l2 ++ [SetIntegrity key; SetFingerprint]) with ((SetXorMapped a :: l2) ++ [SetIntegrity key; SetFingerprint]).
    by rewrite (assoc_L app), apply_settings_app, Ha.
  - apply Forall_app. split; [done|by repeat constructor].
  - by apply Forall_app in Hok as [_ [? _]%Forall_cons].
Qed.

(** ** Witnesses *)

(** A keyed checksum in place of HMAC-SHA1: it meets the laws the theorems ask for. *)
Definition toy_hmac (key : bytes) (parts : list bytes) (n : Z) : bytes :=
  replicate (Z.to_nat n) ((zsum id key + zsum (zsum id) parts) mod 256).
Definition toy_provider : RTCCrypto :=
  mkRTCCrypto (fun _ => true) (fun a _ _ => Err (UnsupportedAlgorithm (BlockCipher a)))
    (fun _ key => Ok (mkMac (fun parts n => Ok (toy_hmac key parts n))))
    (fun a _ => Err (UnsupportedAlgorithm (StreamCipher_ a))) (fun a _ => Err (UnsupportedAlgorithm (Aead a))).
#[local] Instance toy_provider_laws : HmacLaws toy_provider.
Proof.
  intros key. eexists. split; [done|]. constructor. intros parts. eexists. split; [done|]. unfold toy_hmac.
  split; [unfold zlen; rewrite length_replicate; done|]. apply Forall_replicate. unfold is_u8. mlia.
Qed.

Definition example_id : bytes := [1; 2; 3; 4; 5; 6; 7; 8; 9; 10; 11; 12].
Definition example_address : Address := mkAddress (IpV4 [192; 0; 2; 1]) 32853.
Definition example_settings : list Setting :=
  [SetType BINDING_SUCCESS; SetTransactionId example_id; SetText (mkTextAttribute ATTR_SOFTWARE [114; 116; 99]); SetXorMapped example_address].
Lemma example_settings_ok : Forall setting_ok example_settings /\ Forall unprotected example_settings.
Proof. split; repeat constructor; cbn; try lia; try (intros [?|?]; done); try (repeat constructor; unfold is_u8; lia); done. Qed.


Lemma stun_integrity_exact_witness :
  let _ : OverflowChecks := true in
  let data := (build_message toy_provider (zsum id) (example_settings ++ [SetIntegrity [7]]) Message_new).2 in
  exists m, unmarshal_binary (m_raw data) Message_new = (Ok tt, m) /\
  ((MessageIntegrity_check toy_provider [7] m = (Err ErrAttributeNotFound, m) /\ contains m ATTR_MESSAGE_INTEGRITY = false) \/
   exists t n id before after l1 a l2, m_raw data = put_u16 t ++ put_u16 n ++ put_u32 MAGIC_COOKIE ++ id ++ before ++ after /\
    m_attributes m = l1 ++ a :: l2 /\ attributes_wire l1 before /\ contains (m <| m_attributes := l1 |>) ATTR_MESSAGE_INTEGRITY = false /\
    ra_typ a = ATTR_MESSAGE_INTEGRITY /\
    MessageIntegrity_check toy_provider [7] m = (verdict (hmac_sha1 toy_provider [7] (integrity_text t id before (zlen before + attr_wire_size a))) (ra_value a), m)).
Proof.
  intros oc data. exists (unmarshal_binary (m_raw data) Message_new).2. split; [vm_compute; reflexivity|].
  apply (stun_integrity_exact toy_provider [7] (m_raw data) Message_new).
  - vm_compute. repeat constructor; discriminate.
  - vm_compute. reflexivity.
Defined.

Lemma stun_protected_accepted_witness :
  let _ : OverflowChecks := true in
  let m2 := (build_message toy_provider (zsum id) (example_settings ++ [SetIntegrity [7]; SetFingerprint]) Message_new).2 in
  exists m, unmarshal_binary (m_raw m2) Message_new = (Ok tt, m) /\ MessageIntegrity_check toy_provider [7] m = (Ok tt, m) /\
    Fingerprint_check (zsum id) m = Ok tt /\ m_typ m = m_typ m2 /\ m_transaction_id m = m_transaction_id m2 /\
    (forall l1 a l2, example_settings = l1 ++ SetXorMapped a :: l2 -> Forall xor_free l1 -> Forall keeps_id l2 ->
       XorMappedAddress_get_from_as m ATTR_XORMAPPED_ADDRESS = Ok a).
Proof.
  intros oc m2. apply (stun_protected_accepted toy_provider (zsum id) [7] example_settings Message_new Message_new m2).
  - split; vm_compute; split; congruence.
  - reflexivity.
  - apply bytes_ok_zeros.
  - apply example_settings_ok.
  - apply example_settings_ok.
  - vm_compute. reflexivity.
  - vm_compute. reflexivity.
Defined.

(** A tag for another key is refused, and so is a message with a changed byte. *)
Lemma wrong_key_refused :
  let _ : OverflowChecks := true in
  let m2 := (build_message toy_provider (zsum id) (example_settings ++ [SetIntegrity [7]; SetFingerprint]) Message_new).2 in
  (MessageIntegrity_check toy_provider [8] m2).1 = Err ErrIntegrityMismatch.
Proof. intros oc. vm_compute. reflexivity. Qed.
