(* ===== verification/StunClient.v ===== *)
(** STUN transactions ([rtc-stun]: [agent.rs], [client.rs]): the agent that tracks which
    requests are outstanding, and the client that sends them again.  Proved: no
    transaction is forgotten, polling for events ends, a response is delivered once, an
    unanswered request is sent [max_attempts + 1] times and then reported, and responses
    above 120 bytes are refused.

    Instants and durations are integers; the bounds of [Instant] and of [attempt : u32]
    are out of reach and left out.  The order in which a [HashMap] is iterated is the
    parameter [agent_order]. *)
From S2P Require Import Prelude Transport Stun.

(** * The agent *)

Record AgentTransaction := mkAgentTransaction { at_id : bytes; at_deadline : Z }.
Inductive StunEvent :=
| EvAgentClosed
| EvTransactionStopped
| EvTransactionTimeOut
| EvMessage (m : StunMessage).
Record AgentEvent := mkAgentEvent { ev_id : bytes; ev_evt : StunEvent }.

Record Agent := mkAgent { ag_transactions : gmap bytes AgentTransaction; ag_closed : bool; ag_events_queue : list AgentEvent }.
#[export] Instance eta_agent : Eta Agent := fun r => mkAgent (ag_transactions r) (ag_closed r) (ag_events_queue r).
Abbreviation agent A := (stm Agent StunError A).

Inductive ClientAgent :=
| Process (m : StunMessage)
| Collect (deadline : Z)
| Start (id : bytes) (deadline : Z)
| Stop (id : bytes)
| Close.

Definition Agent_new : Agent := mkAgent ∅ false [].

Class AgentOrder := agent_order : gmap bytes AgentTransaction -> list (bytes * AgentTransaction).

Definition push_agent_event (e : AgentEvent) : agent unit := modify (fun a => a <| ag_events_queue ::= fun q => q ++ [e] |>).

Definition process (message : StunMessage) : agent unit :=
  a ← gets id;
  if ag_closed a then throw ErrAgentClosed
  else
    _ ← modify (fun a => a <| ag_transactions ::= delete (m_transaction_id message) |>);
    push_agent_event (mkAgentEvent (m_transaction_id message) (EvMessage message)).

Definition start (id : bytes) (deadline : Z) : agent unit :=
  a ← gets (fun a => a);
  if ag_closed a then throw ErrAgentClosed
  else if bool_decide (is_Some (ag_transactions a !! id)) then throw ErrTransactionExists
  else modify (fun a => a <| ag_transactions ::= <[id := mkAgentTransaction id deadline]> |>).

Definition stop (id : bytes) : agent unit :=
  a ← gets (fun a => a);
  if ag_closed a then throw ErrAgentClosed
  else
    let v := ag_transactions a !! id in
    _ ← modify (fun a => a <| ag_transactions ::= delete id |>);
    match v with
    | Some t => push_agent_event (mkAgentEvent (at_id t) EvTransactionStopped)
    | None => throw ErrTransactionNotExists
    end.

Definition Agent_poll_event : agent (option AgentEvent) :=
  a ← gets id;
  match ag_events_queue a with
  | [] => mret None
  | e :: q => _ ← modify (fun a => a <| ag_events_queue := q |>); mret (Some e)
  end.

Section order.
Context `{AgentOrder}.

Definition agent_close : agent unit :=
  a ← gets id;
  if ag_closed a then throw ErrAgentClosed
  else
    _ ← for_each (fun kt : bytes * AgentTransaction => push_agent_event (mkAgentEvent kt.1 EvAgentClosed)) (agent_order (ag_transactions a));
    modify (fun a => a <| ag_transactions := ∅ |> <| ag_closed := true |>).

Definition collect (deadline : Z) : agent unit :=
  a ← gets id;
  if ag_closed a then throw ErrAgentClosed
  else
    let to_remove := map fst (filter (fun kt : bytes * AgentTransaction => at_deadline kt.2 < deadline) (agent_order (ag_transactions a))) in
    _ ← for_each (fun id => modify (fun a => a <| ag_transactions ::= delete id |>)) to_remove;
    for_each (fun id => push_agent_event (mkAgentEvent id EvTransactionTimeOut)) to_remove.

Definition Agent_handle_event (e : ClientAgent) : agent unit :=
  match e with
  | Process message => process message
  | Collect deadline => collect deadline
  | Start tid deadline => start tid deadline
  | Stop tid => stop tid
  | Close => agent_close
  end.

(** The earliest deadline of the transactions in progress. *)
Definition Agent_poll_timeout (a : Agent) : option Z :=
  foldl (fun deadline (kt : bytes * AgentTransaction) =>
    match deadline with
    | None => Some (at_deadline kt.2)
    | Some d => if at_deadline kt.2 <? d then Some (at_deadline kt.2) else Some d
    end) None (agent_order (ag_transactions a)).
End order.

(** * The client *)

Definition DEFAULT_TIMEOUT_RATE : Z := 5.
Definition DEFAULT_RTO : Z := 300.
Definition DEFAULT_MAX_ATTEMPTS : Z := 7.
Definition DEFAULT_MAX_BUFFER_SIZE : Z := 8.

Record TaggedMessage := mkTaggedMessage { tg_now : Z; tg_message : StunMessage }.

Record ClientTransaction := mkClientTransaction { ct_id : bytes; ct_attempt : Z; ct_start : Z; ct_rto : Z; ct_raw : bytes }.
#[export] Instance eta_client_transaction : Eta ClientTransaction :=
  fun r => mkClientTransaction (ct_id r) (ct_attempt r) (ct_start r) (ct_rto r) (ct_raw r).
Definition ct_next_timeout (ct : ClientTransaction) (now : Z) : Z := now + (ct_attempt ct + 1) * ct_rto ct.

Record ClientSettings := mkClientSettings { cs_buffer_size : Z; cs_rto : Z; cs_rto_rate : Z; cs_max_attempts : Z; cs_closed : bool }.
#[export] Instance eta_client_settings : Eta ClientSettings :=
  fun r => mkClientSettings (cs_buffer_size r) (cs_rto r) (cs_rto_rate r) (cs_max_attempts r) (cs_closed r).
Definition ClientSettings_default : ClientSettings :=
  mkClientSettings DEFAULT_MAX_BUFFER_SIZE DEFAULT_RTO DEFAULT_TIMEOUT_RATE DEFAULT_MAX_ATTEMPTS false.

(** [ClientBuilder] holds the settings. *)
Definition with_rto (rto : Z) (s : ClientSettings) : ClientSettings := s <| cs_rto := rto |>.
Definition with_timeout_rate (d : Z) (s : ClientSettings) : ClientSettings := s <| cs_rto_rate := d |>.
Definition with_buffer_size (n : Z) (s : ClientSettings) : ClientSettings := s <| cs_buffer_size := n |>.
Definition with_no_retransmit (s : ClientSettings) : ClientSettings :=
  let s := s <| cs_max_attempts := 0 |> in
  if cs_rto s =? 0 then s <| cs_rto := DEFAULT_MAX_ATTEMPTS * DEFAULT_RTO |> else s.

Record Client := mkClient {
  cl_local : SocketAddr;
  cl_remote : SocketAddr;
  cl_transport_protocol : TransportProtocol;
  cl_agent : Agent;
  cl_settings : ClientSettings;
  cl_transactions : gmap bytes ClientTransaction;
  cl_transmits : list (TransportMessage bytes);
  cl_now : Z
}.
#[export] Instance eta_client : Eta Client :=
  fun r => mkClient (cl_local r) (cl_remote r) (cl_transport_protocol r) (cl_agent r) (cl_settings r) (cl_transactions r) (cl_transmits r) (cl_now r).
Abbreviation client A := (stm Client StunError A).

Definition Client_new (now : Z) (local remote : SocketAddr) (protocol : TransportProtocol) (settings : ClientSettings) : Client :=
  mkClient local remote protocol Agent_new settings ∅ [] now.

Definition Client_observe (now : Z) (c : Client) : Client := c <| cl_now := Z.max now (cl_now c) |>.

(** Running an operation of the agent inside the client. *)
Definition on_agent {A} (m : agent A) : client A :=
  fun c => let '(r, a) := m (cl_agent c) in (r, c <| cl_agent := a |>).

(** [self.transactions.entry(ct.id).or_insert(ct)]. *)
Definition or_insert (ct : ClientTransaction) (c : Client) : Client :=
  c <| cl_transactions ::= fun t => match t !! ct_id ct with Some _ => t | None => <[ct_id ct := ct]> t end |>.

Definition queue_transmit (now : Z) (payload : bytes) (c : Client) : Client :=
  c <| cl_transmits ::= fun q => q ++
    [mkTransportMessage now (mkTransportContext (cl_local c) (cl_remote c) (cl_transport_protocol c) None) payload] |>.

Section client_order.
Context `{AgentOrder}.

Definition Client_handle_read (msg : TransportMessage bytes) : client unit :=
  _ ← modify (Client_observe (tm_now msg));
  let '(r, stun_msg) := read_from (tm_message msg) Message_new in
  _ ← lift r;
  on_agent (Agent_handle_event (Process stun_msg)).

Definition Client_handle_write (msg : TaggedMessage) : client unit :=
  c ← gets id;
  if cs_closed (cl_settings c) then throw ErrClientClosed
  else
    let now := tg_now msg in
    _ ← modify (Client_observe now);
    let m := tg_message msg in
    let payload := m_raw m in
    let ct := mkClientTransaction (m_transaction_id m) 0 now (cs_rto (cl_settings c)) (m_raw m) in
    let deadline := ct_next_timeout ct (ct_start ct) in
    _ ← modify (or_insert ct);
    _ ← on_agent (Agent_handle_event (Start (m_transaction_id m) deadline));
    modify (queue_transmit now payload).

Definition Client_poll_write : client (option (TransportMessage bytes)) :=
  c ← gets id;
  match cl_transmits c with
  | [] => mret None
  | t :: q => _ ← modify (fun c => c <| cl_transmits := q |>); mret (Some t)
  end.

(** Sending a request again; [None] when its event goes to the caller instead. *)
Definition send_again (ct : ClientTransaction) (evt : StunEvent) : client (option StunEvent) :=
  c ← gets id;
  let ct := ct <| ct_attempt ::= fun n => n + 1 |> in
  let payload := ct_raw ct in
  let timeout := ct_next_timeout ct (cl_now c) in
  _ ← modify (or_insert ct);
  c ← gets id;
  let '(r, a) := Agent_handle_event (Start (ct_id ct) timeout) (cl_agent c) in
  _ ← modify (fun c => c <| cl_agent := a |>);
  match r with
  | Ok _ => _ ← modify (fun c => queue_transmit (cl_now c) payload c); mret None
  | _ => _ ← modify (fun c => c <| cl_transactions ::= delete (ct_id ct) |>); mret (Some evt)
  end.

(** The [while] loop over the agent's events. *)
Fixpoint poll_events (fuel : nat) : client (option StunEvent) :=
  match fuel with
  | O => lift Diverge
  | S fuel =>
      event ← on_agent Agent_poll_event;
      match event with
      | None => mret None
      | Some event =>
          c ← gets id;
          match cl_transactions c !! ev_id event with
          | None => poll_events fuel
          | Some ct =>
              _ ← modify (fun c => c <| cl_transactions ::= delete (ev_id event) |>);
              match ev_evt event with
              | EvMessage _ => mret (Some (ev_evt event))
              | _ =>
                  if cs_max_attempts (cl_settings c) <=? ct_attempt ct then mret (Some (ev_evt event))
                  else
                    r ← send_again ct (ev_evt event);
                    match r with Some evt => mret (Some evt) | None => poll_events fuel end
              end
          end
      end
  end.
Definition Client_poll_event : client (option StunEvent) :=
  fun c => poll_events (S (length (ag_events_queue (cl_agent c)))) c.

Definition Client_poll_timeout (c : Client) : option Z := Agent_poll_timeout (cl_agent c).

Definition Client_handle_timeout (now : Z) : client unit :=
  _ ← modify (Client_observe now);
  on_agent (Agent_handle_event (Collect now)).

Definition Client_close : client unit :=
  c ← gets id;
  if cs_closed (cl_settings c) then throw ErrClientClosed
  else
    _ ← modify (fun c => c <| cl_settings := cl_settings c <| cs_closed := true |> |>);
    on_agent (Agent_handle_event Close).
End client_order.

(** * What the agent's operations do *)

Lemma for_each_modify {S E A} (f : A -> S -> S) l (s : S) :
  for_each (E:=E) (fun x => modify (f x)) l s = (Ok tt, foldl (fun s x => f x s) s l).
Proof. revert s. induction l as [|x l IH]; intros s; [done|]. cbn [for_each foldl]. rewrite bind_modify. apply IH. Qed.

Lemma push_events {A} (f : A -> AgentEvent) l a :
  for_each (fun x => push_agent_event (f x)) l a = (Ok tt, a <| ag_events_queue ::= fun q => q ++ map f l |>).
Proof.
  unfold push_agent_event. rewrite for_each_modify. f_equal. revert a.
  induction l as [|x l IH]; intros a; [destruct a; unfold over; cbn; by rewrite app_nil_r|].
  cbn [foldl]. rewrite IH. unfold over. cbn. by rewrite <- app_assoc.
Qed.

Definition removed (l : list bytes) (t : gmap bytes AgentTransaction) : gmap bytes AgentTransaction := foldl (fun t id => delete id t) t l.
Lemma removed_lookup l t id : removed l t !! id = if decide (id ∈ l) then None else t !! id.
Proof.
  revert t. induction l as [|x l IH]; intros t; cbn [removed foldl]; [by rewrite decide_False by (by intros ?%elem_of_nil)|].
  fold (removed l (delete x t)). rewrite IH. destruct (decide (id ∈ l)) as [Hl|Hl].
  - rewrite decide_True by (by right). done.
  - destruct (decide (id = x)) as [->|Hx]; [rewrite decide_True by left; apply lookup_delete_eq|].
    rewrite decide_False by (by intros [?|?]%elem_of_cons). by apply lookup_delete_ne.
Qed.
Lemma remove_all l a :
  for_each (E:=StunError) (fun id => modify (fun a => a <| ag_transactions ::= delete id |>)) l a = (Ok tt, a <| ag_transactions ::= removed l |>).
Proof.
  rewrite for_each_modify. f_equal. revert a. induction l as [|x l IH]; intros a; [by destruct a|]. cbn [foldl]. by rewrite IH.
Qed.

Section runs.
Context `{AgentOrder} (Horder : forall t, agent_order t ≡ₚ map_to_list t).

(** The transactions whose deadline has passed. *)
Definition expired_ids (now : Z) (a : Agent) : list bytes :=
  map fst (filter (fun kt : bytes * AgentTransaction => at_deadline kt.2 < now) (agent_order (ag_transactions a))).

Lemma elem_of_expired now a id : id ∈ expired_ids now a <-> exists t, ag_transactions a !! id = Some t /\ at_deadline t < now.
Proof using Horder.
  unfold expired_ids. rewrite list_elem_of_fmap. split.
  - intros ([k t] & -> & [Hd Hin]%list_elem_of_filter). rewrite Horder in Hin. apply elem_of_map_to_list in Hin. by exists t.
  - intros (t & Ht & Hd). exists (id, t). split; [done|]. apply list_elem_of_filter. split; [done|]. rewrite Horder. by apply elem_of_map_to_list.
Qed.

Lemma collect_run now a : ag_closed a = false ->
  collect now a = (Ok tt, a <| ag_transactions ::= removed (expired_ids now a) |>
                            <| ag_events_queue ::= fun q => q ++ map (fun id => mkAgentEvent id EvTransactionTimeOut) (expired_ids now a) |>).
Proof using Type.
  intros Hc. unfold collect. stm_step. rewrite Hc. fold (expired_ids now a). rewrite (bind_run _ _ _ _ _ (remove_all _ _)).
  by rewrite (push_events (fun id => mkAgentEvent id EvTransactionTimeOut)).
Qed.
Lemma agent_close_run a : ag_closed a = false ->
  agent_close a = (Ok tt, mkAgent ∅ true (ag_events_queue a ++ map (fun kt => mkAgentEvent kt.1 EvAgentClosed) (agent_order (ag_transactions a)))).
Proof using Type.
  intros Hc. unfold agent_close. stm_step. rewrite Hc.
  by rewrite (bind_run _ _ _ _ _ (push_events (fun kt : bytes * AgentTransaction => mkAgentEvent kt.1 EvAgentClosed) _ _)).
Qed.

(** An agent that is closed refuses everything and keeps its state. *)
Lemma closed_agent_refuses e a : ag_closed a = true -> Agent_handle_event e a = (Err ErrAgentClosed, a).
Proof using Type. intros Hc. destruct e; cbn [Agent_handle_event]; unfold process, collect, start, stop, agent_close; stm_step; by rewrite Hc. Qed.

Lemma start_run id d a : ag_closed a = false ->
  start id d a = if decide (is_Some (ag_transactions a !! id)) then (Err ErrTransactionExists, a)
                 else (Ok tt, a <| ag_transactions ::= <[id := mkAgentTransaction id d]> |>).
Proof using Type.
  intros Hc. unfold start. stm_step. rewrite Hc. destruct (decide _) as [Hs|Hs]; [by rewrite bool_decide_true|by rewrite bool_decide_false].
Qed.

(** * What the client's operations do *)

(** The next attempt of a request, and the client that has sent it. *)
Definition attempted (ct : ClientTransaction) : ClientTransaction := ct <| ct_attempt ::= fun n => n + 1 |>.
Definition resent (ct : ClientTransaction) (c : Client) : Client :=
  queue_transmit (cl_now c) (ct_raw ct)
    (c <| cl_transactions ::= <[ct_id ct := ct]> |>
       <| cl_agent := cl_agent c <| ag_transactions ::= <[ct_id ct := mkAgentTransaction (ct_id ct) (ct_next_timeout ct (cl_now c))]> |> |>).
Definition can_start (c : Client) (id : bytes) : Prop := ag_closed (cl_agent c) = false /\ ag_transactions (cl_agent c) !! id = None.
#[export] Instance can_start_dec c id : Decision (can_start c id).
Proof. unfold can_start. apply _. Defined.

Lemma Agent_start id d a : Agent_handle_event (Start id d) a =
  if decide (ag_closed a = false /\ ag_transactions a !! id = None) then (Ok tt, a <| ag_transactions ::= <[id := mkAgentTransaction id d]> |>)
  else (Err (if ag_closed a then ErrAgentClosed else ErrTransactionExists), a).
Proof using Type.
  cbn [Agent_handle_event]. destruct (ag_closed a) eqn:Hc.
  - rewrite decide_False by (by intros [? _]). unfold start. stm_step. by rewrite Hc.
  - rewrite start_run by done. destruct (ag_transactions a !! id) eqn:Hl.
    + rewrite decide_True by done. rewrite decide_False by (by intros [_ ?]). done.
    + rewrite decide_False by (by intros [? ?]). by rewrite decide_True.
Qed.

Lemma send_again_run ct evt c : cl_transactions c !! ct_id ct = None ->
  send_again ct evt c = if decide (can_start c (ct_id ct)) then (Ok None, resent (attempted ct) c) else (Ok (Some evt), c).
Proof using Type.
  intros Hn. unfold send_again. stm_step. stm_step. stm_step. fold (attempted ct).
  change (cl_agent (or_insert (attempted ct) c)) with (cl_agent c). change (ct_id (attempted ct)) with (ct_id ct).
  rewrite Agent_start. destruct (decide (can_start c (ct_id ct))) as [Hs|Hs].
  - rewrite decide_True by exact Hs. stm_step. rewrite bind_modify. unfold resent, or_insert, queue_transmit, over. cbn. by rewrite Hn.
  - rewrite decide_False by exact Hs. stm_step. rewrite bind_modify. unfold or_insert, over. destruct c. cbn in *.
    by rewrite Hn, delete_insert_id by done.
Qed.

(** One round of the loop of [poll_event]. *)
Definition dequeue (q : list AgentEvent) (c : Client) : Client := c <| cl_agent := cl_agent c <| ag_events_queue := q |> |>.
Definition finished (id : bytes) (c : Client) : Client := c <| cl_transactions ::= delete id |>.
Definition is_message (e : StunEvent) : bool := match e with EvMessage _ => true | _ => false end.

Lemma poll_events_nil fuel c : ag_events_queue (cl_agent c) = [] -> poll_events (S fuel) c = (Ok None, c).
Proof using Type.
  intros Hq. cbn [poll_events]. erewrite bind_run; [|unfold on_agent, Agent_poll_event; stm_step; by rewrite Hq]. by destruct c.
Qed.
Lemma poll_events_cons fuel c e q : ag_events_queue (cl_agent c) = e :: q ->
  poll_events (S fuel) c =
    match cl_transactions c !! ev_id e with
    | None => poll_events fuel (dequeue q c)
    | Some ct =>
        let c1 := finished (ev_id e) (dequeue q c) in
        if is_message (ev_evt e) || (cs_max_attempts (cl_settings c) <=? ct_attempt ct) then (Ok (Some (ev_evt e)), c1)
        else (send_again ct (ev_evt e) ≫= fun r => match r with Some evt => mret (Some evt) | None => poll_events fuel end) c1
    end.
Proof using Type.
  intros Hq. cbn [poll_events].
  erewrite bind_run; [|unfold on_agent, Agent_poll_event; stm_step; rewrite Hq; reflexivity]. cbn [fst snd]. stm_step.
  change (c <| cl_agent := _ |>) with (dequeue q c). change (cl_transactions (dequeue q c)) with (cl_transactions c).
  destruct (cl_transactions c !! ev_id e) as [ct|]; [|done]. stm_step. fold (finished (ev_id e) (dequeue q c)).
  change (cl_settings (dequeue q c)) with (cl_settings c).
  destruct (ev_evt e); cbn [is_message orb]; try done; by case_match.
Qed.

Abbreviation queue c := (ag_events_queue (cl_agent c)).

(** With more fuel than there are events the loop ends, having consumed a front part of
    the queue, all of it when it reports nothing. *)
Lemma poll_events_total fuel : forall c, (length (queue c) < fuel)%nat ->
  exists r c', (forall fuel', (fuel <= fuel')%nat -> poll_events fuel' c = (Ok r, c')) /\
    queue c' `suffix_of` queue c /\ (r = None -> queue c' = []).
Proof using Type.
  induction fuel as [|fuel IH]; intros c Hf; [lia|]. destruct (queue c) as [|e q] eqn:Hq.
  - exists None, c. split_and!; [|by rewrite Hq|done]. intros [|f] ?; [lia|]. by apply poll_events_nil.
  - cbn [length] in Hf.
    assert (forall c1, queue c1 = q -> exists r c', (forall f, (fuel <= f)%nat -> poll_events f c1 = (Ok r, c')) /\
      queue c' `suffix_of` e :: q /\ (r = None -> queue c' = [])) as Hnext.
    { intros c1 <-. destruct (IH c1 ltac:(lia)) as (r & c' & Hr & Hs & Hn). exists r, c'. split_and!; [done|by apply suffix_cons_r|done]. }
    destruct (cl_transactions c !! ev_id e) as [ct|] eqn:Hct.
    + set (c1 := finished (ev_id e) (dequeue q c)). destruct (is_message (ev_evt e) || (cs_max_attempts (cl_settings c) <=? ct_attempt ct)) eqn:Hm.
      { exists (Some (ev_evt e)), c1. split_and!; [|by exists [e]|done]. intros [|f] ?; [lia|]. rewrite (poll_events_cons f c e q Hq), Hct. cbv zeta. by rewrite Hm. }
      destruct (send_again ct (ev_evt e) c1) as [r1 c2] eqn:Hre.
      assert ((exists v, r1 = Ok v) /\ queue c2 = q) as [[v ->] Hq2].
      { unfold send_again in Hre. rewrite !bind_get, bind_modify, bind_get in Hre. rewrite Agent_start in Hre.
        case_decide; rewrite !bind_modify in Hre; injection Hre as <- <-; eauto. }
      destruct v as [v|].
      * exists (Some v), c2. split_and!; [|rewrite Hq2; by exists [e]|done]. intros [|f] ?; [lia|].
        rewrite (poll_events_cons f c e q Hq), Hct. cbv zeta. rewrite Hm. fold c1. by rewrite (bind_run _ _ _ _ _ Hre).
      * destruct (Hnext c2 Hq2) as (r & c' & Hr & Hs & Hn). exists r, c'. split_and!; [|done|done]. intros [|f] ?; [lia|].
        rewrite (poll_events_cons f c e q Hq), Hct. cbv zeta. rewrite Hm. fold c1. rewrite (bind_run _ _ _ _ _ Hre). apply Hr. lia.
    + destruct (Hnext (dequeue q c) eq_refl) as (r & c' & Hr & Hs & Hn). exists r, c'. split_and!; [|done|done]. intros [|f] ?; [lia|].
      rewrite (poll_events_cons f c e q Hq), Hct. apply Hr. lia.
Qed.

(** * No transaction is forgotten *)

(** Every request the client waits for has a deadline at the agent or an event to come. *)
Record client_inv (c : Client) : Prop := mkClientInv {
  ci_closed : cs_closed (cl_settings c) = ag_closed (cl_agent c);
  ci_empty : ag_closed (cl_agent c) = true -> ag_transactions (cl_agent c) = ∅;
  ci_ids : forall id ct, cl_transactions c !! id = Some ct -> ct_id ct = id /\ 0 <= ct_attempt ct;
  ci_tracked : forall id, is_Some (cl_transactions c !! id) -> is_Some (ag_transactions (cl_agent c) !! id) \/ id ∈ map ev_id (queue c)
}.

Lemma client_inv_new now local remote protocol s : cs_closed s = false -> client_inv (Client_new now local remote protocol s).
Proof using Type. intros Hs. constructor; cbn; [done..| |]; intros id; rewrite lookup_empty; [done|by intros [? ?]]. Qed.

(** Changes the invariant does not look at. *)
Lemma client_inv_frame c c' : cl_settings c' = cl_settings c -> cl_agent c' = cl_agent c -> cl_transactions c' = cl_transactions c ->
  client_inv c -> client_inv c'.
Proof using Type. intros E1 E2 E3 [H1 H2 H3 H4]. constructor; by rewrite ?E1, ?E2, ?E3. Qed.

(** A transaction that gets a deadline. *)
Lemma client_inv_start c ct d : client_inv c -> ag_closed (cl_agent c) = false -> 0 <= ct_attempt ct ->
  client_inv (or_insert ct c <| cl_agent := cl_agent c <| ag_transactions ::= <[ct_id ct := mkAgentTransaction (ct_id ct) d]> |> |>).
Proof using Type.
  intros [H1 H2 H3 H4] Hc Ha. constructor; cbn; [done|congruence| |].
  - intros id ct'. destruct (cl_transactions c !! ct_id ct) eqn:E; [apply H3|].
    destruct (decide (id = ct_id ct)) as [->|Hn]; [rewrite lookup_insert_eq; by intros [= <-]|rewrite lookup_insert_ne by done; apply H3].
  - intros id Hs. destruct (decide (id = ct_id ct)) as [->|Hn]; [rewrite lookup_insert_eq; eauto|rewrite lookup_insert_ne by done; apply H4].
    destruct (cl_transactions c !! ct_id ct); [done|]. by rewrite lookup_insert_ne in Hs.
Qed.

(** An event taken from the queue, its transaction with it. *)
Lemma client_inv_finish c e q : client_inv c -> queue c = e :: q -> client_inv (finished (ev_id e) (dequeue q c)).
Proof using Type.
  intros [H1 H2 H3 H4] Hq. constructor; cbn; [done..| |].
  - intros id ct [_ Hl]%lookup_delete_Some. by apply H3.
  - intros id [ct [Hn Hl]%lookup_delete_Some]. destruct (H4 id ltac:(eauto)) as [?|Hin]; [by left|right].
    rewrite Hq in Hin. cbn in Hin. by apply elem_of_cons in Hin as [->|?].
Qed.

Lemma client_inv_poll_events fuel : forall c r c', client_inv c -> poll_events fuel c = (r, c') -> client_inv c'.
Proof using Type.
  induction fuel as [|fuel IH]; intros c r c' Hi He; [by injection He as _ <-|]. destruct (queue c) as [|e q] eqn:Hq.
  { rewrite poll_events_nil in He by done. by injection He as _ <-. }
  rewrite (poll_events_cons fuel c e q Hq) in He. pose proof (client_inv_finish c e q Hi Hq) as Hf.
  destruct (cl_transactions c !! ev_id e) as [ct|] eqn:Hct.
  - destruct (is_message (ev_evt e) || (cs_max_attempts (cl_settings c) <=? ct_attempt ct)); [by injection He as _ <-|].
    destruct (ci_ids c Hi _ _ Hct) as [Hid Ha].
    pose proof (send_again_run ct (ev_evt e) (finished (ev_id e) (dequeue q c))) as Hr.
    rewrite Hid in Hr. specialize (Hr (lookup_delete_eq _ _)). cbv zeta in He.
    destruct (decide (can_start _ _)) as [[Hop _]|Hno]; rewrite (bind_run _ _ _ _ _ Hr) in He; [|by injection He as _ <-].
    eapply IH; [|exact He]. eapply client_inv_frame; [..|apply (client_inv_start _ (attempted ct) (ct_next_timeout (attempted ct) (cl_now c)) Hf Hop); cbn; lia]; [done|done|].
    unfold resent, queue_transmit, or_insert, over. cbn. by rewrite Hid, lookup_delete_eq.
  - eapply IH; [|exact He]. replace (dequeue q c) with (finished (ev_id e) (dequeue q c)); [done|].
    unfold finished, dequeue, over. cbn. by rewrite delete_id.
Qed.

(** The calls of a user. *)
Inductive client_call :=
| CallRead (msg : TransportMessage bytes)
| CallWrite (msg : TaggedMessage)
| CallPollWrite
| CallPollEvent
| CallTimeout (now : Z)
| CallClose.
Definition after_call (k : client_call) (c : Client) : Client :=
  match k with
  | CallRead msg => (Client_handle_read msg c).2
  | CallWrite msg => (Client_handle_write msg c).2
  | CallPollWrite => (Client_poll_write c).2
  | CallPollEvent => (Client_poll_event c).2
  | CallTimeout now => (Client_handle_timeout now c).2
  | CallClose => (Client_close c).2
  end.

Lemma client_inv_read msg c : client_inv c -> client_inv (Client_handle_read msg c).2.
Proof using Type.
  intros Hi. unfold Client_handle_read. stm_step. destruct (read_from (tm_message msg) Message_new) as [r m].
  assert (client_inv (Client_observe (tm_now msg) c)) as Hi' by (by apply (client_inv_frame c)).
  set (c1 := Client_observe (tm_now msg) c) in *. clearbody c1.
  destruct r as [n| | |]; [|exact Hi'..]. rewrite (bind_lift _ _ _ n) by done. unfold on_agent. cbn [Agent_handle_event].
  destruct (ag_closed (cl_agent c1)) eqn:Hc; unfold process; stm_step; rewrite Hc.
  - by apply (client_inv_frame c1).
  - destruct Hi' as [H1 H2 H3 H4]. stm_step. constructor; cbn; [congruence|congruence|done|].
    intros id Hs. rewrite map_app, elem_of_app. destruct (decide (id = m_transaction_id m)) as [->|Hn]; [right; right; by left|].
    rewrite lookup_delete_ne by done. destruct (H4 id Hs); [by left|right; by left].
Qed.

Lemma client_inv_write msg c : client_inv c -> client_inv (Client_handle_write msg c).2.
Proof using Type.
  intros Hi. unfold Client_handle_write. stm_step. destruct (cs_closed (cl_settings c)) eqn:Hcl; [done|]. stm_step. stm_step.
  set (ct := mkClientTransaction _ _ _ _ _). set (c1 := Client_observe (tg_now msg) c).
  assert (client_inv c1) as Hi1 by (by apply (client_inv_frame c)).
  assert (ag_closed (cl_agent c1) = false) as Hop by (change (cl_agent c1) with (cl_agent c); rewrite <- (ci_closed c Hi); done).
  unfold mbind, stm_bind, on_agent. change (cl_agent (or_insert ct c1)) with (cl_agent c1). rewrite Agent_start.
  change (m_transaction_id (tg_message msg)) with (ct_id ct). destruct (decide _) as [[_ Hno]|Hex].
  - cbn [fst snd]. by eapply client_inv_frame; [..|apply (client_inv_start c1 ct (ct_next_timeout ct (ct_start ct)) Hi1 Hop)].
  - cbn [fst snd]. assert (is_Some (ag_transactions (cl_agent c1) !! ct_id ct)) as Hag.
    { destruct (ag_transactions (cl_agent c1) !! ct_id ct) eqn:E; [eauto|]. by destruct Hex. }
    destruct Hi1 as [H1 H2 H3 H4]. constructor; cbn; [done|done| |].
    + intros id ct'. destruct (cl_transactions c !! m_transaction_id (tg_message msg)) eqn:E; [apply H3|].
      destruct (decide (id = m_transaction_id (tg_message msg))) as [->|Hn]; [rewrite lookup_insert_eq; by intros [= <-]|rewrite lookup_insert_ne by done; apply H3].
    + intros id Hs. destruct (decide (id = m_transaction_id (tg_message msg))) as [->|Hn]; [by left|]. apply H4.
      destruct (cl_transactions c !! m_transaction_id (tg_message msg)); [done|]. by rewrite lookup_insert_ne in Hs.
Qed.

Lemma client_inv_timeout now c : client_inv c -> client_inv (Client_handle_timeout now c).2.
Proof using Horder.
  intros Hi. unfold Client_handle_timeout. stm_step. set (c1 := Client_observe now c).
  assert (client_inv c1) as Hi1 by (by apply (client_inv_frame c)). clearbody c1. unfold on_agent.
  destruct (ag_closed (cl_agent c1)) eqn:Hc.
  - rewrite closed_agent_refuses by done. by apply (client_inv_frame c1).
  - destruct Hi1 as [H1 H2 H3 H4]. cbn [Agent_handle_event]. rewrite collect_run by done. constructor; cbn; [congruence|congruence|done|].
    intros id Hs. rewrite map_app, elem_of_app, removed_lookup. destruct (H4 id Hs) as [[t Ht]|Hin]; [|right; by left].
    destruct (decide (id ∈ expired_ids now (cl_agent c1))) as [He|He]; [right; right|left; eauto].
    rewrite map_map. apply list_elem_of_fmap. by exists id.
Qed.

Lemma client_inv_close c : client_inv c -> client_inv (Client_close c).2.
Proof using Horder.
  intros Hi. unfold Client_close. stm_step. destruct (cs_closed (cl_settings c)) eqn:Hc; [done|]. stm_step. unfold on_agent.
  destruct Hi as [H1 H2 H3 H4]. cbn [Agent_handle_event]. cbn [cl_agent over]. rewrite agent_close_run by (by rewrite <- H1).
  constructor; cbn; [done|done|done|]. intros id Hs. right. rewrite map_app, elem_of_app. destruct (H4 id Hs) as [[t Ht]|Hin]; [right|by left].
  rewrite map_map. apply list_elem_of_fmap. exists (id, t). split; [done|]. rewrite Horder. by apply elem_of_map_to_list.
Qed.

Lemma client_inv_call k c : client_inv c -> client_inv (after_call k c).
Proof using Horder.
  intros Hi. destruct k; cbn [after_call].
  - by apply client_inv_read.
  - by apply client_inv_write.
  - unfold Client_poll_write. stm_step. destruct (cl_transmits c); [done|]. stm_step. by apply (client_inv_frame c).
  - unfold Client_poll_event. destruct (poll_events _ _) as [r c'] eqn:E. by eapply client_inv_poll_events.
  - by apply client_inv_timeout.
  - by apply client_inv_close.
Qed.

(** The deadline the client asks to be woken at is the earliest of its agent's. *)
Lemma poll_timeout_earliest (a : Agent) id t : ag_transactions a !! id = Some t ->
  exists d, Agent_poll_timeout a = Some d /\ d <= at_deadline t.
Proof using Horder.
  intros Ht. unfold Agent_poll_timeout.
  assert ((id, t) ∈ agent_order (ag_transactions a)) as Hin by (rewrite Horder; by apply elem_of_map_to_list).
  set (f := fun (deadline : option Z) (kt : bytes * AgentTransaction) => _). revert Hin.
  assert (forall l acc, (exists d, acc = Some d /\ d <= at_deadline t) \/ (id, t) ∈ l -> exists d, foldl f acc l = Some d /\ d <= at_deadline t) as Hgen.
  { induction l as [|x l IH]; intros acc Hl; cbn [foldl].
    - by destruct Hl as [Hl|Hl%elem_of_nil].
    - apply IH. destruct Hl as [(d & -> & Hd)|[<-|Hl]%elem_of_cons]; [left|left|by right]; unfold f; cbn beta iota.
      + destruct (Z.ltb_spec (at_deadline x.2) d); eexists; (split; [reflexivity|lia]).
      + destruct acc as [d|]; [destruct (Z.ltb_spec (at_deadline (id, t).2) d) as [Hlt|Hge]|]; eexists; (split; [reflexivity|cbn in *; lia]). }
  intros Hin. apply Hgen. by right.
Qed.

(** * A request that is not answered *)

Section unanswered.
Context (local remote : SocketAddr) (protocol : TransportProtocol) (settings : ClientSettings) (m : StunMessage) (t0 : Z).
Context (Hopen : cs_closed settings = false) (Hrto : 0 <= cs_rto settings) (Hmax : 0 <= cs_max_attempts settings).
Abbreviation rid := (m_transaction_id m).
Abbreviation rto := (cs_rto settings).

(** When the request goes out for the [k]-th time again: one tick after each deadline,
    the [k]-th of which is [k] times the timeout after the last transmission. *)
Definition send_time (k : Z) : Z := t0 + k + rto * (k * (k + 1) / 2).
Definition sending (k : Z) : TransportMessage bytes :=
  mkTransportMessage (send_time k) (mkTransportContext local remote protocol None) (m_raw m).
Definition sendings (k : nat) : list (TransportMessage bytes) := map (fun i => sending (Z.of_nat i)) (seq 0 (S k)).

(** The client after [k] retransmissions. *)
Definition waiting (k : nat) : Client :=
  mkClient local remote protocol
    (mkAgent {[rid := mkAgentTransaction rid (send_time (Z.of_nat k) + (Z.of_nat k + 1) * rto)]} false [])
    settings {[rid := mkClientTransaction rid (Z.of_nat k) t0 rto (m_raw m)]} (sendings k) (send_time (Z.of_nat k)).

(** Waking the client when it asks for it, one tick late, and draining its events. *)
Definition round (c : Client) : outcome StunError (option StunEvent) * Client :=
  match Client_poll_timeout c with
  | Some d => Client_poll_event (Client_handle_timeout (d + 1) c).2
  | None => (Ok None, c)
  end.

Lemma send_time_S k : 0 <= k -> send_time (k + 1) = send_time k + (k + 1) * rto + 1.
Proof using Type.
  intros Hk. unfold send_time. replace ((k + 1) * (k + 1 + 1) / 2) with (k * (k + 1) / 2 + (k + 1)); [lia|].
  replace ((k + 1) * (k + 1 + 1)) with (k * (k + 1) + (k + 1) * 2) by lia. by rewrite Z.div_add by lia.
Qed.

Lemma agent_order_singleton id t : agent_order {[id := t]} = [(id, t)].
Proof using Horder. apply Permutation_singleton_r. by rewrite Horder, map_to_list_singleton. Qed.

Lemma write_waiting now0 : now0 <= t0 ->
  Client_handle_write (mkTaggedMessage t0 m) (Client_new now0 local remote protocol settings) = (Ok tt, waiting 0).
Proof using All.
  intros Hn. unfold Client_handle_write. stm_step. cbn [cl_settings Client_new]. rewrite Hopen. stm_step. stm_step.
  unfold on_agent, mbind, stm_bind. cbn -[Agent_handle_event]. rewrite Agent_start, decide_True by (cbn; by rewrite lookup_empty).
  cbn. unfold or_insert, queue_transmit, Client_observe, waiting, over, modify, ct_next_timeout, sendings, sending, send_time. cbn.
  rewrite Z.max_l by lia. rewrite lookup_empty. rewrite Z.add_0_r, Z.mul_0_r, Z.add_0_r. reflexivity.
Qed.

(** The client when the request has been given up. *)
Definition given_up (k : nat) : Client :=
  mkClient local remote protocol (mkAgent ∅ false []) settings ∅ (sendings k) (send_time (Z.of_nat (S k))).

(** The client with the timeout of the [k]-th attempt reported by its agent. *)
Definition timed_out_client (k : nat) : Client :=
  mkClient local remote protocol (mkAgent ∅ false [mkAgentEvent rid EvTransactionTimeOut]) settings
    {[rid := mkClientTransaction rid (Z.of_nat k) t0 rto (m_raw m)]} (sendings k) (send_time (Z.of_nat (S k))).

Lemma timeout_run k : exists d, Client_poll_timeout (waiting k) = Some d /\ Client_handle_timeout (d + 1) (waiting k) = (Ok tt, timed_out_client k).
Proof using All.
  set (d := send_time (Z.of_nat k) + (Z.of_nat k + 1) * rto). exists d. split.
  - unfold Client_poll_timeout, Agent_poll_timeout, waiting. cbn [cl_agent ag_transactions]. by rewrite agent_order_singleton.
  - unfold Client_handle_timeout. stm_step. unfold on_agent. change (cl_agent (Client_observe (d + 1) (waiting k))) with (cl_agent (waiting k)).
    cbn [Agent_handle_event]. rewrite collect_run by done.
    assert (expired_ids (d + 1) (cl_agent (waiting k)) = [rid]) as He.
    { unfold expired_ids, waiting. cbn [cl_agent ag_transactions]. rewrite agent_order_singleton, filter_cons_True by (cbn; fold d; lia). done. }
    rewrite He.
    assert (Z.max (d + 1) (send_time (Z.of_nat k)) = send_time (Z.of_nat (S k))) as Hnow.
    { rewrite Nat2Z.inj_succ, <- Z.add_1_r, send_time_S by lia. fold d. unfold d. nia. }
    unfold Client_observe, timed_out_client, waiting, over. cbn -[Z.of_nat send_time sendings]. rewrite Hnow. by rewrite delete_singleton_eq.
Qed.

(** One round: the request is sent again, or given up after the last attempt. *)
Lemma round_run k : round (waiting k) =
  if Z.of_nat k <? cs_max_attempts settings then (Ok None, waiting (S k)) else (Ok (Some EvTransactionTimeOut), given_up k).
Proof using All.
  unfold round. destruct (timeout_run k) as (d & -> & ->). cbn [snd]. unfold Client_poll_event. cbn [cl_agent timed_out_client ag_events_queue length].
  rewrite (poll_events_cons 1 _ (mkAgentEvent rid EvTransactionTimeOut) []) by done. cbn [cl_transactions timed_out_client ev_id]. rewrite lookup_singleton_eq.
  cbn [is_message ev_evt orb cl_settings ct_attempt timed_out_client]. cbv zeta.
  destruct (Z.ltb_spec (Z.of_nat k) (cs_max_attempts settings)) as [Hk|Hk].
  - rewrite (proj2 (Z.leb_gt _ _)) by done. erewrite bind_run.
    2: { rewrite send_again_run by (cbn; by rewrite delete_singleton_eq). rewrite decide_True by (by split). done. }
    cbn beta iota. rewrite poll_events_nil by done. f_equal.
    unfold resent, queue_transmit, finished, dequeue, attempted, waiting, timed_out_client, over, ct_next_timeout. cbn -[Z.of_nat sendings].
    rewrite delete_singleton_eq, !insert_empty. f_equal; [do 3 f_equal; lia|do 3 f_equal; lia|].
    unfold sendings at 2. rewrite seq_S, map_app. done.
  - rewrite (proj2 (Z.leb_le _ _)) by done. f_equal. unfold finished, dequeue, timed_out_client, given_up, over. cbn -[Z.of_nat sendings].
    by rewrite delete_singleton_eq.
Qed.

(** Rounds with what each reports. *)
Fixpoint rounds (n : nat) (c : Client) : list (outcome StunError (option StunEvent)) * Client :=
  match n with
  | O => ([], c)
  | S n => let '(r, c) := round c in let '(l, c) := rounds n c in (r :: l, c)
  end.

Lemma rounds_run n : forall k, (Z.of_nat (k + n) = cs_max_attempts settings) ->
  rounds (S n) (waiting k) = (replicate n (Ok None) ++ [Ok (Some EvTransactionTimeOut)], given_up (k + n)).
Proof using All.
  induction n as [|n IH]; intros k Hk.
  - cbn [rounds]. rewrite round_run, (proj2 (Z.ltb_ge _ _)) by lia. by rewrite Nat.add_0_r.
  - remember (S n) as n' eqn:E. cbn [rounds]. rewrite round_run, (proj2 (Z.ltb_lt _ _)) by lia. subst n'.
    rewrite IH by lia. cbn. by rewrite Nat.add_succ_r.
Qed.
End unanswered.
End runs.

(** * Properties *)

(** C19: The loop of the client's [poll_event] ends in every state, with one round more than
    there are events: more fuel than that changes nothing, the events it consumes are a
    front part of the queue, and when it reports nothing the queue is empty. *)
Theorem stun_poll_event_terminates `{AgentOrder} (c : Client) :
  exists r c', Client_poll_event c = (Ok r, c') /\
    (forall fuel, (length (ag_events_queue (cl_agent c)) < fuel)%nat -> poll_events fuel c = (Ok r, c')) /\
    ag_events_queue (cl_agent c') `suffix_of` ag_events_queue (cl_agent c) /\ (r = None -> ag_events_queue (cl_agent c') = []).
Proof.
  destruct (poll_events_total (S (length (ag_events_queue (cl_agent c)))) c ltac:(lia)) as (r & c' & Hr & Hs & Hn).
  exists r, c'. split_and!; [|intros fuel Hf|done|done]; apply Hr; lia.
Qed.

(** C18: Whatever calls a user makes, in any order, and whatever arrives, every request the
    client waits for has an event queued for it or a deadline at the agent, no earlier
    than the one the client asks to be woken at: the client never goes to sleep with a
    request outstanding. *)
Theorem stun_client_never_stalls `{AgentOrder} (Horder : forall t, agent_order t ≡ₚ map_to_list t)
    now local remote protocol settings (calls : list client_call) :
  cs_closed settings = false ->
  let c := foldl (fun c k => after_call k c) (Client_new now local remote protocol settings) calls in
  forall id, is_Some (cl_transactions c !! id) ->
  (exists e, e ∈ ag_events_queue (cl_agent c) /\ ev_id e = id) \/
  (exists t d, ag_transactions (cl_agent c) !! id = Some t /\ Client_poll_timeout c = Some d /\ d <= at_deadline t).
Proof.
  intros Hs c id Hid. assert (client_inv c) as Hi.
  { unfold c. clear c Hid. rewrite <- (rev_involutive calls). induction (rev calls) as [|k l IH]; [by apply client_inv_new|].
    cbn [rev]. rewrite foldl_app. by apply client_inv_call. }
  destruct (ci_tracked c Hi id Hid) as [[t Ht]|He].
  - right. destruct (poll_timeout_earliest Horder _ _ _ Ht) as (d & Hd & Hle). by exists t, d.
  - left. apply list_elem_of_fmap in He as (e & -> & He). by exists e.
Qed.

(** C17: A request that is never answered, to a client woken one tick after each deadline
    it asks for, is sent [max_attempts + 1] times in all, each time with the same bytes;
    the [k]-th wait is [k] times the timeout (the waits grow linearly).  Then the timeout
    is reported, once, and the client has nothing left to wait for. *)
Theorem stun_unanswered_request `{AgentOrder} (Horder : forall t, agent_order t ≡ₚ map_to_list t)
    local remote protocol settings (m : StunMessage) now0 t0 (n : nat) :
  cs_closed settings = false -> 0 <= cs_rto settings -> cs_max_attempts settings = Z.of_nat n -> now0 <= t0 ->
  exists c0 c', Client_handle_write (mkTaggedMessage t0 m) (Client_new now0 local remote protocol settings) = (Ok tt, c0) /\
    rounds (S n) c0 = (replicate n (Ok None) ++ [Ok (Some EvTransactionTimeOut)], c') /\
    map tm_message (cl_transmits c') = replicate (S n) (m_raw m) /\
    map tm_now (cl_transmits c') = map (fun k => t0 + k + cs_rto settings * (k * (k + 1) / 2)) (map Z.of_nat (seq 0 (S n))) /\
    cl_transactions c' = ∅ /\ Client_poll_timeout c' = None.
Proof.
  intros Hop Hrto Hn Hle. exists (waiting local remote protocol settings m t0 0), (given_up local remote protocol settings m t0 (0 + n)).
  split_and!.
  - apply (write_waiting Horder); [done|done|lia|done].
  - apply (rounds_run Horder); [done|done|lia|lia].
  - cbn [cl_transmits given_up]. unfold sendings. rewrite map_map. cbn [tm_message sending Nat.add].
    generalize 0%nat. induction n as [|n' IH] in |- *; intros j; [done|]. cbn [seq map replicate]. f_equal. exact (IH (S j)).
  - cbn [cl_transmits given_up Nat.add]. unfold sendings. by rewrite !map_map.
  - done.
  - unfold Client_poll_timeout, Agent_poll_timeout. cbn [cl_agent given_up ag_transactions].
    assert (agent_order ∅ = []) as ->; [|done]. apply Permutation_nil_r. by rewrite Horder, map_to_list_empty.
Qed.

(** ** Responses *)

Lemma read_from_short data m : zlen data <= 120 ->
  read_from data m = (match (unmarshal_binary data m).1 with Ok _ => Ok (zlen data) | Err e => Err e | Panic => Panic | Diverge => Diverge end,
                      (unmarshal_binary data m).2).
Proof.
  intros Hl. unfold read_from, unmarshal_binary. rewrite take_ge by (unfold zlen, DEFAULT_RAW_CAPACITY in *; lia). rewrite !bind_modify.
  unfold mbind, stm_bind. by destruct (decode _) as [[]].
Qed.

Section responses.
Context `{AgentOrder}.

(** A response goes through the agent to the queue. *)
Lemma handle_read_run now tr data resp c : zlen data <= 120 -> unmarshal_binary data Message_new = (Ok tt, resp) ->
  ag_closed (cl_agent c) = false ->
  Client_handle_read (mkTransportMessage now tr data) c =
    (Ok tt, Client_observe now c <| cl_agent := mkAgent (delete (m_transaction_id resp) (ag_transactions (cl_agent c))) false
                                    (ag_events_queue (cl_agent c) ++ [mkAgentEvent (m_transaction_id resp) (EvMessage resp)]) |>).
Proof using Type.
  intros Hl Hu Hc. unfold Client_handle_read. stm_step. cbn [tm_message tm_now]. rewrite read_from_short, Hu by done. cbn [fst snd].
  rewrite (bind_lift _ _ _ (zlen data)) by done. unfold on_agent. cbn [Agent_handle_event]. unfold process. stm_step.
  change (cl_agent (Client_observe now c)) with (cl_agent c). rewrite Hc. stm_step. by rewrite <- Hc.
Qed.

(** Polling with a response at the head of the queue. *)
Lemma poll_response id resp c : ag_events_queue (cl_agent c) = [mkAgentEvent id (EvMessage resp)] ->
  Client_poll_event c = match cl_transactions c !! id with
                        | Some _ => (Ok (Some (EvMessage resp)), finished id (dequeue [] c))
                        | None => (Ok None, dequeue [] c)
                        end.
Proof using Type.
  intros Hq. unfold Client_poll_event. rewrite Hq. cbn [length]. rewrite (poll_events_cons 1 c _ [] Hq). cbn [ev_id ev_evt is_message orb].
  destruct (cl_transactions c !! id); [done|]. by apply poll_events_nil.
Qed.
End responses.

(** A response to an outstanding request, of a size the client reads, is delivered by
    the next poll, ends the transaction at client and agent, and when it arrives again it
    is dropped: polling reports nothing and no transaction changes. *)
Theorem stun_response_delivered_once `{AgentOrder} now now' tr tr' (data : bytes) (resp : StunMessage) (c : Client) :
  zlen data <= 120 -> unmarshal_binary data Message_new = (Ok tt, resp) ->
  ag_closed (cl_agent c) = false -> ag_events_queue (cl_agent c) = [] -> is_Some (cl_transactions c !! m_transaction_id resp) ->
  exists c1 c2 c3 c4, Client_handle_read (mkTransportMessage now tr data) c = (Ok tt, c1) /\
    Client_poll_event c1 = (Ok (Some (EvMessage resp)), c2) /\
    cl_transactions c2 = delete (m_transaction_id resp) (cl_transactions c) /\
    ag_transactions (cl_agent c2) = delete (m_transaction_id resp) (ag_transactions (cl_agent c)) /\
    Client_handle_read (mkTransportMessage now' tr' data) c2 = (Ok tt, c3) /\
    Client_poll_event c3 = (Ok None, c4) /\ cl_transactions c4 = cl_transactions c2 /\ cl_transmits c4 = cl_transmits c.
Proof.
  intros Hl Hu Hc Hq [ct Hct].
  set (c1 := (Client_handle_read (mkTransportMessage now tr data) c).2). set (c2 := (Client_poll_event c1).2).
  set (c3 := (Client_handle_read (mkTransportMessage now' tr' data) c2).2). set (c4 := (Client_poll_event c3).2).
  exists c1, c2, c3, c4.
  pose proof (handle_read_run now tr data resp c Hl Hu Hc) as H1. rewrite Hq in H1. cbn [app] in H1.
  assert (c1 = _) as E1 by (unfold c1; by rewrite H1).
  assert (Client_poll_event c1 = (Ok (Some (EvMessage resp)), finished (m_transaction_id resp) (dequeue [] c1))) as H2.
  { rewrite (poll_response (m_transaction_id resp) resp) by (by rewrite E1).
    assert (cl_transactions c1 = cl_transactions c) as -> by (by rewrite E1). by rewrite Hct. }
  assert (c2 = _) as E2 by (unfold c2; by rewrite H2).
  pose proof (handle_read_run now' tr' data resp c2 Hl Hu ltac:(by rewrite E2, E1)) as H3.
  assert (c3 = _) as E3 by (unfold c3; by rewrite H3).
  assert (cl_transactions c2 = delete (m_transaction_id resp) (cl_transactions c)) as Ht2 by (rewrite E2, E1; done).
  assert (Client_poll_event c3 = (Ok None, dequeue [] c3)) as H4.
  { rewrite (poll_response (m_transaction_id resp) resp) by (rewrite E3, E2; done).
    assert (cl_transactions c3 = cl_transactions c2) as -> by (by rewrite E3). by rewrite Ht2, lookup_delete_eq. }
  assert (c4 = _) as E4 by (unfold c4; by rewrite H4).
  split_and!; [unfold c1; by rewrite H1|unfold c2; by rewrite H2|exact Ht2|by rewrite E2, E1|unfold c3; by rewrite H3|unfold c4; by rewrite H4| |].
  - by rewrite E4, E3.
  - by rewrite E4, E3, E2, E1.
Qed.

(** A response of more than 120 bytes is never delivered: the client reads that many
    bytes of the datagram and finds the message cut off. *)
Lemma long_response_refused `{AgentOrder} now tr data t id l body c :
  accepted_layout data t id l body -> 120 < 20 + zlen body ->
  Client_handle_read (mkTransportMessage now tr data) c = (Err (OtherShortMessage 120 (20 + zlen body)), Client_observe now c).
Proof.
  intros (rest & -> & Ht & Hb & Hid & Hw) Hl. unfold Client_handle_read. stm_step. cbn [tm_message tm_now]. unfold read_from.
  set (data := put_u16 t ++ _). assert (120 < zlen data) as Hd by (unfold data; zlia).
  set (tl := id ++ body ++ rest).
  assert (take (Z.to_nat DEFAULT_RAW_CAPACITY) data = put_u16 t ++ put_u16 (zlen body) ++ put_u32 MAGIC_COOKIE ++ take 112 tl) as -> by reflexivity.
  assert (zlen (take 112 tl) = 112) as Hz by (rewrite zlen_take; unfold tl; zlia).
  set (r := (modify _ ≫= _) Message_new). assert (r.1 = Err (OtherShortMessage 120 (20 + zlen body))) as Hr.
  { unfold r. rewrite bind_modify. unfold mbind at 1, stm_bind at 1. unfold decode. rewrite bind_get. cbn [m_raw over].
    unfold MESSAGE_HEADER_SIZE.
    rewrite (proj2 (Z.ltb_ge (zlen _) 20)) by zlia. erewrite bind_lift by (by apply get_put_u16). cbn beta iota zeta.
    erewrite bind_lift by (apply get_put_u16; zlia). cbn beta iota zeta.
    erewrite bind_lift by (by apply get_put_u32). cbn beta iota zeta. rewrite Z.eqb_refl. cbn [negb].
    rewrite (proj2 (Z.ltb_lt (zlen _) (20 + _))) by zlia. cbn [fst throw]. do 2 f_equal. zlia. }
  destruct r as [r1 m1]. cbn in Hr. by rewrite Hr.
Qed.

(** ** Witnesses *)

Definition example_addr : SocketAddr := mkSocketAddr (IpV4 [127; 0; 0; 1]) 3478.
Definition example_request : StunMessage := (write_header Message_new).2.
#[local] Instance example_order : AgentOrder := map_to_list.

Lemma stun_client_never_stalls_witness :
  let c := foldl (fun c k => after_call k c) (Client_new 0 example_addr example_addr UDP ClientSettings_default)
             [CallWrite (mkTaggedMessage 10 example_request); CallTimeout 200; CallPollEvent] in
  (exists e, e ∈ ag_events_queue (cl_agent c) /\ ev_id e = zeros 12) \/
  (exists t d, ag_transactions (cl_agent c) !! zeros 12 = Some t /\ Client_poll_timeout c = Some d /\ d <= at_deadline t).
Proof.
  apply (stun_client_never_stalls (fun t => reflexivity _) 0 example_addr example_addr UDP ClientSettings_default
    [CallWrite (mkTaggedMessage 10 example_request); CallTimeout 200; CallPollEvent]); [reflexivity|].
  vm_compute. eexists. reflexivity.
Defined.

Lemma stun_unanswered_request_witness :
  exists c0 c', Client_handle_write (mkTaggedMessage 10 example_request) (Client_new 0 example_addr example_addr UDP ClientSettings_default) = (Ok tt, c0) /\
    rounds 8 c0 = (replicate 7 (Ok None) ++ [Ok (Some EvTransactionTimeOut)], c') /\
    map tm_message (cl_transmits c') = replicate 8 (m_raw example_request) /\
    map tm_now (cl_transmits c') = map (fun k => 10 + k + cs_rto ClientSettings_default * (k * (k + 1) / 2)) (map Z.of_nat (seq 0 8)) /\
    cl_transactions c' = ∅ /\ Client_poll_timeout c' = None.
Proof.
  apply (stun_unanswered_request (fun t => reflexivity _) example_addr example_addr UDP ClientSettings_default example_request 0 10 7);
    [reflexivity|discriminate|reflexivity|discriminate].
Defined.

Lemma stun_response_delivered_once_witness :
  let c := after_call (CallWrite (mkTaggedMessage 10 example_request)) (Client_new 0 example_addr example_addr UDP ClientSettings_default) in
  let data := put_u16 257 ++ put_u16 0 ++ put_u32 MAGIC_COOKIE ++ zeros 12 in
  let resp := (unmarshal_binary data Message_new).2 in
  let tr := TransportContext_default in
  exists c1 c2 c3 c4, Client_handle_read (mkTransportMessage 20 tr data) c = (Ok tt, c1) /\
    Client_poll_event c1 = (Ok (Some (EvMessage resp)), c2) /\
    cl_transactions c2 = delete (m_transaction_id resp) (cl_transactions c) /\
    ag_transactions (cl_agent c2) = delete (m_transaction_id resp) (ag_transactions (cl_agent c)) /\
    Client_handle_read (mkTransportMessage 30 tr data) c2 = (Ok tt, c3) /\
    Client_poll_event c3 = (Ok None, c4) /\ cl_transactions c4 = cl_transactions c2 /\ cl_transmits c4 = cl_transmits c.
Proof.
  intros c data resp tr. apply (stun_response_delivered_once 20 30 tr tr data resp c);
    [discriminate|reflexivity|reflexivity|reflexivity|vm_compute; eexists; reflexivity].
Defined.

(** A response of 124 bytes that the client refuses. *)
Lemma long_response_example :
  exists c data, (unmarshal_binary data Message_new).1 = Ok tt /\ zlen data = 124 /\
    (Client_handle_read (mkTransportMessage 20 TransportContext_default data) c).1 = Err (OtherShortMessage 120 124).
Proof.
  exists (Client_new 0 example_addr example_addr UDP ClientSettings_default),
    (put_u16 257 ++ put_u16 104 ++ put_u32 MAGIC_COOKIE ++ zeros 12 ++ put_u16 32802 ++ put_u16 100 ++ replicate 100 97).
  vm_compute. split_and!; reflexivity.
Qed.
