(* ===== verification/IceCandidate.v ===== *)
(** ICE candidates ([rtc-ice/src/candidate/], [network_type/], [tcp_type/]): the candidate with
    its priority and foundation, the text of the [candidate] attribute, which candidates can be
    paired, and pairs with their priority.  Proved: a candidate is read back from its text, pair
    priorities order pairs as RFC 8445 asks and are the same at both ends. *)
From stdpp Require Import strings.
From S2P Require Import Prelude Transport Stun NetText.

(** * Network and TCP types *)

Inductive NetworkType := NtUnspecified | Udp4 | Udp6 | Tcp4 | Tcp6.
#[export] Instance NetworkType_eq_dec : EqDecision NetworkType. Proof. solve_decision. Defined.

Definition NetworkType_to_string (t : NetworkType) : bytes :=
  match t with Udp4 => str "udp4" | Udp6 => str "udp6" | Tcp4 => str "tcp4" | Tcp6 => str "tcp6" | NtUnspecified => str "unspecified" end.
Definition is_tcp (t : NetworkType) : bool := match t with Tcp4 | Tcp6 => true | _ => false end.
Definition to_protocol (t : NetworkType) : TransportProtocol := if is_tcp t then TCP else UDP.
Definition network_short (t : NetworkType) : bytes :=
  match t with Udp4 | Udp6 => str "udp" | Tcp4 | Tcp6 => str "tcp" | NtUnspecified => str "Unspecified" end.

(** [to_lowercase] then [starts_with]: no other character is lowered to one of these. *)
Definition determine_network_type (network : bytes) (ip : IpAddr) : stun_result NetworkType :=
  let net := to_ascii_lowercase network in
  let ipv4 := match ip with IpV4 _ => true | IpV6 _ => false end in
  if starts_with net (str "udp") then Ok (if ipv4 then Udp4 else Udp6)
  else if starts_with net (str "tcp") then Ok (if ipv4 then Tcp4 else Tcp6)
  else Err ErrDetermineNetworkType.

Inductive TcpType := TtUnspecified | Active | Passive | SimultaneousOpen.
#[export] Instance TcpType_eq_dec : EqDecision TcpType. Proof. solve_decision. Defined.
Definition TcpType_from (raw : bytes) : TcpType :=
  if bool_decide (raw = str "active") then Active
  else if bool_decide (raw = str "passive") then Passive
  else if bool_decide (raw = str "so") then SimultaneousOpen else TtUnspecified.
Definition TcpType_to_string (t : TcpType) : bytes :=
  match t with Active => str "active" | Passive => str "passive" | SimultaneousOpen => str "so" | TtUnspecified => str "unspecified" end.

(** * Candidates *)

Inductive CandidateType := CtUnspecified | Host | ServerReflexive | PeerReflexive | Relay.
#[export] Instance CandidateType_eq_dec : EqDecision CandidateType. Proof. solve_decision. Defined.
Definition CandidateType_to_string (t : CandidateType) : bytes :=
  match t with
  | Host => str "host"
  | ServerReflexive => str "srflx"
  | PeerReflexive => str "prflx"
  | Relay => str "relay"
  | CtUnspecified => str "Unknown candidate type"
  end.
Definition preference (t : CandidateType) : Z :=
  match t with Host => 126 | PeerReflexive => 110 | ServerReflexive => 100 | Relay | CtUnspecified => 0 end.
Definition contains_candidate_type (t : CandidateType) (l : list CandidateType) : bool := existsb (fun ct => bool_decide (ct = t)) l.

Record CandidateRelatedAddress := mkRelatedAddress { rel_address : bytes; rel_port : Z }.
#[export] Instance CandidateRelatedAddress_eq_dec : EqDecision CandidateRelatedAddress. Proof. solve_decision. Defined.

Record CandidateConfig := mkCandidateConfig {
  cfg_candidate_id : bytes;
  cfg_network : bytes;
  cfg_address : bytes;
  cfg_port : Z;
  cfg_component : Z;
  cfg_priority : Z;
  cfg_foundation : bytes
}.

Record Candidate := mkCandidate {
  c_id : bytes;
  c_network_type : NetworkType;
  c_candidate_type : CandidateType;
  c_component : Z;
  c_address : bytes;
  c_port : Z;
  c_related_address : option CandidateRelatedAddress;
  c_tcp_type : TcpType;
  c_resolved_addr : SocketAddr;
  c_last_sent : option Z;
  c_last_received : option Z;
  c_foundation_override : bytes;
  c_priority_override : Z;
  c_network : bytes;
  c_url : option bytes
}.
#[export] Instance eta_candidate : Eta Candidate := fun c =>
  mkCandidate (c_id c) (c_network_type c) (c_candidate_type c) (c_component c) (c_address c) (c_port c) (c_related_address c) (c_tcp_type c)
    (c_resolved_addr c) (c_last_sent c) (c_last_received c) (c_foundation_override c) (c_priority_override c) (c_network c) (c_url c).

Definition UNSPECIFIED_ADDR : SocketAddr := mkSocketAddr (IpV4 [0; 0; 0; 0]) 0.
Definition Candidate_default : Candidate :=
  mkCandidate [] NtUnspecified CtUnspecified 0 [] 0 None TtUnspecified UNSPECIFIED_ADDR None None [] 0 [] None.

Section candidate.
(** The [crc] crate's CRC-32C. *)
Context (crc32c : bytes -> Z).

Definition foundation (c : Candidate) : bytes :=
  if bool_decide (c_foundation_override c <> []) then c_foundation_override c
  else display (as_u32 (crc32c (CandidateType_to_string (c_candidate_type c) ++ c_address c ++ NetworkType_to_string (c_network_type c)))).
End candidate.

Definition DEFAULT_LOCAL_PREFERENCE : Z := 65535.
Definition local_preference (c : Candidate) : Z :=
  if is_tcp (c_network_type c) then
    let other_pref := 8191 in
    let direction_pref :=
      match c_candidate_type c with
      | Host | Relay => match c_tcp_type c with Active => 6 | Passive => 4 | SimultaneousOpen => 2 | TtUnspecified => 0 end
      | PeerReflexive | ServerReflexive => match c_tcp_type c with SimultaneousOpen => 6 | Active => 4 | Passive => 2 | TtUnspecified => 0 end
      | CtUnspecified => 0
      end in
    8192 * direction_pref + other_pref
  else DEFAULT_LOCAL_PREFERENCE.

(** [256 - component] is computed on a [u32]. *)
Definition Candidate_priority `{OverflowChecks} {E} (c : Candidate) : outcome E Z :=
  if negb (c_priority_override c =? 0) then Ok (c_priority_override c)
  else
    rest ← sub_ovf overflow_checks U32 256 (c_component c);
    add_ovf overflow_checks U32 (16777216 * preference (c_candidate_type c) + 256 * local_preference c) rest.

Definition Candidate_addr (c : Candidate) : SocketAddr := c_resolved_addr c.
Definition base_addr (c : Candidate) : SocketAddr :=
  match c_candidate_type c with
  | ServerReflexive | PeerReflexive =>
      match c_related_address c with
      | Some ra => match parse_ip (rel_address ra) with Some ip => mkSocketAddr ip (rel_port ra) | None => c_resolved_addr c end
      | None => c_resolved_addr c
      end
  | _ => c_resolved_addr c
  end.

Definition seen (now : Z) (outbound : bool) (c : Candidate) : Candidate :=
  if outbound then c <| c_last_sent := Some now |> else c <| c_last_received := Some now |>.

Definition Candidate_equal (c d : Candidate) : bool :=
  bool_decide (c_network_type c = c_network_type d) && bool_decide (c_candidate_type c = c_candidate_type d)
  && bool_decide (c_address c = c_address d) && (c_port c =? c_port d) && bool_decide (c_tcp_type c = c_tcp_type d)
  && bool_decide (c_related_address c = c_related_address d).

Definition can_pair_with (c d : Candidate) : bool :=
  if negb (bool_decide (c_network_type c = c_network_type d)) then false
  else
    match c_tcp_type c, c_tcp_type d with
    | Active, Passive | Passive, Active | SimultaneousOpen, SimultaneousOpen | TtUnspecified, TtUnspecified => true
    | _, _ => false
    end.

Definition set_ip (ip : IpAddr) (c : Candidate) : stun_result Candidate :=
  t ← determine_network_type (c_network c) ip;
  Ok (c <| c_network_type := t |> <| c_resolved_addr := mkSocketAddr ip (c_port c) |>).

(** ** Constructors; [gen_id] is the random identifier. *)

Definition candidate_id (gen_id : bytes) (cfg : CandidateConfig) : bytes :=
  if bool_decide (cfg_candidate_id cfg = []) then gen_id else cfg_candidate_id cfg.

Definition new_candidate_host (gen_id : bytes) (cfg : CandidateConfig) (tcp_type : TcpType) : stun_result Candidate :=
  '(resolved_addr, network_type) ←
    (if negb (ends_with (cfg_address cfg) (str ".local")) then
       match parse_ip (cfg_address cfg) with
       | None => Err ErrAddressParseFailed
       | Some ip => t ← determine_network_type (cfg_network cfg) ip; Ok (mkSocketAddr ip (cfg_port cfg), t)
       end
     else Ok (UNSPECIFIED_ADDR, Udp4));
  Ok (mkCandidate (candidate_id gen_id cfg) network_type Host (cfg_component cfg) (cfg_address cfg) (cfg_port cfg) None tcp_type
        resolved_addr None None (cfg_foundation cfg) (cfg_priority cfg) (cfg_network cfg) None).

(** Server reflexive, peer reflexive and relay candidates; a peer reflexive one has no URL. *)
Definition new_candidate_derived (typ : CandidateType) (gen_id : bytes) (cfg : CandidateConfig) (rel_addr : bytes) (rel_port : Z) (url : option bytes) :
  stun_result Candidate :=
  match parse_ip (cfg_address cfg) with
  | None => Err ErrAddressParseFailed
  | Some ip =>
      network_type ← determine_network_type (cfg_network cfg) ip;
      Ok (mkCandidate (candidate_id gen_id cfg) network_type typ (cfg_component cfg) (cfg_address cfg) (cfg_port cfg)
            (Some (mkRelatedAddress rel_addr rel_port)) TtUnspecified (mkSocketAddr ip (cfg_port cfg)) None None
            (cfg_foundation cfg) (cfg_priority cfg) [] url)
  end.
Definition new_candidate_server_reflexive := new_candidate_derived ServerReflexive.
Definition new_candidate_peer_reflexive (gen_id : bytes) (cfg : CandidateConfig) (rel_addr : bytes) (rel_port : Z) : stun_result Candidate :=
  new_candidate_derived PeerReflexive gen_id cfg rel_addr rel_port None.
Definition new_candidate_relay := new_candidate_derived Relay.

(** ** Text *)

Section text.
Context `{OverflowChecks} (crc32c : bytes -> Z).

Definition Candidate_marshal (c : Candidate) : stun_result bytes :=
  priority ← Candidate_priority c;
  let val := foundation crc32c c ++ [32] ++ display (c_component c) ++ [32] ++ network_short (c_network_type c) ++ [32] ++ display priority ++ [32]
             ++ c_address c ++ [32] ++ display (c_port c) ++ str " typ " ++ CandidateType_to_string (c_candidate_type c) in
  let val := if negb (bool_decide (c_tcp_type c = TtUnspecified)) then val ++ str " tcptype " ++ TcpType_to_string (c_tcp_type c) else val in
  Ok (match c_related_address c with
      | Some ra => val ++ str " raddr " ++ rel_address ra ++ str " rport " ++ display (rel_port ra)
      | None => val
      end).
End text.

(** [s.parse()?] *)
Definition parse_int (max : Z) (s : bytes) : stun_result Z := match parse_uint max s with Some n => Ok n | None => Err IceParseInt end.

(** What follows the type: a related address, or a TCP type. *)
Definition read_extension (split2 : list bytes) : stun_result (bytes * Z * TcpType) :=
  match split2 with
  | [] => Ok ([], 0, TtUnspecified)
  | key :: _ =>
      if bool_decide (key = str "raddr") then
        match split2 with
        | _ :: addr :: _ :: port :: _ => rel_port ← parse_int 65535 port; Ok (addr, rel_port, TtUnspecified)
        | _ => Err OtherParseRelatedAddr
        end
      else if bool_decide (key = str "tcptype") then
        match split2 with
        | _ :: t :: _ => Ok ([], 0, TcpType_from t)
        | _ => Err OtherParseType
        end
      else Ok ([], 0, TtUnspecified)
  end.

Definition unmarshal_candidate (gen_id raw : bytes) : stun_result Candidate :=
  match split_whitespace raw with
  | foundation :: component :: network :: priority :: address :: port :: _ :: typ :: split2 =>
      component ← parse_int 65535 component;
      priority ← parse_int 4294967295 priority;
      port ← parse_int 65535 port;
      '(rel_addr, rel_port, tcp_type) ← read_extension split2;
      let cfg := mkCandidateConfig [] network address port component priority foundation in
      if bool_decide (typ = str "host") then new_candidate_host gen_id cfg tcp_type
      else if bool_decide (typ = str "srflx") then new_candidate_server_reflexive gen_id cfg rel_addr rel_port None
      else if bool_decide (typ = str "prflx") then new_candidate_peer_reflexive gen_id cfg rel_addr rel_port
      else if bool_decide (typ = str "relay") then new_candidate_relay gen_id cfg rel_addr rel_port None
      else Err OtherUnknownCandidateType
  | _ => Err OtherTooShortIceCandidate
  end.

(** * Pairs *)

Inductive CandidatePairState := PsUnspecified | PsWaiting | PsInProgress | PsFailed | PsSucceeded.
#[export] Instance CandidatePairState_eq_dec : EqDecision CandidatePairState. Proof. solve_decision. Defined.

Record CandidatePair := mkPair {
  cp_local_index : Z;
  cp_remote_index : Z;
  cp_local_priority : Z;
  cp_remote_priority : Z;
  cp_ice_role_controlling : bool;
  cp_binding_request_count : Z;
  cp_state : CandidatePairState;
  cp_nominated : bool;
  cp_requests_sent : Z;
  cp_requests_received : Z;
  cp_responses_sent : Z;
  cp_responses_received : Z;
  cp_consent_requests_sent : Z;
  cp_total_round_trip_time : Z;
  cp_current_round_trip_time : Z
}.
#[export] Instance eta_pair : Eta CandidatePair := fun p =>
  mkPair (cp_local_index p) (cp_remote_index p) (cp_local_priority p) (cp_remote_priority p) (cp_ice_role_controlling p) (cp_binding_request_count p)
    (cp_state p) (cp_nominated p) (cp_requests_sent p) (cp_requests_received p) (cp_responses_sent p) (cp_responses_received p)
    (cp_consent_requests_sent p) (cp_total_round_trip_time p) (cp_current_round_trip_time p).

Definition CandidatePair_new (local_index remote_index local_priority remote_priority : Z) (controlling : bool) : CandidatePair :=
  mkPair local_index remote_index local_priority remote_priority controlling 0 PsWaiting false 0 0 0 0 0 0 0.

Definition U64 : Z := 18446744073709551616.

(** The priorities of the controlling and the controlled side. *)
Definition pair_sides (p : CandidatePair) : Z * Z :=
  if cp_ice_role_controlling p then (cp_local_priority p, cp_remote_priority p) else (cp_remote_priority p, cp_local_priority p).
(** Computed on [u64]. *)
Definition CandidatePair_priority `{OverflowChecks} {E} (p : CandidatePair) : outcome E Z :=
  let '(g, d) := pair_sides p in
  a ← mul_ovf overflow_checks U64 4294967295 (Z.min g d);
  b ← mul_ovf overflow_checks U64 2 (Z.max g d);
  s ← add_ovf overflow_checks U64 a b;
  add_ovf overflow_checks U64 s (if d <? g then 1 else 0).

Definition on_request_sent (p : CandidatePair) : CandidatePair := p <| cp_requests_sent ::= Z.succ |>.
Definition on_request_received (p : CandidatePair) : CandidatePair := p <| cp_requests_received ::= Z.succ |>.
Definition on_response_sent (p : CandidatePair) : CandidatePair := p <| cp_responses_sent ::= Z.succ |>.
Definition on_response_received (rtt : Z) (p : CandidatePair) : CandidatePair :=
  p <| cp_responses_received ::= Z.succ |> <| cp_current_round_trip_time := rtt |> <| cp_total_round_trip_time ::= Z.add rtt |>.
Definition on_consent_request_sent (p : CandidatePair) : CandidatePair := p <| cp_consent_requests_sent ::= Z.succ |>.

(** * Pair priorities *)

Section priorities.
Context `{OverflowChecks}.

Lemma pair_priority_value {E} p g d : pair_sides p = (g, d) -> is_u32 g -> is_u32 d ->
  CandidatePair_priority (E:=E) p = Ok (4294967295 * Z.min g d + 2 * Z.max g d + (if d <? g then 1 else 0)) /\
  0 <= 4294967295 * Z.min g d + 2 * Z.max g d + (if d <? g then 1 else 0) < U64.
Proof.
  intros Hs Hg Hd. unfold is_u32, U64 in *. unfold CandidatePair_priority, U64. rewrite Hs.
  assert (Hb : 0 <= 4294967295 * Z.min g d + 2 * Z.max g d + (if d <? g then 1 else 0) < 18446744073709551616) by (destruct (Z.ltb_spec d g); lia).
  split; [|exact Hb]. rewrite mul_ovf_Ok by lia. cbn [mbind outcome_bind]. rewrite mul_ovf_Ok by lia. cbn [mbind outcome_bind].
  rewrite add_ovf_Ok by (destruct (d <? g); lia). cbn [mbind outcome_bind]. by rewrite add_ovf_Ok by (destruct (d <? g); lia).
Qed.
End priorities.

(** The pair as the other agent has it. *)
Definition mirrored (p p' : CandidatePair) : Prop :=
  cp_local_priority p' = cp_remote_priority p /\ cp_remote_priority p' = cp_local_priority p /\ cp_ice_role_controlling p' = negb (cp_ice_role_controlling p).

(** Pairs in the order of RFC 8445: by the smaller priority, then the larger one, then
    whether the controlling side has it. *)
Definition pair_before (p q : CandidatePair) : Prop :=
  let '(g, d) := pair_sides p in
  let '(g', d') := pair_sides q in
  Z.min g d < Z.min g' d' \/
  (Z.min g d = Z.min g' d' /\ (Z.max g d < Z.max g' d' \/ (Z.max g d = Z.max g' d' /\ (g <= d /\ d' < g')))).
Definition pair_ok (bound : Z) (p : CandidatePair) : Prop := 0 <= cp_local_priority p < bound /\ 0 <= cp_remote_priority p < bound.

(** The priority of a pair never overflows, is the same at both ends, and orders pairs of
    candidates with 31-bit priorities, which are those of RFC 8445, as the RFC asks, although it
    is computed with 2^32 - 1 in place of 2^32. *)
Theorem ice_pair_priority `{OverflowChecks} p q : pair_ok 4294967296 p -> pair_ok 4294967296 q ->
  exists a b, CandidatePair_priority (E:=StunError) p = Ok a /\ CandidatePair_priority (E:=StunError) q = Ok b /\ 0 <= a < U64 /\
    (forall p', mirrored p p' -> CandidatePair_priority (E:=StunError) p' = Ok a) /\
    (pair_ok 2147483648 p -> pair_ok 2147483648 q -> (a < b <-> pair_before p q)).
Proof.
  intros [Hp1 Hp2] [Hq1 Hq2]. destruct (pair_sides p) as [g d] eqn:Ep. destruct (pair_sides q) as [g' d'] eqn:Eq.
  assert (Hg : is_u32 g /\ is_u32 d) by (unfold pair_sides, is_u32 in *; destruct (cp_ice_role_controlling p); by simplify_eq).
  assert (Hg' : is_u32 g' /\ is_u32 d') by (unfold pair_sides, is_u32 in *; destruct (cp_ice_role_controlling q); by simplify_eq).
  destruct (pair_priority_value (E:=StunError) p g d Ep) as [Ha Hab]; [apply Hg..|]. destruct (pair_priority_value (E:=StunError) q g' d' Eq) as [Hb _]; [apply Hg'..|].
  eexists _, _. split; [exact Ha|]. split; [exact Hb|]. split; [done|]. split.
  - intros p' (E1 & E2 & E3). apply pair_priority_value; [|apply Hg..]. unfold pair_sides in *. rewrite E1, E2, E3. by destruct (cp_ice_role_controlling p).
  - intros [H1 H2] [H3 H4]. assert (Hk : 0 <= g < 2147483648 /\ 0 <= d < 2147483648) by (unfold pair_sides in Ep; destruct (cp_ice_role_controlling p); by simplify_eq).
    assert (Hk' : 0 <= g' < 2147483648 /\ 0 <= d' < 2147483648) by (unfold pair_sides in Eq; destruct (cp_ice_role_controlling q); by simplify_eq).
    unfold pair_before. rewrite Ep, Eq. clear -Hk Hk'. destruct (Z.ltb_spec d g), (Z.ltb_spec d' g'); lia.
Qed.

Lemma ice_pair_priority_witness : exists a b,
  CandidatePair_priority (H:=true) (E:=StunError) (CandidatePair_new 0 0 2130706431 1694498815 true) = Ok a /\
  CandidatePair_priority (H:=true) (E:=StunError) (CandidatePair_new 0 1 2130706431 16777215 false) = Ok b /\ b < a.
Proof.
  destruct (ice_pair_priority (H:=true) (CandidatePair_new 0 1 2130706431 16777215 false) (CandidatePair_new 0 0 2130706431 1694498815 true)) as (b & a & Hb & Ha & _ & _ & Ho);
    [done|done|]. exists a, b. split_and!; [done|done|]. apply Ho; [done|done|]. vm_compute. by left.
Defined.

(** * The text of a candidate *)

Section roundtrip.
Context `{OverflowChecks} (crc32c : bytes -> Z).

(** The candidates the attribute can carry: printable words, a type, an address that is the
    text of the resolved one, a related address exactly where the type has one, and a TCP type
    only on a host candidate. *)
Record text_ok (c : Candidate) (pr : Z) : Prop := mkTextOk {
  tx_component : is_u16 (c_component c);
  tx_port : is_u16 (c_port c);
  tx_priority : Candidate_priority (E:=StunError) c = Ok pr /\ 0 < pr < 4294967296;
  tx_foundation : c_foundation_override c = [] \/ word_ok (c_foundation_override c);
  tx_address : word_ok (c_address c);
  tx_resolved : c_candidate_type c = Host /\ ends_with (c_address c) (str ".local") = true /\ c_resolved_addr c = UNSPECIFIED_ADDR /\ c_network_type c = Udp4 \/
    exists ip, (c_candidate_type c = Host -> ends_with (c_address c) (str ".local") = false) /\ parse_ip (c_address c) = Some ip /\ c_resolved_addr c = mkSocketAddr ip (c_port c) /\
      c_network_type c ∈ match ip with IpV4 _ => [Udp4; Tcp4] | IpV6 _ => [Udp6; Tcp6] end;
  tx_related : match c_candidate_type c with
               | CtUnspecified => False
               | Host => c_related_address c = None
               | _ => c_tcp_type c = TtUnspecified /\ exists ra, c_related_address c = Some ra /\ word_ok (rel_address ra) /\ is_u16 (rel_port ra)
               end
}.

Lemma word_by_compute w : bool_decide (w <> [] /\ Forall (fun c => 33 <= c <= 126) w) = true -> word_ok w.
Proof. by intros ?%bool_decide_eq_true_1. Qed.

Lemma foundation_word c : c_foundation_override c = [] \/ word_ok (c_foundation_override c) -> word_ok (foundation crc32c c).
Proof.
  intros Hf. unfold foundation. case_bool_decide as Hn; [by destruct Hf|]. apply display_word. assert (Hu := as_u32_range). split; [apply Hu|]. etrans; [apply Hu|done].
Qed.

Lemma determine_short t ip : t ∈ match ip with IpV4 _ => [Udp4; Tcp4] | IpV6 _ => [Udp6; Tcp6] end -> determine_network_type (network_short t) ip = Ok t.
Proof. destruct ip; rewrite !elem_of_cons, elem_of_nil; naive_solver. Qed.

Lemma type_word t : t <> CtUnspecified -> word_ok (CandidateType_to_string t).
Proof. intros Ht. apply word_by_compute. by destruct t. Qed.
Lemma short_word t : word_ok (network_short t).
Proof. apply word_by_compute. by destruct t. Qed.
Lemma tcp_word t : word_ok (TcpType_to_string t).
Proof. apply word_by_compute. by destruct t. Qed.
Lemma tcp_from_string t : TcpType_from (TcpType_to_string t) = t.
Proof. by destruct t. Qed.

(** The words after the type. *)
Definition extension_words (c : Candidate) : list bytes :=
  (if bool_decide (c_tcp_type c = TtUnspecified) then [] else [str "tcptype"; TcpType_to_string (c_tcp_type c)]) ++
  match c_related_address c with Some ra => [str "raddr"; rel_address ra; str "rport"; display (rel_port ra)] | None => [] end.

Definition candidate_words (c : Candidate) (pr : Z) : list bytes :=
  [foundation crc32c c; display (c_component c); network_short (c_network_type c); display pr; c_address c; display (c_port c); str "typ";
   CandidateType_to_string (c_candidate_type c)] ++ extension_words c.

(** Words with a space between each two. *)
Fixpoint join (l : list bytes) : bytes := match l with [] => [] | [w] => w | w :: l => w ++ [32] ++ join l end.

Lemma split_join l : Forall word_ok l -> split_whitespace (join l) = l.
Proof.
  unfold split_whitespace. induction 1 as [|w l Hw Hl IH]; [done|]. destruct l as [|v l]; [by apply split_word_end|].
  change (join (w :: v :: l)) with (w ++ [32] ++ join (v :: l)). rewrite split_word by done. by rewrite IH.
Qed.

Lemma marshal_words c pr : Candidate_priority (E:=StunError) c = Ok pr -> Candidate_marshal crc32c c = Ok (join (candidate_words c pr)).
Proof.
  intros Hp. unfold Candidate_marshal. rewrite Hp. cbn [mbind outcome_bind]. f_equal. unfold candidate_words, extension_words.
  change (str " typ ") with ([32] ++ str "typ" ++ [32]). change (str " tcptype ") with ([32] ++ str "tcptype" ++ [32]).
  change (str " raddr ") with ([32] ++ str "raddr" ++ [32]). change (str " rport ") with ([32] ++ str "rport" ++ [32]).
  destruct (bool_decide (c_tcp_type c = TtUnspecified)); destruct (c_related_address c) as [ra|]; cbn [negb app join];
    repeat (rewrite <- (assoc_L app) || cbn [app]); reflexivity.
Qed.

Lemma candidate_words_ok c pr : text_ok c pr -> Forall word_ok (candidate_words c pr).
Proof.
  intros [H1 H2 [_ H3] H4 H5 _ H7]. unfold candidate_words, extension_words. apply Forall_app. split.
  - repeat apply Forall_cons_2; try apply Forall_nil_2; try done;
      [by apply foundation_word|apply display_word; unfold is_u16 in *; lia|apply short_word|apply display_word; lia|apply display_word; unfold is_u16 in *; lia|by apply word_by_compute|].
    apply type_word. intros E. by rewrite E in H7.
  - apply Forall_app. split.
    + case_bool_decide; [constructor|]. repeat apply Forall_cons_2; [by apply word_by_compute|apply tcp_word|constructor].
    + destruct (c_candidate_type c); [done|rewrite H7; constructor|destruct H7 as (_ & ra & -> & Hw & Hr)..];
        (repeat apply Forall_cons_2; [by apply word_by_compute|done|by apply word_by_compute|apply display_word; unfold is_u16 in *; lia|constructor]).
Qed.

(** A candidate as a peer reads it: a new identifier, the foundation and the priority fixed to
    what the text says, the network by its short name on a host candidate, and no history. *)
Definition read_as (gen_id : bytes) (c : Candidate) (pr : Z) : Candidate :=
  mkCandidate gen_id (c_network_type c) (c_candidate_type c) (c_component c) (c_address c) (c_port c) (c_related_address c) (c_tcp_type c) (c_resolved_addr c)
    None None (foundation crc32c c) pr (if bool_decide (c_candidate_type c = Host) then network_short (c_network_type c) else []) None.

Lemma parse_int_display n max : 0 <= n <= max -> max < 10 ^ 20 -> parse_int max (display n) = Ok n.
Proof. intros. unfold parse_int. by rewrite parse_display. Qed.

Lemma read_extension_words c : (c_related_address c = None \/ c_tcp_type c = TtUnspecified /\ exists ra, c_related_address c = Some ra /\ is_u16 (rel_port ra)) ->
  read_extension (extension_words c) = Ok (match c_related_address c with Some ra => (rel_address ra, rel_port ra) | None => ([], 0) end, c_tcp_type c).
Proof.
  unfold extension_words. intros [->|(-> & ra & -> & Hr)].
  - destruct (c_tcp_type c); reflexivity.
  - rewrite bool_decide_true by done. cbn [app read_extension]. rewrite bool_decide_true by done. by rewrite parse_int_display by (unfold is_u16 in *; lia).
Qed.

(** The configuration the words of the text give. *)
Definition words_config (c : Candidate) (pr : Z) : CandidateConfig :=
  mkCandidateConfig [] (network_short (c_network_type c)) (c_address c) (c_port c) (c_component c) pr (foundation crc32c c).

Lemma host_again c pr gen_id : text_ok c pr -> c_candidate_type c = Host -> new_candidate_host gen_id (words_config c pr) (c_tcp_type c) = Ok (read_as gen_id c pr).
Proof.
  intros [_ _ _ _ _ H6 H7] Ht. rewrite Ht in H7. unfold new_candidate_host, read_as. cbn [words_config cfg_address cfg_network cfg_port cfg_component cfg_priority cfg_foundation].
  rewrite Ht, H7, bool_decide_true by done. destruct H6 as [(_ & -> & -> & ->)|(ip & He & Hi & Ha & Hn)]; [done|].
  rewrite (He Ht). cbn [negb]. rewrite Hi, (determine_short _ _ Hn). cbn [mbind outcome_bind]. by rewrite Ha.
Qed.

Lemma derived_again c pr gen_id ra : text_ok c pr -> c_candidate_type c <> Host -> c_tcp_type c = TtUnspecified -> c_related_address c = Some ra ->
  new_candidate_derived (c_candidate_type c) gen_id (words_config c pr) (rel_address ra) (rel_port ra) None = Ok (read_as gen_id c pr).
Proof.
  intros [_ _ _ _ _ H6 _] Ht Htcp Hr. unfold new_candidate_derived, read_as. cbn [words_config cfg_address cfg_network cfg_port cfg_component cfg_priority cfg_foundation].
  rewrite Htcp, Hr, bool_decide_false by done. destruct H6 as [(? & _)|(ip & _ & -> & -> & Hn)]; [done|].
  rewrite (determine_short _ _ Hn). cbn [mbind outcome_bind]. by destruct ra.
Qed.

(** A candidate is read back from its text. *)
Theorem candidate_text_roundtrip c pr gen_id : text_ok c pr ->
  exists b, Candidate_marshal crc32c c = Ok b /\ unmarshal_candidate gen_id b = Ok (read_as gen_id c pr).
Proof.
  intros T. pose proof (candidate_words_ok c pr T) as Hw. pose proof (host_again c pr gen_id T) as Hh. pose proof (derived_again c pr gen_id) as Hd.
  pose proof T as [H1 H2 [Hp H3] _ _ _ H7].
  exists (join (candidate_words c pr)). split; [by apply marshal_words|]. unfold unmarshal_candidate. rewrite split_join by done. unfold candidate_words. cbn [app].
  unfold is_u16 in *. rewrite !parse_int_display by lia. cbn [mbind outcome_bind].
  rewrite read_extension_words by (destruct (c_candidate_type c); [done|by left|right; destruct H7 as (? & ra & ? & _ & ?); split; [done|by exists ra]..]). cbn [mbind outcome_bind].
  fold (words_config c pr). destruct (c_candidate_type c) eqn:Ht; [done|rewrite H7; by apply Hh|destruct H7 as (Htcp & ra & Hr & _); rewrite Hr; by apply Hd..].
Qed.
End roundtrip.

(** A server reflexive candidate on IPv6, for a checksum of 647372371. *)
Definition example_candidate : Candidate :=
  mkCandidate (str "id") Udp6 ServerReflexive 1 (str "2001:db8::7") 3478 (Some (mkRelatedAddress (str "10.0.0.1") 5000)) TtUnspecified
    (mkSocketAddr (IpV6 [32; 1; 13; 184; 0; 0; 0; 0; 0; 0; 0; 0; 0; 0; 0; 7]) 3478) None None [] 0 [] None.
Lemma example_candidate_text :
  Candidate_marshal (H:=true) (fun _ => 647372371) example_candidate = Ok (str "647372371 1 udp 1694498815 2001:db8::7 3478 typ srflx raddr 10.0.0.1 rport 5000") /\
  unmarshal_candidate (str "new") (str "647372371 1 udp 1694498815 2001:db8::7 3478 typ srflx raddr 10.0.0.1 rport 5000") =
    Ok (read_as (fun _ => 647372371) (str "new") example_candidate 1694498815).
Proof. by vm_compute. Qed.

(** ** Texts that lose something *)

(** A TCP type after the related address, as RFC 6544 writes it, is not read. *)
Lemma tcptype_after_raddr_lost :
  (fun c => (c_network_type c, c_tcp_type c)) <$>
    match unmarshal_candidate [] (str "1 1 tcp 1684798975 192.0.2.3 9 typ srflx raddr 10.0.1.1 rport 9 tcptype active") with Ok c => Some c | _ => None end =
  Some (Tcp4, TtUnspecified).
Proof. by vm_compute. Qed.

(** A remote candidate of component 300 that gives no priority: computing one subtracts the
    component from 256, which panics where overflow is checked. *)
Lemma component_priority_panics :
  exists c, unmarshal_candidate [] (str "1 300 udp 0 192.0.2.3 9 typ host") = Ok c /\ Candidate_priority (H:=true) (E:=StunError) c = Panic.
Proof. eexists. split; [vm_compute; reflexivity|]. by vm_compute. Qed.
